(* ===== verification/_CoqProject ===== *)
-Q . S2P
Prelude.v
Sshbuf.v
SshbufGetput.v
SshbufSpec.v
SshbufHeap.v
CString.v
Base64.v
SshbufMisc.v
Words.v
Chacha.v
Poly1305.v
ChachaPoly.v
Cipher.v
Hmac.v
Mac.v
PacketState.v
Packet.v
PacketBuf.v
Codec.v
PacketSend.v
PacketRecv.v
PacketLink.v
PacketFrame.v
PacketAuth.v
PacketQueue.v
Match.v
SshkeyNames.v
KexNames.v
Kex.v
Misc.v
Compat.v
KexInput.v
Curve25519.v
KexGen.v
Dispatch.v
SshApi.v
KexProp.v
KexDemo.v
KexAgree.v
KexKeys.v
KexLink.v
KexAuth.v
KexFrame.v
KexOrder.v
ApiBanner.v
Addr.v
Bitmap.v
ByteQueue.v
Nchan.v
ChanIO.v
ChanInv.v
ChanFlow.v
ChanFrame.v
ChanRecv.v
ChanPair.v
ChanTable.v
ChanProps.v
MiscProps.v
AuthOptions.v
AuthOptProps.v
CertOptions.v
KeyOptions.v
Auth.v
AuthMethods.v
Monitor.v
MonitorInv.v
MonitorAuth.v
MonitorProps.v
MonitorTurns.v
MonitorDemo.v
