(* ===== verification/Prelude.v ===== *)
(** * OpenSSH portable: a verification of its transport, channel and authentication code

    ** The program

    OpenSSH portable is an SSH client, server and their tools, in C.  Below the
    programs lies a protocol engine: byte buffers (src/sshbuf.c and its companions),
    the packet layer that seals, queues, sends, receives and opens packets
    (src/packet.c) with its ciphers and authentication codes (src/cipher.c,
    src/chacha.c, src/poly1305.c, src/mac.c, src/hmac.c), the key exchange that gives
    it keys (src/kex.c, src/kexgen.c, src/kexc25519.c, src/smult_curve25519_ref.c) through a
    table of handlers (src/dispatch.c), and the channels that share one connection
    (src/channels.c, src/nchan.c).  Next to it are the functions that decide who
    and what is let in: patterns, addresses and lists (src/match.c, src/addr.c,
    src/addrmatch.c), algorithm names and defaults (src/kex-names.c, src/sshkey.c,
    src/compat.c, src/myproposal.h), the options of keys and certificates
    (src/auth-options.c), and the lists of methods and the rules of src/auth.c and
    src/auth2.c.  In the server the engine runs in an unprivileged process; a
    privileged one, the monitor (src/monitor.c), answers its requests over a pipe and
    decides by itself who is authenticated.  src/ssh_api.c runs the engine without a
    socket.  This library models that engine, those functions and the monitor.

    ** How code is modelled

    A function that updates an object is a function of [ST S A], from the object
    to a result and the object; a result is [Ok] with the value, [Err] with the
    SSH_ERR_ code, or [Crash] when the process is killed: a failed sanity check, or an
    access outside the memory an object owns, both of which the definitions check.  [Err EXIT] is the
    end of the process through fatal().  Integers are [Z]; every operation
    that can wrap is reduced ([u8], [u16], [u32], [u64]), and bytes are integers below
    256.  A C string is the list of its characters.  What the environment answers is an
    argument: pointers of the allocator (0 is NULL), bytes of read(2), lengths taken by
    write(2), random numbers, the time ([penv] for the packet layer; [mon_os] for the
    monitor, with accounts, password hashes, PAM and key files).  Libraries that are
    not part of the sources are classes: [EVP], [EVP_MD] (libcrypto), [ZLIB], and
    [UMAC], [SSHKEY] for src/umac.c and the keys of src/sshkey.c, with the documented
    laws as separate classes that only the theorems need.  Log messages are left out.

    ** The files

    - Prelude.v: results, the monad and its notations, machine integers, lists
      indexed by [Z], tactics ([zl], [zbool], [ifcase] and the like).
      CString.v: strings and the C library on them.  Words.v: words as bytes.
    - Sshbuf.v, SshbufGetput.v, SshbufMisc.v, Base64.v: buffers ([sshbuf], with
      [sshbuf_wf] as its invariant) and every typed read and write.  SshbufSpec.v:
      a buffer as a bounded queue of bytes.  SshbufHeap.v: buffers with parents and
      reference counts in a store.  ByteQueue.v: the interface that channels use.
    - Match.v, Addr.v, Bitmap.v: patterns, pattern lists and algorithm lists;
      addresses, CIDR lists, the enumeration of a range; bit maps.
    - Chacha.v, Poly1305.v, ChachaPoly.v, Cipher.v, Hmac.v, Mac.v: ciphers and codes.
    - PacketState.v ([session_state]), Packet.v (the code), PacketBuf.v (lemmas on it),
      PacketSend.v, PacketRecv.v, PacketLink.v (two ends), PacketAuth.v (hostile
      input), PacketQueue.v (messages during an exchange), PacketFrame.v (the two directions).
    - SshkeyNames.v, KexNames.v, Compat.v: names of algorithms and default proposals.
      Kex.v ([ssh], the table of handlers, negotiation, key derivation), KexInput.v
      (the messages), Curve25519.v, KexGen.v (the generic method), Dispatch.v (the loop),
      SshApi.v (the interface).
    - KexProp.v (proposals as bytes), KexAgree.v (negotiation as a function of two
      proposals), KexKeys.v (key derivation), KexLink.v (from keys to a connection),
      KexAuth.v (the exchange hash and its signature), KexFrame.v and KexOrder.v (the
      order of messages), ApiBanner.v (reading a version), KexDemo.v (concrete ends).
    - Nchan.v (the half close machine), ChanIO.v (data and windows), ChanTable.v (the
      table), ChanInv.v, ChanFlow.v, ChanFrame.v, ChanRecv.v, ChanPair.v, ChanProps.v.

    - Codec.v: what a run writes to or reads from a buffer, as combinators.
      Misc.v, MiscProps.v: strings of src/misc.c.  AuthOptions.v (src/auth-options.c),
      AuthOptProps.v, CertOptions.v, KeyOptions.v: options and their properties.
    - Auth.v (methods, users, root, passwords), AuthMethods.v (what completes a list),
      Monitor.v ([mon], the tables, the handlers, the loop), MonitorInv.v (what a handler
      leaves as it was), MonitorAuth.v (proofs of authentication, the effect of each
      handler), MonitorProps.v (the invariant of the loop), MonitorTurns.v (the loop ends),
      MonitorDemo.v (runs).

    ** What is shown

    - Buffers: any sequence of operations with any arguments and any answers of the
      allocator behaves as a bounded queue, without a crash; messages of typed fields
      come back as written; reference counts never free what is in use.
    - Packets: two ends with the same keys deliver exactly what was sent, under every
      interleaving of sending, writing, receiving in pieces and polling; on arbitrary
      input nothing is delivered whose code was not checked; messages held back during an
      exchange leave in order, under the new keys.
    - Key exchange: two ends that saw the same proposals choose the same algorithms;
      the exchange hash determines everything it is made of; a client installs keys
      only after the host key was accepted and its signature of that hash verified; both
      ends then derive the same keys and are connected in the sense of the packet theorem;
      handlers see messages in the order of the protocol, and in strict mode nothing else;
      Curve25519 multiplication is the Montgomery ladder, without overflow.
    - Primitives: ChaCha20 is a stream cipher with a 64-bit block counter, Poly1305
      computes its polynomial, their combination delivers nothing unauthenticated, HMAC with copied contexts is
      HMAC.
    - Channels: windows are never exceeded between two ends and are given back, messages
      conform to the protocol (nothing after CLOSE, no data after EOF), a closed
      channel is freed, descriptors are closed once, the table stays consistent under any
      peer.
    - Decisions: patterns match as globs do, lists as their entries say, CIDR entries as
      prefixes; base 64 and bit map texts are exact.
    - Options: the text of options is read as their effect in order; a certificate is
      accepted exactly when its critical options are known and well formed; a merge allows what both
      sets allow; options and argument vectors come back from their text.
    - Monitor: whatever the unprivileged process sends, a user is authenticated only
      with a proof for each method that counted, bound to the session and the user, with no key
      counted twice, and with a configured list of methods completed in order.

    The lemmas that show a defect: [sshbuf_reset_small_limit], [cidr_list_junk_accepted],
    [window_grace_unbounded], [partial_banner_accepted], [additional_expiry_lost],
    [permit_message_lost], [empty_argument_lost], [different_commands_crash].

    ** Bounds and fuel

    Loops that are not structural take fuel that the caller computes from the
    data: the length of a pattern or a string, the bytes of the input (every packet takes at
    least one), the words of a bit map, [need / mdsz + 1] digests for a key, the bytes
    the child wrote to the monitor ([monitor_loop_ends]).  The theorems
    are proved for that fuel, so that running out ([Crash]) is excluded where they say that a result
    is returned.  The rounds of inflate(3) and deflate(3) are bounded by 2^28, more than the
    bytes of the largest buffer.  Loops that wait for the network take the list of answers of the system; they
    do not return when it ends.

    ** Not modelled

    Processes, sockets, files, terminals, accounts, configuration files and command
    lines (the programs, src/session.c, src/servconf.c, src/readconf.c and others):
    their work is calls into the system.  Of authentication: the methods in the
    unprivileged process (src/auth2-pubkey.c and others), the files of keys, PAM; of the monitor:
    GSSAPI, BSD authentication and auditing, terminals, logging and the packet state handed over.  Key formats, signatures and certificates
    (src/sshkey.c apart from names): the keys are libcrypto objects.  The exchange
    methods over libcrypto groups and the generated post-quantum code (src/sntrup761.c and
    others): arguments of the model.  In src/packet.c: descriptors, quality of
    service, the state blobs handed between processes.  In src/kex.c: reading the version line from a
    socket.  In src/channels.c: forwarding, X11, SOCKS and multiplexing.  Freeing
    memory, where it only frees. *)
From stdpp Require Export base tactics numbers list strings.
From Stdlib Require Export ZArith Lia.

Open Scope Z_scope.

(** ** Results of C functions

    A C function of the sources returns [0] (or a value through an out
    parameter), a negative [SSH_ERR_*] code, or does not return at all
    because the process dies: [raise(SIGSEGV)] on a corrupted buffer, or an
    access outside the memory it owns.  [Crash] is that last case. *)
Inductive res (A : Type) : Type :=
| Ok (a : A)
| Err (e : Z)
| Crash.
Arguments Ok {A} _.
Arguments Err {A} _.
Arguments Crash {A}.

#[export] Instance res_eq_dec {A} `{EqDecision A} : EqDecision (res A).
Proof. solve_decision. Defined.

(** Code that may fail and that updates an object in place. *)
Definition ST (S A : Type) : Type := S -> res A * S.

Declare Scope ssh_scope.
Delimit Scope ssh_scope with ssh.

Section Monad.
Context {S A B : Type}.

Definition ret (a : A) : ST S A := fun s => (Ok a, s).
Definition fail (e : Z) : ST S A := fun s => (Err e, s).
Definition crash : ST S A := fun s => (Crash, s).

Definition bind (m : ST S A) (f : A -> ST S B) : ST S B := fun s =>
  match m s with
  | (Ok a, s') => f a s'
  | (Err e, s') => (Err e, s')
  | (Crash, s') => (Crash, s')
  end.

(** A function that only reads the object. *)
Definition reads (f : S -> res A) : ST S A := fun s => (f s, s).

Definition get : ST S S := fun s => (Ok s, s).
Definition put (s : S) : ST S unit := fun _ => (Ok tt, s).

(** A partial operation on plain data, undefined behaviour when [None]. *)
Definition defined (o : option A) : ST S A := fun s =>
  match o with Some a => (Ok a, s) | None => (Crash, s) end.

Definition rbind (m : res A) (f : A -> res B) : res B :=
  match m with Ok a => f a | Err e => Err e | Crash => Crash end.

Definition rdefined (o : option A) : res A :=
  match o with Some a => Ok a | None => Crash end.
End Monad.

Lemma bind_ok {S A B} (m : ST S A) (f : A -> ST S B) s a s' :
  m s = (Ok a, s') -> bind m f s = f a s'.
Proof. intros E. unfold bind. by rewrite E. Qed.

Lemma bind_err {S A B} (m : ST S A) (f : A -> ST S B) s e s' :
  m s = (Err e, s') -> bind m f s = (Err e, s').
Proof. intros E. unfold bind. by rewrite E. Qed.

Lemma reads_ok {S A} (f : S -> res A) s a : f s = Ok a -> reads f s = (Ok a, s).
Proof. intros E. unfold reads. by rewrite E. Qed.

Notation "'let!' x ':=' c1 'in' c2" := (bind c1 (fun x => c2))
  (at level 10, x name, c1 at level 99, c2 at level 200) : ssh_scope.
Notation "'do!' c1 ';;' c2" := (bind c1 (fun _ => c2))
  (at level 10, c1 at level 99, c2 at level 200) : ssh_scope.
Notation "'let?' x ':=' c1 'in' c2" := (rbind c1 (fun x => c2))
  (at level 10, x name, c1 at level 99, c2 at level 200) : ssh_scope.
Notation "'do?' c1 ';;' c2" := (rbind c1 (fun _ => c2))
  (at level 10, c1 at level 99, c2 at level 200) : ssh_scope.
Open Scope ssh_scope.

(** ** Error codes: src/ssherr.h *)
Definition SSH_ERR_INTERNAL_ERROR : Z := -1.
Definition SSH_ERR_ALLOC_FAIL : Z := -2.
Definition SSH_ERR_MESSAGE_INCOMPLETE : Z := -3.
Definition SSH_ERR_INVALID_FORMAT : Z := -4.
Definition SSH_ERR_BIGNUM_IS_NEGATIVE : Z := -5.
Definition SSH_ERR_STRING_TOO_LARGE : Z := -6.
Definition SSH_ERR_BIGNUM_TOO_LARGE : Z := -7.
Definition SSH_ERR_NO_BUFFER_SPACE : Z := -9.
Definition SSH_ERR_INVALID_ARGUMENT : Z := -10.
Definition SSH_ERR_SYSTEM_ERROR : Z := -24.
Definition SSH_ERR_BUFFER_READ_ONLY : Z := -49.

(** ** Machine integers

    A [w]-bit unsigned integer is a [Z]; its arithmetic is written with the
    reduction that C performs. *)
Definition u8 (z : Z) : Z := z mod 2 ^ 8.
Definition u16 (z : Z) : Z := z mod 2 ^ 16.
Definition u32 (z : Z) : Z := z mod 2 ^ 32.
Definition u64 (z : Z) : Z := z mod 2 ^ 64.
Definition SIZE_MAX : Z := 2 ^ 64 - 1.

Arguments u8 : simpl never.
Arguments u16 : simpl never.
Arguments u32 : simpl never.
Arguments u64 : simpl never.

Definition is_byte (z : Z) : Prop := 0 <= z < 256.
#[export] Instance is_byte_dec z : Decision (is_byte z).
Proof. unfold is_byte. apply _. Defined.

Lemma u8_small z : 0 <= z < 2 ^ 8 -> u8 z = z.
Proof. apply Z.mod_small. Qed.
Lemma u16_small z : 0 <= z < 2 ^ 16 -> u16 z = z.
Proof. apply Z.mod_small. Qed.
Lemma u32_small z : 0 <= z < 2 ^ 32 -> u32 z = z.
Proof. apply Z.mod_small. Qed.
Lemma u64_small z : 0 <= z < 2 ^ 64 -> u64 z = z.
Proof. apply Z.mod_small. Qed.

(** ** Byte memory

    A memory block is the list of its bytes.  [mem_read] and [mem_write] are
    the only accesses; both are [None] outside the block. *)
Definition zlen {A} (l : list A) : Z := Z.of_nat (length l).

Definition ztake {A} (n : Z) (l : list A) : list A := take (Z.to_nat n) l.
Definition zdrop {A} (n : Z) (l : list A) : list A := drop (Z.to_nat n) l.

Definition mem_read (m : list Z) (o n : Z) : option (list Z) :=
  if (0 <=? o) && (0 <=? n) && (o + n <=? zlen m)
  then Some (ztake n (zdrop o m)) else None.

Definition mem_write (m : list Z) (o : Z) (v : list Z) : option (list Z) :=
  if (0 <=? o) && (o + zlen v <=? zlen m)
  then Some (ztake o m ++ v ++ zdrop (o + zlen v) m) else None.

Arguments zlen : simpl never.
Arguments ztake : simpl never.
Arguments zdrop : simpl never.
Arguments mem_read : simpl never.
Arguments mem_write : simpl never.

(** [recallocarray]: the old bytes kept up to the new size, the rest zeroed. *)
Definition mem_recalloc (m : list Z) (n : Z) : list Z :=
  ztake n m ++ replicate (Z.to_nat (n - zlen m)) 0.

(** ** Tactics *)

(** Turn boolean comparisons into arithmetic. *)
Ltac zbool :=
  repeat match goal with
  | H : (_ && _)%bool = true |- _ => apply andb_true_iff in H; destruct H
  | H : (_ || _)%bool = false |- _ => apply orb_false_iff in H; destruct H
  | H : (_ && _)%bool = false |- _ => apply andb_false_iff in H
  | H : (_ || _)%bool = true |- _ => apply orb_true_iff in H
  | H : negb _ = true |- _ => apply negb_true_iff in H
  | H : negb _ = false |- _ => apply negb_false_iff in H
  | H : (_ <=? _) = true |- _ => apply Z.leb_le in H
  | H : (_ <=? _) = false |- _ => apply Z.leb_gt in H
  | H : (_ <? _) = true |- _ => apply Z.ltb_lt in H
  | H : (_ <? _) = false |- _ => apply Z.ltb_ge in H
  | H : (_ =? _) = true |- _ => apply Z.eqb_eq in H
  | H : (_ =? _) = false |- _ => apply Z.eqb_neq in H
  end.

(** The same, splitting the disjunctions. *)
Ltac zcases := zbool; repeat (match goal with H : _ \/ _ |- _ => destruct H end; zbool).

(** Case analysis on the condition of an [if] of the goal. *)
Ltac ifcase :=
  match goal with
  | |- context [if ?c then _ else _] => let E := fresh "C" in destruct c eqn:E; zbool
  end.

(** ** Lemmas on lists and blocks *)
Section Lists.
Context {A : Type}.
Implicit Types l : list A.

Lemma zlen_nonneg l : 0 <= zlen l.
Proof. unfold zlen. lia. Qed.
Lemma zlen_nil : zlen (@nil A) = 0.
Proof. done. Qed.
Lemma zlen_cons a l : zlen (a :: l) = zlen l + 1.
Proof. unfold zlen. simpl. lia. Qed.
Lemma zlen_app l k : zlen (l ++ k) = zlen l + zlen k.
Proof. unfold zlen. rewrite length_app. lia. Qed.
Lemma zlen_take n l : zlen (ztake n l) = Z.min (Z.max n 0) (zlen l).
Proof. unfold zlen, ztake. rewrite length_take. lia. Qed.
Lemma zlen_drop n l : zlen (zdrop n l) = Z.max 0 (zlen l - Z.max n 0).
Proof. unfold zlen, zdrop. rewrite length_drop. lia. Qed.
Lemma zlen_replicate n (a : A) : zlen (replicate (Z.to_nat n) a) = Z.max n 0.
Proof. unfold zlen. rewrite length_replicate. lia. Qed.

Lemma ztake_all n l : zlen l <= n -> ztake n l = l.
Proof. unfold zlen, ztake. intros. apply take_ge. lia. Qed.
Lemma ztake_0 n l : n <= 0 -> ztake n l = [].
Proof. unfold ztake. intros. replace (Z.to_nat n) with 0%nat by lia. done. Qed.
Lemma zdrop_0 n l : n <= 0 -> zdrop n l = l.
Proof. unfold zdrop. intros. replace (Z.to_nat n) with 0%nat by lia. done. Qed.
Lemma zdrop_all n l : zlen l <= n -> zdrop n l = [].
Proof. unfold zlen, zdrop. intros. apply drop_ge. lia. Qed.
Lemma zdrop_zdrop n k l : 0 <= n -> 0 <= k -> zdrop n (zdrop k l) = zdrop (k + n) l.
Proof. unfold zdrop. intros. rewrite drop_drop. f_equal. lia. Qed.
Lemma ztake_app_le n l k : n <= zlen l -> ztake n (l ++ k) = ztake n l.
Proof. unfold ztake, zlen. intros. rewrite take_app_le; [done | lia]. Qed.
Lemma ztake_app_ge n l k : zlen l <= n -> ztake n (l ++ k) = l ++ ztake (n - zlen l) k.
Proof.
  unfold ztake, zlen. intros. rewrite take_app_ge by lia. do 2 f_equal. lia.
Qed.
Lemma zdrop_app_le n l k : n <= zlen l -> zdrop n (l ++ k) = zdrop n l ++ k.
Proof. unfold zdrop, zlen. intros. rewrite drop_app_le; [done | lia]. Qed.
Lemma zdrop_app_ge n l k : 0 <= zlen l <= n -> zdrop n (l ++ k) = zdrop (n - zlen l) k.
Proof.
  unfold zdrop, zlen. intros. rewrite drop_app_ge by lia. f_equal. lia.
Qed.
Lemma ztake_ztake n k l : ztake n (ztake k l) = ztake (Z.min n k) l.
Proof. unfold ztake. rewrite take_take. f_equal. lia. Qed.
Lemma ztake_zdrop n l : ztake n l ++ zdrop n l = l.
Proof. apply take_drop. Qed.
Lemma ztake_drop_comm n k l :
  0 <= n -> 0 <= k -> ztake n (zdrop k l) = zdrop k (ztake (k + n) l).
Proof.
  unfold ztake, zdrop. intros. rewrite take_drop_commute. do 2 f_equal. lia.
Qed.
End Lists.

Create HintDb ssh discriminated.
Create Rewrite HintDb zlen.
#[export] Hint Rewrite @zlen_nil @zlen_cons @zlen_app @zlen_take @zlen_drop
  @zlen_replicate : zlen.

(** Arithmetic on lengths. *)
Ltac zl := autorewrite with zlen in *; lia.

Lemma mem_read_some m o n :
  0 <= o -> 0 <= n -> o + n <= zlen m ->
  mem_read m o n = Some (ztake n (zdrop o m)).
Proof.
  intros. unfold mem_read. ifcase; [done | destruct C as [C|C]; zbool; lia].
Qed.

Lemma mem_write_some m o v :
  0 <= o -> o + zlen v <= zlen m ->
  mem_write m o v = Some (ztake o m ++ v ++ zdrop (o + zlen v) m).
Proof.
  intros. unfold mem_write. ifcase; [done | destruct C; lia].
Qed.

Lemma defined_ok {S A} (a : A) (s : S) : defined (Some a) s = (Ok a, s).
Proof. done. Qed.

Lemma mem_read_front a b : mem_read (a ++ b) 0 (zlen a) = Some a.
Proof. pose proof (zlen_nonneg a). pose proof (zlen_nonneg b). rewrite mem_read_some by zl. by rewrite zdrop_0, ztake_app_le, ztake_all by lia. Qed.

Lemma mem_read_at a b c : mem_read (a ++ b ++ c) (zlen a) (zlen b) = Some b.
Proof.
  pose proof (zlen_nonneg a). pose proof (zlen_nonneg b). pose proof (zlen_nonneg c). rewrite mem_read_some by zl.
  by rewrite zdrop_app_ge, Z.sub_diag, zdrop_0, ztake_app_le, ztake_all by lia.
Qed.

(** ** Counted loops

    [for (i = from; i < from + count; i++)] with a body that may fail. *)
Fixpoint for_loop {S} (from count : nat) (body : nat -> S -> option S) (s : S) : option S :=
  match count with
  | O => Some s
  | Datatypes.S n =>
      match body from s with
      | None => None
      | Some s' => for_loop (Datatypes.S from) n body s'
      end
  end.

Lemma for_loop_inv {S} (I : nat -> S -> Prop) from count body s :
  I from s ->
  (forall i s, (from <= i < from + count)%nat -> I i s ->
     exists s', body i s = Some s' /\ I (Datatypes.S i) s') ->
  exists s', for_loop from count body s = Some s' /\ I (from + count)%nat s'.
Proof.
  revert from s. induction count as [|n IH]; intros from s H0 Hstep; simpl.
  - exists s. by rewrite Nat.add_0_r.
  - destruct (Hstep from s ltac:(lia) H0) as (s1 & -> & H1).
    destruct (IH (Datatypes.S from) s1 H1) as (s2 & E2 & H2).
    + intros i t Hi. apply Hstep. lia.
    + exists s2. split; [done|]. by replace (from + Datatypes.S n)%nat with (Datatypes.S from + n)%nat by lia.
Qed.
