(* ===== verification/Sshbuf.v ===== *)
(** * sshbuf.c: the growable byte buffer

    [sshbuf] is [struct sshbuf] together with the bytes its [cd] pointer
    designates ([sb_mem], [alloc] of them for a buffer in good order).
    Pointers are flat addresses, [0] is [NULL].  The operations of one buffer
    are functions of [ST sshbuf]; what the allocator answers is an argument
    ([np], the pointer [recallocarray] returns, [0] for a failure), so that
    every theorem holds whatever it answers. *)
From S2P Require Import Prelude.

(** ** Constants of src/sshbuf.h *)
Definition SSHBUF_SIZE_MAX : Z := 0x8000000.
Definition SSHBUF_REFS_MAX : Z := 0x100000.
Definition SSHBUF_MAX_BIGNUM : Z := 16384 / 8.
Definition SSHBUF_SIZE_INIT : Z := 256.
Definition SSHBUF_SIZE_INC : Z := 256.
Definition SSHBUF_PACK_MIN : Z := 8192.

(** [ROUNDUP] of src/misc.h, on [size_t]. *)
Definition ROUNDUP (x y : Z) : Z := u64 (u64 (x + (y - 1)) / y * y).

(** ** The buffer *)
Record sshbuf : Type := mk_sshbuf {
  sb_self : Z;       (* the address of the structure *)
  sb_d : Z;          (* d *)
  sb_cd : Z;         (* cd *)
  sb_off : Z;
  sb_size : Z;
  sb_max_size : Z;
  sb_alloc : Z;
  sb_readonly : bool;
  sb_refcount : Z;
  sb_parent : Z;
  sb_mem : list Z;   (* the bytes at cd *)
}.

Definition set_window (o s : Z) (b : sshbuf) : sshbuf :=
  mk_sshbuf (sb_self b) (sb_d b) (sb_cd b) o s (sb_max_size b) (sb_alloc b)
    (sb_readonly b) (sb_refcount b) (sb_parent b) (sb_mem b).
Definition set_mem (m : list Z) (b : sshbuf) : sshbuf :=
  mk_sshbuf (sb_self b) (sb_d b) (sb_cd b) (sb_off b) (sb_size b)
    (sb_max_size b) (sb_alloc b) (sb_readonly b) (sb_refcount b) (sb_parent b) m.
Definition set_block (p n : Z) (m : list Z) (b : sshbuf) : sshbuf :=
  mk_sshbuf (sb_self b) p p (sb_off b) (sb_size b)
    (sb_max_size b) n (sb_readonly b) (sb_refcount b) (sb_parent b) m.
Definition set_max (n : Z) (b : sshbuf) : sshbuf :=
  mk_sshbuf (sb_self b) (sb_d b) (sb_cd b) (sb_off b) (sb_size b) n
    (sb_alloc b) (sb_readonly b) (sb_refcount b) (sb_parent b) (sb_mem b).
Definition set_refcount (n : Z) (b : sshbuf) : sshbuf :=
  mk_sshbuf (sb_self b) (sb_d b) (sb_cd b) (sb_off b) (sb_size b)
    (sb_max_size b) (sb_alloc b) (sb_readonly b) n (sb_parent b) (sb_mem b).
Definition set_parent_ptr (p : Z) (b : sshbuf) : sshbuf :=
  mk_sshbuf (sb_self b) (sb_d b) (sb_cd b) (sb_off b) (sb_size b)
    (sb_max_size b) (sb_alloc b) (sb_readonly b) (sb_refcount b) p (sb_mem b).

(** A corrupted buffer kills the process ([raise(SIGSEGV)]). *)
Definition sshbuf_check_sanity (b : sshbuf) : res unit :=
  if (negb (sb_readonly b) && negb (sb_d b =? sb_cd b))
     || (sb_parent b =? sb_self b)
     || (sb_refcount b <? 1) || (SSHBUF_REFS_MAX <? sb_refcount b)
     || (sb_cd b =? 0)
     || (SSHBUF_SIZE_MAX <? sb_max_size b)
     || (sb_max_size b <? sb_alloc b)
     || (sb_alloc b <? sb_size b)
     || (sb_size b <? sb_off b)
  then Crash else Ok tt.

Definition sshbuf_maybe_pack (force : bool) : ST sshbuf unit :=
  let! b := get in
  if (sb_off b =? 0) || sb_readonly b || (1 <? sb_refcount b) then ret tt
  else if force || ((SSHBUF_PACK_MIN <=? sb_off b) && (sb_size b / 2 <=? sb_off b)) then
    (* memmove(d, d + off, size - off) *)
    let! v := defined (mem_read (sb_mem b) (sb_off b) (u64 (sb_size b - sb_off b))) in
    let! m := defined (mem_write (sb_mem b) 0 v) in
    put (set_window 0 (u64 (sb_size b - sb_off b)) (set_mem m b))
  else ret tt.

(** [ps] and [pd] are what the two [calloc] calls return. *)
Definition sshbuf_new (ps pd : Z) : option sshbuf :=
  if ps =? 0 then None
  else if pd =? 0 then None
  else Some (mk_sshbuf ps pd pd 0 0 SSHBUF_SIZE_MAX SSHBUF_SIZE_INIT false 1 0
               (replicate (Z.to_nat SSHBUF_SIZE_INIT) 0)).

(** [blob] is the address of the data and [m] the [len] bytes there. *)
Definition sshbuf_from (ps blob : Z) (m : list Z) (len : Z) : option sshbuf :=
  if (blob =? 0) || (SSHBUF_SIZE_MAX <? len) || (ps =? 0) then None
  else Some (mk_sshbuf ps 0 blob 0 len len len true 1 0 m).

Definition sshbuf_reset (np : Z) : ST sshbuf unit :=
  let! b := get in
  if sb_readonly b || (1 <? sb_refcount b) then put (set_window (sb_size b) (sb_size b) b)
  else
    do! reads sshbuf_check_sanity ;;
    let b := set_window 0 0 b in
    let b := if negb (sb_alloc b =? SSHBUF_SIZE_INIT) then
               if negb (np =? 0) then
                 set_block np SSHBUF_SIZE_INIT (mem_recalloc (sb_mem b) SSHBUF_SIZE_INIT) b
               else b
             else b in
    (* explicit_bzero(d, alloc) *)
    let! m := defined (mem_write (sb_mem b) 0 (replicate (Z.to_nat (sb_alloc b)) 0)) in
    put (set_mem m b).

Definition sshbuf_max_size (b : sshbuf) : Z := sb_max_size b.
Definition sshbuf_alloc (b : sshbuf) : Z := sb_alloc b.
Definition sshbuf_parent (b : sshbuf) : Z := sb_parent b.
Definition sshbuf_refcount (b : sshbuf) : Z := sb_refcount b.

Definition sshbuf_set_max_size (np max_size : Z) : ST sshbuf unit :=
  do! reads sshbuf_check_sanity ;;
  let! b := get in
  if max_size =? sb_max_size b then ret tt
  else if sb_readonly b || (1 <? sb_refcount b) then fail SSH_ERR_BUFFER_READ_ONLY
  else if SSHBUF_SIZE_MAX <? max_size then fail SSH_ERR_NO_BUFFER_SPACE
  else
    do! sshbuf_maybe_pack (max_size <? sb_size b) ;;
    let! b := get in
    do! (if (max_size <? sb_alloc b) && (sb_size b <? max_size) then
           let rlen := if sb_size b <? SSHBUF_SIZE_INIT then SSHBUF_SIZE_INIT
                       else ROUNDUP (sb_size b) SSHBUF_SIZE_INC in
           let rlen := if max_size <? rlen then max_size else rlen in
           if np =? 0 then fail SSH_ERR_ALLOC_FAIL
           else put (set_block np rlen (mem_recalloc (sb_mem b) rlen) b)
         else ret tt) ;;
    let! b := get in
    if max_size <? sb_alloc b then fail SSH_ERR_NO_BUFFER_SPACE
    else put (set_max max_size b).

Definition sshbuf_len (b : sshbuf) : res Z :=
  do? sshbuf_check_sanity b ;; Ok (u64 (sb_size b - sb_off b)).

Definition sshbuf_avail (b : sshbuf) : res Z :=
  do? sshbuf_check_sanity b ;;
  if sb_readonly b || (1 <? sb_refcount b) then Ok 0
  else Ok (u64 (sb_max_size b - u64 (sb_size b - sb_off b))).

(** [sshbuf_ptr] and [sshbuf_mutable_ptr] return an offset from [cd]. *)
Definition sshbuf_ptr (b : sshbuf) : res Z :=
  do? sshbuf_check_sanity b ;; Ok (sb_off b).

Definition sshbuf_mutable_ptr (b : sshbuf) : res (option Z) :=
  do? sshbuf_check_sanity b ;;
  if sb_readonly b || (1 <? sb_refcount b) then Ok None else Ok (Some (sb_off b)).

Definition sshbuf_check_reserve (b : sshbuf) (len : Z) : res unit :=
  do? sshbuf_check_sanity b ;;
  if sb_readonly b || (1 <? sb_refcount b) then Err SSH_ERR_BUFFER_READ_ONLY
  else if (sb_max_size b <? len)
          || (u64 (sb_max_size b - len) <? u64 (sb_size b - sb_off b))
  then Err SSH_ERR_NO_BUFFER_SPACE
  else Ok tt.

Definition sshbuf_allocate (np len : Z) : ST sshbuf unit :=
  do! reads (fun b => sshbuf_check_reserve b len) ;;
  let! b := get in
  do! sshbuf_maybe_pack (sb_max_size b <? u64 (sb_size b + len)) ;;
  let! b := get in
  if u64 (len + sb_size b) <=? sb_alloc b then ret tt
  else
    let need := u64 (len + sb_size b - sb_alloc b) in
    let rlen := ROUNDUP (u64 (sb_alloc b + need)) SSHBUF_SIZE_INC in
    let rlen := if sb_max_size b <? rlen then u64 (sb_alloc b + need) else rlen in
    if np =? 0 then fail SSH_ERR_ALLOC_FAIL
    else
      do! put (set_block np rlen (mem_recalloc (sb_mem b) rlen) b) ;;
      reads (fun b => sshbuf_check_reserve b len).

(** Returns the offset of the reserved bytes from [d]. *)
Definition sshbuf_reserve (np len : Z) : ST sshbuf Z :=
  do! sshbuf_allocate np len ;;
  let! b := get in
  do! put (set_window (sb_off b) (u64 (sb_size b + len)) b) ;;
  ret (sb_size b).

Definition sshbuf_consume (len : Z) : ST sshbuf unit :=
  do! reads sshbuf_check_sanity ;;
  if len =? 0 then ret tt
  else
    let! n := reads sshbuf_len in
    if n <? len then fail SSH_ERR_MESSAGE_INCOMPLETE
    else
      let! b := get in
      let off := u64 (sb_off b + len) in
      if off =? sb_size b then put (set_window 0 0 b)
      else put (set_window off (sb_size b) b).

Definition sshbuf_consume_end (len : Z) : ST sshbuf unit :=
  do! reads sshbuf_check_sanity ;;
  if len =? 0 then ret tt
  else
    let! n := reads sshbuf_len in
    if n <? len then fail SSH_ERR_MESSAGE_INCOMPLETE
    else
      let! b := get in
      put (set_window (sb_off b) (u64 (sb_size b - len)) b).

(** ** Well-formed buffers *)

(** What [sshbuf_check_sanity] tests, what the types give for free and the
    agreement between the fields and the memory block. *)
Record sshbuf_wf (b : sshbuf) : Prop := {
  wf_d : sb_readonly b = false -> sb_d b = sb_cd b;
  wf_parent : sb_parent b <> sb_self b;
  wf_refcount : 1 <= sb_refcount b <= SSHBUF_REFS_MAX;
  wf_cd : sb_cd b <> 0;
  wf_bounds : 0 <= sb_off b <= sb_size b /\ sb_size b <= sb_alloc b <= sb_max_size b;
  wf_max : sb_max_size b <= SSHBUF_SIZE_MAX;
  wf_mem : zlen (sb_mem b) = sb_alloc b;
  wf_bytes : Forall is_byte (sb_mem b);
}.

(** The abstract value of a buffer: the bytes written and not yet read. *)
Definition contents (b : sshbuf) : list Z :=
  ztake (sb_size b - sb_off b) (zdrop (sb_off b) (sb_mem b)).

(** Whether the buffer accepts writes. *)
Definition writable (b : sshbuf) : bool :=
  negb (sb_readonly b || (1 <? sb_refcount b)).

(** ** Lemmas *)

Ltac sb_consts :=
  unfold SSHBUF_SIZE_MAX, SSHBUF_REFS_MAX, SSHBUF_SIZE_INIT, SSHBUF_SIZE_INC,
    SSHBUF_PACK_MIN, SSHBUF_MAX_BIGNUM, SIZE_MAX in *;
  change (16384 / 8) with 2048 in *.

(** Name the facts of a well-formed buffer. *)
Ltac wf_facts H :=
  let b := match type of H with sshbuf_wf ?b => b end in
  pose proof (wf_d b H); pose proof (wf_parent b H); pose proof (wf_refcount b H);
  pose proof (wf_cd b H); pose proof (wf_bounds b H); pose proof (wf_max b H);
  pose proof (wf_mem b H); pose proof (wf_bytes b H).

(** [sshbuf_check_sanity] accepts a buffer exactly when its fields satisfy the
    invariant it states. *)
Lemma check_sanity_ok b :
  sshbuf_check_sanity b = Ok tt <->
    (sb_readonly b = false -> sb_d b = sb_cd b) /\ sb_parent b <> sb_self b /\
    1 <= sb_refcount b <= SSHBUF_REFS_MAX /\ sb_cd b <> 0 /\
    sb_max_size b <= SSHBUF_SIZE_MAX /\ sb_alloc b <= sb_max_size b /\
    sb_size b <= sb_alloc b /\ sb_off b <= sb_size b.
Proof.
  unfold sshbuf_check_sanity. ifcase; split; try done.
  - intros (H1 & H2 & H3 & H4 & H5 & H6 & H7 & H8). exfalso.
    repeat match goal with
           | H : _ \/ _ |- _ => destruct H; zbool
           end; try lia.
    destruct (sb_readonly b); [done | specialize (H1 eq_refl); lia].
  - intros _. zbool. split_and!; try lia. intros Hr. rewrite Hr in *.
    repeat match goal with H : _ \/ _ |- _ => destruct H; zbool end; done || lia.
Qed.

Lemma wf_sane b : sshbuf_wf b -> sshbuf_check_sanity b = Ok tt.
Proof. intros H. wf_facts H. apply check_sanity_ok. split_and!; done || lia. Qed.

Lemma contents_len b : sshbuf_wf b -> zlen (contents b) = sb_size b - sb_off b.
Proof. intros H. wf_facts H. unfold contents. zl. Qed.

Lemma contents_bytes b : sshbuf_wf b -> Forall is_byte (contents b).
Proof.
  intros H. unfold contents, ztake, zdrop. apply Forall_take, Forall_drop, (wf_bytes b H).
Qed.

Lemma size_sub b : sshbuf_wf b -> u64 (sb_size b - sb_off b) = sb_size b - sb_off b.
Proof. intros H. wf_facts H. sb_consts. apply u64_small. lia. Qed.

Lemma sshbuf_len_wf b : sshbuf_wf b -> sshbuf_len b = Ok (zlen (contents b)).
Proof.
  intros H. unfold sshbuf_len. rewrite wf_sane by done. simpl.
  by rewrite size_sub, contents_len.
Qed.

Lemma sshbuf_ptr_wf b : sshbuf_wf b -> sshbuf_ptr b = Ok (sb_off b).
Proof. intros H. unfold sshbuf_ptr. by rewrite wf_sane. Qed.

Lemma sshbuf_mutable_ptr_wf b :
  sshbuf_wf b ->
  sshbuf_mutable_ptr b = Ok (if writable b then Some (sb_off b) else None).
Proof.
  intros H. unfold sshbuf_mutable_ptr, writable. rewrite wf_sane by done. simpl.
  by destruct (_ || _).
Qed.

Lemma sshbuf_check_reserve_wf b len :
  sshbuf_wf b -> 0 <= len <= SIZE_MAX ->
  sshbuf_check_reserve b len =
    if negb (writable b) then Err SSH_ERR_BUFFER_READ_ONLY
    else if sb_max_size b <? zlen (contents b) + len then Err SSH_ERR_NO_BUFFER_SPACE
    else Ok tt.
Proof.
  intros H Hl. unfold sshbuf_check_reserve, writable.
  rewrite wf_sane, negb_involutive by done. simpl.
  destruct (_ || _); [done|]. rewrite size_sub, contents_len by done.
  wf_facts H. sb_consts.
  destruct (Z.ltb_spec (sb_max_size b) len); simpl.
  - destruct (Z.ltb_spec (sb_max_size b) (sb_size b - sb_off b + len)); [done | lia].
  - rewrite (u64_small (sb_max_size b - len)) by lia.
    destruct (Z.ltb_spec (sb_max_size b - len) (sb_size b - sb_off b)),
      (Z.ltb_spec (sb_max_size b) (sb_size b - sb_off b + len)); done || lia.
Qed.

(** What every operation on a buffer keeps: who it is, its limit, its
    sharing status. *)
Definition same_frame (b b' : sshbuf) : Prop :=
  sb_self b' = sb_self b /\ sb_max_size b' = sb_max_size b /\
  sb_readonly b' = sb_readonly b /\ sb_refcount b' = sb_refcount b /\
  sb_parent b' = sb_parent b.

(** The operation changed the representation only. *)
Definition kept (b b' : sshbuf) : Prop :=
  sshbuf_wf b' /\ same_frame b b' /\ contents b' = contents b.

#[export] Instance same_frame_preorder : PreOrder same_frame.
Proof.
  split; [intros b | intros a b c]; unfold same_frame; intuition congruence.
Qed.

Lemma same_frame_writable b b' : same_frame b b' -> writable b' = writable b.
Proof. intros (_ & _ & H1 & H2 & _). unfold writable. congruence. Qed.

Lemma kept_refl b : sshbuf_wf b -> kept b b.
Proof. intros. split_and!; done. Qed.

Lemma kept_trans a b c : kept a b -> kept b c -> kept a c.
Proof.
  intros (? & F & E) (? & F' & E'). split_and!; [done | by transitivity b | congruence].
Qed.
#[export] Hint Resolve kept_refl : ssh.

Lemma Forall_ztake {A} (P : A -> Prop) n l : Forall P l -> Forall P (ztake n l).
Proof. apply Forall_take. Qed.
Lemma Forall_zdrop {A} (P : A -> Prop) n l : Forall P l -> Forall P (zdrop n l).
Proof. apply Forall_drop. Qed.

Lemma mem_write_bytes m o v m' :
  mem_write m o v = Some m' -> Forall is_byte m -> Forall is_byte v -> Forall is_byte m'.
Proof.
  unfold mem_write. ifcase; [intros [= <-] ? ?|done].
  repeat apply Forall_app_2; auto using Forall_ztake, Forall_zdrop.
Qed.

Lemma mem_write_len m o v m' : mem_write m o v = Some m' -> zlen m' = zlen m.
Proof.
  unfold mem_write. ifcase; [intros [= <-]|done].
  pose proof (zlen_nonneg v). zl.
Qed.

Lemma mem_recalloc_len m n : 0 <= n -> zlen (mem_recalloc m n) = n.
Proof. intros. unfold mem_recalloc. pose proof (zlen_nonneg m). zl. Qed.

Lemma mem_recalloc_bytes m n : Forall is_byte m -> Forall is_byte (mem_recalloc m n).
Proof.
  intros. unfold mem_recalloc. apply Forall_app_2; [by apply Forall_ztake|].
  apply Forall_replicate. unfold is_byte. lia.
Qed.

(** The bytes below [k] survive a reallocation to [k] or more. *)
Lemma mem_recalloc_prefix m n o k :
  0 <= o -> 0 <= k -> o + k <= zlen m -> o + k <= n ->
  ztake k (zdrop o (mem_recalloc m n)) = ztake k (zdrop o m).
Proof.
  intros. unfold mem_recalloc. rewrite !ztake_drop_comm by done.
  f_equal. rewrite ztake_app_le by zl. rewrite ztake_ztake. f_equal. lia.
Qed.

(** Rebuild [sshbuf_wf] for an updated buffer. *)
Ltac wf_solve := constructor; simpl in *; sb_consts; try done; try lia; auto.

Lemma writable_true b :
  writable b = true -> sb_readonly b = false /\ sb_refcount b <= 1.
Proof. unfold writable. intros. zbool. split; [done | lia]. Qed.

Lemma sshbuf_maybe_pack_spec force b :
  sshbuf_wf b ->
  exists b', sshbuf_maybe_pack force b = (Ok tt, b') /\ kept b b' /\
    sb_alloc b' = sb_alloc b /\ sb_d b' = sb_d b /\ sb_cd b' = sb_cd b /\
    (writable b = true -> force = true -> sb_off b' = 0) /\
    (writable b = false -> b' = b).
Proof.
  intros H. wf_facts H. unfold sshbuf_maybe_pack, bind, get, ret, put, defined, writable.
  ifcase.
  { exists b. split_and!; auto with ssh. intros Hw _. zcases; congruence || lia. }
  ifcase; [|exists b; split_and!; auto with ssh; intros Hw ->; done].
  rewrite size_sub, mem_read_some by (done || lia).
  rewrite mem_write_some by zl. eexists. split; [done|].
  assert (zlen (ztake (sb_size b - sb_off b) (zdrop (sb_off b) (sb_mem b)))
          = sb_size b - sb_off b) as Hn by zl.
  split_and!; simpl; try done; [|intros Hw; exfalso; zcases; congruence || lia].
  split_and!; [..|]; try done.
  - wf_solve.
    + pose proof (zlen_nonneg (sb_mem b)). zl.
    + repeat apply Forall_app_2; auto using Forall_ztake, Forall_zdrop.
  - unfold contents. simpl.
    rewrite (zdrop_0 0), Z.sub_0_r by lia.
    rewrite ztake_app_le by lia. apply ztake_all. lia.
Qed.

Lemma ROUNDUP_inc x :
  0 <= x <= 2 ^ 40 -> x <= ROUNDUP x SSHBUF_SIZE_INC < x + SSHBUF_SIZE_INC.
Proof.
  intros. unfold ROUNDUP. sb_consts. rewrite (u64_small (x + _)) by lia.
  rewrite u64_small; Z.to_euclidean_division_equations; lia.
Qed.

(** The state of a buffer after a change of block. *)
Lemma set_block_kept b np rlen :
  sshbuf_wf b -> sb_readonly b = false -> np <> 0 ->
  sb_size b <= rlen <= sb_max_size b ->
  kept b (set_block np rlen (mem_recalloc (sb_mem b) rlen) b).
Proof.
  intros H Hr Hnp Hn. wf_facts H. split_and!; try done.
  - wf_solve; [rewrite mem_recalloc_len; lia | by apply mem_recalloc_bytes].
  - unfold contents. simpl. apply mem_recalloc_prefix; lia.
Qed.

(** The possible outcomes of a request for [len] more bytes. *)
Inductive space_post (np len : Z) (b : sshbuf) {A} (ok : A -> sshbuf -> Prop)
  : res A * sshbuf -> Prop :=
| sp_read_only :
    writable b = false -> space_post np len b ok (Err SSH_ERR_BUFFER_READ_ONLY, b)
| sp_no_space :
    writable b = true -> sb_max_size b < zlen (contents b) + len ->
    space_post np len b ok (Err SSH_ERR_NO_BUFFER_SPACE, b)
| sp_no_memory b' :
    writable b = true -> zlen (contents b) + len <= sb_max_size b ->
    np = 0 -> kept b b' -> space_post np len b ok (Err SSH_ERR_ALLOC_FAIL, b')
| sp_ok a b' :
    writable b = true -> zlen (contents b) + len <= sb_max_size b ->
    ok a b' -> space_post np len b ok (Ok a, b').

Lemma pack_size force b b' :
  sshbuf_wf b -> sshbuf_maybe_pack force b = (Ok tt, b') -> sb_size b' <= sb_size b.
Proof.
  intros H Hp. wf_facts H.
  unfold sshbuf_maybe_pack, bind, get, ret, put, defined in Hp.
  repeat match type of Hp with context [if ?c then _ else _] => destruct c end;
    try (injection Hp as <-; lia).
  destruct (mem_read _ _ _); [|done]. destruct (mem_write _ _ _); [|done].
  injection Hp as <-. simpl. rewrite size_sub by done. lia.
Qed.

(** After packing, the requested bytes fit below [max_size]. *)
Lemma pack_fits b b1 len :
  sshbuf_wf b -> writable b = true -> 0 <= len ->
  zlen (contents b) + len <= sb_max_size b ->
  sshbuf_maybe_pack (sb_max_size b <? u64 (sb_size b + len)) b = (Ok tt, b1) ->
  sb_size b1 + len <= sb_max_size b.
Proof.
  intros H Hw Hl Hc Hp.
  destruct (sshbuf_maybe_pack_spec (sb_max_size b <? u64 (sb_size b + len)) b H)
    as (b' & Hp' & (W1 & F1 & E1) & _ & _ & _ & Hoff & _).
  rewrite Hp in Hp'. injection Hp' as <-.
  pose proof (contents_len b1 W1) as L1. rewrite E1 in L1.
  pose proof (pack_size _ _ _ H Hp). pose proof (zlen_nonneg (contents b)).
  wf_facts H. sb_consts.
  destruct (Z.ltb_spec (sb_max_size b) (u64 (sb_size b + len))) as [Hc'|Hc'].
  - rewrite Hoff in L1 by done. lia.
  - rewrite u64_small in Hc' by lia. lia.
Qed.

(** What [sshbuf_allocate] promises. *)
Lemma sshbuf_allocate_spec np len b :
  sshbuf_wf b -> 0 <= len <= SIZE_MAX ->
  space_post np len b (fun _ b' => kept b b' /\ sb_size b' + len <= sb_alloc b')
    (sshbuf_allocate np len b).
Proof.
  intros H Hl. unfold sshbuf_allocate, reads, bind at 1.
  rewrite sshbuf_check_reserve_wf by done.
  destruct (writable b) eqn:Hw; simpl; [|by constructor].
  ifcase; [by constructor|]. unfold bind at 1. unfold get at 1.
  destruct (sshbuf_maybe_pack_spec (sb_max_size b <? u64 (sb_size b + len)) b H)
    as (b1 & Hp & K1 & Ha & _).
  unfold bind at 1. rewrite Hp. unfold bind at 1. unfold get at 1.
  pose proof (pack_fits b b1 len H Hw ltac:(lia) C Hp) as Hfit.
  pose proof K1 as (W1 & F1 & E1). wf_facts W1. wf_facts H.
  pose proof F1 as (_ & M1 & R1 & _ & _).
  destruct (writable_true b Hw) as [Hr _].
  sb_consts. rewrite (u64_small (len + _)) by lia. ifcase.
  { constructor; [done..|]. split; [done | lia]. }
  rewrite (u64_small (len + _ - _)), u64_small by lia.
  set (x := sb_alloc b1 + (len + sb_size b1 - sb_alloc b1)).
  assert (x = len + sb_size b1) as Hx by (unfold x; lia).
  set (rlen := if sb_max_size b1 <? ROUNDUP x 256 then x else ROUNDUP x 256).
  assert (x <= rlen <= sb_max_size b1) as Hrl.
  { pose proof (ROUNDUP_inc x ltac:(lia)). sb_consts. unfold rlen. ifcase; lia. }
  destruct (Z.eqb_spec np 0) as [->|Hnp]; [by constructor|].
  pose proof (set_block_kept b1 np rlen W1 ltac:(congruence) Hnp ltac:(lia)) as K2.
  unfold bind, put. pose proof K2 as (W2 & F2 & E2).
  rewrite sshbuf_check_reserve_wf by (sb_consts; done).
  rewrite (same_frame_writable b) by (transitivity b1; done). rewrite Hw, E2, E1.
  destruct F2 as (_ & -> & _). simpl.
  destruct (Z.ltb_spec (sb_max_size b1) (zlen (contents b) + len)); [lia|].
  constructor; [done..|]. split; [exact (kept_trans _ _ _ K1 K2) | simpl; lia].
Qed.

(** [sshbuf_reserve]: [len] bytes appended, their position, the block large
    enough to hold them. *)
Lemma sshbuf_reserve_spec np len b :
  sshbuf_wf b -> 0 <= len <= SIZE_MAX ->
  space_post np len b
    (fun dp b' => exists b1, kept b b1 /\ sb_size b1 + len <= sb_alloc b1 /\
       dp = sb_size b1 /\ b' = set_window (sb_off b1) (sb_size b1 + len) b1)
    (sshbuf_reserve np len b).
Proof.
  intros H Hl. unfold sshbuf_reserve, bind at 1.
  destruct (sshbuf_allocate_spec np len b H Hl) as [| | |[] b' ? ? (K & Hs)];
    try (by constructor).
  unfold bind, get, put, ret. destruct K as (W & K). wf_facts W. sb_consts.
  rewrite u64_small by lia. constructor; [done..|]. exists b'. by split_and!.
Qed.

(** The idiom of every writer: [memcpy] or [POKE_*] through a pointer into
    the block. *)
Definition mem_poke (o : Z) (v : list Z) : ST sshbuf unit :=
  let! b := get in
  let! m := defined (mem_write (sb_mem b) o v) in
  put (set_mem m b).

(** The outcome of an operation that appends [v]. *)
Definition appended (v : list Z) (b b' : sshbuf) : Prop :=
  sshbuf_wf b' /\ same_frame b b' /\ contents b' = contents b ++ v.

(** [f] stores [v] at a valid position. *)
Definition fills (f : Z -> ST sshbuf unit) (v : list Z) : Prop :=
  forall p s, 0 <= p -> p + zlen v <= zlen (sb_mem s) -> f p s = mem_poke p v s.

(** Filling the bytes that [sshbuf_reserve] has just added appends them. *)
Lemma reserve_fill np v f b :
  sshbuf_wf b -> Forall is_byte v -> zlen v <= SIZE_MAX -> fills f v ->
  space_post np (zlen v) b (fun _ => appended v b)
    (bind (sshbuf_reserve np (zlen v)) f b).
Proof.
  intros H Hv Hl Hf. pose proof (zlen_nonneg v). unfold bind at 1.
  destruct (sshbuf_reserve_spec np (zlen v) b H ltac:(lia))
    as [| | |p ? ? ? (b1 & (W & F & E) & Hs & -> & ->)]; try (by constructor).
  wf_facts W. rewrite Hf by (simpl; lia).
  unfold mem_poke, bind, get, put, defined. simpl.
  destruct (mem_write (sb_mem b1) (sb_size b1) v) as [m|] eqn:Hm;
    [|rewrite mem_write_some in Hm by lia; done].
  pose proof (mem_write_len _ _ _ _ Hm). pose proof (mem_write_bytes _ _ _ _ Hm).
  constructor; [done..|]. split_and!; try done.
  - wf_solve.
  - rewrite <- E. unfold contents. simpl.
    rewrite mem_write_some in Hm by lia. injection Hm as <-.
    rewrite zdrop_app_le by zl. rewrite ztake_app_ge by zl. f_equal.
    + rewrite ztake_drop_comm by lia. do 2 f_equal. lia.
    + rewrite ztake_app_le by zl. apply ztake_all. zl.
Qed.

Lemma mem_write_app m o a c m1 :
  0 <= o -> o + zlen a + zlen c <= zlen m -> mem_write m o a = Some m1 ->
  mem_write m1 (o + zlen a) c = mem_write m o (a ++ c).
Proof.
  intros Ho Hb Hm. pose proof (zlen_nonneg a). pose proof (zlen_nonneg c).
  rewrite mem_write_some in Hm by lia. injection Hm as <-.
  rewrite !mem_write_some by zl. f_equal.
  rewrite ztake_app_ge by zl. rewrite <- !app_assoc. f_equal.
  rewrite ztake_app_ge by zl. rewrite <- !app_assoc. f_equal.
  rewrite ztake_0, app_nil_l by zl. f_equal.
  rewrite zdrop_app_ge by zl. rewrite zdrop_app_ge by zl.
  rewrite zdrop_zdrop by zl. f_equal. zl.
Qed.

Lemma mem_poke_ok p v s :
  0 <= p -> p + zlen v <= zlen (sb_mem s) ->
  exists m, mem_poke p v s = (Ok tt, set_mem m s) /\ zlen m = zlen (sb_mem s).
Proof.
  intros. unfold mem_poke, bind, get, put, defined.
  destruct (mem_write (sb_mem s) p v) as [m|] eqn:Hm;
    [|rewrite mem_write_some in Hm by lia; done].
  exists m. split; [done | by eapply mem_write_len].
Qed.

(** Two stores one after the other are one store of the concatenation. *)
Lemma mem_poke_app o a c s :
  0 <= o -> o + zlen a + zlen c <= zlen (sb_mem s) ->
  (do! mem_poke o a ;; mem_poke (o + zlen a) c) s = mem_poke o (a ++ c) s.
Proof.
  intros Ho Hb. pose proof (zlen_nonneg a). pose proof (zlen_nonneg c).
  unfold mem_poke, bind, get, put, defined.
  destruct (mem_write (sb_mem s) o a) as [m1|] eqn:Hm;
    [|rewrite mem_write_some in Hm by lia; done].
  simpl. rewrite (mem_write_app _ _ _ _ _ Ho Hb Hm).
  rewrite mem_write_some by zl. reflexivity.
Qed.

Lemma mem_poke_nil o s : 0 <= o <= zlen (sb_mem s) -> mem_poke o [] s = (Ok tt, s).
Proof.
  intros Ho. unfold mem_poke, bind, get, put, defined.
  rewrite mem_write_some by zl. simpl. rewrite zlen_nil, Z.add_0_r, ztake_zdrop.
  by destruct s.
Qed.

(** Reading past a consumed prefix: [sshbuf_consume] moves no byte. *)
Lemma sshbuf_consume_spec len b :
  sshbuf_wf b -> 0 <= len ->
  (zlen (contents b) < len /\ sshbuf_consume len b = (Err SSH_ERR_MESSAGE_INCOMPLETE, b)) \/
  (len <= zlen (contents b) /\ exists b', sshbuf_consume len b = (Ok tt, b') /\
     sshbuf_wf b' /\ same_frame b b' /\ contents b' = zdrop len (contents b) /\
     sb_mem b' = sb_mem b /\ sb_cd b' = sb_cd b /\ sb_alloc b' = sb_alloc b /\
     sb_d b' = sb_d b).
Proof.
  intros H Hl. pose proof (zlen_nonneg (contents b)).
  unfold sshbuf_consume, bind, reads. rewrite wf_sane by done.
  destruct (Z.eqb_spec len 0) as [->|].
  { right. split; [lia|]. exists b. rewrite zdrop_0 by lia. by split_and!. }
  rewrite sshbuf_len_wf by done. rewrite contents_len in * by done. wf_facts H.
  destruct (Z.ltb_spec (sb_size b - sb_off b) len) as [Hc|Hc]; [by left|].
  right. split; [done|]. unfold get, put. sb_consts. rewrite u64_small by lia.
  assert (forall k, len <= k -> contents (set_window (sb_off b + len) k b)
            = ztake (k - sb_off b - len) (zdrop len (zdrop (sb_off b) (sb_mem b)))) as Hcont.
  { intros k Hk. unfold contents. simpl. rewrite zdrop_zdrop by lia. f_equal. lia. }
  destruct (Z.eqb_spec (sb_off b + len) (sb_size b)).
  - eexists. split; [done|]. split_and!; try done; [wf_solve|].
    unfold contents. simpl. rewrite ztake_0, zdrop_all by zl. done.
  - eexists. split; [done|]. split_and!; try done; [wf_solve|].
    rewrite Hcont by lia. unfold contents. rewrite ztake_drop_comm by lia. do 2 f_equal. lia.
Qed.

Lemma sshbuf_consume_end_spec len b :
  sshbuf_wf b -> 0 <= len ->
  (zlen (contents b) < len /\
     sshbuf_consume_end len b = (Err SSH_ERR_MESSAGE_INCOMPLETE, b)) \/
  (len <= zlen (contents b) /\ exists b', sshbuf_consume_end len b = (Ok tt, b') /\
     sshbuf_wf b' /\ same_frame b b' /\
     contents b' = ztake (zlen (contents b) - len) (contents b)).
Proof.
  intros H Hl. pose proof (zlen_nonneg (contents b)).
  unfold sshbuf_consume_end, bind, reads. rewrite wf_sane by done.
  destruct (Z.eqb_spec len 0) as [->|].
  { right. split; [lia|]. exists b. rewrite ztake_all by lia. by split_and!. }
  rewrite sshbuf_len_wf by done. rewrite contents_len in * by done. wf_facts H.
  destruct (Z.ltb_spec (sb_size b - sb_off b) len) as [Hc|Hc]; [by left|].
  right. split; [done|]. unfold get, put. sb_consts. rewrite u64_small by lia.
  eexists. split; [done|]. split_and!; try done; [wf_solve|].
  unfold contents. simpl. rewrite ztake_ztake. f_equal. lia.
Qed.

(** [sshbuf_set_max_size] keeps the contents whatever it returns, and the new
    limit holds exactly when it returns success. *)
Lemma sshbuf_set_max_size_spec np n b :
  sshbuf_wf b -> 0 <= n ->
  exists r b', sshbuf_set_max_size np n b = (r, b') /\ r <> Crash /\
    sshbuf_wf b' /\ contents b' = contents b /\ writable b' = writable b /\
    sb_max_size b' = (if decide (r = Ok tt) then n else sb_max_size b).
Proof.
  intros H Hn. unfold sshbuf_set_max_size. unfold bind at 1, reads. rewrite wf_sane by done.
  unfold bind at 1, get at 1. wf_facts H. pose proof (kept_refl b H) as K0.
  destruct (Z.eqb_spec n (sb_max_size b)) as [->|]; [by eexists _, b|].
  destruct (sb_readonly b || (1 <? sb_refcount b)) eqn:Hw; [by eexists _, b|].
  ifcase; [by eexists _, b|]. unfold bind at 1.
  destruct (sshbuf_maybe_pack_spec (n <? sb_size b) b H)
    as (b1 & -> & K1 & _). unfold bind at 1, get at 1.
  pose proof K1 as (W1 & F1 & E1). wf_facts W1.
  match goal with |- context [bind ?m _ b1] => unfold bind at 1; destruct (m b1) as [r b2] eqn:Hr end.
  assert (r <> Crash /\ kept b b2) as (Hc & K2).
  { revert Hr. ifcase; [|by intros [= <- <-]].
    destruct (Z.eqb_spec np 0); intros [= <- <-]; (split; [done|]); [done|].
    eapply kept_trans; [done|]. apply set_block_kept; [done | | done |].
    - destruct F1 as (_ & _ & -> & _). by zbool.
    - destruct F1 as (_ & Hm & _). sb_consts.
      pose proof (ROUNDUP_inc (sb_size b1) ltac:(lia)). sb_consts. repeat ifcase; lia. }
  pose proof K2 as (W2 & F2 & E2). wf_facts W2.
  pose proof (same_frame_writable _ _ F2). pose proof F2 as (_ & Hm2 & _).
  destruct r as [[]|e|]; [|eexists _, _; split; [done|]; by split_and! | done].
  unfold bind, get. ifcase; eexists _, _; (split; [done|]); split_and!; try done.
  wf_solve.
Qed.

(** [sshbuf_reset] empties the buffer and leaves it well formed, provided the
    limit leaves room for the initial allocation. *)
Lemma sshbuf_reset_spec np b :
  sshbuf_wf b ->
  writable b = false \/ np = 0 \/ sb_alloc b = SSHBUF_SIZE_INIT \/
    SSHBUF_SIZE_INIT <= sb_max_size b ->
  exists b', sshbuf_reset np b = (Ok tt, b') /\ sshbuf_wf b' /\ same_frame b b' /\
    contents b' = [].
Proof.
  intros H Hok. wf_facts H. unfold sshbuf_reset, bind at 1, get at 1.
  unfold writable in Hok. destruct (_ || _) eqn:Hw.
  { eexists. split; [done|]. split_and!; try done; [wf_solve|].
    unfold contents. simpl. rewrite ztake_0; [done | lia]. }
  unfold bind at 1, reads. rewrite wf_sane by done.
  set (b1 := if negb _ then _ else _).
  assert (kept (set_window 0 0 b) b1) as (W1 & F1 & E1).
  { assert (sshbuf_wf (set_window 0 0 b)) as W by wf_solve.
    unfold b1. simpl. destruct (Z.eqb_spec (sb_alloc b) SSHBUF_SIZE_INIT); simpl; auto with ssh.
    destruct (Z.eqb_spec np 0); simpl; auto with ssh.
    apply (set_block_kept (set_window 0 0 b)); simpl; try done; [by zbool|].
    destruct Hok as [?|[?|[?|?]]]; [done..|]. sb_consts. lia. }
  clearbody b1. unfold bind, defined. wf_facts W1.
  destruct (mem_write _ _ _) as [m|] eqn:Hm;
    [|sb_consts; rewrite mem_write_some in Hm by zl; done].
  pose proof (mem_write_len _ _ _ _ Hm).
  assert (Forall is_byte m).
  { eapply mem_write_bytes; [done..|]. apply Forall_replicate. unfold is_byte. lia. }
  eexists. split; [done|].
  split_and!; [wf_solve | by transitivity (set_window 0 0 b) |].
  assert (zlen (contents b1) = 0) as Hl by (rewrite E1; done).
  rewrite contents_len in Hl by done.
  unfold contents. simpl. rewrite ztake_0; [done | lia].
Qed.
