(* ===== verification/SshbufGetput.v ===== *)
(** * sshbuf-getput-basic.c: typed reads and writes on a buffer

    An out parameter of the source is a result here; a caller that passes
    [NULL] discards it.  A pointer into the buffer is its offset from [cd].
    [mp] is what [malloc] returns, [np] what [recallocarray] returns. *)
From S2P Require Import Prelude Sshbuf.

(** ** Integers in network order: the macros of src/sshbuf.h *)

Definition PEEK_U64 (p : list Z) : option Z :=
  match p with
  | [b0; b1; b2; b3; b4; b5; b6; b7] =>
      Some (Z.lor (Z.lor (Z.lor (Z.lor (Z.lor (Z.lor (Z.lor
        (Z.shiftl b0 56) (Z.shiftl b1 48)) (Z.shiftl b2 40)) (Z.shiftl b3 32))
        (Z.shiftl b4 24)) (Z.shiftl b5 16)) (Z.shiftl b6 8)) b7)
  | _ => None
  end.

Definition PEEK_U32 (p : list Z) : option Z :=
  match p with
  | [b0; b1; b2; b3] =>
      Some (Z.lor (Z.lor (Z.lor (Z.shiftl b0 24) (Z.shiftl b1 16)) (Z.shiftl b2 8)) b3)
  | _ => None
  end.

Definition PEEK_U16 (p : list Z) : option Z :=
  match p with
  | [b0; b1] => Some (Z.lor (Z.shiftl b0 8) b1)
  | _ => None
  end.

Definition POKE_U64 (v : Z) : list Z :=
  let v := u64 v in
  [Z.land (Z.shiftr v 56) 0xff; Z.land (Z.shiftr v 48) 0xff;
   Z.land (Z.shiftr v 40) 0xff; Z.land (Z.shiftr v 32) 0xff;
   Z.land (Z.shiftr v 24) 0xff; Z.land (Z.shiftr v 16) 0xff;
   Z.land (Z.shiftr v 8) 0xff; Z.land v 0xff].

Definition POKE_U32 (v : Z) : list Z :=
  let v := u32 v in
  [Z.land (Z.shiftr v 24) 0xff; Z.land (Z.shiftr v 16) 0xff;
   Z.land (Z.shiftr v 8) 0xff; Z.land v 0xff].

Definition POKE_U16 (v : Z) : list Z :=
  let v := u16 v in
  [Z.land (Z.shiftr v 8) 0xff; Z.land v 0xff].

(** ** C library helpers *)

(** [memchr]: the index of the first [c]. *)
Fixpoint memchr (c : Z) (l : list Z) : option Z :=
  match l with
  | [] => None
  | x :: l => if x =? c then Some 0 else option_map Z.succ (memchr c l)
  end.

(** The bytes at offset [o] of the block. *)
Definition mem_peek (o n : Z) : ST sshbuf (list Z) :=
  let! b := get in defined (mem_read (sb_mem b) o n).

(** A failure of [m] reported as [e]. *)
Definition or_err {S A} (m : ST S A) (e : Z) : ST S A := fun s =>
  match m s with (Err _, s') => (Err e, s') | r => r end.

(** Operations on one of two buffers. *)
Definition on_fst {S T A} (m : ST S A) : ST (S * T) A := fun '(s, t) =>
  let '(r, s') := m s in (r, (s', t)).
Definition on_snd {S T A} (m : ST T A) : ST (S * T) A := fun '(s, t) =>
  let '(r, t') := m t in (r, (s, t')).

(** ** Reads *)

Definition sshbuf_get (len : Z) : ST sshbuf (list Z) :=
  let! p := reads sshbuf_ptr in
  do! sshbuf_consume len ;;
  if len =? 0 then ret [] else mem_peek p len.

Definition sshbuf_get_u64 : ST sshbuf Z :=
  let! p := reads sshbuf_ptr in
  do! sshbuf_consume 8 ;;
  let! v := mem_peek p 8 in defined (PEEK_U64 v).

Definition sshbuf_get_u32 : ST sshbuf Z :=
  let! p := reads sshbuf_ptr in
  do! sshbuf_consume 4 ;;
  let! v := mem_peek p 4 in defined (PEEK_U32 v).

Definition sshbuf_get_u16 : ST sshbuf Z :=
  let! p := reads sshbuf_ptr in
  do! sshbuf_consume 2 ;;
  let! v := mem_peek p 2 in defined (PEEK_U16 v).

Definition sshbuf_get_u8 : ST sshbuf Z :=
  let! p := reads sshbuf_ptr in
  do! sshbuf_consume 1 ;;
  let! v := mem_peek p 1 in defined (head v).

Definition check_offset (b : sshbuf) (wr : bool) (offset len : Z) : res unit :=
  do? sshbuf_ptr b ;;
  if u64 (SIZE_MAX - len) <=? offset then Err SSH_ERR_INVALID_ARGUMENT
  else
    let? n := sshbuf_len b in
    if n <? u64 (offset + len) then
      Err (if wr then SSH_ERR_NO_BUFFER_SPACE else SSH_ERR_MESSAGE_INCOMPLETE)
    else Ok tt.

Definition check_roffset (b : sshbuf) (offset len : Z) : res Z :=
  do? check_offset b false offset len ;;
  let? p := sshbuf_ptr b in Ok (p + offset).

Definition sshbuf_peek_u64 (b : sshbuf) (offset : Z) : res Z :=
  let? p := check_roffset b offset 8 in
  let? v := rdefined (mem_read (sb_mem b) p 8) in rdefined (PEEK_U64 v).

Definition sshbuf_peek_u32 (b : sshbuf) (offset : Z) : res Z :=
  let? p := check_roffset b offset 4 in
  let? v := rdefined (mem_read (sb_mem b) p 4) in rdefined (PEEK_U32 v).

Definition sshbuf_peek_u16 (b : sshbuf) (offset : Z) : res Z :=
  let? p := check_roffset b offset 2 in
  let? v := rdefined (mem_read (sb_mem b) p 2) in rdefined (PEEK_U16 v).

Definition sshbuf_peek_u8 (b : sshbuf) (offset : Z) : res Z :=
  let? p := check_roffset b offset 1 in
  let? v := rdefined (mem_read (sb_mem b) p 1) in rdefined (head v).

(** The position and the length of the string at the front of the buffer. *)
Definition sshbuf_peek_string_direct (b : sshbuf) : res (Z * Z) :=
  let? p := sshbuf_ptr b in
  let? n := sshbuf_len b in
  if n <? 4 then Err SSH_ERR_MESSAGE_INCOMPLETE
  else
    let? v := rdefined (mem_read (sb_mem b) p 4) in
    let? len := rdefined (PEEK_U32 v) in
    if SSHBUF_SIZE_MAX - 4 <? len then Err SSH_ERR_STRING_TOO_LARGE
    else if u64 (n - 4) <? len then Err SSH_ERR_MESSAGE_INCOMPLETE
    else Ok (p + 4, len).

Definition sshbuf_get_string_direct : ST sshbuf (Z * Z) :=
  let! pl := reads sshbuf_peek_string_direct in
  do! or_err (sshbuf_consume (u64 (snd pl + 4))) SSH_ERR_INTERNAL_ERROR ;;
  ret pl.

(** The copy is the string followed by a NUL. *)
Definition sshbuf_get_string (mp : Z) : ST sshbuf (list Z * Z) :=
  let! pl := sshbuf_get_string_direct in
  if mp =? 0 then fail SSH_ERR_ALLOC_FAIL
  else
    let! v := (if snd pl =? 0 then ret [] else mem_peek (fst pl) (snd pl)) in
    ret (v ++ [0], snd pl).

Definition sshbuf_get_cstring (mp : Z) : ST sshbuf (list Z * Z) :=
  let! pl := reads sshbuf_peek_string_direct in
  let len := snd pl in
  let! v := mem_peek (fst pl) len in
  if (0 <? len) && match memchr 0 v with Some z => z <? len - 1 | None => false end then
    fail SSH_ERR_INVALID_FORMAT
  else
    do! or_err sshbuf_get_string_direct (-1) ;;
    if mp =? 0 then fail SSH_ERR_ALLOC_FAIL
    else
      let! v := (if len =? 0 then ret [] else mem_peek (fst pl) len) in
      ret (v ++ [0], len).

(** ** Writes *)

Definition sshbuf_put (np : Z) (v : list Z) : ST sshbuf unit :=
  let! p := sshbuf_reserve np (zlen v) in
  if zlen v =? 0 then ret tt else mem_poke p v.

(** The bytes another buffer exposes: [sshbuf_ptr(v)], [sshbuf_len(v)]. *)
Definition buf_bytes (v : sshbuf) : res (list Z) :=
  let? p := sshbuf_ptr v in
  let? n := sshbuf_len v in
  rdefined (mem_read (sb_mem v) p n).

Definition sshbuf_putb (np : Z) (v : option sshbuf) : ST sshbuf unit :=
  match v with
  | None => ret tt
  | Some v => let! l := reads (fun _ => buf_bytes v) in sshbuf_put np l
  end.

(** [t1] and [t2] are the expansions of the format by the two calls of
    [vsnprintf], [None] when it fails; it returns the length of the expansion
    and stores at most [len] bytes of it and a NUL. *)
Definition sshbuf_putfv (np : Z) (t1 t2 : option (list Z)) : ST sshbuf unit :=
  match t1 with
  | None => fail SSH_ERR_INVALID_ARGUMENT
  | Some t1 =>
      let len := zlen t1 in
      if len =? 0 then ret tt
      else
        let! p := sshbuf_reserve np (u64 (len + 1)) in
        match t2 with
        | None => fail SSH_ERR_INTERNAL_ERROR
        | Some t2 =>
            do! mem_poke p (ztake len t2 ++ [0]) ;;
            if negb (zlen t2 =? len) then fail SSH_ERR_INTERNAL_ERROR
            else sshbuf_consume_end 1
        end
  end.

Definition sshbuf_put_u64 (np val : Z) : ST sshbuf unit :=
  let! p := sshbuf_reserve np 8 in mem_poke p (POKE_U64 val).

Definition sshbuf_put_u32 (np val : Z) : ST sshbuf unit :=
  let! p := sshbuf_reserve np 4 in mem_poke p (POKE_U32 val).

Definition sshbuf_put_u16 (np val : Z) : ST sshbuf unit :=
  let! p := sshbuf_reserve np 2 in mem_poke p (POKE_U16 val).

Definition sshbuf_put_u8 (np val : Z) : ST sshbuf unit :=
  let! p := sshbuf_reserve np 1 in mem_poke p [u8 val].

Definition check_woffset (b : sshbuf) (offset len : Z) : res Z :=
  do? check_offset b true offset len ;;
  let? mp := sshbuf_mutable_ptr b in
  match mp with
  | None => Err SSH_ERR_BUFFER_READ_ONLY
  | Some p => Ok (p + offset)
  end.

Definition sshbuf_poke_u64 (offset val : Z) : ST sshbuf unit :=
  let! p := reads (fun b => check_woffset b offset 8) in mem_poke p (POKE_U64 val).

Definition sshbuf_poke_u32 (offset val : Z) : ST sshbuf unit :=
  let! p := reads (fun b => check_woffset b offset 4) in mem_poke p (POKE_U32 val).

Definition sshbuf_poke_u16 (offset val : Z) : ST sshbuf unit :=
  let! p := reads (fun b => check_woffset b offset 2) in mem_poke p (POKE_U16 val).

Definition sshbuf_poke_u8 (offset val : Z) : ST sshbuf unit :=
  let! p := reads (fun b => check_woffset b offset 1) in mem_poke p [u8 val].

Definition sshbuf_poke (offset : Z) (v : list Z) : ST sshbuf unit :=
  let! p := reads (fun b => check_woffset b offset (zlen v)) in mem_poke p v.

Definition sshbuf_put_string (np : Z) (v : list Z) : ST sshbuf unit :=
  let len := zlen v in
  if SSHBUF_SIZE_MAX - 4 <? len then fail SSH_ERR_NO_BUFFER_SPACE
  else
    let! d := sshbuf_reserve np (u64 (len + 4)) in
    do! mem_poke d (POKE_U32 len) ;;
    if len =? 0 then ret tt else mem_poke (d + 4) v.

(** [v] is the string without its terminating NUL. *)
Definition sshbuf_put_cstring (np : Z) (v : option (list Z)) : ST sshbuf unit :=
  sshbuf_put_string np (match v with None => [] | Some v => v end).

Definition sshbuf_put_stringb (np : Z) (v : option sshbuf) : ST sshbuf unit :=
  match v with
  | None => sshbuf_put_string np []
  | Some v => let! l := reads (fun _ => buf_bytes v) in sshbuf_put_string np l
  end.

(** The string of the first buffer appended to the second. *)
Definition sshbuf_get_stringb (np : Z) : ST (sshbuf * sshbuf) unit :=
  do! on_fst (reads sshbuf_peek_string_direct) ;;
  let! len := on_fst sshbuf_get_u32 in
  let! p := on_snd (sshbuf_reserve np len) in
  let! v := on_fst (sshbuf_get len) in
  on_snd (mem_poke p v).

(** Skip leading zero bytes. *)
Fixpoint skip_zeros (s : list Z) : list Z :=
  match s with
  | 0 :: s => skip_zeros s
  | _ => s
  end.

Definition sshbuf_put_bignum2_bytes (np : Z) (v : list Z) : ST sshbuf unit :=
  if SSHBUF_SIZE_MAX - 5 <? zlen v then fail SSH_ERR_NO_BUFFER_SPACE
  else
    let s := skip_zeros v in
    let len := zlen s in
    let prepend := match s with [] => 0 | c :: _ => if Z.land c 0x80 =? 0 then 0 else 1 end in
    let! d := sshbuf_reserve np (u64 (len + 4 + prepend)) in
    do! mem_poke d (POKE_U32 (u64 (len + prepend))) ;;
    do! (if prepend =? 0 then ret tt else mem_poke (d + 4) [0]) ;;
    if len =? 0 then ret tt else mem_poke (d + 4 + prepend) s.

Definition sshbuf_get_bignum2_bytes_direct : ST sshbuf (Z * Z) :=
  let! pl := reads sshbuf_peek_string_direct in
  let '(d, olen) := pl in
  let! s := mem_peek d olen in
  if match s with [] => false | c :: _ => negb (Z.land c 0x80 =? 0) end then
    fail SSH_ERR_BIGNUM_IS_NEGATIVE
  else if (SSHBUF_MAX_BIGNUM + 1 <? olen)
          || ((olen =? SSHBUF_MAX_BIGNUM + 1)
              && match s with [] => false | c :: _ => negb (c =? 0) end) then
    fail SSH_ERR_BIGNUM_TOO_LARGE
  else
    let len := zlen (skip_zeros s) in
    do! or_err (sshbuf_consume (u64 (olen + 4))) SSH_ERR_INTERNAL_ERROR ;;
    ret (d + (olen - len), len).

(** ** Integers: the macros compute the big-endian value *)

(** The reference reading of a byte string in network order. *)
Fixpoint be (l : list Z) : Z :=
  match l with [] => 0 | b :: l => b * 256 ^ zlen l + be l end.

Lemma lor_low x y k : 0 <= k -> 0 <= y < 2 ^ k -> x mod 2 ^ k = 0 -> Z.lor x y = x + y.
Proof.
  intros Hk Hy Hx.
  rewrite <- Z.lxor_lor; [symmetry; apply Z.add_nocarry_lxor|]; apply Z.bits_inj'; intros n Hn;
    rewrite Z.land_spec, Z.bits_0; apply andb_false_iff;
    (destruct (Z.lt_ge_cases n k);
     [ left; rewrite <- (Z.mod_pow2_bits_low x k n) by lia; rewrite Hx; apply Z.bits_0
     | right; destruct (Z.eq_dec y 0) as [->|]; [apply Z.bits_0|];
       apply Z.bits_above_log2; [lia|];
       apply Z.log2_lt_pow2; [lia|]; apply Z.lt_le_trans with (2 ^ k); [lia|];
       apply Z.pow_le_mono_r; lia ]).
Qed.

(** Sums of shifted bytes. *)
Ltac lor_sum :=
  rewrite ?Z.shiftl_mul_pow2 by lia;
  repeat match goal with
  | |- context [Z.lor ?x (?b * 2 ^ ?k)] =>
      rewrite (lor_low x (b * 2 ^ k) (k + 8))
        by (simpl; Z.to_euclidean_division_equations; lia)
  | |- context [Z.lor ?x ?b] =>
      rewrite (lor_low x b 8) by (simpl; Z.to_euclidean_division_equations; lia)
  end.

Lemma PEEK_U32_be v : zlen v = 4 -> Forall is_byte v -> PEEK_U32 v = Some (be v).
Proof.
  intros Hl Hv. destruct v as [|b0 [|b1 [|b2 [|b3 [|]]]]]; try (unfold zlen in Hl; simpl in Hl; lia).
  repeat (apply Forall_cons in Hv as [? Hv]). unfold is_byte in *.
  unfold PEEK_U32, be, zlen. f_equal. simpl length. lor_sum. simpl. lia.
Qed.

Lemma PEEK_U16_be v : zlen v = 2 -> Forall is_byte v -> PEEK_U16 v = Some (be v).
Proof.
  intros Hl Hv. destruct v as [|b0 [|b1 [|]]]; try (unfold zlen in Hl; simpl in Hl; lia).
  repeat (apply Forall_cons in Hv as [? Hv]). unfold is_byte in *.
  unfold PEEK_U16, be, zlen. f_equal. simpl length. lor_sum. simpl. lia.
Qed.

Lemma PEEK_U64_be v : zlen v = 8 -> Forall is_byte v -> PEEK_U64 v = Some (be v).
Proof.
  intros Hl Hv. destruct v as [|b0 [|b1 [|b2 [|b3 [|b4 [|b5 [|b6 [|b7 [|]]]]]]]]];
    try (unfold zlen in Hl; simpl in Hl; lia).
  repeat (apply Forall_cons in Hv as [? Hv]). unfold is_byte in *.
  unfold PEEK_U64, be, zlen. f_equal. simpl length. lor_sum. simpl. lia.
Qed.

Lemma land_ff x : Z.land x 0xff = x mod 256.
Proof. apply (Z.land_ones x 8). lia. Qed.

Lemma is_byte_mod x : is_byte (x mod 256).
Proof. unfold is_byte. apply Z.mod_pos_bound. lia. Qed.
#[export] Hint Resolve is_byte_mod : ssh.

Lemma POKE_U64_bytes v : Forall is_byte (POKE_U64 v).
Proof. unfold POKE_U64. rewrite !land_ff. repeat constructor; apply is_byte_mod. Qed.
Lemma POKE_U32_bytes v : Forall is_byte (POKE_U32 v).
Proof. unfold POKE_U32. rewrite !land_ff. repeat constructor; apply is_byte_mod. Qed.
Lemma POKE_U16_bytes v : Forall is_byte (POKE_U16 v).
Proof. unfold POKE_U16. rewrite !land_ff. repeat constructor; apply is_byte_mod. Qed.

Lemma be_POKE_U64 v : be (POKE_U64 v) = u64 v.
Proof.
  unfold POKE_U64, u64, be, zlen. rewrite !land_ff, !Z.shiftr_div_pow2 by lia.
  simpl length. simpl Z.of_nat. simpl Z.pow.
  pose proof (Z.mod_pos_bound v 18446744073709551616 ltac:(lia)).
  generalize dependent (v mod 18446744073709551616). intros.
  Z.to_euclidean_division_equations. lia.
Qed.

Lemma be_POKE_U32 v : be (POKE_U32 v) = u32 v.
Proof.
  unfold POKE_U32, u32, be, zlen. rewrite !land_ff, !Z.shiftr_div_pow2 by lia.
  simpl length. simpl Z.of_nat. simpl Z.pow.
  pose proof (Z.mod_pos_bound v 4294967296 ltac:(lia)).
  generalize dependent (v mod 4294967296). intros.
  Z.to_euclidean_division_equations. lia.
Qed.

Lemma be_POKE_U16 v : be (POKE_U16 v) = u16 v.
Proof.
  unfold POKE_U16, u16, be, zlen. rewrite !land_ff, !Z.shiftr_div_pow2 by lia.
  simpl length. simpl Z.of_nat. simpl Z.pow.
  pose proof (Z.mod_pos_bound v 65536 ltac:(lia)).
  generalize dependent (v mod 65536). intros.
  Z.to_euclidean_division_equations. lia.
Qed.

Lemma be_bound l : Forall is_byte l -> 0 <= be l < 256 ^ zlen l.
Proof.
  induction 1 as [|b l Hb _ IH]; [done|].
  unfold is_byte in Hb. cbn [be]. rewrite zlen_cons, Z.pow_add_r by (pose proof (zlen_nonneg l); lia).
  nia.
Qed.

(** ** Specifications of the reads *)

(** The bytes of a consumed prefix are still where they were. *)
Lemma consumed_bytes b n :
  sshbuf_wf b -> 0 <= n <= zlen (contents b) ->
  mem_read (sb_mem b) (sb_off b) n = Some (ztake n (contents b)).
Proof.
  intros H Hn. rewrite contents_len in Hn by done. wf_facts H.
  rewrite mem_read_some by lia. unfold contents. rewrite ztake_ztake. do 2 f_equal. lia.
Qed.

(** The outcomes of a read of [n] bytes from the front of the buffer. *)
Inductive read_post (n : Z) (b : sshbuf) {A} (val : list Z -> A) : res A * sshbuf -> Prop :=
| rp_short : zlen (contents b) < n -> read_post n b val (Err SSH_ERR_MESSAGE_INCOMPLETE, b)
| rp_ok b' : n <= zlen (contents b) -> sshbuf_wf b' -> same_frame b b' ->
    contents b' = zdrop n (contents b) ->
    read_post n b val (Ok (val (ztake n (contents b))), b').

(** The idiom of the readers: take the pointer, consume, then read. *)
Lemma ptr_consume_peek {A} n b (f : list Z -> ST sshbuf A) (val : list Z -> A) :
  sshbuf_wf b -> 0 <= n ->
  (forall v s, zlen v = n -> Forall is_byte v -> f v s = (Ok (val v), s)) ->
  read_post n b val
    ((let! p := reads sshbuf_ptr in do! sshbuf_consume n ;; let! v := mem_peek p n in f v) b).
Proof.
  intros H Hn Hf. unfold bind at 1, reads. rewrite sshbuf_ptr_wf by done. unfold bind at 1.
  destruct (sshbuf_consume_spec n b H Hn)
    as [(? & ->)|(Hc & b' & -> & W & F & E & M & _)]; [by constructor|].
  unfold bind, mem_peek, bind, get, defined. rewrite M, consumed_bytes by done.
  rewrite Hf; [by constructor | | apply Forall_ztake, contents_bytes; done].
  rewrite zlen_take. lia.
Qed.

Lemma sshbuf_get_spec n b :
  sshbuf_wf b -> 0 <= n -> read_post n b id (sshbuf_get n b).
Proof.
  intros H Hn. destruct (Z.eq_dec n 0) as [->|Hne].
  - unfold sshbuf_get, bind at 1, reads. rewrite sshbuf_ptr_wf by done. unfold bind at 1.
    destruct (sshbuf_consume_spec 0 b H Hn)
      as [(? & ->)|(Hc & b' & -> & W & F & E & M & _)]; [by constructor|].
    pose proof (rp_ok 0 b id b' Hc W F E) as R. rewrite ztake_0 in R by lia. exact R.
  - unfold sshbuf_get. rewrite (proj2 (Z.eqb_neq n 0) Hne).
    pose proof (ptr_consume_peek n b ret id H Hn ltac:(done)) as R. revert R.
    unfold bind, reads, mem_peek, bind, get, defined. simpl.
    repeat case_match; simplify_eq; done.
Qed.

Lemma sshbuf_get_u64_spec b : sshbuf_wf b -> read_post 8 b be (sshbuf_get_u64 b).
Proof.
  intros H. apply ptr_consume_peek; [done | lia|]. intros v s Hl Hb.
  unfold defined. by rewrite PEEK_U64_be.
Qed.

Lemma sshbuf_get_u32_spec b : sshbuf_wf b -> read_post 4 b be (sshbuf_get_u32 b).
Proof.
  intros H. apply ptr_consume_peek; [done | lia|]. intros v s Hl Hb.
  unfold defined. by rewrite PEEK_U32_be.
Qed.

Lemma sshbuf_get_u16_spec b : sshbuf_wf b -> read_post 2 b be (sshbuf_get_u16 b).
Proof.
  intros H. apply ptr_consume_peek; [done | lia|]. intros v s Hl Hb.
  unfold defined. by rewrite PEEK_U16_be.
Qed.

Lemma sshbuf_get_u8_spec b : sshbuf_wf b -> read_post 1 b be (sshbuf_get_u8 b).
Proof.
  intros H. apply ptr_consume_peek; [done | lia|]. intros v s Hl Hb.
  destruct v as [|x [|]]; [zl | | unfold zlen in Hl; simpl in Hl; lia].
  unfold defined. simpl. rewrite zlen_nil. do 2 f_equal. simpl. lia.
Qed.

(** ** Specifications of the writes *)

Lemma fills_poke v : fills (fun p => mem_poke p v) v.
Proof. done. Qed.

Lemma fills_put v : fills (fun p => if zlen v =? 0 then ret tt else mem_poke p v) v.
Proof.
  intros p s Hp Hb. destruct (Z.eqb_spec (zlen v) 0) as [Hz|]; [|done].
  destruct v; [|pose proof (zlen_nonneg v); zl]. rewrite mem_poke_nil by zl. done.
Qed.

(** A filler that stores a header and then a possibly empty body. *)
Lemma fills_app k h f v :
  zlen h = k -> fills f v -> fills (fun p => do! mem_poke p h ;; f (p + k)) (h ++ v).
Proof.
  intros <- Hf p s Hp Hb. pose proof (zlen_nonneg h). pose proof (zlen_nonneg v).
  rewrite zlen_app in Hb. rewrite <- mem_poke_app by lia. unfold bind.
  destruct (mem_poke_ok p h s) as (m & -> & Hm); [lia..|].
  apply Hf; [lia|]. simpl. lia.
Qed.

Lemma sshbuf_put_spec np v b :
  sshbuf_wf b -> Forall is_byte v -> zlen v <= SIZE_MAX ->
  space_post np (zlen v) b (fun _ => appended v b) (sshbuf_put np v b).
Proof. intros. apply reserve_fill; auto using fills_put. Qed.

Lemma sshbuf_put_u64_spec np x b :
  sshbuf_wf b -> space_post np 8 b (fun _ => appended (POKE_U64 x) b) (sshbuf_put_u64 np x b).
Proof.
  intros. apply (reserve_fill np (POKE_U64 x)); auto using POKE_U64_bytes, fills_poke. done.
Qed.

Lemma sshbuf_put_u32_spec np x b :
  sshbuf_wf b -> space_post np 4 b (fun _ => appended (POKE_U32 x) b) (sshbuf_put_u32 np x b).
Proof.
  intros. apply (reserve_fill np (POKE_U32 x)); auto using POKE_U32_bytes, fills_poke. done.
Qed.

Lemma sshbuf_put_u16_spec np x b :
  sshbuf_wf b -> space_post np 2 b (fun _ => appended (POKE_U16 x) b) (sshbuf_put_u16 np x b).
Proof.
  intros. apply (reserve_fill np (POKE_U16 x)); auto using POKE_U16_bytes, fills_poke. done.
Qed.

Lemma sshbuf_put_u8_spec np x b :
  sshbuf_wf b -> space_post np 1 b (fun _ => appended [u8 x] b) (sshbuf_put_u8 np x b).
Proof.
  intros. apply (reserve_fill np [u8 x]); auto using fills_poke; [|done].
  repeat constructor; apply Z.mod_pos_bound; lia.
Qed.

(** The wire form of a string. *)
Definition enc_string (v : list Z) : list Z := POKE_U32 (zlen v) ++ v.

Lemma enc_string_bytes v : Forall is_byte v -> Forall is_byte (enc_string v).
Proof. intros. apply Forall_app_2; [apply POKE_U32_bytes | done]. Qed.

Lemma enc_string_len v : zlen (enc_string v) = zlen v + 4.
Proof. unfold enc_string. rewrite zlen_app. unfold POKE_U32. zl. Qed.

Lemma sshbuf_put_string_spec np v b :
  sshbuf_wf b -> Forall is_byte v -> zlen v <= SSHBUF_SIZE_MAX - 4 ->
  space_post np (zlen v + 4) b (fun _ => appended (enc_string v) b)
    (sshbuf_put_string np v b).
Proof.
  intros H Hv Hl. pose proof (zlen_nonneg v). unfold sshbuf_put_string. sb_consts.
  destruct (Z.ltb_spec (0x8000000 - 4) (zlen v)); [lia|].
  rewrite u64_small by lia. rewrite <- enc_string_len.
  apply reserve_fill; [done | by apply enc_string_bytes | rewrite enc_string_len; sb_consts; lia|].
  apply (fills_app 4 _ (fun p => if zlen v =? 0 then ret tt else mem_poke p v));
    [done | apply fills_put].
Qed.

Lemma sshbuf_put_string_too_large np v b :
  SSHBUF_SIZE_MAX - 4 < zlen v ->
  sshbuf_put_string np v b = (Err SSH_ERR_NO_BUFFER_SPACE, b).
Proof.
  intros Hl. unfold sshbuf_put_string.
  by destruct (Z.ltb_spec (SSHBUF_SIZE_MAX - 4) (zlen v)); [|lia].
Qed.

Lemma buf_bytes_wf b : sshbuf_wf b -> buf_bytes b = Ok (contents b).
Proof.
  intros H. unfold buf_bytes. rewrite sshbuf_ptr_wf, sshbuf_len_wf by done. simpl.
  rewrite consumed_bytes by (done || (pose proof (zlen_nonneg (contents b)); lia)).
  simpl. by rewrite ztake_all.
Qed.

(** ** Strings *)

(** What the front of a byte string says about the string it holds. *)
Definition string_len (l : list Z) : res Z :=
  if zlen l <? 4 then Err SSH_ERR_MESSAGE_INCOMPLETE
  else
    let n := be (ztake 4 l) in
    if SSHBUF_SIZE_MAX - 4 <? n then Err SSH_ERR_STRING_TOO_LARGE
    else if zlen l - 4 <? n then Err SSH_ERR_MESSAGE_INCOMPLETE
    else Ok n.

Lemma string_len_ok l n :
  string_len l = Ok n -> Forall is_byte l -> 0 <= n <= SSHBUF_SIZE_MAX - 4 /\ n + 4 <= zlen l.
Proof.
  unfold string_len. repeat ifcase; try done. intros [= <-] Hb.
  pose proof (be_bound (ztake 4 l) (Forall_ztake _ _ _ Hb)). lia.
Qed.

Lemma string_len_no_crash l : string_len l <> Crash.
Proof. unfold string_len. cbv zeta. repeat ifcase; done. Qed.

Lemma peek_string_spec b :
  sshbuf_wf b ->
  sshbuf_peek_string_direct b =
    (let? n := string_len (contents b) in Ok (sb_off b + 4, n)).
Proof.
  intros H. unfold sshbuf_peek_string_direct, string_len.
  rewrite sshbuf_ptr_wf, sshbuf_len_wf by done. simpl.
  destruct (Z.ltb_spec (zlen (contents b)) 4); [done|]. simpl.
  rewrite consumed_bytes by (done || lia). simpl.
  rewrite PEEK_U32_be by (zl || (apply Forall_ztake, contents_bytes; done)). simpl.
  destruct (_ <? be _); [done|]. simpl.
  pose proof (contents_len b H). wf_facts H. sb_consts. rewrite u64_small by lia.
  by destruct (_ <? be _).
Qed.

Lemma get_string_direct_spec b :
  sshbuf_wf b ->
  match string_len (contents b) with
  | Ok n => exists b', sshbuf_get_string_direct b = (Ok (sb_off b + 4, n), b') /\
      sshbuf_wf b' /\ same_frame b b' /\ contents b' = zdrop (n + 4) (contents b) /\
      sb_mem b' = sb_mem b
  | Err e => sshbuf_get_string_direct b = (Err e, b)
  | Crash => False
  end.
Proof.
  intros H. pose proof (peek_string_spec b H) as Hp.
  destruct (string_len (contents b)) as [n|e|] eqn:Hs; simpl in Hp;
    [|by unfold sshbuf_get_string_direct, bind, reads; rewrite Hp
     |by apply string_len_no_crash in Hs].
  unfold sshbuf_get_string_direct, bind at 1, reads. rewrite Hp. simpl.
  pose proof (string_len_ok _ _ Hs (contents_bytes b H)) as [Hn Hn'].
  unfold bind, or_err. sb_consts. rewrite u64_small by lia.
  destruct (sshbuf_consume_spec (n + 4) b H ltac:(lia))
    as [(? & _)|(_ & b' & -> & W & F & E & M & _)]; [lia|].
  exists b'. by split_and!.
Qed.

(** The body of the string at the front, once its header is consumed. *)
Lemma string_body b n :
  sshbuf_wf b -> string_len (contents b) = Ok n ->
  mem_read (sb_mem b) (sb_off b + 4) n = Some (ztake n (zdrop 4 (contents b))).
Proof.
  intros H Hs. pose proof (string_len_ok _ _ Hs (contents_bytes b H)) as [Hn Hn'].
  rewrite contents_len in Hn' by done. wf_facts H. rewrite mem_read_some by lia.
  unfold contents. rewrite !(ztake_drop_comm _ _ (sb_mem b)) by lia.
  rewrite zdrop_zdrop by lia. rewrite (ztake_drop_comm _ _ (ztake _ _)) by lia.
  rewrite ztake_ztake. do 3 f_equal. lia.
Qed.

Lemma sshbuf_get_string_spec mp b :
  sshbuf_wf b ->
  match string_len (contents b) with
  | Ok n => exists b', sshbuf_wf b' /\ same_frame b b' /\
      contents b' = zdrop (n + 4) (contents b) /\
      sshbuf_get_string mp b =
        (if mp =? 0 then Err SSH_ERR_ALLOC_FAIL
         else Ok (ztake n (zdrop 4 (contents b)) ++ [0], n), b')
  | Err e => sshbuf_get_string mp b = (Err e, b)
  | Crash => False
  end.
Proof.
  intros H. pose proof (get_string_direct_spec b H) as D.
  destruct (string_len (contents b)) as [n|e|] eqn:Hs;
    [|by unfold sshbuf_get_string, bind; rewrite D | done].
  destruct D as (b' & D & W & F & E & M). exists b'. split_and!; try done.
  unfold sshbuf_get_string, bind at 1. rewrite D. destruct (mp =? 0); [done|]. simpl.
  unfold bind at 1. destruct (Z.eqb_spec n 0) as [->|].
  - rewrite ztake_0 by lia. done.
  - unfold mem_peek, bind, get, defined. rewrite M, string_body by done. done.
Qed.

(** ** In-place access *)

Lemma check_offset_spec b wr o n :
  sshbuf_wf b -> 0 <= o <= SIZE_MAX -> 0 <= n <= SIZE_MAX ->
  check_offset b wr o n =
    if SIZE_MAX - n <=? o then Err SSH_ERR_INVALID_ARGUMENT
    else if zlen (contents b) <? o + n then
      Err (if wr then SSH_ERR_NO_BUFFER_SPACE else SSH_ERR_MESSAGE_INCOMPLETE)
    else Ok tt.
Proof.
  intros H Ho Hn. unfold check_offset. rewrite sshbuf_ptr_wf by done. simpl.
  sb_consts. rewrite (u64_small (_ - n)) by lia.
  destruct (Z.leb_spec (2 ^ 64 - 1 - n) o); [done|].
  rewrite sshbuf_len_wf, u64_small by (done || lia). done.
Qed.

(** Storing [v] at offset [o] of the contents. *)
Definition overwrite (o : Z) (v l : list Z) : list Z :=
  ztake o l ++ v ++ zdrop (o + zlen v) l.

Lemma mem_poke_contents b o v :
  sshbuf_wf b -> Forall is_byte v -> 0 <= o -> o + zlen v <= zlen (contents b) ->
  exists b', mem_poke (sb_off b + o) v b = (Ok tt, b') /\ sshbuf_wf b' /\ same_frame b b' /\
    contents b' = overwrite o v (contents b).
Proof.
  intros H Hv Ho Hn. rewrite contents_len in Hn by done. wf_facts H.
  pose proof (zlen_nonneg v).
  unfold mem_poke, bind, get, put, defined.
  destruct (mem_write (sb_mem b) (sb_off b + o) v) as [m|] eqn:Hm;
    [|rewrite mem_write_some in Hm by lia; done].
  pose proof (mem_write_len _ _ _ _ Hm). pose proof (mem_write_bytes _ _ _ _ Hm).
  eexists. split; [done|]. split_and!; try done; [wf_solve|].
  rewrite mem_write_some in Hm by lia. injection Hm as <-.
  unfold contents, overwrite. simpl.
  rewrite zdrop_app_le by zl. rewrite ztake_app_ge by zl. f_equal.
  { rewrite ztake_ztake, ztake_drop_comm by lia. do 2 f_equal. lia. }
  rewrite ztake_app_ge by zl. f_equal.
  rewrite (ztake_drop_comm (sb_size b - sb_off b)), zdrop_zdrop by lia.
  rewrite ztake_drop_comm by zl. f_equal; [lia|]. f_equal. zl.
Qed.

Lemma sshbuf_poke_spec o v b :
  sshbuf_wf b -> Forall is_byte v -> 0 <= o <= SIZE_MAX -> zlen v <= SIZE_MAX ->
  exists r b', sshbuf_poke o v b = (r, b') /\ sshbuf_wf b' /\ same_frame b b' /\
    contents b' = (if decide (r = Ok tt) then overwrite o v (contents b) else contents b) /\
    r = (if SIZE_MAX - zlen v <=? o then Err SSH_ERR_INVALID_ARGUMENT
         else if zlen (contents b) <? o + zlen v then Err SSH_ERR_NO_BUFFER_SPACE
         else if negb (writable b) then Err SSH_ERR_BUFFER_READ_ONLY
         else Ok tt).
Proof.
  intros H Hv Ho Hl. pose proof (zlen_nonneg v).
  unfold sshbuf_poke, bind, reads, check_woffset.
  rewrite check_offset_spec, sshbuf_mutable_ptr_wf by done.
  destruct (_ <=? o); simpl; [by eexists _, b|].
  destruct (Z.ltb_spec (zlen (contents b)) (o + zlen v)); simpl; [by eexists _, b|].
  destruct (writable b); simpl; [|by eexists _, b].
  destruct (mem_poke_contents b o v) as (b' & -> & W & F & E); [done..|lia|lia|].
  eexists _, b'. by split_and!.
Qed.

Lemma sshbuf_poke_u64_eq o x : sshbuf_poke_u64 o x = sshbuf_poke o (POKE_U64 x).
Proof. done. Qed.
Lemma sshbuf_poke_u32_eq o x : sshbuf_poke_u32 o x = sshbuf_poke o (POKE_U32 x).
Proof. done. Qed.
Lemma sshbuf_poke_u16_eq o x : sshbuf_poke_u16 o x = sshbuf_poke o (POKE_U16 x).
Proof. done. Qed.
Lemma sshbuf_poke_u8_eq o x : sshbuf_poke_u8 o x = sshbuf_poke o [u8 x].
Proof. done. Qed.

(** The reference reading of [n] bytes at offset [o] of a byte string. *)
Definition peek_ref (n o : Z) (l : list Z) : res Z :=
  if SIZE_MAX - n <=? o then Err SSH_ERR_INVALID_ARGUMENT
  else if zlen l <? o + n then Err SSH_ERR_MESSAGE_INCOMPLETE
  else Ok (be (ztake n (zdrop o l))).

Lemma peek_at b n o (f : list Z -> option Z) :
  sshbuf_wf b -> 0 <= o <= SIZE_MAX -> 0 <= n <= SIZE_MAX ->
  (forall v, zlen v = n -> Forall is_byte v -> f v = Some (be v)) ->
  (let? p := check_roffset b o n in
   let? v := rdefined (mem_read (sb_mem b) p n) in rdefined (f v)) = peek_ref n o (contents b).
Proof.
  intros H Ho Hn Hf. unfold check_roffset, peek_ref.
  rewrite check_offset_spec, sshbuf_ptr_wf by done.
  destruct (_ <=? o); [done|]. simpl.
  destruct (Z.ltb_spec (zlen (contents b)) (o + n)) as [|Hc]; [done|]. simpl.
  rewrite contents_len in Hc by done. wf_facts H.
  rewrite mem_read_some by lia. simpl.
  assert (ztake n (zdrop (sb_off b + o) (sb_mem b)) = ztake n (zdrop o (contents b))) as ->.
  { unfold contents. rewrite !(ztake_drop_comm _ _ (sb_mem b)), zdrop_zdrop by lia.
    rewrite (ztake_drop_comm _ _ (ztake _ _)), ztake_ztake by lia. do 2 f_equal. lia. }
  rewrite Hf; [done | | by apply Forall_ztake, Forall_zdrop, contents_bytes].
  pose proof (contents_len b H). zl.
Qed.

Lemma sshbuf_peek_u64_spec b o :
  sshbuf_wf b -> 0 <= o <= SIZE_MAX -> sshbuf_peek_u64 b o = peek_ref 8 o (contents b).
Proof. intros. apply peek_at; auto using PEEK_U64_be. done. Qed.
Lemma sshbuf_peek_u32_spec b o :
  sshbuf_wf b -> 0 <= o <= SIZE_MAX -> sshbuf_peek_u32 b o = peek_ref 4 o (contents b).
Proof. intros. apply peek_at; auto using PEEK_U32_be. done. Qed.
Lemma sshbuf_peek_u16_spec b o :
  sshbuf_wf b -> 0 <= o <= SIZE_MAX -> sshbuf_peek_u16 b o = peek_ref 2 o (contents b).
Proof. intros. apply peek_at; auto using PEEK_U16_be. done. Qed.
Lemma sshbuf_peek_u8_spec b o :
  sshbuf_wf b -> 0 <= o <= SIZE_MAX -> sshbuf_peek_u8 b o = peek_ref 1 o (contents b).
Proof.
  intros. apply peek_at; [done..|]. intros [|x [|]] Hl Hv; [done| |unfold zlen in Hl; simpl in Hl; lia].
  simpl. rewrite zlen_nil. f_equal. simpl. lia.
Qed.

(** ** C strings *)

(** A NUL anywhere but at the end. *)
Definition inner_nul (v : list Z) : bool :=
  (0 <? zlen v) && match memchr 0 v with Some z => z <? zlen v - 1 | None => false end.

Lemma memchr_some c l i :
  memchr c l = Some i <->
  0 <= i < zlen l /\ l !! Z.to_nat i = Some c /\ c ∉ take (Z.to_nat i) l.
Proof.
  revert i. induction l as [|x l IH]; intros i; [unfold zlen; simpl; split; [done|lia]|].
  simpl. rewrite zlen_cons. pose proof (zlen_nonneg l).
  destruct (Z.eqb_spec x c) as [->|Hx].
  - split.
    + intros [= <-]. split_and!; [lia..|done|simpl; apply not_elem_of_nil].
    + intros (Hi & _ & Hn). destruct (Z.to_nat i) eqn:E; [f_equal; lia|].
      exfalso. apply Hn. simpl. apply list_elem_of_here.
  - destruct (memchr c l) as [j|] eqn:E; simpl.
    + destruct (IH j) as [IH1 _]. destruct (IH1 eq_refl) as (Hj & Hl & Hn). split.
      * intros [= <-]. split_and!; [lia..| |];
          rewrite Z2Nat.inj_succ by lia; simpl; [done|].
        apply not_elem_of_cons. done.
      * intros (Hi & Hl' & Hn'). destruct (Z.to_nat i) as [|k] eqn:Ei; simpl in *; [congruence|].
        apply not_elem_of_cons in Hn' as [_ Hn'].
        enough (Some j = Some (Z.of_nat k)) as [= ->]; [f_equal; lia|].
        apply IH. rewrite Nat2Z.id. split_and!; [lia..|done|done].
    + split; [done|]. intros (Hi & Hl' & Hn').
      destruct (Z.to_nat i) as [|k] eqn:Ei; simpl in *; [congruence|].
      apply not_elem_of_cons in Hn' as [_ Hn'].
      destruct (IH (Z.of_nat k)) as [_ IH2]. rewrite Nat2Z.id in IH2.
      discriminate IH2. split_and!; [lia..|done|done].
Qed.

Lemma memchr_none c l : memchr c l = None <-> c ∉ l.
Proof.
  induction l as [|x l IH]; simpl; [split; [intros; apply not_elem_of_nil | done]|].
  rewrite not_elem_of_cons, <- IH. destruct (Z.eqb_spec x c) as [->|].
  - split; [done | by intros []].
  - destruct (memchr c l); simpl; split; try done. by intros [].
Qed.

Lemma inner_nul_spec v : inner_nul v = true <-> 0 ∈ take (length v - 1) v.
Proof.
  unfold inner_nul. rewrite andb_true_iff, Z.ltb_lt. split.
  - intros [Hz Hm]. destruct (memchr 0 v) as [z|] eqn:E; [|done]. zbool.
    apply memchr_some in E as (Hi & Hl & _). unfold zlen in *.
    apply list_elem_of_lookup. exists (Z.to_nat z). rewrite lookup_take_lt; [done | lia].
  - intros Hin. apply list_elem_of_lookup in Hin as [i Hi].
    apply lookup_take_Some in Hi as [Hi Hlt]. pose proof (lookup_lt_Some _ _ _ Hi).
    split; [unfold zlen; lia|].
    destruct (memchr 0 v) as [z|] eqn:E.
    + apply memchr_some in E as (Hz & _ & Hn). apply Z.ltb_lt.
      destruct (Z.lt_ge_cases z (zlen v - 1)); [done|]. exfalso. apply Hn.
      apply list_elem_of_lookup. exists i. unfold zlen in *. rewrite lookup_take_lt; [done | lia].
    + apply memchr_none in E. exfalso. apply E. apply list_elem_of_lookup. eauto.
Qed.

Lemma sshbuf_get_cstring_spec mp b :
  sshbuf_wf b ->
  match string_len (contents b) with
  | Ok n =>
      if inner_nul (ztake n (zdrop 4 (contents b))) then
        sshbuf_get_cstring mp b = (Err SSH_ERR_INVALID_FORMAT, b)
      else exists b', sshbuf_wf b' /\ same_frame b b' /\
        contents b' = zdrop (n + 4) (contents b) /\
        sshbuf_get_cstring mp b =
          (if mp =? 0 then Err SSH_ERR_ALLOC_FAIL
           else Ok (ztake n (zdrop 4 (contents b)) ++ [0], n), b')
  | Err e => sshbuf_get_cstring mp b = (Err e, b)
  | Crash => False
  end.
Proof.
  intros H. pose proof (get_string_direct_spec b H) as D. pose proof (peek_string_spec b H) as Hp.
  destruct (string_len (contents b)) as [n|e|] eqn:Hs; simpl in Hp;
    [|by unfold sshbuf_get_cstring, bind, reads; rewrite Hp | done].
  destruct D as (b' & D & W & F & E & M).
  pose proof (string_len_ok _ _ Hs (contents_bytes b H)) as [Hn Hn'].
  pose proof (string_body b n H Hs) as Hr.
  set (v := ztake n (zdrop 4 (contents b))) in *.
  assert (zlen v = n) as Hv by (unfold v; zl).
  assert (forall s, sb_mem s = sb_mem b -> mem_peek (sb_off b + 4) n s = (Ok v, s)) as Hk.
  { intros s Hs'. unfold mem_peek, bind, get, defined. by rewrite Hs', Hr. }
  assert (sshbuf_get_cstring mp b = (if inner_nul v then fail SSH_ERR_INVALID_FORMAT else
    do! or_err sshbuf_get_string_direct (-1) ;;
    if mp =? 0 then fail SSH_ERR_ALLOC_FAIL
    else
      let! v := (if n =? 0 then ret [] else mem_peek (sb_off b + 4) n) in
      ret (v ++ [0], n)) b) as ->.
  { unfold sshbuf_get_cstring. rewrite (bind_ok _ _ _ _ _ (reads_ok _ _ _ Hp)). simpl.
    rewrite (bind_ok _ _ _ _ _ (Hk b eq_refl)). unfold inner_nul. by rewrite Hv. }
  destruct (inner_nul v); [done|]. exists b'. split_and!; try done.
  rewrite (bind_ok _ _ b (sb_off b + 4, n) b') by (unfold or_err; by rewrite D).
  destruct (mp =? 0); [done|]. destruct (Z.eqb_spec n 0) as [->|].
  - by destruct v; [|pose proof (zlen_nonneg v); zl].
  - by rewrite (bind_ok _ _ _ _ _ (Hk b' M)).
Qed.

(** ** Multiple-precision integers *)

(** The body of the wire form: no leading zero byte, one prepended when the
    number would read as negative. *)
Definition bignum_body (v : list Z) : list Z :=
  match skip_zeros v with
  | [] => []
  | c :: s => if Z.land c 0x80 =? 0 then c :: s else 0 :: c :: s
  end.

Lemma skip_zeros_be v : be (skip_zeros v) = be v.
Proof. induction v as [|[] v IH]; simpl; intros; simplify_eq; auto. Qed.

Lemma skip_zeros_bytes v : Forall is_byte v -> Forall is_byte (skip_zeros v).
Proof. induction 1 as [|[] v Hv Hl IH]; simpl; try done; by constructor. Qed.

Lemma skip_zeros_len v : zlen (skip_zeros v) <= zlen v.
Proof. induction v as [|[] v IH]; simpl; rewrite ?zlen_cons in *; lia. Qed.

Lemma skip_zeros_cons v c s : skip_zeros v = c :: s -> c <> 0.
Proof. induction v as [|[] v IH]; simpl; intros; try done; [by apply IH | congruence ..]. Qed.

Lemma skip_zeros_body v : skip_zeros (bignum_body v) = skip_zeros v.
Proof.
  unfold bignum_body. destruct (skip_zeros v) as [|c s] eqn:E; [done|].
  pose proof (skip_zeros_cons _ _ _ E). destruct (_ =? 0); destruct c; done.
Qed.

Lemma bignum_body_bytes v : Forall is_byte v -> Forall is_byte (bignum_body v).
Proof.
  intros Hv. apply skip_zeros_bytes in Hv. unfold bignum_body.
  destruct (skip_zeros v); [done|]. destruct (_ =? 0); [done|]. constructor; [|done].
  unfold is_byte. lia.
Qed.

Lemma bignum_body_len v :
  zlen (skip_zeros v) <= zlen (bignum_body v) <= zlen (skip_zeros v) + 1.
Proof.
  unfold bignum_body. destruct (skip_zeros v); [rewrite zlen_nil; lia|].
  destruct (_ =? 0); zl.
Qed.

(** The three stores of [sshbuf_put_bignum2_bytes]. *)
Lemma fills_bignum h pre s :
  zlen h = 4 -> pre = 0 \/ pre = 1 ->
  fills (fun d => do! mem_poke d h ;;
                  do! (if pre =? 0 then ret tt else mem_poke (d + 4) [0]) ;;
                  if zlen s =? 0 then ret tt else mem_poke (d + 4 + pre) s)
    (h ++ (if pre =? 0 then s else 0 :: s)).
Proof.
  intros Hh Hp.
  apply (fills_app 4 h (fun p => do! (if pre =? 0 then ret tt else mem_poke p [0]) ;;
                                 if zlen s =? 0 then ret tt else mem_poke (p + pre) s)); [done|].
  destruct Hp as [-> | ->]; simpl.
  - intros p m ? ?. rewrite (bind_ok _ _ m tt m), Z.add_0_r by done. by apply fills_put.
  - apply (fills_app 1 [0] (fun p => if zlen s =? 0 then ret tt else mem_poke p s)); [done|].
    apply fills_put.
Qed.

Lemma sshbuf_put_bignum2_bytes_spec np v b :
  sshbuf_wf b -> Forall is_byte v -> zlen v <= SSHBUF_SIZE_MAX - 5 ->
  space_post np (zlen (bignum_body v) + 4) b
    (fun _ => appended (enc_string (bignum_body v)) b) (sshbuf_put_bignum2_bytes np v b).
Proof.
  intros H Hv Hl. unfold sshbuf_put_bignum2_bytes. sb_consts.
  destruct (Z.ltb_spec (0x8000000 - 5) (zlen v)); [lia|]. cbv zeta.
  pose proof (skip_zeros_len v). pose proof (zlen_nonneg (skip_zeros v)).
  pose proof (bignum_body_bytes v Hv) as Hb.
  set (pre := match skip_zeros v with [] => 0 | c :: _ => if Z.land c 0x80 =? 0 then 0 else 1 end).
  assert (pre = 0 \/ pre = 1) as Hpre by (unfold pre; repeat case_match; auto).
  assert (bignum_body v = (if pre =? 0 then skip_zeros v else 0 :: skip_zeros v)) as Hbody.
  { unfold bignum_body, pre. destruct (skip_zeros v); [done|]. by destruct (_ =? 0). }
  assert (zlen (bignum_body v) = zlen (skip_zeros v) + pre) as Hlen.
  { rewrite Hbody. destruct Hpre as [-> | ->]; simpl; zl. }
  rewrite !u64_small by lia. rewrite <- Hlen.
  replace (zlen (skip_zeros v) + 4 + pre) with (zlen (enc_string (bignum_body v)))
    by (rewrite enc_string_len; lia).
  rewrite <- enc_string_len.
  apply reserve_fill; [done | by apply enc_string_bytes | rewrite enc_string_len; sb_consts; lia|].
  unfold enc_string. rewrite Hbody at 2. apply fills_bignum; done.
Qed.

(** What [sshbuf_get_bignum2_bytes_direct] accepts of a string body. *)
Definition bignum_check (s : list Z) : res unit :=
  if match s with [] => false | c :: _ => negb (Z.land c 0x80 =? 0) end then
    Err SSH_ERR_BIGNUM_IS_NEGATIVE
  else if (SSHBUF_MAX_BIGNUM + 1 <? zlen s)
          || ((zlen s =? SSHBUF_MAX_BIGNUM + 1)
              && match s with [] => false | c :: _ => negb (c =? 0) end) then
    Err SSH_ERR_BIGNUM_TOO_LARGE
  else Ok tt.

Lemma skip_zeros_suffix s : zdrop (zlen s - zlen (skip_zeros s)) s = skip_zeros s.
Proof.
  assert (forall (c : Z) (s' : list Z), zdrop (zlen (c :: s') - zlen (c :: s')) (c :: s') = c :: s') as Hid
    by (intros; apply zdrop_0; lia).
  induction s as [|[] s IH]; simpl; try apply Hid; [done|].
  pose proof (skip_zeros_len s). rewrite zlen_cons.
  replace (zlen s + 1 - zlen (skip_zeros s)) with (1 + (zlen s - zlen (skip_zeros s))) by lia.
  rewrite <- zdrop_zdrop by lia. done.
Qed.

Lemma sshbuf_get_bignum2_bytes_direct_spec b :
  sshbuf_wf b ->
  match string_len (contents b) with
  | Ok n =>
      let s := ztake n (zdrop 4 (contents b)) in
      match bignum_check s with
      | Ok _ => exists p b',
          sshbuf_get_bignum2_bytes_direct b = (Ok (p, zlen (skip_zeros s)), b') /\
          mem_read (sb_mem b') p (zlen (skip_zeros s)) = Some (skip_zeros s) /\
          sshbuf_wf b' /\ same_frame b b' /\ contents b' = zdrop (n + 4) (contents b)
      | Err e => sshbuf_get_bignum2_bytes_direct b = (Err e, b)
      | Crash => False
      end
  | Err e => sshbuf_get_bignum2_bytes_direct b = (Err e, b)
  | Crash => False
  end.
Proof.
  intros H. pose proof (peek_string_spec b H) as Hp.
  destruct (string_len (contents b)) as [n|e|] eqn:Hs; simpl in Hp;
    [|by unfold sshbuf_get_bignum2_bytes_direct, bind, reads; rewrite Hp
     |by apply string_len_no_crash in Hs].
  pose proof (string_len_ok _ _ Hs (contents_bytes b H)) as [Hn Hn'].
  pose proof (string_body b n H Hs) as Hr. cbv zeta.
  set (s := ztake n (zdrop 4 (contents b))) in *.
  assert (zlen s = n) as Hv by (unfold s; zl).
  assert (sshbuf_get_bignum2_bytes_direct b = (let! _ := reads (fun _ => bignum_check s) in
    do! or_err (sshbuf_consume (u64 (n + 4))) SSH_ERR_INTERNAL_ERROR ;;
    ret (sb_off b + 4 + (n - zlen (skip_zeros s)), zlen (skip_zeros s))) b) as ->.
  { unfold sshbuf_get_bignum2_bytes_direct.
    rewrite (bind_ok _ _ _ _ _ (reads_ok _ _ _ Hp)).
    rewrite (bind_ok _ _ b s b) by (unfold mem_peek, bind, get, defined; by rewrite Hr).
    unfold bignum_check, reads, bind at 3. rewrite Hv. repeat (ifcase; [done|]). done. }
  destruct (bignum_check s) as [[]|e|] eqn:Hc; [|done|unfold bignum_check in Hc; by repeat case_match].
  unfold bind at 1, reads, bind at 1, or_err. sb_consts. rewrite u64_small by lia.
  destruct (sshbuf_consume_spec (n + 4) b H ltac:(lia))
    as [(? & _)|(_ & b' & -> & W & F & E & M & _)]; [lia|].
  eexists _, b'. split; [done|]. split_and!; try done. rewrite M.
  pose proof (skip_zeros_len s). pose proof (zlen_nonneg (skip_zeros s)).
  pose proof (contents_len b H). wf_facts H.
  rewrite mem_read_some in Hr by lia. injection Hr as Hr.
  rewrite mem_read_some by lia. f_equal.
  transitivity (zdrop (zlen s - zlen (skip_zeros s)) s); [|apply skip_zeros_suffix].
  rewrite Hv. rewrite <- Hr at 4. rewrite (ztake_drop_comm n), zdrop_zdrop by lia.
  rewrite ztake_drop_comm by lia. do 2 f_equal. lia.
Qed.

(** ** Parsing is the inverse of encoding *)

Lemma be_inj l k :
  Forall is_byte l -> Forall is_byte k -> zlen l = zlen k -> be l = be k -> l = k.
Proof.
  intros Hl. revert k. induction Hl as [|b l Hb Hl IH]; intros [|c k] Hk Hn He;
    unfold zlen in Hn; simpl in Hn; try done; try lia.
  apply Forall_cons in Hk as [Hc Hk]. cbn [be] in He.
  assert (zlen l = zlen k) as Hlk by (unfold zlen; lia). rewrite Hlk in He.
  pose proof (be_bound l Hl). pose proof (be_bound k Hk). rewrite Hlk in *.
  unfold is_byte in *. assert (b = c) by nia. subst c. f_equal. apply IH; [done..|lia].
Qed.

Lemma POKE_U32_be h : zlen h = 4 -> Forall is_byte h -> POKE_U32 (be h) = h.
Proof.
  intros Hl Hh. pose proof (be_bound h Hh) as Hb. rewrite Hl in Hb.
  apply be_inj; [apply POKE_U32_bytes | done | by rewrite Hl |].
  rewrite be_POKE_U32. apply u32_small. lia.
Qed.

Lemma string_len_split l n :
  string_len l = Ok n -> Forall is_byte l ->
  l = enc_string (ztake n (zdrop 4 l)) ++ zdrop (n + 4) l.
Proof.
  intros Hs Hb. pose proof (string_len_ok _ _ Hs Hb) as [Hn Hn'].
  assert (be (ztake 4 l) = n) as He.
  { revert Hs. unfold string_len. repeat ifcase; try done. by intros [= <-]. }
  unfold enc_string. replace (zlen (ztake n (zdrop 4 l))) with n by zl.
  rewrite <- He at 1. rewrite POKE_U32_be by (zl || by apply Forall_ztake).
  rewrite <- app_assoc. rewrite <- (ztake_zdrop 4 l) at 1. f_equal.
  rewrite <- (ztake_zdrop n (zdrop 4 l)) at 1. f_equal.
  rewrite zdrop_zdrop by lia. f_equal. lia.
Qed.

Lemma string_len_enc v rest :
  zlen v <= SSHBUF_SIZE_MAX - 4 -> string_len (enc_string v ++ rest) = Ok (zlen v).
Proof.
  intros Hl. pose proof (zlen_nonneg v). pose proof (zlen_nonneg rest).
  unfold string_len. rewrite zlen_app, enc_string_len.
  assert (be (ztake 4 (enc_string v ++ rest)) = zlen v) as ->.
  { unfold enc_string. rewrite <- app_assoc, ztake_app_le, ztake_all by done.
    rewrite be_POKE_U32. apply u32_small. sb_consts. lia. }
  repeat ifcase; lia || done.
Qed.

Lemma enc_string_take v rest :
  ztake (zlen v) (zdrop 4 (enc_string v ++ rest)) = v.
Proof.
  unfold enc_string. rewrite <- app_assoc, zdrop_app_ge by done.
  change (4 - zlen (POKE_U32 (zlen v))) with 0. rewrite zdrop_0 by done.
  rewrite ztake_app_le, ztake_all by lia. done.
Qed.

Lemma enc_string_drop v rest : zdrop (zlen v + 4) (enc_string v ++ rest) = rest.
Proof.
  pose proof (zlen_nonneg v).
  rewrite zdrop_app_ge; rewrite enc_string_len; [|lia]. apply zdrop_0. lia.
Qed.
