(* ===== verification/SshbufSpec.v ===== *)
(** * What sshbuf promises

    The contract of the buffer as an abstract machine (a bounded queue of
    bytes), the refinement of the machine by the code of sshbuf.c and
    sshbuf-getput-basic.c, the round trip of whole messages and the bounds. *)
From S2P Require Import Prelude Sshbuf SshbufGetput.

(** ** The abstract machine *)

Record queue : Type := mk_queue {
  q_bytes : list Z;      (* written and not yet read *)
  q_max : Z;             (* the limit *)
  q_writable : bool;
}.

Definition abs (b : sshbuf) : queue := mk_queue (contents b) (sb_max_size b) (writable b).

(** The operations of the interface. *)
Inductive bufop : Type :=
| Put (v : list Z) | PutU8 (x : Z) | PutU16 (x : Z) | PutU32 (x : Z) | PutU64 (x : Z)
| PutString (v : list Z) | PutBignum (v : list Z)
| Get (n : Z) | GetU8 | GetU16 | GetU32 | GetU64 | GetString | GetCString
| Consume (n : Z) | ConsumeEnd (n : Z)
| Poke (o : Z) (v : list Z)
| SetMax (n : Z) | Reset.

(** Values fit the C types of the parameters. *)
Definition bufop_ok (o : bufop) : Prop :=
  match o with
  | Put v | PutString v | PutBignum v => Forall is_byte v /\ zlen v <= SIZE_MAX
  | Get n | Consume n | ConsumeEnd n | SetMax n => 0 <= n <= SIZE_MAX
  | Poke o v => 0 <= o <= SIZE_MAX /\ Forall is_byte v /\ zlen v <= SIZE_MAX
  | _ => True
  end.

Definition num (m : ST sshbuf Z) : ST sshbuf (list Z) := let! x := m in ret [x].
Definition void (m : ST sshbuf unit) : ST sshbuf (list Z) := do! m ;; ret [].
Definition str (m : ST sshbuf (list Z * Z)) : ST sshbuf (list Z) :=
  let! x := m in ret (ztake (snd x) (fst x)).

(** Run the code; [np] is the answer of the allocator. *)
Definition exec (np : Z) (o : bufop) : ST sshbuf (list Z) :=
  match o with
  | Put v => void (sshbuf_put np v)
  | PutU8 x => void (sshbuf_put_u8 np x)
  | PutU16 x => void (sshbuf_put_u16 np x)
  | PutU32 x => void (sshbuf_put_u32 np x)
  | PutU64 x => void (sshbuf_put_u64 np x)
  | PutString v => void (sshbuf_put_string np v)
  | PutBignum v => void (sshbuf_put_bignum2_bytes np v)
  | Get n => sshbuf_get n
  | GetU8 => num sshbuf_get_u8
  | GetU16 => num sshbuf_get_u16
  | GetU32 => num sshbuf_get_u32
  | GetU64 => num sshbuf_get_u64
  | GetString => str (sshbuf_get_string np)
  | GetCString => str (sshbuf_get_cstring np)
  | Consume n => void (sshbuf_consume n)
  | ConsumeEnd n => void (sshbuf_consume_end n)
  | Poke o v => void (sshbuf_poke o v)
  | SetMax n => void (sshbuf_set_max_size np n)
  | Reset => void (sshbuf_reset np)
  end.

(** The bytes an operation appends. *)
Definition op_enc (o : bufop) : option (list Z) :=
  match o with
  | Put v => Some v
  | PutU8 x => Some [u8 x]
  | PutU16 x => Some (POKE_U16 x)
  | PutU32 x => Some (POKE_U32 x)
  | PutU64 x => Some (POKE_U64 x)
  | PutString v => Some (enc_string v)
  | PutBignum v => Some (enc_string (bignum_body v))
  | _ => None
  end.

(** The largest argument the length checks of the writers let through. *)
Definition op_limit (o : bufop) : bool :=
  match o with
  | PutString v => zlen v <=? SSHBUF_SIZE_MAX - 4
  | PutBignum v => zlen v <=? SSHBUF_SIZE_MAX - 5
  | _ => true
  end.

(** The bytes an operation takes from the front, and its result. *)
Definition op_read (o : bufop) : option (Z * (list Z -> list Z)) :=
  match o with
  | Get n => Some (n, id)
  | GetU8 => Some (1, fun l => [be l])
  | GetU16 => Some (2, fun l => [be l])
  | GetU32 => Some (4, fun l => [be l])
  | GetU64 => Some (8, fun l => [be l])
  | Consume n => Some (n, fun _ => [])
  | _ => None
  end.

Definition set_bytes (l : list Z) (q : queue) : queue := mk_queue l (q_max q) (q_writable q).

(** One step of the bounded queue. *)
Inductive queue_step : bufop -> queue -> res (list Z) -> queue -> Prop :=
| qs_put o e q :
    op_enc o = Some e -> q_writable q = true -> zlen (q_bytes q) + zlen e <= q_max q ->
    queue_step o q (Ok []) (set_bytes (q_bytes q ++ e) q)
| qs_put_read_only o e q :
    op_enc o = Some e -> q_writable q = false ->
    queue_step o q (Err SSH_ERR_BUFFER_READ_ONLY) q
| qs_put_no_space o e q :
    op_enc o = Some e -> q_max q < zlen (q_bytes q) + zlen e \/ op_limit o = false ->
    queue_step o q (Err SSH_ERR_NO_BUFFER_SPACE) q
| qs_put_no_memory o e q :
    op_enc o = Some e -> queue_step o q (Err SSH_ERR_ALLOC_FAIL) q
| qs_read o n f q :
    op_read o = Some (n, f) -> n <= zlen (q_bytes q) ->
    queue_step o q (Ok (f (ztake n (q_bytes q)))) (set_bytes (zdrop n (q_bytes q)) q)
| qs_read_short o n f q :
    op_read o = Some (n, f) -> zlen (q_bytes q) < n ->
    queue_step o q (Err SSH_ERR_MESSAGE_INCOMPLETE) q
| qs_string o v rest q :
    o = GetString \/ (o = GetCString /\ inner_nul v = false) ->
    q_bytes q = enc_string v ++ rest -> zlen v <= SSHBUF_SIZE_MAX - 4 ->
    queue_step o q (Ok v) (set_bytes rest q)
| qs_string_no_memory o v rest q :
    o = GetString \/ o = GetCString -> q_bytes q = enc_string v ++ rest ->
    queue_step o q (Err SSH_ERR_ALLOC_FAIL) (set_bytes rest q)
| qs_string_bad o e q :
    o = GetString \/ o = GetCString -> string_len (q_bytes q) = Err e ->
    queue_step o q (Err e) q
| qs_cstring_nul v rest q :
    q_bytes q = enc_string v ++ rest -> inner_nul v = true ->
    queue_step GetCString q (Err SSH_ERR_INVALID_FORMAT) q
| qs_consume_end n q :
    n <= zlen (q_bytes q) ->
    queue_step (ConsumeEnd n) q (Ok [])
      (set_bytes (ztake (zlen (q_bytes q) - n) (q_bytes q)) q)
| qs_consume_end_short n q :
    zlen (q_bytes q) < n -> queue_step (ConsumeEnd n) q (Err SSH_ERR_MESSAGE_INCOMPLETE) q
| qs_poke o v q :
    o + zlen v <= zlen (q_bytes q) -> q_writable q = true ->
    queue_step (Poke o v) q (Ok []) (set_bytes (overwrite o v (q_bytes q)) q)
| qs_poke_overflow o v q :
    SIZE_MAX - zlen v <= o -> queue_step (Poke o v) q (Err SSH_ERR_INVALID_ARGUMENT) q
| qs_poke_outside o v q :
    zlen (q_bytes q) < o + zlen v -> queue_step (Poke o v) q (Err SSH_ERR_NO_BUFFER_SPACE) q
| qs_poke_read_only o v q :
    q_writable q = false -> queue_step (Poke o v) q (Err SSH_ERR_BUFFER_READ_ONLY) q
| qs_set_max n q :
    zlen (q_bytes q) <= n <= SSHBUF_SIZE_MAX ->
    queue_step (SetMax n) q (Ok []) (mk_queue (q_bytes q) n (q_writable q))
| qs_set_max_fail n e q :
    queue_step (SetMax n) q (Err e) q
| qs_reset q : queue_step Reset q (Ok []) (set_bytes [] q).

(** The one condition the caller owes: [sshbuf_reset] restores the initial
    allocation, so the limit must leave room for it. *)
Definition reset_ok (o : bufop) (b : sshbuf) : Prop :=
  o = Reset -> SSHBUF_SIZE_INIT <= sb_max_size b.

(** ** Refinement *)

(** The step [(r, b')] of the code from [b] is a step of the queue. *)
Definition refines (o : bufop) (b : sshbuf) (rb : res (list Z) * sshbuf) : Prop :=
  fst rb <> Crash /\ sshbuf_wf (snd rb) /\ queue_step o (abs b) (fst rb) (abs (snd rb)).

Lemma abs_frame b b' l :
  same_frame b b' -> contents b' = l -> abs b' = set_bytes l (abs b).
Proof.
  intros F <-. unfold abs, set_bytes. simpl. rewrite (same_frame_writable _ _ F).
  by destruct F as (_ & -> & _).
Qed.

Lemma abs_kept b b' : kept b b' -> abs b' = abs b.
Proof. intros (_ & F & E). by rewrite (abs_frame _ _ _ F E). Qed.

Lemma refines_append np o e b m :
  sshbuf_wf b -> op_enc o = Some e ->
  space_post np (zlen e) b (fun _ => appended e b) (m b) -> refines o b (void m b).
Proof.
  intros H He Hm. unfold void, bind. destruct Hm as [Hw|Hw Hs|b' Hw Hs Hnp K|a b' Hw Hs (W & F & E)];
    (split; [done|]); simpl.
  - split; [done|]. by eapply qs_put_read_only.
  - split; [done|]. eapply qs_put_no_space; [done | by left].
  - destruct K as (W & F & E). split; [done|]. rewrite (abs_kept b b' ltac:(by split_and!)).
    by eapply qs_put_no_memory.
  - split; [done|]. rewrite (abs_frame b b' _ F E). by eapply qs_put.
Qed.

Lemma refines_read o b n f {A} (val : list Z -> A) (m : ST sshbuf A) (k : A -> list Z) :
  sshbuf_wf b -> op_read o = Some (n, f) -> read_post n b val (m b) ->
  (forall l, k (val l) = f l) -> refines o b (bind m (fun x => ret (k x)) b).
Proof.
  intros H Ho Hm Hk. unfold bind. destruct Hm as [Hs|b' Hs W F E]; (split; [done|]); simpl.
  - split; [done|]. by eapply qs_read_short.
  - split; [done|]. rewrite (abs_frame b b' _ F E), Hk. by eapply (qs_read _ _ _ (abs b)).
Qed.

Lemma refines_string o b np (m : ST sshbuf (list Z * Z)) n b' :
  o = GetString \/ o = GetCString /\ inner_nul (ztake n (zdrop 4 (contents b))) = false ->
  sshbuf_wf b -> string_len (contents b) = Ok n ->
  sshbuf_wf b' -> same_frame b b' -> contents b' = zdrop (n + 4) (contents b) ->
  m b = (if np =? 0 then Err SSH_ERR_ALLOC_FAIL
         else Ok (ztake n (zdrop 4 (contents b)) ++ [0], n), b') ->
  refines o b (str m b).
Proof.
  intros Ho H Hs W F E Hm. unfold str, bind. rewrite Hm.
  pose proof (string_len_split _ _ Hs (contents_bytes b H)) as Hsplit.
  pose proof (string_len_ok _ _ Hs (contents_bytes b H)) as [Hn Hn'].
  set (v := ztake n (zdrop 4 (contents b))) in *.
  assert (zlen v = n) as Hv by (unfold v; zl).
  destruct (np =? 0); (split; [done|]); simpl; (split; [done|]); rewrite (abs_frame b b' _ F E).
  - eapply qs_string_no_memory; [|exact Hsplit]. by destruct Ho as [?|[? _]]; [left|right].
  - rewrite ztake_app_le, ztake_all by lia. eapply qs_string; [done | exact Hsplit | lia].
Qed.

Lemma refines_err o b e m :
  sshbuf_wf b -> m b = (Err e, b) -> queue_step o (abs b) (Err e) (abs b) -> refines o b (void m b).
Proof. intros H Hm Hq. unfold void, bind. rewrite Hm. by split. Qed.

Lemma refines_get_string np b : sshbuf_wf b -> refines GetString b (exec np GetString b).
Proof.
  intros H. simpl. pose proof (sshbuf_get_string_spec np b H) as D.
  destruct (string_len (contents b)) as [n|e|] eqn:Hs; [|split; [|split]|done].
  - destruct D as (b' & W & F & E & D). eapply refines_string; eauto.
  - unfold str, bind. by rewrite D.
  - unfold str, bind. by rewrite D.
  - unfold str, bind. rewrite D. apply qs_string_bad; [by left | done].
Qed.

Lemma refines_get_cstring np b : sshbuf_wf b -> refines GetCString b (exec np GetCString b).
Proof.
  intros H. simpl. pose proof (sshbuf_get_cstring_spec np b H) as D.
  destruct (string_len (contents b)) as [n|e|] eqn:Hs; [|split; [|split]|done].
  - destruct (inner_nul _) eqn:Hi; [|destruct D as (b' & W & F & E & D); eapply refines_string; eauto].
    unfold str, bind, refines. rewrite D. split; [done|]. split; [done|].
    eapply qs_cstring_nul; [|exact Hi].
    exact (string_len_split _ _ Hs (contents_bytes b H)).
  - unfold str, bind. by rewrite D.
  - unfold str, bind. by rewrite D.
  - unfold str, bind. rewrite D. apply qs_string_bad; [by right | done].
Qed.

Lemma refines_set_max np n b :
  sshbuf_wf b -> 0 <= n -> refines (SetMax n) b (exec np (SetMax n) b).
Proof.
  intros H Hn. simpl. unfold void, bind, refines.
  destruct (sshbuf_set_max_size_spec np n b H Hn) as (r & b' & -> & Hc & W & E & Hw & Hm).
  destruct r as [[]|e|]; [| |done]; (split; [done|]); simpl; (split; [done|]).
  - rewrite decide_True in Hm by done.
    assert (abs b' = mk_queue (q_bytes (abs b)) n (q_writable (abs b))) as ->.
    { unfold abs. simpl. congruence. }
    apply qs_set_max. simpl. rewrite <- E, contents_len by done. wf_facts W. lia.
  - rewrite decide_False in Hm by done.
    assert (abs b' = abs b) as -> by (unfold abs; congruence). apply qs_set_max_fail.
Qed.

Lemma refines_poke np o v b :
  sshbuf_wf b -> bufop_ok (Poke o v) -> refines (Poke o v) b (exec np (Poke o v) b).
Proof.
  intros H (Ho & Hv & Hl). simpl. unfold void, bind, refines.
  destruct (sshbuf_poke_spec o v b H Hv Ho Hl) as (r & b' & -> & W & F & E & Hr).
  destruct r as [[]|e|]; simpl; [| |by repeat case_match]; (split; [done|]); (split; [done|]).
  - rewrite decide_True in E by done. rewrite (abs_frame _ _ _ F E). symmetry in Hr.
    repeat case_match; try done. zbool. by apply (qs_poke _ _ (abs b)).
  - rewrite decide_False in E by done. rewrite (abs_kept b b') by done. symmetry in Hr.
    repeat case_match; simplify_eq; zbool;
      [by apply qs_poke_overflow | by apply qs_poke_outside | by apply qs_poke_read_only].
Qed.

Lemma bind_ret {S A} (m : ST S A) s : bind m (fun x => ret x) s = m s.
Proof. unfold bind. destruct (m s) as [[] ?]; done. Qed.

Lemma refines_put_string np v b :
  sshbuf_wf b -> Forall is_byte v -> refines (PutString v) b (exec np (PutString v) b).
Proof.
  intros H Hv. simpl. destruct (Z.le_gt_cases (zlen v) (SSHBUF_SIZE_MAX - 4)) as [Hl|Hl].
  - eapply (refines_append np _ (enc_string v)); [done..|]. rewrite enc_string_len.
    by apply sshbuf_put_string_spec.
  - eapply refines_err; [done | by apply sshbuf_put_string_too_large |].
    eapply qs_put_no_space; [done|]. right. simpl. by apply Z.leb_gt.
Qed.

Lemma refines_put_bignum np v b :
  sshbuf_wf b -> Forall is_byte v -> refines (PutBignum v) b (exec np (PutBignum v) b).
Proof.
  intros H Hv. simpl. destruct (Z.le_gt_cases (zlen v) (SSHBUF_SIZE_MAX - 5)) as [Hl|Hl].
  - eapply (refines_append np _ (enc_string (bignum_body v))); [done..|].
    rewrite enc_string_len. by apply sshbuf_put_bignum2_bytes_spec.
  - eapply refines_err; [done | |].
    + unfold sshbuf_put_bignum2_bytes.
      by destruct (Z.ltb_spec (SSHBUF_SIZE_MAX - 5) (zlen v)); [|lia].
    + eapply qs_put_no_space; [done|]. right. simpl. by apply Z.leb_gt.
Qed.

(** Every operation of the code is a step of the queue. *)
Lemma exec_step np o b :
  sshbuf_wf b -> bufop_ok o -> reset_ok o b -> refines o b (exec np o b).
Proof.
  intros H Ho Hr. destruct o; simpl in Ho; try match type of Ho with _ /\ _ => destruct Ho as [Ho1 Ho2] end.
  - eapply (refines_append np _ v); [done..|]. by apply sshbuf_put_spec.
  - eapply (refines_append np _ [u8 x]); [done..|]. by apply sshbuf_put_u8_spec.
  - eapply (refines_append np _ (POKE_U16 x)); [done..|]. by apply sshbuf_put_u16_spec.
  - eapply (refines_append np _ (POKE_U32 x)); [done..|]. by apply sshbuf_put_u32_spec.
  - eapply (refines_append np _ (POKE_U64 x)); [done..|]. by apply sshbuf_put_u64_spec.
  - by apply refines_put_string.
  - by apply refines_put_bignum.
  - simpl. rewrite <- bind_ret. by eapply (refines_read _ b n id id _ id H); [|apply sshbuf_get_spec|].
  - eapply (refines_read _ b 1 (fun l => [be l]) be _ (fun x => [x]) H); [done | by apply sshbuf_get_u8_spec | done].
  - eapply (refines_read _ b 2 (fun l => [be l]) be _ (fun x => [x]) H); [done | by apply sshbuf_get_u16_spec | done].
  - eapply (refines_read _ b 4 (fun l => [be l]) be _ (fun x => [x]) H); [done | by apply sshbuf_get_u32_spec | done].
  - eapply (refines_read _ b 8 (fun l => [be l]) be _ (fun x => [x]) H); [done | by apply sshbuf_get_u64_spec | done].
  - by apply refines_get_string.
  - by apply refines_get_cstring.
  - eapply (refines_read _ b n (fun _ => []) (fun _ => tt) _ (fun _ => []) H); [done| |done].
    destruct (sshbuf_consume_spec n b H ltac:(lia))
      as [(? & ->)|(Hc & b' & -> & W & F & E & _)]; [by constructor|].
    by apply (rp_ok n b (fun _ => tt)).
  - simpl. unfold void, bind, refines.
    destruct (sshbuf_consume_end_spec n b H ltac:(lia))
      as [(? & ->)|(Hc & b' & -> & W & F & E)]; (split; [done|]); simpl; (split; [done|]).
    + by apply qs_consume_end_short.
    + rewrite (abs_frame _ _ _ F E). by apply (qs_consume_end n (abs b)).
  - by apply refines_poke.
  - apply refines_set_max; [done | lia].
  - simpl. unfold void, bind, refines.
    destruct (sshbuf_reset_spec np b H) as (b' & -> & W & F & E); [do 3 right; by apply Hr|].
    split; [done|]. simpl. split; [done|]. rewrite (abs_frame _ _ _ F E). apply qs_reset.
Qed.

(** ** Sequences of operations *)

(** A client that looks at every result and goes on. *)
Fixpoint run (ops : list (Z * bufop)) (b : sshbuf) : list (res (list Z)) * sshbuf :=
  match ops with
  | [] => ([], b)
  | (np, o) :: ops =>
      let '(r, b) := exec np o b in
      let '(rs, b) := run ops b in (r :: rs, b)
  end.

(** The traces of the queue. *)
Inductive queue_run : list bufop -> queue -> list (res (list Z)) -> queue -> Prop :=
| qr_nil q : queue_run [] q [] q
| qr_cons o ops q r q' rs q'' :
    queue_step o q r q' -> queue_run ops q' rs q'' -> queue_run (o :: ops) q (r :: rs) q''.

(** A client that never sets a limit below the initial allocation. *)
Definition client_ok (o : bufop) : Prop :=
  bufop_ok o /\ match o with SetMax n => SSHBUF_SIZE_INIT <= n | _ => True end.

Lemma queue_step_max o q r q' :
  queue_step o q r q' -> q_max q' = q_max q \/ exists n, o = SetMax n /\ q_max q' = n.
Proof. destruct 1; simpl; eauto. Qed.

Lemma run_refines ops b :
  sshbuf_wf b -> SSHBUF_SIZE_INIT <= sb_max_size b -> Forall client_ok (snd <$> ops) ->
  ~ (Crash ∈ fst (run ops b)) /\ sshbuf_wf (snd (run ops b)) /\
  queue_run (snd <$> ops) (abs b) (fst (run ops b)) (abs (snd (run ops b))).
Proof.
  revert b. induction ops as [|[np o] ops IH]; intros b H Hm Hok; simpl.
  { split_and!; [apply not_elem_of_nil | done | constructor]. }
  apply Forall_cons in Hok as [[Ho Hs] Hok].
  destruct (exec_step np o b H Ho ltac:(by intros _)) as (Hc & W & Q).
  destruct (exec np o b) as [r b1]. simpl in *.
  assert (SSHBUF_SIZE_INIT <= sb_max_size b1) as Hm1.
  { destruct (queue_step_max _ _ _ _ Q) as [E|(n & -> & E)]; simpl in E; lia. }
  destruct (IH b1 W Hm1 Hok) as (Hc1 & W1 & Q1).
  destruct (run ops b1) as [rs b2]. simpl in *. split_and!; [|done|by econstructor].
  apply not_elem_of_cons. done.
Qed.

Lemma sshbuf_new_wf ps pd b :
  0 < ps -> 0 < pd -> sshbuf_new ps pd = Some b ->
  sshbuf_wf b /\ contents b = [] /\ writable b = true /\ sb_max_size b = SSHBUF_SIZE_MAX.
Proof.
  intros Hps Hpd. unfold sshbuf_new. destruct (ps =? 0), (pd =? 0); try done.
  intros [= <-]. split_and!; try done. wf_solve.
  apply (Forall_replicate is_byte 256 0). unfold is_byte. lia.
Qed.


Definition demo_ops : list (Z * bufop) :=
  [(1, PutU32 7); (1, PutString [97; 98]); (1, GetU32); (1, GetCString); (1, GetU8); (1, Reset)].


(** ** Messages *)

(** The fields of an SSH message and the call that writes each. *)
Inductive field : Type :=
| FU8 (x : Z) | FU16 (x : Z) | FU32 (x : Z) | FU64 (x : Z)
| FString (v : list Z) | FCString (v : list Z) | FBignum (v : list Z).

Inductive kind : Type := KU8 | KU16 | KU32 | KU64 | KString | KCString | KBignum.

Definition kind_of (f : field) : kind :=
  match f with
  | FU8 _ => KU8 | FU16 _ => KU16 | FU32 _ => KU32 | FU64 _ => KU64
  | FString _ => KString | FCString _ => KCString | FBignum _ => KBignum
  end.

Definition field_ok (f : field) : Prop :=
  match f with
  | FU8 x => 0 <= x < 2 ^ 8
  | FU16 x => 0 <= x < 2 ^ 16
  | FU32 x => 0 <= x < 2 ^ 32
  | FU64 x => 0 <= x < 2 ^ 64
  | FString v => Forall is_byte v
  | FCString v => Forall is_byte v /\ ~ (0 ∈ v)
  | FBignum v => Forall is_byte v /\ zlen v <= SSHBUF_MAX_BIGNUM
  end.

Definition put_field (np : Z) (f : field) : ST sshbuf unit :=
  match f with
  | FU8 x => sshbuf_put_u8 np x
  | FU16 x => sshbuf_put_u16 np x
  | FU32 x => sshbuf_put_u32 np x
  | FU64 x => sshbuf_put_u64 np x
  | FString v => sshbuf_put_string np v
  | FCString v => sshbuf_put_cstring np (Some v)
  | FBignum v => sshbuf_put_bignum2_bytes np v
  end.

Definition get_field (mp : Z) (k : kind) : ST sshbuf field :=
  match k with
  | KU8 => let! x := sshbuf_get_u8 in ret (FU8 x)
  | KU16 => let! x := sshbuf_get_u16 in ret (FU16 x)
  | KU32 => let! x := sshbuf_get_u32 in ret (FU32 x)
  | KU64 => let! x := sshbuf_get_u64 in ret (FU64 x)
  | KString => let! v := sshbuf_get_string mp in ret (FString (ztake (snd v) (fst v)))
  | KCString => let! v := sshbuf_get_cstring mp in ret (FCString (ztake (snd v) (fst v)))
  | KBignum => let! v := sshbuf_get_bignum2_bytes_direct in
               let! l := mem_peek (fst v) (snd v) in ret (FBignum l)
  end.

Fixpoint put_msg (np : Z) (fs : list field) : ST sshbuf unit :=
  match fs with
  | [] => ret tt
  | f :: fs => do! put_field np f ;; put_msg np fs
  end.

Fixpoint get_msg (mp : Z) (ks : list kind) : ST sshbuf (list field) :=
  match ks with
  | [] => ret []
  | k :: ks => let! f := get_field mp k in let! fs := get_msg mp ks in ret (f :: fs)
  end.

Definition enc_field (f : field) : list Z :=
  match f with
  | FU8 x => [u8 x]
  | FU16 x => POKE_U16 x
  | FU32 x => POKE_U32 x
  | FU64 x => POKE_U64 x
  | FString v | FCString v => enc_string v
  | FBignum v => enc_string (bignum_body v)
  end.

Definition enc_msg (fs : list field) : list Z := concat (enc_field <$> fs).

(** The value read back: a number loses its leading zero bytes. *)
Definition canon (f : field) : field :=
  match f with FBignum v => FBignum (skip_zeros v) | _ => f end.

Lemma put_field_spec np f b :
  sshbuf_wf b -> field_ok f -> np <> 0 -> writable b = true ->
  zlen (contents b) + zlen (enc_field f) <= sb_max_size b ->
  exists b', put_field np f b = (Ok tt, b') /\ appended (enc_field f) b b'.
Proof.
  intros H Hf Hnp Hw Hfit.
  assert (zlen (enc_field f) <= SSHBUF_SIZE_MAX).
  { wf_facts H. pose proof (zlen_nonneg (contents b)). lia. }
  assert (space_post np (zlen (enc_field f)) b (fun _ => appended (enc_field f) b)
            (put_field np f b)) as R.
  { destruct f; simpl in *; rewrite ?enc_string_len in *.
    - by apply sshbuf_put_u8_spec.
    - by apply sshbuf_put_u16_spec.
    - by apply sshbuf_put_u32_spec.
    - by apply sshbuf_put_u64_spec.
    - apply sshbuf_put_string_spec; [done..|lia].
    - unfold sshbuf_put_cstring. apply sshbuf_put_string_spec; [done|apply Hf|lia].
    - destruct Hf. apply sshbuf_put_bignum2_bytes_spec; [done..|]. sb_consts. lia. }
  destruct R as [| |? ? ? ?|[] b' ? ? A]; [congruence | lia | done | eauto].
Qed.

(** Reading [n] bytes when they are there. *)
Lemma read_front {A} n b (val : list Z -> A) (m : ST sshbuf A) h rest :
  read_post n b val (m b) -> contents b = h ++ rest -> zlen h = n ->
  exists b', m b = (Ok (val h), b') /\ sshbuf_wf b' /\ contents b' = rest.
Proof.
  intros R E Hh. pose proof (zlen_nonneg rest). destruct R as [Hs|b' Hs W F E'].
  - rewrite E, zlen_app in Hs. lia.
  - exists b'. rewrite E' , E. subst n. rewrite ztake_app_le, ztake_all by lia.
    split_and!; try done. pose proof (zlen_nonneg h).
    rewrite zdrop_app_ge by lia. apply zdrop_0. lia.
Qed.

Lemma no_nul_inner v : ~ (0 ∈ v) -> inner_nul v = false.
Proof.
  intros Hn. destruct (inner_nul v) eqn:E; [|done]. apply inner_nul_spec in E.
  apply list_elem_of_lookup in E as [i Hi]. apply lookup_take_Some in Hi as [Hi _].
  exfalso. apply Hn, list_elem_of_lookup. eauto.
Qed.

Lemma bignum_body_check v :
  Forall is_byte v -> zlen v <= SSHBUF_MAX_BIGNUM -> bignum_check (bignum_body v) = Ok tt.
Proof.
  intros Hv Hl. pose proof (skip_zeros_len v). unfold bignum_check, bignum_body.
  destruct (skip_zeros v) as [|c s] eqn:E; [done|]. rewrite zlen_cons in *.
  destruct (Z.land c 0x80 =? 0) eqn:Hc; rewrite ?Hc, ?zlen_cons; cbn [negb]; sb_consts;
    repeat ifcase; try done; zcases; lia.
Qed.

Lemma get_field_spec mp f b rest :
  sshbuf_wf b -> field_ok f -> mp <> 0 -> zlen (enc_field f) <= SSHBUF_SIZE_MAX ->
  contents b = enc_field f ++ rest ->
  exists b', get_field mp (kind_of f) b = (Ok (canon f), b') /\ sshbuf_wf b' /\ contents b' = rest.
Proof.
  intros H Hf Hmp Hl E. apply Z.eqb_neq in Hmp.
  destruct f as [x|x|x|x|v|v|v];
    cbn [enc_field field_ok kind_of canon get_field] in *; rewrite ?enc_string_len in Hl.
  - destruct (read_front 1 b be _ [u8 x] rest (sshbuf_get_u8_spec b H) E) as (b' & R & W); [done|].
    exists b'. split; [|done]. rewrite (bind_ok _ _ _ _ _ R).
    change (be [u8 x]) with (u8 x * 1 + 0). by rewrite Z.mul_1_r, Z.add_0_r, u8_small.
  - destruct (read_front 2 b be _ _ _ (sshbuf_get_u16_spec b H) E) as (b' & R & W); [done|].
    exists b'. split; [|done]. rewrite (bind_ok _ _ _ _ _ R), be_POKE_U16. by rewrite u16_small.
  - destruct (read_front 4 b be _ _ _ (sshbuf_get_u32_spec b H) E) as (b' & R & W); [done|].
    exists b'. split; [|done]. rewrite (bind_ok _ _ _ _ _ R), be_POKE_U32. by rewrite u32_small.
  - destruct (read_front 8 b be _ _ _ (sshbuf_get_u64_spec b H) E) as (b' & R & W); [done|].
    exists b'. split; [|done]. rewrite (bind_ok _ _ _ _ _ R), be_POKE_U64. by rewrite u64_small.
  - pose proof (sshbuf_get_string_spec mp b H) as D. rewrite E, string_len_enc in D by lia.
    rewrite enc_string_take, enc_string_drop, Hmp in D. destruct D as (b' & W & _ & E' & D).
    exists b'. split; [|done]. rewrite (bind_ok _ _ _ _ _ D). simpl.
    by rewrite ztake_app_le, ztake_all.
  - pose proof (sshbuf_get_cstring_spec mp b H) as D. rewrite E, string_len_enc in D by lia.
    rewrite enc_string_take, enc_string_drop, Hmp, no_nul_inner in D by apply Hf.
    destruct D as (b' & W & _ & E' & D).
    exists b'. split; [|done]. rewrite (bind_ok _ _ _ _ _ D). simpl.
    by rewrite ztake_app_le, ztake_all.
  - pose proof (sshbuf_get_bignum2_bytes_direct_spec b H) as D.
    rewrite E, string_len_enc in D by lia. cbv zeta in D.
    rewrite enc_string_take, enc_string_drop, bignum_body_check in D by apply Hf.
    destruct D as (p & b' & D & R & W & _ & E'). rewrite skip_zeros_body in *.
    exists b'. split; [|done]. rewrite (bind_ok _ _ _ _ _ D). simpl.
    unfold mem_peek, bind, get, defined. by rewrite R.
Qed.

Lemma put_msg_spec np fs b :
  sshbuf_wf b -> Forall field_ok fs -> np <> 0 -> writable b = true ->
  zlen (contents b) + zlen (enc_msg fs) <= sb_max_size b ->
  exists b', put_msg np fs b = (Ok tt, b') /\ appended (enc_msg fs) b b'.
Proof.
  intros H Hfs Hnp. revert b H. induction Hfs as [|f fs Hf Hfs IH]; intros b H Hw Hfit.
  { exists b. split; [done|]. split_and!; try done. symmetry. apply app_nil_r. }
  change (enc_msg (f :: fs)) with (enc_field f ++ enc_msg fs) in *. rewrite zlen_app in Hfit.
  pose proof (zlen_nonneg (enc_msg fs)).
  destruct (put_field_spec np f b) as (b1 & P & W1 & F1 & E1); [done..|lia|].
  destruct (IH b1) as (b2 & P2 & W2 & F2 & E2); [done | by rewrite (same_frame_writable b) | |].
  { rewrite E1, zlen_app. destruct F1 as (_ & -> & _). lia. }
  exists b2. split; [simpl; by rewrite (bind_ok _ _ _ _ _ P)|].
  split_and!; [done | by transitivity b1 | by rewrite E2, E1, <- app_assoc].
Qed.

Lemma get_msg_spec mp fs b rest :
  sshbuf_wf b -> Forall field_ok fs -> mp <> 0 -> zlen (enc_msg fs) <= SSHBUF_SIZE_MAX ->
  contents b = enc_msg fs ++ rest ->
  exists b', get_msg mp (kind_of <$> fs) b = (Ok (canon <$> fs), b') /\
    sshbuf_wf b' /\ contents b' = rest.
Proof.
  intros H Hfs Hmp. revert b H. induction Hfs as [|f fs Hf Hfs IH]; intros b H Hl E.
  { exists b. by split_and!. }
  change (enc_msg (f :: fs)) with (enc_field f ++ enc_msg fs) in *.
  rewrite zlen_app in Hl. rewrite <- app_assoc in E.
  pose proof (zlen_nonneg (enc_msg fs)). pose proof (zlen_nonneg (enc_field f)).
  destruct (get_field_spec mp f b (enc_msg fs ++ rest)) as (b1 & G & W1 & E1); [done..|lia|done|].
  destruct (IH b1) as (b2 & G2 & W2 & E2); [done|lia|done|].
  exists b2. split; [|done]. simpl. rewrite (bind_ok _ _ _ _ _ G).
  by rewrite (bind_ok _ _ _ _ _ G2).
Qed.

(** C12. Round trip of whole messages: a message of integers, strings, C
    strings and multiple-precision integers that fits under the limit is
    written without error by the sshbuf_put_* calls, and the matching
    sshbuf_get_* calls then return every field (a number without its leading
    zero bytes) and leave the buffer empty. *)
Theorem message_roundtrip np mp fs b :
  sshbuf_wf b -> contents b = [] -> writable b = true -> np <> 0 -> mp <> 0 ->
  Forall field_ok fs -> zlen (enc_msg fs) <= sb_max_size b ->
  exists b1 b2, put_msg np fs b = (Ok tt, b1) /\
    get_msg mp (kind_of <$> fs) b1 = (Ok (canon <$> fs), b2) /\
    sshbuf_wf b2 /\ contents b2 = [].
Proof.
  intros H Hc Hw Hnp Hmp Hfs Hl.
  destruct (put_msg_spec np fs b) as (b1 & P & W1 & F1 & E1); [done..| |].
  { rewrite Hc. done. }
  rewrite Hc in E1. simpl in E1. wf_facts H.
  destruct (get_msg_spec mp fs b1 []) as (b2 & G & W2 & E2); [done..|lia| |].
  { by rewrite app_nil_r. }
  exists b1, b2. by split_and!.
Qed.

Definition demo_msg : list field :=
  [FU8 94; FU32 0; FString [104; 105]; FBignum [0; 0; 200; 1]; FCString [111; 107]; FU64 (2 ^ 63)].

Lemma message_roundtrip_witness :
  exists b b1 b2, sshbuf_new 16 32 = Some b /\ put_msg 48 demo_msg b = (Ok tt, b1) /\
    get_msg 64 (kind_of <$> demo_msg) b1 = (Ok (canon <$> demo_msg), b2) /\
    sshbuf_wf b2 /\ contents b2 = [].
Proof.
  destruct (sshbuf_new 16 32) as [b|] eqn:E; [|done].
  destruct (sshbuf_new_wf 16 32 b) as (W & Hc & Hw & Hm); [lia | lia | done |].
  destruct (message_roundtrip 48 64 demo_msg b) as (b1 & b2 & R); [done | done | done | lia | lia | | |].
  - repeat (apply Forall_cons; split); simpl; try apply Forall_nil_2;
      apply (bool_decide_unpack _); vm_compute; exact I.
  - rewrite Hm. unfold SSHBUF_SIZE_MAX. vm_compute. discriminate.
  - exists b, b1, b2. by split.
Defined.

(** sshbuf_get_bignum2_bytes_direct undoes sshbuf_put_bignum2_bytes: for
    a number of at most SSHBUF_MAX_BIGNUM bytes, whatever its leading zero
    bytes, the bytes found in the buffer denote the same integer, have no
    leading zero, and the wire form never has its top bit set. *)
Theorem bignum_roundtrip np v b :
  sshbuf_wf b -> contents b = [] -> writable b = true -> np <> 0 ->
  Forall is_byte v -> zlen v <= SSHBUF_MAX_BIGNUM -> zlen v + 5 <= sb_max_size b ->
  exists b1 p n b2 s,
    sshbuf_put_bignum2_bytes np v b = (Ok tt, b1) /\
    sshbuf_get_bignum2_bytes_direct b1 = (Ok (p, n), b2) /\
    mem_read (sb_mem b2) p n = Some s /\ be s = be v /\ s !! 0%nat <> Some 0 /\
    contents b2 = [] /\
    match contents b1 !! 4%nat with Some c => Z.land c 0x80 = 0 | None => True end.
Proof.
  intros H Hc Hw Hnp Hv Hl Hfit.
  pose proof (bignum_body_len v). pose proof (skip_zeros_len v).
  destruct (put_field_spec np (FBignum v) b) as (b1 & P & W1 & F1 & E1); [done..| |].
  { rewrite Hc, zlen_nil. simpl. rewrite enc_string_len. lia. }
  rewrite Hc in E1. simpl in E1, P.
  pose proof (sshbuf_get_bignum2_bytes_direct_spec b1 W1) as D.
  rewrite <- (app_nil_r (enc_string _)) in E1.
  rewrite E1, string_len_enc in D by (sb_consts; lia). cbv zeta in D.
  rewrite enc_string_take, enc_string_drop, bignum_body_check, skip_zeros_body in D by done.
  destruct D as (p & b2 & D & R & W2 & _ & E2).
  exists b1, p, (zlen (skip_zeros v)), b2, (skip_zeros v). split_and!; try done.
  - apply skip_zeros_be.
  - destruct (skip_zeros v) as [|c s] eqn:E; [done|].
    pose proof (skip_zeros_cons _ _ _ E). simpl. congruence.
  - rewrite E1, app_nil_r. unfold enc_string. simpl.
    pose proof (bignum_body_check v Hv Hl) as Hk. revert Hk. unfold bignum_check.
    destruct (bignum_body v) as [|c s]; [done|]. simpl.
    destruct (Z.land c 128 =? 0) eqn:Ec; [|done]. intros _. by apply Z.eqb_eq.
Qed.

Lemma bignum_roundtrip_witness :
  exists b b1 p n b2 s, sshbuf_new 16 32 = Some b /\
    sshbuf_put_bignum2_bytes 48 [0; 200; 1] b = (Ok tt, b1) /\
    sshbuf_get_bignum2_bytes_direct b1 = (Ok (p, n), b2) /\
    mem_read (sb_mem b2) p n = Some s /\ be s = 51201.
Proof.
  destruct (sshbuf_new 16 32) as [b|] eqn:E; [|done].
  destruct (sshbuf_new_wf 16 32 b) as (W & Hc & Hw & Hm); [lia | lia | done |].
  destruct (bignum_roundtrip 48 [0; 200; 1] b) as (b1 & p & n & b2 & s & P & G & R & B & _);
    [done | done | done | lia | | | |].
  - unfold is_byte. repeat constructor; lia.
  - vm_compute. discriminate.
  - rewrite Hm. vm_compute. discriminate.
  - exists b, b1, p, n, b2, s. by split_and!.
Defined.

(** sshbuf_reset does not keep the invariant when the limit is below
    SSHBUF_SIZE_INIT: it reallocates to SSHBUF_SIZE_INIT without looking at
    max_size, and the next operation kills the process.  The limit itself is
    accepted by sshbuf_set_max_size. *)
Theorem sshbuf_reset_small_limit n b :
  0 < n < SSHBUF_SIZE_INIT -> sshbuf_new 16 32 = Some b ->
  exists b1 b2, sshbuf_set_max_size 48 n b = (Ok tt, b1) /\ sshbuf_wf b1 /\
    sshbuf_reset 64 b1 = (Ok tt, b2) /\ sshbuf_len b2 = Crash /\
    (forall np v, sshbuf_put np v b2 = (Crash, b2)).
Proof.
  intros Hn Hb.
  destruct (sshbuf_new_wf 16 32 b ltac:(lia) ltac:(lia) Hb) as (W & _).
  assert (sshbuf_set_max_size 48 n b = (Ok tt,
    set_max n (set_block 48 n (mem_recalloc (sb_mem b) n) b))) as S1.
  { injection Hb as <-. unfold sshbuf_set_max_size, bind, reads. rewrite (wf_sane _ W).
    unfold get, ret, put, fail. simpl. sb_consts.
    rewrite (proj2 (Z.eqb_neq n 134217728)), (proj2 (Z.ltb_ge 134217728 n)) by lia. simpl.
    rewrite (proj2 (Z.ltb_lt n 256)), (proj2 (Z.ltb_lt 0 n)) by lia. simpl.
    by rewrite Z.ltb_irrefl. }
  destruct (sshbuf_set_max_size_spec 48 n b W ltac:(lia)) as (r & b1 & S2 & _ & W1 & _).
  rewrite S1 in S2. injection S2 as <- <-.
  set (b1 := set_max n _) in *. wf_facts W1.
  assert (sb_alloc b1 = n /\ sb_max_size b1 = n /\ writable b1 = true) as (Ha & Hm & Hw).
  { injection Hb as <-. done. }
  clearbody b1.
  assert (exists m, sshbuf_reset 64 b1
            = (Ok tt, set_mem m (set_block 64 256 (mem_recalloc (sb_mem b1) 256) (set_window 0 0 b1))))
    as (m & R).
  { unfold sshbuf_reset, bind, get. unfold writable in Hw. apply negb_true_iff in Hw.
    rewrite Hw. unfold reads. rewrite wf_sane by done. sb_consts. simpl (sb_alloc (set_window _ _ _)).
    rewrite Ha. rewrite (proj2 (Z.eqb_neq n 256)) by lia. simpl negb. cbv iota.
    unfold defined. rewrite mem_write_some; [eexists; done | lia |].
    simpl. rewrite mem_recalloc_len by lia. unfold zlen. simpl. lia. }
  set (b2 := set_mem m _) in *.
  assert (sshbuf_check_sanity b2 = Crash) as HC.
  { destruct (sshbuf_check_sanity b2) as [[]|e|] eqn:E; [|unfold sshbuf_check_sanity in E; by case_match|done].
    apply check_sanity_ok in E. unfold b2 in E. simpl in E. sb_consts. lia. }
  exists b1, b2. split_and!; try done.
  - unfold sshbuf_len. by rewrite HC.
  - intros np v. unfold sshbuf_put, sshbuf_reserve, sshbuf_allocate, bind, reads, sshbuf_check_reserve.
    by rewrite HC.
Qed.

Lemma sshbuf_reset_small_limit_witness :
  exists b b1 b2, sshbuf_new 16 32 = Some b /\ sshbuf_set_max_size 48 100 b = (Ok tt, b1) /\
    sshbuf_reset 64 b1 = (Ok tt, b2) /\ sshbuf_len b2 = Crash.
Proof.
  destruct (sshbuf_new 16 32) as [b|] eqn:E; [|done].
  destruct (sshbuf_reset_small_limit 100 b) as (b1 & b2 & S & _ & R & C & _);
    [unfold SSHBUF_SIZE_INIT; lia | done |].
  exists b, b1, b2. by split_and!.
Defined.
