(* ===== verification/SshbufHeap.v ===== *)
(** * Parents, children and reference counts (sshbuf.c)

    [sshbuf_fromb] and [sshbuf_froms] make a read-only buffer whose [cd]
    points into the block of its parent: the bytes are shared, not copied.
    The heap is the live structures, by address, and a flat byte memory; a
    structure is loaded with the bytes it designates before an operation on
    it runs, and stored back after. *)
From stdpp Require Import gmap.
From S2P Require Import Prelude Sshbuf SshbufGetput SshbufSpec.

(** ** The heap *)

Record heap : Type := mk_heap {
  h_bufs : gmap Z sshbuf;   (* the structures; their [sb_mem] is empty *)
  h_mem : gmap Z Z;         (* the bytes *)
}.

Fixpoint read_bytes (m : gmap Z Z) (p : Z) (n : nat) : option (list Z) :=
  match n with
  | O => Some []
  | S n => match m !! p, read_bytes m (p + 1) n with
           | Some x, Some l => Some (x :: l)
           | _, _ => None
           end
  end.

Fixpoint write_bytes (m : gmap Z Z) (p : Z) (l : list Z) : gmap Z Z :=
  match l with
  | [] => m
  | x :: l => <[p := x]> (write_bytes m (p + 1) l)
  end.

Fixpoint free_bytes (m : gmap Z Z) (p : Z) (n : nat) : gmap Z Z :=
  match n with
  | O => m
  | S n => delete p (free_bytes m (p + 1) n)
  end.

(** The buffer at address [a] with its bytes; [None] when the structure or
    one of its bytes is not live. *)
Definition h_load (h : heap) (a : Z) : option sshbuf :=
  match h_bufs h !! a with
  | None => None
  | Some b =>
      match read_bytes (h_mem h) (sb_cd b) (Z.to_nat (sb_alloc b)) with
      | None => None
      | Some l => Some (set_mem l b)
      end
  end.

(** Store back [b'], loaded from [b]: the structure, and the bytes of a
    buffer that owns its block; a block that moved is released. *)
Definition h_store (h : heap) (a : Z) (b b' : sshbuf) : heap :=
  mk_heap (<[a := set_mem [] b']> (h_bufs h))
    (if sb_readonly b' then h_mem h
     else
       let m := if sb_d b' =? sb_d b then h_mem h
                else free_bytes (h_mem h) (sb_d b) (Z.to_nat (sb_alloc b)) in
       write_bytes m (sb_d b') (sb_mem b')).

(** Run an operation of one buffer on the buffer at address [a]. *)
Definition on_buf {A} (a : Z) (m : ST sshbuf A) : ST heap A := fun h =>
  match h_load h a with
  | None => (Crash, h)
  | Some b => let '(r, b') := m b in (r, h_store h a b b')
  end.

(** Read the buffer at address [a]. *)
Definition at_buf {A} (a : Z) (f : sshbuf -> res A) : ST heap A := fun h =>
  match h_load h a with None => (Crash, h) | Some b => (f b, h) end.

(** Read fields of the structure at address [a], not its bytes. *)
Definition at_hdr {A} (a : Z) (f : sshbuf -> res A) : ST heap A := fun h =>
  match h_bufs h !! a with None => (Crash, h) | Some b => (f b, h) end.

(** Assign fields of the structure at address [a]. *)
Definition set_buf (a : Z) (f : sshbuf -> sshbuf) : ST heap unit := fun h =>
  match h_bufs h !! a with
  | None => (Crash, h)
  | Some b => (Ok tt, mk_heap (<[a := f b]> (h_bufs h)) (h_mem h))
  end.

(** ** Operations that involve two buffers *)

Definition sshbuf_set_parent (child parent : Z) : ST heap unit :=
  do! at_hdr child sshbuf_check_sanity ;;
  do! at_hdr parent sshbuf_check_sanity ;;
  let! c := at_hdr child Ok in
  if (negb (sb_parent c =? 0) && negb (sb_parent c =? parent)) || (child =? parent) then
    fail SSH_ERR_INTERNAL_ERROR
  else
    do! set_buf child (set_parent_ptr parent) ;;
    set_buf parent (fun p => set_refcount (u32 (sb_refcount p + 1)) p).

(** [sshbuf_from] on data of the heap; [ps] is the structure [calloc]
    returns, a fresh address. *)
Definition sshbuf_from_heap (ps blob len : Z) : ST heap (option Z) := fun h =>
  match sshbuf_from ps blob [] len with
  | None => (Ok None, h)
  | Some b => (Ok (Some ps), mk_heap (<[ps := b]> (h_bufs h)) (h_mem h))
  end.

(** [freezero] of the block, unless it belongs to another buffer, and of the
    structure. *)
Definition free_buf (a : Z) : ST heap unit := fun h =>
  match h_bufs h !! a with
  | None => (Crash, h)
  | Some b =>
      (Ok tt, mk_heap (delete a (h_bufs h))
                (if sb_readonly b then h_mem h
                 else free_bytes (h_mem h) (sb_d b) (Z.to_nat (sb_alloc b))))
  end.

(** [sshbuf_free] calls itself on the parent: [fuel] bounds the depth of that
    recursion, [Crash] when it runs out. *)
Fixpoint sshbuf_free (fuel : nat) (a : Z) : ST heap unit :=
  if a =? 0 then ret tt
  else
    match fuel with
    | O => crash
    | S fuel =>
        do! at_hdr a sshbuf_check_sanity ;;
        let! b := at_hdr a Ok in
        do! set_buf a (fun b => set_refcount (u32 (sb_refcount b - 1)) b) ;;
        if 0 <? u32 (sb_refcount b - 1) then ret tt
        else
          do! sshbuf_free fuel (sb_parent b) ;;
          do! set_buf a (set_parent_ptr 0) ;;
          free_buf a
    end.

Definition sshbuf_fromb (fuel : nat) (ps buf : Z) : ST heap (option Z) :=
  do! at_hdr buf sshbuf_check_sanity ;;
  let! b := at_hdr buf Ok in
  let! off := at_hdr buf sshbuf_ptr in
  let! len := at_hdr buf sshbuf_len in
  let! r := sshbuf_from_heap ps (sb_cd b + off) len in
  match r with
  | None => ret None
  | Some p => fun h =>
      match sshbuf_set_parent p buf h with
      | (Ok _, h) => (Ok (Some p), h)
      | (Err _, h) => (do! sshbuf_free fuel p ;; ret None) h
      | (Crash, h) => (Crash, h)
      end
  end.

Definition sshbuf_froms (fuel : nat) (ps buf : Z) : ST heap Z :=
  let! pl := at_buf buf sshbuf_peek_string_direct in
  let! b := at_hdr buf Ok in
  let! r := sshbuf_from_heap ps (sb_cd b + fst pl) (snd pl) in
  match r with
  | None => fail SSH_ERR_ALLOC_FAIL
  | Some p => fun h =>
      match (do! on_buf buf (sshbuf_consume (u64 (snd pl + 4))) ;; sshbuf_set_parent p buf) h with
      | (Ok _, h) => (Ok p, h)
      | (Err e, h) => (do! sshbuf_free fuel p ;; fail e) h
      | (Crash, h) => (Crash, h)
      end
  end.

Definition sshbuf_consume_upto_child (buf child : Z) : ST heap unit :=
  do! at_hdr buf sshbuf_check_sanity ;;
  do! at_hdr child sshbuf_check_sanity ;;
  let! b := at_hdr buf Ok in
  let! c := at_hdr child Ok in
  if negb (sb_parent c =? buf) then fail SSH_ERR_INVALID_ARGUMENT
  else
    let! lc := at_hdr child sshbuf_len in
    let! lb := at_hdr buf sshbuf_len in
    if lb <? lc then fail SSH_ERR_INVALID_ARGUMENT
    else if sb_cd c <? sb_cd b then fail SSH_ERR_INTERNAL_ERROR
    else on_buf buf (sshbuf_consume (u64 (lb - lc))).

(** ** Reference counts *)

Definition children (m : gmap Z sshbuf) (a : Z) : Z :=
  Z.of_nat (size (filter (fun kv => sb_parent kv.2 = a) m)).

(** The structure at [a] holds a reference for each live child, for the
    caller that created it and has not freed it yet ([owned]), and for a
    release in progress ([pend]). *)
Record refs_ok (m : gmap Z sshbuf) (owned : gset Z) (pend : Z -> Z) : Prop := {
  ro_sane : forall a b, m !! a = Some b ->
    a <> 0 /\ sb_self b = a /\ sshbuf_check_sanity b = Ok tt /\ 0 <= sb_off b;
  ro_parent : forall a b, m !! a = Some b -> sb_parent b <> 0 -> is_Some (m !! sb_parent b);
  ro_count : forall a b, m !! a = Some b ->
    sb_refcount b = children m a + (if decide (a ∈ owned) then 1 else 0) + pend a;
  ro_owned : forall a, a ∈ owned -> is_Some (m !! a);
  ro_rank : exists rank : Z -> nat, forall a b, m !! a = Some b ->
    sb_parent b <> 0 -> (rank (sb_parent b) < rank a)%nat;
}.

Definition heap_ok (h : heap) (owned : gset Z) : Prop := refs_ok (h_bufs h) owned (fun _ => 0).

Lemma children_nonneg m a : 0 <= children m a.
Proof. unfold children. lia. Qed.

Lemma children_insert m a b x :
  m !! a = None ->
  children (<[a := b]> m) x = children m x + (if decide (sb_parent b = x) then 1 else 0).
Proof.
  intros Ha. unfold children. case_decide as Hp.
  - rewrite map_filter_insert_True by done. rewrite map_size_insert_None; [lia|].
    apply map_lookup_filter_None. by left.
  - rewrite map_filter_insert_not' by (done || (intros y Hy; congruence)). lia.
Qed.

Lemma children_delete m a b x :
  m !! a = Some b ->
  children m x = children (delete a m) x + (if decide (sb_parent b = x) then 1 else 0).
Proof.
  intros Ha. rewrite <- (insert_delete_id m a b Ha) at 1.
  apply children_insert. by rewrite lookup_delete_eq.
Qed.

Lemma children_update m a b b' x :
  m !! a = Some b -> sb_parent b' = sb_parent b -> children (<[a := b']> m) x = children m x.
Proof.
  intros Ha Hp. rewrite (children_delete m a b x Ha).
  rewrite <- insert_delete_eq, children_insert, Hp; [done|]. by rewrite lookup_delete_eq.
Qed.

Lemma children_pos m a c b : m !! c = Some b -> sb_parent b = a -> 1 <= children m a.
Proof.
  intros Hc Hp. rewrite (children_delete m c b a Hc), decide_True by done.
  pose proof (children_nonneg (delete c m) a). lia.
Qed.

Lemma children_none m a : (forall x y, m !! x = Some y -> sb_parent y <> a) -> children m a = 0.
Proof.
  intros H. unfold children. rewrite map_empty_filter_2; [by rewrite map_size_empty|].
  intros x y Hxy. by apply (H x).
Qed.

(** *** sshbuf_free touches the ancestors only *)

Definition add_buf (a : Z) (b : sshbuf) (h : heap) : heap :=
  mk_heap (<[a := b]> (h_bufs h)) (h_mem h).

(** [m] behaves the same when a structure it does not know is added. *)
Definition local {A} (m : ST heap A) : Prop := forall a b h r h',
  h_bufs h !! a = None -> m h = (Ok r, h') ->
  h_bufs h' !! a = None /\ m (add_buf a b h) = (Ok r, add_buf a b h').

Lemma local_bind {A B} (m : ST heap A) (f : A -> ST heap B) :
  local m -> (forall x, local (f x)) -> local (bind m f).
Proof.
  intros Hm Hf a b h r h' Ha Hr. unfold bind in *.
  destruct (m h) as [[x|e|] h1] eqn:E; try done.
  destruct (Hm a b h x h1 Ha E) as [Ha1 ->]. by apply Hf.
Qed.

Lemma local_ret {A} (x : A) : local (ret x).
Proof. intros a b h r h' Ha [= <- <-]. done. Qed.

Lemma local_crash {A} : local (crash (A := A)).
Proof. by intros a b h r h' Ha [=]. Qed.

Lemma local_at_hdr {A} c (f : sshbuf -> res A) : local (at_hdr c f).
Proof.
  intros a b h r h' Ha. unfold at_hdr. destruct (h_bufs h !! c) as [x|] eqn:E; [|done].
  intros [= Hr <-]. split; [done|]. simpl. rewrite lookup_insert_ne by congruence.
  by rewrite E, Hr.
Qed.

Lemma local_set_buf c f : local (set_buf c f).
Proof.
  intros a b h r h' Ha. unfold set_buf.
  destruct (h_bufs h !! c) as [x|] eqn:E; [|done].
  assert (c <> a) by congruence. intros [= <- <-]. simpl. split.
  - by rewrite lookup_insert_ne.
  - rewrite lookup_insert_ne, E by congruence. do 2 f_equal. unfold add_buf. simpl.
    by rewrite insert_insert_ne by congruence.
Qed.

Lemma local_free_buf c : local (free_buf c).
Proof.
  intros a b h r h' Ha. unfold free_buf.
  destruct (h_bufs h !! c) as [x|] eqn:E; [|done].
  assert (c <> a) by congruence. intros [= <- <-]. simpl. split.
  - by rewrite lookup_delete_ne.
  - rewrite lookup_insert_ne, E by congruence. do 2 f_equal. unfold add_buf. simpl.
    by rewrite delete_insert_ne by congruence.
Qed.

Lemma local_sshbuf_free fuel c : local (sshbuf_free fuel c).
Proof.
  revert c. induction fuel as [|fuel IH]; intros c; simpl; destruct (c =? 0);
    auto using local_ret, @local_crash.
  apply local_bind; [apply local_at_hdr | intros _].
  apply local_bind; [apply local_at_hdr | intros b].
  apply local_bind; [apply local_set_buf | intros _].
  destruct (0 <? _); [apply local_ret|].
  apply local_bind; [apply IH | intros _].
  apply local_bind; [apply local_set_buf | intros _]. apply local_free_buf.
Qed.

(** The structures after the release of one reference to [a]. *)
Definition released (m : gmap Z sshbuf) (owned : gset Z) (pend : Z -> Z) (a : Z)
    (m' : gmap Z sshbuf) : Prop :=
  refs_ok m' owned (fun x => pend x - (if decide (x = a) then 1 else 0)) /\
  (forall x, is_Some (m' !! x) -> is_Some (m !! x)).

Lemma refs_ok_update m owned pend pend' a b b' :
  refs_ok m owned pend -> m !! a = Some b ->
  sb_parent b' = sb_parent b -> sb_self b' = sb_self b -> 0 <= sb_off b' ->
  sshbuf_check_sanity b' = Ok tt ->
  sb_refcount b' - sb_refcount b = pend' a - pend a ->
  (forall x, x <> a -> pend' x = pend x) ->
  refs_ok (<[a := b']> m) owned pend'.
Proof.
  intros H Ha Hp Hs Ho Hc Hr Hx. destruct H as [S P C O R]. split.
  - intros x y. rewrite lookup_insert. case_decide as Hxa; [|apply S].
    intros [= <-]. subst x. destruct (S a b Ha) as (? & ? & _ & ?). split_and!; congruence || done || lia.
  - intros x y Hy Hn. assert (exists y0, m !! x = Some y0 /\ sb_parent y0 = sb_parent y) as (y0 & Hy0 & E).
    { revert Hy. rewrite lookup_insert. case_decide; [|eauto]. intros [= <-]. subst x. eauto. }
    rewrite lookup_insert. case_decide; [done|]. rewrite <- E. apply (P x y0); congruence.
  - intros x y. rewrite (children_update m a b b' x Ha Hp), lookup_insert. case_decide as Hxa.
    + intros [= <-]. subst x. pose proof (C a b Ha). lia.
    + intros Hy. rewrite (C x y Hy), Hx by congruence. done.
  - intros x Hxo. rewrite lookup_insert. case_decide; [done | by apply O].
  - destruct R as [rank R]. exists rank. intros x y. rewrite lookup_insert. case_decide; [|apply R].
    intros [= <-]. subst x. rewrite Hp. by apply R.
Qed.

Lemma refs_ok_delete m owned pend a b :
  refs_ok m owned pend -> m !! a = Some b -> children m a = 0 -> ~ (a ∈ owned) ->
  refs_ok (delete a m) owned
    (fun x => pend x + (if decide (x = sb_parent b) then 1 else 0)).
Proof.
  intros [S P C O R] Ha Hc Ho. split.
  - intros x y Hy. apply lookup_delete_Some in Hy as [_ Hy]. by apply S.
  - intros x y Hy Hn. apply lookup_delete_Some in Hy as [Hx Hy].
    destruct (P x y Hy Hn) as [z Hz]. exists z. apply lookup_delete_Some. split; [|done].
    intros E. pose proof (children_pos m a x y Hy). rewrite <- E in *. lia.
  - intros x y Hy. apply lookup_delete_Some in Hy as [_ Hy]. rewrite (C x y Hy).
    rewrite (children_delete m a b x Ha).
    destruct (decide (sb_parent b = x)), (decide (x = sb_parent b)); congruence || lia.
  - intros x Hx. destruct (O x Hx) as [z Hz]. exists z. apply lookup_delete_Some. split; [|done].
    intros ->. done.
  - destruct R as [rank R]. exists rank. intros x y Hy. apply lookup_delete_Some in Hy as [_ Hy].
    by apply R.
Qed.

Lemma refs_ok_pend m owned pend pend' :
  refs_ok m owned pend -> (forall x, is_Some (m !! x) -> pend' x = pend x) ->
  refs_ok m owned pend'.
Proof.
  intros [S P C O R] Hp. split; try done. intros x y Hy. rewrite Hp by eauto. by apply C.
Qed.

Lemma sane_refcount b n :
  sshbuf_check_sanity b = Ok tt -> 1 <= n <= SSHBUF_REFS_MAX ->
  sshbuf_check_sanity (set_refcount n b) = Ok tt.
Proof. rewrite !check_sanity_ok. simpl. intros (H1 & H2 & _ & H4 & H5 & H6 & H7 & H8) ?. split_and!; done || lia. Qed.

(** The last reference: the structure goes, and with it the reference it
    held on its parent. *)
Lemma free_last fuel a b h h3 :
  h_bufs h !! a = Some b -> a <> 0 -> sshbuf_check_sanity b = Ok tt -> sb_refcount b = 1 ->
  sshbuf_free fuel (sb_parent b) (mk_heap (delete a (h_bufs h)) (h_mem h)) = (Ok tt, h3) ->
  h_bufs h3 !! a = None ->
  exists mem, sshbuf_free (S fuel) a h = (Ok tt, mk_heap (h_bufs h3) mem).
Proof.
  intros Ha Hz Hs Hr Hf Hn. simpl. rewrite (proj2 (Z.eqb_neq a 0) Hz).
  unfold bind at 1, at_hdr at 1. rewrite Ha, Hs. unfold bind at 1, at_hdr at 1. rewrite Ha.
  unfold bind at 1, set_buf at 1. rewrite Ha. cbv beta. rewrite Hr. change (u32 (1 - 1)) with 0. change (0 <? 0) with false.
  cbv iota. set (b' := set_refcount 0 b).
  destruct (local_sshbuf_free fuel (sb_parent b) a b' _ _ _ (lookup_delete_eq _ _) Hf) as [_ Hf'].
  unfold add_buf in Hf'. simpl in Hf'. rewrite insert_delete_eq in Hf'.
  rewrite (bind_ok _ _ _ _ _ Hf'). unfold bind, set_buf. simpl.
  rewrite lookup_insert_eq. unfold free_buf. simpl. rewrite lookup_insert_eq. simpl.
  rewrite insert_insert_eq, delete_insert_eq, delete_id by done. eauto.
Qed.

Lemma free_released n : forall a rank h owned pend,
  refs_ok (h_bufs h) owned pend ->
  (forall x y, h_bufs h !! x = Some y -> sb_parent y <> 0 -> (rank (sb_parent y) < rank x)%nat) ->
  (rank a < n)%nat -> is_Some (h_bufs h !! a) -> 1 <= pend a -> (forall x, 0 <= pend x) ->
  exists m', released (h_bufs h) owned pend a m' /\
    forall fuel, (n <= fuel)%nat ->
      exists mem, sshbuf_free fuel a h = (Ok tt, mk_heap m' mem).
Proof.
  induction n as [|n IH]; intros a rank h owned pend H Hrank Hn [b Hb] Hpa Hp0; [lia|].
  destruct (ro_sane _ _ _ H a b Hb) as (Ha & Hself & Hs & Hoff).
  pose proof (ro_count _ _ _ H a b Hb) as Hc. pose proof (children_nonneg (h_bufs h) a).
  pose proof (proj1 (check_sanity_ok b) Hs) as (_ & Hself' & Hrc & _).
  destruct (Z.eq_dec (sb_refcount b) 1) as [Hr1|Hr1].
  - assert (children (h_bufs h) a = 0 /\ ~ (a ∈ owned)) as [Hc0 Ho].
    { case_decide; split; done || lia. }
    pose proof (refs_ok_delete _ _ _ a b H Hb Hc0 Ho) as H2.
    destruct (Z.eq_dec (sb_parent b) 0) as [Hp|Hp].
    + exists (delete a (h_bufs h)). split.
      * split; [|intros x [y Hy]; apply lookup_delete_Some in Hy as [_ Hy]; eauto].
        eapply refs_ok_pend; [exact H2|]. intros x [y Hy].
        destruct (ro_sane _ _ _ H2 x y Hy) as (Hx & _).
        apply lookup_delete_Some in Hy as [? _]. rewrite !decide_False by congruence. lia.
      * intros fuel Hf. destruct fuel as [|fuel]; [lia|].
        refine (free_last fuel a b h (mk_heap (delete a (h_bufs h)) (h_mem h)) Hb Ha Hs Hr1 _ _);
          [|exact (lookup_delete_eq (h_bufs h) a)].
        rewrite Hp. by destruct fuel.
    + assert (sb_parent b <> a) as Hne by congruence.
      destruct (IH (sb_parent b) rank (mk_heap (delete a (h_bufs h)) (h_mem h)) owned _ H2)
        as (m' & [R D] & F); cbn [h_bufs] in *.
      * intros x y Hy. apply lookup_delete_Some in Hy as [_ Hy]. by apply Hrank.
      * pose proof (Hrank a b Hb Hp). lia.
      * rewrite lookup_delete_ne by done. by apply (ro_parent _ _ _ H a).
      * rewrite decide_True by done. pose proof (Hp0 (sb_parent b)). lia.
      * intros x. destruct (decide (x = sb_parent b)); pose proof (Hp0 x); lia.
      * assert (m' !! a = None) as Hna.
        { destruct (m' !! a) eqn:E; [|done]. destruct (D a ltac:(eauto)) as [? Hx].
          by rewrite lookup_delete_eq in Hx. }
        exists m'. split.
        { split.
          - eapply refs_ok_pend; [exact R|]. intros x [y Hy].
            assert (x <> a) by congruence. rewrite (decide_False (P := x = a)) by done.
            case_decide; lia.
          - intros x Hx. destruct (D x Hx) as [y Hy].
            apply lookup_delete_Some in Hy as [_ Hy]. eauto. }
        intros fuel Hf. destruct fuel as [|fuel]; [lia|].
        destruct (F fuel ltac:(lia)) as [mem Hm].
        exact (free_last fuel a b h _ Hb Ha Hs Hr1 Hm Hna).
  - exists (<[a := set_refcount (u32 (sb_refcount b - 1)) b]> (h_bufs h)).
    assert (u32 (sb_refcount b - 1) = sb_refcount b - 1) as Hu.
    { apply u32_small. sb_consts. lia. }
    split.
    + split; [|intros x; rewrite lookup_insert; destruct (decide (a = x)); [subst; eauto|auto]].
      eapply (refs_ok_update _ _ _ _ a b); [done..| | |].
      * apply sane_refcount; [done | lia].
      * simpl. rewrite decide_True by done. lia.
      * intros x Hx. rewrite decide_False by done. lia.
    + intros fuel Hf. destruct fuel as [|fuel]; [lia|]. exists (h_mem h). simpl.
      rewrite (proj2 (Z.eqb_neq a 0) Ha). unfold bind at 1, at_hdr at 1. rewrite Hb, Hs.
      unfold bind at 1, at_hdr at 1. rewrite Hb. unfold bind at 1, set_buf at 1. rewrite Hb.
      destruct (Z.ltb_spec 0 (u32 (sb_refcount b - 1))); [done | lia].
Qed.

(** *** Creating buffers *)

Definition sshbuf_new_heap (ps pd : Z) : ST heap (option Z) := fun h =>
  match sshbuf_new ps pd with
  | None => (Ok None, h)
  | Some b => (Ok (Some ps), mk_heap (<[ps := set_mem [] b]> (h_bufs h))
                               (write_bytes (h_mem h) pd (sb_mem b)))
  end.

Lemma refs_ok_new m owned b :
  refs_ok m owned (fun _ => 0) -> m !! sb_self b = None -> sb_self b <> 0 ->
  sshbuf_check_sanity b = Ok tt -> 0 <= sb_off b -> sb_refcount b = 1 -> sb_parent b = 0 ->
  refs_ok (<[sb_self b := b]> m) ({[sb_self b]} ∪ owned) (fun _ => 0).
Proof.
  intros [S P C O R] Hn Hz Hs Ho Hr Hp. set (a := sb_self b) in *.
  assert (children m a = 0) as Hc0.
  { apply children_none. intros x y Hxy E.
    destruct (P x y Hxy) as [z Hz']; congruence. }
  split.
  - intros x y. rewrite lookup_insert. destruct (decide (a = x)) as [<-|]; [|apply S].
    intros [= <-]. done.
  - intros x y. rewrite lookup_insert. destruct (decide (a = x)) as [<-|].
    + intros [= <-]. congruence.
    + intros Hy Hn'. rewrite lookup_insert. destruct (decide (a = sb_parent y)); [done|].
      by apply (P x).
  - intros x y. rewrite children_insert by done. rewrite lookup_insert.
    destruct (decide (a = x)) as [<-|].
    + intros [= <-]. rewrite Hc0. rewrite decide_False by congruence.
      rewrite decide_True by (by apply elem_of_union_l, elem_of_singleton_2). lia.
    + intros Hy. rewrite (decide_False (P := sb_parent b = x)).
      * rewrite (C x y Hy). destruct (decide (x ∈ owned)).
        -- rewrite decide_True by (by apply elem_of_union_r). lia.
        -- rewrite decide_False; [lia|]. rewrite elem_of_union, elem_of_singleton. intros [->|]; done.
      * destruct (S x y Hy) as (Hx & _). congruence.
  - intros x Hx. rewrite lookup_insert. destruct (decide (a = x)); [done|]. apply O.
    apply elem_of_union in Hx as [Hx%elem_of_singleton|]; congruence.
  - destruct R as [rank R]. exists rank. intros x y. rewrite lookup_insert.
    destruct (decide (a = x)) as [<-|]; [|apply R]. intros [= <-]. congruence.
Qed.

(** Hanging a fresh buffer under a live one. *)
Lemma refs_ok_attach m owned c cb a b :
  refs_ok m owned (fun _ => 0) -> m !! c = Some cb -> m !! a = Some b -> a <> c ->
  sb_parent cb = 0 -> children m c = 0 -> sb_refcount b < SSHBUF_REFS_MAX ->
  refs_ok (<[a := set_refcount (sb_refcount b + 1) b]> (<[c := set_parent_ptr a cb]> m))
    owned (fun _ => 0).
Proof.
  intros [S P C O R] Hc Ha Hne Hp Hc0 Hr.
  assert (forall x y, <[a := set_refcount (sb_refcount b + 1) b]> (<[c := set_parent_ptr a cb]> m) !! x
    = Some y -> exists y0, m !! x = Some y0 /\ sb_self y = sb_self y0 /\ sb_off y = sb_off y0 /\
      sb_parent y = (if decide (x = c) then a else sb_parent y0) /\
      sb_refcount y = sb_refcount y0 + (if decide (x = a) then 1 else 0) /\
      sshbuf_check_sanity y = Ok tt) as Hget.
  { destruct (S a b Ha) as (Haz & _ & Hsa & _).
    intros x y. rewrite lookup_insert. destruct (decide (a = x)) as [<-|Hax].
    - intros [= <-]. exists b. rewrite decide_False, decide_True by congruence.
      split_and!; try done. apply sane_refcount; [done|].
      apply check_sanity_ok in Hsa. lia.
    - rewrite lookup_insert. destruct (decide (c = x)) as [<-|Hcx].
      + intros [= <-]. exists cb. rewrite decide_True, decide_False by congruence.
        split_and!; try done; [simpl; lia|]. destruct (S c cb Hc) as (_ & Hself & Hsc & _).
        revert Hsc. rewrite !check_sanity_ok. simpl. intros (H1 & _ & H2). split; [done|].
        split; [congruence | done].
      + intros Hy. exists y. rewrite !decide_False by congruence. destruct (S x y Hy) as (_ & _ & ? & _).
        split_and!; try done. lia. }
  assert (forall x, is_Some (m !! x) ->
    is_Some (<[a := set_refcount (sb_refcount b + 1) b]> (<[c := set_parent_ptr a cb]> m) !! x)) as Hlive.
  { intros x Hx. rewrite !lookup_insert. repeat case_decide; done. }
  split.
  - intros x y Hy. destruct (Hget x y Hy) as (y0 & Hy0 & Hs & Ho & _ & _ & Hsane).
    destruct (S x y0 Hy0) as (? & ? & _ & ?). split_and!; congruence || done || lia.
  - intros x y Hy Hn. destruct (Hget x y Hy) as (y0 & Hy0 & _ & _ & Hpy & _). apply Hlive.
    rewrite Hpy in *. destruct (decide (x = c)); [by eexists | by apply (P x)].
  - intros x y Hy. destruct (Hget x y Hy) as (y0 & Hy0 & _ & _ & _ & Hry & _).
    rewrite (children_update _ a b) by (rewrite ?lookup_insert_ne; done).
    rewrite <- insert_delete_eq, children_insert by apply lookup_delete_eq.
    pose proof (children_delete m c cb x Hc) as Hd. pose proof (C x y0 Hy0) as Hcx. simpl.
    destruct (S x y0 Hy0) as (Hx0 & _). rewrite decide_False in Hd by congruence.
    rewrite Hry, Hcx, Hd. destruct (decide (a = x)), (decide (x = a)); congruence || lia.
  - intros x Hx. apply Hlive. by apply O.
  - destruct R as [rank R]. exists (fun x => if decide (x = c) then (rank a + 1)%nat else rank x).
    intros x y Hy Hn. destruct (Hget x y Hy) as (y0 & Hy0 & _ & _ & Hpy & _). rewrite Hpy in *.
    destruct (decide (x = c)) as [->|Hxc].
    + rewrite (decide_False (P := a = c)) by done. lia.
    + destruct (decide (sb_parent y0 = c)) as [Hpc|].
      * pose proof (children_pos m c x y0 Hy0 Hpc). lia.
      * by apply R.
Qed.

Definition fresh (h : heap) (ps : Z) : Prop := ps <> 0 /\ h_bufs h !! ps = None.

Lemma new_ok h owned ps pd :
  heap_ok h owned -> fresh h ps -> pd <> 0 ->
  exists h', sshbuf_new_heap ps pd h = (Ok (Some ps), h') /\ heap_ok h' ({[ps]} ∪ owned).
Proof.
  intros H [Hz Hn] Hpd. unfold sshbuf_new_heap, sshbuf_new.
  destruct (Z.eqb_spec ps 0); [done|]. destruct (Z.eqb_spec pd 0); [done|].
  eexists. split; [done|].
  apply (refs_ok_new _ _ (set_mem [] (mk_sshbuf ps pd pd 0 0 SSHBUF_SIZE_MAX SSHBUF_SIZE_INIT
    false 1 0 (replicate (Z.to_nat SSHBUF_SIZE_INIT) 0))) H); try done.
  apply check_sanity_ok. simpl. sb_consts. split_and!; done || lia.
Qed.

Lemma free_ok h owned a :
  heap_ok h owned -> a ∈ owned ->
  exists n m', refs_ok m' (owned ∖ {[a]}) (fun _ => 0) /\
    (forall x, is_Some (m' !! x) -> is_Some (h_bufs h !! x)) /\
    forall fuel, (n <= fuel)%nat -> exists mem, sshbuf_free fuel a h = (Ok tt, mk_heap m' mem).
Proof.
  intros H Ha. destruct (ro_rank _ _ _ H) as [rank Hrank].
  destruct (free_released (S (rank a)) a rank h (owned ∖ {[a]})
    (fun x => if decide (x = a) then 1 else 0)) as (m' & [R D] & F).
  - destruct H as [Sa P C O R]. split; try done.
    + intros x y Hy. rewrite (C x y Hy). destruct (decide (x = a)) as [->|].
      * rewrite decide_True, decide_False by (done || (rewrite elem_of_difference, elem_of_singleton; tauto)).
        lia.
      * rewrite Z.add_0_r. destruct (decide (x ∈ owned)).
        -- rewrite decide_True by (rewrite elem_of_difference, elem_of_singleton; tauto). lia.
        -- rewrite decide_False by (rewrite elem_of_difference; tauto). lia.
    + intros x [Hx _]%elem_of_difference. by apply O.
  - done.
  - lia.
  - by apply (ro_owned _ _ _ H).
  - by rewrite decide_True.
  - intros x. destruct (decide (x = a)); lia.
  - exists (S (rank a)), m'. split; [|done]. eapply refs_ok_pend; [exact R|].
    intros x _. simpl. lia.
Qed.

(** The read-only view of the window of [b], at address [ps], with [buf] as its parent. *)
Definition view (ps buf : Z) (b : sshbuf) : sshbuf :=
  mk_sshbuf ps 0 (sb_cd b + sb_off b) 0 (sb_size b - sb_off b) (sb_size b - sb_off b)
    (sb_size b - sb_off b) true 1 buf [].

Lemma at_hdr_ok {A B} h a b (f : sshbuf -> res A) x (k : A -> ST heap B) :
  h_bufs h !! a = Some b -> f b = Ok x -> bind (at_hdr a f) k h = k x h.
Proof. intros Ha Hf. apply bind_ok. unfold at_hdr. by rewrite Ha, Hf. Qed.

Lemma fromb_run fuel ps h owned a b :
  heap_ok h owned -> h_bufs h !! a = Some b -> sb_refcount b < SSHBUF_REFS_MAX ->
  0 < sb_cd b -> fresh h ps ->
  sshbuf_fromb fuel ps a h =
    (Ok (Some ps), mk_heap (<[a := set_refcount (sb_refcount b + 1) b]> (<[ps := view ps a b]> (h_bufs h)))
                     (h_mem h)).
Proof.
  intros H Ha Hr Hcd [Hz Hn]. destruct (ro_sane _ _ _ H a b Ha) as (Haz & Hself & Hs & Ho).
  pose proof (proj1 (check_sanity_ok b) Hs) as (_ & _ & Hrc & _ & ? & ? & ? & ?).
  assert (a <> ps) by congruence.
  assert (u64 (sb_size b - sb_off b) = sb_size b - sb_off b) as Hu.
  { apply u64_small. sb_consts. lia. }
  unfold sshbuf_fromb. rewrite (at_hdr_ok h a b _ tt), (at_hdr_ok h a b _ b) by done.
  rewrite (at_hdr_ok h a b _ (sb_off b)) by (done || unfold sshbuf_ptr; by rewrite Hs).
  rewrite (at_hdr_ok h a b _ (sb_size b - sb_off b)) by (done || unfold sshbuf_len; by rewrite Hs; simpl; rewrite Hu).
  unfold bind at 1, sshbuf_from_heap, sshbuf_from.
  destruct (Z.eqb_spec (sb_cd b + sb_off b) 0); [lia|]. destruct (Z.eqb_spec ps 0); [done|].
  destruct (Z.ltb_spec SSHBUF_SIZE_MAX (sb_size b - sb_off b)); [lia|]. cbn [orb].
  set (c := mk_sshbuf _ _ _ _ _ _ _ _ _ _ _).
  assert (sshbuf_check_sanity c = Ok tt) as Hc.
  { apply check_sanity_ok. simpl. sb_consts. split_and!; done || lia. }
  set (h1 := mk_heap _ _). assert (h_bufs h1 !! ps = Some c) as Hh1 by apply lookup_insert_eq.
  assert (h_bufs h1 !! a = Some b) as Hh2 by (simpl; by rewrite lookup_insert_ne).
  unfold sshbuf_set_parent.
  rewrite (at_hdr_ok h1 ps c _ tt), (at_hdr_ok h1 a b _ tt), (at_hdr_ok h1 ps c _ c) by done.
  cbn [sb_parent c]. destruct (Z.eqb_spec ps a); [done|]. cbn [negb Z.eqb andb orb].
  unfold bind, set_buf. rewrite Hh1. cbn [h_bufs h_mem h1]. rewrite lookup_insert_ne by done.
  rewrite lookup_insert_ne, Ha by done. rewrite (u32_small (sb_refcount b + 1)) by (sb_consts; lia).
  by rewrite insert_insert_eq.
Qed.

Lemma refs_ok_childless m owned x : refs_ok m owned (fun _ => 0) -> x <> 0 -> m !! x = None -> children m x = 0.
Proof.
  intros H Hx Hn. apply children_none. intros y z Hy E.
  destruct (ro_parent _ _ _ H y z Hy) as [? Hp]; congruence.
Qed.

Lemma fromb_ok fuel ps h owned a b :
  heap_ok h owned -> h_bufs h !! a = Some b -> sb_refcount b < SSHBUF_REFS_MAX ->
  0 < sb_cd b -> fresh h ps ->
  exists h', sshbuf_fromb fuel ps a h = (Ok (Some ps), h') /\ heap_ok h' ({[ps]} ∪ owned).
Proof.
  intros H Ha Hr Hcd Hf. eexists. split; [by eapply fromb_run|]. destruct Hf as [Hz Hn].
  destruct (ro_sane _ _ _ H a b Ha) as (Haz & Hself & Hs & Ho).
  pose proof (proj1 (check_sanity_ok b) Hs) as (_ & _ & Hrc & _ & ? & ? & ? & ?).
  assert (ps <> a) as Hne by congruence.
  set (c := set_parent_ptr 0 (view ps a b)).
  assert (refs_ok (<[ps := c]> (h_bufs h)) ({[ps]} ∪ owned) (fun _ => 0)) as Hin.
  { apply (refs_ok_new _ _ c); try done. apply check_sanity_ok. simpl. sb_consts. split_and!; done || lia. }
  unfold heap_ok. cbn [h_bufs].
  replace (<[ps := view ps a b]> (h_bufs h)) with (<[ps := set_parent_ptr a c]> (<[ps := c]> (h_bufs h)))
    by (by rewrite insert_insert_eq).
  apply refs_ok_attach; try done.
  - apply lookup_insert_eq.
  - by rewrite lookup_insert_ne.
  - rewrite children_insert by done. rewrite (refs_ok_childless _ _ ps H) by done.
    rewrite decide_False; [done|]. simpl. congruence.
Qed.

(** ** What an operation on one buffer leaves alone *)

Section Keeps.
Context {T : Type} (P : sshbuf -> T).

(** [m] keeps the part [P] of the buffer at [t]; its results satisfy [Q]. *)
Definition keeps (t : T) {A} (m : ST sshbuf A) (Q : A -> Prop) : Prop := forall b,
  P b = t -> P (snd (m b)) = t /\ forall x, fst (m b) = Ok x -> Q x.

Lemma keeps_bind t {A B} (m : ST sshbuf A) (k : A -> ST sshbuf B) Q R :
  keeps t m Q -> (forall x, Q x -> keeps t (k x) R) -> keeps t (bind m k) R.
Proof.
  intros Hm Hk b Hb. destruct (Hm b Hb) as [H1 H2]. unfold bind.
  destruct (m b) as [[x|e|] b']; simpl in *; [|by split..]. apply Hk; auto.
Qed.

Lemma keeps_weaken t {A} (m : ST sshbuf A) (Q : A -> Prop) :
  keeps t m Q -> keeps t m (fun _ => True).
Proof. intros H b Hb. destruct (H b Hb). auto. Qed.

Lemma keeps_ret t {A} (x : A) : keeps t (ret x) (fun _ => True).
Proof. done. Qed.
Lemma keeps_fail t {A} e (Q : A -> Prop) : keeps t (fail e) Q.
Proof. by intros b Hb. Qed.
Lemma keeps_get t : keeps t get (fun b => P b = t).
Proof. intros b Hb. split; [done|]. by intros x [= <-]. Qed.
Lemma keeps_put t b : P b = t -> keeps t (put b) (fun _ => True).
Proof. done. Qed.
Lemma keeps_reads t {A} (f : sshbuf -> res A) :
  keeps t (reads f) (fun x => exists b, P b = t /\ f b = Ok x).
Proof. intros b Hb. split; [done|]. simpl. eauto. Qed.
Lemma keeps_defined t {A} (o : option A) : keeps t (defined o) (fun _ => True).
Proof. intros b Hb. by destruct o. Qed.
Lemma keeps_or_err t {A} (m : ST sshbuf A) e Q : keeps t m Q -> keeps t (or_err m e) Q.
Proof.
  intros H b Hb. destruct (H b Hb) as [H1 H2]. unfold or_err.
  destruct (m b) as [[x|e'|] b']; simpl in *; auto; split; done.
Qed.
End Keeps.

(** Follow the code: binds, tests, and the steps above. *)
Ltac keeps_step :=
  match goal with
  | |- _ => progress (cbv beta in * )
  | H : False |- _ => destruct H
  | |- keeps _ _ (bind _ _) _ =>
      eapply keeps_bind; [|let x := fresh "x" in let Hx := fresh "Hx" in intros x Hx]
  | |- keeps _ _ (if ?c then _ else _) _ => let E := fresh "E" in destruct c eqn:E
  | |- keeps _ _ (match ?c with _ => _ end) _ => destruct c
  | |- keeps _ _ (let _ := _ in _) _ => cbv zeta
  | |- keeps _ _ (ret _) _ => apply keeps_ret
  | |- keeps _ _ (fail _) _ => apply keeps_fail
  | |- keeps _ _ get _ => apply keeps_get
  | |- keeps _ _ (reads _) _ => first [apply keeps_reads | eapply keeps_weaken, keeps_reads]
  | |- keeps _ _ (defined _) _ => apply keeps_defined
  | |- keeps _ _ (or_err _ _) _ => apply keeps_or_err
  | |- keeps _ _ (put _) _ => apply keeps_put; repeat case_match; simpl; (assumption || congruence)
  | |- keeps _ _ (mem_peek _ _) _ => unfold mem_peek
  | |- keeps _ _ (mem_poke _ _) _ => unfold mem_poke
  | |- _ => solve [eauto with keeps]
  end.
Create HintDb keeps discriminated.

Definition hdr (b : sshbuf) := (sb_self b, sb_readonly b, sb_refcount b, sb_parent b).

Section KeepsHdr.
Variable t : Z * bool * Z * Z.
Variable np : Z.

Lemma hdr_maybe_pack f : keeps hdr t (sshbuf_maybe_pack f) (fun _ => True).
Proof. unfold sshbuf_maybe_pack. repeat keeps_step. Qed.
Lemma hdr_consume n : keeps hdr t (sshbuf_consume n) (fun _ => True).
Proof. unfold sshbuf_consume. repeat keeps_step. Qed.
Lemma hdr_reserve n : keeps hdr t (sshbuf_reserve np n) (fun _ => True).
Proof.
  pose proof hdr_maybe_pack. unfold sshbuf_reserve, sshbuf_allocate. repeat keeps_step.
Qed.

(** No operation changes the identity, the mode, the count or the parent. *)
Lemma exec_hdr o : keeps hdr t (exec np o) (fun _ => True).
Proof.
  pose proof hdr_maybe_pack. pose proof hdr_consume. pose proof hdr_reserve.
  destruct o; unfold exec, void, num, str, sshbuf_put, sshbuf_put_u8, sshbuf_put_u16, sshbuf_put_u32,
    sshbuf_put_u64, sshbuf_put_string, sshbuf_put_bignum2_bytes, sshbuf_get, sshbuf_get_u8,
    sshbuf_get_u16, sshbuf_get_u32, sshbuf_get_u64, sshbuf_get_string, sshbuf_get_cstring,
    sshbuf_get_string_direct, sshbuf_consume_end, sshbuf_poke, sshbuf_set_max_size, sshbuf_reset;
    repeat keeps_step.
Qed.
End KeepsHdr.

(** The block and the header. *)
Definition own (b : sshbuf) := (hdr b, sb_d b, sb_cd b, sb_alloc b, sb_mem b).

Section KeepsOwn.
Variable b0 : sshbuf.
Hypothesis Hro : writable b0 = false.
Variable np : Z.

Lemma own_ro b : own b = own b0 -> sb_readonly b || (1 <? sb_refcount b) = true.
Proof.
  unfold own, hdr. intros [= _ Hr Hc _ _ _ _ _]. revert Hro. unfold writable.
  rewrite Hr, Hc. intros <-%negb_false_iff. done.
Qed.

Lemma own_consume n : keeps own (own b0) (sshbuf_consume n) (fun _ => True).
Proof. unfold sshbuf_consume. repeat keeps_step. Qed.

Lemma own_reserve n : keeps own (own b0) (sshbuf_reserve np n) (fun _ => False).
Proof.
  unfold sshbuf_reserve, sshbuf_allocate. apply (keeps_bind own _ _ _ (fun _ => False)); [|done].
  eapply keeps_bind; [apply keeps_reads|]. intros x (b & Hb & Hx). exfalso. revert Hx.
  unfold sshbuf_check_reserve. rewrite (own_ro b Hb). by destruct (sshbuf_check_sanity b).
Qed.

Lemma own_woffset o n : keeps own (own b0) (reads (fun b => check_woffset b o n)) (fun _ => False).
Proof.
  intros b Hb. split; [done|]. simpl. intros x. unfold check_woffset, sshbuf_mutable_ptr.
  rewrite (own_ro b Hb). destruct (check_offset b true o n); try done. simpl.
  by destruct (sshbuf_check_sanity b).
Qed.

(** On a buffer that is not writable no operation touches the block. *)
Lemma exec_own o : keeps own (own b0) (exec np o) (fun _ => True).
Proof.
  pose proof own_consume. pose proof own_reserve. pose proof own_woffset.
  destruct o; unfold exec, void, num, str, sshbuf_put, sshbuf_put_u8, sshbuf_put_u16, sshbuf_put_u32,
    sshbuf_put_u64, sshbuf_put_string, sshbuf_put_bignum2_bytes, sshbuf_get, sshbuf_get_u8,
    sshbuf_get_u16, sshbuf_get_u32, sshbuf_get_u64, sshbuf_get_string, sshbuf_get_cstring,
    sshbuf_get_string_direct, sshbuf_consume_end, sshbuf_poke, sshbuf_set_max_size, sshbuf_reset;
    repeat first [ match goal with H : forall o n, keeps _ _ (reads _) _ |- keeps _ _ (reads _) _ => apply H end
                 | match goal with H : own ?x = _, E : sb_readonly ?x || _ = false |- _ =>
                     rewrite (own_ro x H) in E; discriminate E end
                 | keeps_step].
  Unshelve. all: exact (fun _ => True).
Qed.
End KeepsOwn.

(** ** Shared bytes *)

Lemma write_read m p l : read_bytes m p (length l) = Some l -> write_bytes m p l = m.
Proof.
  revert p. induction l as [|x l IH]; intros p; simpl; [done|].
  destruct (m !! p) as [y|] eqn:Hp; [|done].
  destruct (read_bytes m (p + 1) (length l)) as [l'|] eqn:E; [|done].
  intros [= -> ->]. rewrite IH by done. by apply insert_id.
Qed.

Lemma read_bytes_length m p n l : read_bytes m p n = Some l -> length l = n.
Proof.
  revert p l. induction n as [|n IH]; intros p l; simpl; [by intros [= <-]|].
  destruct (m !! p); [|done]. destruct (read_bytes m (p + 1) n) as [l'|] eqn:E; [|done].
  intros [= <-]. simpl. f_equal. by eapply IH.
Qed.

Lemma read_bytes_drop k m p n l :
  read_bytes m p n = Some l -> (k <= n)%nat ->
  read_bytes m (p + Z.of_nat k) (n - k) = Some (drop k l).
Proof.
  revert p n l. induction k as [|k IH]; intros p n l H Hk.
  - rewrite Z.add_0_r, Nat.sub_0_r. by rewrite drop_0.
  - destruct n as [|n]; [lia|]. simpl in H. destruct (m !! p); [|done].
    destruct (read_bytes m (p + 1) n) as [l'|] eqn:E; [|done]. injection H as <-. simpl.
    rewrite <- (IH (p + 1) n l' E) by lia. f_equal. lia.
Qed.

Lemma read_bytes_take k m p n l :
  read_bytes m p n = Some l -> (k <= n)%nat -> read_bytes m p k = Some (take k l).
Proof.
  revert p n l. induction k as [|k IH]; intros p n l H Hk; [done|].
  destruct n as [|n]; [lia|]. simpl in H. destruct (m !! p) as [x|] eqn:Hp; [|done].
  destruct (read_bytes m (p + 1) n) as [l'|] eqn:E; [|done]. injection H as <-. simpl.
  rewrite Hp. by rewrite (IH (p + 1) n l' E) by lia.
Qed.

(** The bytes of a window are the bytes of memory it designates. *)
Lemma contents_read h a b :
  h_load h a = Some b -> 0 <= sb_off b <= sb_size b -> sb_size b <= sb_alloc b ->
  read_bytes (h_mem h) (sb_cd b + sb_off b) (Z.to_nat (sb_size b - sb_off b)) = Some (contents b).
Proof.
  unfold h_load. destruct (h_bufs h !! a) as [x|]; [|done].
  destruct (read_bytes _ _ _) as [l|] eqn:E; [|done]. intros [= <-]. simpl. intros Ho Hs.
  pose proof (read_bytes_drop (Z.to_nat (sb_off x)) _ _ _ _ E ltac:(lia)) as Hd.
  rewrite Z2Nat.id in Hd by lia.
  unfold contents, ztake, zdrop. simpl.
  eapply read_bytes_take; [exact Hd | lia].
Qed.

(** Storing back a buffer whose block was not touched. *)
Lemma store_own h a b b' :
  h_load h a = Some b -> sshbuf_check_sanity b = Ok tt -> own b' = own b ->
  h_store h a b b' = mk_heap (<[a := set_mem [] b']> (h_bufs h)) (h_mem h).
Proof.
  unfold h_load. destruct (h_bufs h !! a) as [x|]; [|done].
  destruct (read_bytes _ _ _) as [l|] eqn:E; [|done]. intros [= <-] Hs.
  apply check_sanity_ok in Hs as [Hd _]. unfold own, hdr. simpl in *.
  intros [= _ Hr _ _ Hd' Hcd Ha Hm]. unfold h_store. rewrite Hr. f_equal.
  destruct (sb_readonly x); [done|]. rewrite Hd', Hm. simpl. rewrite Z.eqb_refl.
  apply write_read. rewrite (read_bytes_length _ _ _ _ E), Hd by done. done.
Qed.

Lemma load_hdr h a b :
  h_load h a = Some b -> exists x l, h_bufs h !! a = Some x /\ b = set_mem l x /\
    read_bytes (h_mem h) (sb_cd x) (Z.to_nat (sb_alloc x)) = Some l.
Proof.
  unfold h_load. destruct (h_bufs h !! a) as [x|]; [|done].
  destruct (read_bytes _ _ _) as [l|] eqn:E; [|done]. intros [= <-]. eauto 6.
Qed.

Lemma load_sane h owned a b :
  heap_ok h owned -> h_load h a = Some b -> sshbuf_check_sanity b = Ok tt.
Proof.
  intros H (x & l & Hx & -> & _)%load_hdr. destruct (ro_sane _ _ _ H a x Hx) as (_ & _ & Hs & _).
  exact Hs.
Qed.

(** An operation on one buffer does not disturb the references. *)
Lemma exec_heap_ok np o h owned a b :
  heap_ok h owned -> h_load h a = Some b -> sshbuf_wf b -> bufop_ok o -> reset_ok o b ->
  heap_ok (snd (on_buf a (exec np o) h)) owned.
Proof.
  intros H Hl W Ho Hr. unfold on_buf. rewrite Hl.
  destruct (exec_step np o b W Ho Hr) as (_ & W' & _).
  destruct (exec_hdr (hdr b) np o b eq_refl) as [Hh _].
  destruct (exec np o b) as [r b'] eqn:E. simpl in *.
  apply load_hdr in Hl as (x & l & Hx & -> & _). unfold hdr in Hh. simpl in Hh.
  injection Hh as Hself Hro Hrc Hp. unfold heap_ok. cbn [h_bufs].
  eapply (refs_ok_update _ _ _ _ a x _ H Hx); simpl; try done.
  - apply (wf_bounds _ W').
  - exact (wf_sane _ W').
  - lia.
Qed.

(** *** A program that uses buffers *)

(** The heap and the references the program holds: it creates buffers and
    views, runs operations on buffers it holds, and frees each of them once. *)
Inductive client : heap -> gset Z -> Prop :=
| client_start : client (mk_heap ∅ ∅) ∅
| client_new h owned ps pd h' :
    client h owned -> fresh h ps -> pd <> 0 ->
    sshbuf_new_heap ps pd h = (Ok (Some ps), h') -> client h' ({[ps]} ∪ owned)
| client_fromb fuel h owned ps a b h' :
    client h owned -> fresh h ps -> a ∈ owned -> h_bufs h !! a = Some b ->
    sb_refcount b < SSHBUF_REFS_MAX -> 0 < sb_cd b ->
    sshbuf_fromb fuel ps a h = (Ok (Some ps), h') -> client h' ({[ps]} ∪ owned)
| client_op np o h owned a b :
    client h owned -> a ∈ owned -> h_load h a = Some b -> sshbuf_wf b ->
    bufop_ok o -> reset_ok o b -> client (snd (on_buf a (exec np o) h)) owned
| client_free fuel h owned a h' :
    client h owned -> a ∈ owned -> sshbuf_free fuel a h = (Ok tt, h') ->
    client h' (owned ∖ {[a]}).

Lemma bind_mono {S A B} (m : ST S A) (k k' : A -> ST S B) s x s' :
  bind m k s = (Ok x, s') ->
  (forall a t, k a t = (Ok x, s') -> k' a t = (Ok x, s')) -> bind m k' s = (Ok x, s').
Proof. unfold bind. destruct (m s) as [[a|e|] t]; try done. auto. Qed.

(** A run of [sshbuf_free] that completes does not depend on the fuel. *)
Lemma free_fuel fuel fuel' a h h' :
  sshbuf_free fuel a h = (Ok tt, h') -> (fuel <= fuel')%nat ->
  sshbuf_free fuel' a h = (Ok tt, h').
Proof.
  revert fuel' a h h'. induction fuel as [|fuel IH]; intros fuel' a h h' H Hle.
  - simpl in H. destruct fuel'; simpl; destruct (a =? 0); done.
  - destruct fuel' as [|fuel']; [lia|]. simpl in *. destruct (a =? 0); [done|].
    eapply bind_mono; [exact H|]. intros ? h1 H1. eapply bind_mono; [exact H1|].
    intros b h2 H2. eapply bind_mono; [exact H2|]. intros ? h3 H3. cbv beta in *. destruct (0 <? _); [done|].
    unfold bind at 1 in H3. destruct (sshbuf_free fuel (sb_parent b) h3) as [[[]|e|] h4] eqn:E; try done.
    by rewrite (bind_ok _ _ _ _ _ (IH fuel' _ _ _ E ltac:(lia))).
Qed.

Lemma client_ok h owned : client h owned -> heap_ok h owned.
Proof.
  induction 1 as [|h owned ps pd h' _ IH Hf Hp E|fuel h owned ps a b h' _ IH Hf Ha Hb Hr Hc E
    |np o h owned a b _ IH Ha Hl W Ho Hr|fuel h owned a h' _ IH Ha E].
  - unfold heap_ok. cbn [h_bufs]. split; try (intros a b Hab; by rewrite lookup_empty in Hab).
    { intros a Ha. by apply not_elem_of_empty in Ha. }
    exists (fun _ => 0%nat). intros a b Hab. by rewrite lookup_empty in Hab.
  - destruct (new_ok h owned ps pd IH Hf Hp) as (h1 & E1 & H1). congruence.
  - destruct (fromb_ok fuel ps h owned a b IH Hb Hr Hc Hf) as (h1 & E1 & H1). congruence.
  - by eapply exec_heap_ok.
  - destruct (free_ok h owned a IH Ha) as (n & m' & H & _ & F).
    destruct (F (max n fuel) ltac:(lia)) as [mem Hm].
    rewrite (free_fuel fuel (max n fuel) a h h' E ltac:(lia)) in Hm. injection Hm as ->. done.
Qed.

(** The structure with the largest rank has no child. *)
Lemma max_rank (rank : Z -> nat) (m : gmap Z sshbuf) :
  m <> ∅ -> exists a b, m !! a = Some b /\ forall x y, m !! x = Some y -> (rank x <= rank a)%nat.
Proof.
  induction m as [|a b m Ha IH] using map_ind; [done|]. intros _.
  destruct (decide (m = ∅)) as [->|Hm].
  - exists a, b. split; [apply lookup_insert_eq|]. intros x y. rewrite lookup_insert.
    destruct (decide (a = x)); [by subst | by rewrite lookup_empty].
  - destruct (IH Hm) as (a1 & b1 & H1 & Hmax). assert (a <> a1) by congruence.
    destruct (le_lt_dec (rank a) (rank a1)).
    + exists a1, b1. split; [by rewrite lookup_insert_ne|]. intros x y. rewrite lookup_insert.
      destruct (decide (a = x)); [by subst | by intros; eapply Hmax].
    + exists a, b. split; [apply lookup_insert_eq|]. intros x y. rewrite lookup_insert.
      destruct (decide (a = x)); [by subst|]. intros Hx. specialize (Hmax x y Hx). lia.
Qed.

Lemma no_leak h : heap_ok h ∅ -> h_bufs h = ∅.
Proof.
  intros H. destruct (decide (h_bufs h = ∅)) as [|Hm]; [done|]. exfalso.
  destruct (ro_rank _ _ _ H) as [rank R]. destruct (max_rank rank _ Hm) as (a & b & Ha & Hmax).
  destruct (ro_sane _ _ _ H a b Ha) as (Hz & _ & Hs & _). apply check_sanity_ok in Hs as (_ & _ & Hc & _).
  pose proof (ro_count _ _ _ H a b Ha) as E. rewrite decide_False in E by (by apply not_elem_of_empty).
  rewrite children_none in E; [lia|]. intros x y Hx Hp.
  pose proof (R x y Hx ltac:(congruence)). pose proof (Hmax x y Hx). rewrite Hp in *. lia.
Qed.

(** *** Parsing through a view *)

Lemma view_load h a b ps mem' bufs :
  h_load h a = Some b -> sshbuf_wf b -> bufs !! ps = Some (view ps a b) -> mem' = h_mem h ->
  h_load (mk_heap bufs mem') ps = Some (set_mem (contents b) (view ps a b)).
Proof.
  intros Hl W Hv ->. unfold h_load. cbn [h_bufs h_mem]. rewrite Hv. simpl.
  wf_facts W. by rewrite (contents_read h a b Hl) by lia.
Qed.

Lemma view_wf ps a b :
  sshbuf_wf b -> 0 < sb_cd b -> ps <> a -> sshbuf_wf (set_mem (contents b) (view ps a b)).
Proof.
  intros W Hcd Hne. pose proof (contents_len b W). pose proof (contents_bytes b W). wf_facts W.
  split; simpl; sb_consts; done || lia.
Qed.

Lemma view_contents ps a b :
  sshbuf_wf b -> contents (set_mem (contents b) (view ps a b)) = contents b.
Proof.
  intros W. unfold contents at 1. simpl. rewrite zdrop_0, Z.sub_0_r by lia.
  apply ztake_all. rewrite contents_len by done. lia.
Qed.

(** A consume runs on the heap as on the buffer, and leaves the bytes. *)
Lemma consume_heap h a b n :
  h_load h a = Some b -> sshbuf_wf b -> 0 <= n <= zlen (contents b) ->
  exists b', on_buf a (sshbuf_consume n) h = (Ok tt, mk_heap (<[a := set_mem [] b']> (h_bufs h)) (h_mem h)) /\
    h_load (mk_heap (<[a := set_mem [] b']> (h_bufs h)) (h_mem h)) a = Some b' /\
    contents b' = zdrop n (contents b) /\ own b' = own b /\ sshbuf_wf b'.
Proof.
  intros Hl W Hn. unfold on_buf. rewrite Hl.
  destruct (sshbuf_consume_spec n b W ltac:(lia)) as [[? _]|[_ (b' & E & W' & F & Hc & Hm & Hcd & Ha & Hd)]];
    [lia|].
  assert (own b' = own b) as Ho.
  { destruct F as (F1 & F2 & F3 & F4 & F5). unfold own, hdr. congruence. }
  exists b'. rewrite E, (store_own h a b b' Hl (wf_sane _ W) Ho). split_and!; try done.
  apply load_hdr in Hl as (x & l & Hx & -> & Hr). unfold h_load. cbn [h_bufs h_mem].
  rewrite lookup_insert_eq. simpl in *. rewrite Hcd, Ha, Hr, <- Hm. by destruct b'.
Qed.

Lemma upto_child_run h a c b cb :
  h_load h a = Some b -> h_load h c = Some cb -> sshbuf_wf b -> sshbuf_wf cb -> sb_parent cb = a ->
  zlen (contents cb) <= zlen (contents b) -> sb_cd b <= sb_cd cb ->
  sshbuf_consume_upto_child a c h =
    on_buf a (sshbuf_consume (zlen (contents b) - zlen (contents cb))) h.
Proof.
  intros Ha Hc W Wc Hp Hl Hcd. pose proof (zlen_nonneg (contents cb)). pose proof (contents_len b W) as Lb.
  pose proof (wf_sane _ W) as S1. pose proof (wf_sane _ Wc) as S2.
  pose proof (sshbuf_len_wf _ W) as L1. pose proof (sshbuf_len_wf _ Wc) as L2.
  wf_facts W. apply load_hdr in Ha as (x & l & Hx & -> & _). apply load_hdr in Hc as (y & k & Hy & -> & _).
  unfold sshbuf_consume_upto_child.
  rewrite (at_hdr_ok h a x _ tt), (at_hdr_ok h c y _ tt), (at_hdr_ok h a x _ x), (at_hdr_ok h c y _ y) by done.
  simpl in Hp. rewrite Hp, Z.eqb_refl. cbn [negb].
  rewrite (at_hdr_ok h c y _ _ _ Hy L2), (at_hdr_ok h a x _ _ _ Hx L1). simpl in Hcd, Lb.
  destruct (Z.ltb_spec (zlen (contents (set_mem l x))) (zlen (contents (set_mem k y)))); [lia|].
  destruct (Z.ltb_spec (sb_cd y) (sb_cd x)); [lia|].
  rewrite u64_small; [done|]. sb_consts. simpl in *. lia.
Qed.

(** *** An example: a buffer at 100 with its block at 5000 holding three bytes, and a view at 200 *)

Definition ex_new : heap := snd (sshbuf_new_heap 100 5000 (mk_heap ∅ ∅)).
Definition ex_put : heap := snd (on_buf 100 (exec 9000 (Put [7; 8; 9])) ex_new).
Definition ex_view : heap := snd (sshbuf_fromb 3 200 100 ex_put).

Definition ex_buf : sshbuf := set_mem (replicate (Z.to_nat SSHBUF_SIZE_INIT) 0)
  (mk_sshbuf 100 5000 5000 0 0 SSHBUF_SIZE_MAX SSHBUF_SIZE_INIT false 1 0 []).

Lemma ex_buf_wf : sshbuf_wf ex_buf.
Proof.
  split; simpl; sb_consts; try done; try lia.
  repeat constructor; done.
Qed.

Lemma ex_put_client : client ex_put {[100]}.
Proof.
  rewrite <- (right_id_L ∅ _ {[100]}).
  apply (client_op 9000 _ _ _ 100 ex_buf).
  - apply (client_new (mk_heap ∅ ∅) ∅ 100 5000); [apply client_start | by split | done | by vm_compute].
  - by apply elem_of_union_l, elem_of_singleton_2.
  - by vm_compute.
  - apply ex_buf_wf.
  - split; [repeat constructor; done | by vm_compute].
  - done.
Qed.

Lemma ex_view_client : client ex_view {[200; 100]}.
Proof.
  eapply (client_fromb 3 ex_put {[100]} 200 100).
  - apply ex_put_client.
  - split; [done | by vm_compute].
  - by apply elem_of_singleton_2.
  - by vm_compute.
  - by vm_compute.
  - by vm_compute.
  - by vm_compute.
Qed.

(** ** Properties *)



(** A view shares the bytes of its parent and freezes them: while the
    child is alive, every operation on the parent, whatever its outcome,
    leaves the child and its bytes as they were. *)
Theorem child_bytes_stable h owned a c cb np o :
  heap_ok h owned -> a ∈ owned -> h_load h c = Some cb -> sb_parent cb = a ->
  h_load (snd (on_buf a (exec np o) h)) c = Some cb.
Proof.
  intros H Ha Hc Hp. unfold on_buf. destruct (h_load h a) as [b|] eqn:Hl; [|done].
  pose proof (load_sane h owned a b H Hl) as Hs.
  apply load_hdr in Hc as (x & l & Hx & -> & Hm). simpl in Hp.
  pose proof Hl as (y & ly & Hy & -> & _)%load_hdr.
  assert (c <> a) as Hne.
  { intros ->. simpl in *. destruct (ro_sane _ _ _ H a x Hx) as (_ & Hself & Hsx & _).
    apply check_sanity_ok in Hsx as (_ & Hpx & _). congruence. }
  assert (writable (set_mem ly y) = false) as Hw.
  { unfold writable. simpl. pose proof (ro_count _ _ _ H a y Hy) as E.
    rewrite decide_True in E by done. pose proof (children_pos _ a c x Hx Hp).
    destruct (Z.ltb_spec 1 (sb_refcount y)); [by rewrite orb_true_r | lia]. }
  destruct (exec_own _ Hw np o (set_mem ly y) eq_refl) as [Ho _].
  destruct (exec np o (set_mem ly y)) as [r b'] eqn:E. simpl in *.
  rewrite (store_own h a _ b' Hl Hs Ho). unfold h_load. cbn [h_bufs h_mem].
  by rewrite lookup_insert_ne, Hx, Hm by done.
Qed.

Lemma child_bytes_stable_witness :
  exists cb, contents cb = [7; 8; 9] /\
    h_load (snd (on_buf 100 (exec 9000 (Consume 2)) ex_view)) 200 = Some cb.
Proof.
  exists (set_mem [7; 8; 9] (mk_sshbuf 200 0 5000 0 3 3 3 true 1 100 [])). split; [by vm_compute|].
  apply (child_bytes_stable ex_view {[200; 100]} 100 200).
  - apply client_ok, ex_view_client.
  - by apply elem_of_union_r, elem_of_singleton_2.
  - by vm_compute.
  - done.
Defined.

(** C24. Parsing through a view: [sshbuf_fromb] gives a child with the contents
    of the buffer; after [k] bytes of the child are consumed,
    [sshbuf_consume_upto_child] brings the parent to the same position, so
    that exactly the bytes parsed through the child are gone from it. *)
Theorem parse_through_view fuel h owned a b ps k :
  heap_ok h owned -> h_load h a = Some b -> sshbuf_wf b -> sb_refcount b < SSHBUF_REFS_MAX ->
  0 < sb_cd b -> fresh h ps -> 0 <= k <= zlen (contents b) ->
  exists h1 c h2 c' h3 b',
    sshbuf_fromb fuel ps a h = (Ok (Some ps), h1) /\
    h_load h1 ps = Some c /\ contents c = contents b /\ writable c = false /\
    on_buf ps (sshbuf_consume k) h1 = (Ok tt, h2) /\
    sshbuf_consume_upto_child a ps h2 = (Ok tt, h3) /\
    h_load h3 ps = Some c' /\ h_load h3 a = Some b' /\
    contents b' = zdrop k (contents b) /\ contents c' = contents b'.
Proof.
  intros H Hl W Hr Hcd Hf Hk. pose proof Hl as (x & l & Hx & -> & Hrd)%load_hdr.
  destruct Hf as [Hz Hn]. assert (ps <> a) as Hne by congruence.
  eexists. exists (set_mem (contents (set_mem l x)) (view ps a (set_mem l x))).
  set (h1 := mk_heap (<[a := set_refcount (sb_refcount x + 1) x]> (<[ps := view ps a x]> (h_bufs h))) (h_mem h)).
  assert (h_load h1 ps = Some (set_mem (contents (set_mem l x)) (view ps a (set_mem l x)))) as Hc.
  { apply (view_load h a (set_mem l x)); try done. by rewrite lookup_insert_ne, lookup_insert_eq. }
  pose proof (view_wf ps a _ W Hcd Hne) as Wc. pose proof (view_contents ps a _ W) as Ec.
  destruct (consume_heap h1 ps _ k Hc Wc) as (c' & E2 & L2 & C2 & O2 & W2); [by rewrite Ec|].
  set (h2 := mk_heap _ _) in E2, L2.
  assert (h_load h2 a = Some (set_mem l (set_refcount (sb_refcount x + 1) x))) as La.
  { unfold h_load. cbn [h_bufs h_mem h2 h1]. rewrite lookup_insert_ne, lookup_insert_eq by done. simpl.
    by rewrite Hrd. }
  assert (sshbuf_wf (set_mem l (set_refcount (sb_refcount x + 1) x))) as Wa.
  { wf_facts W. split; simpl in *; done || lia. }
  destruct (consume_heap h2 a _ k La Wa ltac:(done)) as (b' & E3 & L3 & C3 & O3 & W3).
  set (h3 := mk_heap _ _) in E3, L3.
  assert (h_load h3 ps = Some c') as L3c.
  { revert L2. unfold h_load. cbn [h_bufs h_mem h3 h2 h1]. by rewrite lookup_insert_eq, lookup_insert_ne, lookup_insert_eq by done. }
  exists h2, c', h3, b'. split_and!; try done.
  - apply (fromb_run fuel ps h owned a x H Hx); done.
  - rewrite (upto_child_run h2 a ps _ c' La L2 Wa W2).
    + rewrite C2, Ec. rewrite zlen_drop. replace (_ - _) with k; [done|].
      change (contents (set_mem l (set_refcount _ x))) with (contents (set_mem l x)). lia.
    + unfold own, hdr in O2. by injection O2.
    + rewrite C2, Ec, zlen_drop.
      change (contents (set_mem l (set_refcount _ x))) with (contents (set_mem l x)). lia.
    + unfold own, hdr in O2. injection O2 as _ _ _ _ _ -> _ _. simpl. wf_facts W. simpl in *. lia.
  - by rewrite C2, C3, Ec.
Qed.

Lemma parse_through_view_witness :
  exists h1 h2 h3 b', sshbuf_fromb 3 200 100 ex_put = (Ok (Some 200), h1) /\
    on_buf 200 (sshbuf_consume 2) h1 = (Ok tt, h2) /\
    sshbuf_consume_upto_child 100 200 h2 = (Ok tt, h3) /\
    h_load h3 100 = Some b' /\ contents b' = [9].
Proof.
  set (b := snd (exec 9000 (Put [7; 8; 9]) ex_buf)).
  assert (contents b = [7; 8; 9]) as Hb by (by vm_compute).
  destruct (parse_through_view 3 ex_put {[100]} 100 b 200 2)
    as (h1 & c & h2 & c' & h3 & b' & E1 & _ & _ & _ & E2 & E3 & _ & L & C & _).
  - apply client_ok, ex_put_client.
  - by vm_compute.
  - apply exec_step; [apply ex_buf_wf | | done]. split; [repeat constructor; done | by vm_compute].
  - by vm_compute.
  - by vm_compute.
  - split; [done | by vm_compute].
  - by rewrite Hb.
  - exists h1, h2, h3, b'. split_and!; try done.
Defined.
