(* ===== verification/CString.v ===== *)
(** * C strings and the library functions on them

    A C string is the list of its characters, without the terminating NUL and
    without a NUL inside.  A character is its value as an [unsigned char]. *)
From Stdlib Require Import Ascii String.
From S2P Require Import Prelude.

(** ** Characters *)

Definition ch (a : ascii) : Z := Z.of_N (N_of_ascii a).

Fixpoint str (s : string) : list Z :=
  match s with
  | EmptyString => []
  | String a s => ch a :: str s
  end.

Definition no_nul (s : list Z) : Prop := Forall (fun c => c <> 0) s.

(** The "C" locale. *)
Definition isupper (c : Z) : bool := (65 <=? c) && (c <=? 90).
Definition islower (c : Z) : bool := (97 <=? c) && (c <=? 122).
Definition isalpha (c : Z) : bool := isupper c || islower c.
Definition isdigit (c : Z) : bool := (48 <=? c) && (c <=? 57).
Definition isalnum (c : Z) : bool := isalpha c || isdigit c.
Definition tolower (c : Z) : Z := if isupper c then c + 32 else c.

(** [lowercase] of misc.c. *)
Definition lowercase (s : list Z) : list Z := map tolower s.

Definition streq (s t : list Z) : bool := bool_decide (s = t).

Fixpoint strchr (s : list Z) (c : Z) : option nat :=
  match s with
  | [] => None
  | x :: s => if x =? c then Some 0%nat else option_map S (strchr s c)
  end.

Fixpoint strrchr (s : list Z) (c : Z) : option nat :=
  match s with
  | [] => None
  | x :: s =>
      match strrchr s c with
      | Some i => Some (S i)
      | None => if x =? c then Some 0%nat else None
      end
  end.

(** [strcspn] with a reject set of one character. *)
Fixpoint span_to (c : Z) (s : list Z) : list Z :=
  match s with
  | [] => []
  | x :: s => if x =? c then [] else x :: span_to c s
  end.

Definition strlcat (dst src : list Z) (size : Z) : list Z :=
  if size <=? zlen dst then dst else dst ++ ztake (size - zlen dst - 1) src.

(** ** Numbers *)

Definition isspace (c : Z) : bool := (c =? 32) || ((9 <=? c) && (c <=? 13)).

Fixpoint skip_space (s : list Z) : list Z :=
  match s with
  | c :: s' => if isspace c then skip_space s' else s
  | [] => []
  end.

(** The value of the leading decimal digits, and what follows them. *)
Fixpoint digits (acc : Z) (s : list Z) : Z * list Z :=
  match s with
  | c :: s' => if isdigit c then digits (acc * 10 + (c - 48)) s' else (acc, s)
  | [] => (acc, [])
  end.

Definition LLONG_MIN : Z := - 2 ^ 63.
Definition LLONG_MAX : Z := 2 ^ 63 - 1.

(** [strtoll(s, &ep, 10)]: the value, whether [errno] is [ERANGE], and [ep];
    without a digit [ep] is [s]. *)
Definition strtoll (s : list Z) : Z * bool * list Z :=
  let t := skip_space s in
  let '(neg, t) :=
    match t with
    | c :: t' => if c =? 45 then (true, t') else if c =? 43 then (false, t') else (false, t)
    | [] => (false, t)
    end in
  match t with
  | c :: _ =>
      if isdigit c then
        let '(v, ep) := digits 0 t in
        let v := if neg then - v else v in
        if v <? LLONG_MIN then (LLONG_MIN, true, ep)
        else if LLONG_MAX <? v then (LLONG_MAX, true, ep)
        else (v, false, ep)
      else (0, false, s)
  | [] => (0, false, s)
  end.

(** [strtonum] of openbsd-compat: the number, or the error string. *)
Inductive strtonum_error := INVALID | TOOSMALL | TOOLARGE.

Definition strtonum (numstr : list Z) (minval maxval : Z) : Z + strtonum_error :=
  if maxval <? minval then inr INVALID
  else
    let '(ll, erange, ep) := strtoll numstr in
    if (length ep =? length numstr)%nat || negb (length ep =? 0)%nat then inr INVALID
    else if ((ll =? LLONG_MIN) && erange) || (ll <? minval) then inr TOOSMALL
    else if ((ll =? LLONG_MAX) && erange) || (maxval <? ll) then inr TOOLARGE
    else inl ll.

Definition INT_MAX : Z := 2 ^ 31 - 1.

(** ** Buffers that hold a string, and strsep

    [strsep] overwrites separators with NUL, so that the string it walks over
    is a buffer: a list where a NUL ends the string that starts before it. *)

Definition cstrlen (b : list Z) : nat := length (span_to 0 b).

(** The token at [pos], the buffer with the separator overwritten, and the
    position after it, [None] when the token was the last. *)
Definition strsep (b : list Z) (pos : option nat) (sep : Z)
    : option (list Z) * list Z * option nat :=
  match pos with
  | None => (None, b, None)
  | Some p =>
      let tok := span_to sep (drop p b) in
      let e := (p + length tok)%nat in
      if (e <? length b)%nat then (Some tok, <[e := 0]> b, Some (S e)) else (Some tok, b, None)
  end.

(** ** Lists of items: the reference reading of a separated string *)

Fixpoint split_on (sep : Z) (s : list Z) : list (list Z) :=
  match s with
  | [] => [[]]
  | x :: s =>
      if x =? sep then [] :: split_on sep s
      else match split_on sep s with
           | [] => [[x]]
           | t :: ts => (x :: t) :: ts
           end
  end.

Fixpoint join_with (sep : Z) (l : list (list Z)) : list Z :=
  match l with
  | [] => []
  | [t] => t
  | t :: l => t ++ sep :: join_with sep l
  end.

Lemma split_on_cons sep s : exists t ts, split_on sep s = t :: ts.
Proof.
  destruct s as [|x s]; simpl; [eauto|]. destruct (x =? sep); [eauto|].
  destruct (split_on sep s); eauto.
Qed.

Lemma join_split sep s : join_with sep (split_on sep s) = s.
Proof.
  induction s as [|x s IH]; simpl; [done|]. destruct (split_on_cons sep s) as (t & ts & E).
  rewrite E in *. destruct (Z.eqb_spec x sep) as [->|].
  - change (sep :: join_with sep (t :: ts) = sep :: s). by rewrite IH.
  - destruct ts as [|t' ts]; simpl in *; congruence.
Qed.

Lemma split_on_first sep s :
  split_on sep s = span_to sep s ::
    (if (length (span_to sep s) <? length s)%nat
     then split_on sep (drop (S (length (span_to sep s))) s) else []).
Proof.
  induction s as [|x s IH]; simpl; [done|]. destruct (Z.eqb_spec x sep); simpl; [done|].
  rewrite IH.
  destruct (Nat.ltb_spec (length (span_to sep s)) (length s)) as [H|H].
  - rewrite (proj2 (Nat.ltb_lt _ _)) by lia. done.
  - rewrite (proj2 (Nat.ltb_ge _ _)) by lia. done.
Qed.

Lemma span_to_length c s : (length (span_to c s) <= length s)%nat.
Proof. induction s as [|x s IH]; simpl; [lia|]. destruct (x =? c); simpl; lia. Qed.

Lemma span_to_notin c s : ~ (c ∈ span_to c s).
Proof.
  induction s as [|x s IH]; simpl; [by apply not_elem_of_nil|].
  destruct (Z.eqb_spec x c); [by apply not_elem_of_nil|].
  rewrite elem_of_cons. intros [->|]; done.
Qed.

Lemma span_to_all c s : ~ (c ∈ s) -> span_to c s = s.
Proof.
  induction s as [|x s IH]; simpl; [done|]. rewrite elem_of_cons. intros H.
  destruct (Z.eqb_spec x c) as [->|]; [exfalso; apply H; by left|]. rewrite IH by tauto. done.
Qed.

Lemma span_to_app c s t : ~ (c ∈ s) -> span_to c (s ++ c :: t) = s.
Proof.
  induction s as [|x s IH]; simpl; [by rewrite Z.eqb_refl|]. rewrite elem_of_cons. intros H.
  destruct (Z.eqb_spec x c) as [->|]; [exfalso; apply H; by left|]. rewrite IH by tauto. done.
Qed.

Lemma split_on_notin sep s t : t ∈ split_on sep s -> ~ (sep ∈ t).
Proof.
  revert t. induction s as [|x s IH]; simpl; intros t.
  - intros ->%list_elem_of_singleton. by apply not_elem_of_nil.
  - destruct (split_on_cons sep s) as (u & us & E). rewrite E in *.
    destruct (Z.eqb_spec x sep).
    + rewrite elem_of_cons. intros [->|Ht]; [by apply not_elem_of_nil|]. auto.
    + rewrite elem_of_cons. intros [->|Ht]; [|apply IH; by right].
      rewrite elem_of_cons. intros [->|Hs]; [done|]. apply (IH u); [by left | done].
Qed.

Lemma drop_app_cons {A} (t : list A) x r : drop (S (length t)) (t ++ x :: r) = r.
Proof. induction t as [|y t IH]; [done|]. exact IH. Qed.

Lemma split_on_join sep l :
  l <> [] -> Forall (fun t => ~ (sep ∈ t)) l -> split_on sep (join_with sep l) = l.
Proof.
  induction l as [|t l IH]; [done|]. intros _ [Ht Hl]%Forall_cons.
  destruct l as [|u l].
  - simpl. rewrite split_on_first, span_to_all by done.
    by rewrite (proj2 (Nat.ltb_ge _ _)) by lia.
  - change (join_with sep (t :: u :: l)) with (t ++ sep :: join_with sep (u :: l)).
    rewrite split_on_first, span_to_app by done.
    rewrite length_app. simpl length. rewrite (proj2 (Nat.ltb_lt _ _)) by lia.
    f_equal. rewrite drop_app_cons. by apply IH.
Qed.

(** ** strsep walks over the items *)

Definition rest_toks (sep : Z) (b : list Z) (pos : option nat) : list (list Z) :=
  match pos with None => [] | Some p => split_on sep (drop p b) end.

Lemma strsep_some b p sep : exists tok b' pos',
  strsep b (Some p) sep = (Some tok, b', pos') /\
  split_on sep (drop p b) = tok :: rest_toks sep b' pos' /\
  length b' = length b /\
  match pos' with
  | None => b' = b
  | Some q => q = (p + S (length tok))%nat /\ (q <= length b)%nat /\ drop q b' = drop q b
  end.
Proof.
  simpl. rewrite split_on_first. set (t := span_to sep (drop p b)).
  pose proof (span_to_length sep (drop p b)) as Hl. fold t in Hl. rewrite length_drop in *.
  destruct (Nat.ltb_spec (p + length t) (length b)) as [H|H].
  - eexists _, _, _. split; [done|]. rewrite (proj2 (Nat.ltb_lt _ _)) by lia.
    rewrite length_insert. simpl rest_toks. rewrite drop_insert_lt, drop_drop by lia.
    replace (p + S (length t))%nat with (S (p + length t)) by lia.
    split_and!; done || lia.
  - eexists _, _, _. split; [done|]. rewrite (proj2 (Nat.ltb_ge _ _)) by lia. done.
Qed.

(** Where a buffer was split, the string it starts with is the first item. *)
Lemma cstrlen_split s n b :
  no_nul s -> (n < length s)%nat -> b = <[n := 0]> s -> cstrlen b = n.
Proof.
  unfold cstrlen. intros Hs Hn ->. revert n Hn. induction s as [|x s IH]; simpl; [lia|].
  apply Forall_cons in Hs as [Hx Hs]. intros n Hn. destruct n as [|n]; simpl; [done|].
  rewrite (proj2 (Z.eqb_neq x 0)) by done. simpl. rewrite IH by (done || lia). done.
Qed.
