(* ===== verification/Base64.v ===== *)
(** * Base 64: src/openbsd-compat/base64.c

    The encoder and the decoder with the memory they write to, and the proof
    that the decoder accepts exactly the output of the encoder, with white
    space anywhere. *)
From Stdlib Require Import Ascii String.
From S2P Require Import Prelude SshbufGetput CString.

Definition Base64 : list Z :=
  str "ABCDEFGHIJKLMNOPQRSTUVWXYZabcdefghijklmnopqrstuvwxyz0123456789+/".
Definition Pad64 : Z := 61.

(** [Base64[i]]; [None] outside the array. *)
Definition base64_at (i : Z) : option Z := Base64 !! Z.to_nat i.

(** ** Encoding *)

(** The body of the main loop: three bytes give four characters. *)
Definition ntop_group (i0 i1 i2 : Z) : option (list Z) :=
  let o0 := Z.shiftr i0 2 in
  let o1 := u8 (Z.shiftl (Z.land i0 0x03) 4 + Z.shiftr i1 4) in
  let o2 := u8 (Z.shiftl (Z.land i1 0x0f) 2 + Z.shiftr i2 6) in
  let o3 := Z.land i2 0x3f in
  mapM base64_at [o0; o1; o2; o3].

Fixpoint b64_ntop_loop (src : list Z) (datalength : Z) (target : list Z)
    : res (list Z * Z * list Z) :=
  match src with
  | i0 :: i1 :: i2 :: src' =>
      if zlen target <? u64 (datalength + 4) then Err (-1)
      else
        let? cs := rdefined (ntop_group i0 i1 i2) in
        let? target := rdefined (mem_write target datalength cs) in
        b64_ntop_loop src' (u64 (datalength + 4)) target
  | _ => Ok (src, datalength, target)
  end.

(** The last one or two bytes. *)
Definition b64_ntop_tail (src : list Z) (datalength : Z) (target : list Z) : res (Z * list Z) :=
  if zlen src =? 0 then Ok (datalength, target)
  else
    let input i := default 0 (src !! i) in
    let o0 := Z.shiftr (input 0%nat) 2 in
    let o1 := u8 (Z.shiftl (Z.land (input 0%nat) 0x03) 4 + Z.shiftr (input 1%nat) 4) in
    let o2 := u8 (Z.shiftl (Z.land (input 1%nat) 0x0f) 2 + Z.shiftr (input 2%nat) 6) in
    if zlen target <? u64 (datalength + 4) then Err (-1)
    else
      let? c0 := rdefined (base64_at o0) in
      let? c1 := rdefined (base64_at o1) in
      let? c2 := if zlen src =? 1 then Ok Pad64 else rdefined (base64_at o2) in
      let? target := rdefined (mem_write target datalength [c0; c1; c2; Pad64]) in
      Ok (u64 (datalength + 4), target).

(** [targsize] is the size of [target].  Returns the length and the block. *)
Definition b64_ntop (src target : list Z) : res (Z * list Z) :=
  let? r := b64_ntop_loop src 0 target in
  let '(src, datalength, target) := r in
  let? r := b64_ntop_tail src datalength target in
  let '(datalength, target) := r in
  if zlen target <=? datalength then Err (-1)
  else
    let? target := rdefined (mem_write target datalength [0]) in
    Ok (datalength, target).

(** ** Decoding *)

(** [target[i] |= v] *)
Definition or_at (target : list Z) (i v : Z) : res (list Z) :=
  let? l := rdefined (mem_read target i 1) in
  rdefined (mem_write target i [u8 (Z.lor (default 0 (l !! 0%nat)) v)]).

(** The [switch]: [v] is [pos - Base64]. *)
Definition pton_step (v state tarindex : Z) (target : list Z) : res (Z * Z * list Z) :=
  if state =? 0 then
    if zlen target <=? tarindex then Err (-1)
    else
      let? target := rdefined (mem_write target tarindex [u8 (Z.shiftl v 2)]) in
      Ok (1, tarindex, target)
  else if state =? 1 then
    if zlen target <=? u32 (tarindex + 1) then Err (-1)
    else
      let? target := or_at target tarindex (Z.shiftr v 4) in
      let? target := rdefined (mem_write target (u32 (tarindex + 1)) [u8 (Z.shiftl (Z.land v 0x0f) 4)]) in
      Ok (2, u32 (tarindex + 1), target)
  else if state =? 2 then
    if zlen target <=? u32 (tarindex + 1) then Err (-1)
    else
      let? target := or_at target tarindex (Z.shiftr v 2) in
      let? target := rdefined (mem_write target (u32 (tarindex + 1)) [u8 (Z.shiftl (Z.land v 0x03) 6)]) in
      Ok (3, u32 (tarindex + 1), target)
  else
    if zlen target <=? tarindex then Err (-1)
    else
      let? target := or_at target tarindex v in
      Ok (0, u32 (tarindex + 1), target).

(** The loop over the characters; the last component of the result is what
    follows the pad character that ended it, [None] at the end of the string. *)
Fixpoint pton_loop (src : list Z) (state tarindex : Z) (target : list Z)
    : res (Z * Z * list Z * option (list Z)) :=
  match src with
  | [] => Ok (state, tarindex, target, None)
  | c :: src =>
      if isspace c then pton_loop src state tarindex target
      else if c =? Pad64 then Ok (state, tarindex, target, Some src)
      else
        match strchr Base64 c with
        | None => Err (-1)
        | Some pos =>
            let? r := pton_step (Z.of_nat pos) state tarindex target in
            let '(state, tarindex, target) := r in
            pton_loop src state tarindex target
        end
  end.

(** After the loop: the padding, the trailing characters, the spare bits. *)
Definition pton_finish (r : Z * Z * list Z * option (list Z)) : res (Z * list Z) :=
  let '(state, tarindex, target, pad) := r in
  match pad with
  | Some src =>
      if (state =? 0) || (state =? 1) then Err (-1)
      else
        let? src :=
          if state =? 2 then
            match skip_space src with
            | c :: src => if c =? Pad64 then Ok src else Err (-1)
            | [] => Err (-1)
            end
          else Ok src in
        match skip_space src with
        | _ :: _ => Err (-1)
        | [] =>
            let? l := rdefined (mem_read target tarindex 1) in
            if negb (default 0 (l !! 0%nat) =? 0) then Err (-1) else Ok (tarindex, target)
        end
  | None => if negb (state =? 0) then Err (-1) else Ok (tarindex, target)
  end.

(** [target] is not NULL, as in every call of the sources; [targsize] is its
    size. *)
Definition b64_pton (src target : list Z) : res (Z * list Z) :=
  let? r := pton_loop src 0 0 target in pton_finish r.

(** ** The reference encoding *)

Definition b64d (i : Z) : Z := default 0 (base64_at i).

Fixpoint b64_enc (v : list Z) : list Z :=
  match v with
  | a :: b :: c :: v =>
      [b64d (a / 4); b64d (a mod 4 * 16 + b / 16); b64d (b mod 16 * 4 + c / 64); b64d (c mod 64)]
      ++ b64_enc v
  | [a; b] => [b64d (a / 4); b64d (a mod 4 * 16 + b / 16); b64d (b mod 16 * 4); Pad64]
  | [a] => [b64d (a / 4); b64d (a mod 4 * 16); Pad64; Pad64]
  | [] => []
  end.

(** The characters that are not white space. *)
Definition strip (s : list Z) : list Z := filter (fun c => isspace c = false) s.

(** ** Digits *)

Lemma list_ind3 {A} (P : list A -> Prop) :
  P [] -> (forall a, P [a]) -> (forall a b, P [a; b]) ->
  (forall a b c l, P l -> P (a :: b :: c :: l)) -> forall l, P l.
Proof.
  intros H0 H1 H2 H3 l. assert (P l /\ (forall a, P (a :: l)) /\ forall a b, P (a :: b :: l)) as [? _];
    [|done].
  induction l as [|c l (IH & IH1 & IH2)]; [done|]. split_and!; auto.
Qed.

Definition digit_good (i : Z) : bool :=
  bool_decide (base64_at i = Some (b64d i)) && bool_decide (strchr Base64 (b64d i) = Some (Z.to_nat i))
  && negb (isspace (b64d i)) && negb (b64d i =? Pad64) && (0 <=? b64d i) && (b64d i <? 128)
  && negb (b64d i =? 0).

Lemma digit_ok i : 0 <= i < 64 ->
  base64_at i = Some (b64d i) /\ strchr Base64 (b64d i) = Some (Z.to_nat i) /\
  isspace (b64d i) = false /\ (b64d i =? Pad64) = false /\ 0 < b64d i < 128.
Proof.
  intros Hi. assert (forallb digit_good (Z.of_nat <$> seq 0 64) = true) as H by (vm_compute; done).
  rewrite forallb_forall in H. specialize (H i).
  assert (digit_good i = true) as D.
  { apply H. apply list_elem_of_In, list_elem_of_fmap. exists (Z.to_nat i).
    split; [lia | apply elem_of_seq; lia]. }
  unfold digit_good in D. zbool. split_and!; try done; try lia; by eapply bool_decide_unpack, bool_decide_pack, bool_decide_eq_true_1.
Qed.

Lemma strchr_lookup s c p : strchr s c = Some p -> s !! p = Some c.
Proof.
  revert p. induction s as [|x s IH]; intros p; simpl; [done|].
  destruct (Z.eqb_spec x c) as [->|]; [by intros [= <-]|].
  destruct (strchr s c); simpl; [|done]. intros [= <-]. by apply IH.
Qed.

Lemma strchr_digit c p :
  strchr Base64 c = Some p -> 0 <= Z.of_nat p < 64 /\ b64d (Z.of_nat p) = c.
Proof.
  intros H. apply strchr_lookup in H. pose proof (lookup_lt_Some _ _ _ H) as Hl.
  change (length Base64) with 64%nat in Hl. split; [lia|].
  unfold b64d, base64_at. rewrite Nat2Z.id. by rewrite H.
Qed.

(** ** The encoder *)

(** A write at the end of what has been written. *)
Lemma mem_write_at pre rest v :
  zlen v <= zlen rest ->
  mem_write (pre ++ rest) (zlen pre) v = Some ((pre ++ v) ++ zdrop (zlen v) rest).
Proof.
  intros H. pose proof (zlen_nonneg pre). rewrite mem_write_some by zl.
  rewrite ztake_app_le, ztake_all by lia.
  rewrite zdrop_app_ge by (pose proof (zlen_nonneg v); lia).
  rewrite <- app_assoc. do 4 f_equal. lia.
Qed.

Lemma split3 a b c :
  is_byte a -> is_byte b -> is_byte c ->
  Z.shiftr a 2 = a / 4 /\
  u8 (Z.shiftl (Z.land a 0x03) 4 + Z.shiftr b 4) = a mod 4 * 16 + b / 16 /\
  u8 (Z.shiftl (Z.land b 0x0f) 2 + Z.shiftr c 6) = b mod 16 * 4 + c / 64 /\
  Z.land c 0x3f = c mod 64.
Proof.
  unfold is_byte. intros. rewrite !Z.shiftr_div_pow2, !Z.shiftl_mul_pow2 by lia.
  change 0x03 with (Z.ones 2). change 0x0f with (Z.ones 4). change 0x3f with (Z.ones 6).
  rewrite !Z.land_ones by lia. unfold u8. split_and!; try done;
    (rewrite Z.mod_small; [done|]); Z.to_euclidean_division_equations; lia.
Qed.

Lemma group_digits a b c :
  is_byte a -> is_byte b -> is_byte c ->
  0 <= a / 4 < 64 /\ 0 <= a mod 4 * 16 + b / 16 < 64 /\
  0 <= b mod 16 * 4 + c / 64 < 64 /\ 0 <= c mod 64 < 64.
Proof. unfold is_byte. intros. Z.to_euclidean_division_equations. lia. Qed.

Lemma byte_0 : is_byte 0.
Proof. unfold is_byte. lia. Qed.

Lemma b64_enc_len v : zlen (b64_enc v) = (zlen v + 2) / 3 * 4.
Proof.
  induction v using list_ind3; try done. cbn [b64_enc]. rewrite zlen_app, IHv.
  rewrite !zlen_cons, zlen_nil. replace (zlen v + 1 + 1 + 1 + 2) with (zlen v + 2 + 1 * 3) by lia.
  rewrite Z.div_add by lia. lia.
Qed.

Lemma ntop_tail_enc v pre rest :
  Forall is_byte v -> zlen v <= 2 -> zlen pre + zlen rest < 2 ^ 63 ->
  b64_ntop_tail v (zlen pre) (pre ++ rest) =
  if zlen rest <? zlen (b64_enc v) then Err (-1)
  else Ok (zlen pre + zlen (b64_enc v), (pre ++ b64_enc v) ++ zdrop (zlen (b64_enc v)) rest).
Proof.
  pose proof byte_0 as B0. intros Hv H2 Hl. pose proof (zlen_nonneg pre). pose proof (zlen_nonneg rest).
  destruct v as [|a [|b [|c v]]];
    [| | | exfalso; rewrite !zlen_cons in H2; pose proof (zlen_nonneg v); lia].
  { unfold b64_ntop_tail. simpl. rewrite zlen_nil, Z.add_0_r, zdrop_0, app_nil_r by lia.
    by destruct (Z.ltb_spec (zlen rest) 0); [lia|]. }
  all: repeat match goal with H : Forall _ (_ :: _) |- _ => inversion H; subst; clear H end;
    unfold b64_ntop_tail; cbv zeta; cbn [lookup list_lookup from_option id].
  - destruct (split3 a 0 0) as (-> & -> & _ & _); [done..|].
    destruct (group_digits a 0 0) as (D0 & D1 & _); [done..|].
    change (0 / 16) with 0 in *. rewrite Z.add_0_r in *. rewrite u64_small, zlen_app by lia.
    change (zlen (b64_enc [a])) with 4. cbn [rbind].
    rewrite (proj1 (digit_ok _ D0)), (proj1 (digit_ok _ D1)).
    destruct (Z.ltb_spec (zlen pre + zlen rest) (zlen pre + 4)), (Z.ltb_spec (zlen rest) 4); try lia; [done|].
    change (zlen [a] =? 0) with false. change (zlen [a] =? 1) with true. cbn [rdefined rbind].
    by rewrite mem_write_at by zl.
  - destruct (split3 a b 0) as (-> & -> & -> & _); [done..|].
    destruct (group_digits a b 0) as (D0 & D1 & D2 & _); [done..|].
    change (0 / 64) with 0 in *. rewrite Z.add_0_r in *. rewrite u64_small, zlen_app by lia.
    change (zlen (b64_enc [a; b])) with 4. cbn [rbind].
    rewrite (proj1 (digit_ok _ D0)), (proj1 (digit_ok _ D1)), (proj1 (digit_ok _ D2)).
    destruct (Z.ltb_spec (zlen pre + zlen rest) (zlen pre + 4)), (Z.ltb_spec (zlen rest) 4); try lia; [done|].
    change (zlen [a; b] =? 0) with false. change (zlen [a; b] =? 1) with false. cbn [rdefined rbind].
    by rewrite mem_write_at by zl.
Qed.

Lemma ntop_from v pre rest :
  Forall is_byte v -> zlen pre + zlen rest < 2 ^ 63 ->
  (let? r := b64_ntop_loop v (zlen pre) (pre ++ rest) in
   let '(src, datalength, target) := r in b64_ntop_tail src datalength target) =
  if zlen rest <? zlen (b64_enc v) then Err (-1)
  else Ok (zlen pre + zlen (b64_enc v), (pre ++ b64_enc v) ++ zdrop (zlen (b64_enc v)) rest).
Proof.
  revert pre rest. induction v as [|a|a b|a b c v IH] using list_ind3; intros pre rest Hv Hl;
    [apply ntop_tail_enc; done..|].
  pose proof (zlen_nonneg pre). pose proof (zlen_nonneg rest).
  apply Forall_cons in Hv as [Ha Hv]. apply Forall_cons in Hv as [Hb Hv]. apply Forall_cons in Hv as [Hc Hv].
  cbn [b64_ntop_loop b64_enc]. unfold ntop_group.
  destruct (split3 a b c) as (-> & -> & -> & ->); [done..|].
  destruct (group_digits a b c) as (D0 & D1 & D2 & D3); [done..|].
  rewrite u64_small, zlen_app by lia.
  set (g := [b64d (a / 4); b64d (a mod 4 * 16 + b / 16); b64d (b mod 16 * 4 + c / 64); b64d (c mod 64)]).
  assert (mapM base64_at [a / 4; a mod 4 * 16 + b / 16; b mod 16 * 4 + c / 64; c mod 64] = Some g) as ->.
  { cbn [mapM]. by rewrite (proj1 (digit_ok _ D0)), (proj1 (digit_ok _ D1)),
      (proj1 (digit_ok _ D2)), (proj1 (digit_ok _ D3)). }
  assert (zlen g = 4) as Hg by done. clearbody g. pose proof (zlen_nonneg (b64_enc v)).
  rewrite zlen_app, Hg.
  destruct (Z.ltb_spec (zlen pre + zlen rest) (zlen pre + 4)).
  { destruct (Z.ltb_spec (zlen rest) (4 + zlen (b64_enc v))); [done | lia]. }
  cbn [rdefined rbind]. rewrite mem_write_at by lia. cbn [rdefined rbind].
  replace (zlen pre + 4) with (zlen (pre ++ g)) by zl.
  rewrite IH by (done || zl). rewrite Hg, zlen_drop, zlen_app, Hg.
  rewrite zdrop_zdrop by lia. rewrite <- !app_assoc.
  destruct (Z.ltb_spec (Z.max 0 (zlen rest - Z.max 4 0)) (zlen (b64_enc v)));
    destruct (Z.ltb_spec (zlen rest) (4 + zlen (b64_enc v))); try lia; [done|].
  do 2 f_equal. lia.
Qed.

(** [b64_ntop] stores the reference encoding and a NUL, or fails when they do
    not fit. *)
Lemma b64_ntop_spec v target :
  Forall is_byte v -> zlen target < 2 ^ 63 ->
  b64_ntop v target =
  if zlen target <=? zlen (b64_enc v) then Err (-1)
  else Ok (zlen (b64_enc v), b64_enc v ++ [0] ++ zdrop (zlen (b64_enc v) + 1) target).
Proof.
  intros Hv Hl. unfold b64_ntop.
  pose proof (ntop_from v [] target Hv) as F. rewrite zlen_nil in F. specialize (F ltac:(lia)).
  cbn [app] in F. pose proof (zlen_nonneg (b64_enc v)). pose proof (zlen_nonneg target).
  destruct (b64_ntop_loop v 0 target) as [[[s d] t]|e|]; cbn [rbind] in *.
  - rewrite F. destruct (Z.ltb_spec (zlen target) (zlen (b64_enc v))); cbn [rbind].
    { by destruct (Z.leb_spec (zlen target) (zlen (b64_enc v))); [|lia]. }
    rewrite Z.add_0_l, zlen_app, zlen_drop.
    destruct (Z.leb_spec (zlen target) (zlen (b64_enc v))) as [L|L].
    { by destruct (Z.leb_spec (zlen (b64_enc v) + Z.max 0 (zlen target - Z.max (zlen (b64_enc v)) 0)) (zlen (b64_enc v))); [|lia]. }
    destruct (Z.leb_spec (zlen (b64_enc v) + Z.max 0 (zlen target - Z.max (zlen (b64_enc v)) 0)) (zlen (b64_enc v))); [lia|].
    rewrite mem_write_at by zl. cbn [rdefined rbind]. rewrite <- app_assoc, zdrop_zdrop by (zl || done). done.
  - destruct (Z.ltb_spec (zlen target) (zlen (b64_enc v))); [|done].
    injection F as ->. by destruct (Z.leb_spec (zlen target) (zlen (b64_enc v))); [|lia].
  - by destruct (_ <? _).
Qed.

(** ** The decoder *)

Lemma or_at_spec pre x rest v :
  or_at (pre ++ x :: rest) (zlen pre) v = Ok (pre ++ u8 (Z.lor x v) :: rest).
Proof.
  unfold or_at. pose proof (zlen_nonneg pre). pose proof (zlen_nonneg rest).
  rewrite mem_read_some by zl. rewrite zdrop_app_ge, Z.sub_diag, zdrop_0 by lia.
  cbn [rdefined rbind]. rewrite mem_write_at by zl. rewrite <- app_assoc. done.
Qed.

Lemma lor_byte x y k : 0 <= k <= 8 -> 0 <= y < 2 ^ k -> x mod 2 ^ k = 0 -> is_byte x -> u8 (Z.lor x y) = x + y.
Proof.
  unfold is_byte. intros Hk Hy Hx Hb. rewrite (lor_low x y k) by lia. apply u8_small.
  pose proof (Z.pow_pos_nonneg 2 k ltac:(lia) ltac:(lia)). assert (x <= 256 - 2 ^ k); [|lia].
  assert (2 ^ k * 2 ^ (8 - k) = 256) as E by (rewrite <- Z.pow_add_r by lia; by replace (k + (8 - k)) with 8 by lia).
  pose proof (Z.div_mod x (2 ^ k) ltac:(lia)) as D.
  assert (x / 2 ^ k < 2 ^ (8 - k)) by (apply Z.div_lt_upper_bound; lia). nia.
Qed.

Section Steps.
Context (pre rest : list Z).
Hypothesis Hsmall : zlen pre + zlen rest < 2 ^ 31.

Lemma step0 v x : 0 <= v < 64 ->
  pton_step v 0 (zlen pre) (pre ++ x :: rest) = Ok (1, zlen pre, pre ++ v * 4 :: rest).
Proof.
  intros Hv. unfold pton_step. simpl. pose proof (zlen_nonneg pre). pose proof (zlen_nonneg rest).
  destruct (Z.leb_spec (zlen (pre ++ x :: rest)) (zlen pre)); [zl|].
  rewrite mem_write_at by zl. cbn [rdefined rbind]. rewrite Z.shiftl_mul_pow2 by lia.
  rewrite u8_small by lia. rewrite <- app_assoc. done.
Qed.

Lemma step1 v p x : 0 <= v < 64 -> is_byte p -> p mod 4 = 0 ->
  pton_step v 1 (zlen pre) (pre ++ p :: x :: rest)
  = Ok (2, zlen (pre ++ [p + v / 16]), (pre ++ [p + v / 16]) ++ v mod 16 * 16 :: rest).
Proof.
  intros Hv Hp Hm. unfold pton_step. simpl. pose proof (zlen_nonneg pre). pose proof (zlen_nonneg rest).
  rewrite u32_small by lia.
  destruct (Z.leb_spec (zlen (pre ++ p :: x :: rest)) (zlen pre + 1)); [zl|].
  rewrite or_at_spec. cbn [rbind]. rewrite Z.shiftr_div_pow2 by lia. change (2 ^ 4) with 16.
  rewrite (lor_byte p (v / 16) 2) by (done || lia || (Z.to_euclidean_division_equations; lia)).
  replace (zlen pre + 1) with (zlen (pre ++ [p + v / 16])) by zl.
  rewrite (cons_middle _ pre), app_assoc, mem_write_at by zl. cbn [rdefined rbind].
  change 0x0f with (Z.ones 4). rewrite Z.land_ones, Z.shiftl_mul_pow2 by lia. change (2 ^ 4) with 16.
  rewrite u8_small by (Z.to_euclidean_division_equations; lia). rewrite <- (app_assoc _ [_]). done.
Qed.

Lemma step2 v p x : 0 <= v < 64 -> is_byte p -> p mod 16 = 0 ->
  pton_step v 2 (zlen pre) (pre ++ p :: x :: rest)
  = Ok (3, zlen (pre ++ [p + v / 4]), (pre ++ [p + v / 4]) ++ v mod 4 * 64 :: rest).
Proof.
  intros Hv Hp Hm. unfold pton_step. simpl. pose proof (zlen_nonneg pre). pose proof (zlen_nonneg rest).
  rewrite u32_small by lia.
  destruct (Z.leb_spec (zlen (pre ++ p :: x :: rest)) (zlen pre + 1)); [zl|].
  rewrite or_at_spec. cbn [rbind]. rewrite Z.shiftr_div_pow2 by lia. change (2 ^ 2) with 4.
  rewrite (lor_byte p (v / 4) 4) by (done || lia || (Z.to_euclidean_division_equations; lia)).
  replace (zlen pre + 1) with (zlen (pre ++ [p + v / 4])) by zl.
  rewrite (cons_middle _ pre), app_assoc, mem_write_at by zl. cbn [rdefined rbind].
  change 0x03 with (Z.ones 2). rewrite Z.land_ones, Z.shiftl_mul_pow2 by lia. change (2 ^ 2) with 4.
  change (2 ^ 6) with 64.
  rewrite u8_small by (Z.to_euclidean_division_equations; lia). rewrite <- (app_assoc _ [_]). done.
Qed.

Lemma step3 v p : 0 <= v < 64 -> is_byte p -> p mod 64 = 0 ->
  pton_step v 3 (zlen pre) (pre ++ p :: rest) = Ok (0, zlen (pre ++ [p + v]), (pre ++ [p + v]) ++ rest).
Proof.
  intros Hv Hp Hm. unfold pton_step. simpl. pose proof (zlen_nonneg pre). pose proof (zlen_nonneg rest).
  rewrite u32_small by lia.
  destruct (Z.leb_spec (zlen (pre ++ p :: rest)) (zlen pre)); [zl|].
  rewrite or_at_spec. cbn [rbind]. rewrite (lor_byte p v 6) by (done || lia).
  rewrite <- app_assoc. do 3 f_equal. zl.
Qed.
End Steps.

(** White space is ignored. *)
Lemma strip_cons c s : strip (c :: s) = if isspace c then strip s else c :: strip s.
Proof. unfold strip. rewrite filter_cons. by destruct (isspace c). Qed.

Lemma skip_space_strip s :
  match skip_space s with
  | [] => strip s = []
  | c :: s' => isspace c = false /\ strip s = c :: strip s'
  end.
Proof.
  induction s as [|c s IH]; [done|]. rewrite strip_cons. simpl.
  destruct (isspace c) eqn:E; [exact IH | done].
Qed.

Lemma strip_nonspace s : Forall (fun c => isspace c = false) (strip s).
Proof. apply Forall_forall. intros c Hc. by apply list_elem_of_filter in Hc as [? _]. Qed.

Lemma skip_nonspace s : Forall (fun c => isspace c = false) s -> skip_space s = s.
Proof. intros []; simpl; [done|]. by rewrite H. Qed.

Lemma pton_loop_strip s st i t :
  pton_loop (strip s) st i t =
  (let? r := pton_loop s st i t in let '(st, i, t, d) := r in Ok (st, i, t, strip <$> d)).
Proof.
  revert st i t. induction s as [|c s IH]; intros st i t; [done|]. rewrite strip_cons. cbn [pton_loop].
  destruct (isspace c) eqn:E; [apply IH|]. cbn [pton_loop]. rewrite E.
  destruct (c =? Pad64); [done|]. destruct (strchr Base64 c); [|done].
  destruct (pton_step _ _ _ _) as [[[??]?]|?|]; cbn [rbind]; [apply IH | done..].
Qed.

Lemma pton_finish_strip st i t d : pton_finish (st, i, t, strip <$> d) = pton_finish (st, i, t, d).
Proof.
  destruct d as [s|]; [|done]. cbn [pton_finish fmap option_fmap option_map].
  destruct (_ || _); [done|]. rewrite (skip_nonspace _ (strip_nonspace s)).
  pose proof (skip_space_strip s) as K. destruct (st =? 2).
  - destruct (skip_space s) as [|c s']; [by rewrite K|]. destruct K as [_ ->].
    destruct (c =? Pad64); [|done]. cbn [rbind]. rewrite (skip_nonspace _ (strip_nonspace s')).
    pose proof (skip_space_strip s') as K. destruct (skip_space s'); [by rewrite K|].
    by destruct K as [_ ->].
  - cbn [rbind]. rewrite (skip_nonspace _ (strip_nonspace s)).
    destruct (skip_space s); [by rewrite K|]. by destruct K as [_ ->].
Qed.

Lemma b64_pton_strip s t : b64_pton (strip s) t = b64_pton s t.
Proof.
  unfold b64_pton. rewrite pton_loop_strip.
  destruct (pton_loop s 0 0 t) as [[[[??]?]?]|?|]; cbn [rbind]; [apply pton_finish_strip | done..].
Qed.

(** One character that is not white space. *)
Inductive char_case (c : Z) (s : list Z) (st i : Z) (t : list Z) :
    res (Z * Z * list Z * option (list Z)) -> Prop :=
| cc_pad : c = Pad64 -> char_case c s st i t (Ok (st, i, t, Some s))
| cc_bad : char_case c s st i t (Err (-1))
| cc_digit v : 0 <= v < 64 -> c = b64d v ->
    char_case c s st i t
      (let? r := pton_step v st i t in let '(st, i, t) := r in pton_loop s st i t).

Lemma pton_char c s st i t :
  isspace c = false -> char_case c s st i t (pton_loop (c :: s) st i t).
Proof.
  intros E. cbn [pton_loop]. rewrite E. destruct (Z.eqb_spec c Pad64); [by constructor|].
  destruct (strchr Base64 c) as [p|] eqn:Hp; [|constructor].
  apply strchr_digit in Hp as [? <-]. by constructor.
Qed.

Lemma pton_digit v s st i t :
  0 <= v < 64 -> pton_loop (b64d v :: s) st i t =
  (let? r := pton_step v st i t in let '(st, i, t) := r in pton_loop s st i t).
Proof.
  intros Hv. destruct (digit_ok v Hv) as (_ & E & S & P & _). cbn [pton_loop].
  rewrite S, P, E. by rewrite Z2Nat.id by lia.
Qed.

(** The bits left over in the block. *)
Lemma spare_bits pre x rest :
  (let? l := rdefined (mem_read (pre ++ x :: rest) (zlen pre) 1) in
   if negb (default 0 (l !! 0%nat) =? 0) then Err (-1) else Ok (zlen pre, pre ++ x :: rest))
  = if x =? 0 then Ok (zlen pre, pre ++ x :: rest) else Err (-1).
Proof.
  pose proof (zlen_nonneg pre). pose proof (zlen_nonneg rest). rewrite mem_read_some by zl.
  rewrite zdrop_app_ge, Z.sub_diag, zdrop_0 by lia. simpl. by destruct (x =? 0).
Qed.

Lemma finish_two pre x rest :
  pton_finish (2, zlen pre, pre ++ x :: rest, Some [Pad64])
  = if x =? 0 then Ok (zlen pre, pre ++ x :: rest) else Err (-1).
Proof. apply spare_bits. Qed.

Lemma finish_one pre x rest :
  pton_finish (3, zlen pre, pre ++ x :: rest, Some [])
  = if x =? 0 then Ok (zlen pre, pre ++ x :: rest) else Err (-1).
Proof. apply spare_bits. Qed.

(** What the decoder may answer on [s], with [pre] already stored. *)
Definition pton_sound (s pre : list Z) (r : res (Z * list Z)) : Prop :=
  match r with
  | Ok (n, t) => exists v tl, Forall is_byte v /\ s = b64_enc v /\ n = zlen pre + zlen v /\ t = pre ++ v ++ tl
  | Err e => e = -1
  | Crash => False
  end.

Lemma pton_sound_group a b c s pre r :
  is_byte a -> is_byte b -> is_byte c ->
  pton_sound s (pre ++ [a; b; c]) r ->
  pton_sound (b64d (a / 4) :: b64d (a mod 4 * 16 + b / 16) :: b64d (b mod 16 * 4 + c / 64)
              :: b64d (c mod 64) :: s) pre r.
Proof.
  intros Ha Hb Hc. destruct r as [[n t]|e|]; try done. intros (v & tl & Hv & -> & -> & ->).
  exists (a :: b :: c :: v), tl. split_and!; [by repeat (apply Forall_cons_2; [done|]) | done | zl | by rewrite <- app_assoc].
Qed.

(** Three bytes from four digits, and the digits back. *)
Lemma group_bytes v0 v1 v2 v3 :
  0 <= v0 < 64 -> 0 <= v1 < 64 -> 0 <= v2 < 64 -> 0 <= v3 < 64 ->
  let a := v0 * 4 + v1 / 16 in let b := v1 mod 16 * 16 + v2 / 4 in let c := v2 mod 4 * 64 + v3 in
  is_byte a /\ is_byte b /\ is_byte c /\
  a / 4 = v0 /\ a mod 4 * 16 + b / 16 = v1 /\ b mod 16 * 4 + c / 64 = v2 /\ c mod 64 = v3.
Proof. intros. unfold is_byte, a, b, c. Z.to_euclidean_division_equations. lia. Qed.

Lemma partial_byte v m k : 0 < m -> 0 < k -> m * k = 256 ->
  is_byte (v mod m * k) /\ (v mod m * k) mod k = 0.
Proof.
  intros Hm Hk E. pose proof (Z.mod_pos_bound v m Hm). unfold is_byte.
  split; [nia | by rewrite Z.mod_mul by lia].
Qed.

Definition pton_run (s pre rest : list Z) : res (Z * list Z) :=
  let? r := pton_loop s 0 (zlen pre) (pre ++ rest) in pton_finish r.

(** The two ways to end with padding. *)
Lemma pton_pad2 v0 v1 s pre rest :
  0 <= v0 < 64 -> 0 <= v1 < 64 -> Forall (fun c => isspace c = false) s ->
  let pa := pre ++ [v0 * 4 + v1 / 16] in
  pton_sound (b64d v0 :: b64d v1 :: Pad64 :: s) pre
    (pton_finish (2, zlen pa, pa ++ v1 mod 16 * 16 :: rest, Some s)).
Proof.
  intros V0 V1 Hs pa. unfold pton_finish. simpl (_ || _). rewrite skip_nonspace by done. simpl (2 =? 2).
  destruct s as [|c s]; [done|]. apply Forall_cons in Hs as [_ Hs].
  destruct (Z.eqb_spec c Pad64) as [->|]; [|done]. cbn [rbind]. rewrite skip_nonspace by done.
  destruct s; [|done]. rewrite spare_bits. destruct (Z.eqb_spec (v1 mod 16 * 16) 0) as [E|]; [|done].
  assert (v1 mod 16 = 0) as E1 by lia.
  exists [v0 * 4 + v1 / 16], (v1 mod 16 * 16 :: rest). split_and!.
  - apply Forall_cons_2; [|done]. unfold is_byte. Z.to_euclidean_division_equations. lia.
  - cbn [b64_enc]. do 2 f_equal; [|do 2 f_equal]; Z.to_euclidean_division_equations; lia.
  - unfold pa. zl.
  - unfold pa. by rewrite <- app_assoc.
Qed.

Lemma pton_pad3 v0 v1 v2 s pre rest :
  0 <= v0 < 64 -> 0 <= v1 < 64 -> 0 <= v2 < 64 -> Forall (fun c => isspace c = false) s ->
  let pb := (pre ++ [v0 * 4 + v1 / 16]) ++ [v1 mod 16 * 16 + v2 / 4] in
  pton_sound (b64d v0 :: b64d v1 :: b64d v2 :: Pad64 :: s) pre
    (pton_finish (3, zlen pb, pb ++ v2 mod 4 * 64 :: rest, Some s)).
Proof.
  intros V0 V1 V2 Hs pb. unfold pton_finish. simpl (_ || _). simpl (3 =? 2). cbn [rbind].
  rewrite skip_nonspace by done. destruct s; [|done]. rewrite spare_bits.
  destruct (Z.eqb_spec (v2 mod 4 * 64) 0) as [E|]; [|done].
  assert (v2 mod 4 = 0) as E2 by lia.
  destruct (group_bytes v0 v1 v2 0) as (Ba & Bb & _ & E0 & E1 & E3 & _); [lia..|].
  exists [v0 * 4 + v1 / 16; v1 mod 16 * 16 + v2 / 4], (v2 mod 4 * 64 :: rest). split_and!.
  - by repeat (apply Forall_cons_2; [done|]).
  - cbn [b64_enc]. rewrite E0, E1. rewrite E2 in E3. simpl in E3. rewrite Z.add_0_r in E3. by rewrite E3.
  - unfold pb. zl.
  - unfold pb. by rewrite <- !app_assoc.
Qed.

Lemma pton_run_sound s pre rest :
  Forall (fun c => isspace c = false) s -> zlen s <= zlen rest -> zlen pre + zlen rest < 2 ^ 31 ->
  pton_sound s pre (pton_run s pre rest).
Proof.
  remember (length s) as n eqn:En. revert s En pre rest.
  induction n as [n IH] using lt_wf_ind; intros s -> pre rest Hs Hl Hsm. unfold pton_run.
  destruct s as [|c0 s]; [exists [], rest; by rewrite zlen_nil, Z.add_0_r|].
  apply Forall_cons in Hs as [Hc0 Hs]. rewrite zlen_cons in Hl. pose proof (zlen_nonneg s).
  destruct rest as [|x0 rest]; [rewrite zlen_nil in Hl; lia|]. rewrite zlen_cons in *.
  destruct (pton_char c0 s 0 (zlen pre) (pre ++ x0 :: rest) Hc0) as [| |v0 V0 ->]; [done..|].
  rewrite step0 by (done || lia). cbn [rbind].
  destruct s as [|c1 s]; [done|]. apply Forall_cons in Hs as [Hc1 Hs]. rewrite zlen_cons in *.
  pose proof (zlen_nonneg s). destruct rest as [|x1 rest]; [rewrite zlen_nil in Hl; lia|]. rewrite zlen_cons in *.
  destruct (pton_char c1 s 1 (zlen pre) (pre ++ v0 * 4 :: x1 :: rest) Hc1) as [| |v1 V1 ->]; [done..|].
  destruct (partial_byte v0 64 4) as [B0 M0]; [lia..|]. rewrite (Z.mod_small v0 64) in B0, M0 by lia.
  rewrite step1 by (done || lia). cbn [rbind].
  destruct (partial_byte v1 16 16) as [B1 M1]; [lia..|].
  destruct s as [|c2 s]; [done|]. apply Forall_cons in Hs as [Hc2 Hs]. rewrite zlen_cons in *.
  pose proof (zlen_nonneg s). destruct rest as [|x2 rest]; [rewrite zlen_nil in Hl; lia|]. rewrite zlen_cons in *.
  set (a := v0 * 4 + v1 / 16). set (pa := pre ++ [a]).
  destruct (pton_char c2 s 2 (zlen pa) (pa ++ v1 mod 16 * 16 :: x2 :: rest) Hc2) as [-> | |v2 V2 ->];
    [by apply pton_pad2 | done |].
  rewrite step2 by (done || (unfold pa; zl)). cbn [rbind].
  destruct (partial_byte v2 4 64) as [B2 M2]; [lia..|].
  destruct s as [|c3 s]; [done|]. apply Forall_cons in Hs as [Hc3 Hs]. rewrite zlen_cons in *.
  set (b := v1 mod 16 * 16 + v2 / 4). set (pb := pa ++ [b]).
  destruct (pton_char c3 s 3 (zlen pb) (pb ++ v2 mod 4 * 64 :: rest) Hc3) as [-> | |v3 V3 ->];
    [by apply pton_pad3 | done |].
  rewrite step3 by (done || (unfold pb, pa; zl)). cbn [rbind].
  destruct (group_bytes v0 v1 v2 v3) as (Ba & Bb & Bc & E0 & E1 & E2 & E3); [done..|].
  fold a b in E0, E1, E2, E3.
  assert (b64d v0 :: b64d v1 :: b64d v2 :: b64d v3 :: s = b64d (a / 4) :: b64d (a mod 4 * 16 + b / 16)
    :: b64d (b mod 16 * 4 + (v2 mod 4 * 64 + v3) / 64) :: b64d ((v2 mod 4 * 64 + v3) mod 64) :: s) as ->
    by (by rewrite E0, E1, E2, E3).
  apply pton_sound_group; [done..|].
  replace (pb ++ [v2 mod 4 * 64 + v3]) with (pre ++ [a; b; v2 mod 4 * 64 + v3])
    by (unfold pb, pa; by rewrite <- !app_assoc).
  apply (IH (length s)); [simpl; lia | done | done | lia | zl].
Qed.

(** Two and three digits from the initial state. *)
Lemma two_digits d0 d1 s pre x0 x1 rest :
  0 <= d0 < 64 -> 0 <= d1 < 64 -> zlen pre + zlen rest + 2 < 2 ^ 31 ->
  let pa := pre ++ [d0 * 4 + d1 / 16] in
  pton_loop (b64d d0 :: b64d d1 :: s) 0 (zlen pre) (pre ++ x0 :: x1 :: rest)
  = pton_loop s 2 (zlen pa) (pa ++ d1 mod 16 * 16 :: rest).
Proof.
  intros D0 D1 Hl pa. destruct (partial_byte d0 64 4) as [B M]; [lia..|].
  rewrite (Z.mod_small d0 64) in B, M by lia.
  rewrite pton_digit, step0 by (done || zl). cbn [rbind].
  by rewrite pton_digit, step1 by (done || zl).
Qed.

Lemma three_digits d0 d1 d2 s pre x0 x1 x2 rest :
  0 <= d0 < 64 -> 0 <= d1 < 64 -> 0 <= d2 < 64 -> zlen pre + zlen rest + 3 < 2 ^ 31 ->
  let pb := (pre ++ [d0 * 4 + d1 / 16]) ++ [d1 mod 16 * 16 + d2 / 4] in
  pton_loop (b64d d0 :: b64d d1 :: b64d d2 :: s) 0 (zlen pre) (pre ++ x0 :: x1 :: x2 :: rest)
  = pton_loop s 3 (zlen pb) (pb ++ d2 mod 4 * 64 :: rest).
Proof.
  intros D0 D1 D2 Hl pb. destruct (partial_byte d1 16 16) as [B M]; [lia..|].
  rewrite two_digits by (done || zl). cbv zeta. by rewrite pton_digit, step2 by (done || zl).
Qed.

(** Four digits made from three bytes. *)
Lemma digits_group a b c :
  is_byte a -> is_byte b -> is_byte c ->
  let d1 := a mod 4 * 16 + b / 16 in let d2 := b mod 16 * 4 + c / 64 in
  a / 4 * 4 + d1 / 16 = a /\ d1 mod 16 * 16 + d2 / 4 = b /\ d2 mod 4 * 64 + c mod 64 = c.
Proof. unfold is_byte. intros. cbv zeta. Z.to_euclidean_division_equations. lia. Qed.

(** Every encoding is accepted. *)
Lemma pton_run_enc v pre rest :
  Forall is_byte v -> zlen (b64_enc v) <= zlen rest -> zlen pre + zlen rest < 2 ^ 31 ->
  exists tl, pton_run (b64_enc v) pre rest = Ok (zlen pre + zlen v, pre ++ v ++ tl).
Proof.
  revert pre rest. induction v as [|a|a b|a b c v IH] using list_ind3; intros pre rest Hv Hl Hsm.
  { exists rest. unfold pton_run. simpl. by rewrite zlen_nil, Z.add_0_r. }
  all: rewrite ?Forall_cons in Hv; destruct_and! Hv; pose proof byte_0.
  all: cbn [b64_enc] in Hl; rewrite ?zlen_app, ?zlen_cons, ?zlen_nil in Hl;
    try pose proof (zlen_nonneg (b64_enc v)).
  all: destruct rest as [|x0 [|x1 [|x2 rest]]]; rewrite ?zlen_cons, ?zlen_nil in *; try lia.
  all: unfold pton_run; cbn [b64_enc app].
  - destruct (group_digits a 0 0) as (D0 & D1 & _); [done..|].
    destruct (digits_group a 0 0) as (E0 & E1 & _); [done..|].
    change (0 / 16) with 0 in *. rewrite Z.add_0_r in *. change (0 mod 16 * 4 + 0 / 64) with 0 in E1.
    rewrite two_digits by (done || zl). rewrite E0. cbv zeta. change (0 / 4) with 0 in E1. rewrite Z.add_0_r in E1.
    rewrite E1. cbn [pton_loop]. change (isspace Pad64) with false. change (Pad64 =? Pad64) with true. cbn [rbind].
    rewrite finish_two. simpl (0 =? 0).
    exists (0 :: x2 :: rest). rewrite <- app_assoc. do 2 f_equal. zl.
  - destruct (group_digits a b 0) as (D0 & D1 & D2 & _); [done..|].
    destruct (digits_group a b 0) as (E0 & E1 & E2); [done..|].
    change (0 / 64) with 0 in *. rewrite Z.add_0_r in *. change (0 mod 64) with 0 in E2. rewrite Z.add_0_r in E2.
    rewrite three_digits by (done || zl). rewrite E0, E1. cbv zeta. rewrite E2.
    cbn [pton_loop]. change (isspace Pad64) with false. change (Pad64 =? Pad64) with true. cbn [rbind].
    rewrite finish_one. simpl (0 =? 0).
    exists (0 :: rest). rewrite <- !app_assoc. do 2 f_equal. zl.
  - destruct (group_digits a b c) as (D0 & D1 & D2 & D3); [done..|].
    destruct (digits_group a b c) as (E0 & E1 & E2); [done..|].
    rewrite three_digits by (done || zl). rewrite E0, E1. cbv zeta.
    destruct (partial_byte (b mod 16 * 4 + c / 64) 4 64) as [B M]; [lia..|].
    rewrite pton_digit, step3 by (done || zl). cbn [rbind]. rewrite E2.
    replace (((pre ++ [a]) ++ [b]) ++ [c]) with (pre ++ [a; b; c]) by (by rewrite <- !app_assoc).
    destruct (IH (pre ++ [a; b; c]) rest) as [tl E]; [done | lia | zl |].
    unfold pton_run in E. rewrite E. exists tl. rewrite <- app_assoc. do 2 f_equal. zl.
Qed.

Lemma b64_enc_inj v w :
  Forall is_byte v -> Forall is_byte w -> zlen (b64_enc v) < 2 ^ 31 -> b64_enc v = b64_enc w -> v = w.
Proof.
  intros Hv Hw Hl E.
  destruct (pton_run_enc v [] (b64_enc v)) as [tl K]; [done | lia | rewrite zlen_nil; lia |].
  destruct (pton_run_enc w [] (b64_enc v)) as [tl' K']; [done | rewrite E; lia | rewrite zlen_nil; lia |].
  rewrite <- E, K in K'. injection K' as K1 K2. unfold zlen in K1. simpl in K1.
  apply app_inj_1 in K2; [|lia]. apply K2.
Qed.

Lemma strip_len s : zlen (strip s) <= zlen s.
Proof. unfold strip, zlen. pose proof (length_filter (fun c => isspace c = false) s). lia. Qed.

(** The decoder on a target as long as the text. *)
Lemma b64_pton_spec s target :
  zlen s <= zlen target -> zlen target < 2 ^ 31 ->
  match b64_pton s target with
  | Ok (n, t) => Forall is_byte (ztake n t) /\ n = zlen (ztake n t) /\ strip s = b64_enc (ztake n t)
  | Err e => e = -1 /\ forall v, Forall is_byte v -> strip s <> b64_enc v
  | Crash => False
  end.
Proof.
  intros Hl Hs. rewrite <- b64_pton_strip.
  assert (zlen (strip s) <= zlen target) as Hl' by (pose proof (strip_len s); lia).
  pose proof (pton_run_sound (strip s) [] target (strip_nonspace s) Hl' ltac:(rewrite zlen_nil; lia)) as S.
  unfold pton_run in S. change (zlen []) with 0 in S. cbn [app] in S. unfold b64_pton.
  destruct (rbind _ _) as [[n t]|e|] eqn:R; [|split; [done|]|done].
  - destruct S as (v & tl & Hv & E & -> & ->). rewrite zlen_nil, Z.add_0_l. cbn [app].
    rewrite ztake_app_le, ztake_all by lia. done.
  - intros v Hv E. destruct (pton_run_enc v [] target Hv) as [tl K]; [by rewrite <- E | rewrite zlen_nil; lia |].
    rewrite <- E in K. unfold pton_run in K. change (zlen []) with 0 in K. cbn [app] in K. congruence.
Qed.


