(* ===== verification/SshbufMisc.v ===== *)
(** * Conversions and searches on buffers: src/sshbuf-misc.c

    Hexadecimal and base 64 text, strings, comparison, search and reads from
    a file descriptor, with [sshbuf_get_nulterminated_string] of
    src/sshbuf-getput-basic.c, which is built on the search. *)
From Stdlib Require Import Ascii String.
From S2P Require Import Prelude Sshbuf SshbufGetput SshbufSpec CString Base64.

(** A fresh block of [n] bytes, NULL when [mp] is 0; its bytes are whatever
    was there. *)
Definition malloc (mp n : Z) : option (list Z) :=
  if mp =? 0 then None else Some (replicate (Z.to_nat n) (u8 mp)).

(** ** Hexadecimal *)

Definition hex : list Z := str "0123456789abcdef".
Definition hex_at (i : Z) : option Z := hex !! Z.to_nat i.

Fixpoint dtob16_loop (p : list Z) (j : Z) (ret : list Z) : res (Z * list Z) :=
  match p with
  | [] => Ok (j, ret)
  | c :: p =>
      let? h := rdefined (hex_at (Z.land (Z.shiftr c 4) 0xf)) in
      let? ret := rdefined (mem_write ret j [h]) in
      let? l := rdefined (hex_at (Z.land c 0xf)) in
      let? ret := rdefined (mem_write ret (j + 1) [l]) in
      dtob16_loop p (j + 2) ret
  end.

Definition sshbuf_dtob16 (mp : Z) (buf : sshbuf) : res (option (list Z)) :=
  let? len := sshbuf_len buf in
  let? p := buf_bytes buf in
  if len =? 0 then Ok (if mp =? 0 then None else Some [])
  else if SIZE_MAX / 2 <=? len then Ok None
  else match malloc mp (len * 2 + 1) with
  | None => Ok None
  | Some ret =>
      let? r := dtob16_loop p 0 ret in
      let '(j, ret) := r in
      let? ret := rdefined (mem_write ret j [0]) in
      Ok (Some (span_to 0 ret))
  end.

Definition b16tod (v : Z) : Z :=
  if (48 <=? v) && (v <=? 57) then v - 48
  else if (97 <=? v) && (v <=? 102) then 10 + v - 97
  else if (65 <=? v) && (v <=? 70) then 10 + v - 65
  else -1.

(** The error stands for the NULL the function returns. *)
Fixpoint b16tod_loop (np : Z) (b16 : list Z) : ST sshbuf unit :=
  match b16 with
  | [] => ret tt
  | [c] => fail SSH_ERR_INVALID_FORMAT       (* c or the final NUL is not a digit *)
  | c1 :: c2 :: b16 =>
      let v1 := b16tod c1 in
      let v2 := b16tod c2 in
      if (v1 =? -1) || (v2 =? -1) then fail SSH_ERR_INVALID_FORMAT
      else
        do! sshbuf_put_u8 np (u8 (Z.lor (Z.shiftl v1 4) v2)) ;;
        b16tod_loop np b16
  end.

Definition sshbuf_b16tod (ps pd np : Z) (b16 : list Z) : res (option sshbuf) :=
  match sshbuf_new ps pd with
  | None => Ok None
  | Some b =>
      match b16tod_loop np b16 b with
      | (Ok _, b) => Ok (Some b)
      | (Err _, _) => Ok None
      | (Crash, _) => Crash
      end
  end.

(** ** Base 64 *)

(** The loop that breaks the text into lines; returns the final [i]. *)
Fixpoint wrap_loop (np : Z) (s : list Z) (i : Z) : ST sshbuf Z :=
  match s with
  | [] => ret i
  | c :: s =>
      do! sshbuf_put_u8 np c ;;
      do! (if i mod 70 =? 69 then sshbuf_put_u8 np 10 else ret tt) ;;
      wrap_loop np s (i + 1)
  end.

Definition sshbuf_dtob64 (mp np : Z) (d : sshbuf) (wrap : bool) : ST sshbuf unit :=
  let! len := reads (fun _ => sshbuf_len d) in
  if SIZE_MAX / 2 <=? len then fail SSH_ERR_INVALID_ARGUMENT
  else if len =? 0 then ret tt
  else
    let slen := (len + 2) / 3 * 4 + 1 in
    match malloc mp slen with
    | None => fail SSH_ERR_ALLOC_FAIL
    | Some s =>
        let! p := reads (fun _ => buf_bytes d) in
        match b64_ntop p s with
        | Err _ => fail SSH_ERR_INTERNAL_ERROR
        | Crash => crash
        | Ok (_, s) =>
            let s := span_to 0 s in
            if wrap then
              let! i := wrap_loop np s 0 in
              if negb (u64 (i - 1) mod 70 =? 69) then sshbuf_put_u8 np 10 else ret tt
            else sshbuf_put np s
        end
    end.

Definition sshbuf_b64tod (mp np : Z) (b64 : list Z) : ST sshbuf unit :=
  let plen := zlen b64 in
  if plen =? 0 then ret tt
  else match malloc mp plen with
  | None => fail SSH_ERR_ALLOC_FAIL
  | Some p =>
      match b64_pton b64 p with
      | Err _ => fail SSH_ERR_INVALID_FORMAT
      | Crash => crash
      | Ok (nlen, p) => sshbuf_put np (ztake nlen p)
      end
  end.

(** The loop that removes the padding; [fuel] bounds its iterations, each of
    which takes a byte off a buffer of at most [fuel] bytes. *)
Fixpoint unpad_loop (fuel : nat) : ST sshbuf unit :=
  match fuel with
  | O => crash
  | S fuel =>
      let! l := reads sshbuf_len in
      if l <=? 1 then fail SSH_ERR_INTERNAL_ERROR
      else
        let! p := reads buf_bytes in
        let! c := defined (p !! Z.to_nat (l - 1)) in
        if negb (c =? Pad64) then ret tt
        else
          do! sshbuf_consume_end 1 ;;
          unpad_loop fuel
  end.

(** RFC 4648 section 5. *)
Definition url_char (c : Z) : Z := if c =? 43 then 45 else if c =? 47 then 95 else c.

(** The temporary buffer [b]: encode, unpad, replace. *)
Definition dtourlb64_tmp (mp np : Z) (d : sshbuf) (wrap : bool) : ST sshbuf unit :=
  do! sshbuf_dtob64 mp np d wrap ;;
  let! l := reads sshbuf_len in
  do! unpad_loop (S (Z.to_nat l)) ;;
  let! o := reads sshbuf_mutable_ptr in
  match o with
  | None => fail SSH_ERR_INTERNAL_ERROR
  | Some o =>
      let! p := reads buf_bytes in
      mem_poke o (map url_char p)
  end.

Definition sshbuf_dtourlb64 (ps pd mp np : Z) (d : sshbuf) (wrap : bool) : ST sshbuf unit :=
  let! len := reads (fun _ => sshbuf_len d) in
  if len =? 0 then ret tt
  else match sshbuf_new ps pd with
  | None => fail SSH_ERR_ALLOC_FAIL
  | Some b =>
      let '(r, b) := dtourlb64_tmp mp np d wrap b in
      match r with
      | Ok _ => sshbuf_putb np (Some b)
      | Err e => fail e
      | Crash => crash
      end
  end.

(** ** Strings, comparison, search *)

Definition sshbuf_dup_string (mp : Z) (buf : sshbuf) : res (option (list Z)) :=
  let? s := buf_bytes buf in
  let? l := sshbuf_len buf in
  if SIZE_MAX <=? l then Ok None
  else
    let dup l := if mp =? 0 then Ok None else Ok (Some (ztake l s)) in
    match memchr 0 s with
    | Some p => if negb (p =? l - 1) then Ok None else dup (l - 1)
    | None => dup l
    end.

Definition sshbuf_dtob64_string (ps pd mp np : Z) (buf : sshbuf) (wrap : bool)
    : res (option (list Z)) :=
  match sshbuf_new ps pd with
  | None => Ok None
  | Some tmp =>
      match sshbuf_dtob64 mp np buf wrap tmp with
      | (Ok _, tmp) => sshbuf_dup_string mp tmp
      | (Err _, _) => Ok None
      | (Crash, _) => Crash
      end
  end.

Definition sshbuf_cmp (b : sshbuf) (offset : Z) (s : list Z) : res unit :=
  let len := zlen s in
  let? p := buf_bytes b in
  if (SSHBUF_SIZE_MAX <? offset) || (SSHBUF_SIZE_MAX <? len) || (len =? 0)
  then Err SSH_ERR_INVALID_ARGUMENT
  else
    let? l := sshbuf_len b in
    if l <? offset + len then Err SSH_ERR_MESSAGE_INCOMPLETE
    else
      let? v := rdefined (mem_read p offset len) in
      if negb (streq v s) then Err SSH_ERR_INVALID_FORMAT else Ok tt.

Definition sshbuf_equals (a b : sshbuf) : res unit :=
  let? pa := buf_bytes a in
  let? pb := buf_bytes b in
  let? la := sshbuf_len a in
  let? lb := sshbuf_len b in
  if negb (la =? lb) then Err SSH_ERR_MESSAGE_INCOMPLETE
  else if la =? 0 then Ok tt
  else if negb (streq pa pb) then Err SSH_ERR_INVALID_FORMAT
  else Ok tt.

(** [memmem]: the offset of the first occurrence of [s] in [p]. *)
Fixpoint memmem (p s : list Z) : option Z :=
  if streq (take (length s) p) s then Some 0
  else match p with
  | [] => None
  | _ :: p => option_map (Z.add 1) (memmem p s)
  end.

Definition sshbuf_find (b : sshbuf) (start_offset : Z) (s : list Z) : res Z :=
  let len := zlen s in
  let? p := buf_bytes b in
  if (SSHBUF_SIZE_MAX <? start_offset) || (SSHBUF_SIZE_MAX <? len) || (len =? 0)
  then Err SSH_ERR_INVALID_ARGUMENT
  else
    let? l := sshbuf_len b in
    if (l <? start_offset) || (l <? start_offset + len) then Err SSH_ERR_MESSAGE_INCOMPLETE
    else match memmem (zdrop start_offset p) s with
    | None => Err SSH_ERR_INVALID_FORMAT
    | Some o => Ok (start_offset + o)
    end.

(** Returns the string and its length. *)
Definition sshbuf_get_nulterminated_string (mp maxlen : Z) : ST sshbuf (list Z * Z) :=
  let! b := get in
  match sshbuf_find b 0 [0] with
  | Crash => crash
  | Err r =>
      if r =? SSH_ERR_INVALID_FORMAT then
        let! l := reads sshbuf_len in
        if l <? maxlen then fail SSH_ERR_MESSAGE_INCOMPLETE else fail r
      else fail r
  | Ok len =>
      if maxlen <? len then fail SSH_ERR_INVALID_FORMAT
      else
        let! p := reads buf_bytes in
        if mp =? 0 then fail SSH_ERR_ALLOC_FAIL
        else
          do! sshbuf_consume (len + 1) ;;
          ret (span_to 0 p, len)
  end.

(** ** Reads from a descriptor *)

(** What read(2) answers: the bytes it stored, or -1 and an [errno]. *)
Inductive rdres : Type := RdData (v : list Z) | RdErr (errno : Z).

Definition EPIPE : Z := 32.

(** Adjust the buffer to include only what was actually read. *)
Definition read_adjust (adjust d rr : Z) : ST (sshbuf * Z) unit :=
  if adjust =? 0 then ret tt
  else fun s =>
    match on_fst (sshbuf_consume_end adjust) s with
    | (Err _, s) =>
        (do! on_fst (mem_poke (d + rr) (replicate (Z.to_nat adjust) 0)) ;;
         fail SSH_ERR_INTERNAL_ERROR) s
    | r => r
    end.

(** The state is the buffer and [errno]; returns the number of bytes read. *)
Definition sshbuf_read (np maxlen : Z) (rd : rdres) : ST (sshbuf * Z) Z :=
  let! d := on_fst (sshbuf_reserve np maxlen) in
  do! (match rd with
       | RdData v => on_fst (mem_poke d v)
       | RdErr e => fun s => (Ok tt, (fst s, e))
       end) ;;
  let rr := match rd with RdData v => zlen v | RdErr _ => -1 end in
  do! read_adjust (u64 (maxlen - (if 0 <? rr then rr else 0))) d rr ;;
  if rr <? 0 then fail SSH_ERR_SYSTEM_ERROR
  else if rr =? 0 then fun s => (Err SSH_ERR_SYSTEM_ERROR, (fst s, EPIPE))
  else ret rr.

(** ** Hexadecimal: lemmas *)

Definition hexd (i : Z) : Z := if i <? 10 then 48 + i else 87 + i.

Fixpoint hex_enc (v : list Z) : list Z :=
  match v with
  | [] => []
  | c :: v => hexd (c / 16) :: hexd (c mod 16) :: hex_enc v
  end.

Lemma hex_at_ok i : 0 <= i < 16 -> hex_at i = Some (hexd i).
Proof.
  intros Hi. assert (forallb (fun i => bool_decide (hex_at i = Some (hexd i)))
    (Z.of_nat <$> seq 0 16) = true) as H by (vm_compute; done).
  rewrite forallb_forall in H. specialize (H i). eapply bool_decide_eq_true_1, H.
  apply list_elem_of_In, list_elem_of_fmap. exists (Z.to_nat i).
  split; [lia | apply elem_of_seq; lia].
Qed.

Lemma hexd_pos i : 0 <= i -> 0 < hexd i.
Proof. unfold hexd. intros. destruct (i <? 10); lia. Qed.

Lemma b16tod_spec c :
  (b16tod c = -1 /\ forall i, 0 <= i < 16 -> tolower c <> hexd i) \/
  (0 <= b16tod c < 16 /\ tolower c = hexd (b16tod c)).
Proof.
  unfold b16tod, tolower, isupper, hexd.
  repeat match goal with |- context [(?a && ?b)%bool] => destruct (a && b)%bool eqn:?; zcases end;
    try (right; repeat match goal with |- context [if ?x <? 10 then _ else _] => destruct (Z.ltb_spec x 10) end; lia);
    left; (split; [done|]); intros i Hi; destruct (Z.ltb_spec i 10); lia.
Qed.

Lemma hexd_inj i j : 0 <= i < 16 -> 0 <= j < 16 -> hexd i = hexd j -> i = j.
Proof. unfold hexd. intros. destruct (Z.ltb_spec i 10), (Z.ltb_spec j 10); lia. Qed.

Lemma hex_enc_len v : zlen (hex_enc v) = 2 * zlen v.
Proof. induction v; cbn [hex_enc]; [done | zl]. Qed.

Lemma hex_enc_no_nul v : Forall is_byte v -> no_nul (hex_enc v).
Proof.
  induction 1 as [|c v Hc _ IH]; cbn [hex_enc]; [constructor|]. unfold is_byte in Hc.
  repeat (apply Forall_cons_2;
    [apply not_eq_sym, Z.lt_neq, hexd_pos; Z.to_euclidean_division_equations; lia|]). done.
Qed.

Lemma span_to_nul_end s t : no_nul s -> span_to 0 (s ++ 0 :: t) = s.
Proof.
  induction 1 as [|c s Hc _ IH]; [done|]. simpl. rewrite IH. by destruct (Z.eqb_spec c 0).
Qed.

Lemma nibbles c : is_byte c ->
  Z.land (Z.shiftr c 4) 0xf = c / 16 /\ Z.land c 0xf = c mod 16 /\ 0 <= c / 16 < 16 /\ 0 <= c mod 16 < 16.
Proof.
  unfold is_byte. intros. change 0xf with (Z.ones 4). rewrite !Z.land_ones, Z.shiftr_div_pow2 by lia.
  change (2 ^ 4) with 16. Z.to_euclidean_division_equations. lia.
Qed.

Lemma dtob16_loop_spec v pre rest :
  Forall is_byte v -> 2 * zlen v <= zlen rest ->
  dtob16_loop v (zlen pre) (pre ++ rest)
  = Ok (zlen (pre ++ hex_enc v), (pre ++ hex_enc v) ++ zdrop (2 * zlen v) rest).
Proof.
  intros Hv. revert pre rest. induction Hv as [|c v Hc Hv IH]; intros pre rest Hl.
  { cbn [dtob16_loop hex_enc]. by rewrite app_nil_r, zdrop_0 by done. }
  rewrite zlen_cons in *. pose proof (zlen_nonneg v).
  destruct (nibbles c Hc) as (E1 & E2 & ? & ?).
  cbn [dtob16_loop hex_enc]. rewrite E1, E2, !hex_at_ok by done. cbn [rdefined rbind].
  rewrite mem_write_at by zl. cbn [rdefined rbind].
  replace (zlen pre + 1) with (zlen (pre ++ [hexd (c / 16)])) by zl.
  rewrite mem_write_at by zl. cbn [rdefined rbind].
  replace (zlen pre + 2) with (zlen ((pre ++ [hexd (c / 16)]) ++ [hexd (c mod 16)])) by zl.
  rewrite IH by zl. rewrite !zlen_cons, zlen_nil, !zdrop_zdrop by lia. rewrite <- !app_assoc. simpl.
  replace (0 + 1 + (0 + 1 + 2 * zlen v)) with (2 * (zlen v + 1)) by lia. done.
Qed.

Lemma malloc_len mp n l : 0 <= n -> malloc mp n = Some l -> zlen l = n.
Proof.
  intros Hn. unfold malloc. destruct (mp =? 0); [done|]. intros [= <-]. rewrite zlen_replicate. lia.
Qed.

Lemma sshbuf_dtob16_spec mp b :
  sshbuf_wf b -> sshbuf_dtob16 mp b = Ok (if mp =? 0 then None else Some (hex_enc (contents b))).
Proof.
  intros H. unfold sshbuf_dtob16. rewrite sshbuf_len_wf, buf_bytes_wf by done. cbn [rbind].
  pose proof (contents_bytes b H) as Hb. pose proof (contents_len b H). wf_facts H.
  destruct (Z.eqb_spec (zlen (contents b)) 0) as [E|].
  { assert (contents b = []) as -> by (destruct (contents b); [done | rewrite zlen_cons in E; pose proof (zlen_nonneg l); lia]).
    done. }
  sb_consts. change ((2 ^ 64 - 1) / 2) with 9223372036854775807.
  destruct (Z.leb_spec 9223372036854775807 (zlen (contents b))); [lia|].
  unfold malloc at 1. destruct (mp =? 0) eqn:Em; [done|].
  destruct (malloc mp (zlen (contents b) * 2 + 1)) as [blk|] eqn:Hm; unfold malloc in Hm; rewrite Em in Hm; [|done].
  injection Hm as Hm. pose proof (f_equal zlen Hm) as Hl. rewrite zlen_replicate in Hl. rewrite Hm.
  pose proof (dtob16_loop_spec (contents b) [] blk Hb ltac:(lia)) as L. change (zlen []) with 0 in L.
  cbn [app] in L. rewrite L. cbn [rbind].
  rewrite mem_write_at by (rewrite zlen_drop; rewrite zlen_cons, zlen_nil; lia). cbn [rdefined rbind].
  rewrite <- app_assoc. cbn [app]. by rewrite span_to_nul_end by by apply hex_enc_no_nul.
Qed.

Lemma list_ind2 {A} (P : list A -> Prop) :
  P [] -> (forall a, P [a]) -> (forall a b l, P l -> P (a :: b :: l)) -> forall l, P l.
Proof.
  intros H0 H1 H2 l. assert (P l /\ forall a, P (a :: l)) as [? _]; [|done].
  induction l as [|c l (IH & IH1)]; [done|]. split; auto.
Qed.

Lemma appended_trans v w a b c : appended v a b -> appended w b c -> appended (v ++ w) a c.
Proof.
  intros (_ & F & E) (W & F' & E'). split_and!; [done | by transitivity b |].
  by rewrite E', E, <- app_assoc.
Qed.

Lemma appended_nil b : sshbuf_wf b -> appended [] b b.
Proof. intros. split_and!; [done | done | by rewrite app_nil_r]. Qed.

(** The frame of a buffer that had bytes appended. *)
Lemma appended_frame v b b' :
  appended v b b' -> sshbuf_wf b' /\ writable b' = writable b /\ sb_max_size b' = sb_max_size b /\
    zlen (contents b') = zlen (contents b) + zlen v.
Proof.
  intros (W & F & E). split_and!; [done | by apply same_frame_writable | by destruct F as (_ & ? & _) |].
  by rewrite E, zlen_app.
Qed.

(** The loop reads exactly the hexadecimal texts that fit. *)
Lemma b16tod_loop_spec np t b :
  sshbuf_wf b -> writable b = true ->
  match b16tod_loop np t b with
  | (Ok _, b') => exists v, Forall is_byte v /\ lowercase t = hex_enc v /\ appended v b b'
  | (Err _, _) => np = 0 \/ sb_max_size b < zlen (contents b) + zlen t / 2 \/
      forall v, Forall is_byte v -> lowercase t <> hex_enc v
  | (Crash, _) => False
  end.
Proof.
  revert b. induction t as [|a|a c t IH] using list_ind2; intros b H Hw.
  { exists []. split_and!; [done..|]. by apply appended_nil. }
  { right. right. by intros [|? [|]]. }
  cbn [b16tod_loop lowercase map]. fold (lowercase t).
  destruct (b16tod_spec a) as [[-> Na]|[Ra Ea]].
  { right. right. intros [|x v] Hv; [done|]. apply Forall_cons in Hv as [Hx _]. intros [= K _].
    by destruct (nibbles x Hx) as (_ & _ & ? & _); apply Na in K. }
  destruct (b16tod_spec c) as [[Ec Nc]|[Rc Ec]].
  { rewrite Ec, orb_true_r. right. right. intros [|x v] Hv; [done|]. apply Forall_cons in Hv as [Hx _].
    intros [= _ K _]. by destruct (nibbles x Hx) as (_ & _ & _ & ?); apply Nc in K. }
  destruct (Z.eqb_spec (b16tod a) (-1)); [lia|]. destruct (Z.eqb_spec (b16tod c) (-1)); [lia|].
  set (x := u8 (Z.lor (Z.shiftl (b16tod a) 4) (b16tod c))).
  assert (x = b16tod a * 16 + b16tod c) as Hx.
  { unfold x. rewrite Z.shiftl_mul_pow2 by lia. change (2 ^ 4) with 16.
    apply (lor_byte _ _ 4); unfold is_byte; try lia. by rewrite Z.mod_mul. }
  assert (is_byte x) as Bx by (unfold is_byte; lia). clearbody x. unfold bind. simpl (_ || _). cbv iota.
  rewrite !zlen_cons. replace (zlen t + 1 + 1) with (zlen t + 1 * 2) by lia. rewrite Z.div_add by lia.
  pose proof (Z.div_pos (zlen t) 2 (zlen_nonneg t) ltac:(lia)).
  destruct (sshbuf_put_u8_spec np x b H) as [|? ?|? ? ? -> ?|[] b1 ? ? A]; [congruence|right; left; lia|by left|].
  rewrite u8_small in A by done. destruct (appended_frame _ _ _ A) as (W1 & Hw1 & M1 & L1).
  specialize (IH b1 W1 ltac:(congruence)). change (zlen [x]) with 1 in L1. rewrite M1, L1 in IH.
  destruct (b16tod_loop np t b1) as [[[]|e|] b']; [| |done].
  - destruct IH as (v & Hv & E & A'). exists (x :: v). split_and!; [by apply Forall_cons_2 | | by apply (appended_trans [x] v _ b1)].
    cbn [hex_enc]. rewrite Ea, Ec, E, Hx. rewrite Z.div_add_l, (Z.div_small (b16tod c)), Z.add_0_r by lia.
    rewrite Z.add_comm, Z.mod_add, (Z.mod_small (b16tod c)) by lia. done.
  - destruct IH as [?|[?|N]]; [by left | right; left; lia | right; right].
    intros [|y v] Hv; [done|]. apply Forall_cons in Hv as [_ Hv]. intros [= _ _ K]. by apply (N v).
Qed.

(** Hexadecimal text is exact: sshbuf_dtob16 writes two digits per byte of
    the contents without leaving its block, and sshbuf_b16tod accepts, up to
    the limit of a buffer and the answers of the allocator, precisely the
    texts that are such an encoding in either case, and gives back the bytes;
    an odd length or any other character yields no buffer. *)
Theorem hex_exact mp buf ps pd np t :
  sshbuf_wf buf -> 0 <= ps -> 0 <= pd ->
  sshbuf_dtob16 mp buf = Ok (if mp =? 0 then None else Some (hex_enc (contents buf))) /\
  match sshbuf_b16tod ps pd np t with
  | Ok (Some b) => sshbuf_wf b /\ lowercase t = hex_enc (contents b)
  | Ok None => ps = 0 \/ pd = 0 \/ np = 0 \/ 2 * SSHBUF_SIZE_MAX < zlen t \/
      forall v, Forall is_byte v -> lowercase t <> hex_enc v
  | _ => False
  end.
Proof.
  intros H Hps Hpd. split; [by apply sshbuf_dtob16_spec|]. unfold sshbuf_b16tod.
  destruct (Z.eqb_spec ps 0) as [->|]; [by left|]. destruct (Z.eqb_spec pd 0) as [->|].
  { unfold sshbuf_new. destruct (ps =? 0); by right; left. }
  destruct (sshbuf_new ps pd) as [b|] eqn:E.
  2: { unfold sshbuf_new in E. destruct (Z.eqb_spec ps 0), (Z.eqb_spec pd 0); done. }
  destruct (sshbuf_new_wf ps pd b) as (W & Hc & Hw & Hm); [lia | lia | done |].
  pose proof (b16tod_loop_spec np t b W Hw) as L. rewrite Hc, Hm in L.
  destruct (b16tod_loop np t b) as [[[]|e|] b']; [| |done].
  - destruct L as (v & Hv & El & (W' & _ & E')). split; [done|]. by rewrite E', Hc.
  - right. right. destruct L as [?|[L|?]]; [by left | right; left | by right; right].
    change (zlen []) with 0 in L. Z.to_euclidean_division_equations. lia.
Qed.

Lemma hex_exact_witness :
  exists b b', sshbuf_b16tod 16 32 48 (str "00fFa7") = Ok (Some b) /\ contents b = [0; 255; 167] /\
    sshbuf_dtob16 64 b = Ok (Some (str "00ffa7")) /\
    sshbuf_b16tod 16 32 48 (str "00ffa7") = Ok (Some b') /\ lowercase (str "00fFa7") = hex_enc (contents b').
Proof.
  destruct (sshbuf_b16tod 16 32 48 (str "00fFa7")) as [[b|]| |] eqn:E; try (vm_compute in E; discriminate).
  destruct (sshbuf_b16tod 16 32 48 (str "00ffa7")) as [[b'|]| |] eqn:E'; try (vm_compute in E'; discriminate).
  assert (contents b = [0; 255; 167]) as Hc by (vm_compute in E; injection E as <-; vm_compute; done).
  destruct (sshbuf_new 16 32) as [b0|] eqn:E0; [|vm_compute in E0; discriminate].
  destruct (sshbuf_new_wf 16 32 b0) as (W0 & _); [lia | lia | done |].
  destruct (hex_exact 64 b0 16 32 48 (str "00fFa7") W0) as [_ P]; [lia | lia |].
  rewrite E in P. destruct P as (W & P).
  destruct (hex_exact 64 b 16 32 48 (str "00ffa7") W) as [D P']; [lia | lia |].
  rewrite E' in P'. destruct P' as (_ & P'). exists b, b'. split_and!; try done.
  rewrite D, Hc. vm_compute. done.
Defined.

(** ** Reads *)

(** The bytes reserved and not yet stored are part of the contents. *)
Lemma reserve_contents np len b :
  sshbuf_wf b -> 0 <= len <= SIZE_MAX ->
  space_post np len b (fun d b' => exists junk, zlen junk = len /\ appended junk b b' /\
      d = sb_off b' + zlen (contents b))
    (sshbuf_reserve np len b).
Proof.
  intros H Hl. destruct (sshbuf_reserve_spec np len b H Hl) as [| | |d b' ? ? (b1 & (W & F & E) & Hs & -> & ->)];
    try (by constructor).
  constructor; [done..|]. wf_facts W. pose proof (contents_len b1 W) as L.
  exists (ztake len (zdrop (sb_size b1) (sb_mem b1))). split_and!.
  - rewrite zlen_take, zlen_drop. lia.
  - split_and!; [wf_solve | done |].
    rewrite <- E. unfold contents. simpl. rewrite !ztake_drop_comm by lia.
    replace (sb_off b1 + (sb_size b1 + len - sb_off b1)) with (sb_size b1 + len) by lia.
    replace (sb_off b1 + (sb_size b1 - sb_off b1)) with (sb_size b1) by lia.
    rewrite <- (ztake_zdrop (sb_size b1) (ztake (sb_size b1 + len) (sb_mem b1))) at 1.
    rewrite ztake_ztake. rewrite zdrop_app_le by zl. rewrite Z.min_l by lia. done.
  - simpl. rewrite <- E, L. lia.
Qed.

Lemma zlen_0 {A} (l : list A) : zlen l = 0 -> l = [].
Proof. destruct l; [done|]. rewrite zlen_cons. pose proof (zlen_nonneg l). lia. Qed.

Lemma read_adjust_spec adjust d rr b e l junk :
  sshbuf_wf b -> contents b = l ++ junk -> zlen junk = adjust ->
  exists b', read_adjust adjust d rr (b, e) = (Ok tt, (b', e)) /\ sshbuf_wf b' /\ same_frame b b' /\ contents b' = l.
Proof.
  intros W E Hj. unfold read_adjust. destruct (Z.eqb_spec adjust 0) as [E0|].
  { exists b. rewrite E0 in Hj. apply zlen_0 in Hj as ->. rewrite app_nil_r in E. by split_and!. }
  unfold on_fst. pose proof (zlen_nonneg junk). pose proof (zlen_nonneg l).
  destruct (sshbuf_consume_end_spec adjust b W ltac:(lia))
    as [[C _]|(_ & b3 & -> & W3 & F3 & E3)]; [rewrite E in C; zl|].
  exists b3. split_and!; try done. rewrite E3, E. rewrite ztake_app_le, ztake_all by zl. done.
Qed.

(** [sshbuf_read] appends exactly what read(2) stored, and on failure leaves
    the contents alone with [errno] telling why. *)
Lemma sshbuf_read_spec np maxlen rd b e :
  sshbuf_wf b -> 0 <= maxlen <= SIZE_MAX ->
  (forall v, rd = RdData v -> Forall is_byte v /\ zlen v <= maxlen) ->
  match sshbuf_read np maxlen rd (b, e) with
  | (Ok n, (b', e')) => exists v, rd = RdData v /\ n = zlen v /\ v <> [] /\ appended v b b' /\ e' = e
  | (Err r, (b', e')) => kept b b' /\
      (r = SSH_ERR_SYSTEM_ERROR /\ (rd = RdErr e' \/ rd = RdData [] /\ e' = EPIPE) \/
       e' = e /\ (writable b = false \/ sb_max_size b < zlen (contents b) + maxlen \/ np = 0))
  | (Crash, _) => False
  end.
Proof.
  intros H Hm Hrd. unfold sshbuf_read, bind at 1, on_fst at 1.
  destruct (reserve_contents np maxlen b H Hm) as [| |b' ? ? ? ?|d b' Hw Hs (junk & Hj & A & ->)].
  1-3: split; [by auto with ssh|]; right; auto.
  destruct A as (W' & F' & E'). pose proof (zlen_nonneg (contents b)). sb_consts. destruct rd as [v|er].
  - destruct (Hrd v eq_refl) as [Hv Hvl]. pose proof (zlen_nonneg v). unfold bind at 1, on_fst at 1.
    destruct (mem_poke_contents b' (zlen (contents b)) v W' Hv) as (b2 & -> & W2 & F2 & E2);
      [done | rewrite E'; zl |].
    rewrite E' in E2. unfold overwrite in E2. rewrite ztake_app_le, ztake_all in E2 by lia.
    rewrite zdrop_app_ge, app_assoc in E2 by lia. cbv zeta.
    assert ((if 0 <? zlen v then zlen v else 0) = zlen v) as -> by (destruct (Z.ltb_spec 0 (zlen v)); lia).
    rewrite u64_small by lia.
    destruct (read_adjust_spec (maxlen - zlen v) (sb_off b' + zlen (contents b)) (zlen v) b2 e _ _ W2 E2)
      as (b3 & R3 & W3 & F3 & E3); [zl|].
    assert (same_frame b b3) by (transitivity b2; [by transitivity b' | done]).
    rewrite (bind_ok _ _ _ _ _ R3). destruct (Z.ltb_spec (zlen v) 0); [lia|].
    destruct (Z.eqb_spec (zlen v) 0) as [E0|]; cbn [fst].
    + apply zlen_0 in E0 as ->. rewrite app_nil_r in E3. split; [done|]. by left; auto.
    + exists v. split_and!; try done. by intros ->.
  - unfold bind at 1. cbn [fst]. cbv zeta.
    replace (u64 (maxlen - (if 0 <? -1 then -1 else 0))) with maxlen
      by (simpl; rewrite Z.sub_0_r; symmetry; apply u64_small; lia).
    destruct (read_adjust_spec maxlen (sb_off b' + zlen (contents b)) (-1) b' er _ _ W' E' Hj)
      as (b3 & R3 & W3 & F3 & E3).
    rewrite (bind_ok _ _ _ _ _ R3). simpl. split; [|by left; auto]. split_and!; [done | by transitivity b' | done].
Qed.

(** ** Base 64 text in buffers *)

Definition b64_char (c : Z) : Prop := 0 < c < 128 /\ isspace c = false.

Lemma b64_enc_chars v : Forall is_byte v -> Forall b64_char (b64_enc v).
Proof.
  pose proof byte_0. assert (b64_char Pad64) as P by done.
  assert (forall i, 0 <= i < 64 -> b64_char (b64d i)) as D.
  { intros i Hi. destruct (digit_ok i Hi) as (_ & _ & ? & _ & ?). done. }
  induction v as [|a|a b|a b c v IH] using list_ind3; cbn [b64_enc app]; rewrite ?Forall_cons;
    [done|intros (Ha & _)|intros (Ha & Hb & _)|intros (Ha & Hb & Hc & Hv)].
  - destruct (group_digits a 0 0) as (? & D1 & _); [done..|]. change (0 / 16) with 0 in D1.
    rewrite Z.add_0_r in D1. split_and!; auto.
  - destruct (group_digits a b 0) as (? & ? & D2 & _); [done..|]. change (0 / 64) with 0 in D2.
    rewrite Z.add_0_r in D2. split_and!; auto.
  - destruct (group_digits a b c) as (? & ? & ? & ?); [done..|]. split_and!; auto.
Qed.

Lemma strip_id s : Forall (fun c => isspace c = false) s -> strip s = s.
Proof.
  induction 1 as [|c s Hc _ IH]; [done|]. rewrite strip_cons, IH, Hc. done.
Qed.

Lemma strip_app s t : strip (s ++ t) = strip s ++ strip t.
Proof. apply filter_app. Qed.

(** The text with a newline after each 70th character. *)
Fixpoint wrapped (s : list Z) (i : Z) : list Z :=
  match s with
  | [] => []
  | c :: s => c :: (if i mod 70 =? 69 then [10] else []) ++ wrapped s (i + 1)
  end.

Lemma wrapped_strip s i : strip (wrapped s i) = strip s.
Proof.
  revert i. induction s as [|c s IH]; intros i; [done|]. cbn [wrapped]. rewrite !strip_cons, strip_app, IH.
  by destruct (_ =? 69).
Qed.

Lemma wrapped_len s i : 0 <= i -> zlen (wrapped s i) = zlen s + ((i + zlen s) / 70 - i / 70).
Proof.
  revert i. induction s as [|c s IH]; intros i Hi; cbn [wrapped].
  { rewrite zlen_nil, Z.add_0_r. lia. }
  rewrite !zlen_cons, zlen_app, IH by lia. replace (i + 1 + zlen s) with (i + (zlen s + 1)) by lia.
  destruct (Z.eqb_spec (i mod 70) 69); rewrite ?zlen_cons, ?zlen_nil; Z.to_euclidean_division_equations; lia.
Qed.

Lemma put_u8_fits np c b :
  sshbuf_wf b -> writable b = true -> np <> 0 -> zlen (contents b) + 1 <= sb_max_size b -> is_byte c ->
  exists b', sshbuf_put_u8 np c b = (Ok tt, b') /\ appended [c] b b'.
Proof.
  intros H Hw Hn Hf Hc. destruct (sshbuf_put_u8_spec np c b H) as [| | |[] b' ? ? A]; [congruence|lia|done|].
  rewrite u8_small in A by done. by exists b'.
Qed.

Lemma wrap_loop_spec np s i b :
  sshbuf_wf b -> writable b = true -> np <> 0 -> Forall is_byte s -> 0 <= i ->
  zlen (contents b) + zlen (wrapped s i) <= sb_max_size b ->
  exists b', wrap_loop np s i b = (Ok (i + zlen s), b') /\ appended (wrapped s i) b b'.
Proof.
  intros H Hw Hn Hs. revert i b H Hw. induction Hs as [|c s Hc Hs IH]; intros i b H Hw Hi Hf.
  { exists b. cbn [wrap_loop wrapped]. rewrite zlen_nil, Z.add_0_r. split; [done | by apply appended_nil]. }
  cbn [wrap_loop wrapped] in *. rewrite zlen_cons, zlen_app in Hf.
  pose proof (zlen_nonneg (wrapped s (i + 1))).
  destruct (put_u8_fits np c b) as (b1 & R1 & A1); [done..|destruct (_ =? 69); zl|done|].
  rewrite (bind_ok _ _ _ _ _ R1). destruct (appended_frame _ _ _ A1) as (W1 & Hw1 & M1 & L1).
  change (zlen [c]) with 1 in L1.
  assert (exists b2, (if i mod 70 =? 69 then sshbuf_put_u8 np 10 else ret tt) b1 = (Ok tt, b2) /\
    appended (if i mod 70 =? 69 then [10] else []) b1 b2) as (b2 & R2 & A2).
  { destruct (_ =? 69); [|exists b1; split; [done | by apply appended_nil]].
    apply put_u8_fits; try congruence; [change (zlen [10]) with 1 in Hf; lia | unfold is_byte; lia]. }
  rewrite (bind_ok _ _ _ _ _ R2). destruct (appended_frame _ _ _ A2) as (W2 & Hw2 & M2 & L2).
  destruct (IH (i + 1) b2) as (b3 & R3 & A3); [done | congruence | lia | lia |].
  exists b3. rewrite R3, zlen_cons. split; [do 2 f_equal; lia|].
  apply (appended_trans [c] _ _ b1); [done|]. by apply (appended_trans _ _ _ b2).
Qed.

(** The text [sshbuf_dtob64] appends. *)
Definition b64_text (v : list Z) (wrap : bool) : list Z :=
  let s := b64_enc v in
  if wrap then wrapped s 0 ++ (if (zlen s - 1) mod 70 =? 69 then [] else [10]) else s.

Lemma sshbuf_dtob64_spec mp np d wrap b :
  sshbuf_wf d -> sshbuf_wf b -> writable b = true -> mp <> 0 -> np <> 0 -> contents d <> [] ->
  zlen (contents b) + zlen (b64_text (contents d) wrap) <= sb_max_size b ->
  exists b', sshbuf_dtob64 mp np d wrap b = (Ok tt, b') /\ appended (b64_text (contents d) wrap) b b'.
Proof.
  intros Hd H Hw Hm Hn Hne Hf. unfold sshbuf_dtob64. unfold bind at 1, reads at 1. rewrite sshbuf_len_wf by done.
  pose proof (contents_bytes d Hd) as Hb. pose proof (contents_len d Hd). pose proof (b64_enc_chars _ Hb) as Hch.
  wf_facts Hd. sb_consts. change ((2 ^ 64 - 1) / 2) with 9223372036854775807.
  destruct (Z.leb_spec 9223372036854775807 (zlen (contents d))); [lia|].
  destruct (Z.eqb_spec (zlen (contents d)) 0) as [E|]; [by apply zlen_0 in E|].
  destruct (malloc mp ((zlen (contents d) + 2) / 3 * 4 + 1)) as [blk|] eqn:Hblk.
  2: { unfold malloc in Hblk. by destruct (Z.eqb_spec mp 0). }
  apply malloc_len in Hblk; [|Z.to_euclidean_division_equations; lia]. cbv zeta.
  unfold bind at 1, reads at 1. rewrite buf_bytes_wf by done.
  rewrite b64_ntop_spec by (done || (rewrite Hblk; Z.to_euclidean_division_equations; lia)).
  rewrite Hblk, b64_enc_len. destruct (Z.leb_spec ((zlen (contents d) + 2) / 3 * 4 + 1) ((zlen (contents d) + 2) / 3 * 4)); [lia|].
  rewrite <- b64_enc_len. cbn [app].
  rewrite span_to_nul_end by (eapply Forall_impl; [done|]; unfold b64_char; lia).
  assert (Forall is_byte (b64_enc (contents d))) as Hs by (eapply Forall_impl; [done|]; unfold is_byte, b64_char; lia).
  assert (4 <= zlen (b64_enc (contents d))) as Hl
    by (rewrite b64_enc_len; pose proof (zlen_nonneg (contents d)); Z.to_euclidean_division_equations; lia).
  assert (zlen (b64_enc (contents d)) < 2 ^ 32) as Hl' by (rewrite b64_enc_len; Z.to_euclidean_division_equations; lia).
  unfold b64_text in *. destruct wrap.
  - rewrite zlen_app in Hf. pose proof (zlen_nonneg (if (zlen (b64_enc (contents d)) - 1) mod 70 =? 69 then [] else [10])).
    destruct (wrap_loop_spec np (b64_enc (contents d)) 0 b) as (b1 & R1 & A1); [done..|lia|].
    rewrite (bind_ok _ _ _ _ _ R1), Z.add_0_l, u64_small by lia.
    destruct (appended_frame _ _ _ A1) as (W1 & Hw1 & M1 & L1).
    destruct (_ =? 69); simpl negb; cbv iota in *; [exists b1; split; [done | by rewrite app_nil_r]|].
    destruct (put_u8_fits np 10 b1) as (b2 & R2 & A2); [done | congruence | done | change (zlen [10]) with 1 in Hf; lia | unfold is_byte; lia |].
    exists b2. split; [done | by apply (appended_trans _ _ _ b1)].
  - destruct (sshbuf_put_spec np (b64_enc (contents d)) b H Hs ltac:(sb_consts; lia)) as [| | |[] b' ? ? A];
      [congruence | lia | done |].
    by exists b'.
Qed.

Lemma b64_text_strip v wrap : Forall is_byte v -> strip (b64_text v wrap) = b64_enc v.
Proof.
  intros Hv. assert (strip (b64_enc v) = b64_enc v) as E.
  { apply strip_id. eapply Forall_impl; [by apply b64_enc_chars|]. by intros ? []. }
  unfold b64_text. destruct wrap; [|done]. rewrite strip_app, wrapped_strip, E.
  destruct (_ =? 69); apply app_nil_r.
Qed.

(** [sshbuf_b64tod] appends the bytes the text denotes, or nothing. *)
Lemma sshbuf_b64tod_spec mp np t b :
  sshbuf_wf b -> writable b = true -> zlen t < 2 ^ 31 ->
  match sshbuf_b64tod mp np t b with
  | (Ok _, b') => exists v, Forall is_byte v /\ strip t = b64_enc v /\ appended v b b'
  | (Err _, b') => kept b b' /\ (mp = 0 \/ np = 0 \/ forall v, Forall is_byte v ->
      strip t = b64_enc v -> sb_max_size b < zlen (contents b) + zlen v)
  | (Crash, _) => False
  end.
Proof.
  intros H Hw Hl. unfold sshbuf_b64tod. cbv zeta. destruct (Z.eqb_spec (zlen t) 0) as [E|_].
  { apply zlen_0 in E as ->. exists []. split_and!; [done..|]. by apply appended_nil. }
  destruct (malloc mp (zlen t)) as [p|] eqn:Hp.
  2: { unfold malloc in Hp. split; [by apply kept_refl|]. destruct (Z.eqb_spec mp 0); [by left | done]. }
  apply malloc_len in Hp; [|apply zlen_nonneg].
  pose proof (b64_pton_spec t p ltac:(lia) ltac:(lia)) as P. destruct (b64_pton t p) as [[n q]|e|]; [| |done].
  - destruct P as (Hv & Hn & E). set (v := ztake n q) in *. clearbody v.
    assert (zlen (b64_enc v) < 2 ^ 31) as Ls by (rewrite <- E; pose proof (strip_len t); lia).
    destruct (sshbuf_put_spec np v b) as [|? ?|? ? ? ? ?|[] b' ? ? A]; try done; [|congruence| | |].
    + rewrite b64_enc_len in Ls. sb_consts. pose proof (zlen_nonneg v). Z.to_euclidean_division_equations; lia.
    + split; [by apply kept_refl|]. right. right. intros w Hw' Ew.
      by rewrite <- (b64_enc_inj v w Hv Hw' Ls ltac:(congruence)).
    + split; [done|]. by right; left.
    + by exists v.
  - destruct P as (_ & P). split; [by apply kept_refl|]. right. right. intros v Hv Ev. by apply P in Ev.
Qed.

(** Base 64 through buffers: sshbuf_dtob64, with or without line breaks,
    appends to a buffer that has room a text that sshbuf_b64tod turns back
    into the bytes, appended to the buffer it is given; conversely whatever
    sshbuf_b64tod accepts is such a text up to white space, and what it
    refuses leaves the buffer as it was. *)
Theorem base64_roundtrip mp np d wrap b64 buf t :
  sshbuf_wf d -> sshbuf_wf b64 -> sshbuf_wf buf -> writable b64 = true -> writable buf = true ->
  mp <> 0 -> np <> 0 -> contents d <> [] ->
  zlen (contents b64) + zlen (b64_text (contents d) wrap) <= sb_max_size b64 ->
  zlen (contents buf) + zlen (contents d) <= sb_max_size buf -> zlen t < 2 ^ 31 ->
  (exists b64' text, sshbuf_dtob64 mp np d wrap b64 = (Ok tt, b64') /\
     contents b64' = contents b64 ++ text /\
     exists buf', sshbuf_b64tod mp np text buf = (Ok tt, buf') /\
       contents buf' = contents buf ++ contents d) /\
  match sshbuf_b64tod mp np t buf with
  | (Ok _, buf') => exists v, strip t = b64_enc v /\ contents buf' = contents buf ++ v
  | (Err _, buf') => contents buf' = contents buf
  | (Crash, _) => False
  end.
Proof.
  intros Hd Hb Hbuf Hwb Hwbuf Hm Hn Hne Hf Hfb Ht. pose proof (contents_bytes d Hd) as Hv. split.
  - destruct (sshbuf_dtob64_spec mp np d wrap b64) as (b' & R & A); [done..|].
    exists b', (b64_text (contents d) wrap). split; [done|]. split; [apply A|].
    assert (zlen (b64_text (contents d) wrap) < 2 ^ 31) as Ht'.
    { wf_facts Hb. sb_consts. pose proof (zlen_nonneg (contents b64)). lia. }
    assert (zlen (b64_enc (contents d)) < 2 ^ 31) as Hl.
    { rewrite <- (b64_text_strip _ wrap) by done. pose proof (strip_len (b64_text (contents d) wrap)). lia. }
    pose proof (sshbuf_b64tod_spec mp np _ buf Hbuf Hwbuf Ht') as P. rewrite b64_text_strip in P by done.
    destruct (sshbuf_b64tod mp np _ buf) as [[[]|e|] buf']; [| |done].
    + destruct P as (v & Hv' & E & (_ & _ & E')). exists buf'. split; [done|].
      by rewrite E', (b64_enc_inj (contents d) v).
    + destruct P as (_ & [?|[?|P]]); [done..|]. specialize (P _ Hv eq_refl). lia.
  - pose proof (sshbuf_b64tod_spec mp np t buf Hbuf Hwbuf Ht) as P.
    destruct (sshbuf_b64tod mp np t buf) as [[[]|e|] buf']; [| |done].
    + destruct P as (v & _ & E & (_ & _ & E')). by exists v.
    + by destruct P as ((_ & _ & E) & _).
Qed.

Lemma base64_roundtrip_witness :
  exists b d b64 buf, sshbuf_new 16 32 = Some b /\ sshbuf_put 48 [255; 0; 7; 9] b = (Ok tt, d) /\
    contents d = [255; 0; 7; 9] /\
    sshbuf_dtob64 64 48 d true b = (Ok tt, b64) /\ contents b64 = str "/wAHCQ==" ++ [10] /\
    sshbuf_b64tod 64 48 (contents b64) b = (Ok tt, buf) /\ contents buf = contents d.
Proof.
  destruct (sshbuf_new 16 32) as [b|] eqn:E; [|vm_compute in E; discriminate].
  destruct (sshbuf_new_wf 16 32 b) as (W & Hc & Hw & Hm); [lia | lia | done |].
  assert (Forall is_byte [255; 0; 7; 9]) as Hv by (by repeat (apply Forall_cons_2; [unfold is_byte; lia|])).
  destruct (sshbuf_put 48 [255; 0; 7; 9] b) as [r d] eqn:R0.
  pose proof (sshbuf_put_spec 48 [255; 0; 7; 9] b W Hv ltac:(vm_compute; discriminate)) as P.
  rewrite R0 in P. inversion P as [|? F|? ? ? F|[] ? ? ? A]; subst;
    [congruence | rewrite Hc, Hm in F; vm_compute in F; discriminate | discriminate |].
  destruct A as (Wd & _ & Ed). rewrite Hc in Ed. cbn [app] in Ed.
  assert (zlen (contents b) + zlen (b64_text (contents d) true) <= sb_max_size b) as F1
    by (rewrite Hc, Hm, Ed; vm_compute; discriminate).
  assert (zlen (contents b) + zlen (contents d) <= sb_max_size b) as F2
    by (rewrite Hc, Hm, Ed; vm_compute; discriminate).
  assert (contents d <> []) as Hne by (rewrite Ed; discriminate).
  destruct (base64_roundtrip 64 48 d true b b [] Wd W W Hw Hw ltac:(lia) ltac:(lia) Hne F1 F2 ltac:(vm_compute; done))
    as ((b64 & text & R & Eb & buf & R' & E') & _).
  exists b, d, b64, buf. rewrite Hc in Eb, E'. cbn [app] in Eb, E'.
  assert (text = str "/wAHCQ==" ++ [10]) as ->.
  { destruct (sshbuf_dtob64_spec 64 48 d true b Wd W Hw ltac:(lia) ltac:(lia) Hne F1) as (b' & R2 & A2).
    rewrite R in R2. injection R2 as <-. destruct A2 as (_ & _ & A2). rewrite Hc, Eb, Ed in A2. rewrite A2.
    vm_compute. done. }
  rewrite Eb. by split_and!.
Defined.

(** ** Strings *)

Lemma memmem_nul p : memmem p [0] = memchr 0 p.
Proof.
  induction p as [|x p IH]; [done|]. cbn [memmem memchr]. unfold streq. simpl (take _ _).
  destruct (Z.eqb_spec x 0) as [->|N]; [done|].
  rewrite bool_decide_eq_false_2 by congruence. rewrite IH. destruct (memchr 0 p); simpl; [f_equal; lia | done].
Qed.

Lemma span_to_nul p :
  span_to 0 p = match memchr 0 p with Some i => ztake i p | None => p end.
Proof.
  induction p as [|x p IH]; [done|]. cbn [span_to memchr]. destruct (x =? 0); [done|]. rewrite IH.
  destruct (memchr 0 p) as [i|] eqn:E; [|done]. simpl. apply memchr_some in E as (Hi & _).
  unfold ztake. by rewrite Z2Nat.inj_succ by lia.
Qed.

Lemma sshbuf_find_nul b :
  sshbuf_wf b -> sshbuf_find b 0 [0] =
  if zlen (contents b) <? 1 then Err SSH_ERR_MESSAGE_INCOMPLETE
  else match memchr 0 (contents b) with Some i => Ok i | None => Err SSH_ERR_INVALID_FORMAT end.
Proof.
  intros H. unfold sshbuf_find. rewrite buf_bytes_wf, sshbuf_len_wf by done. cbn [rbind].
  change (zlen [0]) with 1. simpl (_ || _). cbv iota. pose proof (zlen_nonneg (contents b)).
  destruct (Z.ltb_spec (zlen (contents b)) 0); [lia|]. cbn [rbind orb].
  destruct (Z.ltb_spec (zlen (contents b)) (0 + 1)), (Z.ltb_spec (zlen (contents b)) 1); try lia; [done|].
  rewrite zdrop_0, memmem_nul by lia. by destruct (memchr 0 (contents b)).
Qed.

(** sshbuf_get_nulterminated_string, the reader of strings that end in a
    NUL: it returns what precedes the first NUL of the contents, of at most
    [maxlen] bytes, and consumes it with its NUL and nothing else; it asks
    for more data exactly when no NUL has been seen and fewer than [maxlen]
    bytes are there (or none at all); it refuses a string longer than
    [maxlen]; on every error the buffer is as it was. *)
Theorem nulterminated_string_correct mp maxlen b :
  sshbuf_wf b -> 0 <= maxlen -> mp <> 0 ->
  match sshbuf_get_nulterminated_string mp maxlen b with
  | (Ok (s, n), b') => n = zlen s /\ n <= maxlen /\ (0 ∉ s) /\ sshbuf_wf b' /\ contents b = s ++ 0 :: contents b'
  | (Err e, b') => b' = b /\
      ((e = SSH_ERR_MESSAGE_INCOMPLETE /\ (0 ∉ contents b) /\
        (contents b = [] \/ zlen (contents b) < maxlen)) \/
       (e = SSH_ERR_INVALID_FORMAT /\ maxlen <= zlen (contents b) /\
        forall s t, contents b = s ++ 0 :: t -> maxlen < zlen s))
  | (Crash, _) => False
  end.
Proof.
  intros H Hm Hmp. unfold sshbuf_get_nulterminated_string, bind at 1, get at 1.
  rewrite sshbuf_find_nul by done. pose proof (zlen_nonneg (contents b)).
  destruct (Z.ltb_spec (zlen (contents b)) 1).
  { assert (contents b = []) as -> by (apply zlen_0; lia). split; [done|]. left.
    split_and!; [done | apply not_elem_of_nil | by left]. }
  destruct (memchr 0 (contents b)) as [i|] eqn:E.
  - pose proof E as E'. apply memchr_some in E as (Hi & Hl & Hn). fold (ztake i (contents b)) in Hn.
    destruct (Z.ltb_spec maxlen i).
    { split; [done|]. right. split_and!; [done | lia |]. intros s t Est.
      destruct (Z.ltb_spec maxlen (zlen s)); [done|]. exfalso. apply Hn. unfold ztake. rewrite Est.
      rewrite take_app_ge by (unfold zlen in *; lia). apply elem_of_app. right.
      destruct (Z.to_nat i - length s)%nat eqn:K; [unfold zlen in *; lia|]. apply list_elem_of_here. }
    unfold bind at 1, reads. rewrite buf_bytes_wf by done. destruct (Z.eqb_spec mp 0); [done|]. unfold bind.
    destruct (sshbuf_consume_spec (i + 1) b H ltac:(lia)) as [[? _]|(_ & b' & -> & W' & F' & Ec & _)]; [lia|].
    simpl. rewrite span_to_nul, E'. split_and!; [zl | done | done | done |]. rewrite Ec.
    unfold ztake, zdrop. rewrite Z2Nat.inj_add by lia.
    rewrite <- (take_drop (Z.to_nat i) (contents b)) at 1. f_equal.
    rewrite (drop_S _ _ _ Hl). do 2 f_equal. lia.
  - apply memchr_none in E. simpl (_ =? _). cbv iota. unfold bind, reads. rewrite sshbuf_len_wf by done.
    destruct (Z.ltb_spec (zlen (contents b)) maxlen); (split; [done|]).
    + left. auto.
    + right. split_and!; [done | done |]. intros s t Est. exfalso. apply E. rewrite Est.
      apply elem_of_app. right. apply list_elem_of_here.
Qed.

Lemma nulterminated_string_correct_witness :
  exists b d d', sshbuf_new 16 32 = Some b /\ sshbuf_put 48 [104; 105; 0; 7] b = (Ok tt, d) /\
    sshbuf_get_nulterminated_string 64 10 d = (Ok ([104; 105], 2), d') /\ contents d' = [7].
Proof.
  destruct (sshbuf_new 16 32) as [b|] eqn:E; [|vm_compute in E; discriminate].
  destruct (sshbuf_new_wf 16 32 b) as (W & Hc & Hw & Hm); [lia | lia | done |].
  assert (Forall is_byte [104; 105; 0; 7]) as Hv by (by repeat (apply Forall_cons_2; [unfold is_byte; lia|])).
  destruct (sshbuf_put 48 [104; 105; 0; 7] b) as [r d] eqn:R0.
  pose proof (sshbuf_put_spec 48 [104; 105; 0; 7] b W Hv ltac:(vm_compute; discriminate)) as P.
  rewrite R0 in P. inversion P as [|? F|? ? ? F|[] ? ? ? A]; subst;
    [congruence | rewrite Hc, Hm in F; vm_compute in F; discriminate | discriminate |].
  destruct A as (Wd & _ & Ed). rewrite Hc in Ed. cbn [app] in Ed.
  pose proof (nulterminated_string_correct 64 10 d Wd ltac:(lia) ltac:(lia)) as Q.
  destruct (sshbuf_get_nulterminated_string 64 10 d) as [[[s n]|e|] d'] eqn:G.
  - destruct Q as (_ & _ & _ & _ & Q). exists b, d, d'.
    vm_compute in E. injection E as <-. vm_compute in R0. injection R0 as <-. vm_compute in G. injection G as <- <- <-.
    by split_and!.
  - vm_compute in E. injection E as <-. vm_compute in R0. injection R0 as <-. vm_compute in G. discriminate.
  - done.
Defined.
