(* ===== verification/Words.v ===== *)
(** * Numbers made of 32-bit words, and bits of concatenations

    [words_val] reads a list of words in network order, [lval] from the least
    significant word; bitwise operations act on them word by word. *)
From S2P Require Import Prelude SshbufGetput.

Fixpoint words_val (ws : list Z) : Z :=
  match ws with [] => 0 | w :: ws => w * 2 ^ (32 * zlen ws) + words_val ws end.

Definition is_word (w : Z) : Prop := 0 <= w < 2 ^ 32.

Lemma words_bound ws : Forall is_word ws -> 0 <= words_val ws < 2 ^ (32 * zlen ws).
Proof.
  induction 1 as [|w ws Hw _ IH]; [done|]. cbn [words_val]. rewrite zlen_cons.
  pose proof (zlen_nonneg ws). unfold is_word in Hw.
  replace (32 * (zlen ws + 1)) with (32 + 32 * zlen ws) by lia. rewrite Z.pow_add_r by lia. nia.
Qed.

(** Bits of a concatenation. *)
Lemma cat_testbit k a x n :
  0 <= k -> 0 <= x < 2 ^ k -> 0 <= n ->
  Z.testbit (a * 2 ^ k + x) n = if n <? k then Z.testbit x n else Z.testbit a (n - k).
Proof.
  intros Hk Hx Hn. rewrite <- (lor_low (a * 2 ^ k) x k Hk Hx) by (apply Z_mod_mult).
  rewrite Z.lor_spec. destruct (Z.ltb_spec n k).
  - by rewrite Z.mul_pow2_bits_low by lia.
  - rewrite Z.mul_pow2_bits by lia.
    destruct (Z.eq_dec x 0) as [->|]; [by rewrite Z.bits_0, orb_false_r|].
    rewrite (Z.bits_above_log2 x); [by rewrite orb_false_r | lia |].
    apply Z.lt_le_trans with k; [|lia]. apply Z.log2_lt_pow2; lia.
Qed.

Lemma shiftr_small k z : 0 <= k -> 0 <= z -> Z.shiftr z k = 0 <-> z < 2 ^ k.
Proof.
  intros Hk Hz. pose proof (Z.pow_pos_nonneg 2 k ltac:(lia) Hk).
  rewrite Z.shiftr_div_pow2, Z.div_small_iff by lia. lia.
Qed.

Lemma land_bound k x y : 0 <= k -> 0 <= x < 2 ^ k -> 0 <= y -> 0 <= Z.land x y < 2 ^ k.
Proof.
  intros Hk Hx Hy. assert (0 <= Z.land x y) by (apply Z.land_nonneg; lia). split; [done|].
  apply shiftr_small; [lia..|]. rewrite Z.shiftr_land, (proj2 (shiftr_small k x Hk ltac:(lia))) by lia.
  apply Z.land_0_l.
Qed.

Lemma lor_bound k x y : 0 <= k -> 0 <= x < 2 ^ k -> 0 <= y < 2 ^ k -> 0 <= Z.lor x y < 2 ^ k.
Proof.
  intros Hk Hx Hy. assert (0 <= Z.lor x y) by (apply Z.lor_nonneg; lia). split; [done|].
  apply shiftr_small; [lia..|]. rewrite Z.shiftr_lor.
  by rewrite (proj2 (shiftr_small k x Hk ltac:(lia))), (proj2 (shiftr_small k y Hk ltac:(lia))) by lia.
Qed.

Lemma cat_land k a b x y :
  0 <= k -> 0 <= x < 2 ^ k -> 0 <= y < 2 ^ k ->
  Z.land (a * 2 ^ k + x) (b * 2 ^ k + y) = Z.land a b * 2 ^ k + Z.land x y.
Proof.
  intros Hk Hx Hy. apply Z.bits_inj'. intros n Hn.
  rewrite Z.land_spec, !cat_testbit by (try apply land_bound; lia).
  destruct (n <? k); by rewrite Z.land_spec.
Qed.

Lemma cat_lor k a b x y :
  0 <= k -> 0 <= x < 2 ^ k -> 0 <= y < 2 ^ k ->
  Z.lor (a * 2 ^ k + x) (b * 2 ^ k + y) = Z.lor a b * 2 ^ k + Z.lor x y.
Proof.
  intros Hk Hx Hy. apply Z.bits_inj'. intros n Hn.
  rewrite Z.lor_spec, !cat_testbit by (try apply lor_bound; lia).
  destruct (n <? k); by rewrite Z.lor_spec.
Qed.

Lemma zlen_zip {A B C} (f : A -> B -> C) l k : length l = length k -> zlen (zip_with f l k) = zlen l.
Proof. intros H. unfold zlen. rewrite length_zip_with. lia. Qed.

(** A bitwise operation acts word by word. *)
Lemma words_zip (f : Z -> Z -> Z) x y :
  f 0 0 = 0 ->
  (forall k a b x y, 0 <= k -> 0 <= x < 2 ^ k -> 0 <= y < 2 ^ k ->
     f (a * 2 ^ k + x) (b * 2 ^ k + y) = f a b * 2 ^ k + f x y) ->
  Forall is_word x -> Forall is_word y -> length x = length y ->
  words_val (zip_with f x y) = f (words_val x) (words_val y).
Proof.
  intros H0 Hf Hx. revert y. induction Hx as [|a x Ha Hx IH]; intros [|b y] Hy Hl; try done.
  apply Forall_cons in Hy as [Hb Hy]. injection Hl as Hl. cbn [zip_with words_val].
  rewrite IH, zlen_zip by done. assert (zlen y = zlen x) as E by (unfold zlen; lia).
  pose proof (words_bound x Hx). pose proof (words_bound y Hy).
  rewrite E in *. pose proof (zlen_nonneg x). by rewrite Hf by lia.
Qed.

Lemma lnot_word w : is_word w -> u32 (Z.lnot w) = 2 ^ 32 - 1 - w.
Proof.
  unfold is_word, u32, Z.lnot. intros H. replace (Z.pred (- w)) with (2 ^ 32 - 1 - w + (-1) * 2 ^ 32) by lia.
  rewrite Z_mod_plus_full. apply Z.mod_small. lia.
Qed.

Lemma words_lnot ws :
  Forall is_word ws ->
  words_val (map (fun w => u32 (Z.lnot w)) ws) = 2 ^ (32 * zlen ws) - 1 - words_val ws.
Proof.
  induction 1 as [|w ws Hw Hws IH]; [done|]. cbn [map words_val]. rewrite IH, lnot_word by done.
  rewrite zlen_cons. assert (zlen (map (fun w => u32 (Z.lnot w)) ws) = zlen ws) as ->
    by (unfold zlen; by rewrite length_map).
  pose proof (zlen_nonneg ws). replace (32 * (zlen ws + 1)) with (32 + 32 * zlen ws) by lia.
  rewrite Z.pow_add_r by lia. lia.
Qed.

(** The value of the words from the last one. *)
Fixpoint lval (l : list Z) : Z := match l with [] => 0 | w :: l => w + 2 ^ 32 * lval l end.

Lemma words_val_snoc x w : words_val (x ++ [w]) = words_val x * 2 ^ 32 + w.
Proof.
  induction x as [|a x IH]; [change (w * 1 + 0 = 0 * 2 ^ 32 + w); lia|]. simpl app. cbn [words_val]. rewrite IH, zlen_app.
  change (zlen [w]) with 1. pose proof (zlen_nonneg x).
  replace (32 * (zlen x + 1)) with (32 * zlen x + 32) by lia. rewrite Z.pow_add_r by lia. lia.
Qed.

Lemma words_val_reverse l : words_val (reverse l) = lval l.
Proof.
  induction l as [|w l IH]; [done|]. rewrite reverse_cons, words_val_snoc, IH. simpl. lia.
Qed.

Lemma lval_bound l : Forall is_word l -> 0 <= lval l < 2 ^ (32 * zlen l).
Proof.
  intros H. rewrite <- words_val_reverse.
  replace (zlen l) with (zlen (reverse l)) by (unfold zlen; by rewrite length_reverse).
  apply words_bound. by apply Forall_reverse.
Qed.

(** ** Bits of a little-endian number *)

Lemma testbit_above k x n : 0 <= k <= n -> 0 <= x < 2 ^ k -> Z.testbit x n = false.
Proof.
  intros Hk Hx. destruct (Z.eq_dec x 0) as [->|]; [apply Z.bits_0|].
  apply Z.bits_above_log2; [lia|]. apply Z.lt_le_trans with k; [|lia]. apply Z.log2_lt_pow2; lia.
Qed.

Lemma lval_testbit l n :
  Forall is_word l -> 0 <= n ->
  Z.testbit (lval l) n =
    match l !! Z.to_nat (n / 32) with Some w => Z.testbit w (n mod 32) | None => false end.
Proof.
  intros Hl. revert n. induction Hl as [|w l Hw Hl IH]; intros n Hn.
  - by rewrite lookup_nil, Z.bits_0.
  - cbn [lval]. replace (w + 2 ^ 32 * lval l) with (lval l * 2 ^ 32 + w) by lia.
    rewrite cat_testbit by (unfold is_word in Hw; lia). destruct (Z.ltb_spec n 32) as [H|H].
    + rewrite Z.div_small, Z.mod_small by lia. done.
    + rewrite IH by lia. replace (n / 32) with ((n - 32) / 32 + 1).
      2:{ rewrite <- Z.div_add by lia. f_equal. lia. }
      replace (n mod 32) with ((n - 32) mod 32).
      2:{ rewrite <- (Z_mod_plus_full (n - 32) 1 32). f_equal. lia. }
      pose proof (Z.div_pos (n - 32) 32 ltac:(lia) ltac:(lia)).
      rewrite Z2Nat.inj_add by lia. change (Z.to_nat 1) with 1%nat. by rewrite Nat.add_1_r.
Qed.

(** Replacing the word [o], given the bits of the new word. *)
Lemma lval_insert l o w w' z :
  Forall is_word l -> l !! o = Some w -> is_word w' -> 0 <= z ->
  (forall n, 0 <= n < 32 -> Z.testbit z (32 * Z.of_nat o + n) = Z.testbit w' n) ->
  (forall n, 0 <= n -> n / 32 <> Z.of_nat o -> Z.testbit z n = Z.testbit (lval l) n) ->
  lval (<[o := w']> l) = z.
Proof.
  intros Hl Ho Hw' Hz Hin Hout. apply Z.bits_inj'. intros n Hn.
  rewrite lval_testbit by (try apply Forall_insert; done).
  pose proof (Z.div_pos n 32 Hn ltac:(lia)). destruct (Z.eq_dec (n / 32) (Z.of_nat o)) as [E|E].
  - rewrite E, Nat2Z.id, list_lookup_insert_eq by (by eapply lookup_lt_Some).
    rewrite <- Hin by (apply Z.mod_pos_bound; lia). f_equal. rewrite <- E. by rewrite <- Z.div_mod by lia.
  - rewrite list_lookup_insert_ne by lia. by rewrite <- lval_testbit, Hout.
Qed.

(** [l[o] |= x << sh] *)
Lemma lval_or l o w x sh :
  Forall is_word l -> l !! o = Some w -> 0 <= sh <= 32 -> 0 <= x < 2 ^ (32 - sh) ->
  is_word (Z.lor w (Z.shiftl x sh)) /\
  lval (<[o := Z.lor w (Z.shiftl x sh)]> l) = Z.lor (lval l) (Z.shiftl x (32 * Z.of_nat o + sh)).
Proof.
  intros Hl Ho Hsh Hx. pose proof (Forall_lookup_1 _ _ _ _ Hl Ho) as Hw.
  pose proof (lval_bound l Hl) as Hb.
  assert (0 <= Z.shiftl x sh < 2 ^ 32) as Hs.
  { rewrite Z.shiftl_mul_pow2 by lia. replace 32 with ((32 - sh) + sh) by lia.
    pose proof (Z.pow_pos_nonneg 2 sh ltac:(lia) ltac:(lia)). rewrite Z.pow_add_r by lia. nia. }
  assert (is_word (Z.lor w (Z.shiftl x sh))) as Hw' by (apply lor_bound; done || lia).
  split; [done|]. eapply lval_insert; [done | done | done | |intros n Hn|intros n Hn Hne].
  - apply Z.lor_nonneg. split; [lia|]. apply Z.shiftl_nonneg. lia.
  - rewrite !Z.lor_spec, !Z.shiftl_spec, lval_testbit by (done || lia).
    rewrite Z.mul_comm, Z.div_add_l, Z.div_small, Z.add_0_r, Nat2Z.id, Ho by lia.
    rewrite Z.add_comm, Z_mod_plus_full, Z.mod_small by lia. f_equal. f_equal. lia.
  - rewrite Z.lor_spec, Z.shiftl_spec by lia.
    destruct (Z.lt_ge_cases (n - (32 * Z.of_nat o + sh)) 0) as [H|H].
    + by rewrite (Z.testbit_neg_r x) by lia; rewrite orb_false_r.
    + rewrite (testbit_above (32 - sh) x) by (split_and!; try lia;
        assert (Z.of_nat o < n / 32) by (assert (Z.of_nat o <= n / 32) by (apply Z.div_le_lower_bound; lia); lia);
        assert (32 * (n / 32) <= n) by (apply Z.mul_div_le; lia); lia).
      by rewrite orb_false_r.
Qed.

(** [l[o] &= ~(1 << sh)] *)
Lemma lval_clear l o w sh :
  Forall is_word l -> l !! o = Some w -> 0 <= sh < 32 ->
  is_word (Z.land w (u32 (Z.lnot (Z.shiftl 1 sh)))) /\
  lval (<[o := Z.land w (u32 (Z.lnot (Z.shiftl 1 sh)))]> l) = Z.clearbit (lval l) (32 * Z.of_nat o + sh).
Proof.
  intros Hl Ho Hsh. pose proof (Forall_lookup_1 _ _ _ _ Hl Ho) as Hw. unfold is_word in Hw.
  pose proof (lval_bound l Hl) as Hb.
  assert (forall n, 0 <= n < 32 ->
    Z.testbit (u32 (Z.lnot (Z.shiftl 1 sh))) n = negb (n =? sh)) as Hbit.
  { intros n Hn. unfold u32. rewrite Z.mod_pow2_bits_low, Z.lnot_spec, Z.shiftl_spec by lia. f_equal.
    destruct (Z.eqb_spec n sh) as [->|]; [by rewrite Z.sub_diag|].
    destruct (Z.lt_ge_cases (n - sh) 0); [by rewrite Z.testbit_neg_r by lia|].
    apply (testbit_above 1); lia. }
  assert (is_word (Z.land w (u32 (Z.lnot (Z.shiftl 1 sh))))) as Hw'.
  { apply land_bound; [lia | done | apply Z.mod_pos_bound; lia]. }
  split; [done|]. eapply lval_insert; [done | done | done | |intros n Hn|intros n Hn Hne].
  - unfold Z.clearbit. rewrite Z.ldiff_land. apply Z.land_nonneg. lia.
  - rewrite Z.land_spec, Hbit by done. rewrite Z.clearbit_eqb, lval_testbit by (done || lia).
    rewrite (Z.mul_comm 32), Z.div_add_l, Z.div_small, Z.add_0_r, Nat2Z.id, Ho by lia.
    rewrite (Z.add_comm _ n), Z_mod_plus_full, Z.mod_small by lia. f_equal. f_equal.
    destruct (Z.eqb_spec n sh), (Z.eqb_spec (Z.of_nat o * 32 + sh) (n + Z.of_nat o * 32)); done || lia.
  - rewrite Z.clearbit_eqb by lia. destruct (Z.eqb_spec (32 * Z.of_nat o + sh) n) as [E|E]; [|by rewrite andb_true_r].
    exfalso. apply Hne. rewrite <- E. rewrite Z.mul_comm, Z.div_add_l, Z.div_small by lia. lia.
Qed.

Lemma lval_replicate n : lval (replicate n 0) = 0.
Proof. induction n as [|n IH]; [done|]. cbn [replicate lval]. rewrite IH. lia. Qed.

Lemma lval_app l k : lval (l ++ k) = lval l + 2 ^ (32 * zlen l) * lval k.
Proof.
  induction l as [|w l IH]; [change (lval k = 0 + 1 * lval k); lia|]. simpl app. cbn [lval]. rewrite IH, zlen_cons.
  pose proof (zlen_nonneg l). replace (32 * (zlen l + 1)) with (32 + 32 * zlen l) by lia.
  rewrite Z.pow_add_r by lia. lia.
Qed.
