(* ===== verification/Chacha.v ===== *)
(** * The ChaCha20 stream cipher: src/chacha.c

    A context is the list of its sixteen 32-bit words.  The theorems show that
    the block-wise loop, with its copy of a last partial block through a
    scratch buffer, is the exclusive or with a key stream that depends only on
    the context, and that the two counter words count blocks as one 64-bit
    number. *)
From S2P Require Import Prelude Sshbuf SshbufGetput CString Words.

(** ** Words and bytes, little end first *)

Definition U8TO32_LITTLE (p : list Z) : Z :=
  Z.lor (Z.lor (Z.lor (p !!! 0%nat) (u32 (Z.shiftl (p !!! 1%nat) 8)))
               (u32 (Z.shiftl (p !!! 2%nat) 16)))
        (u32 (Z.shiftl (p !!! 3%nat) 24)).

Definition U32TO8_LITTLE (v : Z) : list Z :=
  [Z.land v 0xff; Z.land (Z.shiftr v 8) 0xff; Z.land (Z.shiftr v 16) 0xff; Z.land (Z.shiftr v 24) 0xff].

Definition ROTL32 (v n : Z) : Z := Z.lor (u32 (Z.shiftl v n)) (Z.shiftr v (32 - n)).
Definition XOR (v w : Z) : Z := Z.lxor v w.
Definition PLUS (v w : Z) : Z := u32 (v + w).
Definition PLUSONE (v : Z) : Z := PLUS v 1.

(** ** The context *)

Definition chacha_ctx : Type := list Z.

Definition sigma : list Z := str "expand 32-byte k".
Definition tau : list Z := str "expand 16-byte k".

Definition set_words (o : nat) (ws : list Z) (x : chacha_ctx) : chacha_ctx :=
  list_inserts o ws x.

Definition words4 (p : list Z) : list Z :=
  [U8TO32_LITTLE p; U8TO32_LITTLE (zdrop 4 p); U8TO32_LITTLE (zdrop 8 p); U8TO32_LITTLE (zdrop 12 p)].

Definition chacha_keysetup (k : list Z) (kbits : Z) (x : chacha_ctx) : chacha_ctx :=
  let x := set_words 4 (words4 k) x in
  let '(k, constants) := if kbits =? 256 then (zdrop 16 k, sigma) else (k, tau) in
  set_words 0 (words4 constants) (set_words 8 (words4 k) x).

Definition chacha_ivsetup (iv : list Z) (counter : option (list Z)) (x : chacha_ctx) : chacha_ctx :=
  let x := set_words 12 [match counter with None => 0 | Some c => U8TO32_LITTLE c end;
                         match counter with None => 0 | Some c => U8TO32_LITTLE (zdrop 4 c) end] x in
  set_words 14 [U8TO32_LITTLE iv; U8TO32_LITTLE (zdrop 4 iv)] x.

(** ** The cipher *)

(** [a = PLUS(a,b)] and [d = ROTATE(XOR(d,a),n)]. *)
Definition plus_to (a b : nat) (x : list Z) : list Z := <[a := PLUS (x !!! a) (x !!! b)]> x.
Definition rotate_to (d a : nat) (n : Z) (x : list Z) : list Z :=
  <[d := ROTL32 (XOR (x !!! d) (x !!! a)) n]> x.

Definition QUARTERROUND (a b c d : nat) (x : list Z) : list Z :=
  let x := rotate_to d a 16 (plus_to a b x) in
  let x := rotate_to b c 12 (plus_to c d x) in
  let x := rotate_to d a 8 (plus_to a b x) in
  rotate_to b c 7 (plus_to c d x).

Definition double_round (x : list Z) : list Z :=
  let x := QUARTERROUND 0 4 8 12 x in
  let x := QUARTERROUND 1 5 9 13 x in
  let x := QUARTERROUND 2 6 10 14 x in
  let x := QUARTERROUND 3 7 11 15 x in
  let x := QUARTERROUND 0 5 10 15 x in
  let x := QUARTERROUND 1 6 11 12 x in
  let x := QUARTERROUND 2 7 8 13 x in
  QUARTERROUND 3 4 9 14 x.

Arguments QUARTERROUND : simpl never.
Arguments double_round : simpl never.

(** The twenty rounds and the final additions. *)
Definition block_words (j : list Z) : list Z :=
  zip_with PLUS (Nat.iter 10 double_round j) j.

(** The words of the block combined with the message and stored. *)
Fixpoint xor_store (ws m : list Z) : list Z :=
  match ws with
  | [] => []
  | w :: ws => U32TO8_LITTLE (XOR w (U8TO32_LITTLE m)) ++ xor_store ws (zdrop 4 m)
  end.

Definition bump (j : list Z) : list Z :=
  let j := <[12%nat := PLUSONE (j !!! 12%nat)]> j in
  if j !!! 12%nat =? 0 then <[13%nat := PLUSONE (j !!! 13%nat)]> j else j.

(** The loop on the blocks of [m]; [tmp] is the scratch buffer, which the code
    does not initialise. *)
Fixpoint encrypt_loop (fuel : nat) (tmp : list Z) (j m : list Z) : option (list Z * list Z) :=
  match fuel with
  | O => None
  | S fuel =>
      let bytes := zlen m in
      let src := if bytes <? 64 then m ++ zdrop bytes tmp else m in
      let c := xor_store (block_words j) src in
      let j := bump j in
      if bytes <=? 64 then Some (if bytes <? 64 then ztake bytes c else c, j)
      else
        match encrypt_loop fuel tmp j (zdrop 64 m) with
        | Some (r, j) => Some (c ++ r, j)
        | None => None
        end
  end.

Definition chacha_encrypt_bytes (tmp : list Z) (x : chacha_ctx) (m : list Z) : option (list Z * chacha_ctx) :=
  if zlen m =? 0 then Some ([], x)
  else
    match encrypt_loop (S (length m)) tmp x m with
    | Some (c, j) => Some (c, set_words 12 [j !!! 12%nat; j !!! 13%nat] x)
    | None => None
    end.

(** ** The key stream *)

Definition xor_bytes (m k : list Z) : list Z := zip_with Z.lxor m k.

Definition ctx_ok (x : chacha_ctx) : Prop := length x = 16%nat /\ Forall is_word x.

Definition counter (x : chacha_ctx) : Z := x !!! 12%nat + 2 ^ 32 * x !!! 13%nat.
Definition set_counter (n : Z) (x : chacha_ctx) : chacha_ctx :=
  set_words 12 [u32 n; u32 (n / 2 ^ 32)] x.

Definition block (x : chacha_ctx) : list Z := concat (map U32TO8_LITTLE (block_words x)).

(** [n] blocks of key stream from the context's counter on. *)
Fixpoint keystream (n : nat) (x : chacha_ctx) : list Z :=
  match n with
  | O => []
  | S n => block x ++ keystream n (set_counter (counter x + 1) x)
  end.

Definition blocks (n : Z) : nat := Z.to_nat ((n + 63) / 64).

(** ** Words of a context *)

Lemma le4_value a b c d :
  is_byte a -> is_byte b -> is_byte c -> is_byte d ->
  U8TO32_LITTLE [a; b; c; d] = a + 2 ^ 8 * b + 2 ^ 16 * c + 2 ^ 24 * d.
Proof.
  unfold is_byte, U8TO32_LITTLE. simpl. intros Ha Hb Hc Hd.
  rewrite !Z.shiftl_mul_pow2, !u32_small by lia.
  rewrite (Z.lor_comm a), (lor_low _ a 8), (Z.lor_comm _ (c * _)), (lor_low (c * _) _ 16),
    (Z.lor_comm _ (d * _)), (lor_low (d * _) _ 24); try (apply Z.mod_mul; lia); lia.
Qed.

Lemma le4_bytes a b c d :
  is_byte a -> is_byte b -> is_byte c -> is_byte d ->
  U32TO8_LITTLE (U8TO32_LITTLE [a; b; c; d]) = [a; b; c; d].
Proof.
  intros Ha Hb Hc Hd. rewrite le4_value by done. unfold is_byte, U32TO8_LITTLE in *.
  rewrite !land_ff, !Z.shiftr_div_pow2 by lia.
  repeat (f_equal; [Z.div_mod_to_equations; lia|]). f_equal; Z.div_mod_to_equations; lia.
Qed.

Lemma U32TO8_XOR w v : U32TO8_LITTLE (XOR w v) = xor_bytes (U32TO8_LITTLE w) (U32TO8_LITTLE v).
Proof.
  assert (D : forall x y, Z.land (Z.lxor x y) 0xff = Z.lxor (Z.land x 0xff) (Z.land y 0xff)).
  { intros x y. apply Z.bits_inj'. intros n Hn.
    rewrite !Z.lxor_spec, !Z.land_spec, Z.lxor_spec. by destruct (Z.testbit x n), (Z.testbit y n), (Z.testbit 255 n). }
  unfold XOR, U32TO8_LITTLE, xor_bytes. simpl. by rewrite !Z.shiftr_lxor, !D.
Qed.

Lemma U8TO32_app a b c d m : U8TO32_LITTLE (a :: b :: c :: d :: m) = U8TO32_LITTLE [a; b; c; d].
Proof. done. Qed.

Lemma xor_bytes_app a b k l :
  length a = length k -> xor_bytes (a ++ b) (k ++ l) = xor_bytes a k ++ xor_bytes b l.
Proof. apply zip_with_app. Qed.

Lemma xor_store_bytes ws m :
  (4 * length ws <= length m)%nat -> Forall is_byte m ->
  xor_store ws m = xor_bytes (concat (map U32TO8_LITTLE ws)) m.
Proof.
  revert m. induction ws as [|w ws IH]; intros m Hl Hm; [done|].
  destruct m as [|a [|b [|c [|d m]]]]; simpl in Hl; try lia.
  rewrite !Forall_cons in Hm. destruct Hm as (Ha & Hb & Hc & Hd & Hm). cbn [xor_store map concat].
  rewrite U8TO32_app, U32TO8_XOR, le4_bytes by done.
  change (zdrop 4 _) with m. rewrite IH by (done || lia).
  change (a :: b :: c :: d :: m) with ([a; b; c; d] ++ m). by rewrite <- xor_bytes_app.
Qed.

Lemma xor_bytes_take n a k : xor_bytes (take n a) (take n k) = take n (xor_bytes a k).
Proof. unfold xor_bytes. by rewrite zip_with_take. Qed.

Lemma xor_bytes_short a k : (length a <= length k)%nat -> xor_bytes a k = xor_bytes a (take (length a) k).
Proof.
  unfold xor_bytes. revert k. induction a as [|x a IH]; intros [|y k] Hl; simpl in *; try lia; [done..|].
  f_equal. apply IH. lia.
Qed.

Lemma xor_bytes_involutive a k : (length a <= length k)%nat -> xor_bytes (xor_bytes a k) k = a.
Proof.
  unfold xor_bytes. revert k. induction a as [|x a IH]; intros [|y k] Hl; simpl in *; try lia; [done..|].
  rewrite IH by lia. by rewrite Z.lxor_assoc, Z.lxor_nilpotent, Z.lxor_0_r.
Qed.

Lemma xor_bytes_len a k : (length a <= length k)%nat -> length (xor_bytes a k) = length a.
Proof. intros. unfold xor_bytes. rewrite length_zip_with. lia. Qed.

Lemma xor_bytes_comm a k : xor_bytes a k = xor_bytes k a.
Proof. unfold xor_bytes. rewrite <- zip_with_flip. apply zip_with_ext; [|done..]. intros. apply Z.lxor_comm. Qed.

Lemma lxor_byte a b : is_byte a -> is_byte b -> is_byte (Z.lxor a b).
Proof.
  unfold is_byte. intros Ha Hb. assert (0 <= Z.lxor a b) by (apply Z.lxor_nonneg; lia).
  destruct (Z.eq_dec (Z.lxor a b) 0) as [->|]; [lia|]. split; [done|].
  change 256 with (2 ^ 8). apply Z.log2_lt_pow2; [lia|].
  pose proof (Z.log2_lxor a b ltac:(lia) ltac:(lia)).
  assert (forall z, 0 <= z < 256 -> Z.log2 z < 8).
  { intros z Hz. destruct (Z.eq_dec z 0) as [->|]; [done|]. apply Z.log2_lt_pow2; lia. }
  pose proof (H1 a Ha). pose proof (H1 b Hb). lia.
Qed.

Lemma xor_bytes_bytes a k : Forall is_byte a -> Forall is_byte k -> Forall is_byte (xor_bytes a k).
Proof.
  unfold xor_bytes. intros Ha. revert k. induction Ha; intros k Hk; [constructor|].
  destruct Hk; constructor; auto using lxor_byte.
Qed.

(** ** Shapes *)

Lemma PLUS_word v w : is_word (PLUS v w).
Proof. unfold PLUS, is_word, u32. apply Z.mod_pos_bound. lia. Qed.

Lemma plus_to_len a b x : length (plus_to a b x) = length x.
Proof. apply length_insert. Qed.
Lemma rotate_to_len d a n x : length (rotate_to d a n x) = length x.
Proof. apply length_insert. Qed.

Lemma QUARTERROUND_len a b c d x : length (QUARTERROUND a b c d x) = length x.
Proof. unfold QUARTERROUND. cbv zeta. by repeat (rewrite rotate_to_len, plus_to_len). Qed.

Lemma double_round_len x : length (double_round x) = length x.
Proof. unfold double_round. cbv zeta. by rewrite !QUARTERROUND_len. Qed.

Lemma rounds_len n x : length (Nat.iter n double_round x) = length x.
Proof. induction n as [|n IH]; [done|]. change (Nat.iter (S n) _ x) with (double_round (Nat.iter n double_round x)).
  by rewrite double_round_len. Qed.

Lemma block_words_len x : length (block_words x) = length x.
Proof. unfold block_words. rewrite length_zip_with, rounds_len. lia. Qed.

#[global] Opaque block_words.

Lemma concat_words_len ws : length (concat (map U32TO8_LITTLE ws)) = (4 * length ws)%nat.
Proof. induction ws as [|w ws IH]; [done|]. simpl. rewrite IH. lia. Qed.

Lemma block_len x : length x = 16%nat -> length (block x) = 64%nat.
Proof. intros Hx. unfold block. by rewrite concat_words_len, block_words_len, Hx. Qed.

Lemma block_bytes x : Forall is_byte (block x).
Proof.
  unfold block. induction (block_words x) as [|w ws IH]; [constructor|]. simpl.
  unfold U32TO8_LITTLE. rewrite !land_ff. repeat (constructor; [apply is_byte_mod|]). done.
Qed.

Lemma ctx_cases (x : list Z) : length x = 16%nat -> exists a b c d e f g h i j k l m n o p,
  x = [a; b; c; d; e; f; g; h; i; j; k; l; m; n; o; p].
Proof.
  intros Hx. do 16 (destruct x as [|? x]; [simpl in Hx; lia|]).
  destruct x; [|simpl in Hx; lia]. by repeat eexists.
Qed.


Lemma u32_word z : is_word (u32 z).
Proof. unfold is_word, u32. apply Z.mod_pos_bound. lia. Qed.

Lemma set_counter_ok n x : ctx_ok x -> ctx_ok (set_counter n x).
Proof.
  intros [Hl Hw]. destruct (ctx_cases x Hl) as (?&?&?&?&?&?&?&?&?&?&?&?&m&c&?&?&->).
  split; [done|]. cbn. rewrite !Forall_cons in *. destruct_and?. split_and!; done || apply u32_word.
Qed.

Lemma set_counter_mod n x : set_counter (n mod 2 ^ 64) x = set_counter n x.
Proof.
  assert (u32 (n mod 2 ^ 64) = u32 n) as E1 by (unfold u32; Z.div_mod_to_equations; lia).
  assert (u32 (n mod 2 ^ 64 / 2 ^ 32) = u32 (n / 2 ^ 32)) as E2 by (unfold u32; Z.div_mod_to_equations; lia).
  unfold set_counter. by rewrite E1, E2.
Qed.

Lemma set_counter_twice n k x : ctx_ok x -> set_counter n (set_counter k x) = set_counter n x.
Proof. intros [Hl _]. by destruct (ctx_cases x Hl) as (?&?&?&?&?&?&?&?&?&?&?&?&m&c&?&?&->). Qed.

Lemma counter_set n x : ctx_ok x -> counter (set_counter n x) = n mod 2 ^ 64.
Proof.
  intros [Hl _]. destruct (ctx_cases x Hl) as (?&?&?&?&?&?&?&?&?&?&?&?&m&c&?&?&->).
  cbn -[Z.pow Z.add Z.mul Z.div]. unfold u32. change (2 ^ 64) with (2 ^ 32 * 2 ^ 32). by rewrite Z.rem_mul_r by lia.
Qed.

Lemma set_counter_self x : ctx_ok x -> set_counter (counter x) x = x.
Proof.
  intros [Hl Hw]. destruct (ctx_cases x Hl) as (?&?&?&?&?&?&?&?&?&?&?&?&a&b&?&?&->).
  rewrite !Forall_cons in Hw. destruct_and?. unfold is_word in *.
  unfold set_counter, counter, set_words. cbn -[Z.pow Z.add Z.mul Z.div].
  assert (u32 (a + 2 ^ 32 * b) = a) as -> by (unfold u32; Z.div_mod_to_equations; lia).
  by assert (u32 ((a + 2 ^ 32 * b) / 2 ^ 32) = b) as -> by (unfold u32; Z.div_mod_to_equations; lia).
Qed.

Lemma set_counter_add n k x :
  ctx_ok x -> set_counter (counter (set_counter n x) + k) (set_counter n x) = set_counter (n + k) x.
Proof.
  intros Hx. rewrite set_counter_twice, counter_set by done.
  rewrite <- set_counter_mod, Z.add_mod_idemp_l by lia. apply set_counter_mod.
Qed.

(** Carrying into the second counter word is adding 1 to a 64-bit counter. *)
Lemma bump_counter x : ctx_ok x -> bump x = set_counter (counter x + 1) x.
Proof.
  intros [Hl Hw]. destruct (ctx_cases x Hl) as (?&?&?&?&?&?&?&?&?&?&?&?&m&n&?&?&->).
  rewrite !Forall_cons in Hw. destruct_and?. unfold is_word in *. clear Hl.
  unfold bump, set_counter, counter, set_words, PLUSONE, PLUS. cbn -[Z.pow Z.add Z.mul Z.div].
  assert (u32 (m + 2 ^ 32 * n + 1) = u32 (m + 1)) as -> by (unfold u32; Z.div_mod_to_equations; lia).
  assert (u32 ((m + 2 ^ 32 * n + 1) / 2 ^ 32) = if u32 (m + 1) =? 0 then u32 (n + 1) else n) as ->;
    [|by destruct (_ =? 0)].
  destruct (u32 (m + 1) =? 0) eqn:C; zbool; unfold u32 in *; Z.div_mod_to_equations; lia.
Qed.

(** ** The loop *)

Lemma keystream_len n x : ctx_ok x -> length (keystream n x) = (64 * n)%nat.
Proof.
  revert x. induction n as [|n IH]; intros x Hx; [done|]. cbn [keystream].
  rewrite length_app, block_len, IH by (apply Hx || by apply set_counter_ok). lia.
Qed.

Lemma keystream_bytes n x : Forall is_byte (keystream n x).
Proof. revert x. induction n as [|n IH]; intros x; [constructor|]. apply Forall_app. auto using block_bytes. Qed.

Lemma blocks_step n : 64 < n -> blocks n = S (blocks (n - 64)).
Proof. intros. unfold blocks. rewrite <- Z2Nat.inj_succ by (apply Z.div_pos; lia). f_equal. Z.div_mod_to_equations; lia. Qed.

Lemma blocks_one n : 0 < n <= 64 -> blocks n = 1%nat.
Proof. intros. unfold blocks. replace ((n + 63) / 64) with 1 by (Z.div_mod_to_equations; lia). done. Qed.

(** A full block, and a last block through the scratch buffer. *)
Lemma xor_block x m : length x = 16%nat -> (64 <= length m)%nat -> Forall is_byte m ->
  xor_store (block_words x) m = xor_bytes (ztake 64 m) (block x).
Proof.
  intros Hx Hm Hb. rewrite xor_store_bytes by (done || (rewrite block_words_len, Hx; lia)).
  rewrite xor_bytes_comm. fold (block x). rewrite (xor_bytes_comm m), xor_bytes_short by (rewrite block_len; done).
  rewrite block_len by done. apply xor_bytes_comm.
Qed.

Lemma xor_partial x m tmp :
  length x = 16%nat -> length tmp = 64%nat -> (length m <= 64)%nat -> Forall is_byte m -> Forall is_byte tmp ->
  ztake (zlen m) (xor_store (block_words x) (m ++ zdrop (zlen m) tmp)) = xor_bytes m (block x).
Proof.
  intros Hx Ht Hm Hb Hbt.
  assert (Hl : length (m ++ zdrop (zlen m) tmp) = 64%nat) by (unfold zdrop, zlen; rewrite Nat2Z.id, length_app, length_drop; lia).
  rewrite xor_block; [|done|lia|].
  - rewrite (ztake_all 64) by (unfold zlen at 1; lia). unfold ztake, zlen. rewrite Nat2Z.id, <- xor_bytes_take, take_app_length.
    symmetry. apply xor_bytes_short. by rewrite block_len.
  - apply Forall_app. split; [done|]. by apply Forall_zdrop.
Qed.

Lemma encrypt_loop_spec fuel tmp j m :
  ctx_ok j -> length tmp = 64%nat -> Forall is_byte tmp -> Forall is_byte m ->
  0 < zlen m <= 64 * Z.of_nat fuel ->
  encrypt_loop fuel tmp j m =
    Some (xor_bytes m (keystream (blocks (zlen m)) j), set_counter (counter j + Z.of_nat (blocks (zlen m))) j).
Proof.
  intros Hj Ht Hbt. revert j m Hj. induction fuel as [|fuel IH]; intros j m Hj Hm Hl; [lia|].
  cbn [encrypt_loop]. rewrite bump_counter by done. destruct (zlen m <=? 64) eqn:C; zbool.
  - rewrite blocks_one by lia. cbn [keystream]. rewrite app_nil_r. f_equal. f_equal.
    destruct (zlen m <? 64) eqn:C'; zbool.
    + apply xor_partial; unfold zlen in *; try done; try apply Hj; lia.
    + rewrite xor_block, ztake_all; unfold zlen in *; try done; try apply Hj; lia.
  - rewrite (proj2 (Z.ltb_ge _ _)) by lia. rewrite blocks_step by lia.
    assert (Hz : zlen (zdrop 64 m) = zlen m - 64) by zl.
    rewrite IH by (done || (by apply set_counter_ok) || (by apply Forall_zdrop) || lia).
    rewrite Hz, set_counter_add by done. f_equal. f_equal; [|f_equal; lia]. cbn [keystream].
    rewrite xor_block by (done || apply Hj || (unfold zlen in *; lia)).
    rewrite <- xor_bytes_app by (rewrite block_len by apply Hj; unfold ztake, zlen in *; rewrite length_take; lia).
    by rewrite ztake_zdrop.
Qed.

Lemma set_words_counter n x : ctx_ok x ->
  set_words 12 [set_counter n x !!! 12%nat; set_counter n x !!! 13%nat] x = set_counter n x.
Proof. intros [Hl _]. by destruct (ctx_cases x Hl) as (?&?&?&?&?&?&?&?&?&?&?&?&m&c&?&?&->). Qed.

(** What the callers use. *)
Lemma encrypt_bytes_spec tmp x m :
  ctx_ok x -> length tmp = 64%nat -> Forall is_byte tmp -> Forall is_byte m ->
  chacha_encrypt_bytes tmp x m =
    Some (xor_bytes m (keystream (blocks (zlen m)) x), set_counter (counter x + Z.of_nat (blocks (zlen m))) x).
Proof.
  intros Hx Ht Hbt Hm. unfold chacha_encrypt_bytes. destruct (zlen m =? 0) eqn:C; zbool.
  - destruct m as [|a m]; [|pose proof (zlen_nonneg m); zl].
    change (blocks (zlen [])) with O. by rewrite Z.add_0_r, set_counter_self.
  - rewrite encrypt_loop_spec by (done || (unfold zlen in *; lia)). by rewrite set_words_counter.
Qed.

Lemma keystream_lookup n x i :
  ctx_ok x -> (i < 64 * n)%nat ->
  keystream n x !! i = block (set_counter (counter x + Z.of_nat (i / 64)) x) !! (i mod 64)%nat.
Proof.
  revert x i. induction n as [|n IH]; intros x i Hx Hi; [lia|]. cbn [keystream].
  pose proof (block_len x (proj1 Hx)) as Lb. destruct (decide (i < 64)%nat) as [Hs|Hs].
  - rewrite lookup_app_l by lia. rewrite Nat.div_small, Nat.mod_small by done.
    by rewrite Z.add_0_r, set_counter_self.
  - rewrite lookup_app_r, Lb by lia. rewrite IH by (by apply set_counter_ok || lia).
    replace i with (1 * 64 + (i - 64))%nat at 3 4 by lia.
    rewrite Nat.div_add_l by lia.
    rewrite set_counter_add by done. rewrite (Nat.add_comm (1 * 64)), Nat.Div0.mod_add by lia.
    do 3 f_equal. lia.
Qed.

Lemma blocks_enough (m : list Z) : (length m <= 64 * blocks (zlen m))%nat.
Proof. unfold blocks, zlen. Z.div_mod_to_equations. lia. Qed.

(** C33. [chacha_encrypt_bytes] is the exclusive or of the message with the key
    stream of the context: byte [i] of the output is byte [i] of the message
    combined with byte [i mod 64] of the ChaCha20 block whose 64-bit counter is
    the context's counter plus [i / 64], whatever the scratch buffer holds and
    however the message ends in a partial block; the counter of the context
    advances by the number of blocks started, carrying into its second word.
    With the same context it undoes itself. *)
Theorem chacha_is_stream_cipher tmp x m :
  ctx_ok x -> length tmp = 64%nat -> Forall is_byte tmp -> Forall is_byte m ->
  exists c x', chacha_encrypt_bytes tmp x m = Some (c, x') /\
    length c = length m /\ Forall is_byte c /\
    (forall i a, m !! i = Some a ->
       c !! i = Z.lxor a <$> block (set_counter (counter x + Z.of_nat (i / 64)) x) !! (i mod 64)%nat) /\
    x' = set_counter (counter x + (zlen m + 63) / 64) x /\
    (forall tmp', length tmp' = 64%nat -> Forall is_byte tmp' ->
       fst <$> chacha_encrypt_bytes tmp' x c = Some m).
Proof.
  intros Hx Ht Hbt Hm. pose proof (blocks_enough m) as Hn.
  pose proof (keystream_len (blocks (zlen m)) x Hx) as Hk.
  exists (xor_bytes m (keystream (blocks (zlen m)) x)). eexists. split; [by apply encrypt_bytes_spec|].
  pose proof (xor_bytes_len m (keystream (blocks (zlen m)) x) ltac:(lia)) as Hc. split_and!; [done| | | |].
  - by apply xor_bytes_bytes, keystream_bytes.
  - intros i a Ha. pose proof (lookup_lt_Some _ _ _ Ha). rewrite <- keystream_lookup with (n := blocks (zlen m)) by (done || lia).
    unfold xor_bytes. rewrite lookup_zip_with, Ha. simpl. by destruct (_ !! i).
  - unfold blocks. rewrite Z2Nat.id by (apply Z.div_pos; [|done]; pose proof (zlen_nonneg m); lia). done.
  - intros tmp' Ht' Hbt'. rewrite encrypt_bytes_spec by (done || by apply xor_bytes_bytes, keystream_bytes).
    assert (zlen (xor_bytes m (keystream (blocks (zlen m)) x)) = zlen m) as -> by (unfold zlen at 1; by rewrite Hc).
    simpl. by rewrite xor_bytes_involutive by lia.
Qed.

Definition demo_key : list Z := replicate 32 0.
Definition demo_ctx : chacha_ctx :=
  chacha_ivsetup (replicate 8 0) None (chacha_keysetup demo_key 256 (replicate 16 0)).

(** The first bytes of the key stream are those of the published test vector
    of ChaCha20 with a zero key and nonce. *)
Lemma chacha_is_stream_cipher_witness :
  ztake 16 (block demo_ctx) =
    [0x76; 0xb8; 0xe0; 0xad; 0xa0; 0xf1; 0x3d; 0x90; 0x40; 0x5d; 0x6a; 0xe5; 0x53; 0x86; 0xbd; 0x28] /\
  exists c x', chacha_encrypt_bytes (replicate 64 7) demo_ctx (replicate 100 5) = Some (c, x') /\ length c = 100%nat.
Proof.
  split; [by vm_compute|].
  destruct (chacha_is_stream_cipher (replicate 64 7) demo_ctx (replicate 100 5)) as (c & x' & E & L & _).
  - split; [reflexivity|]. apply (bool_decide_unpack _). by vm_compute.
  - reflexivity.
  - apply (bool_decide_unpack _). by vm_compute.
  - apply (bool_decide_unpack _). by vm_compute.
  - exists c, x'. split; [exact E | exact L].
Defined.
