(* ===== verification/Poly1305.v ===== *)
(** * The Poly1305 authenticator: src/poly1305.c

    The accumulator is five limbs of 26 bits kept in 32-bit words; products
    are 64-bit.  The theorem shows that no intermediate value overflows its
    word and that the tag is the one Poly1305 defines: the message's blocks
    evaluated as a polynomial at the clamped key modulo 2^130-5, plus the
    second half of the key modulo 2^128. *)
From S2P Require Import Prelude Sshbuf SshbufGetput CString Words Chacha.

Definition POLY1305_KEYLEN : Z := 32.
Definition POLY1305_TAGLEN : Z := 16.

(** [U8TO32_LE] and [U32TO8_LE] at an offset of a block. *)
Definition U8TO32_LE (p : list Z) (o : nat) : Z := U8TO32_LITTLE (drop o p).
Definition U32TO8_LE (v : Z) : list Z := [u8 v; u8 (Z.shiftr v 8); u8 (Z.shiftr v 16); u8 (Z.shiftr v 24)].

Record limbs : Type := mk_limbs { l0 : Z; l1 : Z; l2 : Z; l3 : Z; l4 : Z }.

(** [r0] to [r4]: the first half of the key, clamped. *)
Definition clamp (key : list Z) : limbs :=
  let t0 := U8TO32_LE key 0 in
  let t1 := U8TO32_LE key 4 in
  let t2 := U8TO32_LE key 8 in
  let t3 := U8TO32_LE key 12 in
  let r0 := Z.land t0 0x3ffffff in
  let t0 := Z.lor (Z.shiftr t0 26) (u32 (Z.shiftl t1 6)) in
  let r1 := Z.land t0 0x3ffff03 in
  let t1 := Z.lor (Z.shiftr t1 20) (u32 (Z.shiftl t2 12)) in
  let r2 := Z.land t1 0x3ffc0ff in
  let t2 := Z.lor (Z.shiftr t2 14) (u32 (Z.shiftl t3 18)) in
  let r3 := Z.land t2 0x3f03fff in
  let r4 := Z.land (Z.shiftr t3 8) 0x00fffff in
  mk_limbs r0 r1 r2 r3 r4.

(** The block [m] added to the accumulator; [hibit] is [1 << 24] for a full
    block. *)
Definition absorb (hibit : Z) (m : list Z) (h : limbs) : limbs :=
  let t0 := U8TO32_LE m 0 in
  let t1 := U8TO32_LE m 4 in
  let t2 := U8TO32_LE m 8 in
  let t3 := U8TO32_LE m 12 in
  mk_limbs (u32 (l0 h + Z.land t0 0x3ffffff))
    (u32 (l1 h + Z.land (Z.shiftr (Z.lor (Z.shiftl t1 32) t0) 26) 0x3ffffff))
    (u32 (l2 h + Z.land (Z.shiftr (Z.lor (Z.shiftl t2 32) t1) 20) 0x3ffffff))
    (u32 (l3 h + Z.land (Z.shiftr (Z.lor (Z.shiftl t3 32) t2) 14) 0x3ffffff))
    (u32 (l4 h + Z.lor (Z.shiftr t3 8) hibit)).

(** The label [poly1305_donna_mul]: the products ... *)
Definition donna_products (r h : limbs) : limbs :=
  let '(mk_limbs r0 r1 r2 r3 r4) := r in
  let '(mk_limbs h0 h1 h2 h3 h4) := h in
  let s1 := u32 (r1 * 5) in
  let s2 := u32 (r2 * 5) in
  let s3 := u32 (r3 * 5) in
  let s4 := u32 (r4 * 5) in
  mk_limbs (u64 (h0 * r0 + h1 * s4 + h2 * s3 + h3 * s2 + h4 * s1))
    (u64 (h0 * r1 + h1 * r0 + h2 * s4 + h3 * s3 + h4 * s2))
    (u64 (h0 * r2 + h1 * r1 + h2 * r0 + h3 * s4 + h4 * s3))
    (u64 (h0 * r3 + h1 * r2 + h2 * r1 + h3 * r0 + h4 * s4))
    (u64 (h0 * r4 + h1 * r3 + h2 * r2 + h3 * r1 + h4 * r0)).

(** ... and the carries, the last one folded into the lowest limb. *)
Definition donna_carries (t : limbs) : limbs :=
  let '(mk_limbs t0 t1 t2 t3 t4) := t in
  let h0 := Z.land (u32 t0) 0x3ffffff in
  let c := Z.shiftr t0 26 in
  let t1 := u64 (t1 + c) in
  let h1 := Z.land (u32 t1) 0x3ffffff in
  let b := u32 (Z.shiftr t1 26) in
  let t2 := u64 (t2 + b) in
  let h2 := Z.land (u32 t2) 0x3ffffff in
  let b := u32 (Z.shiftr t2 26) in
  let t3 := u64 (t3 + b) in
  let h3 := Z.land (u32 t3) 0x3ffffff in
  let b := u32 (Z.shiftr t3 26) in
  let t4 := u64 (t4 + b) in
  let h4 := Z.land (u32 t4) 0x3ffffff in
  let b := u32 (Z.shiftr t4 26) in
  mk_limbs (u32 (h0 + u32 (b * 5))) h1 h2 h3 h4.

Definition donna_mul (r h : limbs) : limbs := donna_carries (donna_products r h).

(** The loop on the full blocks and the last one. *)
Fixpoint donna_blocks (fuel : nat) (r h : limbs) (m : list Z) : option limbs :=
  match fuel with
  | O => None
  | S fuel =>
      let inlen := zlen m in
      if 16 <=? inlen then donna_blocks fuel r (donna_mul r (absorb (Z.shiftl 1 24) m h)) (zdrop 16 m)
      else if inlen =? 0 then Some h
      else
        let mp := m ++ 1 :: replicate (15 - length m) 0 in
        Some (donna_mul r (absorb 0 mp h))
  end.

(** One carry of the final pass: [h += b; b = h >> 26; h = h & 0x3ffffff]. *)
Definition carry (h b : Z) : Z * Z := let h := u32 (h + b) in (Z.land h 0x3ffffff, Z.shiftr h 26).

(** The label [poly1305_donna_finish]: the carries ... *)
Definition finish_carry (h : limbs) : limbs :=
  let '(mk_limbs h0 h1 h2 h3 h4) := h in
  let '(h0, b) := carry h0 0 in
  let '(h1, b) := carry h1 b in
  let '(h2, b) := carry h2 b in
  let '(h3, b) := carry h3 b in
  let '(h4, b) := carry h4 b in
  let '(h0, b) := carry h0 (u32 (b * 5)) in
  mk_limbs h0 (u32 (h1 + b)) h2 h3 h4.

(** ... the subtraction of 2^130-5, kept when it does not borrow ... *)
Definition finish_select (h : limbs) : limbs :=
  let '(mk_limbs h0 h1 h2 h3 h4) := h in
  let '(g0, b) := carry h0 5 in
  let '(g1, b) := carry h1 b in
  let '(g2, b) := carry h2 b in
  let '(g3, b) := carry h3 b in
  let g4 := u32 (h4 + b - Z.shiftl 1 26) in
  let b := u32 (Z.shiftr g4 31 - 1) in
  let nb := u32 (Z.lnot b) in
  let sel h g := Z.lor (Z.land h nb) (Z.land g b) in
  mk_limbs (sel h0 g0) (sel h1 g1) (sel h2 g2) (sel h3 g3) (sel h4 g4).

(** ... and the addition of the second half of the key. *)
Definition finish_add (key : list Z) (h : limbs) : list Z :=
  let '(mk_limbs h0 h1 h2 h3 h4) := h in
  let f0 := u64 (Z.lor h0 (u32 (Z.shiftl h1 26)) + U8TO32_LE key 16) in
  let f1 := u64 (Z.lor (Z.shiftr h1 6) (u32 (Z.shiftl h2 20)) + U8TO32_LE key 20) in
  let f2 := u64 (Z.lor (Z.shiftr h2 12) (u32 (Z.shiftl h3 14)) + U8TO32_LE key 24) in
  let f3 := u64 (Z.lor (Z.shiftr h3 18) (u32 (Z.shiftl h4 8)) + U8TO32_LE key 28) in
  let f1 := u64 (f1 + Z.shiftr f0 32) in
  let f2 := u64 (f2 + Z.shiftr f1 32) in
  let f3 := u64 (f3 + Z.shiftr f2 32) in
  U32TO8_LE f0 ++ U32TO8_LE f1 ++ U32TO8_LE f2 ++ U32TO8_LE f3.

Definition poly1305_auth (m key : list Z) : option (list Z) :=
  (fun h => finish_add key (finish_select (finish_carry h))) <$>
    donna_blocks (S (length m)) (clamp key) (mk_limbs 0 0 0 0 0) m.

(** ** What Poly1305 defines *)

(** The value of bytes, little end first. *)
Fixpoint le (l : list Z) : Z := match l with [] => 0 | b :: l => b + 256 * le l end.

(** [n] as [k] bytes, little end first. *)
Fixpoint le_bytes (k : nat) (n : Z) : list Z :=
  match k with O => [] | S k => n mod 256 :: le_bytes k (n / 256) end.

Definition P1305 : Z := 2 ^ 130 - 5.
Definition CLAMP : Z := 0x0ffffffc0ffffffc0ffffffc0fffffff.

(** The message in blocks of 16 bytes, each with a final 1. *)
Fixpoint poly_eval (n : nat) (r acc : Z) (m : list Z) : Z :=
  match n with
  | O => acc
  | S n => poly_eval n r ((acc + le (ztake 16 m ++ [1])) * r mod P1305) (zdrop 16 m)
  end.

Definition poly1305_spec (m key : list Z) : list Z :=
  let r := Z.land (le (ztake 16 key)) CLAMP in
  let s := le (ztake 16 (zdrop 16 key)) in
  le_bytes 16 ((poly_eval (Z.to_nat ((zlen m + 15) / 16)) r 0 m + s) mod 2 ^ 128).

Definition unhex (s : string) : list Z :=
  (fix go (l : list Z) : list Z :=
     match l with
     | a :: b :: l => (if a <? 58 then a - 48 else a - 87) * 16 + (if b <? 58 then b - 48 else b - 87) :: go l
     | _ => []
     end) (str s).
Definition demo_poly_key := unhex "85d6be7857556d337f4452fe42d506a80103808afb0db2fd4abff6af4149f51b".
Definition demo_poly_msg := str "Cryptographic Forum Research Group".
Definition demo_poly_tag := unhex "a8061dc1305136c6c22b8baf0c0127a9".

(** ** Limbs *)

Definition val (h : limbs) : Z :=
  l0 h + 2 ^ 26 * l1 h + 2 ^ 52 * l2 h + 2 ^ 78 * l3 h + 2 ^ 104 * l4 h.

(** After a multiplication: only the lowest limb exceeds 26 bits. *)
Definition reduced (h : limbs) : Prop :=
  0 <= l0 h <= 2800000000 /\ 0 <= l1 h < 2 ^ 26 /\ 0 <= l2 h < 2 ^ 26 /\ 0 <= l3 h < 2 ^ 26 /\ 0 <= l4 h < 2 ^ 26.

(** After a block is added. *)
Definition loaded (h : limbs) : Prop :=
  0 <= l0 h < 2800000000 + 2 ^ 26 /\ 0 <= l1 h <= 2 ^ 27 - 2 /\ 0 <= l2 h <= 2 ^ 27 - 2 /\
  0 <= l3 h <= 2 ^ 27 - 2 /\ 0 <= l4 h <= 2 ^ 26 + 2 ^ 25 - 2.

(** The clamped key: the products below fit because of these bounds. *)
Definition clamped (r : limbs) : Prop :=
  0 <= l0 r <= 0x3ffffff /\ 0 <= l1 r <= 0x3ffff03 /\ 0 <= l2 r <= 0x3ffc0ff /\
  0 <= l3 r <= 0x3f03fff /\ 0 <= l4 r <= 0xfffff.

Definition canonical (h : limbs) : Prop :=
  0 <= l0 h < 2 ^ 26 /\ 0 <= l1 h < 2 ^ 26 /\ 0 <= l2 h < 2 ^ 26 /\ 0 <= l3 h < 2 ^ 26 /\ 0 <= l4 h < 2 ^ 26.

Lemma land26 x : Z.land x 0x3ffffff = x mod 2 ^ 26.
Proof. change 0x3ffffff with (Z.ones 26). by apply Z.land_ones. Qed.

Lemma shiftl32_lor x y : 0 <= y < 2 ^ 32 -> Z.lor (Z.shiftl x 32) y = x * 2 ^ 32 + y.
Proof. intros. rewrite Z.shiftl_mul_pow2 by lia. apply (lor_low _ _ 32); [lia..|]. apply Z.mod_mul. lia. Qed.

Lemma carry_spec h b : 0 <= h + b < 2 ^ 32 -> carry h b = ((h + b) mod 2 ^ 26, (h + b) / 2 ^ 26).
Proof. intros. unfold carry. by rewrite u32_small, land26, Z.shiftr_div_pow2 by lia. Qed.

(** ** Multiplication *)

Lemma mul_bounds x y X Y : 0 <= x <= X -> 0 <= y <= Y -> 0 <= x * y <= X * Y.
Proof. nia. Qed.

(** The bounds of a product, which becomes an atom. *)
Ltac product H K :=
  let P := fresh "P" in
  pose proof (mul_bounds _ _ _ _ H K) as P;
  match type of P with 0 <= ?x * ?y <= ?b => let b' := eval vm_compute in b in change b with b' in P; generalize dependent (x * y) end;
  intros.

(** The sums of products before they are reduced modulo 2^64. *)
Definition sums (r h : limbs) : limbs :=
  let '(mk_limbs r0 r1 r2 r3 r4) := r in
  let '(mk_limbs h0 h1 h2 h3 h4) := h in
  mk_limbs (h0 * r0 + h1 * r4 * 5 + h2 * r3 * 5 + h3 * r2 * 5 + h4 * r1 * 5)
    (h0 * r1 + h1 * r0 + h2 * r4 * 5 + h3 * r3 * 5 + h4 * r2 * 5)
    (h0 * r2 + h1 * r1 + h2 * r0 + h3 * r4 * 5 + h4 * r3 * 5)
    (h0 * r3 + h1 * r2 + h2 * r1 + h3 * r0 + h4 * r4 * 5)
    (h0 * r4 + h1 * r3 + h2 * r2 + h3 * r1 + h4 * r0).

Definition fit (t : limbs) : Prop :=
  0 <= l0 t < 2 ^ 59 /\ 0 <= l1 t < 2 ^ 58 - 2 ^ 33 /\ 0 <= l2 t < 2 ^ 58 - 2 ^ 33 /\
  0 <= l3 t < 2 ^ 58 - 2 ^ 33 /\ 0 <= l4 t < 546500000 * 2 ^ 26.

Lemma sums_fit r h : clamped r -> loaded h -> fit (sums r h).
Proof.
  destruct r as [r0 r1 r2 r3 r4], h as [h0 h1 h2 h3 h4]. unfold clamped, loaded, fit. cbn [l0 l1 l2 l3 l4 sums].
  intros (R0 & R1 & R2 & R3 & R4) (H0 & H1 & H2 & H3 & H4).
  assert (H0' : 0 <= h0 <= 2867108864) by lia. clear H0.
  product H0' R0. product H0' R1. product H0' R2. product H0' R3. product H0' R4.
  product H1 R0. product H1 R1. product H1 R2. product H1 R3. product H1 R4.
  product H2 R0. product H2 R1. product H2 R2. product H2 R3. product H2 R4.
  product H3 R0. product H3 R1. product H3 R2. product H3 R3. product H3 R4.
  product H4 R0. product H4 R1. product H4 R2. product H4 R3. product H4 R4.
  clear R0 R1 R2 R3 R4 H0' H1 H2 H3 H4. split_and!; lia.
Qed.

Lemma sums_val r h : exists k, val h * val r = val (sums r h) + P1305 * k.
Proof.
  destruct r as [r0 r1 r2 r3 r4], h as [h0 h1 h2 h3 h4].
  exists (h1 * r4 + h2 * r3 + h3 * r2 + h4 * r1 + 2 ^ 26 * (h2 * r4 + h3 * r3 + h4 * r2)
     + 2 ^ 52 * (h3 * r4 + h4 * r3) + 2 ^ 78 * (h4 * r4)).
  unfold P1305, val. cbn [l0 l1 l2 l3 l4 sums]. ring.
Qed.

Lemma donna_products_spec r h : clamped r -> loaded h -> donna_products r h = sums r h.
Proof.
  intros Hr Hh. pose proof (sums_fit r h Hr Hh) as F.
  destruct r as [r0 r1 r2 r3 r4], h as [h0 h1 h2 h3 h4]. unfold clamped, fit in *. cbn [l0 l1 l2 l3 l4 sums] in *.
  destruct Hr as (R0 & R1 & R2 & R3 & R4), F as (F0 & F1 & F2 & F3 & F4). clear Hh.
  cbn [donna_products]. rewrite !(u32_small (_ * 5)) by lia. rewrite !Z.mul_assoc.
  rewrite !u64_small by (clear R0 R1 R2 R3 R4; lia). done.
Qed.

Lemma land_u32_26 x : Z.land (u32 x) 0x3ffffff = x mod 2 ^ 26.
Proof. rewrite land26. unfold u32. Z.div_mod_to_equations; lia. Qed.

(** [x] in base 2^26, the quotient below [n]. *)
Lemma split26 n x : 0 <= x < 2 ^ 26 * n ->
  exists q m, x / 2 ^ 26 = q /\ x mod 2 ^ 26 = m /\ x = m + 2 ^ 26 * q /\ 0 <= q < n /\ 0 <= m < 2 ^ 26.
Proof. intros. eexists _, _. do 2 (split; [done|]). Z.div_mod_to_equations. lia. Qed.

Ltac split26 n x q m := destruct (split26 n x) as (q & m & -> & -> & ? & ? & ?); [lia|].

Lemma donna_carries_spec t : fit t ->
  reduced (donna_carries t) /\ exists k, val t = val (donna_carries t) + P1305 * k.
Proof.
  destruct t as [t0 t1 t2 t3 t4]. unfold fit. cbn [l0 l1 l2 l3 l4]. intros (T0 & T1 & T2 & T3 & T4).
  unfold donna_carries. rewrite !land_u32_26, !Z.shiftr_div_pow2 by lia.
  split26 (2 ^ 33) t0 c m0. rewrite (u64_small (t1 + c)) by lia.
  split26 (2 ^ 32) (t1 + c) b1 m1. rewrite (u32_small b1), (u64_small (t2 + b1)) by lia.
  split26 (2 ^ 32) (t2 + b1) b2 m2. rewrite (u32_small b2), (u64_small (t3 + b2)) by lia.
  split26 (2 ^ 32) (t3 + b2) b3 m3. rewrite (u32_small b3), (u64_small (t4 + b3)) by lia.
  split26 546500065 (t4 + b3) b4 m4. rewrite (u32_small b4), (u32_small (b4 * 5)), (u32_small (m0 + b4 * 5)) by lia.
  unfold reduced, val. cbn [l0 l1 l2 l3 l4]. split; [split_and!; lia|]. exists b4. unfold P1305. lia.
Qed.

Lemma donna_mul_spec r h :
  clamped r -> loaded h ->
  reduced (donna_mul r h) /\ val (donna_mul r h) mod P1305 = val h * val r mod P1305.
Proof.
  intros Hr Hh. unfold donna_mul. rewrite donna_products_spec by done.
  destruct (donna_carries_spec (sums r h)) as [? [k E]]; [by apply sums_fit|]. split; [done|].
  destruct (sums_val r h) as [k' ->]. rewrite E, <- Z.add_assoc, <- Z.mul_add_distr_l, (Z.mul_comm P1305), Z.mod_add; [done|].
  unfold P1305. lia.
Qed.

(** ** Loading *)

Lemma le_app a b : le (a ++ b) = le a + 256 ^ zlen a * le b.
Proof.
  induction a as [|x a IH]; [simpl; unfold zlen; simpl; lia|]. cbn [le app]. rewrite IH, zlen_cons, Z.pow_add_r by (pose proof (zlen_nonneg a); lia). lia.
Qed.

Lemma le_bound a : Forall is_byte a -> 0 <= le a < 256 ^ zlen a.
Proof.
  induction 1 as [|x a Hx _ IH]; [done|]. cbn [le]. unfold is_byte in Hx.
  rewrite zlen_cons, Z.pow_add_r by (pose proof (zlen_nonneg a); lia). lia.
Qed.

Lemma le4_front a b c d m :
  is_byte a -> is_byte b -> is_byte c -> is_byte d ->
  U8TO32_LITTLE (a :: b :: c :: d :: m) = a + 2 ^ 8 * b + 2 ^ 16 * c + 2 ^ 24 * d.
Proof. intros. rewrite U8TO32_app. by apply le4_value. Qed.

(** The four words of 16 bytes. *)
Lemma words_of m : (16 <= length m)%nat -> Forall is_byte m ->
  exists a b c d, U8TO32_LE m 0 = a /\ U8TO32_LE m 4 = b /\ U8TO32_LE m 8 = c /\ U8TO32_LE m 12 = d /\
    le (ztake 16 m) = a + 2 ^ 32 * b + 2 ^ 64 * c + 2 ^ 96 * d /\
    0 <= a < 2 ^ 32 /\ 0 <= b < 2 ^ 32 /\ 0 <= c < 2 ^ 32 /\ 0 <= d < 2 ^ 32.
Proof.
  intros Hl Hb. do 16 (destruct m as [|? m]; [simpl in Hl; lia|]). rewrite !Forall_cons in Hb. destruct_and?.
  eexists _, _, _, _. do 4 (split; [reflexivity|]). unfold U8TO32_LE. cbn [drop].
  rewrite !le4_front by done. unfold is_byte in *. unfold ztake.
  change (Z.to_nat 16) with 16%nat. cbn [take le].
  change (take 0 m) with (@nil Z). cbn [le]. split; [ring|]. split_and!; lia.
Qed.

Lemma absorb_spec hibit m h :
  hibit = 0 \/ hibit = 2 ^ 24 -> (16 <= length m)%nat -> Forall is_byte m -> reduced h ->
  loaded (absorb hibit m h) /\ val (absorb hibit m h) = val h + le (ztake 16 m) + 2 ^ 104 * hibit.
Proof.
  intros Hi Hl Hb Hh. destruct h as [h0 h1 h2 h3 h4]. unfold reduced in Hh. cbn [l0 l1 l2 l3 l4] in Hh.
  destruct (words_of m Hl Hb) as (a & b & c & d & Ea & Eb & Ec & Ed & -> & A & B & C & D).
  unfold absorb. rewrite Ea, Eb, Ec, Ed, !shiftl32_lor, !land26, !Z.shiftr_div_pow2 by lia.
  assert (Z.lor (d / 2 ^ 8) hibit = d / 2 ^ 8 + hibit) as ->.
  { destruct Hi as [-> | ->]; [by rewrite Z.lor_0_r, Z.add_0_r|].
    rewrite Z.lor_comm, (lor_low _ _ 24); [lia|lia| |done]. Z.div_mod_to_equations; lia. }
  cbn [l0 l1 l2 l3 l4]. clear Ea Eb Ec Ed Hb Hl.
  assert (0 <= hibit <= 2 ^ 24) by lia. clear Hi.
  rewrite !u32_small by (Z.div_mod_to_equations; lia).
  unfold loaded, val. cbn [l0 l1 l2 l3 l4]. split; [split_and!; Z.div_mod_to_equations; lia|].
  Z.div_mod_to_equations; lia.
Qed.

(** A mask of two runs of ones. *)
Lemma land_runs x i j k : 0 <= i <= j -> 0 <= k ->
  Z.land x (Z.ones k * 2 ^ j + Z.ones i) = x / 2 ^ j mod 2 ^ k * 2 ^ j + x mod 2 ^ i.
Proof.
  intros Hi Hk. rewrite (Z.div_mod x (2 ^ j)) at 1 by lia. rewrite (Z.mul_comm (2 ^ j)), cat_land.
  - rewrite !Z.land_ones by lia. f_equal.
    replace (2 ^ j) with (2 ^ (j - i) * 2 ^ i) by (rewrite <- Z.pow_add_r by lia; f_equal; lia).
    rewrite Z.mul_comm. rewrite Z.rem_mul_r by lia. rewrite Z.mul_comm, Z.mod_add, Z.mod_mod by lia. done.
  - lia.
  - apply Z.mod_pos_bound. lia.
  - rewrite Z.ones_equiv. pose proof (Z.pow_le_mono_r 2 i j ltac:(lia) ltac:(lia)). lia.
Qed.

(** Two neighbouring words shifted together. *)
Lemma lor_join x y n : 0 <= n <= 32 -> 0 <= x < 2 ^ n ->
  Z.lor x (u32 (Z.shiftl y n)) = x + 2 ^ n * (y mod 2 ^ (32 - n)).
Proof.
  intros Hn Hx. assert (u32 (Z.shiftl y n) = y mod 2 ^ (32 - n) * 2 ^ n) as ->.
  { unfold u32. rewrite Z.shiftl_mul_pow2 by lia.
    replace (2 ^ 32) with (2 ^ (32 - n) * 2 ^ n) by (rewrite <- Z.pow_add_r by lia; f_equal; lia).
    rewrite Z.mul_mod_distr_r; lia. }
  rewrite Z.lor_comm, (lor_low _ _ n); [lia | lia | done |]. apply Z.mod_mul. lia.
Qed.

Lemma clamp_words a b c d :
  0 <= a < 2 ^ 32 -> 0 <= b < 2 ^ 32 -> 0 <= c < 2 ^ 32 -> 0 <= d < 2 ^ 32 ->
  Z.land (a + 2 ^ 32 * b + 2 ^ 64 * c + 2 ^ 96 * d) CLAMP =
    a mod 2 ^ 28 + 2 ^ 32 * (b / 4 mod 2 ^ 26 * 4) + 2 ^ 64 * (c / 4 mod 2 ^ 26 * 4) + 2 ^ 96 * (d / 4 mod 2 ^ 26 * 4).
Proof.
  intros A B C D.
  replace (a + 2 ^ 32 * b + 2 ^ 64 * c + 2 ^ 96 * d) with (((d * 2 ^ 32 + c) * 2 ^ 32 + b) * 2 ^ 32 + a) by ring.
  change CLAMP with (((0xffffffc * 2 ^ 32 + 0xffffffc) * 2 ^ 32 + 0xffffffc) * 2 ^ 32 + 0xfffffff).
  rewrite !cat_land by lia. change 0xfffffff with (Z.ones 28). rewrite Z.land_ones by lia.
  change 0xffffffc with (Z.ones 26 * 2 ^ 2 + Z.ones 0). rewrite !land_runs by lia.
  rewrite !Z.mod_1_r. change (2 ^ 2) with 4. ring.
Qed.

(** A word in four fields, the last of four bits. *)
Lemma fields x p q : 0 <= p <= q -> q <= 28 -> 0 <= x < 2 ^ 32 ->
  exists a b c d, x = a + 2 ^ p * (b + 2 ^ (q - p) * (c + 2 ^ (28 - q) * d)) /\
    0 <= a < 2 ^ p /\ 0 <= b < 2 ^ (q - p) /\ 0 <= c < 2 ^ (28 - q) /\ 0 <= d < 2 ^ 4.
Proof.
  intros Hp Hq Hx. set (y := x / 2 ^ p). set (z := y / 2 ^ (q - p)).
  exists (x mod 2 ^ p), (y mod 2 ^ (q - p)), (z mod 2 ^ (28 - q)), (z / 2 ^ (28 - q)).
  pose proof (Z.div_mod x (2 ^ p) ltac:(lia)). pose proof (Z.div_mod y (2 ^ (q - p)) ltac:(lia)).
  pose proof (Z.div_mod z (2 ^ (28 - q)) ltac:(lia)). split; [lia|].
  split_and!; try (apply Z.mod_pos_bound; lia).
  - subst z y. apply Z.div_pos; [|lia]. apply Z.div_pos; [|lia]. apply Z.div_pos; lia.
  - subst z y. rewrite !Z.div_div, <- !Z.pow_add_r by lia. replace (p + (q - p + (28 - q))) with 28 by lia.
    apply Z.div_lt_upper_bound; lia.
Qed.

Lemma clamp_spec key : (16 <= length key)%nat -> Forall is_byte key ->
  clamped (clamp key) /\ val (clamp key) = Z.land (le (ztake 16 key)) CLAMP.
Proof.
  intros Hl Hb. destruct (words_of key Hl Hb) as (a & b & c & d & Ea & Eb & Ec & Ed & -> & A & B & C & D).
  unfold clamp. rewrite Ea, Eb, Ec, Ed, clamp_words by done. clear Ea Eb Ec Ed Hb Hl. cbv zeta.
  rewrite !lor_join by (rewrite ?Z.shiftr_div_pow2 by lia; Z.div_mod_to_equations; lia).
  rewrite !Z.shiftr_div_pow2, land26 by lia.
  change 67108611 with (Z.ones 18 * 2 ^ 8 + Z.ones 2).
  change 67092735 with (Z.ones 12 * 2 ^ 14 + Z.ones 8).
  change 66076671 with (Z.ones 6 * 2 ^ 20 + Z.ones 14).
  change 1048575 with (Z.ones 20). rewrite !land_runs, Z.land_ones by lia.
  destruct (fields a 0 26) as (z & a0 & a1 & a2 & Ea & ? & ? & ? & ?); [lia..|].
  destruct (fields b 2 20) as (b0 & b1 & b2 & b3 & Eb & ? & ? & ? & ?); [lia..|].
  destruct (fields c 2 14) as (c0 & c1 & c2 & c3 & Ec & ? & ? & ? & ?); [lia..|].
  destruct (fields d 2 8) as (d0 & d1 & d2 & d3 & Ed & ? & ? & ? & ?); [lia..|].
  set (x1 := a / 2 ^ 26 + _). set (x2 := b / 2 ^ 20 + _). set (x3 := c / 2 ^ 14 + _).
  assert (a mod 2 ^ 26 = a0 /\ a mod 2 ^ 28 = a0 + 2 ^ 26 * a1) as [-> ->].
  { clear -Ea H H0 H1 H2. split; Z.div_mod_to_equations; lia. }
  assert (x1 / 2 ^ 8 mod 2 ^ 18 = b1 /\ x1 mod 2 ^ 2 = a1) as [-> ->].
  { clear - Ea Eb H H0 H1 H2 H3 H4 H5 H6. subst x1. split; Z.div_mod_to_equations; lia. }
  assert (x2 / 2 ^ 14 mod 2 ^ 12 = c1 /\ x2 mod 2 ^ 8 = b2) as [-> ->].
  { clear - Eb Ec H3 H4 H5 H6 H7 H8 H9 H10. subst x2. split; Z.div_mod_to_equations; lia. }
  assert (x3 / 2 ^ 20 mod 2 ^ 6 = d1 /\ x3 mod 2 ^ 14 = c2) as [-> ->].
  { clear - Ec Ed H7 H8 H9 H10 H11 H12 H13 H14. subst x3. split; Z.div_mod_to_equations; lia. }
  assert (b / 4 mod 2 ^ 26 = b1 + 2 ^ 18 * b2) as -> by (clear - Eb H3 H4 H5 H6; Z.div_mod_to_equations; lia).
  assert (c / 4 mod 2 ^ 26 = c1 + 2 ^ 12 * c2) as -> by (clear - Ec H7 H8 H9 H10; Z.div_mod_to_equations; lia).
  assert (d / 4 mod 2 ^ 26 = d1 + 2 ^ 6 * d2 /\ d / 2 ^ 8 mod 2 ^ 20 = d2) as [-> ->]
    by (clear - Ed H11 H12 H13 H14; split; Z.div_mod_to_equations; lia).
  unfold clamped, val. cbn [l0 l1 l2 l3 l4]. split; [split_and!; lia | lia].
Qed.

(** ** The blocks *)

Definition nblocks (m : list Z) : nat := Z.to_nat ((zlen m + 15) / 16).

Lemma nblocks_step m : 16 <= zlen m -> nblocks m = S (nblocks (zdrop 16 m)).
Proof.
  intros. unfold nblocks. rewrite <- Z2Nat.inj_succ by (apply Z.div_pos; zl). f_equal.
  rewrite zlen_drop. Z.div_mod_to_equations. lia.
Qed.

Lemma mul_acc_mod x y r k : x mod P1305 = k ->
  (x + y) * r mod P1305 = (k + y) * r mod P1305.
Proof.
  intros <-. rewrite (Z.mul_mod (x mod _ + y)), Z.add_mod_idemp_l, <- Z.mul_mod by (unfold P1305; lia). done.
Qed.

Lemma donna_blocks_spec fuel r h m :
  clamped r -> reduced h -> Forall is_byte m -> (length m < fuel)%nat ->
  exists h', donna_blocks fuel r h m = Some h' /\ reduced h' /\
    val h' mod P1305 = poly_eval (nblocks m) (val r) (val h mod P1305) m.
Proof.
  intros Hr. revert h m. induction fuel as [|fuel IH]; intros h m Hh Hm Hl; [lia|].
  cbn [donna_blocks]. destruct (16 <=? zlen m) eqn:C; zbool.
  - destruct (absorb_spec (Z.shiftl 1 24) m h) as [Ha Va]; [by right | unfold zlen in *; lia | done..|].
    destruct (donna_mul_spec r _ Hr Ha) as [Hd Vd].
    destruct (IH _ (zdrop 16 m) Hd) as (h' & -> & Hh' & E);
      [by apply Forall_zdrop | unfold zdrop, zlen in *; rewrite length_drop; lia |].
    exists h'. split_and!; [done..|]. rewrite E, Vd, Va, (nblocks_step m) by lia. cbn [poly_eval].
    f_equal. rewrite <- Z.add_assoc. rewrite le_app, zlen_take. replace (Z.min _ _) with 16 by lia. by apply mul_acc_mod.
  - destruct (zlen m =? 0) eqn:C'; zbool.
    + exists h. split_and!; [done..|]. unfold nblocks. by rewrite C'.
    + set (mp := m ++ _). assert (Lm : length mp = 16%nat).
      { subst mp. rewrite length_app. simpl. rewrite length_replicate. unfold zlen in *. lia. }
      assert (Bm : Forall is_byte mp).
      { apply Forall_app. split; [done|]. constructor; [done|]. by apply Forall_replicate. }
      destruct (absorb_spec 0 mp h) as [Ha Va]; [by left | lia | done..|].
      destruct (donna_mul_spec r _ Hr Ha) as [Hd Vd]. eexists. split_and!; [done..|].
      rewrite Vd, Va. assert (nblocks m = 1%nat) as ->.
      { unfold nblocks. replace ((zlen m + 15) / 16) with 1; [done|]. pose proof (zlen_nonneg m). Z.div_mod_to_equations. lia. }
      cbn [poly_eval]. rewrite (ztake_all 16 m) by lia. rewrite ztake_all by (unfold zlen; lia).
      rewrite Z.mul_0_r, Z.add_0_r. assert (le mp = le (m ++ [1])) as ->; [|by apply mul_acc_mod].
      subst mp. change (1 :: replicate (15 - length m) 0) with ([1] ++ replicate (15 - length m) 0).
      rewrite app_assoc, le_app. assert (le (replicate (15 - length m) 0) = 0) as ->; [|lia].
      generalize (15 - length m)%nat as n. intros n. induction n as [|n IHn]; [done|]. cbn [replicate le]. lia.
Qed.

(** ** The end *)

Lemma finish_carry_spec h : reduced h ->
  canonical (finish_carry h) /\ val (finish_carry h) mod P1305 = val h mod P1305.
Proof.
  destruct h as [h0 h1 h2 h3 h4]. unfold reduced. cbn [l0 l1 l2 l3 l4]. intros (H0 & H1 & H2 & H3 & H4).
  unfold finish_carry. rewrite carry_spec, Z.add_0_r by lia. split26 64 h0 b0 m0. rewrite carry_spec by lia.
  split26 2 (h1 + b0) b1 m1. rewrite carry_spec by lia. split26 2 (h2 + b1) b2 m2. rewrite carry_spec by lia.
  split26 2 (h3 + b2) b3 m3. rewrite carry_spec by lia. split26 2 (h4 + b3) b4 m4.
  rewrite (u32_small (b4 * 5)), carry_spec by lia. split26 2 (m0 + b4 * 5) c n0. rewrite u32_small by lia.
  unfold canonical, val. cbn [l0 l1 l2 l3 l4]. split; [split_and!; lia|].
  rewrite <- (Z.mod_add _ b4) by (unfold P1305; lia). f_equal. unfold P1305. lia.
Qed.

Lemma land_ones32 x : 0 <= x < 2 ^ 32 -> Z.land x (2 ^ 32 - 1) = x.
Proof. intros. change (2 ^ 32 - 1) with (Z.ones 32). rewrite Z.land_ones by lia. by apply Z.mod_small. Qed.

Lemma finish_select_spec h : canonical h ->
  canonical (finish_select h) /\ val (finish_select h) = val h mod P1305.
Proof.
  destruct h as [h0 h1 h2 h3 h4]. unfold canonical. cbn [l0 l1 l2 l3 l4]. intros (H0 & H1 & H2 & H3 & H4).
  unfold finish_select. rewrite carry_spec by lia. split26 2 (h0 + 5) b0 g0. rewrite carry_spec by lia.
  split26 2 (h1 + b0) b1 g1. rewrite carry_spec by lia. split26 2 (h2 + b1) b2 g2. rewrite carry_spec by lia.
  split26 2 (h3 + b2) b3 g3. change (Z.shiftl 1 26) with (2 ^ 26).
  destruct (decide (2 ^ 26 <= h4 + b3)) as [G|G].
  - replace (h4 + b3 - 2 ^ 26) with 0 by lia.
    change (u32 (Z.shiftr (u32 0) 31 - 1)) with (2 ^ 32 - 1). change (u32 (Z.lnot (2 ^ 32 - 1))) with 0. change (u32 0) with 0.
    rewrite !Z.land_0_r, !Z.lor_0_l, !land_ones32 by lia. unfold val. cbn [l0 l1 l2 l3 l4]. split; [split_and!; lia|].
    apply Z.mod_unique_pos with (q := 1); unfold P1305; lia.
  - assert (u32 (h4 + b3 - 2 ^ 26) = 2 ^ 32 + (h4 + b3 - 2 ^ 26)) as ->.
    { symmetry. apply Z.mod_unique_pos with (q := -1); lia. }
    assert (Z.shiftr (2 ^ 32 + (h4 + b3 - 2 ^ 26)) 31 = 1) as ->.
    { rewrite Z.shiftr_div_pow2 by lia. symmetry. apply Z.div_unique_pos with (r := 2 ^ 31 + (h4 + b3 - 2 ^ 26)); lia. }
    change (u32 (1 - 1)) with 0. change (u32 (Z.lnot 0)) with (2 ^ 32 - 1).
    rewrite !Z.land_0_r, !Z.lor_0_r, !land_ones32 by lia. unfold val. cbn [l0 l1 l2 l3 l4]. split; [split_and!; lia|].
    symmetry. apply Z.mod_small. unfold P1305. lia.
Qed.

Lemma U32TO8_LE_mod x : U32TO8_LE x = U32TO8_LE (x mod 2 ^ 32).
Proof.
  unfold U32TO8_LE, u8. rewrite !Z.shiftr_div_pow2 by lia.
  assert (x mod 2 ^ 8 = (x mod 2 ^ 32) mod 2 ^ 8) as <- by (Z.div_mod_to_equations; lia).
  assert (x / 2 ^ 8 mod 2 ^ 8 = x mod 2 ^ 32 / 2 ^ 8 mod 2 ^ 8) as <- by (Z.div_mod_to_equations; lia).
  assert (x / 2 ^ 16 mod 2 ^ 8 = x mod 2 ^ 32 / 2 ^ 16 mod 2 ^ 8) as <- by (Z.div_mod_to_equations; lia).
  by assert (x / 2 ^ 24 mod 2 ^ 8 = x mod 2 ^ 32 / 2 ^ 24 mod 2 ^ 8) as <- by (Z.div_mod_to_equations; lia).
Qed.

Lemma le_bytes_word k n : le_bytes (4 + k) n = U32TO8_LE n ++ le_bytes k (n / 2 ^ 32).
Proof.
  unfold U32TO8_LE, u8. cbn [le_bytes app Nat.add]. rewrite !Z.shiftr_div_pow2, !Z.div_div by lia. done.
Qed.

(** [x] split at bit [k]. *)
Lemma split_at k x : 0 <= k -> 0 <= x ->
  exists m q, x mod 2 ^ k = m /\ x / 2 ^ k = q /\ x = m + 2 ^ k * q /\ 0 <= m < 2 ^ k /\ 0 <= q.
Proof.
  intros. eexists _, _. do 2 (split; [done|]). split_and!.
  - rewrite (Z.div_mod x (2 ^ k)) at 1; lia.
  - by apply Z.mod_pos_bound; lia.
  - by apply Z.mod_pos_bound; lia.
  - apply Z.div_pos; lia.
Qed.

Ltac split_at k x m q := destruct (split_at k x) as (m & q & ? & ? & ? & ? & ?); [lia..|].

(** Four words with their carries are the words of the sum. *)
Lemma add_words e0 e1 e2 e3 n :
  0 <= e0 < 2 ^ 32 -> 0 <= e1 < 2 ^ 32 -> 0 <= e2 < 2 ^ 32 -> 0 <= e3 < 2 ^ 32 ->
  n = e0 + 2 ^ 32 * e1 + 2 ^ 64 * e2 + 2 ^ 96 * e3 ->
  le_bytes 16 n = U32TO8_LE e0 ++ U32TO8_LE e1 ++ U32TO8_LE e2 ++ U32TO8_LE e3.
Proof.
  intros H0 H1 H2 H3 ->. change 16%nat with (4 + (4 + (4 + (4 + 0))))%nat. rewrite !le_bytes_word, !Z.div_div by lia.
  cbn [le_bytes]. rewrite app_nil_r.
  rewrite (U32TO8_LE_mod (_ + 2 ^ 96 * e3)), (U32TO8_LE_mod (_ / 2 ^ 32)), (U32TO8_LE_mod (_ / (2 ^ 32 * 2 ^ 32))),
    (U32TO8_LE_mod (_ / (2 ^ 32 * (2 ^ 32 * 2 ^ 32)))).
  repeat f_equal; Z.div_mod_to_equations; lia.
Qed.

Lemma finish_add_spec key h : (32 <= length key)%nat -> Forall is_byte key -> canonical h ->
  finish_add key h = le_bytes 16 ((val h + le (ztake 16 (zdrop 16 key))) mod 2 ^ 128).
Proof.
  intros Hl Hb. destruct h as [h0 h1 h2 h3 h4]. unfold canonical. cbn [l0 l1 l2 l3 l4].
  intros (H0 & H1 & H2 & H3 & H4).
  destruct (words_of (zdrop 16 key)) as (a & b & c & d & Ea & Eb & Ec & Ed & -> & A & B & C & D);
    [unfold zdrop; rewrite length_drop; lia | by apply Forall_zdrop |].
  unfold finish_add. change (U8TO32_LE key 16) with (U8TO32_LE (zdrop 16 key) 0).
  unfold U8TO32_LE, zdrop in *. change (Z.to_nat 16) with 16%nat in *. rewrite !drop_drop in *.
  cbn [Nat.add] in *. rewrite Ea, Eb, Ec, Ed. clear Ea Eb Ec Ed Hb Hl.
  split_at 6 h1 p1 q1. split_at 12 h2 p2 q2. split_at 18 h3 p3 q3. split_at 24 h4 p4 q4.
  rewrite !Z.shiftr_div_pow2 by lia.
  rewrite !lor_join by lia.
  change (32 - 26) with 6. change (32 - 20) with 12. change (32 - 14) with 18. change (32 - 8) with 24.
  rewrite H, H5, H9, H10, H14, H15, H19.
  rewrite (u64_small (h0 + _ + a)), (u64_small (q1 + _ + b)), (u64_small (q2 + _ + c)), (u64_small (q3 + _ + d)) by lia.
  split_at 32 (h0 + 2 ^ 26 * p1 + a) e0 k0. rewrite (U32TO8_LE_mod (h0 + _ + a)), H24, H25.
  rewrite (u64_small (q1 + _ + b + k0)) by lia.
  split_at 32 (q1 + 2 ^ 20 * p2 + b + k0) e1 k1. rewrite (U32TO8_LE_mod (q1 + _ + b + k0)), H29, H30.
  rewrite (u64_small (q2 + _ + c + k1)) by lia.
  split_at 32 (q2 + 2 ^ 14 * p3 + c + k1) e2 k2. rewrite (U32TO8_LE_mod (q2 + _ + c + k1)), H34, H35.
  rewrite (u64_small (q3 + _ + d + k2)) by lia.
  split_at 32 (q3 + 2 ^ 8 * p4 + d + k2) e3 k3. rewrite (U32TO8_LE_mod (q3 + _ + d + k2)), H39.
  symmetry. apply add_words; [lia..|]. symmetry. apply Z.mod_unique_pos with (q := k3 + q4); [lia|].
  unfold val. cbn [l0 l1 l2 l3 l4]. lia.
Qed.

Lemma poly1305_auth_ok m key :
  Forall is_byte m -> Forall is_byte key -> length key = 32%nat ->
  poly1305_auth m key = Some (poly1305_spec m key).
Proof.
  intros Hm Hk Hl. unfold poly1305_auth, poly1305_spec.
  destruct (clamp_spec key) as [Cr Vr]; [lia | done |].
  destruct (donna_blocks_spec (S (length m)) (clamp key) (mk_limbs 0 0 0 0 0) m) as (h & -> & Hh & V);
    [done | unfold reduced; simpl; lia | done | lia |].
  destruct (finish_carry_spec h Hh) as [Hc Vc]. destruct (finish_select_spec _ Hc) as [Hs Vs]. simpl.
  rewrite finish_add_spec by (done || lia). by rewrite Vs, Vc, V, Vr.
Qed.

(** C34. [poly1305_auth] computes Poly1305.  For a message of any length and a
    32-byte key the tag is [((c_1 r^q + ... + c_q r) mod 2^130-5 + s) mod
    2^128], little end first, where [r] is the clamped first half of the key,
    [s] the second half and [c_i] the 16-byte blocks with a final 1 appended.
    So none of the 32- and 64-bit sums of the 26-bit limbs wraps, the deferred
    carries lose nothing, and the branch-free selection at the end reduces
    completely. *)
Theorem poly1305_correct m key :
  Forall is_byte m -> Forall is_byte key -> length key = 32%nat ->
  poly1305_auth m key = Some (poly1305_spec m key).
Proof. apply poly1305_auth_ok. Qed.

(** The test vector of RFC 8439, section 2.5.2. *)
Lemma poly1305_correct_witness : poly1305_auth demo_poly_msg demo_poly_key = Some demo_poly_tag.
Proof.
  rewrite (poly1305_correct demo_poly_msg demo_poly_key).
  - by vm_compute.
  - apply (bool_decide_unpack _). by vm_compute.
  - apply (bool_decide_unpack _). by vm_compute.
  - reflexivity.
Defined.
