(* ===== verification/ChachaPoly.v ===== *)
(** * chacha20-poly1305@openssh.com: src/cipher-chachapoly.c

    The construction on top of ChaCha20 and Poly1305.  [tmp] is the scratch
    buffer of chacha.c. *)
From S2P Require Import Prelude Sshbuf SshbufGetput CString Words Chacha Poly1305.

Definition SSH_ERR_MAC_INVALID : Z := -30.

Record chachapoly_ctx : Type := mk_chachapoly { main_ctx : chacha_ctx; header_ctx : chacha_ctx }.

Definition chachapoly_new (key : list Z) (keylen : Z) : option chachapoly_ctx :=
  if negb (keylen =? 32 + 32) then None
  else Some (mk_chachapoly (chacha_keysetup key 256 (replicate 16 0))
                           (chacha_keysetup (zdrop 32 key) 256 (replicate 16 0))).

(** [chacha_ivsetup] and [chacha_encrypt_bytes] on one of the two contexts. *)
Definition main_crypt (tmp iv : list Z) (counter : option (list Z)) (m : list Z) : ST chachapoly_ctx (list Z) := fun ctx =>
  match chacha_encrypt_bytes tmp (chacha_ivsetup iv counter (main_ctx ctx)) m with
  | Some (c, x) => (Ok c, mk_chachapoly x (header_ctx ctx))
  | None => (Crash, ctx)
  end.

Definition header_crypt (tmp iv : list Z) (counter : option (list Z)) (m : list Z) : ST chachapoly_ctx (list Z) := fun ctx =>
  match chacha_encrypt_bytes tmp (chacha_ivsetup iv counter (header_ctx ctx)) m with
  | Some (c, x) => (Ok c, mk_chachapoly (main_ctx ctx) x)
  | None => (Crash, ctx)
  end.

(** The bytes stored at [dest]; [src] is the memory from [src] on. *)
Definition chachapoly_crypt (tmp : list Z) (seqnr : Z) (src : list Z) (len aadlen authlen : Z) (do_encrypt : bool)
    : ST chachapoly_ctx (list Z) :=
  let one := [1; 0; 0; 0; 0; 0; 0; 0] in
  let seqbuf := POKE_U64 seqnr in
  let! poly_key := main_crypt tmp seqbuf None (replicate 32 0) in
  let! bad :=
    (if do_encrypt then ret false
     else
       let! data := defined (mem_read src 0 (aadlen + len)) in
       let! tag := defined (mem_read src (aadlen + len) POLY1305_TAGLEN) in
       let! expected_tag := defined (poly1305_auth data poly_key) in
       ret (negb (bool_decide (expected_tag = tag)))) in
  if bad then fail SSH_ERR_MAC_INVALID
  else
    let! aad := (if aadlen =? 0 then ret []
                 else let! a := defined (mem_read src 0 aadlen) in header_crypt tmp seqbuf None a) in
    let! data := defined (mem_read src aadlen len) in
    let! body := main_crypt tmp seqbuf (Some one) data in
    if do_encrypt then
      let! tag := defined (poly1305_auth (aad ++ body) poly_key) in ret (aad ++ body ++ tag)
    else ret (aad ++ body).

Definition chachapoly_get_length (tmp : list Z) (seqnr : Z) (cp : list Z) (len : Z) : ST chachapoly_ctx Z :=
  if len <? 4 then fail SSH_ERR_MESSAGE_INCOMPLETE
  else
    let! p := defined (mem_read cp 0 4) in
    let! buf := header_crypt tmp (POKE_U64 seqnr) None p in
    defined (PEEK_U32 buf).

(** ** What it computes *)

(** The context only holds the keys: the other words are set before use. *)
Definition key_of (x : chacha_ctx) : list Z := take 12 x.
Definition keys_of (ctx : chachapoly_ctx) : list Z * list Z := (key_of (main_ctx ctx), key_of (header_ctx ctx)).
Definition cp_ok (ctx : chachapoly_ctx) : Prop := ctx_ok (main_ctx ctx) /\ ctx_ok (header_ctx ctx).

(** The key stream for packet [seqnr] from block [n] on. *)
Definition pkt_stream (key : list Z) (seqnr n : Z) (k : nat) : list Z :=
  keystream k (key ++ [u32 n; u32 (n / 2 ^ 32); U8TO32_LITTLE (POKE_U64 seqnr); U8TO32_LITTLE (zdrop 4 (POKE_U64 seqnr))]).

Definition pkt_crypt (key : list Z) (seqnr n : Z) (m : list Z) : list Z :=
  xor_bytes m (pkt_stream key seqnr n (blocks (zlen m))).

Definition poly_key_of (key : list Z) (seqnr : Z) : list Z := pkt_crypt key seqnr 0 (replicate 32 0).

Definition seal (keys : list Z * list Z) (seqnr : Z) (aad m : list Z) : list Z :=
  let c := pkt_crypt (snd keys) seqnr 0 aad ++ pkt_crypt (fst keys) seqnr 1 m in
  c ++ poly1305_spec c (poly_key_of (fst keys) seqnr).

Arguments poly1305_auth : simpl never.
Arguments poly1305_spec : simpl never.
Arguments poly_key_of : simpl never.
Arguments pkt_crypt : simpl never.

Lemma ivsetup_key iv counter x : length x = 16%nat ->
  chacha_ivsetup iv counter x =
    key_of x ++ [match counter with None => 0 | Some c => U8TO32_LITTLE c end;
                 match counter with None => 0 | Some c => U8TO32_LITTLE (zdrop 4 c) end;
                 U8TO32_LITTLE iv; U8TO32_LITTLE (zdrop 4 iv)].
Proof. intros Hl. by destruct (ctx_cases x Hl) as (?&?&?&?&?&?&?&?&?&?&?&?&?&?&?&?&->). Qed.

Lemma POKE_U64_word s : is_word (U8TO32_LITTLE (POKE_U64 s)) /\ is_word (U8TO32_LITTLE (zdrop 4 (POKE_U64 s))).
Proof.
  pose proof (POKE_U64_bytes s) as Hb. remember (POKE_U64 s) as l eqn:El.
  assert (Hl : length l = 8%nat) by (by subst l). clear El.
  do 8 (destruct l as [|? l]; [done|]). rewrite !Forall_cons in Hb. destruct_and?.
  change (zdrop 4 _) with (z3 :: z4 :: z5 :: z6 :: l).
  rewrite !le4_front by done. unfold is_byte, is_word in *. lia.
Qed.

(** The context after [chacha_ivsetup] is the packet's. *)
Lemma pkt_ctx key s n : length key = 12%nat -> Forall is_word key ->
  ctx_ok (key ++ [u32 n; u32 (n / 2 ^ 32); U8TO32_LITTLE (POKE_U64 s); U8TO32_LITTLE (zdrop 4 (POKE_U64 s))]).
Proof.
  intros Hl Hw. split; [by rewrite length_app, Hl|]. apply Forall_app. split; [done|].
  destruct (POKE_U64_word s). repeat (constructor; [first [apply u32_word | done]|]). constructor.
Qed.

Lemma key_of_ok x : ctx_ok x -> length (key_of x) = 12%nat /\ Forall is_word (key_of x).
Proof. intros [Hl Hw]. unfold key_of. split; [rewrite length_take; lia | by apply Forall_take]. Qed.

Lemma key_of_set_counter n x : ctx_ok x -> key_of (set_counter n x) = key_of x.
Proof. intros [Hl _]. by destruct (ctx_cases x Hl) as (?&?&?&?&?&?&?&?&?&?&?&?&?&?&?&?&->). Qed.

(** ** Key streams *)

Definition keys_ok (keys : list Z * list Z) : Prop :=
  length (fst keys) = 12%nat /\ Forall is_word (fst keys) /\ length (snd keys) = 12%nat /\ Forall is_word (snd keys).

Lemma cp_keys_ok ctx : cp_ok ctx -> keys_ok (keys_of ctx).
Proof. intros [H1 H2]. destruct (key_of_ok _ H1), (key_of_ok _ H2). done. Qed.

Lemma pkt_stream_len key s n k : length key = 12%nat -> Forall is_word key -> length (pkt_stream key s n k) = (64 * k)%nat.
Proof. intros. unfold pkt_stream. apply keystream_len. by apply pkt_ctx. Qed.

Lemma pkt_crypt_len key s n m : length key = 12%nat -> Forall is_word key -> zlen (pkt_crypt key s n m) = zlen m.
Proof.
  intros Hl Hw. unfold pkt_crypt, zlen at 1. rewrite xor_bytes_len; [done|].
  rewrite pkt_stream_len by done. apply blocks_enough.
Qed.

Lemma pkt_crypt_bytes key s n m : Forall is_byte m -> Forall is_byte (pkt_crypt key s n m).
Proof. intros. apply xor_bytes_bytes; [done|]. apply keystream_bytes. Qed.

Lemma pkt_crypt_twice key s n m : length key = 12%nat -> Forall is_word key ->
  pkt_crypt key s n (pkt_crypt key s n m) = m.
Proof.
  intros Hl Hw. unfold pkt_crypt at 1. rewrite pkt_crypt_len by done. unfold pkt_crypt.
  apply xor_bytes_involutive. rewrite pkt_stream_len by done. apply blocks_enough.
Qed.

Lemma poly_key_ok key s : length key = 12%nat -> Forall is_word key ->
  length (poly_key_of key s) = 32%nat /\ Forall is_byte (poly_key_of key s).
Proof.
  intros Hl Hw. pose proof (pkt_crypt_len key s 0 (replicate 32 0) Hl Hw) as L. unfold zlen in L.
  rewrite length_replicate in L. unfold poly_key_of. split; [lia|]. apply pkt_crypt_bytes. by apply Forall_replicate.
Qed.

Lemma le_bytes_len k n : length (le_bytes k n) = k.
Proof. revert n. induction k as [|k IH]; intros n; [done|]. simpl. by rewrite IH. Qed.

Lemma le_bytes_bytes k n : Forall is_byte (le_bytes k n).
Proof. revert n. induction k as [|k IH]; intros n; [constructor|]. constructor; [apply is_byte_mod | apply IH]. Qed.

Lemma poly1305_spec_len m key : zlen (poly1305_spec m key) = 16.
Proof. unfold poly1305_spec, zlen. by rewrite le_bytes_len. Qed.

Lemma poly_auth_ok m keys s : keys_ok keys -> Forall is_byte m ->
  poly1305_auth m (poly_key_of (fst keys) s) = Some (poly1305_spec m (poly_key_of (fst keys) s)).
Proof. intros (Hl & Hw & _) Hm. destruct (poly_key_ok (fst keys) s Hl Hw). by apply poly1305_auth_ok. Qed.

Section Laws.
Context (tmp : list Z) (Htmp : length tmp = 64%nat) (Hbtmp : Forall is_byte tmp).

(** Both contexts work the same way. *)
Lemma ctx_crypt x s n counter m :
  ctx_ok x -> Forall is_byte m ->
  (counter = None /\ n = 0 \/ counter = Some [1; 0; 0; 0; 0; 0; 0; 0] /\ n = 1) ->
  exists x', chacha_encrypt_bytes tmp (chacha_ivsetup (POKE_U64 s) counter x) m =
      Some (pkt_crypt (key_of x) s n m, x') /\ ctx_ok x' /\ key_of x' = key_of x.
Proof.
  intros Hx Hm Hn. destruct (key_of_ok x Hx) as [Lk Wk]. rewrite ivsetup_key by apply Hx.
  assert (E : [match counter with None => 0 | Some c => U8TO32_LITTLE c end;
               match counter with None => 0 | Some c => U8TO32_LITTLE (zdrop 4 c) end;
               U8TO32_LITTLE (POKE_U64 s); U8TO32_LITTLE (zdrop 4 (POKE_U64 s))] =
              [u32 n; u32 (n / 2 ^ 32); U8TO32_LITTLE (POKE_U64 s); U8TO32_LITTLE (zdrop 4 (POKE_U64 s))]).
  { by destruct Hn as [[-> ->]|[-> ->]]. }
  rewrite E. pose proof (pkt_ctx (key_of x) s n Lk Wk) as Hp. eexists. split; [by apply encrypt_bytes_spec|].
  split; [by apply set_counter_ok|]. rewrite key_of_set_counter by done. unfold key_of at 1.
  rewrite take_app_le by lia. apply take_ge. lia.
Qed.

Lemma main_crypt_spec ctx s n counter m :
  cp_ok ctx -> Forall is_byte m ->
  (counter = None /\ n = 0 \/ counter = Some [1; 0; 0; 0; 0; 0; 0; 0] /\ n = 1) ->
  exists ctx', main_crypt tmp (POKE_U64 s) counter m ctx = (Ok (pkt_crypt (fst (keys_of ctx)) s n m), ctx') /\
    cp_ok ctx' /\ keys_of ctx' = keys_of ctx.
Proof.
  intros [Hm Hh] Hb Hn. destruct (ctx_crypt _ s n counter m Hm Hb Hn) as (x & E & ? & K).
  unfold main_crypt. rewrite E. eexists. split; [done|]. split; [done|]. unfold keys_of. simpl. by rewrite K.
Qed.

Lemma header_crypt_spec ctx s m :
  cp_ok ctx -> Forall is_byte m ->
  exists ctx', header_crypt tmp (POKE_U64 s) None m ctx = (Ok (pkt_crypt (snd (keys_of ctx)) s 0 m), ctx') /\
    cp_ok ctx' /\ keys_of ctx' = keys_of ctx.
Proof.
  intros [Hm Hh] Hb. destruct (ctx_crypt _ s 0 None m Hh Hb ltac:(by left)) as (x & E & ? & K).
  unfold header_crypt. rewrite E. eexists. split; [done|]. split; [done|]. unfold keys_of. simpl. by rewrite K.
Qed.

(** ** Sealing and opening *)

(** The header and the body, in either direction. *)
Lemma crypt_parts ctx s aad m rest :
  cp_ok ctx -> Forall is_byte aad -> Forall is_byte m ->
  exists ctx', cp_ok ctx' /\ keys_of ctx' = keys_of ctx /\ forall A (k : list Z -> list Z -> ST chachapoly_ctx A),
    (let! aad' := (if zlen aad =? 0 then ret []
                   else let! a := defined (mem_read (aad ++ m ++ rest) 0 (zlen aad)) in header_crypt tmp (POKE_U64 s) None a) in
     let! data := defined (mem_read (aad ++ m ++ rest) (zlen aad) (zlen m)) in
     let! body := main_crypt tmp (POKE_U64 s) (Some [1; 0; 0; 0; 0; 0; 0; 0]) data in
     k aad' body) ctx =
    k (pkt_crypt (snd (keys_of ctx)) s 0 aad) (pkt_crypt (fst (keys_of ctx)) s 1 m) ctx'.
Proof.
  intros Hc Ha Hm. rewrite mem_read_front, mem_read_at.
  assert (exists c1, cp_ok c1 /\ keys_of c1 = keys_of ctx /\
    (if zlen aad =? 0 then ret [] else let! a := defined (Some aad) in header_crypt tmp (POKE_U64 s) None a) ctx =
      (Ok (pkt_crypt (snd (keys_of ctx)) s 0 aad), c1)) as (c1 & Hc1 & K1 & E1).
  { destruct (zlen aad =? 0) eqn:C; zbool.
    - exists ctx. destruct aad; [done|]. pose proof (zlen_nonneg aad). zl.
    - destruct (header_crypt_spec ctx s aad Hc Ha) as (c1 & E & ? & ?). by exists c1. }
  destruct (main_crypt_spec c1 s 1 (Some [1; 0; 0; 0; 0; 0; 0; 0]) m Hc1 Hm ltac:(by right)) as (c2 & E2 & Hc2 & K2).
  exists c2. split; [done|]. split; [congruence|]. intros A k. rewrite (bind_ok _ _ _ _ _ E1).
  rewrite (bind_ok _ _ _ _ _ (defined_ok m c1)), (bind_ok _ _ _ _ _ E2). by rewrite K1.
Qed.

Lemma seal_spec ctx s aad m rest authlen :
  cp_ok ctx -> Forall is_byte aad -> Forall is_byte m ->
  exists ctx', chachapoly_crypt tmp s (aad ++ m ++ rest) (zlen m) (zlen aad) authlen true ctx =
      (Ok (seal (keys_of ctx) s aad m), ctx') /\ cp_ok ctx' /\ keys_of ctx' = keys_of ctx.
Proof.
  intros Hc Ha Hm. unfold chachapoly_crypt. cbv zeta.
  destruct (main_crypt_spec ctx s 0 None (replicate 32 0) Hc) as (c1 & E1 & H1 & K1); [by apply Forall_replicate | by left |].
  rewrite (bind_ok _ _ _ _ _ E1). fold (poly_key_of (fst (keys_of ctx)) s). unfold bind at 1. simpl.
  destruct (crypt_parts c1 s aad m rest H1 Ha Hm) as (c2 & H2 & K2 & E2). rewrite E2.
  exists c2. split; [|split; [done | congruence]]. rewrite K1. unfold bind.
  rewrite (poly_auth_ok _ (keys_of ctx)) by (try apply cp_keys_ok; try apply Forall_app; auto using pkt_crypt_bytes).
  simpl. unfold seal. by rewrite <- app_assoc.
Qed.

Lemma open_spec ctx s aad m tag rest authlen :
  cp_ok ctx -> Forall is_byte aad -> Forall is_byte m -> zlen tag = 16 ->
  exists ctx', cp_ok ctx' /\ keys_of ctx' = keys_of ctx /\
    chachapoly_crypt tmp s (aad ++ m ++ tag ++ rest) (zlen m) (zlen aad) authlen false ctx =
      (if bool_decide (poly1305_spec (aad ++ m) (poly_key_of (fst (keys_of ctx)) s) = tag)
       then Ok (pkt_crypt (snd (keys_of ctx)) s 0 aad ++ pkt_crypt (fst (keys_of ctx)) s 1 m)
       else Err SSH_ERR_MAC_INVALID, ctx').
Proof.
  intros Hc Ha Hm Ht. unfold chachapoly_crypt. cbv zeta.
  destruct (main_crypt_spec ctx s 0 None (replicate 32 0) Hc) as (c1 & E1 & H1 & K1); [by apply Forall_replicate | by left |].
  rewrite (bind_ok _ _ _ _ _ E1). fold (poly_key_of (fst (keys_of ctx)) s).
  assert (R1 : mem_read (aad ++ m ++ tag ++ rest) 0 (zlen aad + zlen m) = Some (aad ++ m)).
  { rewrite <- zlen_app, app_assoc. apply mem_read_front. }
  assert (R2 : mem_read (aad ++ m ++ tag ++ rest) (zlen aad + zlen m) POLY1305_TAGLEN = Some tag).
  { change POLY1305_TAGLEN with 16. rewrite <- zlen_app, <- Ht, app_assoc. apply mem_read_at. }
  assert (P : poly1305_auth (aad ++ m) (poly_key_of (fst (keys_of ctx)) s) = Some (poly1305_spec (aad ++ m) (poly_key_of (fst (keys_of ctx)) s))).
  { apply poly_auth_ok; [by apply cp_keys_ok | by apply Forall_app]. }
  rewrite R1, R2.
  assert (Q : (let! data := defined (Some (aad ++ m)) in let! tg := defined (Some tag) in
               let! expected_tag := defined (poly1305_auth data (poly_key_of (fst (keys_of ctx)) s)) in
               ret (negb (bool_decide (expected_tag = tg)))) c1 =
              (Ok (negb (bool_decide (poly1305_spec (aad ++ m) (poly_key_of (fst (keys_of ctx)) s) = tag))), c1)).
  { unfold bind, defined, ret.
    by rewrite P. }
  rewrite (bind_ok _ _ _ _ _ Q).
  destruct (crypt_parts c1 s aad m (tag ++ rest) H1 Ha Hm) as (c2 & H2 & K2 & E2).
  destruct (bool_decide _) eqn:B; simpl.
  - exists c2. split; [done|]. split; [congruence|]. rewrite E2, K1. done.
  - exists c1. done.
Qed.

Lemma get_length_spec ctx s cp :
  cp_ok ctx -> Forall is_byte cp ->
  exists ctx', cp_ok ctx' /\ keys_of ctx' = keys_of ctx /\
    chachapoly_get_length tmp s cp (zlen cp) ctx =
      (if zlen cp <? 4 then Err SSH_ERR_MESSAGE_INCOMPLETE
       else Ok (be (pkt_crypt (snd (keys_of ctx)) s 0 (ztake 4 cp))), ctx').
Proof.
  intros Hc Hb. unfold chachapoly_get_length. destruct (zlen cp <? 4) eqn:C; zbool; [by exists ctx|].
  rewrite mem_read_some by lia. rewrite zdrop_0 by lia.
  assert (Hb' : Forall is_byte (ztake 4 cp)) by by apply Forall_ztake.
  destruct (header_crypt_spec ctx s (ztake 4 cp) Hc Hb') as (c1 & E1 & H1 & K1). exists c1. split; [done|]. split; [done|].
  rewrite (bind_ok _ _ _ _ _ (defined_ok _ _)), (bind_ok _ _ _ _ _ E1).
  destruct (cp_keys_ok ctx Hc) as (_ & _ & Hl & Hw).
  rewrite PEEK_U32_be; [done | rewrite pkt_crypt_len by done; zl | by apply pkt_crypt_bytes].
Qed.


End Laws.

Lemma seal_shape keys s aad m : keys_ok keys ->
  seal keys s aad m = (pkt_crypt (snd keys) s 0 aad ++ pkt_crypt (fst keys) s 1 m) ++
    poly1305_spec (pkt_crypt (snd keys) s 0 aad ++ pkt_crypt (fst keys) s 1 m) (poly_key_of (fst keys) s) /\
  zlen (pkt_crypt (snd keys) s 0 aad) = zlen aad /\ zlen (pkt_crypt (fst keys) s 1 m) = zlen m /\
  zlen (seal keys s aad m) = zlen aad + zlen m + 16.
Proof.
  intros (L1 & W1 & L2 & W2). split; [done|]. unfold seal.
  rewrite !zlen_app, poly1305_spec_len, !pkt_crypt_len by done. lia.
Qed.

Lemma seal_bytes keys s aad m : Forall is_byte aad -> Forall is_byte m -> Forall is_byte (seal keys s aad m).
Proof. intros. unfold seal. repeat (apply Forall_app; split); auto using pkt_crypt_bytes. apply le_bytes_bytes. Qed.

(** What one end seals, the other opens. *)
Lemma open_seal tmp ctx s aad m rest authlen :
  length tmp = 64%nat -> Forall is_byte tmp -> cp_ok ctx -> Forall is_byte aad -> Forall is_byte m ->
  exists ctx', cp_ok ctx' /\ keys_of ctx' = keys_of ctx /\
    chachapoly_crypt tmp s (seal (keys_of ctx) s aad m ++ rest) (zlen m) (zlen aad) authlen false ctx = (Ok (aad ++ m), ctx').
Proof.
  intros Ht Hbt Hc Ha Hm. pose proof (cp_keys_ok ctx Hc) as Hk.
  destruct (seal_shape (keys_of ctx) s aad m Hk) as (-> & La & Lm & _).
  destruct Hk as (L1 & W1 & L2 & W2).
  destruct (open_spec tmp Ht Hbt ctx s (pkt_crypt (snd (keys_of ctx)) s 0 aad) (pkt_crypt (fst (keys_of ctx)) s 1 m)
    (poly1305_spec (pkt_crypt (snd (keys_of ctx)) s 0 aad ++ pkt_crypt (fst (keys_of ctx)) s 1 m) (poly_key_of (fst (keys_of ctx)) s))
    rest authlen) as (c1 & H1 & K1 & E1); [done | by apply pkt_crypt_bytes.. | apply poly1305_spec_len |].
  exists c1. split; [done|]. split; [done|]. rewrite <- !app_assoc. rewrite La, Lm in E1. rewrite E1.
  rewrite bool_decide_true by done. by rewrite !pkt_crypt_twice.
Qed.

(** The header of a sealed packet gives its length. *)
Lemma length_seal tmp ctx s aad m rest :
  length tmp = 64%nat -> Forall is_byte tmp -> cp_ok ctx -> zlen aad = 4 ->
  Forall is_byte aad -> Forall is_byte m -> Forall is_byte rest ->
  exists ctx', cp_ok ctx' /\ keys_of ctx' = keys_of ctx /\
    let src := seal (keys_of ctx) s aad m ++ rest in
    chachapoly_get_length tmp s src (zlen src) ctx = (Ok (be aad), ctx').
Proof.
  intros Ht Hbt Hc La Ha Hm Hr. pose proof (cp_keys_ok ctx Hc) as Hk.
  destruct (seal_shape (keys_of ctx) s aad m Hk) as (E & Lc & Lm & Ls).
  destruct (get_length_spec tmp Ht Hbt ctx s (seal (keys_of ctx) s aad m ++ rest)) as (c1 & H1 & K1 & E1);
    [done | apply Forall_app; split; [by apply seal_bytes | done] |].
  exists c1. split; [done|]. split; [done|]. cbv zeta. rewrite E1. pose proof (zlen_nonneg m). pose proof (zlen_nonneg rest).
  rewrite (proj2 (Z.ltb_ge _ _)) by (rewrite zlen_app; lia). destruct Hk as (L1 & W1 & L2 & W2).
  rewrite E, <- !app_assoc, ztake_app_le, ztake_all by lia. by rewrite pkt_crypt_twice.
Qed.

(** C35. The packet cipher chacha20-poly1305@openssh.com authenticates what it
    decrypts.  Between two contexts with the same keys, whatever they have
    processed before, a packet sealed under a sequence number is longer by
    the 16-byte tag, its encrypted length field decrypts to the length that was
    sealed, and opening it under the same sequence number gives back header
    and payload.  Any bytes at all are accepted exactly when their last 16 are
    the Poly1305 tag of the ciphertext under the one-time key of that sequence
    number, and refused with [SSH_ERR_MAC_INVALID] otherwise. *)
Theorem chachapoly_authenticates tmp e d s aad m rest :
  length tmp = 64%nat -> Forall is_byte tmp -> cp_ok e -> cp_ok d -> keys_of e = keys_of d ->
  zlen aad = 4 -> Forall is_byte aad -> Forall is_byte m -> Forall is_byte rest ->
  (exists out e', chachapoly_crypt tmp s (aad ++ m) (zlen m) 4 16 true e = (Ok out, e') /\
     cp_ok e' /\ keys_of e' = keys_of e /\ zlen out = 4 + zlen m + 16 /\
     (exists d', chachapoly_get_length tmp s (out ++ rest) (zlen (out ++ rest)) d = (Ok (be aad), d')) /\
     exists d', chachapoly_crypt tmp s (out ++ rest) (zlen m) 4 16 false d = (Ok (aad ++ m), d') /\
       cp_ok d' /\ keys_of d' = keys_of d) /\
  (forall hdr body tag, zlen hdr = 4 -> Forall is_byte hdr -> Forall is_byte body -> zlen tag = 16 ->
     let r := fst (chachapoly_crypt tmp s (hdr ++ body ++ tag ++ rest) (zlen body) 4 16 false d) in
     if bool_decide (tag = poly1305_spec (hdr ++ body) (poly_key_of (fst (keys_of d)) s))
     then exists v, r = Ok v /\ zlen v = 4 + zlen body else r = Err SSH_ERR_MAC_INVALID).
Proof.
  intros Ht Hbt He Hd K La Ha Hm Hr. split.
  - destruct (seal_spec tmp Ht Hbt e s aad m [] 16 He Ha Hm) as (e' & E & He' & Ke').
    rewrite app_nil_r, La in E. exists (seal (keys_of e) s aad m), e'. split_and!; [done..| | |].
    + destruct (seal_shape (keys_of e) s aad m (cp_keys_ok e He)) as (_ & _ & _ & ->). lia.
    + rewrite K. destruct (length_seal tmp d s aad m rest) as (d' & _ & _ & E'); [done..|]. by exists d'.
    + rewrite K. destruct (open_seal tmp d s aad m rest 16 Ht Hbt Hd Ha Hm) as (d' & ? & ? & E'). rewrite La in E'. by exists d'.
  - intros hdr body tag Lh Hh Hb Lt r.
    destruct (open_spec tmp Ht Hbt d s hdr body tag rest 16 Hd Hh Hb Lt) as (d' & _ & _ & E). rewrite Lh in E.
    subst r. rewrite E. simpl fst. destruct (cp_keys_ok d Hd) as (L1 & W1 & L2 & W2).
    destruct (bool_decide (tag = _)) eqn:B.
    + apply bool_decide_eq_true in B. rewrite bool_decide_true by done. eexists. split; [done|].
      rewrite zlen_app, !pkt_crypt_len by done. lia.
    + apply bool_decide_eq_false in B. by rewrite bool_decide_false by congruence.
Qed.

Definition demo_cp : chachapoly_ctx :=
  default (mk_chachapoly [] []) (chachapoly_new (seqZ 0 64) 64).

Lemma chachapoly_authenticates_witness :
  exists out e', chachapoly_crypt (replicate 64 0) 5 ([0; 0; 0; 8] ++ replicate 8 42) 8 4 16 true demo_cp = (Ok out, e') /\
    zlen out = 28.
Proof.
  assert (C : cp_ok demo_cp).
  { split; (split; [reflexivity|]); apply (bool_decide_unpack _); by vm_compute. }
  destruct (chachapoly_authenticates (replicate 64 0) demo_cp demo_cp 5 [0; 0; 0; 8] (replicate 8 42) [])
    as [(out & e' & E & _ & _ & L & _) _].
  - reflexivity.
  - by apply Forall_replicate.
  - exact C.
  - exact C.
  - reflexivity.
  - reflexivity.
  - apply (bool_decide_unpack _). by vm_compute.
  - by apply Forall_replicate.
  - constructor.
  - exists out, e'. split; [exact E | exact L].
Defined.
