(* ===== verification/Cipher.v ===== *)
(** * The packet ciphers: src/cipher.c

    The table of ciphers and the functions packet.c calls, built with
    libcrypto.  The contexts of libcrypto are a class of operations with the
    laws that its documentation states; chacha20-poly1305 and the plaintext
    cipher need no assumption. *)
From S2P Require Import Prelude Sshbuf SshbufGetput CString Words Chacha Poly1305 ChachaPoly.

Definition SSH_ERR_LIBCRYPTO_ERROR : Z := -22.

Definition CFLAG_CBC : Z := Z.shiftl 1 0.
Definition CFLAG_CHACHAPOLY : Z := Z.shiftl 1 1.
Definition CFLAG_AESCTR : Z := Z.shiftl 1 2.
Definition CFLAG_NONE : Z := Z.shiftl 1 3.
Definition CFLAG_INTERNAL : Z := CFLAG_NONE.

(** ** The ciphers *)

Record sshcipher : Type := mk_sshcipher {
  ci_name : list Z;
  ci_block_size : Z;
  ci_key_len : Z;
  ci_iv_len : Z;
  ci_auth_len : Z;
  ci_flags : Z;
}.

Definition ciphers : list sshcipher :=
  [mk_sshcipher (str "3des-cbc") 8 24 0 0 CFLAG_CBC;
   mk_sshcipher (str "aes128-cbc") 16 16 0 0 CFLAG_CBC;
   mk_sshcipher (str "aes192-cbc") 16 24 0 0 CFLAG_CBC;
   mk_sshcipher (str "aes256-cbc") 16 32 0 0 CFLAG_CBC;
   mk_sshcipher (str "aes128-ctr") 16 16 0 0 0;
   mk_sshcipher (str "aes192-ctr") 16 24 0 0 0;
   mk_sshcipher (str "aes256-ctr") 16 32 0 0 0;
   mk_sshcipher (str "aes128-gcm@openssh.com") 16 16 12 16 0;
   mk_sshcipher (str "aes256-gcm@openssh.com") 16 32 12 16 0;
   mk_sshcipher (str "chacha20-poly1305@openssh.com") 8 64 0 16 CFLAG_CHACHAPOLY;
   mk_sshcipher (str "none") 8 0 0 0 CFLAG_NONE].

Definition flag (c : sshcipher) (f : Z) : bool := negb (Z.land (ci_flags c) f =? 0).

Definition cipher_blocksize (c : sshcipher) : Z := ci_block_size c.
Definition cipher_keylen (c : sshcipher) : Z := ci_key_len c.
Definition cipher_seclen (c : sshcipher) : Z :=
  if streq (str "3des-cbc") (ci_name c) then 14 else cipher_keylen c.
Definition cipher_authlen (c : sshcipher) : Z := ci_auth_len c.
Definition cipher_ivlen (c : sshcipher) : Z :=
  if negb (ci_iv_len c =? 0) || flag c CFLAG_CHACHAPOLY then ci_iv_len c else ci_block_size c.
Definition cipher_is_cbc (c : sshcipher) : bool := flag c CFLAG_CBC.
Definition cipher_is_internal (c : sshcipher) : bool := flag c CFLAG_INTERNAL.

Fixpoint find_cipher (l : list sshcipher) (name : list Z) : option sshcipher :=
  match l with
  | [] => None
  | c :: l => if streq (ci_name c) name then Some c else find_cipher l name
  end.
Definition cipher_by_name (name : list Z) : option sshcipher := find_cipher ciphers name.

(** ** libcrypto *)

(** The calls of cipher.c on an [EVP_CIPHER_CTX]; [None] is a failure. *)
Class EVP (V : Type) : Type := {
  EVP_CIPHER_CTX_new : option V;
  EVP_CipherInit_iv (v : V) (type : list Z) (iv : option (list Z)) (enc : bool) : option V;
  EVP_CTRL_GCM_SET_IV_FIXED (v : V) (iv : option (list Z)) : option V;
  EVP_CIPHER_CTX_key_length (v : V) : Z;
  EVP_CIPHER_CTX_set_key_length (v : V) (n : Z) : option V;
  EVP_CipherInit_key (v : V) (key : list Z) : option V;
  EVP_CTRL_GCM_IV_GEN (v : V) : option V;
  EVP_CTRL_GCM_SET_TAG (v : V) (tag : list Z) : option V;
  EVP_CTRL_GCM_GET_TAG (v : V) (n : Z) : option (list Z);
  EVP_Cipher_aad (v : V) (aad : list Z) : option V;         (* no output *)
  EVP_Cipher (v : V) (data : list Z) : option (list Z * V);
  EVP_Cipher_final (v : V) : option V;                      (* no input *)
}.

(** ** Contexts *)

Record sshcipher_ctx {V : Type} : Type := mk_ctx {
  cc_plaintext : bool;
  cc_encrypt : bool;
  cc_evp : option V;
  cc_cp : chachapoly_ctx;
  cc_cipher : sshcipher;
}.
Arguments sshcipher_ctx : clear implicits.

Definition no_cp : chachapoly_ctx := mk_chachapoly [] [].

Section Cipher.
Context {V : Type} `{EVP V}.
Implicit Types cc : sshcipher_ctx V.

Definition set_evp (v : V) (cc : sshcipher_ctx V) : sshcipher_ctx V :=
  mk_ctx _ (cc_plaintext cc) (cc_encrypt cc) (Some v) (cc_cp cc) (cc_cipher cc).
Definition set_cp (x : chachapoly_ctx) (cc : sshcipher_ctx V) : sshcipher_ctx V :=
  mk_ctx _ (cc_plaintext cc) (cc_encrypt cc) (cc_evp cc) x (cc_cipher cc).

Definition cipher_ctx_is_plaintext (cc : sshcipher_ctx V) : bool := cc_plaintext cc.

Definition or_fail {A} (o : option A) (e : Z) : res A := match o with Some a => Ok a | None => Err e end.

(** [cc] is the memory [calloc] returned, 0 for NULL. *)
Definition cipher_init (cc : Z) (cipher : sshcipher) (key : list Z) (keylen : Z) (iv : option (list Z)) (ivlen : Z)
    (do_encrypt : bool) : res (sshcipher_ctx V) :=
  if cc =? 0 then Err SSH_ERR_ALLOC_FAIL
  else
    let plaintext := flag cipher CFLAG_NONE in
    if (keylen <? ci_key_len cipher) || (match iv with Some _ => true | None => false end && (ivlen <? cipher_ivlen cipher))
    then Err SSH_ERR_INVALID_ARGUMENT
    else if flag cipher CFLAG_CHACHAPOLY then
      let? cp := or_fail (chachapoly_new key keylen) SSH_ERR_INVALID_ARGUMENT in
      Ok (mk_ctx _ plaintext do_encrypt None cp cipher)
    else if flag cipher CFLAG_NONE then Ok (mk_ctx _ plaintext do_encrypt None no_cp cipher)
    else
      let? v := or_fail EVP_CIPHER_CTX_new SSH_ERR_ALLOC_FAIL in
      let? v := or_fail (EVP_CipherInit_iv v (ci_name cipher) iv do_encrypt) SSH_ERR_LIBCRYPTO_ERROR in
      let? v := (if negb (cipher_authlen cipher =? 0)
                 then or_fail (EVP_CTRL_GCM_SET_IV_FIXED v iv) SSH_ERR_LIBCRYPTO_ERROR else Ok v) in
      let klen := EVP_CIPHER_CTX_key_length v in
      let? v := (if (0 <? klen) && negb (keylen =? klen)
                 then or_fail (EVP_CIPHER_CTX_set_key_length v keylen) SSH_ERR_LIBCRYPTO_ERROR else Ok v) in
      let? v := or_fail (EVP_CipherInit_key v key) SSH_ERR_LIBCRYPTO_ERROR in
      Ok (mk_ctx _ plaintext do_encrypt (Some v) no_cp cipher).

(** A step of the libcrypto context. *)
Definition evp_step {A} (f : V -> option (A * V)) (e : Z) : ST (sshcipher_ctx V) A := fun cc =>
  match cc_evp cc with
  | None => (Crash, cc)
  | Some v => match f v with Some (a, v) => (Ok a, set_evp v cc) | None => (Err e, cc) end
  end.
Definition evp_do (f : V -> option V) (e : Z) : ST (sshcipher_ctx V) unit :=
  evp_step (fun v => match f v with Some v => Some (tt, v) | None => None end) e.

(** A step of the chacha20-poly1305 context. *)
Definition cp_step {A} (m : ST chachapoly_ctx A) : ST (sshcipher_ctx V) A := fun cc =>
  let '(r, x) := m (cc_cp cc) in (r, set_cp x cc).

(** The bytes stored at [dest]; [src] is the memory from [src] on, [tmp] the
    scratch buffer of chacha.c. *)
Definition cipher_crypt (tmp : list Z) (seqnr : Z) (src : list Z) (len aadlen authlen : Z) : ST (sshcipher_ctx V) (list Z) :=
  let! cc := get in
  if flag (cc_cipher cc) CFLAG_CHACHAPOLY then
    cp_step (chachapoly_crypt tmp seqnr src len aadlen authlen (cc_encrypt cc))
  else if flag (cc_cipher cc) CFLAG_NONE then defined (mem_read src 0 (aadlen + len))
  else
    let hasauth := negb (authlen =? 0) in
    if hasauth && negb (authlen =? cipher_authlen (cc_cipher cc)) then fail SSH_ERR_INVALID_ARGUMENT
    else
      do! (if hasauth then
             do! evp_do EVP_CTRL_GCM_IV_GEN SSH_ERR_LIBCRYPTO_ERROR ;;
             if cc_encrypt cc then ret tt
             else
               let! tag := defined (mem_read src (aadlen + len) authlen) in
               evp_do (fun v => EVP_CTRL_GCM_SET_TAG v tag) SSH_ERR_LIBCRYPTO_ERROR
           else ret tt) ;;
      let! aad := (if aadlen =? 0 then ret []
                   else
                     let! a := defined (mem_read src 0 aadlen) in
                     do! (if hasauth then evp_do (fun v => EVP_Cipher_aad v a) SSH_ERR_LIBCRYPTO_ERROR else ret tt) ;;
                     ret a) in
      if negb (len mod ci_block_size (cc_cipher cc) =? 0) then fail SSH_ERR_INVALID_ARGUMENT
      else
        let! data := defined (mem_read src aadlen len) in
        let! body := evp_step (fun v => EVP_Cipher v data) SSH_ERR_LIBCRYPTO_ERROR in
        if hasauth then
          do! evp_do EVP_Cipher_final (if cc_encrypt cc then SSH_ERR_LIBCRYPTO_ERROR else SSH_ERR_MAC_INVALID) ;;
          if cc_encrypt cc then
            let! tag := evp_step (fun v => match EVP_CTRL_GCM_GET_TAG v authlen with Some t => Some (t, v) | None => None end)
                                 SSH_ERR_LIBCRYPTO_ERROR in
            ret (aad ++ body ++ tag)
          else ret (aad ++ body)
        else ret (aad ++ body).

Definition cipher_get_length (tmp : list Z) (seqnr : Z) (cp : list Z) (len : Z) : ST (sshcipher_ctx V) Z :=
  let! cc := get in
  if flag (cc_cipher cc) CFLAG_CHACHAPOLY then cp_step (chachapoly_get_length tmp seqnr cp len)
  else if len <? 4 then fail SSH_ERR_MESSAGE_INCOMPLETE
  else let! p := defined (mem_read cp 0 4) in defined (PEEK_U32 p).
End Cipher.

(** ** What libcrypto promises *)

(** [evp_synced c e d]: an encrypting and a decrypting context of cipher [c]
    with the same key and IV that have processed the same data.  CBC and CTR
    contexts carry on from call to call; a GCM context seals and opens one
    packet per IV. *)
Class EVPLaws (V : Type) `{EVP V} : Type := {
  evp_synced : sshcipher -> V -> V -> Prop;
  evp_encrypts c e d x :
    evp_synced c e d -> ci_auth_len c = 0 -> Forall is_byte x -> zlen x mod ci_block_size c = 0 ->
    exists y e', EVP_Cipher e x = Some (y, e') /\ zlen y = zlen x /\ Forall is_byte y;
  evp_decrypts c e d x y e' :
    evp_synced c e d -> ci_auth_len c = 0 -> zlen x mod ci_block_size c = 0 -> EVP_Cipher e x = Some (y, e') ->
    exists d', EVP_Cipher d y = Some (x, d') /\ evp_synced c e' d';
  evp_chunks c e d y x d' n :
    evp_synced c e d -> ci_auth_len c = 0 -> EVP_Cipher d y = Some (x, d') ->
    0 <= n <= zlen y -> n mod ci_block_size c = 0 ->
    exists d1, EVP_Cipher d (ztake n y) = Some (ztake n x, d1) /\ EVP_Cipher d1 (zdrop n y) = Some (zdrop n x, d');
  evp_seals c e d aad x :
    evp_synced c e d -> ci_auth_len c <> 0 -> Forall is_byte aad -> Forall is_byte x -> zlen x mod ci_block_size c = 0 ->
    exists e1 e2 y e3 e4 tag, EVP_CTRL_GCM_IV_GEN e = Some e1 /\ EVP_Cipher_aad e1 aad = Some e2 /\
      EVP_Cipher e2 x = Some (y, e3) /\ EVP_Cipher_final e3 = Some e4 /\
      EVP_CTRL_GCM_GET_TAG e4 (ci_auth_len c) = Some tag /\
      zlen y = zlen x /\ Forall is_byte y /\ zlen tag = ci_auth_len c /\ Forall is_byte tag;
  evp_opens c e d aad x e1 e2 y e3 e4 tag :
    evp_synced c e d -> ci_auth_len c <> 0 -> EVP_CTRL_GCM_IV_GEN e = Some e1 -> EVP_Cipher_aad e1 aad = Some e2 ->
    EVP_Cipher e2 x = Some (y, e3) -> EVP_Cipher_final e3 = Some e4 ->
    EVP_CTRL_GCM_GET_TAG e4 (ci_auth_len c) = Some tag ->
    exists d1 d2 d3 d4 d5, EVP_CTRL_GCM_IV_GEN d = Some d1 /\ EVP_CTRL_GCM_SET_TAG d1 tag = Some d2 /\
      EVP_Cipher_aad d2 aad = Some d3 /\ EVP_Cipher d3 y = Some (x, d4) /\ EVP_Cipher_final d4 = Some d5 /\
      evp_synced c e4 d5;
}.

Section CipherLaws.
Context {V : Type} `{EVPLaws V}.
Implicit Types e d : sshcipher_ctx V.

(** A sending and a receiving context that agree. *)
Definition ctx_synced (e d : sshcipher_ctx V) : Prop :=
  cc_cipher e ∈ ciphers /\ cc_cipher d = cc_cipher e /\ cc_encrypt e = true /\ cc_encrypt d = false /\
  cc_plaintext e = flag (cc_cipher e) CFLAG_NONE /\
  (if flag (cc_cipher e) CFLAG_CHACHAPOLY then cp_ok (cc_cp e) /\ cp_ok (cc_cp d) /\ keys_of (cc_cp d) = keys_of (cc_cp e)
   else if flag (cc_cipher e) CFLAG_NONE then True
   else exists v w, cc_evp e = Some v /\ cc_evp d = Some w /\ evp_synced (cc_cipher e) v w).

Lemma cipher_facts c : c ∈ ciphers ->
  (ci_block_size c = 8 \/ ci_block_size c = 16) /\ (ci_auth_len c = 0 \/ ci_auth_len c = 16) /\
  (flag c CFLAG_CHACHAPOLY = true -> ci_auth_len c = 16) /\ (flag c CFLAG_NONE = true -> ci_auth_len c = 0).
Proof.
  intros Hc. unfold ciphers in Hc. rewrite !elem_of_cons, elem_of_nil in Hc.
  repeat destruct Hc as [->|Hc]; try done; split_and!; first [done | by left | by right].
Qed.

Context (tmp : list Z).

(** The reads that every branch makes. *)
Lemma src_reads aad x rest :
  mem_read (aad ++ x ++ rest) 0 (zlen aad) = Some aad /\ mem_read (aad ++ x ++ rest) (zlen aad) (zlen x) = Some x /\
  mem_read (aad ++ x ++ rest) 0 (zlen aad + zlen x) = Some (aad ++ x).
Proof.
  split_and!; [apply mem_read_front | apply mem_read_at |].
  rewrite <- zlen_app, app_assoc. apply mem_read_front.
Qed.

Lemma aad_part (aad : list Z) (e : sshcipher_ctx V) :
  (if zlen aad =? 0 then ret [] else let! a := defined (Some aad) in do! ret tt ;; ret a) e = (Ok aad, e).
Proof. destruct (zlen aad =? 0) eqn:C; zbool; [|done]. destruct aad; [done|]. pose proof (zlen_nonneg aad). zl. Qed.

(** CBC and CTR: one call of libcrypto. *)
Lemma crypt_evp e v s aad x rest :
  cc_cipher e ∈ ciphers -> flag (cc_cipher e) CFLAG_CHACHAPOLY = false -> flag (cc_cipher e) CFLAG_NONE = false ->
  cc_evp e = Some v -> zlen x mod ci_block_size (cc_cipher e) = 0 ->
  cipher_crypt tmp s (aad ++ x ++ rest) (zlen x) (zlen aad) 0 e =
    match EVP_Cipher v x with
    | Some (y, v') => (Ok (aad ++ y), set_evp v' e)
    | None => (Err SSH_ERR_LIBCRYPTO_ERROR, e)
    end.
Proof.
  intros Hc F1 F2 Hv Hx. destruct (src_reads aad x rest) as (R1 & R2 & R3).
  unfold cipher_crypt. unfold bind at 1, get. rewrite F1, F2. cbn [negb andb Z.eqb]. rewrite R1, R2, Hx.
  unfold bind at 1. cbn [ret]. rewrite (bind_ok _ _ _ _ _ (aad_part aad e)). cbn [negb Z.eqb].
  unfold bind, defined, evp_step. rewrite Hv. by destruct (EVP_Cipher v x) as [[y v']|].
Qed.

Lemma crypt_evp_blocks e v s x n rest :
  cc_cipher e ∈ ciphers -> flag (cc_cipher e) CFLAG_CHACHAPOLY = false -> flag (cc_cipher e) CFLAG_NONE = false ->
  cc_evp e = Some v -> zlen x = n -> n mod ci_block_size (cc_cipher e) = 0 ->
  cipher_crypt tmp s (x ++ rest) n 0 0 e =
    match EVP_Cipher v x with
    | Some (y, v') => (Ok y, set_evp v' e)
    | None => (Err SSH_ERR_LIBCRYPTO_ERROR, e)
    end.
Proof. intros Hc F1 F2 Hv <- Hx. exact (crypt_evp e v s [] x rest Hc F1 F2 Hv Hx). Qed.

(** GCM, in each direction. *)
Lemma crypt_seal e v s aad x rest v1 v2 y v3 v4 tag :
  flag (cc_cipher e) CFLAG_CHACHAPOLY = false -> flag (cc_cipher e) CFLAG_NONE = false -> cc_encrypt e = true ->
  cc_evp e = Some v -> zlen x mod ci_block_size (cc_cipher e) = 0 -> zlen aad = 4 -> ci_auth_len (cc_cipher e) <> 0 ->
  EVP_CTRL_GCM_IV_GEN v = Some v1 -> EVP_Cipher_aad v1 aad = Some v2 -> EVP_Cipher v2 x = Some (y, v3) ->
  EVP_Cipher_final v3 = Some v4 -> EVP_CTRL_GCM_GET_TAG v4 (ci_auth_len (cc_cipher e)) = Some tag ->
  cipher_crypt tmp s (aad ++ x ++ rest) (zlen x) (zlen aad) (ci_auth_len (cc_cipher e)) e = (Ok (aad ++ y ++ tag), set_evp v4 e).
Proof.
  intros F1 F2 He Hv Hx Ha Hau E1 E2 E3 E4 E5. destruct (src_reads aad x rest) as (R1 & R2 & R3).
  unfold cipher_crypt. unfold bind at 1, get. rewrite F1, F2. unfold cipher_authlen. rewrite Z.eqb_refl.
  rewrite (proj2 (Z.eqb_neq _ 0) Hau). cbn [negb andb]. rewrite R1, R2, He, Hx, (proj2 (Z.eqb_neq (zlen aad) 0)) by lia.
  cbn [negb Z.eqb]. unfold bind, defined, evp_do, evp_step, ret, set_evp. rewrite Hv.
  repeat (cbn [cc_evp cc_encrypt cc_cipher cc_cp cc_plaintext]; rewrite ?E1, ?E2, ?E3, ?E4, ?E5). done.
Qed.

Lemma crypt_open e v s aad x tag rest v1 v2 v3 y v4 v5 :
  flag (cc_cipher e) CFLAG_CHACHAPOLY = false -> flag (cc_cipher e) CFLAG_NONE = false -> cc_encrypt e = false ->
  cc_evp e = Some v -> zlen x mod ci_block_size (cc_cipher e) = 0 -> zlen aad = 4 -> ci_auth_len (cc_cipher e) <> 0 ->
  zlen tag = ci_auth_len (cc_cipher e) ->
  EVP_CTRL_GCM_IV_GEN v = Some v1 -> EVP_CTRL_GCM_SET_TAG v1 tag = Some v2 -> EVP_Cipher_aad v2 aad = Some v3 ->
  EVP_Cipher v3 x = Some (y, v4) -> EVP_Cipher_final v4 = Some v5 ->
  cipher_crypt tmp s (aad ++ x ++ tag ++ rest) (zlen x) (zlen aad) (ci_auth_len (cc_cipher e)) e = (Ok (aad ++ y), set_evp v5 e).
Proof.
  intros F1 F2 He Hv Hx Ha Hau Ht E1 E2 E3 E4 E5. destruct (src_reads aad x (tag ++ rest)) as (R1 & R2 & R3).
  assert (R4 : mem_read (aad ++ x ++ tag ++ rest) (zlen aad + zlen x) (ci_auth_len (cc_cipher e)) = Some tag).
  { rewrite <- zlen_app, <- Ht, app_assoc. apply mem_read_at. }
  unfold cipher_crypt. unfold bind at 1, get. rewrite F1, F2. unfold cipher_authlen. rewrite Z.eqb_refl.
  rewrite (proj2 (Z.eqb_neq _ 0) Hau). cbn [negb andb]. rewrite R1, R2, R4, He, Hx, (proj2 (Z.eqb_neq (zlen aad) 0)) by lia.
  cbn [negb Z.eqb]. unfold bind, defined, evp_do, evp_step, ret, set_evp. rewrite Hv.
  repeat (cbn [cc_evp cc_encrypt cc_cipher cc_cp cc_plaintext]; rewrite ?E1, ?E2, ?E3, ?E4, ?E5). done.
Qed.
End CipherLaws.

(** The scratch buffer of chacha.c. *)
Definition scratch (t : list Z) : Prop := length t = 64%nat /\ Forall is_byte t.

Section Encryption.
Context {V : Type} `{EVPLaws V}.
Implicit Types e d : sshcipher_ctx V.

(** [y] is [x] encrypted behind [aad] for packet [s]: a receiving context that
    agrees with the sender's decrypts it, in one call or block by block, and
    reads the length in front of it. *)
Record encrypted (e : sshcipher_ctx V) (s : Z) (aad x y : list Z) (e' : sshcipher_ctx V) : Prop := {
  en_len : zlen y = zlen aad + zlen x + ci_auth_len (cc_cipher e);
  en_bytes : Forall is_byte y;
  en_cipher : cc_cipher e' = cc_cipher e;
  en_open t d rest : scratch t -> ctx_synced e d -> exists d',
    cipher_crypt t s (y ++ rest) (zlen x) (zlen aad) (ci_auth_len (cc_cipher e)) d = (Ok (aad ++ x), d') /\
    ctx_synced e' d';
  en_blocks d n : ctx_synced e d -> zlen aad = 0 -> ci_auth_len (cc_cipher e) = 0 ->
    0 <= n <= zlen x -> n mod ci_block_size (cc_cipher e) = 0 ->
    exists d1 d2, cc_cipher d1 = cc_cipher d /\
      (forall t s rest, cipher_crypt t s (ztake n y ++ rest) n 0 0 d = (Ok (ztake n x), d1)) /\
      (forall t s rest, cipher_crypt t s (zdrop n y ++ rest) (zlen x - n) 0 0 d1 = (Ok (zdrop n x), d2)) /\
      ctx_synced e' d2;
  en_length t d p : scratch t -> ctx_synced e d -> zlen aad = 4 -> Forall is_byte p -> 4 <= zlen p -> ztake 4 p = ztake 4 y ->
    exists d', cipher_get_length t s p (zlen p) d = (Ok (be aad), d') /\ ctx_synced e d';
}.

(** The length in the clear. *)
Lemma clear_length t e d s p aad y :
  ctx_synced e d -> flag (cc_cipher e) CFLAG_CHACHAPOLY = false -> zlen aad = 4 -> Forall is_byte aad ->
  4 <= zlen p -> ztake 4 p = ztake 4 (aad ++ y) ->
  exists d', cipher_get_length t s p (zlen p) d = (Ok (be aad), d') /\ ctx_synced e d'.
Proof.
  intros S F1 La Ha Lp Ep. exists d. split; [|done]. destruct S as (_ & Ec & _).
  unfold cipher_get_length, bind, get. rewrite Ec, F1, (proj2 (Z.ltb_ge _ _)) by lia.
  rewrite mem_read_some, zdrop_0, Ep, ztake_app_le, ztake_all by lia. unfold defined. by rewrite PEEK_U32_be.
Qed.

Section Kinds.
Context (tmp : list Z) (Ht : scratch tmp) (e d : sshcipher_ctx V) (s : Z) (aad x : list Z).
Context (HS : ctx_synced e d) (Ha : Forall is_byte aad) (Hx : Forall is_byte x).
Context (Hb : zlen x mod ci_block_size (cc_cipher e) = 0) (Hau : ci_auth_len (cc_cipher e) <> 0 -> zlen aad = 4).

Definition encrypts : Prop := exists y e',
  cipher_crypt tmp s (aad ++ x) (zlen x) (zlen aad) (ci_auth_len (cc_cipher e)) e = (Ok y, e') /\
  encrypted e s aad x y e'.

Lemma chachapoly_encrypts : flag (cc_cipher e) CFLAG_CHACHAPOLY = true -> encrypts.
Proof.
  intros F1. pose proof HS as (Hc & _ & Ee & _ & Hp & Hk). rewrite F1 in Hk. destruct Hk as (Ce & _ & _).
  destruct (cipher_facts _ Hc) as (_ & _ & FC & _). specialize (FC F1). specialize (Hau ltac:(lia)).
  destruct (seal_spec tmp (proj1 Ht) (proj2 Ht) (cc_cp e) s aad x [] 16 Ce Ha Hx) as (c1 & E1 & C1 & K1).
  destruct (seal_shape (keys_of (cc_cp e)) s aad x (cp_keys_ok _ Ce)) as (Es & Lc & _ & L).
  exists (seal (keys_of (cc_cp e)) s aad x), (set_cp c1 e). rewrite app_nil_r in E1. rewrite FC. split.
  { unfold cipher_crypt, bind, get. rewrite F1, Ee. unfold cp_step. by rewrite E1. }
  constructor; rewrite ?FC; [done | by apply seal_bytes | done | | lia |].
  - intros t0 d0 rest [T1 T2] (_ & Ecd0 & _ & Ed0 & _ & HS0). rewrite F1 in HS0. destruct HS0 as (_ & Cd & Kd).
    destruct (open_seal t0 (cc_cp d0) s aad x rest 16 T1 T2 Cd Ha Hx) as (c2 & C2 & K2 & E2).
    rewrite Kd in E2. exists (set_cp c2 d0). split.
    + unfold cipher_crypt, bind, get. rewrite Ecd0, F1, Ed0. unfold cp_step. by rewrite E2.
    + unfold ctx_synced, set_cp. cbn. rewrite F1. split_and!; try done. congruence.
  - intros t0 d0 p [T1 T2] S0 _ Bp Lp Ep. pose proof S0 as (_ & Ecd0 & _ & Ed0 & _ & HS0). rewrite F1 in HS0. destruct HS0 as (_ & Cd & Kd).
    destruct (get_length_spec t0 T1 T2 (cc_cp d0) s p Cd Bp) as (c2 & C2 & K2 & E2). exists (set_cp c2 d0). split.
    + unfold cipher_get_length, bind, get. rewrite Ecd0, F1. unfold cp_step. rewrite E2, (proj2 (Z.ltb_ge _ _)) by lia.
      rewrite Ep, Es, <- app_assoc, ztake_app_le, ztake_all, Kd by lia.
      destruct (cp_keys_ok _ Ce) as (_ & _ & L2 & W2). by rewrite pkt_crypt_twice.
    + unfold ctx_synced, set_cp. cbn. rewrite F1. split_and!; try done. congruence.
Qed.

Lemma plain_reads d0 a n rest : cc_cipher d0 = cc_cipher e ->
  flag (cc_cipher e) CFLAG_CHACHAPOLY = false -> flag (cc_cipher e) CFLAG_NONE = true -> zlen a = n ->
  forall t s, cipher_crypt t s (a ++ rest) n 0 0 d0 = (Ok a, d0).
Proof.
  intros Ec F1 F2 <- t0 s0. unfold cipher_crypt, bind, get. rewrite Ec, F1, F2, Z.add_0_l, mem_read_front. done.
Qed.

Lemma none_encrypts : flag (cc_cipher e) CFLAG_CHACHAPOLY = false -> flag (cc_cipher e) CFLAG_NONE = true -> encrypts.
Proof.
  intros F1 F2. pose proof HS as (Hc & _). destruct (cipher_facts _ Hc) as (_ & _ & _ & FN). specialize (FN F2).
  exists (aad ++ x), e. rewrite FN. split.
  { unfold cipher_crypt, bind, get. rewrite F1, F2. pose proof (src_reads aad x []) as (_ & _ & R). rewrite app_nil_r in R. by rewrite R. }
  constructor; rewrite ?FN; [zl | by apply Forall_app | done | | |].
  - intros t0 d0 rest _ S0. exists d0. split; [|done]. destruct S0 as (_ & Ecd0 & _). rewrite <- app_assoc.
    unfold cipher_crypt, bind, get. rewrite Ecd0, F1, F2. pose proof (src_reads aad x rest) as (_ & _ & R). by rewrite R.
  - intros d0 n S0 L0 _ Hn _. destruct aad; [|pose proof (zlen_nonneg l); zl]. exists d0, d0. pose proof S0 as (_ & Ecd0 & _).
    split_and!; [done | | | done]; intros; apply plain_reads; zl || done.
  - intros t0 d0 p _ S0 La Bp Lp Ep. by apply (clear_length t0 e d0 s p aad x).
Qed.

Lemma evp_kind v : flag (cc_cipher e) CFLAG_CHACHAPOLY = false -> flag (cc_cipher e) CFLAG_NONE = false ->
  cc_evp e = Some v -> forall d0, ctx_synced e d0 -> exists w, cc_cipher d0 = cc_cipher e /\ cc_encrypt d0 = false /\
    cc_evp d0 = Some w /\ evp_synced (cc_cipher e) v w /\
    forall v' w', evp_synced (cc_cipher e) v' w' -> ctx_synced (set_evp v' e) (set_evp w' d0).
Proof.
  intros F1 F2 Hv d0 (? & Ecd0 & ? & Ed0 & ? & HS0). rewrite F1, F2 in HS0. destruct HS0 as (v0 & w0 & Hv0 & Hw0 & S0).
  assert (v0 = v) as -> by congruence. exists w0. split_and!; [done..|]. intros v' w' S'.
  unfold ctx_synced, set_evp. cbn. rewrite F1, F2. split_and!; try done; [congruence | by exists v', w'].
Qed.

Lemma stream_encrypts : flag (cc_cipher e) CFLAG_CHACHAPOLY = false -> flag (cc_cipher e) CFLAG_NONE = false ->
  ci_auth_len (cc_cipher e) = 0 -> encrypts.
Proof.
  intros F1 F2 A0. pose proof HS as (Hc & _ & _ & _ & _ & Hk). rewrite F1, F2 in Hk. destruct Hk as (v & w & Hv & _ & Sv).
  destruct (evp_encrypts _ _ _ x Sv A0 Hx Hb) as (y & v' & E & Ly & By).
  exists (aad ++ y), (set_evp v' e). rewrite A0. split.
  { pose proof (crypt_evp tmp e v s aad x [] Hc F1 F2 Hv Hb) as Q. rewrite app_nil_r in Q. by rewrite Q, E. }
  constructor; rewrite ?A0; [zl | by apply Forall_app | done | | |].
  - intros t0 d0 rest _ S0. destruct (evp_kind v F1 F2 Hv d0 S0) as (w0 & Ecd0 & Ed0 & Hw0 & S0' & Kd).
    destruct (evp_decrypts _ _ _ _ _ _ S0' A0 Hb E) as (w' & Ew & Sw). exists (set_evp w' d0). rewrite <- app_assoc, <- Ly.
    rewrite (crypt_evp t0 d0 w0) by (rewrite ?Ecd0, ?Ly; done). rewrite Ew. split; [done | by apply Kd].
  - intros d0 n S0 L0 _ Hn Hnb. destruct aad; [|pose proof (zlen_nonneg l); zl].
    destruct (evp_kind v F1 F2 Hv d0 S0) as (w0 & Ecd0 & Ed0 & Hw0 & S0' & Kd).
    destruct (evp_decrypts _ _ _ _ _ _ S0' A0 Hb E) as (w' & Ew & Sw).
    destruct (evp_chunks _ _ _ _ _ _ n S0' A0 Ew ltac:(lia) Hnb) as (w1 & W1 & W2).
    exists (set_evp w1 d0), (set_evp w' d0). split_and!; [done | | | by apply Kd]; intros t0 s0 rest.
    + rewrite (crypt_evp_blocks t0 d0 w0 s0 (ztake n y)) by (rewrite ?Ecd0; done || zl). by rewrite W1.
    + rewrite (crypt_evp_blocks t0 (set_evp w1 d0) w1 s0 (zdrop n y)); cbn [set_evp cc_cipher cc_evp]; rewrite ?Ecd0; try done.
      * by rewrite W2.
      * zl.
      * rewrite Zminus_mod, Hb, Hnb. apply Z.mod_0_l. destruct (cipher_facts _ Hc) as ([-> | ->] & _); lia.
  - intros t0 d0 p _ S0 La Bp Lp Ep. by apply (clear_length t0 e d0 s p aad y).
Qed.

Lemma gcm_encrypts : flag (cc_cipher e) CFLAG_CHACHAPOLY = false -> flag (cc_cipher e) CFLAG_NONE = false ->
  ci_auth_len (cc_cipher e) <> 0 -> encrypts.
Proof.
  intros F1 F2 A0. pose proof HS as (Hc & _ & Ee & _ & _ & Hk). rewrite F1, F2 in Hk. destruct Hk as (v & w & Hv & _ & Sv).
  specialize (Hau A0). destruct (evp_seals _ _ _ aad x Sv A0 Ha Hx Hb) as
    (v1 & v2 & y & v3 & v4 & tag & E1 & E2 & E3 & E4 & E5 & Ly & By & Lt & Bt).
  exists (aad ++ y ++ tag), (set_evp v4 e). split.
  { pose proof (crypt_seal tmp e v s aad x [] v1 v2 y v3 v4 tag) as Q. rewrite app_nil_r in Q. by apply Q. }
  constructor; [zl | by repeat (apply Forall_app; split) | done | | lia |].
  - intros t0 d0 rest _ S0. destruct (evp_kind v F1 F2 Hv d0 S0) as (w0 & Ecd0 & Ed0 & Hw0 & S0' & Kd).
    destruct (evp_opens _ _ _ _ _ _ _ _ _ _ _ S0' A0 E1 E2 E3 E4 E5) as (w1 & w2 & w3 & w4 & w5 & W1 & W2 & W3 & W4 & W5 & Sw).
    exists (set_evp w5 d0). rewrite <- !app_assoc. rewrite <- Ly, <- Ecd0. split; [|by apply Kd].
    by apply (crypt_open t0 d0 w0 s aad y tag rest w1 w2 w3 x w4 w5); rewrite ?Ecd0, ?Ly.
  - intros t0 d0 p _ S0 La Bp Lp Ep. by apply (clear_length t0 e d0 s p aad (y ++ tag)).
Qed.

(** A packet encrypted by the sending context. *)
Lemma crypt_encrypts : encrypts.
Proof.
  destruct (flag (cc_cipher e) CFLAG_CHACHAPOLY) eqn:F1; [by apply chachapoly_encrypts|].
  destruct (flag (cc_cipher e) CFLAG_NONE) eqn:F2; [by apply none_encrypts|].
  destruct (decide (ci_auth_len (cc_cipher e) = 0)); [by apply stream_encrypts | by apply gcm_encrypts].
Qed.
End Kinds.

Lemma get_length_short t s p d : zlen p < 4 -> cipher_get_length t s p (zlen p) d = (Err SSH_ERR_MESSAGE_INCOMPLETE, d).
Proof.
  intros. unfold cipher_get_length, bind, get. destruct (flag _ _).
  - unfold cp_step, chachapoly_get_length. rewrite (proj2 (Z.ltb_lt _ _)) by lia. by destruct d.
  - by rewrite (proj2 (Z.ltb_lt _ _)) by lia.
Qed.
End Encryption.
