(* ===== verification/Hmac.v ===== *)
(** * Digests and HMAC: src/digest-openssl.c and src/hmac.c

    The digest contexts of libcrypto are a class of operations with the laws
    its documentation states; on top of them the code's HMAC, with its inner
    and outer contexts prepared once per key and copied for every message, is
    shown to compute HMAC. *)
From S2P Require Import Prelude Sshbuf SshbufGetput CString Words Chacha Cipher.

Definition SSH_DIGEST_MAX_LENGTH : Z := 64.
Definition SSH_DIGEST_MD5 : Z := 0.
Definition SSH_DIGEST_SHA1 : Z := 1.
Definition SSH_DIGEST_SHA256 : Z := 2.
Definition SSH_DIGEST_SHA384 : Z := 3.
Definition SSH_DIGEST_SHA512 : Z := 4.
Definition SSH_DIGEST_MAX : Z := 5.
Definition UINT_MAX : Z := 2 ^ 32 - 1.

(** ** Digests *)

(** The function [mdfunc] is named by the algorithm it belongs to. *)
Record ssh_digest : Type := mk_ssh_digest { dg_id : Z; dg_name : list Z; dg_len : Z; dg_mdfunc : Z }.

Definition digests : list ssh_digest :=
  [mk_ssh_digest SSH_DIGEST_MD5 (str "MD5") 16 SSH_DIGEST_MD5;
   mk_ssh_digest SSH_DIGEST_SHA1 (str "SHA1") 20 SSH_DIGEST_SHA1;
   mk_ssh_digest SSH_DIGEST_SHA256 (str "SHA256") 32 SSH_DIGEST_SHA256;
   mk_ssh_digest SSH_DIGEST_SHA384 (str "SHA384") 48 SSH_DIGEST_SHA384;
   mk_ssh_digest SSH_DIGEST_SHA512 (str "SHA512") 64 SSH_DIGEST_SHA512].

Definition ssh_digest_by_alg (alg : Z) : option ssh_digest :=
  if (alg <? 0) || (SSH_DIGEST_MAX <=? alg) then None
  else
    match digests !! Z.to_nat alg with
    | None => None
    | Some d => if negb (dg_id d =? alg) then None else Some d
    end.

Fixpoint find_digest (l : list ssh_digest) (name : list Z) : Z :=
  match l with
  | [] => -1
  | d :: l => if streq (lowercase name) (lowercase (dg_name d)) then dg_id d else find_digest l name
  end.
Definition ssh_digest_alg_by_name (name : list Z) : Z := find_digest digests name.

Definition ssh_digest_alg_name (alg : Z) : option (list Z) := dg_name <$> ssh_digest_by_alg alg.
Definition ssh_digest_bytes (alg : Z) : Z :=
  match ssh_digest_by_alg alg with None => 0 | Some d => dg_len d end.

(** The calls on an [EVP_MD_CTX]; [None] is a failure. *)
Class EVP_MD (M : Type) : Type := {
  EVP_MD_CTX_new : option M;
  EVP_DigestInit_ex (m : M) (md : Z) : option M;
  EVP_MD_CTX_block_size (m : M) : Z;
  EVP_MD_CTX_copy_ex (to from : M) : option M;
  EVP_DigestUpdate (m : M) (data : list Z) : option M;
  EVP_DigestFinal_ex (m : M) : option (list Z * M);
  EVP_Digest (md : Z) (data : list Z) : option (list Z);
}.

Record ssh_digest_ctx {M : Type} : Type := mk_digest_ctx { dc_alg : Z; dc_md : M }.
Arguments ssh_digest_ctx : clear implicits.

Section Digest.
Context {M : Type} `{EVP_MD M}.

Definition ssh_digest_blocksize (ctx : ssh_digest_ctx M) : Z := EVP_MD_CTX_block_size (dc_md ctx).

(** [p] is the answer of [calloc]. *)
Definition ssh_digest_start (p alg : Z) : option (ssh_digest_ctx M) :=
  match ssh_digest_by_alg alg with
  | None => None
  | Some d =>
      if p =? 0 then None
      else
        match EVP_MD_CTX_new with
        | None => None
        | Some m =>
            match EVP_DigestInit_ex m (dg_mdfunc d) with
            | None => None
            | Some m => Some (mk_digest_ctx _ alg m)
            end
        end
  end.

(** The new value of [to]. *)
Definition ssh_digest_copy_state (from to : ssh_digest_ctx M) : res (ssh_digest_ctx M) :=
  if negb (dc_alg from =? dc_alg to) then Err SSH_ERR_INVALID_ARGUMENT
  else
    match EVP_MD_CTX_copy_ex (dc_md to) (dc_md from) with
    | None => Err SSH_ERR_LIBCRYPTO_ERROR
    | Some m => Ok (mk_digest_ctx _ (dc_alg to) m)
    end.

Definition ssh_digest_update (m : list Z) : ST (ssh_digest_ctx M) unit := fun ctx =>
  match EVP_DigestUpdate (dc_md ctx) m with
  | None => (Err SSH_ERR_LIBCRYPTO_ERROR, ctx)
  | Some x => (Ok tt, mk_digest_ctx _ (dc_alg ctx) x)
  end.

(** The bytes stored at [d]. *)
Definition ssh_digest_final (dlen : Z) : ST (ssh_digest_ctx M) (list Z) := fun ctx =>
  match ssh_digest_by_alg (dc_alg ctx) with
  | None => (Err SSH_ERR_INVALID_ARGUMENT, ctx)
  | Some dg =>
      if (UINT_MAX <? dlen) || (dlen <? dg_len dg) then (Err SSH_ERR_INVALID_ARGUMENT, ctx)
      else
        match EVP_DigestFinal_ex (dc_md ctx) with
        | None => (Err SSH_ERR_LIBCRYPTO_ERROR, ctx)
        | Some (d, x) =>
            (if negb (zlen d =? dg_len dg) then Err SSH_ERR_INTERNAL_ERROR else Ok d, mk_digest_ctx _ (dc_alg ctx) x)
        end
  end.

Definition ssh_digest_memory (alg : Z) (m : list Z) (dlen : Z) : res (list Z) :=
  match ssh_digest_by_alg alg with
  | None => Err SSH_ERR_INVALID_ARGUMENT
  | Some dg =>
      if (UINT_MAX <? dlen) || (dlen <? dg_len dg) then Err SSH_ERR_INVALID_ARGUMENT
      else or_fail (EVP_Digest (dg_mdfunc dg) m) SSH_ERR_LIBCRYPTO_ERROR
  end.
End Digest.

(** ** HMAC *)

Record ssh_hmac_ctx {M : Type} : Type := mk_hmac {
  hm_alg : Z;
  hm_ictx : ssh_digest_ctx M;
  hm_octx : ssh_digest_ctx M;
  hm_digest : ssh_digest_ctx M;
  hm_buf : list Z;
}.
Arguments ssh_hmac_ctx : clear implicits.

Section Hmac.
Context {M : Type} `{EVP_MD M}.

Definition ssh_hmac_bytes (alg : Z) : Z := ssh_digest_bytes alg.

(** [p] is the answer of the allocator. *)
Definition ssh_hmac_start (p alg : Z) : option (ssh_hmac_ctx M) :=
  if p =? 0 then None
  else
    match ssh_digest_start p alg, ssh_digest_start p alg, ssh_digest_start p alg with
    | Some i, Some o, Some d => Some (mk_hmac _ alg i o d (replicate (Z.to_nat (ssh_digest_blocksize i)) 0))
    | _, _, _ => None
    end.

Definition set_buf (b : list Z) : ST (ssh_hmac_ctx M) unit := fun c =>
  (Ok tt, mk_hmac _ (hm_alg c) (hm_ictx c) (hm_octx c) (hm_digest c) b).
Definition on_ictx {A} (m : ST (ssh_digest_ctx M) A) : ST (ssh_hmac_ctx M) A := fun c =>
  let '(r, x) := m (hm_ictx c) in (r, mk_hmac _ (hm_alg c) x (hm_octx c) (hm_digest c) (hm_buf c)).
Definition on_octx {A} (m : ST (ssh_digest_ctx M) A) : ST (ssh_hmac_ctx M) A := fun c =>
  let '(r, x) := m (hm_octx c) in (r, mk_hmac _ (hm_alg c) (hm_ictx c) x (hm_digest c) (hm_buf c)).
Definition on_digest {A} (m : ST (ssh_digest_ctx M) A) : ST (ssh_hmac_ctx M) A := fun c =>
  let '(r, x) := m (hm_digest c) in (r, mk_hmac _ (hm_alg c) (hm_ictx c) (hm_octx c) x (hm_buf c)).

(** [digest] becomes a copy of [from]. *)
Definition copy_to_digest (from : ssh_hmac_ctx M -> ssh_digest_ctx M) : ST (ssh_hmac_ctx M) unit := fun c =>
  match ssh_digest_copy_state (from c) (hm_digest c) with
  | Ok d => (Ok tt, mk_hmac _ (hm_alg c) (hm_ictx c) (hm_octx c) d (hm_buf c))
  | Err _ => (Err (-1), c)
  | Crash => (Crash, c)
  end.

Definition xor_all (k : Z) (b : list Z) : list Z := map (fun x => Z.lxor x k) b.

(** The key into the inner and the outer context. *)
Definition hmac_load (key : list Z) : ST (ssh_hmac_ctx M) unit :=
  let! c := get in
  let! v := (if zlen key <=? zlen (hm_buf c) then ret key
             else fun c => (match ssh_digest_memory (hm_alg c) key (zlen (hm_buf c)) with
                            | Ok d => Ok d | Err _ => Err (-1) | Crash => Crash end, c)) in
  let! b := defined (mem_write (hm_buf c) 0 v) in
  let b := xor_all 0x36 b in
  do! set_buf b ;;
  do! or_err (on_ictx (ssh_digest_update b)) (-1) ;;
  let b := xor_all (Z.lxor 0x36 0x5c) b in
  do! set_buf b ;;
  do! or_err (on_octx (ssh_digest_update b)) (-1) ;;
  set_buf (replicate (length b) 0).

Definition ssh_hmac_init (key : option (list Z)) : ST (ssh_hmac_ctx M) unit :=
  do! (match key with None => ret tt | Some key => hmac_load key end) ;;
  copy_to_digest hm_ictx.

Definition ssh_hmac_update (m : list Z) : ST (ssh_hmac_ctx M) unit := on_digest (ssh_digest_update m).

(** The bytes stored at [d]. *)
Definition ssh_hmac_final (dlen : Z) : ST (ssh_hmac_ctx M) (list Z) :=
  let! c := get in
  let len := ssh_digest_bytes (hm_alg c) in
  if dlen <? len then fail (-1)
  else
    let! inner := or_err (on_digest (ssh_digest_final len)) (-1) in
    let! b := defined (mem_write (hm_buf c) 0 inner) in
    do! set_buf b ;;
    do! copy_to_digest hm_octx ;;
    do! or_err (on_digest (ssh_digest_update (ztake len b))) (-1) ;;
    or_err (on_digest (ssh_digest_final dlen)) (-1).
End Hmac.

(** ** What libcrypto promises *)

(** [md_state m md d]: the context [m] has absorbed [d] under digest [md]. *)
Class EVP_MDLaws (M : Type) `{EVP_MD M} : Type := {
  md_hash : Z -> list Z -> list Z;
  md_block : Z -> Z;
  md_state : M -> Z -> list Z -> Prop;
  md_hash_len md m : ssh_digest_by_alg md <> None -> zlen (md_hash md m) = ssh_digest_bytes md;
  md_hash_bytes md m : Forall is_byte (md_hash md m);
  md_block_ok md : ssh_digest_by_alg md <> None -> ssh_digest_bytes md <= md_block md <= UINT_MAX;
  md_start md : exists m m', EVP_MD_CTX_new = Some m /\ EVP_DigestInit_ex m md = Some m' /\ md_state m' md [];
  md_block_size m md d : md_state m md d -> EVP_MD_CTX_block_size m = md_block md;
  md_update m md d x : md_state m md d -> exists m', EVP_DigestUpdate m x = Some m' /\ md_state m' md (d ++ x);
  md_final m md d : md_state m md d -> exists m', EVP_DigestFinal_ex m = Some (md_hash md d, m');
  md_copy to from md d : md_state from md d -> exists m', EVP_MD_CTX_copy_ex to from = Some m' /\ md_state m' md d;
  md_memory md x : EVP_Digest md x = Some (md_hash md x);
}.

(** HMAC as RFC 2104 defines it. *)
Section Spec.
Context {M : Type} `{EVP_MDLaws M}.

Definition pad_key (alg : Z) (key : list Z) : list Z :=
  let k := if zlen key <=? md_block alg then key else md_hash alg key in
  k ++ replicate (Z.to_nat (md_block alg - zlen k)) 0.

Definition HMAC (alg : Z) (key m : list Z) : list Z :=
  md_hash alg (xor_all 0x5c (pad_key alg key) ++ md_hash alg (xor_all 0x36 (pad_key alg key) ++ m)).

(** A context prepared with [key]. *)
Record keyed (alg : Z) (key : list Z) (c : ssh_hmac_ctx M) : Prop := {
  ky_alg : hm_alg c = alg;
  ky_known : ssh_digest_by_alg alg <> None;
  ky_ialg : dc_alg (hm_ictx c) = alg;
  ky_oalg : dc_alg (hm_octx c) = alg;
  ky_dalg : dc_alg (hm_digest c) = alg;
  ky_inner : md_state (dc_md (hm_ictx c)) alg (xor_all 0x36 (pad_key alg key));
  ky_outer : md_state (dc_md (hm_octx c)) alg (xor_all 0x5c (pad_key alg key));
  ky_buf : zlen (hm_buf c) = md_block alg;
}.

Lemma by_alg_mdfunc alg d : ssh_digest_by_alg alg = Some d -> dg_mdfunc d = alg /\ 0 <= dg_len d <= 64.
Proof.
  unfold ssh_digest_by_alg. destruct (_ || _) eqn:C; [done|]. zbool. unfold SSH_DIGEST_MAX in *.
  assert (alg = 0 \/ alg = 1 \/ alg = 2 \/ alg = 3 \/ alg = 4) as Hc by lia.
  repeat destruct Hc as [->|Hc]; try subst alg; cbn; intros [= <-]; (split; [reflexivity|by vm_compute]).
Qed.

Lemma digest_final_spec (c : ssh_digest_ctx M) dlen d :
  ssh_digest_by_alg (dc_alg c) <> None -> md_state (dc_md c) (dc_alg c) d -> ssh_digest_bytes (dc_alg c) <= dlen <= UINT_MAX ->
  exists c', ssh_digest_final dlen c = (Ok (md_hash (dc_alg c) d), c') /\ dc_alg c' = dc_alg c.
Proof.
  intros Ha Hs Hd. destruct (md_final _ _ _ Hs) as (m' & E). unfold ssh_digest_final.
  pose proof (md_hash_len (dc_alg c) d Ha) as L. unfold ssh_digest_bytes in *.
  destruct (ssh_digest_by_alg (dc_alg c)) as [dg|] eqn:A; [|done].
  rewrite (proj2 (Z.ltb_ge _ _)), (proj2 (Z.ltb_ge dlen _)) by lia. cbn [orb]. rewrite E, L, Z.eqb_refl. by eexists.
Qed.

Lemma digest_update_spec (c : ssh_digest_ctx M) d x :
  md_state (dc_md c) (dc_alg c) d ->
  exists c', ssh_digest_update x c = (Ok tt, c') /\ dc_alg c' = dc_alg c /\ md_state (dc_md c') (dc_alg c) (d ++ x).
Proof. intros Hs. destruct (md_update _ _ _ x Hs) as (m' & E & S). unfold ssh_digest_update. rewrite E. by eexists. Qed.

Lemma digest_copy_spec (from to : ssh_digest_ctx M) d :
  dc_alg from = dc_alg to -> md_state (dc_md from) (dc_alg from) d ->
  exists c', ssh_digest_copy_state from to = Ok c' /\ dc_alg c' = dc_alg to /\ md_state (dc_md c') (dc_alg to) d.
Proof.
  intros Ea Hs. destruct (md_copy (dc_md to) _ _ _ Hs) as (m' & E & S). unfold ssh_digest_copy_state.
  rewrite Ea, Z.eqb_refl, E. cbn. eexists. split_and!; [done..|]. cbn. by rewrite <- Ea.
Qed.

Lemma copy_ictx alg key c : keyed alg key c ->
  exists c', ssh_hmac_init None c = (Ok tt, c') /\ keyed alg key c' /\
    md_state (dc_md (hm_digest c')) alg (xor_all 0x36 (pad_key alg key)).
Proof.
  intros [A Hk Ia Oa Da Hi Ho Hb]. unfold ssh_hmac_init, bind at 1, ret, copy_to_digest.
  destruct (digest_copy_spec (hm_ictx c) (hm_digest c) (xor_all 0x36 (pad_key alg key))) as (d & -> & Ad & Sd); [congruence | by rewrite Ia |].
  eexists. split; [done|]. cbn. split; [by constructor; cbn; congruence || done|]. by rewrite Da in Sd.
Qed.

Lemma hmac_update_spec alg key c d x : keyed alg key c -> md_state (dc_md (hm_digest c)) alg d ->
  exists c', ssh_hmac_update x c = (Ok tt, c') /\ keyed alg key c' /\ md_state (dc_md (hm_digest c')) alg (d ++ x).
Proof.
  intros [A Hk Ia Oa Da Hi Ho Hb] Sd. unfold ssh_hmac_update, on_digest.
  destruct (digest_update_spec (hm_digest c) d x) as (d' & -> & Ad & Sd'); [by rewrite Da|].
  eexists. split; [done|]. cbn. split; [by constructor; cbn; congruence || done|]. by rewrite Da in Sd'.
Qed.

Lemma hmac_final_spec alg key c m dlen : keyed alg key c ->
  md_state (dc_md (hm_digest c)) alg (xor_all 0x36 (pad_key alg key) ++ m) -> ssh_digest_bytes alg <= dlen <= UINT_MAX ->
  exists c', ssh_hmac_final dlen c = (Ok (HMAC alg key m), c') /\ keyed alg key c'.
Proof.
  intros [A Hk Ia Oa Da Hi Ho Hb] Sd Hl. unfold ssh_hmac_final, bind at 1, get. rewrite A.
  rewrite (proj2 (Z.ltb_ge _ _)) by lia.
  destruct (digest_final_spec (hm_digest c) (ssh_digest_bytes alg) (xor_all 0x36 (pad_key alg key) ++ m)) as (d1 & E1 & A1);
    [by rewrite Da | by rewrite Da | rewrite Da; lia |].
  set (inner := md_hash alg (xor_all 0x36 (pad_key alg key) ++ m)) in *.
  pose proof (md_hash_len alg (xor_all 0x36 (pad_key alg key) ++ m) Hk) as Li. fold inner in Li.
  pose proof (md_block_ok alg Hk). pose proof (zlen_nonneg inner).
  unfold or_err, on_digest, bind. rewrite E1, Da. fold inner.
  rewrite mem_write_some by lia. cbn [defined set_buf hm_buf hm_alg hm_ictx hm_octx hm_digest].
  set (b := ztake 0 (hm_buf c) ++ inner ++ _). assert (ztake (ssh_digest_bytes alg) b = inner) as ->.
  { subst b. by rewrite (ztake_0 0), app_nil_l, ztake_app_le, ztake_all by lia. }
  assert (Lb : zlen b = md_block alg) by (subst b; rewrite ztake_0 by lia; zl).
  unfold copy_to_digest. cbn [hm_buf hm_alg hm_ictx hm_octx hm_digest].
  destruct (digest_copy_spec (hm_octx c) d1 (xor_all 0x5c (pad_key alg key))) as (d2 & -> & A2 & S2); [congruence | by rewrite Oa |].
  cbn [hm_buf hm_alg hm_ictx hm_octx hm_digest]. rewrite A1, Da in *.
  destruct (digest_update_spec d2 (xor_all 0x5c (pad_key alg key)) inner) as (d3 & -> & A3 & S3); [by rewrite A2|].
  cbn [hm_buf hm_alg hm_ictx hm_octx hm_digest].
  destruct (digest_final_spec d3 dlen (xor_all 0x5c (pad_key alg key) ++ inner)) as (d4 & -> & A4);
    [by rewrite A3, A2 | by rewrite A3 | rewrite A3, A2; lia |].
  rewrite A3, A2. eexists. split; [done|]. constructor; cbn; congruence || done.
Qed.

(** One message on a prepared context: HMAC of its two parts. *)
Lemma hmac_message alg key c a b dlen : keyed alg key c -> ssh_digest_bytes alg <= dlen <= UINT_MAX ->
  exists c', (do! ssh_hmac_init None ;; do! ssh_hmac_update a ;; do! ssh_hmac_update b ;; ssh_hmac_final dlen) c =
    (Ok (HMAC alg key (a ++ b)), c') /\ keyed alg key c'.
Proof.
  intros K Hl. destruct (copy_ictx _ _ _ K) as (c1 & E1 & K1 & S1). rewrite (bind_ok _ _ _ _ _ E1).
  destruct (hmac_update_spec _ _ _ _ a K1 S1) as (c2 & E2 & K2 & S2). rewrite (bind_ok _ _ _ _ _ E2).
  destruct (hmac_update_spec _ _ _ _ b K2 S2) as (c3 & E3 & K3 & S3). rewrite (bind_ok _ _ _ _ _ E3).
  rewrite <- app_assoc in S3. by apply hmac_final_spec.
Qed.

Lemma HMAC_len alg key m : ssh_digest_by_alg alg <> None -> zlen (HMAC alg key m) = ssh_digest_bytes alg.
Proof. intros. by apply md_hash_len. Qed.

(** ** Preparing a context *)

Lemma xor_all_twice j k b : xor_all k (xor_all j b) = xor_all (Z.lxor j k) b.
Proof. unfold xor_all. rewrite map_map. apply map_ext. intros. by rewrite Z.lxor_assoc. Qed.

Lemma hmac_start_spec p alg : p <> 0 -> ssh_digest_by_alg alg <> None ->
  exists c, ssh_hmac_start (M:=M) p alg = Some c /\ hm_alg c = alg /\
    dc_alg (hm_ictx c) = alg /\ dc_alg (hm_octx c) = alg /\ dc_alg (hm_digest c) = alg /\
    md_state (dc_md (hm_ictx c)) alg [] /\ md_state (dc_md (hm_octx c)) alg [] /\
    hm_buf c = replicate (Z.to_nat (md_block alg)) 0.
Proof.
  intros Hp Ha. destruct (ssh_digest_by_alg alg) as [d|] eqn:A; [|done].
  destruct (by_alg_mdfunc alg d A) as [Ed _]. destruct (md_start (dg_mdfunc d)) as (m & m' & E1 & E2 & S).
  unfold ssh_hmac_start, ssh_digest_start. rewrite A, (proj2 (Z.eqb_neq _ _)), E1, E2 by done.
  eexists. split; [done|]. cbn. rewrite Ed in S. split_and!; try done. unfold ssh_digest_blocksize. cbn.
  by rewrite (md_block_size _ _ _ S).
Qed.

Lemma pad_key_len alg key : ssh_digest_by_alg alg <> None -> zlen (pad_key alg key) = md_block alg.
Proof.
  intros Ha. unfold pad_key. pose proof (md_block_ok alg Ha). pose proof (md_hash_len alg key Ha).
  destruct (zlen key <=? md_block alg) eqn:C; zbool; rewrite zlen_app, zlen_replicate; lia.
Qed.

Lemma hmac_init_key p alg key c : p <> 0 -> ssh_digest_by_alg alg <> None -> ssh_hmac_start p alg = Some c ->
  exists c', ssh_hmac_init (Some key) c = (Ok tt, c') /\ keyed alg key c'.
Proof.
  intros Hp Ha Hc. destruct (hmac_start_spec p alg Hp Ha) as (c0 & E0 & A & Ia & Oa & Da & Si & So & Hb).
  assert (c0 = c) as -> by congruence. clear E0 Hc.
  pose proof (md_block_ok alg Ha) as Hblk. pose proof (md_hash_len alg key Ha) as Hh.
  assert (0 <= ssh_digest_bytes alg). { rewrite <- Hh. apply zlen_nonneg. }
  assert (Lb : zlen (hm_buf c) = md_block alg) by (rewrite Hb, zlen_replicate; lia).
  set (v := if zlen key <=? md_block alg then key else md_hash alg key).
  assert (Lv : zlen v <= md_block alg) by (subst v; destruct (zlen key <=? md_block alg) eqn:C; zbool; lia).
  assert (Ev : (if zlen key <=? zlen (hm_buf c) then ret key
                else fun c => (match ssh_digest_memory (hm_alg c) key (zlen (hm_buf c)) with
                               | Ok d => Ok d | Err _ => Err (-1) | Crash => Crash end, c)) c = (Ok v, c)).
  { subst v. rewrite Lb. destruct (zlen key <=? md_block alg); [done|]. rewrite A, Lb. unfold ssh_digest_memory.
    unfold ssh_digest_bytes in *. destruct (ssh_digest_by_alg alg) as [d|] eqn:Ad; [|done].
    rewrite (proj2 (Z.ltb_ge _ _)), (proj2 (Z.ltb_ge _ (dg_len d))) by lia. cbn [orb].
    rewrite md_memory. destruct (by_alg_mdfunc alg d Ad) as [-> _]. done. }
  assert (Ew : mem_write (hm_buf c) 0 v = Some (pad_key alg key)).
  { rewrite mem_write_some by lia. f_equal. rewrite ztake_0, app_nil_l by lia. unfold pad_key. fold v. f_equal.
    rewrite Hb. unfold zdrop. rewrite drop_replicate. f_equal. pose proof (zlen_nonneg v). lia. }
  assert (exists c1, hmac_load key c = (Ok tt, c1) /\ keyed alg key c1) as (c1 & E1 & K1).
  { unfold hmac_load. unfold bind at 1, get. rewrite (bind_ok _ _ _ _ _ Ev), Ew.
    unfold bind, defined, set_buf, or_err, on_ictx, on_octx. cbn [hm_buf hm_alg hm_ictx hm_octx hm_digest].
    destruct (digest_update_spec (hm_ictx c) [] (xor_all 0x36 (pad_key alg key))) as (i & -> & Ai & Si'); [by rewrite Ia|].
    cbn [hm_buf hm_alg hm_ictx hm_octx hm_digest]. rewrite xor_all_twice.
    change (Z.lxor 0x36 (Z.lxor 0x36 0x5c)) with 0x5c.
    destruct (digest_update_spec (hm_octx c) [] (xor_all 0x5c (pad_key alg key))) as (o & -> & Ao & So'); [by rewrite Oa|].
    eexists. split; [done|]. constructor; cbn [hm_buf hm_alg hm_ictx hm_octx hm_digest]; try done; try congruence.
    - by rewrite Ia in Si'.
    - by rewrite Oa in So'.
    - unfold zlen, xor_all. rewrite length_replicate, length_map. by apply pad_key_len. }
  destruct (copy_ictx alg key c1 K1) as (c2 & E2 & K2 & _). exists c2. split; [|done].
  unfold ssh_hmac_init. rewrite (bind_ok _ _ _ _ _ E1). exact E2.
Qed.
End Spec.
