(* ===== verification/Mac.v ===== *)
(** * Message authentication codes: src/mac.c

    The table of algorithms, the preparation of a key and the computation and
    check of a packet's code.  HMAC is that of hmac.c; the contexts of umac.c
    are a class of operations. *)
From S2P Require Import Prelude Sshbuf SshbufGetput CString Words Chacha ChachaPoly Cipher Hmac.

Definition SSH_DIGEST : Z := 1.
Definition SSH_UMAC : Z := 2.
Definition SSH_UMAC128 : Z := 3.

Record macalg : Type := mk_macalg {
  ma_name : list Z;
  ma_type : Z;
  ma_alg : Z;
  ma_truncatebits : Z;
  ma_key_len : Z;
  ma_len : Z;
  ma_etm : bool;
}.

Definition macs : list macalg :=
  [mk_macalg (str "hmac-sha1") SSH_DIGEST SSH_DIGEST_SHA1 0 0 0 false;
   mk_macalg (str "hmac-sha1-96") SSH_DIGEST SSH_DIGEST_SHA1 96 0 0 false;
   mk_macalg (str "hmac-sha2-256") SSH_DIGEST SSH_DIGEST_SHA256 0 0 0 false;
   mk_macalg (str "hmac-sha2-512") SSH_DIGEST SSH_DIGEST_SHA512 0 0 0 false;
   mk_macalg (str "hmac-md5") SSH_DIGEST SSH_DIGEST_MD5 0 0 0 false;
   mk_macalg (str "hmac-md5-96") SSH_DIGEST SSH_DIGEST_MD5 96 0 0 false;
   mk_macalg (str "umac-64@openssh.com") SSH_UMAC 0 0 128 64 false;
   mk_macalg (str "umac-128@openssh.com") SSH_UMAC128 0 0 128 128 false;
   mk_macalg (str "hmac-sha1-etm@openssh.com") SSH_DIGEST SSH_DIGEST_SHA1 0 0 0 true;
   mk_macalg (str "hmac-sha1-96-etm@openssh.com") SSH_DIGEST SSH_DIGEST_SHA1 96 0 0 true;
   mk_macalg (str "hmac-sha2-256-etm@openssh.com") SSH_DIGEST SSH_DIGEST_SHA256 0 0 0 true;
   mk_macalg (str "hmac-sha2-512-etm@openssh.com") SSH_DIGEST SSH_DIGEST_SHA512 0 0 0 true;
   mk_macalg (str "hmac-md5-etm@openssh.com") SSH_DIGEST SSH_DIGEST_MD5 0 0 0 true;
   mk_macalg (str "hmac-md5-96-etm@openssh.com") SSH_DIGEST SSH_DIGEST_MD5 96 0 0 true;
   mk_macalg (str "umac-64-etm@openssh.com") SSH_UMAC 0 0 128 64 true;
   mk_macalg (str "umac-128-etm@openssh.com") SSH_UMAC128 0 0 128 128 true].

(** The calls of umac.c ([wide] for its 128-bit copy). *)
Class UMAC (U : Type) : Type := {
  umac_new (wide : bool) (key : list Z) : option U;
  umac_update (wide : bool) (u : U) (data : list Z) : U;
  umac_final (wide : bool) (u : U) (nonce : list Z) : list Z * U;
}.

Record sshmac {M U : Type} : Type := mk_sshmac {
  mac_enabled : bool;
  mac_len : Z;
  mac_key : option (list Z);
  mac_key_len : Z;
  mac_type : Z;
  mac_etm : bool;
  mac_hmac : option (ssh_hmac_ctx M);
  mac_umac : option U;
}.
Arguments sshmac : clear implicits.

Section Mac.
Context {M U : Type} `{EVP_MD M} `{UMAC U}.
Implicit Types mac : sshmac M U.

Definition set_hmac (h : option (ssh_hmac_ctx M)) (mac : sshmac M U) : sshmac M U :=
  mk_sshmac _ _ (mac_enabled mac) (mac_len mac) (mac_key mac) (mac_key_len mac) (mac_type mac) (mac_etm mac) h (mac_umac mac).
Definition set_umac (u : option U) (mac : sshmac M U) : sshmac M U :=
  mk_sshmac _ _ (mac_enabled mac) (mac_len mac) (mac_key mac) (mac_key_len mac) (mac_type mac) (mac_etm mac) (mac_hmac mac) u.
Definition set_mac_enabled (b : bool) (mac : sshmac M U) : sshmac M U :=
  mk_sshmac _ _ b (mac_len mac) (mac_key mac) (mac_key_len mac) (mac_type mac) (mac_etm mac) (mac_hmac mac) (mac_umac mac).

(** [p] is the answer of the allocator. *)
Definition mac_setup_by_alg (p : Z) (a : macalg) : ST (sshmac M U) unit := fun mac =>
  let trunc n := if negb (ma_truncatebits a =? 0) then ma_truncatebits a / 8 else n in
  if ma_type a =? SSH_DIGEST then
    match ssh_hmac_start p (ma_alg a) with
    | None => (Err SSH_ERR_ALLOC_FAIL,
               mk_sshmac _ _ (mac_enabled mac) (mac_len mac) (mac_key mac) (mac_key_len mac) (ma_type a) (mac_etm mac) None (mac_umac mac))
    | Some h =>
        let n := ssh_hmac_bytes (ma_alg a) in
        (Ok tt, mk_sshmac _ _ (mac_enabled mac) (trunc n) (mac_key mac) n (ma_type a) (ma_etm a) (Some h) (mac_umac mac))
    end
  else
    (Ok tt, mk_sshmac _ _ (mac_enabled mac) (trunc (ma_len a / 8)) (mac_key mac) (ma_key_len a / 8) (ma_type a) (ma_etm a)
              (mac_hmac mac) None).

Fixpoint find_mac (l : list macalg) (name : list Z) : option macalg :=
  match l with
  | [] => None
  | a :: l => if streq name (ma_name a) then Some a else find_mac l name
  end.

Definition mac_setup (p : Z) (name : list Z) : ST (sshmac M U) unit :=
  match find_mac macs name with
  | Some a => mac_setup_by_alg p a
  | None => fail SSH_ERR_INVALID_ARGUMENT
  end.

(** A step of the HMAC context. *)
Definition hmac_step {A} (m : ST (ssh_hmac_ctx M) A) : ST (sshmac M U) A := fun mac =>
  match mac_hmac mac with
  | None => (Crash, mac)
  | Some h => let '(r, h) := m h in (r, set_hmac (Some h) mac)
  end.

Definition mac_init : ST (sshmac M U) unit :=
  let! mac := get in
  match mac_key mac with
  | None => fail SSH_ERR_INVALID_ARGUMENT
  | Some key =>
      if mac_type mac =? SSH_DIGEST then
        match mac_hmac mac with
        | None => fail SSH_ERR_INVALID_ARGUMENT
        | Some _ =>
            let! k := defined (mem_read key 0 (mac_key_len mac)) in
            or_err (hmac_step (ssh_hmac_init (Some k))) SSH_ERR_INVALID_ARGUMENT
        end
      else if (mac_type mac =? SSH_UMAC) || (mac_type mac =? SSH_UMAC128) then
        match umac_new (mac_type mac =? SSH_UMAC128) key with
        | None => fun mac => (Err SSH_ERR_ALLOC_FAIL, set_umac None mac)
        | Some u => put (set_umac (Some u) mac)
        end
      else fail SSH_ERR_INVALID_ARGUMENT
  end.

(** The bytes stored in the static buffer. *)
Definition mac_tag (seqno : Z) (data : list Z) : ST (sshmac M U) (list Z) :=
  let! mac := get in
  if mac_type mac =? SSH_DIGEST then
    or_err (hmac_step (do! ssh_hmac_init None ;; do! ssh_hmac_update (POKE_U32 seqno) ;;
                       do! ssh_hmac_update data ;; ssh_hmac_final SSH_DIGEST_MAX_LENGTH)) SSH_ERR_LIBCRYPTO_ERROR
  else if (mac_type mac =? SSH_UMAC) || (mac_type mac =? SSH_UMAC128) then
    match mac_umac mac with
    | None => crash
    | Some u =>
        let wide := mac_type mac =? SSH_UMAC128 in
        let '(t, u) := umac_final wide (umac_update wide u data) (POKE_U64 seqno) in
        do! put (set_umac (Some u) mac) ;; ret t
    end
  else fail SSH_ERR_INVALID_ARGUMENT.

(** The bytes stored at [digest]; [um] is what the static buffer held before,
    [digest] NULL is a [dlen] of 0. *)
Definition mac_compute (um : list Z) (seqno : Z) (data : list Z) (dlen : Z) : ST (sshmac M U) (list Z) :=
  let! mac := get in
  if SSH_DIGEST_MAX_LENGTH <? mac_len mac then fail SSH_ERR_INTERNAL_ERROR
  else
    let! t := mac_tag seqno data in
    let! mac := get in
    let dlen := if mac_len mac <? dlen then mac_len mac else dlen in
    ret (ztake dlen (t ++ zdrop (zlen t) um)).

(** [theirmac] is the memory from [theirmac] on. *)
Definition mac_check (um : list Z) (seqno : Z) (data theirmac : list Z) (mlen : Z) : ST (sshmac M U) unit :=
  let! mac := get in
  if mlen <? mac_len mac then fail SSH_ERR_INVALID_ARGUMENT
  else
    let! ourmac := mac_compute um seqno data SSH_DIGEST_MAX_LENGTH in
    let! theirs := defined (mem_read theirmac 0 (mac_len mac)) in
    if bool_decide (ourmac = theirs) then ret tt else fail SSH_ERR_MAC_INVALID.
End Mac.

(** ** What the two ends agree on *)

(** Two UMAC contexts with the same key, between messages. *)
Class UMACLaws (U : Type) `{UMAC U} : Type := {
  umac_same : bool -> U -> U -> Prop;
  umac_tag wide u v data nonce : umac_same wide u v ->
    let '(t, u') := umac_final wide (umac_update wide u data) nonce in
    let '(t', v') := umac_final wide (umac_update wide v data) nonce in
    t = t' /\ umac_same wide u' v' /\ Forall is_byte t /\ zlen t = if wide then 16 else 8;
}.

Section MacLaws.
Context {M U : Type} `{EVP_MDLaws M} `{UMACLaws U}.
Implicit Types mac : sshmac M U.

(** Two contexts prepared with the same algorithm and key; their scratch
    contents may differ. *)
Record mac_agree (m1 m2 : sshmac M U) : Prop := {
  mg_enabled : mac_enabled m2 = mac_enabled m1;
  mg_len : mac_len m2 = mac_len m1;
  mg_type : mac_type m2 = mac_type m1;
  mg_etm : mac_etm m2 = mac_etm m1;
  mg_ctx :
    mac_type m1 = SSH_DIGEST /\ (exists alg key h1 h2, mac_hmac m1 = Some h1 /\ mac_hmac m2 = Some h2 /\
      keyed alg key h1 /\ keyed alg key h2 /\ 0 <= mac_len m1 <= ssh_digest_bytes alg) \/
    (mac_type m1 = SSH_UMAC \/ mac_type m1 = SSH_UMAC128) /\
      (exists u1 u2, mac_umac m1 = Some u1 /\ mac_umac m2 = Some u2 /\ umac_same (mac_type m1 =? SSH_UMAC128) u1 u2 /\
        mac_len m1 = if mac_type m1 =? SSH_UMAC128 then 16 else 8);
}.

Lemma digest_bytes_max alg : ssh_digest_by_alg alg <> None -> ssh_digest_bytes alg <= 64.
Proof. intros Ha. unfold ssh_digest_bytes. destruct (ssh_digest_by_alg alg) as [d|] eqn:E; [|done]. by apply by_alg_mdfunc in E as [_ ?]; lia. Qed.

Lemma hmac_tag (mac : sshmac M U) alg key h s data :
  mac_type mac = SSH_DIGEST -> mac_hmac mac = Some h -> keyed alg key h ->
  exists h', mac_tag s data mac = (Ok (HMAC alg key (POKE_U32 s ++ data)), set_hmac (Some h') mac) /\ keyed alg key h'.
Proof.
  intros Ty Eh K. pose proof (digest_bytes_max alg (ky_known _ _ _ K)).
  destruct (hmac_message alg key h (POKE_U32 s) data SSH_DIGEST_MAX_LENGTH K) as (h' & E & K'); [split; [done|by vm_compute]|].
  exists h'. split; [|done]. unfold mac_tag. unfold bind at 1, get. rewrite Ty. cbn [Z.eqb SSH_DIGEST Pos.eqb].
  unfold or_err, hmac_step. by rewrite Eh, E.
Qed.

Lemma mac_tag_agree m1 m2 s data : mac_agree m1 m2 ->
  exists t m1' m2', mac_tag s data m1 = (Ok t, m1') /\ mac_tag s data m2 = (Ok t, m2') /\ mac_agree m1' m2' /\
    0 <= mac_len m1 <= zlen t /\ mac_len m1 <= 64 /\ Forall is_byte t /\
    mac_len m1' = mac_len m1 /\ mac_etm m1' = mac_etm m1 /\ mac_enabled m1' = mac_enabled m1.
Proof.
  intros [Ge Gl Gt Gm [(Ty & alg & key & h1 & h2 & E1 & E2 & K1 & K2 & Hl)|(Ty & u1 & u2 & E1 & E2 & S & Hl)]].
  - destruct (hmac_tag m1 alg key h1 s data Ty E1 K1) as (h1' & T1 & K1').
    destruct (hmac_tag m2 alg key h2 s data ltac:(congruence) E2 K2) as (h2' & T2 & K2').
    pose proof (ky_known _ _ _ K1) as Ha. pose proof (digest_bytes_max alg Ha).
    eexists _, _, _. split; [exact T1|]. split; [exact T2|]. rewrite HMAC_len by done. split_and!; try done; try lia.
    + constructor; cbn; try done. left. split; [done|]. by exists alg, key, h1', h2'.
    + apply md_hash_bytes.
  - set (wide := mac_type m1 =? SSH_UMAC128) in *.
    pose proof (umac_tag wide u1 u2 data (POKE_U64 s) S) as T.
    destruct (umac_final wide (umac_update wide u1 data) (POKE_U64 s)) as [t u1'] eqn:F1.
    destruct (umac_final wide (umac_update wide u2 data) (POKE_U64 s)) as [t' u2'] eqn:F2.
    destruct T as (<- & S' & Bt & Lt).
    assert (forall (mac : sshmac M U) u u', mac_type mac = mac_type m1 -> mac_umac mac = Some u ->
      umac_final wide (umac_update wide u data) (POKE_U64 s) = (t, u') -> mac_tag s data mac = (Ok t, set_umac (Some u') mac)) as Q.
    { intros mac u u' Tm Eu F. unfold mac_tag. unfold bind at 1, get. rewrite Tm, Eu. fold wide. rewrite F.
      destruct Ty as [Ty|Ty]; unfold wide; rewrite Ty; reflexivity. }
    eexists _, _, _. split; [by apply (Q m1 u1 u1')|]. split; [by apply (Q m2 u2 u2')|]. rewrite Lt.
    split_and!; try done; try (rewrite Hl; destruct wide; lia).
    constructor; cbn; try done. right. split; [done|]. by exists u1', u2'.
Qed.

(** Both ends compute the same code, whatever their static buffers held. *)
Lemma mac_compute_agree m1 m2 s data : mac_agree m1 m2 ->
  exists t m1' m2', (forall um, mac_compute um s data SSH_DIGEST_MAX_LENGTH m1 = (Ok t, m1')) /\
    (forall um, mac_compute um s data SSH_DIGEST_MAX_LENGTH m2 = (Ok t, m2')) /\ mac_agree m1' m2' /\
    zlen t = mac_len m1 /\ Forall is_byte t /\ mac_len m1' = mac_len m1 /\ mac_etm m1' = mac_etm m1 /\ mac_enabled m1' = mac_enabled m1.
Proof.
  intros G. destruct (mac_tag_agree m1 m2 s data G) as (t & m1' & m2' & T1 & T2 & G' & Hl & H64 & Bt & El & Em & Ee).
  assert (forall (mac mac' : sshmac M U) um, mac_len mac = mac_len m1 -> mac_len mac' = mac_len m1 -> mac_tag s data mac = (Ok t, mac') ->
    mac_compute um s data SSH_DIGEST_MAX_LENGTH mac = (Ok (ztake (mac_len m1) t), mac')) as Q.
  { intros mac mac' um L L' T. unfold mac_compute. unfold bind at 1, get. rewrite L.
    rewrite (proj2 (Z.ltb_ge _ _)) by (unfold SSH_DIGEST_MAX_LENGTH; lia). rewrite (bind_ok _ _ _ _ _ T).
    unfold bind, ret. rewrite L', ztake_app_le by (destruct (_ <? _) eqn:C; zbool; unfold SSH_DIGEST_MAX_LENGTH in *; lia).
    do 3 f_equal. destruct (_ <? _) eqn:C; zbool; unfold SSH_DIGEST_MAX_LENGTH in *; lia. }
  exists (ztake (mac_len m1) t), m1', m2'. split_and!; try done.
  - intros um. by apply Q.
  - intros um. apply Q; [apply G | rewrite (mg_len _ _ G'); congruence | done].
  - zl.
  - by apply Forall_ztake.
Qed.

(** The check at the other end. *)
Lemma mac_check_agree m1 m2 um s data t m1' rest mlen :
  mac_agree m1 m2 -> (forall um, mac_compute um s data SSH_DIGEST_MAX_LENGTH m1 = (Ok t, m1')) -> mac_len m1 <= mlen ->
  exists m2', mac_check um s data (t ++ rest) mlen m2 = (Ok tt, m2') /\ mac_agree m1' m2' /\
    mac_len m2' = mac_len m2 /\ mac_etm m2' = mac_etm m2 /\ mac_enabled m2' = mac_enabled m2.
Proof.
  intros G E Hm. destruct (mac_compute_agree m1 m2 s data G) as (t0 & n1 & n2 & E1 & E2 & G' & Lt & _ & L & Et & En).
  pose proof (E1 []) as E0. rewrite E in E0. injection E0 as <- <-. exists n2. split_and!; [|done|..].
  - unfold mac_check. unfold bind at 1, get. rewrite (mg_len _ _ G), (proj2 (Z.ltb_ge _ _)) by lia.
    rewrite (bind_ok _ _ _ _ _ (E2 um)), <- Lt, mem_read_front. unfold bind, defined. by rewrite bool_decide_true.
  - rewrite (mg_len _ _ G'), (mg_len _ _ G). done.
  - rewrite (mg_etm _ _ G'), (mg_etm _ _ G). done.
  - rewrite (mg_enabled _ _ G'), (mg_enabled _ _ G). done.
Qed.
End MacLaws.

(** ** HMAC as the packet layer uses it *)

Section MacHmac.
Context {M U : Type} `{EVP_MDLaws M} `{UMAC U}.

(** The length of the code on the wire. *)
Definition tag_len (a : macalg) : Z :=
  if negb (ma_truncatebits a =? 0) then ma_truncatebits a / 8 else ssh_digest_bytes (ma_alg a).

Definition hmac_code (a : macalg) (key : list Z) (s : Z) (data : list Z) : list Z :=
  ztake (tag_len a) (HMAC (ma_alg a) (ztake (ssh_digest_bytes (ma_alg a)) key) (POKE_U32 s ++ data)).

(** A context set up for [a] with [key]. *)
Record hmac_ready (a : macalg) (key : list Z) (mac : sshmac M U) : Prop := {
  hr_type : mac_type mac = SSH_DIGEST;
  hr_len : mac_len mac = tag_len a;
  hr_etm : mac_etm mac = ma_etm a;
  hr_hmac : exists h, mac_hmac mac = Some h /\ keyed (ma_alg a) (ztake (ssh_digest_bytes (ma_alg a)) key) h;
}.

Lemma mac_facts a : a ∈ macs -> ma_type a = SSH_DIGEST ->
  ssh_digest_by_alg (ma_alg a) <> None /\ 0 < tag_len a <= ssh_digest_bytes (ma_alg a).
Proof.
  intros Ha Ht. unfold macs in Ha. rewrite !elem_of_cons, elem_of_nil in Ha.
  repeat destruct Ha as [->|Ha]; try done; (split; [by vm_compute | split; by vm_compute]).
Qed.

Lemma find_mac_in l name a : find_mac l name = Some a -> a ∈ l.
Proof.
  induction l as [|b l IH]; [done|]. cbn. destruct (streq name (ma_name b)); [intros [= ->]; left | right; auto].
Qed.

Lemma mac_ready_init p name a key (mac0 : sshmac M U) :
  p <> 0 -> find_mac macs name = Some a -> ma_type a = SSH_DIGEST -> ssh_digest_bytes (ma_alg a) <= zlen key ->
  mac_key mac0 = Some key ->
  exists mac, (do! mac_setup p name ;; mac_init) mac0 = (Ok tt, mac) /\ hmac_ready a key mac.
Proof.
  intros Hp Hf Ht Hk Ek. destruct (mac_facts a (find_mac_in _ _ _ Hf) Ht) as [Ha Htl].
  destruct (hmac_start_spec p (ma_alg a) Hp Ha) as (h & Eh & _).
  pose proof (md_hash_len (ma_alg a) [] Ha) as L0. pose proof (zlen_nonneg (md_hash (ma_alg a) [])).
  destruct (hmac_init_key p (ma_alg a) (ztake (ssh_digest_bytes (ma_alg a)) key) h Hp Ha Eh) as (h' & Ei & K).
  unfold mac_setup. rewrite Hf. unfold mac_setup_by_alg, bind at 1. rewrite Ht, Z.eqb_refl, Eh.
  unfold mac_init, bind at 1, get. cbn [mac_key]. rewrite Ek. cbn [mac_type mac_hmac mac_key_len]. rewrite Z.eqb_refl.
  unfold ssh_hmac_bytes. rewrite mem_read_some by lia. rewrite zdrop_0 by lia.
  unfold bind, defined, or_err, hmac_step. cbn [mac_hmac]. rewrite Ei. eexists. split; [done|].
  constructor; try done. by exists h'.
Qed.

Lemma mac_ready_compute a key mac um s data : a ∈ macs -> ma_type a = SSH_DIGEST -> hmac_ready a key mac ->
  exists mac', mac_compute um s data SSH_DIGEST_MAX_LENGTH mac = (Ok (hmac_code a key s data), mac') /\ hmac_ready a key mac'.
Proof.
  intros Ha Ht [Ty Hl He (h & Eh & K)]. destruct (mac_facts a Ha Ht) as [Hk Htl].
  pose proof (digest_bytes_max (ma_alg a) Hk). destruct (hmac_tag mac _ _ h s data Ty Eh K) as (h' & E & K').
  eexists. split.
  - unfold mac_compute. unfold bind at 1, get. rewrite (proj2 (Z.ltb_ge _ _)) by (unfold SSH_DIGEST_MAX_LENGTH; lia).
    rewrite (bind_ok _ _ _ _ _ E). unfold bind, ret. cbn [mac_len set_hmac]. rewrite Hl.
    unfold hmac_code. do 2 f_equal.
    set (n := if tag_len a <? _ then _ else _).
    assert (n = tag_len a) as -> by (subst n; unfold SSH_DIGEST_MAX_LENGTH; destruct (_ <? _) eqn:C; zbool; lia).
    rewrite ztake_app_le; [done|]. rewrite HMAC_len by done. lia.
  - constructor; try done. by exists h'.
Qed.

(** C36. The packet authentication codes of the hmac-* algorithms are HMAC.  For
    every algorithm of the table that is based on a digest, a context set up by
    [mac_setup] and [mac_init] with a key of at least the digest's length
    computes, for every packet and whatever it was used for before, the first
    [mac_len] bytes of HMAC over the 32-bit sequence number followed by the
    packet; [mac_check] accepts exactly those bytes and answers
    [SSH_ERR_MAC_INVALID] for any other code of that length. *)
Theorem packet_mac_is_hmac p name a key (mac0 : sshmac M U) :
  p <> 0 -> find_mac macs name = Some a -> ma_type a = SSH_DIGEST -> ssh_digest_bytes (ma_alg a) <= zlen key ->
  mac_key mac0 = Some key ->
  (exists mac, (do! mac_setup p name ;; mac_init) mac0 = (Ok tt, mac) /\ hmac_ready a key mac) /\
  forall mac um s data, hmac_ready a key mac ->
    (exists mac', mac_compute um s data SSH_DIGEST_MAX_LENGTH mac = (Ok (hmac_code a key s data), mac') /\ hmac_ready a key mac') /\
    forall theirs rest mlen, zlen theirs = tag_len a -> tag_len a <= mlen ->
      exists mac', hmac_ready a key mac' /\
        mac_check um s data (theirs ++ rest) mlen mac =
          (if bool_decide (theirs = hmac_code a key s data) then Ok tt else Err SSH_ERR_MAC_INVALID, mac').
Proof.
  intros Hp Hf Ht Hk Ek. pose proof (find_mac_in _ _ _ Hf) as Ha. split; [by apply (mac_ready_init p name)|].
  intros mac um s data R. destruct (mac_ready_compute a key mac um s data Ha Ht R) as (mac' & E & R'). split; [by exists mac'|].
  intros theirs rest mlen Lt Hm. exists mac'. split; [done|]. unfold mac_check. unfold bind at 1, get.
  rewrite (hr_len _ _ _ R), (proj2 (Z.ltb_ge _ _)) by lia. rewrite (bind_ok _ _ _ _ _ E), <- Lt, mem_read_front.
  unfold bind, defined. destruct (bool_decide (theirs = _)) eqn:B.
  - apply bool_decide_eq_true in B. by rewrite bool_decide_true.
  - apply bool_decide_eq_false in B. by rewrite bool_decide_false by congruence.
Qed.
End MacHmac.

(** A stand-in for libcrypto's digests and for umac.c, to run the code: the
    hash of a message is a checksum of it, a UMAC context is its key and the
    data so far. *)
Module Demo.
Fixpoint checksum (acc : Z) (l : list Z) : Z :=
  match l with [] => acc | b :: l => checksum ((acc * 31 + b + 7) mod 2 ^ 64) l end.
Definition bytes_of (k : nat) (n : Z) : list Z := map (fun i => (n / 2 ^ (Z.of_nat i mod 56)) mod 256) (seq 0 k).

#[global] Instance md : EVP_MD (Z * list Z) := {
  EVP_MD_CTX_new := Some (0, []);
  EVP_DigestInit_ex _ md := Some (md, []);
  EVP_MD_CTX_block_size _ := 128;
  EVP_MD_CTX_copy_ex _ from := Some from;
  EVP_DigestUpdate m x := Some (fst m, snd m ++ x);
  EVP_DigestFinal_ex m := Some (bytes_of (Z.to_nat (ssh_digest_bytes (fst m))) (checksum (fst m) (snd m)), m);
  EVP_Digest md x := Some (bytes_of (Z.to_nat (ssh_digest_bytes md)) (checksum md x));
}.

Lemma bytes_of_len k n : zlen (bytes_of k n) = Z.of_nat k.
Proof. unfold bytes_of, zlen. by rewrite length_map, length_seq. Qed.
Lemma bytes_of_bytes k n : Forall is_byte (bytes_of k n).
Proof. unfold bytes_of. apply Forall_map, Forall_true. intros. apply is_byte_mod. Qed.

#[global] Instance md_laws : EVP_MDLaws (Z * list Z).
Proof.
  refine {| md_hash md m := bytes_of (Z.to_nat (ssh_digest_bytes md)) (checksum md m); md_block _ := 128;
            md_state m md d := m = (md, d) |}.
  - intros md m Hm. rewrite bytes_of_len. unfold ssh_digest_bytes. destruct (ssh_digest_by_alg md) eqn:E; [|done].
    destruct (by_alg_mdfunc _ _ E). lia.
  - intros. apply bytes_of_bytes.
  - intros md Hm. pose proof (digest_bytes_max md Hm). split; [lia | by vm_compute].
  - intros md0. by exists (0, []), (md0, []).
  - done.
  - intros ? md0 d x ->. by eexists.
  - intros ? md0 d ->. by eexists.
  - intros ? ? md0 d ->. by eexists.
  - done.
Defined.

#[global] Instance umac : UMAC (list Z * list Z) := {
  umac_new _ key := Some (key, []);
  umac_update _ u x := (fst u, snd u ++ x);
  umac_final wide u nonce := (bytes_of (if wide : bool then 16 else 8) (checksum 1 (fst u ++ nonce ++ snd u)), (fst u, []));
}.

#[global] Instance umac_laws : UMACLaws (list Z * list Z).
Proof.
  refine {| umac_same _ u v := u = v |}. intros wide u v data nonce ->. cbn.
  split_and!; [done | done | apply bytes_of_bytes |]. rewrite bytes_of_len. by destruct wide.
Defined.

Definition no_mac : sshmac (Z * list Z) (list Z * list Z) := mk_sshmac _ _ false 0 (Some (replicate 64 11)) 0 0 false None None.
End Demo.

Lemma packet_mac_is_hmac_witness :
  exists mac, (do! mac_setup 1 (str "hmac-sha2-256-etm@openssh.com") ;; mac_init) Demo.no_mac = (Ok tt, mac) /\
    hmac_ready (mk_macalg (str "hmac-sha2-256-etm@openssh.com") SSH_DIGEST SSH_DIGEST_SHA256 0 0 0 true) (replicate 64 11) mac.
Proof.
  refine (proj1 (packet_mac_is_hmac 1 (str "hmac-sha2-256-etm@openssh.com")
    (mk_macalg (str "hmac-sha2-256-etm@openssh.com") SSH_DIGEST SSH_DIGEST_SHA256 0 0 0 true) (replicate 64 11) Demo.no_mac _ _ _ _ _)).
  - lia.
  - by vm_compute.
  - reflexivity.
  - by vm_compute.
  - reflexivity.
Defined.
