(* ===== verification/PacketState.v ===== *)
(** * The packet layer: its state

    [struct session_state] of src/packet.c with the key exchange state of
    src/kex.h that the packet layer reads and writes, the answers of the
    environment, and the parts of src/packet.c that only touch them.
    The descriptors and the quality of service are not part of the state;
    [s_wire] is what write(2) has taken on [connection_out].  A buffer or a
    context that a failed allocation left NULL is [None]; its use is a crash. *)
From S2P Require Import Prelude Sshbuf SshbufGetput CString SshbufMisc Words Chacha ChachaPoly Cipher Hmac Mac.

(** ** Constants *)

Definition PACKET_MAX_SIZE : Z := 256 * 1024.
Definition MAX_PACKETS : Z := 2 ^ 31.
Definition COMP_NONE : Z := 0.
Definition COMP_DELAYED : Z := 2.
Definition KEX_INIT_SENT : Z := 0x0001.
Definition KEX_INITIAL : Z := 0x0002.
Definition KEX_INIT_RECVD : Z := 0x0100.
Definition KEX_COOKIE_LEN : Z := 16.

Definition SSH_MSG_NONE : Z := 0.
Definition SSH2_MSG_MIN : Z := 1.
Definition SSH2_MSG_TRANSPORT_MIN : Z := 1.
Definition SSH2_MSG_TRANSPORT_MAX : Z := 49.
Definition SSH2_MSG_CONNECTION_MIN : Z := 80.
Definition SSH2_MSG_CONNECTION_MAX : Z := 127.
Definition SSH2_MSG_DISCONNECT : Z := 1.
Definition SSH2_MSG_IGNORE : Z := 2.
Definition SSH2_MSG_UNIMPLEMENTED : Z := 3.
Definition SSH2_MSG_DEBUG : Z := 4.
Definition SSH2_MSG_SERVICE_REQUEST : Z := 5.
Definition SSH2_MSG_SERVICE_ACCEPT : Z := 6.
Definition SSH2_MSG_EXT_INFO : Z := 7.
Definition SSH2_MSG_KEXINIT : Z := 20.
Definition SSH2_MSG_NEWKEYS : Z := 21.
Definition SSH2_MSG_USERAUTH_SUCCESS : Z := 52.
Definition SSH2_MSG_PING : Z := 192.
Definition SSH2_MSG_PONG : Z := 193.
Definition SSH2_DISCONNECT_PROTOCOL_ERROR : Z := 2.

Definition SSH_ERR_UNEXPECTED_TRAILING_DATA : Z := -23.
Definition SSH_ERR_DISCONNECTED : Z := -29.
Definition SSH_ERR_NEED_REKEY : Z := -39.
Definition SSH_ERR_CONN_CLOSED : Z := -52.
Definition SSH_ERR_CONN_TIMEOUT : Z := -53.
Definition SSH_ERR_CONN_CORRUPT : Z := -54.
Definition SSH_ERR_PROTOCOL_ERROR : Z := -55.

(** [ssh_packet_disconnect] does not return. *)
Definition EXIT : Z := 255.

(** ** zlib *)

(** [deflate] and [inflate] on the rest of the input with room for some output:
    the status, the output, the input left and the stream. *)
Class ZLIB (Zs : Type) : Type := {
  deflateInit (level : Z) : Z * Zs;
  inflateInit : Z * Zs;
  deflate (z : Zs) (next_in : list Z) (avail_out : Z) : Z * list Z * list Z * Zs;
  inflate (z : Zs) (next_in : list Z) (avail_out : Z) : Z * list Z * list Z * Zs;
}.
Definition Z_OK : Z := 0.
Definition Z_STREAM_ERROR : Z := -2.
Definition Z_DATA_ERROR : Z := -3.
Definition Z_MEM_ERROR : Z := -4.
Definition Z_BUF_ERROR : Z := -5.

(** ** The state *)

Record packet_state : Type := mk_packet_state {
  ps_seqnr : Z;
  ps_packets : Z;
  ps_blocks : Z;
  ps_bytes : Z;
}.

Record sshenc : Type := mk_sshenc {
  enc_cipher : sshcipher;
  enc_key_len : Z;
  enc_iv_len : Z;
  enc_block_size : Z;
  enc_key : list Z;
  enc_iv : list Z;
}.

Record sshcomp : Type := mk_sshcomp { comp_type : Z; comp_enabled : bool }.

(** What the environment answers: the allocator (0 for NULL), the bytes of
    [arc4random_buf] (by the number of bytes sent so far and the length
    asked for), [monotime], and in turn what ppoll(2) and write(2) answer while
    output is written.  [pe_tmp] and [pe_um] are the previous contents of the
    scratch buffers of chacha.c and mac.c. *)
Inductive wranswer : Type := WTimeout | WLen (n : Z) | WAgain | WError.
Record penv : Type := mk_penv {
  pe_np : Z;
  pe_rand : Z -> Z -> list Z;
  pe_now : Z;
  pe_writes : list wranswer;
  pe_tmp : list Z;
  pe_um : list Z;
}.

Section State.
Context {V M U Zs : Type}.

Record newkeys : Type := mk_newkeys {
  nk_enc : sshenc;
  nk_mac : sshmac M U;
  nk_comp : sshcomp;
}.

(** The members of [struct kex] that packet.c uses. *)
Record kex : Type := mk_kex {
  kx_newkeys_in : option newkeys;
  kx_newkeys_out : option newkeys;
  kx_done : bool;
  kx_flags : Z;
  kx_strict : bool;
  kx_my : sshbuf;
}.

Record session_state : Type := mk_session {
  s_receive_context : option (sshcipher_ctx V);
  s_send_context : option (sshcipher_ctx V);
  s_input : sshbuf;
  s_output : sshbuf;
  s_outgoing_packet : option sshbuf;
  s_incoming_packet : sshbuf;
  s_compression_buffer : option sshbuf;
  s_compression_in_stream : Zs;
  s_compression_out_stream : Zs;
  s_compression_in_started : bool;
  s_compression_out_started : bool;
  s_compression_in_failures : Z;
  s_compression_out_failures : Z;
  s_max_packet_size : Z;
  s_interactive_mode : bool;
  s_server_side : bool;
  s_after_authentication : bool;
  s_keep_alive_timeouts : Z;
  s_packet_timeout_ms : Z;
  s_newkeys_in : option newkeys;
  s_newkeys_out : option newkeys;
  s_p_read : packet_state;
  s_p_send : packet_state;
  s_hard_max_blocks_in : Z;
  s_hard_max_blocks_out : Z;
  s_max_blocks_in : Z;
  s_max_blocks_out : Z;
  s_rekey_limit : Z;
  s_rekey_interval : Z;
  s_rekey_time : Z;
  s_extra_pad : Z;
  s_packet_discard : Z;
  s_packet_discard_mac_already : Z;
  s_packet_discard_mac : bool;
  s_packlen : Z;
  s_rekeying : bool;
  s_mux : bool;
  s_set_maxsize_called : bool;
  s_disconnecting : bool;
  s_wire : list Z;
  s_outgoing : list (Z * sshbuf);
  s_kex : option kex;
}.

Implicit Types s : session_state.
Definition set_receive_context (x : option (sshcipher_ctx V)) (s : session_state) : session_state :=
  mk_session x (s_send_context s) (s_input s) (s_output s) (s_outgoing_packet s) (s_incoming_packet s)
    (s_compression_buffer s) (s_compression_in_stream s) (s_compression_out_stream s) (s_compression_in_started s)
    (s_compression_out_started s) (s_compression_in_failures s) (s_compression_out_failures s) (s_max_packet_size s)
    (s_interactive_mode s) (s_server_side s) (s_after_authentication s) (s_keep_alive_timeouts s)
    (s_packet_timeout_ms s) (s_newkeys_in s) (s_newkeys_out s) (s_p_read s) (s_p_send s) (s_hard_max_blocks_in s)
    (s_hard_max_blocks_out s) (s_max_blocks_in s) (s_max_blocks_out s) (s_rekey_limit s) (s_rekey_interval s)
    (s_rekey_time s) (s_extra_pad s) (s_packet_discard s) (s_packet_discard_mac_already s) (s_packet_discard_mac s)
    (s_packlen s) (s_rekeying s) (s_mux s) (s_set_maxsize_called s) (s_disconnecting s) (s_wire s) (s_outgoing s)
    (s_kex s).
Definition set_send_context (x : option (sshcipher_ctx V)) (s : session_state) : session_state :=
  mk_session (s_receive_context s) x (s_input s) (s_output s) (s_outgoing_packet s) (s_incoming_packet s)
    (s_compression_buffer s) (s_compression_in_stream s) (s_compression_out_stream s) (s_compression_in_started s)
    (s_compression_out_started s) (s_compression_in_failures s) (s_compression_out_failures s) (s_max_packet_size s)
    (s_interactive_mode s) (s_server_side s) (s_after_authentication s) (s_keep_alive_timeouts s)
    (s_packet_timeout_ms s) (s_newkeys_in s) (s_newkeys_out s) (s_p_read s) (s_p_send s) (s_hard_max_blocks_in s)
    (s_hard_max_blocks_out s) (s_max_blocks_in s) (s_max_blocks_out s) (s_rekey_limit s) (s_rekey_interval s)
    (s_rekey_time s) (s_extra_pad s) (s_packet_discard s) (s_packet_discard_mac_already s) (s_packet_discard_mac s)
    (s_packlen s) (s_rekeying s) (s_mux s) (s_set_maxsize_called s) (s_disconnecting s) (s_wire s) (s_outgoing s)
    (s_kex s).
Definition set_input (x : sshbuf) (s : session_state) : session_state :=
  mk_session (s_receive_context s) (s_send_context s) x (s_output s) (s_outgoing_packet s) (s_incoming_packet s)
    (s_compression_buffer s) (s_compression_in_stream s) (s_compression_out_stream s) (s_compression_in_started s)
    (s_compression_out_started s) (s_compression_in_failures s) (s_compression_out_failures s) (s_max_packet_size s)
    (s_interactive_mode s) (s_server_side s) (s_after_authentication s) (s_keep_alive_timeouts s)
    (s_packet_timeout_ms s) (s_newkeys_in s) (s_newkeys_out s) (s_p_read s) (s_p_send s) (s_hard_max_blocks_in s)
    (s_hard_max_blocks_out s) (s_max_blocks_in s) (s_max_blocks_out s) (s_rekey_limit s) (s_rekey_interval s)
    (s_rekey_time s) (s_extra_pad s) (s_packet_discard s) (s_packet_discard_mac_already s) (s_packet_discard_mac s)
    (s_packlen s) (s_rekeying s) (s_mux s) (s_set_maxsize_called s) (s_disconnecting s) (s_wire s) (s_outgoing s)
    (s_kex s).
Definition set_output (x : sshbuf) (s : session_state) : session_state :=
  mk_session (s_receive_context s) (s_send_context s) (s_input s) x (s_outgoing_packet s) (s_incoming_packet s)
    (s_compression_buffer s) (s_compression_in_stream s) (s_compression_out_stream s) (s_compression_in_started s)
    (s_compression_out_started s) (s_compression_in_failures s) (s_compression_out_failures s) (s_max_packet_size s)
    (s_interactive_mode s) (s_server_side s) (s_after_authentication s) (s_keep_alive_timeouts s)
    (s_packet_timeout_ms s) (s_newkeys_in s) (s_newkeys_out s) (s_p_read s) (s_p_send s) (s_hard_max_blocks_in s)
    (s_hard_max_blocks_out s) (s_max_blocks_in s) (s_max_blocks_out s) (s_rekey_limit s) (s_rekey_interval s)
    (s_rekey_time s) (s_extra_pad s) (s_packet_discard s) (s_packet_discard_mac_already s) (s_packet_discard_mac s)
    (s_packlen s) (s_rekeying s) (s_mux s) (s_set_maxsize_called s) (s_disconnecting s) (s_wire s) (s_outgoing s)
    (s_kex s).
Definition set_outgoing_packet (x : option sshbuf) (s : session_state) : session_state :=
  mk_session (s_receive_context s) (s_send_context s) (s_input s) (s_output s) x (s_incoming_packet s)
    (s_compression_buffer s) (s_compression_in_stream s) (s_compression_out_stream s) (s_compression_in_started s)
    (s_compression_out_started s) (s_compression_in_failures s) (s_compression_out_failures s) (s_max_packet_size s)
    (s_interactive_mode s) (s_server_side s) (s_after_authentication s) (s_keep_alive_timeouts s)
    (s_packet_timeout_ms s) (s_newkeys_in s) (s_newkeys_out s) (s_p_read s) (s_p_send s) (s_hard_max_blocks_in s)
    (s_hard_max_blocks_out s) (s_max_blocks_in s) (s_max_blocks_out s) (s_rekey_limit s) (s_rekey_interval s)
    (s_rekey_time s) (s_extra_pad s) (s_packet_discard s) (s_packet_discard_mac_already s) (s_packet_discard_mac s)
    (s_packlen s) (s_rekeying s) (s_mux s) (s_set_maxsize_called s) (s_disconnecting s) (s_wire s) (s_outgoing s)
    (s_kex s).
Definition set_incoming_packet (x : sshbuf) (s : session_state) : session_state :=
  mk_session (s_receive_context s) (s_send_context s) (s_input s) (s_output s) (s_outgoing_packet s) x
    (s_compression_buffer s) (s_compression_in_stream s) (s_compression_out_stream s) (s_compression_in_started s)
    (s_compression_out_started s) (s_compression_in_failures s) (s_compression_out_failures s) (s_max_packet_size s)
    (s_interactive_mode s) (s_server_side s) (s_after_authentication s) (s_keep_alive_timeouts s)
    (s_packet_timeout_ms s) (s_newkeys_in s) (s_newkeys_out s) (s_p_read s) (s_p_send s) (s_hard_max_blocks_in s)
    (s_hard_max_blocks_out s) (s_max_blocks_in s) (s_max_blocks_out s) (s_rekey_limit s) (s_rekey_interval s)
    (s_rekey_time s) (s_extra_pad s) (s_packet_discard s) (s_packet_discard_mac_already s) (s_packet_discard_mac s)
    (s_packlen s) (s_rekeying s) (s_mux s) (s_set_maxsize_called s) (s_disconnecting s) (s_wire s) (s_outgoing s)
    (s_kex s).
Definition set_compression_buffer (x : option sshbuf) (s : session_state) : session_state :=
  mk_session (s_receive_context s) (s_send_context s) (s_input s) (s_output s) (s_outgoing_packet s)
    (s_incoming_packet s) x (s_compression_in_stream s) (s_compression_out_stream s) (s_compression_in_started s)
    (s_compression_out_started s) (s_compression_in_failures s) (s_compression_out_failures s) (s_max_packet_size s)
    (s_interactive_mode s) (s_server_side s) (s_after_authentication s) (s_keep_alive_timeouts s)
    (s_packet_timeout_ms s) (s_newkeys_in s) (s_newkeys_out s) (s_p_read s) (s_p_send s) (s_hard_max_blocks_in s)
    (s_hard_max_blocks_out s) (s_max_blocks_in s) (s_max_blocks_out s) (s_rekey_limit s) (s_rekey_interval s)
    (s_rekey_time s) (s_extra_pad s) (s_packet_discard s) (s_packet_discard_mac_already s) (s_packet_discard_mac s)
    (s_packlen s) (s_rekeying s) (s_mux s) (s_set_maxsize_called s) (s_disconnecting s) (s_wire s) (s_outgoing s)
    (s_kex s).
Definition set_compression_in_stream (x : Zs) (s : session_state) : session_state :=
  mk_session (s_receive_context s) (s_send_context s) (s_input s) (s_output s) (s_outgoing_packet s)
    (s_incoming_packet s) (s_compression_buffer s) x (s_compression_out_stream s) (s_compression_in_started s)
    (s_compression_out_started s) (s_compression_in_failures s) (s_compression_out_failures s) (s_max_packet_size s)
    (s_interactive_mode s) (s_server_side s) (s_after_authentication s) (s_keep_alive_timeouts s)
    (s_packet_timeout_ms s) (s_newkeys_in s) (s_newkeys_out s) (s_p_read s) (s_p_send s) (s_hard_max_blocks_in s)
    (s_hard_max_blocks_out s) (s_max_blocks_in s) (s_max_blocks_out s) (s_rekey_limit s) (s_rekey_interval s)
    (s_rekey_time s) (s_extra_pad s) (s_packet_discard s) (s_packet_discard_mac_already s) (s_packet_discard_mac s)
    (s_packlen s) (s_rekeying s) (s_mux s) (s_set_maxsize_called s) (s_disconnecting s) (s_wire s) (s_outgoing s)
    (s_kex s).
Definition set_compression_out_stream (x : Zs) (s : session_state) : session_state :=
  mk_session (s_receive_context s) (s_send_context s) (s_input s) (s_output s) (s_outgoing_packet s)
    (s_incoming_packet s) (s_compression_buffer s) (s_compression_in_stream s) x (s_compression_in_started s)
    (s_compression_out_started s) (s_compression_in_failures s) (s_compression_out_failures s) (s_max_packet_size s)
    (s_interactive_mode s) (s_server_side s) (s_after_authentication s) (s_keep_alive_timeouts s)
    (s_packet_timeout_ms s) (s_newkeys_in s) (s_newkeys_out s) (s_p_read s) (s_p_send s) (s_hard_max_blocks_in s)
    (s_hard_max_blocks_out s) (s_max_blocks_in s) (s_max_blocks_out s) (s_rekey_limit s) (s_rekey_interval s)
    (s_rekey_time s) (s_extra_pad s) (s_packet_discard s) (s_packet_discard_mac_already s) (s_packet_discard_mac s)
    (s_packlen s) (s_rekeying s) (s_mux s) (s_set_maxsize_called s) (s_disconnecting s) (s_wire s) (s_outgoing s)
    (s_kex s).
Definition set_compression_in_started (x : bool) (s : session_state) : session_state :=
  mk_session (s_receive_context s) (s_send_context s) (s_input s) (s_output s) (s_outgoing_packet s)
    (s_incoming_packet s) (s_compression_buffer s) (s_compression_in_stream s) (s_compression_out_stream s) x
    (s_compression_out_started s) (s_compression_in_failures s) (s_compression_out_failures s) (s_max_packet_size s)
    (s_interactive_mode s) (s_server_side s) (s_after_authentication s) (s_keep_alive_timeouts s)
    (s_packet_timeout_ms s) (s_newkeys_in s) (s_newkeys_out s) (s_p_read s) (s_p_send s) (s_hard_max_blocks_in s)
    (s_hard_max_blocks_out s) (s_max_blocks_in s) (s_max_blocks_out s) (s_rekey_limit s) (s_rekey_interval s)
    (s_rekey_time s) (s_extra_pad s) (s_packet_discard s) (s_packet_discard_mac_already s) (s_packet_discard_mac s)
    (s_packlen s) (s_rekeying s) (s_mux s) (s_set_maxsize_called s) (s_disconnecting s) (s_wire s) (s_outgoing s)
    (s_kex s).
Definition set_compression_out_started (x : bool) (s : session_state) : session_state :=
  mk_session (s_receive_context s) (s_send_context s) (s_input s) (s_output s) (s_outgoing_packet s)
    (s_incoming_packet s) (s_compression_buffer s) (s_compression_in_stream s) (s_compression_out_stream s)
    (s_compression_in_started s) x (s_compression_in_failures s) (s_compression_out_failures s) (s_max_packet_size s)
    (s_interactive_mode s) (s_server_side s) (s_after_authentication s) (s_keep_alive_timeouts s)
    (s_packet_timeout_ms s) (s_newkeys_in s) (s_newkeys_out s) (s_p_read s) (s_p_send s) (s_hard_max_blocks_in s)
    (s_hard_max_blocks_out s) (s_max_blocks_in s) (s_max_blocks_out s) (s_rekey_limit s) (s_rekey_interval s)
    (s_rekey_time s) (s_extra_pad s) (s_packet_discard s) (s_packet_discard_mac_already s) (s_packet_discard_mac s)
    (s_packlen s) (s_rekeying s) (s_mux s) (s_set_maxsize_called s) (s_disconnecting s) (s_wire s) (s_outgoing s)
    (s_kex s).
Definition set_compression_in_failures (x : Z) (s : session_state) : session_state :=
  mk_session (s_receive_context s) (s_send_context s) (s_input s) (s_output s) (s_outgoing_packet s)
    (s_incoming_packet s) (s_compression_buffer s) (s_compression_in_stream s) (s_compression_out_stream s)
    (s_compression_in_started s) (s_compression_out_started s) x (s_compression_out_failures s) (s_max_packet_size s)
    (s_interactive_mode s) (s_server_side s) (s_after_authentication s) (s_keep_alive_timeouts s)
    (s_packet_timeout_ms s) (s_newkeys_in s) (s_newkeys_out s) (s_p_read s) (s_p_send s) (s_hard_max_blocks_in s)
    (s_hard_max_blocks_out s) (s_max_blocks_in s) (s_max_blocks_out s) (s_rekey_limit s) (s_rekey_interval s)
    (s_rekey_time s) (s_extra_pad s) (s_packet_discard s) (s_packet_discard_mac_already s) (s_packet_discard_mac s)
    (s_packlen s) (s_rekeying s) (s_mux s) (s_set_maxsize_called s) (s_disconnecting s) (s_wire s) (s_outgoing s)
    (s_kex s).
Definition set_compression_out_failures (x : Z) (s : session_state) : session_state :=
  mk_session (s_receive_context s) (s_send_context s) (s_input s) (s_output s) (s_outgoing_packet s)
    (s_incoming_packet s) (s_compression_buffer s) (s_compression_in_stream s) (s_compression_out_stream s)
    (s_compression_in_started s) (s_compression_out_started s) (s_compression_in_failures s) x (s_max_packet_size s)
    (s_interactive_mode s) (s_server_side s) (s_after_authentication s) (s_keep_alive_timeouts s)
    (s_packet_timeout_ms s) (s_newkeys_in s) (s_newkeys_out s) (s_p_read s) (s_p_send s) (s_hard_max_blocks_in s)
    (s_hard_max_blocks_out s) (s_max_blocks_in s) (s_max_blocks_out s) (s_rekey_limit s) (s_rekey_interval s)
    (s_rekey_time s) (s_extra_pad s) (s_packet_discard s) (s_packet_discard_mac_already s) (s_packet_discard_mac s)
    (s_packlen s) (s_rekeying s) (s_mux s) (s_set_maxsize_called s) (s_disconnecting s) (s_wire s) (s_outgoing s)
    (s_kex s).
Definition set_max_packet_size (x : Z) (s : session_state) : session_state :=
  mk_session (s_receive_context s) (s_send_context s) (s_input s) (s_output s) (s_outgoing_packet s)
    (s_incoming_packet s) (s_compression_buffer s) (s_compression_in_stream s) (s_compression_out_stream s)
    (s_compression_in_started s) (s_compression_out_started s) (s_compression_in_failures s)
    (s_compression_out_failures s) x (s_interactive_mode s) (s_server_side s) (s_after_authentication s)
    (s_keep_alive_timeouts s) (s_packet_timeout_ms s) (s_newkeys_in s) (s_newkeys_out s) (s_p_read s) (s_p_send s)
    (s_hard_max_blocks_in s) (s_hard_max_blocks_out s) (s_max_blocks_in s) (s_max_blocks_out s) (s_rekey_limit s)
    (s_rekey_interval s) (s_rekey_time s) (s_extra_pad s) (s_packet_discard s) (s_packet_discard_mac_already s)
    (s_packet_discard_mac s) (s_packlen s) (s_rekeying s) (s_mux s) (s_set_maxsize_called s) (s_disconnecting s)
    (s_wire s) (s_outgoing s) (s_kex s).
Definition set_interactive_mode (x : bool) (s : session_state) : session_state :=
  mk_session (s_receive_context s) (s_send_context s) (s_input s) (s_output s) (s_outgoing_packet s)
    (s_incoming_packet s) (s_compression_buffer s) (s_compression_in_stream s) (s_compression_out_stream s)
    (s_compression_in_started s) (s_compression_out_started s) (s_compression_in_failures s)
    (s_compression_out_failures s) (s_max_packet_size s) x (s_server_side s) (s_after_authentication s)
    (s_keep_alive_timeouts s) (s_packet_timeout_ms s) (s_newkeys_in s) (s_newkeys_out s) (s_p_read s) (s_p_send s)
    (s_hard_max_blocks_in s) (s_hard_max_blocks_out s) (s_max_blocks_in s) (s_max_blocks_out s) (s_rekey_limit s)
    (s_rekey_interval s) (s_rekey_time s) (s_extra_pad s) (s_packet_discard s) (s_packet_discard_mac_already s)
    (s_packet_discard_mac s) (s_packlen s) (s_rekeying s) (s_mux s) (s_set_maxsize_called s) (s_disconnecting s)
    (s_wire s) (s_outgoing s) (s_kex s).
Definition set_server_side (x : bool) (s : session_state) : session_state :=
  mk_session (s_receive_context s) (s_send_context s) (s_input s) (s_output s) (s_outgoing_packet s)
    (s_incoming_packet s) (s_compression_buffer s) (s_compression_in_stream s) (s_compression_out_stream s)
    (s_compression_in_started s) (s_compression_out_started s) (s_compression_in_failures s)
    (s_compression_out_failures s) (s_max_packet_size s) (s_interactive_mode s) x (s_after_authentication s)
    (s_keep_alive_timeouts s) (s_packet_timeout_ms s) (s_newkeys_in s) (s_newkeys_out s) (s_p_read s) (s_p_send s)
    (s_hard_max_blocks_in s) (s_hard_max_blocks_out s) (s_max_blocks_in s) (s_max_blocks_out s) (s_rekey_limit s)
    (s_rekey_interval s) (s_rekey_time s) (s_extra_pad s) (s_packet_discard s) (s_packet_discard_mac_already s)
    (s_packet_discard_mac s) (s_packlen s) (s_rekeying s) (s_mux s) (s_set_maxsize_called s) (s_disconnecting s)
    (s_wire s) (s_outgoing s) (s_kex s).
Definition set_after_authentication (x : bool) (s : session_state) : session_state :=
  mk_session (s_receive_context s) (s_send_context s) (s_input s) (s_output s) (s_outgoing_packet s)
    (s_incoming_packet s) (s_compression_buffer s) (s_compression_in_stream s) (s_compression_out_stream s)
    (s_compression_in_started s) (s_compression_out_started s) (s_compression_in_failures s)
    (s_compression_out_failures s) (s_max_packet_size s) (s_interactive_mode s) (s_server_side s) x
    (s_keep_alive_timeouts s) (s_packet_timeout_ms s) (s_newkeys_in s) (s_newkeys_out s) (s_p_read s) (s_p_send s)
    (s_hard_max_blocks_in s) (s_hard_max_blocks_out s) (s_max_blocks_in s) (s_max_blocks_out s) (s_rekey_limit s)
    (s_rekey_interval s) (s_rekey_time s) (s_extra_pad s) (s_packet_discard s) (s_packet_discard_mac_already s)
    (s_packet_discard_mac s) (s_packlen s) (s_rekeying s) (s_mux s) (s_set_maxsize_called s) (s_disconnecting s)
    (s_wire s) (s_outgoing s) (s_kex s).
Definition set_keep_alive_timeouts (x : Z) (s : session_state) : session_state :=
  mk_session (s_receive_context s) (s_send_context s) (s_input s) (s_output s) (s_outgoing_packet s)
    (s_incoming_packet s) (s_compression_buffer s) (s_compression_in_stream s) (s_compression_out_stream s)
    (s_compression_in_started s) (s_compression_out_started s) (s_compression_in_failures s)
    (s_compression_out_failures s) (s_max_packet_size s) (s_interactive_mode s) (s_server_side s)
    (s_after_authentication s) x (s_packet_timeout_ms s) (s_newkeys_in s) (s_newkeys_out s) (s_p_read s) (s_p_send s)
    (s_hard_max_blocks_in s) (s_hard_max_blocks_out s) (s_max_blocks_in s) (s_max_blocks_out s) (s_rekey_limit s)
    (s_rekey_interval s) (s_rekey_time s) (s_extra_pad s) (s_packet_discard s) (s_packet_discard_mac_already s)
    (s_packet_discard_mac s) (s_packlen s) (s_rekeying s) (s_mux s) (s_set_maxsize_called s) (s_disconnecting s)
    (s_wire s) (s_outgoing s) (s_kex s).
Definition set_packet_timeout_ms (x : Z) (s : session_state) : session_state :=
  mk_session (s_receive_context s) (s_send_context s) (s_input s) (s_output s) (s_outgoing_packet s)
    (s_incoming_packet s) (s_compression_buffer s) (s_compression_in_stream s) (s_compression_out_stream s)
    (s_compression_in_started s) (s_compression_out_started s) (s_compression_in_failures s)
    (s_compression_out_failures s) (s_max_packet_size s) (s_interactive_mode s) (s_server_side s)
    (s_after_authentication s) (s_keep_alive_timeouts s) x (s_newkeys_in s) (s_newkeys_out s) (s_p_read s) (s_p_send s)
    (s_hard_max_blocks_in s) (s_hard_max_blocks_out s) (s_max_blocks_in s) (s_max_blocks_out s) (s_rekey_limit s)
    (s_rekey_interval s) (s_rekey_time s) (s_extra_pad s) (s_packet_discard s) (s_packet_discard_mac_already s)
    (s_packet_discard_mac s) (s_packlen s) (s_rekeying s) (s_mux s) (s_set_maxsize_called s) (s_disconnecting s)
    (s_wire s) (s_outgoing s) (s_kex s).
Definition set_newkeys_in (x : option newkeys) (s : session_state) : session_state :=
  mk_session (s_receive_context s) (s_send_context s) (s_input s) (s_output s) (s_outgoing_packet s)
    (s_incoming_packet s) (s_compression_buffer s) (s_compression_in_stream s) (s_compression_out_stream s)
    (s_compression_in_started s) (s_compression_out_started s) (s_compression_in_failures s)
    (s_compression_out_failures s) (s_max_packet_size s) (s_interactive_mode s) (s_server_side s)
    (s_after_authentication s) (s_keep_alive_timeouts s) (s_packet_timeout_ms s) x (s_newkeys_out s) (s_p_read s)
    (s_p_send s) (s_hard_max_blocks_in s) (s_hard_max_blocks_out s) (s_max_blocks_in s) (s_max_blocks_out s)
    (s_rekey_limit s) (s_rekey_interval s) (s_rekey_time s) (s_extra_pad s) (s_packet_discard s)
    (s_packet_discard_mac_already s) (s_packet_discard_mac s) (s_packlen s) (s_rekeying s) (s_mux s)
    (s_set_maxsize_called s) (s_disconnecting s) (s_wire s) (s_outgoing s) (s_kex s).
Definition set_newkeys_out (x : option newkeys) (s : session_state) : session_state :=
  mk_session (s_receive_context s) (s_send_context s) (s_input s) (s_output s) (s_outgoing_packet s)
    (s_incoming_packet s) (s_compression_buffer s) (s_compression_in_stream s) (s_compression_out_stream s)
    (s_compression_in_started s) (s_compression_out_started s) (s_compression_in_failures s)
    (s_compression_out_failures s) (s_max_packet_size s) (s_interactive_mode s) (s_server_side s)
    (s_after_authentication s) (s_keep_alive_timeouts s) (s_packet_timeout_ms s) (s_newkeys_in s) x (s_p_read s)
    (s_p_send s) (s_hard_max_blocks_in s) (s_hard_max_blocks_out s) (s_max_blocks_in s) (s_max_blocks_out s)
    (s_rekey_limit s) (s_rekey_interval s) (s_rekey_time s) (s_extra_pad s) (s_packet_discard s)
    (s_packet_discard_mac_already s) (s_packet_discard_mac s) (s_packlen s) (s_rekeying s) (s_mux s)
    (s_set_maxsize_called s) (s_disconnecting s) (s_wire s) (s_outgoing s) (s_kex s).
Definition set_p_read (x : packet_state) (s : session_state) : session_state :=
  mk_session (s_receive_context s) (s_send_context s) (s_input s) (s_output s) (s_outgoing_packet s)
    (s_incoming_packet s) (s_compression_buffer s) (s_compression_in_stream s) (s_compression_out_stream s)
    (s_compression_in_started s) (s_compression_out_started s) (s_compression_in_failures s)
    (s_compression_out_failures s) (s_max_packet_size s) (s_interactive_mode s) (s_server_side s)
    (s_after_authentication s) (s_keep_alive_timeouts s) (s_packet_timeout_ms s) (s_newkeys_in s) (s_newkeys_out s) x
    (s_p_send s) (s_hard_max_blocks_in s) (s_hard_max_blocks_out s) (s_max_blocks_in s) (s_max_blocks_out s)
    (s_rekey_limit s) (s_rekey_interval s) (s_rekey_time s) (s_extra_pad s) (s_packet_discard s)
    (s_packet_discard_mac_already s) (s_packet_discard_mac s) (s_packlen s) (s_rekeying s) (s_mux s)
    (s_set_maxsize_called s) (s_disconnecting s) (s_wire s) (s_outgoing s) (s_kex s).
Definition set_p_send (x : packet_state) (s : session_state) : session_state :=
  mk_session (s_receive_context s) (s_send_context s) (s_input s) (s_output s) (s_outgoing_packet s)
    (s_incoming_packet s) (s_compression_buffer s) (s_compression_in_stream s) (s_compression_out_stream s)
    (s_compression_in_started s) (s_compression_out_started s) (s_compression_in_failures s)
    (s_compression_out_failures s) (s_max_packet_size s) (s_interactive_mode s) (s_server_side s)
    (s_after_authentication s) (s_keep_alive_timeouts s) (s_packet_timeout_ms s) (s_newkeys_in s) (s_newkeys_out s)
    (s_p_read s) x (s_hard_max_blocks_in s) (s_hard_max_blocks_out s) (s_max_blocks_in s) (s_max_blocks_out s)
    (s_rekey_limit s) (s_rekey_interval s) (s_rekey_time s) (s_extra_pad s) (s_packet_discard s)
    (s_packet_discard_mac_already s) (s_packet_discard_mac s) (s_packlen s) (s_rekeying s) (s_mux s)
    (s_set_maxsize_called s) (s_disconnecting s) (s_wire s) (s_outgoing s) (s_kex s).
Definition set_hard_max_blocks_in (x : Z) (s : session_state) : session_state :=
  mk_session (s_receive_context s) (s_send_context s) (s_input s) (s_output s) (s_outgoing_packet s)
    (s_incoming_packet s) (s_compression_buffer s) (s_compression_in_stream s) (s_compression_out_stream s)
    (s_compression_in_started s) (s_compression_out_started s) (s_compression_in_failures s)
    (s_compression_out_failures s) (s_max_packet_size s) (s_interactive_mode s) (s_server_side s)
    (s_after_authentication s) (s_keep_alive_timeouts s) (s_packet_timeout_ms s) (s_newkeys_in s) (s_newkeys_out s)
    (s_p_read s) (s_p_send s) x (s_hard_max_blocks_out s) (s_max_blocks_in s) (s_max_blocks_out s) (s_rekey_limit s)
    (s_rekey_interval s) (s_rekey_time s) (s_extra_pad s) (s_packet_discard s) (s_packet_discard_mac_already s)
    (s_packet_discard_mac s) (s_packlen s) (s_rekeying s) (s_mux s) (s_set_maxsize_called s) (s_disconnecting s)
    (s_wire s) (s_outgoing s) (s_kex s).
Definition set_hard_max_blocks_out (x : Z) (s : session_state) : session_state :=
  mk_session (s_receive_context s) (s_send_context s) (s_input s) (s_output s) (s_outgoing_packet s)
    (s_incoming_packet s) (s_compression_buffer s) (s_compression_in_stream s) (s_compression_out_stream s)
    (s_compression_in_started s) (s_compression_out_started s) (s_compression_in_failures s)
    (s_compression_out_failures s) (s_max_packet_size s) (s_interactive_mode s) (s_server_side s)
    (s_after_authentication s) (s_keep_alive_timeouts s) (s_packet_timeout_ms s) (s_newkeys_in s) (s_newkeys_out s)
    (s_p_read s) (s_p_send s) (s_hard_max_blocks_in s) x (s_max_blocks_in s) (s_max_blocks_out s) (s_rekey_limit s)
    (s_rekey_interval s) (s_rekey_time s) (s_extra_pad s) (s_packet_discard s) (s_packet_discard_mac_already s)
    (s_packet_discard_mac s) (s_packlen s) (s_rekeying s) (s_mux s) (s_set_maxsize_called s) (s_disconnecting s)
    (s_wire s) (s_outgoing s) (s_kex s).
Definition set_max_blocks_in (x : Z) (s : session_state) : session_state :=
  mk_session (s_receive_context s) (s_send_context s) (s_input s) (s_output s) (s_outgoing_packet s)
    (s_incoming_packet s) (s_compression_buffer s) (s_compression_in_stream s) (s_compression_out_stream s)
    (s_compression_in_started s) (s_compression_out_started s) (s_compression_in_failures s)
    (s_compression_out_failures s) (s_max_packet_size s) (s_interactive_mode s) (s_server_side s)
    (s_after_authentication s) (s_keep_alive_timeouts s) (s_packet_timeout_ms s) (s_newkeys_in s) (s_newkeys_out s)
    (s_p_read s) (s_p_send s) (s_hard_max_blocks_in s) (s_hard_max_blocks_out s) x (s_max_blocks_out s)
    (s_rekey_limit s) (s_rekey_interval s) (s_rekey_time s) (s_extra_pad s) (s_packet_discard s)
    (s_packet_discard_mac_already s) (s_packet_discard_mac s) (s_packlen s) (s_rekeying s) (s_mux s)
    (s_set_maxsize_called s) (s_disconnecting s) (s_wire s) (s_outgoing s) (s_kex s).
Definition set_max_blocks_out (x : Z) (s : session_state) : session_state :=
  mk_session (s_receive_context s) (s_send_context s) (s_input s) (s_output s) (s_outgoing_packet s)
    (s_incoming_packet s) (s_compression_buffer s) (s_compression_in_stream s) (s_compression_out_stream s)
    (s_compression_in_started s) (s_compression_out_started s) (s_compression_in_failures s)
    (s_compression_out_failures s) (s_max_packet_size s) (s_interactive_mode s) (s_server_side s)
    (s_after_authentication s) (s_keep_alive_timeouts s) (s_packet_timeout_ms s) (s_newkeys_in s) (s_newkeys_out s)
    (s_p_read s) (s_p_send s) (s_hard_max_blocks_in s) (s_hard_max_blocks_out s) (s_max_blocks_in s) x
    (s_rekey_limit s) (s_rekey_interval s) (s_rekey_time s) (s_extra_pad s) (s_packet_discard s)
    (s_packet_discard_mac_already s) (s_packet_discard_mac s) (s_packlen s) (s_rekeying s) (s_mux s)
    (s_set_maxsize_called s) (s_disconnecting s) (s_wire s) (s_outgoing s) (s_kex s).
Definition set_rekey_limit (x : Z) (s : session_state) : session_state :=
  mk_session (s_receive_context s) (s_send_context s) (s_input s) (s_output s) (s_outgoing_packet s)
    (s_incoming_packet s) (s_compression_buffer s) (s_compression_in_stream s) (s_compression_out_stream s)
    (s_compression_in_started s) (s_compression_out_started s) (s_compression_in_failures s)
    (s_compression_out_failures s) (s_max_packet_size s) (s_interactive_mode s) (s_server_side s)
    (s_after_authentication s) (s_keep_alive_timeouts s) (s_packet_timeout_ms s) (s_newkeys_in s) (s_newkeys_out s)
    (s_p_read s) (s_p_send s) (s_hard_max_blocks_in s) (s_hard_max_blocks_out s) (s_max_blocks_in s)
    (s_max_blocks_out s) x (s_rekey_interval s) (s_rekey_time s) (s_extra_pad s) (s_packet_discard s)
    (s_packet_discard_mac_already s) (s_packet_discard_mac s) (s_packlen s) (s_rekeying s) (s_mux s)
    (s_set_maxsize_called s) (s_disconnecting s) (s_wire s) (s_outgoing s) (s_kex s).
Definition set_rekey_interval (x : Z) (s : session_state) : session_state :=
  mk_session (s_receive_context s) (s_send_context s) (s_input s) (s_output s) (s_outgoing_packet s)
    (s_incoming_packet s) (s_compression_buffer s) (s_compression_in_stream s) (s_compression_out_stream s)
    (s_compression_in_started s) (s_compression_out_started s) (s_compression_in_failures s)
    (s_compression_out_failures s) (s_max_packet_size s) (s_interactive_mode s) (s_server_side s)
    (s_after_authentication s) (s_keep_alive_timeouts s) (s_packet_timeout_ms s) (s_newkeys_in s) (s_newkeys_out s)
    (s_p_read s) (s_p_send s) (s_hard_max_blocks_in s) (s_hard_max_blocks_out s) (s_max_blocks_in s)
    (s_max_blocks_out s) (s_rekey_limit s) x (s_rekey_time s) (s_extra_pad s) (s_packet_discard s)
    (s_packet_discard_mac_already s) (s_packet_discard_mac s) (s_packlen s) (s_rekeying s) (s_mux s)
    (s_set_maxsize_called s) (s_disconnecting s) (s_wire s) (s_outgoing s) (s_kex s).
Definition set_rekey_time (x : Z) (s : session_state) : session_state :=
  mk_session (s_receive_context s) (s_send_context s) (s_input s) (s_output s) (s_outgoing_packet s)
    (s_incoming_packet s) (s_compression_buffer s) (s_compression_in_stream s) (s_compression_out_stream s)
    (s_compression_in_started s) (s_compression_out_started s) (s_compression_in_failures s)
    (s_compression_out_failures s) (s_max_packet_size s) (s_interactive_mode s) (s_server_side s)
    (s_after_authentication s) (s_keep_alive_timeouts s) (s_packet_timeout_ms s) (s_newkeys_in s) (s_newkeys_out s)
    (s_p_read s) (s_p_send s) (s_hard_max_blocks_in s) (s_hard_max_blocks_out s) (s_max_blocks_in s)
    (s_max_blocks_out s) (s_rekey_limit s) (s_rekey_interval s) x (s_extra_pad s) (s_packet_discard s)
    (s_packet_discard_mac_already s) (s_packet_discard_mac s) (s_packlen s) (s_rekeying s) (s_mux s)
    (s_set_maxsize_called s) (s_disconnecting s) (s_wire s) (s_outgoing s) (s_kex s).
Definition set_extra_pad (x : Z) (s : session_state) : session_state :=
  mk_session (s_receive_context s) (s_send_context s) (s_input s) (s_output s) (s_outgoing_packet s)
    (s_incoming_packet s) (s_compression_buffer s) (s_compression_in_stream s) (s_compression_out_stream s)
    (s_compression_in_started s) (s_compression_out_started s) (s_compression_in_failures s)
    (s_compression_out_failures s) (s_max_packet_size s) (s_interactive_mode s) (s_server_side s)
    (s_after_authentication s) (s_keep_alive_timeouts s) (s_packet_timeout_ms s) (s_newkeys_in s) (s_newkeys_out s)
    (s_p_read s) (s_p_send s) (s_hard_max_blocks_in s) (s_hard_max_blocks_out s) (s_max_blocks_in s)
    (s_max_blocks_out s) (s_rekey_limit s) (s_rekey_interval s) (s_rekey_time s) x (s_packet_discard s)
    (s_packet_discard_mac_already s) (s_packet_discard_mac s) (s_packlen s) (s_rekeying s) (s_mux s)
    (s_set_maxsize_called s) (s_disconnecting s) (s_wire s) (s_outgoing s) (s_kex s).
Definition set_packet_discard (x : Z) (s : session_state) : session_state :=
  mk_session (s_receive_context s) (s_send_context s) (s_input s) (s_output s) (s_outgoing_packet s)
    (s_incoming_packet s) (s_compression_buffer s) (s_compression_in_stream s) (s_compression_out_stream s)
    (s_compression_in_started s) (s_compression_out_started s) (s_compression_in_failures s)
    (s_compression_out_failures s) (s_max_packet_size s) (s_interactive_mode s) (s_server_side s)
    (s_after_authentication s) (s_keep_alive_timeouts s) (s_packet_timeout_ms s) (s_newkeys_in s) (s_newkeys_out s)
    (s_p_read s) (s_p_send s) (s_hard_max_blocks_in s) (s_hard_max_blocks_out s) (s_max_blocks_in s)
    (s_max_blocks_out s) (s_rekey_limit s) (s_rekey_interval s) (s_rekey_time s) (s_extra_pad s) x
    (s_packet_discard_mac_already s) (s_packet_discard_mac s) (s_packlen s) (s_rekeying s) (s_mux s)
    (s_set_maxsize_called s) (s_disconnecting s) (s_wire s) (s_outgoing s) (s_kex s).
Definition set_packet_discard_mac_already (x : Z) (s : session_state) : session_state :=
  mk_session (s_receive_context s) (s_send_context s) (s_input s) (s_output s) (s_outgoing_packet s)
    (s_incoming_packet s) (s_compression_buffer s) (s_compression_in_stream s) (s_compression_out_stream s)
    (s_compression_in_started s) (s_compression_out_started s) (s_compression_in_failures s)
    (s_compression_out_failures s) (s_max_packet_size s) (s_interactive_mode s) (s_server_side s)
    (s_after_authentication s) (s_keep_alive_timeouts s) (s_packet_timeout_ms s) (s_newkeys_in s) (s_newkeys_out s)
    (s_p_read s) (s_p_send s) (s_hard_max_blocks_in s) (s_hard_max_blocks_out s) (s_max_blocks_in s)
    (s_max_blocks_out s) (s_rekey_limit s) (s_rekey_interval s) (s_rekey_time s) (s_extra_pad s) (s_packet_discard s) x
    (s_packet_discard_mac s) (s_packlen s) (s_rekeying s) (s_mux s) (s_set_maxsize_called s) (s_disconnecting s)
    (s_wire s) (s_outgoing s) (s_kex s).
Definition set_packet_discard_mac (x : bool) (s : session_state) : session_state :=
  mk_session (s_receive_context s) (s_send_context s) (s_input s) (s_output s) (s_outgoing_packet s)
    (s_incoming_packet s) (s_compression_buffer s) (s_compression_in_stream s) (s_compression_out_stream s)
    (s_compression_in_started s) (s_compression_out_started s) (s_compression_in_failures s)
    (s_compression_out_failures s) (s_max_packet_size s) (s_interactive_mode s) (s_server_side s)
    (s_after_authentication s) (s_keep_alive_timeouts s) (s_packet_timeout_ms s) (s_newkeys_in s) (s_newkeys_out s)
    (s_p_read s) (s_p_send s) (s_hard_max_blocks_in s) (s_hard_max_blocks_out s) (s_max_blocks_in s)
    (s_max_blocks_out s) (s_rekey_limit s) (s_rekey_interval s) (s_rekey_time s) (s_extra_pad s) (s_packet_discard s)
    (s_packet_discard_mac_already s) x (s_packlen s) (s_rekeying s) (s_mux s) (s_set_maxsize_called s)
    (s_disconnecting s) (s_wire s) (s_outgoing s) (s_kex s).
Definition set_packlen (x : Z) (s : session_state) : session_state :=
  mk_session (s_receive_context s) (s_send_context s) (s_input s) (s_output s) (s_outgoing_packet s)
    (s_incoming_packet s) (s_compression_buffer s) (s_compression_in_stream s) (s_compression_out_stream s)
    (s_compression_in_started s) (s_compression_out_started s) (s_compression_in_failures s)
    (s_compression_out_failures s) (s_max_packet_size s) (s_interactive_mode s) (s_server_side s)
    (s_after_authentication s) (s_keep_alive_timeouts s) (s_packet_timeout_ms s) (s_newkeys_in s) (s_newkeys_out s)
    (s_p_read s) (s_p_send s) (s_hard_max_blocks_in s) (s_hard_max_blocks_out s) (s_max_blocks_in s)
    (s_max_blocks_out s) (s_rekey_limit s) (s_rekey_interval s) (s_rekey_time s) (s_extra_pad s) (s_packet_discard s)
    (s_packet_discard_mac_already s) (s_packet_discard_mac s) x (s_rekeying s) (s_mux s) (s_set_maxsize_called s)
    (s_disconnecting s) (s_wire s) (s_outgoing s) (s_kex s).
Definition set_rekeying (x : bool) (s : session_state) : session_state :=
  mk_session (s_receive_context s) (s_send_context s) (s_input s) (s_output s) (s_outgoing_packet s)
    (s_incoming_packet s) (s_compression_buffer s) (s_compression_in_stream s) (s_compression_out_stream s)
    (s_compression_in_started s) (s_compression_out_started s) (s_compression_in_failures s)
    (s_compression_out_failures s) (s_max_packet_size s) (s_interactive_mode s) (s_server_side s)
    (s_after_authentication s) (s_keep_alive_timeouts s) (s_packet_timeout_ms s) (s_newkeys_in s) (s_newkeys_out s)
    (s_p_read s) (s_p_send s) (s_hard_max_blocks_in s) (s_hard_max_blocks_out s) (s_max_blocks_in s)
    (s_max_blocks_out s) (s_rekey_limit s) (s_rekey_interval s) (s_rekey_time s) (s_extra_pad s) (s_packet_discard s)
    (s_packet_discard_mac_already s) (s_packet_discard_mac s) (s_packlen s) x (s_mux s) (s_set_maxsize_called s)
    (s_disconnecting s) (s_wire s) (s_outgoing s) (s_kex s).
Definition set_mux (x : bool) (s : session_state) : session_state :=
  mk_session (s_receive_context s) (s_send_context s) (s_input s) (s_output s) (s_outgoing_packet s)
    (s_incoming_packet s) (s_compression_buffer s) (s_compression_in_stream s) (s_compression_out_stream s)
    (s_compression_in_started s) (s_compression_out_started s) (s_compression_in_failures s)
    (s_compression_out_failures s) (s_max_packet_size s) (s_interactive_mode s) (s_server_side s)
    (s_after_authentication s) (s_keep_alive_timeouts s) (s_packet_timeout_ms s) (s_newkeys_in s) (s_newkeys_out s)
    (s_p_read s) (s_p_send s) (s_hard_max_blocks_in s) (s_hard_max_blocks_out s) (s_max_blocks_in s)
    (s_max_blocks_out s) (s_rekey_limit s) (s_rekey_interval s) (s_rekey_time s) (s_extra_pad s) (s_packet_discard s)
    (s_packet_discard_mac_already s) (s_packet_discard_mac s) (s_packlen s) (s_rekeying s) x (s_set_maxsize_called s)
    (s_disconnecting s) (s_wire s) (s_outgoing s) (s_kex s).
Definition set_set_maxsize_called (x : bool) (s : session_state) : session_state :=
  mk_session (s_receive_context s) (s_send_context s) (s_input s) (s_output s) (s_outgoing_packet s)
    (s_incoming_packet s) (s_compression_buffer s) (s_compression_in_stream s) (s_compression_out_stream s)
    (s_compression_in_started s) (s_compression_out_started s) (s_compression_in_failures s)
    (s_compression_out_failures s) (s_max_packet_size s) (s_interactive_mode s) (s_server_side s)
    (s_after_authentication s) (s_keep_alive_timeouts s) (s_packet_timeout_ms s) (s_newkeys_in s) (s_newkeys_out s)
    (s_p_read s) (s_p_send s) (s_hard_max_blocks_in s) (s_hard_max_blocks_out s) (s_max_blocks_in s)
    (s_max_blocks_out s) (s_rekey_limit s) (s_rekey_interval s) (s_rekey_time s) (s_extra_pad s) (s_packet_discard s)
    (s_packet_discard_mac_already s) (s_packet_discard_mac s) (s_packlen s) (s_rekeying s) (s_mux s) x
    (s_disconnecting s) (s_wire s) (s_outgoing s) (s_kex s).
Definition set_disconnecting (x : bool) (s : session_state) : session_state :=
  mk_session (s_receive_context s) (s_send_context s) (s_input s) (s_output s) (s_outgoing_packet s)
    (s_incoming_packet s) (s_compression_buffer s) (s_compression_in_stream s) (s_compression_out_stream s)
    (s_compression_in_started s) (s_compression_out_started s) (s_compression_in_failures s)
    (s_compression_out_failures s) (s_max_packet_size s) (s_interactive_mode s) (s_server_side s)
    (s_after_authentication s) (s_keep_alive_timeouts s) (s_packet_timeout_ms s) (s_newkeys_in s) (s_newkeys_out s)
    (s_p_read s) (s_p_send s) (s_hard_max_blocks_in s) (s_hard_max_blocks_out s) (s_max_blocks_in s)
    (s_max_blocks_out s) (s_rekey_limit s) (s_rekey_interval s) (s_rekey_time s) (s_extra_pad s) (s_packet_discard s)
    (s_packet_discard_mac_already s) (s_packet_discard_mac s) (s_packlen s) (s_rekeying s) (s_mux s)
    (s_set_maxsize_called s) x (s_wire s) (s_outgoing s) (s_kex s).
Definition set_wire (x : list Z) (s : session_state) : session_state :=
  mk_session (s_receive_context s) (s_send_context s) (s_input s) (s_output s) (s_outgoing_packet s)
    (s_incoming_packet s) (s_compression_buffer s) (s_compression_in_stream s) (s_compression_out_stream s)
    (s_compression_in_started s) (s_compression_out_started s) (s_compression_in_failures s)
    (s_compression_out_failures s) (s_max_packet_size s) (s_interactive_mode s) (s_server_side s)
    (s_after_authentication s) (s_keep_alive_timeouts s) (s_packet_timeout_ms s) (s_newkeys_in s) (s_newkeys_out s)
    (s_p_read s) (s_p_send s) (s_hard_max_blocks_in s) (s_hard_max_blocks_out s) (s_max_blocks_in s)
    (s_max_blocks_out s) (s_rekey_limit s) (s_rekey_interval s) (s_rekey_time s) (s_extra_pad s) (s_packet_discard s)
    (s_packet_discard_mac_already s) (s_packet_discard_mac s) (s_packlen s) (s_rekeying s) (s_mux s)
    (s_set_maxsize_called s) (s_disconnecting s) x (s_outgoing s) (s_kex s).
Definition set_outgoing (x : list (Z * sshbuf)) (s : session_state) : session_state :=
  mk_session (s_receive_context s) (s_send_context s) (s_input s) (s_output s) (s_outgoing_packet s)
    (s_incoming_packet s) (s_compression_buffer s) (s_compression_in_stream s) (s_compression_out_stream s)
    (s_compression_in_started s) (s_compression_out_started s) (s_compression_in_failures s)
    (s_compression_out_failures s) (s_max_packet_size s) (s_interactive_mode s) (s_server_side s)
    (s_after_authentication s) (s_keep_alive_timeouts s) (s_packet_timeout_ms s) (s_newkeys_in s) (s_newkeys_out s)
    (s_p_read s) (s_p_send s) (s_hard_max_blocks_in s) (s_hard_max_blocks_out s) (s_max_blocks_in s)
    (s_max_blocks_out s) (s_rekey_limit s) (s_rekey_interval s) (s_rekey_time s) (s_extra_pad s) (s_packet_discard s)
    (s_packet_discard_mac_already s) (s_packet_discard_mac s) (s_packlen s) (s_rekeying s) (s_mux s)
    (s_set_maxsize_called s) (s_disconnecting s) (s_wire s) x (s_kex s).
Definition set_kex (x : option kex) (s : session_state) : session_state :=
  mk_session (s_receive_context s) (s_send_context s) (s_input s) (s_output s) (s_outgoing_packet s)
    (s_incoming_packet s) (s_compression_buffer s) (s_compression_in_stream s) (s_compression_out_stream s)
    (s_compression_in_started s) (s_compression_out_started s) (s_compression_in_failures s)
    (s_compression_out_failures s) (s_max_packet_size s) (s_interactive_mode s) (s_server_side s)
    (s_after_authentication s) (s_keep_alive_timeouts s) (s_packet_timeout_ms s) (s_newkeys_in s) (s_newkeys_out s)
    (s_p_read s) (s_p_send s) (s_hard_max_blocks_in s) (s_hard_max_blocks_out s) (s_max_blocks_in s)
    (s_max_blocks_out s) (s_rekey_limit s) (s_rekey_interval s) (s_rekey_time s) (s_extra_pad s) (s_packet_discard s)
    (s_packet_discard_mac_already s) (s_packet_discard_mac s) (s_packlen s) (s_rekeying s) (s_mux s)
    (s_set_maxsize_called s) (s_disconnecting s) (s_wire s) (s_outgoing s) x.

Definition set_nk_mac (x : sshmac M U) (k : newkeys) : newkeys := mk_newkeys (nk_enc k) x (nk_comp k).
Definition set_nk_comp (x : sshcomp) (k : newkeys) : newkeys := mk_newkeys (nk_enc k) (nk_mac k) x.
Definition set_kx_newkeys_in (x : option newkeys) (k : kex) : kex :=
  mk_kex x (kx_newkeys_out k) (kx_done k) (kx_flags k) (kx_strict k) (kx_my k).
Definition set_kx_newkeys_out (x : option newkeys) (k : kex) : kex :=
  mk_kex (kx_newkeys_in k) x (kx_done k) (kx_flags k) (kx_strict k) (kx_my k).
Definition set_kx_done (x : bool) (k : kex) : kex :=
  mk_kex (kx_newkeys_in k) (kx_newkeys_out k) x (kx_flags k) (kx_strict k) (kx_my k).
Definition set_kx_flags (x : Z) (k : kex) : kex :=
  mk_kex (kx_newkeys_in k) (kx_newkeys_out k) (kx_done k) x (kx_strict k) (kx_my k).
Definition set_kx_strict (x : bool) (k : kex) : kex :=
  mk_kex (kx_newkeys_in k) (kx_newkeys_out k) (kx_done k) (kx_flags k) x (kx_my k).
Definition set_kx_my (x : sshbuf) (k : kex) : kex :=
  mk_kex (kx_newkeys_in k) (kx_newkeys_out k) (kx_done k) (kx_flags k) (kx_strict k) x.

(** ** Code on the state *)

Definition PM (A : Type) : Type := ST session_state A.

Definition upd (f : session_state -> session_state) : PM unit := fun s => (Ok tt, f s).

(** An operation on one of the buffers. *)
Definition on_input {A} (m : ST sshbuf A) : PM A := fun s => let '(r, b) := m (s_input s) in (r, set_input b s).
Definition on_output {A} (m : ST sshbuf A) : PM A := fun s => let '(r, b) := m (s_output s) in (r, set_output b s).
Definition on_outgoing {A} (m : ST sshbuf A) : PM A := fun s =>
  match s_outgoing_packet s with
  | None => (Crash, s)
  | Some b => let '(r, b) := m b in (r, set_outgoing_packet (Some b) s)
  end.
Definition on_incoming {A} (m : ST sshbuf A) : PM A := fun s =>
  let '(r, b) := m (s_incoming_packet s) in (r, set_incoming_packet b s).
Definition on_compression {A} (m : ST sshbuf A) : PM A := fun s =>
  match s_compression_buffer s with
  | None => (Crash, s)
  | Some b => let '(r, b) := m b in (r, set_compression_buffer (Some b) s)
  end.

(** An operation on a cipher context, a NULL pointer when there is none. *)
Definition on_send_context {A} (m : ST (sshcipher_ctx V) A) : PM A := fun s =>
  match s_send_context s with
  | None => (Crash, s)
  | Some c => let '(r, c) := m c in (r, set_send_context (Some c) s)
  end.
Definition on_receive_context {A} (m : ST (sshcipher_ctx V) A) : PM A := fun s =>
  match s_receive_context s with
  | None => (Crash, s)
  | Some c => let '(r, c) := m c in (r, set_receive_context (Some c) s)
  end.

(** An operation on the MAC of the current keys. *)
Definition on_mac_out {A} (m : ST (sshmac M U) A) : PM A := fun s =>
  match s_newkeys_out s with
  | None => (Crash, s)
  | Some k => let '(r, x) := m (nk_mac k) in (r, set_newkeys_out (Some (set_nk_mac x k)) s)
  end.
Definition on_mac_in {A} (m : ST (sshmac M U) A) : PM A := fun s =>
  match s_newkeys_in s with
  | None => (Crash, s)
  | Some k => let '(r, x) := m (nk_mac k) in (r, set_newkeys_in (Some (set_nk_mac x k)) s)
  end.

(** The members of [ssh->kex]. *)
Definition the_kex : PM kex := fun s => match s_kex s with None => (Crash, s) | Some k => (Ok k, s) end.
Definition upd_kex (f : kex -> kex) : PM unit := fun s =>
  match s_kex s with None => (Crash, s) | Some k => (Ok tt, set_kex (Some (f k)) s) end.

(** The bytes [n] at offset [o] of a buffer's contents. *)
Definition peek (o n : Z) : ST sshbuf (list Z) := let! p := reads sshbuf_ptr in mem_peek (p + o) n.
Definition blen : ST sshbuf Z := reads sshbuf_len.
End State.
Arguments newkeys : clear implicits.
Arguments kex : clear implicits.
Arguments session_state : clear implicits.
Arguments PM : clear implicits.
