(* ===== verification/Packet.v ===== *)
(** * The packet layer: src/packet.c

    Building, sealing, queueing, sending and receiving packets, the rekeying
    limits, the compression of payloads and the start of a key exchange
    (src/kex.c, [kex_send_kexinit] and [kex_start_rekex]).

    [ssh_packet_send2] and [kex_start_rekex] call each other, and both may end
    in [ssh_packet_disconnect], which sends a last packet.  The functions below
    take the calls that close these cycles as arguments ([disc], [rekex],
    [send]); the cycles are closed at "The complete functions", where the inner
    calls are those that the code never reaches.

    Log messages are dropped, [hook_in] is NULL, and a formatted message is the
    string that vsnprintf(3) produces. *)
From S2P Require Import Prelude Sshbuf SshbufGetput CString SshbufMisc Words Chacha ChachaPoly Cipher Hmac Mac PacketState.

(** ** Helpers *)

(** A call whose error is dropped. *)
Definition ignore {S A} (m : ST S A) : ST S unit := fun s =>
  match m s with (Crash, s) => (Crash, s) | (_, s) => (Ok tt, s) end.

(** A loop of at most [2 ^ k] rounds: [inl] goes on, [inr] leaves. *)
Fixpoint rounds {S A B} (k : nat) (body : A -> ST S (A + B)) (a : A) : ST S (A + B) :=
  match k with
  | O => body a
  | S k => let! x := rounds k body a in match x with inl a => rounds k body a | inr b => ret (inr b) end
  end.

(** The digits of a [%d] conversion of a byte. *)
Definition dec_byte (n : Z) : list Z :=
  (if n <? 100 then [] else [48 + n / 100]) ++ (if n <? 10 then [] else [48 + n / 10 mod 10]) ++ [48 + n mod 10].

(** [ROUNDUP] on [u_int]. *)
Definition ROUNDUP32 (x y : Z) : Z := u32 (u32 (x + (y - 1)) / y * y).

Definition is_some {A} (o : option A) : bool := match o with Some _ => true | None => false end.

Inductive mode : Type := MODE_IN | MODE_OUT.

Section Packet.
Context {V M U Zs : Type} `{EVP V} `{EVP_MD M} `{UMAC U} `{ZLIB Zs}.
Implicit Types s : session_state V M U Zs.
Implicit Types E : penv.
#[local] Abbreviation PM := (PM V M U Zs).

(** ** Keys *)

Definition keys_enc (nk : option (newkeys M U)) : option sshenc := nk_enc <$> nk.
Definition keys_authlen (nk : option (newkeys M U)) : Z :=
  match nk with None => 0 | Some k => cipher_authlen (enc_cipher (nk_enc k)) end.
(** The MAC is disabled for authenticated encryption. *)
Definition keys_mac (nk : option (newkeys M U)) : option (sshmac M U) :=
  match nk with None => None | Some k => if keys_authlen nk =? 0 then Some (nk_mac k) else None end.
Definition keys_block_size (nk : option (newkeys M U)) : Z :=
  match nk with None => 8 | Some k => enc_block_size (nk_enc k) end.
Definition keys_comp (nk : option (newkeys M U)) : bool :=
  match nk with None => false | Some k => comp_enabled (nk_comp k) end.

Definition mac_on (m : option (sshmac M U)) : bool := match m with Some m => mac_enabled m | None => false end.
Definition mac_is_etm (m : option (sshmac M U)) : bool := match m with Some m => mac_etm m | None => false end.
Definition keys_maclen (nk : option (newkeys M U)) : Z :=
  match keys_mac nk with Some m => if mac_enabled m then mac_len m else 0 | None => 0 end.
Definition keys_aadlen (nk : option (newkeys M U)) : Z :=
  if (mac_on (keys_mac nk) && mac_is_etm (keys_mac nk)) || negb (keys_authlen nk =? 0) then 4 else 0.

Definition ssh_packet_is_rekeying s : bool :=
  s_rekeying s || match s_kex s with None => false | Some k => negb (kx_done k) end.

(** ** Compression *)

Definition ssh_packet_init_compression E : PM unit :=
  let! s := get in
  match s_compression_buffer s with
  | Some _ => ret tt
  | None =>
      match sshbuf_new (pe_np E) (pe_np E) with
      | None => fail SSH_ERR_ALLOC_FAIL
      | Some b => upd (set_compression_buffer (Some b))
      end
  end.

Definition start_compression_out (level : Z) : PM unit :=
  if (level <? 1) || (9 <? level) then fail SSH_ERR_INVALID_ARGUMENT
  else
    let '(status, z) := deflateInit level in
    do! upd (set_compression_out_stream z) ;;
    if status =? Z_OK then upd (set_compression_out_started true)
    else if status =? Z_MEM_ERROR then fail SSH_ERR_ALLOC_FAIL
    else fail SSH_ERR_INTERNAL_ERROR.

Definition start_compression_in : PM unit :=
  let '(status, z) := inflateInit in
  do! upd (set_compression_in_stream z) ;;
  if status =? Z_OK then upd (set_compression_in_started true)
  else if status =? Z_MEM_ERROR then fail SSH_ERR_ALLOC_FAIL
  else fail SSH_ERR_INTERNAL_ERROR.

(** One round of the loop of [compress_buffer] on the input left. *)
Definition compress_round E (next_in : list Z) : PM (list Z + unit) :=
  let! s := get in
  let '(status, buf, next_in, z) := deflate (s_compression_out_stream s) next_in 4096 in
  do! upd (set_compression_out_stream z) ;;
  if status =? Z_MEM_ERROR then fail SSH_ERR_ALLOC_FAIL
  else if status =? Z_OK then
    do! on_compression (sshbuf_put (pe_np E) buf) ;;
    ret (if zlen buf =? 4096 then inl next_in else inr tt)
  else
    do! upd (set_compression_out_failures (s_compression_out_failures s + 1)) ;;
    fail SSH_ERR_INVALID_FORMAT.

(** The input of a stream: the contents of the buffer [b], which must be mutable. *)
Definition stream_input (b : sshbuf) : PM (list Z) :=
  let! next_in := reads (fun _ => sshbuf_mutable_ptr b) in
  match next_in with
  | None => fail SSH_ERR_INTERNAL_ERROR
  | Some p => let! n := reads (fun _ => sshbuf_len b) in defined (mem_read (sb_mem b) p n)
  end.

(** The output goes to [compression_buffer].  A round with a full output adds 4096 bytes to it, so
    2^28 rounds are more than fit. *)
Definition compress_buffer E (b : sshbuf) : PM unit :=
  let! s := get in
  if negb (s_compression_out_started s) then fail SSH_ERR_INTERNAL_ERROR
  else
    let! n := reads (fun _ => sshbuf_len b) in
    if n =? 0 then ret tt
    else
      let! next_in := stream_input b in
      let! r := rounds 28 (compress_round E) next_in in
      match r with inl _ => crash | inr _ => ret tt end.

Definition uncompress_round E (next_in : list Z) : PM (list Z + unit) :=
  let! s := get in
  let '(status, buf, next_in, z) := inflate (s_compression_in_stream s) next_in 4096 in
  do! upd (set_compression_in_stream z) ;;
  if status =? Z_OK then
    do! on_compression (sshbuf_put (pe_np E) buf) ;; ret (inl next_in)
  else if status =? Z_BUF_ERROR then ret (inr tt)
  else if status =? Z_DATA_ERROR then fail SSH_ERR_INVALID_FORMAT
  else if status =? Z_MEM_ERROR then fail SSH_ERR_ALLOC_FAIL
  else
    do! upd (set_compression_in_failures (s_compression_in_failures s + 1)) ;;
    fail SSH_ERR_INTERNAL_ERROR.

(** A round that returns [Z_OK] consumed or produced a byte. *)
Definition uncompress_buffer E (b : sshbuf) : PM unit :=
  let! s := get in
  if negb (s_compression_in_started s) then fail SSH_ERR_INTERNAL_ERROR
  else
    let! next_in := stream_input b in
    let! r := rounds 28 (uncompress_round E) next_in in
    match r with inl _ => crash | inr _ => ret tt end.

(** ** New keys *)

Definition ssh_clear_newkeys (m : mode) : PM unit :=
  let! s := get in
  match s_kex s with
  | None => ret tt
  | Some k => upd (set_kex (Some (match m with MODE_IN => set_kx_newkeys_in None k | MODE_OUT => set_kx_newkeys_out None k end)))
  end.

(** [comp->enabled = 1] for the current keys, after the stream has started. *)
Definition enable_comp E (m : mode) : PM unit :=
  do! ssh_packet_init_compression E ;;
  do! (match m with MODE_OUT => start_compression_out 6 | MODE_IN => start_compression_in end) ;;
  let on k := set_nk_comp (mk_sshcomp (comp_type (nk_comp k)) true) k in
  upd (fun s => match m with
                | MODE_OUT => set_newkeys_out (on <$> s_newkeys_out s) s
                | MODE_IN => set_newkeys_in (on <$> s_newkeys_in s) s
                end).

Definition max_blocks_of (block_size rekey_limit : Z) : Z * Z :=
  let hard := if 16 <=? block_size then u64 (Z.shiftl 1 (block_size * 2)) else 2 ^ 30 / block_size in
  (hard, if rekey_limit =? 0 then hard else Z.min hard (rekey_limit / block_size)).

Definition set_cur_newkeys (m : mode) (nk : option (newkeys M U)) : PM unit :=
  upd (match m with MODE_IN => set_newkeys_in nk | MODE_OUT => set_newkeys_out nk end).
Definition set_cur_context (m : mode) (c : option (sshcipher_ctx V)) : PM unit :=
  upd (match m with MODE_IN => set_receive_context c | MODE_OUT => set_send_context c end).

Definition ssh_set_newkeys E (m : mode) : PM unit :=
  do! upd (fun s =>
        match m with
        | MODE_OUT => set_p_send (mk_packet_state (ps_seqnr (s_p_send s)) 0 0 (ps_bytes (s_p_send s))) s
        | MODE_IN => set_p_read (mk_packet_state (ps_seqnr (s_p_read s)) 0 0 (ps_bytes (s_p_read s))) s
        end) ;;
  let! k := the_kex in
  let nk := match m with MODE_IN => kx_newkeys_in k | MODE_OUT => kx_newkeys_out k end in
  do! set_cur_newkeys m nk ;;
  match nk with
  | None => fail SSH_ERR_INTERNAL_ERROR
  | Some nk =>
      do! upd_kex (match m with MODE_IN => set_kx_newkeys_in None | MODE_OUT => set_kx_newkeys_out None end) ;;
      let enc := nk_enc nk in
      do! (if cipher_authlen (enc_cipher enc) =? 0 then
             (match m with MODE_IN => on_mac_in | MODE_OUT => on_mac_out end) mac_init
           else ret tt) ;;
      do! (match m with MODE_IN => on_mac_in | MODE_OUT => on_mac_out end) (fun x => (Ok tt, set_mac_enabled true x)) ;;
      do! set_cur_context m None ;;
      let! cc := reads (fun _ => cipher_init (pe_np E) (enc_cipher enc) (enc_key enc) (enc_key_len enc)
                                   (Some (enc_iv enc)) (enc_iv_len enc) (match m with MODE_OUT => true | MODE_IN => false end)) in
      do! set_cur_context m (Some cc) ;;
      let! s := get in
      do! (if ((comp_type (nk_comp nk) =? COMP_DELAYED) && s_after_authentication s) && negb (comp_enabled (nk_comp nk))
           then enable_comp E m else ret tt) ;;
      let '(hard, soft) := max_blocks_of (enc_block_size enc) (s_rekey_limit s) in
      upd (fun s => match m with
                    | MODE_OUT => set_max_blocks_out soft (set_hard_max_blocks_out hard s)
                    | MODE_IN => set_max_blocks_in soft (set_hard_max_blocks_in hard s)
                    end)
  end.

Definition delay_comp E (m : mode) : PM unit :=
  let! s := get in
  match (match m with MODE_IN => s_newkeys_in s | MODE_OUT => s_newkeys_out s end) with
  | None => ret tt
  | Some nk => if negb (comp_enabled (nk_comp nk)) && (comp_type (nk_comp nk) =? COMP_DELAYED) then enable_comp E m else ret tt
  end.

Definition ssh_packet_enable_delayed_compress E : PM unit :=
  do! upd (set_after_authentication true) ;;
  do! delay_comp E MODE_IN ;;
  delay_comp E MODE_OUT.

(** ** When to exchange keys again *)

Definition ssh_packet_check_rekey_blocklimit s (packet_len : Z) (hard : bool) : bool :=
  let max_blocks_in := if hard then s_hard_max_blocks_in s else s_max_blocks_in s in
  let max_blocks_out := if hard then s_hard_max_blocks_out s else s_max_blocks_out s in
  if (MAX_PACKETS <? ps_packets (s_p_send s)) || (MAX_PACKETS <? ps_packets (s_p_read s)) then true
  else
    match s_newkeys_out s with
    | None => false
    | Some nk =>
        let out_blocks := ROUNDUP32 packet_len (enc_block_size (nk_enc nk)) in
        (negb (max_blocks_out =? 0) && (max_blocks_out <? u64 (ps_blocks (s_p_send s) + out_blocks))) ||
        (negb (max_blocks_in =? 0) && (max_blocks_in <? ps_blocks (s_p_read s)))
    end.

Definition ssh_packet_need_rekeying E s (outbound_packet_len : Z) : bool :=
  if negb (s_after_authentication s) then false
  else if ssh_packet_is_rekeying s then false
  else if (ps_packets (s_p_send s) =? 0) && (ps_packets (s_p_read s) =? 0) then false
  else if negb (s_rekey_interval s =? 0) && (s_rekey_time s + s_rekey_interval s <=? pe_now E) then true
  else ssh_packet_check_rekey_blocklimit s outbound_packet_len false.

Definition ssh_packet_check_rekey_preauth (outgoing_packet_len : Z) : PM unit :=
  let! s := get in
  if s_after_authentication s then ret tt
  else if ssh_packet_check_rekey_blocklimit s 0 true then fail SSH_ERR_NEED_REKEY
  else ret tt.

(** returns non-zero if the specified packet type is used by KEX *)
Definition ssh_packet_type_is_kex (type : Z) : bool :=
  (SSH2_MSG_TRANSPORT_MIN <=? type) && (type <=? SSH2_MSG_TRANSPORT_MAX) &&
  negb (type =? SSH2_MSG_SERVICE_REQUEST) && negb (type =? SSH2_MSG_SERVICE_ACCEPT) && negb (type =? SSH2_MSG_EXT_INFO).

(** ** Writing to the connection *)

(** [w] is the answer of write(2). *)
Definition ssh_packet_write_poll (w : wranswer) : PM unit :=
  let! len := on_output blen in
  if len <=? 0 then ret tt
  else
    match w with
    | WTimeout | WAgain => ret tt
    | WError => fail SSH_ERR_SYSTEM_ERROR
    | WLen n =>
        if n =? 0 then fail SSH_ERR_CONN_CLOSED
        else
          let! v := on_output (peek 0 n) in
          do! upd (fun s => set_wire (s_wire s ++ v) s) ;;
          on_output (sshbuf_consume n)
    end.

Definition ssh_packet_have_data_to_write : PM bool := let! n := on_output blen in ret (negb (n =? 0)).

(** The loop of [ssh_packet_write_wait] on the answers of ppoll(2) and write(2);
    it does not return when they run out. *)
Fixpoint write_loop (ws : list wranswer) : PM unit :=
  let! more := ssh_packet_have_data_to_write in
  if negb more then ret tt
  else
    match ws with
    | [] => crash
    | WTimeout :: _ => fail SSH_ERR_CONN_TIMEOUT
    | w :: ws => do! ssh_packet_write_poll w ;; write_loop ws
    end.

Definition ssh_packet_write_wait E : PM unit :=
  match pe_writes E with
  | [] => write_loop []
  | w :: ws => do! ssh_packet_write_poll w ;; write_loop ws
  end.

(** ** Building a packet *)

Definition sshpkt_start E (type : Z) : PM unit :=
  do! on_outgoing (sshbuf_reset (pe_np E)) ;;
  on_outgoing (sshbuf_put (pe_np E) [0; 0; 0; 0; 0; u8 type]).

Definition sshpkt_put E (v : list Z) : PM unit := on_outgoing (sshbuf_put (pe_np E) v).
Definition sshpkt_putb E (b : sshbuf) : PM unit := on_outgoing (sshbuf_putb (pe_np E) (Some b)).
Definition sshpkt_put_u8 E (val : Z) : PM unit := on_outgoing (sshbuf_put_u8 (pe_np E) val).
Definition sshpkt_put_u32 E (val : Z) : PM unit := on_outgoing (sshbuf_put_u32 (pe_np E) val).
Definition sshpkt_put_u64 E (val : Z) : PM unit := on_outgoing (sshbuf_put_u64 (pe_np E) val).
Definition sshpkt_put_string E (v : list Z) : PM unit := on_outgoing (sshbuf_put_string (pe_np E) v).
Definition sshpkt_put_cstring E (v : option (list Z)) : PM unit := on_outgoing (sshbuf_put_cstring (pe_np E) v).
Definition sshpkt_put_stringb E (v : option sshbuf) : PM unit := on_outgoing (sshbuf_put_stringb (pe_np E) v).

(** roundup current message to pad bytes *)
Definition sshpkt_add_padding (pad : Z) : PM unit := upd (set_extra_pad (u8 pad)).

(** ** Reading a packet *)

Definition sshpkt_get (len : Z) : PM (list Z) := on_incoming (sshbuf_get len).
Definition sshpkt_get_u8 : PM Z := on_incoming sshbuf_get_u8.
Definition sshpkt_get_u32 : PM Z := on_incoming sshbuf_get_u32.
Definition sshpkt_get_u64 : PM Z := on_incoming sshbuf_get_u64.
Definition sshpkt_get_string E : PM (list Z * Z) := on_incoming (sshbuf_get_string (pe_np E)).
(** The string rather than where it is. *)
Definition sshpkt_get_string_direct : PM (list Z) :=
  on_incoming (let! pl := sshbuf_get_string_direct in mem_peek (fst pl) (snd pl)).
Definition sshpkt_peek_string_direct : PM (list Z) :=
  on_incoming (let! pl := reads sshbuf_peek_string_direct in mem_peek (fst pl) (snd pl)).
Definition sshpkt_get_cstring E : PM (list Z * Z) := on_incoming (sshbuf_get_cstring (pe_np E)).
(** [sshbuf_froms]: the view keeps the bytes it is made of, and the packet is not
    written while the caller holds it. *)
Definition string_view (np : Z) : ST sshbuf sshbuf :=
  let! pl := reads sshbuf_peek_string_direct in
  let! m := mem_peek (fst pl) (snd pl) in
  let! b := get in
  match sshbuf_from np (sb_cd b + fst pl) m (snd pl) with
  | None => fail SSH_ERR_ALLOC_FAIL
  | Some v => do! sshbuf_consume (u64 (snd pl + 4)) ;; ret v
  end.
Definition sshpkt_getb_froms E : PM sshbuf := on_incoming (string_view (pe_np E)).
(** The payload rather than where it is. *)
Definition sshpkt_ptr : PM (list Z) := on_incoming (reads buf_bytes).
Definition sshpkt_get_end : PM unit :=
  let! n := on_incoming blen in if 0 <? n then fail SSH_ERR_UNEXPECTED_TRAILING_DATA else ret tt.
Definition ssh_packet_remaining : PM Z := on_incoming blen.

(** ** Sealing a packet *)

(** The padding with [extra_pad]: its new value and the length, or the failure
    that leaves it rounded up. *)
Definition extra_padding (extra_pad len padlen block_size : Z) : (Z * Z) + Z :=
  let tmp := extra_pad in
  let extra_pad := u8 (ROUNDUP extra_pad block_size) in
  if extra_pad <? tmp then inr extra_pad
  else
    let tmp := u8 (u32 (len + padlen) mod extra_pad) in
    if extra_pad <? tmp then inr extra_pad
    else
      let pad := u8 (extra_pad - tmp) in
      let tmp := padlen in
      let padlen := u8 (padlen + pad) in
      if padlen <? tmp then inr extra_pad else inl (0, padlen).

(** The padding of a packet of [len] bytes (without the part that is not
    encrypted). *)
Definition pad_length (len block_size : Z) : PM Z :=
  let padlen := u8 (u32 (block_size - len mod block_size)) in
  let padlen := if padlen <? 4 then u8 (padlen + block_size) else padlen in
  let! s := get in
  if s_extra_pad s =? 0 then ret padlen
  else
    match extra_padding (s_extra_pad s) len padlen block_size with
    | inr x => do! upd (set_extra_pad x) ;; fail SSH_ERR_INVALID_ARGUMENT
    | inl (x, padlen) => do! upd (set_extra_pad x) ;; ret padlen
    end.

(** Replace the payload by its compression. *)
Definition compress_packet E : PM unit :=
  do! on_outgoing (sshbuf_consume 5) ;;
  do! on_compression (sshbuf_reset (pe_np E)) ;;
  let! b := on_outgoing get in
  do! compress_buffer E b ;;
  do! on_outgoing (sshbuf_reset (pe_np E)) ;;
  do! on_outgoing (sshbuf_put (pe_np E) [0; 0; 0; 0; 0]) ;;
  let! s := get in
  on_outgoing (sshbuf_putb (pe_np E) (s_compression_buffer s)).

(** The padding, the length fields and [len]. *)
Definition pad_packet E (padlen : Z) : PM Z :=
  let! s := get in
  let! p := on_outgoing (sshbuf_reserve (pe_np E) padlen) in
  let! plain := (if is_some (s_newkeys_out s) then on_send_context (reads (fun cc => Ok (cipher_ctx_is_plaintext cc)))
                 else ret true) in
  do! on_outgoing (mem_poke p (if negb plain then pe_rand E (ps_bytes (s_p_send s)) padlen
                               else replicate (Z.to_nat padlen) 0)) ;;
  let! len := on_outgoing blen in
  let len := u32 len in
  let! cp := on_outgoing (reads sshbuf_mutable_ptr) in
  match cp with
  | None => fail SSH_ERR_INTERNAL_ERROR
  | Some cp =>
      do! on_outgoing (mem_poke cp (POKE_U32 (u32 (len - 4)))) ;;
      do! on_outgoing (mem_poke (cp + 4) [padlen]) ;;
      ret len
  end.

(** Encrypt the packet into [output] and append its MAC. *)
Definition seal_packet E (len : Z) : PM unit :=
  let! s := get in
  let nk := s_newkeys_out s in
  let authlen := keys_authlen nk in
  let aadlen := keys_aadlen nk in
  let mac := keys_mac nk in
  let seqnr := ps_seqnr (s_p_send s) in
  let! macbuf := (if mac_on mac && negb (mac_is_etm mac) then
                    let! data := on_outgoing (peek 0 len) in
                    on_mac_out (mac_compute (pe_um E) seqnr data SSH_DIGEST_MAX_LENGTH)
                  else ret []) in
  let! n := on_outgoing blen in
  let! cp := on_output (sshbuf_reserve (pe_np E) (n + authlen)) in
  let! src := on_outgoing (reads buf_bytes) in
  let! y := on_send_context (cipher_crypt (pe_tmp E) seqnr src (u32 (len - aadlen)) aadlen authlen) in
  do! on_output (mem_poke cp y) ;;
  if mac_on mac then
    let! macbuf := (if mac_is_etm mac then
                      let! data := on_output (mem_peek cp len) in
                      on_mac_out (mac_compute (pe_um E) seqnr data SSH_DIGEST_MAX_LENGTH)
                    else ret macbuf) in
    on_output (sshbuf_put (pe_np E) macbuf)
  else ret tt.

Section Send.
(** [ssh_packet_disconnect] and [kex_start_rekex]. *)
Context (disc rekex : PM unit).

(** Count the packet. *)
Definition count_sent (len block_size : Z) : PM unit :=
  do! upd (fun s => let ps := s_p_send s in
                    set_p_send (mk_packet_state (u32 (ps_seqnr ps + 1)) (ps_packets ps) (ps_blocks ps) (ps_bytes ps)) s) ;;
  let! s := get in
  do! (if ps_seqnr (s_p_send s) =? 0 then
         let! k := the_kex in
         if negb (Z.land (kx_flags k) KEX_INITIAL =? 0) then disc else ret tt
       else ret tt) ;;
  do! upd (fun s => let ps := s_p_send s in
                    set_p_send (mk_packet_state (ps_seqnr ps) (u32 (ps_packets ps + 1)) (ps_blocks ps) (ps_bytes ps)) s) ;;
  let! s := get in
  if ps_packets (s_p_send s) =? 0 then fail SSH_ERR_NEED_REKEY
  else
    upd (fun s => let ps := s_p_send s in
                  set_p_send (mk_packet_state (ps_seqnr ps) (ps_packets ps) (u64 (ps_blocks ps + len / block_size))
                                              (u64 (ps_bytes ps + len))) s).

Definition send2_wrapped E : PM unit :=
  let! s := get in
  let nk := s_newkeys_out s in
  let block_size := keys_block_size nk in
  let! t := on_outgoing (peek 5 1) in
  let! type := defined (head t) in
  do! (if keys_comp nk then compress_packet E else ret tt) ;;
  let! len := on_outgoing blen in
  let len := u32 (u32 len - keys_aadlen nk) in
  let! padlen := pad_length len block_size in
  let! len := pad_packet E padlen in
  do! seal_packet E len ;;
  do! count_sent len block_size ;;
  do! on_outgoing (sshbuf_reset (pe_np E)) ;;
  if type =? SSH2_MSG_NEWKEYS then
    let! k := the_kex in
    do! (if kx_strict k then
           upd (fun s => let ps := s_p_send s in set_p_send (mk_packet_state 0 (ps_packets ps) (ps_blocks ps) (ps_bytes ps)) s)
         else ret tt) ;;
    ssh_set_newkeys E MODE_OUT
  else
    let! s := get in
    if (type =? SSH2_MSG_USERAUTH_SUCCESS) && s_server_side s then ssh_packet_enable_delayed_compress E else ret tt.

(** Send what was queued during the key exchange. *)
Fixpoint flush_queue E (fuel : nat) : PM unit :=
  match fuel with
  | O => crash
  | S fuel =>
      let! s := get in
      match s_outgoing s with
      | [] => ret tt
      | (_, payload) :: q =>
          let! n := reads (fun _ => sshbuf_len payload) in
          if ssh_packet_need_rekeying E s (u32 n) then rekex
          else
            do! upd (fun s => set_outgoing q (set_outgoing_packet (Some payload) s)) ;;
            do! send2_wrapped E ;;
            flush_queue E fuel
      end
  end.

(** Put the packet in the queue. *)
Definition enqueue E (type : Z) : PM unit :=
  if pe_np E =? 0 then fail SSH_ERR_ALLOC_FAIL
  else
    let! s := get in
    match s_outgoing_packet s with
    | None => crash
    | Some payload =>
        do! upd (set_outgoing (s_outgoing s ++ [(type, payload)])) ;;
        let b := sshbuf_new (pe_np E) (pe_np E) in
        do! upd (set_outgoing_packet b) ;;
        match b with None => fail SSH_ERR_ALLOC_FAIL | Some _ => ret tt end
    end.

Definition send2 E : PM unit :=
  let! n := on_outgoing blen in
  if n <? 6 then fail SSH_ERR_INTERNAL_ERROR
  else
    let! t := on_outgoing (peek 5 1) in
    let! type := defined (head t) in
    let! s := get in
    let is_kex := ssh_packet_type_is_kex type in
    let need_rekey := negb is_kex && ssh_packet_need_rekeying E s (u32 n) in
    do! (if negb (s_rekeying s) && negb is_kex then ssh_packet_check_rekey_preauth 0 else ret tt) ;;
    if (need_rekey || s_rekeying s) && negb is_kex then
      do! enqueue E type ;;
      if need_rekey then rekex else ret tt
    else
      do! (if type =? SSH2_MSG_KEXINIT then upd (set_rekeying true) else ret tt) ;;
      do! send2_wrapped E ;;
      if type =? SSH2_MSG_NEWKEYS then
        do! upd (fun s => set_rekey_time (pe_now E) (set_rekeying false s)) ;;
        let! s := get in
        flush_queue E (S (length (s_outgoing s)))
      else ret tt.

Definition ssh_packet_send_mux E : PM unit :=
  let! s := get in
  if is_some (s_kex s) then fail SSH_ERR_INTERNAL_ERROR
  else
    let! len := on_outgoing blen in
    if len <? 6 then fail SSH_ERR_INTERNAL_ERROR
    else
      let! cp := on_outgoing (reads sshbuf_mutable_ptr) in
      match cp with
      | None => fail SSH_ERR_INTERNAL_ERROR
      | Some cp =>
          let! t := on_outgoing (mem_peek (cp + 5) 1) in
          let! type := defined (head t) in
          do! (if (SSH2_MSG_CONNECTION_MIN <=? type) && (type <=? SSH2_MSG_CONNECTION_MAX) then
                 do! on_outgoing (mem_poke cp (POKE_U32 (u32 (len - 4)))) ;;
                 let! v := on_outgoing (reads buf_bytes) in
                 on_output (sshbuf_put (pe_np E) v)
               else ret tt) ;;
          on_outgoing (sshbuf_reset (pe_np E))
      end.

Definition send E : PM unit :=
  let! s := get in if s_mux s then ssh_packet_send_mux E else send2 E.
End Send.

(** ** Disconnecting and starting a key exchange *)

Definition disconnect_msg E (send : PM unit) (msg : list Z) : PM unit :=
  do! sshpkt_start E SSH2_MSG_DISCONNECT ;;
  do! sshpkt_put_u32 E SSH2_DISCONNECT_PROTOCOL_ERROR ;;
  do! sshpkt_put_cstring E (Some msg) ;;
  do! sshpkt_put_cstring E (Some []) ;;
  send.

(** Does not return: the process exits, also when an error keeps the message
    from being sent. *)
Definition packet_disconnect E (send : PM unit) (msg : list Z) : PM unit :=
  let! s := get in
  if s_disconnecting s then fail EXIT
  else
    do! upd (set_disconnecting true) ;;
    do! ignore (do! disconnect_msg E send msg ;; ssh_packet_write_wait E) ;;
    fail EXIT.

Definition send_kexinit E (send : PM unit) : PM unit :=
  let! s := get in
  match s_kex s with
  | None => fail SSH_ERR_INTERNAL_ERROR
  | Some k =>
      if negb (Z.land (kx_flags k) KEX_INIT_SENT =? 0) then ret tt
      else
        do! upd_kex (set_kx_done false) ;;
        let! n := reads (fun _ => sshbuf_len (kx_my k)) in
        if n <? KEX_COOKIE_LEN then fail SSH_ERR_INVALID_FORMAT
        else
          let! cookie := reads (fun _ => sshbuf_mutable_ptr (kx_my k)) in
          match cookie with
          | None => fail SSH_ERR_INTERNAL_ERROR
          | Some cookie =>
              let '(r, my) := mem_poke cookie (pe_rand E (ps_bytes (s_p_send s)) KEX_COOKIE_LEN) (kx_my k) in
              do! upd_kex (set_kx_my my) ;;
              do! reads (fun _ => r) ;;
              do! sshpkt_start E SSH2_MSG_KEXINIT ;;
              do! sshpkt_putb E my ;;
              do! send ;;
              upd_kex (fun k => set_kx_flags (Z.lor (kx_flags k) KEX_INIT_SENT) k)
          end
  end.

Definition start_rekex E (send : PM unit) : PM unit :=
  let! s := get in
  match s_kex s with
  | None => fail SSH_ERR_INTERNAL_ERROR
  | Some k =>
      if negb (kx_done k) then fail SSH_ERR_INTERNAL_ERROR
      else do! upd_kex (set_kx_done false) ;; send_kexinit E send
  end.

(** ** The complete functions *)

Definition OUT_WRAP : list Z := str "outgoing sequence number wrapped during initial key exchange".
Definition IN_WRAP : list Z := str "incoming sequence number wrapped during initial key exchange".

(** While disconnecting, another call of [ssh_packet_disconnect] ends in
    fatal(), and SSH2_MSG_DISCONNECT never waits for a key exchange. *)
Definition ssh_packet_disconnect E (msg : list Z) : PM unit :=
  packet_disconnect E (send (fail EXIT) crash E) msg.

(** SSH2_MSG_KEXINIT does not start another exchange. *)
Definition kex_start_rekex E : PM unit :=
  start_rekex E (send (ssh_packet_disconnect E OUT_WRAP) crash E).

Definition ssh_packet_send2_wrapped E : PM unit := send2_wrapped (ssh_packet_disconnect E OUT_WRAP) E.
Definition ssh_packet_send2 E : PM unit := send2 (ssh_packet_disconnect E OUT_WRAP) (kex_start_rekex E) E.
Definition sshpkt_send E : PM unit := send (ssh_packet_disconnect E OUT_WRAP) (kex_start_rekex E) E.
Definition sshpkt_disconnect E (msg : list Z) : PM unit := disconnect_msg E (sshpkt_send E) msg.
Definition kex_send_kexinit E : PM unit := send_kexinit E (sshpkt_send E).

Definition ssh_packet_check_rekey E : PM unit :=
  do! ssh_packet_check_rekey_preauth 0 ;;
  let! s := get in
  if ssh_packet_need_rekeying E s 0 then kex_start_rekex E else ret tt.

(** Random bytes, four of each call of arc4random(3). *)
Fixpoint put_random E (n : nat) (i rnd : Z) : PM unit :=
  match n with
  | O => ret tt
  | S n =>
      let rnd := if i mod 4 =? 0 then default 0 (PEEK_U32 (pe_rand E i 4)) else rnd in
      do! sshpkt_put_u8 E (Z.land (u8 rnd) 255) ;; put_random E n (i + 1) (Z.shiftr rnd 8)
  end.
Definition sshpkt_msg_ignore E (nbytes : Z) : PM unit :=
  do! sshpkt_start E SSH2_MSG_IGNORE ;; do! sshpkt_put_u32 E nbytes ;; put_random E (Z.to_nat nbytes) 0 0.

(** ** Discarding input after an error *)

(** Fill the incoming packet up to [dlen] bytes, 1024 at a time. *)
Fixpoint fill_incoming E (fuel : nat) (dlen : Z) : PM unit :=
  match fuel with
  | O => crash
  | S fuel =>
      let! n := on_incoming blen in
      if n <? dlen then
        do! on_incoming (sshbuf_put (pe_np E) (replicate (Z.to_nat 1024) 97)) ;; fill_incoming E fuel dlen
      else ret tt
  end.

Definition ssh_packet_stop_discard E : PM unit :=
  let! s := get in
  do! (if s_packet_discard_mac s then
         let dlen := PACKET_MAX_SIZE in
         let dlen := if s_packet_discard_mac_already s <? dlen then dlen - s_packet_discard_mac_already s else dlen in
         do! fill_incoming E 257 dlen ;;
         let! data := on_incoming (peek 0 dlen) in
         ignore (on_mac_in (mac_compute (pe_um E) (ps_seqnr (s_p_read s)) data 0))
       else ret tt) ;;
  fail SSH_ERR_MAC_INVALID.

Definition ssh_packet_start_discard E (mac_already discard : Z) : PM unit :=
  let! s := get in
  let mac := keys_mac (s_newkeys_in s) in
  if (match keys_enc (s_newkeys_in s) with None => true | Some enc => negb (cipher_is_cbc (enc_cipher enc)) end) || mac_is_etm mac
  then do! sshpkt_disconnect E (str "Packet corrupt") ;; fail SSH_ERR_MAC_INVALID
  else
    do! (if mac_on mac then upd (fun s => set_packet_discard_mac_already mac_already (set_packet_discard_mac true s))
         else ret tt) ;;
    let! n := on_input blen in
    if discard <=? n then ssh_packet_stop_discard E
    else upd (set_packet_discard (u32 (discard - n))).

(** ** Receiving a packet *)

Definition bad_packlen (packlen : Z) : bool := (packlen <? 1 + 4) || (PACKET_MAX_SIZE <? packlen).

(** The length of the next packet.  [false]: nothing to do for now. *)
Definition read_length E : PM bool :=
  let! s := get in
  let nk := s_newkeys_in s in
  let block_size := keys_block_size nk in
  if negb (s_packlen s =? 0) then ret true
  else if negb (keys_aadlen nk =? 0) then
    let! p := on_input (reads buf_bytes) in
    let! r := (fun s => match on_receive_context (cipher_get_length (pe_tmp E) (ps_seqnr (s_p_read s)) p (u32 (zlen p))) s with
                        | (Ok n, s) => (Ok (Some n), s)
                        | (Err _, s) => (Ok None, s)
                        | (Crash, s) => (Crash, s)
                        end) in
    match r with
    | None => ret false
    | Some packlen =>
        do! upd (set_packlen packlen) ;;
        if bad_packlen packlen then
          do! sshpkt_disconnect E (str "Packet corrupt") ;; fail SSH_ERR_CONN_CORRUPT
        else do! on_incoming (sshbuf_reset (pe_np E)) ;; ret true
    end
  else
    let! n := on_input blen in
    if n <? block_size then ret false
    else
      do! on_incoming (sshbuf_reset (pe_np E)) ;;
      let! cp := on_incoming (sshbuf_reserve (pe_np E) block_size) in
      let! src := on_input (reads buf_bytes) in
      let! x := on_receive_context (cipher_crypt (pe_tmp E) (ps_seqnr (s_p_send s)) src block_size 0 0) in
      do! on_incoming (mem_poke cp x) ;;
      let! p := on_incoming (peek 0 4) in
      let! packlen := defined (PEEK_U32 p) in
      do! upd (set_packlen packlen) ;;
      if bad_packlen packlen then do! ssh_packet_start_discard E 0 PACKET_MAX_SIZE ;; ret false
      else do! on_input (sshbuf_consume block_size) ;; ret true.

(** Check and decrypt the packet.  [false]: it is incomplete or discarded. *)
Definition open_packet E : PM bool :=
  let! s := get in
  let nk := s_newkeys_in s in
  let authlen := keys_authlen nk in
  let mac := keys_mac nk in
  let maclen := keys_maclen nk in
  let block_size := keys_block_size nk in
  let aadlen := keys_aadlen nk in
  let seqnr := ps_seqnr (s_p_read s) in
  let need := if negb (aadlen =? 0) then s_packlen s else u32 (4 + s_packlen s - block_size) in
  if negb (need mod block_size =? 0) then
    do! ssh_packet_start_discard E 0 (u32 (PACKET_MAX_SIZE - block_size)) ;; ret false
  else
    let! n := on_input blen in
    if n <? u32 (aadlen + need + authlen + maclen) then ret false
    else
      let! src := on_input (reads buf_bytes) in
      do! (if mac_on mac && mac_is_etm mac then
             let! data := defined (mem_read src 0 (aadlen + need)) in
             on_mac_in (mac_check (pe_um E) seqnr data (zdrop (aadlen + need + authlen) src) maclen)
           else ret tt) ;;
      let! cp := on_incoming (sshbuf_reserve (pe_np E) (aadlen + need)) in
      let! x := on_receive_context (cipher_crypt (pe_tmp E) seqnr src need aadlen authlen) in
      do! on_incoming (mem_poke cp x) ;;
      do! on_input (sshbuf_consume (aadlen + need + authlen)) ;;
      if mac_on mac then
        let! ok := (if mac_is_etm mac then ret true
                    else
                      let! data := on_incoming (reads buf_bytes) in
                      let! theirs := on_input (reads buf_bytes) in
                      fun s => match on_mac_in (mac_check (pe_um E) seqnr data theirs maclen) s with
                               | (Ok _, s) => (Ok true, s)
                               | (Err e, s) => if e =? SSH_ERR_MAC_INVALID then (Ok false, s) else (Err e, s)
                               | (Crash, s) => (Crash, s)
                               end) in
        if ok then do! on_input (sshbuf_consume maclen) ;; ret true
        else if PACKET_MAX_SIZE <? u32 (need + block_size) then fail SSH_ERR_INTERNAL_ERROR
        else
          let! n := on_incoming blen in
          do! ssh_packet_start_discard E n (u32 (PACKET_MAX_SIZE - need - block_size)) ;; ret false
      else ret true.

(** Count the packet; returns its sequence number. *)
Definition count_read E : PM Z :=
  let! s := get in
  let seqnr := ps_seqnr (s_p_read s) in
  do! upd (fun s => let ps := s_p_read s in
                    set_p_read (mk_packet_state (u32 (ps_seqnr ps + 1)) (ps_packets ps) (ps_blocks ps) (ps_bytes ps)) s) ;;
  let! s := get in
  do! (if ps_seqnr (s_p_read s) =? 0 then
         let! k := the_kex in
         if negb (Z.land (kx_flags k) KEX_INITIAL =? 0) then ssh_packet_disconnect E IN_WRAP else ret tt
       else ret tt) ;;
  do! upd (fun s => let ps := s_p_read s in
                    set_p_read (mk_packet_state (ps_seqnr ps) (u32 (ps_packets ps + 1)) (ps_blocks ps) (ps_bytes ps)) s) ;;
  let! s := get in
  if ps_packets (s_p_read s) =? 0 then fail SSH_ERR_NEED_REKEY
  else
    let n := u32 (s_packlen s + 4) in
    do! upd (fun s => let ps := s_p_read s in
                      set_p_read (mk_packet_state (ps_seqnr ps) (ps_packets ps)
                                    (u64 (ps_blocks ps + n / keys_block_size (s_newkeys_in s))) (u64 (ps_bytes ps + n))) s) ;;
    ret seqnr.

(** Send a last message and return [e]. *)
Definition corrupt {A} E (msg : list Z) (e : Z) : PM A :=
  do! sshpkt_disconnect E msg ;;
  do! ssh_packet_write_wait E ;;
  fail e.

(** Remove the length fields and the padding, undo the compression. *)
Definition unpad_packet E : PM unit :=
  let! p := on_incoming (peek 4 1) in
  let! padlen := defined (head p) in
  if padlen <? 4 then corrupt E (str "Corrupted padlen " ++ dec_byte padlen ++ str " on input.") SSH_ERR_CONN_CORRUPT
  else
    do! on_incoming (sshbuf_consume (4 + 1)) ;;
    do! on_incoming (sshbuf_consume_end padlen) ;;
    let! s := get in
    if keys_comp (s_newkeys_in s) then
      do! on_compression (sshbuf_reset (pe_np E)) ;;
      let! b := on_incoming get in
      do! uncompress_buffer E b ;;
      do! on_incoming (sshbuf_reset (pe_np E)) ;;
      let! s := get in
      on_incoming (sshbuf_putb (pe_np E) (s_compression_buffer s))
    else ret tt.

(** The type of the packet, and what follows from it.  An error of
    [ssh_packet_enable_delayed_compress] is overwritten by the result of
    [ssh_packet_check_rekey]. *)
Definition finish_packet E : PM Z :=
  let! type := on_incoming sshbuf_get_u8 in
  if type <? SSH2_MSG_MIN then corrupt E (str "Invalid ssh2 packet type: " ++ dec_byte type) SSH_ERR_PROTOCOL_ERROR
  else
    let! s := get in
    do! (if (type =? SSH2_MSG_USERAUTH_SUCCESS) && negb (s_server_side s)
         then ignore (ssh_packet_enable_delayed_compress E) else ret tt) ;;
    do! upd (set_packlen 0) ;;
    do! (if type =? SSH2_MSG_NEWKEYS then
           let! k := the_kex in
           if kx_strict k then
             upd (fun s => let ps := s_p_read s in set_p_read (mk_packet_state 0 (ps_packets ps) (ps_blocks ps) (ps_bytes ps)) s)
           else ret tt
         else ret tt) ;;
    do! ssh_packet_check_rekey E ;;
    ret type.

Definition ssh_packet_read_poll2_mux E : PM (Z * Z) :=
  let! s := get in
  if is_some (s_kex s) then fail SSH_ERR_INTERNAL_ERROR
  else
    let! n := on_input blen in
    let! go := (if s_packlen s =? 0 then
                  if n <? 4 + 1 then ret false
                  else
                    let! p := on_input (peek 0 4) in
                    let! packlen := defined (PEEK_U32 p) in
                    do! upd (set_packlen packlen) ;;
                    if (packlen <? 4 + 1) || (PACKET_MAX_SIZE <? packlen) then fail SSH_ERR_MESSAGE_INCOMPLETE else ret true
                else ret true) in
    let! s := get in
    let need := u32 (s_packlen s + 4) in
    if negb go || (n <? need) then ret (SSH_MSG_NONE, 0)
    else
      do! on_incoming (sshbuf_reset (pe_np E)) ;;
      let! v := on_input (peek 4 (s_packlen s)) in
      do! on_incoming (sshbuf_put (pe_np E) v) ;;
      do! on_input (sshbuf_consume need) ;;
      do! on_incoming sshbuf_get_u8 ;;
      let! type := on_incoming sshbuf_get_u8 in
      do! upd (set_packlen 0) ;;
      ret (type, 0).

(** The type of the packet now in [incoming_packet] ([SSH_MSG_NONE] when there
    is none) and its sequence number. *)
Definition ssh_packet_read_poll2 E : PM (Z * Z) :=
  let! s := get in
  if s_mux s then ssh_packet_read_poll2_mux E
  else if negb (s_packet_discard s =? 0) then ret (SSH_MSG_NONE, 0)
  else
    let! go := read_length E in
    if negb go then ret (SSH_MSG_NONE, 0)
    else
      let! go := open_packet E in
      if negb go then ret (SSH_MSG_NONE, 0)
      else
        let! seqnr := count_read E in
        do! unpad_packet E ;;
        let! type := finish_packet E in
        ret (type, seqnr).

(** Handle a message of the transport layer; [true] when it is for the caller. *)
Definition transport_msg E (type : Z) : PM bool :=
  let! s := get in
  if type =? SSH2_MSG_DISCONNECT then
    do! sshpkt_get_u32 ;; do! sshpkt_get_string E ;; fail SSH_ERR_DISCONNECTED
  else if match s_kex s with None => false | Some k => negb (Z.land (kx_flags k) KEX_INITIAL =? 0) && kx_strict k end then ret true
  else if type =? SSH2_MSG_IGNORE then ret false
  else if type =? SSH2_MSG_DEBUG then
    do! sshpkt_get_u8 ;; do! sshpkt_get_string E ;; do! sshpkt_get_string E ;; ret false
  else if type =? SSH2_MSG_UNIMPLEMENTED then do! sshpkt_get_u32 ;; ret false
  else if type =? SSH2_MSG_PING then
    let! d := sshpkt_get_string_direct in
    if negb (s_after_authentication s) then ret false
    else if ssh_packet_is_rekeying s then ret false
    else do! sshpkt_start E SSH2_MSG_PONG ;; do! sshpkt_put_string E d ;; do! sshpkt_send E ;; ret false
  else if type =? SSH2_MSG_PONG then do! sshpkt_get_string_direct ;; ret false
  else if match s_kex s with None => false | Some k => negb (Z.land (kx_flags k) KEX_INIT_RECVD =? 0) end &&
          negb (ssh_packet_type_is_kex type) then fail SSH_ERR_PROTOCOL_ERROR
  else ret true.

Fixpoint read_poll_loop E (fuel : nat) : PM (Z * Z) :=
  match fuel with
  | O => crash
  | S fuel =>
      let! x := ssh_packet_read_poll2 E in
      if fst x =? 0 then ret x
      else
        do! upd (set_keep_alive_timeouts 0) ;;
        let! mine := transport_msg E (fst x) in
        if mine then ret x else read_poll_loop E fuel
  end.

(** Every packet takes at least one byte of the input. *)
Definition ssh_packet_read_poll_seqnr E : PM (Z * Z) :=
  let! n := on_input blen in read_poll_loop E (S (Z.to_nat n)).

(** ** Input from the connection *)

Definition ssh_packet_process_incoming E (buf : list Z) : PM unit :=
  let! s := get in
  let len := zlen buf in
  if negb (s_packet_discard s =? 0) then
    do! upd (set_keep_alive_timeouts 0) ;;
    do! (if s_packet_discard s <=? len then ssh_packet_stop_discard E else ret tt) ;;
    upd (set_packet_discard (u32 (s_packet_discard s - len)))
  else on_input (sshbuf_put (pe_np E) buf).

(** What ends a wait for input: ppoll(2) times out or fails, read(2) fails or
    answers bytes, none at the end of the stream. *)
Inductive rdanswer : Type := RTimeout | RPollError | RError | RBytes (l : list Z).

(** The loop of [ssh_packet_read_seqnr] on those answers, with those that are
    left; it does not return when they run out. *)
Fixpoint read_wait_loop E (rs : list rdanswer) : PM ((Z * Z) * list rdanswer) :=
  let! x := ssh_packet_read_poll_seqnr E in
  if negb (fst x =? SSH_MSG_NONE) then ret (x, rs)
  else
    match rs with
    | [] => crash
    | RTimeout :: _ => fail SSH_ERR_CONN_TIMEOUT
    | RPollError :: _ | RError :: _ => fail SSH_ERR_SYSTEM_ERROR
    | RBytes [] :: _ => fail SSH_ERR_CONN_CLOSED
    | RBytes buf :: rs => do! ssh_packet_process_incoming E (ztake 8192 buf) ;; read_wait_loop E rs
    end.

Definition ssh_packet_read_seqnr E (rs : list rdanswer) : PM ((Z * Z) * list rdanswer) :=
  do! ssh_packet_write_wait E ;; read_wait_loop E rs.

(** The process ends on an error. *)
Definition ssh_packet_read E (rs : list rdanswer) : PM (Z * list rdanswer) := fun s =>
  match ssh_packet_read_seqnr E rs s with
  | (Ok (x, rs), s) => (Ok (fst x, rs), s)
  | (Err _, s) => (Err EXIT, s)
  | (Crash, s) => (Crash, s)
  end.

(** [rd] is what read(2) answers. *)
Definition ssh_packet_process_read E (rd : rdres) : PM unit :=
  let! rlen := on_input (fun b => let '(r, (b, _)) := sshbuf_read (pe_np E) PACKET_MAX_SIZE rd (b, 0) in (r, b)) in
  let! s := get in
  if negb (s_packet_discard s =? 0) then
    do! on_input (sshbuf_consume_end rlen) ;;
    do! upd (set_keep_alive_timeouts 0) ;;
    do! (if s_packet_discard s <=? rlen then ssh_packet_stop_discard E else ret tt) ;;
    upd (set_packet_discard (u32 (s_packet_discard s - rlen)))
  else ret tt.

(** ** The session *)

(** [ssh_alloc_session_state] with the zeroed compression streams [z]; [kex_new]
    allocates the buffer of our proposal. *)
Definition ssh_alloc_session_state (np : Z) (z : Zs) : option (session_state V M U Zs) :=
  match sshbuf_new np np, sshbuf_new np np, sshbuf_new np np, sshbuf_new np np, sshbuf_new np np with
  | Some my, Some i, Some o, Some og, Some ic =>
      let zero := mk_packet_state 0 0 0 0 in
      Some (mk_session None None i o (Some og) ic None z z false false 0 0 32768 true false false 0 (-1) None None zero zero
              0 0 0 0 0 0 0 0 0 0 false 0 true false false false [] [] (Some (mk_kex None None false 0 false my)))
  | _, _, _, _, _ => None
  end.

(** [ssh_packet_set_connection] on an allocated session. *)
Definition ssh_packet_set_connection E : PM unit :=
  match cipher_by_name (str "none") with
  | None => fail SSH_ERR_INTERNAL_ERROR
  | Some none =>
      let! cc := reads (fun _ => cipher_init (pe_np E) none [] 0 None 0 true) in
      do! upd (set_send_context (Some cc)) ;;
      let! cc := reads (fun _ => cipher_init (pe_np E) none [] 0 None 0 false) in
      do! upd (set_receive_context (Some cc)) ;;
      upd (fun s => set_newkeys_in None (set_newkeys_out None s))
  end.

Definition ssh_packet_set_timeout (timeout count : Z) : PM unit :=
  if (timeout <=? 0) || (count <=? 0) then upd (set_packet_timeout_ms (-1))
  else if INT_MAX / 1000 / count <? timeout then upd (set_packet_timeout_ms INT_MAX)
  else upd (set_packet_timeout_ms (timeout * count * 1000)).

Definition ssh_packet_set_mux : PM unit := upd (fun s => set_kex None (set_rekeying false (set_mux true s))).
Definition ssh_packet_get_mux s : bool := s_mux s.

Definition ssh_packet_not_very_much_data_to_write : PM bool :=
  let! s := get in
  let! n := on_output blen in
  ret (if s_interactive_mode s then n <? 16384 else n <? 128 * 1024).
Definition ssh_packet_interactive_data_to_write : PM bool :=
  let! s := get in
  let! n := on_output blen in
  ret (s_interactive_mode s && (n <? 256)).

(** -1 when the size is refused. *)
Definition ssh_packet_set_maxsize (n : Z) : PM Z :=
  let! s := get in
  if s_set_maxsize_called s then ret (-1)
  else if (n <? 4 * 1024) || (1024 * 1024 <? n) then ret (-1)
  else do! upd (fun s => set_max_packet_size n (set_set_maxsize_called true s)) ;; ret n.
Definition ssh_packet_get_maxsize s : Z := s_max_packet_size s.

Definition ssh_packet_inc_alive_timeouts : PM Z :=
  do! upd (fun s => set_keep_alive_timeouts (s_keep_alive_timeouts s + 1) s) ;;
  let! s := get in ret (s_keep_alive_timeouts s).
Definition ssh_packet_set_alive_timeouts (ka : Z) : PM unit := upd (set_keep_alive_timeouts ka).

Definition ssh_packet_set_rekey_limits (bytes seconds : Z) : PM unit :=
  if (bytes =? 0) && (seconds =? 0) then ret tt
  else upd (fun s => set_rekey_interval seconds (set_rekey_limit bytes s)).
Definition ssh_packet_get_rekey_timeout E s : Z :=
  let seconds := s_rekey_time s + s_rekey_interval s - pe_now E in if seconds <=? 0 then 1 else seconds.

Definition ssh_packet_set_authenticated : PM unit := upd (set_after_authentication true).
End Packet.
