(* ===== verification/PacketBuf.v ===== *)
(** * The packet layer: lemmas on its buffers and its state

    What the buffer operations do on the buffers of a session, which are never
    shared and have the default limit, and how an operation on a part of the
    state appears in the session. *)
From S2P Require Import Prelude Sshbuf SshbufGetput CString SshbufMisc Words Chacha ChachaPoly Cipher Hmac Mac PacketState Packet.

(** [b] holds the bytes [l]. *)
Record pbuf (b : sshbuf) (l : list Z) : Prop := {
  pb_wf : sshbuf_wf b;
  pb_writable : writable b = true;
  pb_max : sb_max_size b = SSHBUF_SIZE_MAX;
  pb_data : contents b = l;
}.

Lemma POKE_U32_len x : zlen (POKE_U32 x) = 4.
Proof. done. Qed.
#[export] Hint Rewrite POKE_U32_len : zlen.

Lemma overwrite_len o v l : 0 <= o -> o + zlen v <= zlen l -> zlen (overwrite o v l) = zlen l.
Proof. intros. unfold overwrite. pose proof (zlen_nonneg v). zl. Qed.

Lemma pbuf_frame b b' l k : pbuf b l -> sshbuf_wf b' -> same_frame b b' -> contents b' = k -> pbuf b' k.
Proof.
  intros [W R Mx D] W' F E. pose proof (same_frame_writable _ _ F) as Hw. destruct F as (_ & Fm & _).
  constructor; [done | congruence | congruence | done].
Qed.

Lemma pbuf_bytes b l : pbuf b l -> Forall is_byte l.
Proof. intros [W _ _ <-]. by apply contents_bytes. Qed.

Lemma pbuf_len_max b l : pbuf b l -> zlen l <= SSHBUF_SIZE_MAX.
Proof. intros [W _ Mx <-]. rewrite contents_len by done. wf_facts W. lia. Qed.

Lemma pbuf_new np b : 0 < np -> sshbuf_new np np = Some b -> pbuf b [].
Proof.
  intros Hnp. unfold sshbuf_new. rewrite (proj2 (Z.eqb_neq np 0)) by lia. intros [= <-].
  assert (W : sshbuf_wf (mk_sshbuf np np np 0 0 SSHBUF_SIZE_MAX SSHBUF_SIZE_INIT false 1 0
                          (replicate (Z.to_nat SSHBUF_SIZE_INIT) 0))).
  { constructor; cbn [sb_readonly sb_d sb_cd sb_parent sb_self sb_refcount sb_off sb_size sb_alloc sb_max_size sb_mem]; try done;
      try (sb_consts; lia). apply Forall_replicate. unfold is_byte. lia. }
  constructor; try done.
Qed.

Lemma pb_len b l : pbuf b l -> blen b = (Ok (zlen l), b).
Proof. intros [W _ _ <-]. unfold blen, reads. by rewrite sshbuf_len_wf. Qed.

Lemma pb_bytes b l : pbuf b l -> reads buf_bytes b = (Ok l, b).
Proof. intros [W _ _ <-]. unfold reads. by rewrite buf_bytes_wf. Qed.

Lemma mem_peek_wf b o n : sshbuf_wf b -> 0 <= o -> 0 <= n -> o + n <= zlen (contents b) ->
  mem_peek (sb_off b + o) n b = (Ok (ztake n (zdrop o (contents b))), b).
Proof.
  intros W Ho Hn Hl. rewrite contents_len in Hl by done. wf_facts W.
  unfold mem_peek, bind, get, defined. rewrite mem_read_some by lia. unfold contents.
  do 2 f_equal. rewrite (ztake_drop_comm n o), ztake_ztake by lia. replace (Z.min _ _) with (o + n) by lia.
  rewrite <- ztake_drop_comm, zdrop_zdrop by lia. done.
Qed.

Lemma pb_mem_peek b l o n : pbuf b l -> 0 <= o -> 0 <= n -> o + n <= zlen l ->
  mem_peek (sb_off b + o) n b = (Ok (ztake n (zdrop o l)), b).
Proof. intros [W _ _ <-]. by apply mem_peek_wf. Qed.

Lemma pb_peek b l o n : pbuf b l -> 0 <= o -> 0 <= n -> o + n <= zlen l ->
  peek o n b = (Ok (ztake n (zdrop o l)), b).
Proof.
  intros P Ho Hn Hl. unfold peek, bind at 1, reads. rewrite sshbuf_ptr_wf by apply P. by apply pb_mem_peek.
Qed.

Lemma pb_mutable_ptr b l : pbuf b l -> reads sshbuf_mutable_ptr b = (Ok (Some (sb_off b)), b).
Proof. intros [W R _ _]. unfold reads. by rewrite sshbuf_mutable_ptr_wf, R. Qed.

Lemma pb_put np v b l : pbuf b l -> np <> 0 -> Forall is_byte v -> zlen l + zlen v <= SSHBUF_SIZE_MAX ->
  exists b', sshbuf_put np v b = (Ok tt, b') /\ pbuf b' (l ++ v).
Proof.
  intros P Hnp Hv Hl. pose proof (zlen_nonneg l). destruct P as [W R Mx D].
  pose proof (sshbuf_put_spec np v b W Hv ltac:(sb_consts; lia)) as S. rewrite <- D in Hl.
  destruct S as [?|? ?|b' ? ? ? K|[] b' ? ? (W' & F & E)]; [congruence | lia | done |].
  exists b'. split; [done|]. eapply (pbuf_frame b); [by constructor | done | done |]. by rewrite E, D.
Qed.

Lemma pb_reserve np n b l : pbuf b l -> np <> 0 -> 0 <= n -> zlen l + n <= SSHBUF_SIZE_MAX ->
  exists b' junk, sshbuf_reserve np n b = (Ok (sb_off b' + zlen l), b') /\ pbuf b' (l ++ junk) /\ zlen junk = n.
Proof.
  intros P Hnp Hn Hl. pose proof (zlen_nonneg l). destruct P as [W R Mx D].
  pose proof (sshbuf_reserve_spec np n b W ltac:(sb_consts; lia)) as S. rewrite <- D in Hl.
  destruct S as [?|? ?|b' ? ? ? K|p b' ? ? (b1 & (W1 & F1 & E1) & Hs & -> & ->)]; [congruence | lia | done |].
  pose proof (contents_len b1 W1) as L1. rewrite E1, D in L1. wf_facts W1.
  exists (set_window (sb_off b1) (sb_size b1 + n) b1), (ztake n (zdrop (sb_size b1) (sb_mem b1))). split_and!.
  - cbn [sb_off set_window]. do 2 f_equal. lia.
  - assert (W2 : sshbuf_wf (set_window (sb_off b1) (sb_size b1 + n) b1)) by (constructor; cbn; try done; lia).
    eapply (pbuf_frame b); [by constructor | done | by transitivity b1 |].
    unfold contents in *. cbn [sb_off sb_size sb_mem set_window].
    replace (sb_size b1 + n - sb_off b1) with (sb_size b1 - sb_off b1 + n) by lia.
    rewrite <- D, <- E1. rewrite <- (ztake_zdrop (sb_size b1 - sb_off b1) (ztake _ _)). f_equal.
    + rewrite ztake_ztake. f_equal. lia.
    + rewrite (ztake_drop_comm _ (sb_off b1)), zdrop_zdrop, ztake_drop_comm by lia. f_equal; [lia|]. f_equal. lia.
  - zl.
Qed.

Lemma pb_poke b l o v : pbuf b l -> Forall is_byte v -> 0 <= o -> o + zlen v <= zlen l ->
  exists b', mem_poke (sb_off b + o) v b = (Ok tt, b') /\ pbuf b' (overwrite o v l) /\ sb_off b' = sb_off b.
Proof.
  intros P Hv Ho Hl. pose proof P as [W R Mx D]. rewrite <- D in Hl.
  destruct (mem_poke_contents b o v W Hv Ho Hl) as (b' & E & W' & F & C). exists b'. split_and!; [done | |].
  - eapply (pbuf_frame b); [done..|]. by rewrite C, D.
  - revert E. unfold mem_poke, bind, get, put, defined. destruct (mem_write _ _ _); [|done]. by intros [= <-].
Qed.

(** Filling what [sshbuf_reserve] added. *)
Lemma pb_fill b l junk v : pbuf b (l ++ junk) -> Forall is_byte v -> zlen v = zlen junk ->
  exists b', mem_poke (sb_off b + zlen l) v b = (Ok tt, b') /\ pbuf b' (l ++ v) /\ sb_off b' = sb_off b.
Proof.
  intros P Hv Lv. pose proof (zlen_nonneg l). destruct (pb_poke b (l ++ junk) (zlen l) v P Hv) as (b' & E & P' & O); [lia | zl |].
  exists b'. split_and!; [done | | done]. unfold overwrite in P'.
  rewrite ztake_app_le, ztake_all, zdrop_all, app_nil_r in P' by zl. done.
Qed.

Lemma pb_reset np b l : pbuf b l -> exists b', sshbuf_reset np b = (Ok tt, b') /\ pbuf b' [].
Proof.
  intros P. destruct (sshbuf_reset_spec np b (pb_wf _ _ P)) as (b' & E & W & F & C).
  { do 3 right. rewrite (pb_max _ _ P). sb_consts. lia. }
  exists b'. split; [done|]. by eapply (pbuf_frame b).
Qed.

Lemma pb_consume n b l : pbuf b l -> 0 <= n <= zlen l -> exists b', sshbuf_consume n b = (Ok tt, b') /\ pbuf b' (zdrop n l).
Proof.
  intros P Hn. pose proof (pb_data _ _ P) as D.
  destruct (sshbuf_consume_spec n b (pb_wf _ _ P) ltac:(lia)) as [(? & _)|(_ & b' & E & W & F & C & _)]; [rewrite D in *; lia|].
  rewrite D in C. exists b'. split; [done|]. by eapply (pbuf_frame b).
Qed.

Lemma pb_consume_end n b l : pbuf b l -> 0 <= n <= zlen l ->
  exists b', sshbuf_consume_end n b = (Ok tt, b') /\ pbuf b' (ztake (zlen l - n) l).
Proof.
  intros P Hn. pose proof (pb_data _ _ P) as D.
  destruct (sshbuf_consume_end_spec n b (pb_wf _ _ P) ltac:(lia)) as [(? & _)|(_ & b' & E & W & F & C)]; [rewrite D in *; lia|].
  rewrite D in C. exists b'. split; [done|]. by eapply (pbuf_frame b).
Qed.

Lemma pb_get_u8 b x l : pbuf b (x :: l) -> exists b', sshbuf_get_u8 b = (Ok x, b') /\ pbuf b' l.
Proof.
  intros P. pose proof (sshbuf_get_u8_spec b (pb_wf _ _ P)) as S. pose proof (pb_data _ _ P) as D. pose proof (zlen_nonneg l).
  destruct S as [Hs|b' Hs W F C]; rewrite D in *; [zl|]. exists b'. split.
  - do 2 f_equal. change (ztake 1 (x :: l)) with [x]. unfold be. rewrite zlen_nil. lia.
  - by eapply (pbuf_frame b).
Qed.

(** ** Operations on a part of the session *)

Section Lift.
Context {V M U Zs : Type}.
Implicit Types s : session_state V M U Zs.

Lemma on_input_ok {A} (m : ST sshbuf A) s a b : m (s_input s) = (Ok a, b) -> on_input m s = (Ok a, set_input b s).
Proof. intros E. unfold on_input. by rewrite E. Qed.
Lemma on_output_ok {A} (m : ST sshbuf A) s a b : m (s_output s) = (Ok a, b) -> on_output m s = (Ok a, set_output b s).
Proof. intros E. unfold on_output. by rewrite E. Qed.
Lemma on_incoming_ok {A} (m : ST sshbuf A) s a b : m (s_incoming_packet s) = (Ok a, b) -> on_incoming m s = (Ok a, set_incoming_packet b s).
Proof. intros E. unfold on_incoming. by rewrite E. Qed.
Lemma on_outgoing_ok {A} (m : ST sshbuf A) s o a b :
  s_outgoing_packet s = Some o -> m o = (Ok a, b) -> on_outgoing m s = (Ok a, set_outgoing_packet (Some b) s).
Proof. intros Eo E. unfold on_outgoing. by rewrite Eo, E. Qed.
Lemma on_send_context_ok {A} (m : ST (sshcipher_ctx V) A) s o a b :
  s_send_context s = Some o -> m o = (Ok a, b) -> on_send_context m s = (Ok a, set_send_context (Some b) s).
Proof. intros Eo E. unfold on_send_context. by rewrite Eo, E. Qed.
Lemma on_receive_context_ok {A} (m : ST (sshcipher_ctx V) A) s o a b :
  s_receive_context s = Some o -> m o = (Ok a, b) -> on_receive_context m s = (Ok a, set_receive_context (Some b) s).
Proof. intros Eo E. unfold on_receive_context. by rewrite Eo, E. Qed.
Lemma on_mac_out_ok {A} (m : ST (sshmac M U) A) s k a b :
  s_newkeys_out s = Some k -> m (nk_mac k) = (Ok a, b) -> on_mac_out m s = (Ok a, set_newkeys_out (Some (set_nk_mac b k)) s).
Proof. intros Eo E. unfold on_mac_out. by rewrite Eo, E. Qed.
Lemma on_mac_in_ok {A} (m : ST (sshmac M U) A) s k a b :
  s_newkeys_in s = Some k -> m (nk_mac k) = (Ok a, b) -> on_mac_in m s = (Ok a, set_newkeys_in (Some (set_nk_mac b k)) s).
Proof. intros Eo E. unfold on_mac_in. by rewrite Eo, E. Qed.

(** An operation that only reads. *)
Lemma on_outgoing_same {A} (m : ST sshbuf A) s o a : s_outgoing_packet s = Some o -> m o = (Ok a, o) -> on_outgoing m s = (Ok a, s).
Proof. intros Eo E. rewrite (on_outgoing_ok _ _ _ _ _ Eo E), <- Eo. by destruct s. Qed.
Lemma on_input_same {A} (m : ST sshbuf A) s a : m (s_input s) = (Ok a, s_input s) -> on_input m s = (Ok a, s).
Proof. intros E. rewrite (on_input_ok _ _ _ _ E). by destruct s. Qed.
Lemma on_incoming_same {A} (m : ST sshbuf A) s a : m (s_incoming_packet s) = (Ok a, s_incoming_packet s) -> on_incoming m s = (Ok a, s).
Proof. intros E. rewrite (on_incoming_ok _ _ _ _ E). by destruct s. Qed.
End Lift.

(** Reduce the members of an updated session. *)
Ltac red_term t :=
  let v := eval cbn [
    s_receive_context s_send_context s_input s_output s_outgoing_packet s_incoming_packet s_compression_buffer
    s_compression_in_stream s_compression_out_stream s_compression_in_started s_compression_out_started
    s_compression_in_failures s_compression_out_failures s_max_packet_size s_interactive_mode s_server_side
    s_after_authentication s_keep_alive_timeouts s_packet_timeout_ms s_newkeys_in s_newkeys_out s_p_read
    s_p_send s_hard_max_blocks_in s_hard_max_blocks_out s_max_blocks_in s_max_blocks_out s_rekey_limit
    s_rekey_interval s_rekey_time s_extra_pad s_packet_discard s_packet_discard_mac_already s_packet_discard_mac
    s_packlen s_rekeying s_mux s_set_maxsize_called s_disconnecting s_wire s_outgoing s_kex set_receive_context
    set_send_context set_input set_output set_outgoing_packet set_incoming_packet set_compression_buffer
    set_compression_in_stream set_compression_out_stream set_compression_in_started set_compression_out_started
    set_compression_in_failures set_compression_out_failures set_max_packet_size set_interactive_mode
    set_server_side set_after_authentication set_keep_alive_timeouts set_packet_timeout_ms set_newkeys_in
    set_newkeys_out set_p_read set_p_send set_hard_max_blocks_in set_hard_max_blocks_out set_max_blocks_in
    set_max_blocks_out set_rekey_limit set_rekey_interval set_rekey_time set_extra_pad set_packet_discard
    set_packet_discard_mac_already set_packet_discard_mac set_packlen set_rekeying set_mux
    set_set_maxsize_called set_disconnecting set_wire set_outgoing set_kex] in t in
  progress change t with v.
Ltac members :=
  repeat match goal with
  | |- context [s_receive_context (?f ?x ?st)] => red_term (s_receive_context (f x st))
  | |- context [s_send_context (?f ?x ?st)] => red_term (s_send_context (f x st))
  | |- context [s_input (?f ?x ?st)] => red_term (s_input (f x st))
  | |- context [s_output (?f ?x ?st)] => red_term (s_output (f x st))
  | |- context [s_outgoing_packet (?f ?x ?st)] => red_term (s_outgoing_packet (f x st))
  | |- context [s_incoming_packet (?f ?x ?st)] => red_term (s_incoming_packet (f x st))
  | |- context [s_compression_buffer (?f ?x ?st)] => red_term (s_compression_buffer (f x st))
  | |- context [s_compression_in_stream (?f ?x ?st)] => red_term (s_compression_in_stream (f x st))
  | |- context [s_compression_out_stream (?f ?x ?st)] => red_term (s_compression_out_stream (f x st))
  | |- context [s_compression_in_started (?f ?x ?st)] => red_term (s_compression_in_started (f x st))
  | |- context [s_compression_out_started (?f ?x ?st)] => red_term (s_compression_out_started (f x st))
  | |- context [s_compression_in_failures (?f ?x ?st)] => red_term (s_compression_in_failures (f x st))
  | |- context [s_compression_out_failures (?f ?x ?st)] => red_term (s_compression_out_failures (f x st))
  | |- context [s_max_packet_size (?f ?x ?st)] => red_term (s_max_packet_size (f x st))
  | |- context [s_interactive_mode (?f ?x ?st)] => red_term (s_interactive_mode (f x st))
  | |- context [s_server_side (?f ?x ?st)] => red_term (s_server_side (f x st))
  | |- context [s_after_authentication (?f ?x ?st)] => red_term (s_after_authentication (f x st))
  | |- context [s_keep_alive_timeouts (?f ?x ?st)] => red_term (s_keep_alive_timeouts (f x st))
  | |- context [s_packet_timeout_ms (?f ?x ?st)] => red_term (s_packet_timeout_ms (f x st))
  | |- context [s_newkeys_in (?f ?x ?st)] => red_term (s_newkeys_in (f x st))
  | |- context [s_newkeys_out (?f ?x ?st)] => red_term (s_newkeys_out (f x st))
  | |- context [s_p_read (?f ?x ?st)] => red_term (s_p_read (f x st))
  | |- context [s_p_send (?f ?x ?st)] => red_term (s_p_send (f x st))
  | |- context [s_hard_max_blocks_in (?f ?x ?st)] => red_term (s_hard_max_blocks_in (f x st))
  | |- context [s_hard_max_blocks_out (?f ?x ?st)] => red_term (s_hard_max_blocks_out (f x st))
  | |- context [s_max_blocks_in (?f ?x ?st)] => red_term (s_max_blocks_in (f x st))
  | |- context [s_max_blocks_out (?f ?x ?st)] => red_term (s_max_blocks_out (f x st))
  | |- context [s_rekey_limit (?f ?x ?st)] => red_term (s_rekey_limit (f x st))
  | |- context [s_rekey_interval (?f ?x ?st)] => red_term (s_rekey_interval (f x st))
  | |- context [s_rekey_time (?f ?x ?st)] => red_term (s_rekey_time (f x st))
  | |- context [s_extra_pad (?f ?x ?st)] => red_term (s_extra_pad (f x st))
  | |- context [s_packet_discard (?f ?x ?st)] => red_term (s_packet_discard (f x st))
  | |- context [s_packet_discard_mac_already (?f ?x ?st)] => red_term (s_packet_discard_mac_already (f x st))
  | |- context [s_packet_discard_mac (?f ?x ?st)] => red_term (s_packet_discard_mac (f x st))
  | |- context [s_packlen (?f ?x ?st)] => red_term (s_packlen (f x st))
  | |- context [s_rekeying (?f ?x ?st)] => red_term (s_rekeying (f x st))
  | |- context [s_mux (?f ?x ?st)] => red_term (s_mux (f x st))
  | |- context [s_set_maxsize_called (?f ?x ?st)] => red_term (s_set_maxsize_called (f x st))
  | |- context [s_disconnecting (?f ?x ?st)] => red_term (s_disconnecting (f x st))
  | |- context [s_wire (?f ?x ?st)] => red_term (s_wire (f x st))
  | |- context [s_outgoing (?f ?x ?st)] => red_term (s_outgoing (f x st))
  | |- context [s_kex (?f ?x ?st)] => red_term (s_kex (f x st))
  end.

Section Monad.
Context {S : Type}.
Lemma bind_get {A} (k : S -> ST S A) s : bind get k s = k s s.
Proof. done. Qed.
Lemma bind_ret_l {A B} (a : A) (k : A -> ST S B) s : bind (ret a) k s = k a s.
Proof. done. Qed.
Lemma bind_assoc {A B C} (m : ST S A) (f : A -> ST S B) (g : B -> ST S C) s :
  bind (bind m f) g s = bind m (fun a => bind (f a) g) s.
Proof. unfold bind. by destruct (m s) as [[] ?]. Qed.
End Monad.
Lemma bind_update {V M U Zs A} f (k : unit -> PM V M U Zs A) s : bind (upd f) k s = k tt (f s).
Proof. done. Qed.

(** Run the first operation of a sequence, known to succeed. *)
Ltac step_with L := rewrite (bind_ok _ _ _ _ _ L); cbv beta.
Ltac run_with L E := erewrite bind_ok; [|eapply L; [reflexivity | exact E]]; cbv beta zeta.
Ltac run1_with L E := erewrite bind_ok; [|eapply L; exact E]; cbv beta zeta.
Ltac out_step E := run_with @on_outgoing_ok E.
(** The same where [Q] is the part of the session. *)
Tactic Notation "run_at" constr(L) constr(Q) constr(E) := erewrite bind_ok; [|eapply L; [exact Q | exact E]]; cbv beta zeta.
Ltac in_step E := run1_with @on_incoming_ok E.
Ltac output_step E := run1_with @on_output_ok E.
Ltac input_step E := run1_with @on_input_ok E.
Ltac pget := rewrite bind_get; cbv beta zeta.
