(* ===== verification/Codec.v ===== *)
(** * Writing and reading sequences of fields

    Code that appends bytes to a buffer and code that takes them off again, in
    steps that compose: [appends m v] when [m] adds [v], [parses m v a] when [m]
    takes [v] off and answers [a]. *)
From S2P Require Import Prelude Sshbuf SshbufGetput SshbufSpec CString SshbufMisc Words Chacha ChachaPoly Cipher Hmac Mac PacketState Packet PacketBuf.

Lemma pb_field np f b l : pbuf b l -> np <> 0 -> field_ok f -> zlen l + zlen (enc_field f) <= SSHBUF_SIZE_MAX ->
  exists b', put_field np f b = (Ok tt, b') /\ pbuf b' (l ++ enc_field f).
Proof.
  intros P Hnp Hf Hm. destruct (put_field_spec np f b (pb_wf _ _ P) Hf Hnp (pb_writable _ _ P)) as (b' & E & W & F & C).
  { by rewrite (pb_data _ _ P), (pb_max _ _ P). }
  exists b'. split; [done|]. apply (pbuf_frame b b' l _ P W F). by rewrite C, (pb_data _ _ P).
Qed.

Lemma pb_put_u8 np c b l : pbuf b l -> np <> 0 -> is_byte c -> zlen l + 1 <= SSHBUF_SIZE_MAX ->
  exists b', sshbuf_put_u8 np c b = (Ok tt, b') /\ pbuf b' (l ++ [c]).
Proof.
  intros P Hnp Hc Hm. destruct (pb_field np (FU8 c) b l P Hnp Hc) as (b' & E & P'); [done|]. exists b'. split; [done|].
  cbn [enc_field] in P'. unfold u8 in P'. by rewrite Z.mod_small in P'.
Qed.

(** ** Writing *)

(** [m] appends the bytes [v]. *)
Definition appends (m : ST sshbuf unit) (v : list Z) : Prop :=
  forall b l, pbuf b l -> zlen l + zlen v <= SSHBUF_SIZE_MAX -> exists b', m b = (Ok tt, b') /\ pbuf b' (l ++ v).

Lemma appends_then m m' v v' : appends m v -> appends m' v' -> appends (do! m ;; m') (v ++ v').
Proof.
  intros A A' b l P Hm. rewrite zlen_app in Hm. pose proof (zlen_nonneg v). pose proof (zlen_nonneg v').
  destruct (A b l P ltac:(lia)) as (b1 & E1 & P1). destruct (A' b1 _ P1) as (b2 & E2 & P2); [rewrite zlen_app; lia|].
  exists b2. rewrite (bind_ok _ _ _ _ _ E1). split; [done|]. by rewrite app_assoc.
Qed.
Lemma appends_reads {A} (r : res A) a (k : A -> ST sshbuf unit) v : r = Ok a -> appends (k a) v -> appends (let! a := reads (fun _ => r) in k a) v.
Proof. intros -> Ha. exact Ha. Qed.
Lemma appends_field np f : np <> 0 -> field_ok f -> appends (put_field np f) (enc_field f).
Proof. intros Hp Hf b l P Hm. by apply pb_field. Qed.
Lemma appends_putb np v : np <> 0 -> sshbuf_wf v -> appends (sshbuf_putb np (Some v)) (contents v).
Proof.
  intros Hp W. unfold sshbuf_putb. apply (appends_reads _ (contents v)); [by apply buf_bytes_wf|].
  intros b l P Hm. apply pb_put; try done. by apply contents_bytes.
Qed.
Lemma appends_stringb np v : np <> 0 -> sshbuf_wf v -> appends (sshbuf_put_stringb np (Some v)) (enc_string (contents v)).
Proof.
  intros Hp W. unfold sshbuf_put_stringb. apply (appends_reads _ (contents v)); [by apply buf_bytes_wf|].
  apply (appends_field np (FString (contents v)) Hp). by apply contents_bytes.
Qed.

Lemma appends_ret : appends (ret tt) [].
Proof. intros b l P _. exists b. by rewrite app_nil_r. Qed.
Lemma appends_u8 np c : np <> 0 -> is_byte c -> appends (sshbuf_put_u8 np c) [c].
Proof. intros Hp Hc b l P Hm. by apply pb_put_u8. Qed.
Lemma appends_u32 np x : np <> 0 -> 0 <= x < 2 ^ 32 -> appends (sshbuf_put_u32 np x) (POKE_U32 x).
Proof. intros Hp Hx. by apply (appends_field np (FU32 x)). Qed.
Lemma appends_u64 np x : np <> 0 -> 0 <= x < 2 ^ 64 -> appends (sshbuf_put_u64 np x) (POKE_U64 x).
Proof. intros Hp Hx. by apply (appends_field np (FU64 x)). Qed.
Lemma appends_string np v : np <> 0 -> Forall is_byte v -> appends (sshbuf_put_string np v) (enc_string v).
Proof. intros Hp Hv. by apply (appends_field np (FString v)). Qed.
Lemma appends_when (c : bool) m v : (c = true -> appends m v) -> appends (if c then m else ret tt) (if c then v else []).
Proof. intros Hm. destruct c; [by apply Hm|apply appends_ret]. Qed.
Lemma appends_unless (c : bool) m v : (c = false -> appends m v) -> appends (if c then ret tt else m) (if c then [] else v).
Proof. intros Hm. destruct c; [apply appends_ret|by apply Hm]. Qed.
Lemma appends_eq m v w : appends m v -> v = w -> appends m w.
Proof. by intros Hm <-. Qed.

(** ** Reading *)

Lemma consume_cd n b r b' : sshbuf_consume n b = (r, b') -> sb_cd b' = sb_cd b.
Proof.
  unfold sshbuf_consume, bind, reads, get, put, fail, ret. destruct (sshbuf_check_sanity b); [|by intros [= _ <-]..].
  destruct (n =? 0); [by intros [= _ <-]|]. destruct (sshbuf_len b) as [k|e|]; [|by intros [= _ <-]..].
  destruct (k <? n); [by intros [= _ <-]|]. destruct (_ =? _); by intros [= _ <-].
Qed.

Lemma from_wf np blob m v : sshbuf_from np blob m (zlen m) = Some v -> 0 < np -> 0 < blob -> Forall is_byte m ->
  sshbuf_wf v /\ contents v = m /\ sb_cd v = blob.
Proof.
  unfold sshbuf_from. pose proof (zlen_nonneg m). destruct (_ || _) eqn:C; [done|]. intros [= <-] Hnp Hb Hm. zbool. sb_consts. split; [|split; [|done]].
  - constructor; cbn; sb_consts; try lia; done.
  - unfold contents. cbn [sb_size sb_off sb_mem]. rewrite zdrop_0, Z.sub_0_r, ztake_all by lia. done.
Qed.

(** The memory of the buffer stays where it is. *)
Definition keeps_cd {A} (m : ST sshbuf A) : Prop := forall b, sb_cd (snd (m b)) = sb_cd b.

Lemma keeps_cd_bind {A B} (m : ST sshbuf A) (k : A -> ST sshbuf B) : keeps_cd m -> (forall a, keeps_cd (k a)) -> keeps_cd (bind m k).
Proof. intros Hm Hk b. unfold bind. specialize (Hm b). destruct (m b) as [[a|e|] b1]; cbn [snd] in *; [rewrite Hk|..]; done. Qed.
Lemma keeps_cd_same {A} (m : ST sshbuf A) : (forall b, snd (m b) = b) -> keeps_cd m.
Proof. intros Hm b. by rewrite Hm. Qed.
Lemma keeps_cd_consume n : keeps_cd (sshbuf_consume n).
Proof. intros b. destruct (sshbuf_consume n b) as [r b'] eqn:E. by apply consume_cd in E. Qed.
Lemma keeps_cd_or_err {A} (m : ST sshbuf A) e : keeps_cd m -> keeps_cd (or_err m e).
Proof. intros Hm b. unfold or_err. specialize (Hm b). by destruct (m b) as [[] ?]. Qed.
Lemma keeps_cd_peek p n : keeps_cd (mem_peek p n).
Proof. apply keeps_cd_same. intros b. unfold mem_peek, bind, get, defined. by destruct (mem_read _ _ _). Qed.

Lemma keeps_cd_defined {A} (o : option A) : keeps_cd (defined o).
Proof. by destruct o. Qed.

Ltac keep_cd :=
  repeat lazymatch goal with
  | |- keeps_cd (bind _ _) => apply keeps_cd_bind; [|intros]
  | |- keeps_cd (sshbuf_consume _) => apply keeps_cd_consume
  | |- keeps_cd (mem_peek _ _) => apply keeps_cd_peek
  | |- keeps_cd (or_err _ _) => apply keeps_cd_or_err
  | |- keeps_cd (defined _) => apply keeps_cd_defined
  | |- keeps_cd (match ?x with _ => _ end) => destruct x
  | |- keeps_cd _ => apply keeps_cd_same; done
  end.

(** [m] takes the bytes [v] off and answers [a]. *)
Definition parses {A} (m : ST sshbuf A) (v : list Z) (a : A) : Prop :=
  forall b rest, sshbuf_wf b -> 0 < sb_cd b -> contents b = v ++ rest ->
  exists b', m b = (Ok a, b') /\ sshbuf_wf b' /\ sb_cd b' = sb_cd b /\ contents b' = rest.

Lemma parses_bind {A B} (m : ST sshbuf A) (k : A -> ST sshbuf B) v w a c : parses m v a -> parses (k a) w c -> parses (bind m k) (v ++ w) c.
Proof.
  intros Hm Hk b rest W Hcd E. rewrite <- app_assoc in E. destruct (Hm b _ W Hcd E) as (b1 & E1 & W1 & D1 & C1).
  destruct (Hk b1 _ W1 ltac:(lia) C1) as (b2 & E2 & W2 & D2 & C2). exists b2. rewrite (bind_ok _ _ _ _ _ E1). split_and!; try done. congruence.
Qed.
Lemma parses_ret {A} (a : A) : parses (ret a) [] a.
Proof. intros b rest W _ E. by exists b. Qed.
Lemma parses_last {A B} (m : ST sshbuf A) (k : A -> ST sshbuf B) v a c : parses m v a -> parses (k a) [] c -> parses (bind m k) v c.
Proof. intros Hm Hk. rewrite <- (app_nil_r v). by eapply parses_bind. Qed.
Lemma parses_eq {A} (m : ST sshbuf A) v w a : parses m v a -> v = w -> parses m w a.
Proof. by intros Hm <-. Qed.
Lemma parses_reads {A B} (r : res A) (a : A) (k : A -> ST sshbuf B) v c : r = Ok a -> parses (k a) v c -> parses (let! a := reads (fun _ => r) in k a) v c.
Proof. intros -> Hk. exact Hk. Qed.

(** A reader that keeps the memory in place, from what it does otherwise. *)
Lemma parses_intro {A} (m : ST sshbuf A) v a : keeps_cd m ->
  (forall b rest, sshbuf_wf b -> contents b = v ++ rest -> exists b', m b = (Ok a, b') /\ sshbuf_wf b' /\ contents b' = rest) -> parses m v a.
Proof.
  intros Hc Hm b rest W Hcd E. destruct (Hm b rest W E) as (b' & Eb & W' & C'). exists b'. split_and!; try done. specialize (Hc b). by rewrite Eb in Hc.
Qed.

Lemma contents_fit b v rest : sshbuf_wf b -> contents b = v ++ rest -> zlen v <= SSHBUF_SIZE_MAX.
Proof.
  intros W E. pose proof (zlen_nonneg rest). pose proof (contents_len b W) as Hl. rewrite E, zlen_app in Hl. wf_facts W. lia.
Qed.

Lemma parses_u8 c : is_byte c -> parses sshbuf_get_u8 [c] c.
Proof.
  intros Hc. apply parses_intro; [unfold sshbuf_get_u8; keep_cd|]. intros b rest W E.
  destruct (read_front 1 b be _ [c] rest (sshbuf_get_u8_spec b W) E) as (b' & R & ?); [done|]. exists b'. split; [|done].
  rewrite R. change (be [c]) with (c * 1 + 0). by rewrite Z.mul_1_r, Z.add_0_r.
Qed.
Lemma parses_byte {A} c (k : Z -> ST sshbuf A) w a : is_byte c -> parses (k c) w a -> parses (bind sshbuf_get_u8 k) (c :: w) a.
Proof. intros Hc Hk. by apply (parses_bind _ _ [c] _ _ _ (parses_u8 c Hc)). Qed.
Lemma parses_u32 x : 0 <= x < 2 ^ 32 -> parses sshbuf_get_u32 (POKE_U32 x) x.
Proof.
  intros Hc. apply parses_intro; [unfold sshbuf_get_u32; keep_cd|]. intros b rest W E.
  destruct (read_front 4 b be _ _ _ (sshbuf_get_u32_spec b W) E) as (b' & R & ?); [done|]. exists b'. split; [|done].
  rewrite R, be_POKE_U32. by rewrite u32_small.
Qed.
Lemma parses_u64 x : 0 <= x < 2 ^ 64 -> parses sshbuf_get_u64 (POKE_U64 x) x.
Proof.
  intros Hc. apply parses_intro; [unfold sshbuf_get_u64; keep_cd|]. intros b rest W E.
  destruct (read_front 8 b be _ _ _ (sshbuf_get_u64_spec b W) E) as (b' & R & ?); [done|]. exists b'. split; [|done].
  rewrite R, be_POKE_U64. by rewrite u64_small.
Qed.
Lemma parses_string mp v : mp <> 0 -> parses (sshbuf_get_string mp) (enc_string v) (v ++ [0], zlen v).
Proof.
  intros Hmp. apply parses_intro; [unfold sshbuf_get_string, sshbuf_get_string_direct; keep_cd|]. intros b rest W E. apply Z.eqb_neq in Hmp.
  pose proof (contents_fit _ _ _ W E) as Hl. rewrite enc_string_len in Hl.
  pose proof (sshbuf_get_string_spec mp b W) as D. rewrite E, string_len_enc in D by lia.
  rewrite enc_string_take, enc_string_drop, Hmp in D. destruct D as (b' & W' & _ & E' & D). by exists b'.
Qed.
Lemma parses_cstring mp v : mp <> 0 -> ~ (0 ∈ v) -> parses (sshbuf_get_cstring mp) (enc_string v) (v ++ [0], zlen v).
Proof.
  intros Hmp Hv. apply parses_intro; [unfold sshbuf_get_cstring, sshbuf_get_string_direct; keep_cd|]. intros b rest W E. apply Z.eqb_neq in Hmp.
  pose proof (contents_fit _ _ _ W E) as Hl. rewrite enc_string_len in Hl.
  pose proof (sshbuf_get_cstring_spec mp b W) as D. rewrite E, string_len_enc in D by lia.
  rewrite enc_string_take, enc_string_drop, Hmp, no_nul_inner in D by done. destruct D as (b' & W' & _ & E' & D). by exists b'.
Qed.

(** A view of a string in the buffer ([sshbuf_froms]). *)
Lemma string_view_ok np v b rest : 0 < np -> Forall is_byte v -> sshbuf_wf b -> 0 < sb_cd b -> contents b = enc_string v ++ rest ->
  exists s b1, string_view np b = (Ok s, b1) /\ sshbuf_wf s /\ 0 < sb_cd s /\ contents s = v /\ sshbuf_wf b1 /\ sb_cd b1 = sb_cd b /\ contents b1 = rest.
Proof.
  intros Hnp Hv W Hcd E. pose proof (contents_fit _ _ _ W E) as Hl. rewrite enc_string_len in Hl.
  assert (Hz : zlen (enc_string v) = 4 + zlen v) by (rewrite enc_string_len; lia). pose proof (zlen_nonneg v). pose proof (zlen_nonneg rest).
  unfold string_view. assert (reads sshbuf_peek_string_direct b = (Ok (sb_off b + 4, zlen v), b)) as Ep.
  { unfold reads. rewrite peek_string_spec by done. rewrite E, string_len_enc by lia. done. }
  rewrite (bind_ok _ _ _ _ _ Ep). cbn [fst snd]. pose proof (contents_len b W) as Lb. rewrite E, zlen_app, Hz in Lb. wf_facts W.
  rewrite (bind_ok _ _ _ _ _ (mem_peek_wf b 4 (zlen v) W ltac:(lia) ltac:(lia) ltac:(rewrite E, zlen_app; lia))), bind_get.
  rewrite E, enc_string_take. destruct (sshbuf_from np (sb_cd b + (sb_off b + 4)) v (zlen v)) as [s|] eqn:Ev.
  - destruct (from_wf _ _ _ _ Ev) as (Ws & Cs & Ds); [done|lia|done|].
    destruct (sshbuf_consume_spec (u64 (zlen v + 4)) b W) as [(Hc & _)|(_ & b1 & Eb & W1 & F1 & C1 & _)].
    + unfold u64. pose proof (Z.mod_pos_bound (zlen v + 4) (2 ^ 64) ltac:(lia)). lia.
    + rewrite u64_small in Hc by (sb_consts; lia). rewrite E, zlen_app in Hc. lia.
    + exists s, b1. rewrite (bind_ok _ _ _ _ _ Eb). split; [done|]. split; [done|]. split; [lia|]. split; [done|]. split; [done|].
      split; [by apply consume_cd in Eb|]. rewrite C1, E, u64_small by (sb_consts; lia). apply enc_string_drop.
  - exfalso. unfold sshbuf_from in Ev. destruct (_ || _) eqn:Hc; [|done]. zbool. sb_consts. lia.
Qed.

Lemma parses_view {A} np v (k : sshbuf -> ST sshbuf A) w a : 0 < np -> Forall is_byte v ->
  (forall s, sshbuf_wf s -> 0 < sb_cd s -> contents s = v -> parses (k s) w a) -> parses (bind (string_view np) k) (enc_string v ++ w) a.
Proof.
  intros Hnp Hv Hk b rest W Hcd E. rewrite <- app_assoc in E.
  destruct (string_view_ok np v b _ Hnp Hv W Hcd E) as (s & b1 & E1 & Ws & Ds & Cs & W1 & D1 & C1).
  destruct (Hk s Ws Ds Cs b1 rest W1 ltac:(lia) C1) as (b2 & E2 & W2 & D2 & C2). exists b2. rewrite (bind_ok _ _ _ _ _ E1). split_and!; try done. congruence.
Qed.

(** ** What a reader makes of the bytes *)

(** [m] is the function [f] of the contents. *)
Definition denotes {A} (m : ST sshbuf A) (f : list Z -> res (A * list Z)) : Prop :=
  forall b, sshbuf_wf b -> 0 < sb_cd b ->
  match f (contents b) with
  | Ok (a, rest) => exists b', m b = (Ok a, b') /\ sshbuf_wf b' /\ sb_cd b' = sb_cd b /\ contents b' = rest
  | Err e => fst (m b) = Err e
  | Crash => fst (m b) = Crash
  end.

Lemma denotes_bind {A B} (m : ST sshbuf A) (k : A -> ST sshbuf B) f g : denotes m f -> (forall a, denotes (k a) (g a)) ->
  denotes (bind m k) (fun l => let? ar := f l in g (fst ar) (snd ar)).
Proof.
  intros Hm Hk b W Hcd. specialize (Hm b W Hcd). destruct (f (contents b)) as [[a rest]|e|]; cbn [rbind fst snd].
  - destruct Hm as (b1 & E1 & W1 & D1 & C1). specialize (Hk a b1 W1 ltac:(lia)). rewrite C1 in Hk. rewrite (bind_ok _ _ _ _ _ E1).
    destruct (g a rest) as [[c r]|e|]; [|done..]. destruct Hk as (b2 & ? & ? & ? & ?). exists b2. split_and!; try done. congruence.
  - unfold bind. destruct (m b) as [[] ?]; by inversion Hm.
  - unfold bind. by destruct (m b) as [[] ?].
Qed.
Lemma denotes_ret {A} (a : A) : denotes (ret a) (fun l => Ok (a, l)).
Proof. intros b W _. by exists b. Qed.
Lemma denotes_fail {A} e : denotes (fail e : ST sshbuf A) (fun _ => Err e).
Proof. done. Qed.
Lemma denotes_pure {A} (r : res A) : denotes (reads (fun _ => r)) (fun l => let? a := r in Ok (a, l)).
Proof. intros b W _. unfold reads. destruct r; [by exists b|done..]. Qed.
Lemma denotes_eq {A} (m : ST sshbuf A) f g : denotes m f -> (forall l, f l = g l) -> denotes m g.
Proof. intros Hm E b W Hcd. rewrite <- E. by apply Hm. Qed.
Lemma denotes_now {A B} (a : A) (k : A -> ST sshbuf B) f : denotes (k a) f -> denotes (bind (ret a) k) f.
Proof. intros Hk. exact Hk. Qed.
Lemma denotes_len : denotes (reads sshbuf_len) (fun l => Ok (zlen l, l)).
Proof. intros b W _. unfold reads. rewrite sshbuf_len_wf by done. by exists b. Qed.

Lemma span_to_sent s : span_to 0 (s ++ [0]) = span_to 0 s.
Proof. induction s as [|c s IH]; [done|]. cbn [app span_to]. destruct (c =? 0); [done|]. by rewrite IH. Qed.

(** A string, and a string without a NUL inside, with its terminator dropped. *)
Definition read_string (l : list Z) : res (list Z * list Z) :=
  let? n := string_len l in Ok (ztake n (zdrop 4 l), zdrop (n + 4) l).
Definition read_cstring (l : list Z) : res (list Z * list Z) :=
  let? vr := read_string l in if inner_nul (fst vr) then Err SSH_ERR_INVALID_FORMAT else Ok vr.

Lemma denotes_cstring {A} mp (k : list Z * Z -> ST sshbuf A) f : mp <> 0 -> (forall v, denotes (k (v ++ [0], zlen v)) (f v)) ->
  denotes (bind (sshbuf_get_cstring mp) k) (fun l => let? vr := read_cstring l in f (fst vr) (snd vr)).
Proof.
  intros Hmp Hk b W Hcd. pose proof (sshbuf_get_cstring_spec mp b W) as D. unfold read_cstring, read_string.
  destruct (string_len (contents b)) as [n|e|] eqn:En; cbn [rbind fst snd]; [|by rewrite (bind_err _ _ _ _ _ D)|done].
  destruct (inner_nul _); cbn [rbind fst snd]; [by rewrite (bind_err _ _ _ _ _ D)|]. destruct D as (b1 & W1 & _ & C1 & D).
  rewrite (proj2 (Z.eqb_neq mp 0) Hmp) in D. rewrite (bind_ok _ _ _ _ _ D).
  assert (sb_cd b1 = sb_cd b) as D1.
  { assert (keeps_cd (sshbuf_get_cstring mp)) as Kc by (unfold sshbuf_get_cstring, sshbuf_get_string_direct; keep_cd). specialize (Kc b). by rewrite D in Kc. }
  destruct (string_len_ok _ _ En (contents_bytes b W)) as [Hn Hl].
  specialize (Hk (ztake n (zdrop 4 (contents b))) b1 W1 ltac:(lia)). rewrite C1 in Hk.
  replace (zlen (ztake n (zdrop 4 (contents b)))) with n in Hk by zl. rewrite D1 in Hk. exact Hk.
Qed.

Lemma denotes_view {A} np (k : sshbuf -> ST sshbuf A) f : 0 < np ->
  (forall s, sshbuf_wf s -> 0 < sb_cd s -> denotes (k s) (f (contents s))) ->
  denotes (bind (string_view np) k) (fun l => let? vr := read_string l in f (fst vr) (snd vr)).
Proof.
  intros Hnp Hk b W Hcd. unfold read_string. pose proof (contents_bytes b W) as Bb. destruct (string_len (contents b)) as [n|e|] eqn:En; cbn [rbind fst snd].
  2-3: unfold string_view, bind, reads; rewrite peek_string_spec by done; by rewrite En.
  destruct (string_len_ok _ _ En Bb) as [Hn Hl]. pose proof (string_len_split _ _ En Bb) as Hs.
  assert (Forall is_byte (ztake n (zdrop 4 (contents b)))) as Bv by (by apply Forall_ztake, Forall_zdrop).
  destruct (string_view_ok np _ b _ Hnp Bv W Hcd Hs) as (s & b1 & E1 & Ws & Ds & Cs & W1 & D1 & C1). rewrite (bind_ok _ _ _ _ _ E1).
  specialize (Hk s Ws Ds b1 W1 ltac:(lia)). rewrite Cs, C1, D1 in Hk. exact Hk.
Qed.

(** ** What a reader took *)

Lemma string_view_inv np b v b' : sshbuf_wf b -> 0 < np -> 0 < sb_cd b -> string_view np b = (Ok v, b') ->
  sshbuf_wf b' /\ sb_cd b' = sb_cd b /\ sshbuf_wf v /\ 0 < sb_cd v /\ contents b = enc_string (contents v) ++ contents b'.
Proof.
  intros W Hp Hcd Q. pose proof (contents_bytes b W) as Bb. destruct (string_len (contents b)) as [n|e|] eqn:En.
  - pose proof (string_len_split _ _ En Bb) as Hs. assert (Forall is_byte (ztake n (zdrop 4 (contents b)))) as Bv by (by apply Forall_ztake, Forall_zdrop).
    destruct (string_view_ok np _ b _ Hp Bv W Hcd Hs) as (s & b1 & E1 & Ws & Ds & Cs & W1 & D1 & C1). rewrite E1 in Q. injection Q as <- <-.
    split_and!; try done. by rewrite Cs, C1.
  - unfold string_view, bind, reads in Q. rewrite peek_string_spec in Q by done. by rewrite En in Q.
  - unfold string_view, bind, reads in Q. rewrite peek_string_spec in Q by done. by rewrite En in Q.
Qed.

(** A run of [m] that ends well answers [a] and takes [v] off, before [rest], with [P a v rest]. *)
Definition takes {A} (m : ST sshbuf A) (P : A -> list Z -> list Z -> Prop) : Prop :=
  forall b a b', sshbuf_wf b -> 0 < sb_cd b -> m b = (Ok a, b') ->
  sshbuf_wf b' /\ sb_cd b' = sb_cd b /\ exists v, contents b = v ++ contents b' /\ P a v (contents b').

Lemma takes_bind {A B} (m : ST sshbuf A) (k : A -> ST sshbuf B) P Q : takes m P -> (forall a, takes (k a) (Q a)) ->
  takes (bind m k) (fun c v rest => exists a v1 v2, v = v1 ++ v2 /\ P a v1 (v2 ++ rest) /\ Q a c v2 rest).
Proof.
  intros Hm Hk b c b' W D E. unfold bind in E. destruct (m b) as [[a|?|] b1] eqn:E1; [|done..].
  destruct (Hm b a b1 W D E1) as (W1 & D1 & v1 & C1 & P1). destruct (Hk a b1 c b' W1 ltac:(lia) E) as (W2 & D2 & v2 & C2 & Q2).
  split; [done|]. split; [congruence|]. exists (v1 ++ v2). rewrite <- app_assoc, <- C2. split; [done|]. exists a, v1, v2. by rewrite <- C2.
Qed.
Lemma takes_imp {A} (m : ST sshbuf A) P (Q : A -> list Z -> list Z -> Prop) : takes m P -> (forall a v rest, P a v rest -> Q a v rest) -> takes m Q.
Proof. intros Hm HPQ b a b' W D E. destruct (Hm b a b' W D E) as (? & ? & v & ? & ?). split; [done|]. split; [done|]. exists v. split; [done|]. by apply HPQ. Qed.
Lemma takes_ret {A} (a : A) : takes (ret a) (fun c v _ => c = a /\ v = []).
Proof. intros b c b' W D [= <- <-]. split; [done|]. split; [done|]. by exists []. Qed.
Lemma takes_pure {A} (r : res A) : takes (reads (fun _ => r)) (fun c v _ => r = Ok c /\ v = []).
Proof. intros b c b' W D [= E <-]. split; [done|]. split; [done|]. by exists []. Qed.
Lemma takes_len : takes (reads sshbuf_len) (fun n v rest => n = zlen rest /\ v = []).
Proof. intros b c b' W D. unfold reads. rewrite sshbuf_len_wf by done. intros [= <- <-]. split; [done|]. split; [done|]. by exists []. Qed.

Lemma takes_u8 : takes sshbuf_get_u8 (fun x v _ => v = [x] /\ is_byte x).
Proof.
  intros b x b' W D E. assert (keeps_cd sshbuf_get_u8) as Kc by (unfold sshbuf_get_u8; keep_cd). specialize (Kc b). rewrite E in Kc. cbn [snd] in Kc.
  pose proof (sshbuf_get_u8_spec b W) as R. pose proof (contents_bytes b W) as Bb. rewrite E in R. inversion R as [|b1 Hl W1 _ C1 Ex]. subst b1.
  destruct (contents b) as [|c l]; [by rewrite zlen_nil in Hl|]. change (be (ztake 1 (c :: l))) with (c * 1 + 0) in *.
  rewrite Z.mul_1_r, Z.add_0_r in *. split; [done|]. split; [done|]. exists [c]. apply Forall_cons in Bb as [Hc _]. by rewrite C1.
Qed.

Lemma takes_direct : takes (let! pl := sshbuf_get_string_direct in mem_peek (fst pl) (snd pl)) (fun a v _ => v = enc_string a).
Proof.
  intros b x b' W D E.
  assert (keeps_cd (let! pl := sshbuf_get_string_direct in mem_peek (fst pl) (snd pl))) as Kc by (unfold sshbuf_get_string_direct; keep_cd).
  specialize (Kc b). rewrite E in Kc. cbn [snd] in Kc.
  pose proof (get_string_direct_spec b W) as R. pose proof (contents_bytes b W) as Bb. unfold bind in E.
  destruct (string_len (contents b)) as [n|e|] eqn:En; [|by rewrite R in E|done]. destruct R as (b1 & R & W1 & _ & C1 & M1). rewrite R in E. cbn [fst snd] in E.
  unfold mem_peek, bind, get, defined in E. rewrite M1, string_body in E by done. injection E as <- <-. split; [done|]. split; [done|].
  exists (enc_string (ztake n (zdrop 4 (contents b)))). rewrite C1. split; [by apply string_len_split|done].
Qed.

Lemma takes_skip : takes (let! _ := sshbuf_get_string_direct in ret tt) (fun _ v _ => exists a, v = enc_string a).
Proof.
  intros b x b' W D E. assert (keeps_cd (let! _ := sshbuf_get_string_direct in ret tt)) as Kc by (unfold sshbuf_get_string_direct; keep_cd).
  specialize (Kc b). rewrite E in Kc. cbn [snd] in Kc.
  pose proof (get_string_direct_spec b W) as R. pose proof (contents_bytes b W) as Bb. unfold bind in E.
  destruct (string_len (contents b)) as [n|e|] eqn:En; [|by rewrite R in E|done]. destruct R as (b1 & R & W1 & _ & C1 & M1). rewrite R in E.
  injection E as _ <-. split; [done|]. split; [done|]. exists (enc_string (ztake n (zdrop 4 (contents b)))). rewrite C1.
  split; [by apply string_len_split|eauto].
Qed.

Lemma takes_cstring mp : takes (sshbuf_get_cstring mp) (fun p v _ => exists a, v = enc_string a /\ p = (a ++ [0], zlen a)).
Proof.
  intros b x b' W D E. assert (keeps_cd (sshbuf_get_cstring mp)) as Kc by (unfold sshbuf_get_cstring, sshbuf_get_string_direct; keep_cd).
  specialize (Kc b). rewrite E in Kc. cbn [snd] in Kc. pose proof (sshbuf_get_cstring_spec mp b W) as R. pose proof (contents_bytes b W) as Bb.
  destruct (string_len (contents b)) as [n|e|] eqn:En; [|by rewrite R in E|done]. destruct (inner_nul _); [by rewrite R in E|].
  destruct R as (b1 & W1 & _ & C1 & R). rewrite R in E. destruct (mp =? 0); [done|]. injection E as <- <-. split; [done|]. split; [done|].
  destruct (string_len_ok _ _ En Bb). exists (enc_string (ztake n (zdrop 4 (contents b)))). rewrite C1. split; [by apply string_len_split|].
  exists (ztake n (zdrop 4 (contents b))). split; [done|]. do 2 f_equal. zl.
Qed.

Lemma takes_prefix n : 0 <= n -> takes (let! v := reads buf_bytes in do! sshbuf_consume n ;; ret (ztake n v)) (fun a v _ => v = a /\ zlen a = n).
Proof.
  intros Hn b x b' W D E. unfold bind, reads in E. rewrite buf_bytes_wf in E by done.
  destruct (sshbuf_consume_spec n b W Hn) as [(Hl & R)|(Hl & b1 & R & W1 & _ & C1 & _)]; rewrite R in E; [done|]. injection E as <- <-.
  split; [done|]. split; [by apply (consume_cd _ _ _ _ R)|]. exists (ztake n (contents b)). rewrite C1, ztake_zdrop. split; [done|]. split; [done|]. zl.
Qed.
