(* ===== verification/PacketSend.v ===== *)
(** * The packet layer: what a sender puts on the wire

    The format of a packet, and that [ssh_packet_send2_wrapped] appends exactly
    one packet of that format, sealed by the sender's cipher and MAC, to the
    output of the session. *)
From S2P Require Import Prelude Sshbuf SshbufGetput CString SshbufMisc Words Chacha ChachaPoly Cipher Hmac Mac PacketState Packet PacketBuf.

(** ** The padding *)

(** The padding of [len] bytes without extra padding. *)
Definition padding (len bs : Z) : Z := let p := bs - len mod bs in if p <? 4 then p + bs else p.

Lemma padding_bounds len bs : bs = 8 \/ bs = 16 -> 4 <= padding len bs <= 19 /\ (len + padding len bs) mod bs = 0.
Proof.
  intros Hbs. unfold padding. destruct (_ <? 4) eqn:C; zbool; destruct Hbs as [-> | ->]; Z.div_mod_to_equations; lia.
Qed.

(** ** The packet *)

Definition plain_packet (payload pad : list Z) : list Z :=
  POKE_U32 (zlen payload + zlen pad + 1) ++ zlen pad :: payload ++ pad.

Lemma plain_packet_len payload pad : zlen (plain_packet payload pad) = zlen payload + zlen pad + 5.
Proof. unfold plain_packet. rewrite zlen_app, zlen_cons, zlen_app. change (zlen (POKE_U32 _)) with 4. lia. Qed.

Lemma plain_packet_bytes payload pad : Forall is_byte payload -> Forall is_byte pad -> zlen pad < 256 ->
  Forall is_byte (plain_packet payload pad).
Proof.
  intros Hp Hd Hl. pose proof (zlen_nonneg pad). apply Forall_app. split; [apply POKE_U32_bytes|].
  constructor; [unfold is_byte; lia | by apply Forall_app].
Qed.

(** What the environment of a call may answer. *)
Record penv_ok (E : penv) : Prop := {
  po_np : 0 < pe_np E;
  po_rand a n : 0 <= n -> zlen (pe_rand E a n) = n /\ Forall is_byte (pe_rand E a n);
  po_tmp : scratch (pe_tmp E);
}.

Section Send.
Context {V M U Zs : Type} `{EVPLaws V} `{EVP_MDLaws M} `{UMACLaws U} `{ZLIB Zs}.
Implicit Types s : session_state V M U Zs.
Implicit Types nk : option (newkeys M U).
Implicit Types e d : sshcipher_ctx V.

(** The keys of one direction at its two ends, for the cipher [c]. *)
Record kagree nk nk2 (c : sshcipher) : Prop := {
  ag_block : keys_block_size nk = ci_block_size c /\ keys_block_size nk2 = ci_block_size c;
  ag_auth : keys_authlen nk = ci_auth_len c /\ keys_authlen nk2 = ci_auth_len c;
  ag_comp : keys_comp nk = false /\ keys_comp nk2 = false;
  ag_mac : match keys_mac nk, keys_mac nk2 with Some m1, Some m2 => mac_agree m1 m2 | None, None => True | _, _ => False end;
}.

(** Keys and contexts. *)
Definition agree nk nk2 e d : Prop := ctx_synced e d /\ kagree nk nk2 (cc_cipher e).

(** The code [t] behind the packet [pkt], encrypted to [y]. *)
Definition mac_part nk (q : Z) (pkt y t : list Z) nk' : Prop :=
  if mac_on (keys_mac nk) then
    exists k m', nk = Some k /\
      (forall um, mac_compute um q (if mac_etm (nk_mac k) then y else pkt) SSH_DIGEST_MAX_LENGTH (nk_mac k) = (Ok t, m')) /\
      nk' = Some (set_nk_mac m' k)
  else t = [] /\ nk' = nk.

(** [bytes] are the packet number [q] with [payload], sent with the keys [nk]
    and the context [e], which become [nk'] and [e']. *)
Inductive wirepkt nk e (q : Z) : list Z -> list Z -> option (newkeys M U) -> sshcipher_ctx V -> Prop :=
| wp_intro payload pad y t nk' e' :
    Forall is_byte payload -> Forall is_byte pad -> 4 <= zlen pad < 256 -> 1 <= zlen payload ->
    zlen payload + zlen pad + 1 <= PACKET_MAX_SIZE ->
    (zlen (plain_packet payload pad) - keys_aadlen nk) mod keys_block_size nk = 0 ->
    encrypted e q (ztake (keys_aadlen nk) (plain_packet payload pad)) (zdrop (keys_aadlen nk) (plain_packet payload pad)) y e' ->
    mac_part nk q (plain_packet payload pad) y t nk' -> zlen t = keys_maclen nk -> Forall is_byte t ->
    wirepkt nk e q payload (y ++ t) nk' e'.

Lemma kagree_facts nk nk2 c : c ∈ ciphers -> kagree nk nk2 c ->
  (keys_block_size nk = 8 \/ keys_block_size nk = 16) /\ (keys_authlen nk = 0 \/ keys_authlen nk = 16) /\
  (keys_aadlen nk = 0 \/ keys_aadlen nk = 4) /\ (keys_authlen nk <> 0 -> keys_aadlen nk = 4).
Proof.
  intros Hc [[B1 _] [A1 _] _ _]. destruct (cipher_facts _ Hc) as (Hb & Ha & _).
  rewrite B1, A1 in *. split_and!; [done | done | |].
  - unfold keys_aadlen. destruct (_ || _); auto.
  - intros. unfold keys_aadlen. rewrite A1, (proj2 (Z.eqb_neq _ 0)) by done. by rewrite orb_true_r.
Qed.

Lemma agree_facts nk nk2 e d : agree nk nk2 e d ->
  (keys_block_size nk = 8 \/ keys_block_size nk = 16) /\ (keys_authlen nk = 0 \/ keys_authlen nk = 16) /\
  (keys_aadlen nk = 0 \/ keys_aadlen nk = 4) /\ (keys_authlen nk <> 0 -> keys_aadlen nk = 4).
Proof. intros [Sy Ka]. apply (kagree_facts _ nk2 (cc_cipher e)); [apply Sy | done]. Qed.

Lemma keys_mac_some nk m : keys_mac nk = Some m -> exists k, nk = Some k /\ nk_mac k = m /\ keys_authlen nk = 0.
Proof.
  unfold keys_mac. destruct nk as [k|]; [|done]. destruct (_ =? 0) eqn:C; [|done]. intros [= <-]. zbool. by exists k.
Qed.

Lemma mac_agree_len (m1 m2 : sshmac M U) : mac_agree m1 m2 -> 0 <= mac_len m1 <= 64.
Proof.
  intros G. destruct (mac_tag_agree m1 m2 0 [] G) as (t & _ & _ & _ & _ & _ & Hl & H64 & _). lia.
Qed.

Lemma kagree_maclen nk nk2 c : kagree nk nk2 c -> 0 <= keys_maclen nk <= 64.
Proof.
  intros [_ _ _ Gm]. unfold keys_maclen. destruct (keys_mac nk) as [m|]; [|lia]. destruct (keys_mac nk2) as [m2|]; [|done].
  pose proof (mac_agree_len _ _ Gm). destruct (mac_enabled m); lia.
Qed.

Lemma keys_mac_set (k : newkeys M U) m' : keys_authlen (Some k) = 0 -> keys_mac (Some (set_nk_mac m' k)) = Some m'.
Proof. intros A. unfold keys_mac. unfold keys_authlen in *. cbn in *. by rewrite A. Qed.

(** ** Appending the padding and the length fields *)

Lemma pad_length_0 len bs s : s_extra_pad s = 0 -> bs = 8 \/ bs = 16 -> 0 <= len ->
  pad_length len bs s = (Ok (padding len bs), s).
Proof.
  intros Ex Hbs Hl. pose proof (padding_bounds len bs Hbs) as [Hp _]. unfold padding in *. unfold pad_length.
  assert (0 <= len mod bs < bs) by (apply Z.mod_pos_bound; lia). rewrite u32_small, u8_small by lia.
  rewrite bind_get, Ex. cbn [Z.eqb]. destruct (_ <? 4) eqn:C; [rewrite u8_small by lia|]; done.
Qed.

Lemma overwrite_header h payload pad : zlen h = 5 ->
  overwrite 4 [zlen pad] (overwrite 0 (POKE_U32 (zlen payload + zlen pad + 1)) (h ++ payload ++ pad)) = plain_packet payload pad.
Proof.
  intros Lh. unfold overwrite. set (w := POKE_U32 _). assert (Lw : zlen w = 4) by done.
  rewrite (ztake_0 0), Lw by lia. cbn [app Z.add]. rewrite ztake_app_le, ztake_all by lia.
  change (zlen [zlen pad]) with 1. rewrite zdrop_app_ge by lia. rewrite zdrop_zdrop by lia.
  rewrite zdrop_app_ge by lia. rewrite Lh, Lw. rewrite zdrop_0 by lia. done.
Qed.

(** The padding bytes. *)
Definition pad_bytes (E : penv) s (n : Z) : list Z :=
  if negb (match s_newkeys_out s with None => true | Some _ => match s_send_context s with Some cc => cc_plaintext cc | None => true end end)
  then pe_rand E (ps_bytes (s_p_send s)) n else replicate (Z.to_nat n) 0.

Lemma pad_bytes_ok E s n : penv_ok E -> 0 <= n -> zlen (pad_bytes E s n) = n /\ Forall is_byte (pad_bytes E s n).
Proof.
  intros HE Hn. unfold pad_bytes. destruct (negb _); [by apply HE|]. split; [zl|].
  apply Forall_replicate. unfold is_byte. lia.
Qed.

Lemma pad_packet_ok E s o e h payload n :
  penv_ok E -> s_outgoing_packet s = Some o -> s_send_context s = Some e -> pbuf o (h ++ payload) -> zlen h = 5 ->
  4 <= n < 256 -> zlen payload + n + 5 < 2 ^ 27 ->
  exists o', pad_packet E n s = (Ok (zlen payload + n + 5), set_outgoing_packet (Some o') s) /\
    pbuf o' (plain_packet payload (pad_bytes E s n)).
Proof.
  intros HE Eo Ee Po Lh Hn Hl. pose proof (zlen_nonneg payload). pose proof (po_np _ HE).
  destruct (pad_bytes_ok E s n HE ltac:(lia)) as [Lp Bp]. set (pad := pad_bytes E s n) in *.
  destruct (pb_reserve (pe_np E) n o _ Po) as (o1 & junk & E1 & P1 & L1); [lia | lia | sb_consts; zl |].
  destruct (pb_fill o1 _ junk pad P1 Bp) as (o2 & E2 & P2 & O2); [lia|].
  pose proof (pb_len _ _ P2) as E3. pose proof (pb_mutable_ptr _ _ P2) as E4.
  destruct (pb_poke o2 _ 0 (POKE_U32 (zlen payload + n + 1)) P2 (POKE_U32_bytes _)) as (o3 & E5 & P3 & O3);
    [lia | zl |].
  assert (Bn : Forall is_byte [n]) by (constructor; [unfold is_byte; lia | constructor]).
  destruct (pb_poke o3 _ 4 [n] P3 Bn) as (o4 & E6 & P4 & O4);
    [lia | rewrite overwrite_len; zl |].
  exists o4. split.
  - unfold pad_packet. pget. step_with (on_outgoing_ok _ _ _ _ _ Eo E1).
    assert (Epl : (if is_some (s_newkeys_out s) then on_send_context (reads (fun cc => Ok (cipher_ctx_is_plaintext cc))) else ret true)
        (set_outgoing_packet (Some o1) s) =
      (Ok (match s_newkeys_out s with None => true | Some _ => cc_plaintext e end), set_outgoing_packet (Some o1) s)).
    { destruct (s_newkeys_out s); [|done]. cbn [is_some].
      unfold on_send_context. members. rewrite Ee. unfold reads. f_equal. rewrite <- Ee. by destruct s. }
    step_with Epl.
    assert (Q : (if negb (match s_newkeys_out s with None => true | Some _ => cc_plaintext e end)
                 then pe_rand E (ps_bytes (s_p_send s)) n else replicate (Z.to_nat n) 0) = pad).
    { unfold pad, pad_bytes. by rewrite Ee. }
    rewrite Q. out_step E2. out_step E3.
    assert (L : zlen ((h ++ payload) ++ pad) = zlen payload + n + 5) by (rewrite !zlen_app; lia). rewrite L, !(u32_small (zlen payload + n + 5)) by lia.
    out_step E4. rewrite u32_small by lia. replace (zlen payload + n + 5 - 4) with (zlen payload + n + 1) by lia.
    rewrite Z.add_0_r in E5. out_step E5. rewrite O3 in E6. out_step E6. done.
  - rewrite <- Lp in P4 at 1 2. by rewrite <- app_assoc, (overwrite_header h payload pad Lh) in P4.
Qed.

(** ** Encrypting and authenticating *)

Section Seal.
Context (E : penv) (s : session_state V M U Zs) (o : sshbuf) (out : list Z) (nk nk2 : option (newkeys M U)).
Context (e d : sshcipher_ctx V) (payload pad : list Z).
Let q := ps_seqnr (s_p_send s).
Let pkt := plain_packet payload pad.
Let aad := keys_aadlen nk.
Context (HE : penv_ok E) (Ag : agree nk nk2 e d).
Context (Ek : s_newkeys_out s = nk) (Ee : s_send_context s = Some e) (Eo : s_outgoing_packet s = Some o).
Context (Po : pbuf o pkt) (Pout : pbuf (s_output s) out).
Context (Hb : (zlen pkt - aad) mod keys_block_size nk = 0) (Hroom : zlen out + zlen pkt + 80 <= SSHBUF_SIZE_MAX).
Context (Hpl : Forall is_byte payload) (Hpd : Forall is_byte pad) (Lpd : 4 <= zlen pad < 256) (Lpl : 1 <= zlen payload).

Lemma seal_encrypts : exists y e',
  cipher_crypt (pe_tmp E) q pkt (zlen pkt - aad) aad (keys_authlen nk) e = (Ok y, e') /\
  encrypted e q (ztake aad pkt) (zdrop aad pkt) y e' /\ zlen y = zlen pkt + keys_authlen nk.
Proof.
  destruct (agree_facts _ _ _ _ Ag) as (_ & _ & Haad & Hau). fold aad in Haad, Hau. destruct Ag as [Sy [[B1 _] [A1 _] _ _]].
  pose proof (plain_packet_len payload pad) as L. fold pkt in L. pose proof (pbuf_bytes _ _ Po) as Bp.
  assert (zlen (ztake aad pkt) = aad /\ zlen (zdrop aad pkt) = zlen pkt - aad) as [La Lx] by (split; destruct Haad; zl).
  destruct (crypt_encrypts (pe_tmp E) (po_tmp _ HE) e d q (ztake aad pkt) (zdrop aad pkt) Sy) as (y & e' & C & En).
  - by apply Forall_ztake.
  - by apply Forall_zdrop.
  - by rewrite Lx, <- B1.
  - rewrite <- A1. intros. rewrite La. auto.
  - rewrite ztake_zdrop, La, Lx, <- A1 in C. exists y, e'. split_and!; [done..|]. rewrite (en_len _ _ _ _ _ _ En), A1. lia.
Qed.

(** The state after the packet went out. *)
Definition sealed (bo : sshbuf) (e' : sshcipher_ctx V) (nk' : option (newkeys M U)) : session_state V M U Zs :=
  set_output bo (set_send_context (Some e') (set_newkeys_out nk' s)).

Lemma seal_packet_ok : zlen payload + zlen pad + 1 <= PACKET_MAX_SIZE ->
  exists bo bytes nk' e', seal_packet E (zlen pkt) s = (Ok tt, sealed bo e' nk') /\ pbuf bo (out ++ bytes) /\
    wirepkt nk e q payload bytes nk' e'.
Proof.
  intros Hmax. destruct seal_encrypts as (y & e' & C & En & Ly). pose proof (en_bytes _ _ _ _ _ _ En) as By.
  destruct (agree_facts _ _ _ _ Ag) as (_ & Hauth & Haad & _). fold aad in Haad.
  pose proof (plain_packet_len payload pad) as L. fold pkt in L. pose proof (po_np _ HE) as Hnp.
  assert (Hsmall : zlen pkt < 2 ^ 32) by (unfold PACKET_MAX_SIZE in Hmax; lia).
  assert (El : blen o = (Ok (zlen pkt), o)) by (by apply pb_len). pose proof (pb_bytes _ _ Po) as Eb.
  assert (Epk : peek 0 (zlen pkt) o = (Ok pkt, o)).
  { rewrite (pb_peek o pkt) by (done || lia). by rewrite zdrop_0, ztake_all by lia. }
  destruct (pb_reserve (pe_np E) (zlen pkt + keys_authlen nk) _ _ Pout) as (b1 & junk & E1 & P1 & L1); [lia | lia | lia |].
  destruct (pb_fill b1 out junk y P1 By) as (b2 & E2 & P2 & O2); [lia|].
  assert (Hu : u32 (zlen pkt - aad) = zlen pkt - aad) by (apply u32_small; lia).
  unfold seal_packet. pget. rewrite Ek. fold q aad.
  destruct (mac_on (keys_mac nk)) eqn:On; cbn [andb].
  2: { rewrite bind_ret_l. run_at @on_outgoing_ok Eo El. output_step E1. out_step Eb. rewrite Hu.
       run_at @on_send_context_ok Ee C. output_step E2. exists b2, (y ++ []), nk, e'. rewrite app_nil_r. split_and!; [|done|].
       - unfold ret, sealed. f_equal. rewrite <- Ek, <- Eo. by destruct s.
       - rewrite <- (app_nil_r y). apply (wp_intro nk e q payload pad y []); try done.
         + unfold mac_part. by rewrite On.
         + unfold keys_maclen. unfold mac_on in On. destruct (keys_mac nk) as [m|]; [by rewrite On | done]. }
  destruct (keys_mac nk) as [m|] eqn:Km; [|done]. cbn [mac_on mac_is_etm] in *.
  destruct (keys_mac_some _ _ Km) as (k & Enk & Em & A0). rewrite A0, Z.add_0_r in *. subst m.
  pose proof (ag_mac _ _ _ (proj2 Ag)) as Gm. rewrite Km in Gm. destruct (keys_mac nk2) as [m2|]; [|done].
  destruct (mac_compute_agree (nk_mac k) m2 q (if mac_etm (nk_mac k) then y else pkt) Gm) as (t & m' & _ & T & _ & _ & Lt & Bt & _).
  pose proof (mac_agree_len _ _ Gm).
  destruct (pb_put (pe_np E) t b2 _ P2) as (b3 & E3 & P3); [lia | done | rewrite zlen_app; lia |].
  assert (W : wirepkt nk e q payload (y ++ t) (Some (set_nk_mac m' k)) e').
  { apply (wp_intro nk e q payload pad y t); try done.
    - unfold mac_part. rewrite Km. cbn [mac_on]. rewrite On. by exists k, m'.
    - unfold keys_maclen. by rewrite Km, On. }
  rewrite <- app_assoc in P3. exists b3, (y ++ t), (Some (set_nk_mac m' k)), e'. rewrite Enk in Ek.
  destruct (mac_etm (nk_mac k)); cbn [negb].
  - rewrite bind_ret_l. run_at @on_outgoing_ok Eo El. output_step E1. out_step Eb. rewrite Hu.
    run_at @on_send_context_ok Ee C. output_step E2.
    assert (E4 : mem_peek (sb_off b1 + zlen out) (zlen pkt) b2 = (Ok y, b2)).
    { rewrite <- O2. rewrite (pb_mem_peek b2 _ (zlen out) (zlen pkt) P2) by (rewrite ?zlen_app; lia || apply zlen_nonneg).
      pose proof (zlen_nonneg out). rewrite zdrop_app_ge, Z.sub_diag, zdrop_0, ztake_all by lia. done. }
    rewrite bind_assoc. output_step E4. run_at @on_mac_out_ok Ek (T (pe_um E)).
    split_and!; [|done|done]. erewrite on_output_ok by exact E3. unfold sealed. f_equal. rewrite <- Eo. by destruct s.
  - rewrite bind_assoc. run_at @on_outgoing_ok Eo Epk. run_at @on_mac_out_ok Ek (T (pe_um E)).
    out_step El. output_step E1. out_step Eb. rewrite Hu.
    run_at @on_send_context_ok Ee C. output_step E2. rewrite bind_ret_l.
    split_and!; [|done|done]. erewrite on_output_ok by exact E3. unfold sealed. f_equal. rewrite <- Eo. by destruct s.
Qed.
End Seal.

(** ** Sending a packet *)

(** The counters after a packet of [len] bytes. *)
Definition counted (len bs : Z) (ps : packet_state) : packet_state :=
  mk_packet_state (u32 (ps_seqnr ps + 1)) (ps_packets ps + 1) (u64 (ps_blocks ps + len / bs)) (u64 (ps_bytes ps + len)).

(** The sequence number may wrap, but not during the first key exchange. *)
Definition may_wrap (q : Z) s : Prop :=
  u32 (q + 1) <> 0 \/ exists k, s_kex s = Some k /\ Z.land (kx_flags k) KEX_INITIAL = 0.

Lemma count_sent_ok disc len bs s :
  may_wrap (ps_seqnr (s_p_send s)) s -> 0 <= ps_packets (s_p_send s) < 2 ^ 32 - 1 ->
  count_sent disc len bs s = (Ok tt, set_p_send (counted len bs (s_p_send s)) s).
Proof.
  intros W Hp. unfold count_sent. rewrite bind_update. pget. members. cbn [ps_seqnr].
  assert (Q : forall st, s_kex st = s_kex s ->
    (if u32 (ps_seqnr (s_p_send s) + 1) =? 0 then
       let! k := the_kex in if negb (Z.land (kx_flags k) KEX_INITIAL =? 0) then disc else ret tt
     else ret tt) st = (Ok tt, st)).
  { intros st Es. destruct W as [W|(k & Ek & Fk)]; [by rewrite (proj2 (Z.eqb_neq _ _) W)|].
    destruct (_ =? 0); [|done]. unfold bind, the_kex. by rewrite Es, Ek, Fk. }
  step_with (Q (set_p_send (mk_packet_state (u32 (ps_seqnr (s_p_send s) + 1)) (ps_packets (s_p_send s)) (ps_blocks (s_p_send s))
                              (ps_bytes (s_p_send s))) s) eq_refl).
  rewrite bind_update. pget. members. cbn [ps_packets ps_seqnr ps_blocks ps_bytes].
  rewrite (u32_small (ps_packets (s_p_send s) + 1)), (proj2 (Z.eqb_neq _ 0)) by lia. done.
Qed.

(** What a message may be: a type and data that fit in a packet. *)
Definition message (payload : list Z) : Prop :=
  Forall is_byte payload /\ 1 <= zlen payload <= PACKET_MAX_SIZE - 20.

(** The message changes neither the keys nor the compression of the sender. *)
Definition ordinary (payload : list Z) (server : bool) : Prop :=
  exists type, head payload = Some type /\ type <> SSH2_MSG_NEWKEYS /\ (type = SSH2_MSG_USERAUTH_SUCCESS -> server = false).

(** The state after an ordinary message. *)
Definition sent_state s (o bo : sshbuf) e' nk' (len : Z) : session_state V M U Zs :=
  set_outgoing_packet (Some o) (set_p_send (counted len (keys_block_size (s_newkeys_out s)) (s_p_send s)) (sealed s bo e' nk')).

Lemma send2_wrapped_ok disc E s o out nk nk2 e d h payload :
  penv_ok E -> agree nk nk2 e d -> s_newkeys_out s = nk -> s_send_context s = Some e -> s_outgoing_packet s = Some o ->
  pbuf o (h ++ payload) -> zlen h = 5 -> pbuf (s_output s) out -> s_extra_pad s = 0 ->
  message payload -> ordinary payload (s_server_side s) ->
  may_wrap (ps_seqnr (s_p_send s)) s -> 0 <= ps_packets (s_p_send s) < 2 ^ 32 - 1 ->
  zlen out + zlen payload + 104 <= SSHBUF_SIZE_MAX ->
  exists o' bo bytes nk' e' len, send2_wrapped disc E s = (Ok tt, sent_state s o' bo e' nk' len) /\
    pbuf o' [] /\ pbuf bo (out ++ bytes) /\ wirepkt nk e (ps_seqnr (s_p_send s)) payload bytes nk' e' /\
    zlen payload + 9 <= len <= zlen payload + 24.
Proof.
  intros HE Ag Ek Ee Eo Po Lh Pout Ex [Bp Lp] (type & Hty & Hnk & Hus) Hw Hpk Hroom.
  destruct (agree_facts _ _ _ _ Ag) as (Hbs & _ & Haad & _). destruct (ag_comp _ _ _ (proj2 Ag)) as [Hc _].
  set (n := padding (zlen payload + 5 - keys_aadlen nk) (keys_block_size nk)).
  destruct (padding_bounds (zlen payload + 5 - keys_aadlen nk) (keys_block_size nk) Hbs) as [Hn Hmod]. fold n in Hn, Hmod.
  pose proof (pad_bytes_ok E s n HE ltac:(lia)) as [Lpad Bpad]. unfold PACKET_MAX_SIZE in Lp.
  destruct (pad_packet_ok E s o e h payload n HE Eo Ee Po Lh) as (o1 & E1 & P1); [lia | lia |].
  set (s1 := set_outgoing_packet (Some o1) s). pose proof (plain_packet_len payload (pad_bytes E s n)) as Lpk.
  destruct (seal_packet_ok E s1 o1 out nk nk2 e d payload (pad_bytes E s n)) as (bo & bytes & nk' & e' & E2 & P2 & W);
    try done; try (unfold PACKET_MAX_SIZE; lia).
  { rewrite Lpk, Lpad. rewrite <- Hmod. f_equal. lia. }
  destruct (pb_reset (pe_np E) _ _ P1) as (o2 & E3 & P3).
  exists o2, bo, bytes, nk', e', (zlen payload + n + 5). split_and!; [|done | done | done | lia | lia].
  unfold send2_wrapped. pget. rewrite Ek, Hc.
  assert (Et : peek 5 1 o = (Ok [type], o)).
  { rewrite (pb_peek o _ 5 1 Po) by (rewrite ?zlen_app; lia). rewrite zdrop_app_ge, Lh by lia.
    destruct payload as [|x payload]; [done|]. injection Hty as ->. done. }
  run_at @on_outgoing_same Eo Et. cbn [head]. step_with (defined_ok type s). rewrite bind_ret_l.
  run_at @on_outgoing_same Eo (pb_len _ _ Po). rewrite zlen_app, Lh, (u32_small (5 + _)), u32_small by lia.
  replace (5 + zlen payload - keys_aadlen nk) with (zlen payload + 5 - keys_aadlen nk) by lia.
  step_with (pad_length_0 (zlen payload + 5 - keys_aadlen nk) (keys_block_size nk) s Ex Hbs ltac:(lia)). fold n.
  step_with E1. replace (zlen payload + n + 5) with (zlen (plain_packet payload (pad_bytes E s n))) by lia. step_with E2.
  step_with (count_sent_ok disc (zlen (plain_packet payload (pad_bytes E s n))) (keys_block_size nk) (sealed s1 bo e' nk') Hw Hpk).
  out_step E3. rewrite (proj2 (Z.eqb_neq type SSH2_MSG_NEWKEYS)) by done. pget. members.
  assert (Us : (type =? SSH2_MSG_USERAUTH_SUCCESS) && s_server_side s = false).
  { destruct (type =? _) eqn:C; [|done]. zbool. cbn. by apply Hus. }
  unfold s1, sealed. members. rewrite Us. unfold ret, sent_state, sealed. by rewrite Ek.
Qed.
End Send.
