(* ===== verification/PacketRecv.v ===== *)
(** * The packet layer: what a receiver makes of the wire

    [ssh_packet_read_poll2] on the bytes a sender produced: it waits until the
    packet is complete, checks and decrypts it, and delivers the payload. *)
From S2P Require Import Prelude Sshbuf SshbufGetput CString SshbufMisc Words Chacha ChachaPoly Cipher Hmac Mac PacketState Packet PacketBuf PacketSend.

Section Recv.
Context {V M U Zs : Type} `{EVPLaws V} `{EVP_MDLaws M} `{UMACLaws U} `{ZLIB Zs}.
Implicit Types s : session_state V M U Zs.
Implicit Types nk : option (newkeys M U).
Implicit Types e d : sshcipher_ctx V.

Lemma kagree_sizes nk nk2 c : kagree nk nk2 c ->
  keys_block_size nk2 = keys_block_size nk /\ keys_authlen nk2 = keys_authlen nk /\ keys_aadlen nk2 = keys_aadlen nk /\
  keys_maclen nk2 = keys_maclen nk /\ mac_on (keys_mac nk2) = mac_on (keys_mac nk) /\
  mac_is_etm (keys_mac nk2) = mac_is_etm (keys_mac nk).
Proof.
  intros [[B1 B2] [A1 A2] _ Gm]. unfold keys_aadlen, keys_maclen. rewrite A1, A2.
  destruct (keys_mac nk) as [m1|], (keys_mac nk2) as [m2|]; try done; cbn [mac_on mac_is_etm].
  - destruct Gm as [Ge Gl _ Gt _]. rewrite Ge, Gl, Gt, B1, B2. done.
  - split_and!; congruence.
Qed.

(** A packet of which the prefix [px] has been decrypted and the bytes
    [z ++ t], ciphertext and code, are to come. *)
Record opening nk e (q : Z) d (pkt px z t : list Z) (need : Z) nk' e' : Prop := {
  op_need : 0 <= need <= PACKET_MAX_SIZE /\ need mod keys_block_size nk = 0;
  op_len : zlen z = keys_aadlen nk + need + keys_authlen nk;
  op_split : px = ztake (zlen px) pkt /\ zlen pkt = zlen px + keys_aadlen nk + need /\ zlen px <= 16;
  op_crypt tmp rest : scratch tmp -> exists d',
    cipher_crypt tmp q (z ++ rest) need (keys_aadlen nk) (keys_authlen nk) d = (Ok (zdrop (zlen px) pkt), d') /\ ctx_synced e' d';
  op_mac : mac_part nk q pkt z t nk' /\ zlen t = keys_maclen nk;
  op_cipher : cc_cipher e' = cc_cipher e;
  op_bytes : Forall is_byte pkt;
}.

(** The check of the code at the receiver. *)
Lemma mac_part_check nk nk2 c q pkt y t nk' : kagree nk nk2 c -> mac_on (keys_mac nk) = true -> mac_part nk q pkt y t nk' ->
  zlen t = keys_maclen nk ->
  exists k2 m2', nk2 = Some k2 /\ kagree nk' (Some (set_nk_mac m2' k2)) c /\
    forall um rest, mac_check um q (if mac_is_etm (keys_mac nk) then y else pkt) (t ++ rest) (keys_maclen nk) (nk_mac k2) = (Ok tt, m2').
Proof.
  intros Ka On Mp Lt. unfold mac_part in Mp. rewrite On in Mp. destruct Mp as (k & m' & -> & Cm & ->).
  pose proof Ka as [[B1 B2] [A1 A2] [C1 C2] Gm]. unfold mac_on in On.
  destruct (keys_mac (Some k)) as [m|] eqn:Km; [|done]. destruct (keys_mac nk2) as [m2|] eqn:Km2; [|done].
  destruct (keys_mac_some _ _ Km) as (k' & [= <-] & <- & Ka0). destruct (keys_mac_some _ _ Km2) as (k2 & -> & <- & Kb0).
  destruct (mac_compute_agree _ _ q (if mac_etm (nk_mac k) then y else pkt) Gm) as (t0 & n1 & n2 & E1 & E2 & G' & L0 & _).
  pose proof (Cm []) as E0. rewrite E1 in E0. injection E0 as -> ->.
  exists k2, n2. split_and!; [done | |].
  - constructor; [done | done | done |]. by rewrite !keys_mac_set.
  - intros um rest. unfold keys_maclen. rewrite Km, On. cbn [mac_is_etm].
    unfold mac_check. rewrite bind_get, (mg_len _ _ Gm), (proj2 (Z.ltb_ge _ _)) by lia.
    rewrite (bind_ok _ _ _ _ _ (E2 um)), <- L0, mem_read_front. unfold bind, defined. by rewrite bool_decide_true.
Qed.

Section Open.
Context (E : penv) (s : session_state V M U Zs) (nk nk2 nk' : option (newkeys M U)) (e d e' : sshcipher_ctx V).
Context (pkt px z t i : list Z) (need : Z).
Let q := ps_seqnr (s_p_read s).
Context (HE : penv_ok E) (Ka : kagree nk nk2 (cc_cipher e)) (Op : opening nk e q d pkt px z t need nk' e').
Context (Ek : s_newkeys_in s = nk2) (Ed : s_receive_context s = Some d).
Context (Pin : pbuf (s_input s) i) (Pinc : pbuf (s_incoming_packet s) px).
Context (Hbs : keys_block_size nk = 8 \/ keys_block_size nk = 16) (Haad : keys_aadlen nk = 0 \/ keys_aadlen nk = 4).
Context (Hauth : keys_authlen nk = 0 \/ keys_authlen nk = 16) (Hmac : 0 <= keys_maclen nk <= 64).
Context (Hneed : (if negb (keys_aadlen nk =? 0) then s_packlen s else u32 (4 + s_packlen s - keys_block_size nk)) = need).

Lemma open_packet_short : zlen i < zlen z + zlen t -> open_packet E s = (Ok false, s).
Proof.
  intros Hi. destruct (kagree_sizes _ _ _ Ka) as (B & A & Aa & Ml & On & Et).
  destruct Op as [[Hn Hm] Lz _ _ [_ Lt] _ _].
  unfold open_packet. pget. rewrite Ek, B, A, Aa, Ml, On, Et, Hneed, Hm. cbn [Z.eqb negb].
  step_with (on_input_same _ _ _ (pb_len _ _ Pin)). unfold PACKET_MAX_SIZE in Hn.
  rewrite u32_small, (proj2 (Z.ltb_lt _ _)) by lia. done.
Qed.

(** The state after the packet was opened. *)
Definition opened (bi bin : sshbuf) (d' : sshcipher_ctx V) (nk2' : option (newkeys M U)) : session_state V M U Zs :=
  set_input bi (set_incoming_packet bin (set_receive_context (Some d') (set_newkeys_in nk2' s))).

Lemma open_packet_ok i' : i = (z ++ t) ++ i' ->
  exists bi bin d' nk2', open_packet E s = (Ok true, opened bi bin d' nk2') /\ pbuf bi i' /\ pbuf bin pkt /\ agree nk' nk2' e' d'.
Proof.
  intros Hi. destruct (kagree_sizes _ _ _ Ka) as (B & A & Aa & Ml & On & Et).
  pose proof Op as [[Hn Hm] Lz (Epx & Lpk & Lpx) Cr [Mp Lt] Ec Bp]. unfold PACKET_MAX_SIZE in Hn. pose proof (po_np _ HE) as Hnp.
  pose proof (zlen_nonneg px). pose proof (zlen_nonneg i').
  destruct (Cr (pe_tmp E) (t ++ i') (po_tmp _ HE)) as (d' & C & Sd). rewrite app_assoc, <- Hi in C.
  destruct (pb_reserve (pe_np E) (keys_aadlen nk + need) _ _ Pinc) as (b1 & junk & E1 & P1 & L1); [lia | lia | sb_consts; lia |].
  destruct (pb_fill b1 px junk (zdrop (zlen px) pkt) P1) as (b2 & E2 & P2 & O2); [by apply Forall_zdrop | zl |].
  rewrite Epx in P2 at 1. rewrite ztake_zdrop in P2.
  destruct (pb_consume (keys_aadlen nk + need + keys_authlen nk) _ _ Pin) as (i1 & E3 & P3); [rewrite Hi, !zlen_app; lia|].
  rewrite Hi, <- app_assoc, zdrop_app_ge, Lz, Z.sub_diag, zdrop_0 in P3 by lia.
  unfold open_packet. pget. rewrite Ek, B, A, Aa, Ml, On, Et, Hneed, Hm. cbn [Z.eqb negb].
  step_with (on_input_same _ _ _ (pb_len _ _ Pin)).
  rewrite u32_small, (proj2 (Z.ltb_ge _ _)) by (rewrite ?Hi, ?zlen_app; lia).
  step_with (on_input_same _ _ _ (pb_bytes _ _ Pin)).
  destruct (mac_on (keys_mac nk)) eqn:Mo; cbn [andb].
  2: { rewrite bind_ret_l. in_step E1. run_at @on_receive_context_ok Ed C. in_step E2. input_step E3.
       unfold mac_part in Mp. rewrite Mo in Mp. destruct Mp as [-> ->]. exists i1, b2, d', nk2. split_and!; [| done | done |].
       - unfold ret, opened. f_equal. rewrite <- Ek. by destruct s.
       - split; [done|]. by rewrite Ec. }
  destruct (mac_part_check _ _ _ _ _ _ _ _ Ka Mo Mp Lt) as (k2 & m2' & Ek2 & Ka' & Ck). rewrite Ek2 in Ek.
  assert (A0 : keys_authlen nk = 0).
  { unfold mac_on in Mo. destruct (keys_mac nk) as [m|] eqn:Km; [|done]. by destruct (keys_mac_some _ _ Km) as (? & _ & _ & ?). }
  rewrite A0, Z.add_0_r in *.
  destruct (pb_consume (keys_maclen nk) _ _ P3) as (i2 & E4 & P4); [rewrite zlen_app; lia|].
  rewrite zdrop_app_ge, Lt, Z.sub_diag, zdrop_0 in P4 by lia.
  exists i2, b2, d', (Some (set_nk_mac m2' k2)). destruct (mac_is_etm (keys_mac nk)); cbn [negb].
  - assert (Er : mem_read i 0 (keys_aadlen nk + need) = Some z).
    { rewrite Hi, <- app_assoc, <- Lz. apply mem_read_front. }
    assert (Ed2 : zdrop (keys_aadlen nk + need) i = t ++ i').
    { rewrite Hi, <- app_assoc, zdrop_app_ge, <- Lz, Z.sub_diag, zdrop_0 by lia. done. }
    rewrite Er, Ed2, bind_assoc. step_with (defined_ok z s). run_at @on_mac_in_ok Ek (Ck (pe_um E) i').
    in_step E1. run_at @on_receive_context_ok Ed C. in_step E2. input_step E3. rewrite bind_ret_l. input_step E4.
    split; [done|]. split; [done|]. split; [done|]. split; [done|]. by rewrite Ec.
  - rewrite bind_ret_l. in_step E1. run_at @on_receive_context_ok Ed C. in_step E2. input_step E3.
    rewrite bind_assoc. in_step (pb_bytes _ _ P2). rewrite bind_assoc. input_step (pb_bytes _ _ P3).
    erewrite bind_ok.
    2: { erewrite on_mac_in_ok; [reflexivity | exact Ek | exact (Ck (pe_um E) i')]. }
    cbv iota. input_step E4.
    split; [done|]. split; [done|]. split; [done|]. split; [done|]. by rewrite Ec.
Qed.
End Open.

(** ** The length of a packet *)

Lemma plain_packet_length payload pad : zlen payload + zlen pad + 1 <= PACKET_MAX_SIZE ->
  PEEK_U32 (ztake 4 (plain_packet payload pad)) = Some (zlen payload + zlen pad + 1) /\
  be (ztake 4 (plain_packet payload pad)) = zlen payload + zlen pad + 1.
Proof.
  intros Hl. unfold plain_packet. rewrite ztake_app_le, ztake_all by (rewrite POKE_U32_len; lia).
  pose proof (zlen_nonneg payload). pose proof (zlen_nonneg pad). unfold PACKET_MAX_SIZE in Hl.
  assert (Hb : be (POKE_U32 (zlen payload + zlen pad + 1)) = zlen payload + zlen pad + 1).
  { rewrite be_POKE_U32. apply u32_small. lia. }
  split; [|done]. rewrite PEEK_U32_be, Hb; [done | done | apply POKE_U32_bytes].
Qed.

Lemma prefix_take {A} (i r b t : list A) n : i ++ r = b ++ t -> n <= zlen i -> n <= zlen b -> ztake n i = ztake n b.
Proof. intros Hq Hi Hb. rewrite <- (ztake_app_le n i r), <- (ztake_app_le n b t), Hq by done. done. Qed.

Section Length.
Context (E : penv) (s : session_state V M U Zs) (nk nk2 nk' : option (newkeys M U)) (e d e' : sshcipher_ctx V).
Context (payload pad y t i rest rest' : list Z).
Let q := ps_seqnr (s_p_read s).
Let pkt := plain_packet payload pad.
Let n := zlen payload + zlen pad + 1.
Let aad := keys_aadlen nk.
Let bs := keys_block_size nk.
Context (HE : penv_ok E) (Ag : agree nk nk2 e d).
Context (Ek : s_newkeys_in s = nk2) (Ed : s_receive_context s = Some d) (Ep : s_packlen s = 0).
Context (Pin : pbuf (s_input s) i) (inc : list Z) (Pinc : pbuf (s_incoming_packet s) inc).

Lemma read_length_wait : zlen i < (if negb (aad =? 0) then 4 else bs) -> read_length E s = (Ok false, s).
Proof.
  intros Hi. destruct Ag as [Sy Ka]. destruct (kagree_sizes _ _ _ Ka) as (B & _ & Aa & _).
  unfold read_length. pget. rewrite Ep, Ek, Aa, B. cbn [Z.eqb negb]. fold aad bs.
  destruct (negb (aad =? 0)).
  - step_with (on_input_same _ _ _ (pb_bytes _ _ Pin)). pose proof (zlen_nonneg i). rewrite u32_small by lia.
    unfold bind at 1, on_receive_context. rewrite Ed, (get_length_short _ _ i d) by lia. rewrite <- Ed. by destruct s.
  - step_with (on_input_same _ _ _ (pb_len _ _ Pin)). by rewrite (proj2 (Z.ltb_lt _ _)) by lia.
Qed.

Context (Hpl : Forall is_byte payload) (Hpd : Forall is_byte pad) (Lpd : 4 <= zlen pad < 256) (Lpl : 1 <= zlen payload).
Context (Hmax : n <= PACKET_MAX_SIZE) (Hb : (zlen pkt - aad) mod bs = 0).
Context (En : encrypted e q (ztake aad pkt) (zdrop aad pkt) y e') (Mp : mac_part nk q pkt y t nk') (Lt : zlen t = keys_maclen nk).
Context (Stream : i ++ rest = (y ++ t) ++ rest').

(** The state once the length is known. *)
Definition measured (bi binc : sshbuf) (d' : sshcipher_ctx V) : session_state V M U Zs :=
  set_packlen n (set_input bi (set_incoming_packet binc (set_receive_context (Some d') s))).

Definition length_known : Prop := exists bi binc d' px z need i1,
  read_length E s = (Ok true, measured bi binc d') /\ pbuf bi i1 /\ pbuf binc px /\
  opening nk e q d' pkt px z t need nk' e' /\ i1 ++ rest = (z ++ t) ++ rest' /\
  (if negb (aad =? 0) then n else u32 (4 + n - bs)) = need /\ cc_cipher d' = cc_cipher d.

Lemma read_length_clear : aad = 4 -> 4 <= zlen i -> length_known.
Proof.
  intros Ha Hi. pose proof Ag as [Sy Ka]. destruct (kagree_sizes _ _ _ Ka) as (B & _ & Aa & _).
  destruct (agree_facts _ _ _ _ Ag) as (Hbs & _). fold bs in Hbs. pose proof (pbuf_bytes _ _ Pin) as Bi.
  pose proof (plain_packet_len payload pad) as L. fold pkt in L. pose proof (po_np _ HE). unfold PACKET_MAX_SIZE in Hmax.
  destruct (plain_packet_length payload pad Hmax) as [_ Hbe]. fold pkt n in Hbe.
  pose proof (en_len _ _ _ _ _ _ En) as Ly. rewrite Ha in *.
  assert (zlen (ztake 4 pkt) = 4 /\ zlen (zdrop 4 pkt) = n) as [L4 Ln] by (split; unfold n; zl).
  destruct Ka as [[B1 _] [A1 _] _ _]. rewrite L4, Ln, <- A1 in Ly. destruct (agree_facts _ _ _ _ Ag) as (_ & Hau & _).
  pose proof (pbuf_len_max _ _ Pin). 
  destruct (en_length _ _ _ _ _ _ En (pe_tmp E) d i (po_tmp _ HE) Sy L4 Bi Hi) as (d' & Ge & Sd).
  { rewrite <- app_assoc in Stream. apply (prefix_take _ _ _ _ 4 Stream); lia. }
  destruct (pb_reset (pe_np E) _ _ Pinc) as (binc & Er & Pr).
  exists (s_input s), binc, d', [], y, n, i. split_and!; try done.
  - unfold read_length. pget. rewrite Ep, Ek, Aa. cbn [Z.eqb negb]. fold aad. rewrite Ha. cbn [Z.eqb negb].
    step_with (on_input_same _ _ _ (pb_bytes _ _ Pin)). rewrite u32_small by (sb_consts; lia).
    unfold bind at 1, on_receive_context. rewrite Ed. fold q. rewrite Ge. cbv beta iota zeta. rewrite bind_update, Hbe.
    unfold bad_packlen. rewrite (proj2 (Z.ltb_ge _ _)), (proj2 (Z.ltb_ge _ _)) by (unfold PACKET_MAX_SIZE, n; lia). cbn [orb].
    in_step Er. unfold ret, measured. by destruct s.
  - constructor; fold aad bs; rewrite ?Ha; try done.
    + unfold PACKET_MAX_SIZE. split; [unfold n; lia|]. rewrite <- Hb. f_equal. unfold n. lia.
    + rewrite ztake_0 by (rewrite zlen_nil; lia). rewrite zlen_nil. unfold n. split_and!; [done | lia | lia].
    + intros tmp r0 Hs. destruct (en_open _ _ _ _ _ _ En tmp d' r0 Hs Sd) as (d2 & C & S2). exists d2. split; [|done].
      rewrite L4, Ln, ztake_zdrop, <- A1 in C. rewrite zlen_nil, (zdrop_0 0) by lia. exact C.
    + by rewrite (en_cipher _ _ _ _ _ _ En).
    + apply plain_packet_bytes; [done | done | lia].
  - by rewrite Ha.
  - destruct Sy as (_ & -> & _), Sd as (_ & -> & _). done.
Qed.

Lemma read_length_crypt : aad = 0 -> bs <= zlen i -> length_known.
Proof.
  intros Ha Hi. pose proof Ag as [Sy Ka]. destruct (kagree_sizes _ _ _ Ka) as (B & _ & Aa & _).
  destruct (agree_facts _ _ _ _ Ag) as (Hbs & Hau & _ & Hau4). fold bs aad in Hbs, Hau4. pose proof (po_np _ HE).
  pose proof (plain_packet_len payload pad) as L. fold pkt in L. unfold PACKET_MAX_SIZE in Hmax.
  destruct (plain_packet_length payload pad Hmax) as [Hpk _]. fold pkt n in Hpk.
  assert (A0 : keys_authlen nk = 0) by lia. rewrite Ha, Z.sub_0_r in Hb.
  assert (Hge : bs <= zlen pkt) by (destruct Hbs as [-> | ->]; Z.div_mod_to_equations; lia).
  assert (En' : encrypted e q [] pkt y e') by (rewrite Ha, ztake_0, zdrop_0 in En by lia; done).
  pose proof Ka as [[B1 _] [A1 _] _ _]. pose proof (en_len _ _ _ _ _ _ En') as Ly. rewrite zlen_nil, <- A1, A0 in Ly.
  destruct (en_blocks _ _ _ _ _ _ En' d bs Sy) as (d1 & d2 & Ec & C1 & C2 & S2); [done | lia | lia | |].
  { rewrite <- B1. fold bs. by destruct Hbs as [-> | ->]. }
  assert (Ei : i = ztake bs y ++ zdrop bs i).
  { rewrite <- (ztake_zdrop bs i) at 1. f_equal. rewrite <- app_assoc in Stream. apply (prefix_take _ _ _ _ bs Stream); lia. }
  destruct (pb_reset (pe_np E) _ _ Pinc) as (b0 & E0 & P0).
  destruct (pb_reserve (pe_np E) bs _ _ P0) as (b1 & junk & E1 & P1 & L1); [lia | lia | rewrite zlen_nil; sb_consts; lia |].
  assert (Bp : Forall is_byte pkt) by (apply plain_packet_bytes; [done | done | lia]).
  destruct (pb_fill b1 [] junk (ztake bs pkt) P1) as (b2 & E2 & P2 & O2); [by apply Forall_ztake | zl |]. cbn [app] in P2.
  destruct (pb_consume bs _ _ Pin) as (i1 & E3 & P3); [lia|].
  assert (Epk : peek 0 4 b2 = (Ok (ztake 4 pkt), b2)).
  { rewrite (pb_peek b2 _ 0 4 P2) by (rewrite ?zlen_take; lia). rewrite zdrop_0, ztake_ztake by lia. do 3 f_equal. lia. }
  exists i1, b2, d1, (ztake bs pkt), (zdrop bs y), (zlen pkt - bs), (zdrop bs i). split_and!; try done.
  - unfold read_length. pget. rewrite Ep, Ek, Aa, B. cbn [Z.eqb negb]. fold aad bs. rewrite Ha. cbn [Z.eqb negb].
    step_with (on_input_same _ _ _ (pb_len _ _ Pin)). rewrite (proj2 (Z.ltb_ge _ _)) by lia.
    in_step E0. in_step E1. erewrite bind_ok; [|apply on_input_same; exact (pb_bytes _ _ Pin)]. cbv beta zeta.
    pose proof (C1 (pe_tmp E) (ps_seqnr (s_p_send s)) (zdrop bs i)) as C. rewrite <- Ei in C.
    run_at @on_receive_context_ok Ed C. in_step E2. erewrite bind_ok; [|apply on_incoming_same; exact Epk]. cbv beta zeta.
    rewrite Hpk. erewrite bind_ok; [|apply defined_ok]. cbv beta. rewrite bind_update.
    unfold bad_packlen. rewrite (proj2 (Z.ltb_ge _ _)), (proj2 (Z.ltb_ge _ _)) by (unfold PACKET_MAX_SIZE, n; lia). cbn [orb].
    input_step E3. done.
  - assert (Lz : zlen (ztake bs pkt) = bs) by zl. constructor; fold aad bs; rewrite ?Ha, ?A0, ?Lz; try done.
    + unfold PACKET_MAX_SIZE. split; [lia|]. rewrite Zminus_mod, Hb. by destruct Hbs as [-> | ->].
    + rewrite zlen_drop. lia.
    + split_and!; [done | lia | lia].
    + intros tmp r0 _. exists d2. by split.
    + unfold mac_part in *. destruct (mac_on (keys_mac nk)) eqn:Mo; [|done].
      destruct Mp as (k & m' & Enk & Cm & ->). split; [|done]. exists k, m'. split_and!; [done | | done].
      assert (Et : mac_etm (nk_mac k) = false); [|by rewrite Et in *].
      unfold aad, keys_aadlen in Ha. rewrite Mo in Ha. unfold keys_mac in *. rewrite Enk, <- Enk, A0 in *. cbn in Ha.
      by destruct (mac_etm (nk_mac k)).
    + by rewrite (en_cipher _ _ _ _ _ _ En').
  - apply (app_inv_head (ztake bs y)). rewrite !app_assoc, ztake_zdrop, <- Ei. exact Stream.
  - rewrite Ha. cbn [Z.eqb negb]. unfold n. rewrite u32_small by lia. lia.
Qed.
End Length.

(** ** After the packet was opened *)

Lemma count_read_ok E s : may_wrap (ps_seqnr (s_p_read s)) s -> 0 <= ps_packets (s_p_read s) < 2 ^ 32 - 1 ->
  0 <= s_packlen s <= PACKET_MAX_SIZE ->
  count_read E s = (Ok (ps_seqnr (s_p_read s)),
                    set_p_read (counted (s_packlen s + 4) (keys_block_size (s_newkeys_in s)) (s_p_read s)) s).
Proof.
  intros W Hp Hl. unfold PACKET_MAX_SIZE in Hl. unfold count_read. pget. rewrite bind_update. pget. members. cbn [ps_seqnr].
  assert (Q : forall st, s_kex st = s_kex s ->
    (if u32 (ps_seqnr (s_p_read s) + 1) =? 0 then
       let! k := the_kex in if negb (Z.land (kx_flags k) KEX_INITIAL =? 0) then ssh_packet_disconnect E IN_WRAP else ret tt
     else ret tt) st = (Ok tt, st)).
  { intros st Es. destruct W as [W|(k & Ek & Fk)]; [by rewrite (proj2 (Z.eqb_neq _ _) W)|].
    destruct (_ =? 0); [|done]. unfold bind, the_kex. by rewrite Es, Ek, Fk. }
  step_with (Q (set_p_read (mk_packet_state (u32 (ps_seqnr (s_p_read s) + 1)) (ps_packets (s_p_read s)) (ps_blocks (s_p_read s))
                              (ps_bytes (s_p_read s))) s) eq_refl).
  rewrite bind_update. pget. members. cbn [ps_packets ps_seqnr ps_blocks ps_bytes].
  rewrite (u32_small (ps_packets (s_p_read s) + 1)), (proj2 (Z.eqb_neq _ 0)) by lia.
  rewrite u32_small by lia. done.
Qed.

Lemma unpad_packet_ok E s payload pad : pbuf (s_incoming_packet s) (plain_packet payload pad) -> 4 <= zlen pad < 256 ->
  keys_comp (s_newkeys_in s) = false ->
  exists b, unpad_packet E s = (Ok tt, set_incoming_packet b s) /\ pbuf b payload.
Proof.
  intros P Hp Hc. pose proof (plain_packet_len payload pad) as L. pose proof (zlen_nonneg payload).
  destruct (pb_consume (4 + 1) _ _ P) as (b1 & E1 & P1); [lia|].
  assert (Ed : zdrop (4 + 1) (plain_packet payload pad) = payload ++ pad).
  { unfold plain_packet. rewrite zdrop_app_ge by (rewrite POKE_U32_len; lia). done. }
  rewrite Ed in P1. destruct (pb_consume_end (zlen pad) _ _ P1) as (b2 & E2 & P2); [rewrite zlen_app; lia|].
  rewrite zlen_app, ztake_app_le, ztake_all in P2 by lia.
  assert (Epk : peek 4 1 (s_incoming_packet s) = (Ok [zlen pad], s_incoming_packet s)).
  { rewrite (pb_peek _ _ 4 1 P) by lia. unfold plain_packet. rewrite zdrop_app_ge by (rewrite POKE_U32_len; lia). done. }
  exists b2. split; [|done]. unfold unpad_packet. step_with (on_incoming_same _ _ _ Epk). cbn [head].
  step_with (defined_ok (zlen pad) s). rewrite (proj2 (Z.ltb_ge _ _)) by lia.
  in_step E1. in_step E2. pget. members. by rewrite Hc.
Qed.

(** No key exchange is due, also after one more packet. *)
Record calm (E : penv) s : Prop := {
  ca_time : s_rekey_interval s = 0 \/ pe_now E < s_rekey_time s + s_rekey_interval s;
  ca_packets : ps_packets (s_p_send s) <= MAX_PACKETS /\ 0 <= ps_packets (s_p_read s) < MAX_PACKETS;
  ca_blocks_in hard : let m := if hard : bool then s_hard_max_blocks_in s else s_max_blocks_in s in
    m = 0 \/ ps_blocks (s_p_read s) + (PACKET_MAX_SIZE + 4) / 8 <= m;
  ca_blocks_out hard : let m := if hard : bool then s_hard_max_blocks_out s else s_max_blocks_out s in
    m = 0 \/ ps_blocks (s_p_send s) <= m;
  ca_counters : 0 <= ps_blocks (s_p_read s) /\ 0 <= ps_blocks (s_p_send s);
  ca_block_size k : s_newkeys_out s = Some k -> enc_block_size (nk_enc k) = 8 \/ enc_block_size (nk_enc k) = 16;
}.

Lemma u64_le x : 0 <= x -> u64 x <= x.
Proof. intros. unfold u64. apply Z.mod_le; lia. Qed.

(** The limits of a session [s'] that differs from a calm one by one packet. *)
Lemma calm_blocklimit E s s' hard len bs : calm E s -> 0 <= len <= PACKET_MAX_SIZE + 4 -> bs = 8 \/ bs = 16 ->
  s_p_send s' = s_p_send s -> s_p_read s' = counted len bs (s_p_read s) -> s_newkeys_out s' = s_newkeys_out s ->
  (if hard : bool then s_hard_max_blocks_in s' = s_hard_max_blocks_in s /\ s_hard_max_blocks_out s' = s_hard_max_blocks_out s
   else s_max_blocks_in s' = s_max_blocks_in s /\ s_max_blocks_out s' = s_max_blocks_out s) ->
  ssh_packet_check_rekey_blocklimit s' 0 hard = false.
Proof.
  intros [_ [Hp1 Hp2] Hi Ho [C1 C2] Hb] Hlen Hbs E1 E2 E3 E4. unfold ssh_packet_check_rekey_blocklimit.
  rewrite E1, E2, E3. cbn [counted ps_packets ps_blocks].
  rewrite (proj2 (Z.ltb_ge _ _)), (proj2 (Z.ltb_ge _ _)) by lia. cbn [orb].
  destruct (s_newkeys_out s) as [k|] eqn:Ek; [|done]. specialize (Hb k eq_refl).
  assert (R : ROUNDUP32 0 (enc_block_size (nk_enc k)) = 0) by (destruct Hb as [-> | ->]; done). rewrite R, Z.add_0_r.
  specialize (Hi hard). specialize (Ho hard). cbv zeta in Hi, Ho.
  pose proof (u64_le (ps_blocks (s_p_send s)) C2).
  assert (0 <= len / bs <= (PACKET_MAX_SIZE + 4) / 8) by (unfold PACKET_MAX_SIZE in *; destruct Hbs as [-> | ->]; Z.div_mod_to_equations; lia).
  pose proof (u64_le (ps_blocks (s_p_read s) + len / bs)).
  apply orb_false_iff. split; apply andb_false_iff; rewrite negb_false_iff, Z.eqb_eq, Z.ltb_ge;
    destruct hard; destruct E4 as [Q1 Q2]; rewrite ?Q1, ?Q2; lia.
Qed.

Lemma check_rekey_ok E s s' len bs : calm E s -> 0 <= len <= PACKET_MAX_SIZE + 4 -> bs = 8 \/ bs = 16 ->
  s_p_send s' = s_p_send s -> s_p_read s' = counted len bs (s_p_read s) -> s_newkeys_out s' = s_newkeys_out s ->
  s_hard_max_blocks_in s' = s_hard_max_blocks_in s -> s_hard_max_blocks_out s' = s_hard_max_blocks_out s ->
  s_max_blocks_in s' = s_max_blocks_in s -> s_max_blocks_out s' = s_max_blocks_out s ->
  s_rekey_interval s' = s_rekey_interval s -> s_rekey_time s' = s_rekey_time s ->
  ssh_packet_check_rekey E s' = (Ok tt, s').
Proof.
  intros C Hl Hbs E1 E2 E3 H1i H1o H2i H2o Ei Et. unfold ssh_packet_check_rekey, ssh_packet_check_rekey_preauth.
  pose proof (calm_blocklimit E s s' true len bs C Hl Hbs E1 E2 E3 (conj H1i H1o)) as L1.
  pose proof (calm_blocklimit E s s' false len bs C Hl Hbs E1 E2 E3 (conj H2i H2o)) as L2.
  assert (P : (let! s0 := get in if s_after_authentication s0 then ret tt
               else if ssh_packet_check_rekey_blocklimit s0 0 true then fail SSH_ERR_NEED_REKEY else ret tt) s' = (Ok tt, s')).
  { rewrite bind_get. destruct (s_after_authentication s'); [done|]. by rewrite L1. }
  step_with P. rewrite bind_get. unfold ssh_packet_need_rekeying. rewrite L2.
  assert (Hn : negb (s_rekey_interval s' =? 0) && (s_rekey_time s' + s_rekey_interval s' <=? pe_now E) = false).
  { rewrite Ei, Et. apply andb_false_iff. rewrite negb_false_iff, Z.eqb_eq, Z.leb_gt. destruct (ca_time _ _ C); lia. }
  rewrite Hn. destruct (negb (s_after_authentication s')); [done|]. destruct (ssh_packet_is_rekeying s'); [done|].
  by destruct ((ps_packets (s_p_send s') =? 0) && (ps_packets (s_p_read s') =? 0)).
Qed.

(** The message changes neither the keys nor the compression of the receiver. *)
Definition plain_msg (payload : list Z) (server : bool) : Prop :=
  exists type, head payload = Some type /\ 1 <= type /\ type <> SSH2_MSG_NEWKEYS /\
    (type = SSH2_MSG_USERAUTH_SUCCESS -> server = true).

Lemma finish_packet_ok E s s0 type data len bs : pbuf (s_incoming_packet s) (type :: data) ->
  plain_msg (type :: data) (s_server_side s) -> calm E s0 -> 0 <= len <= PACKET_MAX_SIZE + 4 -> bs = 8 \/ bs = 16 ->
  s_p_send s = s_p_send s0 -> s_p_read s = counted len bs (s_p_read s0) -> s_newkeys_out s = s_newkeys_out s0 ->
  s_hard_max_blocks_in s = s_hard_max_blocks_in s0 -> s_hard_max_blocks_out s = s_hard_max_blocks_out s0 ->
  s_max_blocks_in s = s_max_blocks_in s0 -> s_max_blocks_out s = s_max_blocks_out s0 ->
  s_rekey_interval s = s_rekey_interval s0 -> s_rekey_time s = s_rekey_time s0 ->
  exists b, finish_packet E s = (Ok type, set_packlen 0 (set_incoming_packet b s)) /\ pbuf b data.
Proof.
  intros P (ty & Hty & Ht1 & Hnk & Hus) C Hl Hbs E1 E2 E3 E4 E5 E6 E7 E8 E9. injection Hty as <-.
  destruct (pb_get_u8 _ _ _ P) as (b & Eb & Pb). exists b. split; [|done].
  unfold finish_packet. in_step Eb. rewrite (proj2 (Z.ltb_ge _ _)) by (unfold SSH2_MSG_MIN; lia). pget. members.
  assert (Us : (type =? SSH2_MSG_USERAUTH_SUCCESS) && negb (s_server_side s) = false).
  { destruct (type =? _) eqn:Q; [|done]. zbool. by rewrite Hus. }
  rewrite Us, bind_ret_l, bind_update, (proj2 (Z.eqb_neq type SSH2_MSG_NEWKEYS)), bind_ret_l by done.
  step_with (check_rekey_ok E s0 (set_packlen 0 (set_incoming_packet b s)) len bs C Hl Hbs E1 E2 E3 E4 E5 E6 E7 E8 E9). done.
Qed.

(** ** Receiving *)

(** The receiver waits for the packet [q] with [payload], of which the bytes [b]
    have not been taken from the input. *)
Inductive expecting s nk e (q : Z) : list Z -> list Z -> option (newkeys M U) -> sshcipher_ctx V -> Prop :=
| ex_fresh payload b nk' e' nk2 d inc :
    wirepkt nk e q payload b nk' e' -> s_packlen s = 0 -> s_newkeys_in s = nk2 -> s_receive_context s = Some d ->
    agree nk nk2 e d -> pbuf (s_incoming_packet s) inc -> expecting s nk e q payload b nk' e'
| ex_open payload pad px z t need nk' e' nk2 d :
    Forall is_byte payload -> 4 <= zlen pad < 256 -> 1 <= zlen payload -> zlen payload + zlen pad + 1 <= PACKET_MAX_SIZE ->
    opening nk e q d (plain_packet payload pad) px z t need nk' e' -> cc_cipher e ∈ ciphers -> kagree nk nk2 (cc_cipher e) ->
    s_packlen s = zlen payload + zlen pad + 1 -> s_newkeys_in s = nk2 -> s_receive_context s = Some d ->
    (if negb (keys_aadlen nk =? 0) then zlen payload + zlen pad + 1
     else u32 (4 + (zlen payload + zlen pad + 1) - keys_block_size nk)) = need ->
    pbuf (s_incoming_packet s) px -> expecting s nk e q payload (z ++ t) nk' e'.

(** The receiver has no packet in progress. *)
Definition idle s nk e : Prop := exists nk2 d inc,
  s_packlen s = 0 /\ s_newkeys_in s = nk2 /\ s_receive_context s = Some d /\ agree nk nk2 e d /\ pbuf (s_incoming_packet s) inc.

(** Only what belongs to receiving changed. *)
Definition rframe s s' : Prop := exists bi bin c k p n,
  s' = set_input bi (set_incoming_packet bin (set_receive_context c (set_newkeys_in k (set_p_read p (set_packlen n s))))).

Lemma rframe_refl s : rframe s s.
Proof. exists (s_input s), (s_incoming_packet s), (s_receive_context s), (s_newkeys_in s), (s_p_read s), (s_packlen s). by destruct s. Qed.

(** What a poll makes of the input: either the packet is incomplete, or it is
    delivered and the next one is expected. *)
Definition poll_waits s nk e q payload nk' e' rest rest' r : Prop := exists s' i' b',
  r = (Ok (SSH_MSG_NONE, 0), s') /\ expecting s' nk e q payload b' nk' e' /\ pbuf (s_input s') i' /\
  i' ++ rest = b' ++ rest' /\ zlen i' < zlen b' /\ rframe s s' /\ s_p_read s' = s_p_read s.
Definition poll_delivers s (q : Z) payload nk' e' rest rest' r : Prop := exists s' i' type data len bs,
  r = (Ok (type, q), s') /\ payload = type :: data /\ pbuf (s_incoming_packet s') data /\ pbuf (s_input s') i' /\
  i' ++ rest = rest' /\ idle s' nk' e' /\ rframe s s' /\ s_p_read s' = counted len bs (s_p_read s) /\
  0 <= len <= PACKET_MAX_SIZE + 4 /\ (bs = 8 \/ bs = 16).

Section Poll.
Context (E : penv) (s : session_state V M U Zs) (nk nk' : option (newkeys M U)) (e e' : sshcipher_ctx V).
Context (payload i rest rest' : list Z).
Let q := ps_seqnr (s_p_read s).
Context (HE : penv_ok E) (Hmux : s_mux s = false) (Hdis : s_packet_discard s = 0) (Ca : calm E s).
Context (Hw : may_wrap q s) (Hmsg : plain_msg payload (s_server_side s)).

(** Once the length is known. *)
Lemma poll_opening m nk2 d pad px z t need i1 :
  read_length E s = (Ok true, m) -> rframe s m -> s_p_read m = s_p_read s ->
  Forall is_byte payload -> 4 <= zlen pad < 256 -> 1 <= zlen payload -> zlen payload + zlen pad + 1 <= PACKET_MAX_SIZE ->
  opening nk e q d (plain_packet payload pad) px z t need nk' e' -> cc_cipher e ∈ ciphers -> kagree nk nk2 (cc_cipher e) ->
  s_packlen m = zlen payload + zlen pad + 1 -> s_newkeys_in m = nk2 -> s_receive_context m = Some d ->
  (if negb (keys_aadlen nk =? 0) then zlen payload + zlen pad + 1
   else u32 (4 + (zlen payload + zlen pad + 1) - keys_block_size nk)) = need ->
  pbuf (s_incoming_packet m) px -> pbuf (s_input m) i1 -> i1 ++ rest = (z ++ t) ++ rest' ->
  poll_waits s nk e q payload nk' e' rest rest' (ssh_packet_read_poll2 E s) \/
  poll_delivers s q payload nk' e' rest rest' (ssh_packet_read_poll2 E s).
Proof.
  intros Rl Fr Er Bp Hpad Lp Hmax Op Hc Ka Epl Ek Ed Hneed Pinc Pin St.
  destruct (kagree_facts _ _ _ Hc Ka) as (Hbs & Hau & Haad & _). pose proof (kagree_maclen _ _ _ Ka) as Hml.
  assert (Hq : ps_seqnr (s_p_read m) = q) by (by rewrite Er).
  unfold ssh_packet_read_poll2. rewrite bind_get, Hmux, Hdis. cbn [Z.eqb negb]. step_with Rl. cbn [negb].
  rewrite <- Hq in Op. rewrite <- Epl in Hneed.
  destruct (decide (zlen i1 < zlen z + zlen t)) as [Hs|Hs].
  - left. assert (Q : open_packet E m = (Ok false, m)) by (eapply open_packet_short; eassumption). step_with Q. cbn [negb].
    exists m, i1, (z ++ t). rewrite Hq in Op. rewrite Epl in Hneed. split_and!; try done; [|by rewrite zlen_app].
    by eapply (ex_open m nk e q payload pad px z t need nk' e' nk2 d).
  - right. assert (exists i', i1 = (z ++ t) ++ i') as (i' & Ei).
    { exists (zdrop (zlen z + zlen t) i1). rewrite <- (ztake_zdrop (zlen z + zlen t) i1) at 1. f_equal.
      rewrite (prefix_take _ _ _ _ (zlen z + zlen t) St) by (rewrite ?zlen_app; lia). apply ztake_all. rewrite zlen_app. lia. }
    assert (exists bi bin d' nk2', open_packet E m = (Ok true, opened m bi bin d' nk2') /\ pbuf bi i' /\
              pbuf bin (plain_packet payload pad) /\ agree nk' nk2' e' d') as (bi & bin & d' & nk2' & Eo & Pi & Pb & Ag')
      by (eapply open_packet_ok; eassumption).
    step_with Eo. cbn [negb]. destruct Fr as (? & ? & ? & ? & ? & ? & Em).
    set (o := opened m bi bin d' nk2'). destruct (ca_packets _ _ Ca) as [_ Hpk]. unfold MAX_PACKETS in Hpk.
    assert (Cr : count_read E o = (Ok q, set_p_read (counted (zlen payload + zlen pad + 1 + 4) (keys_block_size nk2') (s_p_read s)) o)).
    { rewrite (count_read_ok E o); subst o; unfold opened; members; rewrite ?Er, ?Epl; [done | | lia | lia].
      unfold may_wrap in *. members. rewrite Em. members. done. }
    step_with Cr. set (c := set_p_read _ o). pose proof Ag' as [Sy' Ka'].
    destruct (agree_facts _ _ _ _ Ag') as (Hbs' & _). destruct (ag_block _ _ _ Ka') as [Bk1 Bk2]. destruct (ag_comp _ _ _ Ka') as [_ Cp].
    destruct (unpad_packet_ok E c payload pad) as (b1 & Eu & Pu); [done | done | done |]. step_with Eu.
    destruct payload as [|type data]; [done|].
    destruct (finish_packet_ok E (set_incoming_packet b1 c) s type data (zlen (type :: data) + zlen pad + 1 + 4) (keys_block_size nk2'))
      as (b2 & Ef & Pf); try (subst c o; unfold opened; members; rewrite ?Em; members; done); [lia | lia |].
    step_with Ef. exists (set_packlen 0 (set_incoming_packet b2 (set_incoming_packet b1 c))), i', type, data,
      (zlen (type :: data) + zlen pad + 1 + 4), (keys_block_size nk2').
    split; [reflexivity|]. split; [reflexivity|]. split; [exact Pf|]. split; [exact Pi|]. split; [|split; [|split; [|split; [|lia]]]].
    + rewrite Ei, <- app_assoc in St. by apply app_inv_head in St.
    + exists nk2', d', data. split; [reflexivity|]. split; [reflexivity|]. split; [reflexivity|]. split; [exact Ag'|exact Pf].
    + exists bi, b2, (Some d'), nk2', (counted (zlen (type :: data) + zlen pad + 1 + 4) (keys_block_size nk2') (s_p_read s)), 0.
      subst c o. unfold opened. rewrite Em. reflexivity.
    + reflexivity.
Qed.

Lemma wire_min nk2 d pad y : agree nk nk2 e d -> 4 <= zlen pad -> 1 <= zlen payload ->
  (zlen (plain_packet payload pad) - keys_aadlen nk) mod keys_block_size nk = 0 ->
  encrypted e q (ztake (keys_aadlen nk) (plain_packet payload pad)) (zdrop (keys_aadlen nk) (plain_packet payload pad)) y e' ->
  (if negb (keys_aadlen nk =? 0) then 4 else keys_block_size nk) <= zlen y.
Proof.
  intros Ag Hp Lp Hm En. destruct (agree_facts _ _ _ _ Ag) as (Hbs & Hau & Haad & _). destruct Ag as [_ [_ [A1 _] _ _]].
  pose proof (en_len _ _ _ _ _ _ En) as Ly. pose proof (plain_packet_len payload pad) as L. rewrite <- A1, zlen_take, zlen_drop in Ly.
  destruct Haad as [Ha|Ha]; rewrite Ha in *; cbn [Z.eqb negb]; [|lia].
  rewrite Z.sub_0_r in Hm. destruct Hbs as [Hb|Hb]; rewrite Hb in *; Z.div_mod_to_equations; lia.
Qed.

Lemma poll_ok b : expecting s nk e q payload b nk' e' -> pbuf (s_input s) i -> i ++ rest = b ++ rest' ->
  poll_waits s nk e q payload nk' e' rest rest' (ssh_packet_read_poll2 E s) \/
  poll_delivers s q payload nk' e' rest rest' (ssh_packet_read_poll2 E s).
Proof.
  intros Ex Pin St. inversion Ex as [pl b0 nk0 e0 nk2 d inc Wp Ep Ek Ed Ag Pinc|
    pl pad px z t need nk0 e0 nk2 d Bp Hpad Lp Hmax Op Hc Ka Epl Ek Ed Hneed Pinc]; subst pl nk0 e0 b.
  - inversion Wp as [pl pad y t nk0 e0 Bp Bpad Hpad Lp Hmax Hmod En Mp Lt Bt]; subst pl nk0 e0 b0.
    pose proof (wire_min _ _ _ _ Ag (proj1 Hpad) Lp Hmod En) as Hmin. destruct (agree_facts _ _ _ _ Ag) as (_ & _ & Haad & _).
    destruct (decide (zlen i < if negb (keys_aadlen nk =? 0) then 4 else keys_block_size nk)) as [Hs|Hs].
    + left. assert (Q : read_length E s = (Ok false, s)) by (eapply read_length_wait; eassumption).
      exists s, i, (y ++ t). split.
      { unfold ssh_packet_read_poll2. rewrite bind_get, Hmux, Hdis. cbn [Z.eqb negb]. by step_with Q. }
      split; [done|]. split; [done|]. split; [done|]. split; [rewrite zlen_app; pose proof (zlen_nonneg t); lia|].
      split; [apply rframe_refl | done].
    + assert (K : length_known E s nk nk' e d e' payload pad t rest rest').
      { destruct Haad as [Ha|Ha]; rewrite Ha in Hs; cbn [Z.eqb negb] in Hs.
        - eapply read_length_crypt; try eassumption; lia.
        - eapply read_length_clear; try eassumption; lia. }
      destruct K as (bi & binc & d' & px & z & need & i1 & Rl & Pi & Pb & Op & St' & Hneed & _).
      eapply (poll_opening (measured s payload pad bi binc d') nk2 d' pad px z t need i1); try eassumption; try done.
      * by eexists bi, binc, (Some d'), (s_newkeys_in s), (s_p_read s), _; destruct s.
      * apply Ag.
      * apply Ag.
  - eapply (poll_opening s nk2 d pad px z t need i); try eassumption; try done; [|apply rframe_refl].
    unfold read_length. rewrite bind_get, Epl. by rewrite (proj2 (Z.eqb_neq _ 0)) by lia.
Qed.
End Poll.
End Recv.
