(* ===== verification/PacketLink.v ===== *)
(** * The packet layer: two ends of a connection

    A sending and a receiving session that hold the same keys for one direction,
    and the bytes between them.  Whatever the order in which messages are sent,
    bytes written, received in pieces and the receiver polled, the messages
    come out as they went in. *)
From S2P Require Import Prelude Sshbuf SshbufGetput CString SshbufMisc Words Chacha ChachaPoly Cipher Hmac Mac PacketState Packet PacketBuf PacketSend PacketRecv.

Section Link.
Context {V M U Zs : Type} `{EVPLaws V} `{EVP_MDLaws M} `{UMACLaws U} `{ZLIB Zs}.
Implicit Types s : session_state V M U Zs.
Implicit Types nk : option (newkeys M U).
Implicit Types e d : sshcipher_ctx V.

(** ** Sending a message *)

Definition send_message E (payload : list Z) : PM V M U Zs unit :=
  match payload with
  | [] => crash
  | type :: data => do! sshpkt_start E type ;; do! sshpkt_put E data ;; sshpkt_send E
  end.

(** The message is sent at once: no key exchange is due or in progress, or it is
    a message of the key exchange other than KEXINIT. *)
Definition sends_now E s (payload : list Z) : Prop := exists type, head payload = Some type /\ type <> SSH2_MSG_KEXINIT /\
  (ssh_packet_type_is_kex type = true \/
   s_rekeying s = false /\ ssh_packet_need_rekeying E s (zlen payload + 5) = false /\
   (s_after_authentication s = true \/ ssh_packet_check_rekey_blocklimit s 0 true = false)).

(** What one message changes in the sender. *)
Definition sframe s s' : Prop := exists o b c k p,
  s' = set_outgoing_packet o (set_output b (set_send_context c (set_newkeys_out k (set_p_send p s)))).

Lemma start_packet_ok E s o l type data : penv_ok E -> s_outgoing_packet s = Some o -> pbuf o l ->
  is_byte type -> Forall is_byte data -> zlen data <= PACKET_MAX_SIZE ->
  exists o', (do! sshpkt_start E type ;; sshpkt_put E data) s = (Ok tt, set_outgoing_packet (Some o') s) /\
    pbuf o' ([0; 0; 0; 0; 0] ++ type :: data).
Proof.
  intros HE Eo Po Bt Bd Ld. pose proof (po_np _ HE). unfold PACKET_MAX_SIZE in Ld.
  destruct (pb_reset (pe_np E) _ _ Po) as (o1 & E1 & P1).
  assert (B6 : Forall is_byte [0; 0; 0; 0; 0; u8 type]) by (repeat (constructor; [unfold is_byte in *; rewrite ?u8_small; lia|]); done).
  destruct (pb_put (pe_np E) [0; 0; 0; 0; 0; u8 type] _ _ P1) as (o2 & E2 & P2); [lia | done | rewrite zlen_nil; sb_consts; change (zlen [0; 0; 0; 0; 0; u8 type]) with 6; lia |].
  destruct (pb_put (pe_np E) data _ _ P2) as (o3 & E3 & P3); [lia | done | sb_consts; rewrite zlen_app, zlen_nil; change (zlen [0; 0; 0; 0; 0; u8 type]) with 6; lia |].
  exists o3. split.
  - unfold sshpkt_start. rewrite bind_assoc. run_at @on_outgoing_ok Eo E1. out_step E2. unfold sshpkt_put.
    by erewrite on_outgoing_ok by (reflexivity || exact E3).
  - unfold is_byte in Bt. rewrite u8_small in P3 by lia. exact P3.
Qed.

Lemma send_now E s o payload : s_mux s = false -> s_outgoing_packet s = Some o -> pbuf o ([0; 0; 0; 0; 0] ++ payload) ->
  message payload -> head payload <> Some SSH2_MSG_NEWKEYS -> sends_now E s payload ->
  forall s', ssh_packet_send2_wrapped E s = (Ok tt, s') -> sshpkt_send E s = (Ok tt, s').
Proof.
  intros Mx Eo Po [Bp Lp] Hn (type & Ht & Hk & Hs) s' Es. unfold PACKET_MAX_SIZE in Lp.
  destruct payload as [|x data]; [done|]. injection Ht as ->.
  assert (Hnk : type <> SSH2_MSG_NEWKEYS) by (intros ->; by apply Hn).
  unfold sshpkt_send, send. rewrite bind_get, Mx. unfold send2.
  run_at @on_outgoing_same Eo (pb_len _ _ Po).
  assert (Ln : zlen ([0; 0; 0; 0; 0] ++ type :: data) = zlen (type :: data) + 5) by (rewrite zlen_app; change (zlen [0; 0; 0; 0; 0]) with 5; lia).
  rewrite Ln, (proj2 (Z.ltb_ge _ 6)) by lia.
  assert (Et : peek 5 1 o = (Ok [type], o)) by (rewrite (pb_peek o _ 5 1 Po) by lia; done).
  run_at @on_outgoing_same Eo Et. cbn [head]. step_with (defined_ok type s). rewrite bind_get, u32_small by lia.
  rewrite (proj2 (Z.eqb_neq type SSH2_MSG_KEXINIT)), (proj2 (Z.eqb_neq type SSH2_MSG_NEWKEYS)) by done.
  assert (Q : (let! _ := ssh_packet_send2_wrapped E in ret tt) s = (Ok tt, s')) by (by step_with Es).
  destruct Hs as [K|(R & N & P)].
  - rewrite K. cbn [negb]. rewrite !andb_false_r. exact Q.
  - rewrite R, N. cbn [negb orb andb]. destruct (ssh_packet_type_is_kex type); cbn [negb andb orb]; [exact Q|].
    assert (Pr : ssh_packet_check_rekey_preauth 0 s = (Ok tt, s)).
    { unfold ssh_packet_check_rekey_preauth. rewrite bind_get. destruct P as [-> | ->]; [done|]. by destruct (s_after_authentication s). }
    step_with Pr. exact Q.
Qed.

(** A message on its way: the packet is behind the output. *)
Definition sent_ok s s' payload nk e (out : list Z) : Prop := exists o b bytes nk' e',
  sframe s s' /\ s_outgoing_packet s' = Some o /\ pbuf o [] /\ s_output s' = b /\ pbuf b (out ++ bytes) /\
  wirepkt nk e (ps_seqnr (s_p_send s)) payload bytes nk' e' /\ s_newkeys_out s' = nk' /\ s_send_context s' = Some e' /\
  ps_seqnr (s_p_send s') = u32 (ps_seqnr (s_p_send s) + 1) /\ ps_packets (s_p_send s') = ps_packets (s_p_send s) + 1.

Lemma send_message_ok E s o l out nk nk2 e d payload : penv_ok E -> s_mux s = false -> s_extra_pad s = 0 ->
  agree nk nk2 e d -> s_newkeys_out s = nk -> s_send_context s = Some e -> s_outgoing_packet s = Some o -> pbuf o l ->
  pbuf (s_output s) out -> message payload -> ordinary payload (s_server_side s) -> sends_now E s payload ->
  may_wrap (ps_seqnr (s_p_send s)) s -> 0 <= ps_packets (s_p_send s) < 2 ^ 32 - 1 ->
  zlen out + zlen payload + 104 <= SSHBUF_SIZE_MAX ->
  exists s', send_message E payload s = (Ok tt, s') /\ sent_ok s s' payload nk e out.
Proof.
  intros HE Mx Ex Ag Ek Ee Eo Po Pout Ms Or Sn Hw Hpk Room. pose proof Ms as [Bp Lp].
  destruct payload as [|type data]; [unfold zlen in Lp; cbn in Lp; lia|]. inversion Bp as [|? ? Bt Bd]; subst.
  destruct (start_packet_ok E s o l type data HE Eo Po Bt Bd) as (o1 & E1 & P1); [rewrite zlen_cons in Lp; lia|].
  set (s1 := set_outgoing_packet (Some o1) s).
  destruct (send2_wrapped_ok (ssh_packet_disconnect E OUT_WRAP) E s1 o1 out (s_newkeys_out s) nk2 e d [0; 0; 0; 0; 0] (type :: data))
    as (o' & bo & bytes & nk' & e' & len & E2 & P2 & P3 & W & Hl); try done.
  assert (Hn : head (type :: data) <> Some SSH2_MSG_NEWKEYS) by (destruct Or as (t & [= ->] & Hn & _); by intros [= ->]).
  pose proof (send_now E s1 o1 (type :: data) Mx eq_refl P1 Ms Hn Sn _ E2) as E3.
  exists (sent_state s1 o' bo e' nk' len). split.
  - unfold send_message. rewrite <- bind_assoc. by step_with E1.
  - exists o', bo, bytes, nk', e'. split; [|repeat (split; [first [reflexivity | assumption]|]); reflexivity].
    by exists (Some o'), bo, (Some e'), nk', (counted len (keys_block_size (s_newkeys_out s)) (s_p_send s)).
Qed.

(** A receiver that agrees before a packet agrees after it. *)
Lemma wirepkt_agree nk nk2 e d q payload bytes nk' e' : agree nk nk2 e d -> wirepkt nk e q payload bytes nk' e' ->
  exists nk2' d', agree nk' nk2' e' d'.
Proof.
  intros [Sy Ka] W. inversion W as [pl pad y t k0 e0 _ _ _ _ _ _ En Mp Lt _]; subst.
  destruct (en_open _ _ _ _ _ _ En (replicate 64 0) d [] ) as (d' & _ & Sy'); [split; [done | by apply Forall_replicate] | done |].
  unfold agree. rewrite (en_cipher _ _ _ _ _ _ En).
  destruct (mac_on (keys_mac nk)) eqn:On.
  - destruct (mac_part_check _ _ _ _ _ _ _ _ Ka On Mp Lt) as (k2 & m2' & _ & Ka' & _). by exists (Some (set_nk_mac m2' k2)), d'.
  - unfold mac_part in Mp. rewrite On in Mp. destruct Mp as [_ ->]. by exists nk2, d'.
Qed.

(** ** Packets in flight *)

(** Keys, context and sequence number of one direction. *)
Implicit Types k : option (newkeys M U) * sshcipher_ctx V * Z.

(** [bytes] are the packets of the messages [ps], sent from [k] on. *)
Inductive flight (server : bool) : option (newkeys M U) * sshcipher_ctx V * Z -> list (list Z) -> list Z ->
  option (newkeys M U) * sshcipher_ctx V * Z -> Prop :=
| fl_nil k : flight server k [] [] k
| fl_cons nk e q p bytes nk' e' ps rest k : wirepkt nk e q p bytes nk' e' -> plain_msg p server ->
    flight server (nk', e', u32 (q + 1)) ps rest k -> flight server (nk, e, q) (p :: ps) (bytes ++ rest) k.

Lemma fl_snoc server k ps bytes nk e q p b nk' e' : flight server k ps bytes (nk, e, q) -> wirepkt nk e q p b nk' e' ->
  plain_msg p server -> flight server k (ps ++ [p]) (bytes ++ b) (nk', e', u32 (q + 1)).
Proof.
  intros F W P. remember (nk, e, q) as k' eqn:Ek. induction F as [k|nk0 e0 q0 p0 b0 nk1 e1 ps rest k W0 P0 F IH]; subst.
  - rewrite <- (app_nil_r ([] ++ b)). cbn. econstructor; [done | done | constructor].
  - rewrite <- app_assoc. cbn. econstructor; [done | done |]. by apply IH.
Qed.

(** What the receiver [s] is still to make of the stream. *)
Definition receiving s (ps : list (list Z)) (bytes : list Z) k : Prop := exists nk e,
  let q := ps_seqnr (s_p_read s) in
  (idle s nk e /\ flight (s_server_side s) (nk, e, q) ps bytes k) \/
  (exists p ps' b rest nk' e', ps = p :: ps' /\ bytes = b ++ rest /\ expecting s nk e q p b nk' e' /\ plain_msg p (s_server_side s) /\
     flight (s_server_side s) (nk', e', u32 (q + 1)) ps' rest k).

(** Without loss the receiver is in the middle of a packet, when there is one. *)
Lemma receiving_next s p ps bytes k : receiving s (p :: ps) bytes k -> exists nk e b rest nk' e',
  bytes = b ++ rest /\ expecting s nk e (ps_seqnr (s_p_read s)) p b nk' e' /\ plain_msg p (s_server_side s) /\
  flight (s_server_side s) (nk', e', u32 (ps_seqnr (s_p_read s) + 1)) ps rest k.
Proof.
  intros (nk & e & [[(nk2 & d & inc & Ep & Ek & Ed & Ag & Pi) F]|(p' & ps' & b & rest & nk' & e' & [= <- <-] & Eb & Ex & Pm & F)]).
  - inversion F as [|nk0 e0 q0 p0 b nk' e' ps0 rest k0 W Pm F']; subst.
    exists nk, e, b, rest, nk', e'. split; [done|]. split; [by eapply ex_fresh|]. done.
  - by exists nk, e, b, rest, nk', e'.
Qed.

Lemma receiving_snoc s ps bytes nk e q p b nk' e' : receiving s ps bytes (nk, e, q) -> wirepkt nk e q p b nk' e' ->
  plain_msg p (s_server_side s) -> receiving s (ps ++ [p]) (bytes ++ b) (nk', e', u32 (q + 1)).
Proof.
  intros (nk0 & e0 & [[Id F]|(p' & ps' & b0 & rest & nk1 & e1 & -> & -> & Ex & Pm & F)]) W P; exists nk0, e0.
  - left. split; [done|]. by eapply fl_snoc.
  - right. exists p', (ps' ++ [p]), b0, (rest ++ b), nk1, e1. rewrite <- app_assoc. split_and!; try done. by eapply fl_snoc.
Qed.

(** ** The connection *)

(** The two ends, how much of the wire the receiver has read, and the messages
    sent and received so far. *)
Record link := mk_link {
  l_snd : session_state V M U Zs; l_rcv : session_state V M U Zs; l_read : Z;
  l_sent : list (list Z); l_got : list (list Z) }.

Inductive act :=
| Send (E : penv) (payload : list Z)  (* a message is composed and sent *)
| Write (n : Z)  (* write(2) takes [n] bytes of the output *)
| Recv (E : penv) (n : Z)  (* [n] bytes arrive *)
| Poll (E : penv).  (* the receiver looks for a packet *)

Definition in_transit (c : link) : list Z := zdrop (l_read c) (s_wire (l_snd c)).

(** [None] when the code returns an error or its behaviour is undefined. *)
Definition exec (a : act) (c : link) : option link :=
  match a with
  | Send E p =>
      match send_message E p (l_snd c) with
      | (Ok _, s) => Some (mk_link s (l_rcv c) (l_read c) (l_sent c ++ [p]) (l_got c))
      | _ => None
      end
  | Write n =>
      match ssh_packet_write_poll (WLen n) (l_snd c) with
      | (Ok _, s) => Some (mk_link s (l_rcv c) (l_read c) (l_sent c) (l_got c))
      | _ => None
      end
  | Recv E n =>
      match ssh_packet_process_incoming E (ztake n (in_transit c)) (l_rcv c) with
      | (Ok _, s) => Some (mk_link (l_snd c) s (l_read c + n) (l_sent c) (l_got c))
      | _ => None
      end
  | Poll E =>
      match ssh_packet_read_poll2 E (l_rcv c) with
      | (Ok (type, _), s) =>
          Some (mk_link (l_snd c) s (l_read c) (l_sent c)
                  (if type =? SSH_MSG_NONE then l_got c else l_got c ++ [type :: contents (s_incoming_packet s)]))
      | _ => None
      end
  end.

Fixpoint run (acts : list act) (c : link) : option link :=
  match acts with [] => Some c | a :: acts => match exec a c with None => None | Some c => run acts c end end.

(** What may happen: messages that fit and change no keys, buffers that do not
    overflow, no key exchange due. *)
Definition possible (a : act) (c : link) : Prop :=
  match a with
  | Send E p =>
      let s := l_snd c in
      penv_ok E /\ message p /\ ordinary p (s_server_side s) /\ plain_msg p (s_server_side (l_rcv c)) /\ sends_now E s p /\
      may_wrap (ps_seqnr (s_p_send s)) s /\ 0 <= ps_packets (s_p_send s) < 2 ^ 32 - 1 /\
      zlen (contents (s_output s)) + zlen p + 104 <= SSHBUF_SIZE_MAX
  | Write n => 0 < n <= zlen (contents (s_output (l_snd c)))
  | Recv E n => penv_ok E /\ 0 <= n <= zlen (in_transit c) /\ zlen (contents (s_input (l_rcv c))) + n <= SSHBUF_SIZE_MAX
  | Poll E => let s := l_rcv c in penv_ok E /\ calm E s /\ may_wrap (ps_seqnr (s_p_read s)) s
  end.

Fixpoint all_possible (acts : list act) (c : link) : Prop :=
  match acts with
  | [] => True
  | a :: acts => possible a c /\ match exec a c with None => True | Some c => all_possible acts c end
  end.

(** The ends of a fresh connection: the same keys, contexts in step, equal
    sequence numbers, nothing in the buffers. *)
Record connected (a b : session_state V M U Zs) : Prop := {
  co_mux : s_mux a = false /\ s_mux b = false;
  co_plain : s_extra_pad a = 0 /\ s_packet_discard b = 0 /\ s_packlen b = 0;
  co_seq : ps_seqnr (s_p_send a) = ps_seqnr (s_p_read b);
  co_keys : exists e d, s_send_context a = Some e /\ s_receive_context b = Some d /\ agree (s_newkeys_out a) (s_newkeys_in b) e d;
  co_out : exists o l, s_outgoing_packet a = Some o /\ pbuf o l;
  co_in : exists l, pbuf (s_incoming_packet b) l;
  co_empty : pbuf (s_output a) [] /\ pbuf (s_input b) [];
}.

(** The invariant: what was sent is what was received and what the receiver
    will make of the bytes it holds, those in transit and those not yet written. *)
Record linked (c : link) : Prop := {
  li_mux : s_mux (l_snd c) = false /\ s_mux (l_rcv c) = false;
  li_plain : s_extra_pad (l_snd c) = 0 /\ s_packet_discard (l_rcv c) = 0;
  li_read : 0 <= l_read c <= zlen (s_wire (l_snd c)) /\ Forall is_byte (s_wire (l_snd c));
  li_out : exists o l, s_outgoing_packet (l_snd c) = Some o /\ pbuf o l;
  li_bufs : (exists l, pbuf (s_output (l_snd c)) l) /\ (exists l, pbuf (s_input (l_rcv c)) l);
  li_stream : exists e nk2 d ps, s_send_context (l_snd c) = Some e /\ agree (s_newkeys_out (l_snd c)) nk2 e d /\
    l_sent c = l_got c ++ ps /\
    receiving (l_rcv c) ps (contents (s_input (l_rcv c)) ++ in_transit c ++ contents (s_output (l_snd c)))
      (s_newkeys_out (l_snd c), e, ps_seqnr (s_p_send (l_snd c)));
}.

Lemma pbuf_contents b l : pbuf b l -> pbuf b (contents b).
Proof. intros P. by rewrite (pb_data _ _ P). Qed.

Lemma connected_linked a b : connected a b -> s_wire a = [] -> linked (mk_link a b 0 [] []).
Proof.
  intros [Mx (X1 & X2 & X3) Sq (e & d & Ee & Ed & Ag) Co (l & Ci) [C1 C2]] Hw. constructor; cbn; try done.
  - rewrite Hw. split; [by cbn | constructor].
  - split; by eexists.
  - exists e, (s_newkeys_in b), d, []. split_and!; try done; try apply Ag.
    unfold in_transit. cbn. rewrite Hw, (pb_data _ _ C1), (pb_data _ _ C2).
    exists (s_newkeys_out a), e. cbn. left. split; [by exists (s_newkeys_in b), d, l|]. rewrite Sq. constructor.
Qed.

Lemma send_step E p c : linked c -> possible (Send E p) c -> exists c', exec (Send E p) c = Some c' /\ linked c'.
Proof.
  intros [[Mx1 Mx2] [X1 X2] Hr (o & l & Eo & Po) [(out & Pout) Pin] (e & nk2 & d & ps & Ee & Ag & Es & Rc)]
    (HE & Ms & Or & Pm & Sn & Hw & Hp & Hroom). rewrite (pb_data _ _ Pout) in Hroom, Rc.
  destruct (send_message_ok E (l_snd c) o l out _ _ _ _ p HE Mx1 X1 Ag eq_refl Ee Eo Po Pout Ms Or Sn Hw Hp Hroom)
    as (s' & E1 & o' & b & bytes & nk' & e' & (? & ? & ? & ? & ? & Fr) & Eo' & Po' & Eb & Pb & W & Ek' & Ee' & Eq & _).
  exists (mk_link s' (l_rcv c) (l_read c) (l_sent c ++ [p]) (l_got c)). split; [unfold exec; by rewrite E1|].
  destruct (wirepkt_agree _ _ _ _ _ _ _ _ _ Ag W) as (nk2' & d' & Ag').
  assert (Fm : s_mux s' = false /\ s_extra_pad s' = 0 /\ s_wire s' = s_wire (l_snd c)) by (rewrite Fr; members; done).
  destruct Fm as (F1 & F2 & F3). constructor; cbn; rewrite ?F3; try done.
  - by exists o', [].
  - split; [|done]. exists (out ++ bytes). by rewrite Eb.
  - exists e', nk2', d', (ps ++ [p]). split; [done|]. rewrite Ek'. split; [done|]. split; [by rewrite Es, app_assoc|].
    rewrite Eb, (pb_data _ _ Pb), Eq. unfold in_transit. cbn. rewrite F3.
    fold (in_transit c). rewrite (app_assoc (in_transit c)), (app_assoc (contents _)). by eapply receiving_snoc.
Qed.

Lemma write_step n c : linked c -> possible (Write n) c -> exists c', exec (Write n) c = Some c' /\ linked c'.
Proof.
  intros [[Mx1 Mx2] [X1 X2] Hr Ho [(out & Pout) Pin] (e & nk2 & d & ps & Ee & Ag & Es & Rc)] Hn. cbn [possible] in Hn.
  rewrite (pb_data _ _ Pout) in Hn, Rc. set (s := l_snd c) in *.
  destruct (pb_consume n _ _ Pout ltac:(lia)) as (b & Eb & Pb).
  assert (Ew : ssh_packet_write_poll (WLen n) s = (Ok tt, set_output b (set_wire (s_wire s ++ ztake n out) s))).
  { unfold ssh_packet_write_poll. rewrite (bind_ok _ _ _ _ _ (on_output_ok _ _ _ _ (pb_len _ _ Pout))).
    rewrite (proj2 (Z.leb_gt _ _)), (proj2 (Z.eqb_neq _ _)) by lia.
    rewrite (bind_ok _ _ _ _ _ (on_output_ok (peek 0 n) (set_output (s_output s) s) _ _ (pb_peek _ _ 0 n Pout ltac:(lia) ltac:(lia) ltac:(lia)))).
    rewrite zdrop_0, bind_update by lia. erewrite on_output_ok by exact Eb.
    reflexivity. }
  eexists. split; [unfold exec; fold s; by rewrite Ew|].
  assert (Lw : zlen (s_wire s ++ ztake n out) = zlen (s_wire s) + n) by (rewrite zlen_app, zlen_take; lia).
  constructor; cbn [l_snd l_rcv l_read l_sent l_got]; try done.
  - members. destruct Hr as [Hr Hb]. split; [lia|]. apply Forall_app. split; [done|]. apply Forall_take, (pbuf_bytes _ _ Pout).
  - split; [|done]. by exists (zdrop n out).
  - exists e, nk2, d, ps. split; [done|]. split; [done|]. split; [done|]. unfold in_transit in *. cbn [l_snd l_read].
    members. rewrite (pb_data _ _ Pb), zdrop_app_le, <- (app_assoc _ (ztake n out)), ztake_zdrop by (fold s in Hr; lia). done.
Qed.

(** Input does not touch the packet in progress. *)
Lemma receiving_input s b ps bytes k : receiving s ps bytes k -> receiving (set_input b s) ps bytes k.
Proof.
  intros (nk & e & [Q|(p & ps' & b0 & rest & nk' & e' & -> & -> & Ex & Q)]); exists nk, e; [by left|right].
  exists p, ps', b0, rest, nk', e'. split; [done|]. split; [done|]. split; [|done].
  inversion Ex; subst; [by eapply ex_fresh | by eapply ex_open].
Qed.

Lemma recv_step E n c : linked c -> possible (Recv E n) c -> exists c', exec (Recv E n) c = Some c' /\ linked c'.
Proof.
  intros [Mx [X1 X2] Hr Ho [Pout (i & Pin)] (e & nk2 & d & ps & Ee & Ag & Es & Rc)] (HE & Hn & Hroom).
  rewrite (pb_data _ _ Pin) in Hroom, Rc. pose proof (po_np _ HE). set (s := l_rcv c) in *.
  assert (Lt : zlen (ztake n (in_transit c)) = n) by (rewrite zlen_take; lia).
  destruct (pb_put (pe_np E) (ztake n (in_transit c)) _ _ Pin) as (b & Eb & Pb); [lia | |lia|].
  { apply Forall_take, Forall_drop, Hr. }
  assert (Ei : ssh_packet_process_incoming E (ztake n (in_transit c)) s = (Ok tt, set_input b s)).
  { unfold ssh_packet_process_incoming. rewrite bind_get, X2. cbn [Z.eqb negb]. by apply on_input_ok. }
  eexists. split; [unfold exec; fold s; by rewrite Ei|].
  unfold in_transit in *. constructor; cbn [l_snd l_rcv l_read l_sent l_got]; try done.
  - rewrite zlen_drop in Hn. split; [lia | apply Hr].
  - split; [done|]. by eexists.
  - exists e, nk2, d, ps. split_and!; try done; try apply Ag. members. apply receiving_input.
    rewrite (pb_data _ _ Pb). unfold in_transit. cbn [l_snd l_read].
    rewrite <- zdrop_zdrop, <- app_assoc, (app_assoc (ztake n _)), ztake_zdrop by lia. done.
Qed.

(** Nothing to do for a poll. *)
Lemma poll_idle E s nk e : penv_ok E -> s_mux s = false -> s_packet_discard s = 0 -> idle s nk e -> pbuf (s_input s) [] ->
  ssh_packet_read_poll2 E s = (Ok (SSH_MSG_NONE, 0), s).
Proof.
  intros HE Mx Dis (nk2 & d & inc & Ep & Ek & Ed & Ag & Pi) Pin. destruct (agree_facts _ _ _ _ Ag) as (Hbs & _ & Haad & _).
  assert (Q : read_length E s = (Ok false, s)).
  { eapply read_length_wait; try eassumption. rewrite zlen_nil. destruct (negb _); lia. }
  unfold ssh_packet_read_poll2. rewrite bind_get, Mx, Dis. cbn [Z.eqb negb]. by step_with Q.
Qed.

Definition arrived (c : link) : Prop := in_transit c = [] /\ contents (s_output (l_snd c)) = [].

(** The receiver after a poll. *)
Lemma linked_polled c s' i' e nk2 d ps got : linked c -> rframe (l_rcv c) s' -> pbuf (s_input s') i' ->
  s_send_context (l_snd c) = Some e -> agree (s_newkeys_out (l_snd c)) nk2 e d -> l_sent c = got ++ ps ->
  receiving s' ps (i' ++ in_transit c ++ contents (s_output (l_snd c))) (s_newkeys_out (l_snd c), e, ps_seqnr (s_p_send (l_snd c))) ->
  linked (mk_link (l_snd c) s' (l_read c) (l_sent c) got).
Proof.
  intros [Mx [X1 X2] Hr Ho [Pout _] _] (? & ? & ? & ? & ? & ? & Fr) Pi Ee Ag Es Rc.
  constructor; cbn [l_snd l_rcv l_read l_sent l_got]; try done.
  - rewrite Fr. members. done.
  - rewrite Fr. members. done.
  - split; [done | by exists i'].
  - exists e, nk2, d, ps. split; [done|]. split; [done|]. split; [done|]. by rewrite (pb_data _ _ Pi).
Qed.

(** A poll takes the next message or nothing; the next message when all the
    bytes are there. *)
Lemma poll_step E c : linked c -> possible (Poll E) c -> exists c', exec (Poll E) c = Some c' /\ linked c' /\
  l_sent c' = l_sent c /\ (l_got c' = l_got c /\ (arrived c -> l_sent c = l_got c) \/ exists p, l_got c' = l_got c ++ [p]).
Proof.
  intros Li (HE & Ca & Hw). pose proof Li as [[Mx1 Mx2] [X1 X2] _ _ [_ (i & Pin)] (e & nk2 & d & ps & Ee & Ag & Es & Rc)].
  rewrite (pb_data _ _ Pin) in Rc. set (s := l_rcv c) in *. cbn [exec]. fold s. destruct ps as [|p ps].
  - pose proof Rc as (nk1 & e1 & [[Id F]|(? & ? & ? & ? & ? & ? & [=] & _)]). inversion F as [k0 Ek0 E1 E2 E3|]; subst k0.
    destruct i; [|done].
    rewrite (poll_idle E s nk1 e1 HE Mx2 X2 Id Pin). cbn [Z.eqb]. eexists. split; [reflexivity|].
    split; [by eapply (linked_polled c s []); [| apply rframe_refl | ..]|]. rewrite app_nil_r in Es. split; [done | by left].
  - destruct (receiving_next _ _ _ _ _ Rc) as (nk1 & e1 & b & rest & nk' & e' & Eb & Ex & Pm & F).
    destruct (poll_ok E s nk1 nk' e1 e' p i _ rest HE Mx2 X2 Ca Hw Pm b Ex Pin Eb)
      as [(s' & i' & b' & R & Ex' & Pi' & St & Sh & Fr & Er)|(s' & i' & type & data & len & bs & R & Ep & Pd & Pi' & St & Id & Fr & Er & _)];
      assert (Sv : s_server_side s' = s_server_side s) by (destruct Fr as (? & ? & ? & ? & ? & ? & ->); by members);
      rewrite R; cbn [exec]; (eexists; split; [reflexivity|]); cbn [l_sent l_got].
    + split; [|split; [done|left; split; [done|]]].
      * eapply (linked_polled c s' i'); try done. exists nk1, e1. right. exists p, ps, b', rest, nk', e'.
        rewrite Er, Sv. done.
      * intros [A1 A2]. rewrite A1, A2 in St. cbn [app] in St. rewrite app_nil_r in St. subst i'. rewrite zlen_app in Sh.
        pose proof (zlen_nonneg rest). lia.
    + assert (Ht : type <> 0) by (destruct Pm as (t0 & Ht & ? & _); subst p; injection Ht as ->; lia).
      rewrite (proj2 (Z.eqb_neq type SSH_MSG_NONE)), (pb_data _ _ Pd), <- Ep by done. split; [|split; [done | right; by exists p]].
      eapply (linked_polled c s' i'); try done; [by rewrite Es, <- app_assoc|]. exists nk', e'. left. split; [done|].
      rewrite St, Sv, Er. exact F.
Qed.

Lemma linked_step a c : linked c -> possible a c -> exists c', exec a c = Some c' /\ linked c'.
Proof.
  destruct a; [apply send_step | apply write_step | apply recv_step |].
  intros Li Po. destruct (poll_step E c Li Po) as (c' & Ec & Li' & _). by exists c'.
Qed.

Lemma linked_run acts : forall c, linked c -> all_possible acts c -> exists c', run acts c = Some c' /\ linked c'.
Proof.
  induction acts as [|a acts IH]; intros c Li; cbn; [by exists c|]. intros [Po Al].
  destruct (linked_step a c Li Po) as (c' & Ec & Li'). rewrite Ec in *. by apply IH.
Qed.

(** C3. The packet layer delivers what was sent, in order, for every cipher and
    MAC of the tables and whatever the interleaving: from two ends with the same
    keys, any sequence of sending messages, partial writes, partial reads and
    polls in which no buffer overflows and no key exchange is due runs without
    an error; at each point the messages delivered are a prefix of the messages
    sent, and when all the bytes have arrived a poll delivers the next message
    unless there is none. *)
Theorem packet_stream_delivered a b acts : connected a b -> s_wire a = [] -> all_possible acts (mk_link a b 0 [] []) ->
  exists c, run acts (mk_link a b 0 [] []) = Some c /\ (exists rest, l_sent c = l_got c ++ rest) /\
    (forall E, possible (Poll E) c -> arrived c -> l_sent c <> l_got c ->
       exists p rest c', exec (Poll E) c = Some c' /\ l_sent c = l_got c ++ p :: rest /\ l_got c' = l_got c ++ [p]).
Proof.
  intros Co Hw Al. destruct (linked_run acts _ (connected_linked a b Co Hw) Al) as (c & Er & Li).
  exists c. split; [done|]. split; [destruct (li_stream _ Li) as (? & ? & ? & ps & _ & _ & ? & _); by exists ps|].
  intros E Po Ar Ne. destruct (poll_step E c Li Po) as (c' & Ec & Li' & Es' & [[Eg Ar']|(p & Eg)]); [by destruct (Ne (Ar' Ar))|].
  destruct (li_stream _ Li') as (? & ? & ? & ps & _ & _ & Es & _). exists p, ps, c'. split; [done|].
  split; [|done]. by rewrite <- Es', Es, Eg, <- app_assoc.
Qed.
End Link.

(** ** A connection with concrete primitives *)

Module LinkDemo.
(** A stream cipher of the library's shape: a counter as key stream, and a tag
    that the receiver compares. *)
Fixpoint stream (c : Z) (x : list Z) : list Z :=
  match x with [] => [] | b :: x => Z.lxor b (c mod 256) :: stream (c + 1) x end.
Definition tag_of (c n : Z) : list Z := replicate (Z.to_nat n) (c mod 256).
Definition ctx : Type := Z * option (list Z).

#[global] Instance evp : EVP ctx := {
  EVP_CIPHER_CTX_new := Some (0, None);
  EVP_CipherInit_iv v _ iv _ := Some (match iv with Some (b :: _) => b | _ => 0 end, None);
  EVP_CTRL_GCM_SET_IV_FIXED v _ := Some v;
  EVP_CIPHER_CTX_key_length _ := 16;
  EVP_CIPHER_CTX_set_key_length v _ := Some v;
  EVP_CipherInit_key v key := Some (fst v + match key with b :: _ => b | [] => 0 end, None);
  EVP_CTRL_GCM_IV_GEN v := Some v;
  EVP_CTRL_GCM_SET_TAG v tag := Some (fst v, Some tag);
  EVP_CTRL_GCM_GET_TAG v n := Some (tag_of (fst v) n);
  EVP_Cipher_aad v aad := Some (fst v + zlen aad, snd v);
  EVP_Cipher v x := Some (stream (fst v) x, (fst v + zlen x, snd v));
  EVP_Cipher_final v := match snd v with
    | None => Some v
    | Some tag => if bool_decide (tag = tag_of (fst v) (zlen tag)) then Some (fst v, None) else None
    end;
}.

Lemma stream_len x : forall c, zlen (stream c x) = zlen x.
Proof. induction x as [|b x IH]; intros c; [done|]. cbn. by rewrite !zlen_cons, IH. Qed.
Lemma stream_bytes x : forall c, Forall is_byte x -> Forall is_byte (stream c x).
Proof. induction x as [|b x IH]; intros c; inversion 1; subst; cbn; constructor; [apply lxor_byte; [done | apply is_byte_mod] | by apply IH]. Qed.
Lemma stream_twice x : forall c, stream c (stream c x) = x.
Proof. induction x as [|b x IH]; intros c; [done|]. cbn. by rewrite IH, Z.lxor_assoc, Z.lxor_nilpotent, Z.lxor_0_r. Qed.
Lemma stream_app x y : forall c, stream c (x ++ y) = stream c x ++ stream (c + zlen x) y.
Proof.
  induction x as [|b x IH]; intros c; cbn; [by rewrite Z.add_0_r|]. rewrite IH, zlen_cons. do 3 f_equal. lia.
Qed.

Lemma tag_of_len c n : 0 <= n -> zlen (tag_of c n) = n.
Proof. intros Hn. unfold tag_of, zlen. rewrite length_replicate. lia. Qed.

#[global] Instance evp_laws : EVPLaws ctx.
Proof.
  refine {| evp_synced c e d := e = d /\ snd e = None /\ 0 <= ci_auth_len c |}.
  - intros c e d x _ _ Bx _. do 2 eexists. split; [reflexivity|]. rewrite stream_len. by split; [|apply stream_bytes].
  - intros c e d x y e' [<- N] _ _ [= <- <-]. cbn. rewrite stream_twice, stream_len. by eexists.
  - intros c e d y x d' n _ _ [= <- <-] Hn _. exists (fst d + n, snd d). cbn.
    assert (L : zlen (ztake n y) = n) by (rewrite zlen_take; lia).
    assert (Q : stream (fst d) y = stream (fst d) (ztake n y) ++ stream (fst d + n) (zdrop n y))
      by (rewrite <- (ztake_zdrop n y) at 1; by rewrite stream_app, L).
    assert (K : zlen (stream (fst d) (ztake n y)) = n) by (by rewrite stream_len).
    rewrite Q, ztake_app_le, (ztake_all n (stream _ _)), zdrop_app_ge, K, Z.sub_diag, (zdrop_0 0), L by lia.
    split; [done|]. do 3 f_equal. rewrite zlen_drop. lia.
  - intros c e d aad x (_ & N & Hp) Ha _ Bx _. do 6 eexists. cbn. rewrite N. repeat (split; [reflexivity|]).
    rewrite stream_len. split; [done|]. split; [by apply stream_bytes|]. split.
    + apply tag_of_len, Hp.
    + apply Forall_replicate, is_byte_mod.
  - intros c e d aad x e1 e2 y e3 e4 tag (<- & N & Hp) Ha [= <-] [= <-] [= <- <-]. cbn. rewrite N. intros [= <-] [= <-]. cbn.
    rewrite !stream_len. do 3 eexists. exists (fst e + zlen aad + zlen x, Some (tag_of (fst e + zlen aad + zlen x) (ci_auth_len c))), (fst e + zlen aad + zlen x, None).
    do 3 (split; [reflexivity|]). cbn. rewrite stream_twice, ?stream_len, tag_of_len, bool_decide_true by done. done.
Defined.

#[global] Instance zlib : ZLIB unit := {
  deflateInit _ := (Z_OK, tt); inflateInit := (Z_OK, tt);
  deflate _ x n := (Z_BUF_ERROR, [], x, tt); inflate _ x n := (Z_BUF_ERROR, [], x, tt) }.

Abbreviation session := (session_state ctx (Z * list Z) (list Z * list Z) unit).

Definition aes : sshcipher := mk_sshcipher (str "aes128-ctr") 16 16 0 0 0.
Definition mac : sshmac (Z * list Z) (list Z * list Z) :=
  mk_sshmac _ _ true 8 (Some (replicate 16 5)) 16 SSH_UMAC true None (Some (replicate 16 5, [])).
Definition keys : newkeys (Z * list Z) (list Z * list Z) :=
  mk_newkeys (mk_sshenc aes 16 16 16 (replicate 16 9) (replicate 16 3)) mac (mk_sshcomp 0 false).
Definition context (enc : bool) : sshcipher_ctx ctx := mk_ctx _ false enc (Some (12, None)) no_cp aes.

Definition fresh : session := Eval vm_compute in
  match ssh_alloc_session_state 1 tt as o return match o with Some _ => session | None => unit end with
  | Some s => s
  | None => tt
  end.
(** Past the first key exchange. *)
Definition client : session := set_rekeying false (set_newkeys_out (Some keys) (set_send_context (Some (context true)) fresh)).
Definition server : session :=
  set_server_side true (set_newkeys_in (Some keys) (set_receive_context (Some (context false)) fresh)).
Definition E : penv := mk_penv 1 (fun _ n => replicate (Z.to_nat n) 7) 0 [] (replicate 64 0) [].
Definition hello : list Z := [94; 0; 0; 0; 0; 104; 105].
Definition bye : list Z := [97; 0; 0; 0; 0].

(** Two messages, the first of which arrives in three pieces. *)
Definition acts : list act := [Send E hello; Write 5; Recv E 3; Poll E; Recv E 2; Poll E; Send E bye; Write 51; Recv E 51; Poll E; Poll E].

Lemma E_ok : penv_ok E.
Proof.
  constructor; [done | | by split; [|apply Forall_replicate]].
  intros a n Hn. cbn. split; [unfold zlen; rewrite length_replicate; lia | by apply Forall_replicate].
Qed.

Lemma fresh_pbuf : pbuf (s_input fresh) [].
Proof. by apply (pbuf_new 1). Qed.

Lemma ends_connected : connected client server.
Proof.
  assert (P := fresh_pbuf). constructor; try done; try (by eexists); try (by do 2 eexists).
  exists (context true), (context false). split; [done|]. split; [done|]. split.
  - split; [|split_and!; try done; by eexists _, _]. unfold ciphers. rewrite !elem_of_cons. tauto.
  - constructor; try done. cbn. constructor; try done. right. split; [by left|]. by eexists _, _.
Qed.

Abbreviation demo_link := (link (V := ctx) (M := Z * list Z) (U := list Z * list Z) (Zs := unit)).

Lemma may_send (c : demo_link) p type data : p = type :: data -> message p -> type <> SSH2_MSG_NEWKEYS -> type <> SSH2_MSG_KEXINIT ->
  type <> SSH2_MSG_USERAUTH_SUCCESS -> 1 <= type ->
  (let s := l_snd c in s_rekeying s = false /\ s_after_authentication s = false /\ ssh_packet_check_rekey_blocklimit s 0 true = false /\
   u32 (ps_seqnr (s_p_send s) + 1) <> 0 /\ 0 <= ps_packets (s_p_send s) < 2 ^ 32 - 1 /\
   zlen (contents (s_output s)) + zlen p + 104 <= SSHBUF_SIZE_MAX) -> possible (Send E p) c.
Proof.
  intros -> Ms N1 N2 N3 N4 (A1 & A2 & A3 & A4 & A5 & A6).
  split; [apply E_ok|]. split; [done|]. split; [by exists type|]. split; [by exists type|]. split; [|split; [by left | done]].
  exists type. split; [done|]. split; [done|]. right. split; [done|]. split; [|by right].
  unfold ssh_packet_need_rekeying. by rewrite A2.
Qed.

Lemma may_poll (c : demo_link) : (let s := l_rcv c in s_rekey_interval s = 0 /\ s_newkeys_out s = None /\
   ps_packets (s_p_send s) <= MAX_PACKETS /\ 0 <= ps_packets (s_p_read s) < MAX_PACKETS /\
   s_hard_max_blocks_in s = 0 /\ s_max_blocks_in s = 0 /\ s_hard_max_blocks_out s = 0 /\ s_max_blocks_out s = 0 /\
   0 <= ps_blocks (s_p_read s) /\ 0 <= ps_blocks (s_p_send s) /\ u32 (ps_seqnr (s_p_read s) + 1) <> 0) -> possible (Poll E) c.
Proof.
  intros (A1 & A2 & A3 & A4 & A5 & A6 & A7 & A8 & A9 & A10 & A11).
  split; [apply E_ok|]. split; [|by left]. constructor; [by left | done | | | done | by rewrite A2]; intros []; left; done.
Qed.

Lemma all_possible_cons (a : act) l (c c' : demo_link) :
  possible a c -> exec a c = Some c' -> all_possible l c' -> all_possible (a :: l) c.
Proof. intros Hp He Hl. cbn [all_possible]. by rewrite He. Qed.

Lemma hello_msg : message hello.
Proof. split; [|by vm_compute]. repeat (apply Forall_cons_2; [unfold is_byte; lia|]). apply Forall_nil_2. Qed.
Lemma bye_msg : message bye.
Proof. split; [|by vm_compute]. repeat (apply Forall_cons_2; [unfold is_byte; lia|]). apply Forall_nil_2. Qed.

Ltac feasible := eapply all_possible_cons; [ | vm_compute; reflexivity | ]; [
  first [ eapply may_send; [reflexivity | first [apply hello_msg | apply bye_msg] | done.. | by vm_compute]
        | split; [apply E_ok | by vm_compute]
        | apply may_poll; by vm_compute
        | by vm_compute ] | ].

Lemma acts_possible : all_possible acts (mk_link client server 0 [] []).
Proof.
  unfold acts.
  repeat feasible. exact I.
Qed.
End LinkDemo.

Lemma packet_stream_delivered_witness : exists c, run LinkDemo.acts (mk_link LinkDemo.client LinkDemo.server 0 [] []) = Some c /\
  (exists rest, l_sent c = l_got c ++ rest) /\ l_got c = [LinkDemo.hello; LinkDemo.bye].
Proof.
  destruct (packet_stream_delivered LinkDemo.client LinkDemo.server LinkDemo.acts LinkDemo.ends_connected eq_refl LinkDemo.acts_possible)
    as (c & Er & Ep & _).
  exists c. split; [exact Er|]. split; [exact Ep|]. revert Er. vm_compute. by intros [= <-].
Defined.
