(* ===== verification/PacketFrame.v ===== *)
(** * The packet layer: sending leaves receiving alone

    Both directions of a connection share one [session_state], and the receiving
    code sends packets of its own (disconnect messages, KEXINIT).  No path
    through the sending code touches what belongs to the packet being received. *)
From S2P Require Import Prelude Sshbuf SshbufGetput CString SshbufMisc Words Chacha ChachaPoly Cipher Hmac Mac PacketState Packet.

Create HintDb spares.

Section Frame.
Context {V M U Zs : Type} `{EVP V} `{EVP_MD M} `{UMAC U} `{ZLIB Zs}.
Implicit Types s : session_state V M U Zs.
Implicit Types E : penv.

(** The receiving side: the input, the packet in progress, its decryption
    context and its counters. *)
Definition rside s := (s_input s, s_incoming_packet s, s_receive_context s, s_p_read s, s_packlen s, s_packet_discard s).

Definition spares {A} (m : PM V M U Zs A) : Prop := forall s, rside (snd (m s)) = rside s.

(** ** The constructs *)

Lemma spares_ret {A} (a : A) : spares (ret a).
Proof. done. Qed.
Lemma spares_fail {A} e : spares (fail (A := A) e).
Proof. done. Qed.
Lemma spares_crash {A} : spares (crash (A := A)).
Proof. done. Qed.
Lemma spares_get : spares get.
Proof. done. Qed.
Lemma spares_reads {A} (f : session_state V M U Zs -> res A) : spares (reads f).
Proof. done. Qed.
Lemma spares_defined {A} (o : option A) : spares (defined o).
Proof. by destruct o. Qed.
Lemma spares_bind {A B} (m : PM V M U Zs A) (k : A -> PM V M U Zs B) : spares m -> (forall a, spares (k a)) -> spares (bind m k).
Proof.
  intros Hm Hk s. unfold bind. specialize (Hm s). destruct (m s) as [[a|e|] s1]; cbn [snd] in *; [|done..]. by rewrite Hk.
Qed.
Lemma spares_upd f : (forall s, rside (f s) = rside s) -> spares (upd f).
Proof. intros Hf s. apply Hf. Qed.
Lemma spares_ignore {A} (m : PM V M U Zs A) : spares m -> spares (ignore m).
Proof. intros Hm s. specialize (Hm s). unfold ignore. by destruct (m s) as [[] ?]. Qed.
Lemma spares_rounds {A B} (body : A -> PM V M U Zs (A + B)) k : (forall a, spares (body a)) -> forall a, spares (rounds k body a).
Proof.
  intros Hb. induction k as [|k IH]; intros a; [apply Hb|]. cbn [rounds]. apply spares_bind; [apply IH|].
  intros [a'|b]; [apply IH | apply spares_ret].
Qed.

(** ** The parts of the session that sending works on *)

Lemma spares_on_output {A} (m : ST sshbuf A) : spares (on_output m).
Proof. intros s. unfold on_output. by destruct (m _). Qed.
Lemma spares_on_outgoing {A} (m : ST sshbuf A) : spares (on_outgoing m).
Proof. intros s. unfold on_outgoing. destruct (s_outgoing_packet s); [|done]. by destruct (m _). Qed.
Lemma spares_on_compression {A} (m : ST sshbuf A) : spares (on_compression m).
Proof. intros s. unfold on_compression. destruct (s_compression_buffer s); [|done]. by destruct (m _). Qed.
Lemma spares_on_send_context {A} (m : ST (sshcipher_ctx V) A) : spares (on_send_context m).
Proof. intros s. unfold on_send_context. destruct (s_send_context s); [|done]. by destruct (m _). Qed.
Lemma spares_on_mac_out {A} (m : ST (sshmac M U) A) : spares (on_mac_out m).
Proof. intros s. unfold on_mac_out. destruct (s_newkeys_out s); [|done]. by destruct (m _). Qed.
Lemma spares_the_kex : spares the_kex.
Proof. intros s. unfold the_kex. by destruct (s_kex s). Qed.
Lemma spares_upd_kex f : spares (upd_kex f).
Proof. intros s. unfold upd_kex. by destruct (s_kex s). Qed.
End Frame.

#[export] Hint Resolve spares_ret spares_fail spares_crash spares_get spares_reads spares_defined
  spares_on_output spares_on_outgoing spares_on_compression spares_on_send_context spares_on_mac_out spares_the_kex spares_upd_kex : spares.

(** Follow the code to its primitive steps. *)
Ltac spare :=
  repeat lazymatch goal with
  | |- spares (bind _ _) => apply spares_bind; [|intros]
  | |- spares (upd _) => apply spares_upd; intros; reflexivity
  | |- spares (ignore _) => apply spares_ignore
  | |- spares (rounds _ _ _) => apply spares_rounds; intros
  | |- spares (match ?x with _ => _ end) => destruct x
  | |- spares (let _ := _ in _) => cbv zeta
  | |- spares _ => solve [auto 2 with spares]
  end.

Section Sending.
Context {V M U Zs : Type} `{EVP V} `{EVP_MD M} `{UMAC U} `{ZLIB Zs}.
Implicit Types E : penv.
Implicit Types disc rekex sender : PM V M U Zs unit.
#[local] Abbreviation spares := (spares (V := V) (M := M) (U := U) (Zs := Zs)).

Lemma spares_enable_comp E m : spares (enable_comp E m).
Proof. unfold enable_comp, ssh_packet_init_compression, start_compression_out, start_compression_in. destruct m; spare. Qed.
Hint Resolve spares_enable_comp : spares.

Lemma spares_enable_delayed_compress E : spares (ssh_packet_enable_delayed_compress E).
Proof. unfold ssh_packet_enable_delayed_compress, delay_comp. spare. Qed.
Hint Resolve spares_enable_delayed_compress : spares.

Lemma spares_set_newkeys_out E : spares (ssh_set_newkeys E MODE_OUT).
Proof. unfold ssh_set_newkeys, set_cur_newkeys, set_cur_context. spare. Qed.
Hint Resolve spares_set_newkeys_out : spares.

Lemma spares_compress_packet E : spares (compress_packet E).
Proof. unfold compress_packet, compress_buffer, stream_input, compress_round. spare. Qed.
Hint Resolve spares_compress_packet : spares.

Lemma spares_send2_wrapped disc E : spares disc -> spares (send2_wrapped disc E).
Proof. intros Hd. unfold send2_wrapped, pad_length, pad_packet, seal_packet, count_sent. spare. Qed.
Hint Resolve spares_send2_wrapped : spares.

Lemma spares_flush_queue disc rekex E : spares disc -> spares rekex -> forall fuel, spares (flush_queue disc rekex E fuel).
Proof. intros Hd Hr fuel. induction fuel as [|fuel IH]; cbn [flush_queue]; spare. Qed.
Hint Resolve spares_flush_queue : spares.

Lemma spares_send disc rekex E : spares disc -> spares rekex -> spares (send disc rekex E).
Proof.
  intros Hd Hr. unfold send, ssh_packet_send_mux, send2, enqueue, ssh_packet_check_rekey_preauth. spare.
Qed.
Hint Resolve spares_send : spares.

Lemma spares_write_poll w : spares (ssh_packet_write_poll w).
Proof. unfold ssh_packet_write_poll. spare. Qed.
Hint Resolve spares_write_poll : spares.
Lemma spares_write_loop ws : spares (write_loop ws).
Proof. induction ws as [|w ws IH]; cbn [write_loop]; unfold ssh_packet_have_data_to_write; spare. Qed.
Hint Resolve spares_write_loop : spares.
Lemma spares_write_wait E : spares (ssh_packet_write_wait E).
Proof. unfold ssh_packet_write_wait. spare. Qed.
Hint Resolve spares_write_wait : spares.

Lemma spares_disconnect_msg E sender msg : spares sender -> spares (disconnect_msg E sender msg).
Proof. intros Hs. unfold disconnect_msg, sshpkt_start, sshpkt_put_u32, sshpkt_put_cstring. spare. Qed.
Hint Resolve spares_disconnect_msg : spares.

Lemma spares_disconnect E msg : spares (ssh_packet_disconnect E msg).
Proof. unfold ssh_packet_disconnect, packet_disconnect. spare. apply spares_disconnect_msg. auto with spares. Qed.
Hint Resolve spares_disconnect : spares.

Lemma spares_send_kexinit E sender : spares sender -> spares (send_kexinit E sender).
Proof. intros Hs. unfold send_kexinit, sshpkt_start, sshpkt_putb. spare. Qed.
Hint Resolve spares_send_kexinit : spares.

Lemma spares_start_rekex E : spares (kex_start_rekex E).
Proof. unfold kex_start_rekex, start_rekex. spare. apply spares_send_kexinit. auto with spares. Qed.
Hint Resolve spares_start_rekex : spares.

Lemma spares_check_rekey E : spares (ssh_packet_check_rekey E).
Proof. unfold ssh_packet_check_rekey, ssh_packet_check_rekey_preauth. spare. Qed.
End Sending.
#[export] Hint Resolve spares_enable_delayed_compress spares_check_rekey : spares.

Section Properties.
Context {V M U Zs : Type} `{EVP V} `{EVP_MD M} `{UMAC U} `{ZLIB Zs}.

(** Sending never disturbs receiving: whatever the state of the session
    and however the call ends, sending a packet (queueing it, releasing the
    queue, starting a key exchange, switching to new keys), disconnecting,
    starting a key exchange and writing output leave the input buffer, the
    packet being received, the decryption context and the counters of the
    receiving side as they were. *)
Theorem sending_leaves_receiving (E : penv) (msg : list Z) (w : wranswer) (s : session_state V M U Zs) :
  rside (snd (sshpkt_send E s)) = rside s /\
  rside (snd (ssh_packet_disconnect E msg s)) = rside s /\
  rside (snd (kex_start_rekex E s)) = rside s /\
  rside (snd (ssh_packet_check_rekey E s)) = rside s /\
  rside (snd (ssh_packet_write_poll w s)) = rside s /\
  rside (snd (ssh_packet_write_wait E s)) = rside s.
Proof.
  split_and!; [apply spares_send; [apply spares_disconnect | apply spares_start_rekex] | apply spares_disconnect | apply spares_start_rekex
    | apply spares_check_rekey | apply spares_write_poll | apply spares_write_wait].
Qed.
End Properties.
