(* ===== verification/PacketAuth.v ===== *)
(** * The packet layer: no packet is delivered before its code was checked

    The receiver on arbitrary input, not only on what an honest sender sent. *)
From S2P Require Import Prelude Sshbuf SshbufGetput CString SshbufMisc Words Chacha ChachaPoly Cipher Hmac Mac PacketState Packet PacketBuf PacketSend PacketRecv PacketLink PacketFrame.

(** ** Running backwards from a result *)

Section Invert.
Context {S A B : Type}.

Lemma bind_inv (m : ST S A) (k : A -> ST S B) s b s' : bind m k s = (Ok b, s') ->
  exists a s1, m s = (Ok a, s1) /\ k a s1 = (Ok b, s').
Proof. unfold bind. destruct (m s) as [[a|e|] s1]; intros Q; [by exists a, s1 | done | done]. Qed.

Lemma defined_inv (o : option A) (s s' : S) a : defined o s = (Ok a, s') -> o = Some a /\ s' = s.
Proof. unfold defined. destruct o; by intros [= -> ->]. Qed.
End Invert.

Lemma mem_read_inv m o n v : mem_read m o n = Some v -> 0 <= o /\ 0 <= n /\ o + n <= zlen m /\ v = ztake n (zdrop o m).
Proof. unfold mem_read. destruct (_ && _) eqn:C; intros [= <-]. zbool. split_and!; first [lia | done]. Qed.

(** Take the next step of a run that ended well. *)
Ltac inv_step Q a s E := apply bind_inv in Q as (a & s & E & Q).

Section Auth.
Context {V M U Zs : Type} `{EVP V} `{EVP_MD M} `{UMAC U} `{ZLIB Zs}.
Implicit Types s : session_state V M U Zs.
Implicit Types d : sshcipher_ctx V.
Implicit Types k : newkeys M U.

(** EVP_Cipher writes as many bytes as it reads. *)
Hypothesis evp_writes : forall v x y v', EVP_Cipher v x = Some (y, v') -> Forall is_byte x -> zlen y = zlen x /\ Forall is_byte y.

Lemma evp_step_inv {A} (f : V -> option (A * V)) e d a d' : evp_step f e d = (Ok a, d') ->
  exists v v', cc_evp d = Some v /\ f v = Some (a, v') /\ d' = set_evp v' d.
Proof. unfold evp_step. destruct (cc_evp d) as [v|]; [|done]. destruct (f v) as [[a0 v']|] eqn:F; intros [= <- <-]. by exists v, v'. Qed.

(** Without authentication a decryption has the length of its input. *)
Lemma crypt_shape tmp q src n aad d x d' : flag (cc_cipher d) CFLAG_CHACHAPOLY = false -> Forall is_byte src ->
  cipher_crypt tmp q src n aad 0 d = (Ok x, d') ->
  aad + n <= zlen src /\ zlen x = aad + n /\ Forall is_byte x /\ cc_cipher d' = cc_cipher d.
Proof.
  intros F1 Bs Q. unfold cipher_crypt in Q. rewrite bind_get, F1 in Q. destruct (flag _ CFLAG_NONE).
  - apply defined_inv in Q as [Q ->]. apply mem_read_inv in Q as (_ & ? & ? & ->). rewrite zdrop_0 by lia.
    split; [lia|]. split; [rewrite zlen_take; lia|]. split; [by apply Forall_take | done].
  - cbn [Z.eqb negb andb] in Q. rewrite bind_ret_l in Q. inv_step Q a d1 E1.
    assert (d1 = d /\ 0 <= aad <= zlen src /\ a = ztake aad src) as (-> & Ha & ->).
    { destruct (aad =? 0) eqn:C; zbool.
      - injection E1 as <- <-. pose proof (zlen_nonneg src). rewrite C, ztake_0 by lia. done.
      - inv_step E1 a0 d0 E0. apply defined_inv in E0 as [E0 ->]. apply mem_read_inv in E0 as (? & ? & ? & ->).
        rewrite zdrop_0 in E1 by lia. injection E1 as <- <-. done. }
    destruct (negb _); [done|]. inv_step Q data d1 E2. apply defined_inv in E2 as [E2 ->]. apply mem_read_inv in E2 as (? & ? & ? & ->).
    inv_step Q body d1 E3. apply evp_step_inv in E3 as (v & v' & Ev & E3 & ->).
    destruct (evp_writes _ _ _ _ E3) as [Lb Bb]; [by apply Forall_take, Forall_drop|]. injection Q as <- <-.
    split; [lia|]. split; [|split; [|done]].
    + rewrite zlen_app, Lb, !zlen_take, zlen_drop. lia.
    + apply Forall_app. split; [by apply Forall_take | done].
Qed.

(** A code that was accepted is the one the key gives. *)
Lemma mac_check_inv um q data theirs n (m m' : sshmac M U) : mac_check um q data theirs n m = (Ok tt, m') ->
  exists tag, mac_compute um q data SSH_DIGEST_MAX_LENGTH m = (Ok tag, m') /\ tag = ztake (mac_len m) theirs /\
    0 <= mac_len m <= zlen theirs /\ mac_len m <= n.
Proof.
  unfold mac_check. rewrite bind_get. destruct (n <? mac_len m) eqn:C; [done|]. zbool. intros Q.
  inv_step Q tag m1 E1. inv_step Q th m2 E2. apply defined_inv in E2 as [E2 ->]. apply mem_read_inv in E2 as (_ & ? & ? & ->).
  rewrite zdrop_0 in Q by lia. case_bool_decide as D; [|done]. injection Q as <-. exists tag. split; [done|]. split; [done|]. lia.
Qed.

(** ** The receiver *)

Lemma on_input_inv {A} (m : ST sshbuf A) s a s' : on_input m s = (Ok a, s') -> exists b, m (s_input s) = (Ok a, b) /\ s' = set_input b s.
Proof. unfold on_input. destruct (m _) as [r b] eqn:E. intros [= -> <-]. by exists b. Qed.
Lemma on_incoming_inv {A} (m : ST sshbuf A) s a s' :
  on_incoming m s = (Ok a, s') -> exists b, m (s_incoming_packet s) = (Ok a, b) /\ s' = set_incoming_packet b s.
Proof. unfold on_incoming. destruct (m _) as [r b] eqn:E. intros [= -> <-]. by exists b. Qed.
Lemma on_receive_context_inv {A} (m : ST (sshcipher_ctx V) A) s a s' d : s_receive_context s = Some d ->
  on_receive_context m s = (Ok a, s') -> exists d', m d = (Ok a, d') /\ s' = set_receive_context (Some d') s.
Proof. intros Ed. unfold on_receive_context. rewrite Ed. destruct (m d) as [r d'] eqn:E. intros [= -> <-]. by exists d'. Qed.
Lemma on_mac_in_inv {A} (m : ST (sshmac M U) A) s a s' k : s_newkeys_in s = Some k ->
  on_mac_in m s = (Ok a, s') -> exists m', m (nk_mac k) = (Ok a, m') /\ s' = set_newkeys_in (Some (set_nk_mac m' k)) s.
Proof. intros Ek. unfold on_mac_in. rewrite Ek. destruct (m _) as [r m'] eqn:E. intros [= -> <-]. by exists m'. Qed.

(** A session that receives packets protected by a MAC, with [i] in its input
    and [inc] of the packet in progress decrypted. *)
Record receivable s k d (i inc : list Z) : Prop := {
  rc_keys : s_newkeys_in s = Some k;
  rc_mac : mac_enabled (nk_mac k) = true /\ cipher_authlen (enc_cipher (nk_enc k)) = 0 /\ 0 <= mac_len (nk_mac k) <= 64;
  rc_ctx : s_receive_context s = Some d /\ cc_cipher d = enc_cipher (nk_enc k) /\ cc_cipher d ∈ ciphers;
  rc_block : enc_block_size (nk_enc k) = 8 \/ enc_block_size (nk_enc k) = 16;
  rc_in : pbuf (s_input s) i;
  rc_inc : pbuf (s_incoming_packet s) inc;
  rc_packlen : s_packlen s = 0 \/ 5 <= s_packlen s <= PACKET_MAX_SIZE /\
    zlen inc = (if mac_etm (nk_mac k) then 0 else enc_block_size (nk_enc k));
}.

Lemma receivable_keys s k d i inc : receivable s k d i inc ->
  keys_mac (Some k) = Some (nk_mac k) /\ keys_authlen (Some k) = 0 /\ keys_maclen (Some k) = mac_len (nk_mac k) /\
  keys_aadlen (Some k) = (if mac_etm (nk_mac k) then 4 else 0) /\ flag (cc_cipher d) CFLAG_CHACHAPOLY = false.
Proof.
  intros [_ (M1 & M2 & M3) (_ & C1 & C2) _ _ _ _]. unfold keys_maclen, keys_aadlen, keys_mac, keys_authlen. rewrite M2. cbn [Z.eqb negb mac_on mac_is_etm].
  rewrite M1. split_and!; try done; [by destruct (mac_etm _)|].
  destruct (flag _ _) eqn:F; [|done]. destruct (cipher_facts _ C2) as (_ & _ & FC & _). specialize (FC F).
  rewrite <- C1 in M2. unfold cipher_authlen in M2. lia.
Qed.

(** The session has learnt the length of the packet; [y] went into [inc']. *)
Definition measured_as s s' k d i y : Prop := exists d' i' inc', receivable s' k d' i' inc' /\ s_packlen s' <> 0 /\ i = y ++ i' /\
  s_p_read s' = s_p_read s /\ (mac_etm (nk_mac k) = true -> y = [] /\ d' = d).

Lemma read_length_inv E s s' k d i inc : penv_ok E -> receivable s k d i inc -> read_length E s = (Ok true, s') ->
  exists y, measured_as s s' k d i y.
Proof.
  intros HE R Q. destruct (receivable_keys _ _ _ _ _ R) as (_ & _ & _ & Ka & Fc). pose proof R as [Ek Rm (Ed & Ec & Et) Rb Pi Pc Rp].
  pose proof (po_np _ HE). unfold read_length in Q. rewrite bind_get, Ek in Q. destruct (s_packlen s =? 0) eqn:C; zbool; cbn [negb] in Q.
  2:{ injection Q as <-. exists []. by exists d, i, inc. }
  rewrite Ka in Q. destruct (mac_etm (nk_mac k)) eqn:Etm; cbn [Z.eqb negb] in Q.
  - exists []. rewrite (bind_ok _ _ _ _ _ (on_input_same _ _ _ (pb_bytes _ _ Pi))) in Q.
    inv_step Q r s1 E1. destruct (on_receive_context _ s) as [[n|e|] s2] eqn:E2; [injection E1 as <- <- | by injection E1 as <- <- | done].
    destruct (on_receive_context_inv _ _ _ _ _ Ed E2) as (d' & E3 & ->).
    assert (d' = d) as ->.
    { unfold cipher_get_length in E3. rewrite bind_get, Fc in E3. destruct (_ <? 4); [done|]. inv_step E3 p0 d0 E4.
      apply defined_inv in E4 as [_ ->]. by apply defined_inv in E3 as [_ ->]. }
    rewrite bind_update in Q. destruct (bad_packlen n) eqn:Bad; [inv_step Q x s3 E5; done|].
    destruct (pb_reset (pe_np E) _ _ Pc) as (b & Eb & Pb).
    erewrite bind_ok in Q by (eapply on_incoming_ok; exact Eb). injection Q as <-.
    unfold bad_packlen in Bad. zbool. exists d, i, []. split; [|split_and!; try done; cbn; lia].
    constructor; try done. right. cbn. rewrite Etm. split; [lia | done].
  - rewrite (bind_ok _ _ _ _ _ (on_input_same _ _ _ (pb_len _ _ Pi))) in Q. destruct (_ <? _) eqn:Hl; [done|]. zbool.
    unfold keys_block_size in Q, Hl. set (bs := enc_block_size (nk_enc k)) in *.
    destruct (pb_reset (pe_np E) _ _ Pc) as (b & Eb & Pb). erewrite bind_ok in Q by (eapply on_incoming_ok; exact Eb).
    destruct (pb_reserve (pe_np E) bs _ _ Pb) as (b1 & junk & Eb1 & Pb1 & Lj); [lia | lia | rewrite zlen_nil; sb_consts; lia |].
    erewrite bind_ok in Q by (eapply on_incoming_ok; exact Eb1).
    erewrite bind_ok in Q by (eapply on_input_same; exact (pb_bytes _ _ Pi)).
    inv_step Q x s1 E1. eapply on_receive_context_inv in E1 as (d' & E1 & ->); [|exact Ed].
    destruct (crypt_shape _ _ _ _ _ _ _ _ Fc (pbuf_bytes _ _ Pi) E1) as (_ & Lx & Bx & Ec'). rewrite Z.add_0_l in Lx.
    destruct (pb_fill b1 [] junk x Pb1 Bx ltac:(lia)) as (b2 & Eb2 & Pb2 & _).
    erewrite bind_ok in Q by (eapply on_incoming_ok; exact Eb2).
    erewrite bind_ok in Q by (eapply on_incoming_ok; apply (pb_peek _ _ 0 4 Pb2); cbn [app]; lia).
    inv_step Q n s1 E2. apply defined_inv in E2 as [_ ->]. rewrite bind_update in Q.
    destruct (bad_packlen n) eqn:Bad; [inv_step Q u s3 E5; done|]. unfold bad_packlen in Bad. zbool.
    destruct (pb_consume bs _ _ Pi ltac:(lia)) as (b3 & Eb3 & Pb3). erewrite bind_ok in Q by (eapply on_input_ok; exact Eb3).
    injection Q as <-. exists (ztake bs i). exists d', (zdrop bs i), x.
    split; [|split_and!; try done; [cbn; lia | by rewrite ztake_zdrop | congruence]].
    constructor; try done; [by rewrite Ec' | right; cbn; rewrite Etm; split; [lia | done]].
Qed.

(** The rest of the packet and its code. *)
Lemma need_bounds s k d i inc : receivable s k d i inc -> s_packlen s <> 0 ->
  let bs := enc_block_size (nk_enc k) in
  let need := if mac_etm (nk_mac k) then s_packlen s else u32 (4 + s_packlen s - bs) in
  need mod bs = 0 -> 0 <= need <= PACKET_MAX_SIZE /\ 8 <= zlen inc + need.
Proof.
  intros [_ _ _ Rb _ _ [?|[Rp Li]]] Hp bs need Hm; [done|]. subst need. fold bs in Rb, Li. unfold PACKET_MAX_SIZE in *.
  destruct (mac_etm (nk_mac k)); [destruct Rb as [Rb|Rb]; rewrite Rb in *; Z.div_mod_to_equations; lia|].
  destruct Rb as [Rb|Rb]; rewrite Rb in *; unfold u32 in *; Z.div_mod_to_equations; lia.
Qed.

(** The code over the packet [pkt], encrypted as [y], was [tag]. *)
Definition authentic E (q : Z) k (pkt y tag : list Z) m' : Prop :=
  mac_compute (pe_um E) q (if mac_etm (nk_mac k) then y else pkt) SSH_DIGEST_MAX_LENGTH (nk_mac k) = (Ok tag, m').

Definition opened_as E s s' k d i : Prop := exists y tag i' pkt m', i = y ++ tag ++ i' /\
  authentic E (ps_seqnr (s_p_read s)) k pkt y tag m' /\
  (mac_etm (nk_mac k) = true -> exists d', cipher_crypt (pe_tmp E) (ps_seqnr (s_p_read s)) i (zlen y - 4) 4 0 d = (Ok pkt, d')) /\
  pbuf (s_input s') i' /\ pbuf (s_incoming_packet s') pkt /\ 8 <= zlen pkt /\
  s_newkeys_in s' = Some (set_nk_mac m' k) /\ s_p_read s' = s_p_read s.

(** Decrypting the rest of the packet. *)
Lemma decrypt_inv {B} E s s' d i inc q need aad (K : PM V M U Zs B) b : penv_ok E ->
  pbuf (s_input s) i -> pbuf (s_incoming_packet s) inc -> s_receive_context s = Some d ->
  flag (cc_cipher d) CFLAG_CHACHAPOLY = false -> 0 <= aad + need -> zlen inc + (aad + need) <= SSHBUF_SIZE_MAX ->
  (let! cp := on_incoming (sshbuf_reserve (pe_np E) (aad + need)) in
   let! x := on_receive_context (cipher_crypt (pe_tmp E) q i need aad 0) in
   do! on_incoming (mem_poke cp x) ;;
   do! on_input (sshbuf_consume (aad + need + 0)) ;; K) s = (Ok b, s') ->
  exists s1 x d', K s1 = (Ok b, s') /\ cipher_crypt (pe_tmp E) q i need aad 0 d = (Ok x, d') /\ zlen x = aad + need /\
    pbuf (s_input s1) (zdrop (aad + need) i) /\ pbuf (s_incoming_packet s1) (inc ++ x) /\
    s_newkeys_in s1 = s_newkeys_in s /\ s_p_read s1 = s_p_read s.
Proof.
  intros HE Pi Pc Ed Fc H0' Hmax Q. pose proof (po_np _ HE). rewrite Z.add_0_r in Q.
  destruct (pb_reserve (pe_np E) (aad + need) _ _ Pc) as (b1 & junk & Eb1 & Pb1 & Lj); [lia | lia | lia |].
  erewrite bind_ok in Q by (eapply on_incoming_ok; exact Eb1). inv_step Q x s1 E1.
  eapply on_receive_context_inv in E1 as (d' & E1 & ->); [|exact Ed].
  destruct (crypt_shape _ _ _ _ _ _ _ _ Fc (pbuf_bytes _ _ Pi) E1) as (Hi & Lx & Bx & _).
  destruct (pb_fill b1 inc junk x Pb1 Bx ltac:(lia)) as (b2 & Eb2 & Pb2 & _).
  erewrite bind_ok in Q by (eapply on_incoming_ok; exact Eb2).
  destruct (pb_consume (aad + need) _ _ Pi ltac:(lia)) as (b3 & Eb3 & Pb3). erewrite bind_ok in Q by (eapply on_input_ok; exact Eb3).
  eexists _, x, d'. split; [exact Q|]. by split_and!.
Qed.

(** The input behind what was read. *)
Lemma split_input n m (i : list Z) : 0 <= n -> 0 <= m -> i = ztake n i ++ ztake m (zdrop n i) ++ zdrop m (zdrop n i).
Proof. intros. by rewrite !ztake_zdrop. Qed.

Lemma open_packet_inv E s s' k d i inc : penv_ok E -> receivable s k d i inc -> s_packlen s <> 0 ->
  open_packet E s = (Ok true, s') -> opened_as E s s' k d i.
Proof.
  intros HE R Hp Q. destruct (receivable_keys _ _ _ _ _ R) as (Km & Ka & Kl & Kaad & Fc).
  pose proof (need_bounds _ _ _ _ _ R Hp) as Hn. cbv zeta in Hn. pose proof R as [Ek (M1 & _ & M3) (Ed & Ec & Et) Rb Pi Pc Rp].
  pose proof (po_np _ HE). pose proof (pbuf_len_max _ _ Pi) as Li. unfold open_packet in Q. rewrite bind_get, Ek, Ka, Km, Kl, Kaad in Q.
  cbn [mac_on mac_is_etm keys_block_size] in Q. rewrite M1 in Q. unfold PACKET_MAX_SIZE in *. set (q := ps_seqnr (s_p_read s)) in *.
  set (ml := mac_len (nk_mac k)) in *.
  destruct (mac_etm (nk_mac k)) eqn:Etm; cbn [Z.eqb negb andb] in Q;
  match type of Hn with ?n mod _ = 0 -> _ => set (need := n) in * end;
  (destruct (need mod _ =? 0) eqn:Hm; cbn [negb] in Q; zbool; [|inv_step Q x s1 E1; done]);
  specialize (Hn Hm); (destruct Rp as [?|[Rp Linc]]; [done|]);
  rewrite (bind_ok _ _ _ _ _ (on_input_same _ _ _ (pb_len _ _ Pi))) in Q; rewrite u32_small in Q by lia;
  (destruct (_ <? _) eqn:Hl in Q; [done|]); zbool;
  rewrite (bind_ok _ _ _ _ _ (on_input_same _ _ _ (pb_bytes _ _ Pi))) in Q.
  - inv_step Q u s1 E1. inv_step E1 data s0 E0. apply defined_inv in E0 as [E0 ->]. apply mem_read_inv in E0 as (_ & _ & _ & ->).
    rewrite zdrop_0, Z.add_0_r in E1 by lia. apply (on_mac_in_inv _ _ _ _ _ Ek) in E1 as (m' & E1 & ->). destruct u.
    apply mac_check_inv in E1 as (tag & Ec1 & -> & Ht & _). fold ml in Ht.
    apply (decrypt_inv E _ _ d i inc) in Q as (s1 & x & d' & Q & Ex & Lx & P1 & P2 & F1 & F2); try done; try (sb_consts; lia).
    rewrite bind_ret_l in Q.
    destruct (pb_consume ml _ _ P1 ltac:(rewrite zlen_drop; lia)) as (b3 & Eb3 & Pb3). erewrite bind_ok in Q by (eapply on_input_ok; exact Eb3).
    injection Q as <-. exists (ztake (4 + need) i), (ztake ml (zdrop (4 + need) i)), (zdrop ml (zdrop (4 + need) i)), x, m'.
    destruct inc; [|rewrite zlen_cons in Linc; pose proof (zlen_nonneg inc); lia].
    split; [apply split_input; lia|]. unfold authentic. rewrite Etm. split; [done|]. split; [intros _; exists d'|].
    { rewrite zlen_take. by replace (Z.min (Z.max (4 + need) 0) (zlen i) - 4) with need by lia. }
    split; [done|]. split; [done|]. split; [cbn [app]; lia|]. split; [exact F1 | exact F2].
  - rewrite bind_ret_l in Q.
    apply (decrypt_inv E _ _ d i inc) in Q as (s1 & x & d' & Q & Ex & Lx & P1 & P2 & F1 & F2); try done; try (sb_consts; lia).
    rewrite !Z.add_0_l in *. inv_step Q ok s2 E1. rewrite (bind_ok _ _ _ _ _ (on_incoming_same _ _ _ (pb_bytes _ _ P2))) in E1.
    rewrite (bind_ok _ _ _ _ _ (on_input_same _ _ _ (pb_bytes _ _ P1))) in E1.
    destruct (on_mac_in _ s1) as [[[]|e|] s3] eqn:E2; [injection E1 as <- <- | destruct (e =? _); [|done] | done].
    2:{ injection E1 as <- <-. destruct (_ <? _); [done|]. inv_step Q n s4 E4. inv_step Q u s5 E5. done. }
    rewrite Ek in F1. apply (on_mac_in_inv _ _ _ _ _ F1) in E2 as (m' & E2 & ->).
    apply mac_check_inv in E2 as (tag & Ec1 & -> & Ht & _). fold ml in Ht.
    destruct (pb_consume ml _ _ P1 ltac:(lia)) as (b3 & Eb3 & Pb3). erewrite bind_ok in Q by (eapply on_input_ok; exact Eb3).
    injection Q as <-. exists (ztake need i), (ztake ml (zdrop need i)), (zdrop ml (zdrop need i)), (inc ++ x), m'.
    split; [apply split_input; lia|]. unfold authentic. rewrite Etm. split; [done|]. split; [done|].
    split; [done|]. split; [done|]. split; [rewrite zlen_app; lia|]. split; [reflexivity | exact F2].
Qed.

Lemma disconnect_never_returns E msg s s' : ssh_packet_disconnect E msg s <> (Ok tt, s').
Proof.
  intros Q. unfold ssh_packet_disconnect, packet_disconnect in Q. rewrite bind_get in Q. destruct (s_disconnecting s); [done|].
  rewrite bind_update in Q. by inv_step Q u s1 E1.
Qed.

Lemma corrupt_fails {A} E msg e s s' (a : A) : corrupt E msg e s = (Ok a, s') -> False.
Proof. intros Q. unfold corrupt in Q. inv_step Q u s1 E1. by inv_step Q u' s2 E2. Qed.

(** The buffers of the receiver and its keys. *)
Definition rbufs s := (s_input s, s_incoming_packet s, s_newkeys_in s).

Lemma count_read_inv E s q s' : count_read E s = (Ok q, s') -> q = ps_seqnr (s_p_read s) /\ rbufs s' = rbufs s.
Proof.
  intros Q. unfold count_read in Q. rewrite bind_get, bind_update, bind_get in Q. inv_step Q u s1 E1.
  assert (rbufs s1 = rbufs s) as R1.
  { destruct (_ =? 0) in E1; [|by injection E1 as <- <-]. inv_step E1 k s2 E2.
    assert (rbufs s2 = rbufs s) as R2 by (unfold the_kex in E2; destruct (s_kex _); [by injection E2 as <- <- | done]).
    destruct (negb _) in E1; [by destruct u, (disconnect_never_returns _ _ _ _ E1) | by injection E1 as <- <-]. }
  rewrite bind_update, bind_get in Q. destruct (_ =? 0) in Q; [done|]. rewrite bind_update in Q. by injection Q as <- <-.
Qed.

Lemma unpad_packet_inv E s s' pkt : pbuf (s_incoming_packet s) pkt -> 8 <= zlen pkt -> keys_comp (s_newkeys_in s) = false ->
  unpad_packet E s = (Ok tt, s') ->
  exists hdr body pad, pkt = hdr ++ [zlen pad] ++ body ++ pad /\ zlen hdr = 4 /\ 4 <= zlen pad /\
    pbuf (s_incoming_packet s') body /\ s_input s' = s_input s.
Proof.
  intros P L Hc Q. unfold unpad_packet in Q.
  rewrite (bind_ok _ _ _ _ _ (on_incoming_same _ _ _ (pb_peek _ _ 4 1 P ltac:(lia) ltac:(lia) ltac:(lia)))) in Q.
  inv_step Q n s1 E1. apply defined_inv in E1 as [E1 ->]. destruct (n <? 4) eqn:Hn; zbool; [by apply corrupt_fails in Q|].
  destruct (pb_consume (4 + 1) _ _ P ltac:(lia)) as (b & Eb & Pb). erewrite bind_ok in Q by (eapply on_incoming_ok; exact Eb).
  inv_step Q u s1 E2. apply on_incoming_inv in E2 as (b1 & E2 & ->). change (sshbuf_consume_end n b = (Ok u, b1)) in E2.
  assert (n <= zlen (zdrop (4 + 1) pkt)) as Hle.
  { destruct (sshbuf_consume_end_spec n b (pb_wf _ _ Pb) ltac:(lia)) as [[_ F]|[F _]]; [by rewrite F in E2 | by rewrite (pb_data _ _ Pb) in F]. }
  destruct (pb_consume_end n _ _ Pb ltac:(lia)) as (b2 & E3 & Pb2). rewrite E3 in E2. injection E2 as _ <-.
  rewrite bind_get in Q. cbn [s_newkeys_in set_incoming_packet] in Q. rewrite Hc in Q. injection Q as <-.
  set (m := zlen (zdrop (4 + 1) pkt)) in *. assert (Lm : m = zlen pkt - 5) by (unfold m; rewrite zlen_drop; lia).
  exists (ztake 4 pkt), (ztake (m - n) (zdrop (4 + 1) pkt)), (zdrop (m - n) (zdrop (4 + 1) pkt)).
  assert (Lp : zlen (zdrop (m - n) (zdrop (4 + 1) pkt)) = n) by (rewrite zlen_drop; fold m; lia).
  rewrite Lp, ztake_zdrop. split; [|split; [rewrite zlen_take; lia | by split]].
  rewrite <- (ztake_zdrop 4 pkt) at 1. f_equal. rewrite <- (ztake_zdrop 1 (zdrop 4 pkt)) at 1. rewrite zdrop_zdrop by lia. f_equal.
  assert (L1 : zlen (ztake 1 (zdrop 4 pkt)) = 1) by (rewrite zlen_take, zlen_drop; lia).
  destruct (ztake 1 (zdrop 4 pkt)) as [|x [|y l]]; [done | by injection E1 as -> | pose proof (zlen_nonneg l); zl].
Qed.

Lemma finish_packet_inv E s s' body t : pbuf (s_incoming_packet s) body -> finish_packet E s = (Ok t, s') ->
  exists rest, body = t :: rest /\ pbuf (s_incoming_packet s') rest /\ s_input s' = s_input s.
Proof.
  intros P Q. unfold finish_packet in Q. inv_step Q type s1 E1. apply on_incoming_inv in E1 as (b & E1 & ->).
  destruct body as [|x body].
  { destruct (sshbuf_get_u8_spec _ (pb_wf _ _ P)) as [Hs|b' Hs]; [done|]. rewrite (pb_data _ _ P), zlen_nil in *. lia. }
  destruct (pb_get_u8 _ _ _ P) as (b1 & E2 & P2). rewrite E2 in E1. injection E1 as <- <-.
  destruct (x <? SSH2_MSG_MIN); [by apply corrupt_fails in Q|].
  rewrite bind_get in Q. inv_step Q u s1 E3. inv_step Q u' s2 E4. inv_step Q u'' s3 E5. inv_step Q u4 s4 E6. injection Q as <- <-.
  assert (R1 : rside s1 = rside (set_incoming_packet b1 s)).
  { destruct (_ && _) in E3; [|by injection E3 as _ <-].
    change s1 with (snd (Ok u, s1)). rewrite <- E3. apply spares_ignore, spares_enable_delayed_compress. }
  assert (R4 : rside s4 = rside s3) by (change s4 with (snd (Ok u4, s4)); rewrite <- E6; apply spares_check_rekey).
  injection E4 as _ <-. assert (R3 : s_input s3 = s_input s1 /\ s_incoming_packet s3 = s_incoming_packet s1).
  { destruct (_ =? SSH2_MSG_NEWKEYS) in E5; [|by injection E5 as _ <-]. inv_step E5 k s5 E7. unfold the_kex in E7.
    destruct (s_kex _); [|done]. injection E7 as <- <-. destruct (kx_strict _) in E5; by injection E5 as _ <-. }
  destruct R3 as [R3 R3']. injection R1 as F1 F2 _ _ _ _. injection R4 as G1 G2 _ _ _ _.
  exists body. split; [done|]. rewrite G1, G2, R3, R3', F1, F2. done.
Qed.

(** C8. No packet is delivered before its code was checked: whatever bytes are
    in the input of a session that receives with a MAC, when
    [ssh_packet_read_poll2] returns a packet then the bytes it took from the
    input end in the very code that the session's MAC key gives for this
    sequence number, over the encrypted packet in encrypt-then-MAC mode and over
    the decrypted packet otherwise; and the type and the payload handed out are
    those of this packet, between the length fields and at least four bytes of
    padding. *)
Theorem delivered_packet_was_authenticated E s k d i inc t q s' : penv_ok E -> s_mux s = false -> receivable s k d i inc ->
  comp_enabled (nk_comp k) = false -> ssh_packet_read_poll2 E s = (Ok (t, q), s') -> t <> SSH_MSG_NONE ->
  exists y tag pkt hdr pad m', i = y ++ tag ++ contents (s_input s') /\ q = ps_seqnr (s_p_read s) /\ authentic E q k pkt y tag m' /\
    pkt = hdr ++ [zlen pad] ++ (t :: contents (s_incoming_packet s')) ++ pad /\ zlen hdr = 4 /\ 4 <= zlen pad /\
    (mac_etm (nk_mac k) = true -> exists d', cipher_crypt (pe_tmp E) q i (zlen y - 4) 4 0 d = (Ok pkt, d')).
Proof.
  intros HE Mx R Hc Q Ht. unfold ssh_packet_read_poll2 in Q. rewrite bind_get, Mx in Q. destruct (negb (s_packet_discard s =? 0)); [by injection Q as <-|].
  inv_step Q go s1 E1. destruct go; [|by injection Q as <-]. cbn [negb] in Q.
  destruct (read_length_inv _ _ _ _ _ _ _ HE R E1) as (y0 & d1 & i1 & inc1 & R1 & Hp & -> & Er & Hy).
  inv_step Q go s2 E2. destruct go; [|by injection Q as <-]. cbn [negb] in Q.
  destruct (open_packet_inv _ _ _ _ _ _ _ HE R1 Hp E2) as (y & tag & i2 & pkt & m' & -> & Au & Cr & Pi & Pc & Lp & Ek & Er2).
  rewrite Er in *. inv_step Q q0 s3 E3. apply count_read_inv in E3 as [-> B3]. injection B3 as B1 B2 B3.
  inv_step Q u s4 E4. destruct u. rewrite <- B2 in Pc.
  destruct (unpad_packet_inv E s3 s4 pkt Pc Lp) as (hdr & body & pad & -> & Lh & Lpad & P4 & I4); [by rewrite B3, Ek | done |].
  inv_step Q t0 s5 E5. injection Q as <- <- <-. destruct (finish_packet_inv _ _ _ _ _ P4 E5) as (rest & -> & P5 & I5).
  rewrite I5, I4, B1, (pb_data _ _ Pi), (pb_data _ _ P5), Er2.
  exists (y0 ++ y), tag, (hdr ++ [zlen pad] ++ (t0 :: rest) ++ pad), hdr, pad, m'. split; [by rewrite app_assoc|]. split; [done|].
  unfold authentic in *. destruct (mac_etm (nk_mac k)); [|done]. by destruct (Hy eq_refl) as [-> ->].
Qed.
End Auth.

Module AuthDemo.
Import LinkDemo.

(** The server with a whole packet in its input. *)
Definition full : session := Eval vm_compute in
  match run [Send E hello; Write 28; Recv E 28] (mk_link client server 0 [] []) with
  | Some c => l_rcv c
  | None => server
  end.

Lemma demo_writes v x y v' : EVP_Cipher (V := ctx) v x = Some (y, v') -> Forall is_byte x -> zlen y = zlen x /\ Forall is_byte y.
Proof. intros [= <- <-] Bx. by rewrite stream_len; split; [|apply stream_bytes]. Qed.

Lemma bytes_checked l : forallb (fun x => (0 <=? x) && (x <? 256)) l = true -> Forall is_byte l.
Proof. induction l as [|x l IH]; cbn; [constructor|]. intros C. zbool. constructor; [unfold is_byte; lia | by apply IH]. Qed.

Lemma full_in : pbuf (s_input full) (contents (s_input full)).
Proof.
  constructor; [|vm_compute; reflexivity | vm_compute; reflexivity | reflexivity].
  constructor; try (vm_compute; by repeat split). apply bytes_checked. vm_compute. reflexivity.
Qed.

Lemma full_receivable : receivable full keys (context false) (contents (s_input full)) [].
Proof.
  constructor; [reflexivity | by vm_compute | | by right | apply full_in | apply fresh_pbuf | by left].
  split; [reflexivity|]. split; [reflexivity|]. unfold ciphers. rewrite !elem_of_cons. tauto.
Qed.

Definition after : session := Eval vm_compute in snd (ssh_packet_read_poll2 E full).
Lemma full_polled : ssh_packet_read_poll2 E full = (Ok (94, 0), after).
Proof. vm_compute. reflexivity. Qed.
End AuthDemo.
Lemma delivered_packet_was_authenticated_witness :
  exists y tag, contents (s_input AuthDemo.full) = y ++ tag ++ contents (s_input AuthDemo.after).
Proof.
  destruct (delivered_packet_was_authenticated AuthDemo.demo_writes LinkDemo.E AuthDemo.full LinkDemo.keys (LinkDemo.context false)
    (contents (s_input AuthDemo.full)) [] 94 0 AuthDemo.after LinkDemo.E_ok eq_refl AuthDemo.full_receivable eq_refl AuthDemo.full_polled
    ltac:(discriminate)) as (y & tag & _ & _ & _ & _ & Ei & _).
  exists y, tag. exact Ei.
Defined.
