(* ===== verification/PacketQueue.v ===== *)
(** * The packet layer: messages sent during a key exchange

    While keys are exchanged [ssh_packet_send2] holds back every message that
    does not belong to the exchange; after NEWKEYS it sends the queue. *)
From S2P Require Import Prelude Sshbuf SshbufGetput CString SshbufMisc Words Chacha ChachaPoly Cipher Hmac Mac PacketState Packet PacketBuf PacketSend PacketRecv PacketLink.

Section Queue.
Context {V M U Zs : Type} `{EVPLaws V} `{EVP_MDLaws M} `{UMACLaws U} `{ZLIB Zs}.
Implicit Types s : session_state V M U Zs.
Implicit Types nk : option (newkeys M U).
Implicit Types e d : sshcipher_ctx V.

(** ** Holding back *)

Fixpoint send_all E (ps : list (list Z)) : PM V M U Zs unit :=
  match ps with [] => ret tt | p :: ps => do! send_message E p ;; send_all E ps end.

(** A message that waits for the end of the exchange. *)
Definition queueable (server : bool) (p : list Z) : Prop := message p /\
  exists type, head p = Some type /\ 1 <= type /\ ssh_packet_type_is_kex type = false /\ (type = SSH2_MSG_USERAUTH_SUCCESS -> server = false).

(** The messages in the queue. *)
Definition queued : list (Z * sshbuf) -> list (list Z) -> Prop :=
  Forall2 (fun x p => pbuf (snd x) ([0; 0; 0; 0; 0] ++ p)).

Definition held s s' (qs : list (Z * sshbuf)) : Prop := exists b, pbuf b [] /\
  s' = set_outgoing_packet (Some b) (set_outgoing (s_outgoing s ++ qs) s).

Lemma rekeying_no_rekey E s n : s_rekeying s = true -> ssh_packet_need_rekeying E s n = false.
Proof. intros R. unfold ssh_packet_need_rekeying, ssh_packet_is_rekeying. rewrite R. by destruct (s_after_authentication s). Qed.

Lemma queue_message E s o l p : penv_ok E -> s_mux s = false -> s_rekeying s = true -> s_outgoing_packet s = Some o -> pbuf o l ->
  queueable (s_server_side s) p -> exists x s', send_message E p s = (Ok tt, s') /\ held s s' [x] /\ pbuf (snd x) ([0; 0; 0; 0; 0] ++ p).
Proof.
  intros HE Mx Rk Eo Po [[Bp Lp] (type & Ht & _ & Hk & _)]. pose proof (po_np _ HE). unfold PACKET_MAX_SIZE in Lp.
  destruct p as [|t0 data]; [done|]. injection Ht as ->. inversion Bp as [|? ? Bt Bd]; subst.
  destruct (start_packet_ok E s o l type data HE Eo Po Bt Bd) as (o1 & E1 & P1); [rewrite zlen_cons in Lp; unfold PACKET_MAX_SIZE; lia|].
  set (s1 := set_outgoing_packet (Some o1) s).
  destruct (sshbuf_new (pe_np E) (pe_np E)) as [b|] eqn:Eb; [|unfold sshbuf_new in Eb; by rewrite (proj2 (Z.eqb_neq (pe_np E) 0)) in Eb by lia].
  exists (type, o1), (set_outgoing_packet (Some b) (set_outgoing (s_outgoing s ++ [(type, o1)]) s1)). split; [|split; [|done]].
  - unfold send_message. rewrite <- bind_assoc. step_with E1. fold s1. unfold sshpkt_send, send. rewrite bind_get.
    change (s_mux s1) with (s_mux s). rewrite Mx. unfold send2.
    assert (Eo1 : s_outgoing_packet s1 = Some o1) by done. run_at @on_outgoing_same Eo1 (pb_len _ _ P1).
    assert (Ln : zlen ([0; 0; 0; 0; 0] ++ type :: data) = zlen (type :: data) + 5) by (rewrite zlen_app; change (zlen [0; 0; 0; 0; 0]) with 5; lia).
    rewrite Ln, (proj2 (Z.ltb_ge _ 6)) by lia.
    assert (Et : peek 5 1 o1 = (Ok [type], o1)) by (rewrite (pb_peek o1 _ 5 1 P1) by lia; done).
    run_at @on_outgoing_same Eo1 Et. cbn [head]. step_with (defined_ok type s1). rewrite bind_get, Hk.
    change (s_rekeying s1) with (s_rekeying s). rewrite (rekeying_no_rekey E s1 _ Rk), Rk. cbn [negb andb orb]. rewrite bind_ret_l.
    unfold enqueue. rewrite (proj2 (Z.eqb_neq (pe_np E) 0)) by lia. rewrite !bind_assoc. rewrite bind_get, Eo1.
    by rewrite bind_assoc, bind_update, bind_assoc, Eb, bind_update.
  - exists b. split; [by apply (pbuf_new (pe_np E)); [lia|] | by destruct s].
Qed.

Lemma send_all_held E ps : forall s o l, penv_ok E -> s_mux s = false -> s_rekeying s = true -> s_outgoing_packet s = Some o -> pbuf o l ->
  Forall (queueable (s_server_side s)) ps -> exists qs s', send_all E ps s = (Ok tt, s') /\ queued qs ps /\
    s_outgoing s' = s_outgoing s ++ qs /\ exists b, s' = set_outgoing_packet b (set_outgoing (s_outgoing s') s).
Proof.
  induction ps as [|p ps IH]; intros s o l HE Mx Rk Eo Po F; cbn [send_all].
  - exists [], s. split; [done|]. split; [constructor|]. split; [by rewrite app_nil_r|]. exists (s_outgoing_packet s). by destruct s.
  - inversion F as [|? ? Fp Fps]; subst. destruct (queue_message E s o l p HE Mx Rk Eo Po Fp) as (x & s1 & E1 & (b & Pb & ->) & Px).
    step_with E1. destruct (IH (set_outgoing_packet (Some b) (set_outgoing (s_outgoing s ++ [x]) s)) b [] HE Mx Rk eq_refl Pb Fps)
      as (qs & s' & E2 & Q & Eq & b' & Es). exists (x :: qs), s'. split; [done|]. split; [by constructor|].
    change (s_outgoing s' = (s_outgoing s ++ [x]) ++ qs) in Eq. rewrite <- app_assoc in Eq. split; [done|].
    exists b'. rewrite Es at 1. by destruct s.
Qed.

(** ** Releasing *)

(** Bytes and blocks that the packets of [ps] take at most. *)
Fixpoint cost (ps : list (list Z)) : Z := match ps with [] => 0 | p :: ps => zlen p + 340 + cost ps end.

(** Enough room and no key exchange due while the messages [ps] are sent. *)
Record steady E s (out : list Z) (ps : list (list Z)) : Prop := {
  st_time : s_rekey_interval s = 0 \/ pe_now E < s_rekey_time s + s_rekey_interval s;
  st_packets : 0 <= ps_packets (s_p_send s) /\ ps_packets (s_p_send s) + zlen ps <= MAX_PACKETS /\ ps_packets (s_p_read s) <= MAX_PACKETS;
  st_blocks : 0 <= ps_blocks (s_p_send s) /\ (s_max_blocks_out s = 0 \/ ps_blocks (s_p_send s) + cost ps <= s_max_blocks_out s);
  st_blocks_in : s_max_blocks_in s = 0 \/ ps_blocks (s_p_read s) <= s_max_blocks_in s;
  st_seq : 0 <= ps_seqnr (s_p_send s) /\ ps_seqnr (s_p_send s) + zlen ps < 2 ^ 32;
  st_room : zlen out + cost ps <= SSHBUF_SIZE_MAX;
}.

Lemma cost_nonneg ps : 0 <= cost ps.
Proof. induction ps as [|p ps IH]; cbn; [lia|]. pose proof (zlen_nonneg p). lia. Qed.

Lemma roundup_le x y : 0 <= x < 2 ^ 31 -> y = 8 \/ y = 16 -> 0 <= ROUNDUP32 x y <= x + 15.
Proof.
  intros Hx Hy. unfold ROUNDUP32. rewrite (u32_small (x + (y - 1))) by lia.
  rewrite u32_small; destruct Hy; subst y; Z.div_mod_to_equations; lia.
Qed.

Lemma steady_no_rekey E s out p ps nk2 e d : steady E s out (p :: ps) -> agree (s_newkeys_out s) nk2 e d -> message p ->
  ssh_packet_need_rekeying E s (zlen p + 5) = false.
Proof.
  intros [St (P1 & P2 & P3) [B1 B2] Bi _ _] Ag [_ Lp]. unfold PACKET_MAX_SIZE in Lp.
  pose proof (cost_nonneg ps). rewrite zlen_cons in P2. pose proof (zlen_nonneg ps). cbn [cost] in B2.
  destruct (agree_facts _ _ _ _ Ag) as (Hbs & _). unfold ssh_packet_need_rekeying.
  destruct (negb _); [done|]. destruct (ssh_packet_is_rekeying s); [done|]. destruct (_ && _); [done|].
  assert (T : negb (s_rekey_interval s =? 0) && (s_rekey_time s + s_rekey_interval s <=? pe_now E) = false).
  { destruct St as [->|St]; [done|]. rewrite (proj2 (Z.leb_gt _ _)) by lia. apply andb_false_r. }
  rewrite T. unfold ssh_packet_check_rekey_blocklimit. rewrite !(proj2 (Z.ltb_ge _ _)) by lia. cbn [orb].
  destruct (s_newkeys_out s) as [k|]; [|done]. cbn [keys_block_size] in Hbs.
  pose proof (roundup_le (zlen p + 5) (enc_block_size (nk_enc k)) ltac:(lia) Hbs) as [R1 R2].
  apply orb_false_intro.
  - destruct B2 as [->|B2]; [done|]. rewrite (proj2 (Z.ltb_ge _ _)); [apply andb_false_r|].
    pose proof (u64_le (ps_blocks (s_p_send s) + ROUNDUP32 (zlen p + 5) (enc_block_size (nk_enc k)))). lia.
  - destruct Bi as [->|Bi]; [done|]. rewrite (proj2 (Z.ltb_ge _ _)) by lia. apply andb_false_r.
Qed.

Lemma wirepkt_len nk nk2 e d q p bytes nk' e' : agree nk nk2 e d -> wirepkt nk e q p bytes nk' e' -> zlen bytes <= zlen p + 340.
Proof.
  intros Ag W. inversion W as [pl pad y t k0 e0 _ _ Hp _ _ _ En _ Lt _]; subst.
  pose proof (agree_facts _ _ _ _ Ag) as (_ & Hau & _). pose proof (kagree_maclen _ _ _ (proj2 Ag)).
  destruct (ag_auth _ _ _ (proj2 Ag)) as [A1 _]. pose proof (en_len _ _ _ _ _ _ En) as Ly. rewrite <- zlen_app, ztake_zdrop, plain_packet_len in Ly.
  rewrite zlen_app. lia.
Qed.

Lemma queueable_plain server p : queueable server p -> ordinary p server /\ plain_msg p (negb server).
Proof.
  intros [_ (type & Ht & H1' & Hk & Hu)]. assert (type <> SSH2_MSG_NEWKEYS) by (by intros ->).
  split; exists type; split_and!; try done. intros Hty. by rewrite (Hu Hty).
Qed.

Section Flush.
Context (disc rekex : PM V M U Zs unit) (E : penv) (HE : penv_ok E).

(** What is left to send after a packet of [len] bytes. *)
Lemma steady_sent s o bo nk' e' len out bytes p ps : steady E s out (p :: ps) -> zlen bytes <= zlen p + 340 ->
  zlen p + 9 <= len <= zlen p + 24 -> keys_block_size (s_newkeys_out s) = 8 \/ keys_block_size (s_newkeys_out s) = 16 ->
  steady E (sent_state s o bo e' nk' len) (out ++ bytes) ps.
Proof.
  intros [T1 (T2 & T3 & T4) [T5 T6] T7 [T8 T9] T10] Lb Hl Hbs. pose proof (cost_nonneg ps). pose proof (zlen_nonneg ps). pose proof (zlen_nonneg p).
  rewrite zlen_cons in T3, T9. cbn [cost] in T6, T10.
  assert (Hd : 0 <= len / keys_block_size (s_newkeys_out s) <= len) by (destruct Hbs as [-> | ->]; Z.div_mod_to_equations; lia).
  pose proof (u64_le (ps_blocks (s_p_send s) + len / keys_block_size (s_newkeys_out s)) ltac:(lia)) as Hu.
  constructor; [done | | | done | | rewrite zlen_app; lia]; unfold sent_state, sealed; members; unfold counted; cbn [ps_packets ps_blocks ps_seqnr].
  - lia.
  - split; [unfold u64; apply Z.mod_pos_bound; lia|]. destruct T6 as [T6|T6]; [by left | right; lia].
  - rewrite u32_small; lia.
Qed.

(** The queue goes out in its order. *)
Lemma flush_ok ps : forall qs s out nk nk2 e d fuel, queued qs ps -> s_outgoing s = qs -> (length qs < fuel)%nat ->
  Forall (queueable (s_server_side s)) ps -> s_newkeys_out s = nk -> s_send_context s = Some e -> agree nk nk2 e d ->
  s_extra_pad s = 0 -> pbuf (s_output s) out -> steady E s out ps ->
  exists s' bytes k, flush_queue disc rekex E fuel s = (Ok tt, s') /\ s_outgoing s' = [] /\ pbuf (s_output s') (out ++ bytes) /\
    flight (negb (s_server_side s)) (nk, e, ps_seqnr (s_p_send s)) ps bytes k.
Proof.
  induction ps as [|p ps IH]; intros qs s out nk nk2 e d fuel Q Eq Hf F Ek Ee Ag Ex Po St;
    (destruct fuel as [|fuel]; [lia|]); cbn [flush_queue]; rewrite bind_get, Eq.
  { inversion Q; subst qs. exists s, [], (nk, e, ps_seqnr (s_p_send s)). rewrite app_nil_r. split_and!; try done. constructor. }
  inversion Q as [|[ty b] ? qs' ? Pb Q' Eqs]; subst qs. cbn [snd] in Pb. inversion F as [|? ? Qp F']; subst.
  pose proof Qp as [Ms _]. pose proof Ms as [Bp Lp]. unfold PACKET_MAX_SIZE in Lp. pose proof (cost_nonneg ps). pose proof (zlen_nonneg ps).
  assert (Ln : zlen ([0; 0; 0; 0; 0] ++ p) = zlen p + 5) by (rewrite zlen_app; change (zlen [0; 0; 0; 0; 0]) with 5; lia).
  assert (El : reads (fun _ => sshbuf_len b) s = (Ok (zlen p + 5), s)).
  { unfold reads. pose proof (pb_len _ _ Pb) as El. unfold blen, reads in El. by rewrite <- Ln; injection El as ->. }
  step_with El. rewrite u32_small, (steady_no_rekey E s out p ps nk2 e d) by (done || lia). rewrite bind_update.
  set (s1 := set_outgoing qs' (set_outgoing_packet (Some b) s)).
  pose proof St as [_ (T2 & T3 & _) _ _ [T8 T9] T10]. rewrite zlen_cons in T3, T9. cbn [cost] in T10. unfold MAX_PACKETS in T3.
  assert (Or : ordinary p (s_server_side s) /\ plain_msg p (negb (s_server_side s))) by (by apply queueable_plain).
  destruct (send2_wrapped_ok disc E s1 b out (s_newkeys_out s) nk2 e d [0; 0; 0; 0; 0] p)
    as (o' & bo & bytes & nk' & e' & len & E2 & P2 & P3 & W & Hl); try done; try (cbn; lia); try apply Or.
  { left. cbn. rewrite u32_small; lia. }
  step_with E2. set (s2 := sent_state s1 o' bo e' nk' len).
  destruct (wirepkt_agree _ _ _ _ _ _ _ _ _ Ag W) as (nk2' & d' & Ag').
  destruct (IH qs' s2 (out ++ bytes) nk' nk2' e' d' fuel) as (s' & bytes' & k & E3 & Eq3 & P4 & Fl); try done.
  { rewrite <- Eqs in Hf. cbn in Hf. lia. }
  { apply (steady_sent s1 o' bo nk' e' len out bytes p ps); [destruct St; by constructor | exact (wirepkt_len _ _ _ _ _ _ _ _ _ Ag W) | done | apply (agree_facts _ _ _ _ Ag)]. }
  exists s', (bytes ++ bytes'), k. split; [exact E3|]. split; [done|]. rewrite app_assoc. split; [done|].
  eapply fl_cons; [exact W | apply Or |]. exact Fl.
Qed.

(** C18. Messages sent during a key exchange are held back and then sent in
    order.  In a session that exchanges keys every message that does not belong
    to the exchange goes to the queue: the output, the sequence number and the
    keys stay as they are, so nothing is sent under the old keys.  In any later
    state with this queue, when new keys are in place and no other exchange is
    due, the loop that follows NEWKEYS sends all the messages in the order in
    which they were queued, numbered consecutively and sealed with the new keys,
    so that a receiver that holds the same keys decodes them. *)
Theorem queue_held_then_released s o l ps : s_mux s = false -> s_rekeying s = true -> s_outgoing s = [] ->
  s_outgoing_packet s = Some o -> pbuf o l -> Forall (queueable (s_server_side s)) ps ->
  exists s1, send_all E ps s = (Ok tt, s1) /\ length (s_outgoing s1) = length ps /\
    s_output s1 = s_output s /\ s_p_send s1 = s_p_send s /\ s_send_context s1 = s_send_context s /\ s_newkeys_out s1 = s_newkeys_out s /\
    forall s2 out nk2 e d, s_outgoing s2 = s_outgoing s1 -> s_server_side s2 = s_server_side s -> s_extra_pad s2 = 0 ->
      s_send_context s2 = Some e -> agree (s_newkeys_out s2) nk2 e d -> pbuf (s_output s2) out -> steady E s2 out ps ->
      exists s3 bytes k, flush_queue disc rekex E (S (length (s_outgoing s2))) s2 = (Ok tt, s3) /\ s_outgoing s3 = [] /\
        pbuf (s_output s3) (out ++ bytes) /\
        flight (negb (s_server_side s)) (s_newkeys_out s2, e, ps_seqnr (s_p_send s2)) ps bytes k.
Proof.
  intros Mx Rk E0 Eo Po F. destruct (send_all_held E ps s o l HE Mx Rk Eo Po F) as (qs & s1 & E1 & Q & Eq & b & Es).
  exists s1. rewrite E0 in Eq. cbn [app] in Eq. rewrite Eq. split; [done|]. split; [by eapply Forall2_length|].
  split; [by rewrite Es|]. split; [by rewrite Es|]. split; [by rewrite Es|]. split; [by rewrite Es|].
  intros s2 out nk2 e d Eq2 Sv Ex Ee Ag Pout St. rewrite Eq2, <- Sv.
  eapply (flush_ok ps qs s2 out (s_newkeys_out s2) nk2 e d); try done; [lia | by rewrite Sv].
Qed.
End Flush.
End Queue.

(** Three messages while the first keys are exchanged, and the keys of the
    connection above. *)
Module QueueDemo.
Import LinkDemo.
Definition waiting : session := Eval vm_compute in snd (send_all E [hello; bye; hello] fresh).
Definition keyed : session := set_outgoing (s_outgoing waiting) client.

Lemma messages : Forall (queueable false) [hello; bye; hello].
Proof.
  repeat (apply Forall_cons_2; [split; [first [apply hello_msg | apply bye_msg] | by eexists] |]). apply Forall_nil_2.
Qed.

Lemma keyed_steady : steady E keyed [] [hello; bye; hello].
Proof. constructor; vm_compute; first [by left | done | by repeat split; try left]. Qed.

Lemma keyed_agree : agree (Some keys) (Some keys) (context true) (context false).
Proof. destruct (co_keys _ _ ends_connected) as (e & d & [= <-] & [= <-] & Ag). exact Ag. Qed.
End QueueDemo.

Lemma queue_held_then_released_witness :
  exists s3 bytes, flush_queue (fail EXIT) crash LinkDemo.E 4 QueueDemo.keyed = (Ok tt, s3) /\ s_outgoing s3 = [] /\
    pbuf (s_output s3) bytes.
Proof.
  destruct (queue_held_then_released (fail EXIT) crash LinkDemo.E LinkDemo.E_ok LinkDemo.fresh _ []
    [LinkDemo.hello; LinkDemo.bye; LinkDemo.hello] eq_refl eq_refl eq_refl eq_refl LinkDemo.fresh_pbuf QueueDemo.messages)
    as (s1 & E1 & _ & _ & _ & _ & _ & R).
  assert (s1 = QueueDemo.waiting) as -> by (revert E1; vm_compute; by intros [= <-]).
  destruct (R QueueDemo.keyed [] (Some LinkDemo.keys) (LinkDemo.context true) (LinkDemo.context false) eq_refl eq_refl eq_refl eq_refl
    QueueDemo.keyed_agree LinkDemo.fresh_pbuf QueueDemo.keyed_steady) as (s3 & bytes & k & E3 & Eq & P & _).
  exists s3, bytes. split; [exact E3|]. split; [exact Eq|]. exact P.
Defined.
