(* ===== verification/Match.v ===== *)
(** * match.c: wildcard patterns, pattern lists and algorithm lists

    [match_pattern] runs a nondeterministic automaton over an array of
    activity flags; every access to the arrays is checked here ([None] when
    out of range).  The reference is the relation [glob]. *)
From S2P Require Import Prelude CString.

Definition c_star : Z := 42.
Definition c_question : Z := 63.
Definition c_comma : Z := 44.
Definition c_bang : Z := 33.

(** ** match_pattern *)

Definition epsilon_closure (states : list bool) (pattern : list Z) : option (list bool) :=
  for_loop 0 (length pattern) (fun i states =>
    match states !! i, pattern !! i with
    | Some st, Some p =>
        if negb st || negb (p =? c_star) then Some states
        else if decide (S i < length states)%nat then Some (<[S i := true]> states) else None
    | _, _ => None
    end) states.

(** The flags reachable from [states] with the character [c], before the
    closure. *)
Definition next_states (states : list bool) (pattern : list Z) (c : Z) : option (list bool) :=
  for_loop 0 (length pattern) (fun i next =>
    match states !! i, pattern !! i with
    | Some st, Some p =>
        if negb st then Some next
        else if p =? c_star then
          if decide (i < length next)%nat then Some (<[i := true]> next) else None
        else if (p =? c_question) || (p =? c) then
          if decide (S i < length next)%nat then Some (<[S i := true]> next) else None
        else Some next
    | _, _ => None
    end) (replicate (S (length pattern)) false).

(** The loop over the string: [false] when no state is active any more. *)
Fixpoint match_loop (states : list bool) (pattern s : list Z) : option bool :=
  match s with
  | [] => states !! length pattern
  | c :: s =>
      match next_states states pattern c with
      | None => None
      | Some next =>
          match epsilon_closure next pattern with
          | None => None
          | Some states => if existsb id states then match_loop states pattern s else Some false
          end
      end
  end.

Definition match_pattern (s pattern : list Z) : option bool :=
  match pattern with
  | [] => Some (match s with [] => true | _ => false end)
  | _ =>
      match epsilon_closure (<[0%nat := true]> (replicate (S (length pattern)) false)) pattern with
      | None => None
      | Some states => match_loop states pattern s
      end
  end.

(** ** match_pattern_list *)

(** [sizeof(sub)] *)
Definition SUB_SIZE : nat := 1024.

(** Copy up to a comma or the end, at most [n] characters; the subpattern and
    what follows it. *)
Fixpoint get_sub (n : nat) (dolower : bool) (p : list Z) : list Z * list Z :=
  match n, p with
  | S n, c :: p' =>
      if c =? c_comma then ([], p)
      else
        let '(sub, rest) := get_sub n dolower p' in
        ((if dolower && isupper c then tolower c else c) :: sub, rest)
  | _, _ => ([], p)
  end.

(** [fuel] bounds the number of subpatterns. *)
Fixpoint match_pattern_list_loop (fuel : nat) (string p : list Z) (dolower : bool)
    (got_positive : Z) : option Z :=
  match p with
  | [] => Some got_positive
  | c :: p' =>
      match fuel with
      | O => None
      | S fuel =>
          let '(negated, p) := if c =? c_bang then (true, p') else (false, p) in
          let '(sub, p) := get_sub (SUB_SIZE - 1) dolower p in
          if (SUB_SIZE - 1 <=? length sub)%nat then Some 0
          else
            let p := match p with c :: p' => if c =? c_comma then p' else p | [] => p end in
            match match_pattern string sub with
            | None => None
            | Some true =>
                if negated then Some (-1) else match_pattern_list_loop fuel string p dolower 1
            | Some false => match_pattern_list_loop fuel string p dolower got_positive
            end
      end
  end.

(** [len] is a [u_int]. *)
Definition match_pattern_list (string pattern : list Z) (dolower : bool) : option Z :=
  let p := ztake (u32 (zlen pattern)) pattern in
  match_pattern_list_loop (length p) string p dolower 0.

(** The build for POSIX systems. *)
Definition match_usergroup_pattern_list (string pattern : list Z) : option Z :=
  match_pattern_list string pattern false.

Definition match_hostname (host pattern : list Z) : option Z :=
  match_pattern_list (lowercase host) pattern true.

(** ** match_list *)

Definition MAX_PROP : nat := 40.

(** The items of the server; [i] of them so far. *)
Fixpoint server_loop (fuel : nat) (s : list Z) (sp : option nat) (i : nat)
    : option (list (list Z)) :=
  let '(p, s, sp) := strsep s sp c_comma in
  match p with
  | None | Some [] => Some []
  | Some p =>
      if (i <? MAX_PROP)%nat then
        match fuel with
        | O => None
        | S fuel => option_map (cons p) (server_loop fuel s sp (S i))
        end
      else Some []
  end.

(** The loop over the items of the client: the item found, and [*next]. *)
Fixpoint client_loop (fuel : nat) (c : list Z) (cp : option nat) (sproposals : list (list Z))
    : option (option (list Z) * Z) :=
  let '(p, c, cp) := strsep c cp c_comma in
  match p with
  | None | Some [] => Some (None, u32 (Z.of_nat (cstrlen c)))
  | Some p =>
      if existsb (streq p) sproposals then
        Some (Some p, u32 (match cp with None => Z.of_nat (cstrlen c) | Some q => Z.of_nat q end))
      else
        match fuel with
        | O => None
        | S fuel => client_loop fuel c cp sproposals
        end
  end.

Definition match_list (client server : list Z) : option (option (list Z) * Z) :=
  match server_loop (S (length server)) server (Some 0%nat) 0 with
  | None => None
  | Some sproposals => client_loop (S (length client)) client (Some 0%nat) sproposals
  end.

(** ** filter_list *)

Fixpoint filter_list_loop (fuel : nat) (b : list Z) (tmp : option nat) (filter : list Z)
    (denylist : bool) (len : Z) (fix_prop : list Z) : option (list Z) :=
  let '(cp, b, tmp) := strsep b tmp c_comma in
  match cp with
  | None => Some fix_prop
  | Some cp =>
      match fuel with
      | O => None
      | S fuel =>
          match match_pattern_list cp filter false with
          | None => None
          | Some r =>
              let fix_prop :=
                if (denylist && negb (r =? 1)) || (negb denylist && (r =? 1)) then
                  let fix_prop :=
                    match fix_prop with [] => fix_prop | _ => strlcat fix_prop [c_comma] len end in
                  strlcat fix_prop cp len
                else fix_prop in
              filter_list_loop fuel b tmp filter denylist len fix_prop
          end
      end
  end.

(** [ok] is false when [malloc] or [strdup] returns NULL. *)
Definition filter_list (ok : bool) (proposal filter : list Z) (denylist : bool)
    : option (option (list Z)) :=
  if ok then
    option_map Some
      (filter_list_loop (S (length proposal)) proposal (Some 0%nat) filter denylist
         (zlen proposal + 1) [])
  else Some None.

Definition match_filter_denylist ok proposal filter := filter_list ok proposal filter true.
Definition match_filter_allowlist ok proposal filter := filter_list ok proposal filter false.

(** ** The language of patterns *)

Inductive glob : list Z -> list Z -> Prop :=
| glob_nil : glob [] []
| glob_star p s t : glob p t -> glob (c_star :: p) (s ++ t)
| glob_any p c s : glob p s -> glob (c_question :: p) (c :: s)
| glob_lit p c s : c <> c_star -> c <> c_question -> glob p s -> glob (c :: p) (c :: s).

Lemma glob_nil_inv s : glob [] s -> s = [].
Proof. by inversion 1. Qed.

Lemma glob_app p q s : glob (p ++ q) s <-> exists a b, s = a ++ b /\ glob p a /\ glob q b.
Proof.
  split.
  - revert s. induction p as [|c p IH]; intros s; simpl.
    + intros H. exists [], s. split_and!; [done | constructor | done].
    + inversion 1 as [|p' u t Hg E1 E2|p' x t Hg E1 E2|p' x t Hs Hq Hg E1 E2]; subst;
        apply IH in Hg as (a & b & -> & Ha & Hb).
      * exists (u ++ a), b. rewrite (assoc_L (++)). split_and!; [done | by constructor | done].
      * exists (x :: a), b. split_and!; [done | by constructor | done].
      * exists (c :: a), b. split_and!; [done | by constructor | done].
  - intros (a & b & -> & Ha & Hb). induction Ha; simpl; rewrite <- ?(assoc_L (++)); by try constructor.
Qed.

(** One pattern character against the last character of the string. *)
Definition accepts (p c : Z) : Prop := p = c_question \/ p = c.

Lemma glob_snoc_star p s : glob (p ++ [c_star]) s <-> exists a b, s = a ++ b /\ glob p a.
Proof.
  rewrite glob_app. split; [intros (a & b & -> & Ha & _); eauto|].
  intros (a & b & -> & Ha). exists a, b. split_and!; [done..|].
  rewrite <- (app_nil_r b). constructor. constructor.
Qed.

Lemma glob_snoc p c s :
  c <> c_star -> glob (p ++ [c]) s <-> exists a x, s = a ++ [x] /\ glob p a /\ accepts c x.
Proof.
  intros Hc. rewrite glob_app. split.
  - intros (a & b & -> & Ha & Hb).
    inversion Hb as [|p' u t Hg E1 E2|p' x t Hg E1 E2|p' x t Hs Hq Hg E1 E2]; subst; try done;
      apply glob_nil_inv in Hg as ->; eexists _, _; split_and!; try done; [by left | by right].
  - intros (a & x & -> & Ha & Hx). exists a, [x]. split_and!; [done..|].
    destruct (decide (c = c_question)) as [->|]; [constructor; constructor|].
    destruct Hx as [|<-]; [done|]. constructor; [done..|constructor].
Qed.

(** ** The automaton *)

Section Nfa.
Variable pattern : list Z.

(** After [s], the state [i] is active when the first [i] characters of the
    pattern match [s], or when the [*] at [i] is absorbing characters. *)
Definition act (s : list Z) (i : nat) : Prop :=
  glob (take i pattern) s \/ (pattern !! i = Some c_star /\ glob (take (S i) pattern) s).

(** The flags describe a set of states. *)
Definition flags (X : nat -> Prop) (st : list bool) : Prop :=
  length st = S (length pattern) /\ forall i b, st !! i = Some b -> (b = true <-> X i).

Lemma flags_get X st i : flags X st -> (i <= length pattern)%nat ->
  exists b, st !! i = Some b /\ (b = true <-> X i).
Proof.
  intros [Hl H] Hi. destruct (lookup_lt_is_Some_2 st i) as [b Hb]; [lia|]. eauto.
Qed.

Lemma flags_set X st i : flags X st -> flags (fun j => j = i \/ X j) (<[i := true]> st).
Proof.
  intros [Hl H]. split; [by rewrite length_insert|]. intros j b Hj.
  apply list_lookup_insert_Some in Hj as [(-> & <- & _)|(Hne & Hj)]; [tauto|].
  rewrite (H j b Hj). split; [tauto|]. intros [|]; [congruence | done].
Qed.

Lemma flags_ext X Y st : (forall i, (i <= length pattern)%nat -> X i <-> Y i) -> flags X st -> flags Y st.
Proof.
  intros E [Hl H]. split; [done|]. intros i b Hb. rewrite (H i b Hb). apply E.
  apply lookup_lt_Some in Hb. lia.
Qed.

(** The closure of [X] under the steps that read nothing, for sources below [n]. *)
Inductive closed (X : nat -> Prop) (n : nat) : nat -> Prop :=
| closed_base i : X i -> closed X n i
| closed_step i : (i < n)%nat -> closed X n i -> pattern !! i = Some c_star -> closed X n (S i).

Lemma closed_mono X n n' i : (n <= n')%nat -> closed X n i -> closed X n' i.
Proof. intros Hn. induction 1; [by constructor | constructor; [lia | done..]]. Qed.

Lemma closed_low X n i : (i <= n)%nat -> closed X (S n) i -> closed X n i.
Proof.
  intros Hi H. revert Hi. induction H as [i Hx|i Hi H IH Hp]; intros Hle; [by constructor|].
  constructor; [lia | apply IH; lia | done].
Qed.

Lemma epsilon_closure_flags X st :
  flags X st -> exists st', epsilon_closure st pattern = Some st' /\ flags (closed X (length pattern)) st'.
Proof.
  intros H. apply (for_loop_inv (fun n => flags (closed X n))).
  - eapply flags_ext; [|exact H]. intros i _. split; [by constructor|]. by inversion 1; [|lia].
  - simpl. intros i s Hi Hs. destruct (flags_get _ _ i Hs ltac:(lia)) as (b & -> & Hb).
    destruct (lookup_lt_is_Some_2 pattern i) as [p Hp]; [lia|]. rewrite Hp.
    destruct (negb b || negb (p =? c_star)) eqn:E.
    + exists s. split; [done|]. eapply flags_ext; [|exact Hs]. intros j Hj.
      split; [apply closed_mono; lia|]. inversion 1 as [|k Hk Hc Hpk]; [by constructor|]. subst.
      destruct (decide (k = i)) as [->|]; [|constructor; [lia | apply closed_low; [lia|done] | done]].
      exfalso. apply (closed_low X i i) in Hc; [|lia]. apply Hb in Hc. subst. rewrite Hp in Hpk.
      injection Hpk as ->. done.
    + apply orb_false_iff in E as [->%negb_false_iff ->%negb_false_iff%Z.eqb_eq].
      destruct Hs as [Hl Hs']. rewrite decide_True by lia. eexists. split; [done|].
      eapply flags_ext; [|apply flags_set; by split]. intros j Hj. simpl. split.
      * intros [->|Hc]; [|eapply closed_mono; [|done]; lia].
        constructor; [lia | eapply closed_mono; [|by apply Hb]; lia | done].
      * inversion 1 as [|k Hk Hc Hpk]; [right; by constructor|]. subst.
        destruct (decide (k = i)) as [->|]; [by left|]. right.
        constructor; [lia | apply closed_low; [lia|done] | done].
Qed.

(** The states reached from [X] by reading [c], for sources below [n]. *)
Definition moved (X : nat -> Prop) (c : Z) (n i : nat) : Prop := exists j p,
  (j < n)%nat /\ X j /\ pattern !! j = Some p /\
  ((p = c_star /\ i = j) \/ (p <> c_star /\ accepts p c /\ i = S j)).

Lemma moved_S X c n i p :
  pattern !! n = Some p ->
  moved X c (S n) i <->
    (X n /\ ((p = c_star /\ i = n) \/ (p <> c_star /\ accepts p c /\ i = S n))) \/ moved X c n i.
Proof.
  intros Hp. split.
  - intros (j & q & Hj & Hx & Hq & H). destruct (decide (j = n)) as [->|].
    + left. rewrite Hp in Hq. injection Hq as <-. done.
    + right. exists j, q. split_and!; done || lia.
  - intros [[Hx H]|(j & q & Hj & H)]; [exists n, p | exists j, q]; split_and!; done || lia || apply H.
Qed.

Lemma next_states_flags X st c :
  flags X st -> exists st', next_states st pattern c = Some st' /\ flags (moved X c (length pattern)) st'.
Proof.
  intros H. apply (for_loop_inv (fun n => flags (moved X c n))).
  - split; [by rewrite length_replicate|]. intros i b [-> _]%lookup_replicate.
    split; [done|]. intros (j & p & Hj & _). lia.
  - simpl. intros i s Hi Hs. destruct (flags_get _ _ i H ltac:(lia)) as (b & -> & Hb).
    destruct (lookup_lt_is_Some_2 pattern i) as [p Hp]; [lia|]. rewrite Hp.
    pose proof (proj1 Hs) as Hl. destruct b; simpl.
    2:{ exists s. split; [done|]. eapply flags_ext; [|exact Hs]. intros j _.
        rewrite (moved_S _ _ _ _ p Hp). split; [tauto|]. intros [[Hx _]|]; [|done].
        by apply Hb in Hx. }
    assert (X i) as Hx by (by apply Hb).
    destruct (Z.eqb_spec p c_star) as [->|Hne].
    + rewrite decide_True by lia. eexists. split; [done|].
      eapply flags_ext; [|by apply flags_set]. intros j _. rewrite (moved_S _ _ _ _ _ Hp). tauto.
    + destruct ((p =? c_question) || (p =? c)) eqn:E.
      * rewrite decide_True by lia. eexists. split; [done|].
        eapply flags_ext; [|by apply flags_set]. intros j _. rewrite (moved_S _ _ _ _ _ Hp).
        assert (accepts p c) by (unfold accepts; zcases; auto). tauto.
      * exists s. split; [done|]. eapply flags_ext; [|exact Hs]. intros j _.
        rewrite (moved_S _ _ _ _ _ Hp).
        assert (~ accepts p c) by (unfold accepts; zcases; intros [|]; done). tauto.
Qed.

(** One character of the string: the active states follow [act]. *)
Lemma act_star s i : act s i -> pattern !! i = Some c_star -> glob (take (S i) pattern) s.
Proof.
  intros [H|[_ H]] Hp; [|done]. rewrite (take_S_r _ _ _ Hp). apply glob_snoc_star.
  exists s, []. by rewrite app_nil_r.
Qed.

Lemma act_not_star s i p : act s i -> pattern !! i = Some p -> p <> c_star -> glob (take i pattern) s.
Proof. intros [H|[E _]] Hp Hn; [done | congruence]. Qed.

Lemma act_sound s c i :
  closed (moved (act s) c (length pattern)) (length pattern) i -> act (s ++ [c]) i.
Proof.
  induction 1 as [i (j & p & Hj & Ha & Hp & [[-> ->]|(Hn & Hc & ->)])|i Hi _ IH Hp].
  - right. split; [done|]. pose proof (act_star s j Ha Hp) as Hg. revert Hg.
    rewrite (take_S_r _ _ _ Hp), !glob_snoc_star. intros (a & b & -> & Hg).
    exists a, (b ++ [c]). by rewrite (assoc_L (++)).
  - left. rewrite (take_S_r _ _ _ Hp), glob_snoc by done. exists s, c.
    split_and!; [done | by eapply act_not_star | done].
  - left. by apply act_star.
Qed.

(** A string ending in [c] matched by a prefix of the pattern. *)
Lemma glob_complete s c i :
  (i <= length pattern)%nat -> glob (take i pattern) (s ++ [c]) ->
  closed (moved (act s) c (length pattern)) (length pattern) i.
Proof.
  induction i as [|i IH]; intros Hi Hg.
  - apply glob_nil_inv in Hg. by destruct s.
  - destruct (lookup_lt_is_Some_2 pattern i) as [p Hp]; [lia|].
    rewrite (take_S_r _ _ _ Hp) in Hg. destruct (decide (p = c_star)) as [->|Hn].
    + apply closed_step; [lia| |done]. apply glob_snoc_star in Hg as (a & b & E & Hg).
      destruct b as [|y b _] using rev_ind.
      * rewrite app_nil_r in E. subst a. apply IH; [lia | done].
      * rewrite (assoc_L (++)) in E. apply app_inj_tail in E as [-> ->].
        apply closed_base. exists i, c_star. split_and!; [lia| |done|tauto].
        right. split; [done|]. rewrite (take_S_r _ _ _ Hp). apply glob_snoc_star. eauto.
    + apply (glob_snoc _ _ _ Hn) in Hg as (a & x & [-> ->]%app_inj_tail & Hg & Hx).
      apply closed_base. exists i, p. split_and!; [lia | by left | done | tauto].
Qed.

Lemma act_complete s c i :
  (i <= length pattern)%nat -> act (s ++ [c]) i ->
  closed (moved (act s) c (length pattern)) (length pattern) i.
Proof.
  intros Hi [Hg|[Hp Hg]]; [by apply glob_complete|].
  pose proof Hg as Hg'. rewrite (take_S_r _ _ _ Hp), glob_snoc_star in Hg'.
  destruct Hg' as (a & b & E & Ha). destruct b as [|y b _] using rev_ind.
  - rewrite app_nil_r in E. subst a. by apply glob_complete.
  - rewrite (assoc_L (++)) in E. apply app_inj_tail in E as [-> ->].
    apply closed_base. exists i, c_star. pose proof (lookup_lt_Some _ _ _ Hp).
    split_and!; [lia| |done|tauto]. right. split; [done|].
    rewrite (take_S_r _ _ _ Hp). apply glob_snoc_star. eauto.
Qed.

(** The states active before the first character. *)
Lemma closed_start i :
  (i <= length pattern)%nat -> glob (take i pattern) [] ->
  closed (fun i => i = 0%nat) (length pattern) i.
Proof.
  induction i as [|i IH]; intros Hi Hg; [by constructor|].
  destruct (lookup_lt_is_Some_2 pattern i) as [p Hp]; [lia|].
  rewrite (take_S_r _ _ _ Hp) in Hg. destruct (decide (p = c_star)) as [->|Hn].
  - apply glob_snoc_star in Hg as ([|] & b & E & Hg); [|done].
    apply closed_step; [lia | apply IH; [lia|done] | done].
  - apply (glob_snoc _ _ _ Hn) in Hg as (a & x & E & _). by destruct a.
Qed.

(** When no state is active nothing that follows can match. *)
Lemma act_dead s t :
  (forall i, (i <= length pattern)%nat -> ~ act s i) -> ~ glob pattern (s ++ t).
Proof.
  revert s. induction t as [|c t IH]; intros s H.
  - rewrite app_nil_r. intros Hg. apply (H (length pattern)); [lia|]. left. by rewrite take_ge by lia.
  - replace (s ++ c :: t) with ((s ++ [c]) ++ t) by (by rewrite <- (assoc_L (++))).
    apply IH. intros i Hi Ha. apply (act_complete s c i Hi) in Ha.
    induction Ha as [i (j & p & Hj & Ha & _)|i Hi' _ IHc _]; [|apply IHc; lia].
    apply (H j); [lia | done].
Qed.

Lemma match_loop_glob s : forall s0 st, flags (act s0) st ->
  exists b, match_loop st pattern s = Some b /\ (b = true <-> glob pattern (s0 ++ s)).
Proof.
  induction s as [|c s IH]; intros s0 st H; simpl.
  - rewrite app_nil_r. destruct (flags_get _ _ (length pattern) H) as (b & -> & Hb); [lia|].
    exists b. split; [done|]. rewrite Hb. unfold act. rewrite take_ge by lia.
    split; [|tauto]. intros [|[E _]]; [done|]. apply lookup_lt_Some in E. lia.
  - destruct (next_states_flags _ _ c H) as (st1 & -> & H1).
    destruct (epsilon_closure_flags _ _ H1) as (st2 & -> & H2).
    assert (flags (act (s0 ++ [c])) st2) as H3.
    { eapply flags_ext; [|exact H2]. intros i Hi. split; [apply act_sound | by apply act_complete]. }
    destruct (IH _ _ H3) as (b & E & Hb). rewrite <- (assoc_L (++)) in Hb. simpl in Hb.
    destruct (existsb id st2) eqn:Ex; [by exists b|]. exists false. split; [done|]. split; [done|].
    intros Hg. replace (s0 ++ c :: s) with ((s0 ++ [c]) ++ s) in Hg by (by rewrite <- (assoc_L (++))).
    exfalso. eapply act_dead; [|exact Hg]. intros i Hi Ha.
    destruct (flags_get _ _ i H3 Hi) as (f & Hf & Hfa). apply Hfa in Ha as ->.
    apply not_true_iff_false in Ex. apply Ex, existsb_exists. exists true.
    split; [|done]. apply list_elem_of_In. by eapply list_elem_of_lookup_2.
Qed.
End Nfa.

Lemma match_pattern_glob s pattern :
  exists b, match_pattern s pattern = Some b /\ (b = true <-> glob pattern s).
Proof.
  unfold match_pattern. destruct pattern as [|c p] eqn:E.
  - exists (match s with [] => true | _ => false end). split; [done|]. destruct s; split; try done.
    + constructor.
    + by intros ?%glob_nil_inv.
  - rewrite <- E in *. assert (0 < length pattern)%nat by (subst; simpl; lia). clear E c p.
    set (X := fun i => i = 0%nat).
    assert (flags pattern X (<[0%nat := true]> (replicate (S (length pattern)) false))) as H0.
    { split; [by rewrite length_insert, length_replicate|]. intros i b. unfold X.
      rewrite list_lookup_insert_Some. intros [(-> & <- & _)|(Hne & [-> _]%lookup_replicate)]; split; congruence. }
    destruct (epsilon_closure_flags _ _ _ H0) as (st & -> & Hst).
    apply (match_loop_glob pattern s []). eapply flags_ext; [|exact Hst].
    intros i Hi. split.
    + induction 1 as [i ->|i Hi' _ IH Hp]; [left; constructor|]. left. apply act_star; [|done].
      apply IH. lia.
    + intros [Hg|[Hp Hg]]; [by apply closed_start|]. apply closed_start; [done|].
      rewrite (take_S_r _ _ _ Hp), glob_snoc_star in Hg. destruct Hg as (a & b & E & Hg).
      by destruct a.
Qed.

(** ** Pattern lists

    The items of a list are what the commas separate; an empty last item is
    not one. *)

Fixpoint no_last_empty (l : list (list Z)) : list (list Z) :=
  match l with
  | [] => []
  | [[]] => []
  | t :: l => t :: no_last_empty l
  end.

Definition pat_items (p : list Z) : list (list Z) := no_last_empty (split_on c_comma p).

Definition item_negated (it : list Z) : bool :=
  match it with c :: _ => c =? c_bang | [] => false end.
Definition item_body (it : list Z) : list Z :=
  match it with c :: b => if c =? c_bang then b else it | [] => [] end.

Definition lower_if (dolower : bool) (s : list Z) : list Z :=
  if dolower then lowercase s else s.

(** The item fits the buffer of the code. *)
Definition item_short (it : list Z) : Prop := (length (item_body it) < SUB_SIZE - 1)%nat.

Definition item_matches (dolower : bool) (string it : list Z) : Prop :=
  glob (lower_if dolower (item_body it)) string.

Lemma pat_items_cons p : p <> [] ->
  exists it rest, split_on c_comma p = it :: rest /\
    pat_items p = it :: (match drop (length it) p with [] => [] | _ :: r => pat_items r end) /\
    it = span_to c_comma p /\
    match drop (length it) p with [] => True | c :: r => c = c_comma end.
Proof.
  intros Hp. eexists _, _. split; [apply split_on_first|]. unfold pat_items.
  rewrite split_on_first. set (it := span_to c_comma p).
  assert (length it <= length p)%nat as Hl by apply span_to_length.
  destruct (Nat.ltb_spec (length it) (length p)) as [H|H].
  - destruct (drop (length it) p) as [|c r] eqn:Hd.
    { apply (f_equal length) in Hd. rewrite length_drop in Hd. simpl in Hd. lia. }
    assert (drop (S (length it)) p = r) as ->.
    { rewrite <- Nat.add_1_r, <- drop_drop, Hd. done. }
    split; [|split; [done|]].
    + destruct (split_on_cons c_comma r) as (t & ts & ->). by destruct it.
    + clear Hl H. subst it. revert Hd. clear Hp. induction p as [|x p IH]; simpl; [done|].
      destruct (Z.eqb_spec x c_comma); simpl; [congruence | done].
  - rewrite drop_ge by lia. split; [|done]. destruct it; [|done].
    destruct p; [done | simpl in *; lia].
Qed.

Lemma get_sub_spec n dolower p :
  get_sub n dolower p =
    (lower_if dolower (take n (span_to c_comma p)), drop (min n (length (span_to c_comma p))) p).
Proof.
  revert p. induction n as [|n IH]; intros p; simpl; [by destruct dolower|].
  destruct p as [|c p]; simpl; [by destruct dolower|].
  destruct (c =? c_comma); simpl; [by destruct dolower|]. rewrite IH. f_equal.
  unfold lower_if, lowercase, tolower. destruct dolower; simpl; [|done]. by destruct (isupper c).
Qed.

Lemma length_lower_if d s : length (lower_if d s) = length s.
Proof. unfold lower_if, lowercase. destruct d; [by rewrite length_map | done]. Qed.

(** The body of the loop after the test of the first character. *)
Definition list_round (fuel : nat) (string q : list Z) (dolower : bool) (got : Z) (negated : bool)
    : option Z :=
  let '(sub, p) := get_sub (SUB_SIZE - 1) dolower q in
  if (SUB_SIZE - 1 <=? length sub)%nat then Some 0
  else
    let p := match p with c :: p' => if c =? c_comma then p' else p | [] => p end in
    match match_pattern string sub with
    | None => None
    | Some true => if negated then Some (-1) else match_pattern_list_loop fuel string p dolower 1
    | Some false => match_pattern_list_loop fuel string p dolower got
    end.

(** One round of the loop: the first item, then the rest. *)
Lemma list_loop_step fuel string p dolower got :
  p <> [] -> exists it rest,
    pat_items p = it :: pat_items rest /\ (length rest < length p)%nat /\
    match_pattern_list_loop (S fuel) string p dolower got =
      (if decide (item_short it) then
         match match_pattern string (lower_if dolower (item_body it)) with
         | None => None
         | Some true =>
             if item_negated it then Some (-1)
             else match_pattern_list_loop fuel string rest dolower 1
         | Some false => match_pattern_list_loop fuel string rest dolower got
         end
       else Some 0).
Proof.
  intros Hp. destruct (pat_items_cons p Hp) as (it & _ & _ & Hi & Hit & Hd).
  assert (length it <= length p)%nat as Hl by (rewrite Hit; apply span_to_length).
  set (rest := match drop (length it) p with [] => [] | _ :: r => r end).
  exists it, rest. split; [|split].
  { rewrite Hi. unfold rest. by destruct (drop (length it) p). }
  { assert (length (drop (length it) p) = length p - length it)%nat as E by apply length_drop.
    unfold rest. destruct (drop (length it) p) as [|c r]; simpl in *; [|lia].
    destruct p; [done | simpl; lia]. }
  set (q := if item_negated it then tail p else p).
  assert (item_body it = span_to c_comma q /\ drop (length it) p = drop (length (span_to c_comma q)) q /\
    match_pattern_list_loop (S fuel) string p dolower got =
      list_round fuel string q dolower got (item_negated it)) as (Hb & Hdq & ->).
  { unfold q. rewrite Hit. destruct p as [|c p]; [done|]. cbn [match_pattern_list_loop span_to tail].
    destruct (Z.eqb_spec c c_comma) as [->|Hc]; [done|]. cbn [item_negated item_body].
    destruct (c =? c_bang) eqn:E; [done|]. cbn [span_to].
    by rewrite (proj2 (Z.eqb_neq c c_comma) Hc). }
  unfold list_round. rewrite get_sub_spec, <- Hb. rewrite length_lower_if, length_take.
  unfold item_short. destruct (decide (length (item_body it) < SUB_SIZE - 1)%nat) as [Hs|Hs].
  - rewrite (proj2 (Nat.leb_gt _ _)) by lia. rewrite take_ge by lia.
    replace (min (SUB_SIZE - 1) (length (item_body it))) with (length (item_body it)) by lia.
    rewrite Hb, <- Hdq, <- Hb. unfold rest.
    destruct (drop (length it) p) as [|x r]; [done|]. subst x. by rewrite Z.eqb_refl.
  - rewrite (proj2 (Nat.leb_le _ _)) by lia. done.
Qed.

Section ListVerdict.
Variables (string : list Z) (dolower : bool).
Let matches := item_matches dolower string.

(** The item at [k] is negated and matches, and no item up to it is too long. *)
Definition vetoed (items : list (list Z)) : Prop := exists k it,
  items !! k = Some it /\ item_negated it = true /\ matches it /\ Forall item_short (take (S k) items).

Definition accepted (items : list (list Z)) (got : Z) : Prop :=
  Forall item_short items /\
  (forall it, it ∈ items -> item_negated it = true -> ~ matches it) /\
  (got = 1 \/ exists it, it ∈ items /\ item_negated it = false /\ matches it).

Lemma vetoed_cons it l :
  vetoed (it :: l) <-> item_short it /\ ((item_negated it = true /\ matches it) \/ vetoed l).
Proof.
  split.
  - intros (k & x & Hk & Hn & Hm & [Hs Hf]%Forall_cons). split; [done|].
    destruct k as [|k]; simpl in *; [left; by injection Hk as <- | right; by exists k, x].
  - intros [Hs [[Hn Hm]|(k & x & Hk & Hn & Hm & Hf)]].
    + exists 0%nat, it. split_and!; try done. simpl. rewrite take_0. by apply Forall_singleton.
    + exists (S k), x. split_and!; try done. by constructor.
Qed.

Lemma accepted_hit it l got :
  item_negated it = false -> matches it ->
  accepted (it :: l) got <-> item_short it /\ accepted l 1.
Proof.
  intros Hn Hm. unfold accepted. rewrite Forall_cons. setoid_rewrite elem_of_cons. split.
  - intros ([Hs Hf] & Hv & _). split_and!; auto.
  - intros (Hs & Hf & Hv & _). split_and!; [done..| |right; by exists it; auto].
    intros x [->|Hx]; [congruence | by apply Hv].
Qed.

Lemma accepted_miss it l got :
  ~ matches it -> accepted (it :: l) got <-> item_short it /\ accepted l got.
Proof.
  intros Hm. unfold accepted. rewrite Forall_cons. setoid_rewrite elem_of_cons. split.
  - intros ([Hs Hf] & Hv & Hp). split_and!; auto.
    destruct Hp as [|(x & [->|Hx] & ? & ?)]; [by left | done | right; by exists x].
  - intros (Hs & Hf & Hv & Hp). split_and!; [done..| |].
    + intros x [->|Hx]; [done | by apply Hv].
    + destruct Hp as [|(x & Hx & ? & ?)]; [by left | right; exists x; auto].
Qed.

Lemma list_loop_spec fuel : forall p got,
  (length p <= fuel)%nat -> got = 0 \/ got = 1 ->
  exists r, match_pattern_list_loop fuel string p dolower got = Some r /\
    (r = -1 \/ r = 0 \/ r = 1) /\
    (r = -1 <-> vetoed (pat_items p)) /\ (r = 1 <-> accepted (pat_items p) got).
Proof.
  induction fuel as [|fuel IH]; intros p got Hl Hg.
  all: destruct (decide (p = [])) as [->|Hp].
  1, 3: exists got; split; [done|]; split; [tauto|]; split;
    [split; [lia | by intros (k & it & Hk & _)]|]; split;
    [intros ->; split_and!; [constructor | by intros it ?%elem_of_nil | by left]
    |intros (_ & _ & [|(it & ?%elem_of_nil & _)]); done].
  { destruct p; [done | simpl in Hl; lia]. }
  destruct (list_loop_step fuel string p dolower got Hp) as (it & rest & -> & Hlt & ->).
  setoid_rewrite vetoed_cons. destruct (decide (item_short it)) as [Hs|Hs].
  2:{ exists 0. split_and!; [done | tauto | split; [lia|tauto] | split; [lia|]].
      unfold accepted. rewrite Forall_cons. tauto. }
  destruct (match_pattern_glob string (lower_if dolower (item_body it))) as (b & -> & Hb).
  fold (item_matches dolower string it) in Hb. fold (matches it) in Hb. destruct b.
  - assert (matches it) as Hm by (by apply Hb). destruct (item_negated it) eqn:Hn.
    + exists (-1). split_and!; [done | tauto | split; [tauto|lia] | split; [lia|]].
      intros (_ & Hv & _). exfalso. apply (Hv it); [by left | done | done].
    + destruct (IH rest 1) as (r & -> & Hr & Hv & Ha); [lia | by right|].
      exists r. rewrite accepted_hit by done. split_and!; [done | done | | tauto].
      rewrite Hv. split; [tauto|]. intros (_ & [[? _]|]); done.
  - assert (~ matches it) as Hm by (intros Hm; apply Hb in Hm; done).
    destruct (IH rest got) as (r & -> & Hr & Hv & Ha); [lia | done|].
    exists r. rewrite accepted_miss by done. split_and!; [done | done | tauto | tauto].
Qed.
End ListVerdict.

(** Where the length of a pattern fits the [u_int] of the code. *)
Lemma match_pattern_list_spec string pattern dolower :
  zlen pattern < 2 ^ 32 ->
  exists r, match_pattern_list string pattern dolower = Some r /\
    (r = -1 \/ r = 0 \/ r = 1) /\
    (r = -1 <-> vetoed string dolower (pat_items pattern)) /\
    (r = 1 <-> accepted string dolower (pat_items pattern) 0).
Proof.
  intros Hl. pose proof (zlen_nonneg pattern). unfold match_pattern_list.
  rewrite u32_small, ztake_all by lia. apply list_loop_spec; [lia | by left].
Qed.

(** ** Algorithm lists *)

(** The items up to the first empty one: what [match_list] looks at. *)
Fixpoint upto_empty (l : list (list Z)) : list (list Z) :=
  match l with
  | [] | [] :: _ => []
  | t :: l => t :: upto_empty l
  end.

Definition list_items (s : list Z) : list (list Z) := upto_empty (split_on c_comma s).

Lemma upto_empty_cons t l : t <> [] -> upto_empty (t :: l) = t :: upto_empty l.
Proof. by destruct t. Qed.

Lemma server_loop_spec fuel : forall s sp i,
  (length (rest_toks c_comma s sp) <= fuel)%nat ->
  server_loop fuel s sp i = Some (take (MAX_PROP - i) (upto_empty (rest_toks c_comma s sp))).
Proof.
  induction fuel as [|fuel IH]; intros s sp i Hf; cbn [server_loop].
  all: destruct sp as [p|]; [|cbn [strsep rest_toks upto_empty]; by rewrite take_nil].
  all: destruct (strsep_some s p c_comma) as (tok & b & pos & -> & E & _);
    cbn [rest_toks] in *; rewrite E in *; cbn [length] in Hf.
  - lia.
  - destruct tok as [|x tok]; [cbn [upto_empty]; by rewrite take_nil|]. rewrite upto_empty_cons by done.
    destruct (Nat.ltb_spec i MAX_PROP) as [Hi|Hi].
    + rewrite IH by lia. simpl. replace (MAX_PROP - i)%nat with (S (MAX_PROP - S i)) by lia. done.
    + replace (MAX_PROP - i)%nat with 0%nat by lia. done.
Qed.

Lemma split_on_length sep s : (length (split_on sep s) <= S (length s))%nat.
Proof.
  induction s as [|x s IH]; simpl; [lia|]. destruct (x =? sep); simpl; [lia|].
  destruct (split_on sep s); simpl in *; lia.
Qed.

Lemma cstrlen_insert b e : (cstrlen b < e)%nat -> cstrlen (<[e := 0]> b) = cstrlen b.
Proof.
  unfold cstrlen. revert e. induction b as [|x b IH]; intros e He; simpl; [done|].
  destruct e as [|e]; [lia|]. simpl in *. destruct (x =? 0); [done|]. simpl in *.
  rewrite IH by lia. done.
Qed.

Lemma span_to_next sep s :
  (length (span_to sep s) < length s)%nat -> s !! length (span_to sep s) = Some sep.
Proof.
  induction s as [|x s IH]; simpl; [lia|]. destruct (Z.eqb_spec x sep) as [->|]; simpl; [done|].
  intros H. apply IH. lia.
Qed.

(** The buffer of the client list while it is split: untouched, or cut at the
    first comma; nothing changed from [cp] on. *)
Definition split_inv (c0 b : list Z) (pos : option nat) : Prop :=
  length b = length c0 /\
  match pos with None => True | Some p => drop p b = drop p c0 end /\
  (b = c0 \/ (c0 !! cstrlen b = Some c_comma /\
              match pos with None => True | Some p => (cstrlen b < p)%nat end)).

Lemma split_inv_step c0 b p tok b' pos' :
  no_nul c0 -> split_inv c0 b (Some p) ->
  strsep b (Some p) c_comma = (Some tok, b', pos') -> split_inv c0 b' pos'.
Proof.
  intros Hn (Hl & Hd & Hb). simpl.
  pose proof (span_to_length c_comma (drop p b)) as Hs. pose proof (span_to_next c_comma (drop p b)) as Hx.
  rewrite length_drop, lookup_drop in *. set (t := span_to c_comma (drop p b)) in *.
  destruct (Nat.ltb_spec (p + length t) (length b)) as [H|H]; intros [= <- <- <-].
  2:{ split_and!; [done..|]. tauto. }
  split; [by rewrite length_insert|]. split.
  { rewrite drop_insert_lt by lia. replace (S (p + length t)) with (p + S (length t))%nat by lia.
    by rewrite <- !drop_drop, Hd. }
  right. destruct Hb as [->|[Hc Hp]].
  - rewrite (cstrlen_split c0 (p + length t) _ Hn H eq_refl), Hx by lia. split; [done | lia].
  - rewrite cstrlen_insert by lia. split; [done | lia].
Qed.

Lemma cstrlen_no_nul s : no_nul s -> cstrlen s = length s.
Proof.
  intros H. unfold cstrlen. rewrite span_to_all; [done|]. intros Hin.
  by eapply Forall_forall in H; [|exact Hin].
Qed.

(** What [strlen(c)] leaves of the list: no item. *)
Lemma split_inv_end c0 b pos :
  no_nul c0 -> split_inv c0 b pos -> list_items (drop (cstrlen b) c0) = [].
Proof.
  intros Hn (Hl & _ & [->|[Hc _]]).
  - rewrite cstrlen_no_nul, drop_ge by done. done.
  - rewrite (drop_S _ _ _ Hc). done.
Qed.

Definition supported (server : list Z) : list (list Z) := take MAX_PROP (list_items server).

(** The result of the search among the items [l]; [rest] is what [*next]
    designates. *)
Definition search_post (sup l : list (list Z)) (r : option (list Z)) (rest : list (list Z)) : Prop :=
  match r with
  | Some x => exists pre, l = pre ++ x :: rest /\ x ∈ sup /\ Forall (fun y => ~ (y ∈ sup)) pre
  | None => Forall (fun y => ~ (y ∈ sup)) l /\ rest = []
  end.

Lemma search_post_cons sup x l r rest :
  ~ (x ∈ sup) -> search_post sup l r rest -> search_post sup (x :: l) r rest.
Proof.
  intros Hx. destruct r as [y|]; simpl.
  - intros (pre & -> & Hy & Hp). exists (x :: pre). split_and!; [done..|by constructor].
  - intros [Hl ->]. by split; [constructor|].
Qed.

Lemma existsb_streq x l : existsb (streq x) l = true <-> x ∈ l.
Proof.
  rewrite existsb_exists. unfold streq. split.
  - intros (y & Hy & E%bool_decide_eq_true). subst. by apply list_elem_of_In.
  - intros H. exists x. split; [by apply list_elem_of_In | by apply bool_decide_eq_true].
Qed.

Section ClientLoop.
Variables (c0 : list Z) (sup : list (list Z)).
Hypothesis Hnul : no_nul c0.
Hypothesis Hlen : zlen c0 < 2 ^ 32.

Lemma client_loop_spec fuel : forall b p,
  split_inv c0 b (Some p) -> (length (split_on c_comma (drop p b)) <= fuel)%nat ->
  exists r next, client_loop fuel b (Some p) sup = Some (r, next) /\ 0 <= next /\
    search_post sup (upto_empty (split_on c_comma (drop p b))) r (list_items (zdrop next c0)).
Proof.
  assert (forall n, (n <= length c0)%nat -> u32 (Z.of_nat n) = Z.of_nat n) as Hu.
  { intros n Hn. apply u32_small. unfold zlen in Hlen. lia. }
  assert (forall n, zdrop (Z.of_nat n) c0 = drop n c0) as Hz by (intros; unfold zdrop; by rewrite Nat2Z.id).
  assert (forall b, length b = length c0 -> (cstrlen b <= length c0)%nat) as Hc.
  { intros b <-. apply span_to_length. }
  induction fuel as [|fuel IH]; intros b p Hi Hf; cbn [client_loop];
    destruct (strsep_some b p c_comma) as (tok & b' & pos' & E & T & Hlb & Hpos);
    pose proof (split_inv_step _ _ _ _ _ _ Hnul Hi E) as Hi'; rewrite T in *; cbn [length] in Hf; [lia|].
  pose proof (split_inv_end _ _ _ Hnul Hi') as Hend. destruct Hi' as (Hl' & Hd' & Hi3).
  rewrite E. destruct tok as [|x tok].
  - eexists None, _. split; [done|]. rewrite Hu by auto. split; [lia|]. rewrite Hz, Hend. simpl. done.
  - rewrite upto_empty_cons by done. set (t := x :: tok) in *.
    destruct (existsb (streq t) sup) eqn:Hin.
    + apply existsb_streq in Hin. eexists (Some t), _. split; [done|].
      assert (u32 (match pos' with None => Z.of_nat (cstrlen b') | Some q => Z.of_nat q end)
        = match pos' with None => Z.of_nat (cstrlen b') | Some q => Z.of_nat q end) as ->.
      { destruct pos' as [q|]; apply Hu; [destruct Hpos as (_ & ? & _); destruct Hi; lia | auto]. }
      split; [destruct pos'; lia|]. exists []. split_and!; [|done|by constructor].
      destruct pos' as [q|]; rewrite Hz; cbn [rest_toks app]; [by rewrite Hd' | by rewrite Hend].
    + assert (~ (t ∈ sup)) as Hn by (rewrite <- existsb_streq; congruence).
      destruct pos' as [q|]; cbn [rest_toks] in *.
      * destruct (IH b' q) as (r & next & -> & H0 & HP); [by split_and! | lia |].
        exists r, next. split_and!; [done..|]. by apply search_post_cons.
      * eexists None, _. split; [destruct fuel; done|]. rewrite Hu by auto. split; [lia|].
        rewrite Hz, Hend. by split; [repeat constructor|].
Qed.
End ClientLoop.

Lemma match_list_spec client server :
  no_nul client -> zlen client < 2 ^ 32 ->
  exists r next, match_list client server = Some (r, next) /\ 0 <= next /\
    search_post (supported server) (list_items client) r (list_items (zdrop next client)).
Proof.
  intros Hn Hl. unfold match_list. rewrite server_loop_spec; cbn [rest_toks].
  2:{ rewrite drop_0. apply split_on_length. }
  rewrite drop_0, Nat.sub_0_r.
  destruct (client_loop_spec client (supported server) Hn Hl (S (length client)) client 0) as (r & next & E & H).
  - split_and!; [done | done | by left].
  - rewrite drop_0. apply split_on_length.
  - exists r, next. by rewrite drop_0 in H.
Qed.

(** ** filter_list *)

(** The items the filter keeps. *)
Definition list_keep (filter : list Z) (denylist : bool) (item : list Z) : bool :=
  match match_pattern_list item filter false with
  | Some r => (denylist && negb (r =? 1)) || (negb denylist && (r =? 1))
  | None => false
  end.

Fixpoint drop_empty (l : list (list Z)) : list (list Z) :=
  match l with [] :: l => drop_empty l | _ => l end.

Definition append_item (acc item : list Z) : list Z :=
  match acc with [] => item | _ => acc ++ c_comma :: item end.

Lemma foldl_append acc l :
  acc <> [] -> foldl append_item acc l = join_with c_comma (acc :: l).
Proof.
  revert acc. induction l as [|t l IH]; intros acc Ha; [done|]. simpl foldl.
  rewrite IH by (by destruct acc; simpl; [|destruct acc]).
  assert (append_item acc t = acc ++ c_comma :: t) as -> by (by destruct acc).
  change (join_with c_comma (acc :: t :: l)) with (acc ++ c_comma :: join_with c_comma (t :: l)).
  destruct l as [|u l]; [done|].
  change (join_with c_comma (?x :: u :: l)) with (x ++ c_comma :: join_with c_comma (u :: l)).
  by rewrite <- (assoc_L (++)).
Qed.

Lemma foldl_append_nil l : foldl append_item [] l = join_with c_comma (drop_empty l).
Proof.
  induction l as [|t l IH]; [done|]. simpl foldl. destruct t as [|x t]; [done|].
  by rewrite foldl_append.
Qed.

Lemma strlcat_fits dst src size : zlen dst + zlen src < size -> strlcat dst src size = dst ++ src.
Proof.
  intros H. pose proof (zlen_nonneg src). unfold strlcat. destruct (Z.leb_spec size (zlen dst)); [lia|].
  rewrite ztake_all by lia. done.
Qed.

Section FilterLoop.
Variables (n0 : nat) (flt : list Z) (deny : bool).
Hypothesis Hflt : zlen flt < 2 ^ 32.

Lemma filter_list_loop_spec fuel : forall b pos acc,
  length b = n0 -> (length (rest_toks c_comma b pos) <= fuel)%nat ->
  match pos with Some p => (p <= n0)%nat /\ (acc = [] \/ (length acc < p)%nat) | None => True end ->
  filter_list_loop fuel b pos flt deny (Z.of_nat n0 + 1) acc =
    Some (foldl append_item acc (List.filter (list_keep flt deny) (rest_toks c_comma b pos))).
Proof.
  induction fuel as [|fuel IH]; intros b pos acc Hb Hf Hp; cbn [filter_list_loop].
  all: destruct pos as [p|]; [|done].
  all: destruct (strsep_some b p c_comma) as (tok & b' & pos' & -> & E & Hl & Hpos);
    cbn [rest_toks] in *; rewrite E in *; cbn [length] in Hf; try lia.
  destruct (match_pattern_list_spec tok flt false Hflt) as (r & Hr & _). rewrite Hr.
  assert (p + length tok <= n0)%nat as Hle.
  { pose proof (f_equal (join_with c_comma) E) as Ej. rewrite join_split in Ej.
    apply (f_equal length) in Ej. rewrite length_drop in Ej.
    destruct (rest_toks c_comma b' pos'); simpl in Ej; rewrite ?length_app in Ej; lia. }
  destruct Hp as [Hp Hacc]. set (keep := _ || _).
  assert (list_keep flt deny tok = keep) as Hk by (unfold list_keep; by rewrite Hr).
  assert (strlcat (match acc with [] => acc | _ => strlcat acc [c_comma] (Z.of_nat n0 + 1) end) tok
    (Z.of_nat n0 + 1) = append_item acc tok) as Ha.
  { destruct acc as [|x acc]; [by rewrite strlcat_fits by (unfold zlen; simpl; lia)|].
    destruct Hacc as [|Hacc]; [done|].
    rewrite (strlcat_fits (x :: acc) [c_comma]) by (unfold zlen in *; simpl in *; lia).
    rewrite strlcat_fits by (unfold zlen in *; rewrite ?length_app; simpl in *; lia).
    unfold append_item. by rewrite <- (assoc_L (++)). }
  simpl List.filter. rewrite Hk, Ha, IH; try (lia || congruence).
  - by destruct keep.
  - destruct pos' as [q|]; [|done]. destruct Hpos as (-> & Hq & _). split; [lia|]. right.
    destruct keep; [unfold append_item|];
      (destruct Hacc as [->|Hacc]; simpl; [lia | destruct acc; rewrite ?length_app; simpl in *; lia]).
Qed.
End FilterLoop.

Lemma filter_list_spec proposal flt deny :
  zlen flt < 2 ^ 32 ->
  filter_list true proposal flt deny =
    Some (Some (join_with c_comma (drop_empty
      (List.filter (list_keep flt deny) (split_on c_comma proposal))))).
Proof.
  intros Hf. unfold filter_list. unfold zlen at 1. rewrite (filter_list_loop_spec (length proposal)); try done.
  - simpl rest_toks. rewrite drop_0, foldl_append_nil. done.
  - simpl rest_toks. rewrite drop_0. apply split_on_length.
  - split; [lia | by left].
Qed.

(** ** Properties *)

(** C19. [match_pattern] never reads or writes outside its arrays and decides
    the language of the pattern, where [*] stands for any string and [?] for
    any character. *)
Theorem match_pattern_correct s pattern :
  exists b, match_pattern s pattern = Some b /\ (b = true <-> glob pattern s).
Proof. apply match_pattern_glob. Qed.

(** C25. [match_pattern_list] terminates with -1, 0 or 1: -1 exactly when some
    negated item matches and neither it nor an item before it is longer than
    the code's buffer; 1 exactly when no item is too long, no negated item
    matches and a positive one does.  In particular a list with an item that
    is too long never gives a positive answer. *)
Theorem match_pattern_list_correct string pattern dolower :
  zlen pattern < 2 ^ 32 ->
  exists r, match_pattern_list string pattern dolower = Some r /\
    (r = -1 \/ r = 0 \/ r = 1) /\
    (r = -1 <-> exists k it, pat_items pattern !! k = Some it /\ item_negated it = true /\
       item_matches dolower string it /\ Forall item_short (take (S k) (pat_items pattern))) /\
    (r = 1 <-> Forall item_short (pat_items pattern) /\
       (forall it, it ∈ pat_items pattern -> item_negated it = true -> ~ item_matches dolower string it) /\
       exists it, it ∈ pat_items pattern /\ item_negated it = false /\ item_matches dolower string it).
Proof.
  intros Hl. destruct (match_pattern_list_spec string pattern dolower Hl) as (r & E & Hr & Hv & Ha).
  exists r. split_and!; [done..|]. rewrite Ha. unfold accepted. split.
  - intros (Hs & Hn & [|Hp]); [done | tauto].
  - intros (Hs & Hn & Hp). tauto.
Qed.

Lemma match_pattern_list_correct_witness :
  exists r, match_pattern_list (str "host.example.org") (str "!bad.*,*.example.org") true = Some r /\ r = 1.
Proof.
  destruct (match_pattern_list_correct (str "host.example.org") (str "!bad.*,*.example.org") true)
    as (r & E & _); [by vm_compute|].
  exists r. split; [done|]. vm_compute in E. by injection E.
Defined.

(** C26. [match_list] returns the first item of the client that is among the
    first 40 items of the server, and [*next] designates the items after it:
    repeating the call at [*next] goes through the client's list in order and
    stops.  (A list ends at its first empty item.) *)
Theorem match_list_correct client server :
  no_nul client -> zlen client < 2 ^ 32 ->
  exists r next, match_list client server = Some (r, next) /\ 0 <= next /\
    match r with
    | Some x => exists pre, list_items client = pre ++ x :: list_items (zdrop next client) /\
        x ∈ supported server /\ Forall (fun y => ~ (y ∈ supported server)) pre
    | None => Forall (fun y => ~ (y ∈ supported server)) (list_items client) /\
        list_items (zdrop next client) = []
    end.
Proof. apply match_list_spec. Qed.

Lemma match_list_correct_witness :
  exists r next, match_list (str "publickey,password") (str "keyboard-interactive,password") = Some (r, next) /\
    r = Some (str "password") /\ list_items (zdrop next (str "publickey,password")) = [].
Proof.
  destruct (match_list_correct (str "publickey,password") (str "keyboard-interactive,password"))
    as (r & next & E & _); [repeat constructor; done | by vm_compute |].
  exists r, next. split; [done|]. vm_compute in E. injection E as <- <-. done.
Defined.

(** [filter_list] keeps, in order, the items of the proposal that the
    filter does not accept (denylist) or accepts (allowlist), joined with
    commas; the calls of [strlcat] never truncate. *)
Theorem filter_list_correct proposal flt deny :
  zlen flt < 2 ^ 32 ->
  exists kept, filter_list true proposal flt deny = Some (Some (join_with c_comma (drop_empty kept))) /\
    kept `sublist_of` split_on c_comma proposal /\
    forall it, it ∈ kept <-> it ∈ split_on c_comma proposal /\
      (if deny then ~ accepted it false (pat_items flt) 0 else accepted it false (pat_items flt) 0).
Proof.
  intros Hf. eexists. split; [by apply filter_list_spec|]. split.
  - induction (split_on c_comma proposal) as [|t l IH]; simpl; [done|].
    destruct (list_keep flt deny t); by constructor.
  - intros it. rewrite !list_elem_of_In, filter_In. apply and_iff_compat_l.
    destruct (match_pattern_list_spec it flt false Hf) as (r & E & _ & _ & Ha).
    unfold list_keep. rewrite E. destruct deny, (Z.eqb_spec r 1); simpl; split; intros; tauto || done.
Qed.

Lemma filter_list_correct_witness :
  exists kept, filter_list true (str "aes128-ctr,3des-cbc,aes256-ctr") (str "*-cbc") true =
    Some (Some (join_with c_comma (drop_empty kept))) /\
    join_with c_comma (drop_empty kept) = str "aes128-ctr,aes256-ctr".
Proof.
  destruct (filter_list_correct (str "aes128-ctr,3des-cbc,aes256-ctr") (str "*-cbc") true)
    as (kept & E & _); [by vm_compute|].
  exists kept. split; [exact E|]. assert (filter_list true (str "aes128-ctr,3des-cbc,aes256-ctr") (str "*-cbc") true
    = Some (Some (str "aes128-ctr,aes256-ctr"))) as E' by (by vm_compute). congruence.
Defined.
