(* ===== verification/SshkeyNames.v ===== *)
(** * Names and types of keys: src/sshkey.c

    The table of key implementations and the functions that look up names,
    types and signature algorithms in it, in the build with libcrypto, security
    keys and ML-DSA ([WITH_OPENSSL], [ENABLE_SK], [USE_MLDSA]). *)
From S2P Require Import Prelude CString Match.

(** ** enum sshkey_types *)

Definition KEY_RSA : Z := 0.
Definition KEY_ECDSA : Z := 1.
Definition KEY_ED25519 : Z := 2.
Definition KEY_RSA_CERT : Z := 3.
Definition KEY_ECDSA_CERT : Z := 4.
Definition KEY_ED25519_CERT : Z := 5.
Definition KEY_ECDSA_SK : Z := 6.
Definition KEY_ECDSA_SK_CERT : Z := 7.
Definition KEY_ED25519_SK : Z := 8.
Definition KEY_ED25519_SK_CERT : Z := 9.
Definition KEY_MLDSA44_ED25519 : Z := 10.
Definition KEY_MLDSA44_ED25519_CERT : Z := 11.
Definition KEY_UNSPEC : Z := 12.

(** Identifiers of curves in libcrypto. *)
Definition NID_X9_62_prime256v1 : Z := 415.
Definition NID_secp384r1 : Z := 715.
Definition NID_secp521r1 : Z := 716.

(** ** The implementations *)

Record sshkey_impl : Type := mk_impl {
  im_name : list Z;
  im_shortname : list Z;
  im_sigalg : option (list Z);
  im_type : Z;
  im_nid : Z;
  im_cert : bool;
  im_sigonly : bool;
  im_keybits : Z;
}.

Definition sshkey_ed25519_impl : sshkey_impl := mk_impl (str "ssh-ed25519") (str "ED25519") None KEY_ED25519 0 false false 256.
Definition sshkey_ed25519_cert_impl : sshkey_impl := mk_impl (str "ssh-ed25519-cert-v01@openssh.com") (str "ED25519-CERT") None KEY_ED25519_CERT 0 true false 256.
Definition sshkey_ed25519_sk_impl : sshkey_impl := mk_impl (str "sk-ssh-ed25519@openssh.com") (str "ED25519-SK") None KEY_ED25519_SK 0 false false 256.
Definition sshkey_ed25519_sk_cert_impl : sshkey_impl := mk_impl (str "sk-ssh-ed25519-cert-v01@openssh.com") (str "ED25519-SK-CERT") None KEY_ED25519_SK_CERT 0 true false 256.
Definition sshkey_mldsa44_ed25519_impl : sshkey_impl := mk_impl (str "ssh-mldsa44-ed25519@openssh.com") (str "MLDSA44-ED25519") None KEY_MLDSA44_ED25519 0 false false 256.
Definition sshkey_mldsa44_ed25519_cert_impl : sshkey_impl := mk_impl (str "ssh-mldsa44-ed25519-cert-v01@openssh.com") (str "MLDSA44-ED25519-CERT") None KEY_MLDSA44_ED25519_CERT 0 true false 256.
Definition sshkey_ecdsa_nistp256_impl : sshkey_impl := mk_impl (str "ecdsa-sha2-nistp256") (str "ECDSA") None KEY_ECDSA NID_X9_62_prime256v1 false false 0.
Definition sshkey_ecdsa_nistp256_cert_impl : sshkey_impl := mk_impl (str "ecdsa-sha2-nistp256-cert-v01@openssh.com") (str "ECDSA-CERT") None KEY_ECDSA_CERT NID_X9_62_prime256v1 true false 0.
Definition sshkey_ecdsa_nistp384_impl : sshkey_impl := mk_impl (str "ecdsa-sha2-nistp384") (str "ECDSA") None KEY_ECDSA NID_secp384r1 false false 0.
Definition sshkey_ecdsa_nistp384_cert_impl : sshkey_impl := mk_impl (str "ecdsa-sha2-nistp384-cert-v01@openssh.com") (str "ECDSA-CERT") None KEY_ECDSA_CERT NID_secp384r1 true false 0.
Definition sshkey_ecdsa_nistp521_impl : sshkey_impl := mk_impl (str "ecdsa-sha2-nistp521") (str "ECDSA") None KEY_ECDSA NID_secp521r1 false false 0.
Definition sshkey_ecdsa_nistp521_cert_impl : sshkey_impl := mk_impl (str "ecdsa-sha2-nistp521-cert-v01@openssh.com") (str "ECDSA-CERT") None KEY_ECDSA_CERT NID_secp521r1 true false 0.
Definition sshkey_ecdsa_sk_impl : sshkey_impl := mk_impl (str "sk-ecdsa-sha2-nistp256@openssh.com") (str "ECDSA-SK") None KEY_ECDSA_SK NID_X9_62_prime256v1 false false 256.
Definition sshkey_ecdsa_sk_cert_impl : sshkey_impl := mk_impl (str "sk-ecdsa-sha2-nistp256-cert-v01@openssh.com") (str "ECDSA-SK-CERT") None KEY_ECDSA_SK_CERT NID_X9_62_prime256v1 true false 256.
Definition sshkey_ecdsa_sk_webauthn_impl : sshkey_impl := mk_impl (str "webauthn-sk-ecdsa-sha2-nistp256@openssh.com") (str "ECDSA-SK") None KEY_ECDSA_SK NID_X9_62_prime256v1 false true 256.
Definition sshkey_ecdsa_sk_webauthn_cert_impl : sshkey_impl := mk_impl (str "webauthn-sk-ecdsa-sha2-nistp256-cert-v01@openssh.com") (str "ECDSA-SK-CERT") None KEY_ECDSA_SK_CERT NID_X9_62_prime256v1 true true 256.
Definition sshkey_rsa_impl : sshkey_impl := mk_impl (str "ssh-rsa") (str "RSA") None KEY_RSA 0 false false 0.
Definition sshkey_rsa_cert_impl : sshkey_impl := mk_impl (str "ssh-rsa-cert-v01@openssh.com") (str "RSA-CERT") None KEY_RSA_CERT 0 true false 0.
Definition sshkey_rsa_sha256_impl : sshkey_impl := mk_impl (str "rsa-sha2-256") (str "RSA") None KEY_RSA 0 false true 0.
Definition sshkey_rsa_sha256_cert_impl : sshkey_impl := mk_impl (str "rsa-sha2-256-cert-v01@openssh.com") (str "RSA-CERT") (Some (str "rsa-sha2-256")) KEY_RSA_CERT 0 true true 0.
Definition sshkey_rsa_sha512_impl : sshkey_impl := mk_impl (str "rsa-sha2-512") (str "RSA") None KEY_RSA 0 false true 0.
Definition sshkey_rsa_sha512_cert_impl : sshkey_impl := mk_impl (str "rsa-sha2-512-cert-v01@openssh.com") (str "RSA-CERT") (Some (str "rsa-sha2-512")) KEY_RSA_CERT 0 true true 0.

Definition keyimpls : list sshkey_impl :=
  [sshkey_ed25519_impl;
   sshkey_ed25519_cert_impl;
   sshkey_ed25519_sk_impl;
   sshkey_ed25519_sk_cert_impl;
   sshkey_mldsa44_ed25519_impl;
   sshkey_mldsa44_ed25519_cert_impl;
   sshkey_ecdsa_nistp256_impl;
   sshkey_ecdsa_nistp256_cert_impl;
   sshkey_ecdsa_nistp384_impl;
   sshkey_ecdsa_nistp384_cert_impl;
   sshkey_ecdsa_nistp521_impl;
   sshkey_ecdsa_nistp521_cert_impl;
   sshkey_ecdsa_sk_impl;
   sshkey_ecdsa_sk_cert_impl;
   sshkey_ecdsa_sk_webauthn_impl;
   sshkey_ecdsa_sk_webauthn_cert_impl;
   sshkey_rsa_impl;
   sshkey_rsa_cert_impl;
   sshkey_rsa_sha256_impl;
   sshkey_rsa_sha256_cert_impl;
   sshkey_rsa_sha512_impl;
   sshkey_rsa_sha512_cert_impl].
(** ** Looking up *)

Definition sshkey_impl_from_type (type : Z) : option sshkey_impl :=
  List.find (fun i => im_type i =? type) keyimpls.

Definition sshkey_impl_from_type_nid (type nid : Z) : option sshkey_impl :=
  List.find (fun i => (im_type i =? type) && ((im_nid i =? 0) || (im_nid i =? nid))) keyimpls.

(** The members of [struct sshkey] used here are its type and [ecdsa_nid]. *)
Definition sshkey_type (type nid : Z) : list Z :=
  match sshkey_impl_from_type_nid type nid with None => str "unknown" | Some i => im_shortname i end.

Definition sshkey_ssh_name_from_type_nid (type nid : Z) : list Z :=
  match sshkey_impl_from_type_nid type nid with None => str "ssh-unknown" | Some i => im_name i end.

Definition sshkey_type_is_cert (type : Z) : bool :=
  match sshkey_impl_from_type type with None => false | Some i => im_cert i end.

Definition sshkey_type_is_valid_ca (type : Z) : bool :=
  match sshkey_impl_from_type type with None => false | Some i => negb (im_cert i) end.

Definition sshkey_type_plain (type : Z) : Z :=
  if type =? KEY_RSA_CERT then KEY_RSA
  else if type =? KEY_ECDSA_CERT then KEY_ECDSA
  else if type =? KEY_ECDSA_SK_CERT then KEY_ECDSA_SK
  else if type =? KEY_ED25519_CERT then KEY_ED25519
  else if type =? KEY_MLDSA44_ED25519_CERT then KEY_MLDSA44_ED25519
  else if type =? KEY_ED25519_SK_CERT then KEY_ED25519_SK
  else type.

Definition sshkey_type_certified (type : Z) : Z :=
  if type =? KEY_RSA then KEY_RSA_CERT
  else if type =? KEY_ECDSA then KEY_ECDSA_CERT
  else if type =? KEY_ECDSA_SK then KEY_ECDSA_SK_CERT
  else if type =? KEY_ED25519 then KEY_ED25519_CERT
  else if type =? KEY_MLDSA44_ED25519 then KEY_MLDSA44_ED25519_CERT
  else if type =? KEY_ED25519_SK then KEY_ED25519_SK_CERT
  else -1.

Definition sshkey_ssh_name (type nid : Z) : list Z := sshkey_ssh_name_from_type_nid type nid.
Definition sshkey_ssh_name_plain (type nid : Z) : list Z := sshkey_ssh_name_from_type_nid (sshkey_type_plain type) nid.

(** strcasecmp(3) in the C locale. *)
Definition strcaseeq (s t : list Z) : bool := streq (lowercase s) (lowercase t).

Fixpoint type_in (l : list sshkey_impl) (name : list Z) (allow_short : bool) : Z :=
  match l with
  | [] => KEY_UNSPEC
  | i :: l =>
      if streq name (im_name i) then im_type i
      else if allow_short && negb (im_cert i) && strcaseeq (im_shortname i) name then im_type i
      else type_in l name allow_short
  end.
Definition type_from_name (name : list Z) (allow_short : bool) : Z := type_in keyimpls name allow_short.
Definition sshkey_type_from_name (name : list Z) : Z := type_from_name name false.
Definition sshkey_type_from_shortname (name : list Z) : Z := type_from_name name true.

Definition key_type_is_ecdsa_variant (type : Z) : bool :=
  (type =? KEY_ECDSA) || (type =? KEY_ECDSA_CERT) || (type =? KEY_ECDSA_SK) || (type =? KEY_ECDSA_SK_CERT).

Definition sshkey_ecdsa_nid_from_name (name : list Z) : Z :=
  match List.find (fun i => key_type_is_ecdsa_variant (im_type i) && streq name (im_name i)) keyimpls with
  | None => -1
  | Some i => im_nid i
  end.

Definition sshkey_sigalg_by_name (name : list Z) : option (list Z) :=
  match List.find (fun i => streq (im_name i) name) keyimpls with
  | None => None
  | Some i =>
      Some (match im_sigalg i with
            | Some a => a
            | None => if negb (im_cert i) then im_name i
                      else sshkey_ssh_name_from_type_nid (sshkey_type_plain (im_type i)) (im_nid i)
            end)
  end.

(** [xextendf] with the format "%s"; [None] is NULL. *)
Definition xextend (s : option (list Z)) (sep t : list Z) : option (list Z) :=
  match s with None | Some [] => Some t | Some s => Some (s ++ sep ++ t) end.

Fixpoint alg_list_in (l : list sshkey_impl) (certs_only plain_only include_sigonly : bool) (sep : Z) (acc : option (list Z)) :
    option (list Z) :=
  match l with
  | [] => acc
  | i :: l =>
      alg_list_in l certs_only plain_only include_sigonly sep
        (if (negb include_sigonly && im_sigonly i) || ((certs_only && negb (im_cert i)) || (plain_only && im_cert i)) then acc
         else xextend acc [sep] (im_name i))
  end.
Definition sshkey_alg_list (certs_only plain_only include_sigonly : bool) (sep : Z) : option (list Z) :=
  alg_list_in keyimpls certs_only plain_only include_sigonly sep None.

(** [match_pattern_list name list 0 == 1], undefined when that is. *)
Definition listed (name sigalgs : list Z) : option bool :=
  (fun r => r =? 1) <$> match_pattern_list name sigalgs false.
Fixpoint any_listed (names : list (list Z)) (sigalgs : list Z) : option bool :=
  match names with
  | [] => Some false
  | n :: names => match listed n sigalgs with None => None | Some true => Some true | Some false => any_listed names sigalgs end
  end.

Definition sshkey_match_keyname_to_sigalgs (keyname sigalgs : list Z) : option bool :=
  let ktype := sshkey_type_from_name keyname in
  if streq sigalgs [] || (ktype =? KEY_UNSPEC) then Some false
  else if ktype =? KEY_RSA then any_listed [str "ssh-rsa"; str "rsa-sha2-256"; str "rsa-sha2-512"] sigalgs
  else if ktype =? KEY_RSA_CERT then
    any_listed [str "ssh-rsa-cert-v01@openssh.com"; str "rsa-sha2-256-cert-v01@openssh.com";
                str "rsa-sha2-512-cert-v01@openssh.com"] sigalgs
  else if ktype =? KEY_ECDSA_SK then
    any_listed [str "sk-ecdsa-sha2-nistp256@openssh.com"; str "webauthn-sk-ecdsa-sha2-nistp256@openssh.com"] sigalgs
  else if ktype =? KEY_ECDSA_SK_CERT then
    any_listed [str "sk-ecdsa-sha2-nistp256-cert-v01@openssh.com"; str "webauthn-sk-ecdsa-sha2-nistp256-cert-v01@openssh.com"] sigalgs
  else listed keyname sigalgs.

(** Whether some key type has a positive or negative match of the pattern. *)
Fixpoint any_matched (l : list sshkey_impl) (p : list Z) : option bool :=
  match l with
  | [] => Some false
  | i :: l =>
      match match_pattern_list (im_name i) p false with
      | None => None
      | Some r => if negb (r =? 0) then Some true else any_matched l p
      end
  end.

(** The loop over the items of a list stops at an empty one. *)
Fixpoint names_valid_loop (items : list (list Z)) (allow_wildcard plain_only : bool) : option bool :=
  match items with
  | [] | [] :: _ => Some true
  | p :: items =>
      let type := sshkey_type_from_name p in
      if type =? KEY_UNSPEC then
        match (if allow_wildcard then any_matched keyimpls p else Some false) with
        | None => None
        | Some true => names_valid_loop items allow_wildcard plain_only
        | Some false => Some false
        end
      else if plain_only && sshkey_type_is_cert type then Some false
      else names_valid_loop items allow_wildcard plain_only
  end.
Definition sshkey_names_valid2 (names : list Z) (allow_wildcard plain_only : bool) : option bool :=
  if streq names [] then Some false else names_valid_loop (split_on c_comma names) allow_wildcard plain_only.

(** ** The table *)

Lemma names_unique : NoDup (map im_name keyimpls).
Proof. apply (bool_decide_unpack _). vm_compute. exact I. Qed.
