(* ===== verification/KexNames.v ===== *)
(** * Names of key exchange methods: src/kex-names.c

    The table of methods and the operations on lists of algorithm names, in the
    build with libcrypto and all methods. *)
From S2P Require Import Prelude Sshbuf CString Hmac Match SshkeyNames.

(** ** Methods *)

(** enum kex_exchange *)
Definition KEX_DH_GRP1_SHA1 : Z := 1.
Definition KEX_DH_GRP14_SHA1 : Z := 2.
Definition KEX_DH_GRP14_SHA256 : Z := 3.
Definition KEX_DH_GRP16_SHA512 : Z := 4.
Definition KEX_DH_GRP18_SHA512 : Z := 5.
Definition KEX_DH_GEX_SHA1 : Z := 6.
Definition KEX_DH_GEX_SHA256 : Z := 7.
Definition KEX_ECDH_SHA2 : Z := 8.
Definition KEX_C25519_SHA256 : Z := 9.
Definition KEX_KEM_SNTRUP761X25519_SHA512 : Z := 10.
Definition KEX_KEM_MLKEM768X25519_SHA256 : Z := 11.
Definition KEX_KEM_MLKEM768ECDH_SHA256 : Z := 12.
Definition KEX_MAX : Z := 13.

Record kexalg : Type := mk_kexalg { ka_name : list Z; ka_type : Z; ka_ec_nid : Z; ka_hash_alg : Z; ka_pq : bool }.

Definition kexalgs : list kexalg :=
  [mk_kexalg (str "diffie-hellman-group1-sha1") KEX_DH_GRP1_SHA1 0 SSH_DIGEST_SHA1 false;
   mk_kexalg (str "diffie-hellman-group14-sha1") KEX_DH_GRP14_SHA1 0 SSH_DIGEST_SHA1 false;
   mk_kexalg (str "diffie-hellman-group14-sha256") KEX_DH_GRP14_SHA256 0 SSH_DIGEST_SHA256 false;
   mk_kexalg (str "diffie-hellman-group16-sha512") KEX_DH_GRP16_SHA512 0 SSH_DIGEST_SHA512 false;
   mk_kexalg (str "diffie-hellman-group18-sha512") KEX_DH_GRP18_SHA512 0 SSH_DIGEST_SHA512 false;
   mk_kexalg (str "diffie-hellman-group-exchange-sha1") KEX_DH_GEX_SHA1 0 SSH_DIGEST_SHA1 false;
   mk_kexalg (str "diffie-hellman-group-exchange-sha256") KEX_DH_GEX_SHA256 0 SSH_DIGEST_SHA256 false;
   mk_kexalg (str "ecdh-sha2-nistp256") KEX_ECDH_SHA2 NID_X9_62_prime256v1 SSH_DIGEST_SHA256 false;
   mk_kexalg (str "ecdh-sha2-nistp384") KEX_ECDH_SHA2 NID_secp384r1 SSH_DIGEST_SHA384 false;
   mk_kexalg (str "ecdh-sha2-nistp521") KEX_ECDH_SHA2 NID_secp521r1 SSH_DIGEST_SHA512 false;
   mk_kexalg (str "mlkem768nistp256-sha256") KEX_KEM_MLKEM768ECDH_SHA256 NID_X9_62_prime256v1 SSH_DIGEST_SHA256 true;
   mk_kexalg (str "curve25519-sha256") KEX_C25519_SHA256 0 SSH_DIGEST_SHA256 false;
   mk_kexalg (str "curve25519-sha256@libssh.org") KEX_C25519_SHA256 0 SSH_DIGEST_SHA256 false;
   mk_kexalg (str "sntrup761x25519-sha512") KEX_KEM_SNTRUP761X25519_SHA512 0 SSH_DIGEST_SHA512 true;
   mk_kexalg (str "sntrup761x25519-sha512@openssh.com") KEX_KEM_SNTRUP761X25519_SHA512 0 SSH_DIGEST_SHA512 true;
   mk_kexalg (str "mlkem768x25519-sha256") KEX_KEM_MLKEM768X25519_SHA256 0 SSH_DIGEST_SHA256 true].

Definition kex_alg_by_name (name : list Z) : option kexalg := List.find (fun k => streq (ka_name k) name) kexalgs.

Definition kex_alg_list (sep : Z) : option (list Z) :=
  List.fold_left (fun ret k => xextend ret [sep] (ka_name k)) kexalgs None.

Definition kex_name_valid (name : list Z) : bool := match kex_alg_by_name name with Some _ => true | None => false end.
Definition kex_is_pq_from_name (name : list Z) : bool := match kex_alg_by_name name with None => false | Some k => ka_pq k end.
Definition kex_type_from_name (name : list Z) : Z := match kex_alg_by_name name with None => 0 | Some k => ka_type k end.
Definition kex_hash_from_name (name : list Z) : Z := match kex_alg_by_name name with None => -1 | Some k => ka_hash_alg k end.
Definition kex_nid_from_name (name : list Z) : Z := match kex_alg_by_name name with None => -1 | Some k => ka_ec_nid k end.

(** ** Lists of names *)

(** The loop over the items stops at an empty one. *)
Fixpoint kex_names_valid_loop (items : list (list Z)) : bool :=
  match items with
  | [] | [] :: _ => true
  | p :: items => if kex_name_valid p then kex_names_valid_loop items else false
  end.
(** [ok] is false when [strdup] returns NULL. *)
Definition kex_names_valid (ok : bool) (names : list Z) : bool :=
  if streq names [] then false else if negb ok then false else kex_names_valid_loop (split_on c_comma names).

(** The match of two lists of names, undefined when [match_list] is. *)
Definition first_match (client server : list Z) : res (option (list Z)) :=
  match match_list client server with None => Crash | Some (name, _) => Ok name end.

Definition kex_has_any_alg (proposal algs : list Z) : res bool :=
  let? name := first_match proposal algs in Ok (match name with Some _ => true | None => false end).

Fixpoint names_cat_loop (items : list (list Z)) (len : Z) (r : list Z) : res (option (list Z)) :=
  match items with
  | [] | [] :: _ => Ok (Some r)
  | p :: items =>
      let? present := kex_has_any_alg r p in
      if present then names_cat_loop items len r
      else if (len <=? zlen r + 1) || (len <=? zlen r + 1 + zlen p) then Ok None
      else names_cat_loop items len (r ++ c_comma :: p)
  end.

(** [None] is NULL; [ok] is false when [strdup] or [calloc] returns NULL. *)
Definition kex_names_cat (ok : bool) (a : option (list Z)) (b : list Z) : res (option (list Z)) :=
  match a with
  | None | Some [] => Ok (if ok then Some b else None)
  | Some a =>
      if streq b [] then Ok (if ok then Some a else None)
      else if 1024 * 1024 <? zlen b then Ok None
      else if negb ok then Ok None
      else names_cat_loop (split_on c_comma b) (zlen a + zlen b + 2) a
  end.

(** [match_filter_allowlist], [match_filter_denylist] *)
Definition filtered (r : option (option (list Z))) : res (option (list Z)) :=
  match r with None => Crash | Some r => Ok r end.

(** The positive patterns of the list, applied in turn. *)
Fixpoint assemble_loop (ok : bool) (all : list Z) (patterns : list (list Z)) (r : option (list Z)) : res (option (list Z)) :=
  match patterns with
  | [] => Ok r
  | cp :: patterns =>
      if match cp with c :: _ => c =? c_bang | [] => false end then Err SSH_ERR_INVALID_ARGUMENT
      else
        let? matching := filtered (match_filter_allowlist ok all cp) in
        match matching with
        | None => Err SSH_ERR_ALLOC_FAIL
        | Some matching =>
            let? tmp := kex_names_cat ok r matching in
            match tmp with None => Err SSH_ERR_ALLOC_FAIL | Some tmp => assemble_loop ok all patterns (Some tmp) end
        end
  end.

Definition c_plus : Z := 43.
Definition c_minus : Z := 45.
Definition c_caret : Z := 94.

(** The list that the patterns are taken from, or ([inr]) the result. *)
Definition assemble_start (ok : bool) (l def : list Z) : res (list Z + list Z) :=
  let or_alloc r := match r with None => Err SSH_ERR_ALLOC_FAIL | Some x => Ok x end in
  match l with
  | c :: names =>
      if c =? c_plus then let? t := kex_names_cat ok (Some def) names in let? x := or_alloc t in Ok (inl x)
      else if c =? c_minus then let? t := filtered (match_filter_denylist ok def names) in let? x := or_alloc t in Ok (inr x)
      else if c =? c_caret then let? t := kex_names_cat ok (Some names) def in let? x := or_alloc t in Ok (inl x)
      else Ok (inl l)
  | [] => Ok (inl l)
  end.

(** [*listp] is the state; [None] is NULL. *)
Definition kex_assemble_names (ok : bool) (def all : option (list Z)) : ST (option (list Z)) unit := fun listp =>
  match def, all with
  | Some def, Some all =>
      match listp with
      | None | Some [] => if ok then (Ok tt, Some def) else (Err SSH_ERR_ALLOC_FAIL, None)
      | Some l =>
          match assemble_start ok l def with
          | Ok (inr r) => (Ok tt, Some r)
          | Ok (inl l) =>
              if negb ok then (Err SSH_ERR_ALLOC_FAIL, None)
              else
                match assemble_loop ok all (split_on c_comma l) None with
                | Ok (Some (c :: r)) => (Ok tt, Some (c :: r))
                | Ok _ => (Err SSH_ERR_INVALID_ARGUMENT, None)
                | Err e => (Err e, None)
                | Crash => (Crash, None)
                end
          | Err e => (Err e, None)
          | Crash => (Crash, None)
          end
      end
  | _, _ => (Err SSH_ERR_INVALID_ARGUMENT, listp)
  end.
