(* ===== verification/Kex.v ===== *)
(** * Key exchange: src/kex.c and src/dispatch.c

    Proposals, the choice of algorithms, the derivation of keys, the handlers of
    the key exchange messages and the table of handlers.

    The methods that agree on a secret ([kex->kex]) and the handlers outside
    these files are arguments.  Log messages are dropped; formatted messages
    are the strings that vsnprintf(3) produces. *)
From S2P Require Import Prelude Sshbuf SshbufGetput CString SshbufMisc Words Chacha ChachaPoly Cipher Hmac Mac PacketState Packet Match SshkeyNames KexNames.

Definition SSH_ERR_NO_CIPHER_ALG_MATCH : Z := -31.
Definition SSH_ERR_NO_MAC_ALG_MATCH : Z := -32.
Definition SSH_ERR_NO_COMPRESS_ALG_MATCH : Z := -33.
Definition SSH_ERR_NO_KEX_ALG_MATCH : Z := -34.
Definition SSH_ERR_NO_HOSTKEY_ALG_MATCH : Z := -35.

Definition KEX_HAS_PUBKEY_HOSTBOUND : Z := 4.
Definition KEX_RSA_SHA2_256_SUPPORTED : Z := 8.
Definition KEX_RSA_SHA2_512_SUPPORTED : Z := 16.
Definition KEX_HAS_PING : Z := 32.
Definition KEX_HAS_EXT_INFO_IN_AUTH : Z := 64.
Definition KEX_HAS_NEWAGENT : Z := 128.
Definition DISPATCH_MAX : Z := 255.

(** enum kex_init_proposals *)
Definition PROPOSAL_KEX_ALGS : nat := 0.
Definition PROPOSAL_SERVER_HOST_KEY_ALGS : nat := 1.
Definition PROPOSAL_ENC_ALGS_CTOS : nat := 2.
Definition PROPOSAL_ENC_ALGS_STOC : nat := 3.
Definition PROPOSAL_MAC_ALGS_CTOS : nat := 4.
Definition PROPOSAL_MAC_ALGS_STOC : nat := 5.
Definition PROPOSAL_COMP_ALGS_CTOS : nat := 6.
Definition PROPOSAL_COMP_ALGS_STOC : nat := 7.
Definition PROPOSAL_MAX : nat := 10.

(** The digits of a [%u] conversion. *)
Fixpoint dec_loop (fuel : nat) (n : Z) (acc : list Z) : list Z :=
  match fuel with
  | O => acc
  | S fuel => let acc := (48 + n mod 10) :: acc in if n <? 10 then acc else dec_loop fuel (n / 10) acc
  end.
Definition dec (n : Z) : list Z := dec_loop 20 n [].

(** ** Proposals *)

Fixpoint put_all {A} (put1 : A -> ST sshbuf unit) (l : list A) : ST sshbuf unit :=
  match l with [] => ret tt | a :: l => do! put1 a ;; put_all put1 l end.

Definition kex_prop2buf (np : Z) (proposal : list (list Z)) : ST sshbuf unit :=
  do! sshbuf_reset np ;;
  do! put_all (sshbuf_put_u8 np) (replicate (Z.to_nat KEX_COOKIE_LEN) 0) ;;
  do! put_all (fun p => sshbuf_put_cstring np (Some p)) proposal ;;
  do! sshbuf_put_u8 np 0 ;;
  sshbuf_put_u32 np 0.

(** The bytes of an allocated string and its length, without the NUL after them. *)
Definition str_of (p : list Z * Z) : list Z := ztake (snd p) (fst p).

(** The C string at its start. *)
Definition cstr_of (p : list Z * Z) : list Z := span_to 0 (fst p).

Fixpoint get_strings (np : Z) (n : nat) : ST sshbuf (list (list Z)) :=
  match n with
  | O => ret []
  | S n => let! p := sshbuf_get_cstring np in let! l := get_strings np n in ret (cstr_of p :: l)
  end.

(** [sshbuf_fromb]: the parent is not written while the view exists and its count
    of references is as before at the end. *)
Definition sshbuf_view (np : Z) (b : sshbuf) : res (option sshbuf) :=
  let? _ := sshbuf_check_sanity b in
  let? m := buf_bytes b in
  Ok (sshbuf_from np (sb_cd b + sb_off b) m (zlen m)).

(** The proposal and [first_kex_follows]. *)
Definition kex_buf2prop (np : Z) (raw : sshbuf) : res (list (list Z) * Z) :=
  if np =? 0 then Err SSH_ERR_ALLOC_FAIL
  else
    let? b := sshbuf_view np raw in
    match b with
    | None => Err SSH_ERR_ALLOC_FAIL
    | Some b =>
        fst ((do! sshbuf_consume KEX_COOKIE_LEN ;;
              let! proposal := get_strings np PROPOSAL_MAX in
              let! v := sshbuf_get_u8 in
              do! sshbuf_get_u32 ;;
              ret (proposal, v)) b)
    end.

(** ** The choice of algorithms *)

Definition choose_enc (client server : list Z) : res sshenc :=
  let? name := first_match client server in
  match name with
  | None => Err SSH_ERR_NO_CIPHER_ALG_MATCH
  | Some name =>
      match cipher_by_name name with
      | None => Err SSH_ERR_INTERNAL_ERROR
      | Some c => Ok (mk_sshenc c (cipher_keylen c) (cipher_ivlen c) (cipher_blocksize c) [] [])
      end
  end.

Definition choose_comp (client server : list Z) : res Z :=
  let? name := first_match client server in
  match name with
  | None => Err SSH_ERR_NO_COMPRESS_ALG_MATCH
  | Some name =>
      if streq name (str "zlib@openssh.com") then Ok COMP_DELAYED
      else if streq name (str "none") then Ok COMP_NONE
      else Err SSH_ERR_INTERNAL_ERROR
  end.

(** The part of a name list before its first comma. *)
Definition first_name (l : list Z) : list Z := span_to c_comma l.

Definition proposals_match (my peer : list (list Z)) : bool :=
  forallb (fun i => match my !! i, peer !! i with Some a, Some b => streq (first_name a) (first_name b) | _, _ => false end)
    [PROPOSAL_KEX_ALGS; PROPOSAL_SERVER_HOST_KEY_ALGS].

(** ** The state *)

Section Neg.
(** [struct sshkey] *)
Context {K : Type}.

(** The members of [struct kex] that packet.c does not use; the secrets of the
    methods other than Curve25519 are in [kn_other_client_key]. *)
Record kexneg : Type := mk_kexneg {
  kn_we_need : Z;
  kn_dh_need : Z;
  kn_server : bool;
  kn_name : option (list Z);
  kn_hostkey_alg : option (list Z);
  kn_hostkey_type : Z;
  kn_hostkey_nid : Z;
  kn_kex_type : Z;
  kn_server_sig_algs : option (list Z);
  kn_ext_info_c : bool;
  kn_ext_info_s : bool;
  kn_ext_info_received : Z;
  kn_peer : sshbuf;
  kn_client_version : sshbuf;
  kn_server_version : sshbuf;
  kn_session_id : sshbuf;
  kn_initial_sig : option sshbuf;
  kn_initial_hostkey : option K;
  kn_hash_alg : Z;
  kn_ec_nid : Z;
  kn_failed_choice : option (list Z);
  kn_c25519_client_key : list Z;
  kn_other_client_key : list Z;
  kn_client_pub : option sshbuf;
}.

Definition set_kn_we_need (v : Z) (k : kexneg) : kexneg :=
  mk_kexneg v (kn_dh_need k) (kn_server k) (kn_name k) (kn_hostkey_alg k) (kn_hostkey_type k) (kn_hostkey_nid k) (kn_kex_type k) (kn_server_sig_algs k) (kn_ext_info_c k) (kn_ext_info_s k) (kn_ext_info_received k) (kn_peer k) (kn_client_version k) (kn_server_version k) (kn_session_id k) (kn_initial_sig k) (kn_initial_hostkey k) (kn_hash_alg k) (kn_ec_nid k) (kn_failed_choice k) (kn_c25519_client_key k) (kn_other_client_key k) (kn_client_pub k).
Definition set_kn_dh_need (v : Z) (k : kexneg) : kexneg :=
  mk_kexneg (kn_we_need k) v (kn_server k) (kn_name k) (kn_hostkey_alg k) (kn_hostkey_type k) (kn_hostkey_nid k) (kn_kex_type k) (kn_server_sig_algs k) (kn_ext_info_c k) (kn_ext_info_s k) (kn_ext_info_received k) (kn_peer k) (kn_client_version k) (kn_server_version k) (kn_session_id k) (kn_initial_sig k) (kn_initial_hostkey k) (kn_hash_alg k) (kn_ec_nid k) (kn_failed_choice k) (kn_c25519_client_key k) (kn_other_client_key k) (kn_client_pub k).
Definition set_kn_server (v : bool) (k : kexneg) : kexneg :=
  mk_kexneg (kn_we_need k) (kn_dh_need k) v (kn_name k) (kn_hostkey_alg k) (kn_hostkey_type k) (kn_hostkey_nid k) (kn_kex_type k) (kn_server_sig_algs k) (kn_ext_info_c k) (kn_ext_info_s k) (kn_ext_info_received k) (kn_peer k) (kn_client_version k) (kn_server_version k) (kn_session_id k) (kn_initial_sig k) (kn_initial_hostkey k) (kn_hash_alg k) (kn_ec_nid k) (kn_failed_choice k) (kn_c25519_client_key k) (kn_other_client_key k) (kn_client_pub k).
Definition set_kn_name (v : option (list Z)) (k : kexneg) : kexneg :=
  mk_kexneg (kn_we_need k) (kn_dh_need k) (kn_server k) v (kn_hostkey_alg k) (kn_hostkey_type k) (kn_hostkey_nid k) (kn_kex_type k) (kn_server_sig_algs k) (kn_ext_info_c k) (kn_ext_info_s k) (kn_ext_info_received k) (kn_peer k) (kn_client_version k) (kn_server_version k) (kn_session_id k) (kn_initial_sig k) (kn_initial_hostkey k) (kn_hash_alg k) (kn_ec_nid k) (kn_failed_choice k) (kn_c25519_client_key k) (kn_other_client_key k) (kn_client_pub k).
Definition set_kn_hostkey_alg (v : option (list Z)) (k : kexneg) : kexneg :=
  mk_kexneg (kn_we_need k) (kn_dh_need k) (kn_server k) (kn_name k) v (kn_hostkey_type k) (kn_hostkey_nid k) (kn_kex_type k) (kn_server_sig_algs k) (kn_ext_info_c k) (kn_ext_info_s k) (kn_ext_info_received k) (kn_peer k) (kn_client_version k) (kn_server_version k) (kn_session_id k) (kn_initial_sig k) (kn_initial_hostkey k) (kn_hash_alg k) (kn_ec_nid k) (kn_failed_choice k) (kn_c25519_client_key k) (kn_other_client_key k) (kn_client_pub k).
Definition set_kn_hostkey_type (v : Z) (k : kexneg) : kexneg :=
  mk_kexneg (kn_we_need k) (kn_dh_need k) (kn_server k) (kn_name k) (kn_hostkey_alg k) v (kn_hostkey_nid k) (kn_kex_type k) (kn_server_sig_algs k) (kn_ext_info_c k) (kn_ext_info_s k) (kn_ext_info_received k) (kn_peer k) (kn_client_version k) (kn_server_version k) (kn_session_id k) (kn_initial_sig k) (kn_initial_hostkey k) (kn_hash_alg k) (kn_ec_nid k) (kn_failed_choice k) (kn_c25519_client_key k) (kn_other_client_key k) (kn_client_pub k).
Definition set_kn_hostkey_nid (v : Z) (k : kexneg) : kexneg :=
  mk_kexneg (kn_we_need k) (kn_dh_need k) (kn_server k) (kn_name k) (kn_hostkey_alg k) (kn_hostkey_type k) v (kn_kex_type k) (kn_server_sig_algs k) (kn_ext_info_c k) (kn_ext_info_s k) (kn_ext_info_received k) (kn_peer k) (kn_client_version k) (kn_server_version k) (kn_session_id k) (kn_initial_sig k) (kn_initial_hostkey k) (kn_hash_alg k) (kn_ec_nid k) (kn_failed_choice k) (kn_c25519_client_key k) (kn_other_client_key k) (kn_client_pub k).
Definition set_kn_kex_type (v : Z) (k : kexneg) : kexneg :=
  mk_kexneg (kn_we_need k) (kn_dh_need k) (kn_server k) (kn_name k) (kn_hostkey_alg k) (kn_hostkey_type k) (kn_hostkey_nid k) v (kn_server_sig_algs k) (kn_ext_info_c k) (kn_ext_info_s k) (kn_ext_info_received k) (kn_peer k) (kn_client_version k) (kn_server_version k) (kn_session_id k) (kn_initial_sig k) (kn_initial_hostkey k) (kn_hash_alg k) (kn_ec_nid k) (kn_failed_choice k) (kn_c25519_client_key k) (kn_other_client_key k) (kn_client_pub k).
Definition set_kn_server_sig_algs (v : option (list Z)) (k : kexneg) : kexneg :=
  mk_kexneg (kn_we_need k) (kn_dh_need k) (kn_server k) (kn_name k) (kn_hostkey_alg k) (kn_hostkey_type k) (kn_hostkey_nid k) (kn_kex_type k) v (kn_ext_info_c k) (kn_ext_info_s k) (kn_ext_info_received k) (kn_peer k) (kn_client_version k) (kn_server_version k) (kn_session_id k) (kn_initial_sig k) (kn_initial_hostkey k) (kn_hash_alg k) (kn_ec_nid k) (kn_failed_choice k) (kn_c25519_client_key k) (kn_other_client_key k) (kn_client_pub k).
Definition set_kn_ext_info_c (v : bool) (k : kexneg) : kexneg :=
  mk_kexneg (kn_we_need k) (kn_dh_need k) (kn_server k) (kn_name k) (kn_hostkey_alg k) (kn_hostkey_type k) (kn_hostkey_nid k) (kn_kex_type k) (kn_server_sig_algs k) v (kn_ext_info_s k) (kn_ext_info_received k) (kn_peer k) (kn_client_version k) (kn_server_version k) (kn_session_id k) (kn_initial_sig k) (kn_initial_hostkey k) (kn_hash_alg k) (kn_ec_nid k) (kn_failed_choice k) (kn_c25519_client_key k) (kn_other_client_key k) (kn_client_pub k).
Definition set_kn_ext_info_s (v : bool) (k : kexneg) : kexneg :=
  mk_kexneg (kn_we_need k) (kn_dh_need k) (kn_server k) (kn_name k) (kn_hostkey_alg k) (kn_hostkey_type k) (kn_hostkey_nid k) (kn_kex_type k) (kn_server_sig_algs k) (kn_ext_info_c k) v (kn_ext_info_received k) (kn_peer k) (kn_client_version k) (kn_server_version k) (kn_session_id k) (kn_initial_sig k) (kn_initial_hostkey k) (kn_hash_alg k) (kn_ec_nid k) (kn_failed_choice k) (kn_c25519_client_key k) (kn_other_client_key k) (kn_client_pub k).
Definition set_kn_ext_info_received (v : Z) (k : kexneg) : kexneg :=
  mk_kexneg (kn_we_need k) (kn_dh_need k) (kn_server k) (kn_name k) (kn_hostkey_alg k) (kn_hostkey_type k) (kn_hostkey_nid k) (kn_kex_type k) (kn_server_sig_algs k) (kn_ext_info_c k) (kn_ext_info_s k) v (kn_peer k) (kn_client_version k) (kn_server_version k) (kn_session_id k) (kn_initial_sig k) (kn_initial_hostkey k) (kn_hash_alg k) (kn_ec_nid k) (kn_failed_choice k) (kn_c25519_client_key k) (kn_other_client_key k) (kn_client_pub k).
Definition set_kn_peer (v : sshbuf) (k : kexneg) : kexneg :=
  mk_kexneg (kn_we_need k) (kn_dh_need k) (kn_server k) (kn_name k) (kn_hostkey_alg k) (kn_hostkey_type k) (kn_hostkey_nid k) (kn_kex_type k) (kn_server_sig_algs k) (kn_ext_info_c k) (kn_ext_info_s k) (kn_ext_info_received k) v (kn_client_version k) (kn_server_version k) (kn_session_id k) (kn_initial_sig k) (kn_initial_hostkey k) (kn_hash_alg k) (kn_ec_nid k) (kn_failed_choice k) (kn_c25519_client_key k) (kn_other_client_key k) (kn_client_pub k).
Definition set_kn_client_version (v : sshbuf) (k : kexneg) : kexneg :=
  mk_kexneg (kn_we_need k) (kn_dh_need k) (kn_server k) (kn_name k) (kn_hostkey_alg k) (kn_hostkey_type k) (kn_hostkey_nid k) (kn_kex_type k) (kn_server_sig_algs k) (kn_ext_info_c k) (kn_ext_info_s k) (kn_ext_info_received k) (kn_peer k) v (kn_server_version k) (kn_session_id k) (kn_initial_sig k) (kn_initial_hostkey k) (kn_hash_alg k) (kn_ec_nid k) (kn_failed_choice k) (kn_c25519_client_key k) (kn_other_client_key k) (kn_client_pub k).
Definition set_kn_server_version (v : sshbuf) (k : kexneg) : kexneg :=
  mk_kexneg (kn_we_need k) (kn_dh_need k) (kn_server k) (kn_name k) (kn_hostkey_alg k) (kn_hostkey_type k) (kn_hostkey_nid k) (kn_kex_type k) (kn_server_sig_algs k) (kn_ext_info_c k) (kn_ext_info_s k) (kn_ext_info_received k) (kn_peer k) (kn_client_version k) v (kn_session_id k) (kn_initial_sig k) (kn_initial_hostkey k) (kn_hash_alg k) (kn_ec_nid k) (kn_failed_choice k) (kn_c25519_client_key k) (kn_other_client_key k) (kn_client_pub k).
Definition set_kn_session_id (v : sshbuf) (k : kexneg) : kexneg :=
  mk_kexneg (kn_we_need k) (kn_dh_need k) (kn_server k) (kn_name k) (kn_hostkey_alg k) (kn_hostkey_type k) (kn_hostkey_nid k) (kn_kex_type k) (kn_server_sig_algs k) (kn_ext_info_c k) (kn_ext_info_s k) (kn_ext_info_received k) (kn_peer k) (kn_client_version k) (kn_server_version k) v (kn_initial_sig k) (kn_initial_hostkey k) (kn_hash_alg k) (kn_ec_nid k) (kn_failed_choice k) (kn_c25519_client_key k) (kn_other_client_key k) (kn_client_pub k).
Definition set_kn_initial_sig (v : option sshbuf) (k : kexneg) : kexneg :=
  mk_kexneg (kn_we_need k) (kn_dh_need k) (kn_server k) (kn_name k) (kn_hostkey_alg k) (kn_hostkey_type k) (kn_hostkey_nid k) (kn_kex_type k) (kn_server_sig_algs k) (kn_ext_info_c k) (kn_ext_info_s k) (kn_ext_info_received k) (kn_peer k) (kn_client_version k) (kn_server_version k) (kn_session_id k) v (kn_initial_hostkey k) (kn_hash_alg k) (kn_ec_nid k) (kn_failed_choice k) (kn_c25519_client_key k) (kn_other_client_key k) (kn_client_pub k).
Definition set_kn_initial_hostkey (v : option K) (k : kexneg) : kexneg :=
  mk_kexneg (kn_we_need k) (kn_dh_need k) (kn_server k) (kn_name k) (kn_hostkey_alg k) (kn_hostkey_type k) (kn_hostkey_nid k) (kn_kex_type k) (kn_server_sig_algs k) (kn_ext_info_c k) (kn_ext_info_s k) (kn_ext_info_received k) (kn_peer k) (kn_client_version k) (kn_server_version k) (kn_session_id k) (kn_initial_sig k) v (kn_hash_alg k) (kn_ec_nid k) (kn_failed_choice k) (kn_c25519_client_key k) (kn_other_client_key k) (kn_client_pub k).
Definition set_kn_hash_alg (v : Z) (k : kexneg) : kexneg :=
  mk_kexneg (kn_we_need k) (kn_dh_need k) (kn_server k) (kn_name k) (kn_hostkey_alg k) (kn_hostkey_type k) (kn_hostkey_nid k) (kn_kex_type k) (kn_server_sig_algs k) (kn_ext_info_c k) (kn_ext_info_s k) (kn_ext_info_received k) (kn_peer k) (kn_client_version k) (kn_server_version k) (kn_session_id k) (kn_initial_sig k) (kn_initial_hostkey k) v (kn_ec_nid k) (kn_failed_choice k) (kn_c25519_client_key k) (kn_other_client_key k) (kn_client_pub k).
Definition set_kn_ec_nid (v : Z) (k : kexneg) : kexneg :=
  mk_kexneg (kn_we_need k) (kn_dh_need k) (kn_server k) (kn_name k) (kn_hostkey_alg k) (kn_hostkey_type k) (kn_hostkey_nid k) (kn_kex_type k) (kn_server_sig_algs k) (kn_ext_info_c k) (kn_ext_info_s k) (kn_ext_info_received k) (kn_peer k) (kn_client_version k) (kn_server_version k) (kn_session_id k) (kn_initial_sig k) (kn_initial_hostkey k) (kn_hash_alg k) v (kn_failed_choice k) (kn_c25519_client_key k) (kn_other_client_key k) (kn_client_pub k).
Definition set_kn_failed_choice (v : option (list Z)) (k : kexneg) : kexneg :=
  mk_kexneg (kn_we_need k) (kn_dh_need k) (kn_server k) (kn_name k) (kn_hostkey_alg k) (kn_hostkey_type k) (kn_hostkey_nid k) (kn_kex_type k) (kn_server_sig_algs k) (kn_ext_info_c k) (kn_ext_info_s k) (kn_ext_info_received k) (kn_peer k) (kn_client_version k) (kn_server_version k) (kn_session_id k) (kn_initial_sig k) (kn_initial_hostkey k) (kn_hash_alg k) (kn_ec_nid k) v (kn_c25519_client_key k) (kn_other_client_key k) (kn_client_pub k).
Definition set_kn_c25519_client_key (v : list Z) (k : kexneg) : kexneg :=
  mk_kexneg (kn_we_need k) (kn_dh_need k) (kn_server k) (kn_name k) (kn_hostkey_alg k) (kn_hostkey_type k) (kn_hostkey_nid k) (kn_kex_type k) (kn_server_sig_algs k) (kn_ext_info_c k) (kn_ext_info_s k) (kn_ext_info_received k) (kn_peer k) (kn_client_version k) (kn_server_version k) (kn_session_id k) (kn_initial_sig k) (kn_initial_hostkey k) (kn_hash_alg k) (kn_ec_nid k) (kn_failed_choice k) v (kn_other_client_key k) (kn_client_pub k).
Definition set_kn_other_client_key (v : list Z) (k : kexneg) : kexneg :=
  mk_kexneg (kn_we_need k) (kn_dh_need k) (kn_server k) (kn_name k) (kn_hostkey_alg k) (kn_hostkey_type k) (kn_hostkey_nid k) (kn_kex_type k) (kn_server_sig_algs k) (kn_ext_info_c k) (kn_ext_info_s k) (kn_ext_info_received k) (kn_peer k) (kn_client_version k) (kn_server_version k) (kn_session_id k) (kn_initial_sig k) (kn_initial_hostkey k) (kn_hash_alg k) (kn_ec_nid k) (kn_failed_choice k) (kn_c25519_client_key k) v (kn_client_pub k).
Definition set_kn_client_pub (v : option sshbuf) (k : kexneg) : kexneg :=
  mk_kexneg (kn_we_need k) (kn_dh_need k) (kn_server k) (kn_name k) (kn_hostkey_alg k) (kn_hostkey_type k) (kn_hostkey_nid k) (kn_kex_type k) (kn_server_sig_algs k) (kn_ext_info_c k) (kn_ext_info_s k) (kn_ext_info_received k) (kn_peer k) (kn_client_version k) (kn_server_version k) (kn_session_id k) (kn_initial_sig k) (kn_initial_hostkey k) (kn_hash_alg k) (kn_ec_nid k) (kn_failed_choice k) (kn_c25519_client_key k) (kn_other_client_key k) v.
End Neg.
Arguments kexneg : clear implicits.

(** The handlers that the table of [struct ssh] points to. *)
Inductive handler : Type :=
| H_NULL | H_kex_input_kexinit | H_kex_input_newkeys | H_kex_input_ext_info | H_kex_protocol_error
| H_dispatch_protocol_error | H_dispatch_protocol_ignore | H_input_kex_gen_init | H_input_kex_gen_reply | H_other (n : Z).

Section Kex.
Context {V M U Zs K : Type} `{EVP V} `{EVP_MD M} `{UMAC U} `{ZLIB Zs}.
Implicit Types E : penv.

(** [struct ssh]: the session (with the rest of [kex]), the negotiation, the
    table of handlers, [dispatch_skip_packets] and [compat]. *)
Record ssh : Type := mk_ssh {
  ssh_state : session_state V M U Zs;
  ssh_neg : kexneg K;
  ssh_dispatch : list handler;
  ssh_skip : Z;
  ssh_compat : Z;
}.

Definition KM (A : Type) : Type := ST ssh A.

Definition set_state (s : session_state V M U Zs) (x : ssh) : ssh := mk_ssh s (ssh_neg x) (ssh_dispatch x) (ssh_skip x) (ssh_compat x).
Definition set_neg (k : kexneg K) (x : ssh) : ssh := mk_ssh (ssh_state x) k (ssh_dispatch x) (ssh_skip x) (ssh_compat x).
Definition set_dispatch (d : list handler) (x : ssh) : ssh := mk_ssh (ssh_state x) (ssh_neg x) d (ssh_skip x) (ssh_compat x).
Definition set_skip (n : Z) (x : ssh) : ssh := mk_ssh (ssh_state x) (ssh_neg x) (ssh_dispatch x) n (ssh_compat x).
Definition set_compat (n : Z) (x : ssh) : ssh := mk_ssh (ssh_state x) (ssh_neg x) (ssh_dispatch x) (ssh_skip x) n.

(** A function of the packet layer. *)
Definition on_state {A} (m : PM V M U Zs A) : KM A := fun x => let '(r, s) := m (ssh_state x) in (r, set_state s x).
Definition change (f : ssh -> ssh) : KM unit := fun x => (Ok tt, f x).
Definition upd_neg (f : kexneg K -> kexneg K) : KM unit := change (fun x => set_neg (f (ssh_neg x)) x).

(** [kex->flags] *)
Definition kex_flags : KM Z := let! k := on_state the_kex in ret (kx_flags k).
Definition kex_flag_set (f : Z) : KM unit := on_state (upd_kex (fun k => set_kx_flags (Z.lor (kx_flags k) f) k)).
Definition kex_flag_clear (f : Z) : KM unit := on_state (upd_kex (fun k => set_kx_flags (Z.land (kx_flags k) (Z.lnot f)) k)).

(** ** src/dispatch.c *)

Definition ssh_dispatch_init (dflt : handler) : KM unit := change (set_dispatch (replicate (Z.to_nat DISPATCH_MAX) dflt)).
Definition ssh_dispatch_set (type : Z) (h : handler) : KM unit := fun x =>
  if (0 <=? type) && (type <? zlen (ssh_dispatch x)) then (Ok tt, set_dispatch (<[Z.to_nat type := h]> (ssh_dispatch x)) x) else (Crash, x).
Fixpoint set_range (l : list handler) (i from to : Z) (h : handler) : list handler :=
  match l with [] => [] | a :: l => (if (from <=? i) && (i <=? to) then h else a) :: set_range l (i + 1) from to h end.
Definition ssh_dispatch_range (from to : Z) (h : handler) : KM unit :=
  change (fun x => set_dispatch (set_range (ssh_dispatch x) 0 from to h) x).

(** A failure ends the process. *)
Definition or_exit {A} (m : KM A) : KM A := fun x => match m x with (Err _, x) => (Err EXIT, x) | r => r end.

Definition dispatch_protocol_error E (type seq : Z) : KM unit :=
  or_exit (on_state (do! sshpkt_start E SSH2_MSG_UNIMPLEMENTED ;; do! sshpkt_put_u32 E seq ;; do! sshpkt_send E ;; ssh_packet_write_wait E)).

(** ** Unexpected messages *)

Definition kex_protocol_error E (type seq : Z) : KM unit :=
  let! k := on_state the_kex in
  do! (if negb (Z.land (kx_flags k) KEX_INITIAL =? 0) && kx_strict k then
         on_state (ssh_packet_disconnect E (str "strict KEX violation: unexpected packet type " ++ dec type ++
                                            str " (seqnr " ++ dec seq ++ str ")"))
       else ret tt) ;;
  on_state (do! sshpkt_start E SSH2_MSG_UNIMPLEMENTED ;; do! sshpkt_put_u32 E seq ;; sshpkt_send E).

Definition kex_reset_dispatch : KM unit := ssh_dispatch_range SSH2_MSG_TRANSPORT_MIN SSH2_MSG_TRANSPORT_MAX H_kex_protocol_error.

(** ** Choosing *)

Definition choose_kex (client server : list Z) : KM unit :=
  let! name := reads (fun _ => first_match client server) in
  do! upd_neg (set_kn_name name) ;;
  match name with
  | None => fail SSH_ERR_NO_KEX_ALG_MATCH
  | Some name =>
      if negb (kex_name_valid name) then fail SSH_ERR_INTERNAL_ERROR
      else upd_neg (fun k => set_kn_ec_nid (kex_nid_from_name name) (set_kn_hash_alg (kex_hash_from_name name)
                               (set_kn_kex_type (kex_type_from_name name) k)))
  end.

Definition choose_hostkeyalg (client server : list Z) : KM unit :=
  let! name := reads (fun _ => first_match client server) in
  do! upd_neg (set_kn_hostkey_alg name) ;;
  match name with
  | None => fail SSH_ERR_NO_HOSTKEY_ALG_MATCH
  | Some name =>
      let type := sshkey_type_from_name name in
      do! upd_neg (set_kn_hostkey_type type) ;;
      if type =? KEY_UNSPEC then fail SSH_ERR_INTERNAL_ERROR
      else upd_neg (set_kn_hostkey_nid (sshkey_ecdsa_nid_from_name name))
  end.

(** A zeroed [struct newkeys]. *)
Definition no_cipher : sshcipher := mk_sshcipher [] 0 0 0 0 0.
Definition no_enc : sshenc := mk_sshenc no_cipher 0 0 0 [] [].
Definition no_mac : sshmac M U := mk_sshmac _ _ false 0 None 0 0 false None None.
Definition no_keys : newkeys M U := mk_newkeys no_enc no_mac (mk_sshcomp 0 false).

Definition set_nk_enc (e : sshenc) (k : newkeys M U) : newkeys M U := mk_newkeys e (nk_mac k) (nk_comp k).

Definition choose_mac E (client server : list Z) : ST (sshmac M U) unit :=
  let! name := reads (fun _ => first_match client server) in
  match name with
  | None => fail SSH_ERR_NO_MAC_ALG_MATCH
  | Some name =>
      do! or_err (mac_setup (pe_np E) name) SSH_ERR_INTERNAL_ERROR ;;
      fun mac => (Ok tt, mk_sshmac _ _ false (mac_len mac) None (mac_key_len mac) (mac_type mac) (mac_etm mac) (mac_hmac mac) (mac_umac mac))
  end.

(** [kex->newkeys[mode]] *)
Definition kx_newkeys (m : mode) (k : kex M U) : option (newkeys M U) :=
  match m with MODE_IN => kx_newkeys_in k | MODE_OUT => kx_newkeys_out k end.
Definition set_kx_newkeys (m : mode) (nk : option (newkeys M U)) : kex M U -> kex M U :=
  match m with MODE_IN => set_kx_newkeys_in nk | MODE_OUT => set_kx_newkeys_out nk end.
Definition on_newkeys {A} (m : mode) (f : ST (newkeys M U) A) : KM A :=
  let! k := on_state the_kex in
  match kx_newkeys m k with
  | None => crash
  | Some nk => let '(r, nk) := f nk in do! on_state (upd_kex (set_kx_newkeys m (Some nk))) ;; reads (fun _ => r)
  end.

(** Whether the keys of this mode protect what the client sends. *)
Definition is_ctos (server : bool) (m : mode) : bool :=
  match m with MODE_OUT => negb server | MODE_IN => server end.

(** The caller keeps the list that had no match. *)
Definition or_failed_choice (peer : list (list Z)) (i : nat) (m : KM unit) : KM unit := fun x =>
  match m x with
  | (Err e, x) => (Err e, set_neg (set_kn_failed_choice (peer !! i) (ssh_neg x)) x)
  | r => r
  end.

Definition choose_keys E (peer cprop sprop : list (list Z)) (m : mode) : KM unit :=
  if pe_np E =? 0 then fail SSH_ERR_ALLOC_FAIL
  else
    do! on_state (upd_kex (set_kx_newkeys m (Some no_keys))) ;;
    let! x := get in
    let ctos := is_ctos (kn_server (ssh_neg x)) m in
    let nenc := if ctos then PROPOSAL_ENC_ALGS_CTOS else PROPOSAL_ENC_ALGS_STOC in
    let nmac := if ctos then PROPOSAL_MAC_ALGS_CTOS else PROPOSAL_MAC_ALGS_STOC in
    let ncomp := if ctos then PROPOSAL_COMP_ALGS_CTOS else PROPOSAL_COMP_ALGS_STOC in
    let c i := default [] (cprop !! i) in
    let s i := default [] (sprop !! i) in
    do! or_failed_choice peer nenc
          (let! enc := reads (fun _ => choose_enc (c nenc) (s nenc)) in on_newkeys m (fun nk => (Ok tt, set_nk_enc enc nk))) ;;
    let! authlen := on_newkeys m (fun nk => (Ok (cipher_authlen (enc_cipher (nk_enc nk))), nk)) in
    do! (if authlen =? 0 then
           or_failed_choice peer nmac
             (on_newkeys m (fun nk => let '(r, mac) := choose_mac E (c nmac) (s nmac) (nk_mac nk) in (r, set_nk_mac mac nk)))
         else ret tt) ;;
    or_failed_choice peer ncomp
      (let! type := reads (fun _ => choose_comp (c ncomp) (s ncomp)) in
       on_newkeys m (fun nk => (Ok tt, set_nk_comp (mk_sshcomp type (comp_enabled (nk_comp nk))) nk))).

(** The longest of the lengths of one mode. *)
Definition keys_need (nk : newkeys M U) (need : Z) : Z :=
  Z.max (Z.max (Z.max (Z.max need (enc_key_len (nk_enc nk))) (enc_block_size (nk_enc nk))) (enc_iv_len (nk_enc nk))) (mac_key_len (nk_mac nk)).
Definition keys_dh_need (nk : newkeys M U) (need : Z) : Z :=
  Z.max (Z.max (Z.max (Z.max need (cipher_seclen (enc_cipher (nk_enc nk)))) (enc_block_size (nk_enc nk))) (enc_iv_len (nk_enc nk))) (mac_key_len (nk_mac nk)).

(** What a peer signals in the first exchange. *)
Definition peer_signals E (peer : list (list Z)) (seq : Z) : KM unit :=
  let! x := get in
  let kexalgs := default [] (peer !! PROPOSAL_KEX_ALGS) in
  let server := kn_server (ssh_neg x) in
  let has alg := reads (fun _ => kex_has_any_alg kexalgs alg) in
  do! (if server then let! b := has (str "ext-info-c") in upd_neg (set_kn_ext_info_c b)
       else let! b := has (str "ext-info-s") in upd_neg (set_kn_ext_info_s b)) ;;
  let! strict := has (if server then str "kex-strict-c-v00@openssh.com" else str "kex-strict-s-v00@openssh.com") in
  do! on_state (upd_kex (set_kx_strict strict)) ;;
  if strict && negb (seq =? 0) then
    on_state (ssh_packet_disconnect E (str "strict KEX violation: KEXINIT was not the first packet"))
  else ret tt.

(** The RSA signature algorithms of a client. *)
Definition client_rsa_sha2 (peer : list (list Z)) : KM unit :=
  let algs := default [] (peer !! PROPOSAL_SERVER_HOST_KEY_ALGS) in
  let! a := reads (fun _ => kex_has_any_alg algs (str "rsa-sha2-256,rsa-sha2-256-cert-v01@openssh.com")) in
  do! (if a then kex_flag_set KEX_RSA_SHA2_256_SUPPORTED else ret tt) ;;
  let! b := reads (fun _ => kex_has_any_alg algs (str "rsa-sha2-512,rsa-sha2-512-cert-v01@openssh.com")) in
  if b then kex_flag_set KEX_RSA_SHA2_512_SUPPORTED else ret tt.

Definition kex_choose_conf E (seq : Z) : KM unit :=
  let! k := on_state the_kex in
  let! my := reads (fun _ => kex_buf2prop (pe_np E) (kx_my k)) in
  let! x := get in
  let! pf := reads (fun _ => kex_buf2prop (pe_np E) (kn_peer (ssh_neg x))) in
  let '(my, (peer, first_kex_follows)) := (fst my, pf) in
  let server := kn_server (ssh_neg x) in
  let cprop := if server then peer else my in
  let sprop := if server then my else peer in
  let initial := negb (Z.land (kx_flags k) KEX_INITIAL =? 0) in
  do! (if initial then peer_signals E peer seq else ret tt) ;;
  do! (if server && initial then client_rsa_sha2 peer else ret tt) ;;
  let c i := default [] (cprop !! i) in
  let s i := default [] (sprop !! i) in
  do! or_failed_choice peer PROPOSAL_KEX_ALGS (choose_kex (c PROPOSAL_KEX_ALGS) (s PROPOSAL_KEX_ALGS)) ;;
  do! or_failed_choice peer PROPOSAL_SERVER_HOST_KEY_ALGS
        (choose_hostkeyalg (c PROPOSAL_SERVER_HOST_KEY_ALGS) (s PROPOSAL_SERVER_HOST_KEY_ALGS)) ;;
  do! choose_keys E peer cprop sprop MODE_IN ;;
  do! choose_keys E peer cprop sprop MODE_OUT ;;
  let! k := on_state the_kex in
  match kx_newkeys_in k, kx_newkeys_out k with
  | Some i, Some o =>
      do! upd_neg (fun n => set_kn_dh_need (keys_dh_need o (keys_dh_need i 0)) (set_kn_we_need (keys_need o (keys_need i 0)) n)) ;;
      if negb (first_kex_follows =? 0) && negb (proposals_match my peer) then change (set_skip 1) else ret tt
  | _, _ => crash
  end.

(** ** Deriving keys *)

Definition ssh_digest_update_buffer (b : sshbuf) : ST (ssh_digest_ctx M) unit :=
  let! m := reads (fun _ => buf_bytes b) in ssh_digest_update m.

(** The hash of several inputs; any failure is SSH_ERR_LIBCRYPTO_ERROR. *)
Definition kdf_hash E (alg mdsz : Z) (m : ST (ssh_digest_ctx M) unit) : res (list Z) :=
  match ssh_digest_start (pe_np E) alg with
  | None => Err SSH_ERR_LIBCRYPTO_ERROR
  | Some ctx =>
      match fst ((do! m ;; ssh_digest_final mdsz) ctx) with
      | Err _ => Err SSH_ERR_LIBCRYPTO_ERROR
      | r => r
      end
  end.

(** [digest] holds [have] bytes of key. *)
Fixpoint derive_loop E (fuel : nat) (alg mdsz need : Z) (hash : list Z) (shared_secret : sshbuf) (digest : list Z) : res (list Z) :=
  if need <=? zlen digest then Ok digest
  else
    match fuel with
    | O => Crash
    | S fuel =>
        let? d := kdf_hash E alg mdsz (do! ssh_digest_update_buffer shared_secret ;; do! ssh_digest_update hash ;; ssh_digest_update digest) in
        derive_loop E fuel alg mdsz need hash shared_secret (digest ++ d)
    end.

(** The key of [ROUNDUP (need, mdsz)] bytes, at least one digest. *)
Definition derive_key E (neg : kexneg K) (id need : Z) (hash : list Z) (shared_secret : sshbuf) : res (list Z) :=
  let alg := kn_hash_alg neg in
  let mdsz := ssh_digest_bytes alg in
  if mdsz =? 0 then Err SSH_ERR_INVALID_ARGUMENT
  else if pe_np E =? 0 then Err SSH_ERR_ALLOC_FAIL
  else if ROUNDUP need mdsz <? mdsz then Crash
  else
    let? k1 := kdf_hash E alg mdsz (do! ssh_digest_update_buffer shared_secret ;; do! ssh_digest_update hash ;;
                                    do! ssh_digest_update [id] ;; ssh_digest_update_buffer (kn_session_id neg)) in
    derive_loop E (Z.to_nat (need / mdsz + 1)) alg mdsz need hash shared_secret k1.

Fixpoint derive_all E (neg : kexneg K) (ids : list Z) (need : Z) (hash : list Z) (shared_secret : sshbuf) : res (list (list Z)) :=
  match ids with
  | [] => Ok []
  | i :: ids => let? k := derive_key E neg i need hash shared_secret in let? l := derive_all E neg ids need hash shared_secret in Ok (k :: l)
  end.

Definition set_mac_key (k : option (list Z)) (m : sshmac M U) : sshmac M U :=
  mk_sshmac _ _ (mac_enabled m) (mac_len m) k (mac_key_len m) (mac_type m) (mac_etm m) (mac_hmac m) (mac_umac m).
Definition install_keys (iv key mackey : list Z) (nk : newkeys M U) : newkeys M U :=
  let e := nk_enc nk in
  mk_newkeys (mk_sshenc (enc_cipher e) (enc_key_len e) (enc_iv_len e) (enc_block_size e) key iv) (set_mac_key (Some mackey) (nk_mac nk)) (nk_comp nk).

Definition kex_derive_keys E (hash : list Z) (shared_secret : sshbuf) : KM unit :=
  let! fl := kex_flags in
  let! x := get in
  let! n := reads (fun _ => sshbuf_len (kn_session_id (ssh_neg x))) in
  do! (if negb (Z.land fl KEX_INITIAL =? 0) then
         if negb (n =? 0) then fail SSH_ERR_INTERNAL_ERROR
         else
           let '(r, b) := sshbuf_put (pe_np E) hash (kn_session_id (ssh_neg x)) in
           do! upd_neg (set_kn_session_id b) ;; reads (fun _ => r)
       else if n =? 0 then fail SSH_ERR_INTERNAL_ERROR else ret tt) ;;
  let! x := get in
  let! keys := reads (fun _ => derive_all E (ssh_neg x) [65; 66; 67; 68; 69; 70] (kn_we_need (ssh_neg x)) hash shared_secret) in
  match keys with
  | [a; b; c; d; e; f] =>
      let put_keys m := on_newkeys m (fun nk => (Ok tt, if is_ctos (kn_server (ssh_neg x)) m then install_keys a c e nk else install_keys b d f nk)) in
      do! put_keys MODE_IN ;; put_keys MODE_OUT
  | _ => crash
  end.
End Kex.
