(* ===== verification/Misc.v ===== *)
(** * Strings: src/misc.c

    Splitting and assembling command lines, options of keys, host and port,
    user, host and path, percent and environment expansion, names of hosts and
    variables, in the build without WINDOWS.  A function that moves a [char **]
    returns the rest of the string; xmalloc(3) and its like do not return when they
    fail.  getservbyname(3), getenv(3), strptime(3), timegm(3) and mktime(3) are arguments. *)
From S2P Require Import Prelude Sshbuf SshbufGetput CString SshbufMisc Words Chacha ChachaPoly Cipher Hmac Mac PacketState Packet Match SshkeyNames KexNames Kex.

Definition c_quote : Z := 34.
Definition c_apostrophe : Z := 39.
Definition c_backslash : Z := 92.
Definition blank (c : Z) : bool := (c =? 32) || (c =? 9).

(** [strncasecmp (s, t, strlen (t)) == 0] and [strncmp], with what follows. *)
Definition strprefix (s prefix : list Z) (ignorecase : bool) : option (list Z) :=
  let n := length prefix in
  if (if ignorecase then strcaseeq else streq) (take n s) prefix then Some (drop n s) else None.

(** ** Words *)

Fixpoint chop (s : list Z) : list Z :=
  match s with [] => [] | c :: s => if (c =? 10) || (c =? 13) then [] else c :: chop s end.

Fixpoint rtrim (s : list Z) : list Z :=
  match s with
  | [] => []
  | c :: s => match rtrim s with [] => if isspace c then [] else [c] | t => c :: t end
  end.

Definition whitespace (c : Z) : bool := (c =? 32) || (c =? 9) || (c =? 13) || (c =? 10).

(** The first part without a character of [set], and the rest. *)
Fixpoint span_until (set : Z -> bool) (s : list Z) : list Z * list Z :=
  match s with
  | [] => ([], [])
  | c :: t => if set c then ([], s) else let '(a, b) := span_until set t in (c :: a, b)
  end.
Fixpoint skip_while (set : Z -> bool) (s : list Z) : list Z :=
  match s with [] => [] | c :: t => if set c then skip_while set t else s end.

(** The word, [None] for NULL, and the new [*s]. *)
Definition strdelim_internal (s : option (list Z)) (split_equals : bool) : option (list Z) * option (list Z) :=
  match s with
  | None => (None, None)
  | Some old =>
      match span_until (fun c => whitespace c || (c =? c_quote) || (split_equals && (c =? 61))) old with
      | (w, []) => (Some w, None)
      | (w, c :: s) =>
          if c =? c_quote then
            match span_until (Z.eqb c_quote) s with
            | (_, []) => (None, None)
            | (w', _ :: s) => (Some (w ++ w'), Some (skip_while whitespace s))
            end
          else
            let wspace := split_equals && (c =? 61) in
            let s := skip_while whitespace s in
            match s with
            | c :: s' => if split_equals && (c =? 61) && negb wspace then (Some w, Some (skip_while whitespace s')) else (Some w, Some s)
            | [] => (Some w, Some s)
            end
      end
  end.
Definition strdelim (s : option (list Z)) : option (list Z) * option (list Z) := strdelim_internal s true.
Definition strdelimw (s : option (list Z)) : option (list Z) * option (list Z) := strdelim_internal s false.

(** ** Command lines *)

(** Copy a word, removing escapes: the word, the rest of the string, the quote
    that is open. *)
Fixpoint copy_token (s : list Z) (quote : Z) (arg : list Z) : list Z * list Z * Z :=
  match s with
  | [] => (arg, [], quote)
  | c :: t =>
      if c =? c_backslash then
        match t with
        | d :: t' =>
            if (d =? c_apostrophe) || (d =? c_quote) || (d =? c_backslash) || ((quote =? 0) && (d =? 32))
            then copy_token t' quote (arg ++ [d]) else copy_token t quote (arg ++ [c])
        | [] => copy_token t quote (arg ++ [c])
        end
      else if (quote =? 0) && blank c then (arg, s, quote)
      else if (quote =? 0) && ((c =? c_quote) || (c =? c_apostrophe)) then copy_token t c arg
      else if negb (quote =? 0) && (c =? quote) then copy_token t 0 arg
      else copy_token t quote (arg ++ [c])
  end.

Fixpoint argv_split_loop (fuel : nat) (s : list Z) (terminate_on_comment : bool) (argv : list (list Z)) : res (list (list Z)) :=
  match s with
  | [] => Ok argv
  | c :: t =>
      match fuel with
      | O => Crash
      | S fuel =>
          if blank c then argv_split_loop fuel t terminate_on_comment argv
          else if terminate_on_comment && (c =? 35) then Ok argv
          else
            match copy_token s 0 [] with
            | (arg, [], quote) => if negb (quote =? 0) then Err SSH_ERR_INVALID_FORMAT else Ok (argv ++ [arg])
            | (arg, _ :: rest, _) => argv_split_loop fuel rest terminate_on_comment (argv ++ [arg])
            end
      end
  end.
Definition argv_split (s : list Z) (terminate_on_comment : bool) : res (list (list Z)) :=
  argv_split_loop (length s) s terminate_on_comment [].

(** One argument escaped; [true] when it has white space. *)
Fixpoint escape_arg (np : Z) (s : list Z) (ws : bool) : ST sshbuf bool :=
  match s with
  | [] => ret ws
  | c :: s =>
      if blank c then do! sshbuf_put_u8 np c ;; escape_arg np s true
      else
        do! (if (c =? c_backslash) || (c =? c_apostrophe) || (c =? c_quote) then sshbuf_put_u8 np c_backslash else ret tt) ;;
        do! sshbuf_put_u8 np c ;; escape_arg np s ws
  end.

Fixpoint assemble_loop (np : Z) (first : bool) (argv : list (list Z)) (arg : sshbuf) : ST sshbuf unit :=
  match argv with
  | [] => ret tt
  | a :: argv =>
      let '(r, arg) := (do! ignore (sshbuf_reset np) ;; escape_arg np a false) arg in
      let! ws := reads (fun _ => r) in
      do! (if first then ret tt else sshbuf_put_u8 np 32) ;;
      do! (if ws then sshbuf_put_u8 np c_quote else ret tt) ;;
      do! sshbuf_putb np (Some arg) ;;
      do! (if ws then sshbuf_put_u8 np c_quote else ret tt) ;;
      assemble_loop np false argv arg
  end.
Definition argv_assemble (np : Z) (argv : list (list Z)) : res (list Z) :=
  match sshbuf_new np np, sshbuf_new np np with
  | Some buf, Some arg =>
      match (do! assemble_loop np true argv arg ;; reads buf_bytes) buf with
      | (Err _, _) => Err EXIT
      | (r, _) => r
      end
  | _, _ => Err EXIT
  end.

(** ** Options of keys *)

(** [None] for -1; otherwise the answer and what follows the option. *)
Definition opt_flag (opt : list Z) (allow_negate : bool) (opts : list Z) : option (bool * list Z) :=
  match (if allow_negate then strprefix opts (str "no-") true else None) with
  | Some rest => match strprefix rest opt true with Some rest => Some (false, rest) | None => None end
  | None => match strprefix opts opt true with Some rest => Some (true, rest) | None => None end
  end.

(** Up to the closing quote; [None] when there is none. *)
Fixpoint dequote (s : list Z) : option (list Z * list Z) :=
  match s with
  | [] => None
  | c :: t =>
      if c =? c_quote then Some ([], t)
      else
        match t with
        | d :: t' =>
            if (c =? c_backslash) && (d =? c_quote) then match dequote t' with Some (v, rest) => Some (d :: v, rest) | None => None end
            else match dequote t with Some (v, rest) => Some (c :: v, rest) | None => None end
        | [] => None
        end
  end.

(** The value and the rest, or the message. *)
Definition opt_dequote (ok : bool) (s : list Z) : (list Z * list Z) + list Z :=
  match s with
  | c :: s =>
      if negb (c =? c_quote) then inr (str "missing start quote")
      else if negb ok then inr (str "memory allocation failed")
      else match dequote s with Some r => inl r | None => inr (str "missing end quote") end
  | [] => inr (str "missing start quote")
  end.

Definition opt_match (opts term : list Z) : option (list Z) :=
  match strprefix opts term true with Some (c :: rest) => if c =? 61 then Some rest else None | _ => None end.

(** ** Ports, tunnels, times *)

Definition SSH_TUNID_ANY : Z := 0x7fffffff.
Definition SSH_TUNID_ERR : Z := SSH_TUNID_ANY - 1.
Definition SSH_TUNID_MAX : Z := SSH_TUNID_ANY - 2.

(** [getservbyname (s, "tcp")]: the port. *)
Definition a2port (servbyname : list Z -> option Z) (s : list Z) : Z :=
  match strtonum s 0 65535 with
  | inl port => port
  | inr _ => match servbyname s with Some p => p | None => -1 end
  end.

(** With [remote == NULL]. *)
Definition a2tun_local (s : list Z) : Z :=
  if strcaseeq s (str "any") then SSH_TUNID_ANY
  else match strtonum s 0 SSH_TUNID_MAX with inl tun => tun | inr _ => SSH_TUNID_ERR end.

(** With a [remote]: the result and [*remote]. *)
Definition a2tun (s : list Z) : Z * Z :=
  match strchr s 58 with
  | None => (a2tun_local s, SSH_TUNID_ANY)
  | Some i =>
      let remote := a2tun_local (drop (S i) s) in
      (if remote =? SSH_TUNID_ERR then remote else a2tun_local (take i s), remote)
  end.

Section Time.
(** [strptime (buf, fmt, &tm)] with what is left of [buf]; timegm(3) and mktime(3). *)
Context {TM : Type} (strptime : list Z -> list Z -> option (TM * list Z)) (timegm mktime : TM -> option Z).

Definition parse_absolute_time (s : list Z) : res Z :=
  let l := length s in
  let last n := drop (l - n) s in
  let '(is_utc, l) := if (1 <? l)%nat && strcaseeq (last 1%nat) (str "Z") then (true, (l - 1)%nat)
                      else if (3 <? l)%nat && strcaseeq (last 3%nat) (str "UTC") then (true, (l - 3)%nat)
                      else (false, l) in
  let part (i n : Z) := take (Z.to_nat n) (drop (Z.to_nat i) s) in
  let date := part 0 4 ++ str "-" ++ part 4 2 ++ str "-" ++ part 6 2 in
  let? fb := (match l with
              | 8%nat => Ok (str "%Y-%m-%d", date)
              | 12%nat => Ok (str "%Y-%m-%dT%H:%M", date ++ str "T" ++ part 8 2 ++ str ":" ++ part 10 2)
              | 14%nat => Ok (str "%Y-%m-%dT%H:%M:%S", date ++ str "T" ++ part 8 2 ++ str ":" ++ part 10 2 ++ str ":" ++ part 12 2)
              | _ => Err SSH_ERR_INVALID_FORMAT
              end) in
  match strptime (snd fb) (fst fb) with
  | Some (tm, []) => match (if is_utc : bool then timegm tm else mktime tm) with Some t => Ok (u64 t) | None => Err SSH_ERR_INVALID_FORMAT end
  | _ => Err SSH_ERR_INVALID_FORMAT
  end.
End Time.

(** ** Hosts *)

(** [*s] *)
Definition hd (s : list Z) : Z := match s with c :: _ => c | [] => 0 end.

(** The host, the delimiter when there is one, the new [*cp]; [None] for NULL. *)
Definition hpdelim2 (cp : option (list Z)) : option (list Z * option Z * option (list Z)) :=
  match cp with
  | None => None
  | Some old =>
      let field := if hd old =? 91 then match strchr old 93 with None => None | Some i => Some (take (S i) old, drop (S i) old) end
                   else Some (span_until (fun c => (c =? 58) || (c =? 47)) old) in
      match field with
      | None => None
      | Some (h, []) => Some (h, None, None)
      | Some (h, c :: rest) => if (c =? 58) || (c =? 47) then Some (h, Some c, Some rest) else None
      end
  end.

Definition hpdelim (cp : option (list Z)) : option (list Z * option (list Z)) :=
  match hpdelim2 cp with
  | Some (h, d, rest) => if bool_decide (d = Some 47) then None else Some (h, rest)
  | None => None
  end.

Definition cleanhostname (host : list Z) : list Z :=
  if (hd host =? 91) && bool_decide (last host = Some 93) then take (length host - 2) (drop 1 host) else host.

Definition SSH_DEFAULT_PORT : Z := 22.
Definition put_host_port (host : list Z) (port : Z) : list Z :=
  if (port =? 0) || (port =? SSH_DEFAULT_PORT) then host else str "[" ++ host ++ str "]:" ++ dec port.

(** Where the colon that separates host and path is. *)
Fixpoint colon_loop (cp : list Z) (flag : bool) (i : nat) : option nat :=
  match cp with
  | [] => None
  | c :: t =>
      let flag := flag || ((c =? 64) && (hd t =? 91)) in
      if (c =? 93) && (hd t =? 58) && flag then Some (S i)
      else if (c =? 58) && negb flag then Some i
      else if c =? 47 then None
      else colon_loop t flag (S i)
  end.
Definition colon (cp : list Z) : option nat := if hd cp =? 58 then None else colon_loop cp (hd cp =? 91) 0.

(** User, host and path. *)
Definition parse_user_host_path (s : list Z) : option (option (list Z) * list Z * list Z) :=
  match colon s with
  | None => None
  | Some i =>
      let path := match drop (S i) s with [] => str "." | p => p end in
      let sdup := take i s in
      match strrchr sdup 64 with
      | Some j => Some (match take j sdup with [] => None | u => Some u end, cleanhostname (drop (S j) sdup), path)
      | None => Some (None, cleanhostname sdup, path)
      end
  end.

(** User, host and port, -1 without one. *)
Definition parse_user_host_port (servbyname : list Z -> option Z) (s : list Z) : option (option (list Z) * list Z * Z) :=
  let host_port user tmp :=
    match hpdelim (Some tmp) with
    | None | Some ([], _) => None
    | Some (h, rest) =>
        match rest with
        | None | Some [] => Some (user, cleanhostname h, -1)
        | Some p => let port := a2port servbyname p in if port <=? 0 then None else Some (user, cleanhostname h, port)
        end
    end in
  match strrchr s 64 with
  | Some j => match take j s with [] => None | u => host_port (Some u) (drop (S j) s) end
  | None => host_port None s
  end.

Definition hexval (c : Z) : option Z :=
  if isdigit c then Some (c - 48) else if (97 <=? c) && (c <=? 102) then Some (c - 97 + 10)
  else if (65 <=? c) && (c <=? 70) then Some (c - 65 + 10) else None.
(** [None] for -1. *)
Definition hexchar (s : list Z) : option Z :=
  match s with
  | a :: b :: _ => match hexval a, hexval b with Some a, Some b => Some (Z.lor (Z.shiftl a 4) b) | _, _ => None end
  | _ => None
  end.

Fixpoint urldecode (src : list Z) : option (list Z) :=
  match src with
  | [] => Some []
  | c :: t =>
      if c =? 43 then cons 32 <$> urldecode t
      else if c =? 37 then
        match t with
        | a :: b :: t' => match hexchar t with Some ch => if ch =? 0 then None else cons ch <$> urldecode t' | None => None end
        | _ => None
        end
      else cons c <$> urldecode t
  end.

(** The character at which a name is refused, and why. *)
Fixpoint domain_chars (name : list Z) (last : Z) (i : nat) : option (nat * list Z) :=
  match name with
  | [] => None
  | c :: t =>
      let c := tolower c in
      if (last =? 46) && (c =? 46) then Some (i, str " contains consecutive separators")
      else if negb (c =? 46) && negb (c =? 45) && negb (isalnum c) && negb (c =? 95) then Some (i, str " contains invalid characters")
      else domain_chars t c (S i)
  end.
(** The name as it is left, or the message. *)
Definition valid_domain (name : list Z) (makelower : bool) : list Z + list Z :=
  let bad name msg := inr (str "domain name " ++ [c_quote] ++ take 100 name ++ [c_quote] ++ msg) in
  match name with
  | [] => inr (str "empty domain name")
  | c :: _ =>
      if negb (isalpha c) && negb (isdigit c) && negb (c =? 95) then bad name (str " starts with invalid character")
      else
        match domain_chars name 0 0 with
        | Some (i, msg) => bad (if makelower then lowercase (take (S i) name) ++ drop (S i) name else name) msg
        | None =>
            let name := if makelower then lowercase name else name in
            inl (if bool_decide (last name = Some 46) then take (length name - 1) name else name)
        end
  end.

Definition valid_env_name (name : list Z) : bool := match name with [] => false | _ => forallb (fun c => isalnum c || (c =? 95)) name end.

(** User, host, port and path; [None] for 1, not a URI of that scheme. *)
Definition parse_uri (servbyname : list Z -> option Z) (scheme uri : list Z) : option (option (option (list Z) * list Z * Z * option (list Z))) :=
  match strprefix uri (scheme ++ str "://") false with
  | None => None
  | Some tmp =>
      Some (
        let host_path user tmp :=
          match hpdelim2 (Some tmp) with
          | None | Some ([], _, _) => None
          | Some (h, ch, rest) =>
              match valid_domain (cleanhostname h) false with
              | inr _ => None
              | inl host =>
                  let path port tmp :=
                    match tmp with
                    | None | Some [] => Some (user, host, port, None)
                    | Some p => match urldecode p with None => None | Some p => Some (user, host, port, Some p) end
                    end in
                  match rest with
                  | None | Some [] => Some (user, host, -1, None)
                  | Some p =>
                      if bool_decide (ch = Some 58) then
                        let '(num, after) := match strchr p 47 with Some i => (take i p, Some (drop (S i) p)) | None => (p, None) end in
                        let port := a2port servbyname num in
                        if port <=? 0 then None else path port after
                      else path (-1) (Some p)
                  end
              end
          end in
        match strchr tmp 64 with
        | Some i =>
            let info := take i tmp in
            match span_to 59 info with
            | [] => None
            | u => match urldecode u with None => None | Some u => host_path (Some u) (drop (S i) tmp) end
            end
        | None => host_path None tmp
        end)
  end.

(** ** Expansion *)

Section Expand.
Context (getenv : list Z -> option (list Z)) (np : Z).

(** The replacement of a key. *)
Definition key_repl (keys : list (list Z * list Z)) (c : Z) : option (list Z) :=
  snd <$> List.find (fun k => existsb (Z.eqb c) (fst k)) keys.

(** [Ok true]: a variable had no value.  [Err (-1)] is a parse error, any other
    failure ends the process. *)
Fixpoint expand_loop (fuel : nat) (dollar percent : bool) (keys : list (list Z * list Z)) (s : list Z) (missingvar : bool) : ST sshbuf bool :=
  match s with
  | [] => ret missingvar
  | c :: t =>
      match fuel with
      | O => crash
      | S fuel =>
          if dollar && (c =? 36) && (hd t =? 123) then
            let s := drop 1 t in
            match strchr s 125 with
            | None | Some O => fail (-1)
            | Some len =>
                let rest := drop (S len) s in
                match getenv (take len s) with
                | None => expand_loop fuel dollar percent keys rest true
                | Some val => do! or_err (sshbuf_put np val) EXIT ;; expand_loop fuel dollar percent keys rest missingvar
                end
            end
          else if negb (c =? 37) || negb percent then
            do! or_err (sshbuf_put_u8 np c) EXIT ;; expand_loop fuel dollar percent keys t missingvar
          else
            match t with
            | [] => fail (-1)
            | k :: t =>
                if k =? 37 then do! or_err (sshbuf_put_u8 np k) EXIT ;; expand_loop fuel dollar percent keys t missingvar
                else
                  match key_repl keys k with
                  | None => fail (-1)
                  | Some repl => do! or_err (sshbuf_put np repl) EXIT ;; expand_loop fuel dollar percent keys t missingvar
                  end
            end
      end
  end.

Definition EXPAND_MAX_KEYS : nat := 64.

(** [*parseerror] and the string, NULL on an error and when a variable is missing. *)
Definition vdollar_percent_expand (dollar percent : bool) (string : list Z) (keys : list (list Z * list Z)) : res (bool * option (list Z)) :=
  match sshbuf_new np np with
  | None => Err EXIT
  | Some buf =>
      if percent && ((EXPAND_MAX_KEYS <? length keys)%nat || (length keys =? 0)%nat) then Err EXIT
      else
        match expand_loop (length string) dollar percent keys string false buf with
        | (Ok true, _) => Ok (false, None)
        | (Ok false, buf) => match sshbuf_dup_string np buf with Ok (Some ret) => Ok (false, Some ret) | Crash => Crash | _ => Err EXIT end
        | (Err e, _) => if e =? -1 then Ok (true, None) else Err EXIT
        | (Crash, _) => Crash
        end
  end.

(** [*parseerr] and the string. *)
Definition dollar_expand (string : list Z) : res (bool * option (list Z)) := vdollar_percent_expand true false string [].
Definition or_failed (r : res (bool * option (list Z))) : res (option (list Z)) := let? x := r in if fst x then Err EXIT else Ok (snd x).
Definition percent_expand (string : list Z) (keys : list (list Z * list Z)) : res (option (list Z)) :=
  or_failed (vdollar_percent_expand false true string keys).
Definition percent_dollar_expand (string : list Z) (keys : list (list Z * list Z)) : res (option (list Z)) :=
  or_failed (vdollar_percent_expand true true string keys).
End Expand.
