(* ===== verification/Compat.v ===== *)
(** * Compatibility: src/compat.c and src/myproposal.h

    The bugs of a peer, found by its version string, and the default proposals.
    The proposals are those of a build without WINDOWS. *)
From S2P Require Import Prelude Sshbuf CString PacketState Match SshkeyNames KexNames.

Definition SSH_BUG_UTF8TTYMODE : Z := 0x1.
Definition SSH_BUG_SIGTYPE : Z := 0x2.
Definition SSH_BUG_SIGTYPE74 : Z := 0x4.
Definition SSH_OLD_SESSIONID : Z := 0x10.
Definition SSH_BUG_DEBUG : Z := 0x40.
Definition SSH_BUG_SCANNER : Z := 0x800.
Definition SSH_OLD_DHGEX : Z := 0x4000.
Definition SSH_BUG_NOREKEY : Z := 0x8000.
Definition SSH_BUG_EXTEOF : Z := 0x200000.
Definition SSH_BUG_PROBE : Z := 0x400000.
Definition SSH_OLD_FORWARD_ADDR : Z := 0x1000000.
Definition SSH_NEW_OPENSSH : Z := 0x4000000.
Definition SSH_BUG_DYNAMIC_RPORT : Z := 0x8000000.
Definition SSH_BUG_CURVE25519PAD : Z := 0x10000000.
Definition SSH_BUG_HOSTKEYS : Z := 0x20000000.
Definition SSH_BUG_DHGEX_LARGE : Z := 0x40000000.

(** The patterns of version strings with the bugs of those versions. *)
Definition check : list (list Z * Z) := [
  (str "OpenSSH_2.*,OpenSSH_3.0*,OpenSSH_3.1*", Z.lor (Z.lor SSH_BUG_EXTEOF SSH_OLD_FORWARD_ADDR) SSH_BUG_SIGTYPE);
  (str "OpenSSH_3.*", Z.lor SSH_OLD_FORWARD_ADDR SSH_BUG_SIGTYPE);
  (str "Sun_SSH_1.0*", Z.lor (Z.lor SSH_BUG_NOREKEY SSH_BUG_EXTEOF) SSH_BUG_SIGTYPE);
  (str "OpenSSH_2*,OpenSSH_3*,OpenSSH_4*", SSH_BUG_SIGTYPE);
  (str "OpenSSH_5*", Z.lor (Z.lor SSH_NEW_OPENSSH SSH_BUG_DYNAMIC_RPORT) SSH_BUG_SIGTYPE);
  (str "OpenSSH_6.6.1*", Z.lor SSH_NEW_OPENSSH SSH_BUG_SIGTYPE);
  (str "OpenSSH_6.5*,OpenSSH_6.6*", Z.lor (Z.lor SSH_NEW_OPENSSH SSH_BUG_CURVE25519PAD) SSH_BUG_SIGTYPE);
  (str "OpenSSH_7.4*", Z.lor (Z.lor SSH_NEW_OPENSSH SSH_BUG_SIGTYPE) SSH_BUG_SIGTYPE74);
  (str "OpenSSH_7.0*,OpenSSH_7.1*,OpenSSH_7.2*,OpenSSH_7.3*,OpenSSH_7.5*,OpenSSH_7.6*,OpenSSH_7.7*", Z.lor SSH_NEW_OPENSSH SSH_BUG_SIGTYPE);
  (str "OpenSSH*", SSH_NEW_OPENSSH);
  (str "*MindTerm*", 0);
  (str "3.0.*", SSH_BUG_DEBUG);
  (str "3.0 SecureCRT*", SSH_OLD_SESSIONID);
  (str "1.7 SecureFX*", SSH_OLD_SESSIONID);
  (str "Cisco-1.*", Z.lor SSH_BUG_DHGEX_LARGE SSH_BUG_HOSTKEYS);
  (str "*SSH_Version_Mapper*", SSH_BUG_SCANNER);
  (str "PuTTY_Local:*,PuTTY-Release-0.5*,PuTTY_Release_0.5*,PuTTY_Release_0.60*,PuTTY_Release_0.61*,PuTTY_Release_0.62*,PuTTY_Release_0.63*,PuTTY_Release_0.64*", SSH_OLD_DHGEX);
  (str "FuTTY*", SSH_OLD_DHGEX);
  (str "Probe-*", SSH_BUG_PROBE);
  (str "TeraTerm SSH*,TTSSH/1.5.*,TTSSH/2.1*,TTSSH/2.2*,TTSSH/2.3*,TTSSH/2.4*,TTSSH/2.5*,TTSSH/2.6*,TTSSH/2.70*,TTSSH/2.71*,TTSSH/2.72*", SSH_BUG_HOSTKEYS);
  (str "WinSCP_release_4*,WinSCP_release_5.0*,WinSCP_release_5.1,WinSCP_release_5.1.*,WinSCP_release_5.5,WinSCP_release_5.5.*,WinSCP_release_5.6,WinSCP_release_5.6.*,WinSCP_release_5.7,WinSCP_release_5.7.1,WinSCP_release_5.7.2,WinSCP_release_5.7.3,WinSCP_release_5.7.4", SSH_OLD_DHGEX);
  (str "ConfD-*", SSH_BUG_UTF8TTYMODE);
  (str "Twisted_*", 0);
  (str "Twisted*", SSH_BUG_DEBUG)].

(** The bugs of the first row that matches. *)
Fixpoint first_check (l : list (list Z * Z)) (version : list Z) : res Z :=
  match l with
  | [] => Ok 0
  | (pat, bugs) :: l =>
      match match_pattern_list version pat false with
      | None => Crash
      | Some r => if r =? 1 then Ok bugs else first_check l version
      end
  end.
Definition compat_banner (version : list Z) : res Z := first_check check version.

(** [fatal] when [match_filter_denylist] returns NULL. *)
Definition denied (ok : bool) (p filter : list Z) : res (list Z) :=
  let? r := filtered (match_filter_denylist ok p filter) in
  match r with None => Err EXIT | Some cp => Ok cp end.

Definition compat_kex_proposal (ok : bool) (compat : Z) (p : list Z) : res (list Z) :=
  if Z.land compat (Z.lor SSH_BUG_CURVE25519PAD SSH_OLD_DHGEX) =? 0 then Ok p
  else
    let? cp := (if negb (Z.land compat SSH_BUG_CURVE25519PAD =? 0) then denied ok p (str "curve25519-sha256@libssh.org") else Ok p) in
    let? cp := (if negb (Z.land compat SSH_OLD_DHGEX =? 0) then
                  denied ok cp (str "diffie-hellman-group-exchange-sha256,diffie-hellman-group-exchange-sha1")
                else Ok cp) in
    if streq cp [] then Err EXIT else Ok cp.

(** ** src/myproposal.h *)

Definition KEX_SERVER_KEX : list Z :=
  str "mlkem768x25519-sha256,sntrup761x25519-sha512,sntrup761x25519-sha512@openssh.com,curve25519-sha256,curve25519-sha256@libssh.org,ecdh-sha2-nistp256,ecdh-sha2-nistp384,ecdh-sha2-nistp521".
Definition KEX_CLIENT_KEX : list Z :=
  KEX_SERVER_KEX ++ str ",diffie-hellman-group-exchange-sha256,diffie-hellman-group16-sha512,diffie-hellman-group18-sha512,diffie-hellman-group14-sha256".
Definition KEX_DEFAULT_PK_ALG : list Z :=
  str "ssh-ed25519-cert-v01@openssh.com,ecdsa-sha2-nistp256-cert-v01@openssh.com,ecdsa-sha2-nistp384-cert-v01@openssh.com,ecdsa-sha2-nistp521-cert-v01@openssh.com,sk-ssh-ed25519-cert-v01@openssh.com,sk-ecdsa-sha2-nistp256-cert-v01@openssh.com,webauthn-sk-ecdsa-sha2-nistp256-cert-v01@openssh.com,rsa-sha2-512-cert-v01@openssh.com,rsa-sha2-256-cert-v01@openssh.com,ssh-ed25519,ecdsa-sha2-nistp256,ecdsa-sha2-nistp384,ecdsa-sha2-nistp521,sk-ssh-ed25519@openssh.com,sk-ecdsa-sha2-nistp256@openssh.com,webauthn-sk-ecdsa-sha2-nistp256@openssh.com,rsa-sha2-512,rsa-sha2-256".
Definition KEX_SERVER_ENCRYPT : list Z :=
  str "chacha20-poly1305@openssh.com,aes128-gcm@openssh.com,aes256-gcm@openssh.com,aes128-ctr,aes192-ctr,aes256-ctr".
Definition KEX_CLIENT_ENCRYPT : list Z :=
  KEX_SERVER_ENCRYPT.
Definition KEX_SERVER_MAC : list Z :=
  str "umac-64-etm@openssh.com,umac-128-etm@openssh.com,hmac-sha2-256-etm@openssh.com,hmac-sha2-512-etm@openssh.com,hmac-sha1-etm@openssh.com,umac-64@openssh.com,umac-128@openssh.com,hmac-sha2-256,hmac-sha2-512,hmac-sha1".
Definition KEX_CLIENT_MAC : list Z :=
  KEX_SERVER_MAC.
Definition SSH_ALLOWED_CA_SIGALGS : list Z :=
  str "ssh-ed25519,ecdsa-sha2-nistp256,ecdsa-sha2-nistp384,ecdsa-sha2-nistp521,sk-ssh-ed25519@openssh.com,sk-ecdsa-sha2-nistp256@openssh.com,webauthn-sk-ecdsa-sha2-nistp256@openssh.com,rsa-sha2-512,rsa-sha2-256".
Definition KEX_DEFAULT_COMP : list Z :=
  str "none,zlib@openssh.com".
Definition KEX_DEFAULT_LANG : list Z :=
  [].
Definition KEX_CLIENT : list (list Z) :=
  [KEX_CLIENT_KEX; KEX_DEFAULT_PK_ALG; KEX_CLIENT_ENCRYPT; KEX_CLIENT_ENCRYPT; KEX_CLIENT_MAC; KEX_CLIENT_MAC; KEX_DEFAULT_COMP; KEX_DEFAULT_COMP; KEX_DEFAULT_LANG; KEX_DEFAULT_LANG].
Definition KEX_SERVER : list (list Z) :=
  [KEX_SERVER_KEX; KEX_DEFAULT_PK_ALG; KEX_SERVER_ENCRYPT; KEX_SERVER_ENCRYPT; KEX_SERVER_MAC; KEX_SERVER_MAC; KEX_DEFAULT_COMP; KEX_DEFAULT_COMP; KEX_DEFAULT_LANG; KEX_DEFAULT_LANG].
