(* ===== verification/KexInput.v ===== *)
(** * Key exchange messages: src/kex.c

    The messages of a key exchange, the extensions a peer announces, the life of
    a [struct kex].

    The methods ([kex->kex]) are an argument. *)
From S2P Require Import Prelude Sshbuf SshbufGetput CString SshbufMisc Words Chacha ChachaPoly Cipher Hmac Mac PacketState Packet Match SshkeyNames KexNames Kex Compat.

Section KexInput.
Context {V M U Zs K : Type} `{EVP V} `{EVP_MD M} `{UMAC U} `{ZLIB Zs}.
Implicit Types E : penv.
Abbreviation ssh := (ssh (V := V) (M := M) (U := U) (Zs := Zs) (K := K)).
Abbreviation KM := (KM (V := V) (M := M) (U := U) (Zs := Zs) (K := K)).

(** [pe_np E] is 0 when malloc(3) fails. *)
Definition alloc_ok E : bool := negb (pe_np E =? 0).

(** ** Proposals *)

(** Our signals at the end of the list of methods. *)
Definition signals (server : bool) : list Z :=
  if server then str "ext-info-s,kex-strict-s-v00@openssh.com" else str "ext-info-c,kex-strict-c-v00@openssh.com".

Definition kex_proposal_populate_entries E (kexalgos ciphers macs comp hkalgs : option (list Z)) : KM (list (list Z)) :=
  let! x := get in
  let server := kn_server (ssh_neg x) in
  let defprop i := default [] ((if server then KEX_SERVER else KEX_CLIENT) !! i) in
  let! cp := reads (fun _ => kex_names_cat (alloc_ok E) (Some (default (defprop PROPOSAL_KEX_ALGS) kexalgos)) (signals server)) in
  match cp with
  | None => fail EXIT
  | Some cp =>
      let! k := reads (fun _ => compat_kex_proposal (alloc_ok E) (ssh_compat x) cp) in
      ret [k; default (defprop PROPOSAL_SERVER_HOST_KEY_ALGS) hkalgs;
           default (defprop PROPOSAL_ENC_ALGS_CTOS) ciphers; default (defprop PROPOSAL_ENC_ALGS_STOC) ciphers;
           default (defprop PROPOSAL_MAC_ALGS_CTOS) macs; default (defprop PROPOSAL_MAC_ALGS_STOC) macs;
           default (defprop PROPOSAL_COMP_ALGS_CTOS) comp; default (defprop PROPOSAL_COMP_ALGS_STOC) comp;
           defprop 8%nat; defprop 9%nat]
  end.

(** ** Extensions *)

(** One pass over the allowed algorithms, up to an empty one. *)
Fixpoint sig_algs_loop (items : list (list Z)) (sigalgs : list Z) (acc : option (list Z)) : res (option (list Z)) :=
  match items with
  | [] | [] :: _ => Ok acc
  | alg :: items =>
      match sshkey_sigalg_by_name alg with
      | None => sig_algs_loop items sigalgs acc
      | Some sigalg =>
          let? known := kex_has_any_alg sigalg sigalgs in
          if negb known then sig_algs_loop items sigalgs acc
          else
            let? twice := match acc with None => Ok false | Some l => kex_has_any_alg sigalg l end in
            sig_algs_loop items sigalgs (if twice then acc else xextend acc [c_comma] sigalg)
      end
  end.

Definition kex_set_server_sig_algs (allowed_algs : list Z) : KM unit :=
  match sshkey_alg_list false true true c_comma with
  | None => fail EXIT
  | Some sigalgs =>
      let! l := reads (fun _ => sig_algs_loop (split_on c_comma allowed_algs) sigalgs None) in
      upd_neg (set_kn_server_sig_algs (Some (default [] l)))
  end.

Definition kex_compose_ext_info_server E (m : sshbuf) : KM sshbuf :=
  let! x := get in
  let algs := match kn_server_sig_algs (ssh_neg x) with None => sshkey_alg_list false true true c_comma | a => a end in
  match algs with
  | None => fail SSH_ERR_ALLOC_FAIL
  | Some algs =>
      do! upd_neg (set_kn_server_sig_algs (Some algs)) ;;
      let '(r, m) := (do! sshbuf_put_u32 (pe_np E) 4 ;;
                      put_all (fun s => sshbuf_put_cstring (pe_np E) (Some s))
                        [str "server-sig-algs"; algs; str "publickey-hostbound@openssh.com"; str "0";
                         str "ping@openssh.com"; str "0"; str "agent-forward"; str "0"]) m in
      do! reads (fun _ => r) ;; ret m
  end.

Definition kex_compose_ext_info_client E (m : sshbuf) : KM sshbuf :=
  let '(r, m) := (do! sshbuf_put_u32 (pe_np E) 1 ;;
                  put_all (fun s => sshbuf_put_cstring (pe_np E) (Some s)) [str "ext-info-in-auth@openssh.com"; str "0"]) m in
  do! reads (fun _ => r) ;; ret m.

Definition kex_maybe_send_ext_info E : KM unit :=
  let! fl := kex_flags in
  let! x := get in
  if Z.land fl KEX_INITIAL =? 0 then ret tt
  else if negb (kn_ext_info_c (ssh_neg x)) && negb (kn_ext_info_s (ssh_neg x)) then ret tt
  else
    match sshbuf_new (pe_np E) (pe_np E) with
    | None => fail EXIT
    | Some m =>
        let! m := (if kn_ext_info_c (ssh_neg x) then kex_compose_ext_info_server E m else ret m) in
        let! m := (if kn_ext_info_s (ssh_neg x) then kex_compose_ext_info_client E m else ret m) in
        on_state (do! sshpkt_start E SSH2_MSG_EXT_INFO ;; do! sshpkt_putb E m ;; sshpkt_send E)
    end.

Definition kex_server_update_ext_info E : KM unit :=
  let! fl := kex_flags in
  let! x := get in
  if Z.land fl KEX_HAS_EXT_INFO_IN_AUTH =? 0 then ret tt
  else
    on_state (do! sshpkt_start E SSH2_MSG_EXT_INFO ;; do! sshpkt_put_u32 E 1 ;;
              do! sshpkt_put_cstring E (Some (str "server-sig-algs")) ;;
              do! sshpkt_put_cstring E (kn_server_sig_algs (ssh_neg x)) ;; sshpkt_send E).

Definition kex_send_newkeys E : KM unit :=
  do! kex_reset_dispatch ;;
  do! on_state (do! sshpkt_start E SSH2_MSG_NEWKEYS ;; sshpkt_send E) ;;
  do! ssh_dispatch_set SSH2_MSG_NEWKEYS H_kex_input_newkeys ;;
  kex_maybe_send_ext_info E.

(** [memchr (val, '\0', len) != NULL] *)
Definition has_nul (val : list Z) : bool := existsb (Z.eqb 0) val.

Definition kex_ext_info_check_ver (val want_ver : list Z) (flag : Z) : KM unit :=
  if has_nul val then fail SSH_ERR_INVALID_FORMAT else if streq val want_ver then kex_flag_set flag else ret tt.

Definition kex_ext_info_client_parse (name value : list Z) : KM unit :=
  let! x := get in
  let first := kn_ext_info_received (ssh_neg x) =? 1 in
  if streq name (str "server-sig-algs") then
    if has_nul value then fail SSH_ERR_INVALID_FORMAT else upd_neg (set_kn_server_sig_algs (Some value))
  else if first && streq name (str "publickey-hostbound@openssh.com") then kex_ext_info_check_ver value (str "0") KEX_HAS_PUBKEY_HOSTBOUND
  else if first && streq name (str "ping@openssh.com") then kex_ext_info_check_ver value (str "0") KEX_HAS_PING
  else if first && streq name (str "agent-forward") then kex_ext_info_check_ver value (str "0") KEX_HAS_NEWAGENT
  else ret tt.

Definition kex_ext_info_server_parse (name value : list Z) : KM unit :=
  if streq name (str "ext-info-in-auth@openssh.com") then kex_ext_info_check_ver value (str "0") KEX_HAS_EXT_INFO_IN_AUTH else ret tt.

Fixpoint ext_info_loop E (server : bool) (n : nat) : KM unit :=
  match n with
  | O => ret tt
  | S n =>
      let! name := on_state (sshpkt_get_cstring E) in
      let! val := on_state (sshpkt_get_string E) in
      do! (if server then kex_ext_info_server_parse (cstr_of name) (str_of val) else kex_ext_info_client_parse (cstr_of name) (str_of val)) ;;
      ext_info_loop E server n
  end.

Definition kex_input_ext_info E (type seq : Z) : KM unit :=
  do! upd_neg (fun k => set_kn_ext_info_received (kn_ext_info_received k + 1) k) ;;
  let! x := get in
  let server := kn_server (ssh_neg x) in
  if (if server then 1 else 2) <? kn_ext_info_received (ssh_neg x) then dispatch_protocol_error E type seq
  else
    do! ssh_dispatch_set SSH2_MSG_EXT_INFO H_kex_protocol_error ;;
    let! ninfo := on_state sshpkt_get_u32 in
    if 1024 <=? ninfo then dispatch_protocol_error E type seq
    else do! ext_info_loop E server (Z.to_nat ninfo) ;; on_state sshpkt_get_end.

(** ** The messages of an exchange *)

(** Our proposal without the signals of the first exchange. *)
Definition drop_signals E : KM unit :=
  let! k := on_state the_kex in
  let! x := get in
  let! p := reads (fun _ => kex_buf2prop (pe_np E) (kx_my k)) in
  let! cp := reads (fun _ => filtered (match_filter_denylist (alloc_ok E) (default [] (fst p !! PROPOSAL_KEX_ALGS)) (signals (kn_server (ssh_neg x))))) in
  match cp with
  | None => fail SSH_ERR_INTERNAL_ERROR
  | Some cp =>
      let '(r, my) := kex_prop2buf (pe_np E) (<[PROPOSAL_KEX_ALGS := cp]> (fst p)) (kx_my k) in
      do! on_state (upd_kex (set_kx_my my)) ;; or_err (reads (fun _ => r)) SSH_ERR_INTERNAL_ERROR
  end.

Definition kex_input_newkeys E (type seq : Z) : KM unit :=
  let! fl := kex_flags in
  let! x := get in
  let initial := negb (Z.land fl KEX_INITIAL =? 0) in
  do! (if kn_ext_info_c (ssh_neg x) && initial then ssh_dispatch_set SSH2_MSG_EXT_INFO H_kex_input_ext_info else ret tt) ;;
  do! ssh_dispatch_set SSH2_MSG_NEWKEYS H_kex_protocol_error ;;
  do! ssh_dispatch_set SSH2_MSG_KEXINIT H_kex_input_kexinit ;;
  do! on_state sshpkt_get_end ;;
  do! on_state (ssh_set_newkeys E MODE_IN) ;;
  do! (if initial then drop_signals E else ret tt) ;;
  do! on_state (upd_kex (set_kx_done true)) ;;
  do! kex_flag_clear KEX_INITIAL ;;
  let! x := get in
  let '(r, peer) := ignore (sshbuf_reset (pe_np E)) (kn_peer (ssh_neg x)) in
  do! upd_neg (set_kn_peer peer) ;;
  do! reads (fun _ => r) ;;
  kex_flag_clear (Z.lor KEX_INIT_SENT KEX_INIT_RECVD).

Fixpoint discard_strings E (n : nat) : PM V M U Zs unit :=
  match n with O => ret tt | S n => do! sshpkt_get_string E ;; discard_strings E n end.
Fixpoint discard_bytes (n : nat) : PM V M U Zs unit :=
  match n with O => ret tt | S n => do! sshpkt_get_u8 ;; discard_bytes n end.

(** [meth] is the table [kex->kex]. *)
Definition kex_input_kexinit E (meth : Z -> option (KM unit)) (type seq : Z) : KM unit :=
  let! x := get in
  match s_kex (ssh_state x) with
  | None => fail SSH_ERR_INTERNAL_ERROR
  | Some k =>
      do! upd_neg (set_kn_name None) ;;
      do! (if negb (Z.land (kx_flags k) KEX_INIT_RECVD =? 0) then
             on_state (ssh_packet_disconnect E (str "multiple KEXINIT received from peer"))
           else ret tt) ;;
      do! kex_flag_set KEX_INIT_RECVD ;;
      do! ssh_dispatch_set SSH2_MSG_KEXINIT H_kex_protocol_error ;;
      let! ptr := on_state sshpkt_ptr in
      let! x := get in
      let '(r, peer) := sshbuf_put (pe_np E) ptr (kn_peer (ssh_neg x)) in
      do! upd_neg (set_kn_peer peer) ;;
      do! reads (fun _ => r) ;;
      do! on_state (do! discard_bytes (Z.to_nat KEX_COOKIE_LEN) ;; do! discard_strings E PROPOSAL_MAX ;;
                    do! sshpkt_get_u8 ;; do! sshpkt_get_u32 ;; sshpkt_get_end) ;;
      let! fl := kex_flags in
      do! (if Z.land fl KEX_INIT_SENT =? 0 then on_state (kex_send_kexinit E) else ret tt) ;;
      do! kex_choose_conf E seq ;;
      let! x := get in
      let type := kn_kex_type (ssh_neg x) in
      match (if type <? KEX_MAX then meth type else None) with
      | Some m => m
      | None => fail SSH_ERR_INTERNAL_ERROR
      end
  end.

(** ** The life of a [struct kex] *)

Definition kex_ready E (proposal : list (list Z)) : KM unit :=
  let! k := on_state the_kex in
  let '(r, my) := kex_prop2buf (pe_np E) proposal (kx_my k) in
  do! on_state (upd_kex (set_kx_my my)) ;;
  do! reads (fun _ => r) ;;
  do! on_state (upd_kex (set_kx_flags KEX_INITIAL)) ;;
  do! kex_reset_dispatch ;;
  ssh_dispatch_set SSH2_MSG_KEXINIT H_kex_input_kexinit.

Definition kex_setup E (proposal : list (list Z)) : KM unit :=
  do! kex_ready E proposal ;;
  fun x =>
    match on_state (kex_send_kexinit E) x with
    | (Err e, x) => (Err e, set_state (set_kex None (ssh_state x)) x)
    | r => r
    end.

Definition ssh_packet_set_server : KM unit :=
  do! on_state (upd (set_server_side true)) ;; upd_neg (set_kn_server true).

Definition ssh_packet_send_debug E (msg : list Z) : KM unit :=
  let! x := get in
  if negb (Z.land (ssh_compat x) SSH_BUG_DEBUG =? 0) then ret tt
  else
    or_exit (on_state (do! sshpkt_start E SSH2_MSG_DEBUG ;; do! sshpkt_put_u8 E 0 ;;
                       do! sshpkt_put_cstring E (Some (ztake 1023 msg)) ;; do! sshpkt_put_cstring E (Some []) ;;
                       do! sshpkt_send E ;; ssh_packet_write_wait E)).
End KexInput.
