(* ===== verification/Curve25519.v ===== *)
(** * Multiplication on Curve25519: src/smult_curve25519_ref.c

    Numbers modulo 2^255-19 are 32 words that hold a byte each, except for the
    last one.  An array of 64 words is the pair of its halves.

    The theorem shows that no word overflows and that the function computes
    the Montgomery ladder over the field, with the clamped scalar and the
    inverse taken as a power. *)
From Stdlib Require Import Zpow_facts Zdiv.
From S2P Require Import Prelude Sshbuf SshbufGetput CString Words.

(** ** The code *)

Section Code.
Implicit Types a b : list Z.

(** [a[j]] *)
Definition wd a (j : nat) : Z := nth j a 0.

(** [u += w; out[j] = u & 255; u >>= 8] for each addend [w]. *)
Fixpoint carries (u : Z) (ws : list Z) : list Z * Z :=
  match ws with
  | [] => ([], u)
  | w :: ws => let u := u32 (u + w) in let '(o, c) := carries (Z.shiftr u 8) ws in (Z.land u 255 :: o, c)
  end.

Definition add a b : list Z :=
  let '(o, u) := carries 0 (zip_with Z.add (take 31 a) (take 31 b)) in o ++ [u32 (u + (wd a 31 + wd b 31))].

Definition sub a b : list Z :=
  let '(o, u) := carries 218 (zip_with (fun x y => x + 65280 - y) (take 31 a) (take 31 b)) in o ++ [u32 (u + (wd a 31 - wd b 31))].

(** The second half of [squeeze]: [u] is what the last word reached. *)
Definition fold_top (o : list Z) (u : Z) : list Z :=
  let '(o, c) := carries (u32 (19 * Z.shiftr u 7)) o in o ++ [u32 (c + Z.land u 127)].

Definition squeeze a : list Z :=
  let '(o, u) := carries 0 (take 31 a) in fold_top o (u32 (u + wd a 31)).

Definition minusp : list Z := 19 :: replicate 30 0 ++ [128].

Definition freeze a : list Z :=
  let aorig := a in
  let a := add a minusp in
  let negative := u32 (- Z.land (Z.shiftr (wd a 31) 7) 1) in
  zip_with (fun x o => Z.lxor x (Z.land negative (Z.lxor o x))) a aorig.

(** [for (j = from; j < from + count; ++j) u += f (j)] *)
Definition sum_loop (from count : nat) (f : nat -> Z) (u : Z) : Z :=
  fold_left (fun u j => u32 (u + f j)) (seq from count) u.

Definition mult a b : list Z :=
  squeeze (map (fun i => sum_loop (i + 1) (31 - i) (fun j => 38 * wd a j * wd b (i + 32 - j))
                           (sum_loop 0 (i + 1) (fun j => wd a j * wd b (i - j)) 0)) (seq 0 32)).

Definition mult121665 a : list Z :=
  let '(o, u) := carries 0 (map (Z.mul 121665) (take 31 a)) in fold_top o (u32 (u + 121665 * wd a 31)).

(** [j < i - j] holds for [(i + 1) / 2] values of [j], and [j < i + 32 - j] from
    [i + 1] on for [(31 - i) / 2]. *)
Definition square a : list Z :=
  squeeze (map (fun i =>
    let u := sum_loop 0 ((i + 1) / 2) (fun j => wd a j * wd a (i - j)) 0 in
    let u := sum_loop (i + 1) ((31 - i) / 2) (fun j => 38 * wd a j * wd a (i + 32 - j)) u in
    let u := u32 (u * 2) in
    if Nat.even i then
      let u := u32 (u + wd a (i / 2) * wd a (i / 2)) in u32 (u + 38 * wd a (i / 2 + 16) * wd a (i / 2 + 16))
    else u) (seq 0 32)).

Definition select1 (r s : list Z) (b : Z) : list Z * list Z :=
  let bminus1 := u32 (b - 1) in
  let t := zip_with (fun x y => Z.land bminus1 (Z.lxor x y)) r s in
  (zip_with Z.lxor s t, zip_with Z.lxor r t).
Definition select (r s : list Z * list Z) (b : Z) : (list Z * list Z) * (list Z * list Z) :=
  let '(p, q) := select1 (fst r) (fst s) b in
  let '(p', q') := select1 (snd r) (snd s) b in
  ((p, p'), (q, q')).

(** The arithmetic of one round, from [xzmb] and [xzm1b] to [xznb] and [xzn1b]. *)
Definition round (work : list Z) (xzmb xzm1b : list Z * list Z) : (list Z * list Z) * (list Z * list Z) :=
  let a0 := add (fst xzmb) (snd xzmb) in
  let a0' := sub (fst xzmb) (snd xzmb) in
  let a1 := add (fst xzm1b) (snd xzm1b) in
  let a1' := sub (fst xzm1b) (snd xzm1b) in
  let b0 := square a0 in
  let b0' := square a0' in
  let b1 := mult a1 a0' in
  let b1' := mult a1' a0 in
  let c1 := add b1 b1' in
  let c1' := sub b1 b1' in
  let r := square c1' in
  let s := sub b0 b0' in
  let t := mult121665 s in
  let u := add t b0 in
  ((mult b0 b0', mult s u), (square c1, mult r work)).

(** One round on [xzm] and [xzm1]. *)
Definition step (work : list Z) (b : Z) (xzm xzm1 : list Z * list Z) : (list Z * list Z) * (list Z * list Z) :=
  let '(xzmb, xzm1b) := select xzm xzm1 b in
  let '(xznb, xzn1b) := round work xzmb xzm1b in
  select xznb xzn1b b.

(** The rounds for the positions below [n], the highest first. *)
Fixpoint mainloop_rounds (n : nat) (work e : list Z) (xzm xzm1 : list Z * list Z) : list Z * list Z :=
  match n with
  | O => xzm
  | S pos =>
      let b := Z.land (Z.shiftr (wd e (pos / 8)) (Z.of_nat (pos mod 8))) 1 in
      let '(xzm, xzm1) := step work b xzm xzm1 in
      mainloop_rounds pos work e xzm xzm1
  end.

Definition mainloop (work e : list Z) : list Z * list Z :=
  mainloop_rounds 255 work e (1 :: replicate 31 0, replicate 32 0) (work, 1 :: replicate 31 0).

(** [n] squarings in a row. *)
Fixpoint squares (n : nat) (z : list Z) : list Z := match n with O => z | S n => squares n (square z) end.

Definition recip (z : list Z) : list Z :=
  let z2 := square z in
  let z9 := mult (squares 2 z2) z in
  let z11 := mult z9 z2 in
  let z2_5_0 := mult (square z11) z9 in
  let z2_10_0 := mult (squares 5 z2_5_0) z2_5_0 in
  let z2_20_0 := mult (squares (2 + 2 * 4) z2_10_0) z2_10_0 in
  let t0 := mult (squares (2 + 2 * 9) z2_20_0) z2_20_0 in
  let z2_50_0 := mult (squares (2 + 2 * 4) t0) z2_10_0 in
  let z2_100_0 := mult (squares (2 + 2 * 24) z2_50_0) z2_50_0 in
  let t1 := mult (squares (2 + 2 * 49) z2_100_0) z2_100_0 in
  let t0 := mult (squares (2 + 2 * 24) t1) z2_50_0 in
  mult (squares 5 t0) z11.

(** [e]: the scalar with some bits cleared and one set. *)
Definition clamped (n : list Z) : list Z :=
  let e := <[0%nat := Z.land (wd n 0) 248]> n in
  <[31%nat := Z.lor (Z.land (wd e 31) 127) 64]> e.

(** [q] *)
Definition crypto_scalarmult_curve25519 (n p : list Z) : list Z :=
  let '(x, z) := mainloop p (clamped n) in
  map u8 (freeze (mult x (recip z))).
End Code.

(** ** The ladder over the field *)

Definition P25519 : Z := 2 ^ 255 - 19.
Definition fadd (x y : Z) : Z := (x + y) mod P25519.
Definition fsub (x y : Z) : Z := (x - y) mod P25519.
Definition fmul (x y : Z) : Z := (x * y) mod P25519.

(** The double of [(x2 : z2)] and its sum with [(x3 : z3)], which differ by a
    point with abscissa [x1]. *)
Definition dbl_add (x1 : Z) (m q : Z * Z) : (Z * Z) * (Z * Z) :=
  let '(x2, z2) := m in
  let '(x3, z3) := q in
  let aa := fmul (fadd x2 z2) (fadd x2 z2) in
  let bb := fmul (fsub x2 z2) (fsub x2 z2) in
  let e := fsub aa bb in
  let da := fmul (fsub x3 z3) (fadd x2 z2) in
  let cb := fmul (fadd x3 z3) (fsub x2 z2) in
  let d := fsub da cb in
  ((fmul aa bb, fmul e (fadd aa (fmul 121665 e))), (fmul (fadd da cb) (fadd da cb), fmul x1 (fmul d d))).

Definition ladder_step (x1 : Z) (b : bool) (m q : Z * Z) : (Z * Z) * (Z * Z) :=
  if b then let '(q, m) := dbl_add x1 q m in (m, q) else dbl_add x1 m q.

Fixpoint ladder (n : nat) (x1 k : Z) (m q : Z * Z) : Z * Z :=
  match n with
  | O => m
  | S n => let '(m, q) := ladder_step x1 (Z.testbit k (Z.of_nat n)) m q in ladder n x1 k m q
  end.

(** The abscissa of [k] times the point with abscissa [u]. *)
Definition X25519 (k u : Z) : Z :=
  let '(x, z) := ladder 255 (u mod P25519) k (1, 0) (u mod P25519, 1) in fmul x (Zpow_mod z (P25519 - 2) P25519).

(** The scalar that the bytes of value [k] stand for. *)
Definition clamp_scalar (k : Z) : Z := k mod 2 ^ 254 / 8 * 8 + 2 ^ 254.

(** The value of little-endian bytes. *)
Fixpoint bval (l : list Z) : Z := match l with [] => 0 | w :: l => w + 256 * bval l end.

(** ** Sums *)

Section Sums.
Implicit Types f g : nat -> Z.

Fixpoint sumf (from count : nat) f : Z :=
  match count with O => 0 | S count => f from + sumf (S from) count f end.

Lemma sumf_ext from count f g : (forall i, (from <= i < from + count)%nat -> f i = g i) -> sumf from count f = sumf from count g.
Proof.
  revert from. induction count as [|n IH]; intros from Hfg; simpl; [done|].
  rewrite (Hfg from) by lia. f_equal. apply IH. intros i Hi. apply Hfg. lia.
Qed.

Lemma sumf_split from m n f : sumf from (m + n) f = sumf from m f + sumf (from + m) n f.
Proof.
  revert from. induction m as [|m IH]; intros from; simpl.
  - by rewrite Nat.add_0_r.
  - rewrite IH. replace (S from + m)%nat with (from + S m)%nat by lia. lia.
Qed.

Lemma sumf_cut m from n f : (m <= n)%nat -> sumf from n f = sumf from m f + sumf (from + m) (n - m) f.
Proof. intros Hm. rewrite <- sumf_split. f_equal. lia. Qed.

Lemma sumf_shift d from n f : sumf (from + d) n f = sumf from n (fun i => f (i + d)%nat).
Proof. revert from. induction n as [|n IH]; intros from; simpl; [done|]. by rewrite <- (IH (S from)). Qed.

Lemma sumf_mul c from n f : c * sumf from n f = sumf from n (fun i => c * f i).
Proof. revert from. induction n as [|n IH]; intros from; simpl; [lia|]. rewrite <- IH. lia. Qed.

Lemma sumf_add from n f g : sumf from n f + sumf from n g = sumf from n (fun i => f i + g i).
Proof. revert from. induction n as [|n IH]; intros from; simpl; [done|]. rewrite <- IH. lia. Qed.

Lemma sumf_swap s m t n (f : nat -> nat -> Z) :
  sumf s m (fun i => sumf t n (f i)) = sumf t n (fun j => sumf s m (fun i => f i j)).
Proof.
  revert s. induction m as [|m IH]; intros s; simpl.
  - induction n as [|n IHn] in t |- *; simpl; [done|]. rewrite <- IHn. lia.
  - rewrite IH, sumf_add. done.
Qed.

Lemma sumf_le from n f c : (forall i, (from <= i < from + n)%nat -> 0 <= f i <= c) -> 0 <= sumf from n f <= Z.of_nat n * c.
Proof.
  revert from. induction n as [|n IH]; intros from Hf; simpl; [lia|].
  pose proof (Hf from ltac:(lia)). pose proof (IH (S from) (fun i Hi => Hf i ltac:(lia))). lia.
Qed.

Lemma sum_loop_sum from n f u : u32 (sum_loop from n f u) = u32 (u + sumf from n f).
Proof.
  unfold sum_loop, u32. revert from u. induction n as [|n IH]; intros from u; simpl.
  - by rewrite Z.add_0_r.
  - rewrite IH. rewrite Zplus_mod_idemp_l. f_equal. lia.
Qed.

(** A loop that stays within a word. *)
Lemma sum_loop_small from n f u : 0 <= u -> 0 <= sumf from n f -> u + sumf from n f < 2 ^ 32 ->
  sum_loop from n f u = u + sumf from n f.
Proof.
  intros Hu Hs Hb. destruct n as [|n]; [unfold sum_loop; simpl; lia|].
  rewrite <- (u32_small (u + _)) by lia. rewrite <- sum_loop_sum.
  unfold sum_loop. rewrite seq_S, fold_left_app. cbn [fold_left]. unfold u32. by rewrite Z.mod_mod by lia.
Qed.
End Sums.

(** ** The value of an array *)

Definition cells (hi : Z) (a : list Z) : Prop := length a = 32%nat /\ Forall is_byte (take 31 a) /\ 0 <= wd a 31 < hi.

Lemma bval_app l k : bval (l ++ k) = bval l + 256 ^ zlen l * bval k.
Proof.
  induction l as [|a l IH]; cbn [app bval]; [unfold zlen; simpl; lia|].
  pose proof (zlen_nonneg l). rewrite IH, zlen_cons, Z.pow_add_r by lia. lia.
Qed.

Lemma bval_bytes l : Forall is_byte l -> 0 <= bval l < 256 ^ zlen l.
Proof.
  induction 1 as [|a l Ha Hl IH]; cbn [bval]; [unfold zlen; simpl; lia|].
  pose proof (zlen_nonneg l). rewrite zlen_cons, Z.pow_add_r by lia. unfold is_byte in Ha. lia.
Qed.

Lemma limbs_split hi a : cells hi a -> a = take 31 a ++ [wd a 31] /\ zlen (take 31 a) = 31.
Proof.
  intros (Hl & _ & _). split.
  - rewrite <- (take_drop 31 a) at 1. f_equal. unfold wd.
    do 31 (destruct a as [|? a]; [done|]). destruct a as [|? [|? ?]]; done.
  - unfold zlen. rewrite length_take. lia.
Qed.

Lemma limbs_val hi a : cells hi a -> bval a = bval (take 31 a) + 256 ^ 31 * wd a 31 /\ 0 <= bval (take 31 a) < 256 ^ 31.
Proof.
  intros Ha. destruct (limbs_split hi a Ha) as [E El]. split.
  - rewrite E at 1. rewrite bval_app, El. cbn [bval]. lia.
  - destruct Ha as (_ & Hb & _). pose proof (bval_bytes _ Hb) as Hv. by rewrite El in Hv.
Qed.

Lemma limbs_snoc hi o c : length o = 31%nat -> Forall is_byte o -> 0 <= c < hi ->
  cells hi (o ++ [c]) /\ bval (o ++ [c]) = bval o + 256 ^ 31 * c.
Proof.
  intros Hl Ho Hc. split.
  - unfold cells, wd. rewrite length_app, Hl, take_app_le, take_ge by lia. split; [done|]. split; [done|].
    rewrite app_nth2 by lia. rewrite Hl. done.
  - rewrite bval_app. unfold zlen. rewrite Hl. cbn [bval]. lia.
Qed.

Lemma limbs_mono hi hi' a : hi <= hi' -> cells hi a -> cells hi' a.
Proof. unfold cells. intros Hle (? & ? & ?). split; [done|]. split; [done|]. lia. Qed.

(** Carries that do not overflow. *)
Lemma carries_ok C W u ws : 0 <= u <= C -> Forall (fun w => 0 <= w <= W) ws -> C + W < 2 ^ 32 -> C + W < 256 * (C + 1) ->
  exists o c, carries u ws = (o, c) /\ length o = length ws /\ Forall is_byte o /\ 0 <= c <= C /\
    bval o + 256 ^ zlen ws * c = u + bval ws.
Proof.
  intros Hu Hws HCW HC. revert u Hu. induction Hws as [|w ws Hw Hws IH]; intros u Hu; cbn [carries].
  - exists [], u. unfold zlen. cbn. split_and!; try done; lia.
  - rewrite u32_small by lia. rewrite Z.shiftr_div_pow2 by lia. change (2 ^ 8) with 256.
    assert (Hq : 0 <= (u + w) / 256 <= C).
    { split; [apply Z.div_pos; lia|]. apply Z.lt_succ_r, Z.div_lt_upper_bound; lia. }
    destruct (IH _ Hq) as (o & c & E & Hl & Ho & Hc & Hv). rewrite E.
    exists (Z.land (u + w) 255 :: o), c. change 255 with (Z.ones 8). rewrite Z.land_ones by lia. change (2 ^ 8) with 256.
    split_and!; [done|cbn; lia| |lia|lia|].
    + constructor; [apply Z.mod_pos_bound; lia|done].
    + pose proof (zlen_nonneg ws). cbn [bval]. rewrite zlen_cons, Z.pow_add_r by lia.
      pose proof (Z.div_mod (u + w) 256 ltac:(lia)). nia.
Qed.

Lemma bval_zip (f : Z -> Z -> Z) (k1 k2 c : Z) x y : (forall a b, f a b = k1 * a + k2 * b + c) -> length x = length y ->
  bval (zip_with f x y) = k1 * bval x + k2 * bval y + bval (replicate (length x) c).
Proof.
  intros Hf. revert y. induction x as [|a x IH]; intros [|b y] Hl; try done; [cbn; lia|].
  cbn [zip_with bval length replicate]. rewrite Hf, IH by (cbn in Hl; lia). lia.
Qed.

Lemma Forall_zip (P : Z -> Prop) (f : Z -> Z -> Z) x y :
  Forall is_byte x -> Forall is_byte y -> (forall a b, is_byte a -> is_byte b -> P (f a b)) -> Forall P (zip_with f x y).
Proof.
  intros Hx Hy Hf. revert y Hy. induction Hx as [|a x Ha Hx IH]; intros y Hy; cbn [zip_with]; [constructor|].
  destruct Hy as [|b y Hb Hy]; constructor; [by apply Hf|by apply IH].
Qed.

Lemma bval_zeros n : bval (replicate n 0) = 0.
Proof. induction n as [|n IH]; cbn; [done|]. rewrite IH. done. Qed.

(** ** The operations *)

Lemma add_ok ha hb a b : cells ha a -> cells hb b -> ha + hb <= 2 ^ 20 ->
  cells (ha + hb) (add a b) /\ bval (add a b) = bval a + bval b.
Proof.
  intros Ha Hb Hh. destruct (limbs_val _ _ Ha) as [Va Ba], (limbs_val _ _ Hb) as [Vb Bb].
  destruct Ha as (La & Fa & Ta), Hb as (Lb & Fb & Tb).
  destruct (carries_ok (2 ^ 24) 510 0 (zip_with Z.add (take 31 a) (take 31 b))) as (o & c & E & Hl & Ho & Hc & Hv); try lia.
  { apply Forall_zip; [done|done|]. unfold is_byte. intros; lia. }
  rewrite (bval_zip Z.add 1 1 0), bval_zeros in Hv by (intros; rewrite ?length_take; lia).
  unfold zlen in Hv. rewrite length_zip_with, !length_take, La, Lb in Hl, Hv. cbn [Nat.min] in Hl, Hv.
  change (256 ^ Z.of_nat 31) with (256 ^ 31) in Hv. pose proof (bval_bytes o Ho) as Bo.
  assert (c <= 1) by lia. unfold add. rewrite E, u32_small by lia.
  destruct (limbs_snoc (ha + hb) o (c + (wd a 31 + wd b 31)) Hl Ho ltac:(lia)) as [Hlim Hval].
  split; [done|]. rewrite Hval. lia.
Qed.

Lemma sub_ok a b : cells 256 a -> cells 129 b -> cells 512 (sub a b) /\ bval (sub a b) = bval a - bval b + 2 * P25519.
Proof.
  intros Ha Hb. destruct (limbs_val _ _ Ha) as [Va Ba], (limbs_val _ _ Hb) as [Vb Bb].
  destruct Ha as (La & Fa & Ta), Hb as (Lb & Fb & Tb).
  destruct (carries_ok (2 ^ 24) 65535 218 (zip_with (fun x y => x + 65280 - y) (take 31 a) (take 31 b)))
    as (o & c & E & Hl & Ho & Hc & Hv); try lia.
  { apply Forall_zip; [done|done|]. unfold is_byte. intros; lia. }
  rewrite (bval_zip _ 1 (-1) 65280) in Hv by (intros; rewrite ?length_take; lia).
  unfold zlen in Hv. rewrite length_zip_with, !length_take, La, Lb in Hl, Hv. cbn [Nat.min] in Hl, Hv.
  change (bval (replicate 31 65280)) with (256 ^ 32 - 256) in Hv.
  change (256 ^ Z.of_nat 31) with (256 ^ 31) in Hv. pose proof (bval_bytes o Ho) as Bo.
  unfold zlen in Bo. rewrite Hl in Bo. change (256 ^ Z.of_nat 31) with (256 ^ 31) in Bo.
  assert (254 <= c <= 256) by lia. unfold sub. rewrite E, u32_small by lia.
  destruct (limbs_snoc 512 o (c + (wd a 31 - wd b 31)) Hl Ho ltac:(lia)) as [Hlim Hval].
  split; [done|]. rewrite Hval. unfold P25519. lia.
Qed.

(** A number with its multiple of 2^255 folded. *)
Definition small (a : list Z) : Prop := cells 129 a /\ bval a < 2 ^ 255 + 2 ^ 30.

Lemma fold_top_ok o u : length o = 31%nat -> Forall is_byte o -> 0 <= u < 2 ^ 32 ->
  small (fold_top o u) /\ exists q, bval (fold_top o u) = bval o + 256 ^ 31 * u - q * P25519.
Proof.
  intros Lo Fo Hu. unfold fold_top. rewrite Z.shiftr_div_pow2 by lia.
  change 127 with (Z.ones 7). rewrite Z.land_ones by lia. change (2 ^ 7) with 128.
  pose proof (Z.div_mod u 128 ltac:(lia)) as Hd. pose proof (Z.mod_pos_bound u 128 ltac:(lia)) as Hm.
  assert (0 <= u / 128 < 2 ^ 25) by (split; [apply Z.div_pos; lia|apply Z.div_lt_upper_bound; lia]).
  rewrite (u32_small (19 * _)) by lia.
  destruct (carries_ok (19 * 2 ^ 25) 255 (19 * (u / 128)) o) as (r & c & E & Hl & Hr & Hc & Hv); try lia.
  { eapply Forall_impl; [exact Fo|]. unfold is_byte. intros; lia. }
  pose proof (bval_bytes o Fo) as Bo. pose proof (bval_bytes r Hr) as Br. unfold zlen in Bo, Br, Hv.
  rewrite Hl in Br. rewrite Lo in Bo, Br, Hv, Hl. change (256 ^ Z.of_nat 31) with (256 ^ 31) in *.
  assert (c <= 1) by lia. rewrite E, u32_small by lia.
  destruct (limbs_snoc 129 r (c + u mod 128) Hl Hr ltac:(lia)) as [Hlim Hval].
  split; [split; [done|lia]|]. exists (u / 128). rewrite Hval. unfold P25519. lia.
Qed.

Lemma squeeze_ok a : length a = 32%nat -> Forall (fun w => 0 <= w <= 2 ^ 30) a ->
  small (squeeze a) /\ exists q, bval (squeeze a) = bval a - q * P25519.
Proof.
  intros La Fa. assert (E31 : a = take 31 a ++ [wd a 31]).
  { rewrite <- (take_drop 31 a) at 1. f_equal. unfold wd. do 31 (destruct a as [|? a]; [done|]). by destruct a as [|? [|? ?]]. }
  rewrite E31 in Fa. apply Forall_app in Fa as [F31 Fw]. apply Forall_inv in Fw.
  destruct (carries_ok (2 ^ 24) (2 ^ 30) 0 (take 31 a)) as (o & c & E & Hl & Ho & Hc & Hv); try lia; [exact F31|].
  unfold zlen in Hv. rewrite length_take, La in Hl, Hv. cbn [Nat.min] in Hl, Hv.
  unfold squeeze. rewrite E, u32_small by lia.
  destruct (fold_top_ok o (c + wd a 31) Hl Ho ltac:(lia)) as [Hs [q Hq]]. split; [done|]. exists q.
  rewrite Hq. rewrite E31 at 2. rewrite bval_app. unfold zlen. rewrite length_take, La. cbn [Nat.min bval].
  change (256 ^ Z.of_nat 31) with (256 ^ 31) in *. lia.
Qed.

(** ** Products *)

Lemma bval_sum l : bval l = sumf 0 (length l) (fun j => 256 ^ Z.of_nat j * wd l j).
Proof.
  induction l as [|a l IH]; [done|]. cbn [bval length sumf]. unfold wd at 1. cbn [nth].
  rewrite IH. rewrite (sumf_shift 1 0). rewrite sumf_mul. rewrite Z.pow_0_r. f_equal; [lia|].
  apply sumf_ext. intros i _. unfold wd. rewrite Nat.add_1_r. cbn [nth]. rewrite Nat2Z.inj_succ, Z.pow_succ_r by lia. lia.
Qed.

Lemma bval_map f n : bval (map f (seq 0 n)) = sumf 0 n (fun i => 256 ^ Z.of_nat i * f i).
Proof.
  rewrite bval_sum, length_map, length_seq. apply sumf_ext. intros i Hi. unfold wd. f_equal.
  rewrite (nth_indep _ 0 (f 0%nat)) by (rewrite length_map, length_seq; lia).
  rewrite map_nth, seq_nth by lia. done.
Qed.

Lemma limbs_wd hi a j : 256 <= hi -> cells hi a -> 0 <= wd a j < hi.
Proof.
  intros Hhi Ha. destruct (limbs_split _ _ Ha) as [E El]. destruct Ha as (La & Fa & Ta). unfold wd.
  destruct (decide (j < 31)%nat) as [Hj|Hj].
  - rewrite E, app_nth1 by (rewrite length_take; lia). rewrite (Forall_nth _ 0) in Fa.
    pose proof (Fa j ltac:(rewrite length_take; lia)) as Hb. unfold is_byte in Hb. lia.
  - destruct (decide (j = 31%nat)) as [->|Hn]; [exact Ta|]. rewrite nth_overflow by lia. lia.
Qed.

(** The row [i] of a product. *)
Definition row (a b : nat -> Z) (c : Z) (i : nat) : Z :=
  sumf 0 (i + 1) (fun j => a j * b (i - j)%nat) + c * sumf (i + 1) (31 - i) (fun j => a j * b (i + 32 - j)%nat).

(** The rows with weight [X ^ 32] for what wraps add up to the product. *)
Lemma row_unify a b c i : (i < 32)%nat ->
  row a b c i = sumf 0 32 (fun j => a j * (if (j <=? i)%nat then b (i - j)%nat else c * b (i + 32 - j)%nat)).
Proof.
  intros Hi. unfold row. rewrite (sumf_cut (i + 1) 0 32), sumf_mul by lia.
  replace (32 - (i + 1))%nat with (31 - i)%nat by lia. f_equal; apply sumf_ext; intros j Hj.
  - by destruct (Nat.leb_spec j i); [|lia].
  - destruct (Nat.leb_spec j i); [lia|]. lia.
Qed.

Lemma column (b : nat -> Z) j : (j < 32)%nat ->
  sumf 0 32 (fun i => 256 ^ Z.of_nat i * (if (j <=? i)%nat then b (i - j)%nat else 256 ^ 32 * b (i + 32 - j)%nat)) =
  256 ^ Z.of_nat j * sumf 0 32 (fun k => 256 ^ Z.of_nat k * b k).
Proof.
  intros Hj. rewrite (sumf_cut j 0 32) by lia. rewrite (sumf_cut (32 - j) 0 32 (fun k => _ * b k)) by lia.
  replace (32 - (32 - j))%nat with j by lia. rewrite Z.mul_add_distr_l, Z.add_comm. f_equal.
  - rewrite sumf_shift, sumf_mul. apply sumf_ext. intros i Hi.
    destruct (Nat.leb_spec j (i + j)); [|lia]. rewrite Nat.add_sub, Nat2Z.inj_add, Z.pow_add_r by lia. lia.
  - rewrite (sumf_shift (32 - j) 0), sumf_mul. apply sumf_ext. intros i Hi.
    destruct (Nat.leb_spec j i); [lia|]. replace (i + 32 - j)%nat with (i + (32 - j))%nat by lia.
    rewrite !Z.mul_assoc, <- !Z.pow_add_r by lia. do 2 f_equal. lia.
Qed.

Lemma rows_product a b :
  sumf 0 32 (fun i => 256 ^ Z.of_nat i * row a b (256 ^ 32) i) =
  sumf 0 32 (fun j => 256 ^ Z.of_nat j * a j) * sumf 0 32 (fun k => 256 ^ Z.of_nat k * b k).
Proof.
  rewrite (sumf_ext 0 32 _ (fun i => sumf 0 32 (fun j =>
    a j * (256 ^ Z.of_nat i * (if (j <=? i)%nat then b (i - j)%nat else 256 ^ 32 * b (i + 32 - j)%nat))))).
  2:{ intros i Hi. rewrite row_unify, sumf_mul by lia. apply sumf_ext. intros j _. lia. }
  rewrite sumf_swap, Z.mul_comm, sumf_mul. apply sumf_ext. intros j Hj. rewrite <- sumf_mul, column by lia. lia.
Qed.

Lemma row_fold a b : exists q,
  sumf 0 32 (fun i => 256 ^ Z.of_nat i * row a b 38 i) = sumf 0 32 (fun i => 256 ^ Z.of_nat i * row a b (256 ^ 32) i) - q * P25519.
Proof.
  exists (2 * sumf 0 32 (fun i => 256 ^ Z.of_nat i * sumf (i + 1) (31 - i) (fun j => a j * b (i + 32 - j)%nat))).
  rewrite <- Z.add_move_r, (Z.mul_comm (2 * _) P25519), Z.mul_assoc, (sumf_mul (P25519 * 2)).
  rewrite sumf_add. apply sumf_ext. intros i _.
  unfold row, P25519. lia.
Qed.

Section Bounded.
Context (a b : list Z) (Ha : cells 512 a) (Hb : cells 512 b).

Lemma prod_bound j k : 0 <= wd a j * wd b k <= 2 ^ 18.
Proof. pose proof (limbs_wd 512 a j ltac:(lia) Ha). pose proof (limbs_wd 512 b k ltac:(lia) Hb). nia. Qed.

Lemma sum_bound from n g : (n <= 32)%nat -> 0 <= sumf from n (fun j => wd a j * wd b (g j)) <= 2 ^ 23.
Proof.
  intros Hn. pose proof (sumf_le from n (fun j => wd a j * wd b (g j)) (2 ^ 18) (fun j _ => prod_bound j (g j))). lia.
Qed.

Lemma sum38 from n g : sumf from n (fun j => 38 * wd a j * wd b (g j)) = 38 * sumf from n (fun j => wd a j * wd b (g j)).
Proof. rewrite sumf_mul. apply sumf_ext. intros; lia. Qed.

Lemma mult_row i : (i < 32)%nat ->
  sum_loop (i + 1) (31 - i) (fun j => 38 * wd a j * wd b (i + 32 - j)) (sum_loop 0 (i + 1) (fun j => wd a j * wd b (i - j)) 0) =
  row (wd a) (wd b) 38 i /\ 0 <= row (wd a) (wd b) 38 i <= 2 ^ 30.
Proof.
  intros Hi. unfold row.
  pose proof (sum_bound 0 (i + 1) (fun j => i - j)%nat ltac:(lia)) as B1.
  pose proof (sum_bound (i + 1) (31 - i) (fun j => i + 32 - j)%nat ltac:(lia)) as B2.
  rewrite (sum_loop_small 0) by lia. rewrite sum_loop_small by (rewrite ?sum38; lia). rewrite sum38. lia.
Qed.

Lemma mult_ok : small (mult a b) /\ exists q, bval (mult a b) = bval a * bval b - q * P25519.
Proof.
  unfold mult. destruct (squeeze_ok (map (fun i => sum_loop (i + 1) (31 - i) (fun j => 38 * wd a j * wd b (i + 32 - j))
    (sum_loop 0 (i + 1) (fun j => wd a j * wd b (i - j)) 0)) (seq 0 32))) as [Hs [q Hq]].
  - by rewrite length_map, length_seq.
  - apply Forall_map, Forall_seq. intros i Hi. destruct (mult_row i ltac:(lia)) as [-> ?]. done.
  - split; [done|]. destruct (row_fold (wd a) (wd b)) as [q' Hq']. exists (q + q'). rewrite Hq, bval_map.
    rewrite (sumf_ext 0 32 _ (fun i => 256 ^ Z.of_nat i * row (wd a) (wd b) 38 i)).
    2:{ intros i Hi. f_equal. apply mult_row. lia. }
    rewrite Hq', rows_product, (bval_sum a), (bval_sum b). destruct Ha as [-> _], Hb as [-> _]. lia.
Qed.
End Bounded.

(** The rows of a square: every product of two words is there twice. *)
Lemma square_row (a : nat -> Z) i : (i < 32)%nat ->
  row a a 38 i = 2 * (sumf 0 ((i + 1) / 2) (fun j => a j * a (i - j)%nat) + 38 * sumf (i + 1) ((31 - i) / 2) (fun j => a j * a (i + 32 - j)%nat)) +
    (if Nat.even i then a (i / 2)%nat * a (i / 2)%nat + 38 * (a (i / 2 + 16)%nat * a (i / 2 + 16)%nat) else 0).
Proof. intros Hi. do 32 (destruct i as [|i]; [cbv [row sumf Nat.add Nat.sub Nat.div Nat.divmod Nat.even fst]; ring|]). lia. Qed.

Lemma square_mult a : cells 512 a -> square a = mult a a.
Proof.
  intros Ha. unfold square, mult. f_equal. apply map_ext_in. intros i Hi%in_seq.
  destruct (mult_row a a Ha Ha i ltac:(lia)) as [-> Hr]. rewrite square_row in * by lia.
  assert ((i + 1) / 2 <= 16 /\ (31 - i) / 2 <= 16)%nat as [D1 D2].
  { split; apply Nat.Div0.div_le_upper_bound; lia. }
  pose proof (sum_bound a a Ha Ha 0 ((i + 1) / 2) (fun j => i - j)%nat ltac:(lia)) as B1.
  pose proof (sum_bound a a Ha Ha (i + 1) ((31 - i) / 2) (fun j => i + 32 - j)%nat ltac:(lia)) as B2.
  pose proof (prod_bound a a Ha Ha (i / 2) (i / 2)) as B3. pose proof (prod_bound a a Ha Ha (i / 2 + 16) (i / 2 + 16)) as B4.
  rewrite (sum_loop_small 0) by lia. rewrite sum_loop_small by (rewrite ?sum38; lia). rewrite sum38.
  rewrite (u32_small (_ * 2)) by lia. destruct (Nat.even i); [|lia].
  rewrite (u32_small (_ + wd a (i / 2) * _)) by lia. rewrite u32_small by lia. lia.
Qed.

Lemma mult121665_ok a : cells 512 a -> small (mult121665 a) /\ exists q, bval (mult121665 a) = 121665 * bval a - q * P25519.
Proof.
  intros Ha. destruct (limbs_val _ _ Ha) as [Va Ba]. destruct Ha as (La & Fa & Ta).
  destruct (carries_ok (2 ^ 24) (2 ^ 30) 0 (map (Z.mul 121665) (take 31 a))) as (o & c & E & Hl & Ho & Hc & Hv); try lia.
  { apply Forall_map. eapply Forall_impl; [exact Fa|]. cbn. unfold is_byte. intros; lia. }
  assert (Hm : forall l, bval (map (Z.mul 121665) l) = 121665 * bval l).
  { induction l as [|x l IH]; cbn [map bval]; [done|]. rewrite IH. lia. }
  unfold zlen in Hv. rewrite length_map, length_take, La in Hl, Hv. cbn [Nat.min] in Hl, Hv. rewrite Hm in Hv.
  unfold mult121665. rewrite E, u32_small by lia.
  destruct (fold_top_ok o (c + 121665 * wd a 31) Hl Ho ltac:(lia)) as [Hs [q Hq]]. split; [done|]. exists q.
  rewrite Hq, Va. change (256 ^ Z.of_nat 31) with (256 ^ 31) in *. lia.
Qed.

(** ** The field *)

(** [a] stands for [x], with a last word below [hi]. *)
Definition fe (hi : Z) (a : list Z) (x : Z) : Prop := cells hi a /\ bval a mod P25519 = x mod P25519.

Lemma mod_sub_mult x q : (x - q * P25519) mod P25519 = x mod P25519.
Proof. unfold P25519. replace (x - q * (2 ^ 255 - 19)) with (x + (- q) * (2 ^ 255 - 19)) by lia. apply Z.mod_add. lia. Qed.

Lemma fe_mono hi hi' a x : hi <= hi' -> fe hi a x -> fe hi' a x.
Proof. intros Hle [Hl Hx]. split; [by eapply limbs_mono|done]. Qed.

Lemma fe_small a x q : small a -> bval a = x - q * P25519 -> fe 129 a x.
Proof. intros [Hl _] E. split; [done|]. by rewrite E, mod_sub_mult. Qed.

Lemma fe_add ha hb a b x y : fe ha a x -> fe hb b y -> ha + hb <= 512 -> fe 512 (add a b) (fadd x y).
Proof.
  intros [Ha Hx] [Hb Hy] Hle. destruct (add_ok ha hb a b Ha Hb ltac:(lia)) as [Hl Hv].
  split; [by eapply limbs_mono|]. unfold fadd. rewrite Hv, Zmod_mod, Zplus_mod, Hx, Hy, <- Zplus_mod. done.
Qed.

Lemma fe_sub a b x y : fe 256 a x -> fe 129 b y -> fe 512 (sub a b) (fsub x y).
Proof.
  intros [Ha Hx] [Hb Hy]. destruct (sub_ok a b Ha Hb) as [Hl Hv].
  split; [done|]. unfold fsub. rewrite Hv. replace (bval a - bval b + 2 * P25519) with (bval a - bval b - (-2) * P25519) by lia.
  rewrite mod_sub_mult, Zmod_mod, Zminus_mod, Hx, Hy, <- Zminus_mod. done.
Qed.

Lemma fe_mult a b x y : fe 512 a x -> fe 512 b y -> fe 129 (mult a b) (fmul x y).
Proof.
  intros [Ha Hx] [Hb Hy]. destruct (mult_ok a b Ha Hb) as [Hs [q Hq]].
  destruct (fe_small _ _ _ Hs Hq) as [Hl Hv]. split; [done|].
  unfold fmul. rewrite Hv, Zmod_mod, Zmult_mod, Hx, Hy, <- Zmult_mod. done.
Qed.

Lemma fe_square a x : fe 512 a x -> fe 129 (square a) (fmul x x).
Proof. intros Hx. rewrite square_mult by apply Hx. by apply fe_mult. Qed.

Lemma fe_mult121665 a x : fe 512 a x -> fe 129 (mult121665 a) (fmul 121665 x).
Proof.
  intros [Ha Hx]. destruct (mult121665_ok a Ha) as [Hs [q Hq]]. destruct (fe_small _ _ _ Hs Hq) as [Hl Hv].
  split; [done|]. unfold fmul. rewrite Hv, Zmod_mod, Zmult_mod, Hx, <- Zmult_mod. done.
Qed.

(** A weaker bound on the last word. *)
Ltac fe_up := match goal with Hx : fe ?hi ?a ?x |- fe _ ?a ?x => apply (fe_mono hi); [lia|exact Hx] end.

(** ** The ladder *)

Definition fe2 hi (m : list Z * list Z) (x : Z * Z) : Prop := fe hi (fst m) (fst x) /\ fe 129 (snd m) (snd x).

Lemma fe_words hi a x : hi <= 2 ^ 20 -> fe hi a x -> length a = 32%nat /\ Forall is_word a.
Proof.
  intros Hhi [Ha _]. destruct (limbs_split _ _ Ha) as [E _]. destruct Ha as (La & Fa & Ta). split; [done|].
  rewrite E. apply Forall_app. split.
  - eapply Forall_impl; [exact Fa|]. unfold is_byte, is_word. intros; lia.
  - constructor; [unfold is_word; lia|done].
Qed.

Lemma mask_select x y : is_word x -> is_word y -> Z.land (Z.ones 32) (Z.lxor x y) = Z.lxor x y.
Proof.
  unfold is_word. intros Hx Hy.
  assert (D : Z.land (Z.ones 32) (Z.lxor x y) = Z.lxor (Z.land x (Z.ones 32)) (Z.land y (Z.ones 32))).
  { apply Z.bits_inj'. intros n Hn. rewrite !Z.land_spec, !Z.lxor_spec, !Z.land_spec.
    by destruct (Z.testbit x n), (Z.testbit y n), (Z.testbit (Z.ones 32) n). }
  by rewrite D, !Z.land_ones, !Z.mod_small by lia.
Qed.

Lemma select1_ok r s (b : bool) : length r = length s -> Forall is_word r -> Forall is_word s ->
  select1 r s (Z.b2z b) = if b then (s, r) else (r, s).
Proof.
  intros Hl Hr Hs. unfold select1. revert s Hl Hs. induction Hr as [|x r Hx Hr IH]; intros [|y s] Hl Hs; try done; [by destruct b|].
  apply Forall_cons in Hs as [Hy Hs]. specialize (IH s ltac:(cbn in Hl; lia) Hs). cbn [zip_with].
  destruct b; cbn [Z.b2z] in *; injection IH as E1 E2; rewrite E1, E2.
  - change (u32 (1 - 1)) with 0. by rewrite Z.land_0_l, !Z.lxor_0_r.
  - change (u32 (0 - 1)) with (Z.ones 32). rewrite mask_select by done.
    f_equal; f_equal.
    + by rewrite Z.lxor_comm, Z.lxor_assoc, Z.lxor_nilpotent, Z.lxor_0_r.
    + by rewrite <- Z.lxor_assoc, Z.lxor_nilpotent, Z.lxor_0_l.
Qed.

Lemma select_ok r s x y (b : bool) : fe2 256 r x -> fe2 256 s y -> select r s (Z.b2z b) = if b then (s, r) else (r, s).
Proof.
  intros [R1 R2] [S1 S2].
  destruct (fe_words 256 _ _ ltac:(lia) R1) as [L1 W1], (fe_words 129 _ _ ltac:(lia) R2) as [L2 W2].
  destruct (fe_words 256 _ _ ltac:(lia) S1) as [L3 W3], (fe_words 129 _ _ ltac:(lia) S2) as [L4 W4].
  unfold select. rewrite !select1_ok by (done || lia). by destruct b, r, s.
Qed.

Lemma fadd_comm x y : fadd x y = fadd y x.
Proof. unfold fadd. f_equal. lia. Qed.
Lemma fmul_comm x y : fmul x y = fmul y x.
Proof. unfold fmul. f_equal. lia. Qed.
Lemma fsub_square x y : fmul (fsub x y) (fsub x y) = fmul (fsub y x) (fsub y x).
Proof. unfold fmul, fsub. rewrite <- !Zmult_mod. f_equal. lia. Qed.

Lemma round_ok work m q x1 x y : fe 256 work x1 -> fe2 256 m x -> fe2 256 q y ->
  fe2 129 (fst (round work m q)) (fst (dbl_add x1 x y)) /\ fe2 129 (snd (round work m q)) (snd (dbl_add x1 x y)).
Proof.
  intros Hw [M1 M2] [Q1 Q2]. destruct m as [mx mz], q as [qx qz], x as [x2 z2], y as [x3 z3].
  cbn [fst snd] in *. unfold round, dbl_add. cbn [fst snd].
  assert (A0 : fe 512 (add mx mz) (fadd x2 z2)) by (eapply (fe_add 256 129); [exact M1|exact M2|lia]).
  assert (A1 : fe 512 (add qx qz) (fadd x3 z3)) by (eapply (fe_add 256 129); [exact Q1|exact Q2|lia]).
  pose proof (fe_sub _ _ _ _ M1 M2) as A0'. pose proof (fe_sub _ _ _ _ Q1 Q2) as A1'.
  pose proof (fe_square _ _ A0) as B0. pose proof (fe_square _ _ A0') as B0'.
  pose proof (fe_mult _ _ _ _ A1 A0') as B1. pose proof (fe_mult _ _ _ _ A1' A0) as B1'.
  assert (S : fe 512 (sub (square (add mx mz)) (square (sub mx mz)))
                (fsub (fmul (fadd x2 z2) (fadd x2 z2)) (fmul (fsub x2 z2) (fsub x2 z2)))) by (apply fe_sub; [fe_up|exact B0']).
  split; split; cbn [fst snd].
  - apply fe_mult; fe_up.
  - rewrite (fadd_comm (fmul (fadd x2 z2) _)). apply fe_mult; [exact S|].
    eapply (fe_add 129 129); [apply fe_mult121665; exact S|exact B0|lia].
  - rewrite (fadd_comm (fmul (fsub x3 z3) _)). apply fe_square. eapply (fe_add 129 129); [exact B1|exact B1'|lia].
  - rewrite (fmul_comm x1), fsub_square. apply fe_mult; [|fe_up].
    apply (fe_mono 129); [lia|]. apply fe_square, fe_sub; [fe_up|exact B1'].
Qed.

Lemma step_ok work m q x1 x y (b : bool) : fe 256 work x1 -> fe2 256 m x -> fe2 256 q y ->
  exists m' q', step work (Z.b2z b) m q = (m', q') /\
    fe2 129 m' (fst (ladder_step x1 b x y)) /\ fe2 129 q' (snd (ladder_step x1 b x y)).
Proof.
  intros Hw Hm Hq. unfold step. rewrite (select_ok _ _ _ _ b Hm Hq). unfold ladder_step.
  assert (Hup : forall m x, fe2 129 m x -> fe2 256 m x).
  { intros ? ? [? ?]. split; [fe_up|done]. }
  destruct b.
  - destruct (round_ok work q m x1 y x Hw Hq Hm) as [R1 R2]. destruct (round work q m) as [n n1], (dbl_add x1 y x) as [d d1].
    cbn [fst snd] in *. rewrite (select_ok _ _ d d1 true) by auto. eauto.
  - destruct (round_ok work m q x1 x y Hw Hm Hq) as [R1 R2]. destruct (round work m q) as [n n1], (dbl_add x1 x y) as [d d1].
    cbn [fst snd] in *. rewrite (select_ok _ _ d d1 false) by auto. eauto.
Qed.

Lemma rounds_ok n work e k m q x1 x y : fe 256 work x1 -> fe2 256 m x -> fe2 256 q y ->
  (forall pos, (pos < n)%nat -> Z.land (Z.shiftr (wd e (pos / 8)) (Z.of_nat (pos mod 8))) 1 = Z.b2z (Z.testbit k (Z.of_nat pos))) ->
  fe2 256 (mainloop_rounds n work e m q) (ladder n x1 k x y).
Proof.
  revert m q x y. induction n as [|n IH]; intros m q x y Hw Hm Hq Hk; cbn [mainloop_rounds ladder]; [done|].
  rewrite Hk by lia. destruct (step_ok work m q x1 x y (Z.testbit k (Z.of_nat n)) Hw Hm Hq) as (m' & q' & -> & Hm' & Hq').
  destruct (ladder_step x1 _ x y) as [d d1]. cbn [fst snd] in *.
  destruct Hm' as [? ?], Hq' as [? ?]. apply IH; [done|split; [fe_up|done]..|]. intros pos Hp. apply Hk. lia.
Qed.

(** ** The inverse *)

(** [a] stands for a power of [x]. *)
Definition pw (x : Z) (a : list Z) (e : Z) : Prop := 0 <= e /\ fe 129 a (x ^ e).

Lemma pw_mult x a b e f : pw x a e -> pw x b f -> pw x (mult a b) (e + f).
Proof.
  intros [He Ha] [Hf Hb]. split; [lia|].
  destruct (fe_mult a b (x ^ e) (x ^ f) ltac:(fe_up) ltac:(fe_up)) as [Hl Hv]. split; [done|].
  rewrite Hv. unfold fmul. by rewrite Zmod_mod, Z.pow_add_r.
Qed.

Lemma pw_square x a e : pw x a e -> pw x (square a) (e + e).
Proof. intros Ha. rewrite square_mult by (eapply limbs_mono; [|apply Ha]; lia). by apply pw_mult. Qed.

Lemma pw_squares x n a e : pw x a e -> pw x (squares n a) (2 ^ Z.of_nat n * e).
Proof.
  revert a e. induction n as [|n IH]; intros a e Ha; cbn [squares].
  - by replace (2 ^ Z.of_nat 0 * e) with e by lia.
  - rewrite Nat2Z.inj_succ, Z.pow_succ_r by lia. replace (2 * 2 ^ Z.of_nat n * e) with (2 ^ Z.of_nat n * (e + e)) by lia.
    by apply IH, pw_square.
Qed.

Lemma recip_ok z x : fe 129 z x -> fe 129 (recip z) (x ^ (P25519 - 2)).
Proof.
  intros Hz. assert (Z1 : pw x z 1) by (split; [lia|by rewrite Z.pow_1_r]). unfold recip.
  assert (Z2 := pw_square _ _ _ Z1). set (z2 := square z) in *.
  assert (Z9 := pw_mult _ _ _ _ _ (pw_squares _ 2 _ _ Z2) Z1). set (z9 := mult (squares 2 z2) z) in *.
  assert (Z11 := pw_mult _ _ _ _ _ Z9 Z2). set (z11 := mult z9 z2) in *.
  assert (Z5 := pw_mult _ _ _ _ _ (pw_square _ _ _ Z11) Z9). set (z5 := mult (square z11) z9) in *.
  assert (Z10 := pw_mult _ _ _ _ _ (pw_squares _ 5 _ _ Z5) Z5). set (z10 := mult (squares 5 z5) z5) in *.
  assert (Z20 := pw_mult _ _ _ _ _ (pw_squares _ (2 + 2 * 4) _ _ Z10) Z10). set (z20 := mult (squares (2 + 2 * 4) z10) z10) in *.
  assert (Z40 := pw_mult _ _ _ _ _ (pw_squares _ (2 + 2 * 9) _ _ Z20) Z20). set (z40 := mult (squares (2 + 2 * 9) z20) z20) in *.
  assert (Z50 := pw_mult _ _ _ _ _ (pw_squares _ (2 + 2 * 4) _ _ Z40) Z10). set (z50 := mult (squares (2 + 2 * 4) z40) z10) in *.
  assert (Z100 := pw_mult _ _ _ _ _ (pw_squares _ (2 + 2 * 24) _ _ Z50) Z50). set (z100 := mult (squares (2 + 2 * 24) z50) z50) in *.
  assert (Z200 := pw_mult _ _ _ _ _ (pw_squares _ (2 + 2 * 49) _ _ Z100) Z100). set (z200 := mult (squares (2 + 2 * 49) z100) z100) in *.
  assert (Z250 := pw_mult _ _ _ _ _ (pw_squares _ (2 + 2 * 24) _ _ Z200) Z50). set (z250 := mult (squares (2 + 2 * 24) z200) z50) in *.
  destruct (pw_mult _ _ _ _ _ (pw_squares _ 5 _ _ Z250) Z11) as [_ Hr].
  match type of Hr with fe _ _ (_ ^ ?e) => replace (P25519 - 2) with e by (vm_compute; reflexivity) end. exact Hr.
Qed.

(** ** The result *)

Lemma masked_choice (b : bool) a o : length a = length o -> Forall is_word a -> Forall is_word o ->
  zip_with (fun x o => Z.lxor x (Z.land (u32 (- Z.b2z b)) (Z.lxor o x))) a o = if b then o else a.
Proof.
  intros Hl Ha Ho. revert o Hl Ho. induction Ha as [|x a Hx Ha IH]; intros [|y o] Hl Ho; try done; [by destruct b|].
  apply Forall_cons in Ho as [Hy Ho]. cbn [zip_with]. rewrite IH by (cbn in Hl; done || lia). destruct b; cbn [Z.b2z].
  - change (u32 (- (1))) with (Z.ones 32). rewrite mask_select by done. f_equal.
    by rewrite Z.lxor_comm, Z.lxor_assoc, Z.lxor_nilpotent, Z.lxor_0_r.
  - change (u32 (- 0)) with 0. by rewrite Z.land_0_l, Z.lxor_0_r.
Qed.

Lemma u8_snoc hi a : cells hi a ->
  Forall is_byte (map u8 a) /\ length a = 32%nat /\ bval (map u8 a) = bval (take 31 a) + 256 ^ 31 * u8 (wd a 31).
Proof.
  intros Ha. destruct (limbs_split _ _ Ha) as [E _]. pose proof Ha as (La & Fa & _).
  assert (Hid : map u8 (take 31 a) = take 31 a).
  { clear -Fa. induction Fa as [|x l Hx Hl IH]; [done|]. cbn [map]. rewrite IH. f_equal. apply u8_small. exact Hx. }
  split_and!.
  - apply Forall_map. apply Forall_true. intros x. unfold is_byte, u8. apply Z.mod_pos_bound. lia.
  - done.
  - rewrite E at 1. rewrite map_app, Hid, bval_app. unfold zlen. rewrite length_take, La. cbn [Nat.min map bval].
    change (256 ^ Z.of_nat 31) with (256 ^ 31). lia.
Qed.

Lemma freeze_ok a : small a ->
  Forall is_byte (map u8 (freeze a)) /\ length (freeze a) = 32%nat /\ bval (map u8 (freeze a)) = bval a mod P25519.
Proof.
  intros [Ha Hv]. assert (Hm : cells 129 minusp) by (split; [done|split; [repeat constructor; done|done]]).
  destruct (add_ok 129 129 a minusp Ha Hm ltac:(lia)) as [Hl Hs]. change (bval minusp) with (2 ^ 255 + 19) in Hs.
  destruct (limbs_val _ _ Ha) as [Va Ba], (limbs_val _ _ Hl) as [Vl Bl].
  assert (Wa := fe_words 129 a (bval a) ltac:(lia) (conj Ha eq_refl)).
  assert (Wl := fe_words 258 (add a minusp) (bval (add a minusp)) ltac:(lia) (conj Hl eq_refl)).
  destruct Wa as [La Wa], Wl as [Ll Wl]. unfold freeze.
  assert (T : 0 <= wd (add a minusp) 31 < 258) by apply Hl.
  destruct (u8_snoc _ _ Ha) as (Fa & _ & Ua), (u8_snoc _ _ Hl) as (Fl & _ & Ul). assert (Ta := Ha). destruct Ta as (_ & _ & Ta).
  assert (E : Z.land (Z.shiftr (wd (add a minusp) 31) 7) 1 = Z.b2z (wd (add a minusp) 31 <? 256)).
  { change 1 with (Z.ones 1). rewrite Z.land_ones, Z.shiftr_div_pow2 by lia. change (2 ^ 7) with 128. change (2 ^ 1) with 2.
    assert (128 <= wd (add a minusp) 31) by lia.
    destruct (Z.ltb_spec (wd (add a minusp) 31) 256); cbn [Z.b2z].
    - by replace (wd (add a minusp) 31 / 128) with 1 by (apply Z.div_unique with (wd (add a minusp) 31 - 128); lia).
    - by replace (wd (add a minusp) 31 / 128) with 2 by (apply Z.div_unique with (wd (add a minusp) 31 - 256); lia). }
  rewrite E, masked_choice by (done || congruence). unfold u8, P25519 in *.
  destruct (Z.ltb_spec (wd (add a minusp) 31) 256).
  - split_and!; [done|done|]. rewrite Ua, Va. rewrite (Z.mod_small (wd a 31)) by lia. rewrite Z.mod_small by lia. done.
  - split_and!; [done|done|]. rewrite Ul.
    rewrite <- (Z.mod_unique (wd (add a minusp) 31) (2 ^ 8) 1 (wd (add a minusp) 31 - 256)) by lia.
    apply Z.mod_unique with 1; lia.
Qed.

(** The bits of bytes. *)
Lemma bval_testbit l n : Forall is_byte l -> (n < 8 * length l)%nat ->
  Z.testbit (bval l) (Z.of_nat n) = Z.testbit (wd l (n / 8)) (Z.of_nat (n mod 8)).
Proof.
  intros Hl. revert n. induction Hl as [|w l Hw Hl IH]; intros n Hn; [cbn in Hn; lia|].
  cbn [bval]. replace (w + 256 * bval l) with (bval l * 2 ^ 8 + w) by lia. unfold is_byte in Hw.
  rewrite cat_testbit by lia. destruct (Z.ltb_spec (Z.of_nat n) 8).
  - by rewrite Nat.div_small, Nat.mod_small by lia.
  - replace (Z.of_nat n - 8) with (Z.of_nat (n - 8)) by lia. rewrite IH by (cbn in Hn; lia).
    replace n with ((n - 8) + 1 * 8)%nat at 3 4 by lia. rewrite Nat.div_add, Nat.Div0.mod_add by lia. rewrite Nat.add_1_r. done.
Qed.

Lemma land1_bit w k : Z.land (Z.shiftr w (Z.of_nat k)) 1 = Z.b2z (Z.testbit w (Z.of_nat k)).
Proof. change 1 with (Z.ones 1). rewrite Z.land_ones by lia. change (2 ^ 1) with 2. rewrite <- Z.bit0_mod, Z.shiftr_spec by lia. done. Qed.

Lemma clamped_ends n : length n = 32%nat -> exists n0 mid n31, n = n0 :: mid ++ [n31] /\ length mid = 30%nat /\
  clamped n = Z.land n0 248 :: mid ++ [Z.lor (Z.land n31 127) 64].
Proof.
  intros Ln. destruct n as [|n0 n]; [done|]. exists n0, (take 30 n). do 30 (destruct n as [|? n]; [done|]).
  destruct n as [|n31 [|? ?]]; [done| |done]. exists n31. done.
Qed.

Lemma clamped_ok n : length n = 32%nat -> Forall is_byte n ->
  Forall is_byte (clamped n) /\ length (clamped n) = 32%nat /\ bval (clamped n) = clamp_scalar (bval n).
Proof.
  intros Ln Fn. destruct (clamped_ends n Ln) as (n0 & mid & n31 & E & Lm & ->). subst n.
  apply Forall_cons in Fn as [F0 Fn]. apply Forall_app in Fn as [Fm F31]. apply Forall_inv in F31. unfold is_byte in F0, F31.
  assert (E0 : Z.land n0 248 = n0 / 2 ^ 3 * 2 ^ 3).
  { rewrite <- (Z.shiftr_div_pow2 n0 3), <- (Z.shiftl_mul_pow2 _ 3) by lia. apply Z.bits_inj'. intros k Hk.
    rewrite Z.land_spec, Z.shiftl_spec by lia. destruct (Z.ltb_spec k 3).
    - rewrite (Z.testbit_neg_r _ (k - 3)) by lia. assert (k = 0 \/ k = 1 \/ k = 2) as [->|[->| ->]] by lia; apply andb_false_r.
    - rewrite Z.shiftr_spec by lia. replace (k - 3 + 3) with k by lia. destruct (Z.ltb_spec k 8).
      + replace (Z.testbit 248 k) with true; [apply andb_true_r|].
        assert (k = 3 \/ k = 4 \/ k = 5 \/ k = 6 \/ k = 7) as [->|[->|[->|[->| ->]]]] by lia; done.
      + by rewrite (testbit_above 8 n0 k) by lia. }
  change (2 ^ 3) with 8 in E0.
  assert (E31 : Z.lor (Z.land n31 127) 64 = n31 mod 64 + 64).
  { change 127 with (Z.lor (Z.ones 6) 64). rewrite Z.land_lor_distr_r, <- Z.lor_assoc.
    replace (Z.lor (Z.land n31 64) 64) with 64 by (apply Z.bits_inj'; intros k Hk; rewrite Z.lor_spec, Z.land_spec; by destruct (Z.testbit n31 k), (Z.testbit 64 k)).
    rewrite Z.land_ones, Z.lor_comm by lia. rewrite (lor_low 64 _ 6); [change (2 ^ 6) with 64; lia|lia|apply Z.mod_pos_bound; lia|done]. }
  pose proof (Z.div_mod n0 8 ltac:(lia)). pose proof (Z.mod_pos_bound n0 8 ltac:(lia)).
  pose proof (Z.div_mod n31 64 ltac:(lia)). pose proof (Z.mod_pos_bound n31 64 ltac:(lia)).
  rewrite E0, E31. split_and!.
  - constructor; [unfold is_byte; lia|]. apply Forall_app. split; [done|]. constructor; [unfold is_byte; lia|done].
  - cbn. rewrite length_app, Lm. done.
  - unfold clamp_scalar. cbn [bval]. rewrite !bval_app. unfold zlen. rewrite Lm. cbn [bval].
    pose proof (bval_bytes mid Fm) as Bm. unfold zlen in Bm. rewrite Lm in Bm. change (256 ^ Z.of_nat 30) with (256 ^ 30) in *.
    set (m := bval mid) in *. clearbody m.
    rewrite <- (Z.mod_unique (n0 + 256 * (m + 256 ^ 30 * (n31 + 256 * 0))) (2 ^ 254) (n31 / 64)
                  (n0 + 256 * (m + 256 ^ 30 * (n31 mod 64)))) by lia.
    rewrite <- (Z.div_unique (n0 + 256 * (m + 256 ^ 30 * (n31 mod 64))) 8
                  (n0 / 8 + 32 * (m + 256 ^ 30 * (n31 mod 64))) (n0 mod 8)) by lia. lia.
Qed.

Lemma bytes_fe hi a : 256 <= hi -> length a = 32%nat -> Forall is_byte a -> fe hi a (bval a mod P25519).
Proof.
  intros Hhi La Fa. split; [|by rewrite Zmod_mod]. split; [done|]. split; [by apply Forall_take|].
  rewrite (Forall_nth _ 0) in Fa. specialize (Fa 31%nat ltac:(lia)). unfold is_byte in Fa. unfold wd. lia.
Qed.

Lemma fe_one : fe 129 (1 :: replicate 31 0) 1.
Proof. split; [split; [reflexivity|split; [repeat constructor; lia|cbn; lia]]|reflexivity]. Qed.
Lemma fe_zero : fe 129 (replicate 32 0) 0.
Proof. split; [split; [reflexivity|split; [repeat constructor; lia|cbn; lia]]|reflexivity]. Qed.

Lemma mainloop_ok p n : length n = 32%nat -> Forall is_byte n -> length p = 32%nat -> Forall is_byte p ->
  fe2 256 (mainloop p (clamped n)) (ladder 255 (bval p mod P25519) (clamp_scalar (bval n)) (1, 0) (bval p mod P25519, 1)).
Proof.
  intros Ln Fn Lp Fp. destruct (clamped_ok n Ln Fn) as (Fc & Lc & Ec). pose proof fe_one as H1. pose proof fe_zero as H0.
  pose proof (bytes_fe 256 p ltac:(lia) Lp Fp) as Hp.
  assert (Hb : forall pos, (pos < 255)%nat -> Z.land (Z.shiftr (wd (clamped n) (pos / 8)) (Z.of_nat (pos mod 8))) 1 =
                                              Z.b2z (Z.testbit (clamp_scalar (bval n)) (Z.of_nat pos))).
  { intros pos Hpos. rewrite <- Ec, land1_bit, bval_testbit; [reflexivity|exact Fc|lia]. }
  unfold mainloop. revert Hb. generalize 255%nat. intros r Hb. apply rounds_ok; [exact Hp| | |exact Hb]; split; cbn [fst snd].
  - fe_up.
  - exact H0.
  - exact Hp.
  - exact H1.
Qed.

(** C10. [crypto_scalarmult_curve25519] is the function X25519: for any scalar and
    point of 32 bytes no word of its arithmetic overflows, and the 32 bytes it
    returns are the abscissa that the Montgomery ladder over the integers
    modulo 2^255-19 gives for the clamped scalar, reduced below the modulus.
    The highest bit of the point counts (it is not masked). *)
Theorem curve25519_ladder n p :
  length n = 32%nat -> Forall is_byte n -> length p = 32%nat -> Forall is_byte p ->
  Forall is_byte (crypto_scalarmult_curve25519 n p) /\ length (crypto_scalarmult_curve25519 n p) = 32%nat /\
  bval (crypto_scalarmult_curve25519 n p) = X25519 (clamp_scalar (bval n)) (bval p).
Proof.
  intros Ln Fn Lp Fp. pose proof (mainloop_ok p n Ln Fn Lp Fp) as Hr.
  unfold crypto_scalarmult_curve25519, X25519. revert Hr. generalize (mainloop p (clamped n)) (ladder 255 (bval p mod P25519) (clamp_scalar (bval n)) (1, 0) (bval p mod P25519, 1)).
  intros [x z] [fx fz] Hr.
  destruct Hr as [Hx Hz]. cbn [fst snd] in Hx, Hz. pose proof (recip_ok z fz Hz) as Hi.
  destruct (mult_ok x (recip z)) as [Hs [q Hq]]; [apply (limbs_mono 256); [lia|apply Hx]|apply (limbs_mono 129); [lia|apply Hi]|].
  destruct (freeze_ok _ Hs) as (F & L & E). rewrite length_map. split_and!; [done|done|].
  rewrite E, Hq, mod_sub_mult. unfold fmul. rewrite Zpow_mod_correct by (unfold P25519; lia).
  destruct Hx as [_ Hx], Hi as [_ Hi]. rewrite Zmult_mod, Hx, Hi, Zmult_mod_idemp_r. symmetry. rewrite <- Zmult_mod_idemp_l.
  rewrite Zmult_mod_idemp_r. done.
Qed.

Lemma curve25519_ladder_witness :
  bval (crypto_scalarmult_curve25519 (map Z.of_nat (seq 1 32)) (9 :: replicate 31 0)) =
  X25519 (clamp_scalar (bval (map Z.of_nat (seq 1 32)))) 9.
Proof.
  apply (curve25519_ladder (map Z.of_nat (seq 1 32)) (9 :: replicate 31 0)); try reflexivity; repeat constructor; done.
Defined.
