(* ===== verification/KexGen.v ===== *)
(** * Key exchange methods: src/kexgen.c and src/kexc25519.c

    The two messages that agree on a secret, on both sides, with Curve25519 as
    the method.  The other methods, host keys (src/sshkey.c) and the callbacks
    that load, check and use them are parameters. *)
From S2P Require Import Prelude Sshbuf SshbufGetput CString SshbufMisc Words Chacha ChachaPoly Cipher Hmac Mac PacketState Packet Match SshkeyNames KexNames Kex Compat KexInput Curve25519.

Definition SSH_ERR_KEY_TYPE_MISMATCH : Z := -13.
Definition SSH_ERR_KEY_INVALID_EC_VALUE : Z := -20.
Definition SSH_ERR_SIGNATURE_INVALID : Z := -21.
Definition SSH_ERR_NO_HOSTKEY_LOADED : Z := -36.
Definition SSH2_MSG_KEX_ECDH_INIT : Z := 30.
Definition SSH2_MSG_KEX_ECDH_REPLY : Z := 31.
Definition CURVE25519_SIZE : Z := 32.

(** What the exchange needs of [struct sshkey]. *)
Class SSHKEY (K : Type) : Type := {
  key_type : K -> Z;
  key_ecdsa_nid : K -> Z;
  sshkey_fromb : list Z -> res K;
  sshkey_tob : K -> res (list Z);
  sshkey_from_private : K -> res K;
  sshkey_equal_public : K -> K -> bool;
  sshkey_sign : option K -> list Z -> option (list Z) -> Z -> res (list Z);
  sshkey_verify : K -> list Z -> list Z -> option (list Z) -> Z -> res unit;
}.

(** The function pointers of [struct kex]; [None] is NULL. *)
Record kex_hooks (K : Type) : Type := mk_kex_hooks {
  verify_host_key : option (K -> Z);
  load_host_public_key : option (Z -> Z -> option K);
  load_host_private_key : option (Z -> Z -> option K);
  kh_sign : Z -> option K -> K -> list Z -> option (list Z) -> res (list Z);
}.
Arguments verify_host_key {K}.
Arguments load_host_public_key {K}.
Arguments load_host_private_key {K}.
Arguments kh_sign {K}.

(** A method: the client's key pair, the server's answer and the client's secret. *)
Record kem : Type := mk_kem {
  kem_keypair : res (list Z * sshbuf);
  kem_enc : sshbuf -> res (sshbuf * sshbuf);
  kem_dec : list Z -> sshbuf -> res sshbuf;
}.

(** ** Curve25519 *)

(** The key and the public key. *)
Definition kexc25519_keygen (E : penv) : list Z * list Z :=
  let key := pe_rand E (-1) CURVE25519_SIZE in
  (key, crypto_scalarmult_curve25519 key (9 :: replicate 31 0)).

Definition kexc25519_shared_key_ext (np : Z) (key pub : list Z) (raw : bool) : ST sshbuf unit :=
  let shared_key := crypto_scalarmult_curve25519 key pub in
  if bool_decide (shared_key = replicate (Z.to_nat CURVE25519_SIZE) 0) then fail SSH_ERR_KEY_INVALID_EC_VALUE
  else if raw then sshbuf_put np shared_key else sshbuf_put_bignum2_bytes np shared_key.
Definition kexc25519_shared_key (np : Z) (key pub : list Z) : ST sshbuf unit := kexc25519_shared_key_ext np key pub false.

(** A new buffer filled by [m]. *)
Definition in_new (np : Z) (m : ST sshbuf unit) : res sshbuf :=
  match sshbuf_new np np with
  | None => Err SSH_ERR_ALLOC_FAIL
  | Some b => let '(r, b) := m b in let? _ := r in Ok b
  end.
Definition reserve_put (np : Z) (v : list Z) : ST sshbuf unit :=
  let! p := sshbuf_reserve np (zlen v) in mem_poke p v.

Definition kex_c25519_keypair (E : penv) : res (list Z * sshbuf) :=
  let '(key, pub) := kexc25519_keygen E in
  let? buf := in_new (pe_np E) (reserve_put (pe_np E) pub) in Ok (key, buf).

Definition kex_c25519_enc (E : penv) (client_blob : sshbuf) : res (sshbuf * sshbuf) :=
  let? n := sshbuf_len client_blob in
  if negb (n =? CURVE25519_SIZE) then Err SSH_ERR_SIGNATURE_INVALID
  else
    let? client_pub := buf_bytes client_blob in
    let '(server_key, server_pub) := kexc25519_keygen E in
    let? server_blob := in_new (pe_np E) (reserve_put (pe_np E) server_pub) in
    let? buf := in_new (pe_np E) (kexc25519_shared_key_ext (pe_np E) server_key client_pub false) in
    Ok (server_blob, buf).

Definition kex_c25519_dec (E : penv) (key : list Z) (server_blob : sshbuf) : res sshbuf :=
  let? n := sshbuf_len server_blob in
  if negb (n =? CURVE25519_SIZE) then Err SSH_ERR_SIGNATURE_INVALID
  else
    let? server_pub := buf_bytes server_blob in
    in_new (pe_np E) (kexc25519_shared_key_ext (pe_np E) key server_pub false).

Definition c25519 (E : penv) : kem := mk_kem (kex_c25519_keypair E) (kex_c25519_enc E) (kex_c25519_dec E).

(** The methods of the switches of kexgen.c. *)
Definition gen_types : list Z :=
  [KEX_DH_GRP1_SHA1; KEX_DH_GRP14_SHA1; KEX_DH_GRP14_SHA256; KEX_DH_GRP16_SHA512; KEX_DH_GRP18_SHA512;
   KEX_ECDH_SHA2; KEX_KEM_MLKEM768ECDH_SHA256; KEX_C25519_SHA256; KEX_KEM_SNTRUP761X25519_SHA512; KEX_KEM_MLKEM768X25519_SHA256].

Section KexGen.
Context {V M U Zs K : Type} `{EVP V} `{EVP_MD M} `{UMAC U} `{ZLIB Zs} `{SSHKEY K}.
Context (kems : Z -> kem) (hooks : kex_hooks K).
Implicit Types E : penv.
Abbreviation ssh := (ssh (V := V) (M := M) (U := U) (Zs := Zs) (K := K)).
Abbreviation KM := (KM (V := V) (M := M) (U := U) (Zs := Zs) (K := K)).

Definition kem_of_type E (type : Z) : option kem :=
  if negb (bool_decide (type ∈ gen_types)) then None
  else if type =? KEX_C25519_SHA256 then Some (c25519 E) else Some (kems type).

(** ** Host keys (src/kex.c) *)

Definition kex_load_hostkey : KM (option K * K) :=
  let! x := get in
  match load_host_public_key hooks, load_host_private_key hooks with
  | Some pub, Some prv =>
      let type := kn_hostkey_type (ssh_neg x) in
      let nid := kn_hostkey_nid (ssh_neg x) in
      match pub type nid with
      | None => fail SSH_ERR_NO_HOSTKEY_LOADED
      | Some p => ret (prv type nid, p)
      end
  | _, _ => fail SSH_ERR_INVALID_ARGUMENT
  end.

Definition kex_verify_host_key (k : K) : KM unit :=
  let! x := get in
  let type := kn_hostkey_type (ssh_neg x) in
  match verify_host_key hooks with
  | None => fail SSH_ERR_INVALID_ARGUMENT
  | Some verify =>
      if negb (key_type k =? type) || ((type =? KEY_ECDSA) && negb (key_ecdsa_nid k =? kn_hostkey_nid (ssh_neg x))) then
        fail SSH_ERR_KEY_TYPE_MISMATCH
      else if verify k =? -1 then fail SSH_ERR_SIGNATURE_INVALID
      else ret tt
  end.

(** ** The hash of the exchange *)

(** [hashlen] is [sizeof (hash)]. *)
Definition kex_gen_hash (np hash_alg : Z) (client_version server_version client_kexinit server_kexinit server_host_key_blob
    client_pub server_pub shared_secret : sshbuf) : res (list Z) :=
  if SSH_DIGEST_MAX_LENGTH <? ssh_digest_bytes hash_alg then Err SSH_ERR_INVALID_ARGUMENT
  else
    let? b := in_new np (
      do! sshbuf_put_stringb np (Some client_version) ;;
      do! sshbuf_put_stringb np (Some server_version) ;;
      let! n := reads (fun _ => sshbuf_len client_kexinit) in
      do! sshbuf_put_u32 np (u32 (n + 1)) ;;
      do! sshbuf_put_u8 np SSH2_MSG_KEXINIT ;;
      do! sshbuf_putb np (Some client_kexinit) ;;
      let! n := reads (fun _ => sshbuf_len server_kexinit) in
      do! sshbuf_put_u32 np (u32 (n + 1)) ;;
      do! sshbuf_put_u8 np SSH2_MSG_KEXINIT ;;
      do! sshbuf_putb np (Some server_kexinit) ;;
      do! sshbuf_put_stringb np (Some server_host_key_blob) ;;
      do! sshbuf_put_stringb np (Some client_pub) ;;
      do! sshbuf_put_stringb np (Some server_pub) ;;
      sshbuf_putb np (Some shared_secret)) in
    let? m := buf_bytes b in
    match ssh_digest_memory hash_alg m SSH_DIGEST_MAX_LENGTH with
    | Err _ => Err SSH_ERR_LIBCRYPTO_ERROR
    | r => r
    end.

(** ** The client *)

Definition set_client_key (type : Z) (key : list Z) : kexneg K -> kexneg K :=
  if type =? KEX_C25519_SHA256 then set_kn_c25519_client_key key else set_kn_other_client_key key.
Definition client_key (type : Z) (n : kexneg K) : list Z :=
  if type =? KEX_C25519_SHA256 then kn_c25519_client_key n else kn_other_client_key n.

Definition kex_gen_client E : KM unit :=
  let! x := get in
  let type := kn_kex_type (ssh_neg x) in
  match kem_of_type E type with
  | None => fail SSH_ERR_INVALID_ARGUMENT
  | Some k =>
      let! kp := reads (fun _ => kem_keypair k) in
      do! upd_neg (fun n => set_kn_client_pub (Some (snd kp)) (set_client_key type (fst kp) n)) ;;
      do! on_state (do! sshpkt_start E SSH2_MSG_KEX_ECDH_INIT ;; do! sshpkt_put_stringb E (Some (snd kp)) ;; sshpkt_send E) ;;
      ssh_dispatch_set SSH2_MSG_KEX_ECDH_REPLY H_input_kex_gen_reply
  end.

(** The label [out]: the keys of the client are erased. *)
Definition forget_client_keys (m : KM unit) : KM unit := fun x =>
  let '(r, x) := m x in
  (r, set_neg (set_kn_client_pub None (set_kn_other_client_key [] (set_kn_c25519_client_key (replicate (Z.to_nat CURVE25519_SIZE) 0) (ssh_neg x)))) x).

(** The signature and the host key of the first exchange. *)
Definition save_initial E (signature : list Z) (server_host_key : K) : KM unit :=
  let! fl := kex_flags in
  let! x := get in
  if Z.land fl KEX_INITIAL =? 0 then ret tt
  else if is_some (kn_initial_hostkey (ssh_neg x)) || is_some (kn_initial_sig (ssh_neg x)) then fail SSH_ERR_INTERNAL_ERROR
  else
    match sshbuf_new (pe_np E) (pe_np E) with
    | None => fail SSH_ERR_ALLOC_FAIL
    | Some b =>
        let '(r, b) := sshbuf_put (pe_np E) signature b in
        do! upd_neg (set_kn_initial_sig (Some b)) ;;
        do! reads (fun _ => r) ;;
        upd_neg (set_kn_initial_hostkey (Some server_host_key))
    end.

Definition client_pub (n : kexneg K) : res sshbuf := match kn_client_pub n with None => Crash | Some b => Ok b end.

Definition input_kex_gen_reply E (type seq : Z) : KM unit :=
  do! ssh_dispatch_set SSH2_MSG_KEX_ECDH_REPLY H_kex_protocol_error ;;
  forget_client_keys (
    let! server_host_key_blob := on_state (sshpkt_getb_froms E) in
    let! tmp := reads (fun _ => sshbuf_view (pe_np E) server_host_key_blob) in
    match tmp with
    | None => fail SSH_ERR_ALLOC_FAIL
    | Some tmp =>
        let! l := reads (fun _ => buf_bytes tmp) in
        let! server_host_key := reads (fun _ => sshkey_fromb l) in
        do! kex_verify_host_key server_host_key ;;
        let! server_blob := on_state (sshpkt_getb_froms E) in
        let! signature := on_state (sshpkt_get_string E) in
        do! on_state sshpkt_get_end ;;
        let! x := get in
        let n := ssh_neg x in
        match kem_of_type E (kn_kex_type n) with
        | None => fail SSH_ERR_INVALID_ARGUMENT
        | Some k =>
            let! shared_secret := reads (fun _ => kem_dec k (client_key (kn_kex_type n) n) server_blob) in
            let! kx := on_state the_kex in
            let! pub := reads (fun _ => client_pub n) in
            let! hash := reads (fun _ => kex_gen_hash (pe_np E) (kn_hash_alg n) (kn_client_version n) (kn_server_version n) (kx_my kx) (kn_peer n)
                                           server_host_key_blob pub server_blob shared_secret) in
            do! reads (fun _ => sshkey_verify server_host_key (str_of signature) hash (kn_hostkey_alg n) (ssh_compat x)) ;;
            do! kex_derive_keys E hash shared_secret ;;
            do! kex_send_newkeys E ;;
            save_initial E (str_of signature) server_host_key
        end
    end).

(** ** The server *)

Definition kex_gen_server : KM unit := ssh_dispatch_set SSH2_MSG_KEX_ECDH_INIT H_input_kex_gen_init.

Definition input_kex_gen_init E (type seq : Z) : KM unit :=
  do! ssh_dispatch_set SSH2_MSG_KEX_ECDH_INIT H_kex_protocol_error ;;
  let! host := kex_load_hostkey in
  let '(server_host_private, server_host_public) := host in
  let! client_pubkey := on_state (sshpkt_getb_froms E) in
  do! on_state sshpkt_get_end ;;
  let! x := get in
  let n := ssh_neg x in
  match kem_of_type E (kn_kex_type n) with
  | None => fail SSH_ERR_INVALID_ARGUMENT
  | Some k =>
      let! enc := reads (fun _ => kem_enc k client_pubkey) in
      let '(server_pubkey, shared_secret) := enc in
      let! blob := reads (fun _ => in_new (pe_np E) (let! l := reads (fun _ => sshkey_tob server_host_public) in sshbuf_put (pe_np E) l)) in
      let! kx := on_state the_kex in
      let! hash := reads (fun _ => kex_gen_hash (pe_np E) (kn_hash_alg n) (kn_client_version n) (kn_server_version n) (kn_peer n) (kx_my kx)
                                     blob client_pubkey server_pubkey shared_secret) in
      let! signature := reads (fun _ => kh_sign hooks (ssh_compat x) server_host_private server_host_public hash (kn_hostkey_alg n)) in
      do! on_state (do! sshpkt_start E SSH2_MSG_KEX_ECDH_REPLY ;; do! sshpkt_put_stringb E (Some blob) ;;
                    do! sshpkt_put_stringb E (Some server_pubkey) ;; do! sshpkt_put_string E signature ;; sshpkt_send E) ;;
      do! kex_derive_keys E hash shared_secret ;;
      do! kex_send_newkeys E ;;
      let! x := get in
      match kn_initial_hostkey (ssh_neg x) with
      | Some _ => ret tt
      | None => let! k := reads (fun _ => sshkey_from_private server_host_public) in upd_neg (set_kn_initial_hostkey (Some k))
      end
  end.
End KexGen.
