(* ===== verification/Dispatch.v ===== *)
(** * Giving packets to handlers: src/dispatch.c

    The loop that reads packets and calls the handlers of the table.  Handlers
    of other files, the group exchange methods and what reads answer are
    arguments. *)
From S2P Require Import Prelude Sshbuf SshbufGetput CString SshbufMisc Words Chacha ChachaPoly Cipher Hmac Mac PacketState Packet Match SshkeyNames KexNames Kex Compat KexInput Curve25519 KexGen.

Section Dispatch.
Context {V M U Zs K : Type} `{EVP V} `{EVP_MD M} `{UMAC U} `{ZLIB Zs} `{SSHKEY K}.
Abbreviation ssh := (ssh (V := V) (M := M) (U := U) (Zs := Zs) (K := K)).
Abbreviation KM := (KM (V := V) (M := M) (U := U) (Zs := Zs) (K := K)).
Context (E : penv) (kems : Z -> kem) (hooks : kex_hooks K) (gex : KM unit) (other : Z -> Z -> Z -> KM unit).

(** [kex->kex]: the method of each type. *)
Definition kex_methods (server : bool) (type : Z) : option (KM unit) :=
  if (type =? KEX_DH_GEX_SHA1) || (type =? KEX_DH_GEX_SHA256) then Some gex
  else if bool_decide (type ∈ gen_types) then Some (if server then kex_gen_server else kex_gen_client kems E)
  else None.

Definition call_handler (h : handler) (type seq : Z) : KM unit :=
  let! x := get in
  match h with
  | H_NULL => crash
  | H_kex_input_kexinit => kex_input_kexinit E (kex_methods (kn_server (ssh_neg x))) type seq
  | H_kex_input_newkeys => kex_input_newkeys E type seq
  | H_kex_input_ext_info => kex_input_ext_info E type seq
  | H_kex_protocol_error => kex_protocol_error E type seq
  | H_dispatch_protocol_error => dispatch_protocol_error E type seq
  | H_dispatch_protocol_ignore => ret tt
  | H_input_kex_gen_init => input_kex_gen_init kems hooks E type seq
  | H_input_kex_gen_reply => input_kex_gen_reply kems hooks E type seq
  | H_other n => other n type seq
  end.

(** The handler of a packet; none when the type is not in the table. *)
Definition handler_of (type : Z) : KM (option handler) :=
  let! x := get in
  if (0 <? type) && (type <? DISPATCH_MAX) then
    let! h := defined (ssh_dispatch x !! Z.to_nat type) in
    ret (match h with H_NULL => None | h => Some h end)
  else ret None.

(** A packet that was read: whether [done] is looked at. *)
Definition dispatch_packet (type seq : Z) : KM bool :=
  let! h := handler_of type in
  match h with
  | Some h =>
      let! x := get in
      if negb (ssh_skip x =? 0) then do! change (set_skip (ssh_skip x - 1)) ;; ret false
      else do! call_handler h type seq ;; ret true
  | None =>
      do! on_state (sshpkt_disconnect E (str "protocol error: rcvd type " ++ dec type)) ;; fail SSH_ERR_DISCONNECTED
  end.

(** The loop of [ssh_dispatch_run]; [done] reads [*done] ([None] is NULL), [rs]
    are the answers of reads.  It goes on while [fuel] lasts. *)
Fixpoint dispatch_loop (fuel : nat) (block : bool) (done : option (ssh -> bool)) (rs : list rdanswer) : KM (list rdanswer) :=
  match fuel with
  | O => crash
  | S fuel =>
      let! x := (if block then on_state (ssh_packet_read_seqnr E rs)
                 else let! ts := on_state (ssh_packet_read_poll_seqnr E) in ret (ts, rs)) in
      let '((type, seq), rs) := x in
      if negb block && (type =? SSH_MSG_NONE) then ret rs
      else
        let! look := dispatch_packet type seq in
        let! x := get in
        if look && match done with Some d => d x | None => false end then ret rs else dispatch_loop fuel block done rs
  end.

(** Without blocking every round takes a packet of the input. *)
Definition ssh_dispatch_run (block : bool) (done : option (ssh -> bool)) (rs : list rdanswer) : KM (list rdanswer) :=
  let! n := on_state (on_input blen) in
  let more := fold_right (fun r n => match r with RBytes l => zlen l + n | _ => n end) 0 rs in
  dispatch_loop (S (Z.to_nat (n + more))) block done rs.

Definition ssh_dispatch_run_fatal (block : bool) (done : option (ssh -> bool)) (rs : list rdanswer) : KM (list rdanswer) :=
  or_exit (ssh_dispatch_run block done rs).
End Dispatch.
