(* ===== verification/SshApi.v ===== *)
(** * The library interface: src/ssh_api.c

    A connection without a socket: the caller moves bytes between the output of
    one end and the input of the other.  The banners, the choice of host keys and
    the loop that runs the key exchange.

    [seed_rng] and [app_data] are left out; sscanf(3) is modelled for the one
    format that is used. *)
From S2P Require Import Prelude Sshbuf SshbufGetput CString SshbufMisc Words Chacha ChachaPoly Cipher Hmac Mac PacketState Packet Match SshkeyNames KexNames Kex Compat KexInput Curve25519 KexGen Dispatch.

Definition SSH_ERR_PROTOCOL_MISMATCH : Z := -37.
Definition SSH_ERR_NO_PROTOCOL_VERSION : Z := -38.
Definition SSH_MAX_BANNER_LEN : Z := 8192.
Definition SSH_MAX_PRE_BANNER_LINES : Z := 1024.
Definition SSH_WINDOWS_VERSION : list Z := str "OpenSSH_for_Windows_10.5".
Definition SSH_WINDOWS_BANNER : list Z := str " Win32-OpenSSH-GitHub".
Definition SSH_VERSION : list Z := SSH_WINDOWS_VERSION ++ SSH_WINDOWS_BANNER.
Definition CRLF : list Z := [13; 10].

(** [%d] of sscanf(3): the value of strtol(3) stored in an [int], and what
    follows. *)
Definition scan_int (s : list Z) : option (Z * list Z) :=
  let '(l, _, ep) := strtoll s in
  if (length ep =? length s)%nat then None else Some ((u32 l + 2 ^ 31) mod 2 ^ 32 - 2 ^ 31, ep).

(** [sscanf (cp, "SSH-%d.%d-%[^\n]\n", ...)] when it stores all three. *)
Definition scan_banner (cp : list Z) : option (Z * Z * list Z) :=
  match cp with
  | 83 :: 83 :: 72 :: 45 :: s =>
      match scan_int s with
      | Some (major, 46 :: s) =>
          match scan_int s with
          | Some (minor, 45 :: s) =>
              match span_to 10 s with [] => None | v => Some (major, minor, v) end
          | _ => None
          end
      | _ => None
      end
  | _ => None
  end.

(** The callback that checks a host key. *)
Inductive verifier (K : Type) : Type := V_NULL | V_registered | V_callback (f : K -> Z).
Arguments V_NULL {K}.
Arguments V_registered {K}.
Arguments V_callback {K}.

Section Api.
Context {V M U Zs K : Type} `{EVP V} `{EVP_MD M} `{UMAC U} `{ZLIB Zs} `{SSHKEY K}.
Implicit Types E : penv.
Abbreviation ssh := (ssh (V := V) (M := M) (U := U) (Zs := Zs) (K := K)).
Abbreviation KM := (KM (V := V) (M := M) (U := U) (Zs := Zs) (K := K)).

(** [struct ssh] with the registered keys and [kex->verify_host_key]. *)
Record api : Type := mk_api { ap_ssh : ssh; ap_public_keys : list K; ap_private_keys : list K; ap_verify : verifier K }.
Definition AM (A : Type) : Type := ST api A.

Definition on_ssh {A} (m : KM A) : AM A := fun a =>
  let '(r, x) := m (ap_ssh a) in (r, mk_api x (ap_public_keys a) (ap_private_keys a) (ap_verify a)).
Definition on_sess {A} (m : PM V M U Zs A) : AM A := on_ssh (on_state m).
Definition set_ap_public_keys (l : list K) (a : api) : api := mk_api (ap_ssh a) l (ap_private_keys a) (ap_verify a).
Definition set_ap_private_keys (l : list K) (a : api) : api := mk_api (ap_ssh a) (ap_public_keys a) l (ap_verify a).
Definition set_ap_verify (v : verifier K) (a : api) : api := mk_api (ap_ssh a) (ap_public_keys a) (ap_private_keys a) v.

(** ** Host keys *)

Definition ssh_host_key_in (l : list K) (type nid : Z) : option K :=
  List.find (fun k => (key_type k =? type) && (negb (type =? KEY_ECDSA) || (key_ecdsa_nid k =? nid))) l.
Definition ssh_host_public_key (a : api) (type nid : Z) : option K := ssh_host_key_in (ap_public_keys a) type nid.
Definition ssh_host_private_key (a : api) (type nid : Z) : option K := ssh_host_key_in (ap_private_keys a) type nid.

Definition ssh_verify_host_key (a : api) (hostkey : K) : Z :=
  if existsb (sshkey_equal_public hostkey) (ap_public_keys a) then 0 else -1.

Definition ssh_host_key_sign (compat : Z) (privkey : option K) (pubkey : K) (data : list Z) (alg : option (list Z)) : res (list Z) :=
  sshkey_sign privkey data alg compat.

(** The pointers that [ssh_init] sets. *)
Definition api_hooks (a : api) : kex_hooks K :=
  if kn_server (ssh_neg (ap_ssh a)) then
    mk_kex_hooks _ None (Some (ssh_host_public_key a)) (Some (ssh_host_private_key a)) ssh_host_key_sign
  else
    mk_kex_hooks _ (match ap_verify a with V_NULL => None | V_registered => Some (ssh_verify_host_key a) | V_callback f => Some f end)
      None None ssh_host_key_sign.

Definition ssh_add_hostkey E (key : K) : AM unit :=
  let! a := get in
  if kn_server (ssh_neg (ap_ssh a)) then
    let! pubkey := reads (fun _ => sshkey_from_private key) in
    if pe_np E =? 0 then fail SSH_ERR_ALLOC_FAIL
    else
      do! put (set_ap_private_keys (ap_private_keys a ++ [key]) a) ;;
      fun a => (Ok tt, set_ap_public_keys (ap_public_keys a ++ [pubkey]) a)
  else if pe_np E =? 0 then fail SSH_ERR_ALLOC_FAIL
  else put (set_ap_public_keys (ap_public_keys a ++ [key]) a).

Definition ssh_set_verify_host_key_callback (cb : option (K -> Z)) : AM unit :=
  let! a := get in
  match cb, s_kex (ssh_state (ap_ssh a)) with
  | Some f, Some _ => put (set_ap_verify (V_callback f) a)
  | _, _ => fail SSH_ERR_INVALID_ARGUMENT
  end.

(** The algorithms of a proposal that a registered key can use. *)
Definition usable (alg : list Z) (k : K) : bool :=
  let ktype := sshkey_type_from_name alg in
  ((key_type k =? ktype) || (sshkey_type_is_cert (key_type k) && (key_type k =? sshkey_type_plain ktype))) &&
  negb ((sshkey_type_plain (key_type k) =? KEY_ECDSA) && negb (key_ecdsa_nid k =? sshkey_ecdsa_nid_from_name alg)).

Fixpoint usable_algs (keys : list K) (items : list (list Z)) (maxlen : Z) (replace : list Z) : list Z :=
  match items with
  | [] | [] :: _ => replace
  | alg :: items =>
      usable_algs keys items maxlen
        (if negb (sshkey_type_from_name alg =? KEY_UNSPEC) && existsb (usable alg) keys then
           strlcat (match replace with [] => replace | _ => strlcat replace [c_comma] maxlen end) alg maxlen
         else replace)
  end.

Definition ssh_order_hostkeyalgs E : AM unit :=
  let! a := get in
  let! k := on_sess the_kex in
  let! p := reads (fun _ => kex_buf2prop (pe_np E) (kx_my k)) in
  let proposal := fst p in
  let orig := default [] (proposal !! PROPOSAL_SERVER_HOST_KEY_ALGS) in
  if pe_np E =? 0 then fail SSH_ERR_ALLOC_FAIL
  else
    match usable_algs (ap_public_keys a) (split_on c_comma orig) (zlen orig + 1) [] with
    | [] => ret tt
    | replace =>
        let '(r, my) := kex_prop2buf (pe_np E) (<[PROPOSAL_SERVER_HOST_KEY_ALGS := replace]> proposal) (kx_my k) in
        do! on_sess (upd_kex (set_kx_my my)) ;; reads (fun _ => r)
    end.

(** ** Banners *)

(** How reading lines ends. *)
Inductive banner_end : Type := B_more | B_bad | B_line (j : Z).

(** The inner loop: [s] is what is left of the input from [j] on. *)
Fixpoint banner_line E (s : list Z) (j : Z) (expect_nl : bool) : ST sshbuf (banner_end * list Z) :=
  match s with
  | [] => ret (B_more, [])
  | c :: s =>
      if c =? 13 then banner_line E s (j + 1) true
      else if c =? 10 then ret (B_line (j + 1), s)
      else if expect_nl then ret (B_bad, s)
      else
        do! sshbuf_put_u8 (pe_np E) c ;;
        let! n := reads sshbuf_len in
        if SSH_MAX_BANNER_LEN <? n then ret (B_bad, s) else banner_line E s (j + 1) false
  end.

(** The outer loop, one round for each line. *)
Fixpoint banner_lines E (fuel : nat) (server : bool) (s : list Z) (j n : Z) : ST sshbuf banner_end :=
  match fuel with
  | O => crash
  | S fuel =>
      do! ignore (sshbuf_reset (pe_np E)) ;;
      let! e := banner_line E s j false in
      match e with
      | (B_line j, s) =>
          let! l := reads buf_bytes in
          if (4 <=? zlen l) && streq (ztake 4 l) (str "SSH-") then ret (B_line j)
          else if server || (SSH_MAX_PRE_BANNER_LINES <? n + 1) then ret B_bad
          else banner_lines E fuel server s j (n + 1)
      | (e, _) => ret e
      end
  end.

(** [kex->server_version] or [kex->client_version] *)
Definition on_version {A} (server : bool) (m : ST sshbuf A) : KM A := fun x =>
  let n := ssh_neg x in
  if server then let '(r, b) := m (kn_server_version n) in (r, set_neg (set_kn_server_version b n) x)
  else let '(r, b) := m (kn_client_version n) in (r, set_neg (set_kn_client_version b n) x).

(** Read the version of the [server], or of the client, from the input. *)
Definition ssh_read_banner E (server : bool) : KM unit :=
  let! s := on_state (on_input (reads buf_bytes)) in
  let! x := get in
  let! e := on_version server (banner_lines E (S (length s)) (kn_server (ssh_neg x)) s 0 0) in
  match e with
  | B_more => ret tt
  | B_bad =>
      do! on_state (on_output (sshbuf_put (pe_np E) (str "Protocol mismatch." ++ CRLF))) ;; fail SSH_ERR_NO_PROTOCOL_VERSION
  | B_line j =>
      do! on_state (on_input (sshbuf_consume j)) ;;
      let! cp := on_version server (reads (sshbuf_dup_string (pe_np E))) in
      match cp with
      | None => fail SSH_ERR_ALLOC_FAIL
      | Some cp =>
          match scan_banner cp with
          | None => fail SSH_ERR_INVALID_FORMAT
          | Some (major, minor, version) =>
              let! c := reads (fun _ => compat_banner version) in
              do! change (set_compat c) ;;
              let major := if (major =? 1) && (minor =? 99) then 2 else major in
              if negb (major =? 2) then fail SSH_ERR_PROTOCOL_MISMATCH else ret tt
          end
      end
  end.

(** Send our version as the [server], or as the client. *)
Definition ssh_send_banner E (server : bool) : KM unit :=
  let t := str "SSH-2.0-" ++ ztake 100 SSH_VERSION ++ CRLF in
  do! on_version server (sshbuf_putfv (pe_np E) (Some t) (Some t)) ;;
  let! banner := on_version server get in
  do! on_state (on_output (sshbuf_putb (pe_np E) (Some banner))) ;;
  do! on_version server (sshbuf_consume_end 2) ;;
  let! cp := on_version server (reads (sshbuf_dup_string (pe_np E))) in
  match cp with None => fail SSH_ERR_ALLOC_FAIL | Some _ => ret tt end.

Definition version_len (server : bool) : KM Z := on_version server (reads sshbuf_len).

Definition ssh_exchange_banner E : AM unit :=
  let! a := get in
  let! s := on_ssh (version_len true) in
  do! on_ssh (if kn_server (ssh_neg (ap_ssh a)) then
                do! (if s =? 0 then ssh_send_banner E true else ret tt) ;;
                let! s := version_len true in
                let! c := version_len false in
                if negb (s =? 0) && (c =? 0) then ssh_read_banner E false else ret tt
              else
                do! (if s =? 0 then ssh_read_banner E true else ret tt) ;;
                let! s := version_len true in
                let! c := version_len false in
                if negb (s =? 0) && (c =? 0) then ssh_send_banner E false else ret tt) ;;
  let! s := on_ssh (version_len true) in
  let! c := on_ssh (version_len false) in
  if negb (s =? 0) && negb (c =? 0) then do! ssh_order_hostkeyalgs E ;; on_sess (kex_send_kexinit E) else ret tt.

(** ** Input and output *)

Definition ssh_input_append E (data : list Z) : AM unit := on_sess (on_input (sshbuf_put (pe_np E) data)).

Definition ssh_packet_payload : AM (list Z) := on_sess sshpkt_ptr.
Definition ssh_packet_put E (type : Z) (data : list Z) : AM unit :=
  on_sess (do! sshpkt_start E type ;; do! sshpkt_put E data ;; sshpkt_send E).

(** The bytes rather than where they are. *)
Definition ssh_output_ptr : AM (list Z) := on_sess (on_output (reads buf_bytes)).
Definition ssh_output_consume (len : Z) : AM unit := on_sess (on_output (sshbuf_consume len)).
Definition has_space (len : Z) (b : sshbuf) : bool := match sshbuf_check_reserve b len with Ok _ => true | _ => false end.
Definition ssh_output_space (a : api) (len : Z) : bool := has_space len (s_output (ssh_state (ap_ssh a))).
Definition ssh_input_space (a : api) (len : Z) : bool := has_space len (s_input (ssh_state (ap_ssh a))).

(** ** The loop over packets *)

Section Next.
Context (kems : Z -> kem) (gex : KM unit) (other : Z -> Z -> Z -> KM unit).

Fixpoint next_loop E (fuel : nat) : AM Z :=
  match fuel with
  | O => crash
  | S fuel =>
      let! x := on_sess (ssh_packet_read_poll2 E) in
      let '(type, seqnr) := x in
      let! h := on_ssh (handler_of type) in
      match (if (SSH2_MSG_KEXINIT <=? type) && (type <=? SSH2_MSG_TRANSPORT_MAX) then h else None) with
      | Some h => let! a := get in do! on_ssh (call_handler E kems (api_hooks a) gex other h type seqnr) ;; next_loop E fuel
      | None => ret type
      end
  end.

(** Every packet takes at least a byte of the input. *)
Definition ssh_packet_next E : AM Z :=
  let! c := on_ssh (version_len false) in
  let! s := on_ssh (version_len true) in
  if (c =? 0) || (s =? 0) then do! ssh_exchange_banner E ;; ret SSH_MSG_NONE
  else let! n := on_sess (on_input blen) in next_loop E (S (Z.to_nat n)).
End Next.

(** ** Making a connection *)

Definition kex_new (np : Z) : option (kexneg K) :=
  match sshbuf_new np np with
  | None => None
  | Some b =>
      Some (mk_kexneg 0 0 false None None 0 0 0 None false false 0 b b b b None None 0 0 None
              (replicate (Z.to_nat CURVE25519_SIZE) 0) [] None)
  end.

(** [z] is a zeroed compression stream; [params] is [kex_params->proposal]. *)
Definition ssh_init E (z : Zs) (is_server : bool) (params : option (list (list Z))) : res api :=
  match ssh_alloc_session_state (pe_np E) z, kex_new (pe_np E) with
  | Some st, Some n =>
      let x := mk_ssh st n (replicate (Z.to_nat DISPATCH_MAX) H_NULL) 0 0 in
      match on_state (ssh_packet_set_connection E) x with
      | (Ok _, x) =>
          let proposal := default KEX_CLIENT params in
          let m :=
            do! (if is_server then ssh_packet_set_server else ret tt) ;;
            let! populated := kex_proposal_populate_entries E (proposal !! PROPOSAL_KEX_ALGS) (proposal !! PROPOSAL_ENC_ALGS_CTOS)
                                (proposal !! PROPOSAL_MAC_ALGS_CTOS) (proposal !! PROPOSAL_COMP_ALGS_CTOS)
                                (proposal !! PROPOSAL_SERVER_HOST_KEY_ALGS) in
            do! kex_ready E populated ;;
            upd_neg (set_kn_server is_server) in
          match m x with
          | (Ok _, x) => Ok (mk_api x [] [] (if is_server then V_NULL else V_registered))
          | (Err e, _) => Err e
          | (Crash, _) => Crash
          end
      | (Err _, _) => Err SSH_ERR_ALLOC_FAIL
      | (Crash, _) => Crash
      end
  | _, _ => Err SSH_ERR_ALLOC_FAIL
  end.
End Api.
