(* ===== verification/KexProp.v ===== *)
(** * Proposals as bytes

    [kex_prop2buf] and [kex_buf2prop] against a grammar of KEXINIT payloads: the
    parser is the same function of the bytes for every buffer that holds them,
    and it reads back what the printer wrote. *)
From S2P Require Import Prelude Sshbuf SshbufGetput SshbufSpec CString SshbufMisc Words Chacha ChachaPoly Cipher Hmac Mac PacketState Packet PacketBuf Codec Match SshkeyNames KexNames Kex.

(** A string that C code takes to its first NUL. *)
Definition plain (s : list Z) : Prop := no_nul s /\ Forall is_byte s.

Fixpoint parse_strings (n : nat) (l : list Z) : res (list (list Z) * list Z) :=
  match n with
  | O => Ok ([], l)
  | S n =>
      let? k := string_len l in
      let v := ztake k (zdrop 4 l) in
      if inner_nul v then Err SSH_ERR_INVALID_FORMAT
      else let? r := parse_strings n (zdrop (k + 4) l) in Ok (span_to 0 v :: fst r, snd r)
  end.

(** The payload of KEXINIT: a cookie, ten name lists, a flag and a number. *)
Definition parse_prop (l : list Z) : res (list (list Z) * Z) :=
  if zlen l <? KEX_COOKIE_LEN then Err SSH_ERR_MESSAGE_INCOMPLETE
  else
    let? r := parse_strings PROPOSAL_MAX (zdrop KEX_COOKIE_LEN l) in
    match snd r with
    | v :: l => if zlen l <? 4 then Err SSH_ERR_MESSAGE_INCOMPLETE else Ok (fst r, v)
    | [] => Err SSH_ERR_MESSAGE_INCOMPLETE
    end.

Definition enc_prop (cookie : list Z) (proposal : list (list Z)) : list Z :=
  cookie ++ concat (enc_string <$> proposal) ++ [0; 0; 0; 0; 0].
(** Before [kex_send_kexinit] draws one. *)
Definition no_cookie : list Z := replicate (Z.to_nat KEX_COOKIE_LEN) 0.

(** ** Parsing *)

Lemma span_to_plain s : no_nul s -> span_to 0 s = s.
Proof. induction 1 as [|c s Hc Hs IH]; [done|]. cbn [span_to]. rewrite (proj2 (Z.eqb_neq c 0) Hc), IH. done. Qed.

Lemma span_to_no_nul s : no_nul (span_to 0 s).
Proof. induction s as [|c s IH]; [constructor|]. cbn [span_to]. destruct (Z.eqb_spec c 0); [constructor|by constructor]. Qed.

Lemma span_to_len c s : zlen (span_to c s) <= zlen s.
Proof. induction s as [|x s IH]; [done|]. cbn [span_to]. destruct (x =? c); rewrite ?zlen_cons, ?zlen_nil; pose proof (zlen_nonneg s); lia. Qed.

Lemma get_strings_spec np n b : sshbuf_wf b -> np <> 0 ->
  exists b', get_strings np n b = ((let? r := parse_strings n (contents b) in Ok (fst r)), b') /\
    forall r, parse_strings n (contents b) = Ok r -> sshbuf_wf b' /\ contents b' = snd r.
Proof.
  intros W Hnp. revert b W. induction n as [|n IH]; intros b W; cbn [get_strings parse_strings].
  { exists b. split; [done|]. by intros r [= <-]. }
  pose proof (sshbuf_get_cstring_spec np b W) as D. destruct (string_len (contents b)) as [k|e|] eqn:Es; cbn [rbind]; [|..].
  - destruct (inner_nul _) eqn:Ei; [exists b; rewrite (bind_err _ _ _ _ _ D); by split|].
    destruct D as (b1 & W1 & _ & C1 & D). rewrite (proj2 (Z.eqb_neq np 0) Hnp) in D. rewrite (bind_ok _ _ _ _ _ D).
    destruct (IH b1 W1) as (b2 & E2 & H2). rewrite C1 in *. unfold bind at 1. rewrite E2.
    destruct (parse_strings n _) as [r|e|]; cbn [rbind]; [|by eexists..].
    destruct (H2 r eq_refl) as [W2 C2]. exists b2. split; [|by intros ? [= <-]].
    unfold ret, cstr_of. cbn [fst]. by rewrite span_to_sent.
  - exists b. rewrite (bind_err _ _ _ _ _ D). by split.
  - done.
Qed.

Lemma prop_view_wf np b : sshbuf_wf b -> 0 < np -> 0 < sb_cd b ->
  exists v, sshbuf_view np b = Ok (Some v) /\ sshbuf_wf v /\ contents v = contents b.
Proof.
  intros W Hnp Hcd. unfold sshbuf_view. rewrite wf_sane, buf_bytes_wf by done. cbn [rbind].
  pose proof (contents_len b W) as L. wf_facts W. replace (sb_size b - sb_off b) with (zlen (contents b)) by lia.
  destruct (sshbuf_from np (sb_cd b + sb_off b) (contents b) (zlen (contents b))) as [v|] eqn:Ev.
  - exists v. split; [done|]. destruct (from_wf _ _ _ _ Ev) as (? & ? & _); [done|lia|by apply contents_bytes|done].
  - exfalso. unfold sshbuf_from in Ev. sb_consts.
    by rewrite (proj2 (Z.eqb_neq (sb_cd b + sb_off b) 0)), (proj2 (Z.eqb_neq np 0)), (proj2 (Z.ltb_ge _ _)) in Ev by lia.
Qed.

Lemma buf2prop_spec np raw : sshbuf_wf raw -> 0 < np -> 0 < sb_cd raw -> kex_buf2prop np raw = parse_prop (contents raw).
Proof.
  intros W Hnp Hcd. destruct (prop_view_wf np raw W Hnp Hcd) as (v & Ev & Wv & Cv).
  unfold kex_buf2prop, parse_prop. rewrite (proj2 (Z.eqb_neq np 0)) by lia. rewrite Ev. cbn [rbind].
  destruct (sshbuf_consume_spec KEX_COOKIE_LEN v Wv ltac:(done)) as [(Hs & E)|(Hs & b1 & E & W1 & F1 & C1 & _)].
  - rewrite (bind_err _ _ _ _ _ E). rewrite Cv in Hs. by rewrite (proj2 (Z.ltb_lt _ _)).
  - rewrite (bind_ok _ _ _ _ _ E). rewrite Cv in Hs. rewrite (proj2 (Z.ltb_ge _ _)) by done.
    destruct (get_strings_spec np PROPOSAL_MAX b1 W1 ltac:(lia)) as (b2 & E2 & H2). rewrite C1, Cv in *. unfold bind at 1. rewrite E2.
    destruct (parse_strings PROPOSAL_MAX _) as [r|e|]; cbn [rbind]; [|done..].
    destruct (H2 r eq_refl) as [W2 C2]. pose proof (sshbuf_get_u8_spec b2 W2) as R8. rewrite <- C2. unfold bind at 1.
    destruct R8 as [Hz|b3 Hz W3 F3 C3].
    + destruct (contents b2) as [|c l] eqn:Ec; [done|]. pose proof (zlen_nonneg l). zl.
    + destruct (contents b2) as [|c l] eqn:Ec; [zl|]. pose proof (sshbuf_get_u32_spec b3 W3) as R4. unfold bind.
      assert (C3' : contents b3 = l) by (rewrite C3; reflexivity).
      destruct R4 as [Hq|b4 Hq W4 F4 C4]; rewrite C3' in Hq.
      * by rewrite (proj2 (Z.ltb_lt _ _)).
      * rewrite (proj2 (Z.ltb_ge _ _)) by done.
        change (be (ztake 1 (c :: l))) with (c * 1 + 0). by rewrite Z.mul_1_r, Z.add_0_r.
Qed.

(** What the parser returns. *)
Lemma parse_strings_plain n l r : parse_strings n l = Ok r -> Forall is_byte l ->
  length (fst r) = n /\ Forall (fun s => plain s /\ zlen s <= zlen l) (fst r).
Proof.
  revert l r. induction n as [|n IH]; intros l r; cbn [parse_strings]; [intros [= <-] _; by split|].
  destruct (string_len l) as [k|e|] eqn:Es; cbn [rbind]; [|done..]. destruct (inner_nul _); [done|].
  destruct (parse_strings n _) as [r'|e|] eqn:Ep; cbn [rbind]; [|done..]. intros [= <-] Hb.
  destruct (string_len_ok l k Es Hb) as [Hk Hk']. destruct (IH _ _ Ep) as [Hl Hf]; [by apply Forall_zdrop|].
  cbn [fst]. split; [cbn; lia|]. constructor.
  - split; [split; [apply span_to_no_nul|]|].
    + assert (Hv : Forall is_byte (ztake k (zdrop 4 l))) by (by apply Forall_ztake, Forall_zdrop).
      clear -Hv. induction Hv as [|c v Hc Hv IHv]; [constructor|]. cbn [span_to]. destruct (c =? 0); by constructor.
    + pose proof (span_to_len 0 (ztake k (zdrop 4 l))). pose proof (zlen_nonneg l). zl.
  - eapply Forall_impl; [exact Hf|]. cbn. intros s [Hs Hz]. split; [done|]. pose proof (zlen_nonneg l). zl.
Qed.

Lemma parse_prop_plain l p f : parse_prop l = Ok (p, f) -> Forall is_byte l ->
  length p = PROPOSAL_MAX /\ Forall (fun s => plain s /\ zlen s <= zlen l) p.
Proof.
  unfold parse_prop. destruct (zlen l <? KEX_COOKIE_LEN) eqn:Hc; [done|].
  destruct (parse_strings _ _) as [[p' l']|e|] eqn:Ep; cbn [rbind fst snd]; [|done..].
  intros E Hb. destruct (parse_strings_plain _ _ _ Ep) as [Hl Hf]; [by apply Forall_zdrop|]. cbn [fst] in *.
  destruct l' as [|v l']; [done|]. destruct (zlen l' <? 4); [done|]. injection E as <- <-. split; [done|].
  eapply Forall_impl; [exact Hf|]. cbn. intros s [Hs Hz]. split; [done|]. pose proof (zlen_nonneg l). zl.
Qed.

(** ** Printing *)

Lemma parse_enc_strings p rest : Forall plain p -> Forall (fun s => zlen s <= SSHBUF_SIZE_MAX - 4) p ->
  parse_strings (length p) (concat (enc_string <$> p) ++ rest) = Ok (p, rest).
Proof.
  induction p as [|s p IH]; intros Hp Hl; [done|]. apply Forall_cons in Hp as [[Hn Hb] Hp]. apply Forall_cons in Hl as [Hs Hl].
  cbn [length parse_strings fmap list_fmap concat]. rewrite <- app_assoc.
  rewrite string_len_enc by lia. cbn [rbind]. rewrite enc_string_take, enc_string_drop.
  rewrite no_nul_inner. 2:{ intros Hin. unfold no_nul in Hn. rewrite Forall_forall in Hn. by apply (Hn 0). }
  rewrite IH by done. cbn [rbind fst snd]. by rewrite span_to_plain.
Qed.

(** A proposal that can be sent. *)
Definition sendable (p : list (list Z)) : Prop :=
  length p = PROPOSAL_MAX /\ Forall plain p /\ zlen (enc_prop no_cookie p) <= SSHBUF_SIZE_MAX.

Lemma concat_enc_len p s : s ∈ p -> zlen s + 4 <= zlen (concat (enc_string <$> p)).
Proof.
  induction p as [|x p IH]; [by intros ?%not_elem_of_nil|]. rewrite fmap_cons. cbn [concat].
  rewrite elem_of_cons, zlen_app, enc_string_len. pose proof (zlen_nonneg x). pose proof (zlen_nonneg (concat (enc_string <$> p))).
  intros [->|Hs]; [lia|]. specialize (IH Hs). lia.
Qed.

Lemma sendable_lens p : sendable p -> Forall (fun s => zlen s <= SSHBUF_SIZE_MAX - 4) p.
Proof.
  intros (_ & _ & Hl). apply Forall_forall. intros s Hs. apply concat_enc_len in Hs. unfold enc_prop in Hl.
  rewrite !zlen_app in Hl. change (zlen no_cookie) with 16 in Hl. change (zlen [0; 0; 0; 0; 0]) with 5 in Hl. lia.
Qed.

Lemma parse_enc_prop cookie p : sendable p -> zlen cookie = KEX_COOKIE_LEN -> parse_prop (enc_prop cookie p) = Ok (p, 0).
Proof.
  intros Hs Hz. pose proof (sendable_lens p Hs) as Hl. destruct Hs as (Hn & Hp & _). unfold parse_prop, enc_prop.
  pose proof (zlen_nonneg (concat (enc_string <$> p) ++ [0; 0; 0; 0; 0])).
  rewrite zlen_app, Hz, (proj2 (Z.ltb_ge _ _)) by lia. rewrite zdrop_app_ge, Hz, Z.sub_diag, zdrop_0 by (rewrite ?Hz; done || lia).
  rewrite <- Hn, parse_enc_strings by done. done.
Qed.

Lemma pb_put_all {A} np (put1 : A -> ST sshbuf unit) (f : A -> field) xs b l : (forall x, put1 x = put_field np (f x)) ->
  pbuf b l -> np <> 0 -> Forall (fun x => field_ok (f x)) xs -> zlen l + zlen (enc_msg (f <$> xs)) <= SSHBUF_SIZE_MAX ->
  exists b', put_all put1 xs b = (Ok tt, b') /\ pbuf b' (l ++ enc_msg (f <$> xs)).
Proof.
  intros Hf P Hnp Hok. revert b l P. induction Hok as [|x xs Hx Hok IH]; intros b l P Hm.
  { exists b. split; [done|]. by rewrite app_nil_r. }
  rewrite fmap_cons in *. change (enc_msg (f x :: (f <$> xs))) with (enc_field (f x) ++ enc_msg (f <$> xs)) in *.
  rewrite zlen_app in Hm. pose proof (zlen_nonneg (enc_msg (f <$> xs))).
  destruct (pb_field np (f x) b l P Hnp Hx ltac:(lia)) as (b1 & E1 & P1). cbn [put_all]. rewrite Hf, (bind_ok _ _ _ _ _ E1).
  destruct (IH b1 _ P1) as (b2 & E2 & P2); [rewrite zlen_app; lia|]. exists b2. by rewrite app_assoc.
Qed.

Lemma prop2buf_spec np p b l : pbuf b l -> np <> 0 -> sendable p ->
  exists b', kex_prop2buf np p b = (Ok tt, b') /\ pbuf b' (enc_prop no_cookie p).
Proof.
  intros P Hnp (_ & Hp & Hmax). destruct (pb_reset np b l P) as (b1 & E1 & P1). unfold kex_prop2buf. rewrite (bind_ok _ _ _ _ _ E1).
  unfold enc_prop in *. rewrite !zlen_app in Hmax. change (zlen [0; 0; 0; 0; 0]) with 5 in Hmax. change (zlen no_cookie) with 16 in Hmax.
  pose proof (zlen_nonneg (concat (enc_string <$> p))).
  destruct (pb_put_all np (sshbuf_put_u8 np) FU8 (replicate (Z.to_nat KEX_COOKIE_LEN) 0) b1 []) as (b2 & E2 & P2);
    [done|done|done|by apply Forall_replicate|done|]. rewrite (bind_ok _ _ _ _ _ E2).
  change ([] ++ enc_msg (FU8 <$> replicate (Z.to_nat KEX_COOKIE_LEN) 0)) with no_cookie in P2.
  assert (Ec : enc_msg (FCString <$> p) = concat (enc_string <$> p)) by (unfold enc_msg; by rewrite <- list_fmap_compose).
  destruct (pb_put_all np (fun s => sshbuf_put_cstring np (Some s)) FCString p b2 _ ltac:(done) P2 Hnp) as (b3 & E3 & P3).
  { eapply Forall_impl; [exact Hp|]. intros s [Hn Hb]. split; [done|]. intros Hin. unfold no_nul in Hn. rewrite Forall_forall in Hn. by apply (Hn 0). }
  { rewrite Ec. change (zlen no_cookie) with 16. lia. }
  rewrite (bind_ok _ _ _ _ _ E3). rewrite Ec in P3.
  destruct (pb_field np (FU8 0) b3 _ P3 Hnp ltac:(done)) as (b4 & E4 & P4). { rewrite zlen_app. cbn [enc_field]. change (zlen [u8 0]) with 1. change (zlen no_cookie) with 16. lia. }
  rewrite (bind_ok _ _ _ _ _ E4). destruct (pb_field np (FU32 0) b4 _ P4 Hnp ltac:(done)) as (b5 & E5 & P5).
  { rewrite !zlen_app. cbn [enc_field]. change (zlen [u8 0]) with 1. change (zlen (POKE_U32 0)) with 4. change (zlen no_cookie) with 16. lia. }
  exists b5. split; [exact E5|]. cbn [enc_field] in P5. rewrite <- !app_assoc in P5. exact P5.
Qed.

(** C37. A proposal survives the wire: written with [kex_prop2buf], with any cookie
    put over its first 16 bytes as [kex_send_kexinit] does, and read with
    [kex_buf2prop] from any buffer that holds these bytes, ten name lists come
    back as they were, with no guess announced. *)
Theorem proposal_roundtrip np np' p b l cookie raw :
  pbuf b l -> np <> 0 -> sendable p -> 0 < np' -> zlen cookie = KEX_COOKIE_LEN ->
  exists b', kex_prop2buf np p b = (Ok tt, b') /\
    (sshbuf_wf raw -> 0 < sb_cd raw -> contents raw = cookie ++ zdrop KEX_COOKIE_LEN (contents b') ->
     kex_buf2prop np' raw = Ok (p, 0)).
Proof.
  intros P Hnp Hs Hnp' Hk. destruct (prop2buf_spec np p b l P Hnp Hs) as (b' & E & P'). exists b'. split; [done|].
  intros W Hcd C. rewrite buf2prop_spec by done. rewrite C, (pb_data _ _ P'). by apply (parse_enc_prop cookie).
Qed.
