(* ===== verification/KexDemo.v ===== *)
(** * Two ends with concrete primitives

    A client and a server that hold each other's proposal, over the stand-ins for
    libcrypto and zlib of the packet layer and keys that are numbers, to run the
    key exchange on. *)
From S2P Require Import Prelude Sshbuf SshbufGetput SshbufSpec CString SshbufMisc Words Chacha ChachaPoly Cipher Hmac Mac PacketState Packet PacketBuf PacketSend PacketLink Match SshkeyNames KexNames Kex KexProp.

Module KexDemo.
Import LinkDemo.

Definition np : Z := 1.
Definition proposal : list (list Z) :=
  [str "curve25519-sha256,diffie-hellman-group14-sha256"; str "ssh-ed25519"; str "aes128-ctr"; str "chacha20-poly1305@openssh.com";
   str "hmac-sha2-256"; str "umac-64-etm@openssh.com"; str "none,zlib@openssh.com"; str "none"; []; []].
(** The server's. *)
Definition proposal' : list (list Z) :=
  [str "diffie-hellman-group14-sha256"; str "rsa-sha2-512,ssh-ed25519"; str "chacha20-poly1305@openssh.com,aes128-ctr";
   str "chacha20-poly1305@openssh.com"; str "umac-64-etm@openssh.com,hmac-sha2-256"; str "hmac-sha2-256"; str "none"; str "none"; []; []].

Definition empty : sshbuf := Eval vm_compute in
  match sshbuf_new 1 1 as o return match o with Some _ => sshbuf | None => unit end with Some b => b | None => tt end.
Lemma empty_pbuf : pbuf empty [].
Proof. by apply (pbuf_new 1). Qed.

Definition filled (p : list (list Z)) : sshbuf := snd (kex_prop2buf np p empty).

Lemma plain_str (l : list (list Z)) : forallb (fun s => forallb (fun c => (1 <=? c) && (c <? 256)) s) l = true -> Forall plain l.
Proof.
  intros Hl. apply Forall_forall. intros s Hs. apply list_elem_of_In in Hs. rewrite forallb_forall in Hl. specialize (Hl s Hs).
  rewrite forallb_forall in Hl. split; apply Forall_forall; intros c Hc; apply list_elem_of_In, Hl in Hc; unfold is_byte; zbool; lia.
Qed.

Lemma proposals_sendable : sendable proposal /\ sendable proposal'.
Proof. split; (split; [done|]; split; [by apply plain_str|by vm_compute]). Qed.

Lemma filled_pbuf p : sendable p -> pbuf (filled p) (enc_prop no_cookie p).
Proof. intros Hs. destruct (prop2buf_spec np p empty [] empty_pbuf ltac:(done) Hs) as (b & Eb & Pb). unfold filled. by rewrite Eb. Qed.

(** An end before its choice. *)
Abbreviation ssh := (ssh (V := ctx) (M := Z * list Z) (U := list Z * list Z) (Zs := unit) (K := Z)).
Definition end_of (server : bool) : ssh :=
  let mine := if server then proposal' else proposal in
  let theirs := if server then proposal else proposal' in
  mk_ssh (set_kex (Some (mk_kex None None false KEX_INITIAL false (filled mine))) (set_server_side server fresh))
    (mk_kexneg 0 0 server None None 0 0 0 None false false 0 (filled theirs) empty empty empty None None 0 0 None [] [] None)
    [] 0 0.
End KexDemo.

(** A proposal comes back from the wire. *)
Lemma proposal_roundtrip_witness : exists b', kex_prop2buf 1 KexDemo.proposal KexDemo.empty = (Ok tt, b') /\ kex_buf2prop 1 b' = Ok (KexDemo.proposal, 0).
Proof.
  destruct (proposal_roundtrip 1 1 KexDemo.proposal KexDemo.empty [] no_cookie (KexDemo.filled KexDemo.proposal) KexDemo.empty_pbuf ltac:(done)
    (proj1 KexDemo.proposals_sendable) ltac:(done) eq_refl) as (b' & Eb & Hb).
  exists b'. split; [done|]. pose proof (KexDemo.filled_pbuf _ (proj1 KexDemo.proposals_sendable)) as P.
  assert (KexDemo.filled KexDemo.proposal = b') as <- by (unfold KexDemo.filled; change KexDemo.np with 1; by rewrite Eb).
  apply Hb; [apply P|by vm_compute|]. by rewrite (pb_data _ _ P).
Defined.
