(* ===== verification/KexAgree.v ===== *)
(** * Both ends of a key exchange agree

    The choice of algorithms as a function of the two proposals, the keys as a
    function of the secret, the hash and the session identifier, and the
    properties that follow: two ends that saw the same proposals choose the same
    algorithms, derive the same keys, crosswise, and end with keys under which
    the packets of one are those the other accepts. *)
From S2P Require Import Prelude Sshbuf SshbufGetput SshbufSpec CString SshbufMisc Words Chacha ChachaPoly Cipher Hmac Mac PacketState Packet PacketBuf Match SshkeyNames KexNames Kex PacketSend PacketLink KexProp KexDemo.

Lemma bind_pure {S A B} (a : A) (k : A -> ST S B) s : bind (reads (fun _ => Ok a)) k s = k a s.
Proof. done. Qed.

Section Choice.
Context {V M U Zs K : Type} `{EVP V} `{EVP_MD M} `{UMAC U} `{ZLIB Zs}.
Implicit Types E : penv.
Abbreviation ssh := (ssh (V := V) (M := M) (U := U) (Zs := Zs) (K := K)).
Abbreviation KM := (KM (V := V) (M := M) (U := U) (Zs := Zs) (K := K)).
Implicit Types x y : ssh.

(** ** The choice as a function of the proposals *)

Section Spec.
Context (E : penv) (cprop sprop : list (list Z)).
Let c (i : nat) : list Z := default [] (cprop !! i).
Let s (i : nat) : list Z := default [] (sprop !! i).

(** The keys of one direction, from the lists of ciphers, MACs and compressions. *)
Definition keys_from (ec es mc ms cc cs : list Z) : res (newkeys M U) :=
  let? enc := choose_enc ec es in
  let? mac := (if cipher_authlen (enc_cipher enc) =? 0 then
                 let? _ := fst (choose_mac E mc ms (no_mac (M := M) (U := U))) in Ok (snd (choose_mac E mc ms no_mac))
               else Ok no_mac) in
  let? type := choose_comp cc cs in
  Ok (mk_newkeys enc mac (mk_sshcomp type false)).

Definition keys_of (ctos : bool) : res (newkeys M U) :=
  let nenc := if ctos then PROPOSAL_ENC_ALGS_CTOS else PROPOSAL_ENC_ALGS_STOC in
  let nmac := if ctos then PROPOSAL_MAC_ALGS_CTOS else PROPOSAL_MAC_ALGS_STOC in
  let ncomp := if ctos then PROPOSAL_COMP_ALGS_CTOS else PROPOSAL_COMP_ALGS_STOC in
  keys_from (c nenc) (s nenc) (c nmac) (s nmac) (c ncomp) (s ncomp).

Record choice : Type := mk_choice { ch_kex : list Z; ch_hostkey : list Z; ch_ctos : newkeys M U; ch_stoc : newkeys M U }.

Definition negotiate : option choice :=
  match first_match (c PROPOSAL_KEX_ALGS) (s PROPOSAL_KEX_ALGS),
        first_match (c PROPOSAL_SERVER_HOST_KEY_ALGS) (s PROPOSAL_SERVER_HOST_KEY_ALGS), keys_of true, keys_of false with
  | Ok (Some n), Ok (Some h), Ok ctos, Ok stoc =>
      if kex_name_valid n && negb (sshkey_type_from_name h =? KEY_UNSPEC) then Some (mk_choice n h ctos stoc) else None
  | _, _, _, _ => None
  end.
End Spec.

(** ** Steps on the state *)

Definition with_kex (k : kex M U) x : ssh := set_state (set_kex (Some k) (ssh_state x)) x.

Lemma the_kex_ok x k : s_kex (ssh_state x) = Some k -> on_state the_kex x = (Ok k, x).
Proof. intros Hk. unfold on_state, the_kex. rewrite Hk. by destruct x. Qed.

Lemma upd_kex_ok f x k : s_kex (ssh_state x) = Some k -> on_state (upd_kex f) x = (Ok tt, with_kex (f k) x).
Proof. intros Hk. unfold on_state, upd_kex. by rewrite Hk. Qed.

Lemma on_newkeys_ok {A} m (f : ST (newkeys M U) A) x k nk : s_kex (ssh_state x) = Some k -> kx_newkeys m k = Some nk ->
  on_newkeys m f x = (fst (f nk), with_kex (set_kx_newkeys m (Some (snd (f nk))) k) x).
Proof.
  intros Hk Hn. unfold on_newkeys. rewrite (bind_ok _ _ _ _ _ (the_kex_ok x k Hk)), Hn.
  destruct (f nk) as [r nk']. by rewrite (bind_ok _ _ _ _ _ (upd_kex_ok _ x k Hk)).
Qed.

Lemma kx_newkeys_set m (nk : option (newkeys M U)) k : kx_newkeys m (set_kx_newkeys m nk k) = nk.
Proof. by destruct m. Qed.
Lemma set_newkeys_set m (a b : option (newkeys M U)) k : set_kx_newkeys m a (set_kx_newkeys m b k) = set_kx_newkeys m a k.
Proof. by destruct m. Qed.

Lemma on_newkeys_with {A} m (f : ST (newkeys M U) A) x k nk :
  on_newkeys m f (with_kex (set_kx_newkeys m (Some nk) k) x) = (fst (f nk), with_kex (set_kx_newkeys m (Some (snd (f nk))) k) x).
Proof.
  rewrite (on_newkeys_ok m f (with_kex (set_kx_newkeys m (Some nk) k) x) (set_kx_newkeys m (Some nk) k) nk eq_refl (kx_newkeys_set _ _ _)).
  by rewrite set_newkeys_set.
Qed.

(** The result of a step of which only the success matters. *)
Definition fails_as {A} (r : res A) (o : res unit * ssh) : Prop :=
  match r with Ok _ => False | Err e => fst o = Err e | Crash => fst o = Crash end.

Lemma failed_choice_ok peer i (m : KM unit) x x' : m x = (Ok tt, x') -> or_failed_choice peer i m x = (Ok tt, x').
Proof. intros Em. unfold or_failed_choice. by rewrite Em. Qed.
Lemma failed_choice_fails {A} (r : res A) peer i (m : KM unit) x : fails_as r (m x) -> fails_as r (or_failed_choice peer i m x).
Proof. unfold or_failed_choice. destruct r, (m x) as [[] ?]; cbn; done. Qed.
Lemma bind_fails {A} (r : res A) (m : KM unit) k x : fails_as r (m x) -> fails_as r (bind m k x).
Proof. unfold bind. destruct r, (m x) as [[] ?]; cbn; try done; congruence. Qed.

Lemma keys_steps E peer m x k (i j l : nat) ec es mc ms cc cs :
  let run := (do! or_failed_choice peer i (let! enc := reads (fun _ => choose_enc ec es) in on_newkeys m (fun nk => (Ok tt, set_nk_enc enc nk))) ;;
              let! authlen := on_newkeys m (fun nk => (Ok (cipher_authlen (enc_cipher (nk_enc nk))), nk)) in
              do! (if authlen =? 0 then
                     or_failed_choice peer j (on_newkeys m (fun nk => let '(r, mac) := choose_mac E mc ms (nk_mac nk) in (r, set_nk_mac mac nk)))
                   else ret tt) ;;
              or_failed_choice peer l (let! type := reads (fun _ => choose_comp cc cs) in
                on_newkeys m (fun nk => (Ok tt, set_nk_comp (mk_sshcomp type (comp_enabled (nk_comp nk))) nk)))) (with_kex (set_kx_newkeys m (Some no_keys) k) x) in
  match keys_from E ec es mc ms cc cs with
  | Ok nk => run = (Ok tt, with_kex (set_kx_newkeys m (Some nk) k) x)
  | r => fails_as r run
  end.
Proof.
  cbv zeta. unfold keys_from.
  destruct (choose_enc ec es) as [enc|e|]; cbn [rbind]; [|by apply bind_fails, failed_choice_fails..].
  pose (k1 := set_kx_newkeys m (Some (set_nk_enc enc no_keys)) k).
  rewrite (bind_ok _ _ _ tt (with_kex k1 x)) by (apply failed_choice_ok; rewrite bind_pure; apply on_newkeys_with).
  rewrite (bind_ok _ _ _ (cipher_authlen (enc_cipher enc)) (with_kex k1 x)) by apply on_newkeys_with.
  assert (Hcomp : forall mac, match choose_comp cc cs with
    | Ok type => or_failed_choice peer l (let! type := reads (fun _ => choose_comp cc cs) in
        on_newkeys m (fun nk => (Ok tt, set_nk_comp (mk_sshcomp type (comp_enabled (nk_comp nk))) nk)))
        (with_kex (set_kx_newkeys m (Some (mk_newkeys enc mac (mk_sshcomp 0 false))) k) x) =
        (Ok tt, with_kex (set_kx_newkeys m (Some (mk_newkeys enc mac (mk_sshcomp type false))) k) x)
    | r => fails_as r (or_failed_choice peer l (let! type := reads (fun _ => choose_comp cc cs) in
        on_newkeys m (fun nk => (Ok tt, set_nk_comp (mk_sshcomp type (comp_enabled (nk_comp nk))) nk)))
        (with_kex (set_kx_newkeys m (Some (mk_newkeys enc mac (mk_sshcomp 0 false))) k) x)) end).
  { intros mac. destruct (choose_comp cc cs) as [type|e|]; [|by apply failed_choice_fails..].
    apply failed_choice_ok. rewrite bind_pure. apply on_newkeys_with. }
  destruct (cipher_authlen _ =? 0); cbn [rbind].
  - destruct (choose_mac E mc ms no_mac) as [r mac] eqn:Em. cbn [fst snd].
    assert (Hmac : on_newkeys m (fun nk => let '(r, mac) := choose_mac E mc ms (nk_mac nk) in (r, set_nk_mac mac nk)) (with_kex k1 x) =
                   (r, with_kex (set_kx_newkeys m (Some (mk_newkeys enc mac (mk_sshcomp 0 false))) k) x)).
    { unfold k1. rewrite on_newkeys_with. cbn [nk_mac set_nk_enc no_keys]. by rewrite Em. }
    destruct r as [[]|e|]; cbn [rbind].
    + rewrite (bind_ok _ _ _ _ _ (failed_choice_ok _ _ _ _ _ Hmac)). specialize (Hcomp mac). by destruct (choose_comp cc cs).
    + apply bind_fails, failed_choice_fails. by rewrite Hmac.
    + apply bind_fails, failed_choice_fails. by rewrite Hmac.
  - rewrite bind_ret_l. specialize (Hcomp no_mac). by destruct (choose_comp cc cs).
Qed.

Lemma choose_keys_spec E peer cp sp m x k : s_kex (ssh_state x) = Some k -> pe_np E <> 0 ->
  match keys_of E cp sp (is_ctos (kn_server (ssh_neg x)) m) with
  | Ok nk => choose_keys E peer cp sp m x = (Ok tt, with_kex (set_kx_newkeys m (Some nk) k) x)
  | r => fails_as r (choose_keys E peer cp sp m x)
  end.
Proof.
  intros Hk Hnp. unfold choose_keys. rewrite (proj2 (Z.eqb_neq _ _) Hnp), (bind_ok _ _ _ _ _ (upd_kex_ok _ x k Hk)).
  rewrite bind_get. unfold keys_of. cbv zeta. change (ssh_neg (with_kex _ x)) with (ssh_neg x).
  destruct (is_ctos _ m); apply keys_steps.
Qed.

(** ** What a step leaves alone *)

Definition is_initial (k : kex M U) : bool := negb (Z.land (kx_flags k) KEX_INITIAL =? 0).

Record kept x x' : Prop := {
  kept_state : exists k k', s_kex (ssh_state x) = Some k /\ ssh_state x' = set_kex (Some k') (ssh_state x) /\
    kx_my k' = kx_my k /\ kx_done k' = kx_done k /\ is_initial k' = is_initial k;
  kept_dispatch : ssh_dispatch x' = ssh_dispatch x;
  kept_compat : ssh_compat x' = ssh_compat x;
  kept_server : kn_server (ssh_neg x') = kn_server (ssh_neg x);
  kept_peer : kn_peer (ssh_neg x') = kn_peer (ssh_neg x);
  kept_session_id : kn_session_id (ssh_neg x') = kn_session_id (ssh_neg x);
  kept_versions : kn_client_version (ssh_neg x') = kn_client_version (ssh_neg x) /\ kn_server_version (ssh_neg x') = kn_server_version (ssh_neg x);
}.

Lemma kept_same x k : s_kex (ssh_state x) = Some k -> kept x x.
Proof. intros Hk. constructor; try done. exists k, k. split_and!; try done. rewrite <- Hk. by destruct x as [[] ? ? ? ?]. Qed.

Lemma kept_then x y z : kept x y -> kept y z -> kept x z.
Proof.
  intros [(k & k1 & Hk & S1 & M1 & D1 & I1) ? ? ? ? ? [? ?]] [(k2 & k3 & Hk2 & S2 & M2 & D2 & I2) ? ? ? ? ? [? ?]].
  constructor; try congruence; [|split; congruence]. rewrite S1 in Hk2, S2. injection Hk2 as <-.
  exists k, k3. split_and!; [done|exact S2|congruence..].
Qed.

Lemma kept_kex x x' : kept x x' -> exists k', s_kex (ssh_state x') = Some k'.
Proof. intros [(k & k' & _ & -> & _) _ _ _ _ _ _]. by exists k'. Qed.

(** A change of the other members. *)
Lemma kept_neg x k (n : kexneg K) : s_kex (ssh_state x) = Some k ->
  kn_server n = kn_server (ssh_neg x) -> kn_peer n = kn_peer (ssh_neg x) -> kn_session_id n = kn_session_id (ssh_neg x) ->
  kn_client_version n = kn_client_version (ssh_neg x) -> kn_server_version n = kn_server_version (ssh_neg x) -> kept x (set_neg n x).
Proof. intros Hk ? ? ? ? ?. pose proof (kept_same x k Hk) as []. constructor; done. Qed.

Lemma kept_with_kex x k k' : s_kex (ssh_state x) = Some k -> kx_my k' = kx_my k -> kx_done k' = kx_done k -> is_initial k' = is_initial k ->
  kept x (with_kex k' x).
Proof. intros Hk ? ? ?. constructor; try done. by exists k, k'. Qed.

(** ** The signals of the peer *)

Definition matchable (s : list Z) : Prop := no_nul s /\ zlen s < 2 ^ 32.

Lemma first_match_total client server : matchable client -> exists r, first_match client server = Ok r.
Proof.
  intros [Hn Hl]. destruct (match_list_spec client server Hn Hl) as (r & next & Em & _). exists r. unfold first_match. by rewrite Em.
Qed.

Lemma has_any_total client server : matchable client -> exists b, kex_has_any_alg client server = Ok b.
Proof. intros Hm. unfold kex_has_any_alg. destruct (first_match_total client server Hm) as [r ->]. by eexists. Qed.

Lemma signals_ok E peer x k : s_kex (ssh_state x) = Some k -> matchable (default [] (peer !! PROPOSAL_KEX_ALGS)) ->
  exists x', peer_signals E peer 0 x = (Ok tt, x') /\ kept x x'.
Proof.
  intros Hk Hm. unfold peer_signals. rewrite bind_get.
  assert (H1' : exists x1, (if kn_server (ssh_neg x) then let! b := reads (fun _ => kex_has_any_alg (default [] (peer !! PROPOSAL_KEX_ALGS)) (str "ext-info-c")) in upd_neg (set_kn_ext_info_c b)
    else let! b := reads (fun _ => kex_has_any_alg (default [] (peer !! PROPOSAL_KEX_ALGS)) (str "ext-info-s")) in upd_neg (set_kn_ext_info_s b)) x = (Ok tt, x1) /\
    kept x x1 /\ s_kex (ssh_state x1) = Some k).
  { destruct (kn_server (ssh_neg x)).
    - destruct (has_any_total _ (str "ext-info-c") Hm) as [b ->]. rewrite bind_pure. eexists. split; [reflexivity|]. split; [by apply (kept_neg x k)|done].
    - destruct (has_any_total _ (str "ext-info-s") Hm) as [b ->]. rewrite bind_pure. eexists. split; [reflexivity|]. split; [by apply (kept_neg x k)|done]. }
  destruct H1' as (x1 & E1 & K1 & Hk1). rewrite (bind_ok _ _ _ _ _ E1).
  destruct (has_any_total _ (if kn_server (ssh_neg x) then str "kex-strict-c-v00@openssh.com" else str "kex-strict-s-v00@openssh.com") Hm) as [b ->].
  rewrite bind_pure, (bind_ok _ _ _ _ _ (upd_kex_ok _ x1 k Hk1)), andb_false_r. eexists. split; [reflexivity|].
  eapply kept_then; [exact K1|]. by apply (kept_with_kex x1 k).
Qed.

Lemma flag_set_ok f x k : s_kex (ssh_state x) = Some k -> Z.land f KEX_INITIAL = 0 ->
  exists x', kex_flag_set f x = (Ok tt, x') /\ kept x x'.
Proof.
  intros Hk Hf. unfold kex_flag_set. rewrite (upd_kex_ok _ x k Hk). eexists. split; [reflexivity|].
  apply (kept_with_kex x k); [done..|]. unfold is_initial. cbn [kx_flags set_kx_flags]. by rewrite Z.land_lor_distr_l, Hf, Z.lor_0_r.
Qed.

Lemma rsa_ok peer x k : s_kex (ssh_state x) = Some k -> matchable (default [] (peer !! PROPOSAL_SERVER_HOST_KEY_ALGS)) ->
  exists x', client_rsa_sha2 peer x = (Ok tt, x') /\ kept x x'.
Proof.
  intros Hk Hm. unfold client_rsa_sha2.
  assert (Hif : forall (b : bool) f x k, s_kex (ssh_state x) = Some k -> Z.land f KEX_INITIAL = 0 ->
    exists x', (if b then kex_flag_set f else ret tt) x = (Ok tt, x') /\ kept x x').
  { intros [|] f y ky Hy Hf; [by apply (flag_set_ok f y ky)|]. exists y. split; [done|]. by apply (kept_same y ky). }
  destruct (has_any_total _ (str "rsa-sha2-256,rsa-sha2-256-cert-v01@openssh.com") Hm) as [a ->]. rewrite bind_pure.
  destruct (Hif a KEX_RSA_SHA2_256_SUPPORTED x k Hk eq_refl) as (x1 & E1 & K1). rewrite (bind_ok _ _ _ _ _ E1).
  destruct (has_any_total _ (str "rsa-sha2-512,rsa-sha2-512-cert-v01@openssh.com") Hm) as [b ->]. rewrite bind_pure.
  destruct (kept_kex _ _ K1) as [k1 Hk1]. destruct (Hif b KEX_RSA_SHA2_512_SUPPORTED x1 k1 Hk1 eq_refl) as (x2 & E2 & K2).
  exists x2. split; [exact E2|]. by eapply kept_then.
Qed.

(** ** The choice *)

(** The longest key either direction needs. *)
Definition need_of (ch : choice) : Z := Z.max (keys_need (ch_ctos ch) 0) (keys_need (ch_stoc ch) 0).
Definition dh_need_of (ch : choice) : Z := Z.max (keys_dh_need (ch_ctos ch) 0) (keys_dh_need (ch_stoc ch) 0).

Record chosen (ch : choice) x x' : Prop := {
  cs_kept : kept x x';
  cs_keys : exists k', s_kex (ssh_state x') = Some k' /\
    kx_newkeys MODE_IN k' = Some (if kn_server (ssh_neg x) then ch_ctos ch else ch_stoc ch) /\
    kx_newkeys MODE_OUT k' = Some (if kn_server (ssh_neg x) then ch_stoc ch else ch_ctos ch);
  cs_name : kn_name (ssh_neg x') = Some (ch_kex ch);
  cs_type : kn_kex_type (ssh_neg x') = kex_type_from_name (ch_kex ch);
  cs_hash : kn_hash_alg (ssh_neg x') = kex_hash_from_name (ch_kex ch);
  cs_ec_nid : kn_ec_nid (ssh_neg x') = kex_nid_from_name (ch_kex ch);
  cs_hostkey : kn_hostkey_alg (ssh_neg x') = Some (ch_hostkey ch);
  cs_hostkey_type : kn_hostkey_type (ssh_neg x') = sshkey_type_from_name (ch_hostkey ch);
  cs_hostkey_nid : kn_hostkey_nid (ssh_neg x') = sshkey_ecdsa_nid_from_name (ch_hostkey ch);
  cs_need : kn_we_need (ssh_neg x') = need_of ch;
  cs_dh_need : kn_dh_need (ssh_neg x') = dh_need_of ch;
}.

Lemma choose_kex_spec c s x k : s_kex (ssh_state x) = Some k ->
  match first_match c s with
  | Ok (Some n) => if kex_name_valid n then
      exists f, choose_kex c s x = (Ok tt, set_neg (f (ssh_neg x)) x) /\ kept x (set_neg (f (ssh_neg x)) x) /\
        kn_name (f (ssh_neg x)) = Some n /\ kn_kex_type (f (ssh_neg x)) = kex_type_from_name n /\
        kn_hash_alg (f (ssh_neg x)) = kex_hash_from_name n /\ kn_ec_nid (f (ssh_neg x)) = kex_nid_from_name n
      else exists e, fst (choose_kex c s x) = Err e
  | _ => fst (choose_kex c s x) <> Ok tt
  end.
Proof.
  intros Hk. unfold choose_kex. destruct (first_match c s) as [[n|]|e|]; rewrite ?bind_pure; [|done..].
  destruct (kex_name_valid n) eqn:Hv.
  - exists (fun n0 => set_kn_ec_nid (kex_nid_from_name n) (set_kn_hash_alg (kex_hash_from_name n)
             (set_kn_kex_type (kex_type_from_name n) (set_kn_name (Some n) n0)))).
    cbn [negb]. split; [done|]. split; [|done]. by apply (kept_neg x k).
  - by exists SSH_ERR_INTERNAL_ERROR.
Qed.

Lemma choose_hostkeyalg_spec c s x k : s_kex (ssh_state x) = Some k ->
  match first_match c s with
  | Ok (Some n) => if sshkey_type_from_name n =? KEY_UNSPEC then exists e, fst (choose_hostkeyalg c s x) = Err e
      else exists f, choose_hostkeyalg c s x = (Ok tt, set_neg (f (ssh_neg x)) x) /\ kept x (set_neg (f (ssh_neg x)) x) /\
        kn_hostkey_alg (f (ssh_neg x)) = Some n /\ kn_hostkey_type (f (ssh_neg x)) = sshkey_type_from_name n /\
        kn_hostkey_nid (f (ssh_neg x)) = sshkey_ecdsa_nid_from_name n /\ kn_name (f (ssh_neg x)) = kn_name (ssh_neg x) /\
        kn_kex_type (f (ssh_neg x)) = kn_kex_type (ssh_neg x) /\ kn_hash_alg (f (ssh_neg x)) = kn_hash_alg (ssh_neg x) /\
        kn_ec_nid (f (ssh_neg x)) = kn_ec_nid (ssh_neg x)
  | _ => fst (choose_hostkeyalg c s x) <> Ok tt
  end.
Proof.
  intros Hk. unfold choose_hostkeyalg. destruct (first_match c s) as [[n|]|e|]; rewrite ?bind_pure; [|done..].
  cbv zeta. destruct (sshkey_type_from_name n =? KEY_UNSPEC) eqn:Hv.
  - by exists SSH_ERR_INTERNAL_ERROR.
  - exists (fun n0 => set_kn_hostkey_nid (sshkey_ecdsa_nid_from_name n) (set_kn_hostkey_type (sshkey_type_from_name n) (set_kn_hostkey_alg (Some n) n0))).
    split; [done|]. split; [|done]. by apply (kept_neg x k).
Qed.

(** The end of [kex_choose_conf], once both directions have keys. *)
Lemma choose_needs my peer f x k i o : s_kex (ssh_state x) = Some k -> kx_newkeys MODE_IN k = Some i -> kx_newkeys MODE_OUT k = Some o ->
  exists x', (let! k := on_state the_kex in
    match kx_newkeys_in k, kx_newkeys_out k with
    | Some i, Some o =>
        do! upd_neg (fun n => set_kn_dh_need (keys_dh_need o (keys_dh_need i 0)) (set_kn_we_need (keys_need o (keys_need i 0)) n)) ;;
        if negb (f =? 0) && negb (proposals_match my peer) then change (set_skip 1) else ret tt
    | _, _ => crash
    end) x = (Ok tt, x') /\ kept x x' /\ s_kex (ssh_state x') = Some k /\
    ssh_neg x' = set_kn_dh_need (keys_dh_need o (keys_dh_need i 0)) (set_kn_we_need (keys_need o (keys_need i 0)) (ssh_neg x)).
Proof.
  intros Hk Hi Ho. cbn [kx_newkeys] in Hi, Ho. rewrite (bind_ok _ _ _ _ _ (the_kex_ok x k Hk)), Hi, Ho.
  unfold bind, upd_neg, change. destruct (_ && _); (eexists; split; [reflexivity|]); (split; [|done]);
    pose proof (kept_neg x k (set_kn_dh_need (keys_dh_need o (keys_dh_need i 0)) (set_kn_we_need (keys_need o (keys_need i 0)) (ssh_neg x))) Hk) as [];
    try done; by constructor.
Qed.

Lemma bind_not_ok {A} (m : KM unit) (r : unit -> KM A) x a : fst (m x) <> Ok tt -> fst (bind m r x) <> Ok a.
Proof. unfold bind. destruct (m x) as [[[]|e|] x']; cbn; done. Qed.
Lemma failed_choice_not_ok peer i (m : KM unit) x : fst (m x) <> Ok tt -> fst (or_failed_choice peer i m x) <> Ok tt.
Proof. unfold or_failed_choice. destruct (m x) as [[] ?]; done. Qed.
Lemma fails_not_ok {A} (r : res A) o : fails_as r o -> fst o <> Ok tt.
Proof. destruct r; cbn; [done|congruence..]. Qed.

(** Both directions and the lengths. *)
Lemma conf_keys E peer my f cp sp x k : s_kex (ssh_state x) = Some k -> pe_np E <> 0 ->
  let server := kn_server (ssh_neg x) in
  let run := (do! choose_keys E peer cp sp MODE_IN ;; do! choose_keys E peer cp sp MODE_OUT ;;
     let! k := on_state the_kex in
     match kx_newkeys_in k, kx_newkeys_out k with
     | Some i, Some o =>
         do! upd_neg (fun n => set_kn_dh_need (keys_dh_need o (keys_dh_need i 0)) (set_kn_we_need (keys_need o (keys_need i 0)) n)) ;;
         if negb (f =? 0) && negb (proposals_match my peer) then change (set_skip 1) else ret tt
     | _, _ => crash
     end) x in
  match keys_of E cp sp server, keys_of E cp sp (negb server) with
  | Ok i, Ok o => exists x' k', run = (Ok tt, x') /\ kept x x' /\ s_kex (ssh_state x') = Some k' /\
      kx_newkeys MODE_IN k' = Some i /\ kx_newkeys MODE_OUT k' = Some o /\
      ssh_neg x' = set_kn_dh_need (keys_dh_need o (keys_dh_need i 0)) (set_kn_we_need (keys_need o (keys_need i 0)) (ssh_neg x))
  | _, _ => fst run <> Ok tt
  end.
Proof.
  intros Hk Hnp. cbv zeta. pose proof (choose_keys_spec E peer cp sp MODE_IN x k Hk Hnp) as S1. cbn [is_ctos] in S1.
  destruct (keys_of E cp sp (kn_server (ssh_neg x))) as [i|e|]; [|by eapply bind_not_ok, fails_not_ok..].
  set (k1 := set_kx_newkeys MODE_IN (Some i) k) in S1. set (x1 := with_kex k1 x) in S1. rewrite (bind_ok _ _ _ _ _ S1).
  pose proof (choose_keys_spec E peer cp sp MODE_OUT x1 k1 eq_refl Hnp) as S2. cbn [is_ctos] in S2. change (ssh_neg x1) with (ssh_neg x) in S2.
  destruct (keys_of E cp sp (negb (kn_server (ssh_neg x)))) as [o|e|]; [|by eapply bind_not_ok, fails_not_ok..].
  set (k2 := set_kx_newkeys MODE_OUT (Some o) k1) in S2. set (x2 := with_kex k2 x1) in S2. rewrite (bind_ok _ _ _ _ _ S2).
  destruct (choose_needs my peer f x2 k2 i o eq_refl eq_refl eq_refl) as (x' & E' & K' & Hk' & Hn').
  exists x', k2. split_and!; try done. eapply kept_then; [|exact K']. apply (kept_with_kex x k); done.
Qed.

Lemma keys_need_max (nk : newkeys M U) n : 0 <= n -> keys_need nk n = Z.max n (keys_need nk 0).
Proof. intros Hn. unfold keys_need. rewrite <- !Z.max_assoc, (Z.max_assoc n 0), (Z.max_l n 0) by lia. reflexivity. Qed.
Lemma keys_dh_need_max (nk : newkeys M U) n : 0 <= n -> keys_dh_need nk n = Z.max n (keys_dh_need nk 0).
Proof. intros Hn. unfold keys_dh_need. rewrite <- !Z.max_assoc, (Z.max_assoc n 0), (Z.max_l n 0) by lia. reflexivity. Qed.

Lemma chosen_intro n h (ctos stoc : newkeys M U) x x3 x' k' i o : kept x x3 -> kept x3 x' -> s_kex (ssh_state x') = Some k' ->
  kx_newkeys MODE_IN k' = Some i -> kx_newkeys MODE_OUT k' = Some o ->
  i = (if kn_server (ssh_neg x) then ctos else stoc) /\ o = (if kn_server (ssh_neg x) then stoc else ctos) ->
  ssh_neg x' = set_kn_dh_need (keys_dh_need o (keys_dh_need i 0)) (set_kn_we_need (keys_need o (keys_need i 0)) (ssh_neg x3)) ->
  kn_name (ssh_neg x3) = Some n -> kn_kex_type (ssh_neg x3) = kex_type_from_name n ->
  kn_hash_alg (ssh_neg x3) = kex_hash_from_name n -> kn_ec_nid (ssh_neg x3) = kex_nid_from_name n ->
  kn_hostkey_alg (ssh_neg x3) = Some h -> kn_hostkey_type (ssh_neg x3) = sshkey_type_from_name h ->
  kn_hostkey_nid (ssh_neg x3) = sshkey_ecdsa_nid_from_name h -> chosen (mk_choice n h ctos stoc) x x'.
Proof.
  intros K1 K2 Hk I O [-> ->] Hn N1 N2 N3 N4 P1 P2 P3.
  assert (Hneed : forall i o : newkeys M U, keys_need o (keys_need i 0) = Z.max (keys_need i 0) (keys_need o 0) /\
                                            keys_dh_need o (keys_dh_need i 0) = Z.max (keys_dh_need i 0) (keys_dh_need o 0)).
  { intros i o. split; [apply keys_need_max|apply keys_dh_need_max]; unfold keys_need, keys_dh_need; rewrite <- !Z.max_assoc; apply Z.le_max_l. }
  constructor; rewrite ?Hn; [by eapply kept_then|by exists k'|exact N1|exact N2|exact N3|exact N4|exact P1|exact P2|exact P3|..];
    unfold need_of, dh_need_of; cbn [ch_ctos ch_stoc kn_we_need kn_dh_need set_kn_dh_need set_kn_we_need];
    destruct (kn_server (ssh_neg x)), (Hneed ctos stoc) as [E1 E2], (Hneed stoc ctos) as [E3 E4]; rewrite ?E1, ?E2, ?E3, ?E4; [reflexivity|apply Z.max_comm|reflexivity|apply Z.max_comm].
Qed.

Section Conf.
Context (E : penv) (seq : Z) (x : ssh) (k : kex M U) (my peer : list (list Z)) (f0 f : Z).
Hypothesis Hk : s_kex (ssh_state x) = Some k.
Hypothesis Hnp : pe_np E <> 0.
Hypothesis Hmy : kex_buf2prop (pe_np E) (kx_my k) = Ok (my, f0).
Hypothesis Hpeer : kex_buf2prop (pe_np E) (kn_peer (ssh_neg x)) = Ok (peer, f).
Hypothesis Hpm : Forall matchable peer.
Hypothesis Hseq : is_initial k = true -> seq = 0.

Let server := kn_server (ssh_neg x).
Let cprop := if server then peer else my.
Let sprop := if server then my else peer.

Lemma peer_matchable i : matchable (default [] (peer !! i)).
Proof. destruct (peer !! i) as [s|] eqn:Ei; cbn; [by eapply Forall_lookup_1 in Ei|]. split; [constructor|done]. Qed.

(** Up to the choice of the method. *)
Lemma conf_start : exists x', kept x x' /\
  kex_choose_conf E seq x =
    (do! or_failed_choice peer PROPOSAL_KEX_ALGS (choose_kex (default [] (cprop !! PROPOSAL_KEX_ALGS)) (default [] (sprop !! PROPOSAL_KEX_ALGS))) ;;
     do! or_failed_choice peer PROPOSAL_SERVER_HOST_KEY_ALGS
           (choose_hostkeyalg (default [] (cprop !! PROPOSAL_SERVER_HOST_KEY_ALGS)) (default [] (sprop !! PROPOSAL_SERVER_HOST_KEY_ALGS))) ;;
     do! choose_keys E peer cprop sprop MODE_IN ;;
     do! choose_keys E peer cprop sprop MODE_OUT ;;
     let! k := on_state the_kex in
     match kx_newkeys_in k, kx_newkeys_out k with
     | Some i, Some o =>
         do! upd_neg (fun n => set_kn_dh_need (keys_dh_need o (keys_dh_need i 0)) (set_kn_we_need (keys_need o (keys_need i 0)) n)) ;;
         if negb (f =? 0) && negb (proposals_match my peer) then change (set_skip 1) else ret tt
     | _, _ => crash
     end) x'.
Proof.
  unfold kex_choose_conf. rewrite (bind_ok _ _ _ _ _ (the_kex_ok x k Hk)). rewrite Hmy, bind_pure, bind_get, Hpeer, bind_pure. cbn [fst].
  fold server cprop sprop. fold (is_initial k).
  assert (exists x1, (if is_initial k then peer_signals E peer seq else ret tt) x = (Ok tt, x1) /\ kept x x1) as (x1 & E1 & K1).
  { destruct (is_initial k) eqn:Hi.
    - rewrite (Hseq eq_refl). apply (signals_ok E peer x k Hk), peer_matchable.
    - exists x. split; [done|]. by apply (kept_same x k). }
  rewrite (bind_ok _ _ _ _ _ E1). destruct (kept_kex _ _ K1) as [k1 Hk1].
  assert (exists x2, (if server && is_initial k then client_rsa_sha2 peer else ret tt) x1 = (Ok tt, x2) /\ kept x1 x2) as (x2 & E2 & K2).
  { destruct (server && is_initial k); [apply (rsa_ok peer x1 k1 Hk1), peer_matchable|].
    exists x1. split; [done|]. by apply (kept_same x1 k1). }
  rewrite (bind_ok _ _ _ _ _ E2). exists x2. split; [by eapply kept_then|reflexivity].
Qed.

Lemma conf_spec :
  match negotiate E cprop sprop with
  | Some ch => exists x', kex_choose_conf E seq x = (Ok tt, x') /\ chosen ch x x'
  | None => fst (kex_choose_conf E seq x) <> Ok tt
  end.
Proof.
  destruct conf_start as (x1 & K1 & ->). destruct (kept_kex _ _ K1) as [k1 Hk1]. unfold negotiate.
  pose proof (choose_kex_spec (default [] (cprop !! PROPOSAL_KEX_ALGS)) (default [] (sprop !! PROPOSAL_KEX_ALGS)) x1 k1 Hk1) as S1.
  destruct (first_match (default [] (cprop !! PROPOSAL_KEX_ALGS)) _) as [[n|]|e|]; [|by apply bind_not_ok, failed_choice_not_ok..].
  destruct (kex_name_valid n); cbn [andb].
  2:{ destruct S1 as [e S1]. repeat case_match; try done; apply bind_not_ok, failed_choice_not_ok; by rewrite S1. }
  destruct S1 as (g1 & S1 & K2 & N1 & N2 & N3 & N4). set (x2 := set_neg (g1 (ssh_neg x1)) x1) in *.
  rewrite (bind_ok _ _ _ _ _ (failed_choice_ok _ _ _ _ _ S1)).
  pose proof (choose_hostkeyalg_spec (default [] (cprop !! PROPOSAL_SERVER_HOST_KEY_ALGS)) (default [] (sprop !! PROPOSAL_SERVER_HOST_KEY_ALGS)) x2 k1 Hk1) as S2.
  destruct (first_match (default [] (cprop !! PROPOSAL_SERVER_HOST_KEY_ALGS)) _) as [[h|]|e|]; [|by apply bind_not_ok, failed_choice_not_ok..].
  destruct (sshkey_type_from_name h =? KEY_UNSPEC); cbn [negb].
  1:{ destruct S2 as [e S2]. repeat case_match; try done; apply bind_not_ok, failed_choice_not_ok; by rewrite S2. }
  destruct S2 as (g2 & S2 & K3 & P1 & P2 & P3 & P4 & P5 & P6 & P7). set (x3 := set_neg (g2 (ssh_neg x2)) x2) in *.
  rewrite (bind_ok _ _ _ _ _ (failed_choice_ok _ _ _ _ _ S2)).
  assert (KK : kept x x3) by (eapply kept_then; [exact K1|]; eapply kept_then; [exact K2|exact K3]).
  pose proof (conf_keys E peer my f cprop sprop x3 k1 Hk1 Hnp) as S3. cbv zeta in S3. rewrite (kept_server _ _ KK) in S3. fold server in S3.
  destruct server eqn:Es; cbn [negb] in S3; destruct (keys_of E cprop sprop true) as [ctos|e|], (keys_of E cprop sprop false) as [stoc|e'|]; try exact S3;
    destruct S3 as (x' & k' & S3 & K' & Hk' & I' & O' & Hn'); exists x'; (split; [exact S3|]).
  - apply (chosen_intro n h ctos stoc x x3 x' k' ctos stoc KK K' Hk' I' O'); [fold server; rewrite Es; split; reflexivity|exact Hn'|..];
      [exact (eq_trans P4 N1)|exact (eq_trans P5 N2)|exact (eq_trans P6 N3)|exact (eq_trans P7 N4)|exact P1|exact P2|exact P3].
  - apply (chosen_intro n h ctos stoc x x3 x' k' stoc ctos KK K' Hk' I' O'); [fold server; rewrite Es; split; reflexivity|exact Hn'|..];
      [exact (eq_trans P4 N1)|exact (eq_trans P5 N2)|exact (eq_trans P6 N3)|exact (eq_trans P7 N4)|exact P1|exact P2|exact P3].
Qed.
End Conf.

(** ** Both ends *)

(** What the choice depends on besides the proposals: that allocations succeed. *)
Lemma digest_start_any p q alg : p <> 0 -> q <> 0 -> ssh_digest_start (M := M) p alg = ssh_digest_start q alg.
Proof. intros Hp Hq. unfold ssh_digest_start. by rewrite (proj2 (Z.eqb_neq p 0) Hp), (proj2 (Z.eqb_neq q 0) Hq). Qed.

Lemma hmac_start_any p q alg : p <> 0 -> q <> 0 -> ssh_hmac_start (M := M) p alg = ssh_hmac_start q alg.
Proof.
  intros Hp Hq. unfold ssh_hmac_start. rewrite (proj2 (Z.eqb_neq p 0) Hp), (proj2 (Z.eqb_neq q 0) Hq).
  by rewrite (digest_start_any p q) by done.
Qed.

Lemma mac_setup_any p q name (mac : sshmac M U) : p <> 0 -> q <> 0 -> mac_setup p name mac = mac_setup q name mac.
Proof.
  intros Hp Hq. unfold mac_setup. destruct (find_mac macs name) as [a|]; [|done].
  unfold mac_setup_by_alg. by rewrite (hmac_start_any p q) by done.
Qed.

Lemma choose_mac_any E E' c s (mac : sshmac M U) : pe_np E <> 0 -> pe_np E' <> 0 -> choose_mac E c s mac = choose_mac E' c s mac.
Proof.
  intros Hp Hq. unfold choose_mac. destruct (first_match c s) as [[name|]|e|]; try done. rewrite !bind_pure.
  unfold bind, or_err. by rewrite (mac_setup_any (pe_np E) (pe_np E')) by done.
Qed.

Lemma negotiate_any E E' cprop sprop : pe_np E <> 0 -> pe_np E' <> 0 -> negotiate E cprop sprop = negotiate E' cprop sprop.
Proof.
  intros Hp Hq. assert (Hk : forall b, keys_of E cprop sprop b = keys_of E' cprop sprop b).
  { intros b. unfold keys_of, keys_from. cbv zeta.
    destruct (choose_enc _ _) as [enc|e|]; cbn [rbind]; [|done..]. by rewrite (choose_mac_any E E') by done. }
  unfold negotiate. by rewrite !Hk.
Qed.

(** An end whose buffers hold the two KEXINIT payloads. *)
Record exchanged E (seq : Z) (mine theirs : list Z) x : Prop := {
  ex_alloc : 0 < pe_np E;
  ex_kex : exists k, s_kex (ssh_state x) = Some k /\ sshbuf_wf (kx_my k) /\ 0 < sb_cd (kx_my k) /\ contents (kx_my k) = mine /\
    (is_initial k = true -> seq = 0);
  ex_peer : sshbuf_wf (kn_peer (ssh_neg x)) /\ 0 < sb_cd (kn_peer (ssh_neg x)) /\ contents (kn_peer (ssh_neg x)) = theirs;
}.

Lemma parsed_matchable b p f : sshbuf_wf b -> parse_prop (contents b) = Ok (p, f) -> Forall matchable p.
Proof.
  intros W Hp. destruct (parse_prop_plain _ _ _ Hp (contents_bytes b W)) as [_ Hf].
  pose proof (contents_len b W) as L. eapply Forall_impl; [exact Hf|]. cbn. intros s [[Hn _] Hl]. split; [done|].
  wf_facts W. sb_consts. lia.
Qed.

(** One end, in terms of the two payloads. *)
Lemma conf_of_payloads E seq mine theirs x : exchanged E seq mine theirs x ->
  let server := kn_server (ssh_neg x) in
  match parse_prop mine, parse_prop theirs with
  | Ok (m, _), Ok (t, _) =>
      match negotiate E (if server then t else m) (if server then m else t) with
      | Some ch => exists x', kex_choose_conf E seq x = (Ok tt, x') /\ chosen ch x x'
      | None => fst (kex_choose_conf E seq x) <> Ok tt
      end
  | _, _ => fst (kex_choose_conf E seq x) <> Ok tt
  end.
Proof.
  intros [Hnp (k & Hk & Wm & Cm & <- & Hs) (Wp & Cp & <-)] server.
  pose proof (buf2prop_spec (pe_np E) (kx_my k) Wm Hnp Cm) as Em. pose proof (buf2prop_spec (pe_np E) _ Wp Hnp Cp) as Ep.
  assert (Hstart : forall r, kex_buf2prop (pe_np E) (kx_my k) = r -> (forall a, r <> Ok a) -> fst (kex_choose_conf E seq x) <> Ok tt).
  { intros r Hr Hn. unfold kex_choose_conf. rewrite (bind_ok _ _ _ _ _ (the_kex_ok x k Hk)), Hr. destruct r as [a|e|]; [by destruct (Hn a)|done..]. }
  assert (Hnext : forall a r, kex_buf2prop (pe_np E) (kx_my k) = Ok a -> kex_buf2prop (pe_np E) (kn_peer (ssh_neg x)) = r ->
    (forall a, r <> Ok a) -> fst (kex_choose_conf E seq x) <> Ok tt).
  { intros a r Ha Hr Hn. unfold kex_choose_conf. rewrite (bind_ok _ _ _ _ _ (the_kex_ok x k Hk)), Ha, bind_pure, bind_get, Hr.
    destruct r as [b|e|]; [by destruct (Hn b)|done..]. }
  destruct (parse_prop (contents (kx_my k))) as [[m f0]|e|] eqn:Pm; [|by apply (Hstart _ Em)..].
  destruct (parse_prop (contents (kn_peer (ssh_neg x)))) as [[t f]|e|] eqn:Pt; [|by apply (Hnext _ _ Em Ep)..].
  apply (conf_spec E seq x k m t f0 f Hk); [lia|done|done| |done]. by apply (parsed_matchable _ _ _ Wp Pt).
Qed.

(** [name] is the first item of list [i] of the client that the server lists too. *)
Definition preferred (cp sp : list (list Z)) (i : nat) (name : list Z) : Prop :=
  exists pre post, list_items (default [] (cp !! i)) = pre ++ name :: post /\
    name ∈ supported (default [] (sp !! i)) /\ Forall (fun item => ~ (item ∈ supported (default [] (sp !! i)))) pre.

Lemma first_match_preferred cp sp i name : Forall matchable cp ->
  first_match (default [] (cp !! i)) (default [] (sp !! i)) = Ok (Some name) -> preferred cp sp i name.
Proof.
  intros Hm Hf. assert (Hi : matchable (default [] (cp !! i))).
  { destruct (cp !! i) as [s|] eqn:Ei; cbn; [by eapply Forall_lookup_1 in Ei|]. split; [constructor|done]. }
  destruct (match_list_spec _ (default [] (sp !! i)) (proj1 Hi) (proj2 Hi)) as (r & next & Em & _ & Hp).
  unfold first_match in Hf. rewrite Em in Hf. injection Hf as ->. cbn in Hp. destruct Hp as (pre & ? & ? & ?). by exists pre, (list_items (zdrop next (default [] (cp !! i)))).
Qed.

(** The keys of a direction use the cipher that both ends prefer. *)
Lemma keys_of_cipher E cp sp ctos nk : Forall matchable cp -> keys_of E cp sp ctos = Ok nk ->
  exists name, preferred cp sp (if ctos then PROPOSAL_ENC_ALGS_CTOS else PROPOSAL_ENC_ALGS_STOC) name /\
    cipher_by_name name = Some (enc_cipher (nk_enc nk)).
Proof.
  intros Hm. unfold keys_of, keys_from. cbv zeta. set (i := if ctos then PROPOSAL_ENC_ALGS_CTOS else _). unfold choose_enc.
  destruct (first_match (default [] (cp !! i)) _) as [[name|]|e|] eqn:Ef; cbn [rbind]; [|done..].
  destruct (cipher_by_name name) as [c|] eqn:Ec; cbn [rbind]; [|done].
  repeat match goal with |- context [rbind ?r _] => destruct r as [?|?|]; cbn [rbind]; try done end.
  intros [= <-]. exists name. split; [by apply first_match_preferred|done].
Qed.

Lemma negotiate_inv E cp sp ch : Forall matchable cp -> negotiate E cp sp = Some ch ->
  preferred cp sp PROPOSAL_KEX_ALGS (ch_kex ch) /\ preferred cp sp PROPOSAL_SERVER_HOST_KEY_ALGS (ch_hostkey ch) /\
  (exists n, preferred cp sp PROPOSAL_ENC_ALGS_CTOS n /\ cipher_by_name n = Some (enc_cipher (nk_enc (ch_ctos ch)))) /\
  (exists n, preferred cp sp PROPOSAL_ENC_ALGS_STOC n /\ cipher_by_name n = Some (enc_cipher (nk_enc (ch_stoc ch)))).
Proof.
  intros Hm. unfold negotiate.
  destruct (first_match (default [] (cp !! PROPOSAL_KEX_ALGS)) _) as [[n|]|e|] eqn:E1; try done.
  destruct (first_match (default [] (cp !! PROPOSAL_SERVER_HOST_KEY_ALGS)) _) as [[h|]|e|] eqn:E2; try done.
  destruct (keys_of E cp sp true) as [ctos|e|] eqn:E3; try done. destruct (keys_of E cp sp false) as [stoc|e|] eqn:E4; try done.
  destruct (_ && _); [|done]. intros [= <-]. cbn [ch_kex ch_hostkey ch_ctos ch_stoc].
  split_and!; [by apply first_match_preferred..|by apply (keys_of_cipher _ _ _ _ _ Hm E3)|by apply (keys_of_cipher _ _ _ _ _ Hm E4)].
Qed.

End Choice.

(** The two ends of [KexDemo] hold each other's payload. *)
Lemma demo_exchanged (server : bool) :
  exchanged LinkDemo.E 0 (enc_prop no_cookie (if server then KexDemo.proposal' else KexDemo.proposal))
    (enc_prop no_cookie (if server then KexDemo.proposal else KexDemo.proposal')) (KexDemo.end_of server).
Proof.
  destruct KexDemo.proposals_sendable as [S S']. pose proof (KexDemo.filled_pbuf _ S) as P. pose proof (KexDemo.filled_pbuf _ S') as P'.
  constructor; [done|destruct server; eexists; (split; [reflexivity|])..|destruct server].
  all: split_and!; first [apply P | apply P' | by vm_compute | done].
Qed.

