(* ===== verification/KexKeys.v ===== *)
(** * The keys of an exchange

    [kex_derive_keys] against the key derivation of the protocol: each key is
    K1 || K2 || ... with K1 the hash of the secret, the exchange hash, a letter
    and the session identifier, and Kn the hash of the secret, the exchange hash
    and the keys before it.  Both ends derive the same keys, crosswise. *)
From S2P Require Import Prelude Sshbuf SshbufGetput SshbufSpec CString SshbufMisc Words Chacha ChachaPoly Cipher Hmac Mac PacketState Packet PacketBuf Match SshkeyNames KexNames Kex KexProp KexAgree.

Section Derive.
Context {V M U Zs K : Type} `{EVP V} `{EVP_MDLaws M} `{UMAC U} `{ZLIB Zs}.
Implicit Types E : penv.
Abbreviation ssh := (ssh (V := V) (M := M) (U := U) (Zs := Zs) (K := K)).
Abbreviation KM := (KM (V := V) (M := M) (U := U) (Zs := Zs) (K := K)).
Implicit Types x y : ssh.

(** ** The specification *)

Fixpoint kdf_expand (n : nat) (alg need : Z) (secret hash acc : list Z) : list Z :=
  match n with
  | O => acc
  | S n => if need <=? zlen acc then acc else kdf_expand n alg need secret hash (acc ++ md_hash alg (secret ++ hash ++ acc))
  end.

(** The key named by the letter [id], of at least [need] bytes. *)
Definition kdf (alg need : Z) (secret hash sid : list Z) (id : Z) : list Z :=
  kdf_expand (Z.to_nat (need / ssh_digest_bytes alg + 1)) alg need secret hash (md_hash alg (secret ++ hash ++ [id] ++ sid)).

Lemma expand_len n alg need secret hash acc : ssh_digest_by_alg alg <> None -> 0 < ssh_digest_bytes alg ->
  need <= zlen acc + Z.of_nat n * ssh_digest_bytes alg -> need <= zlen (kdf_expand n alg need secret hash acc).
Proof.
  intros Ha Hb. revert acc. induction n as [|n IH]; intros acc Hn; cbn [kdf_expand]; [lia|].
  destruct (need <=? zlen acc) eqn:Hz; zbool; [done|]. apply IH. rewrite zlen_app, md_hash_len by done. nia.
Qed.

Lemma kdf_len alg need secret hash sid id : ssh_digest_by_alg alg <> None -> 0 < ssh_digest_bytes alg -> 0 <= need ->
  need <= zlen (kdf alg need secret hash sid id).
Proof.
  intros Ha Hb Hn. apply expand_len; [done..|]. rewrite md_hash_len by done.
  rewrite Z2Nat.id by (pose proof (Z.div_pos need _ Hn Hb); lia). pose proof (Z.div_mod need (ssh_digest_bytes alg)). pose proof (Z.mod_pos_bound need (ssh_digest_bytes alg)). nia.
Qed.

Lemma expand_bytes n alg need secret hash acc : Forall is_byte acc -> Forall is_byte (kdf_expand n alg need secret hash acc).
Proof.
  revert acc. induction n as [|n IH]; intros acc Ha; cbn [kdf_expand]; [done|]. destruct (_ <=? _); [done|].
  apply IH, Forall_app. split; [done|]. apply md_hash_bytes.
Qed.

(** ** The hash of several inputs *)

(** [m] feeds the bytes [l] to a digest. *)
Definition feeds (m : ST (ssh_digest_ctx M) unit) (l : list Z) : Prop :=
  forall c d, md_state (dc_md c) (dc_alg c) d -> exists c', m c = (Ok tt, c') /\ dc_alg c' = dc_alg c /\ md_state (dc_md c') (dc_alg c') (d ++ l).

Lemma feeds_update l : feeds (ssh_digest_update l) l.
Proof. intros c d Hd. destruct (digest_update_spec c d l Hd) as (c' & E & Ea & S). exists c'. split; [done|]. split; [done|]. by rewrite Ea. Qed.
Lemma feeds_buffer b : sshbuf_wf b -> feeds (ssh_digest_update_buffer b) (contents b).
Proof. intros W. unfold ssh_digest_update_buffer. rewrite buf_bytes_wf by done. exact (feeds_update _). Qed.
Lemma feeds_then m m' l l' : feeds m l -> feeds m' l' -> feeds (do! m ;; m') (l ++ l').
Proof.
  intros F F' c d Hd. destruct (F c d Hd) as (c1 & E1 & A1 & S1). destruct (F' c1 _ S1) as (c2 & E2 & A2 & S2).
  exists c2. rewrite (bind_ok _ _ _ _ _ E1). split; [done|]. split; [congruence|]. by rewrite app_assoc.
Qed.

Lemma kdf_hash_spec E alg m l : pe_np E <> 0 -> ssh_digest_by_alg alg <> None -> feeds m l ->
  kdf_hash E alg (ssh_digest_bytes alg) m = Ok (md_hash alg l).
Proof.
  intros Hp Ha F. unfold kdf_hash, ssh_digest_start. destruct (ssh_digest_by_alg alg) as [dg|] eqn:Eg; [|done].
  destruct (by_alg_mdfunc alg dg Eg) as [Hf Hl]. rewrite (proj2 (Z.eqb_neq _ 0) Hp), Hf.
  destruct (md_start alg) as (m0 & m1 & -> & -> & S0).
  destruct (F (mk_digest_ctx _ alg m1) [] S0) as (c1 & E1 & A1 & S1). rewrite (bind_ok _ _ _ _ _ E1). cbn [dc_alg] in *. rewrite A1 in *.
  destruct (digest_final_spec c1 (ssh_digest_bytes alg) l) as (c2 & E2 & _).
  all: rewrite ?A1, ?Eg; try done.
  { unfold ssh_digest_bytes. rewrite Eg. unfold UINT_MAX. lia. }
  by rewrite E2, A1.
Qed.

(** ** The keys *)

Lemma derive_loop_spec E n alg need hash secret acc : pe_np E <> 0 -> ssh_digest_by_alg alg <> None -> 0 < ssh_digest_bytes alg ->
  sshbuf_wf secret -> need <= zlen acc + Z.of_nat n * ssh_digest_bytes alg ->
  derive_loop E n alg (ssh_digest_bytes alg) need hash secret acc = Ok (kdf_expand n alg need (contents secret) hash acc).
Proof.
  intros Hp Ha Hb W. revert acc. induction n as [|n IH]; intros acc Hn; cbn [derive_loop kdf_expand].
  { by rewrite (proj2 (Z.leb_le _ _)) by lia. }
  destruct (need <=? zlen acc) eqn:Hz; [done|]. zbool.
  rewrite (kdf_hash_spec E alg _ (contents secret ++ hash ++ acc)) by (try done; repeat apply feeds_then; apply feeds_update || by apply feeds_buffer).
  cbn [rbind]. apply IH. rewrite zlen_app, md_hash_len by done. nia.
Qed.

Lemma ROUNDUP_least need m : 0 < need <= 2 ^ 32 -> 0 < m <= 64 -> m <= ROUNDUP need m.
Proof.
  intros Hn Hm. unfold ROUNDUP. rewrite (u64_small (need + _)) by lia.
  assert (1 <= (need + (m - 1)) / m) by (apply Z.div_le_lower_bound; lia).
  assert (m * ((need + (m - 1)) / m) <= need + (m - 1)) by (apply Z.mul_div_le; lia).
  rewrite u64_small by nia. nia.
Qed.

(** A digest of the table. *)
Lemma digest_facts alg : ssh_digest_by_alg alg <> None -> 0 < ssh_digest_bytes alg <= 64.
Proof.
  unfold ssh_digest_bytes, ssh_digest_by_alg. destruct (_ || _) eqn:C; [done|]. zbool. unfold SSH_DIGEST_MAX in *.
  assert (alg = 0 \/ alg = 1 \/ alg = 2 \/ alg = 3 \/ alg = 4) as Hc by lia.
  intros _. repeat destruct Hc as [->|Hc]; try subst alg; by vm_compute.
Qed.

Lemma derive_key_spec E (n : kexneg K) id need hash secret : pe_np E <> 0 -> ssh_digest_by_alg (kn_hash_alg n) <> None ->
  sshbuf_wf secret -> sshbuf_wf (kn_session_id n) -> 0 < need <= 2 ^ 32 ->
  derive_key E n id need hash secret = Ok (kdf (kn_hash_alg n) need (contents secret) hash (contents (kn_session_id n)) id).
Proof.
  intros Hp Ha W Ws Hn. destruct (digest_facts _ Ha) as [Hb Hb']. unfold derive_key, kdf. cbv zeta.
  rewrite (proj2 (Z.eqb_neq _ 0)) by lia. rewrite (proj2 (Z.eqb_neq _ 0) Hp).
  rewrite (proj2 (Z.ltb_ge _ _)) by (apply ROUNDUP_least; lia).
  rewrite (kdf_hash_spec E _ _ (contents secret ++ hash ++ [id] ++ contents (kn_session_id n))) by
    (try done; repeat apply feeds_then; apply feeds_update || by apply feeds_buffer).
  cbn [rbind]. apply derive_loop_spec; try done. rewrite md_hash_len by done.
  rewrite Z2Nat.id by (pose proof (Z.div_pos need _ ltac:(lia) Hb); lia).
  pose proof (Z.div_mod need (ssh_digest_bytes (kn_hash_alg n))). pose proof (Z.mod_pos_bound need (ssh_digest_bytes (kn_hash_alg n))). nia.
Qed.

Lemma derive_all_spec E (n : kexneg K) ids need hash secret : pe_np E <> 0 -> ssh_digest_by_alg (kn_hash_alg n) <> None ->
  sshbuf_wf secret -> sshbuf_wf (kn_session_id n) -> 0 < need <= 2 ^ 32 ->
  derive_all E n ids need hash secret = Ok (kdf (kn_hash_alg n) need (contents secret) hash (contents (kn_session_id n)) <$> ids).
Proof.
  intros Hp Ha W Ws Hn. induction ids as [|i ids IH]; [done|]. cbn [derive_all]. rewrite derive_key_spec by done. cbn [rbind].
  by rewrite IH.
Qed.

(** ** Both directions *)

Definition letters : list Z := [65; 66; 67; 68; 69; 70].

(** The keys of one direction: letters A, C, E from the client, B, D, F from the server. *)
Definition keys_for (alg need : Z) (secret hash sid : list Z) (ctos : bool) : newkeys M U -> newkeys M U :=
  let key i := kdf alg need secret hash sid i in
  if ctos then install_keys (key 65) (key 67) (key 69) else install_keys (key 66) (key 68) (key 70).

(** An end that is ready to derive the keys of the directions [i] and [o]. *)
Record derivable (hash : list Z) (i o : newkeys M U) (k : kex M U) x : Prop := {
  dv_kex : s_kex (ssh_state x) = Some k;
  dv_in : kx_newkeys MODE_IN k = Some i;
  dv_out : kx_newkeys MODE_OUT k = Some o;
  dv_sid : exists s, pbuf (kn_session_id (ssh_neg x)) s /\ (is_initial k = true <-> s = []);
  dv_hash : Forall is_byte hash /\ 0 < zlen hash <= 64;
  dv_alg : ssh_digest_by_alg (kn_hash_alg (ssh_neg x)) <> None;
  dv_need : 0 < kn_we_need (ssh_neg x) <= 2 ^ 32;
}.

(** The session identifier: the hash of the first exchange. *)
Definition session_of (hash : list Z) (k : kex M U) x : list Z := if is_initial k then hash else contents (kn_session_id (ssh_neg x)).

Lemma session_ready E hash i o k x : derivable hash i o k x -> pe_np E <> 0 ->
  exists b, pbuf b (session_of hash k x) /\ forall A (r : KM A),
    (let! fl := kex_flags in
     let! x := get in
     let! n := reads (fun _ => sshbuf_len (kn_session_id (ssh_neg x))) in
     do! (if negb (Z.land fl KEX_INITIAL =? 0) then
            if negb (n =? 0) then fail SSH_ERR_INTERNAL_ERROR
            else
              let '(r, b) := sshbuf_put (pe_np E) hash (kn_session_id (ssh_neg x)) in
              do! upd_neg (set_kn_session_id b) ;; reads (fun _ => r)
          else if n =? 0 then fail SSH_ERR_INTERNAL_ERROR else ret tt) ;; r) x = r (set_neg (set_kn_session_id b (ssh_neg x)) x).
Proof.
  intros [Hk Hi Ho (s & Ps & Hs) [Hb Hl] _ _] Hp. unfold session_of.
  assert (Hf : forall A (g : Z -> KM A), bind kex_flags g x = g (kx_flags k) x).
  { intros A g. unfold kex_flags, bind at 1, bind at 1. by rewrite (the_kex_ok x k Hk). }
  destruct (is_initial k) eqn:Hin.
  - destruct (pb_put (pe_np E) hash _ s Ps Hp Hb) as (b & Eb & Pb); [rewrite (proj1 Hs eq_refl); sb_consts; unfold zlen in *; cbn; lia|].
    rewrite (proj1 Hs eq_refl) in *. exists b. split; [done|]. intros A r.
    rewrite Hf, bind_get, sshbuf_len_wf, (pb_data _ _ Ps), bind_pure by apply Ps. unfold is_initial in Hin. rewrite Hin.
    cbn [negb zlen length Z.of_nat Z.eqb]. by rewrite Eb.
  - exists (kn_session_id (ssh_neg x)). rewrite (pb_data _ _ Ps). split; [done|]. intros A r.
    rewrite Hf, bind_get, sshbuf_len_wf, (pb_data _ _ Ps), bind_pure by apply Ps. unfold is_initial in Hin. rewrite Hin.
    destruct s as [|c s]; [discriminate (proj2 Hs eq_refl)|]. rewrite (proj2 (Z.eqb_neq (zlen (c :: s)) 0)) by (pose proof (zlen_nonneg s); rewrite zlen_cons; lia).
    rewrite bind_ret_l. f_equal. by destruct x as [? [] ? ? ?].
Qed.

Lemma derive_keys_spec E hash secret i o k x : derivable hash i o k x -> pe_np E <> 0 -> sshbuf_wf secret ->
  let n := ssh_neg x in
  let new := keys_for (kn_hash_alg n) (kn_we_need n) (contents secret) hash (session_of hash k x) in
  exists x' k', kex_derive_keys E hash secret x = (Ok tt, x') /\ ssh_state x' = set_kex (Some k') (ssh_state x) /\
    kx_newkeys MODE_IN k' = Some (new (kn_server n) i) /\ kx_newkeys MODE_OUT k' = Some (new (negb (kn_server n)) o) /\
    pbuf (kn_session_id (ssh_neg x')) (session_of hash k x) /\ kn_server (ssh_neg x') = kn_server n /\ is_initial k' = is_initial k /\
    kx_my k' = kx_my k /\ kx_strict k' = kx_strict k.
Proof.
  intros D Hp W. destruct (session_ready E hash i o k x D Hp) as (b & Pb & Hr). destruct D as [Hk Hi Ho _ _ Ha Hn]. cbv zeta.
  unfold kex_derive_keys. rewrite Hr. set (x1 := set_neg (set_kn_session_id b (ssh_neg x)) x).
  rewrite bind_get. rewrite derive_all_spec; [|done|done|done|apply Pb|done]. rewrite bind_pure. cbn [fmap list_fmap].
  change (kn_session_id (ssh_neg x1)) with b. rewrite (pb_data _ _ Pb).
  change (kn_hash_alg (ssh_neg x1)) with (kn_hash_alg (ssh_neg x)). change (kn_we_need (ssh_neg x1)) with (kn_we_need (ssh_neg x)).
  change (kn_server (ssh_neg x1)) with (kn_server (ssh_neg x)).
  set (key := kdf _ _ _ _ _). assert (Hk1 : s_kex (ssh_state x1) = Some k) by exact Hk.
  cbv zeta. unfold bind at 1. rewrite (on_newkeys_ok MODE_IN _ x1 k i Hk1 Hi). cbn [fst snd].
  set (k1 := set_kx_newkeys MODE_IN (Some _) k). rewrite (on_newkeys_ok MODE_OUT _ (with_kex k1 x1) k1 o eq_refl Ho). cbn [fst snd is_ctos].
  eexists _, _. split; [reflexivity|]. split; [reflexivity|].
  split_and!; try reflexivity; try exact Pb; cbn [kx_newkeys set_kx_newkeys kx_newkeys_in kx_newkeys_out]; unfold keys_for; destruct (kn_server _); reflexivity.
Qed.
End Derive.
