(* ===== verification/KexLink.v ===== *)
(** * From an exchange to a connection

    [ssh_set_newkeys] on both ends: the keys that the exchange derived for a
    direction, put in use by its sender and by its receiver, give contexts that
    agree, so that the packets of one are what the other delivers. *)
From S2P Require Import Prelude Sshbuf SshbufGetput SshbufSpec CString SshbufMisc Words Chacha ChachaPoly Cipher Hmac Mac PacketState Packet PacketBuf PacketSend PacketRecv PacketLink Match SshkeyNames KexNames Kex KexProp KexDemo KexAgree KexKeys.

(** ** Starting contexts *)

Section Init.
Context {V : Type} `{EVPLaws V}.

(** The calls of [cipher_init] for a cipher of libcrypto. *)
Definition evp_prepare (c : sshcipher) (key iv : list Z) (keylen : Z) (enc : bool) : option V :=
  v ← EVP_CIPHER_CTX_new;
  v ← EVP_CipherInit_iv v (ci_name c) (Some iv) enc;
  v ← (if negb (cipher_authlen c =? 0) then EVP_CTRL_GCM_SET_IV_FIXED v (Some iv) else Some v);
  v ← (if (0 <? EVP_CIPHER_CTX_key_length v) && negb (keylen =? EVP_CIPHER_CTX_key_length v)
       then EVP_CIPHER_CTX_set_key_length v keylen else Some v);
  EVP_CipherInit_key v key.

(** What libcrypto promises: with a key and an IV long enough for the cipher, an
    encrypting and a decrypting context can be made, and they start in step. *)
Class EVPInit : Prop := {
  evp_init c key iv : c ∈ ciphers -> flag c CFLAG_CHACHAPOLY = false -> flag c CFLAG_NONE = false ->
    Forall is_byte key -> Forall is_byte iv -> ci_key_len c <= zlen key -> cipher_ivlen c <= zlen iv ->
    exists e d, evp_prepare c key iv (ci_key_len c) true = Some e /\ evp_prepare c key iv (ci_key_len c) false = Some d /\ evp_synced c e d;
}.

Lemma cipher_init_evp p c key iv enc v : p <> 0 -> flag c CFLAG_CHACHAPOLY = false -> flag c CFLAG_NONE = false ->
  evp_prepare c key iv (ci_key_len c) enc = Some v ->
  cipher_init p c key (cipher_keylen c) (Some iv) (cipher_ivlen c) enc = Ok (mk_ctx _ false enc (Some v) no_cp c).
Proof.
  intros Hp Hc Hn. unfold cipher_init, evp_prepare, cipher_keylen.
  rewrite (proj2 (Z.eqb_neq p 0) Hp), !Z.ltb_irrefl, Hc, Hn. cbn [orb andb].
  destruct EVP_CIPHER_CTX_new as [v0|]; [|done]. cbn [or_fail rbind mbind option_bind].
  destruct (EVP_CipherInit_iv v0 _ _ _) as [v1|]; [|done]. cbn [or_fail rbind mbind option_bind].
  destruct (negb (cipher_authlen c =? 0)); [destruct (EVP_CTRL_GCM_SET_IV_FIXED v1 _) as [v2|]; [|done]|];
    cbn [or_fail rbind mbind option_bind];
    (destruct (_ && _); [destruct (EVP_CIPHER_CTX_set_key_length _ _) as [v3|]; [|done]|]);
    cbn [or_fail rbind mbind option_bind]; intros ->; reflexivity.
Qed.

Lemma byte_at l i : Forall is_byte l -> is_byte (l !!! i).
Proof.
  intros Hl. rewrite list_lookup_total_alt. destruct (l !! i) as [b|] eqn:Eb; [by eapply Forall_lookup_1|]. done.
Qed.

Lemma word_of_bytes l : Forall is_byte l -> is_word (U8TO32_LITTLE l).
Proof.
  intros Hl. unfold U8TO32_LITTLE. repeat apply lor_bound; try lia;
    first [apply Z.mod_pos_bound; lia | pose proof (byte_at l 0%nat Hl) as Hb; unfold is_byte in Hb; lia].
Qed.

Lemma words4_ok l : Forall is_byte l -> Forall is_word (words4 l).
Proof. intros Hl. unfold words4. rewrite !Forall_cons. split_and!; [..|constructor]; apply word_of_bytes; [done|by apply Forall_zdrop..]. Qed.

Lemma keysetup_words k : chacha_keysetup k 256 (replicate 16 0) = words4 sigma ++ words4 k ++ words4 (zdrop 16 k) ++ replicate 4 0.
Proof. reflexivity. Qed.

Lemma keysetup_ok key : Forall is_byte key -> ctx_ok (chacha_keysetup key 256 (replicate 16 0)).
Proof.
  intros Hk. rewrite keysetup_words. split; [reflexivity|]. rewrite !Forall_app. split_and!.
  - apply words4_ok. apply (bool_decide_unpack _). by vm_compute.
  - by apply words4_ok.
  - by apply words4_ok, Forall_zdrop.
  - by apply Forall_replicate.
Qed.

Context `{!EVPInit}.

Lemma cipher_contexts p q c key iv : p <> 0 -> q <> 0 -> c ∈ ciphers ->
  Forall is_byte key -> Forall is_byte iv -> ci_key_len c <= zlen key -> cipher_ivlen c <= zlen iv ->
  exists e d, cipher_init p c key (cipher_keylen c) (Some iv) (cipher_ivlen c) true = Ok e /\
    cipher_init q c key (cipher_keylen c) (Some iv) (cipher_ivlen c) false = Ok d /\ ctx_synced e d /\ cc_cipher e = c.
Proof.
  intros Hp Hq Hc Bk Bi Lk Li. destruct (flag c CFLAG_CHACHAPOLY) eqn:Fc.
  - assert (Hk : ci_key_len c = 64).
    { unfold ciphers in Hc. rewrite !elem_of_cons, elem_of_nil in Hc. by repeat destruct Hc as [->|Hc]. }
    assert (Hz : forall r b, r <> 0 -> cipher_init r c key (cipher_keylen c) (Some iv) (cipher_ivlen c) b =
      Ok (mk_ctx _ (flag c CFLAG_NONE) b None (mk_chachapoly (chacha_keysetup key 256 (replicate 16 0)) (chacha_keysetup (zdrop 32 key) 256 (replicate 16 0))) c)).
    { intros r b Hr. unfold cipher_init, cipher_keylen, chachapoly_new. by rewrite (proj2 (Z.eqb_neq r 0) Hr), !Z.ltb_irrefl, Fc, Hk. }
    eexists _, _. rewrite !Hz by done. split; [done|]. split; [done|]. split; [|done]. unfold ctx_synced. cbn [cc_cipher cc_encrypt cc_plaintext cc_cp].
    rewrite Fc. split_and!; try done; (split; apply keysetup_ok; [done|by apply Forall_zdrop]).
  - destruct (flag c CFLAG_NONE) eqn:Fn.
    + assert (Hz : forall r b, r <> 0 -> cipher_init r c key (cipher_keylen c) (Some iv) (cipher_ivlen c) b = Ok (mk_ctx _ true b None no_cp c)).
      { intros r b Hr. unfold cipher_init, cipher_keylen. by rewrite (proj2 (Z.eqb_neq r 0) Hr), !Z.ltb_irrefl, Fc, Fn. }
      eexists _, _. rewrite !Hz by done. split; [done|]. split; [done|]. split; [|done]. unfold ctx_synced. cbn [cc_cipher cc_encrypt cc_plaintext cc_cp].
      by rewrite Fc, Fn.
    + destruct (evp_init c key iv Hc Fc Fn Bk Bi Lk Li) as (v & w & Ev & Ew & Sy).
      eexists _, _. split; [by apply cipher_init_evp|]. split; [by apply cipher_init_evp|]. split; [|done]. unfold ctx_synced.
      cbn [cc_cipher cc_encrypt cc_plaintext cc_cp cc_evp]. rewrite Fc, Fn. split_and!; try done. by exists v, w.
Qed.
End Init.

(** ** The MAC of a direction *)

(** What umac.c promises: a key of 16 bytes gives a context. *)
Class UMACInit (U : Type) `{UMACLaws U} : Prop := {
  umac_init wide key : 16 <= zlen key -> exists u, umac_new wide key = Some u /\ umac_same wide u u;
}.

Section Started.
Context {V M U Zs K : Type} `{EVPLaws V} `{!EVPInit (V := V)} `{EVP_MDLaws M} `{UMACInit U} `{ZLIB Zs}.
Implicit Types E : penv.
Abbreviation newkeys := (newkeys M U).

Lemma umac_table a : a ∈ macs -> ma_type a <> SSH_DIGEST ->
  (ma_type a = SSH_UMAC \/ ma_type a = SSH_UMAC128) /\ ma_truncatebits a = 0 /\ ma_key_len a = 128 /\
  ma_len a = if ma_type a =? SSH_UMAC128 then 128 else 64.
Proof.
  intros Ha Ht. unfold macs in Ha. rewrite !elem_of_cons, elem_of_nil in Ha.
  repeat destruct Ha as [->|Ha]; try done; (split; [first [by left | by right]|done]).
Qed.

(** The algorithm that [choose_mac] set up. *)
Lemma choose_mac_inv E c s (m : sshmac M U) : choose_mac E c s no_mac = (Ok tt, m) ->
  exists name a, find_mac macs name = Some a /\ forall key, mac_setup (pe_np E) name (set_mac_key key no_mac) = (Ok tt, set_mac_key key m).
Proof.
  unfold choose_mac. destruct (first_match c s) as [[name|]|e|]; try done. rewrite bind_pure.
  unfold bind, or_err, mac_setup. destruct (find_mac macs name) as [a|] eqn:Ea; [|done].
  unfold mac_setup_by_alg. intros Hm. exists name, a. rewrite Ea. split; [done|]. intros key.
  destruct (ma_type a =? SSH_DIGEST); [destruct (ssh_hmac_start _ _) as [h|]; [|done]|]; by injection Hm as <-.
Qed.

Lemma mac_started E c s m key : pe_np E <> 0 -> choose_mac E c s no_mac = (Ok tt, m) -> mac_key_len m <= zlen key ->
  exists m', mac_init (set_mac_key (Some key) m) = (Ok tt, m') /\ mac_agree (set_mac_enabled true m') (set_mac_enabled true m').
Proof.
  intros Hp Hm Hl. destruct (choose_mac_inv E c s m Hm) as (name & a & Ha & Hs). specialize (Hs (Some key)).
  pose proof (find_mac_in _ _ _ Ha) as Hin. destruct (Z.eq_dec (ma_type a) SSH_DIGEST) as [Ht|Ht].
  - assert (Hk : mac_key_len m = ssh_digest_bytes (ma_alg a)).
    { unfold mac_setup in Hs. rewrite Ha in Hs. unfold mac_setup_by_alg in Hs. rewrite (proj2 (Z.eqb_eq _ _) Ht) in Hs.
      destruct (ssh_hmac_start _ _) as [h|]; [|done]. apply (f_equal (fun r => mac_key_len (snd r))) in Hs. symmetry. exact Hs. }
    destruct (mac_ready_init (pe_np E) name a key (set_mac_key (Some key) no_mac) Hp Ha Ht ltac:(lia) eq_refl) as (m' & E1 & [T L Et (h & Eh & Ky)]).
    rewrite (bind_ok _ _ _ _ _ Hs) in E1. exists m'. split; [done|]. destruct (mac_facts a Hin Ht) as [_ Hz].
    constructor; cbn; try done. left. split; [done|]. eexists _, _, h, h. rewrite L. split_and!; try done; lia.
  - destruct (umac_table a Hin Ht) as (Ty & Tr & Kl & Ln). unfold mac_setup in Hs. rewrite Ha in Hs.
    unfold mac_setup_by_alg in Hs. rewrite (proj2 (Z.eqb_neq _ _) Ht), Tr, Kl, Ln in Hs. cbn [Z.eqb negb] in Hs.
    pose proof (f_equal (fun r => mac_key_len (snd r)) Hs) as Hk. cbn in Hk.
    destruct (umac_init (ma_type a =? SSH_UMAC128) key) as (u & Eu & Su); [change (128 / 8) with 16 in Hk; lia|].
    apply (f_equal snd) in Hs. cbn [snd] in Hs. rewrite <- Hs. unfold mac_init, bind, get. cbn [mac_key mac_type set_mac_key no_mac mac_enabled mac_umac]. rewrite (proj2 (Z.eqb_neq _ _) Ht).
    replace ((ma_type a =? SSH_UMAC) || (ma_type a =? SSH_UMAC128)) with true by (destruct Ty as [-> | ->]; done).
    rewrite Eu. eexists. split; [reflexivity|]. constructor; try done. right. split; [done|]. exists u, u. split_and!; try done.
    cbn. by destruct (ma_type a =? SSH_UMAC128).
Qed.

(** ** Putting keys in use *)

(** The MAC [m] is in use. *)
Definition started (m : sshmac M U) (nk : newkeys) : newkeys := set_nk_mac (set_mac_enabled true m) nk.

(** Keys that [kex_derive_keys] has filled in. *)
Record ready (nk : newkeys) : Prop := {
  rd_cipher : enc_cipher (nk_enc nk) ∈ ciphers;
  rd_lens : enc_key_len (nk_enc nk) = cipher_keylen (enc_cipher (nk_enc nk)) /\ enc_iv_len (nk_enc nk) = cipher_ivlen (enc_cipher (nk_enc nk)) /\
            enc_block_size (nk_enc nk) = ci_block_size (enc_cipher (nk_enc nk));
  rd_key : Forall is_byte (enc_key (nk_enc nk)) /\ enc_key_len (nk_enc nk) <= zlen (enc_key (nk_enc nk));
  rd_iv : Forall is_byte (enc_iv (nk_enc nk)) /\ enc_iv_len (nk_enc nk) <= zlen (enc_iv (nk_enc nk));
  rd_mac : cipher_authlen (enc_cipher (nk_enc nk)) = 0 ->
    exists m, mac_init (nk_mac nk) = (Ok tt, m) /\ mac_agree (set_mac_enabled true m) (set_mac_enabled true m);
  rd_comp : comp_enabled (nk_comp nk) = false;
}.

Definition newkeys_of (m : mode) (s : session_state V M U Zs) := match m with MODE_IN => s_newkeys_in s | MODE_OUT => s_newkeys_out s end.
Definition context_of (m : mode) (s : session_state V M U Zs) := match m with MODE_IN => s_receive_context s | MODE_OUT => s_send_context s end.

(** What the packet layer has besides the keys and the counters of rekeying. *)
Record same_stream (s s' : session_state V M U Zs) : Prop := {
  ss_mux : s_mux s' = s_mux s;
  ss_extra_pad : s_extra_pad s' = s_extra_pad s;
  ss_discard : s_packet_discard s' = s_packet_discard s;
  ss_packlen : s_packlen s' = s_packlen s;
  ss_outgoing_packet : s_outgoing_packet s' = s_outgoing_packet s;
  ss_incoming_packet : s_incoming_packet s' = s_incoming_packet s;
  ss_output : s_output s' = s_output s;
  ss_input : s_input s' = s_input s;
  ss_seqnr : ps_seqnr (s_p_send s') = ps_seqnr (s_p_send s) /\ ps_seqnr (s_p_read s') = ps_seqnr (s_p_read s);
  ss_wire : s_wire s' = s_wire s;
}.

Lemma same_stream_refl s : same_stream s s.
Proof. by constructor. Qed.
Lemma same_stream_trans s t u : same_stream s t -> same_stream t u -> same_stream s u.
Proof. intros [? ? ? ? ? ? ? ? [? ?] ?] [? ? ? ? ? ? ? ? [? ?] ?]. constructor; try split; congruence. Qed.

(** The assignments of [ssh_set_newkeys]. *)
Definition put_counts (m : mode) (s : session_state V M U Zs) : session_state V M U Zs :=
  match m with
  | MODE_OUT => set_p_send (mk_packet_state (ps_seqnr (s_p_send s)) 0 0 (ps_bytes (s_p_send s))) s
  | MODE_IN => set_p_read (mk_packet_state (ps_seqnr (s_p_read s)) 0 0 (ps_bytes (s_p_read s))) s
  end.
Definition put_newkeys (m : mode) (nk : option newkeys) : session_state V M U Zs -> session_state V M U Zs :=
  match m with MODE_IN => set_newkeys_in nk | MODE_OUT => set_newkeys_out nk end.
Definition put_context (m : mode) (c : option (sshcipher_ctx V)) : session_state V M U Zs -> session_state V M U Zs :=
  match m with MODE_IN => set_receive_context c | MODE_OUT => set_send_context c end.
Definition put_blocks (m : mode) (b : Z * Z) (s : session_state V M U Zs) : session_state V M U Zs :=
  match m with
  | MODE_OUT => set_max_blocks_out (snd b) (set_hard_max_blocks_out (fst b) s)
  | MODE_IN => set_max_blocks_in (snd b) (set_hard_max_blocks_in (fst b) s)
  end.

Lemma same_counts m s : same_stream s (put_counts m s).
Proof. destruct m; by constructor. Qed.
Lemma same_newkeys m nk s : same_stream s (put_newkeys m nk s).
Proof. destruct m; by constructor. Qed.
Lemma same_context m c s : same_stream s (put_context m c s).
Proof. destruct m; by constructor. Qed.
Lemma same_blocks m b s : same_stream s (put_blocks m b s).
Proof. destruct m; by constructor. Qed.
Lemma same_kex k s : same_stream s (set_kex k s).
Proof. by constructor. Qed.

Lemma on_mac_put m s nk (f : ST (sshmac M U) unit) : newkeys_of m s = Some nk ->
  (match m with MODE_IN => on_mac_in | MODE_OUT => on_mac_out end) f s =
    (fst (f (nk_mac nk)), put_newkeys m (Some (set_nk_mac (snd (f (nk_mac nk))) nk)) s).
Proof. destruct m; cbn; unfold on_mac_in, on_mac_out; intros ->; by destruct (f (nk_mac nk)). Qed.

Lemma set_newkeys_spec E m s k nk cc : s_kex s = Some k -> kx_newkeys m k = Some nk -> ready nk ->
  (comp_type (nk_comp nk) = COMP_DELAYED -> s_after_authentication s = false) ->
  cipher_init (pe_np E) (enc_cipher (nk_enc nk)) (enc_key (nk_enc nk)) (enc_key_len (nk_enc nk)) (Some (enc_iv (nk_enc nk)))
    (enc_iv_len (nk_enc nk)) (match m with MODE_OUT => true | MODE_IN => false end) = Ok cc ->
  exists s' mac, ssh_set_newkeys E m s = (Ok tt, s') /\ newkeys_of m s' = Some (started mac nk) /\ context_of m s' = Some cc /\
    (cipher_authlen (enc_cipher (nk_enc nk)) = 0 -> mac_init (nk_mac nk) = (Ok tt, mac)) /\ same_stream s s'.
Proof.
  intros Hk Hn R Hc Ec.
  assert (Hm : exists mac, (cipher_authlen (enc_cipher (nk_enc nk)) = 0 -> mac_init (nk_mac nk) = (Ok tt, mac)) /\
    (cipher_authlen (enc_cipher (nk_enc nk)) <> 0 -> mac = nk_mac nk)).
  { destruct (Z.eq_dec (cipher_authlen (enc_cipher (nk_enc nk))) 0) as [Ha|Ha]; [|by exists (nk_mac nk)].
    destruct (rd_mac nk R Ha) as (mac & Em & _). by exists mac. }
  destruct Hm as (mac & Em & Em'). clear R. unfold ssh_set_newkeys.
  pose (s1 := put_counts m s). pose (s2 := put_newkeys m (Some nk) s1).
  pose (s3 := set_kex (Some (set_kx_newkeys m None k)) s2). pose (s4 := put_newkeys m (Some (set_nk_mac mac nk)) s3).
  pose (s5 := put_newkeys m (Some (started mac nk)) s4). pose (s7 := put_context m (Some cc) (put_context m None s5)).
  rewrite (bind_ok _ _ _ tt s1) by (by destruct m). rewrite (bind_ok _ _ _ k s1) by (unfold the_kex; destruct m; cbn; by rewrite Hk).
  cbv zeta. change (match m with MODE_IN => kx_newkeys_in k | MODE_OUT => kx_newkeys_out k end) with (kx_newkeys m k).
  rewrite (bind_ok _ _ _ tt s2), Hn by (unfold set_cur_newkeys; rewrite ?Hn; by destruct m).
  rewrite (bind_ok _ _ _ tt s3) by (unfold upd_kex; destruct m; cbn; by rewrite Hk).
  rewrite (bind_ok _ _ _ tt (if cipher_authlen (enc_cipher (nk_enc nk)) =? 0 then s4 else s3)).
  2:{ destruct (_ =? 0) eqn:Ha; [zbool|done]. rewrite (on_mac_put m s3 nk) by (by destruct m). by rewrite (Em Ha). }
  rewrite (bind_ok _ _ _ tt (if cipher_authlen (enc_cipher (nk_enc nk)) =? 0 then s5 else put_newkeys m (Some (started mac nk)) s3)).
  2:{ destruct (_ =? 0) eqn:Ha; zbool.
      - rewrite (on_mac_put m s4 (set_nk_mac mac nk)) by (by destruct m). done.
      - rewrite (on_mac_put m s3 nk) by (by destruct m). by rewrite <- (Em' Ha). }
  set (s6 := if _ =? 0 then s5 else _).
  assert (S6 : same_stream s s6 /\ newkeys_of m s6 = Some (started mac nk) /\ s_after_authentication s6 = s_after_authentication s).
  { unfold s6, s5, s4, s3, s2, s1. destruct (_ =? 0); (split; [|by destruct m]); repeat (eapply same_stream_trans; [|apply same_newkeys]);
      (eapply same_stream_trans; [|apply same_kex]); (eapply same_stream_trans; [|apply same_newkeys]); apply same_counts. }
  destruct S6 as (S6 & N6 & A6). clearbody s6. clear s1 s2 s3 s4 s5 s7. pose (s7 := put_context m (Some cc) (put_context m None s6)).
  rewrite (bind_ok _ _ _ tt (put_context m None s6)) by (by destruct m).
  rewrite Ec, bind_pure, (bind_ok _ _ _ tt s7) by (by destruct m). rewrite bind_get.
  assert (Hcomp : (comp_type (nk_comp nk) =? COMP_DELAYED) && s_after_authentication s7 = false).
  { replace (s_after_authentication s7) with (s_after_authentication s) by (destruct m; exact (eq_sym A6)). destruct (_ =? _) eqn:Ht; [|done]. zbool. by rewrite Hc. }
  rewrite Hcomp, andb_false_l, bind_ret_l. destruct (max_blocks_of _ _) as [hard soft].
  exists (put_blocks m (hard, soft) s7), mac. split; [by destruct m|]. split; [by destruct m|]. split; [by destruct m|]. split; [done|].
  eapply same_stream_trans; [exact S6|]. eapply same_stream_trans; [|apply same_blocks]. eapply same_stream_trans; [|apply same_context]. apply same_context.
Qed.

(** ** The keys of a choice *)

Lemma find_cipher_in l name c : find_cipher l name = Some c -> c ∈ l.
Proof. induction l as [|d l IH]; [done|]. cbn. destruct (streq _ _); [intros [= ->]; left|right; auto]. Qed.

(** What [choose_keys] leaves for [kex_derive_keys]. *)
Record fresh (nk : newkeys) : Prop := {
  fr_cipher : enc_cipher (nk_enc nk) ∈ ciphers;
  fr_lens : enc_key_len (nk_enc nk) = cipher_keylen (enc_cipher (nk_enc nk)) /\ enc_iv_len (nk_enc nk) = cipher_ivlen (enc_cipher (nk_enc nk)) /\
            enc_block_size (nk_enc nk) = ci_block_size (enc_cipher (nk_enc nk));
  fr_mac : cipher_authlen (enc_cipher (nk_enc nk)) = 0 -> forall key, mac_key_len (nk_mac nk) <= zlen key ->
    exists m, mac_init (set_mac_key (Some key) (nk_mac nk)) = (Ok tt, m) /\ mac_agree (set_mac_enabled true m) (set_mac_enabled true m);
  fr_comp : comp_enabled (nk_comp nk) = false;
  fr_mac_len : mac_key_len (nk_mac nk) <= 64;
}.

Lemma chosen_mac_len E c s (m : sshmac M U) : choose_mac E c s no_mac = (Ok tt, m) -> mac_key_len m <= 64.
Proof.
  intros Hm. destruct (choose_mac_inv E c s m Hm) as (name & a & Ha & Hs). specialize (Hs None). pose proof (find_mac_in _ _ _ Ha) as Hin.
  unfold mac_setup in Hs. rewrite Ha in Hs. unfold mac_setup_by_alg in Hs. destruct (ma_type a =? SSH_DIGEST) eqn:Ht; zbool.
  - destruct (ssh_hmac_start _ _) as [h|]; [|done]. apply (f_equal (fun r => mac_key_len (snd r))) in Hs. cbn in Hs. rewrite <- Hs.
    apply digest_bytes_max, (mac_facts a Hin Ht).
  - destruct (umac_table a Hin Ht) as (_ & _ & Kl & _). apply (f_equal (fun r => mac_key_len (snd r))) in Hs. cbn in Hs.
    rewrite <- Hs, Kl. done.
Qed.

Lemma keys_of_fresh E cp sp ctos nk : pe_np E <> 0 -> keys_of E cp sp ctos = Ok nk -> fresh nk.
Proof.
  intros Hp. unfold keys_of, keys_from. cbv zeta. unfold choose_enc.
  destruct (first_match _ _) as [[name|]|e|]; cbn [rbind]; [|done..].
  destruct (cipher_by_name name) as [c|] eqn:Ec; cbn [rbind enc_cipher]; [|done]. apply find_cipher_in in Ec.
  destruct (cipher_authlen c =? 0) eqn:Ha; zbool.
  - set (mc := default [] (cp !! _)). set (ms := default [] (sp !! _)). clearbody mc ms.
    destruct (choose_mac E mc ms no_mac) as [[[]|e|] m] eqn:Em; cbn [rbind fst snd]; [|done..].
    destruct (choose_comp _ _) as [type|e|]; cbn [rbind]; [|done..]. intros [= <-]. constructor; cbn; try done.
    + intros _ key Hl. by apply (mac_started E mc ms).
    + by apply (chosen_mac_len E mc ms).
  - cbn [rbind]. destruct (choose_comp _ _) as [type|e|]; cbn [rbind]; [|done..]. intros [= <-]. by constructor.
Qed.

Lemma fresh_ready nk iv key mackey : fresh nk -> Forall is_byte iv -> Forall is_byte key ->
  keys_need nk 0 <= zlen iv -> keys_need nk 0 <= zlen key -> keys_need nk 0 <= zlen mackey -> ready (install_keys iv key mackey nk).
Proof.
  intros [Hc (Lk & Li & Lb) Hm Hcomp _] Bi Bk Hi Hk Hmk. unfold keys_need in *.
  constructor; cbn; try done; [by split; [|lia]..|]. intros Ha. apply Hm; [done|lia].
Qed.

(** A choice needs keys of some bytes. *)
Lemma fresh_need nk : fresh nk -> 0 < keys_need nk 0 <= 64.
Proof.
  intros [Hc (Lk & Li & Lb) _ _ Hl]. unfold keys_need. rewrite Lk, Li, Lb. unfold cipher_keylen.
  assert (0 < ci_block_size (enc_cipher (nk_enc nk)) /\ ci_key_len (enc_cipher (nk_enc nk)) <= 64 /\
          ci_block_size (enc_cipher (nk_enc nk)) <= 64 /\ cipher_ivlen (enc_cipher (nk_enc nk)) <= 64) as (? & ? & ? & ?).
  { unfold ciphers in Hc. rewrite !elem_of_cons, elem_of_nil in Hc. repeat destruct Hc as [->|Hc]; try done; repeat split; by vm_compute. }
  lia.
Qed.

(** ** Both ends *)

Abbreviation ssh := (ssh (V := V) (M := M) (U := U) (Zs := Zs) (K := K)).
Implicit Types x y : ssh.

(** Every method of the table has a digest. *)
Lemma kex_hash_known n : kex_name_valid n = true -> ssh_digest_by_alg (kex_hash_from_name n) <> None.
Proof.
  unfold kex_name_valid, kex_hash_from_name. destruct (kex_alg_by_name n) as [a|] eqn:Ea; [|done]. intros _.
  assert (Hall : Forall (fun a => is_Some (ssh_digest_by_alg (ka_hash_alg a))) kexalgs) by (repeat constructor; by eexists).
  unfold kex_alg_by_name in Ea. apply List.find_some in Ea as [Hin _]. rewrite Forall_forall in Hall.
  destruct (Hall a) as [d ->]; [by apply list_elem_of_In|done].
Qed.

Lemma negotiate_fresh E cp sp ch : pe_np E <> 0 -> negotiate E cp sp = Some ch ->
  fresh (ch_ctos ch) /\ fresh (ch_stoc ch) /\ ssh_digest_by_alg (kex_hash_from_name (ch_kex ch)) <> None.
Proof.
  intros Hp. unfold negotiate. destruct (first_match (default [] (cp !! PROPOSAL_KEX_ALGS)) _) as [[n|]|e|]; try done.
  destruct (first_match (default [] (cp !! PROPOSAL_SERVER_HOST_KEY_ALGS)) _) as [[h|]|e|]; try done.
  destruct (keys_of E cp sp true) as [ctos|e|] eqn:E3; try done. destruct (keys_of E cp sp false) as [stoc|e|] eqn:E4; try done.
  destruct (kex_name_valid n) eqn:Hv; [|done]. destruct (negb _); [|done]. intros [= <-]. cbn [ch_kex ch_ctos ch_stoc andb].
  split_and!; [by apply (keys_of_fresh _ _ _ _ _ Hp E3)|by apply (keys_of_fresh _ _ _ _ _ Hp E4)|by apply kex_hash_known].
Qed.

(** The keys of a choice, derived. *)
Definition final_keys (ch : choice) (secret hash sid : list Z) (ctos : bool) : newkeys :=
  keys_for (kex_hash_from_name (ch_kex ch)) (need_of ch) secret hash sid ctos (if ctos then ch_ctos ch else ch_stoc ch).

Lemma kdf_bytes alg need secret hash sid id : Forall is_byte (kdf alg need secret hash sid id).
Proof. apply expand_bytes, md_hash_bytes. Qed.

Lemma final_keys_ready ch secret hash sid ctos : fresh (ch_ctos ch) -> fresh (ch_stoc ch) ->
  ssh_digest_by_alg (kex_hash_from_name (ch_kex ch)) <> None -> ready (final_keys ch secret hash sid ctos).
Proof.
  intros Fc Fs Ha. destruct (digest_facts _ Ha) as [Hb _]. pose proof (fresh_need _ Fc). pose proof (fresh_need _ Fs).
  assert (Hl : forall id, need_of ch <= zlen (kdf (kex_hash_from_name (ch_kex ch)) (need_of ch) secret hash sid id)).
  { intros id. apply kdf_len; [done..|]. unfold need_of. lia. }
  assert (Hn : forall b : bool, keys_need (if b then ch_ctos ch else ch_stoc ch) 0 <= need_of ch) by (intros []; unfold need_of; lia).
  unfold final_keys, keys_for. destruct ctos; (apply fresh_ready; [done|apply kdf_bytes..| | |]); (etrans; [|apply Hl]); first [apply (Hn true) | apply (Hn false)].
Qed.

(** An end with its session identifier, empty before the first exchange. *)
Record identified (sid hash : list Z) x : Prop := {
  id_hash : Forall is_byte hash /\ 0 < zlen hash <= 64;
  id_sid : exists k s, s_kex (ssh_state x) = Some k /\ pbuf (kn_session_id (ssh_neg x)) s /\ (is_initial k = true <-> s = []) /\
    sid = (if is_initial k then hash else s);
}.

(** One end, from the choice to the derived keys. *)
Lemma chosen_derives E hash sid secret ch x x1 : chosen ch x x1 -> identified sid hash x -> pe_np E <> 0 -> sshbuf_wf secret ->
  fresh (ch_ctos ch) -> fresh (ch_stoc ch) -> ssh_digest_by_alg (kex_hash_from_name (ch_kex ch)) <> None ->
  exists x2 k2, kex_derive_keys E hash secret x1 = (Ok tt, x2) /\ ssh_state x2 = set_kex (Some k2) (ssh_state x) /\
    kx_newkeys MODE_IN k2 = Some (final_keys ch (contents secret) hash sid (kn_server (ssh_neg x))) /\
    kx_newkeys MODE_OUT k2 = Some (final_keys ch (contents secret) hash sid (negb (kn_server (ssh_neg x)))).
Proof.
  intros [Kp (k1 & Hk1 & Hi & Ho) _ _ Ha _ _ _ _ Hn _] [Hh (k & s & Hk & Ps & Hs & ->)] Hp W Fc Fs Hd.
  destruct Kp as [(k0 & k1' & Hk0 & S1 & _ & _ & I1) _ _ Hsv _ Hsid _]. rewrite S1 in Hk1. injection Hk1 as ->.
  rewrite Hk in Hk0. injection Hk0 as <-. pose proof (fresh_need _ Fc). pose proof (fresh_need _ Fs).
  assert (D : derivable hash (if kn_server (ssh_neg x) then ch_ctos ch else ch_stoc ch) (if kn_server (ssh_neg x) then ch_stoc ch else ch_ctos ch) k1 x1).
  { constructor; rewrite ?Ha, ?Hn; try done; [by rewrite S1|exists s; by rewrite Hsid, I1|unfold need_of; lia]. }
  destruct (derive_keys_spec E hash secret _ _ k1 x1 D Hp W) as (x2 & k2 & E2 & S2 & I2 & O2 & _). cbv zeta in *.
  exists x2, k2. split; [done|]. split; [by rewrite S2, S1|]. rewrite I2, O2. unfold final_keys, session_of.
  rewrite Ha, Hn, Hsv, I1, Hsid, (pb_data _ _ Ps). by destruct (kn_server (ssh_neg x)).
Qed.

(** Two packet layers that would be connected if they had the same keys. *)
Record linkable (a b : session_state V M U Zs) : Prop := {
  lk_mux : s_mux a = false /\ s_mux b = false;
  lk_plain : s_extra_pad a = 0 /\ s_packet_discard b = 0 /\ s_packlen b = 0;
  lk_seq : ps_seqnr (s_p_send a) = ps_seqnr (s_p_read b);
  lk_out : exists o l, s_outgoing_packet a = Some o /\ pbuf o l;
  lk_in : exists l, pbuf (s_incoming_packet b) l;
  lk_empty : pbuf (s_output a) [] /\ pbuf (s_input b) [];
}.

Lemma linkable_same a b a' b' : linkable a b -> same_stream a a' -> same_stream b b' -> linkable a' b'.
Proof.
  intros [? ? ? ? ? ?] [A1 A2 A3 A4 A5 A6 A7 A8 [A9 A10] A11] [B1 B2 B3 B4 B5 B6 B7 B8 [B9 B10] B11].
  constructor; rewrite ?A1, ?A2, ?A5, ?A7, ?A9, ?B1, ?B3, ?B4, ?B6, ?B8, ?B10; done.
Qed.

(** Delayed compression would start at once after authentication. *)
Definition plain_stream (nk : newkeys) (a : session_state V M U Zs) : Prop :=
  comp_type (nk_comp nk) = COMP_DELAYED -> s_after_authentication a = false.

Lemma keys_connect E E' nk a b ka kb : ready nk -> 0 < pe_np E -> 0 < pe_np E' -> plain_stream nk a -> plain_stream nk b -> linkable a b ->
  s_kex a = Some ka -> kx_newkeys MODE_OUT ka = Some nk -> s_kex b = Some kb -> kx_newkeys MODE_IN kb = Some nk ->
  exists a' b', ssh_set_newkeys E MODE_OUT a = (Ok tt, a') /\ ssh_set_newkeys E' MODE_IN b = (Ok tt, b') /\ connected a' b'.
Proof.
  intros R Hp Hq Ca Cb L Ha Na Hb Nb.
  destruct (cipher_contexts (pe_np E) (pe_np E') (enc_cipher (nk_enc nk)) (enc_key (nk_enc nk)) (enc_iv (nk_enc nk))) as (e & d & Ee & Ed & Sy & Ce);
    try lia; try (by apply R).
  { destruct R as [_ (Lk & _) [_ Hl] _ _ _]. rewrite Lk in Hl. exact Hl. }
  { destruct R as [_ (_ & Li & _) _ [_ Hl] _ _]. rewrite Li in Hl. exact Hl. }
  destruct (rd_lens nk R) as (Lk & Li & Lb). rewrite <- Lk, <- Li in *.
  destruct (set_newkeys_spec E MODE_OUT a ka nk e Ha Na R Ca Ee) as (a' & ma & Ea & Oa & Xa & Ma & Sa).
  destruct (set_newkeys_spec E' MODE_IN b kb nk d Hb Nb R Cb Ed) as (b' & mb & Eb & Ob & Xb & Mb & Sb).
  exists a', b'. split; [done|]. split; [done|]. cbn in Oa, Ob, Xa, Xb.
  destruct (linkable_same a b a' b' L Sa Sb) as [? ? ? ? ? ?]. constructor; try done. exists e, d. split; [done|]. split; [done|].
  rewrite Oa, Ob. split; [done|]. rewrite Ce. constructor; cbn; try done; [by rewrite (rd_comp nk R)|].
  unfold keys_mac, keys_authlen. cbn [nk_enc started set_nk_mac]. destruct (cipher_authlen _ =? 0) eqn:Hz; zbool; [|done].
  destruct (rd_mac nk R Hz) as (m & Em & Ag). rewrite (Ma Hz) in Em. injection Em as ->. specialize (Mb Hz). rewrite (Ma Hz) in Mb. injection Mb as <-.
  exact Ag.
Qed.

(** C4. A key exchange gives two ends the same keys, and with them a connection.
    A client and a server that hold the same two KEXINIT payloads, and then the
    same exchange hash and secret, either both refuse the proposals, or both
    choose the same algorithms and derive, for each direction, the keys
    K1 || K2 || ... of the protocol (letters A, C, E for the direction from the
    client, B, D, F for the other), long enough for the cipher and the MAC.  When
    the sender of a direction and its receiver then put their keys in use, both
    succeed and are connected: every packet of one is delivered by the other. *)
Theorem exchange_connects E E' seq seq' ci si hash sid secret secret' x y :
  exchanged E seq ci si x -> exchanged E' seq' si ci y -> kn_server (ssh_neg x) = false -> kn_server (ssh_neg y) = true ->
  identified sid hash x -> identified sid hash y -> sshbuf_wf secret -> sshbuf_wf secret' -> contents secret' = contents secret ->
  (fst (kex_choose_conf E seq x) <> Ok tt /\ fst (kex_choose_conf E' seq' y) <> Ok tt) \/
  exists ch x1 y1 x2 y2,
    kex_choose_conf E seq x = (Ok tt, x1) /\ kex_choose_conf E' seq' y = (Ok tt, y1) /\ chosen ch x x1 /\ chosen ch y y1 /\
    kex_derive_keys E hash secret x1 = (Ok tt, x2) /\ kex_derive_keys E' hash secret' y1 = (Ok tt, y2) /\
    let key := final_keys ch (contents secret) hash sid in
    ready (key true) /\ ready (key false) /\
    (exists k, s_kex (ssh_state x2) = Some k /\ kx_newkeys MODE_OUT k = Some (key true) /\ kx_newkeys MODE_IN k = Some (key false)) /\
    (exists k, s_kex (ssh_state y2) = Some k /\ kx_newkeys MODE_IN k = Some (key true) /\ kx_newkeys MODE_OUT k = Some (key false)) /\
    (linkable (ssh_state x) (ssh_state y) -> plain_stream (key true) (ssh_state x) -> plain_stream (key true) (ssh_state y) ->
     exists a b, ssh_set_newkeys E MODE_OUT (ssh_state x2) = (Ok tt, a) /\ ssh_set_newkeys E' MODE_IN (ssh_state y2) = (Ok tt, b) /\ connected a b) /\
    (linkable (ssh_state y) (ssh_state x) -> plain_stream (key false) (ssh_state x) -> plain_stream (key false) (ssh_state y) ->
     exists a b, ssh_set_newkeys E MODE_IN (ssh_state x2) = (Ok tt, a) /\ ssh_set_newkeys E' MODE_OUT (ssh_state y2) = (Ok tt, b) /\ connected b a).
Proof.
  intros Hx Hy Sx Sy Ix Iy W W' Ec. pose proof (ex_alloc _ _ _ _ _ Hx) as Hp. pose proof (ex_alloc _ _ _ _ _ Hy) as Hq.
  pose proof (conf_of_payloads _ _ _ _ _ Hx) as Cx. pose proof (conf_of_payloads _ _ _ _ _ Hy) as Cy. rewrite Sx in Cx. rewrite Sy in Cy. cbv zeta in Cx, Cy.
  destruct (parse_prop ci) as [[cp fc]|e|]; [|left; destruct (parse_prop si) as [[? ?]|?|]; by split..].
  destruct (parse_prop si) as [[sp fs]|e|]; [|left; by split..].
  rewrite (negotiate_any E' E) in Cy by lia. destruct (negotiate E cp sp) as [ch|] eqn:En; [right|left; by split].
  destruct (negotiate_fresh E cp sp ch ltac:(lia) En) as (Fc & Fs & Hd). destruct Cx as (x1 & Ex & Kx), Cy as (y1 & Ey & Ky).
  destruct (chosen_derives E hash sid secret ch x x1 Kx Ix ltac:(lia) W Fc Fs Hd) as (x2 & k2 & Dx & Stx & Inx & Outx).
  destruct (chosen_derives E' hash sid secret' ch y y1 Ky Iy ltac:(lia) W' Fc Fs Hd) as (y2 & j2 & Dy & Sty & Iny & Outy).
  rewrite Sx in Inx, Outx. rewrite Sy, Ec in Iny, Outy. exists ch, x1, y1, x2, y2. do 6 (split; [done|]). cbv zeta. rewrite Stx, Sty.
  do 2 (split; [by apply final_keys_ready|]). split; [by exists k2|]. split; [by exists j2|]. split; intros L C1 C2.
  - apply (keys_connect E E' _ _ _ k2 j2 (final_keys_ready ch (contents secret) hash sid true Fc Fs Hd)); try done.
    apply (linkable_same _ _ _ _ L); apply same_kex.
  - destruct (keys_connect E' E (final_keys ch (contents secret) hash sid false) (set_kex (Some j2) (ssh_state y)) (set_kex (Some k2) (ssh_state x)) j2 k2)
      as (b & a & Eb & Ea & Co); try done; [by apply final_keys_ready|apply (linkable_same _ _ _ _ L); apply same_kex|by exists a, b].
Qed.
End Started.

(** ** A connection of the ends of [KexDemo] *)

#[local] Instance demo_evp_init : EVPInit (V := LinkDemo.ctx).
Proof.
  constructor. intros c key iv Hc _ _ _ _ _ _. unfold evp_prepare. cbn [EVP_CIPHER_CTX_new EVP_CipherInit_iv LinkDemo.evp mbind option_bind].
  destruct (negb _); cbn [EVP_CTRL_GCM_SET_IV_FIXED EVP_CIPHER_CTX_key_length LinkDemo.evp mbind option_bind];
    (destruct (_ && _)); cbn [EVP_CIPHER_CTX_set_key_length EVP_CipherInit_key LinkDemo.evp mbind option_bind];
    (eexists _, _; split; [reflexivity|]; split; [reflexivity|]); (split; [done|]; split; [done|]);
    destruct (cipher_facts c Hc) as (_ & Ha & _); lia.
Qed.

#[local] Instance demo_umac_init : UMACInit (list Z * list Z).
Proof. constructor. intros wide key _. by exists (key, []). Qed.

Lemma demo_identified (server : bool) : identified (replicate 32 5) (replicate 32 5) (KexDemo.end_of server).
Proof.
  constructor; [split; [by apply Forall_replicate|by vm_compute]|]. eexists _, []. split; [reflexivity|].
  split; [destruct server; exact KexDemo.empty_pbuf|]. by destruct server.
Qed.

Lemma demo_linkable kc ks : linkable (set_kex kc (set_server_side false LinkDemo.fresh)) (set_kex ks (set_server_side true LinkDemo.fresh)).
Proof.
  pose proof KexDemo.empty_pbuf as Q. constructor; [done|done|done|by eexists _, []|by exists []|by split].
Qed.

Lemma exchange_connects_witness : exists x1 y1 x2 y2 a b secret,
  kex_choose_conf LinkDemo.E 0 (KexDemo.end_of false) = (Ok tt, x1) /\ kex_choose_conf LinkDemo.E 0 (KexDemo.end_of true) = (Ok tt, y1) /\
  kex_derive_keys LinkDemo.E (replicate 32 5) secret x1 = (Ok tt, x2) /\ kex_derive_keys LinkDemo.E (replicate 32 5) secret y1 = (Ok tt, y2) /\
  ssh_set_newkeys LinkDemo.E MODE_OUT (ssh_state x2) = (Ok tt, a) /\ ssh_set_newkeys LinkDemo.E MODE_IN (ssh_state y2) = (Ok tt, b) /\ connected a b.
Proof.
  pose proof (KexDemo.filled_pbuf _ (proj1 KexDemo.proposals_sendable)) as P. set (secret := KexDemo.filled KexDemo.proposal) in *.
  destruct (exchange_connects LinkDemo.E LinkDemo.E 0 0 _ _ (replicate 32 5) (replicate 32 5) secret secret _ _ (demo_exchanged false) (demo_exchanged true)
    eq_refl eq_refl (demo_identified false) (demo_identified true) (pb_wf _ _ P) (pb_wf _ _ P) eq_refl)
    as [[Hn _]|(ch & x1 & y1 & x2 & y2 & Ex & Ey & _ & _ & Dx & Dy & _ & _ & _ & _ & Hc & _)]; [exfalso; apply Hn; by vm_compute|].
  destruct Hc as (a & b & Ea & Eb & Co); [|intros _; reflexivity..|].
  - apply demo_linkable.
  - exists x1, y1, x2, y2, a, b, secret. repeat (split; [assumption|]). exact Co.
Defined.
