(* ===== verification/KexAuth.v ===== *)
(** * What a key exchange authenticates

    The exchange hash as a function of everything the two ends said, and the
    client's handler of the server's reply: keys are installed only when the host
    key was accepted and its signature of that hash verified. *)
From S2P Require Import Prelude Sshbuf SshbufGetput SshbufSpec CString SshbufMisc Words Chacha ChachaPoly Cipher Hmac Mac PacketState Packet PacketBuf Codec PacketSend PacketLink PacketAuth Match SshkeyNames KexNames Kex Compat KexInput Curve25519 KexGen KexProp KexDemo.

(** ** The transcript *)

Section Transcript.
(** The strings of the two ends: their versions, their KEXINIT payloads, the host
    key, the two public values and the encoded secret. *)
Record exchange : Type := mk_exchange {
  tr_client_version : list Z; tr_server_version : list Z;
  tr_client_kexinit : list Z; tr_server_kexinit : list Z;
  tr_host_key : list Z; tr_client_pub : list Z; tr_server_pub : list Z;
  tr_secret : list Z;
}.

Definition transcript (t : exchange) : list Z :=
  concat (enc_string <$> [tr_client_version t; tr_server_version t; SSH2_MSG_KEXINIT :: tr_client_kexinit t;
                          SSH2_MSG_KEXINIT :: tr_server_kexinit t; tr_host_key t; tr_client_pub t; tr_server_pub t]) ++ tr_secret t.

Lemma enc_string_inj a b r s : zlen a < 2 ^ 32 -> zlen b < 2 ^ 32 -> enc_string a ++ r = enc_string b ++ s -> a = b /\ r = s.
Proof.
  intros La Lb Eq. unfold enc_string in Eq. rewrite <- !app_assoc in Eq.
  apply app_inj_1 in Eq as [E1 E2]; [|done]. apply (f_equal be) in E1. pose proof (zlen_nonneg a). pose proof (zlen_nonneg b).
  rewrite !be_POKE_U32, !u32_small in E1 by lia. apply app_inj_1 in E2; [done|]. unfold zlen in E1. lia.
Qed.

Lemma concat_enc_inj (l m : list (list Z)) r s : length l = length m -> Forall (fun a => zlen a < 2 ^ 32) l -> Forall (fun a => zlen a < 2 ^ 32) m ->
  concat (enc_string <$> l) ++ r = concat (enc_string <$> m) ++ s -> l = m /\ r = s.
Proof.
  revert m. induction l as [|a l IH]; intros [|b m] Hl Fl Fm; try done. cbn [fmap list_fmap concat]. rewrite <- !app_assoc. intros Eq.
  inversion Fl; inversion Fm; subst. apply enc_string_inj in Eq as [<- Eq]; [|done..]. apply IH in Eq as [<- <-]; try done. cbn in Hl. lia.
Qed.

(** The strings of an exchange are packets or parts of them. *)
Definition sized (t : exchange) : Prop := zlen (transcript t) <= SSHBUF_SIZE_MAX.

Lemma sized_parts t : sized t ->
  Forall (fun a => zlen a < 2 ^ 32) [tr_client_version t; tr_server_version t; SSH2_MSG_KEXINIT :: tr_client_kexinit t;
    SSH2_MSG_KEXINIT :: tr_server_kexinit t; tr_host_key t; tr_client_pub t; tr_server_pub t].
Proof.
  unfold sized, transcript. set (l := [_; _; _; _; _; _; _]). intros Hs. rewrite zlen_app in Hs. pose proof (zlen_nonneg (tr_secret t)).
  apply Forall_forall. intros a Ha. apply concat_enc_len in Ha. sb_consts. lia.
Qed.

Lemma transcript_inj t u : sized t -> sized u -> transcript t = transcript u -> t = u.
Proof.
  intros St Su Eq. apply concat_enc_inj in Eq as [Eq Es]; [|done|by apply sized_parts..].
  destruct t, u. cbn in *. congruence.
Qed.
End Transcript.

Section Hash.
Context {M : Type} `{EVP_MDLaws M}.

(** A KEXINIT payload with the header it was sent with. *)
Lemma appends_kexinit np v k w : np <> 0 -> sshbuf_wf v -> appends k w ->
  appends (let! n := reads (fun _ => sshbuf_len v) in
           do! sshbuf_put_u32 np (u32 (n + 1)) ;; do! sshbuf_put_u8 np SSH2_MSG_KEXINIT ;; do! sshbuf_putb np (Some v) ;; k)
          (enc_string (SSH2_MSG_KEXINIT :: contents v) ++ w).
Proof.
  intros Hp W Hk. apply (appends_reads _ (zlen (contents v))); [by apply sshbuf_len_wf|].
  assert (Hz : 0 <= zlen (contents v) + 1 < 2 ^ 32).
  { pose proof (contents_len v W). pose proof (zlen_nonneg (contents v)). wf_facts W. sb_consts. lia. }
  replace (enc_string (SSH2_MSG_KEXINIT :: contents v) ++ w) with (POKE_U32 (u32 (zlen (contents v) + 1)) ++ [u8 SSH2_MSG_KEXINIT] ++ contents v ++ w).
  2:{ unfold enc_string. rewrite zlen_cons, u32_small, <- app_assoc by lia. done. }
  apply appends_then; [apply (appends_field np (FU32 _) Hp); cbn; rewrite u32_small by lia; exact Hz|].
  apply appends_then; [by apply (appends_field np (FU8 _) Hp)|]. apply appends_then; [by apply appends_putb|done].
Qed.

(** The buffers of an exchange. *)
Definition exchange_of (cv sv ci si blob cpub spub secret : sshbuf) : exchange :=
  mk_exchange (contents cv) (contents sv) (contents ci) (contents si) (contents blob) (contents cpub) (contents spub) (contents secret).

Lemma gen_hash_spec np alg cv sv ci si blob cpub spub secret : 0 < np -> ssh_digest_by_alg alg <> None ->
  Forall sshbuf_wf [cv; sv; ci; si; blob; cpub; spub; secret] -> sized (exchange_of cv sv ci si blob cpub spub secret) ->
  kex_gen_hash np alg cv sv ci si blob cpub spub secret = Ok (md_hash alg (transcript (exchange_of cv sv ci si blob cpub spub secret))).
Proof.
  intros Hp Ha Hw Hs. rewrite !Forall_cons in Hw. destruct Hw as (W1 & W2 & W3 & W4 & W5 & W6 & W7 & W8 & _).
  pose proof (digest_bytes_max alg Ha) as Hd. unfold kex_gen_hash. rewrite (proj2 (Z.ltb_ge _ _)) by (unfold SSH_DIGEST_MAX_LENGTH; lia).
  unfold in_new. destruct (sshbuf_new np np) as [b|] eqn:Eb; [|unfold sshbuf_new in Eb; by rewrite (proj2 (Z.eqb_neq np 0)) in Eb by lia].
  pose proof (pbuf_new np b Hp Eb) as P. set (m := bind _ _). set (t := exchange_of _ _ _ _ _ _ _ _) in *.
  assert (A : appends m (transcript t)).
  { assert (Hn : np <> 0) by lia. subst m t. unfold transcript, exchange_of. cbn [fmap list_fmap concat tr_client_version tr_server_version tr_client_kexinit
      tr_server_kexinit tr_host_key tr_client_pub tr_server_pub tr_secret]. rewrite <- !app_assoc, app_nil_l.
    do 2 (apply appends_then; [by apply appends_stringb|]). do 2 (apply appends_kexinit; [done|done|]).
    do 3 (apply appends_then; [by apply appends_stringb|]). by apply appends_putb. }
  destruct (A b [] P) as (b' & Em & P'); [exact Hs|]. rewrite Em. cbn [rbind app] in *. rewrite buf_bytes_wf, (pb_data _ _ P') by apply P'. cbn [rbind].
  unfold ssh_digest_memory, ssh_digest_bytes in *. destruct (ssh_digest_by_alg alg) as [dg|] eqn:Eg; [|done].
  rewrite (proj1 (by_alg_mdfunc alg dg Eg)), md_memory.
  rewrite (proj2 (Z.ltb_ge UINT_MAX _)) by done. by rewrite (proj2 (Z.ltb_ge _ (dg_len dg))) by (unfold SSH_DIGEST_MAX_LENGTH; lia).
Qed.

(** C11. The exchange hash binds the whole exchange.  Whatever buffers hold them,
    [kex_gen_hash] hashes one encoding of the two version strings, the two
    KEXINIT payloads, the host key, the two public values and the secret, and
    that encoding is injective: two exchanges with different values in any place
    give the digest different inputs.  Both ends compute the same hash from the
    same values, so a signature of it is a signature of all of them. *)
Theorem exchange_hash_binds np alg cv sv ci si blob cpub spub secret :
  0 < np -> ssh_digest_by_alg alg <> None -> Forall sshbuf_wf [cv; sv; ci; si; blob; cpub; spub; secret] ->
  sized (exchange_of cv sv ci si blob cpub spub secret) ->
  kex_gen_hash np alg cv sv ci si blob cpub spub secret = Ok (md_hash alg (transcript (exchange_of cv sv ci si blob cpub spub secret))) /\
  forall t, sized t -> transcript t = transcript (exchange_of cv sv ci si blob cpub spub secret) ->
    t = exchange_of cv sv ci si blob cpub spub secret.
Proof. intros Hp Ha Hw Hs. split; [by apply gen_hash_spec|]. intros t St. by apply transcript_inj. Qed.
End Hash.

(** ** The reply of the server *)

Lemma get_string_inv np b p b' : sshbuf_wf b -> sshbuf_get_string np b = (Ok p, b') ->
  sshbuf_wf b' /\ contents b = enc_string (str_of p) ++ contents b'.
Proof.
  intros W Q. pose proof (sshbuf_get_string_spec np b W) as S. pose proof (contents_bytes b W) as Bb.
  destruct (string_len (contents b)) as [n|e|] eqn:En; [|congruence|done].
  destruct S as (b1 & W1 & _ & C1 & S). rewrite S in Q. destruct (np =? 0); [done|]. injection Q as <- <-.
  destruct (string_len_ok _ _ En Bb) as [Hn Hl]. split; [done|]. unfold str_of. cbn [fst snd]. rewrite C1.
  rewrite ztake_app_le, (ztake_all n (ztake _ _)) by zl. by apply string_len_split.
Qed.

Section Reply.
Context {V M U Zs K : Type} `{EVP V} `{EVP_MD M} `{UMAC U} `{ZLIB Zs} `{SSHKEY K}.
Context (kems : Z -> kem) (hooks : kex_hooks K).
Implicit Types E : penv.
Abbreviation ssh := (ssh (V := V) (M := M) (U := U) (Zs := Zs) (K := K)).
Implicit Types x : ssh.

Lemma on_state_inv {A} (m : PM V M U Zs A) x a x' : on_state m x = (Ok a, x') -> exists s', m (ssh_state x) = (Ok a, s') /\ x' = set_state s' x.
Proof. unfold on_state. destruct (m (ssh_state x)) as [r s']. intros [= -> <-]. by exists s'. Qed.

(** Reading from the packet. *)
Lemma incoming_ok_inv {A} (m : ST sshbuf A) x a x' : on_state (on_incoming m) x = (Ok a, x') ->
  exists b', m (s_incoming_packet (ssh_state x)) = (Ok a, b') /\ x' = set_state (set_incoming_packet b' (ssh_state x)) x.
Proof.
  intros Q. apply on_state_inv in Q as (s' & Q & ->). unfold on_incoming in Q. destruct (m _) as [r b']. injection Q as -> <-. by exists b'.
Qed.

Lemma reads_inv {A} (r : res A) x a x' : reads (fun _ => r) x = (Ok a, x') -> r = Ok a /\ x' = x.
Proof. by intros [= -> ->]. Qed.

Lemma dispatch_set_inv type h x u x' : ssh_dispatch_set type h x = (Ok u, x') -> exists ds, x' = set_dispatch ds x.
Proof. unfold ssh_dispatch_set, change. intros Q. repeat case_match; try done; injection Q as _ <-; by eexists. Qed.

Lemma the_kex_inv x k x' : on_state the_kex x = (Ok k, x') -> s_kex (ssh_state x) = Some k /\ x' = x.
Proof.
  intros Q. apply on_state_inv in Q as (s' & Q & ->). unfold the_kex in Q. destruct (s_kex (ssh_state x)) as [k'|]; [|done].
  injection Q as -> <-. split; [done|]. by destruct x.
Qed.

Lemma get_end_inv x u x' : sshbuf_wf (s_incoming_packet (ssh_state x)) -> on_state sshpkt_get_end x = (Ok u, x') ->
  x' = x /\ contents (s_incoming_packet (ssh_state x)) = [].
Proof.
  intros W Q. apply on_state_inv in Q as (s' & Q & ->). unfold sshpkt_get_end in Q. inv_step Q n s1 E1.
  unfold on_incoming, blen, reads in E1. rewrite sshbuf_len_wf in E1 by done. injection E1 as <- <-.
  destruct (0 <? zlen _) eqn:Hz; [done|]. injection Q as _ <-. zbool. split; [by destruct x as [[] ? ? ? ?]|].
  destruct (contents _) as [|c l]; [done|]. pose proof (zlen_nonneg l). rewrite zlen_cons in Hz. lia.
Qed.

Lemma verify_inv k x u x' : kex_verify_host_key hooks k x = (Ok u, x') ->
  x' = x /\ key_type k = kn_hostkey_type (ssh_neg x) /\ (key_type k = KEY_ECDSA -> key_ecdsa_nid k = kn_hostkey_nid (ssh_neg x)) /\
  exists verify, verify_host_key hooks = Some verify /\ verify k <> -1.
Proof.
  unfold kex_verify_host_key. rewrite bind_get. cbv zeta. destruct (verify_host_key hooks) as [verify|]; [|done].
  destruct (_ || _) eqn:C; [done|]. destruct (verify k =? -1) eqn:D; [done|]. intros [= _ <-]. apply orb_false_iff in C as [C1 C2].
  apply negb_false_iff, Z.eqb_eq in C1. apply Z.eqb_neq in D. split; [done|]. split; [done|]. split; [|by exists verify].
  intros Ht. rewrite <- C1, Ht, Z.eqb_refl in C2. by apply negb_false_iff, Z.eqb_eq in C2.
Qed.

(** What the client has checked when it derives keys: the packet is a host key, a
    public value and a signature; the key has the type that was negotiated, the
    application accepts it, and it verifies the signature of the hash of what
    this client has sent, received and computed. *)
Record authenticated E x (packet blob : list Z) (key : K) (server_pub signature hash : list Z) (secret : sshbuf) : Prop := {
  au_packet : packet = enc_string blob ++ enc_string server_pub ++ enc_string signature;
  au_key : sshkey_fromb blob = Ok key;
  au_type : key_type key = kn_hostkey_type (ssh_neg x) /\ (key_type key = KEY_ECDSA -> key_ecdsa_nid key = kn_hostkey_nid (ssh_neg x));
  au_accepted : exists verify, verify_host_key hooks = Some verify /\ verify key <> -1;
  au_hash : exists k b p kx pub, kem_of_type kems E (kn_kex_type (ssh_neg x)) = Some k /\ s_kex (ssh_state x) = Some kx /\
    kn_client_pub (ssh_neg x) = Some pub /\ contents b = blob /\ contents p = server_pub /\
    kem_dec k (client_key (kn_kex_type (ssh_neg x)) (ssh_neg x)) p = Ok secret /\
    kex_gen_hash (pe_np E) (kn_hash_alg (ssh_neg x)) (kn_client_version (ssh_neg x)) (kn_server_version (ssh_neg x)) (kx_my kx)
      (kn_peer (ssh_neg x)) b pub p secret = Ok hash;
  au_signed : sshkey_verify key signature hash (kn_hostkey_alg (ssh_neg x)) (ssh_compat x) = Ok tt;
}.

(** Nothing was derived and nothing sent. *)
Definition untouched x x' : Prop := s_kex (ssh_state x') = s_kex (ssh_state x) /\ s_output (ssh_state x') = s_output (ssh_state x) /\ s_wire (ssh_state x') = s_wire (ssh_state x).

Lemma bind_cases {A B} (m : ST ssh A) (k : A -> ST ssh B) x r x' : bind m k x = (r, x') ->
  (exists a x1, m x = (Ok a, x1) /\ k a x1 = (r, x')) \/ ((forall b, r <> Ok b) /\ x' = snd (m x)).
Proof. unfold bind. destruct (m x) as [[a|e|] x1]; intros Q; [left; by exists a, x1|right; injection Q as <- <-; done..]. Qed.

Lemma untouched_incoming {A} (m : ST sshbuf A) x x1 : untouched x x1 -> untouched x (snd (on_state (on_incoming m) x1)).
Proof. intros U1. unfold on_state, on_incoming. destruct (m _) as [r b]. exact U1. Qed.
Lemma untouched_end x x1 : untouched x x1 -> untouched x (snd (on_state sshpkt_get_end x1)).
Proof.
  intros U1. unfold on_state, sshpkt_get_end, bind, on_incoming, blen, reads. destruct (sshbuf_len _) as [n|e|]; [destruct (0 <? n)|..]; exact U1.
Qed.
Lemma untouched_kex x x1 : untouched x x1 -> untouched x (snd (on_state the_kex x1)).
Proof. intros U1. unfold on_state, the_kex. destruct (s_kex (ssh_state x1)); exact U1. Qed.
Lemma untouched_verify k x x1 : untouched x x1 -> untouched x (snd (kex_verify_host_key hooks k x1)).
Proof. intros U1. unfold kex_verify_host_key. rewrite bind_get. cbv zeta. repeat case_match; exact U1. Qed.

(** The next step of the handler, or the end with nothing done. *)
Ltac reply_step R a y E := apply bind_cases in R as [(a & y & E & R)|[R ->]]; [|left; split; [|exact (R tt)];
  first [by apply untouched_incoming | by apply untouched_end | by apply untouched_kex | by apply untouched_verify | done]].

Lemma reply_cases E type seq x r x' : sshbuf_wf (s_incoming_packet (ssh_state x)) -> 0 < sb_cd (s_incoming_packet (ssh_state x)) -> 0 < pe_np E ->
  input_kex_gen_reply kems hooks E type seq x = (r, x') ->
  (untouched x x' /\ r <> Ok tt) \/
  exists blob key server_pub signature hash secret x1,
    authenticated E x (contents (s_incoming_packet (ssh_state x))) blob key server_pub signature hash secret /\
    ssh_neg x1 = ssh_neg x /\ s_kex (ssh_state x1) = s_kex (ssh_state x) /\
    (r = Ok tt -> exists x2, kex_derive_keys E hash secret x1 = (Ok tt, x2)).
Proof.
  intros W Hcd Hp Q. unfold input_kex_gen_reply in Q. apply bind_cases in Q as [(u & x0 & E0 & Q)|[Q ->]].
  2:{ left. split; [|exact (Q tt)]. unfold ssh_dispatch_set. by destruct (_ && _). }
  apply dispatch_set_inv in E0 as [ds ->]. unfold forget_client_keys in Q.
  match type of Q with (let '(_, _) := ?m ?y in _) = _ => destruct (m y) as [r0 xe] eqn:R end. injection Q as -> <-.
  match goal with |- (untouched x ?z /\ _) \/ ?Q => enough ((untouched x xe /\ r <> Ok tt) \/ Q) as [[Hu Hr]|Hq]; [by left|by right|] end.
  set (x0 := set_dispatch ds x) in R. assert (U0 : untouched x x0) by done.
  reply_step R b1 x1 E1. apply incoming_ok_inv in E1 as (i1 & E1 & ->).
  destruct (string_view_inv _ _ _ _ W Hp Hcd E1) as (W1 & Cd1 & Wb & Cb & C1).
  set (x1 := set_state (set_incoming_packet i1 (ssh_state x0)) x0) in R. assert (U1 : untouched x x1) by done.
  reply_step R tmp x2 E2. apply reads_inv in E2 as [E2 ->]. destruct (prop_view_wf _ _ Wb Hp Cb) as (v & Ev & Wv & Cv).
  rewrite Ev in E2. injection E2 as <-. reply_step R l x2 E3. apply reads_inv in E3 as [E3 ->].
  rewrite buf_bytes_wf, Cv in E3 by done. injection E3 as <-. reply_step R key x2 E4. apply reads_inv in E4 as [E4 ->].
  reply_step R u' x2 E5. apply verify_inv in E5 as (-> & Ht & He & Hv).
  reply_step R b2 x2 E6. apply incoming_ok_inv in E6 as (i2 & E6 & ->). cbn [ssh_state set_state s_incoming_packet set_incoming_packet x1] in E6.
  destruct (string_view_inv _ _ _ _ W1 Hp ltac:(lia) E6) as (W2 & _ & _ & _ & C2).
  set (x2 := set_state (set_incoming_packet i2 (ssh_state x1)) x1) in R. assert (U2 : untouched x x2) by done.
  reply_step R sg x3 E7. apply incoming_ok_inv in E7 as (i3 & E7 & ->). cbn [ssh_state set_state s_incoming_packet set_incoming_packet x1 x2] in E7.
  destruct (get_string_inv _ _ _ _ W2 E7) as [W3 C3].
  set (x3 := set_state (set_incoming_packet i3 (ssh_state x2)) x2) in R. assert (U3 : untouched x x3) by done.
  reply_step R u2 x4 E8. apply get_end_inv in E8 as [-> C4]; [|exact W3]. change (contents i3 = []) in C4.
  rewrite bind_get in R. change (ssh_neg x3) with (ssh_neg x) in R.
  destruct (kem_of_type kems E (kn_kex_type (ssh_neg x))) as [k|] eqn:Ek; [|left; split; [|by injection R as <- <-]; by injection R as <- <-].
  reply_step R secret x4 E9. apply reads_inv in E9 as [E9 ->]. reply_step R kx x4 E10. apply the_kex_inv in E10 as [E10 ->].
  reply_step R pub x4 E11. apply reads_inv in E11 as [E11 ->]. reply_step R hash x4 E12. apply reads_inv in E12 as [E12 ->].
  reply_step R u3 x4 E13. apply reads_inv in E13 as [E13 ->]. destruct u3.
  right. exists (contents b1), key, (contents b2), (str_of sg), hash, secret, x3. split; [|split; [done|split; [done|]]].
  - constructor; [|exact E4|by split|exact Hv| |exact E13]; [by rewrite C1, C2, C3, C4, app_nil_r|].
    exists k, b1, b2, kx, pub. split; [exact Ek|]. split; [exact E10|]. split; [|done]. unfold client_pub in E11.
    destruct (kn_client_pub (ssh_neg x)); [congruence|done].
  - intros ->. inv_step R u4 x4 E14. destruct u4. by exists x4.
Qed.

(** C5. A client installs the keys of an exchange only for an authenticated
    server.  Whatever packet arrives as the reply, either the handler fails with
    no key derived and nothing sent, or the packet is exactly a host key, a public
    value and a signature; the host key has the negotiated type, the application
    accepts it, and it verifies the signature of the exchange hash computed from
    this client's own versions, KEXINIT payloads and public value and the secret
    that keys are then derived from. *)
Theorem host_key_authenticated E type seq x r x' :
  sshbuf_wf (s_incoming_packet (ssh_state x)) -> 0 < sb_cd (s_incoming_packet (ssh_state x)) -> 0 < pe_np E ->
  input_kex_gen_reply kems hooks E type seq x = (r, x') ->
  (untouched x x' /\ r <> Ok tt) \/
  exists blob key server_pub signature hash secret x1,
    authenticated E x (contents (s_incoming_packet (ssh_state x))) blob key server_pub signature hash secret /\
    ssh_neg x1 = ssh_neg x /\ s_kex (ssh_state x1) = s_kex (ssh_state x) /\
    (r = Ok tt -> exists x2, kex_derive_keys E hash secret x1 = (Ok tt, x2)).
Proof. exact (reply_cases E type seq x r x'). Qed.
End Reply.

(** ** A run *)

Module ReplyDemo.
(** Keys are numbers, a signature is the key and what it signs. *)
#[global] Instance keyops : SSHKEY Z := {
  key_type _ := KEY_ED25519; key_ecdsa_nid _ := 0;
  sshkey_fromb l := match l with [k] => Ok k | _ => Err SSH_ERR_INVALID_FORMAT end;
  sshkey_tob k := Ok [k]; sshkey_from_private k := Ok k;
  sshkey_equal_public := Z.eqb;
  sshkey_sign k d _ _ := match k with Some k => Ok (k :: d) | None => Err SSH_ERR_INTERNAL_ERROR end;
  sshkey_verify k s d _ _ := if bool_decide (s = k :: d) then Ok tt else Err SSH_ERR_SIGNATURE_INVALID;
}.
Definition buf (l : list Z) : sshbuf := match in_new 1 (sshbuf_put 1 l) with Ok b => b | _ => KexDemo.empty end.
Definition method : kem := mk_kem (Ok ([7], buf [1; 2; 3])) (fun _ => Ok (buf [4; 5], buf [0; 0; 0; 1; 7])) (fun _ _ => Ok (buf [0; 0; 0; 1; 7])).
(** The application knows the host key 9. *)
Definition hooks : kex_hooks Z := mk_kex_hooks Z (Some (fun k => if k =? 9 then 0 else -1)) None None (fun _ _ _ _ _ => Err SSH_ERR_INTERNAL_ERROR).

(** A client that has sent its public value. *)
Definition chosen_end : KexDemo.ssh := snd (kex_choose_conf LinkDemo.E 0 (KexDemo.end_of false)).
Definition the_hash : list Z :=
  match kex_gen_hash (M := Z * list Z) 1 (kn_hash_alg (ssh_neg chosen_end)) KexDemo.empty KexDemo.empty (KexDemo.filled KexDemo.proposal) (KexDemo.filled KexDemo.proposal')
          (buf [9]) (buf [1; 2; 3]) (buf [4; 5]) (buf [0; 0; 0; 1; 7]) with Ok h => h | _ => [] end.
Definition reply (signer : Z) : list Z := enc_string [9] ++ enc_string [4; 5] ++ enc_string (signer :: the_hash).
Definition client (signer : Z) : KexDemo.ssh :=
  let x := set_neg (set_kn_client_pub (Some (buf [1; 2; 3])) (ssh_neg chosen_end)) chosen_end in
  set_dispatch (replicate 255 H_kex_protocol_error) 
    (set_state (set_incoming_packet (buf (reply signer)) (snd (ssh_packet_set_connection LinkDemo.E (ssh_state x)))) x).
Definition run (signer : Z) : res unit * KexDemo.ssh := input_kex_gen_reply (fun _ => method) hooks LinkDemo.E SSH2_MSG_KEX_ECDH_REPLY 0 (client signer).
End ReplyDemo.

Lemma buf_pbuf l : Forall is_byte l -> zlen l <= SSHBUF_SIZE_MAX -> pbuf (ReplyDemo.buf l) l.
Proof.
  intros Hl Hz. destruct (pb_put 1 l KexDemo.empty [] KexDemo.empty_pbuf ltac:(done) Hl) as (b & E & P); [unfold zlen in *; cbn; lia|].
  unfold ReplyDemo.buf, in_new. assert (sshbuf_new 1 1 = Some KexDemo.empty) as -> by reflexivity. rewrite E. exact P.
Qed.

Lemma exchange_hash_binds_witness :
  let e := KexDemo.empty in
  kex_gen_hash (M := Z * list Z) 1 SSH_DIGEST_SHA256 e e e e (ReplyDemo.buf [9]) e e e = Ok (md_hash SSH_DIGEST_SHA256 (transcript (mk_exchange [] [] [] [] [9] [] [] []))).
Proof.
  assert (P9 : pbuf (ReplyDemo.buf [9]) [9]) by (apply buf_pbuf; [by repeat constructor|done]). pose proof KexDemo.empty_pbuf as P.
  destruct (exchange_hash_binds (M := Z * list Z) 1 SSH_DIGEST_SHA256 KexDemo.empty KexDemo.empty KexDemo.empty KexDemo.empty (ReplyDemo.buf [9])
    KexDemo.empty KexDemo.empty KexDemo.empty) as [E _]; [done|done|repeat (constructor; [first [apply P | apply P9]|]); constructor|by vm_compute|exact E].
Defined.

Lemma host_key_authenticated_witness :
  fst (ReplyDemo.run 9) = Ok tt /\ fst (ReplyDemo.run 8) = Err SSH_ERR_SIGNATURE_INVALID /\
  exists blob key server_pub signature hash secret,
    authenticated (fun _ => ReplyDemo.method) ReplyDemo.hooks LinkDemo.E (ReplyDemo.client 9) (ReplyDemo.reply 9) blob key server_pub signature hash secret.
Proof.
  assert (P : pbuf (s_incoming_packet (ssh_state (ReplyDemo.client 9))) (ReplyDemo.reply 9)).
  { change (s_incoming_packet _) with (ReplyDemo.buf (ReplyDemo.reply 9)). apply buf_pbuf; [|by vm_compute]. apply (bool_decide_unpack _). by vm_compute. }
  split; [by vm_compute|]. split; [by vm_compute|].
  destruct (host_key_authenticated (fun _ => ReplyDemo.method) ReplyDemo.hooks LinkDemo.E SSH2_MSG_KEX_ECDH_REPLY 0 (ReplyDemo.client 9) _ _
    (pb_wf _ _ P) ltac:(by vm_compute) ltac:(done) (surjective_pairing _)) as [[_ Hn]|(blob & key & sp & sg & h & sec & x1 & Ha & _)].
  - exfalso. apply Hn. by vm_compute.
  - exists blob, key, sp, sg, h, sec. rewrite (pb_data _ _ P) in Ha. exact Ha.
Defined.
