(* ===== verification/KexFrame.v ===== *)
(** * What the packet layer leaves of a key exchange

    Sending, writing, deriving keys and reading messages do not change whether an
    exchange is the first one or strict, nor the sequence number of the peer's
    packets; receiving a packet moves only the number. *)
From S2P Require Import Prelude Sshbuf SshbufGetput CString SshbufMisc Words Chacha ChachaPoly Cipher Hmac Mac PacketState Packet PacketBuf PacketAuth.

Create HintDb stays.

Section Frame.
Context {V M U Zs : Type} `{EVP V} `{EVP_MD M} `{UMAC U} `{ZLIB Zs}.
Implicit Types s : session_state V M U Zs.
Implicit Types k : kex M U.

Definition initial k : bool := negb (Z.land (kx_flags k) KEX_INITIAL =? 0).
(** Whether the exchange is strict and the first one. *)
Definition kex_mode k : bool * bool := (kx_strict k, initial k).
Definition smode s : option (bool * bool) := kex_mode <$> s_kex s.
Definition sview s : option (bool * bool) * Z := (smode s, ps_seqnr (s_p_read s)).

Definition stays {A} (m : PM V M U Zs A) : Prop := forall s, sview (snd (m s)) = sview s.

(** ** The constructs *)

Lemma stays_ret {A} (a : A) : stays (ret a).
Proof. done. Qed.
Lemma stays_fail {A} e : stays (fail (A := A) e).
Proof. done. Qed.
Lemma stays_crash {A} : stays (crash (A := A)).
Proof. done. Qed.
Lemma stays_get : stays get.
Proof. done. Qed.
Lemma stays_reads {A} (f : session_state V M U Zs -> res A) : stays (reads f).
Proof. done. Qed.
Lemma stays_defined {A} (o : option A) : stays (defined o).
Proof. by destruct o. Qed.
Lemma stays_bind {A B} (m : PM V M U Zs A) (f : A -> PM V M U Zs B) : stays m -> (forall a, stays (f a)) -> stays (bind m f).
Proof. intros Hm Hf s. unfold bind. specialize (Hm s). destruct (m s) as [[a|e|] s1]; cbn [snd] in *; [|done..]. by rewrite Hf. Qed.
Lemma stays_upd f : (forall s, sview (f s) = sview s) -> stays (upd f).
Proof. intros Hf s. apply Hf. Qed.
Lemma stays_ignore {A} (m : PM V M U Zs A) : stays m -> stays (ignore m).
Proof. intros Hm s. specialize (Hm s). unfold ignore. by destruct (m s) as [[] ?]. Qed.
Lemma stays_rounds {A B} (body : A -> PM V M U Zs (A + B)) n : (forall a, stays (body a)) -> forall a, stays (rounds n body a).
Proof.
  intros Hb. induction n as [|n IH]; intros a; [apply Hb|]. cbn [rounds]. apply stays_bind; [apply IH|].
  intros [a'|b]; [apply IH | apply stays_ret].
Qed.

(** ** The parts of the session *)

Lemma stays_on_input {A} (m : ST sshbuf A) : stays (on_input m).
Proof. intros s. unfold on_input. by destruct (m _). Qed.
Lemma stays_on_output {A} (m : ST sshbuf A) : stays (on_output m).
Proof. intros s. unfold on_output. by destruct (m _). Qed.
Lemma stays_on_incoming {A} (m : ST sshbuf A) : stays (on_incoming m).
Proof. intros s. unfold on_incoming. by destruct (m _). Qed.
Lemma stays_on_outgoing {A} (m : ST sshbuf A) : stays (on_outgoing m).
Proof. intros s. unfold on_outgoing. destruct (s_outgoing_packet s); [|done]. by destruct (m _). Qed.
Lemma stays_on_compression {A} (m : ST sshbuf A) : stays (on_compression m).
Proof. intros s. unfold on_compression. destruct (s_compression_buffer s); [|done]. by destruct (m _). Qed.
Lemma stays_on_send_context {A} (m : ST (sshcipher_ctx V) A) : stays (on_send_context m).
Proof. intros s. unfold on_send_context. destruct (s_send_context s); [|done]. by destruct (m _). Qed.
Lemma stays_on_receive_context {A} (m : ST (sshcipher_ctx V) A) : stays (on_receive_context m).
Proof. intros s. unfold on_receive_context. destruct (s_receive_context s); [|done]. by destruct (m _). Qed.
Lemma stays_on_mac_out {A} (m : ST (sshmac M U) A) : stays (on_mac_out m).
Proof. intros s. unfold on_mac_out. destruct (s_newkeys_out s); [|done]. by destruct (m _). Qed.
Lemma stays_on_mac_in {A} (m : ST (sshmac M U) A) : stays (on_mac_in m).
Proof. intros s. unfold on_mac_in. destruct (s_newkeys_in s); [|done]. by destruct (m _). Qed.
Lemma stays_the_kex : stays the_kex.
Proof. intros s. unfold the_kex. by destruct (s_kex s). Qed.
Lemma stays_upd_kex f : (forall k, kex_mode (f k) = kex_mode k) -> stays (upd_kex f).
Proof. intros Hf s. unfold upd_kex. destruct (s_kex s) as [k|] eqn:Ek; [|done]. unfold sview, smode. cbn. by rewrite Hf, Ek. Qed.

(** The flags of an exchange other than KEX_INITIAL. *)
Lemma set_flag_mode f k : Z.land f KEX_INITIAL = 0 -> kex_mode (set_kx_flags (Z.lor (kx_flags k) f) k) = kex_mode k.
Proof. intros Hf. unfold kex_mode, initial. cbn. by rewrite Z.land_lor_distr_l, Hf, Z.lor_0_r. Qed.
Lemma clear_flag_mode f k : Z.land f KEX_INITIAL = 0 -> kex_mode (set_kx_flags (Z.land (kx_flags k) (Z.lnot f)) k) = kex_mode k.
Proof.
  intros Hf. unfold kex_mode, initial. cbn. do 3 f_equal. rewrite <- Z.land_assoc. f_equal.
  rewrite Z.land_comm, <- Z.ldiff_land. apply Z.bits_inj'. intros n Hn. apply (f_equal (fun z => Z.testbit z n)) in Hf.
  rewrite Z.land_spec, Z.bits_0 in Hf. rewrite Z.ldiff_spec. by destruct (Z.testbit f n), (Z.testbit KEX_INITIAL n).
Qed.
End Frame.

#[export] Hint Resolve stays_ret stays_fail stays_crash stays_get stays_reads stays_defined stays_on_input stays_on_incoming
  stays_on_output stays_on_outgoing stays_on_compression stays_on_send_context stays_on_receive_context stays_on_mac_out stays_on_mac_in
  stays_the_kex : stays.

(** Follow the code to its primitive steps. *)
Ltac stay :=
  repeat lazymatch goal with
  | |- stays (bind _ _) => apply stays_bind; [|intros]
  | |- stays (upd _) => apply stays_upd; intros; reflexivity
  | |- stays (upd_kex _) => apply stays_upd_kex; intros; first [reflexivity | by apply set_flag_mode]
  | |- stays (ignore _) => apply stays_ignore
  | |- stays (rounds _ _ _) => apply stays_rounds; intros
  | |- stays (match ?x with _ => _ end) => destruct x
  | |- stays (let _ := _ in _) => cbv zeta
  | |- stays _ => solve [auto 2 with stays]
  end.

Section Sending.
Context {V M U Zs : Type} `{EVP V} `{EVP_MD M} `{UMAC U} `{ZLIB Zs}.
Implicit Types E : penv.
Implicit Types disc rekex sender : PM V M U Zs unit.
#[local] Abbreviation stays := (stays (V := V) (M := M) (U := U) (Zs := Zs)).

Lemma stays_enable_comp E m : stays (enable_comp E m).
Proof. unfold enable_comp, ssh_packet_init_compression, start_compression_out, start_compression_in. destruct m; stay. Qed.
Hint Resolve stays_enable_comp : stays.

Lemma stays_enable_delayed_compress E : stays (ssh_packet_enable_delayed_compress E).
Proof. unfold ssh_packet_enable_delayed_compress, delay_comp. stay. Qed.
Hint Resolve stays_enable_delayed_compress : stays.

Lemma stays_set_newkeys E m : stays (ssh_set_newkeys E m).
Proof. unfold ssh_set_newkeys, set_cur_newkeys, set_cur_context. destruct m; stay. Qed.
Hint Resolve stays_set_newkeys : stays.

Lemma stays_compress_packet E : stays (compress_packet E).
Proof. unfold compress_packet, compress_buffer, stream_input, compress_round. stay. Qed.
Hint Resolve stays_compress_packet : stays.

Lemma stays_send2_wrapped disc E : stays disc -> stays (send2_wrapped disc E).
Proof. intros Hd. unfold send2_wrapped, pad_length, pad_packet, seal_packet, count_sent. stay. Qed.
Hint Resolve stays_send2_wrapped : stays.

Lemma stays_flush_queue disc rekex E : stays disc -> stays rekex -> forall fuel, stays (flush_queue disc rekex E fuel).
Proof. intros Hd Hr fuel. induction fuel as [|fuel IH]; cbn [flush_queue]; stay. Qed.
Hint Resolve stays_flush_queue : stays.

Lemma stays_send disc rekex E : stays disc -> stays rekex -> stays (send disc rekex E).
Proof. intros Hd Hr. unfold send, ssh_packet_send_mux, send2, enqueue, ssh_packet_check_rekey_preauth. stay. Qed.
Hint Resolve stays_send : stays.

Lemma stays_write_poll w : stays (ssh_packet_write_poll w).
Proof. unfold ssh_packet_write_poll. stay. Qed.
Hint Resolve stays_write_poll : stays.
Lemma stays_write_loop ws : stays (write_loop ws).
Proof. induction ws as [|w ws IH]; cbn [write_loop]; unfold ssh_packet_have_data_to_write; stay. Qed.
Hint Resolve stays_write_loop : stays.
Lemma stays_write_wait E : stays (ssh_packet_write_wait E).
Proof. unfold ssh_packet_write_wait. stay. Qed.
Hint Resolve stays_write_wait : stays.

Lemma stays_disconnect_msg E sender msg : stays sender -> stays (disconnect_msg E sender msg).
Proof. intros Hs. unfold disconnect_msg, sshpkt_start, sshpkt_put_u32, sshpkt_put_cstring. stay. Qed.
Hint Resolve stays_disconnect_msg : stays.

Lemma stays_disconnect E msg : stays (ssh_packet_disconnect E msg).
Proof. unfold ssh_packet_disconnect, packet_disconnect. stay. apply stays_disconnect_msg. auto with stays. Qed.
Hint Resolve stays_disconnect : stays.

Lemma stays_send_kexinit E sender : stays sender -> stays (send_kexinit E sender).
Proof. intros Hs. unfold send_kexinit, sshpkt_start, sshpkt_putb. stay. Qed.
Hint Resolve stays_send_kexinit : stays.

Lemma stays_start_rekex E : stays (kex_start_rekex E).
Proof. unfold kex_start_rekex, start_rekex. stay. apply stays_send_kexinit. auto with stays. Qed.
Hint Resolve stays_start_rekex : stays.

Lemma stays_check_rekey E : stays (ssh_packet_check_rekey E).
Proof. unfold ssh_packet_check_rekey, ssh_packet_check_rekey_preauth. stay. Qed.
Hint Resolve stays_check_rekey : stays.

Lemma stays_pkt_send E : stays (sshpkt_send E).
Proof. apply stays_send; auto with stays. Qed.
Hint Resolve stays_pkt_send : stays.
Lemma stays_pkt_kexinit E : stays (kex_send_kexinit E).
Proof. apply stays_send_kexinit. auto with stays. Qed.
Lemma stays_pkt_disconnect E msg : stays (sshpkt_disconnect E msg).
Proof. apply stays_disconnect_msg. auto with stays. Qed.
Hint Resolve stays_pkt_disconnect : stays.

(** ** Receiving *)

Lemma stays_fill_incoming E fuel dlen : stays (fill_incoming E fuel dlen).
Proof. induction fuel as [|fuel IH]; cbn [fill_incoming]; stay. Qed.
Hint Resolve stays_fill_incoming : stays.
Lemma stays_stop_discard E : stays (ssh_packet_stop_discard E).
Proof. unfold ssh_packet_stop_discard. stay. Qed.
Hint Resolve stays_stop_discard : stays.
Lemma stays_start_discard E n d : stays (ssh_packet_start_discard E n d).
Proof. unfold ssh_packet_start_discard. stay. Qed.
Hint Resolve stays_start_discard : stays.

Lemma stays_get_length E p n : stays (fun s => match on_receive_context (cipher_get_length (pe_tmp E) (ps_seqnr (s_p_read s)) p n) s with
  | (Ok n, s) => (Ok (Some n), s) | (Err _, s) => (Ok None, s) | (Crash, s) => (Crash, s) end).
Proof.
  intros s. pose proof (stays_on_receive_context (cipher_get_length (pe_tmp E) (ps_seqnr (s_p_read s)) p n) s) as Hs.
  by destruct (on_receive_context _ s) as [[] ?].
Qed.
Hint Resolve stays_get_length : stays.
Lemma stays_read_length E : stays (read_length E).
Proof. unfold read_length. stay. Qed.

Lemma stays_mac_verdict E q d t n : stays (fun s => match on_mac_in (mac_check (pe_um E) q d t n) s with
  | (Ok _, s) => (Ok true, s) | (Err e, s) => if e =? SSH_ERR_MAC_INVALID then (Ok false, s) else (Err e, s) | (Crash, s) => (Crash, s) end).
Proof.
  intros s. pose proof (stays_on_mac_in (mac_check (pe_um E) q d t n) s) as Hs.
  destruct (on_mac_in _ s) as [[|e|] ?]; [done| |done]. by destruct (_ =? _).
Qed.
Hint Resolve stays_mac_verdict : stays.
Lemma stays_open_packet E : stays (open_packet E).
Proof. unfold open_packet. stay. Qed.

Lemma stays_unpad_packet E : stays (unpad_packet E).
Proof. unfold unpad_packet, corrupt, uncompress_buffer, stream_input, uncompress_round. stay. Qed.
Lemma stays_transport_msg E type : stays (transport_msg E type).
Proof. unfold transport_msg, sshpkt_get_u32, sshpkt_get_string, sshpkt_get_string_direct, sshpkt_get_u8, sshpkt_start, sshpkt_put_string. stay. Qed.
Lemma stays_process_incoming E buf : stays (ssh_packet_process_incoming E buf).
Proof. unfold ssh_packet_process_incoming. stay. Qed.
End Sending.
#[export] Hint Resolve stays_write_wait stays_set_newkeys stays_disconnect stays_start_rekex stays_check_rekey stays_pkt_send stays_pkt_kexinit
  stays_pkt_disconnect stays_read_length stays_open_packet stays_unpad_packet stays_transport_msg stays_process_incoming
  stays_enable_delayed_compress : stays.

(** ** Sequence numbers *)

Section Numbers.
Context {V M U Zs : Type} `{EVP V} `{EVP_MD M} `{UMAC U} `{ZLIB Zs}.
Implicit Types s : session_state V M U Zs.
Implicit Types E : penv.

Lemma stays_run {A} (m : PM V M U Zs A) s r s' : stays m -> m s = (r, s') -> sview s' = sview s.
Proof. intros Hm Es. specialize (Hm s). by rewrite Es in Hm. Qed.
Lemma sview_inv s s' : sview s' = sview s -> smode s' = smode s /\ ps_seqnr (s_p_read s') = ps_seqnr (s_p_read s).
Proof. unfold sview. intros Hv. split; congruence. Qed.

Lemma disconnect_ends E msg s a s' : ssh_packet_disconnect E msg s <> (Ok a, s').
Proof.
  unfold ssh_packet_disconnect, packet_disconnect. rewrite bind_get. destruct (s_disconnecting s); [done|].
  intros Q. inv_step Q u s1 E1. inv_step Q w s2 E2. done.
Qed.

Lemma mode_of s st i : smode s = Some (st, i) -> exists k, s_kex s = Some k /\ kx_strict k = st /\ initial k = i.
Proof. unfold smode. destruct (s_kex s) as [k|]; [|done]. intros [= <- <-]. by exists k. Qed.

Lemma count_read_number E s st i seq s' : smode s = Some (st, i) -> count_read E s = (Ok seq, s') ->
  seq = ps_seqnr (s_p_read s) /\ smode s' = smode s /\ (i = true -> 0 < ps_seqnr (s_p_read s')).
Proof.
  intros Hm Q. unfold count_read in Q. rewrite bind_get in Q. inv_step Q u s1 E1. injection E1 as _ <-. rewrite bind_get in Q.
  inv_step Q u1 s1 E1. cbn [s_p_read set_p_read ps_seqnr] in E1.
  set (s0 := set_p_read _ s) in E1.
  assert (smode s1 = smode s /\ ps_seqnr (s_p_read s1) = u32 (ps_seqnr (s_p_read s) + 1) /\ (i = true -> u32 (ps_seqnr (s_p_read s) + 1) <> 0)) as (M1 & N1 & P1).
  { destruct (Z.eqb_spec (u32 (ps_seqnr (s_p_read s) + 1)) 0) as [E0|E0].
    - inv_step E1 k s2 E2. destruct (mode_of s st i Hm) as (k0 & Ek & Est & Ei). unfold the_kex in E2. cbn in E2. rewrite Ek in E2. injection E2 as <- <-.
      change (negb (Z.land (kx_flags k0) KEX_INITIAL =? 0)) with (initial k0) in E1. rewrite Ei in E1.
      destruct i; [by apply disconnect_ends in E1|]. injection E1 as _ <-. split_and!; [reflexivity..|done].
    - injection E1 as _ <-. split_and!; [reflexivity..|done]. }
  clearbody s0. inv_step Q u2 s2 E2. injection E2 as _ <-. rewrite bind_get in Q. cbn [s_p_read set_p_read ps_packets] in Q.
  match type of Q with (if ?c then _ else _) _ = _ => destruct c; [done|] end. inv_step Q u3 s3 E3. injection E3 as _ <-. injection Q as <- <-. cbn.
  split; [done|]. split; [exact M1|].
  intros Hi. rewrite N1. specialize (P1 Hi). pose proof (Z.mod_pos_bound (ps_seqnr (s_p_read s) + 1) (2 ^ 32) ltac:(lia)). unfold u32 in *. lia.
Qed.

Lemma finish_packet_number E s st i type s' : smode s = Some (st, i) -> finish_packet E s = (Ok type, s') ->
  smode s' = smode s /\ (st = false -> ps_seqnr (s_p_read s') = ps_seqnr (s_p_read s)).
Proof.
  intros Hm Q. unfold finish_packet in Q. inv_step Q t s1 E1. apply stays_run in E1; [|auto with stays].
  destruct (_ <? _). { unfold corrupt in Q. inv_step Q u s2 E2. inv_step Q w s3 E3. done. }
  rewrite bind_get in Q. inv_step Q u s2 E2. apply stays_run in E2; [|stay]. inv_step Q u1 s3 E3. injection E3 as _ <-.
  inv_step Q u2 s4 E4. inv_step Q u3 s5 E5. apply stays_run in E5; [|auto with stays]. injection Q as <- <-.
  apply sview_inv in E1 as [M1 N1], E2 as [M2 N2], E5 as [M5 N5].
  assert (smode s4 = smode s /\ (st = false -> ps_seqnr (s_p_read s4) = ps_seqnr (s_p_read s))) as [M4 N4].
  { destruct (t =? SSH2_MSG_NEWKEYS); [|injection E4 as _ <-; split; [exact (eq_trans M2 M1)|intros _; exact (eq_trans N2 N1)]].
    inv_step E4 k s6 E6. destruct (mode_of s2 st i ltac:(congruence)) as (k0 & Ek & Est & _). unfold the_kex in E6. cbn in E6. rewrite Ek in E6.
    injection E6 as <- <-. rewrite Est in E4. destruct st; injection E4 as _ <-; (split; [exact (eq_trans M2 M1)|]); [done|intros _; exact (eq_trans N2 N1)]. }
  split; [congruence|]. intros Hs. rewrite N5. by apply N4.
Qed.

Lemma poll2_inv E s st i type seq s' : smode s = Some (st, i) -> ssh_packet_read_poll2 E s = (Ok (type, seq), s') ->
  smode s' = smode s /\ 
  (type <> 0 -> seq = ps_seqnr (s_p_read s) /\ (st = false -> i = true -> 0 < ps_seqnr (s_p_read s'))).
Proof.
  intros Hm Q. unfold ssh_packet_read_poll2 in Q. rewrite bind_get in Q. destruct (s_mux s).
  { unfold ssh_packet_read_poll2_mux in Q. rewrite bind_get in Q. destruct (mode_of s st i Hm) as (k & Ek & _). by rewrite Ek in Q. }
  destruct (negb _); [by injection Q as <- <- <-|].
  inv_step Q go s1 E1. apply stays_run, sview_inv in E1 as [M1 N1]; [|auto with stays]. destruct (negb go); [by injection Q as <- <- <-|].
  inv_step Q go' s2 E2. apply stays_run, sview_inv in E2 as [M2 N2]; [|auto with stays].
  destruct (negb go'); [injection Q as <- <- <-; split; [congruence|done]|].
  inv_step Q sq s3 E3. eapply count_read_number in E3 as (-> & M3 & N3); [|rewrite M2, M1; exact Hm].
  inv_step Q u s4 E4. apply stays_run, sview_inv in E4 as [M4 N4]; [|auto with stays].
  inv_step Q t s5 E5. eapply finish_packet_number in E5 as (M5 & N5); [|rewrite M4, M3, M2, M1; exact Hm].
  injection Q as <- <- <-. split; [congruence|]. intros _. split; [congruence|]. intros Hs Hi. rewrite N5, N4 by done. by apply N3.
Qed.

(** The next packet for the caller: with number 0 it is the first of all. *)
Lemma read_poll_inv E fuel s st i type seq s' : smode s = Some (st, i) -> read_poll_loop E fuel s = (Ok (type, seq), s') -> type <> 0 ->
  smode s' = smode s /\ (st = false -> i = true -> 0 < ps_seqnr (s_p_read s') /\ (seq = 0 -> ps_seqnr (s_p_read s) <= 0)).
Proof.
  intros Hm Q Ht. revert s Hm Q. induction fuel as [|fuel IH]; intros s Hm Q; [done|]. cbn [read_poll_loop] in Q.
  inv_step Q x s1 E1. destruct x as [t q]. eapply poll2_inv in E1 as (M1 & N1); [|exact Hm]. cbn [fst] in Q.
  destruct (Z.eqb_spec t 0) as [->|Hn]; [by injection Q as <- <- <-|]. specialize (N1 Hn) as [-> N1].
  inv_step Q u s2 E2. injection E2 as _ <-. inv_step Q mine s2 E2. apply stays_run, sview_inv in E2 as [M2 N2]; [|auto with stays].
  change (smode s2 = smode s1) in M2. change (ps_seqnr (s_p_read s2) = ps_seqnr (s_p_read s1)) in N2. destruct mine.
  - injection Q as <- <- <-. split; [congruence|]. intros Hs Hi. rewrite N2. split; [by apply N1|lia].
  - destruct (IH s2 ltac:(congruence) Q) as (M3 & N3). split; [congruence|]. intros Hs Hi. destruct (N3 Hs Hi) as [P3 Q3]. split; [done|].
    intros Hz. specialize (Q3 Hz). specialize (N1 Hs Hi). lia.
Qed.

Lemma read_poll_seqnr_inv E s st i type seq s' : smode s = Some (st, i) -> ssh_packet_read_poll_seqnr E s = (Ok (type, seq), s') -> type <> 0 ->
  smode s' = smode s /\ (st = false -> i = true -> 0 < ps_seqnr (s_p_read s') /\ (seq = 0 -> ps_seqnr (s_p_read s) <= 0)).
Proof.
  intros Hm Q Ht. unfold ssh_packet_read_poll_seqnr in Q. inv_step Q n s1 E1. apply stays_run, sview_inv in E1 as [M1 N1]; [|auto with stays].
  eapply read_poll_inv in Q; [|rewrite M1; exact Hm|done]. by rewrite M1, N1 in Q.
Qed.
End Numbers.
