(* ===== verification/KexOrder.v ===== *)
(** * The order of the messages of an exchange

    Which message an end accepts next, as an automaton; the handlers of src/kex.c
    and src/kexgen.c follow it.  In the strict mode of a first exchange a message
    out of order ends the connection. *)
From S2P Require Import Prelude Sshbuf SshbufGetput CString SshbufMisc Words Chacha ChachaPoly Cipher Hmac Mac PacketState Packet PacketBuf PacketLink PacketAuth Match SshkeyNames KexNames Kex Compat KexInput Curve25519 KexGen Dispatch KexProp KexDemo KexAuth KexFrame.

Create HintDb preserves.

(** ** The automaton *)

Inductive phase : Type := Idle | Method | NewKeys.

(** What an end is in: the message of the exchange it waits for, whether
    SSH2_MSG_EXT_INFO may come, whether the exchange is the first and strict. *)
Record exchange_state : Type := mk_exstate { ex_phase : phase; ex_ext : bool; ex_first : bool; ex_strict : bool }.

Definition method_msg (server : bool) : Z := if server then SSH2_MSG_KEX_ECDH_INIT else SSH2_MSG_KEX_ECDH_REPLY.

Definition expected (server : bool) (a : exchange_state) (type : Z) : handler :=
  match ex_phase a with
  | Idle => if type =? SSH2_MSG_KEXINIT then H_kex_input_kexinit
            else if ex_ext a && (type =? SSH2_MSG_EXT_INFO) then H_kex_input_ext_info else H_kex_protocol_error
  | Method => if type =? method_msg server then (if server then H_input_kex_gen_init else H_input_kex_gen_reply)
              else if ex_ext a && (type =? SSH2_MSG_EXT_INFO) then H_kex_input_ext_info else H_kex_protocol_error
  | NewKeys => if type =? SSH2_MSG_NEWKEYS then H_kex_input_newkeys else H_kex_protocol_error
  end.

(** One message with its sequence number. *)
Inductive ex_step (server : bool) : exchange_state -> Z * Z -> exchange_state -> Prop :=
| st_kexinit e i st st' seq : (i = false -> st' = st) -> (i = true -> st' = true -> seq = 0) ->
    ex_step server (mk_exstate Idle e i st) (SSH2_MSG_KEXINIT, seq) (mk_exstate Method e i st')
| st_method e i st seq : ex_step server (mk_exstate Method e i st) (method_msg server, seq) (mk_exstate NewKeys false i st)
| st_newkeys e e' i st seq : ex_step server (mk_exstate NewKeys e i st) (SSH2_MSG_NEWKEYS, seq) (mk_exstate Idle e' false st)
| st_ext_info p e i st seq : ex_step server (mk_exstate p true i st) (SSH2_MSG_EXT_INFO, seq) (mk_exstate p e i st)
| st_unexpected a type seq : ex_first a && ex_strict a = false -> expected server a type = H_kex_protocol_error ->
    ex_step server a (type, seq) a.

(** ** What is seen of an end *)

Record view : Type := mk_view { v_table : list handler; v_mode : option (bool * bool); v_number : Z; v_server : bool }.
Definition set_v_table (t : list handler) (v : view) : view := mk_view t (v_mode v) (v_number v) (v_server v).
Definition set_v_mode (m : option (bool * bool)) (v : view) : view := mk_view (v_table v) m (v_number v) (v_server v).
Definition set_at (type : Z) (h : handler) (v : view) : view := set_v_table (<[Z.to_nat type := h]> (v_table v)) v.
Definition reset_table (v : view) : view :=
  set_v_table (set_range (v_table v) 0 SSH2_MSG_TRANSPORT_MIN SSH2_MSG_TRANSPORT_MAX H_kex_protocol_error) v.

Section Keeps.
Context {V M U Zs K : Type} `{EVP V} `{EVP_MD M} `{UMAC U} `{ZLIB Zs}.
Abbreviation ssh := (ssh (V := V) (M := M) (U := U) (Zs := Zs) (K := K)).
Abbreviation KM := (KM (V := V) (M := M) (U := U) (Zs := Zs) (K := K)).
Implicit Types x : ssh.

Definition view_of x : view :=
  mk_view (ssh_dispatch x) (smode (ssh_state x)) (ps_seqnr (s_p_read (ssh_state x))) (kn_server (ssh_neg x)).

Definition preserves {A} (m : KM A) : Prop := forall x, view_of (snd (m x)) = view_of x.

Lemma preserves_bind {A B} (m : KM A) (k : A -> KM B) : preserves m -> (forall a, preserves (k a)) -> preserves (bind m k).
Proof. intros Hm Hk x. unfold bind. specialize (Hm x). destruct (m x) as [[a|e|] x1]; cbn [snd] in *; [rewrite Hk|..]; done. Qed.
Lemma preserves_on_state {A} (m : PM V M U Zs A) : stays m -> preserves (on_state m).
Proof.
  intros Hm x. specialize (Hm (ssh_state x)). unfold on_state. destruct (m _) as [r s]. cbn [snd] in *.
  apply sview_inv in Hm as [Hm Hn]. unfold view_of, set_state; cbn. by rewrite Hm, Hn.
Qed.
Lemma preserves_upd_neg f : (forall n, kn_server (f n) = kn_server n) -> preserves (upd_neg f).
Proof. intros Hf x. unfold view_of; cbn. by rewrite Hf. Qed.
Lemma preserves_ret {A} (a : A) : preserves (ret a).
Proof. done. Qed.
Lemma preserves_fail {A} e : preserves (fail (A := A) e).
Proof. done. Qed.
Lemma preserves_crash {A} : preserves (crash (A := A)).
Proof. done. Qed.
Lemma preserves_get : preserves get.
Proof. done. Qed.
Lemma preserves_reads {A} (f : ssh -> res A) : preserves (reads f).
Proof. done. Qed.
Lemma preserves_or_err {A} (m : KM A) e : preserves m -> preserves (or_err m e).
Proof. intros Hm x. unfold or_err. specialize (Hm x). by destruct (m x) as [[] ?]. Qed.
Lemma preserves_or_exit {A} (m : KM A) : preserves m -> preserves (or_exit m).
Proof. intros Hm x. unfold or_exit. specialize (Hm x). by destruct (m x) as [[] ?]. Qed.
Lemma preserves_skip n : preserves (change (set_skip n)).
Proof. done. Qed.
Lemma preserves_failed_choice peer i (m : KM unit) : preserves m -> preserves (or_failed_choice peer i m).
Proof. intros Hm x. unfold or_failed_choice. specialize (Hm x). by destruct (m x) as [[] ?]. Qed.
End Keeps.
#[export] Hint Resolve preserves_ret preserves_fail preserves_crash preserves_get preserves_reads preserves_skip : preserves.

(** Follow the code to its primitive steps. *)
Ltac preserve :=
  repeat lazymatch goal with
  | |- preserves (bind _ _) => apply preserves_bind; [|intros]
  | |- preserves (on_state _) => apply preserves_on_state; first [solve [auto 2 with stays] | stay]
  | |- preserves (upd_neg _) => apply preserves_upd_neg; intros; first [reflexivity | by case_match]
  | |- preserves (or_err _ _) => apply preserves_or_err
  | |- preserves (or_exit _) => apply preserves_or_exit
  | |- preserves (or_failed_choice _ _ _) => apply preserves_failed_choice
  | |- preserves (match ?x with _ => _ end) => destruct x
  | |- preserves (let _ := _ in _) => cbv zeta
  | |- preserves _ => solve [auto 2 with preserves]
  end.

(** ** From view to view *)

Section Triples.
Context {V M U Zs K : Type} `{EVP V} `{EVP_MD M} `{UMAC U} `{ZLIB Zs}.
Abbreviation ssh := (ssh (V := V) (M := M) (U := U) (Zs := Zs) (K := K)).
Abbreviation KM := (KM (V := V) (M := M) (U := U) (Zs := Zs) (K := K)).
Implicit Types x : ssh.
Implicit Types v : view.

(** When [m] succeeds in view [v], it ends in [Q]. *)
Definition leads v {A} (m : KM A) (Q : view -> Prop) : Prop := forall x a x', view_of x = v -> m x = (Ok a, x') -> Q (view_of x').

Lemma leads_preserve v {A} (m : KM A) (Q : view -> Prop) : preserves m -> Q v -> leads v m Q.
Proof. intros Hm HQ x a x' <- Em. specialize (Hm x). rewrite Em in Hm. cbn in Hm. by rewrite Hm. Qed.
Lemma leads_fail v {A} e Q : leads v (fail (A := A) e) Q.
Proof. by intros x a x' _ [=]. Qed.
Lemma leads_bind v {A B} (m : KM A) (k : A -> KM B) R Q :
  leads v m R -> (forall a w, R w -> leads w (k a) Q) -> leads v (bind m k) Q.
Proof. intros Hm Hk x b x' Ev Q'. inv_step Q' a x1 E1. by apply (Hk a (view_of x1) (Hm _ _ _ Ev E1) x1 b x'). Qed.
Lemma leads_to v w {A B} (m : KM A) (k : A -> KM B) Q : leads v m (eq w) -> (forall a, leads w (k a) Q) -> leads v (bind m k) Q.
Proof. intros Hm Hk. eapply leads_bind; [exact Hm|]. by intros a _ <-. Qed.
Lemma leads_after v {A B} (m : KM A) (k : A -> KM B) Q : preserves m -> (forall a, leads v (k a) Q) -> leads v (bind m k) Q.
Proof. intros Hm. apply leads_to. by apply leads_preserve. Qed.
Lemma leads_get v {A} (k : ssh -> KM A) Q : (forall x, view_of x = v -> leads v (k x) Q) -> leads v (bind get k) Q.
Proof. intros Hk x a x' Ev Q'. rewrite bind_get in Q'. by apply (Hk x Ev x a x'). Qed.
Lemma leads_kex v {A} (k : kex M U -> KM A) Q :
  (forall kx, v_mode v = Some (kex_mode kx) -> leads v (k kx) Q) -> leads v (bind (on_state the_kex) k) Q.
Proof.
  intros Hk x a x' Ev Q'. inv_step Q' kx x1 E1. unfold on_state, the_kex in E1. destruct (s_kex (ssh_state x)) as [k0|] eqn:Ek; [|done].
  injection E1 as -> <-. apply (Hk kx) in Q'; [done| |by destruct x]. rewrite <- Ev. cbn. unfold smode. by rewrite Ek.
Qed.
Lemma leads_set v type h : leads v (ssh_dispatch_set type h) (eq (set_at type h v)).
Proof. intros x a x' <- Es. unfold ssh_dispatch_set in Es. destruct (_ && _); [|done]. by injection Es as _ <-. Qed.
Lemma leads_reset v : leads v kex_reset_dispatch (eq (reset_table v)).
Proof. intros x a x' <- Es. by injection Es as _ <-. Qed.
Lemma leads_upd_kex v (f : kex M U -> kex M U) g m : v_mode v = Some m -> (forall kx, kex_mode kx = m -> kex_mode (f kx) = g) ->
  leads v (on_state (upd_kex f)) (eq (set_v_mode (Some g) v)).
Proof.
  intros Hm Hf x a x' <- Es. cbn in Hm. unfold smode in Hm. unfold on_state, upd_kex in Es. destruct (s_kex (ssh_state x)) as [k|] eqn:Ek; [|done].
  injection Es as _ <-. injection Hm as Hm. unfold view_of, set_v_mode, smode. cbn. by rewrite (Hf k Hm).
Qed.
Lemma leads_weaken v {A} (m : KM A) (R Q : view -> Prop) : leads v m R -> (forall w, R w -> Q w) -> leads v m Q.
Proof. intros Hm HQ x a x' Ev Em. eapply HQ, Hm; done. Qed.
End Triples.

Section Parts.
Context {V M U Zs K : Type} `{EVP V} `{EVP_MD M} `{UMAC U} `{ZLIB Zs} `{SSHKEY K}.
Context (kems : Z -> kem) (hooks : kex_hooks K).
Implicit Types E : penv.
#[local] Abbreviation preserves := (preserves (V := V) (M := M) (U := U) (Zs := Zs) (K := K)).

Lemma preserves_flags : preserves kex_flags.
Proof. unfold kex_flags. preserve. Qed.
Lemma preserves_flag_set f : Z.land f KEX_INITIAL = 0 -> preserves (kex_flag_set f).
Proof. intros Hf. apply preserves_on_state, stays_upd_kex. intros k. by apply set_flag_mode. Qed.
Lemma preserves_flag_clear f : Z.land f KEX_INITIAL = 0 -> preserves (kex_flag_clear f).
Proof. intros Hf. apply preserves_on_state, stays_upd_kex. intros k. by apply clear_flag_mode. Qed.
Hint Resolve preserves_flags : preserves.

Lemma stays_set_kx_newkeys m nk : stays (V := V) (M := M) (U := U) (Zs := Zs) (upd_kex (set_kx_newkeys m nk)).
Proof. apply stays_upd_kex. by destruct m. Qed.
Hint Resolve stays_set_kx_newkeys : stays.
Lemma preserves_on_newkeys {A} m (f : ST (newkeys M U) A) : preserves (on_newkeys m f).
Proof. unfold on_newkeys. preserve. Qed.
Hint Resolve preserves_on_newkeys : preserves.

Lemma preserves_choose_keys E peer cprop sprop m : preserves (choose_keys E peer cprop sprop m).
Proof. unfold choose_keys. preserve. Qed.
Lemma preserves_choose_kex client server : preserves (choose_kex client server).
Proof. unfold choose_kex. preserve. Qed.
Lemma preserves_choose_hostkeyalg client server : preserves (choose_hostkeyalg client server).
Proof. unfold choose_hostkeyalg. preserve. Qed.
Lemma preserves_client_rsa_sha2 peer : preserves (client_rsa_sha2 peer).
Proof. unfold client_rsa_sha2. preserve; by apply preserves_flag_set. Qed.

Lemma preserves_derive_keys E hash secret : preserves (kex_derive_keys E hash secret).
Proof. unfold kex_derive_keys. preserve. Qed.
Lemma preserves_maybe_send_ext_info E : preserves (kex_maybe_send_ext_info E).
Proof.
  unfold kex_maybe_send_ext_info, kex_compose_ext_info_server, kex_compose_ext_info_client, sshpkt_start, sshpkt_putb. preserve.
Qed.
Lemma preserves_protocol_error E type seq : preserves (dispatch_protocol_error E type seq).
Proof. unfold dispatch_protocol_error, sshpkt_start, sshpkt_put_u32. preserve. Qed.
Lemma preserves_ext_info_loop E server n : preserves (ext_info_loop E server n).
Proof.
  induction n as [|n IH]; cbn [ext_info_loop]; [preserve|].
  unfold sshpkt_get_cstring, sshpkt_get_string, kex_ext_info_server_parse, kex_ext_info_client_parse, kex_ext_info_check_ver.
  preserve; by apply preserves_flag_set.
Qed.
Lemma preserves_drop_signals E : preserves (drop_signals E).
Proof. unfold drop_signals. preserve. Qed.
Lemma preserves_verify_host_key k : preserves (kex_verify_host_key hooks k).
Proof. unfold kex_verify_host_key. preserve. Qed.
Lemma preserves_load_hostkey : preserves (kex_load_hostkey hooks).
Proof. unfold kex_load_hostkey. preserve. Qed.
Lemma preserves_save_initial E sig k : preserves (save_initial E sig k).
Proof. unfold save_initial. preserve. Qed.

(** ** The handlers *)

#[local] Abbreviation leads := (leads (V := V) (M := M) (U := U) (Zs := Zs) (K := K)).
Implicit Types v w : view.

Lemma leads_send_newkeys v E : leads v (kex_send_newkeys E) (eq (set_at SSH2_MSG_NEWKEYS H_kex_input_newkeys (reset_table v))).
Proof.
  unfold kex_send_newkeys, sshpkt_start. eapply leads_to; [apply leads_reset|intros]. apply leads_after; [preserve|intros].
  eapply leads_to; [apply leads_set|intros]. apply leads_preserve; [apply preserves_maybe_send_ext_info|done].
Qed.

Lemma leads_forget v (m : KM unit) Q : leads v m Q -> leads v (forget_client_keys m) Q.
Proof.
  intros Hm x a x' Ev. unfold forget_client_keys. destruct (m x) as [r x1] eqn:Em. intros [= -> <-]. apply (Hm x a x1 Ev Em).
Qed.

(** The table after a method. *)
Definition after_method (type : Z) v : view :=
  set_at SSH2_MSG_NEWKEYS H_kex_input_newkeys (reset_table (set_at type H_kex_protocol_error v)).

Lemma leads_gen_reply v E type seq : leads v (input_kex_gen_reply kems hooks E type seq) (eq (after_method SSH2_MSG_KEX_ECDH_REPLY v)).
Proof.
  unfold input_kex_gen_reply. eapply leads_to; [apply leads_set|intros]. apply leads_forget.
  unfold sshpkt_getb_froms, sshpkt_get_string, sshpkt_get_end.
  apply leads_after; [preserve|intros]. apply leads_after; [preserve|intros]. case_match; [|apply leads_fail].
  do 2 (apply leads_after; [preserve|intros]). apply leads_after; [apply preserves_verify_host_key|intros].
  do 4 (apply leads_after; [preserve|intros]). cbv zeta. case_match; [|apply leads_fail].
  do 5 (apply leads_after; [preserve|intros]). apply leads_after; [apply preserves_derive_keys|intros].
  eapply leads_to; [apply leads_send_newkeys|intros]. apply leads_preserve; [apply preserves_save_initial|done].
Qed.

Lemma leads_gen_init v E type seq : leads v (input_kex_gen_init kems hooks E type seq) (eq (after_method SSH2_MSG_KEX_ECDH_INIT v)).
Proof.
  unfold input_kex_gen_init. eapply leads_to; [apply leads_set|intros].
  unfold sshpkt_getb_froms, sshpkt_get_end, sshpkt_start, sshpkt_put_stringb, sshpkt_put_string.
  apply leads_after; [apply preserves_load_hostkey|intros []]. do 3 (apply leads_after; [preserve|intros]). cbv zeta. case_match; [|apply leads_fail].
  apply leads_after; [preserve|intros []]. do 5 (apply leads_after; [preserve|intros]). apply leads_after; [apply preserves_derive_keys|intros].
  eapply leads_to; [apply leads_send_newkeys|intros]. apply leads_preserve; [preserve|done].
Qed.

Lemma leads_gen_client v E : leads v (kex_gen_client kems E) (eq (set_at SSH2_MSG_KEX_ECDH_REPLY H_input_kex_gen_reply v)).
Proof.
  unfold kex_gen_client, sshpkt_start, sshpkt_put_stringb. apply leads_get. intros x Ev. cbv zeta. case_match; [|apply leads_fail].
  apply leads_after; [preserve|intros]. apply leads_after; [apply preserves_upd_neg; intros; unfold set_client_key; by case_match|intros].
  apply leads_after; [preserve|intros]. apply leads_set.
Qed.

Lemma leads_ext_info v E type seq : leads v (kex_input_ext_info E type seq) (fun w => w = v \/ w = set_at SSH2_MSG_EXT_INFO H_kex_protocol_error v).
Proof.
  unfold kex_input_ext_info, sshpkt_get_u32, sshpkt_get_end. apply leads_after; [preserve|intros]. apply leads_get. intros x Ev. cbv zeta.
  destruct (_ <? _); [apply leads_preserve; [apply preserves_protocol_error|by left]|].
  eapply leads_to; [apply leads_set|intros]. apply leads_after; [preserve|intros].
  destruct (_ <=? _); apply leads_preserve; [apply preserves_protocol_error|by right| |by right].
  apply preserves_bind; [apply preserves_ext_info_loop|intros; preserve].
Qed.

Lemma leads_protocol_error v E type seq st i : v_mode v = Some (st, i) ->
  leads v (kex_protocol_error E type seq) (fun w => w = v /\ i && st = false).
Proof.
  intros Hm. unfold kex_protocol_error, sshpkt_start, sshpkt_put_u32. apply leads_kex. intros k Hk. rewrite Hm in Hk. injection Hk as Hs Hi.
  change (negb (Z.land (kx_flags k) KEX_INITIAL =? 0)) with (initial k). rewrite <- Hi, <- Hs. destruct (i && st).
  - intros x a x' _ Q. inv_step Q u x1 E1. unfold on_state in E1. destruct (ssh_packet_disconnect _ _ _) as [r s] eqn:Ed.
    injection E1 as -> _. by apply disconnect_ends in Ed.
  - apply leads_after; [preserve|intros]. apply leads_preserve; [preserve|done].
Qed.

(** The keys of the peer are in use and the exchange is over. *)
Lemma leads_newkeys v E type seq st i : v_mode v = Some (st, i) ->
  leads v (kex_input_newkeys E type seq) (fun w => exists v0, (v0 = v \/ v0 = set_at SSH2_MSG_EXT_INFO H_kex_input_ext_info v) /\
    w = set_v_mode (Some (st, false)) (set_at SSH2_MSG_KEXINIT H_kex_input_kexinit (set_at SSH2_MSG_NEWKEYS H_kex_protocol_error v0))).
Proof.
  intros Hm. unfold kex_input_newkeys, sshpkt_get_end. apply leads_after; [apply preserves_flags|intros fl]. apply leads_get. intros x Ev. cbv zeta.
  eapply (leads_bind v _ _ (fun w => w = v \/ w = set_at SSH2_MSG_EXT_INFO H_kex_input_ext_info v)).
  { destruct (_ && _); [eapply leads_weaken; [apply leads_set|]; intros w <-; by right|apply leads_preserve; [preserve|by left]]. }
  intros u v0 Hv0. eapply leads_to; [apply leads_set|intros]. eapply leads_to; [apply leads_set|intros].
  do 2 (apply leads_after; [preserve|intros]). apply leads_after; [destruct (negb _); [apply preserves_drop_signals|preserve]|intros].
  apply leads_after; [preserve|intros].
  eapply leads_to; [eapply (leads_upd_kex _ _ (st, false) (st, i))|intros].
  { by destruct Hv0 as [->| ->]. }
  { intros k [= Hs Hi]. unfold kex_mode, initial. cbn. rewrite Hs. f_equal. rewrite <- Z.land_assoc, (Z.land_comm (Z.lnot _)), Z.land_lnot_diag.
    by rewrite Z.land_0_r. }
  apply leads_get. intros x1 Ev1. destruct (ignore _ _) as [r peer]. do 2 (apply leads_after; [preserve|intros]).
  apply leads_preserve; [by apply preserves_flag_clear|]. by exists v0.
Qed.

(** A strict exchange is asked for by the very first packet. *)
Lemma leads_peer_signals v E peer seq st : v_mode v = Some (st, true) ->
  leads v (peer_signals E peer seq) (fun w => exists st', w = set_v_mode (Some (st', true)) v /\ (st' = true -> seq = 0)).
Proof.
  intros Hm. unfold peer_signals. apply leads_get. intros x Ev. cbv zeta. apply leads_after; [preserve|intros]. apply leads_after; [preserve|intros strict].
  eapply leads_to; [eapply (leads_upd_kex _ _ (strict, true) (st, true) Hm)|intros]; [by intros k [= _ Hi]; unfold kex_mode, initial in *; cbn; rewrite Hi|].
  destruct (strict && negb (seq =? 0)) eqn:Es.
  - intros x0 b x' _ Q. unfold on_state in Q. destruct (ssh_packet_disconnect _ _ _) as [r s] eqn:Ed. injection Q as -> _. by apply disconnect_ends in Ed.
  - apply leads_preserve; [preserve|]. exists strict. split; [done|]. intros ->. cbn in Es. apply negb_false_iff, Z.eqb_eq in Es. done.
Qed.

(** What choosing makes of the mode. *)
Definition mode_step (st i st' : bool) (seq : Z) : Prop := (i = false -> st' = st) /\ (i = true -> st' = true -> seq = 0).

Lemma leads_choose_conf v E seq st i : v_mode v = Some (st, i) ->
  leads v (kex_choose_conf E seq) (fun w => exists st', w = set_v_mode (Some (st', i)) v /\ mode_step st i st' seq).
Proof.
  intros Hm. unfold kex_choose_conf. apply leads_kex. intros k Hk. rewrite Hm in Hk. injection Hk as Hs Hi.
  apply leads_after; [preserve|intros my]. apply leads_get. intros x Ev. apply leads_after; [preserve|intros [peer ff]]. cbv zeta.
  change (negb (Z.land (kx_flags k) KEX_INITIAL =? 0)) with (initial k). rewrite <- Hi.
  eapply leads_bind.
  { instantiate (1 := fun w => exists st', w = set_v_mode (Some (st', i)) v /\ mode_step st i st' seq). destruct i.
    - eapply leads_weaken; [by apply (leads_peer_signals _ E peer seq st)|]. intros w (st' & -> & Hq). exists st'. by split; [|split].
    - apply leads_preserve; [preserve|]. exists st. split; [by destruct v; cbn in *; subst|]. by split. }
  intros u w (st' & -> & Hq). apply leads_preserve; [|by exists st'].
  apply preserves_bind; [destruct (_ && _); [apply preserves_client_rsa_sha2|preserve]|intros].
  apply preserves_bind; [apply preserves_failed_choice, preserves_choose_kex|intros]. apply preserves_bind; [apply preserves_failed_choice, preserves_choose_hostkeyalg|intros].
  do 2 (apply preserves_bind; [apply preserves_choose_keys|intros]). preserve.
Qed.

Lemma stays_discard_strings E n : stays (V := V) (M := M) (U := U) (Zs := Zs) (discard_strings E n).
Proof. induction n as [|n IH]; cbn [discard_strings]; unfold sshpkt_get_string; stay. Qed.
Lemma stays_discard_bytes n : stays (V := V) (M := M) (U := U) (Zs := Zs) (discard_bytes n).
Proof. induction n as [|n IH]; cbn [discard_bytes]; unfold sshpkt_get_u8; stay. Qed.
Hint Resolve stays_discard_strings stays_discard_bytes : stays.

(** Without the group exchange methods. *)
Context (gex : KM (V := V) (M := M) (U := U) (Zs := Zs) (K := K) unit) (no_gex : forall x a x', gex x <> (Ok a, x')).

Lemma leads_kexinit v E type seq st i : v_mode v = Some (st, i) ->
  leads v (kex_input_kexinit E (kex_methods E kems gex (v_server v)) type seq) (fun w => exists st', mode_step st i st' seq /\
    w = set_at (method_msg (v_server v)) (if v_server v then H_input_kex_gen_init else H_input_kex_gen_reply)
          (set_v_mode (Some (st', i)) (set_at SSH2_MSG_KEXINIT H_kex_protocol_error v))).
Proof.
  intros Hm. unfold kex_input_kexinit, sshpkt_ptr, sshpkt_get_u8, sshpkt_get_u32, sshpkt_get_end. apply leads_get. intros x Ev.
  case_match; [|apply leads_fail]. apply leads_after; [preserve|intros]. apply leads_after; [preserve|intros]. apply leads_after; [by apply preserves_flag_set|intros].
  eapply leads_to; [apply leads_set|intros]. apply leads_after; [preserve|intros]. apply leads_get. intros x1 Ev1. destruct (sshbuf_put _ _ _) as [r peer].
  do 2 (apply leads_after; [preserve|intros]). apply leads_after; [preserve|intros]. apply leads_after; [apply preserves_flags|intros]. apply leads_after; [preserve|intros].
  eapply leads_bind; [by apply (leads_choose_conf _ E seq st i)|]. intros u w (st' & -> & Hq). apply leads_get. intros x2 Ev2. cbv zeta.
  unfold kex_methods. destruct (_ <? KEX_MAX); [|apply leads_fail]. destruct (_ || _); [by intros y b y' _ Q; apply no_gex in Q|].
  destruct (bool_decide _); [|apply leads_fail]. unfold kex_gen_server.
  destruct (v_server v); (eapply leads_weaken; [first [apply leads_set | apply leads_gen_client]|]); intros w <-; by exists st'.
Qed.
End Parts.

(** ** The handlers follow the automaton *)

Definition transport (type : Z) : Prop := SSH2_MSG_TRANSPORT_MIN <= type <= SSH2_MSG_TRANSPORT_MAX.

(** An end in a state of the automaton, no handler being set for the messages
    of the layers above. *)
Record is_in (server : bool) (a : exchange_state) (v : view) : Prop := {
  in_len : zlen (v_table v) = DISPATCH_MAX;
  in_transport type : transport type -> v_table v !! Z.to_nat type = Some (expected server a type);
  in_above type : SSH2_MSG_TRANSPORT_MAX < type < DISPATCH_MAX -> v_table v !! Z.to_nat type = Some H_NULL;
  in_server : v_server v = server;
  in_mode : v_mode v = Some (ex_strict a, ex_first a);
}.

Section Tables.
Implicit Types v : view.

Lemma set_at_lookup t h v u : 0 <= t < zlen (v_table v) -> 0 <= u ->
  v_table (set_at t h v) !! Z.to_nat u = if u =? t then Some h else v_table v !! Z.to_nat u.
Proof.
  intros Ht Hu. unfold set_at, zlen in *. cbn [v_table set_v_table]. destruct (Z.eqb_spec u t) as [->|Hn].
  - apply list_lookup_insert_eq. lia.
  - apply list_lookup_insert_ne. lia.
Qed.
Lemma set_at_len t h v : zlen (v_table (set_at t h v)) = zlen (v_table v).
Proof. unfold set_at, zlen. cbn. by rewrite length_insert. Qed.

Lemma set_range_lookup l i f t h n :
  set_range l i f t h !! n = (fun a => if (f <=? i + Z.of_nat n) && (i + Z.of_nat n <=? t) then h else a) <$> l !! n.
Proof.
  revert i n. induction l as [|a l IH]; intros i n; [done|]. destruct n as [|n]; cbn [set_range]; [by rewrite Z.add_0_r|].
  cbn [lookup list_lookup]. rewrite IH. by replace (i + 1 + Z.of_nat n) with (i + Z.of_nat (S n)) by lia.
Qed.
Lemma set_range_len l i f t h : length (set_range l i f t h) = length l.
Proof. revert i. induction l as [|a l IH]; intros i; [done|]. cbn. by rewrite IH. Qed.
Lemma reset_lookup v u : 0 <= u < zlen (v_table v) ->
  v_table (reset_table v) !! Z.to_nat u =
  if (SSH2_MSG_TRANSPORT_MIN <=? u) && (u <=? SSH2_MSG_TRANSPORT_MAX) then Some H_kex_protocol_error else v_table v !! Z.to_nat u.
Proof.
  intros Hu. unfold reset_table. cbn [v_table set_v_table]. rewrite set_range_lookup, Z.add_0_l, Z2Nat.id by lia.
  destruct (lookup_lt_is_Some_2 (v_table v) (Z.to_nat u)) as [h ->]; [unfold zlen in Hu; lia|]. cbn. by destruct (_ && _).
Qed.
Lemma reset_len v : zlen (v_table (reset_table v)) = zlen (v_table v).
Proof. unfold reset_table, zlen. cbn. by rewrite set_range_len. Qed.

Lemma set_mode_table m v : v_table (set_v_mode m v) = v_table v.
Proof. done. Qed.
Lemma view_consts : SSH2_MSG_TRANSPORT_MIN = 1 /\ SSH2_MSG_TRANSPORT_MAX = 49 /\ DISPATCH_MAX = 255 /\ SSH2_MSG_KEXINIT = 20 /\
  SSH2_MSG_NEWKEYS = 21 /\ SSH2_MSG_EXT_INFO = 7 /\ SSH2_MSG_KEX_ECDH_INIT = 30 /\ SSH2_MSG_KEX_ECDH_REPLY = 31.
Proof. by vm_compute. Qed.

(** Reads of an updated table; [W] says what the first one holds. *)
Ltac read_table W :=
  pose proof view_consts as (? & ? & ? & ? & ? & ? & ? & ?); pose proof (in_len _ _ _ W) as Len; unfold transport in *;
  repeat first [rewrite set_mode_table | rewrite set_at_lookup by (repeat first [rewrite reset_len | rewrite set_mode_table | rewrite set_at_len]; rewrite ?Len; lia)
               | rewrite reset_lookup by (rewrite ?set_mode_table, ?set_at_len, ?Len; lia)].
Ltac read_above W :=
  read_table W; repeat match goal with |- context [?a =? ?b] => destruct (Z.eqb_spec a b); [lia|] end;
  try (destruct (_ && _) eqn:?; [zbool; lia|]); by apply (in_above _ _ _ W).
Ltac read_same W := repeat first [rewrite reset_len | rewrite set_mode_table | rewrite set_at_len]; apply (in_len _ _ _ W).

Lemma in_method server e i st v : is_in server (mk_exstate Method e i st) v ->
  is_in server (mk_exstate NewKeys false i st) (after_method (method_msg server) v).
Proof.
  intros W. assert (30 <= method_msg server <= 31) by (by destruct server). unfold after_method.
  constructor; [read_same W|intros type Ht|intros type Ht|apply (in_server _ _ _ W)|apply (in_mode _ _ _ W)].
  - read_table W. unfold expected. cbn [ex_phase]. destruct (type =? SSH2_MSG_NEWKEYS); [done|]. destruct (_ && _) eqn:Hr; [done|]. zbool. lia.
  - read_above W.
Qed.

Lemma in_kexinit server e i st st' v : is_in server (mk_exstate Idle e i st) v ->
  is_in server (mk_exstate Method e i st') (set_at (method_msg server) (if server then H_input_kex_gen_init else H_input_kex_gen_reply)
          (set_v_mode (Some (st', i)) (set_at SSH2_MSG_KEXINIT H_kex_protocol_error v))).
Proof.
  intros W. assert (30 <= method_msg server <= 31) by (by destruct server).
  constructor; [read_same W|intros type Ht|intros type Ht|apply (in_server _ _ _ W)|done].
  - read_table W. rewrite (in_transport _ _ _ W type) by done. unfold expected. cbn [ex_phase ex_ext]. destruct (type =? method_msg server); [done|].
    destruct (Z.eqb_spec type SSH2_MSG_KEXINIT) as [->|_]; [|done]. by rewrite andb_false_r.
  - read_above W.
Qed.

Lemma in_newkeys server e (e' : bool) i st v v0 : is_in server (mk_exstate NewKeys e i st) v ->
  v0 = (if e' then set_at SSH2_MSG_EXT_INFO H_kex_input_ext_info v else v) ->
  is_in server (mk_exstate Idle e' false st)
    (set_v_mode (Some (st, false)) (set_at SSH2_MSG_KEXINIT H_kex_input_kexinit (set_at SSH2_MSG_NEWKEYS H_kex_protocol_error v0))).
Proof.
  intros W Hv0. subst v0. constructor; [destruct e'; read_same W|intros type Ht|intros type Ht|destruct e'; apply (in_server _ _ _ W)|done].
  - destruct e'; read_table W; rewrite (in_transport _ _ _ W type) by done; unfold expected; cbn [ex_phase ex_ext andb];
      destruct (type =? SSH2_MSG_KEXINIT); try done; destruct (type =? SSH2_MSG_NEWKEYS) eqn:E21; try done.
    + apply Z.eqb_eq in E21 as ->. done.
    + by destruct (type =? SSH2_MSG_EXT_INFO).
  - destruct e'; read_above W.
Qed.

Lemma in_ext_info server p i st v : p <> NewKeys -> is_in server (mk_exstate p true i st) v ->
  is_in server (mk_exstate p false i st) (set_at SSH2_MSG_EXT_INFO H_kex_protocol_error v).
Proof.
  intros Hp W. assert (30 <= method_msg server <= 31) by (by destruct server).
  constructor; [read_same W|intros type Ht|intros type Ht|apply (in_server _ _ _ W)|apply (in_mode _ _ _ W)].
  - read_table W. rewrite (in_transport _ _ _ W type) by done. unfold expected. cbn [ex_phase ex_ext andb].
    destruct (Z.eqb_spec type SSH2_MSG_EXT_INFO) as [->|_]; [|by destruct p]. destruct p; [done| |done].
    destruct (Z.eqb_spec SSH2_MSG_EXT_INFO (method_msg server)); [lia|done].
  - read_above W.
Qed.
End Tables.

Section Runs.
Context {V M U Zs K : Type} `{EVP V} `{EVP_MD M} `{UMAC U} `{ZLIB Zs} `{SSHKEY K}.
Abbreviation ssh := (ssh (V := V) (M := M) (U := U) (Zs := Zs) (K := K)).
Abbreviation KM := (KM (V := V) (M := M) (U := U) (Zs := Zs) (K := K)).
Context (kems : Z -> kem) (hooks : kex_hooks K) (gex : KM unit) (other : Z -> Z -> Z -> KM unit).
Implicit Types x : ssh.
Implicit Types E : penv.

(** Without the group exchange methods. *)
Definition no_group_exchange : Prop := forall x a x', gex x <> (Ok a, x').

Lemma expected_cases server a type : transport type ->
  (expected server a type = H_kex_input_kexinit /\ ex_phase a = Idle /\ type = SSH2_MSG_KEXINIT) \/
  (expected server a type = H_kex_input_ext_info /\ ex_phase a <> NewKeys /\ ex_ext a = true /\ type = SSH2_MSG_EXT_INFO) \/
  (expected server a type = (if server then H_input_kex_gen_init else H_input_kex_gen_reply) /\ ex_phase a = Method /\ type = method_msg server) \/
  (expected server a type = H_kex_input_newkeys /\ ex_phase a = NewKeys /\ type = SSH2_MSG_NEWKEYS) \/
  expected server a type = H_kex_protocol_error.
Proof.
  intros _. unfold expected. destruct (ex_phase a) eqn:Ep.
  - destruct (Z.eqb_spec type SSH2_MSG_KEXINIT); [by left|]. right. destruct (ex_ext a && _) eqn:Ee; [|by repeat right].
    apply andb_true_iff in Ee as [Ee Et]. apply Z.eqb_eq in Et. by left.
  - destruct (Z.eqb_spec type (method_msg server)); [by right; right; left|]. destruct (ex_ext a && _) eqn:Ee; [|by repeat right].
    apply andb_true_iff in Ee as [Ee Et]. apply Z.eqb_eq in Et. by right; left.
  - destruct (Z.eqb_spec type SSH2_MSG_NEWKEYS); [by do 3 right; left|by repeat right].
Qed.

(** A handler of the table. *)
Lemma handler_sim E server a type seq x u x' : no_group_exchange -> is_in server a (view_of x) -> transport type ->
  call_handler E kems hooks gex other (expected server a type) type seq x = (Ok u, x') ->
  v_number (view_of x') = v_number (view_of x) /\ exists a', ex_step server a (type, seq) a' /\ is_in server a' (view_of x').
Proof.
  intros Hg W Ht Q. unfold call_handler in Q. rewrite bind_get in Q. destruct a as [p e i st]. pose proof (in_mode _ _ _ W) as Hm.
  cbn [ex_strict ex_first] in Hm. pose proof (in_server _ _ _ W) as Hs.
  destruct (expected_cases server (mk_exstate p e i st) type Ht) as [(Eh & Ep & ->)|[(Eh & Ep & Ee & ->)|[(Eh & Ep & ->)|[(Eh & Ep & ->)|Eh]]]];
    cbn [ex_phase ex_ext] in *; rewrite Eh in Q; try subst p.
  - change (kn_server (ssh_neg x)) with (v_server (view_of x)) in Q.
    apply (leads_kexinit kems gex Hg (view_of x) E _ seq st i Hm) in Q as (st' & Hq & ->); [|done].
    split; [done|]. exists (mk_exstate Method e i st'). split; [constructor; apply Hq|]. rewrite Hs. by eapply in_kexinit.
  - subst e. apply (leads_ext_info (view_of x)) in Q as [->| ->]; [| |done]; (split; [done|]).
    + exists (mk_exstate p true i st). by split; [constructor|].
    + exists (mk_exstate p false i st). split; [constructor|]. by apply in_ext_info.
  - destruct server; [apply (leads_gen_init kems hooks (view_of x)) in Q as <-|apply (leads_gen_reply kems hooks (view_of x)) in Q as <-];
      try done; (split; [done|]); (exists (mk_exstate NewKeys false i st)); (split; [constructor|]); exact (in_method _ _ _ _ _ W).
  - apply (leads_newkeys (view_of x) E _ seq st i Hm) in Q as (v0 & Hv0 & ->); [|done].
    destruct Hv0 as [->| ->]; (split; [done|]); [exists (mk_exstate Idle false false st)|exists (mk_exstate Idle true false st)];
      (split; [constructor|]); by eapply in_newkeys.
  - apply (leads_protocol_error (view_of x) E type seq st i Hm) in Q as [-> Hn]; [|done]. split; [done|].
    exists (mk_exstate p e i st). by split; [constructor|].
Qed.

(** A packet given to the table. *)
Lemma dispatch_sim E server a type seq x b x' : no_group_exchange -> is_in server a (view_of x) ->
  dispatch_packet E kems hooks gex other type seq x = (Ok b, x') -> v_number (view_of x') = v_number (view_of x) /\
  if b then exists a', ex_step server a (type, seq) a' /\ is_in server a' (view_of x') else is_in server a (view_of x').
Proof.
  intros Hg W Q. unfold dispatch_packet in Q. inv_step Q h x1 E1. unfold handler_of in E1. rewrite bind_get in E1.
  destruct ((0 <? type) && (type <? DISPATCH_MAX)) eqn:Hr.
  - inv_step E1 h0 x2 E2. destruct (ssh_dispatch x !! Z.to_nat type) as [h1|] eqn:El; [|done]. injection E2 as -> <-. injection E1 as <- <-.
    pose proof view_consts as (C1 & C2 & C3 & _). zbool. change (ssh_dispatch x) with (v_table (view_of x)) in El.
    destruct (Z_le_gt_dec type SSH2_MSG_TRANSPORT_MAX) as [Hl|Hl].
    2: { rewrite (in_above _ _ _ W) in El by lia. injection El as <-. inv_step Q u x2 E2. done. }
    rewrite (in_transport _ _ _ W) in El by (unfold transport; lia). injection El as <-.
    assert (transport type) as Ht by (unfold transport; lia).
    assert (expected server a type <> H_NULL) as Hn.
    { destruct (expected_cases server a type Ht) as [(-> & _)|[(-> & _)|[(-> & _)|[(-> & _)| ->]]]]; try done. by destruct server. }
    destruct (expected server a type) eqn:Ex; try done; rewrite bind_get in Q;
      (destruct (negb _); [injection Q as <- <-; by split|]); inv_step Q u x2 E2; injection Q as <- <-;
      rewrite <- Ex in E2; by eapply handler_sim.
  - injection E1 as <- <-. inv_step Q u x2 E2. done.
Qed.

(** A run: input arrives, packets are read and given to the table; of each packet
    the type, the sequence number and whether a handler saw it. *)
Inductive run : ssh -> list (Z * Z * bool) -> ssh -> Prop :=
| run_done x : run x [] x
| run_input E buf x x1 l x' : on_state (ssh_packet_process_incoming E buf) x = (Ok tt, x1) -> run x1 l x' -> run x l x'
| run_packet E type seq x x1 b x2 l x' : on_state (ssh_packet_read_poll_seqnr E) x = (Ok (type, seq), x1) -> type <> SSH_MSG_NONE ->
    dispatch_packet E kems hooks gex other type seq x1 = (Ok b, x2) -> run x2 l x' -> run x ((type, seq, b) :: l) x'.

(** The packets that handlers saw. *)
Definition handled (l : list (Z * Z * bool)) : list (Z * Z) := fst <$> filter (fun p => snd p = true) l.

Inductive ex_run (server : bool) : exchange_state -> list (Z * Z) -> exchange_state -> Prop :=
| ex_done a : ex_run server a [] a
| ex_more a p a1 l a' : ex_step server a p a1 -> ex_run server a1 l a' -> ex_run server a (p :: l) a'.

(** The messages of a strict first exchange, and how it goes on. *)
Definition strict_order (server first : bool) (l : list (Z * Z)) : Prop :=
  if first then l = [(SSH2_MSG_KEXINIT, 0)] \/ exists q, l = [(SSH2_MSG_KEXINIT, 0); (method_msg server, q)]
  else exists q q' rest, l = (SSH2_MSG_KEXINIT, 0) :: (method_msg server, q) :: (SSH2_MSG_NEWKEYS, q') :: rest.

(** What holds after the packets [l] of a first exchange. *)
Definition so_far (server : bool) (l : list (Z * Z * bool)) (a : exchange_state) (number : Z) : Prop :=
  match ex_strict a, ex_first a with
  | false, true => ex_ext a = false /\ (ex_phase a = Idle -> l <> [] -> 0 < number)
  | false, false => True
  | true, true => ex_ext a = false /\
      ((ex_phase a = Method /\ handled l = [(SSH2_MSG_KEXINIT, 0)]) \/
       (ex_phase a = NewKeys /\ exists q, handled l = [(SSH2_MSG_KEXINIT, 0); (method_msg server, q)]))
  | true, false => strict_order server false (handled l)
  end.

Lemma handled_snoc l p b : handled (l ++ [(p, b)]) = handled l ++ (if b : bool then [p] else []).
Proof. unfold handled. rewrite filter_app, fmap_app. f_equal. by destruct b. Qed.

(** One more message that a handler saw. *)
Lemma so_far_step server l a n type seq a' n' : so_far server l a n -> ex_step server a (type, seq) a' ->
  (ex_strict a = false -> ex_first a = true -> 0 < n' /\ (seq = 0 -> n <= 0)) -> so_far server (l ++ [(type, seq, true)]) a' n'.
Proof.
  intros Hl Hs Hn. unfold so_far in *. rewrite handled_snoc.
  inversion Hs as [e i st st' sq Hq1 Hq2|e i st sq|e e' i st sq|p e i st sq|a0 t sq Hf Hx]; subst; cbn [ex_strict ex_first ex_phase ex_ext] in *.
  - destruct i; [|destruct (Hq1 eq_refl); destruct st'; [|done]; destruct Hl as (q & q' & rest & ->); by exists q, q', (rest ++ [(SSH2_MSG_KEXINIT, seq)])].
    destruct st; [destruct Hl as (_ & [[? _]|[? _]]); done|]. destruct st'; [|by split; [apply Hl|]]. destruct Hl as [He Hl].
    split; [done|]. left. split; [done|]. specialize (Hq2 eq_refl eq_refl) as ->. destruct (Hn eq_refl eq_refl) as [_ Hz]. specialize (Hz eq_refl).
    destruct l as [|p l]; [done|]. specialize (Hl eq_refl ltac:(done)). lia.
  - destruct st; [|by destruct i; [split|]]. destruct i; [|destruct Hl as (q & q' & rest & ->); by exists q, q', (rest ++ [(method_msg server, seq)])].
    split; [done|]. right. split; [done|]. destruct Hl as (_ & [[_ ->]|[? _]]); [|done]. by exists seq.
  - destruct st; [|done]. destruct i; [destruct Hl as (_ & [[? _]|(_ & q & ->)]); [done|by exists q, seq, []]|].
    destruct Hl as (q & q' & rest & ->). by exists q, q', (rest ++ [(SSH2_MSG_NEWKEYS, seq)]).
  - destruct i; [by destruct st, Hl|]. destruct st; [|done]. destruct Hl as (q & q' & rest & ->). by exists q, q', (rest ++ [(SSH2_MSG_EXT_INFO, seq)]).
  - destruct (ex_strict a') eqn:Es, (ex_first a') eqn:Ei; try done.
    + destruct Hl as (q & q' & rest & ->). by exists q, q', (rest ++ [(type, seq)]).
    + split; [apply Hl|]. intros _ _. by apply Hn.
Qed.

(** Receiving does not touch the table. *)
Lemma is_in_number server a v w : is_in server a v -> v_table w = v_table v -> v_mode w = v_mode v -> v_server w = v_server v -> is_in server a w.
Proof.
  intros W Et Em Es. constructor; rewrite ?Et, ?Em, ?Es; [apply (in_len _ _ _ W)|apply (in_transport _ _ _ W)|apply (in_above _ _ _ W)
    |apply (in_server _ _ _ W)|apply (in_mode _ _ _ W)].
Qed.

Lemma run_sim server a x l x' : no_group_exchange -> is_in server a (view_of x) -> run x l x' ->
  exists a', ex_run server a (handled l) a' /\ is_in server a' (view_of x') /\
    forall l0, so_far server l0 a (v_number (view_of x)) -> exists n, so_far server (l0 ++ l) a' n.
Proof.
  intros Hg W R. revert a W. induction R as [x|E buf x x1 l x' E1 _ IH|E type seq x x1 b x2 l x' E1 Ht E2 _ IH]; intros a W.
  - exists a. split; [constructor|]. split; [done|]. intros l0 Hl. exists (v_number (view_of x)). by rewrite app_nil_r.
  - pose proof (preserves_on_state (K := K) _ (stays_process_incoming E buf) x) as Hv. rewrite E1 in Hv. cbn [snd] in Hv.
    rewrite <- Hv in W. destruct (IH a W) as (a' & A1 & A2 & A3). exists a'. rewrite <- Hv. done.
  - unfold on_state in E1. destruct (ssh_packet_read_poll_seqnr E (ssh_state x)) as [r s] eqn:Er. injection E1 as -> <-.
    eapply read_poll_seqnr_inv in Er as (M1 & N1); [|exact (in_mode _ _ _ W)|exact Ht].
    assert (is_in server a (view_of (set_state s x))) as W1 by (eapply is_in_number; [exact W|done|exact M1|done]).
    destruct (dispatch_sim E server a type seq _ b x2 Hg W1 E2) as [Hn Hb]. cbn [v_number view_of set_state ssh_state] in Hn.
    destruct b.
    + destruct Hb as (a1 & S1 & W2). destruct (IH a1 W2) as (a' & A1 & A2 & A3). exists a'. split; [by econstructor|]. split; [done|].
      intros l0 Hl. destruct (A3 (l0 ++ [(type, seq, true)])) as [n Hn']; [|exists n; by rewrite <- app_assoc in Hn'].
      eapply so_far_step; [exact Hl|exact S1|]. intros Hs Hf. cbn [v_number view_of]. rewrite Hn. by apply N1.
    + destruct (IH a Hb) as (a' & A1 & A2 & A3). exists a'. split; [done|]. split; [done|].
      intros l0 Hl. destruct (A3 (l0 ++ [(type, seq, false)])) as [n Hn']; [|exists n; by rewrite <- app_assoc in Hn'].
      unfold so_far in *. rewrite handled_snoc, app_nil_r. destruct (ex_strict a), (ex_first a); try done.
      split; [apply Hl|]. intros _ _. cbn [v_number view_of]. rewrite Hn. by apply N1.
Qed.

(** An end before [kex_ready]. *)
Record unready server x : Prop := {
  un_table : ssh_dispatch x = replicate (Z.to_nat DISPATCH_MAX) H_NULL;
  un_server : kn_server (ssh_neg x) = server;
  un_kex : exists k, s_kex (ssh_state x) = Some k /\ kx_strict k = false;
}.

Lemma ready_in E p server x x' : unready server x -> kex_ready E p x = (Ok tt, x') -> is_in server (mk_exstate Idle false true false) (view_of x').
Proof.
  intros [Et Es (k & Ek & Hk)] Q.
  assert (leads (V := V) (M := M) (U := U) (Zs := Zs) (K := K) (view_of x) (kex_ready E p) (eq (set_at SSH2_MSG_KEXINIT H_kex_input_kexinit (reset_table (set_v_mode (Some (false, true)) (view_of x)))))) as Hl.
  { unfold kex_ready. apply leads_kex. intros k1 Hk1. destruct (kex_prop2buf _ _ _) as [r my]. do 2 (apply leads_after; [preserve|intros]).
    eapply leads_to; [eapply (leads_upd_kex _ _ (false, true)); [exact Hk1|]|intros].
    { intros k2 [= Hs Hi]. unfold kex_mode, initial. cbn. rewrite Hs. cbn in Hk1. unfold smode in Hk1. rewrite Ek in Hk1. cbn in Hk1.
      injection Hk1 as Hk1 _. by rewrite <- Hk1, Hk. }
    eapply leads_to; [apply leads_reset|intros]. apply leads_set. }
  rewrite <- (Hl x tt x' eq_refl Q). clear Hl Q x'. pose proof view_consts as (C1 & C2 & C3 & C4 & _).
  assert (zlen (v_table (view_of x)) = DISPATCH_MAX) as Hlen by (cbn; rewrite Et; unfold zlen; by rewrite length_replicate).
  constructor; [by rewrite set_at_len, reset_len, set_mode_table|..|done|done]; intros type Ht; unfold transport in *;
    (rewrite set_at_lookup by (rewrite ?reset_len, ?set_mode_table; lia)); (rewrite reset_lookup by (rewrite set_mode_table; lia)); unfold expected; cbn [ex_phase ex_ext andb].
  - destruct (type =? _); [done|]. destruct (_ && _) eqn:Hr; [done|]. zbool. lia.
  - destruct (Z.eqb_spec type SSH2_MSG_KEXINIT); [lia|]. destruct (_ && _) eqn:Hr; [zbool; lia|]. cbn. rewrite Et. apply lookup_replicate_2. lia.
Qed.

End Runs.

(** A server and the packets of a strict client, over the stand-ins of [KexDemo]
    and [ReplyDemo]. *)
Module OrderDemo.
(** A packet without encryption or MAC. *)
Definition plain (payload : list Z) : list Z :=
  let pad := 16 - (zlen payload + 5) mod 8 in
  POKE_U32 (1 + zlen payload + pad) ++ [pad] ++ payload ++ replicate (Z.to_nat pad) 0.
Definition strict_client : list (list Z) :=
  <[PROPOSAL_KEX_ALGS := str "diffie-hellman-group14-sha256,kex-strict-c-v00@openssh.com"]> KexDemo.proposal.
Definition kexinit : list Z := SSH2_MSG_KEXINIT :: enc_prop no_cookie strict_client.
Definition init : list Z := SSH2_MSG_KEX_ECDH_INIT :: enc_string [1; 2; 3].
Definition hooks : kex_hooks Z :=
  mk_kex_hooks Z None (Some (fun _ _ => Some 9)) (Some (fun _ _ => Some 9)) (fun _ _ _ hash _ => Ok (9 :: hash)).
Definition kems (type : Z) : kem := ReplyDemo.method.
Definition gex : KM (V := LinkDemo.ctx) (M := Z * list Z) (U := list Z * list Z) (Zs := unit) (K := Z) unit := fail SSH_ERR_INTERNAL_ERROR.
Definition other (n type seq : Z) := gex.
Definition unready_server : KexDemo.ssh :=
  mk_ssh (set_kex (Some (mk_kex None None false 0 false KexDemo.empty)) (snd (ssh_packet_set_connection LinkDemo.E (set_server_side true LinkDemo.fresh))))
    (mk_kexneg 0 0 true None None 0 0 0 None false false 0 KexDemo.empty KexDemo.empty KexDemo.empty KexDemo.empty None None 0 0 None [] [] None)
    (replicate 255 H_NULL) 0 0.
Definition server : KexDemo.ssh := snd (kex_ready LinkDemo.E KexDemo.proposal' unready_server).
Definition given (payload : list Z) (x : KexDemo.ssh) := on_state (ssh_packet_process_incoming LinkDemo.E (plain payload)) x.
Definition taken (x : KexDemo.ssh) := on_state (ssh_packet_read_poll_seqnr LinkDemo.E) x.
Definition dispatched (type seq : Z) (x : KexDemo.ssh) := dispatch_packet LinkDemo.E kems hooks gex other type seq x.

Lemma runs {S A} (m : ST S A) x a : fst (m x) = Ok a -> m x = (Ok a, snd (m x)).
Proof. intros <-. by destruct (m x). Qed.
Definition handled_packet (p : list Z) (type seq : Z) (x : KexDemo.ssh) : KexDemo.ssh := snd (dispatched type seq (snd (taken (snd (given p x))))).
Lemma run_one p type seq x l x' :
  fst (given p x) = Ok tt -> fst (taken (snd (given p x))) = Ok (type, seq) -> type <> SSH_MSG_NONE ->
  fst (dispatched type seq (snd (taken (snd (given p x))))) = Ok true ->
  run kems hooks gex other (handled_packet p type seq x) l x' -> run kems hooks gex other x ((type, seq, true) :: l) x'.
Proof.
  intros Eg Et Hn Ed R. apply (run_input _ _ _ _ LinkDemo.E (plain p) x (snd (given p x))); [by apply runs|].
  by apply (run_packet _ _ _ _ LinkDemo.E type seq _ _ true _ _ _ (runs _ _ _ Et) Hn (runs _ _ _ Ed)).
Qed.
Definition x1 : KexDemo.ssh := handled_packet kexinit SSH2_MSG_KEXINIT 0 server.
Definition x2 : KexDemo.ssh := handled_packet init SSH2_MSG_KEX_ECDH_INIT 1 x1.
Definition x3 : KexDemo.ssh := handled_packet [SSH2_MSG_NEWKEYS] SSH2_MSG_NEWKEYS 2 x2.
Lemma server_run : run kems hooks gex other server [(SSH2_MSG_KEXINIT, 0, true); (SSH2_MSG_KEX_ECDH_INIT, 1, true); (SSH2_MSG_NEWKEYS, 2, true)] x3.
Proof.
  unfold x3, x2, x1. apply (run_one kexinit); [by vm_compute|by vm_compute|done|by vm_compute|].
  apply (run_one init); [by vm_compute|by vm_compute|done|by vm_compute|].
  apply (run_one [SSH2_MSG_NEWKEYS]); [by vm_compute|by vm_compute|done|by vm_compute|]. apply run_done.
Qed.
Lemma server_ready : kex_ready LinkDemo.E KexDemo.proposal' unready_server = (Ok tt, server).
Proof. apply (runs (kex_ready LinkDemo.E KexDemo.proposal')). by vm_compute. Qed.
Lemma server_unready : unready true unready_server.
Proof. constructor; [done..|]. by eexists. Qed.
End OrderDemo.

