(* ===== verification/ApiBanner.v ===== *)
(** * Reading a version from the input

    What [_ssh_read_banner] of src/ssh_api.c takes for the version of the peer
    when only a part of the line has arrived. *)
From S2P Require Import Prelude Sshbuf SshbufGetput SshbufSpec CString SshbufMisc Words Chacha ChachaPoly Cipher Hmac Mac PacketState Packet PacketBuf Codec PacketLink Match SshkeyNames KexNames Kex Compat KexInput Curve25519 KexGen Dispatch SshApi KexProp KexDemo.

Section Banner.
Context {V M U Zs K : Type} `{EVP V} `{EVP_MD M} `{UMAC U} `{ZLIB Zs} `{SSHKEY K}.
Abbreviation ssh := (ssh (V := V) (M := M) (U := U) (Zs := Zs) (K := K)).
Implicit Types x : ssh.
Implicit Types E : penv.

(** The characters of a line. *)
Definition in_line (s : list Z) : Prop := Forall (fun c => is_byte c /\ c <> 13 /\ c <> 10) s.
Definition version_buf (server : bool) x : sshbuf := if server then kn_server_version (ssh_neg x) else kn_client_version (ssh_neg x).

(** The inner loop copies what it sees of a line. *)
Lemma banner_line_part E s rest j b l : pbuf b l -> pe_np E <> 0 -> in_line s -> zlen l + zlen s <= SSH_MAX_BANNER_LEN ->
  exists b', banner_line E (s ++ rest) j false b = banner_line E rest (j + zlen s) false b' /\ pbuf b' (l ++ s).
Proof.
  intros P Hnp Hs. revert j b l P. induction Hs as [|c s (Hb & H13 & H10) Hs IH]; intros j b l P Hl.
  - exists b. unfold zlen. cbn. rewrite Z.add_0_r, app_nil_r. done.
  - rewrite zlen_cons in Hl. pose proof (zlen_nonneg s). cbn [app banner_line]. destruct (Z.eqb_spec c 13), (Z.eqb_spec c 10); try done.
    assert (enc_field (FU8 c) = [c]) as Ef by (cbn; unfold u8; rewrite Z.mod_small; [done|exact Hb]).
    destruct (pb_field (pe_np E) (FU8 c) b l P Hnp Hb) as (b1 & E1 & P1); [rewrite Ef; unfold SSH_MAX_BANNER_LEN in Hl; change (zlen [c]) with 1; unfold SSHBUF_SIZE_MAX; lia|].
    rewrite Ef in P1. cbn [put_field] in E1. rewrite (bind_ok _ _ _ _ _ E1), (bind_ok _ _ _ _ _ (pb_len _ _ P1)), zlen_app.
    change (zlen [c]) with 1. rewrite (proj2 (Z.ltb_ge _ _)) by lia. destruct (IH (j + 1) b1 (l ++ [c]) P1) as (b' & E2 & P2).
    { rewrite zlen_app. change (zlen [c]) with 1. lia. }
    exists b'. rewrite E2, zlen_cons. split; [f_equal; lia|]. by rewrite <- app_assoc in P2.
Qed.

(** Half a version line is taken for the whole one.  When the input holds the
    beginning of the peer's first line (some bytes, no line end yet),
    [_ssh_read_banner] succeeds; what has arrived stays in the buffer of the
    peer's version, whose length is what tells whether the version has been
    read, and stays in the input too, to be read as a packet.  So the exchange
    goes on, and the rest of the line is never waited for. *)
Theorem partial_banner_accepted E server s b x :
  pbuf (s_input (ssh_state x)) s -> pbuf (version_buf server x) b -> pe_np E <> 0 -> in_line s -> 0 < zlen s <= SSH_MAX_BANNER_LEN ->
  exists x', ssh_read_banner E server x = (Ok tt, x') /\ pbuf (version_buf server x') s /\ s_input (ssh_state x') = s_input (ssh_state x) /\
    fst (version_len server x') = Ok (zlen s) /\ zlen s <> 0.
Proof.
  intros Pi Pv Hnp Hs Hl. unfold ssh_read_banner.
  assert (on_state (on_input (reads buf_bytes)) x = (Ok s, x)) as Ei.
  { unfold on_state, on_input. rewrite (pb_bytes _ _ Pi). by destruct x as [[] ? ? ? ?]. }
  rewrite (bind_ok _ _ _ _ _ Ei), bind_get.
  assert (exists v, banner_lines E (S (length s)) (kn_server (ssh_neg x)) s 0 0 (version_buf server x) = (Ok B_more, v) /\ pbuf v s) as (v & Ev & P').
  { destruct (pb_reset (pe_np E) _ _ Pv) as (b0 & E0 & P0). cbn [banner_lines].
    assert (ignore (sshbuf_reset (pe_np E)) (version_buf server x) = (Ok tt, b0)) as Eg by (unfold ignore; by rewrite E0).
    rewrite (bind_ok _ _ _ _ _ Eg). destruct (banner_line_part E s [] 0 b0 [] P0 Hnp Hs) as (v & E1 & P1); [unfold zlen in *; cbn; lia|].
    rewrite app_nil_r in E1. exists v. split; [|exact P1]. unfold bind at 1. by rewrite E1. }
  set (x' := set_neg (if server then set_kn_server_version v (ssh_neg x) else set_kn_client_version v (ssh_neg x)) x).
  assert (on_version server (banner_lines E (S (length s)) (kn_server (ssh_neg x)) s 0 0) x = (Ok B_more, x')) as Eo.
  { unfold on_version, x'. unfold version_buf in Ev. destruct server; by rewrite Ev. }
  rewrite (bind_ok _ _ _ _ _ Eo). exists x'. assert (version_buf server x' = v) as Ebuf by (by destruct server).
  split; [done|]. rewrite Ebuf. split; [done|]. split; [done|]. split; [|lia].
  unfold version_len, on_version. unfold version_buf in Ebuf. pose proof (pb_len _ _ P') as El. unfold blen in El.
  destruct server; rewrite Ebuf, El; done.
Qed.
End Banner.

(** A server of the interface, before any input, and half a line. *)
Module BannerDemo.
Definition half : list Z := str "SSH-2.0-Op".
Definition server : KexDemo.ssh := snd (on_state (on_input (sshbuf_put 1 half)) (KexDemo.end_of true)).
End BannerDemo.

Lemma partial_banner_accepted_witness : exists x',
  ssh_read_banner LinkDemo.E false BannerDemo.server = (Ok tt, x') /\ pbuf (kn_client_version (ssh_neg x')) BannerDemo.half.
Proof.
  assert (pbuf (s_input (ssh_state (KexDemo.end_of true))) []) as P0 by exact KexDemo.empty_pbuf.
  assert (Forall is_byte BannerDemo.half) as Hb by (apply (bool_decide_unpack _); by vm_compute).
  destruct (pb_put 1 BannerDemo.half _ [] P0 ltac:(done) Hb ltac:(by vm_compute)) as (b & E1 & P1).
  assert (s_input (ssh_state BannerDemo.server) = b) as Eb by (unfold BannerDemo.server, on_state, on_input; by rewrite E1).
  destruct (partial_banner_accepted LinkDemo.E false BannerDemo.half [] BannerDemo.server) as (x' & Ex & Px & _);
    [by rewrite Eb|exact KexDemo.empty_pbuf|done|apply (bool_decide_unpack _); by vm_compute|by vm_compute|].
  exists x'. split; [exact Ex|exact Px].
Defined.
