(* ===== verification/Addr.v ===== *)
(** * addr.c and addrmatch.c: addresses, networks and address lists

    An address is four 32-bit words; a word is given by its value in host
    order ([ntohl] of [addr32[i]]), on which the bitwise operations of the
    code act in the same way, and [addr8] is the bytes of the words in
    network order.  [v4] is the first word.  The resolver ([getaddrinfo] with
    [AI_NUMERICHOST], [getnameinfo] with [NI_NUMERICHOST]) is a parameter. *)
From Stdlib Require Import String.
From S2P Require Import Prelude SshbufGetput CString Words Match.

Inductive family : Type := AF_INET | AF_INET6 | AF_OTHER (n : Z).

#[export] Instance family_eq_dec : EqDecision family.
Proof. solve_decision. Defined.

Definition eq_af (a b : family) : bool := bool_decide (a = b).

Record xaddr : Type := mk_xaddr {
  af : family;
  addr32 : list Z;   (* four words *)
  scope_id : Z;
}.

Definition v4 (a : xaddr) : Z := default 0 (addr32 a !! 0%nat).
Definition set_v4 (w : Z) (a : xaddr) : xaddr := mk_xaddr (af a) (<[0%nat := w]> (addr32 a)) (scope_id a).
Definition addr8 (a : xaddr) : list Z := concat (map POKE_U32 (addr32 a)).

(** ** Masks *)

Definition addr_unicast_masklen (af : family) : Z :=
  match af with AF_INET => 32 | AF_INET6 => 128 | AF_OTHER _ => -1 end.

(** [true] stands for the return value 0. *)
Definition masklen_valid (af : family) (masklen : Z) : bool :=
  match af with
  | AF_INET => masklen <=? 32
  | AF_INET6 => masklen <=? 128
  | AF_OTHER _ => false
  end.

(** [-1] is [None]. *)
Definition addr_invert (n : xaddr) : option xaddr :=
  match af n with
  | AF_INET => Some (set_v4 (u32 (Z.lnot (v4 n))) n)
  | AF_INET6 => Some (mk_xaddr (af n) (map (fun w => u32 (Z.lnot w)) (addr32 n)) (scope_id n))
  | AF_OTHER _ => None
  end.

(** [(0xffffffff << (32 - l)) & 0xffffffff] *)
Definition mask_word (l : Z) : Z := Z.land (u32 (Z.shiftl 0xffffffff (32 - l))) 0xffffffff.

(** The loop of the [AF_INET6] case and the partial word after it, over the
    zeroed words. *)
Fixpoint mask_words (words : list Z) (l : Z) : list Z :=
  match words with
  | [] => []
  | w :: words =>
      if 32 <=? l then 0xffffffff :: mask_words words (l - 32)
      else if negb (l =? 0) then mask_word l :: words
      else w :: words
  end.

Definition addr_netmask (af : family) (l : Z) : option xaddr :=
  if negb (masklen_valid af l) then None
  else
    let zero := [0; 0; 0; 0] in
    match af with
    | AF_INET =>
        if l =? 0 then Some (mk_xaddr AF_INET zero 0)
        else Some (set_v4 (mask_word l) (mk_xaddr AF_INET zero 0))
    | AF_INET6 => Some (mk_xaddr AF_INET6 (mask_words zero l) 0)
    | AF_OTHER _ => None
    end.

Definition addr_hostmask (af : family) (l : Z) : option xaddr :=
  match addr_netmask af l with
  | None => None
  | Some n => addr_invert n
  end.

Definition addr_and (a b : xaddr) : option xaddr :=
  if negb (eq_af (af a) (af b)) then None
  else
    match af a with
    | AF_INET => Some (set_v4 (Z.land (v4 a) (v4 b)) a)
    | AF_INET6 => Some (mk_xaddr (af a) (zip_with Z.land (addr32 a) (addr32 b)) (scope_id a))
    | AF_OTHER _ => None
    end.

Definition addr_or (a b : xaddr) : option xaddr :=
  if negb (eq_af (af a) (af b)) then None
  else
    match af a with
    | AF_INET => Some (set_v4 (Z.lor (v4 a) (v4 b)) a)
    | AF_INET6 => Some (mk_xaddr (af a) (zip_with Z.lor (addr32 a) (addr32 b)) (scope_id a))
    | AF_OTHER _ => None
    end.

(** ** Comparison *)

(** The loop over [addr8]: the first difference. *)
Fixpoint cmp_bytes (a b : list Z) : Z :=
  match a, b with
  | x :: a, y :: b => if negb (x - y =? 0) then x - y else cmp_bytes a b
  | _, _ => 0
  end.

Definition addr_cmp (a b : xaddr) : Z :=
  if negb (eq_af (af a) (af b)) then (if eq_af (af a) AF_INET6 then 1 else -1)
  else
    match af a with
    | AF_INET =>
        if v4 a =? v4 b then 0
        else if v4 b <? v4 a then 1 else -1
    | AF_INET6 =>
        let d := cmp_bytes (addr8 a) (addr8 b) in
        if negb (d =? 0) then d
        else if scope_id a =? scope_id b then 0
        else if scope_id b <? scope_id a then 1 else -1
    | AF_OTHER _ => -1
    end.

(** [true] stands for the return value 0. *)
Definition addr_is_all0s (a : xaddr) : bool :=
  match af a with
  | AF_INET => v4 a =? 0
  | AF_INET6 => forallb (fun w => w =? 0) (addr32 a)
  | AF_OTHER _ => false
  end.

(** ** Arithmetic *)

(** The words from the last one, incremented with carry. *)
Fixpoint incr_words (rev_words : list Z) : list Z :=
  match rev_words with
  | [] => []
  | w :: ws =>
      let n := u32 (w + 1) in
      if negb (n =? 0) then n :: ws else n :: incr_words ws
  end.

Definition addr_increment (a : xaddr) : xaddr :=
  match af a with
  | AF_INET => set_v4 (u32 (v4 a + 1)) a
  | AF_INET6 => mk_xaddr (af a) (reverse (incr_words (reverse (addr32 a)))) (scope_id a)
  | AF_OTHER _ => a
  end.

Definition addr_host_is_all0s (a : xaddr) (masklen : Z) : bool :=
  match addr_hostmask (af a) masklen with
  | None => false
  | Some tmp_mask =>
      match addr_and a tmp_mask with
      | None => false
      | Some r => addr_is_all0s r
      end
  end.

Definition addr_host_to_all1s (a : xaddr) (masklen : Z) : option xaddr :=
  match addr_hostmask (af a) masklen with
  | None => None
  | Some tmp_mask => addr_or a tmp_mask
  end.

Definition addr_netmatch (host net : xaddr) (masklen : Z) : Z :=
  if negb (eq_af (af host) (af net)) then -1
  else
    match addr_netmask (af host) masklen with
    | None => -1
    | Some tmp_mask =>
        match addr_and host tmp_mask with
        | None => -1
        | Some r => addr_cmp r net
        end
    end.

(** ** Conversions *)

(** [struct sockaddr_in] and [struct sockaddr_in6]: family, port, the words of
    the address (one or four) and the scope. *)
Record sockaddr : Type := mk_sockaddr {
  sa_family : family;
  sin_port : Z;
  sin_addr : list Z;
  sin6_scope_id : Z;
}.
Definition SIZEOF_SOCKADDR_IN : Z := 16.
Definition SIZEOF_SOCKADDR_IN6 : Z := 28.
Definition SIZEOF_SOCKADDR_STORAGE : Z := 128.

Definition addr_xaddr_to_sa (xa : xaddr) (len port : Z) : option (sockaddr * Z) :=
  match af xa with
  | AF_INET =>
      if len <? SIZEOF_SOCKADDR_IN then None
      else Some (mk_sockaddr AF_INET port [v4 xa] 0, SIZEOF_SOCKADDR_IN)
  | AF_INET6 =>
      if len <? SIZEOF_SOCKADDR_IN6 then None
      else Some (mk_sockaddr AF_INET6 port (addr32 xa) (scope_id xa), SIZEOF_SOCKADDR_IN6)
  | AF_OTHER _ => None
  end.

Definition addr_sa_to_xaddr (sa : sockaddr) (slen : Z) : option xaddr :=
  match sa_family sa with
  | AF_INET =>
      if slen <? SIZEOF_SOCKADDR_IN then None
      else Some (mk_xaddr AF_INET [default 0 (sin_addr sa !! 0%nat); 0; 0; 0] 0)
  | AF_INET6 =>
      if slen <? SIZEOF_SOCKADDR_IN6 then None
      else Some (mk_xaddr AF_INET6 (sin_addr sa) (sin6_scope_id sa))
  | AF_OTHER _ => None
  end.

Section Resolver.
(** [None] when [getaddrinfo] fails, or gives no address. *)
Context (getaddrinfo : list Z -> option (sockaddr * Z)).
(** The text of the address, [None] when [getnameinfo] fails. *)
Context (getnameinfo : sockaddr -> Z -> option (list Z)).

Definition addr_pton (p : list Z) : option xaddr :=
  match getaddrinfo p with
  | None => None
  | Some (sa, slen) => addr_sa_to_xaddr sa slen
  end.

Definition addr_ntop (n : xaddr) (len : Z) : option (list Z) :=
  match addr_xaddr_to_sa n SIZEOF_SOCKADDR_STORAGE 0 with
  | None => None
  | Some (ss, slen) => if len =? 0 then None else getnameinfo ss len
  end.

Definition c_slash : Z := 47.

Definition addr_pton_cidr (p : list Z) : res (xaddr * Z) :=
  if 64 <=? zlen p then Err (-1)
  else
    let parsed :=
      match strchr p c_slash with
      | None => Some (p, None)
      | Some i =>
          match strtonum (drop (S i) p) 0 INT_MAX with
          | inr _ => None
          | inl m => Some (take i p, Some m)
          end
      end in
    match parsed with
    | None => Err (-1)
    | Some (addrbuf, mp) =>
        match addr_pton addrbuf with
        | None => Err (-1)
        | Some tmp =>
            let masklen := match mp with
                           | None => u32 (addr_unicast_masklen (af tmp))
                           | Some m => m
                           end in
            if negb (masklen_valid (af tmp) masklen) then Err (-2)
            else if negb (addr_host_is_all0s tmp masklen) then Err (-2)
            else Ok (tmp, masklen)
        end
    end.

(** ** Lists of addresses: addrmatch.c *)

(** The loop of [addr_match_list]; [addr] is the text and its address,
    [None] in test mode. *)
Fixpoint addr_match_list_loop (fuel : nat) (addr : option (list Z * xaddr)) (b : list Z)
    (list : option nat) (ret : Z) : option Z :=
  let '(cp, b, list) := strsep b list c_comma in
  match cp with
  | None => Some ret
  | Some cp =>
      match fuel with
      | O => None
      | S fuel =>
          let neg := match cp with c :: _ => c =? c_bang | [] => false end in
          let cp := if neg then tail cp else cp in
          match cp with
          | [] => Some (-2)
          | _ =>
              let found := if neg then Some (-1) else addr_match_list_loop fuel addr b list 1 in
              let next := addr_match_list_loop fuel addr b list ret in
              match addr_pton_cidr cp with
              | Err r =>
                  if r =? -2 then Some (-2)
                  else
                    match addr with
                    | None => next
                    | Some (text, _) =>
                        match match_pattern text cp with
                        | None => None
                        | Some true => found
                        | Some false => next
                        end
                    end
              | Ok (match_addr, masklen) =>
                  match addr with
                  | None => next
                  | Some (_, try_addr) =>
                      if addr_netmatch try_addr match_addr masklen =? 0 then found else next
                  end
              | Crash => None
              end
          end
      end
  end.

(** [ok] is false when [strdup] returns NULL. *)
Definition addr_match_list (ok : bool) (addr : option (list Z)) (_list : list Z) : option Z :=
  let run a :=
    if ok then addr_match_list_loop (S (length _list)) a _list (Some 0%nat) 0 else Some (-1) in
  match addr with
  | None => run None
  | Some text =>
      match addr_pton text with
      | None => Some 0
      | Some try_addr => run (Some (text, try_addr))
      end
  end.

Definition INET6_ADDRSTRLEN : Z := 46.
Definition valid_cidr_char (c : Z) : bool :=
  isdigit c || ((97 <=? c) && (c <=? 102)) || ((65 <=? c) && (c <=? 70)) ||
  (c =? 46) || (c =? 58) || (c =? c_slash).

Fixpoint addr_match_cidr_list_loop (fuel : nat) (addr : option xaddr) (b : list Z)
    (list : option nat) (ret : Z) : option Z :=
  let '(cp, b, list) := strsep b list c_comma in
  match cp with
  | None => Some ret
  | Some [] => Some (-1)
  | Some cp =>
      match fuel with
      | O => None
      | S fuel =>
          if INET6_ADDRSTRLEN + 3 <? zlen cp then Some (-1)
          else
            let ret := if negb (forallb valid_cidr_char cp) then -1 else ret in
            match addr_pton_cidr cp with
            | Err _ => Some (-1)
            | Ok (match_addr, masklen) =>
                let ret :=
                  match addr with
                  | None => ret
                  | Some try_addr =>
                      if addr_netmatch try_addr match_addr masklen =? 0 then 1 else ret
                  end in
                addr_match_cidr_list_loop fuel addr b list ret
            | Crash => None
            end
      end
  end.

Definition addr_match_cidr_list (ok : bool) (addr : option (list Z)) (_list : list Z) : option Z :=
  let run a :=
    if ok then addr_match_cidr_list_loop (S (length _list)) a _list (Some 0%nat) 0 else Some (-1) in
  match addr with
  | None => run None
  | Some text =>
      match addr_pton text with
      | None => Some 0
      | Some try_addr => run (Some try_addr)
      end
  end.

(** ** Hosts and users: match.c *)

(** The [int] results; [host] and [ipaddr] are [None] for NULL. *)
Definition match_host_and_ip (ok : bool) (host ipaddr : option (list Z)) (patterns : list Z) : option Z :=
  match addr_match_list ok ipaddr patterns with
  | None => None
  | Some mip =>
      if mip =? -2 then Some (-1)
      else
        match host, ipaddr with
        | Some host, Some _ =>
            if mip =? -1 then Some 0
            else
              match match_hostname host patterns with
              | None => None
              | Some mhost =>
                  if mhost =? -1 then Some 0
                  else if (mhost =? 0) && (mip =? 0) then Some 0
                  else Some 1
              end
        | _, _ => Some 0
        end
  end.

Definition c_at : Z := 64.

Definition match_user (ok : bool) (user host ipaddr : option (list Z)) (pattern : list Z) : option Z :=
  match user, host, ipaddr with
  | None, None, None =>
      match strrchr pattern c_at with
      | None => Some 0
      | Some i =>
          match match_host_and_ip ok None None (drop (S i) pattern) with
          | None => None
          | Some r => if r <? 0 then Some (-1) else Some 0
          end
      end
  | None, _, _ => Some 0
  | Some user, _, _ =>
      match strrchr pattern c_at with
      | None => option_map Z.b2z (match_pattern user pattern)
      | Some i =>
          match match_pattern user (take i pattern) with
          | None => None
          | Some true => match_host_and_ip ok host ipaddr (drop (S i) pattern)
          | Some false => Some 0
          end
      end
  end.

(** ** ssh-keyscan: the addresses of a CIDR range *)

(** The texts handed to [do_one_host], in order; [None] when [fuel] runs out. *)
Fixpoint cidr_loop (fuel : nat) (addr end_addr : xaddr) : option (list (list Z)) :=
  match addr_ntop addr 128 with
  | None => Some []
  | Some daddr =>
      if addr_cmp addr end_addr =? 0 then Some [daddr]
      else
        match fuel with
        | O => None
        | S fuel => option_map (cons daddr) (cidr_loop fuel (addr_increment addr) end_addr)
        end
  end.

Definition do_host (fuel : nat) (host : list Z) : option (list (list Z)) :=
  match addr_pton_cidr host with
  | Ok (addr, masklen) =>
      match addr_host_to_all1s addr masklen with
      | None => Some []
      | Some end_addr => cidr_loop fuel addr end_addr
      end
  | _ => Some [host]
  end.
End Resolver.

(** ** The number an address is *)

Definition aval (a : xaddr) : Z :=
  match af a with AF_INET => v4 a | _ => words_val (addr32 a) end.

Definition width (af : family) : Z := match af with AF_INET => 32 | _ => 128 end.

Record xaddr_wf (a : xaddr) : Prop := {
  xw_len : length (addr32 a) = 4%nat;
  xw_words : Forall is_word (addr32 a);
  xw_af : match af a with
          | AF_INET => tail (addr32 a) = [0; 0; 0] /\ scope_id a = 0
          | AF_INET6 => True
          | AF_OTHER _ => False
          end;
}.

(** ** Masks *)

Lemma words_check ws : forallb (fun w => (0 <=? w) && (w <? 2 ^ 32)) ws = true -> Forall is_word ws.
Proof.
  rewrite forallb_forall. intros H. apply Forall_forall. intros w Hw.
  specialize (H w (proj1 (list_elem_of_In _ _) Hw)). zbool. by split.
Qed.

(** The mask of length [m] has its [m] high bits set, checked for one [m]. *)
Definition mask_ok (f : family) (m : Z) : bool :=
  match addr_netmask f m with
  | None => false
  | Some n =>
      forallb (fun w => (0 <=? w) && (w <? 2 ^ 32)) (addr32 n) &&
      bool_decide (length (addr32 n) = 4%nat /\ af n = f /\ scope_id n = 0 /\
        (f = AF_INET -> tail (addr32 n) = [0; 0; 0]) /\ aval n = 2 ^ width f - 2 ^ (width f - m))
  end.

Lemma mask_ok_all :
  forallb (fun m => mask_ok AF_INET6 (Z.of_nat m)) (seq 0 129) &&
  forallb (fun m => mask_ok AF_INET (Z.of_nat m)) (seq 0 33) = true.
Proof. by vm_compute. Qed.

Definition inet (f : family) : Prop := f = AF_INET \/ f = AF_INET6.

Lemma netmask_val f m :
  inet f -> 0 <= m <= width f ->
  exists n, addr_netmask f m = Some n /\ xaddr_wf n /\ af n = f /\
    aval n = 2 ^ width f - 2 ^ (width f - m).
Proof.
  intros Hf Hm. assert (mask_ok f m = true) as C.
  { pose proof mask_ok_all as [C6 C4]%andb_true_iff. rewrite forallb_forall in C6, C4.
    rewrite <- (Z2Nat.id m) by lia. destruct Hf as [-> | ->]; simpl in Hm; [apply C4 | apply C6];
      apply in_seq; lia. }
  unfold mask_ok in C. destruct (addr_netmask f m) as [n|]; [|done]. exists n.
  apply andb_true_iff in C as [Cw C]. apply bool_decide_eq_true in C as (Cl & Ca & Cs & Ct & Cv).
  apply words_check in Cw. split_and!; try done. split; [done..|].
  rewrite Ca. destruct Hf as [-> | ->]; [|done]. auto.
Qed.

(** The bounds of the value. *)
Lemma aval_bound a : xaddr_wf a -> 0 <= aval a < 2 ^ width (af a).
Proof.
  intros [Hl Hw Ha]. unfold aval, width, v4. destruct (addr32 a) as [|w ws] eqn:E; [done|].
  pose proof (words_bound (w :: ws) ltac:(done)) as Hb.
  assert (zlen (w :: ws) = 4) as Hz by (unfold zlen; by rewrite Hl). rewrite Hz in Hb.
  apply Forall_cons in Hw as [Hw _]. unfold is_word in Hw. destruct (af a); simpl; lia || done.
Qed.

Lemma wf_inet a : xaddr_wf a -> inet (af a).
Proof. intros [_ _ H]. unfold inet. destruct (af a); [by left | by right | done]. Qed.

Lemma invert_val a :
  xaddr_wf a -> exists n, addr_invert a = Some n /\ xaddr_wf n /\ af n = af a /\
    aval n = 2 ^ width (af a) - 1 - aval a.
Proof.
  intros [Hl Hw Ha]. unfold addr_invert, aval, width. destruct (af a) eqn:Haf; [| |done].
  - destruct Ha as [Ht Hs]. destruct (addr32 a) as [|w ws] eqn:E; [done|].
    apply Forall_cons in Hw as [Hw Hws]. unfold v4, set_v4. rewrite E. simpl in *.
    eexists. split; [done|]. cbn [af]. rewrite Haf.
    assert (v : 0 <= u32 (Z.lnot w) < 2 ^ 32) by (apply Z.mod_pos_bound; lia).
    split; [split; simpl; [done | by constructor | done]|]. split; [done|]. by apply lnot_word.
  - eexists. split; [done|]. cbn [af addr32]. split; [split; simpl; [by rewrite length_map | | done]|].
    + apply Forall_map. eapply Forall_impl; [exact Hw|]. intros w _. apply Z.mod_pos_bound. lia.
    + split; [done|]. rewrite words_lnot by done. unfold zlen. by rewrite Hl.
Qed.

(** [addr_and] and [addr_or] act on the values. *)
Lemma zip4_wf (f : Z -> Z -> Z) x y :
  (forall a b, is_word a -> is_word b -> is_word (f a b)) ->
  Forall is_word x -> Forall is_word y -> Forall is_word (zip_with f x y).
Proof.
  intros Hf Hx. revert y. induction Hx; intros [|b y] Hy; simpl; try constructor.
  - apply Forall_cons in Hy as [??]. auto.
  - apply Forall_cons in Hy as [??]. auto.
Qed.

Lemma is_word_land a b : is_word a -> is_word b -> is_word (Z.land a b).
Proof. unfold is_word. intros. apply land_bound; lia. Qed.
Lemma is_word_lor a b : is_word a -> is_word b -> is_word (Z.lor a b).
Proof. unfold is_word. intros. apply lor_bound; lia. Qed.

Section BitOp.
Variable f : Z -> Z -> Z.
Hypothesis f_0 : f 0 0 = 0.
Hypothesis f_word : forall a b, is_word a -> is_word b -> is_word (f a b).
Hypothesis f_cat : forall k a b x y, 0 <= k -> 0 <= x < 2 ^ k -> 0 <= y < 2 ^ k ->
  f (a * 2 ^ k + x) (b * 2 ^ k + y) = f a b * 2 ^ k + f x y.

Lemma bitop_v4 a b :
  xaddr_wf a -> xaddr_wf b -> af a = AF_INET -> af b = AF_INET ->
  xaddr_wf (set_v4 (f (v4 a) (v4 b)) a) /\ aval (set_v4 (f (v4 a) (v4 b)) a) = f (aval a) (aval b).
Proof.
  intros [Hl Hw Ha] [Hlb Hwb Hb] Ea Eb. rewrite Ea, Eb in *. unfold aval, set_v4, v4. rewrite Ea, Eb. cbn [af].
  destruct (addr32 a) as [|w ws]; [done|]. destruct (addr32 b) as [|w' ws']; [done|].
  apply Forall_cons in Hw as [Hw Hws]. apply Forall_cons in Hwb as [Hwb _]. simpl in *.
  split; [|done]. split; simpl; [done | constructor; auto | by rewrite ?Ea].
Qed.

Lemma bitop_v6 a b :
  xaddr_wf a -> xaddr_wf b -> af a = AF_INET6 -> af b = AF_INET6 ->
  let r := mk_xaddr (af a) (zip_with f (addr32 a) (addr32 b)) (scope_id a) in
  xaddr_wf r /\ aval r = f (aval a) (aval b).
Proof.
  intros [Hl Hw Ha] [Hlb Hwb Hb] Ea Eb r. unfold r, aval. cbn [af addr32]. rewrite Ea, Eb in *. split.
  - split; simpl; [rewrite length_zip_with; lia | by apply zip4_wf | done].
  - apply words_zip; done || lia.
Qed.
End BitOp.

Lemma and_val a b :
  xaddr_wf a -> xaddr_wf b -> af a = af b ->
  exists r, addr_and a b = Some r /\ xaddr_wf r /\ af r = af a /\ scope_id r = scope_id a /\
    aval r = Z.land (aval a) (aval b).
Proof.
  intros Wa Wb E. unfold addr_and, eq_af. rewrite bool_decide_true by done. simpl.
  destruct (wf_inet a Wa) as [Ea|Ea]; rewrite Ea in *; eexists; (split; [done|]).
  - destruct (bitop_v4 Z.land is_word_land a b Wa Wb) as [? ?]; [congruence..|]. done.
  - destruct (bitop_v6 Z.land eq_refl is_word_land cat_land a b Wa Wb) as [? ?]; [congruence..|].
    rewrite Ea in *. done.
Qed.

Lemma or_val a b :
  xaddr_wf a -> xaddr_wf b -> af a = af b ->
  exists r, addr_or a b = Some r /\ xaddr_wf r /\ af r = af a /\ scope_id r = scope_id a /\
    aval r = Z.lor (aval a) (aval b).
Proof.
  intros Wa Wb E. unfold addr_or, eq_af. rewrite bool_decide_true by done. simpl.
  destruct (wf_inet a Wa) as [Ea|Ea]; rewrite Ea in *; eexists; (split; [done|]).
  - destruct (bitop_v4 Z.lor is_word_lor a b Wa Wb) as [? ?]; [congruence..|]. done.
  - destruct (bitop_v6 Z.lor eq_refl is_word_lor cat_lor a b Wa Wb) as [? ?]; [congruence..|].
    rewrite Ea in *. done.
Qed.

(** Clearing and setting the low bits. *)
Lemma land_netmask x W n :
  0 <= n <= W -> 0 <= x < 2 ^ W -> Z.land x (2 ^ W - 2 ^ n) = x / 2 ^ n * 2 ^ n.
Proof.
  intros Hn Hx. pose proof (Z.pow_pos_nonneg 2 n ltac:(lia) ltac:(lia)).
  assert (2 ^ W = 2 ^ n * 2 ^ (W - n)) as E by (rewrite <- Z.pow_add_r by lia; f_equal; lia).
  replace (2 ^ W - 2 ^ n) with (Z.ones (W - n) * 2 ^ n) by (rewrite Z.ones_equiv; lia).
  rewrite (Z.div_mod x (2 ^ n)) at 1 by lia.
  replace (2 ^ n * (x / 2 ^ n) + x mod 2 ^ n) with (x / 2 ^ n * 2 ^ n + x mod 2 ^ n) by lia.
  replace (Z.ones (W - n) * 2 ^ n) with (Z.ones (W - n) * 2 ^ n + 0) by lia.
  rewrite cat_land by (try apply Z.mod_pos_bound; lia).
  rewrite Z.land_0_r, Z.land_ones, Z.mod_small by (try split; try apply Z.div_pos; try apply Z.div_lt_upper_bound; lia).
  lia.
Qed.

Lemma hostmask_val f m :
  inet f -> 0 <= m <= width f ->
  exists n, addr_hostmask f m = Some n /\ xaddr_wf n /\ af n = f /\ aval n = 2 ^ (width f - m) - 1.
Proof.
  intros Hf Hm. unfold addr_hostmask. destruct (netmask_val f m Hf Hm) as (n & -> & Wn & Ea & Ev).
  destruct (invert_val n Wn) as (r & -> & Wr & Ear & Evr). exists r. rewrite Ea in *.
  split_and!; [done..|lia].
Qed.

(** ** The order of addresses *)

Lemma be_app l k : be (l ++ k) = be l * 256 ^ zlen k + be k.
Proof.
  induction l as [|b l IH]; simpl; [lia|]. rewrite IH, zlen_app, Z.pow_add_r by apply zlen_nonneg. lia.
Qed.

Lemma addr8_zlen ws : zlen (concat (map POKE_U32 ws)) = 4 * zlen ws.
Proof.
  induction ws as [|v ws IH]; [done|]. cbn [map concat]. rewrite zlen_app, zlen_cons, IH.
  change (zlen (POKE_U32 v)) with 4. lia.
Qed.

Lemma addr8_be ws : Forall is_word ws -> be (concat (map POKE_U32 ws)) = words_val ws.
Proof.
  induction 1 as [|w ws Hw _ IH]; [done|]. cbn [map concat words_val].
  rewrite be_app, IH, be_POKE_U32, u32_small, addr8_zlen by done. f_equal. f_equal.
  change 256 with (2 ^ 8). pose proof (zlen_nonneg ws).
  rewrite <- Z.pow_mul_r by lia. f_equal. lia.
Qed.

Lemma addr8_bytes ws : Forall is_byte (concat (map POKE_U32 ws)).
Proof.
  induction ws as [|w ws IH]; [constructor|]. cbn [map concat]. apply Forall_app. split; [|done].
  apply POKE_U32_bytes.
Qed.

Lemma cmp_bytes_spec a b :
  Forall is_byte a -> Forall is_byte b -> length a = length b ->
  (cmp_bytes a b ?= 0) = (be a ?= be b).
Proof.
  intros Ha. revert b. induction Ha as [|x a Hx Ha IH]; intros [|y b] Hb Hl; try done.
  apply Forall_cons in Hb as [Hy Hb]. injection Hl as Hl. cbn [cmp_bytes be].
  pose proof (be_bound a Ha). pose proof (be_bound b Hb).
  assert (zlen b = zlen a) as E by (unfold zlen; lia). rewrite E in *. unfold is_byte in *.
  destruct (Z.eqb_spec (x - y) 0); simpl.
  - rewrite IH by done. assert (x = y) as -> by lia.
    destruct (Z.compare_spec (be a) (be b)), (Z.compare_spec (y * 256 ^ zlen a + be a) (y * 256 ^ zlen a + be b));
      done || lia.
  - destruct (Z.compare_spec (x - y) 0), (Z.compare_spec (x * 256 ^ zlen a + be a) (y * 256 ^ zlen a + be b));
      try done; exfalso; nia.
Qed.

(** The order by family, value and scope. *)
Definition xaddr_compare (a b : xaddr) : comparison :=
  match af a, af b with
  | AF_INET, AF_INET6 => Lt
  | AF_INET6, AF_INET => Gt
  | _, _ => match aval a ?= aval b with Eq => scope_id a ?= scope_id b | c => c end
  end.

Lemma addr_cmp_spec a b :
  xaddr_wf a -> xaddr_wf b -> (addr_cmp a b ?= 0) = xaddr_compare a b.
Proof.
  intros Wa Wb. unfold addr_cmp, xaddr_compare, eq_af, aval.
  pose proof (wf_inet a Wa) as Fa. pose proof (wf_inet b Wb) as Fb.
  destruct Wa as [La Ha Sa], Wb as [Lb Hb Sb].
  destruct Fa as [Ea|Ea], Fb as [Eb|Eb]; rewrite Ea, Eb in *; simpl; try done.
  - destruct Sa as [_ Sa], Sb as [_ Sb]. rewrite Sa, Sb.
    destruct (Z.compare_spec (v4 a) (v4 b)), (Z.eqb_spec (v4 a) (v4 b)), (Z.ltb_spec (v4 b) (v4 a));
      done || lia.
  - pose proof (cmp_bytes_spec (addr8 a) (addr8 b)) as C. unfold addr8 in *.
    rewrite !addr8_be in C by done. rewrite <- C; [| apply addr8_bytes | apply addr8_bytes |].
    2:{ pose proof (addr8_zlen (addr32 a)). pose proof (addr8_zlen (addr32 b)). unfold zlen in *. lia. }
    set (d := cmp_bytes _ _). destruct (Z.compare_spec d 0) as [->|Hd|Hd]; simpl.
    + destruct (Z.compare_spec (scope_id a) (scope_id b)), (Z.eqb_spec (scope_id a) (scope_id b)),
        (Z.ltb_spec (scope_id b) (scope_id a)); done || lia.
    + rewrite (proj2 (Z.eqb_neq d 0)) by lia. simpl. by apply Z.compare_lt_iff.
    + rewrite (proj2 (Z.eqb_neq d 0)) by lia. simpl. by apply Z.compare_gt_iff.
Qed.

Lemma addr_cmp_zero a b :
  xaddr_wf a -> xaddr_wf b -> af a = af b ->
  addr_cmp a b = 0 <-> aval a = aval b /\ scope_id a = scope_id b.
Proof.
  intros Wa Wb E. rewrite <- Z.compare_eq_iff, addr_cmp_spec by done.
  unfold xaddr_compare. rewrite E.
  assert ((match aval a ?= aval b with Eq => scope_id a ?= scope_id b | c => c end) = Eq <->
    aval a = aval b /\ scope_id a = scope_id b) as H.
  { destruct (Z.compare_spec (aval a) (aval b)) as [->| |]; rewrite ?Z.compare_eq_iff; split; try done; lia. }
  destruct (wf_inet b Wb) as [-> | ->]; done.
Qed.

(** ** Networks *)

Lemma netmatch_spec host net m :
  xaddr_wf host -> xaddr_wf net -> 0 <= m <= width (af host) ->
  addr_netmatch host net m = 0 <->
    af host = af net /\ scope_id host = scope_id net /\
    aval host / 2 ^ (width (af host) - m) * 2 ^ (width (af host) - m) = aval net.
Proof.
  intros Wh Wn Hm. unfold addr_netmatch, eq_af. case_bool_decide as E; simpl; [|split; [done|tauto]].
  destruct (netmask_val (af host) m (wf_inet _ Wh) Hm) as (k & -> & Wk & Ek & Vk).
  destruct (and_val host k Wh Wk ltac:(done)) as (r & -> & Wr & Er & Sr & Vr).
  rewrite addr_cmp_zero by (done || congruence).
  rewrite Vr, Vk, Sr, land_netmask; [tauto | lia | by apply aval_bound].
Qed.

Lemma host_is_all0s_spec a m :
  xaddr_wf a -> 0 <= m <= width (af a) ->
  addr_host_is_all0s a m = true <-> aval a mod 2 ^ (width (af a) - m) = 0.
Proof.
  intros Wa Hm. unfold addr_host_is_all0s.
  destruct (hostmask_val (af a) m (wf_inet _ Wa) Hm) as (k & -> & Wk & Ek & Vk).
  destruct (and_val a k Wa Wk ltac:(done)) as (r & -> & Wr & Er & Sr & Vr).
  replace (2 ^ (width (af a) - m) - 1) with (Z.ones (width (af a) - m)) in Vk by (rewrite Z.ones_equiv; lia).
  rewrite <- (Z.land_ones (aval a)), <- Vk, <- Vr by lia.
  assert (forall ws, Forall is_word ws -> forallb (fun w => w =? 0) ws = true <-> words_val ws = 0) as Hall.
  { induction 1 as [|w ws Hw Hws IH]; [done|]. cbn [forallb words_val]. rewrite andb_true_iff, IH, Z.eqb_eq.
    pose proof (words_bound ws Hws). unfold is_word in Hw. split; [intros [-> ->]; lia|]. intros H0.
    pose proof (Z.pow_pos_nonneg 2 (32 * zlen ws) ltac:(lia) ltac:(pose proof (zlen_nonneg ws); lia)).
    assert (w = 0) by nia. subst. split; [done | lia]. }
  unfold addr_is_all0s, aval. destruct (wf_inet r Wr) as [E|E]; rewrite E.
  - apply Z.eqb_eq.
  - apply Hall, Wr.
Qed.

(** ** Increment *)

Lemma incr_words_spec l :
  Forall is_word l ->
  Forall is_word (incr_words l) /\ length (incr_words l) = length l /\
  lval (incr_words l) = (lval l + 1) mod 2 ^ (32 * zlen l).
Proof.
  induction 1 as [|w l Hw Hl (IHw & IHl & IHv)]; [done|]. cbn [incr_words]. unfold is_word in Hw.
  assert (is_word (u32 (w + 1))) as Hu by (apply Z.mod_pos_bound; lia).
  assert (0 <= lval l < 2 ^ (32 * zlen l)) as Hb.
  { rewrite <- words_val_reverse. replace (zlen l) with (zlen (reverse l)) by (unfold zlen; by rewrite length_reverse).
    apply words_bound. by apply Forall_reverse. }
  pose proof (zlen_nonneg l). rewrite zlen_cons.
  replace (32 * (zlen l + 1)) with (32 + 32 * zlen l) by lia. rewrite Z.pow_add_r by lia.
  destruct (Z.eqb_spec (u32 (w + 1)) 0) as [E|E]; cbn [negb lval].
  - assert (w = 2 ^ 32 - 1) as ->.
    { unfold u32 in E. destruct (Z.eq_dec (w + 1) (2 ^ 32)); [lia|]. rewrite Z.mod_small in E; lia. }
    split; [by constructor|]. split; [simpl; lia|]. rewrite IHv, E.
    replace (2 ^ 32 - 1 + 2 ^ 32 * lval l + 1) with (2 ^ 32 * (lval l + 1)) by lia.
    pose proof (Z.pow_pos_nonneg 2 (32 * zlen l) ltac:(lia) ltac:(lia)).
    rewrite Z.mul_mod_distr_l by lia. lia.
  - assert (u32 (w + 1) = w + 1) as Eu.
    { unfold u32 in *. destruct (Z.eq_dec (w + 1) (2 ^ 32)) as [Ew|]; [by rewrite Ew in E|].
      apply Z.mod_small. lia. }
    rewrite Eu in *. unfold is_word in Hu. split; [by constructor|]. split; [done|].
    rewrite Z.mod_small by nia. lia.
Qed.

Lemma increment_val a :
  xaddr_wf a -> xaddr_wf (addr_increment a) /\ af (addr_increment a) = af a /\
    scope_id (addr_increment a) = scope_id a /\
    aval (addr_increment a) = (aval a + 1) mod 2 ^ width (af a).
Proof.
  intros W. unfold addr_increment, aval, width. pose proof (wf_inet a W) as F. destruct W as [Hl Hw Ha].
  destruct F as [E|E]; rewrite E in *.
  - destruct Ha as [Ht Hs]. unfold set_v4, v4. cbn [af addr32 scope_id].
    destruct (addr32 a) as [|w ws] eqn:Ew; [done|]. apply Forall_cons in Hw as [Hw Hws]. simpl in *.
    assert (is_word (u32 (w + 1))) by (apply Z.mod_pos_bound; lia). rewrite E.
    split_and!; try done. split; simpl; [done | by constructor | by rewrite ?E].
  - cbn [af addr32 scope_id]. destruct (incr_words_spec (reverse (addr32 a))) as (Iw & Il & Iv).
    { by apply Forall_reverse. }
    rewrite words_val_reverse, Iv. unfold zlen. rewrite length_reverse, Hl in *.
    rewrite <- words_val_reverse, reverse_involutive. split_and!; try done.
    split; simpl; [by rewrite length_reverse, Il | by apply Forall_reverse | done].
Qed.

(** ** Parsing *)

Lemma strtonum_range s lo hi v : strtonum s lo hi = inl v -> lo <= v <= hi.
Proof.
  unfold strtonum. destruct (Z.ltb_spec hi lo); [done|]. destruct (strtoll s) as [[ll er] ep].
  do 3 (case_match; [done|]). intros Hv. injection Hv as <-. zbool. lia.
Qed.

(** What [getaddrinfo] returns is a socket address of its family. *)
Definition gai_wf (getaddrinfo : list Z -> option (sockaddr * Z)) : Prop := forall p sa slen,
  getaddrinfo p = Some (sa, slen) ->
  match sa_family sa with
  | AF_INET => exists w, sin_addr sa = [w] /\ is_word w
  | AF_INET6 => length (sin_addr sa) = 4%nat /\ Forall is_word (sin_addr sa)
  | AF_OTHER _ => True
  end.

Section ResolverFacts.
Context (getaddrinfo : list Z -> option (sockaddr * Z)).
Hypothesis Hgai : gai_wf getaddrinfo.

Lemma pton_wf p a : addr_pton getaddrinfo p = Some a -> xaddr_wf a.
Proof.
  unfold addr_pton. destruct (getaddrinfo p) as [[sa slen]|] eqn:E; [|done].
  pose proof (Hgai p sa slen E) as H. unfold addr_sa_to_xaddr. destruct (sa_family sa); [| |done].
  - destruct H as (w & -> & Hw). destruct (slen <? _); [done|]. intros [= <-].
    split; simpl; [done | | done]. unfold is_word in *.
    repeat (apply Forall_cons_2; [lia|]). apply Forall_nil_2.
  - destruct H as [Hl Hw]. destruct (slen <? _); [done|]. intros [= <-]. by split.
Qed.

Lemma pton_cidr_wf p net m :
  addr_pton_cidr getaddrinfo p = Ok (net, m) ->
  xaddr_wf net /\ 0 <= m <= width (af net) /\ aval net mod 2 ^ (width (af net) - m) = 0.
Proof.
  unfold addr_pton_cidr. destruct (64 <=? zlen p); [done|].
  match goal with |- match ?x with _ => _ end = _ -> _ => destruct x as [[buf mp]|] eqn:Ep; [|done] end.
  destruct (addr_pton getaddrinfo buf) as [tmp|] eqn:Et; [|done]. pose proof (pton_wf _ _ Et) as W.
  set (ml := match mp with None => _ | Some m => m end).
  destruct (negb (masklen_valid (af tmp) ml)) eqn:E1; [done|].
  destruct (negb (addr_host_is_all0s tmp ml)) eqn:E2; [done|]. intros [= <- <-].
  apply negb_false_iff in E1, E2.
  assert (0 <= ml) as H0.
  { unfold ml. destruct mp as [m0|]; [|apply Z.mod_pos_bound; lia].
    destruct (strchr p c_slash); [|done]. destruct (strtonum _ _ _) eqn:Es; [|done].
    injection Ep as _ <-. apply strtonum_range in Es. lia. }
  assert (ml <= width (af tmp)) as H1.
  { unfold masklen_valid, width in *. destruct (wf_inet _ W) as [E|E]; rewrite E in *; zbool; lia. }
  split_and!; [done..|]. by apply host_is_all0s_spec.
Qed.

Lemma host_to_all1s_val a m :
  xaddr_wf a -> 0 <= m <= width (af a) -> aval a mod 2 ^ (width (af a) - m) = 0 ->
  exists r, addr_host_to_all1s a m = Some r /\ xaddr_wf r /\ af r = af a /\ scope_id r = scope_id a /\
    aval r = aval a + (2 ^ (width (af a) - m) - 1).
Proof.
  intros W Hm H0. unfold addr_host_to_all1s.
  destruct (hostmask_val (af a) m (wf_inet _ W) Hm) as (k & -> & Wk & Ek & Vk).
  destruct (or_val a k W Wk ltac:(done)) as (r & -> & Wr & Er & Sr & Vr).
  exists r. split_and!; [done..|]. rewrite Vr, Vk.
  apply lor_low with (k := width (af a) - m); [lia| |done].
  pose proof (Z.pow_pos_nonneg 2 (width (af a) - m) ltac:(lia) ltac:(lia)). lia.
Qed.

Section Enumerate.
Context (getnameinfo : sockaddr -> Z -> option (list Z)).
Hypothesis Hgni : forall sa len, len <> 0 -> is_Some (getnameinfo sa len).

Lemma ntop_some a len : xaddr_wf a -> len <> 0 -> is_Some (addr_ntop getnameinfo a len).
Proof.
  intros W Hl. unfold addr_ntop, addr_xaddr_to_sa.
  destruct (wf_inet a W) as [-> | ->]; simpl; rewrite (proj2 (Z.eqb_neq len 0)) by done; by apply Hgni.
Qed.

(** The address [k] places after [a]. *)
Definition offset_of (a : xaddr) (k : Z) (x : xaddr) : Prop :=
  xaddr_wf x /\ af x = af a /\ scope_id x = scope_id a /\ aval x = aval a + k.

Lemma cidr_loop_spec end_addr d : forall a,
  xaddr_wf a -> xaddr_wf end_addr -> offset_of a (Z.of_nat d) end_addr ->
  exists addrs texts,
    (forall fuel, (d <= fuel)%nat -> cidr_loop getnameinfo fuel a end_addr = Some texts) /\
    length addrs = S d /\ Forall2 (fun x t => addr_ntop getnameinfo x 128 = Some t) addrs texts /\
    forall k x, addrs !! k = Some x -> offset_of a (Z.of_nat k) x.
Proof.
  induction d as [|d IH]; intros a Wa We (_ & Ea & Es & Ev);
    destruct (ntop_some a 128 Wa ltac:(done)) as [t Ht].
  - assert (addr_cmp a end_addr = 0) as Hc by (apply addr_cmp_zero; done || (split; [lia | done])).
    exists [a], [t]. split; [intros fuel _; destruct fuel; simpl; rewrite Ht, Hc; done|].
    split; [done|]. split; [by constructor|]. intros [|k] x; simpl; [|by rewrite lookup_nil].
    intros [= <-]. split_and!; done || lia.
  - assert (addr_cmp a end_addr <> 0) as Hc by (rewrite addr_cmp_zero by done; lia).
    destruct (increment_val a Wa) as (Wi & Ei & Si & Vi).
    rewrite Z.mod_small in Vi.
    2:{ pose proof (aval_bound _ We). pose proof (aval_bound _ Wa). rewrite Ea in *. lia. }
    destruct (IH (addr_increment a) Wi We) as (addrs & texts & E & Hl & F & Hk).
    { split_and!; [done | congruence | congruence | lia]. }
    exists (a :: addrs), (t :: texts). split.
    { intros [|fuel] Hf; [lia|]. simpl. rewrite Ht, (proj2 (Z.eqb_neq _ _) Hc), E by lia. done. }
    split; [by simpl; rewrite Hl|]. split; [by constructor|].
    intros [|k] x; simpl; [intros [= <-]; split_and!; done || lia|].
    intros Hx. destruct (Hk k x Hx) as (Wx & Ex & Sx & Vx). split_and!; [done | congruence | congruence | lia].
Qed.
End Enumerate.
End ResolverFacts.

(** ** Address lists *)

Section AddrList.
Context (getaddrinfo : list Z -> option (sockaddr * Z)).
Hypothesis Hgai : gai_wf getaddrinfo.
(** The address looked for, [None] in test mode. *)
Variable addr : option (list Z * xaddr).
Hypothesis Haddr : match addr with Some (_, a) => xaddr_wf a | None => True end.

(** The network of prefix length [m] at [net] contains [a]. *)
Definition in_network (a net : xaddr) (m : Z) : Prop :=
  af a = af net /\ scope_id a = scope_id net /\
  aval a / 2 ^ (width (af net) - m) = aval net / 2 ^ (width (af net) - m).

(** An entry without its negation. *)
Definition entry_bad (e : list Z) : Prop :=
  item_body e = [] \/ addr_pton_cidr getaddrinfo (item_body e) = Err (-2).

Definition entry_hit (e : list Z) : Prop :=
  match addr with
  | None => False
  | Some (text, a) =>
      match addr_pton_cidr getaddrinfo (item_body e) with
      | Ok (net, m) => in_network a net m
      | _ => glob (item_body e) text
      end
  end.

Lemma netmatch_network p a net m :
  xaddr_wf a -> addr_pton_cidr getaddrinfo p = Ok (net, m) ->
  addr_netmatch a net m = 0 <-> in_network a net m.
Proof.
  intros Wa Hp. destruct (pton_cidr_wf _ Hgai _ _ _ Hp) as (Wn & Hm & H0). unfold in_network.
  destruct (decide (af a = af net)) as [E|E].
  - rewrite netmatch_spec by (rewrite ?E; done). rewrite E.
    pose proof (Z.pow_pos_nonneg 2 (width (af net) - m) ltac:(lia) ltac:(lia)).
    rewrite (Z.div_mod (aval net) (2 ^ (width (af net) - m))) at 1 by lia. rewrite H0.
    split; intros (? & ? & Hv); (split_and!; [done..|]); [nia|]. rewrite Hv. lia.
  - split; [|tauto]. unfold addr_netmatch, eq_af. by rewrite bool_decide_false by done.
Qed.

(** How the entries decide, from the first one on. *)
Inductive am_verdict : list (list Z) -> Z -> Z -> Prop :=
| am_end ret : am_verdict [] ret ret
| am_bad e l ret : entry_bad e -> am_verdict (e :: l) ret (-2)
| am_neg e l ret :
    ~ entry_bad e -> item_negated e = true -> entry_hit e -> am_verdict (e :: l) ret (-1)
| am_hit e l ret r :
    ~ entry_bad e -> item_negated e = false -> entry_hit e -> am_verdict l 1 r -> am_verdict (e :: l) ret r
| am_miss e l ret r :
    ~ entry_bad e -> ~ entry_hit e -> am_verdict l ret r -> am_verdict (e :: l) ret r.

Lemma item_body_code e :
  (if match e with c :: _ => c =? c_bang | [] => false end then tail e else e) = item_body e.
Proof. destruct e as [|c e]; [done|]. simpl. by destruct (c =? c_bang). Qed.

(** [addr_pton_cidr] fails with -1 or -2 only. *)
Lemma pton_cidr_cases p :
  (exists nm, addr_pton_cidr getaddrinfo p = Ok nm) \/
  addr_pton_cidr getaddrinfo p = Err (-1) \/ addr_pton_cidr getaddrinfo p = Err (-2).
Proof. unfold addr_pton_cidr. repeat case_match; eauto. Qed.

Lemma match_list_loop_spec fuel : forall b pos ret,
  (length (rest_toks c_comma b pos) <= fuel)%nat ->
  exists r, addr_match_list_loop getaddrinfo fuel addr b pos ret = Some r /\
    am_verdict (rest_toks c_comma b pos) ret r.
Proof.
  induction fuel as [|fuel IH]; intros b pos ret Hf; cbn [addr_match_list_loop].
  all: destruct pos as [p|]; [|exists ret; split; [done | constructor]].
  all: destruct (strsep_some b p c_comma) as (e & b' & pos' & -> & E & _);
    cbn [rest_toks] in *; rewrite E in *; cbn [length] in Hf; try lia.
  destruct (IH b' pos' 1 ltac:(lia)) as (r1 & E1 & V1). destruct (IH b' pos' ret ltac:(lia)) as (r0 & E0 & V0).
  rewrite item_body_code. change (match e with c :: _ => c =? c_bang | [] => false end) with (item_negated e).
  destruct (item_body e) as [|c body] eqn:Eb.
  { exists (-2). split; [done|]. apply am_bad. by left. }
  rewrite <- Eb, E1, E0. assert (item_body e <> []) as Hne by congruence. clear c body Eb.
  assert (entry_hit e -> ~ entry_bad e -> exists r, (if item_negated e then Some (-1) else Some r1) = Some r /\
    am_verdict (e :: rest_toks c_comma b' pos') ret r) as Hhit.
  { intros Hh Hb. destruct (item_negated e) eqn:En; eexists; (split; [done|]); [by apply am_neg | by eapply am_hit]. }
  assert (~ entry_hit e -> ~ entry_bad e -> exists r, Some r0 = Some r /\
    am_verdict (e :: rest_toks c_comma b' pos') ret r) as Hmiss.
  { intros Hh Hb. eexists. split; [done|]. by apply am_miss. }
  destruct (pton_cidr_cases (item_body e)) as [[[net m] Ec]|[Ec|Ec]]; rewrite Ec.
  - assert (~ entry_bad e) as Hb by (unfold entry_bad; rewrite Ec; intros [|]; done).
    unfold entry_hit in *. rewrite Ec in *. destruct addr as [[text a]|]; [|auto].
    pose proof (netmatch_network _ a net m Haddr Ec) as Hn.
    destruct (Z.eqb_spec (addr_netmatch a net m) 0); tauto.
  - assert (~ entry_bad e) as Hb by (unfold entry_bad; rewrite Ec; intros [|]; done).
    unfold entry_hit in *. rewrite Ec in *. simpl. destruct addr as [[text a]|]; [|auto].
    destruct (match_pattern_glob text (item_body e)) as (g & -> & Hg). destruct g; [tauto|].
    apply Hmiss; [|done]. intros Hh. apply Hg in Hh. done.
  - exists (-2). split; [done|]. apply am_bad. by right.
Qed.

Lemma am_verdict_spec l ret r :
  am_verdict l ret r -> ret = 0 \/ ret = 1 ->
  (r = -2 \/ r = -1 \/ r = 0 \/ r = 1) /\
  (r = 1 \/ r = 0 -> Forall (fun e => ~ entry_bad e /\ ~ (item_negated e = true /\ entry_hit e)) l) /\
  (r = 1 -> ret = 1 \/ exists e, e ∈ l /\ item_negated e = false /\ entry_hit e) /\
  (r = 0 -> ret = 0 /\ Forall (fun e => ~ entry_hit e) l) /\
  (r = -2 -> exists e, e ∈ l /\ entry_bad e) /\
  (r = -1 -> exists e, e ∈ l /\ item_negated e = true /\ entry_hit e).
Proof.
  induction 1 as [ret|e l ret Hb|e l ret Hb Hn Hh|e l ret r Hb Hn Hh _ IH|e l ret r Hb Hh _ IH]; intros Hret.
  - split_and!; try lia; try tauto; intros; done || lia || (split; [lia | done]).
  - split_and!; try lia. intros _. exists e. split; [by left | done].
  - split_and!; try lia. intros _. exists e. split; [by left | done].
  - destruct (IH ltac:(by right)) as (I1 & I2 & I3 & I4 & I5 & I6). split_and!; try done.
    + intros Hr. constructor; [|auto]. split; [done|]. rewrite Hn. intros [? _]. done.
    + intros _. right. exists e. split; [by left | done].
    + intros Hr. destruct (I4 Hr). lia.
    + intros Hr. destruct (I5 Hr) as (x & ? & ?). exists x. split; [by right | done].
    + intros Hr. destruct (I6 Hr) as (x & ? & ?). exists x. split; [by right | done].
  - destruct (IH Hret) as (I1 & I2 & I3 & I4 & I5 & I6). split_and!; try done.
    + intros Hr. constructor; [|auto]. split; [done | tauto].
    + intros Hr. destruct (I3 Hr) as [|(x & ? & ?)]; [by left | right; exists x; split; [by right | done]].
    + intros Hr. destruct (I4 Hr). split; [done | by constructor].
    + intros Hr. destruct (I5 Hr) as (x & ? & ?). exists x. split; [by right | done].
    + intros Hr. destruct (I6 Hr) as (x & ? & ?). exists x. split; [by right | done].
Qed.
End AddrList.

Lemma addr_match_list_spec gai addr parsed lst :
  gai_wf gai ->
  match addr with
  | None => parsed = None
  | Some t => exists a, addr_pton gai t = Some a /\ parsed = Some (t, a)
  end ->
  exists r, addr_match_list gai true addr lst = Some r /\
    am_verdict gai parsed (split_on c_comma lst) 0 r.
Proof.
  intros Hg Hp. assert (exists r, addr_match_list_loop gai (S (length lst)) parsed lst (Some 0%nat) 0 = Some r /\
    am_verdict gai parsed (split_on c_comma lst) 0 r) as (r & E & V).
  { destruct (match_list_loop_spec gai Hg parsed) with (fuel := S (length lst)) (b := lst) (pos := Some 0%nat) (ret := 0)
      as (r & E & V).
    - destruct addr as [t|]; [|by rewrite Hp]. destruct Hp as (a & Ha & ->). by eapply pton_wf.
    - simpl. rewrite drop_0. apply split_on_length.
    - exists r. simpl in V. rewrite drop_0 in V. done. }
  exists r. split; [|done]. unfold addr_match_list. destruct addr as [t|]; [|by subst].
  destruct Hp as (a & -> & ->). done.
Qed.

(** An accepted host: some item matches the name or the address, and no
    negated one does. *)
Lemma host_and_ip_accepted gai host ip a patterns :
  gai_wf gai -> zlen patterns < 2 ^ 32 -> addr_pton gai ip = Some a ->
  match_host_and_ip gai true (Some host) (Some ip) patterns = Some 1 ->
  let items := split_on c_comma patterns in
  let hit e := entry_hit gai (Some (ip, a)) e in
  (forall e, e ∈ items -> ~ (item_negated e = true /\ hit e)) /\
  ~ vetoed (lowercase host) true (pat_items patterns) /\
  ((exists e, e ∈ items /\ item_negated e = false /\ hit e) \/
   accepted (lowercase host) true (pat_items patterns) 0).
Proof.
  intros Hg Hl Ha. unfold match_host_and_ip.
  destruct (addr_match_list_spec gai (Some ip) (Some (ip, a)) patterns Hg (ex_intro _ a (conj Ha eq_refl))) as (mip & -> & V).
  destruct (am_verdict_spec _ _ _ _ _ V ltac:(by left)) as (_ & V1 & V2 & _).
  unfold match_hostname.
  destruct (match_pattern_list_spec (lowercase host) patterns true Hl) as (mh & -> & Hmh & Hv & Hac).
  destruct (Z.eqb_spec mip (-2)); [done|]. destruct (Z.eqb_spec mip (-1)); [done|].
  destruct (Z.eqb_spec mh (-1)); [done|]. destruct ((mh =? 0) && (mip =? 0)) eqn:E0; [done|]. intros _. cbv zeta.
  assert (mip = 1 \/ mip = 0) as Hm.
  { destruct (am_verdict_spec _ _ _ _ _ V ltac:(by left)) as [? _]. lia. }
  split; [|split; [tauto|]].
  - intros e He. pose proof (V1 Hm) as HF. rewrite Forall_forall in HF. apply (HF e He).
  - destruct Hm as [->| ->].
    + left. destruct (V2 eq_refl) as [|H]; [done | exact H].
    + right. apply Hac. zcases; lia.
Qed.

Lemma cidr_list_single gai fuel a net m e ret :
  e <> [] -> ~ (c_comma ∈ e) -> zlen e <= INET6_ADDRSTRLEN + 3 ->
  addr_pton_cidr gai e = Ok (net, m) -> addr_netmatch a net m = 0 ->
  addr_match_cidr_list_loop gai (S fuel) (Some a) e (Some 0%nat) ret = Some 1.
Proof.
  intros Hne Hc Hl Hp Hm. cbn [addr_match_cidr_list_loop]. unfold strsep.
  rewrite drop_0, span_to_all by done. cbn [Nat.add]. rewrite Nat.ltb_irrefl.
  destruct e as [|c e']; [done|]. set (e := c :: e') in *.
  destruct (Z.ltb_spec (INET6_ADDRSTRLEN + 3) (zlen e)); [lia|].
  rewrite Hp, Hm. by destruct fuel.
Qed.

(** ** Properties *)

(** C27. A CIDR block: what [addr_pton_cidr] accepts is a prefix whose host
    bits are zero, and [addr_netmatch] then tells exactly whether an address
    is in the block: same family, same scope, same first [m] bits. *)
Theorem cidr_match_correct gai p net m a :
  gai_wf gai -> addr_pton_cidr gai p = Ok (net, m) -> xaddr_wf a ->
  0 <= m <= width (af net) /\ aval net mod 2 ^ (width (af net) - m) = 0 /\
  (addr_netmatch a net m = 0 <->
     af a = af net /\ scope_id a = scope_id net /\
     aval a / 2 ^ (width (af net) - m) = aval net / 2 ^ (width (af net) - m)).
Proof.
  intros Hg Hp Wa. destruct (pton_cidr_wf gai Hg p net m Hp) as (_ & Hm & H0).
  split_and!; [lia..|]. by eapply netmatch_network.
Qed.

(** A resolver that knows a few addresses. *)
Definition ex_addr (w : Z) : sockaddr * Z := (mk_sockaddr AF_INET 0 [w] 0, 16).
Definition ex_gai (p : list Z) : option (sockaddr * Z) :=
  if streq p (str "10.1.2.0") then Some (ex_addr 0x0a010200)
  else if streq p (str "10.1.2.3") then Some (ex_addr 0x0a010203)
  else if streq p (str "0x0a.1.2.3") then Some (ex_addr 0x0a010203)
  else None.

Lemma ex_gai_wf : gai_wf ex_gai.
Proof.
  intros p sa slen. unfold ex_gai, ex_addr.
  do 3 (destruct (streq _ _);
    [intros [= <- <-]; simpl; eexists; split; [done | unfold is_word; lia]|]). done.
Qed.

Lemma cidr_match_correct_witness :
  exists net m, addr_pton_cidr ex_gai (str "10.1.2.0/24") = Ok (net, m) /\
    addr_netmatch (mk_xaddr AF_INET [0x0a010203; 0; 0; 0] 0) net m = 0.
Proof.
  exists (mk_xaddr AF_INET [0x0a010200; 0; 0; 0] 0), 24.
  assert (addr_pton_cidr ex_gai (str "10.1.2.0/24") = Ok (mk_xaddr AF_INET [0x0a010200; 0; 0; 0] 0, 24)) as E
    by (by vm_compute).
  split; [done|].
  apply (cidr_match_correct ex_gai (str "10.1.2.0/24") _ 24 _ ex_gai_wf E).
  - split; simpl; [done | | done]. unfold is_word.
    repeat (apply Forall_cons_2; [lia|]). apply Forall_nil_2.
  - by vm_compute.
Defined.

(** [addr_cmp] orders addresses by family, value and scope: its sign is
    that of the comparison of the keys, so that it is a total order, zero on
    equal addresses only. *)
Theorem addr_cmp_order a b :
  xaddr_wf a -> xaddr_wf b ->
  (addr_cmp a b ?= 0) =
    match af a, af b with
    | AF_INET, AF_INET6 => Lt
    | AF_INET6, AF_INET => Gt
    | _, _ => match aval a ?= aval b with Eq => scope_id a ?= scope_id b | c => c end
    end.
Proof. apply addr_cmp_spec. Qed.

Lemma addr_cmp_order_witness :
  (addr_cmp (mk_xaddr AF_INET6 [0xfe800000; 0; 0; 1] 2) (mk_xaddr AF_INET6 [0xfe800000; 0; 0; 2] 1) ?= 0) = Lt.
Proof.
  rewrite addr_cmp_order; [by vm_compute| |];
    (split; simpl; [done | | done]; unfold is_word;
     repeat (apply Forall_cons_2; [lia|]); apply Forall_nil_2).
Defined.



(** C23. [addr_match_list]: 1 exactly when every entry is well formed, no
    negated entry matches and some entry matches, where an entry matches as a
    network if it parses as one and as a wildcard pattern otherwise; -2 only
    with a malformed entry, -1 only with a negated match.  Without an address
    it checks the list: -2 exactly when an entry is malformed, 0 otherwise. *)
Theorem addr_match_list_correct gai addr parsed lst :
  gai_wf gai ->
  match addr with
  | None => parsed = None
  | Some t => exists a, addr_pton gai t = Some a /\ parsed = Some (t, a)
  end ->
  let items := split_on c_comma lst in
  exists r, addr_match_list gai true addr lst = Some r /\
    (r = 1 <-> (forall e, e ∈ items -> ~ entry_bad gai e) /\
       (forall e, e ∈ items -> item_negated e = true -> ~ entry_hit gai parsed e) /\
       exists e, e ∈ items /\ entry_hit gai parsed e) /\
    (r = -2 -> exists e, e ∈ items /\ entry_bad gai e) /\
    (r = -1 -> exists e, e ∈ items /\ item_negated e = true /\ entry_hit gai parsed e) /\
    (parsed = None -> (r = -2 \/ r = 0) /\ (r = -2 <-> exists e, e ∈ items /\ entry_bad gai e)).
Proof.
  intros Hg Hp items. destruct (addr_match_list_spec gai addr parsed lst Hg Hp) as (r & E & V).
  destruct (am_verdict_spec _ _ _ _ _ V ltac:(by left)) as (V0 & V1 & V2 & V3 & V4 & V5).
  fold items in V1, V2, V3, V4, V5. rewrite !Forall_forall in *.
  exists r. split; [done|]. split; [split|split; [done|split; [done|]]].
  - intros ->. specialize (V1 (or_introl eq_refl)). split; [intros e He; apply (V1 e He)|].
    split; [intros e He Hn Hh; by apply (proj2 (V1 e He))|].
    destruct (V2 eq_refl) as [|(e & ? & ? & ?)]; [done | eauto].
  - intros (Hb & Hn & e & He & Hh). destruct V0 as [->|[->|[->| ->]]]; [exfalso..|done].
    + destruct (V4 eq_refl) as (x & ? & ?). by apply (Hb x).
    + destruct (V5 eq_refl) as (x & ? & ? & ?). by apply (Hn x).
    + destruct (V3 eq_refl) as [_ HF]. by apply (HF e).
  - intros ->. assert (r = -2 \/ r = 0) as Hr.
    { destruct V0 as [|[->|[| ->]]]; [auto | | auto |].
      - destruct (V5 eq_refl) as (x & _ & _ & []).
      - destruct (V2 eq_refl) as [|(x & _ & _ & [])]; done. }
    split; [done|]. split; [done|]. intros (e & He & Hb). destruct Hr as [| ->]; [done|].
    exfalso. by apply (proj1 (V1 (or_intror eq_refl) e He)).
Qed.

Lemma addr_match_list_correct_witness :
  exists r, addr_match_list ex_gai true (Some (str "10.1.2.3")) (str "!192.*,10.1.2.0/24") = Some r /\ r = 1.
Proof.
  destruct (addr_match_list_correct ex_gai (Some (str "10.1.2.3"))
    (Some (str "10.1.2.3", mk_xaddr AF_INET [0x0a010203; 0; 0; 0] 0)) (str "!192.*,10.1.2.0/24") ex_gai_wf)
    as (r & E & _).
  - eexists. split; [by vm_compute | done].
  - exists r. split; [done|]. vm_compute in E. congruence.
Defined.

(** A user is admitted by a [user@host] pattern only if the part before
    the last [@] matches the name, some item of the host part matches the
    host name or the address, and no negated item matches either of them. *)
Theorem match_user_sound gai user host ip a pattern k :
  gai_wf gai -> zlen pattern < 2 ^ 32 -> addr_pton gai ip = Some a ->
  strrchr pattern c_at = Some k ->
  match_user gai true (Some user) (Some host) (Some ip) pattern = Some 1 ->
  let patterns := drop (S k) pattern in
  let items := split_on c_comma patterns in
  let hit e := entry_hit gai (Some (ip, a)) e in
  glob (take k pattern) user /\
  (forall e, e ∈ items -> ~ (item_negated e = true /\ hit e)) /\
  ~ vetoed (lowercase host) true (pat_items patterns) /\
  ((exists e, e ∈ items /\ item_negated e = false /\ hit e) \/
   accepted (lowercase host) true (pat_items patterns) 0).
Proof.
  intros Hg Hl Ha Hk Hm. unfold match_user in Hm. rewrite Hk in Hm.
  destruct (match_pattern_glob user (take k pattern)) as (b & Eb & Hb). rewrite Eb in Hm.
  destruct b; [|done]. split; [by apply Hb|]. apply host_and_ip_accepted; try done.
  unfold zlen in *. rewrite length_drop. lia.
Qed.

Lemma match_user_sound_witness : glob (str "adm*") (str "admin").
Proof.
  refine (proj1 (match_user_sound ex_gai (str "admin") (str "gw.example.org") (str "10.1.2.3")
    (mk_xaddr AF_INET [0x0a010203; 0; 0; 0] 0) (str "adm*@10.1.2.0/24,!*.evil.org") 4 ex_gai_wf _ _ _ _));
    by vm_compute.
Defined.

(** [addr_match_cidr_list] promises -1 on a malformed list, but an entry
    with characters outside the permitted set only sets the result, which a
    later match overwrites: with a resolver that reads [0x0a.1.2.3] as
    10.1.2.3 (as inet_aton does) the entry is accepted as a match. *)
Theorem cidr_list_junk_accepted gai sa slen :
  gai_wf gai -> sa_family sa = AF_INET -> SIZEOF_SOCKADDR_IN <= slen ->
  gai (str "0x0a.1.2.3") = Some (sa, slen) -> gai (str "10.1.2.3") = Some (sa, slen) ->
  forallb valid_cidr_char (str "0x0a.1.2.3") = false /\
  addr_match_cidr_list gai true (Some (str "10.1.2.3")) (str "0x0a.1.2.3") = Some 1.
Proof.
  intros Hg Hf Hs Hj Ha. split; [done|].
  set (a := mk_xaddr AF_INET [default 0 (sin_addr sa !! 0%nat); 0; 0; 0] 0).
  assert (addr_sa_to_xaddr sa slen = Some a) as Ea.
  { unfold addr_sa_to_xaddr. rewrite Hf. by destruct (Z.ltb_spec slen SIZEOF_SOCKADDR_IN); [lia|]. }
  assert (addr_pton gai (str "0x0a.1.2.3") = Some a) as Pj by (unfold addr_pton; by rewrite Hj).
  assert (addr_pton gai (str "10.1.2.3") = Some a) as Pa by (unfold addr_pton; by rewrite Ha).
  pose proof (pton_wf gai Hg _ _ Pj) as Wa.
  assert (addr_pton_cidr gai (str "0x0a.1.2.3") = Ok (a, 32)) as Pc.
  { unfold addr_pton_cidr. change (64 <=? zlen (str "0x0a.1.2.3")) with false.
    change (strchr (str "0x0a.1.2.3") c_slash) with (@None nat). cbv iota. rewrite Pj.
    change (u32 (addr_unicast_masklen (af a))) with 32. cbn [negb masklen_valid af a].
    rewrite (proj2 (host_is_all0s_spec a 32 Wa ltac:(simpl; lia))); [done|]. apply Z.mod_1_r. }
  assert (addr_netmatch a a 32 = 0) as Hn.
  { apply (netmatch_network gai Hg _ a a 32 Wa Pc). done. }
  unfold addr_match_cidr_list. rewrite Pa.
  apply (cidr_list_single gai _ a a 32); done || (by apply (bool_decide_unpack _); vm_compute).
Qed.

Lemma cidr_list_junk_accepted_witness :
  addr_match_cidr_list ex_gai true (Some (str "10.1.2.3")) (str "0x0a.1.2.3") = Some 1.
Proof.
  refine (proj2 (cidr_list_junk_accepted ex_gai (fst (ex_addr 0x0a010203)) 16 ex_gai_wf _ _ _ _)); by vm_compute.
Defined.
