(* ===== verification/Bitmap.v ===== *)
(** * bitmap.c: bitmaps of arbitrary size

    The words are little endian; [top] is the index of the highest word in
    use.  A bitmap is the number it spells: the theorems relate every
    operation to the bit operations on that number. *)
From S2P Require Import Prelude SshbufGetput Words.

Definition BITMAP_MAX : Z := Z.shiftl 1 24.
Definition BITMAP_BYTES : Z := 4.
Definition BITMAP_BITS : Z := 32.
Definition BITMAP_WMASK : Z := BITMAP_BITS - 1.

Record bitmap : Type := mk_bitmap {
  bm_d : list Z;
  bm_len : Z;
  bm_top : Z;
}.

Definition set_d (d : list Z) (b : bitmap) : bitmap := mk_bitmap d (bm_len b) (bm_top b).
Definition set_top (t : Z) (b : bitmap) : bitmap := mk_bitmap (bm_d b) (bm_len b) t.

(** [d[i]]; outside the block, [None]. *)
Definition word_at (b : bitmap) (i : Z) : option Z :=
  if 0 <=? i then bm_d b !! Z.to_nat i else None.

Definition put_word (i w : Z) : ST bitmap unit := fun b =>
  match word_at b i with
  | None => (Crash, b)
  | Some _ => (Ok tt, set_d (<[Z.to_nat i := w]> (bm_d b)) b)
  end.

Definition get_word (i : Z) : ST bitmap Z := fun b => defined (word_at b i) b.

(** [ps] and [pd] are what [calloc] returns. *)
Definition bitmap_new (ps pd : Z) : option bitmap :=
  if ps =? 0 then None
  else if pd =? 0 then None
  else Some (mk_bitmap [0] 1 0).

(** [memset] of [len] words. *)
Definition bitmap_zero : ST bitmap unit := fun b =>
  if bm_len b <=? zlen (bm_d b) then
    (Ok tt, mk_bitmap (replicate (Z.to_nat (bm_len b)) 0 ++ zdrop (bm_len b) (bm_d b)) (bm_len b) 0)
  else (Crash, b).

Definition bitmap_test_bit (b : bitmap) (n : Z) : res bool :=
  if bm_len b <=? bm_top b then Ok false
  else if (bm_len b =? 0) || (bm_top b <? n / BITMAP_BITS) then Ok false
  else
    let? w := rdefined (word_at b (n / BITMAP_BITS)) in
    Ok (negb (Z.land (Z.shiftr w (Z.land n BITMAP_WMASK)) 1 =? 0)).

(** [np] is what [recallocarray] returns. *)
Definition reserve (np n : Z) : ST bitmap unit :=
  let! b := get in
  if (bm_len b <=? bm_top b) || (BITMAP_MAX <? n) then fail (-1)
  else
    let nlen := n / BITMAP_BITS + 1 in
    if bm_len b <? nlen then
      if np =? 0 then fail (-1)
      else put (mk_bitmap (mem_recalloc (bm_d b) nlen) nlen (bm_top b))
    else ret tt.

Definition bitmap_set_bit (np n : Z) : ST bitmap unit :=
  do! reserve np n ;;
  let! b := get in
  let offset := n / BITMAP_BITS in
  do! (if bm_top b <? offset then put (set_top offset b) else ret tt) ;;
  let! w := get_word offset in
  put_word offset (Z.lor w (u32 (Z.shiftl 1 (Z.land n BITMAP_WMASK)))).

(** The loop of [retop], from [top] down. *)
Fixpoint retop_from (d : list Z) (top : nat) : option nat :=
  match top with
  | O => Some O
  | S top' =>
      match d !! top with
      | None => None
      | Some w => if w =? 0 then retop_from d top' else Some top
      end
  end.

Definition retop : ST bitmap unit := fun b =>
  if bm_len b <=? bm_top b then (Ok tt, b)
  else
    match retop_from (bm_d b) (Z.to_nat (bm_top b)) with
    | None => (Crash, b)
    | Some t => (Ok tt, set_top (Z.of_nat t) b)
    end.

Definition bitmap_clear_bit (n : Z) : ST bitmap unit :=
  let! b := get in
  if (bm_len b <=? bm_top b) || (BITMAP_MAX <? n) then ret tt
  else
    let offset := n / BITMAP_BITS in
    if bm_top b <? offset then ret tt
    else
      let! w := get_word offset in
      do! put_word offset (Z.land w (u32 (Z.lnot (Z.shiftl 1 (Z.land n BITMAP_WMASK))))) ;;
      retop.

(** The loop that looks for the most significant bit; 32 rounds reach it in a
    word that is not zero. *)
Fixpoint find_msb (fuel : nat) (w bits : Z) : option Z :=
  if Z.land w (u32 (Z.shiftl 1 (BITMAP_BITS - 1))) =? 0 then
    match fuel with
    | O => None
    | S fuel => find_msb fuel (u32 (Z.shiftl w 1)) (bits - 1)
    end
  else Some bits.

Definition bitmap_nbits : ST bitmap Z :=
  do! retop ;;
  let! b := get in
  if bm_len b <=? bm_top b then ret 0
  else
    let! empty := (if bm_len b =? 0 then ret true
                   else if bm_top b =? 0 then let! w := get_word 0 in ret (w =? 0)
                   else ret false) in
    if empty then ret 0
    else
      let! w := get_word (bm_top b) in
      defined (find_msb 32 w ((bm_top b + 1) * BITMAP_BITS)).

Definition bitmap_nbytes : ST bitmap Z :=
  let! n := bitmap_nbits in ret ((n + 7) / 8).

(** The two loops of [bitmap_to_string] over the words and their bytes: [k]
    bytes are in [s], from its end. *)
Definition to_string_loop (d : list Z) (words need l : Z) (s : list Z) : option (list Z) :=
  option_map snd
    (for_loop 0 (Z.to_nat words) (fun i ks =>
       for_loop 0 (Z.to_nat BITMAP_BYTES) (fun j '(k, s) =>
         if l <=? k then Some (k, s)
         else
           match d !! i with
           | None => None
           | Some w =>
               match mem_write s (need - 1 - k) [Z.land (Z.shiftr w (Z.of_nat j * 8)) 0xff] with
               | None => None
               | Some s => Some (k + 1, s)
               end
           end) ks) (0, s)).

(** [s] is the caller's block of [l] bytes. *)
Definition bitmap_to_string (s : list Z) (l : Z) : ST bitmap (list Z) :=
  let! need := bitmap_nbytes in
  let! b := get in
  if (l <? need) || (bm_len b <=? bm_top b) then fail (-1)
  else
    let l := if need <? l then need else l in
    defined (to_string_loop (bm_d b) (bm_top b + 1) need l s).

(** The loop of [bitmap_from_string]: [d[offset] |= s[i] << shift]. *)
Fixpoint from_string_loop (s : list Z) (offset shift : Z) : ST bitmap unit :=
  match s with
  | [] => ret tt
  | c :: s =>
      let! w := get_word offset in
      do! put_word offset (Z.lor w (u32 (Z.shiftl c shift))) ;;
      if shift =? 0 then from_string_loop s (u64 (offset - 1)) (BITMAP_BITS - 8)
      else from_string_loop s offset (shift - 8)
  end.

Definition bitmap_from_string (np : Z) (s : list Z) : ST bitmap unit :=
  let l := zlen s in
  if BITMAP_MAX / 8 <? l then fail (-1)
  else
    do! reserve np (l * 8) ;;
    do! bitmap_zero ;;
    if l =? 0 then ret tt
    else
      let! b := get in
      let offset := (l + (BITMAP_BYTES - 1)) / BITMAP_BYTES - 1 in
      do! put (set_top offset b) ;;
      let shift := (l + (BITMAP_BYTES - 1)) mod BITMAP_BYTES * 8 in
      do! from_string_loop s offset shift ;;
      retop.

(** ** The invariant *)

Record bitmap_wf (b : bitmap) : Prop := {
  bw_len : zlen (bm_d b) = bm_len b;
  bw_top : 0 <= bm_top b < bm_len b;
  bw_words : Forall is_word (bm_d b);
  (* nothing above [top], and no bit above the limit *)
  bw_zero : forall i w, bm_d b !! i = Some w -> bm_top b < Z.of_nat i -> w = 0;
  bw_max : forall n, BITMAP_MAX < n -> Z.testbit (lval (bm_d b)) n = false;
}.

(** The number a bitmap spells. *)
Definition bm_val (b : bitmap) : Z := lval (bm_d b).

(** ** Lemmas *)

Lemma BITMAP_MAX_val : BITMAP_MAX = 16777216.
Proof. done. Qed.
Opaque BITMAP_MAX.

Lemma land_wmask n : Z.land n BITMAP_WMASK = n mod 32.
Proof. exact (Z.land_ones n 5 ltac:(lia)). Qed.

Lemma word_at_some b i : bitmap_wf b -> 0 <= i < bm_len b ->
  exists w, word_at b i = Some w /\ bm_d b !! Z.to_nat i = Some w /\ is_word w.
Proof.
  intros W Hi. pose proof (bw_len b W) as Hl. unfold word_at, zlen in *.
  destruct (lookup_lt_is_Some_2 (bm_d b) (Z.to_nat i)) as [w Hw]; [lia|]. exists w.
  destruct (Z.leb_spec 0 i); [|lia]. split_and!; [done..|].
  eapply Forall_lookup_1; [apply (bw_words b W) | done].
Qed.

Lemma get_word_ok b i w : word_at b i = Some w -> get_word i b = (Ok w, b).
Proof. unfold get_word, defined. by intros ->. Qed.

Lemma put_word_ok b i w w' : word_at b i = Some w ->
  put_word i w' b = (Ok tt, set_d (<[Z.to_nat i := w']> (bm_d b)) b).
Proof. unfold put_word. by intros ->. Qed.

Lemma bm_val_nonneg b : bitmap_wf b -> 0 <= bm_val b.
Proof. intros W. apply lval_bound, W. Qed.

Lemma land1_testbit w k : 0 <= k -> negb (Z.land (Z.shiftr w k) 1 =? 0) = Z.testbit w k.
Proof.
  intros Hk. change 1 with (Z.ones 1). rewrite Z.land_ones by lia. change (2 ^ 1) with 2.
  rewrite Zmod_odd, <- Z.bit0_odd, Z.shiftr_spec, Z.add_0_l by lia. by destruct (Z.testbit w k).
Qed.

Lemma bitmap_test_bit_spec b n :
  bitmap_wf b -> 0 <= n -> bitmap_test_bit b n = Ok (Z.testbit (bm_val b) n).
Proof.
  intros W Hn. unfold bitmap_test_bit, BITMAP_BITS, bm_val. pose proof (bw_top b W) as Ht.
  destruct (Z.leb_spec (bm_len b) (bm_top b)); [lia|]. destruct (Z.eqb_spec (bm_len b) 0); [lia|]. cbn [orb].
  pose proof (Z.div_pos n 32 Hn ltac:(lia)).
  rewrite lval_testbit by (done || apply W). destruct (Z.ltb_spec (bm_top b) (n / 32)) as [H'|H'].
  - destruct (bm_d b !! Z.to_nat (n / 32)) as [w|] eqn:E; [|done].
    rewrite (bw_zero b W _ w E) by lia. by rewrite Z.bits_0.
  - destruct (word_at_some b (n / 32) W ltac:(lia)) as (w & -> & -> & _). simpl.
    rewrite land_wmask, land1_testbit; [done|]. apply Z.mod_pos_bound. lia.
Qed.

(** What [reserve] does: nothing, or more zero words. *)
Inductive reserved (np n : Z) (b : bitmap) : res unit * bitmap -> Prop :=
| reserved_refused : BITMAP_MAX < n \/ (np = 0 /\ bm_len b <= n / 32) -> reserved np n b (Err (-1), b)
| reserved_ok b' : n <= BITMAP_MAX -> bitmap_wf b' -> bm_val b' = bm_val b -> bm_top b' = bm_top b ->
    n / 32 < bm_len b' -> reserved np n b (Ok tt, b').

Lemma reserve_spec np n b : bitmap_wf b -> 0 <= n -> reserved np n b (reserve np n b).
Proof.
  intros W Hn. pose proof (bw_top b W) as Ht. pose proof (bw_len b W) as Hl.
  unfold reserve, bind, get, BITMAP_BITS.
  destruct (Z.leb_spec (bm_len b) (bm_top b)); [lia|]. cbn [orb].
  destruct (Z.ltb_spec BITMAP_MAX n); [apply reserved_refused; by left|].
  destruct (Z.ltb_spec (bm_len b) (n / 32 + 1)) as [H'|H'].
  - destruct (Z.eqb_spec np 0); [apply reserved_refused; right; lia|].
    assert (mem_recalloc (bm_d b) (n / 32 + 1) = bm_d b ++ replicate (Z.to_nat (n / 32 + 1 - zlen (bm_d b))) 0) as E
      by (unfold mem_recalloc; rewrite ztake_all by lia; done).
    assert (lval (mem_recalloc (bm_d b) (n / 32 + 1)) = lval (bm_d b)) as Ev
      by (rewrite E, lval_app, lval_replicate; lia).
    apply reserved_ok; simpl; try done; [|lia]. split; simpl; [rewrite E; zl | lia | | |].
    + rewrite E. apply Forall_app. split; [apply W|]. apply Forall_replicate. unfold is_word. lia.
    + rewrite E. intros i w [Hi|[_ [-> _]%lookup_replicate]]%lookup_app_Some; [|done]. by apply (bw_zero b W i).
    + rewrite Ev. apply W.
  - apply reserved_ok; try done; lia.
Qed.

Lemma div32_bound n : 0 <= n -> 0 <= n / 32 /\ 32 * (n / 32) + n mod 32 = n /\ 0 <= n mod 32 < 32.
Proof. intros Hn. pose proof (Z.div_mod n 32 ltac:(lia)). pose proof (Z.mod_pos_bound n 32 ltac:(lia)).
  pose proof (Z.div_pos n 32 Hn ltac:(lia)). lia. Qed.

(** The invariant after an update of one word at or below [top]. *)
Lemma wf_update b t i w w' :
  bitmap_wf b -> bm_top b <= t < bm_len b -> 0 <= i <= t -> bm_d b !! Z.to_nat i = Some w -> is_word w' ->
  (forall n, BITMAP_MAX < n -> Z.testbit (lval (<[Z.to_nat i := w']> (bm_d b))) n = false) ->
  bitmap_wf (mk_bitmap (<[Z.to_nat i := w']> (bm_d b)) (bm_len b) t).
Proof.
  intros W Ht Hi Hw Hw' Hmax. pose proof (bw_top b W). split; simpl.
  - unfold zlen. rewrite length_insert. apply W.
  - lia.
  - apply Forall_insert; [apply W | done].
  - intros k x Hk Hkt. rewrite list_lookup_insert_ne in Hk by lia. apply (bw_zero b W k x Hk). lia.
  - done.
Qed.

Lemma set_top_wf b t : bitmap_wf b -> bm_top b <= t < bm_len b -> bitmap_wf (set_top t b).
Proof.
  intros W Ht. pose proof (bw_top b W). split; simpl; [apply W | lia | apply W | | apply W].
  intros i w Hi Hit. apply (bw_zero b W i w Hi). lia.
Qed.

Lemma testbit_setbit a n m : 0 <= n -> Z.testbit (Z.setbit a n) m = (n =? m) || Z.testbit a m.
Proof. intros Hn. by apply Z.setbit_eqb. Qed.

Lemma bitmap_set_bit_spec np n b :
  bitmap_wf b -> 0 <= n ->
  (bitmap_set_bit np n b = (Err (-1), b) /\ (BITMAP_MAX < n \/ (np = 0 /\ bm_len b <= n / 32))) \/
  (exists b', bitmap_set_bit np n b = (Ok tt, b') /\ bitmap_wf b' /\ n <= BITMAP_MAX /\
     bm_val b' = Z.setbit (bm_val b) n).
Proof.
  intros W Hn. unfold bitmap_set_bit. destruct (div32_bound n Hn) as (Hd & Hn' & Hm).
  pose proof (reserve_spec np n b W Hn) as R. remember (reserve np n b) as rb eqn:Er.
  destruct R as [Href|b1 Hmax W1 V1 T1 L1];
    [left; split; [by rewrite (bind_err _ _ _ _ _ (eq_sym Er)) | done]|].
  right. rewrite (bind_ok _ _ _ _ _ (eq_sym Er)).
  unfold bind at 1, get at 1. unfold BITMAP_BITS. cbv zeta.
  assert (exists b2, (if bm_top b1 <? n / 32 then put (set_top (n / 32) b1) else ret tt) b1 = (Ok tt, b2) /\
    bitmap_wf b2 /\ bm_d b2 = bm_d b1 /\ bm_len b2 = bm_len b1 /\ n / 32 <= bm_top b2) as (b2 & E2 & W2 & D2 & L2 & T2).
  { pose proof (bw_top b1 W1). destruct (Z.ltb_spec (bm_top b1) (n / 32)); eexists; (split; [done|]).
    - split_and!; try done. apply set_top_wf; [done | lia].
    - by split_and!. }
  rewrite (bind_ok _ _ _ _ _ E2).
  destruct (word_at_some b2 (n / 32) W2 ltac:(lia)) as (w & Hw & Hl & Hwd).
  rewrite (bind_ok _ _ _ _ _ (get_word_ok _ _ _ Hw)), (put_word_ok _ _ _ _ Hw), land_wmask.
  assert (0 <= Z.shiftl 1 (n mod 32) < 2 ^ 32) as Hs.
  { rewrite Z.shiftl_1_l. split; [apply Z.pow_nonneg; lia | apply Z.pow_lt_mono_r; lia]. }
  rewrite u32_small by done.
  destruct (lval_or (bm_d b2) (Z.to_nat (n / 32)) w 1 (n mod 32)) as [Hw' Hv]; try done.
  { apply W2. } { lia. } { split; [lia|]. apply Z.pow_gt_1; lia. }
  rewrite Z2Nat.id, Hn' in Hv by lia.
  assert (lval (<[Z.to_nat (n / 32) := Z.lor w (Z.shiftl 1 (n mod 32))]> (bm_d b2)) = Z.setbit (bm_val b) n) as Hv'.
  { rewrite Hv, <- V1. unfold bm_val, Z.setbit. by rewrite D2, Z.shiftl_1_l. }
  eexists. split; [done|]. split; [|split; [done|exact Hv']].
  apply (wf_update b2 (bm_top b2) (n / 32) w); try done.
  - pose proof (bw_top b2 W2). lia.
  - intros m Hm'. rewrite Hv', testbit_setbit by done. destruct (Z.eqb_spec n m); [lia|].
    cbn [orb]. rewrite <- V1. apply (bw_max b1 W1 m Hm').
Qed.

Lemma retop_from_spec d t :
  (t < length d)%nat -> exists t', retop_from d t = Some t' /\ (t' <= t)%nat /\
    (forall i w, d !! i = Some w -> (t' < i <= t)%nat -> w = 0) /\
    (t' = 0%nat \/ exists w, d !! t' = Some w /\ w <> 0).
Proof.
  induction t as [|t IH]; intros Ht; cbn [retop_from].
  - exists 0%nat. split_and!; [done | done | lia | by left].
  - destruct (lookup_lt_is_Some_2 d (S t) Ht) as [w Hw]. rewrite Hw. destruct (Z.eqb_spec w 0) as [->|Hne].
    + destruct (IH ltac:(lia)) as (t' & -> & Hle & Hz & Hnz). exists t'. split_and!; [done | lia | | done].
      intros i x Hi Hit. destruct (decide (i = S t)) as [->|]; [congruence | apply (Hz i x Hi); lia].
    + exists (S t). split_and!; [done | done | lia | right; eauto].
Qed.

(** [retop] keeps the number and finds its highest word. *)
Lemma retop_spec b :
  bitmap_wf b -> exists b', retop b = (Ok tt, b') /\ bitmap_wf b' /\ bm_d b' = bm_d b /\ bm_len b' = bm_len b /\
    (bm_top b' = 0 \/ exists w, word_at b' (bm_top b') = Some w /\ w <> 0).
Proof.
  intros W. unfold retop. pose proof (bw_top b W). pose proof (bw_len b W) as Hl. unfold zlen in Hl.
  destruct (Z.leb_spec (bm_len b) (bm_top b)); [lia|].
  destruct (retop_from_spec (bm_d b) (Z.to_nat (bm_top b))) as (t & -> & Hle & Hz & Hnz); [lia|].
  eexists. split; [done|]. split; [|split; [done|split; [done|]]].
  - split; simpl; [apply W | lia | apply W | | apply W].
    intros i w Hi Hit. destruct (Z.le_gt_cases (Z.of_nat i) (bm_top b)); [apply (Hz i w Hi); lia|].
    by apply (bw_zero b W i w Hi).
  - simpl. destruct Hnz as [->|(w & Hw & Hw0)]; [by left|]. right. exists w. split; [|done].
    unfold word_at. simpl. destruct (Z.leb_spec 0 (Z.of_nat t)); [|lia]. by rewrite Nat2Z.id.
Qed.

Lemma bitmap_clear_bit_spec n b :
  bitmap_wf b -> 0 <= n -> exists b', bitmap_clear_bit n b = (Ok tt, b') /\ bitmap_wf b' /\
    bm_val b' = Z.clearbit (bm_val b) n.
Proof.
  intros W Hn. unfold bitmap_clear_bit, bind at 1, get at 1, BITMAP_BITS.
  destruct (div32_bound n Hn) as (Hd & Hn' & Hm). pose proof (bw_top b W) as Ht.
  assert (Z.testbit (bm_val b) n = false -> Z.clearbit (bm_val b) n = bm_val b) as Hnop.
  { intros Hb. apply Z.bits_inj'. intros m Hm'. rewrite Z.clearbit_eqb by lia.
    destruct (Z.eqb_spec n m) as [->|]; [by rewrite Hb | by rewrite andb_true_r]. }
  destruct (Z.leb_spec (bm_len b) (bm_top b)); [lia|]. cbn [orb].
  destruct (Z.ltb_spec BITMAP_MAX n).
  { exists b. split_and!; [done..|]. symmetry. apply Hnop. by apply (bw_max b W). }
  destruct (Z.ltb_spec (bm_top b) (n / 32)).
  { exists b. split_and!; [done..|]. symmetry. apply Hnop. unfold bm_val.
    rewrite lval_testbit by (done || apply W). destruct (bm_d b !! Z.to_nat (n / 32)) as [w|] eqn:E; [|done].
    rewrite (bw_zero b W _ w E) by lia. apply Z.bits_0. }
  destruct (word_at_some b (n / 32) W ltac:(lia)) as (w & Hw & Hl & Hwd).
  rewrite (bind_ok _ _ _ _ _ (get_word_ok _ _ _ Hw)), land_wmask.
  rewrite (bind_ok _ _ _ _ _ (put_word_ok _ _ _ _ Hw)).
  destruct (lval_clear (bm_d b) (Z.to_nat (n / 32)) w (n mod 32)) as [Hw' Hv]; [apply W | done | lia|].
  rewrite Z2Nat.id, Hn' in Hv by lia.
  set (b1 := set_d _ b). assert (bitmap_wf b1) as W1.
  { apply (wf_update b (bm_top b) (n / 32) w); try done; [lia..|]. intros m Hm'. rewrite Hv, Z.clearbit_eqb by lia.
    by rewrite (bw_max b W m Hm'). }
  destruct (retop_spec b1 W1) as (b2 & E2 & W2 & D2 & _). exists b2. split_and!; [done..|].
  unfold bm_val. by rewrite D2.
Qed.

(** ** The number of bits *)

Lemma find_msb_spec fuel w bits :
  0 < w < 2 ^ 32 -> 31 - Z.log2 w <= Z.of_nat fuel -> find_msb fuel w bits = Some (bits - (31 - Z.log2 w)).
Proof.
  revert w bits. induction fuel as [|fuel IH]; intros w bits Hw Hf; cbn [find_msb];
    change (u32 (Z.shiftl 1 (BITMAP_BITS - 1))) with (2 ^ 31);
    pose proof (Z.log2_nonneg w) as Hl0; assert (Z.log2 w < 32) as Hl by (apply Z.log2_lt_pow2; lia);
    assert (Z.land w (2 ^ 31) = if Z.testbit w 31 then 2 ^ 31 else 0) as ->
      by (apply Z.bits_inj'; intros n Hn; rewrite Z.land_spec, Z.pow2_bits_eqb by lia;
          destruct (Z.eqb_spec 31 n) as [<-|Hne]; destruct (Z.testbit w 31);
          rewrite ?Z.bits_0, ?andb_false_r, ?andb_true_r, ?Z.pow2_bits_eqb by lia; try done;
          by rewrite (proj2 (Z.eqb_neq 31 n) Hne)).
  - assert (Z.log2 w = 31) as E by lia. pose proof (Z.bit_log2 w ltac:(lia)) as Hb.
    rewrite E in *. rewrite Hb. simpl. f_equal. lia.
  - destruct (Z.testbit w 31) eqn:E.
    + assert (31 <= Z.log2 w) as Hge.
      { destruct (Z.lt_ge_cases (Z.log2 w) 31) as [Hlt|]; [|lia].
        rewrite Z.bits_above_log2 in E by lia. done. }
      simpl. f_equal. lia.
    + simpl Z.eqb. cbv iota. assert (Z.log2 w < 31) as Hlt.
      { destruct (Z.eq_dec (Z.log2 w) 31) as [E31|]; [|lia]. rewrite <- E31, Z.bit_log2 in E by lia. done. }
      assert (w < 2 ^ 31) by (apply Z.log2_lt_pow2; lia).
      rewrite u32_small by (rewrite Z.shiftl_mul_pow2 by lia; lia).
      rewrite IH; rewrite ?Z.log2_shiftl, ?Z.shiftl_mul_pow2 by lia; try lia. f_equal. lia.
Qed.

(** The highest word gives the magnitude. *)
Lemma bm_val_top b w :
  bitmap_wf b -> word_at b (bm_top b) = Some w ->
  exists low, 0 <= low < 2 ^ (32 * bm_top b) /\ bm_val b = w * 2 ^ (32 * bm_top b) + low.
Proof.
  intros W Hw. pose proof (bw_top b W) as Ht. unfold word_at in Hw.
  destruct (Z.leb_spec 0 (bm_top b)); [|lia]. set (t := Z.to_nat (bm_top b)) in *.
  assert (lval (drop (S t) (bm_d b)) = 0) as Hz.
  { assert (forall i x, drop (S t) (bm_d b) !! i = Some x -> x = 0) as Ha.
    { intros i x. rewrite lookup_drop. intros Hi. apply (bw_zero b W _ x Hi). lia. }
    induction (drop (S t) (bm_d b)) as [|x l IH]; [done|]. cbn [lval].
    rewrite (Ha 0%nat x eq_refl), IH; [lia|]. intros i y Hi. by apply (Ha (S i)). }
  exists (lval (take t (bm_d b))). unfold bm_val.
  assert (zlen (take t (bm_d b)) = bm_top b) as Hlt.
  { pose proof (bw_len b W). unfold zlen in *. rewrite length_take. lia. }
  pose proof (lval_bound (take t (bm_d b)) (Forall_take _ _ _ (bw_words b W))) as Hb. rewrite Hlt in Hb.
  split; [done|]. rewrite <- (take_drop_middle _ _ _ Hw) at 1. rewrite lval_app, Hlt. cbn [lval]. rewrite Hz. lia.
Qed.

Definition bits_of (v : Z) : Z := if v =? 0 then 0 else Z.log2 v + 1.

Lemma log2_top w low t :
  0 <= t -> 0 < w -> 0 <= low < 2 ^ t -> Z.log2 (w * 2 ^ t + low) = t + Z.log2 w.
Proof.
  intros Ht Hw Hl. apply Z.log2_unique; [pose proof (Z.log2_nonneg w); lia|].
  pose proof (Z.log2_spec w Hw) as [L1 L2]. pose proof (Z.log2_nonneg w).
  replace (Z.succ (t + Z.log2 w)) with (t + Z.succ (Z.log2 w)) by lia.
  rewrite !Z.pow_add_r by lia. nia.
Qed.

Lemma bitmap_nbits_spec b :
  bitmap_wf b -> exists b', bitmap_nbits b = (Ok (bits_of (bm_val b)), b') /\ bitmap_wf b' /\
    bm_val b' = bm_val b /\ bits_of (bm_val b) <= 32 * (bm_top b' + 1).
Proof.
  intros W. unfold bitmap_nbits. destruct (retop_spec b W) as (b1 & E1 & W1 & D1 & L1 & Hnz).
  rewrite (bind_ok _ _ _ _ _ E1). unfold bind at 1, get at 1. pose proof (bw_top b1 W1) as Ht.
  assert (bm_val b1 = bm_val b) as Hv by (unfold bm_val; by rewrite D1).
  destruct (Z.leb_spec (bm_len b1) (bm_top b1)); [lia|].
  destruct (Z.eqb_spec (bm_len b1) 0); [lia|].
  destruct (word_at_some b1 (bm_top b1) W1 Ht) as (w & Hw & _ & Hwd). unfold is_word in Hwd.
  destruct (bm_val_top b1 w W1 Hw) as (low & Hlow & Hval).
  assert (w = 0 -> bm_top b1 = 0 /\ bm_val b1 = 0) as Hw0.
  { intros ->. destruct Hnz as [E0|(x & Hx & ?)]; [|congruence].
    rewrite Hval. rewrite E0 in *. change (2 ^ (32 * 0)) with 1 in Hlow. split; [done | lia]. }
  assert (w <> 0 -> bits_of (bm_val b1) = 32 * bm_top b1 + Z.log2 w + 1) as Hw1.
  { intros Hne. unfold bits_of. assert (0 < bm_val b1) by (rewrite Hval; pose proof (Z.pow_pos_nonneg 2 (32 * bm_top b1)); nia).
    rewrite (proj2 (Z.eqb_neq _ 0)) by lia. rewrite Hval, log2_top by lia. lia. }
  assert (Z.log2 w < 32) as Hl2 by (destruct (Z.eq_dec w 0) as [->|]; [done | apply Z.log2_lt_pow2; lia]).
  pose proof (Z.log2_nonneg w) as Hl0. rewrite <- Hv. exists b1.
  assert (bits_of (bm_val b1) <= 32 * (bm_top b1 + 1)) as Hle.
  { destruct (Z.eq_dec w 0) as [->|Hne]; [destruct (Hw0 eq_refl) as [-> ->]; done | rewrite Hw1 by done; lia]. }
  split; [|done]. destruct (Z.eqb_spec (bm_top b1) 0) as [E0|E0].
  - rewrite E0 in *. unfold bind at 1, bind at 1. rewrite (get_word_ok _ _ _ Hw). unfold ret at 1.
    destruct (Z.eqb_spec w 0) as [->|Hne].
    + destruct (Hw0 eq_refl) as [_ ->]. done.
    + rewrite (bind_ok _ _ _ _ _ (get_word_ok _ _ _ Hw)). unfold defined.
      rewrite find_msb_spec by lia. rewrite Hw1 by done. unfold BITMAP_BITS. do 2 f_equal. lia.
  - assert (w <> 0) as Hne by (intros ->; destruct (Hw0 eq_refl); done).
    unfold bind at 1, ret at 1. rewrite (bind_ok _ _ _ _ _ (get_word_ok _ _ _ Hw)). unfold defined.
    rewrite find_msb_spec by lia. rewrite Hw1 by done. unfold BITMAP_BITS. do 2 f_equal. lia.
Qed.

(** ** From a string *)

Lemma bitmap_zero_spec b :
  bitmap_wf b -> exists b', bitmap_zero b = (Ok tt, b') /\ bitmap_wf b' /\ bm_val b' = 0 /\
    bm_len b' = bm_len b /\ bm_top b' = 0 /\ Forall (fun w => w = 0) (bm_d b').
Proof.
  intros W. unfold bitmap_zero. pose proof (bw_len b W) as Hl. pose proof (bw_top b W).
  destruct (Z.leb_spec (bm_len b) (zlen (bm_d b))); [|lia]. rewrite zdrop_all, app_nil_r by lia.
  eexists. split; [done|].
  assert (lval (replicate (Z.to_nat (bm_len b)) 0) = 0) as Hv by apply lval_replicate.
  split_and!; try done; simpl; [|by apply Forall_replicate]. split; simpl.
  - rewrite zlen_replicate. lia.
  - lia.
  - apply Forall_replicate. unfold is_word. lia.
  - by intros i w [-> _]%lookup_replicate.
  - intros n _. rewrite Hv. apply Z.bits_0.
Qed.

Lemma word_at_lt d len top i : (0 <= i < zlen d) -> exists w, word_at (mk_bitmap d len top) i = Some w /\ d !! Z.to_nat i = Some w.
Proof.
  intros Hi. unfold word_at, zlen in *. simpl. destruct (lookup_lt_is_Some_2 d (Z.to_nat i)) as [w Hw]; [lia|].
  exists w. destruct (Z.leb_spec 0 i); [done | lia].
Qed.

(** The bytes arrive at decreasing positions: [r] bytes to go are written at
    byte [r - 1] and below. *)
Lemma from_string_loop_spec s : forall d len top,
  Forall is_byte s -> Forall is_word d -> (zlen s - 1) / 4 < zlen d -> zlen s <= SIZE_MAX ->
  lval d mod 256 ^ zlen s = 0 ->
  exists d', from_string_loop s ((zlen s - 1) / 4) ((zlen s - 1) mod 4 * 8) (mk_bitmap d len top)
      = (Ok tt, mk_bitmap d' len top) /\
    length d' = length d /\ Forall is_word d' /\ lval d' = lval d + be s /\
    (forall i, (zlen s - 1) / 4 < Z.of_nat i -> d' !! i = d !! i).
Proof.
  induction s as [|c s IH]; intros d len top Hs Hd Ho HM Hm.
  - exists d. simpl. split_and!; done || lia.
  - apply Forall_cons in Hs as [Hc Hs]. unfold is_byte in Hc. rewrite zlen_cons in *.
    set (r := zlen s) in *. assert (0 <= r) by apply zlen_nonneg. replace (r + 1 - 1) with r in * by lia.
    pose proof (Z.div_pos r 4 ltac:(lia) ltac:(lia)) as Hq.
    pose proof (Z.div_mod r 4 ltac:(lia)) as Hdm. pose proof (Z.mod_pos_bound r 4 ltac:(lia)) as Hmb.
    cbn [from_string_loop].
    destruct (word_at_lt d len top (r / 4) ltac:(lia)) as (w & Hw & Hl).
    rewrite (bind_ok _ _ _ _ _ (get_word_ok _ _ _ Hw)), (bind_ok _ _ _ _ _ (put_word_ok _ _ _ _ Hw)).
    assert (0 <= c < 2 ^ (32 - r mod 4 * 8)) as Hcb.
    { split; [lia|]. apply Z.lt_le_trans with (2 ^ 8); [lia|]. apply Z.pow_le_mono_r; lia. }
    destruct (lval_or d (Z.to_nat (r / 4)) w c (r mod 4 * 8) Hd Hl ltac:(lia) Hcb) as [Hw' Hv].
    rewrite Z2Nat.id in Hv by lia.
    replace (32 * (r / 4) + r mod 4 * 8) with (8 * r) in Hv by lia.
    assert (0 <= Z.shiftl c (r mod 4 * 8) < 2 ^ 32) as Hsh.
    { rewrite Z.shiftl_mul_pow2 by lia. replace 32 with ((32 - r mod 4 * 8) + r mod 4 * 8) by lia.
      pose proof (Z.pow_pos_nonneg 2 (r mod 4 * 8) ltac:(lia) ltac:(lia)). rewrite Z.pow_add_r by lia. nia. }
    rewrite u32_small by done. unfold set_d. cbn [bm_d bm_len bm_top].
    set (d1 := <[_ := _]> d) in *.
    assert (256 ^ (r + 1) = 2 ^ (8 * r + 8)) as E256.
    { change 256 with (2 ^ 8). rewrite <- Z.pow_mul_r by lia. f_equal. lia. }
    assert (256 ^ r = 2 ^ (8 * r)) as E256'.
    { change 256 with (2 ^ 8). rewrite <- Z.pow_mul_r by lia. done. }
    assert (lval d1 = lval d + c * 2 ^ (8 * r)) as Hv1.
    { rewrite Hv, Z.shiftl_mul_pow2 by lia. apply lor_low with (k := 8 * r + 8); [lia| |by rewrite <- E256].
      pose proof (Z.pow_pos_nonneg 2 (8 * r) ltac:(lia) ltac:(lia)). rewrite Z.pow_add_r by lia. nia. }
    assert (length d1 = length d) as Hl1 by apply length_insert.
    assert (lval d1 mod 256 ^ r = 0) as Hm1.
    { rewrite Hv1, E256', Z_mod_plus_full. rewrite E256, Z.pow_add_r in Hm by lia.
      pose proof (Z.pow_pos_nonneg 2 (8 * r) ltac:(lia) ltac:(lia)).
      apply Z.mod_divide in Hm as [q Hm]; [|lia]. rewrite Hm.
      replace (q * (2 ^ (8 * r) * 2 ^ 8)) with (q * 2 ^ 8 * 2 ^ (8 * r)) by lia. apply Z_mod_mult. }
    assert (Forall is_word d1) as Hd1 by (apply Forall_insert; done).
    assert ((if r mod 4 * 8 =? 0 then from_string_loop s (u64 (r / 4 - 1)) (BITMAP_BITS - 8)
       else from_string_loop s (r / 4) (r mod 4 * 8 - 8)) (mk_bitmap d1 len top) =
       from_string_loop s ((r - 1) / 4) ((r - 1) mod 4 * 8) (mk_bitmap d1 len top)) as ->.
    { destruct s as [|c' s']; [by destruct (_ =? 0)|].
      assert (1 <= r) by (unfold r; rewrite zlen_cons; pose proof (zlen_nonneg s'); lia).
      destruct (Z.eqb_spec (r mod 4 * 8) 0) as [E0|E0].
      - assert ((r - 1) / 4 = r / 4 - 1) as -> by (symmetry; apply Z.div_unique with 3; lia).
        assert ((r - 1) mod 4 = 3) as -> by (symmetry; apply Z.mod_unique with (r / 4 - 1); lia).
        rewrite u64_small; [done|]. unfold SIZE_MAX in HM. lia.
      - assert ((r - 1) / 4 = r / 4) as -> by (symmetry; apply Z.div_unique with (r mod 4 - 1); lia).
        assert ((r - 1) mod 4 = r mod 4 - 1) as -> by (symmetry; apply Z.mod_unique with (r / 4); lia).
        f_equal. lia. }
    assert ((r - 1) / 4 <= r / 4) as Hle by (apply Z.div_le_mono; lia).
    destruct (IH d1 len top Hs Hd1) as (d2 & E2 & Hl2 & Hd2 & Hv2 & Hi2); [unfold zlen in *; lia | lia | done|].
    fold r in E2. exists d2. split; [done|]. split; [lia|]. split; [done|]. cbn [be]. fold r.
    split; [rewrite Hv2, Hv1, E256'; lia|]. intros i Hi. rewrite Hi2 by (fold r; lia).
    unfold d1. by rewrite list_lookup_insert_ne by lia.
Qed.

Lemma be_256 s : Forall is_byte s -> be s < 2 ^ (8 * zlen s).
Proof.
  intros Hs. pose proof (be_bound s Hs) as Hb. pose proof (zlen_nonneg s).
  replace (2 ^ (8 * zlen s)) with (256 ^ zlen s); [lia|]. change 256 with (2 ^ 8). by rewrite <- Z.pow_mul_r by lia.
Qed.

Lemma bitmap_from_string_spec np s b :
  bitmap_wf b -> Forall is_byte s ->
  (bitmap_from_string np s b = (Err (-1), b) /\ (BITMAP_MAX / 8 < zlen s \/ (np = 0 /\ bm_len b <= zlen s * 8 / 32))) \/
  (exists b', bitmap_from_string np s b = (Ok tt, b') /\ bitmap_wf b' /\ zlen s <= BITMAP_MAX / 8 /\ bm_val b' = be s).
Proof.
  intros W Hs. unfold bitmap_from_string. pose proof (zlen_nonneg s) as Hz. rewrite BITMAP_MAX_val.
  change (16777216 / 8) with 2097152.
  destruct (Z.ltb_spec 2097152 (zlen s)) as [Hbig|Hsmall]; [left; split; [done | by left]|].
  pose proof (reserve_spec np (zlen s * 8) b W ltac:(lia)) as R. remember (reserve np (zlen s * 8) b) as rb eqn:Er.
  destruct R as [Href|b1 Hmax W1 V1 T1 L1].
  { left. rewrite BITMAP_MAX_val in Href. split; [by rewrite (bind_err _ _ _ _ _ (eq_sym Er)) | right; lia]. }
  right. rewrite (bind_ok _ _ _ _ _ (eq_sym Er)).
  destruct (bitmap_zero_spec b1 W1) as (b2 & E2 & W2 & V2 & L2 & T2 & Z2). rewrite (bind_ok _ _ _ _ _ E2).
  destruct (Z.eqb_spec (zlen s) 0) as [E0|E0].
  { exists b2. split_and!; try done. rewrite V2. by destruct s; [|rewrite zlen_cons in E0; pose proof (zlen_nonneg s); lia]. }
  unfold bind at 1, get at 1. unfold bind at 1, put at 1. unfold BITMAP_BYTES.
  replace ((zlen s + (4 - 1)) / 4 - 1) with ((zlen s - 1) / 4).
  2:{ replace (zlen s + (4 - 1)) with ((zlen s - 1) + 1 * 4) by lia. rewrite Z.div_add by lia. lia. }
  replace ((zlen s + (4 - 1)) mod 4) with ((zlen s - 1) mod 4).
  2:{ replace (zlen s + (4 - 1)) with ((zlen s - 1) + 1 * 4) by lia. by rewrite Z_mod_plus_full. }
  pose proof (bw_len b2 W2) as Hl2. pose proof (Z.div_pos (zlen s - 1) 4 ltac:(lia) ltac:(lia)) as Hq.
  assert ((zlen s - 1) / 4 <= zlen s * 8 / 32) as Hle.
  { replace (zlen s * 8) with (zlen s * 8 + 0) by lia. apply Z.div_le_lower_bound; [lia|].
    pose proof (Z.mul_div_le (zlen s - 1) 4 ltac:(lia)). lia. }
  destruct (from_string_loop_spec s (bm_d b2) (bm_len b2) ((zlen s - 1) / 4) Hs (bw_words _ W2))
    as (d & Ed & Hld & Hwd & Hvd & Hid); [lia | unfold SIZE_MAX; lia | by fold (bm_val b2); rewrite V2 |].
  unfold set_top. rewrite (bind_ok _ _ _ _ _ Ed).
  fold (bm_val b2) in Hvd. rewrite V2 in Hvd. set (b3 := mk_bitmap d _ _).
  assert (bitmap_wf b3) as W3.
  { split; simpl; [unfold zlen in *; lia | lia | done | |].
    - intros i w Hi Hit. rewrite Hid in Hi by done. by eapply Forall_lookup_1 in Z2.
    - intros n Hn. rewrite BITMAP_MAX_val in Hn. rewrite Hvd. apply testbit_above with (k := 8 * zlen s); [lia|].
      pose proof (be_bound s Hs). pose proof (be_256 s Hs). lia. }
  destruct (retop_spec b3 W3) as (b4 & E4 & W4 & D4 & _). exists b4. split_and!; try done.
  unfold bm_val. by rewrite D4.
Qed.

(** ** To a string *)

Lemma mem_write_one s p x :
  0 <= p < zlen s -> mem_write s p [x] = Some (<[Z.to_nat p := x]> s).
Proof.
  intros Hp. rewrite mem_write_some by (change (zlen [x]) with 1; lia).
  rewrite insert_take_drop by (unfold zlen in *; lia). change (zlen [x]) with 1. unfold ztake, zdrop. simpl.
  do 4 f_equal. lia.
Qed.

(** Byte [4 i + j] of the number. *)
Lemma lval_byte d i j w :
  Forall is_word d -> d !! i = Some w -> 0 <= j < 4 ->
  Z.land (Z.shiftr w (j * 8)) 0xff = (lval d / 256 ^ (4 * Z.of_nat i + j)) mod 256.
Proof.
  intros Hd Hi Hj. change 0xff with (Z.ones 8). rewrite Z.land_ones by lia. change (2 ^ 8) with 256.
  replace (256 ^ (4 * Z.of_nat i + j)) with (2 ^ (32 * Z.of_nat i + j * 8)).
  2:{ change 256 with (2 ^ 8). rewrite <- Z.pow_mul_r by lia. f_equal. lia. }
  rewrite <- Z.shiftr_div_pow2 by lia. change 256 with (2 ^ 8). apply Z.bits_inj'. intros n Hn.
  destruct (Z.lt_ge_cases n 8) as [H|H]; [|by rewrite !Z.mod_pow2_bits_high by lia].
  rewrite !Z.mod_pow2_bits_low, !Z.shiftr_spec, lval_testbit by (done || lia).
  replace (n + (32 * Z.of_nat i + j * 8)) with (Z.of_nat i * 32 + (n + j * 8)) by lia.
  rewrite Z.div_add_l, Z.div_small, Z.add_0_r, Nat2Z.id, Hi by lia.
  by rewrite (Z.add_comm (Z.of_nat i * 32)), Z_mod_plus_full, Z.mod_small by lia.
Qed.

(** [k] digits of [v] are at the end of the first [need] places. *)
Definition digits_done (v need : Z) (s0 : list Z) (k : Z) (s : list Z) : Prop :=
  zlen s = zlen s0 /\
  (forall k', 0 <= k' < k -> s !! Z.to_nat (need - 1 - k') = Some ((v / 256 ^ k') mod 256)) /\
  (forall p, need <= Z.of_nat p -> s !! p = s0 !! p).

Lemma digits_step v need s0 k s :
  digits_done v need s0 k s -> 0 <= k < need -> need <= zlen s0 ->
  exists s', mem_write s (need - 1 - k) [(v / 256 ^ k) mod 256] = Some s' /\ digits_done v need s0 (k + 1) s'.
Proof.
  intros (Hl & Hd & Hr) Hk Hn. rewrite mem_write_one by lia. eexists. split; [done|]. split_and!.
  - unfold zlen in *. by rewrite length_insert.
  - intros k' Hk'. destruct (Z.eq_dec k' k) as [->|]; [by rewrite list_lookup_insert_eq by (unfold zlen in *; lia)|].
    rewrite list_lookup_insert_ne by lia. apply Hd. lia.
  - intros p Hp. rewrite list_lookup_insert_ne by lia. auto.
Qed.

Lemma to_string_loop_spec d top need s :
  Forall is_word d -> 0 <= top < zlen d -> 0 <= need <= 4 * (top + 1) -> need <= zlen s ->
  exists s', to_string_loop d (top + 1) need need s = Some s' /\ digits_done (lval d) need s need s'.
Proof.
  intros Hd Ht Hn Hs. unfold to_string_loop.
  set (I := fun (t : Z) (ks : Z * list Z) => ks.1 = Z.min t need /\ digits_done (lval d) need s ks.1 ks.2).
  destruct (for_loop_inv (fun i => I (4 * Z.of_nat i)) 0 (Z.to_nat (top + 1)) (fun i ks =>
       for_loop 0 (Z.to_nat BITMAP_BYTES) (fun j '(k, s) =>
         if need <=? k then Some (k, s)
         else
           match d !! i with
           | None => None
           | Some w =>
               match mem_write s (need - 1 - k) [Z.land (Z.shiftr w (Z.of_nat j * 8)) 0xff] with
               | None => None
               | Some s => Some (k + 1, s)
               end
           end) ks) (0, s)) as ([k s'] & -> & Hk & HD).
  - split; [simpl; lia|]. split_and!; done || (intros; simpl in *; lia).
  - intros i ks Hi HI.
    destruct (for_loop_inv (fun j => I (4 * Z.of_nat i + Z.of_nat j)) 0 (Z.to_nat BITMAP_BYTES) (fun j '(k, s) =>
         if need <=? k then Some (k, s)
         else
           match d !! i with
           | None => None
           | Some w =>
               match mem_write s (need - 1 - k) [Z.land (Z.shiftr w (Z.of_nat j * 8)) 0xff] with
               | None => None
               | Some s => Some (k + 1, s)
               end
           end) ks) as (ks' & -> & HI').
    + by rewrite Z.add_0_r.
    + intros j [k t] Hj [Hk HD]. simpl in Hk, HD. destruct (Z.leb_spec need k).
      * eexists. split; [done|]. split; [simpl; lia | done].
      * destruct (lookup_lt_is_Some_2 d i) as [w Hw]; [unfold zlen in *; lia|]. rewrite Hw.
        change (Z.to_nat BITMAP_BYTES) with 4%nat in Hj.
        rewrite (lval_byte d i (Z.of_nat j) w Hd Hw) by lia.
        replace (4 * Z.of_nat i + Z.of_nat j) with k by lia.
        destruct (digits_step (lval d) need s k t HD ltac:(lia) Hs) as (t' & -> & HD').
        eexists. split; [done|]. split; [simpl; lia | done].
    + eexists. split; [done|]. change (Z.to_nat BITMAP_BYTES) with 4%nat in HI'.
      replace (4 * Z.of_nat (S i)) with (4 * Z.of_nat i + Z.of_nat (0 + 4)) by lia. done.
  - simpl in Hk, HD. exists s'. split; [done|]. replace need with k at 2; [done|]. lia.
Qed.

Lemma be_digits l v :
  (forall p, (p < length l)%nat -> l !! p = Some ((v / 256 ^ (zlen l - 1 - Z.of_nat p)) mod 256)) ->
  be l = v mod 256 ^ zlen l.
Proof.
  induction l as [|x l IH]; intros H; [by rewrite Z.mod_1_r|].
  rewrite zlen_cons in *. pose proof (H 0%nat ltac:(simpl; lia)) as H0. simpl in H0.
  replace (zlen l + 1 - 1 - Z.of_nat 0) with (zlen l) in H0 by lia. injection H0 as ->. cbn [be]. pose proof (zlen_nonneg l).
  rewrite IH.
  - pose proof (Z.pow_nonzero 256 (zlen l) ltac:(lia) ltac:(lia)).
    rewrite Z.pow_add_r by lia. change (256 ^ 1) with 256. rewrite Z.rem_mul_r by lia. ring.
  - intros p Hp. pose proof (H (S p) ltac:(simpl; lia)) as Hq. simpl in Hq. rewrite Hq. do 4 f_equal. lia.
Qed.

Definition bytes_of (v : Z) : Z := (bits_of v + 7) / 8.

Lemma bits_of_bound v : 0 <= v -> v < 2 ^ bits_of v /\ 0 <= bits_of v.
Proof.
  intros Hv. unfold bits_of. destruct (Z.eqb_spec v 0) as [->|]; [done|].
  pose proof (Z.log2_spec v ltac:(lia)). pose proof (Z.log2_nonneg v). rewrite Z.add_1_r. lia.
Qed.

Lemma bytes_of_bound v : 0 <= v -> v < 256 ^ bytes_of v /\ 0 <= bytes_of v.
Proof.
  intros Hv. destruct (bits_of_bound v Hv) as [Hb H0]. unfold bytes_of.
  pose proof (Z.div_pos (bits_of v + 7) 8 ltac:(lia) ltac:(lia)).
  split; [|lia]. change 256 with (2 ^ 8). rewrite <- Z.pow_mul_r by lia.
  apply Z.lt_le_trans with (2 ^ bits_of v); [lia|]. apply Z.pow_le_mono_r; [lia|].
  pose proof (Z.mod_pos_bound (bits_of v + 7) 8 ltac:(lia)). pose proof (Z.div_mod (bits_of v + 7) 8 ltac:(lia)). lia.
Qed.

(** The result is refused for want of room, or is the number in big-endian
    order over the fewest bytes; the rest of the block is untouched. *)
Lemma bitmap_to_string_spec s b :
  bitmap_wf b ->
  (zlen s < bytes_of (bm_val b) /\ exists b', bitmap_to_string s (zlen s) b = (Err (-1), b') /\
     bitmap_wf b' /\ bm_val b' = bm_val b) \/
  (bytes_of (bm_val b) <= zlen s /\ exists s' b', bitmap_to_string s (zlen s) b = (Ok s', b') /\
     bitmap_wf b' /\ bm_val b' = bm_val b /\ zlen s' = zlen s /\
     be (ztake (bytes_of (bm_val b)) s') = bm_val b /\ Forall is_byte (ztake (bytes_of (bm_val b)) s') /\
     zdrop (bytes_of (bm_val b)) s' = zdrop (bytes_of (bm_val b)) s).
Proof.
  intros W. destruct (bitmap_nbits_spec b W) as (b' & E & W' & V' & Hle).
  pose proof (bm_val_nonneg b W) as Hv. destruct (bytes_of_bound _ Hv) as [Hb H0].
  pose proof (bw_top b' W') as Ht.
  assert (forall l, bitmap_to_string s l b =
    (if (l <? bytes_of (bm_val b)) || (bm_len b' <=? bm_top b') then fail (-1)
     else defined (to_string_loop (bm_d b') (bm_top b' + 1) (bytes_of (bm_val b))
       (if bytes_of (bm_val b) <? l then bytes_of (bm_val b) else l) s)) b') as Hrun.
  { intros l. unfold bitmap_to_string, bitmap_nbytes. unfold bind at 1, bind at 1. by rewrite E. }
  rewrite Hrun. destruct (Z.leb_spec (bm_len b') (bm_top b')); [lia|]. rewrite orb_false_r.
  destruct (Z.ltb_spec (zlen s) (bytes_of (bm_val b))) as [Hs|Hs]; [left; eauto 6|]. right. split; [done|].
  replace (if bytes_of (bm_val b) <? zlen s then bytes_of (bm_val b) else zlen s) with (bytes_of (bm_val b))
    by (destruct (Z.ltb_spec (bytes_of (bm_val b)) (zlen s)); lia).
  set (need := bytes_of (bm_val b)) in *.
  destruct (to_string_loop_spec (bm_d b') (bm_top b') need s) as (s' & Es & Hl & Hdig & Hrest).
  - apply W'. - pose proof (bw_len b' W'). lia.
  - assert (need < 4 * (bm_top b' + 1) + 1); [|lia]. apply Z.div_lt_upper_bound; lia.
  - done.
  - exists s', b'. rewrite Es. fold (bm_val b') in Hdig. rewrite V' in Hdig. split_and!; try done.
    + assert (zlen (ztake need s') = need) as Hzl by zl.
      rewrite be_digits with (v := bm_val b); [rewrite Hzl; apply Z.mod_small; lia|].
      intros p Hp. unfold zlen in Hzl. unfold ztake at 1. rewrite lookup_take_lt by lia.
      unfold zlen at 1. rewrite Hzl. rewrite <- (Hdig (need - 1 - Z.of_nat p)) by lia. f_equal. lia.
    + apply Forall_lookup_2. intros i x Hi. unfold ztake in Hi. apply lookup_take_Some in Hi as [Hi Hin].
      pose proof (Hdig (need - 1 - Z.of_nat i) ltac:(lia)) as Hx.
      replace (Z.to_nat (need - 1 - (need - 1 - Z.of_nat i))) with i in Hx by lia.
      rewrite Hi in Hx. injection Hx as ->. apply Z.mod_pos_bound. lia.
    + unfold zdrop. apply list_eq. intros i. rewrite !lookup_drop. apply Hrest. lia.
Qed.

(** ** A client of bitmaps *)

Inductive bmop : Type := SetBit (n : Z) | ClearBit (n : Z) | ZeroAll | FromString (s : list Z).

Definition bmop_ok (o : bmop) : Prop :=
  match o with
  | SetBit n | ClearBit n => 0 <= n < 2 ^ 32
  | ZeroAll => True
  | FromString s => Forall is_byte s
  end.

Definition bm_exec (np : Z) (o : bmop) : ST bitmap unit :=
  match o with
  | SetBit n => bitmap_set_bit np n
  | ClearBit n => bitmap_clear_bit n
  | ZeroAll => bitmap_zero
  | FromString s => bitmap_from_string np s
  end.

(** The operations on the number. *)
Definition bm_model (o : bmop) (v : Z) : Z :=
  match o with
  | SetBit n => Z.setbit v n
  | ClearBit n => Z.clearbit v n
  | ZeroAll => 0
  | FromString s => be s
  end.

Definition bm_too_big (o : bmop) : Prop :=
  match o with
  | SetBit n => BITMAP_MAX < n
  | FromString s => BITMAP_MAX / 8 < zlen s
  | _ => False
  end.

(** Operations with the answers of the allocator; a failed one is reported
    and the next one runs. *)
Fixpoint bm_run (ops : list (Z * bmop)) (b : bitmap) : list (res unit) * bitmap :=
  match ops with
  | [] => ([], b)
  | (np, o) :: ops =>
      let '(r, b) := bm_exec np o b in
      let '(rs, b) := bm_run ops b in (r :: rs, b)
  end.

Fixpoint model_run (ops : list (Z * bmop)) (rs : list (res unit)) (v : Z) : Z :=
  match ops, rs with
  | (_, o) :: ops, Ok _ :: rs => model_run ops rs (bm_model o v)
  | _ :: ops, _ :: rs => model_run ops rs v
  | _, _ => v
  end.

(** An operation succeeds, or is refused for its size or for want of memory
    and changes nothing. *)
Definition bm_outcome (npo : Z * bmop) (r : res unit) : Prop :=
  r = Ok tt \/ (r = Err (-1) /\ (bm_too_big npo.2 \/ npo.1 = 0)).

Lemma bm_exec_spec np o b :
  bitmap_wf b -> bmop_ok o -> exists r b', bm_exec np o b = (r, b') /\ bitmap_wf b' /\ bm_outcome (np, o) r /\
    bm_val b' = (match r with Ok _ => bm_model o (bm_val b) | _ => bm_val b end).
Proof.
  intros W Ho. unfold bm_outcome. destruct o as [n|n| |s]; cbn [bm_exec bmop_ok bm_model bm_too_big fst snd] in *.
  - destruct (bitmap_set_bit_spec np n b W ltac:(lia)) as [[E Hr]|(b' & E & W' & _ & V)]; eexists _, _;
      (split; [exact E|]); (split; [done|]); split; try done; [right; tauto | by left].
  - destruct (bitmap_clear_bit_spec n b W ltac:(lia)) as (b' & E & W' & V). eexists _, _.
    split; [exact E|]. split; [done|]. split; [by left | done].
  - destruct (bitmap_zero_spec b W) as (b' & E & W' & V & _). eexists _, _.
    split; [exact E|]. split; [done|]. split; [by left | done].
  - destruct (bitmap_from_string_spec np s b W Ho) as [[E Hr]|(b' & E & W' & _ & V)]; eexists _, _;
      (split; [exact E|]); (split; [done|]); split; try done; [right; tauto | by left].
Qed.

Lemma bm_run_spec ops : forall b,
  bitmap_wf b -> Forall (fun npo => bmop_ok npo.2) ops ->
  exists rs b', bm_run ops b = (rs, b') /\ bitmap_wf b' /\ Forall2 bm_outcome ops rs /\
    bm_val b' = model_run ops rs (bm_val b).
Proof.
  induction ops as [|[np o] ops IH]; intros b W Ho; [by exists [], b|].
  apply Forall_cons in Ho as [Ho1 Ho]. simpl in Ho1.
  destruct (bm_exec_spec np o b W Ho1) as (r & b1 & E1 & W1 & O1 & V1).
  destruct (IH b1 W1 Ho) as (rs & b2 & E2 & W2 & O2 & V2).
  exists (r :: rs), b2. simpl. rewrite E1, E2. split_and!; [done | done | by constructor |].
  rewrite V2, V1. by destruct r.
Qed.

Lemma bitmap_new_wf ps pd b : bitmap_new ps pd = Some b -> bitmap_wf b /\ bm_val b = 0.
Proof.
  unfold bitmap_new. destruct (ps =? 0); [done|]. destruct (pd =? 0); [done|]. intros [= <-].
  split; [|done]. split; simpl; [done | lia | | |].
  - repeat constructor; done.
  - intros [|i] w; simpl; [by intros [= <-] | by rewrite lookup_nil].
  - intros n _. apply Z.bits_0.
Qed.

(** ** Properties *)



(** [bitmap_to_string] writes the number in big-endian order over the
    fewest bytes, leaves the rest of the block alone, and
    [bitmap_from_string] reads the same number back into any bitmap. *)
Theorem bitmap_string_roundtrip b c s np :
  bitmap_wf b -> bitmap_wf c -> np <> 0 ->
  bytes_of (bm_val b) <= zlen s -> bytes_of (bm_val b) <= BITMAP_MAX / 8 ->
  exists s' b' c', bitmap_to_string s (zlen s) b = (Ok s', b') /\ bm_val b' = bm_val b /\
    zdrop (bytes_of (bm_val b)) s' = zdrop (bytes_of (bm_val b)) s /\
    (bm_val b <> 0 -> 256 ^ (bytes_of (bm_val b) - 1) <= bm_val b) /\
    bitmap_from_string np (ztake (bytes_of (bm_val b)) s') c = (Ok tt, c') /\ bm_val c' = bm_val b.
Proof.
  intros W Wc Hnp Hs Hmax. destruct (bitmap_to_string_spec s b W) as [[? _]|(_ & s' & b' & E & W' & V' & L' & B' & F' & R')];
    [lia|].
  pose proof (bm_val_nonneg b W) as Hv. destruct (bytes_of_bound _ Hv) as [Hb H0].
  assert (zlen (ztake (bytes_of (bm_val b)) s') = bytes_of (bm_val b)) as Hl by zl.
  destruct (bitmap_from_string_spec np _ c Wc F') as [[_ [?|?]]|(c' & Ec & Wc' & _ & Vc)]; [lia | lia |].
  exists s', b', c'. split_and!; try done; [|by rewrite Vc].
  intros Hne. unfold bytes_of, bits_of in *. rewrite (proj2 (Z.eqb_neq _ 0) Hne) in *.
  pose proof (Z.log2_spec (bm_val b) ltac:(lia)). pose proof (Z.log2_nonneg (bm_val b)).
  set (k := Z.log2 (bm_val b)) in *.
  replace ((k + 1 + 7) / 8) with (k / 8 + 1) by (replace (k + 1 + 7) with (k + 1 * 8) by lia; by rewrite Z.div_add by lia).
  pose proof (Z.div_pos k 8 ltac:(lia) ltac:(lia)). pose proof (Z.mul_div_le k 8 ltac:(lia)).
  replace (k / 8 + 1 - 1) with (k / 8) by lia.
  change 256 with (2 ^ 8). rewrite <- Z.pow_mul_r by lia. apply Z.le_trans with (2 ^ k); [|lia].
  apply Z.pow_le_mono_r; lia.
Qed.

Lemma bitmap_string_roundtrip_witness :
  exists s' b' c', bitmap_to_string [0; 0; 0] 3 (mk_bitmap [0x1234] 1 0) = (Ok s', b') /\
    bitmap_from_string 1 (ztake 2 s') (mk_bitmap [0] 1 0) = (Ok tt, c') /\ bm_val c' = 0x1234.
Proof.
  assert (forall w, 0 <= w < 2 ^ 16 -> bitmap_wf (mk_bitmap [w] 1 0)) as W.
  { intros w Hw. split; simpl; [done | lia | | |].
    - apply Forall_singleton. unfold is_word. lia.
    - intros [|i] x; simpl; [lia | by rewrite lookup_nil].
    - intros n Hn. rewrite BITMAP_MAX_val in Hn. apply testbit_above with (k := 16); lia. }
  destruct (bitmap_string_roundtrip (mk_bitmap [0x1234] 1 0) (mk_bitmap [0] 1 0) [0; 0; 0] 1)
    as (s' & b' & c' & E1 & _ & _ & _ & E2 & V); [apply W; lia | apply W; lia | lia | by vm_compute | by vm_compute |].
  exists s', b', c'. split_and!; done.
Defined.
