(* ===== verification/ByteQueue.v ===== *)
(** * What the clients of sshbuf rely on

    The operations of sshbuf that the channel code calls on its buffers, as
    a class of operations and a class of laws.  The channel code is defined
    and verified against the classes; src/sshbuf*.c provides the instance. *)
From S2P Require Import Prelude Sshbuf SshbufGetput SshbufSpec CString SshbufMisc.

(** ** The interface *)

(** [np] and [mp] are the answers of the allocator, 0 for NULL. *)
Class ByteQueue (B : Type) : Type := {
  bq_len : B -> res Z;                                   (* sshbuf_len *)
  bq_avail : B -> res Z;                                 (* sshbuf_avail *)
  bq_check_reserve : B -> Z -> res unit;                 (* sshbuf_check_reserve *)
  bq_peek : Z -> B -> res (list Z);                      (* n bytes at sshbuf_ptr *)
  bq_put (np : Z) : list Z -> ST B unit;                 (* sshbuf_put *)
  bq_put_string (np : Z) : list Z -> ST B unit;          (* sshbuf_put_string *)
  bq_get_string (mp : Z) : ST B (list Z);                (* sshbuf_get_string *)
  bq_get_string_direct : ST B (list Z);                  (* sshbuf_get_string_direct *)
  bq_consume : Z -> ST B unit;                           (* sshbuf_consume *)
  bq_reset (np : Z) : ST B unit;                         (* sshbuf_reset *)
  bq_read (np : Z) : Z -> rdres -> ST (B * Z) Z;         (* sshbuf_read, with errno *)
}.

(** The outcome of an operation that appends [v]: done, or refused for lack
    of room or memory with the contents kept. *)
Definition put_outcome {B} (inv : B -> Prop) (bytes : B -> list Z) (max : B -> Z)
    (np : Z) (v : list Z) (b : B) (r : res unit * B) : Prop :=
  inv (snd r) /\ max (snd r) = max b /\
  match fst r with
  | Ok _ => zlen (bytes b) + zlen v <= max b /\ bytes (snd r) = bytes b ++ v
  | Err _ => (np = 0 \/ max b < zlen (bytes b) + zlen v) /\ bytes (snd r) = bytes b
  | Crash => False
  end.

(** The outcome of taking a string from the front. *)
Definition string_outcome {B} (inv : B -> Prop) (bytes : B -> list Z) (max : B -> Z)
    (b : B) (r : res (list Z) * B) : Prop :=
  inv (snd r) /\ max (snd r) = max b /\
  match fst r with
  | Ok v => bytes b = enc_string v ++ bytes (snd r) /\ zlen v <= SSHBUF_SIZE_MAX - 4
  | Err _ => zlen (bytes (snd r)) <= zlen (bytes b)
  | Crash => False
  end.

(** The smallest limit of a channel's buffers, in src/channels.h. *)
Definition CHAN_INPUT_MAX : Z := 16 * 1024 * 1024.

Class ByteQueueLaws (B : Type) `{ByteQueue B} : Type := {
  bq_inv : B -> Prop;
  bq_bytes : B -> list Z;
  bq_max : B -> Z;
  bq_bounded b : bq_inv b -> zlen (bq_bytes b) <= bq_max b <= SSHBUF_SIZE_MAX;
  bq_room b : bq_inv b -> CHAN_INPUT_MAX <= bq_max b;
  bq_is_bytes b : bq_inv b -> Forall is_byte (bq_bytes b);
  bq_len_ok b : bq_inv b -> bq_len b = Ok (zlen (bq_bytes b));
  bq_avail_ok b : bq_inv b -> bq_avail b = Ok (bq_max b - zlen (bq_bytes b));
  bq_check_reserve_ok b n : bq_inv b -> 0 <= n <= SIZE_MAX ->
    bq_check_reserve b n =
      if bq_max b <? zlen (bq_bytes b) + n then Err SSH_ERR_NO_BUFFER_SPACE else Ok tt;
  bq_peek_ok b n : bq_inv b -> 0 <= n <= zlen (bq_bytes b) -> bq_peek n b = Ok (ztake n (bq_bytes b));
  bq_put_ok np v b : bq_inv b -> Forall is_byte v -> zlen v <= SIZE_MAX ->
    put_outcome bq_inv bq_bytes bq_max np v b (bq_put np v b);
  bq_put_string_ok np v b : bq_inv b -> Forall is_byte v -> zlen v <= SSHBUF_SIZE_MAX - 4 ->
    put_outcome bq_inv bq_bytes bq_max np (enc_string v) b (bq_put_string np v b);
  bq_get_string_ok mp b : bq_inv b -> string_outcome bq_inv bq_bytes bq_max b (bq_get_string mp b);
  bq_get_string_direct_ok b : bq_inv b -> string_outcome bq_inv bq_bytes bq_max b (bq_get_string_direct b);
  bq_consume_ok n b : bq_inv b -> 0 <= n <= zlen (bq_bytes b) ->
    exists b', bq_consume n b = (Ok tt, b') /\ bq_inv b' /\ bq_max b' = bq_max b /\
      bq_bytes b' = zdrop n (bq_bytes b);
  bq_reset_ok np b : bq_inv b ->
    exists b', bq_reset np b = (Ok tt, b') /\ bq_inv b' /\ bq_max b' = bq_max b /\ bq_bytes b' = [];
  bq_read_ok np maxlen rd b e : bq_inv b -> 0 <= maxlen <= SIZE_MAX ->
    (forall v, rd = RdData v -> Forall is_byte v /\ zlen v <= maxlen) ->
    match bq_read np maxlen rd (b, e) with
    | (Ok n, (b', _)) => exists v, rd = RdData v /\ n = zlen v /\ v <> [] /\ bq_inv b' /\
        bq_max b' = bq_max b /\ bq_bytes b' = bq_bytes b ++ v /\ zlen (bq_bytes b) + zlen v <= bq_max b
    | (Err _, (b', _)) => bq_inv b' /\ bq_max b' = bq_max b /\ bq_bytes b' = bq_bytes b
    | (Crash, _) => False
    end;
}.

(** ** The instance *)

#[export] Instance sshbuf_queue : ByteQueue sshbuf := {
  bq_len := sshbuf_len;
  bq_avail := sshbuf_avail;
  bq_check_reserve := sshbuf_check_reserve;
  bq_peek n b := let? p := sshbuf_ptr b in rdefined (mem_read (sb_mem b) p n);
  bq_put := sshbuf_put;
  bq_put_string := sshbuf_put_string;
  bq_get_string mp := let! x := sshbuf_get_string mp in ret (ztake (snd x) (fst x));
  bq_get_string_direct := let! x := sshbuf_get_string_direct in mem_peek (fst x) (snd x);
  bq_consume := sshbuf_consume;
  bq_reset := sshbuf_reset;
  bq_read := sshbuf_read;
}.

(** A buffer of its own, with a limit that channels.c sets. *)
Definition chan_buf (b : sshbuf) : Prop :=
  sshbuf_wf b /\ writable b = true /\ CHAN_INPUT_MAX <= sb_max_size b.

Lemma chan_buf_frame b b' : chan_buf b -> sshbuf_wf b' -> same_frame b b' ->
  chan_buf b' /\ sb_max_size b' = sb_max_size b.
Proof.
  intros (_ & Hw & Hm) W F. pose proof (same_frame_writable _ _ F). destruct F as (_ & E & _).
  split; [|done]. split_and!; [done | congruence | congruence].
Qed.

Lemma put_outcome_intro np v b r :
  chan_buf b -> space_post np (zlen v) b (fun _ => appended v b) r ->
  put_outcome chan_buf contents sb_max_size np v b r.
Proof.
  intros Hb. destruct 1 as [?|? ?|b' ? ? ? K|[] b' ? ? (W & F & E)]; unfold put_outcome; simpl.
  - by destruct Hb as (_ & ? & _); congruence.
  - split_and!; auto.
  - destruct K as (W & F & E). destruct (chan_buf_frame b b' Hb W F). split_and!; auto.
  - destruct (chan_buf_frame b b' Hb W F). split_and!; auto.
Qed.

Lemma string_front b n :
  sshbuf_wf b -> string_len (contents b) = Ok n ->
  let v := ztake n (zdrop 4 (contents b)) in
  contents b = enc_string v ++ zdrop (n + 4) (contents b) /\ zlen v = n /\ n <= SSHBUF_SIZE_MAX - 4.
Proof.
  intros H Hs v. pose proof (string_len_split _ _ Hs (contents_bytes b H)) as E.
  pose proof (string_len_ok _ _ Hs (contents_bytes b H)) as [Hn Hn'].
  split_and!; [exact E | unfold v; zl | lia].
Qed.

Lemma string_outcome_direct b :
  chan_buf b -> string_outcome chan_buf contents sb_max_size b (bq_get_string_direct b).
Proof.
  intros Hb. pose proof Hb as (H & _). simpl. pose proof (get_string_direct_spec b H) as D.
  unfold bind, string_outcome. destruct (string_len (contents b)) as [n|e|] eqn:Hs; [| |done].
  - destruct D as (b' & -> & W & F & E & M). simpl. unfold mem_peek, bind, get, defined.
    rewrite M, string_body by done. simpl. destruct (chan_buf_frame b b' Hb W F).
    destruct (string_front b n H Hs) as (Ef & Ln & ?). split_and!; [done.. | by rewrite E | lia].
  - rewrite D. simpl. split_and!; [done..|lia].
Qed.

Lemma string_outcome_get mp b :
  chan_buf b -> string_outcome chan_buf contents sb_max_size b (bq_get_string mp b).
Proof.
  intros Hb. pose proof Hb as (H & _). simpl. pose proof (sshbuf_get_string_spec mp b H) as D.
  unfold bind, string_outcome. destruct (string_len (contents b)) as [n|e|] eqn:Hs; [| |done].
  - destruct D as (b' & W & F & E & ->). destruct (chan_buf_frame b b' Hb W F).
    destruct (string_front b n H Hs) as (Ef & Ln & ?). destruct (mp =? 0); simpl.
    + split_and!; [done..|]. rewrite E, zlen_drop. pose proof (zlen_nonneg (contents b)). lia.
    + rewrite ztake_app_le, (ztake_all n (ztake _ _)) by lia. split_and!; [done.. | by rewrite E | lia].
  - rewrite D. simpl. split_and!; [done..|lia].
Qed.

Lemma chan_buf_read np maxlen rd b e :
  chan_buf b -> 0 <= maxlen <= SIZE_MAX ->
  (forall v, rd = RdData v -> Forall is_byte v /\ zlen v <= maxlen) ->
  match sshbuf_read np maxlen rd (b, e) with
  | (Ok n, (b', _)) => exists v, rd = RdData v /\ n = zlen v /\ v <> [] /\ chan_buf b' /\
      sb_max_size b' = sb_max_size b /\ contents b' = contents b ++ v /\
      zlen (contents b) + zlen v <= sb_max_size b
  | (Err _, (b', _)) => chan_buf b' /\ sb_max_size b' = sb_max_size b /\ contents b' = contents b
  | (Crash, _) => False
  end.
Proof.
  intros Hb Hm Hrd. pose proof Hb as (H & _). pose proof (sshbuf_read_spec np maxlen rd b e H Hm Hrd) as R.
  destruct (sshbuf_read np maxlen rd (b, e)) as [[n|r|] [b' e']]; [| |done].
  - destruct R as (v & ? & ? & ? & (W & F & E) & _). destruct (chan_buf_frame b b' Hb W F) as [C M].
    exists v. split_and!; try done. rewrite <- M, <- zlen_app, <- E, contents_len by done. wf_facts W. lia.
  - destruct R as ((W & F & E) & _). destruct (chan_buf_frame b b' Hb W F). done.
Qed.

#[export] Instance sshbuf_queue_laws : ByteQueueLaws sshbuf.
Proof.
  refine {| bq_inv := chan_buf; bq_bytes := contents; bq_max := sb_max_size |}.
  - intros b (H & _). rewrite contents_len by done. wf_facts H. lia.
  - by intros b (_ & _ & Hm).
  - intros b (H & _). by apply contents_bytes.
  - intros b (H & _). by apply sshbuf_len_wf.
  - intros b (H & Hw & _). simpl. unfold sshbuf_avail. rewrite wf_sane by done. simpl.
    unfold writable in Hw. apply negb_true_iff in Hw. rewrite Hw, contents_len by done.
    wf_facts H. sb_consts. rewrite (u64_small (sb_size b - sb_off b)), u64_small by lia. done.
  - intros b n (H & Hw & _) Hn. simpl. rewrite sshbuf_check_reserve_wf by (done || (sb_consts; lia)).
    by rewrite Hw.
  - intros b n (H & _) Hn. simpl. rewrite sshbuf_ptr_wf by done. simpl. by rewrite consumed_bytes.
  - intros np v b Hb Hv Hl. apply put_outcome_intro; [done|]. apply sshbuf_put_spec; [apply Hb | done | done].
  - intros np v b Hb Hv Hl. apply put_outcome_intro; [done|]. rewrite enc_string_len.
    apply sshbuf_put_string_spec; [apply Hb | done | done].
  - exact string_outcome_get.
  - exact string_outcome_direct.
  - intros n b Hb Hn. pose proof Hb as (H & _). simpl.
    destruct (sshbuf_consume_spec n b H ltac:(lia)) as [[? _]|(_ & b' & R & W & F & E & _)]; [lia|].
    exists b'. destruct (chan_buf_frame b b' Hb W F). done.
  - intros np b Hb. pose proof Hb as (H & _ & Hm). simpl.
    destruct (sshbuf_reset_spec np b H) as (b' & R & W & F & E); [right; right; right; unfold CHAN_INPUT_MAX in Hm; sb_consts; lia|].
    exists b'. destruct (chan_buf_frame b b' Hb W F). done.
  - exact chan_buf_read.
Defined.
