(* ===== verification/Nchan.v ===== *)
(** * Channels: the state machine of src/nchan.c

    A channel of src/channels.h, the descriptors it holds
    ([channel_close_fd], [channel_close_fds] of src/channels.c) and the
    transitions of its two halves.  The buffers are any implementation of the
    interface of ByteQueue.v.  The packet layer and the system calls are what
    the code does to them: the messages sent and the calls made, in order. *)
From Stdlib Require Import Ascii String.
From S2P Require Import Prelude CString SshbufMisc ByteQueue.

(** ** Constants: src/channels.h, src/compat.h, src/ssh2.h *)

Definition SSH_CHANNEL_OPENING : Z := 3.
Definition SSH_CHANNEL_OPEN : Z := 4.
Definition SSH_CHANNEL_X11_OPEN : Z := 7.
Definition SSH_CHANNEL_LARVAL : Z := 10.
Definition SSH_CHANNEL_CONNECTING : Z := 12.
Definition SSH_CHANNEL_DYNAMIC : Z := 13.
Definition SSH_CHANNEL_ZOMBIE : Z := 14.
Definition SSH_CHANNEL_ABANDONED : Z := 17.
Definition SSH_CHANNEL_MUX_PROXY : Z := 20.
Definition SSH_CHANNEL_RDYNAMIC_OPEN : Z := 21.
Definition SSH_CHANNEL_RDYNAMIC_FINISH : Z := 22.

Definition CHANNEL_RESTORE_RFD : Z := 0x01.
Definition CHANNEL_RESTORE_WFD : Z := 0x02.
Definition CHANNEL_RESTORE_EFD : Z := 0x04.

Definition CHAN_EXTENDED_IGNORE : Z := 0.
Definition CHAN_EXTENDED_READ : Z := 1.
Definition CHAN_EXTENDED_WRITE : Z := 2.

Definition CHAN_INPUT_OPEN : Z := 0.
Definition CHAN_INPUT_WAIT_DRAIN : Z := 1.
Definition CHAN_INPUT_CLOSED : Z := 3.
Definition CHAN_OUTPUT_OPEN : Z := 0.
Definition CHAN_OUTPUT_WAIT_DRAIN : Z := 1.
Definition CHAN_OUTPUT_CLOSED : Z := 3.

Definition CHAN_CLOSE_SENT : Z := 0x01.
Definition CHAN_CLOSE_RCVD : Z := 0x02.
Definition CHAN_EOF_SENT : Z := 0x04.
Definition CHAN_EOF_RCVD : Z := 0x08.
Definition CHAN_LOCAL : Z := 0x10.

Definition SSH_CHAN_IO_RFD : Z := 0x01.
Definition SSH_CHAN_IO_WFD : Z := 0x02.
Definition SSH_CHAN_IO_EFD_R : Z := 0x04.
Definition SSH_CHAN_IO_EFD_W : Z := 0x08.
Definition SSH_CHAN_IO_EFD : Z := Z.lor SSH_CHAN_IO_EFD_R SSH_CHAN_IO_EFD_W.
Definition SSH_CHAN_IO_SOCK_R : Z := 0x10.
Definition SSH_CHAN_IO_SOCK_W : Z := 0x20.
Definition SSH_CHAN_IO_SOCK : Z := Z.lor SSH_CHAN_IO_SOCK_R SSH_CHAN_IO_SOCK_W.

Definition SSH_BUG_EXTEOF : Z := 0x00200000.
Definition SSH_NEW_OPENSSH : Z := 0x04000000.
Definition SSH2_EXTENDED_DATA_STDERR : Z := 1.

(** [flags & mask] as a condition. *)
Definition has (flags mask : Z) : bool := negb (Z.land flags mask =? 0).

(** Why the process ends: [fatal] and [ssh_packet_disconnect]. *)
Definition FATAL : Z := 1.
Definition DISCONNECT : Z := 2.

(** ** Effects *)

(** A message handed to the packet layer. *)
Inductive msg : Type :=
| MSG_CHANNEL_DATA (id : Z) (data : list Z)
| MSG_CHANNEL_EXTENDED_DATA (id tcode : Z) (data : list Z)
| MSG_CHANNEL_EOF (id : Z)
| MSG_CHANNEL_CLOSE (id : Z)
| MSG_CHANNEL_WINDOW_ADJUST (id adjust : Z)
| MSG_CHANNEL_REQUEST (id : Z) (name : list Z) (want_reply : Z)
| MSG_IGNORE (nbytes : Z).

(** A system call made on a descriptor. *)
Inductive syscall : Type :=
| Sys_close (fd : Z)
| Sys_shutdown_wr (fd : Z)
| Sys_shutdown_rd (fd : Z)
| Sys_setfl (fd flags : Z).

(** What the surroundings answer during a call: the compatibility flags of
    the peer, the allocator, whether the packet layer accepts messages, the
    clock. *)
Record env : Type := mk_env {
  e_compat : Z;
  e_np : Z;
  e_pkt_ok : bool;
  e_now : Z;
}.

Section Nchan.
Context {B : Type} `{ByteQueue B}.

(** [struct Channel], the fields that the modelled code uses. *)
Record Channel : Type := mk_channel {
  c_type : Z;   (* channel type/state *)
  c_self : Z;   (* my own channel identifier *)
  c_remote_id : Z;   (* identifier for the remote peer *)
  c_have_remote_id : bool;   (* remote_id is valid *)
  c_istate : Z;   (* state of the receive half *)
  c_ostate : Z;   (* state of the transmit half *)
  c_flags : Z;   (* close sent/rcvd, eof sent/rcvd *)
  c_rfd : Z;   (* read fd *)
  c_wfd : Z;   (* write fd *)
  c_efd : Z;   (* extended fd *)
  c_sock : Z;   (* socket *)
  c_io_want : Z;   (* bitmask of SSH_CHAN_IO_* *)
  c_io_ready : Z;   (* bitmask of SSH_CHAN_IO_* *)
  c_pfds : list Z;   (* pollfd entries for rfd/wfd/efd/sock *)
  c_isatty : bool;   (* rfd is a tty *)
  c_force_drain : bool;   (* force close on iEOF *)
  c_restore_block : Z;   (* fd mask to restore blocking status *)
  c_restore_flags : list Z;   (* flags to restore *)
  c_input : B;   (* data to be sent over the connection *)
  c_output : B;   (* data received, for the socket *)
  c_extended : B;
  c_remote_window : Z;
  c_remote_maxpacket : Z;
  c_local_window : Z;
  c_local_window_exceeded : Z;
  c_local_window_max : Z;
  c_local_consumed : Z;
  c_local_maxpacket : Z;
  c_extended_usage : Z;
  c_ctype : list Z;
  c_detach_close : bool;
  c_datagram : bool;   (* keep boundaries *)
  c_lastused : Z;   (* last traffic seen *)
  c_inactive_deadline : Z;
}.

Definition set_type (v : Z) (c : Channel) : Channel :=
  mk_channel v (c_self c) (c_remote_id c) (c_have_remote_id c) (c_istate c) (c_ostate c)
    (c_flags c) (c_rfd c) (c_wfd c) (c_efd c) (c_sock c) (c_io_want c) (c_io_ready c)
    (c_pfds c) (c_isatty c) (c_force_drain c) (c_restore_block c) (c_restore_flags c)
    (c_input c) (c_output c) (c_extended c) (c_remote_window c) (c_remote_maxpacket c)
    (c_local_window c) (c_local_window_exceeded c) (c_local_window_max c)
    (c_local_consumed c) (c_local_maxpacket c) (c_extended_usage c) (c_ctype c)
    (c_detach_close c) (c_datagram c) (c_lastused c) (c_inactive_deadline c).
Definition set_istate (v : Z) (c : Channel) : Channel :=
  mk_channel (c_type c) (c_self c) (c_remote_id c) (c_have_remote_id c) v (c_ostate c)
    (c_flags c) (c_rfd c) (c_wfd c) (c_efd c) (c_sock c) (c_io_want c) (c_io_ready c)
    (c_pfds c) (c_isatty c) (c_force_drain c) (c_restore_block c) (c_restore_flags c)
    (c_input c) (c_output c) (c_extended c) (c_remote_window c) (c_remote_maxpacket c)
    (c_local_window c) (c_local_window_exceeded c) (c_local_window_max c)
    (c_local_consumed c) (c_local_maxpacket c) (c_extended_usage c) (c_ctype c)
    (c_detach_close c) (c_datagram c) (c_lastused c) (c_inactive_deadline c).
Definition set_ostate (v : Z) (c : Channel) : Channel :=
  mk_channel (c_type c) (c_self c) (c_remote_id c) (c_have_remote_id c) (c_istate c) v
    (c_flags c) (c_rfd c) (c_wfd c) (c_efd c) (c_sock c) (c_io_want c) (c_io_ready c)
    (c_pfds c) (c_isatty c) (c_force_drain c) (c_restore_block c) (c_restore_flags c)
    (c_input c) (c_output c) (c_extended c) (c_remote_window c) (c_remote_maxpacket c)
    (c_local_window c) (c_local_window_exceeded c) (c_local_window_max c)
    (c_local_consumed c) (c_local_maxpacket c) (c_extended_usage c) (c_ctype c)
    (c_detach_close c) (c_datagram c) (c_lastused c) (c_inactive_deadline c).
Definition set_flags (v : Z) (c : Channel) : Channel :=
  mk_channel (c_type c) (c_self c) (c_remote_id c) (c_have_remote_id c) (c_istate c)
    (c_ostate c) v (c_rfd c) (c_wfd c) (c_efd c) (c_sock c) (c_io_want c) (c_io_ready c)
    (c_pfds c) (c_isatty c) (c_force_drain c) (c_restore_block c) (c_restore_flags c)
    (c_input c) (c_output c) (c_extended c) (c_remote_window c) (c_remote_maxpacket c)
    (c_local_window c) (c_local_window_exceeded c) (c_local_window_max c)
    (c_local_consumed c) (c_local_maxpacket c) (c_extended_usage c) (c_ctype c)
    (c_detach_close c) (c_datagram c) (c_lastused c) (c_inactive_deadline c).
Definition set_rfd (v : Z) (c : Channel) : Channel :=
  mk_channel (c_type c) (c_self c) (c_remote_id c) (c_have_remote_id c) (c_istate c)
    (c_ostate c) (c_flags c) v (c_wfd c) (c_efd c) (c_sock c) (c_io_want c) (c_io_ready c)
    (c_pfds c) (c_isatty c) (c_force_drain c) (c_restore_block c) (c_restore_flags c)
    (c_input c) (c_output c) (c_extended c) (c_remote_window c) (c_remote_maxpacket c)
    (c_local_window c) (c_local_window_exceeded c) (c_local_window_max c)
    (c_local_consumed c) (c_local_maxpacket c) (c_extended_usage c) (c_ctype c)
    (c_detach_close c) (c_datagram c) (c_lastused c) (c_inactive_deadline c).
Definition set_wfd (v : Z) (c : Channel) : Channel :=
  mk_channel (c_type c) (c_self c) (c_remote_id c) (c_have_remote_id c) (c_istate c)
    (c_ostate c) (c_flags c) (c_rfd c) v (c_efd c) (c_sock c) (c_io_want c) (c_io_ready c)
    (c_pfds c) (c_isatty c) (c_force_drain c) (c_restore_block c) (c_restore_flags c)
    (c_input c) (c_output c) (c_extended c) (c_remote_window c) (c_remote_maxpacket c)
    (c_local_window c) (c_local_window_exceeded c) (c_local_window_max c)
    (c_local_consumed c) (c_local_maxpacket c) (c_extended_usage c) (c_ctype c)
    (c_detach_close c) (c_datagram c) (c_lastused c) (c_inactive_deadline c).
Definition set_efd (v : Z) (c : Channel) : Channel :=
  mk_channel (c_type c) (c_self c) (c_remote_id c) (c_have_remote_id c) (c_istate c)
    (c_ostate c) (c_flags c) (c_rfd c) (c_wfd c) v (c_sock c) (c_io_want c) (c_io_ready c)
    (c_pfds c) (c_isatty c) (c_force_drain c) (c_restore_block c) (c_restore_flags c)
    (c_input c) (c_output c) (c_extended c) (c_remote_window c) (c_remote_maxpacket c)
    (c_local_window c) (c_local_window_exceeded c) (c_local_window_max c)
    (c_local_consumed c) (c_local_maxpacket c) (c_extended_usage c) (c_ctype c)
    (c_detach_close c) (c_datagram c) (c_lastused c) (c_inactive_deadline c).
Definition set_sock (v : Z) (c : Channel) : Channel :=
  mk_channel (c_type c) (c_self c) (c_remote_id c) (c_have_remote_id c) (c_istate c)
    (c_ostate c) (c_flags c) (c_rfd c) (c_wfd c) (c_efd c) v (c_io_want c) (c_io_ready c)
    (c_pfds c) (c_isatty c) (c_force_drain c) (c_restore_block c) (c_restore_flags c)
    (c_input c) (c_output c) (c_extended c) (c_remote_window c) (c_remote_maxpacket c)
    (c_local_window c) (c_local_window_exceeded c) (c_local_window_max c)
    (c_local_consumed c) (c_local_maxpacket c) (c_extended_usage c) (c_ctype c)
    (c_detach_close c) (c_datagram c) (c_lastused c) (c_inactive_deadline c).
Definition set_io_want (v : Z) (c : Channel) : Channel :=
  mk_channel (c_type c) (c_self c) (c_remote_id c) (c_have_remote_id c) (c_istate c)
    (c_ostate c) (c_flags c) (c_rfd c) (c_wfd c) (c_efd c) (c_sock c) v (c_io_ready c)
    (c_pfds c) (c_isatty c) (c_force_drain c) (c_restore_block c) (c_restore_flags c)
    (c_input c) (c_output c) (c_extended c) (c_remote_window c) (c_remote_maxpacket c)
    (c_local_window c) (c_local_window_exceeded c) (c_local_window_max c)
    (c_local_consumed c) (c_local_maxpacket c) (c_extended_usage c) (c_ctype c)
    (c_detach_close c) (c_datagram c) (c_lastused c) (c_inactive_deadline c).
Definition set_io_ready (v : Z) (c : Channel) : Channel :=
  mk_channel (c_type c) (c_self c) (c_remote_id c) (c_have_remote_id c) (c_istate c)
    (c_ostate c) (c_flags c) (c_rfd c) (c_wfd c) (c_efd c) (c_sock c) (c_io_want c) v
    (c_pfds c) (c_isatty c) (c_force_drain c) (c_restore_block c) (c_restore_flags c)
    (c_input c) (c_output c) (c_extended c) (c_remote_window c) (c_remote_maxpacket c)
    (c_local_window c) (c_local_window_exceeded c) (c_local_window_max c)
    (c_local_consumed c) (c_local_maxpacket c) (c_extended_usage c) (c_ctype c)
    (c_detach_close c) (c_datagram c) (c_lastused c) (c_inactive_deadline c).
Definition set_pfds (v : list Z) (c : Channel) : Channel :=
  mk_channel (c_type c) (c_self c) (c_remote_id c) (c_have_remote_id c) (c_istate c)
    (c_ostate c) (c_flags c) (c_rfd c) (c_wfd c) (c_efd c) (c_sock c) (c_io_want c)
    (c_io_ready c) v (c_isatty c) (c_force_drain c) (c_restore_block c) (c_restore_flags
    c) (c_input c) (c_output c) (c_extended c) (c_remote_window c) (c_remote_maxpacket c)
    (c_local_window c) (c_local_window_exceeded c) (c_local_window_max c)
    (c_local_consumed c) (c_local_maxpacket c) (c_extended_usage c) (c_ctype c)
    (c_detach_close c) (c_datagram c) (c_lastused c) (c_inactive_deadline c).
Definition set_input (v : B) (c : Channel) : Channel :=
  mk_channel (c_type c) (c_self c) (c_remote_id c) (c_have_remote_id c) (c_istate c)
    (c_ostate c) (c_flags c) (c_rfd c) (c_wfd c) (c_efd c) (c_sock c) (c_io_want c)
    (c_io_ready c) (c_pfds c) (c_isatty c) (c_force_drain c) (c_restore_block c)
    (c_restore_flags c) v (c_output c) (c_extended c) (c_remote_window c)
    (c_remote_maxpacket c) (c_local_window c) (c_local_window_exceeded c)
    (c_local_window_max c) (c_local_consumed c) (c_local_maxpacket c) (c_extended_usage c)
    (c_ctype c) (c_detach_close c) (c_datagram c) (c_lastused c) (c_inactive_deadline c).
Definition set_output (v : B) (c : Channel) : Channel :=
  mk_channel (c_type c) (c_self c) (c_remote_id c) (c_have_remote_id c) (c_istate c)
    (c_ostate c) (c_flags c) (c_rfd c) (c_wfd c) (c_efd c) (c_sock c) (c_io_want c)
    (c_io_ready c) (c_pfds c) (c_isatty c) (c_force_drain c) (c_restore_block c)
    (c_restore_flags c) (c_input c) v (c_extended c) (c_remote_window c)
    (c_remote_maxpacket c) (c_local_window c) (c_local_window_exceeded c)
    (c_local_window_max c) (c_local_consumed c) (c_local_maxpacket c) (c_extended_usage c)
    (c_ctype c) (c_detach_close c) (c_datagram c) (c_lastused c) (c_inactive_deadline c).
Definition set_extended (v : B) (c : Channel) : Channel :=
  mk_channel (c_type c) (c_self c) (c_remote_id c) (c_have_remote_id c) (c_istate c)
    (c_ostate c) (c_flags c) (c_rfd c) (c_wfd c) (c_efd c) (c_sock c) (c_io_want c)
    (c_io_ready c) (c_pfds c) (c_isatty c) (c_force_drain c) (c_restore_block c)
    (c_restore_flags c) (c_input c) (c_output c) v (c_remote_window c) (c_remote_maxpacket
    c) (c_local_window c) (c_local_window_exceeded c) (c_local_window_max c)
    (c_local_consumed c) (c_local_maxpacket c) (c_extended_usage c) (c_ctype c)
    (c_detach_close c) (c_datagram c) (c_lastused c) (c_inactive_deadline c).
Definition set_remote_window (v : Z) (c : Channel) : Channel :=
  mk_channel (c_type c) (c_self c) (c_remote_id c) (c_have_remote_id c) (c_istate c)
    (c_ostate c) (c_flags c) (c_rfd c) (c_wfd c) (c_efd c) (c_sock c) (c_io_want c)
    (c_io_ready c) (c_pfds c) (c_isatty c) (c_force_drain c) (c_restore_block c)
    (c_restore_flags c) (c_input c) (c_output c) (c_extended c) v (c_remote_maxpacket c)
    (c_local_window c) (c_local_window_exceeded c) (c_local_window_max c)
    (c_local_consumed c) (c_local_maxpacket c) (c_extended_usage c) (c_ctype c)
    (c_detach_close c) (c_datagram c) (c_lastused c) (c_inactive_deadline c).
Definition set_local_window (v : Z) (c : Channel) : Channel :=
  mk_channel (c_type c) (c_self c) (c_remote_id c) (c_have_remote_id c) (c_istate c)
    (c_ostate c) (c_flags c) (c_rfd c) (c_wfd c) (c_efd c) (c_sock c) (c_io_want c)
    (c_io_ready c) (c_pfds c) (c_isatty c) (c_force_drain c) (c_restore_block c)
    (c_restore_flags c) (c_input c) (c_output c) (c_extended c) (c_remote_window c)
    (c_remote_maxpacket c) v (c_local_window_exceeded c) (c_local_window_max c)
    (c_local_consumed c) (c_local_maxpacket c) (c_extended_usage c) (c_ctype c)
    (c_detach_close c) (c_datagram c) (c_lastused c) (c_inactive_deadline c).
Definition set_local_window_exceeded (v : Z) (c : Channel) : Channel :=
  mk_channel (c_type c) (c_self c) (c_remote_id c) (c_have_remote_id c) (c_istate c)
    (c_ostate c) (c_flags c) (c_rfd c) (c_wfd c) (c_efd c) (c_sock c) (c_io_want c)
    (c_io_ready c) (c_pfds c) (c_isatty c) (c_force_drain c) (c_restore_block c)
    (c_restore_flags c) (c_input c) (c_output c) (c_extended c) (c_remote_window c)
    (c_remote_maxpacket c) (c_local_window c) v (c_local_window_max c) (c_local_consumed
    c) (c_local_maxpacket c) (c_extended_usage c) (c_ctype c) (c_detach_close c)
    (c_datagram c) (c_lastused c) (c_inactive_deadline c).
Definition set_local_consumed (v : Z) (c : Channel) : Channel :=
  mk_channel (c_type c) (c_self c) (c_remote_id c) (c_have_remote_id c) (c_istate c)
    (c_ostate c) (c_flags c) (c_rfd c) (c_wfd c) (c_efd c) (c_sock c) (c_io_want c)
    (c_io_ready c) (c_pfds c) (c_isatty c) (c_force_drain c) (c_restore_block c)
    (c_restore_flags c) (c_input c) (c_output c) (c_extended c) (c_remote_window c)
    (c_remote_maxpacket c) (c_local_window c) (c_local_window_exceeded c)
    (c_local_window_max c) v (c_local_maxpacket c) (c_extended_usage c) (c_ctype c)
    (c_detach_close c) (c_datagram c) (c_lastused c) (c_inactive_deadline c).
Definition set_lastused (v : Z) (c : Channel) : Channel :=
  mk_channel (c_type c) (c_self c) (c_remote_id c) (c_have_remote_id c) (c_istate c)
    (c_ostate c) (c_flags c) (c_rfd c) (c_wfd c) (c_efd c) (c_sock c) (c_io_want c)
    (c_io_ready c) (c_pfds c) (c_isatty c) (c_force_drain c) (c_restore_block c)
    (c_restore_flags c) (c_input c) (c_output c) (c_extended c) (c_remote_window c)
    (c_remote_maxpacket c) (c_local_window c) (c_local_window_exceeded c)
    (c_local_window_max c) (c_local_consumed c) (c_local_maxpacket c) (c_extended_usage c)
    (c_ctype c) (c_detach_close c) (c_datagram c) v (c_inactive_deadline c).
Definition set_inactive_deadline (v : Z) (c : Channel) : Channel :=
  mk_channel (c_type c) (c_self c) (c_remote_id c) (c_have_remote_id c) (c_istate c)
    (c_ostate c) (c_flags c) (c_rfd c) (c_wfd c) (c_efd c) (c_sock c) (c_io_want c)
    (c_io_ready c) (c_pfds c) (c_isatty c) (c_force_drain c) (c_restore_block c)
    (c_restore_flags c) (c_input c) (c_output c) (c_extended c) (c_remote_window c)
    (c_remote_maxpacket c) (c_local_window c) (c_local_window_exceeded c)
    (c_local_window_max c) (c_local_consumed c) (c_local_maxpacket c) (c_extended_usage c)
    (c_ctype c) (c_detach_close c) (c_datagram c) (c_lastused c) v.

(** The channel, the messages sent, the system calls made, and the time of
    the last traffic on any channel. *)
Record world : Type := mk_world {
  w_c : Channel;
  w_sent : list msg;
  w_sys : list syscall;
  w_lastused : Z;
}.

Definition CM (A : Type) : Type := ST world A.

Definition chan : CM Channel := fun w => (Ok (w_c w), w).
Definition upd (f : Channel -> Channel) : CM unit := fun w =>
  (Ok tt, mk_world (f (w_c w)) (w_sent w) (w_sys w) (w_lastused w)).
Definition sys (s : syscall) : CM unit := fun w =>
  (Ok tt, mk_world (w_c w) (w_sent w) (w_sys w ++ [s]) (w_lastused w)).
Definition fatal {A} : CM A := fail FATAL.
Definition ssh_packet_disconnect {A} : CM A := fail DISCONNECT.

(** An operation on one of the buffers. *)
Definition on_input {A} (m : ST B A) : CM A := fun w =>
  let '(r, b) := m (c_input (w_c w)) in
  (r, mk_world (set_input b (w_c w)) (w_sent w) (w_sys w) (w_lastused w)).
Definition on_output {A} (m : ST B A) : CM A := fun w =>
  let '(r, b) := m (c_output (w_c w)) in
  (r, mk_world (set_output b (w_c w)) (w_sent w) (w_sys w) (w_lastused w)).
Definition on_extended {A} (m : ST B A) : CM A := fun w =>
  let '(r, b) := m (c_extended (w_c w)) in
  (r, mk_world (set_extended b (w_c w)) (w_sent w) (w_sys w) (w_lastused w)).

Definition input_len : CM Z := reads (fun w => bq_len (c_input (w_c w))).
Definition output_len : CM Z := reads (fun w => bq_len (c_output (w_c w))).
Definition extended_len : CM Z := reads (fun w => bq_len (c_extended (w_c w))).

(** [if ((r = op) != 0) fatal_fr(...)]. *)
Definition or_fatal {A} (m : CM A) : CM A := fun w =>
  match m w with
  | (Err _, w) => (Err FATAL, w)
  | r => r
  end.

(** ** Descriptors *)

(** Which field of the channel an [int *fdp] points to. *)
Inductive fdsel : Type := RFD | WFD | EFD | SOCK.

Definition fd_of (s : fdsel) (c : Channel) : Z :=
  match s with RFD => c_rfd c | WFD => c_wfd c | EFD => c_efd c | SOCK => c_sock c end.
Definition set_fd (s : fdsel) (v : Z) (c : Channel) : Channel :=
  match s with RFD => set_rfd v c | WFD => set_wfd v c | EFD => set_efd v c | SOCK => set_sock v c end.

(** Forget descriptor [s]: its interest, its readiness, its poll entry. *)
Definition drop_fd (s : fdsel) (mask : Z) (i : nat) (c : Channel) : Channel :=
  set_pfds (<[i := -1]> (c_pfds c))
    (set_fd s (-1)
      (set_io_ready (Z.land (c_io_ready c) (u32 (Z.lnot mask)))
        (set_io_want (Z.land (c_io_want c) (u32 (Z.lnot mask))) c))).

(** [*fdp] is read again at each test, after the fields before it may have
    been reset. *)
Definition channel_close_fd (fdp : fdsel) : CM unit :=
  let! c := chan in
  let fd := fd_of fdp c in
  if fd =? -1 then ret tt
  else
    let flag i := default 0 (c_restore_flags c !! i) in
    do! (if (fd =? c_rfd c) && has (c_restore_block c) CHANNEL_RESTORE_RFD then sys (Sys_setfl fd (flag 0%nat))
         else if (fd =? c_wfd c) && has (c_restore_block c) CHANNEL_RESTORE_WFD then sys (Sys_setfl fd (flag 1%nat))
         else if (fd =? c_efd c) && has (c_restore_block c) CHANNEL_RESTORE_EFD then sys (Sys_setfl fd (flag 2%nat))
         else ret tt) ;;
    do! upd (fun c => if fd_of fdp c =? c_rfd c then drop_fd RFD SSH_CHAN_IO_RFD 0 c else c) ;;
    do! upd (fun c => if fd_of fdp c =? c_wfd c then drop_fd WFD SSH_CHAN_IO_WFD 1 c else c) ;;
    do! upd (fun c => if fd_of fdp c =? c_efd c then drop_fd EFD SSH_CHAN_IO_EFD 2 c else c) ;;
    do! upd (fun c => if fd_of fdp c =? c_sock c then drop_fd SOCK SSH_CHAN_IO_SOCK 3 c else c) ;;
    do! sys (Sys_close fd) ;;
    upd (set_fd fdp (-1)).

Definition channel_close_fds : CM unit :=
  let! c := chan in
  let sock := c_sock c in let rfd := c_rfd c in let wfd := c_wfd c in let efd := c_efd c in
  do! channel_close_fd SOCK ;;
  do! (if negb (rfd =? sock) then channel_close_fd RFD else ret tt) ;;
  do! (if negb (wfd =? sock) && negb (wfd =? rfd) then channel_close_fd WFD else ret tt) ;;
  if negb (efd =? sock) && negb (efd =? rfd) && negb (efd =? wfd) then channel_close_fd EFD else ret tt.

(** ** The state machine *)

Section Env.
Variable E : env.

Definition send (m : msg) : CM unit := fun w =>
  if e_pkt_ok E then (Ok tt, mk_world (w_c w) (w_sent w ++ [m]) (w_sys w) (w_lastused w))
  else (Err FATAL, w).

Definition chan_set_istate (next : Z) : CM unit :=
  let! c := chan in
  if (CHAN_INPUT_CLOSED <? c_istate c) || (CHAN_INPUT_CLOSED <? next) then fatal
  else upd (set_istate next).

Definition chan_set_ostate (next : Z) : CM unit :=
  let! c := chan in
  if (CHAN_OUTPUT_CLOSED <? c_ostate c) || (CHAN_OUTPUT_CLOSED <? next) then fatal
  else upd (set_ostate next).

Definition chan_shutdown_write : CM unit :=
  do! on_output (bq_reset (e_np E)) ;;
  let! c := chan in
  if c_type c =? SSH_CHANNEL_LARVAL then ret tt
  else if negb (c_sock c =? -1) then sys (Sys_shutdown_wr (c_sock c))
  else channel_close_fd WFD.

Definition chan_shutdown_read : CM unit :=
  let! c := chan in
  if c_type c =? SSH_CHANNEL_LARVAL then ret tt
  else if negb (c_sock c =? -1) then sys (Sys_shutdown_rd (c_sock c))
  else channel_close_fd RFD.

Definition chan_shutdown_extended_read : CM unit :=
  let! c := chan in
  if (c_type c =? SSH_CHANNEL_LARVAL) || (c_efd c =? -1) then ret tt
  else if negb (c_extended_usage c =? CHAN_EXTENDED_READ) && negb (c_extended_usage c =? CHAN_EXTENDED_IGNORE)
  then ret tt
  else channel_close_fd EFD.

Definition chan_send_eof2 : CM unit :=
  let! c := chan in
  if c_istate c =? CHAN_INPUT_WAIT_DRAIN then
    if negb (c_have_remote_id c) then fatal
    else
      do! send (MSG_CHANNEL_EOF (c_remote_id c)) ;;
      upd (fun c => set_flags (Z.lor (c_flags c) CHAN_EOF_SENT) c)
  else ret tt.

Definition chan_send_close2 : CM unit :=
  let! c := chan in
  if negb (c_ostate c =? CHAN_OUTPUT_CLOSED) || negb (c_istate c =? CHAN_INPUT_CLOSED) then ret tt
  else if has (c_flags c) CHAN_CLOSE_SENT then ret tt
  else if negb (c_have_remote_id c) then fatal
  else
    do! send (MSG_CHANNEL_CLOSE (c_remote_id c)) ;;
    upd (fun c => set_flags (Z.lor (c_flags c) CHAN_CLOSE_SENT) c).

Definition chan_send_eow2 : CM unit :=
  let! c := chan in
  if c_ostate c =? CHAN_OUTPUT_CLOSED then ret tt
  else if negb (has (e_compat E) SSH_NEW_OPENSSH) then ret tt
  else if negb (c_have_remote_id c) then fatal
  else send (MSG_CHANNEL_REQUEST (c_remote_id c) (str "eow@openssh.com") 0).

Definition chan_read_failed : CM unit :=
  let! c := chan in
  if c_istate c =? CHAN_INPUT_OPEN then
    do! chan_shutdown_read ;;
    chan_set_istate CHAN_INPUT_WAIT_DRAIN
  else ret tt.

Definition chan_ibuf_empty : CM unit :=
  let! n := input_len in
  if negb (n =? 0) then ret tt
  else
    let! c := chan in
    if c_istate c =? CHAN_INPUT_WAIT_DRAIN then
      do! (if negb (has (c_flags c) (Z.lor CHAN_CLOSE_SENT CHAN_LOCAL)) then chan_send_eof2 else ret tt) ;;
      chan_set_istate CHAN_INPUT_CLOSED
    else ret tt.

Definition chan_obuf_empty : CM unit :=
  let! n := output_len in
  if negb (n =? 0) then ret tt
  else
    let! c := chan in
    if c_ostate c =? CHAN_OUTPUT_WAIT_DRAIN then
      do! chan_shutdown_write ;;
      chan_set_ostate CHAN_OUTPUT_CLOSED
    else ret tt.

Definition chan_rcvd_eow : CM unit :=
  let! c := chan in
  if c_istate c =? CHAN_INPUT_OPEN then
    do! chan_shutdown_read ;;
    chan_set_istate CHAN_INPUT_CLOSED
  else ret tt.

(** [CHANNEL_EFD_INPUT_ACTIVE], [CHANNEL_EFD_OUTPUT_ACTIVE] *)
Definition CHANNEL_EFD_INPUT_ACTIVE : CM bool :=
  let! c := chan in
  if c_extended_usage c =? CHAN_EXTENDED_READ then
    if negb (c_efd c =? -1) then ret true
    else let! n := extended_len in ret (0 <? n)
  else ret false.

Definition CHANNEL_EFD_OUTPUT_ACTIVE : CM bool :=
  let! c := chan in
  if (c_extended_usage c =? CHAN_EXTENDED_WRITE) && negb (c_efd c =? -1) then
    if negb (has (c_flags c) (Z.lor CHAN_EOF_RCVD CHAN_CLOSE_RCVD)) then ret true
    else let! n := extended_len in ret (0 <? n)
  else ret false.

Definition chan_rcvd_ieof : CM unit :=
  do! upd (fun c => set_flags (Z.lor (c_flags c) CHAN_EOF_RCVD) c) ;;
  let! c := chan in
  do! (if c_ostate c =? CHAN_OUTPUT_OPEN then chan_set_ostate CHAN_OUTPUT_WAIT_DRAIN else ret tt) ;;
  let! c := chan in
  if c_ostate c =? CHAN_OUTPUT_WAIT_DRAIN then
    let! n := output_len in
    if n =? 0 then
      let! a := CHANNEL_EFD_OUTPUT_ACTIVE in
      if negb a then chan_obuf_empty else ret tt
    else ret tt
  else ret tt.

Definition chan_rcvd_oclose : CM unit :=
  let! c := chan in
  do! (if negb (has (c_flags c) CHAN_LOCAL)
       then upd (fun c => set_flags (Z.lor (c_flags c) CHAN_CLOSE_RCVD) c) else ret tt) ;;
  if c_type c =? SSH_CHANNEL_LARVAL then
    do! chan_set_ostate CHAN_OUTPUT_CLOSED ;;
    chan_set_istate CHAN_INPUT_CLOSED
  else
    do! (if c_ostate c =? CHAN_OUTPUT_OPEN then chan_set_ostate CHAN_OUTPUT_WAIT_DRAIN else ret tt) ;;
    let! c := chan in
    if c_istate c =? CHAN_INPUT_OPEN then
      do! chan_shutdown_read ;;
      do! chan_shutdown_extended_read ;;
      chan_set_istate CHAN_INPUT_CLOSED
    else if c_istate c =? CHAN_INPUT_WAIT_DRAIN then
      do! (if negb (has (c_flags c) CHAN_LOCAL) then chan_send_eof2 else ret tt) ;;
      do! chan_shutdown_extended_read ;;
      chan_set_istate CHAN_INPUT_CLOSED
    else ret tt.

Definition chan_write_failed : CM unit :=
  let! c := chan in
  if (c_ostate c =? CHAN_OUTPUT_OPEN) || (c_ostate c =? CHAN_OUTPUT_WAIT_DRAIN) then
    do! chan_shutdown_write ;;
    do! (if streq (c_ctype c) (str "session") then chan_send_eow2 else ret tt) ;;
    chan_set_ostate CHAN_OUTPUT_CLOSED
  else ret tt.

Definition chan_mark_dead : CM unit := upd (set_type SSH_CHANNEL_ZOMBIE).

Definition chan_is_dead (do_send : bool) : CM bool :=
  let! c := chan in
  if c_type c =? SSH_CHANNEL_ZOMBIE then ret true
  else if negb (c_istate c =? CHAN_INPUT_CLOSED) || negb (c_ostate c =? CHAN_OUTPUT_CLOSED) then ret false
  else
    let! active :=
      (if has (e_compat E) SSH_BUG_EXTEOF && (c_extended_usage c =? CHAN_EXTENDED_WRITE)
          && negb (c_efd c =? -1)
       then let! n := extended_len in ret (0 <? n) else ret false) in
    if active then ret false
    else if has (c_flags c) CHAN_LOCAL then ret true
    else
      let last := (let! c := chan in
                   ret (has (c_flags c) CHAN_CLOSE_SENT && has (c_flags c) CHAN_CLOSE_RCVD)) in
      if negb (has (c_flags c) CHAN_CLOSE_SENT) then
        if do_send then do! chan_send_close2 ;; last
        else if has (c_flags c) CHAN_CLOSE_RCVD then ret true
        else last
      else last.

(** channel_force_close of src/channels.c.  [detach_user] is the callback
    registered on the channel, if any. *)
Definition channel_force_close (detach_user : option (CM unit)) (abandon : bool) : CM unit :=
  let! c := chan in
  do! (if c_istate c =? CHAN_INPUT_OPEN then chan_read_failed else ret tt) ;;
  let! c := chan in
  do! (if c_istate c =? CHAN_INPUT_WAIT_DRAIN then
         do! on_input (bq_reset (e_np E)) ;; chan_ibuf_empty
       else ret tt) ;;
  let! c := chan in
  do! (if (c_ostate c =? CHAN_OUTPUT_OPEN) || (c_ostate c =? CHAN_OUTPUT_WAIT_DRAIN) then
         do! on_output (bq_reset (e_np E)) ;; chan_write_failed
       else ret tt) ;;
  do! (match detach_user with Some f => f | None => ret tt end) ;;
  let! c := chan in
  do! (if negb (c_efd c =? -1) then channel_close_fd EFD else ret tt) ;;
  do! (if abandon then upd (set_type SSH_CHANNEL_ABANDONED) else ret tt) ;;
  upd (fun c => set_lastused 0 (set_inactive_deadline 0 c)).
End Env.
End Nchan.

Arguments Channel : clear implicits.
Arguments world : clear implicits.
Arguments CM : clear implicits.
