(* ===== verification/ChanIO.v ===== *)
(** * Channels: the data path of src/channels.c

    What an open channel does with its descriptors (before and after poll),
    with the data it has buffered and with the messages it receives, and its
    window accounting.  The answers of read(2), write(2) and tcgetattr(3) are
    arguments: what is available to read, how much can be written, or the
    error.  The filters of a tunnel channel are callbacks. *)
From S2P Require Import Prelude Sshbuf SshbufGetput CString SshbufMisc ByteQueue Nchan.

Definition CHAN_SES_PACKET_DEFAULT : Z := 32 * 1024.
Definition CHAN_RBUF : Z := 16 * 1024.
Definition CHANNEL_MAX_READ : Z := CHAN_SES_PACKET_DEFAULT.

Definition EINTR : Z := 4.
Definition EAGAIN : Z := 11.
Definition EWOULDBLOCK : Z := 11.

(** What write(2) answers: a count, or -1 and an [errno]. *)
Inductive wrres : Type := WrLen (n : Z) | WrErr (errno : Z).

Definition wr_again (w : wrres) : bool :=
  match w with
  | WrLen _ => false
  | WrErr e => (e =? EINTR) || (e =? EAGAIN) || (e =? EWOULDBLOCK)
  end.
Definition wr_len (w : wrres) : Z := match w with WrLen n => n | WrErr _ => -1 end.

(** read(2) stores at most the count asked for of what is available, write(2)
    takes at most the count it is given. *)
Definition rd_clip (n : Z) (rd : rdres) : rdres :=
  match rd with RdData v => RdData (ztake n v) | RdErr e => RdErr e end.
Definition wr_clip (n : Z) (w : wrres) : wrres :=
  match w with WrLen k => WrLen (Z.min k n) | WrErr e => WrErr e end.

(** A read that must be tried again; a pty being closed by force does not
    wait. *)
Definition rd_again (force : bool) (e : Z) : bool :=
  (e =? EINTR) || (negb force && ((e =? EAGAIN) || (e =? EWOULDBLOCK))).

(** [sshpkt_get_u32] and [sshpkt_get_string_direct]: the value at the front of
    what is left of the packet, and the rest. *)
Definition pkt_u32 (pkt : list Z) : res (Z * list Z) :=
  if zlen pkt <? 4 then Err SSH_ERR_MESSAGE_INCOMPLETE else Ok (be (ztake 4 pkt), zdrop 4 pkt).

Definition pkt_string (pkt : list Z) : res (list Z * list Z) :=
  let? n := string_len pkt in Ok (ztake n (zdrop 4 pkt), zdrop (n + 4) pkt).

Section IO.
Context {B : Type} `{ByteQueue B}.
Variable E : env.
Abbreviation M := (CM B).

(** [if ((r = op) != 0) error_fr(...)]. *)
Definition or_log (m : M unit) : M unit := fun w =>
  match m w with
  | (Err _, w) => (Ok tt, w)
  | r => r
  end.

Definition channel_set_used_time : M unit := fun w =>
  (Ok tt, mk_world (set_lastused (e_now E) (w_c w)) (w_sent w) (w_sys w) (e_now E)).

(** ** Before poll *)

Definition channel_pre_open : M unit :=
  do! upd (set_io_want 0) ;;
  let! c := chan in
  let want m := upd (fun c => set_io_want (Z.lor (c_io_want c) m) c) in
  do! (if (c_istate c =? CHAN_INPUT_OPEN) && (0 <? c_remote_window c) then
         let! ilen := input_len in
         if ilen <? c_remote_window c then
           match bq_check_reserve (c_input c) CHAN_RBUF with
           | Ok _ => want SSH_CHAN_IO_RFD
           | Err _ => ret tt
           | Crash => crash
           end
         else ret tt
       else ret tt) ;;
  do! (if (c_ostate c =? CHAN_OUTPUT_OPEN) || (c_ostate c =? CHAN_OUTPUT_WAIT_DRAIN) then
         let! olen := output_len in
         if 0 <? olen then want SSH_CHAN_IO_WFD
         else if c_ostate c =? CHAN_OUTPUT_WAIT_DRAIN then
           let! a := CHANNEL_EFD_OUTPUT_ACTIVE in
           if a then ret tt else chan_obuf_empty E
         else ret tt
       else ret tt) ;;
  let! c := chan in
  if negb (c_efd c =? -1) && negb ((c_istate c =? CHAN_INPUT_CLOSED) && (c_ostate c =? CHAN_OUTPUT_CLOSED)) then
    let! elen := extended_len in
    if (c_extended_usage c =? CHAN_EXTENDED_WRITE) && (0 <? elen) then want SSH_CHAN_IO_EFD_W
    else if negb (c_efd c =? -1) && negb (has (c_flags c) CHAN_EOF_SENT)
            && ((c_extended_usage c =? CHAN_EXTENDED_READ) || (c_extended_usage c =? CHAN_EXTENDED_IGNORE))
            && (elen <? c_remote_window c)
    then want SSH_CHAN_IO_EFD_R
    else ret tt
  else ret tt.

(** ** After poll *)

(** The label [rfail]. *)
Definition rfail : M Z :=
  let! c := chan in
  do! (if negb (c_type c =? SSH_CHANNEL_OPEN) then chan_mark_dead else chan_read_failed) ;;
  ret (-1).

Definition write_fail : M Z :=
  let! c := chan in
  do! (if negb (c_type c =? SSH_CHANNEL_OPEN) then chan_mark_dead else chan_write_failed E) ;;
  ret (-1).

(** [sshbuf_read] on the input buffer, with [errno]; [inl] is the count, [inr]
    the [errno] of a failure. *)
Definition read_input (maxlen : Z) (rd : rdres) (errno : Z) : M (Z + Z) := fun w =>
  let '(r, (b, e)) := bq_read (e_np E) maxlen (rd_clip maxlen rd) (c_input (w_c w), errno) in
  let w := mk_world (set_input b (w_c w)) (w_sent w) (w_sys w) (w_lastused w) in
  match r with
  | Ok n => (Ok (inl n), w)
  | Err _ => (Ok (inr e), w)
  | Crash => (Crash, w)
  end.

(** [infilter] is the input filter, [errno] its value before the call; built
    without [PTY_ZEROREAD]. *)
Definition channel_handle_rfd (infilter : option (list Z -> M Z)) (rd : rdres) (errno : Z) : M Z :=
  let! c := chan in
  let force := c_isatty c && c_detach_close c && negb (c_istate c =? CHAN_INPUT_CLOSED) in
  if negb force && negb (has (c_io_ready c) SSH_CHAN_IO_RFD) then ret 1
  else
    let! avail := reads (fun w => bq_avail (c_input (w_c w))) in
    if avail =? 0 then ret 1
    else
      match infilter, c_datagram c with
      | None, false =>
          let isopen := c_type c =? SSH_CHANNEL_OPEN in
          let! have := (if isopen then input_len else ret 0) in
          if isopen && (c_remote_window c <=? have) then ret 1
          else
            let maxlen := CHANNEL_MAX_READ in
            let maxlen := if isopen && (c_remote_window c - have <? maxlen) then c_remote_window c - have else maxlen in
            let maxlen := if avail <? maxlen then avail else maxlen in
            let! r := read_input maxlen rd errno in
            match r with
            | inr e => if rd_again force e then ret 1 else rfail
            | inl nr => do! (if nr =? 0 then ret tt else channel_set_used_time) ;; ret 1
            end
      | _, _ =>
          match rd_clip CHAN_RBUF rd with
          | RdErr e => if rd_again force e then ret 1 else rfail
          | RdData [] => rfail
          | RdData buf =>
              do! channel_set_used_time ;;
              do! (match infilter with
                   | Some f =>
                       let! r := f buf in
                       if r =? -1 then chan_read_failed else ret tt
                   | None =>
                       if c_datagram c then or_fatal (on_input (bq_put_string (e_np E) buf))
                       else or_fatal (on_input (bq_put (e_np E) buf))
                   end) ;;
              ret 1
          end
      end.

(** [outfilter] takes a datagram from the output and gives the bytes to write,
    or stops; [echo_off] is whether tcgetattr(3) reports a tty in canonical
    mode without echo. *)
Definition channel_handle_wfd (outfilter : option (M (option (list Z)))) (wr : wrres) (echo_off : bool) : M Z :=
  let! c := chan in
  if negb (has (c_io_ready c) SSH_CHAN_IO_WFD) then ret 1
  else
    let! olen := output_len in
    if olen =? 0 then ret 1
    else
      let! buf :=
        (match outfilter with
         | Some f => f
         | None =>
             if c_datagram c then let! d := or_fatal (on_output (bq_get_string (e_np E))) in ret (Some d)
             else let! d := reads (fun w => bq_peek olen (c_output (w_c w))) in ret (Some d)
         end) in
      match buf with
      | None => write_fail
      | Some buf =>
          let wr := wr_clip (zlen buf) wr in
          let done :=
            (let! len := output_len in
             do! upd (fun c => set_local_consumed (u32 (c_local_consumed c + u64 (olen - len))) c) ;;
             ret 1) in
          if wr_again wr then ret 1
          else if wr_len wr <=? 0 then write_fail
          else if c_datagram c then done
          else
            do! channel_set_used_time ;;
            do! (if c_isatty c && (1 <=? zlen buf) && negb (default 0 (buf !! 0%nat) =? 13) && echo_off
                 then send E (MSG_IGNORE (4 + wr_len wr)) else ret tt) ;;
            do! or_fatal (on_output (bq_consume (wr_len wr))) ;;
            done
      end.

Definition channel_handle_efd_write (wr : wrres) : M Z :=
  let! c := chan in
  if negb (has (c_io_ready c) SSH_CHAN_IO_EFD_W) then ret 1
  else
    let! elen := extended_len in
    if elen =? 0 then ret 1
    else
    let wr := wr_clip elen wr in
    if wr_again wr then ret 1
    else if wr_len wr <=? 0 then do! channel_close_fd EFD ;; ret 1
    else
      do! or_fatal (on_extended (bq_consume (wr_len wr))) ;;
      do! upd (fun c => set_local_consumed (u32 (c_local_consumed c + wr_len wr)) c) ;;
      do! channel_set_used_time ;;
      ret 1.

Definition channel_handle_efd_read (rd : rdres) : M Z :=
  let! c := chan in
  let force := c_isatty c && c_detach_close c && negb (c_istate c =? CHAN_INPUT_CLOSED) in
  if negb force && negb (has (c_io_ready c) SSH_CHAN_IO_EFD_R) then ret 1
  else
    match rd_clip CHAN_RBUF rd with
    | RdErr e => if rd_again force e then ret 1 else do! channel_close_fd EFD ;; ret 1
    | RdData [] => do! channel_close_fd EFD ;; ret 1
    | RdData buf =>
        do! channel_set_used_time ;;
        do! (if c_extended_usage c =? CHAN_EXTENDED_IGNORE then ret tt
             else or_fatal (on_extended (bq_put (e_np E) buf))) ;;
        ret 1
    end.

Definition channel_handle_efd (rd : rdres) (wr : wrres) : M Z :=
  let! c := chan in
  if c_efd c =? -1 then ret 1
  else if c_extended_usage c =? CHAN_EXTENDED_WRITE then channel_handle_efd_write wr
  else if (c_extended_usage c =? CHAN_EXTENDED_READ) || (c_extended_usage c =? CHAN_EXTENDED_IGNORE)
  then channel_handle_efd_read rd
  else ret 1.

Definition channel_check_window : M Z :=
  let! c := chan in
  if (c_type c =? SSH_CHANNEL_OPEN) && negb (has (c_flags c) (Z.lor CHAN_CLOSE_SENT CHAN_CLOSE_RCVD))
     && ((u32 (c_local_maxpacket c * 3) <? u32 (c_local_window_max c - c_local_window c))
         || (c_local_window c <? c_local_window_max c / 2))
     && (0 <? c_local_consumed c)
  then
    if negb (c_have_remote_id c) then fatal
    else
      do! send E (MSG_CHANNEL_WINDOW_ADJUST (c_remote_id c) (c_local_consumed c)) ;;
      do! upd (fun c => set_local_consumed 0 (set_local_window (u32 (c_local_window c + c_local_consumed c)) c)) ;;
      ret 1
  else ret 1.

(** The answers of the system calls of one round. *)
Record answers : Type := mk_answers {
  a_rfd : rdres;
  a_errno : Z;
  a_wfd : wrres;
  a_echo_off : bool;
  a_efd_rd : rdres;
  a_efd_wr : wrres;
}.

Definition channel_post_open (infilter : option (list Z -> M Z)) (outfilter : option (M (option (list Z))))
    (a : answers) : M unit :=
  do! channel_handle_rfd infilter (a_rfd a) (a_errno a) ;;
  do! channel_handle_wfd outfilter (a_wfd a) (a_echo_off a) ;;
  do! channel_handle_efd (a_efd_rd a) (a_efd_wr a) ;;
  do! channel_check_window ;;
  ret tt.

(** ** Sending buffered data *)

Definition channel_output_poll_input_open : M Z :=
  let! len := input_len in
  let! c := chan in
  if len =? 0 then
    do! (if c_istate c =? CHAN_INPUT_WAIT_DRAIN then
           let! a := CHANNEL_EFD_INPUT_ACTIVE in
           if a then ret tt else chan_ibuf_empty E
         else ret tt) ;;
    ret 0
  else if negb (c_have_remote_id c) then fatal
  else if c_datagram c then
    let! pkt := or_fatal (on_input bq_get_string_direct) in
    let plen := zlen pkt in
    if (c_remote_window c <? plen) || (c_remote_maxpacket c <? plen) then ret 0
    else
      do! send E (MSG_CHANNEL_DATA (c_remote_id c) pkt) ;;
      do! upd (fun c => set_remote_window (u32 (c_remote_window c - plen)) c) ;;
      ret 1
  else
    let len := if c_remote_window c <? len then c_remote_window c else len in
    let len := if c_remote_maxpacket c <? len then c_remote_maxpacket c else len in
    if len =? 0 then ret 0
    else
      let! data := reads (fun w => bq_peek len (c_input (w_c w))) in
      do! send E (MSG_CHANNEL_DATA (c_remote_id c) data) ;;
      do! or_fatal (on_input (bq_consume len)) ;;
      do! upd (fun c => set_remote_window (u32 (c_remote_window c - len)) c) ;;
      ret 1.

Definition channel_output_poll_extended_read : M Z :=
  let! len := extended_len in
  if len =? 0 then ret 0
  else
    let! c := chan in
    let len := if c_remote_window c <? len then c_remote_window c else len in
    let len := if c_remote_maxpacket c <? len then c_remote_maxpacket c else len in
    if len =? 0 then ret 0
    else if negb (c_have_remote_id c) then fatal
    else
      let! data := reads (fun w => bq_peek len (c_extended (w_c w))) in
      do! send E (MSG_CHANNEL_EXTENDED_DATA (c_remote_id c) SSH2_EXTENDED_DATA_STDERR data) ;;
      do! or_fatal (on_extended (bq_consume len)) ;;
      do! upd (fun c => set_remote_window (u32 (c_remote_window c - len)) c) ;;
      ret 1.

(** The body of the loop of channel_output_poll for one channel. *)
Definition channel_output_poll_one : M Z :=
  let! c := chan in
  if negb (c_type c =? SSH_CHANNEL_OPEN) then ret 0
  else if has (c_flags c) (Z.lor CHAN_CLOSE_SENT CHAN_CLOSE_RCVD) then ret 0
  else
    let! r1 := (if (c_istate c =? CHAN_INPUT_OPEN) || (c_istate c =? CHAN_INPUT_WAIT_DRAIN)
                then channel_output_poll_input_open else ret 0) in
    let! c := chan in
    let! r2 := (if negb (has (c_flags c) CHAN_EOF_SENT) && (c_extended_usage c =? CHAN_EXTENDED_READ)
                then channel_output_poll_extended_read else ret 0) in
    ret (Z.lor r1 r2).

(** ** Receiving *)

(** Each handler is given the payload of the packet after the channel number;
    the channel is not the proxy of a multiplexing client, whose packets
    channel_proxy_upstream forwards. *)
Definition channel_input_data (pkt : list Z) : M unit :=
  let! c := chan in
  if negb (c_type c =? SSH_CHANNEL_OPEN) && negb (c_type c =? SSH_CHANNEL_RDYNAMIC_OPEN)
     && negb (c_type c =? SSH_CHANNEL_RDYNAMIC_FINISH) && negb (c_type c =? SSH_CHANNEL_X11_OPEN)
  then ret tt
  else
    let! data := (match pkt_string pkt with
                  | Ok (v, []) => ret v
                  | _ => fatal
                  end) in
    let win_len := if c_datagram c then zlen data + 4 else zlen data in
    if negb (c_ostate c =? CHAN_OUTPUT_OPEN) then
      upd (fun c => set_local_consumed (u32 (c_local_consumed c + win_len))
        (set_local_window (if c_local_window c <? win_len then 0 else u32 (c_local_window c - win_len)) c))
    else if c_local_maxpacket c <? win_len then ret tt
    else
      do! (if c_local_window c <? win_len then
             do! upd (fun c => set_local_window 0
               (set_local_window_exceeded (u32 (c_local_window_exceeded c + (win_len - c_local_window c))) c)) ;;
             let! c := chan in
             if c_local_window_max c / 10 <? c_local_window_exceeded c then ssh_packet_disconnect else ret tt
           else
             upd (fun c => set_local_window_exceeded 0 (set_local_window (u32 (c_local_window c - win_len)) c))) ;;
      if c_datagram c then or_fatal (on_output (bq_put_string (e_np E) data))
      else or_fatal (on_output (bq_put (e_np E) data)).

Definition channel_input_extended_data (pkt : list Z) : M unit :=
  let! c := chan in
  if negb (c_type c =? SSH_CHANNEL_OPEN) then ret tt
  else if has (c_flags c) CHAN_EOF_RCVD && negb (has (e_compat E) SSH_BUG_EXTEOF) then ssh_packet_disconnect
  else match pkt_u32 pkt with
  | Ok (tcode, pkt) =>
      if (c_efd c =? -1) || negb (c_extended_usage c =? CHAN_EXTENDED_WRITE)
         || negb (tcode =? SSH2_EXTENDED_DATA_STDERR)
      then ret tt
      else match pkt_string pkt with
      | Ok (data, []) =>
          if c_local_window c <? zlen data then ret tt
          else
            do! or_log (on_extended (bq_put (e_np E) data)) ;;
            upd (fun c => set_local_window (u32 (c_local_window c - zlen data)) c)
      | _ => ssh_packet_disconnect
      end
  | _ => ssh_packet_disconnect
  end.

Definition channel_input_ieof (pkt : list Z) : M unit :=
  match pkt with
  | _ :: _ => ssh_packet_disconnect
  | [] =>
      do! chan_rcvd_ieof E ;;
      let! c := chan in
      if c_force_drain c && (c_istate c =? CHAN_INPUT_OPEN) then
        do! upd (set_istate CHAN_INPUT_WAIT_DRAIN) ;;
        let! n := input_len in
        if n =? 0 then chan_ibuf_empty E else ret tt
      else ret tt
  end.

Definition channel_input_oclose (pkt : list Z) : M unit :=
  match pkt with
  | _ :: _ => ssh_packet_disconnect
  | [] => chan_rcvd_oclose E
  end.

Definition channel_input_window_adjust (pkt : list Z) : M unit :=
  match pkt_u32 pkt with
  | Ok (adjust, []) =>
      let! c := chan in
      let new_rwin := u32 (c_remote_window c + adjust) in
      if new_rwin <? c_remote_window c then fatal
      else upd (set_remote_window new_rwin)
  | _ => ssh_packet_disconnect
  end.
End IO.
