(* ===== verification/ChanInv.v ===== *)
(** * Channels: what a channel sends and when

    The events of a channel, the invariant that every event preserves, and
    the conformance of the messages sent to RFC 4254: nothing after CLOSE, no
    data after EOF, at most one of each. *)
From S2P Require Import Prelude Sshbuf SshbufGetput CString SshbufMisc ByteQueue Nchan ChanIO.

(** ** Flags *)

Lemma has_lor f m k : has (Z.lor f m) k = has f k || has m k.
Proof.
  unfold has. rewrite Z.land_lor_distr_l.
  destruct (Z.eqb_spec (Z.land f k) 0) as [->|N1]; [by rewrite Z.lor_0_l|].
  destruct (Z.eqb_spec (Z.lor (Z.land f k) (Z.land m k)) 0) as [E|N]; [|done].
  apply Z.lor_eq_0_iff in E as [? _]. done.
Qed.

Lemma has_mask f m k : has f (Z.lor m k) = has f m || has f k.
Proof. unfold has. rewrite !(Z.land_comm f). fold (has (Z.lor m k) f). apply has_lor. Qed.

(** ** The order of messages *)

Inductive phase : Type := PhOpen | PhEof | PhClosed.

(** RFC 4254 section 5.3: after EOF no more data, after CLOSE no more
    messages for the channel. *)
Definition phase_step (p : phase) (m : msg) : option phase :=
  match m, p with
  | MSG_IGNORE _, p => Some p
  | _, PhClosed => None
  | MSG_CHANNEL_DATA _ _, PhOpen | MSG_CHANNEL_EXTENDED_DATA _ _ _, PhOpen => Some PhOpen
  | MSG_CHANNEL_DATA _ _, PhEof | MSG_CHANNEL_EXTENDED_DATA _ _ _, PhEof => None
  | MSG_CHANNEL_EOF _, PhOpen => Some PhEof
  | MSG_CHANNEL_EOF _, PhEof => None
  | MSG_CHANNEL_CLOSE _, _ => Some PhClosed
  | MSG_CHANNEL_WINDOW_ADJUST _ _, p | MSG_CHANNEL_REQUEST _ _ _, p => Some p
  end.

Fixpoint phase_run (p : phase) (l : list msg) : option phase :=
  match l with
  | [] => Some p
  | m :: l => match phase_step p m with Some p => phase_run p l | None => None end
  end.

Lemma phase_run_app p l k q :
  phase_run p l = Some q -> phase_run p (l ++ k) = phase_run q k.
Proof.
  revert p. induction l as [|x l IH]; intros p; simpl; [by intros [= ->]|].
  destruct (phase_step p x); [apply IH | done].
Qed.

(** The phase in which message [n] was sent. *)
Lemma phase_at p l n m q :
  phase_run p l = Some q -> l !! n = Some m ->
  exists r, phase_run p (take n l) = Some r /\ phase_step r m <> None.
Proof.
  revert p n. induction l as [|x l IH]; intros p n; [done|]. simpl.
  destruct (phase_step p x) as [p'|] eqn:Hs; [|done]. intros Hr. destruct n as [|n]; simpl.
  - intros [= ->]. exists p. by rewrite Hs.
  - rewrite Hs. by apply IH.
Qed.

Lemma phase_leaves_open p l q i :
  phase_run p l = Some q -> p <> PhOpen \/ MSG_CHANNEL_EOF i ∈ l -> q <> PhOpen.
Proof.
  revert p. induction l as [|m l IH]; intros p; simpl.
  { intros [= ->] [?|He]; [done|]. by apply not_elem_of_nil in He. }
  destruct (phase_step p m) as [p'|] eqn:Hs; [|done]. intros Hr Ho. apply (IH p' Hr).
  destruct Ho as [Ho|[<-|?]%elem_of_cons]; [left | left | by right].
  - destruct m, p; try done; by injection Hs as <-.
  - destruct p; try done; by injection Hs as <-.
Qed.

Lemma phase_closes p l q i :
  phase_run p l = Some q -> p = PhClosed \/ MSG_CHANNEL_CLOSE i ∈ l -> q = PhClosed.
Proof.
  revert p. induction l as [|m l IH]; intros p; simpl.
  { intros [= ->] [?|He]; [done|]. by apply not_elem_of_nil in He. }
  destruct (phase_step p m) as [p'|] eqn:Hs; [|done]. intros Hr Ho. apply (IH p' Hr).
  destruct Ho as [->|[<-|?]%elem_of_cons]; [left | left | by right].
  - destruct m; try done; by injection Hs as <-.
  - destruct p; try done; by injection Hs as <-.
Qed.

(** ** Events *)

Section Events.
Context {B : Type} `{ByteQueueLaws B}.
Abbreviation M := (CM B).

(** What happens to a channel that has no filters. *)
Inductive event : Type :=
| EvPre                            (* channel_pre_open, before poll *)
| EvPost (a : answers)             (* channel_post_open, after poll *)
| EvReady (mask : Z)               (* poll reports readiness *)
| EvPoll                           (* channel_output_poll *)
| EvData (pkt : list Z) | EvExtData (pkt : list Z) | EvEof (pkt : list Z)
| EvClose (pkt : list Z) | EvAdjust (pkt : list Z)
| EvEow                            (* an eow@openssh.com request *)
| EvReadFailed | EvWriteFailed     (* by the session code *)
| EvForceClose (abandon : bool)
| EvIsDead (do_send : bool)        (* channel_garbage_collect *)
| EvMarkDead.

(** The table of channel_handler runs these functions for an open channel. *)
Definition if_open (m : M unit) : M unit :=
  let! c := chan in if c_type c =? SSH_CHANNEL_OPEN then m else ret tt.

Definition exec (E : env) (ev : event) : M unit :=
  match ev with
  | EvPre => if_open (channel_pre_open E)
  | EvPost a => if_open (channel_post_open E None None a)
  | EvReady mask => upd (set_io_ready mask)
  | EvPoll => do! channel_output_poll_one E ;; ret tt
  | EvData pkt => channel_input_data E pkt
  | EvExtData pkt => channel_input_extended_data E pkt
  | EvEof pkt => channel_input_ieof E pkt
  | EvClose pkt => channel_input_oclose E pkt
  | EvAdjust pkt => channel_input_window_adjust pkt
  | EvEow => chan_rcvd_eow
  | EvReadFailed => chan_read_failed
  | EvWriteFailed => chan_write_failed E
  | EvForceClose abandon => channel_force_close E None abandon
  | EvIsDead do_send => do! chan_is_dead E do_send ;; ret tt
  | EvMarkDead => chan_mark_dead
  end.

(** The bytes of packets and of what is read are bytes. *)
Definition rd_ok (rd : rdres) : Prop := match rd with RdData v => Forall is_byte v | RdErr _ => True end.

Definition event_ok (ev : event) : Prop :=
  match ev with
  | EvPost a => rd_ok (a_rfd a) /\ rd_ok (a_efd_rd a)
  | EvData p | EvExtData p | EvEof p | EvClose p | EvAdjust p => Forall is_byte p
  | _ => True
  end.

(** A run stops when the process ends. *)
Fixpoint run (evs : list (env * event)) (w : world B) : res unit * world B :=
  match evs with
  | [] => (Ok tt, w)
  | (E, ev) :: evs =>
      match exec E ev w with
      | (Ok _, w) => run evs w
      | r => r
      end
  end.

(** ** The invariant *)

Definition state_ok (s : Z) : Prop := s = 0 \/ s = 1 \/ s = 3.

Definition phase_of (flags : Z) : phase :=
  if has flags CHAN_CLOSE_SENT then PhClosed
  else if has flags CHAN_EOF_SENT then PhEof else PhOpen.

(** The window counters are 32-bit integers. *)
Definition widths (c : Channel B) : Prop :=
  Forall (fun v => 0 <= v < 2 ^ 32)
    [c_remote_window c; c_remote_maxpacket c; c_local_window c; c_local_window_exceeded c;
     c_local_window_max c; c_local_consumed c; c_local_maxpacket c].

Lemma widths_iff c : widths c <->
  (0 <= c_remote_window c < 2 ^ 32 /\ 0 <= c_remote_maxpacket c < 2 ^ 32) /\
  (0 <= c_local_window c < 2 ^ 32 /\ 0 <= c_local_window_exceeded c < 2 ^ 32) /\
  (0 <= c_local_window_max c < 2 ^ 32 /\ 0 <= c_local_consumed c < 2 ^ 32) /\
  0 <= c_local_maxpacket c < 2 ^ 32.
Proof.
  unfold widths. rewrite !Forall_cons, Forall_nil. split.
  - intros (? & ? & ? & ? & ? & ? & ? & _). lia.
  - intros ((? & ?) & (? & ?) & (? & ?) & ?). repeat split; lia.
Qed.

Record chan_inv (w : world B) : Prop := {
  ci_widths : widths (w_c w);
  ci_input : bq_inv (c_input (w_c w));
  ci_output : bq_inv (c_output (w_c w));
  ci_extended : bq_inv (c_extended (w_c w));
  ci_istate : state_ok (c_istate (w_c w));
  ci_ostate : state_ok (c_ostate (w_c w));
  ci_close : has (c_flags (w_c w)) CHAN_CLOSE_SENT = true -> c_istate (w_c w) = 3 /\ c_ostate (w_c w) = 3;
  ci_eof : has (c_flags (w_c w)) CHAN_EOF_SENT = true -> c_istate (w_c w) = 3;
  ci_phase : phase_run PhOpen (w_sent w) = Some (phase_of (c_flags (w_c w)));
}.

End Events.

(** The invariant after an update of counters. *)
Ltac keep_widths :=
  match goal with
  | Hw : widths _ |- widths _ =>
      rewrite widths_iff in Hw |- *; destruct Hw as ((? & ?) & (? & ?) & (? & ?) & ?);
      repeat match goal with |- _ /\ 0 <= _ < _ => split | |- (_ /\ _) /\ _ => split end;
      first [assumption | apply Z.mod_pos_bound; lia | simpl; lia
        | simpl; destruct (_ <? _); first [lia | apply Z.mod_pos_bound; lia]]
  end.
Ltac keeps I := destruct I; constructor; try done; try keep_widths.

Section Inv.
Context {B : Type} `{ByteQueueLaws B}.
Abbreviation M := (CM B).

(** ** Outcomes *)

(** A computation ends normally with [P] and the invariant, or ends the
    process with the invariant. *)
Definition outcome {A} (P : A -> world B -> Prop) (r : res A * world B) : Prop :=
  match r with
  | (Ok a, w) => P a w /\ chan_inv w
  | (Err _, w) => chan_inv w
  | (Crash, _) => False
  end.

Lemma outcome_bind {A C} (P : A -> world B -> Prop) (Q : C -> world B -> Prop) (m : M A) (f : A -> M C) w :
  outcome P (m w) -> (forall a w', P a w' -> chan_inv w' -> outcome Q (f a w')) ->
  outcome Q (bind m f w).
Proof.
  unfold bind, outcome. destruct (m w) as [[a|e|] w']; intros Hm Hf; [destruct Hm; by apply Hf | done | done].
Qed.

Lemma outcome_weaken {A} (P Q : A -> world B -> Prop) r :
  outcome P r -> (forall a w, P a w -> chan_inv w -> Q a w) -> outcome Q r.
Proof. unfold outcome. destruct r as [[a|e|] w]; [intros [? ?] HPQ; split; auto | done | done]. Qed.

(** ** The part of a channel that the state machine leaves alone *)

Definition stable (c : Channel B) :=
  (c_type c, c_self c, (c_remote_id c, c_have_remote_id c), (c_isatty c, c_force_drain c),
   (c_input c, c_extended c),
   (c_remote_window c, c_remote_maxpacket c, c_local_window c, c_local_window_exceeded c,
    c_local_window_max c, c_local_consumed c, c_local_maxpacket c),
   (c_extended_usage c, c_ctype c, c_detach_close c, c_datagram c)).

(** From [w] to [w'] the state machine moved to states [i] and [o], set the
    flags to [fl], left [out] in the output buffer and sent [ms]. *)
Record moves (i o fl : Z) (out : B) (ms : list msg) (w w' : world B) : Prop := {
  mv_stable : stable (w_c w') = stable (w_c w);
  mv_istate : c_istate (w_c w') = i;
  mv_ostate : c_ostate (w_c w') = o;
  mv_flags : c_flags (w_c w') = fl;
  mv_output : c_output (w_c w') = out;
  mv_sent : w_sent w' = w_sent w ++ ms;
}.

(** Only descriptors changed. *)
Abbreviation fd_only w w' :=
  (moves (c_istate (w_c w)) (c_ostate (w_c w)) (c_flags (w_c w)) (c_output (w_c w)) [] w w').

Lemma moves_refl w : fd_only w w.
Proof. constructor; try done. by rewrite app_nil_r. Qed.

Lemma moves_trans i o fl out ms i' o' fl' out' ms' w1 w2 w3 :
  moves i o fl out ms w1 w2 -> moves i' o' fl' out' ms' w2 w3 ->
  moves i' o' fl' out' (ms ++ ms') w1 w3.
Proof.
  intros [] []. constructor; try congruence. rewrite mv_sent1, mv_sent0. by rewrite app_assoc.
Qed.

Lemma moves_fd i o fl out ms w1 w2 w3 :
  moves i o fl out ms w1 w2 -> fd_only w2 w3 -> moves i o fl out ms w1 w3.
Proof.
  intros M1 M2. pose proof (moves_trans _ _ _ _ _ _ _ _ _ _ _ _ _ M1 M2) as M3.
  destruct M1 as [_ Ei Eo Ef Eout _]. rewrite Ei, Eo, Ef, Eout, app_nil_r in M3. done.
Qed.

Lemma fd_moves i o fl out ms w1 w2 w3 :
  fd_only w1 w2 -> moves i o fl out ms w2 w3 -> moves i o fl out ms w1 w3.
Proof. intros M1 M2. exact (moves_trans _ _ _ _ _ _ _ _ _ _ _ _ _ M1 M2). Qed.

(** A move from [w] keeps the invariant when the new states, flags and
    messages agree with it. *)
Lemma moves_inv i o fl out ms w w' :
  chan_inv w -> moves i o fl out ms w w' -> bq_inv out -> state_ok i -> state_ok o ->
  (has fl CHAN_CLOSE_SENT = true -> i = 3 /\ o = 3) -> (has fl CHAN_EOF_SENT = true -> i = 3) ->
  phase_run (phase_of (c_flags (w_c w))) ms = Some (phase_of fl) -> chan_inv w'.
Proof.
  intros I [S Ei Eo Ef Eout Es] Ho Hi Hos Hc He Hp. destruct I.
  unfold stable in S. injection S; intros. constructor; rewrite ?Ei, ?Eo, ?Ef, ?Eout; try congruence; try done.
  { unfold widths in *. congruence. }
  by rewrite Es, (phase_run_app _ _ _ _ ci_phase0).
Qed.

(** ** Basic steps *)

Lemma input_len_ok w : chan_inv w -> input_len w = (Ok (zlen (bq_bytes (c_input (w_c w)))), w).
Proof. intros []. unfold input_len, reads. by rewrite bq_len_ok. Qed.
Lemma output_len_ok w : chan_inv w -> output_len w = (Ok (zlen (bq_bytes (c_output (w_c w)))), w).
Proof. intros []. unfold output_len, reads. by rewrite bq_len_ok. Qed.
Lemma extended_len_ok w : chan_inv w -> extended_len w = (Ok (zlen (bq_bytes (c_extended (w_c w)))), w).
Proof. intros []. unfold extended_len, reads. by rewrite bq_len_ok. Qed.

Lemma bind_chan {A} (f : Channel B -> M A) w : bind chan f w = f (w_c w) w.
Proof. done. Qed.

(** Code that only touches descriptors. *)
Definition fd_code (m : M unit) : Prop := forall w, exists w', m w = (Ok tt, w') /\ fd_only w w'.

Lemma fd_code_bind m (f : unit -> M unit) : fd_code m -> fd_code (f tt) -> fd_code (bind m f).
Proof.
  intros Hm Hf w. destruct (Hm w) as (w1 & R1 & M1). destruct (Hf w1) as (w2 & R2 & M2).
  exists w2. rewrite (bind_ok _ _ _ _ _ R1). split; [done | by eapply moves_fd].
Qed.

Lemma fd_code_chan (f : Channel B -> M unit) : (forall c, fd_code (f c)) -> fd_code (bind chan f).
Proof. intros Hf w. rewrite bind_chan. apply Hf. Qed.

Lemma fd_code_ret : fd_code (ret tt).
Proof. intros w. exists w. split; [done | apply moves_refl]. Qed.

Lemma fd_code_if (b : bool) m1 m2 : fd_code m1 -> fd_code m2 -> fd_code (if b then m1 else m2).
Proof. by destruct b. Qed.

Lemma fd_code_sys s : fd_code (sys s).
Proof. intros w. eexists. split; [done|]. constructor; try done. simpl. by rewrite app_nil_r. Qed.

Lemma fd_code_drop (p : Channel B -> bool) s mask n :
  fd_code (upd (fun c => if p c then drop_fd s mask n c else c)).
Proof.
  intros w. eexists. split; [done|].
  destruct s; constructor; simpl; try (by destruct (p (w_c w))); by rewrite app_nil_r.
Qed.

Lemma fd_code_set s v : fd_code (upd (set_fd s v)).
Proof. intros w. eexists. split; [done|]. destruct s; constructor; try done; simpl; by rewrite app_nil_r. Qed.

Lemma channel_close_fd_code fdp : fd_code (channel_close_fd fdp).
Proof.
  apply fd_code_chan. intros c. cbv zeta. apply fd_code_if; [apply fd_code_ret|].
  repeat first [apply fd_code_drop | apply fd_code_set | apply fd_code_sys | apply fd_code_ret
    | apply fd_code_if | apply fd_code_bind].
Qed.

Lemma chan_shutdown_read_code : fd_code chan_shutdown_read.
Proof.
  apply fd_code_chan. intros c.
  repeat first [apply channel_close_fd_code | apply fd_code_sys | apply fd_code_ret | apply fd_code_if].
Qed.

Lemma chan_shutdown_extended_read_code : fd_code chan_shutdown_extended_read.
Proof.
  apply fd_code_chan. intros c. repeat first [apply channel_close_fd_code | apply fd_code_ret | apply fd_code_if].
Qed.

Lemma set_output_moves b w :
  moves (c_istate (w_c w)) (c_ostate (w_c w)) (c_flags (w_c w)) b [] w
    (mk_world (set_output b (w_c w)) (w_sent w) (w_sys w) (w_lastused w)).
Proof. constructor; try done. simpl. by rewrite app_nil_r. Qed.

(** [chan_shutdown_write] throws away the output. *)
Lemma chan_shutdown_write_moves E w :
  bq_inv (c_output (w_c w)) ->
  exists out w', chan_shutdown_write E w = (Ok tt, w') /\ bq_inv out /\ bq_bytes out = [] /\
    moves (c_istate (w_c w)) (c_ostate (w_c w)) (c_flags (w_c w)) out [] w w'.
Proof.
  intros Ho. unfold chan_shutdown_write.
  destruct (bq_reset_ok (e_np E) _ Ho) as (out & R & I & _ & Hb).
  assert (on_output (bq_reset (e_np E)) w
    = (Ok tt, mk_world (set_output out (w_c w)) (w_sent w) (w_sys w) (w_lastused w))) as R1
    by (unfold on_output; by rewrite R).
  rewrite (bind_ok _ _ _ _ _ R1), bind_chan. set (w1 := mk_world _ _ _ _).
  assert (fd_code (if c_type (w_c w1) =? SSH_CHANNEL_LARVAL then ret tt
    else if negb (c_sock (w_c w1) =? -1) then sys (Sys_shutdown_wr (c_sock (w_c w1))) else channel_close_fd WFD)) as F
    by (repeat first [apply channel_close_fd_code | apply fd_code_sys | apply fd_code_ret | apply fd_code_if]).
  destruct (F w1) as (w2 & R2 & M2). exists out, w2. split_and!; try done.
  exact (moves_fd _ _ _ _ _ _ _ _ (set_output_moves out w) M2).
Qed.

(** ** The transitions *)

Lemma state_le s : state_ok s -> (CHAN_INPUT_CLOSED <? s) = false.
Proof. intros [->|[->| ->]]; done. Qed.

Lemma set_istate_moves n w :
  state_ok (c_istate (w_c w)) -> state_ok n ->
  exists w', chan_set_istate n w = (Ok tt, w') /\
    moves n (c_ostate (w_c w)) (c_flags (w_c w)) (c_output (w_c w)) [] w w'.
Proof.
  intros Hs Hn. unfold chan_set_istate. rewrite bind_chan, !state_le by done.
  eexists. split; [done|]. constructor; try done. simpl. by rewrite app_nil_r.
Qed.

Lemma set_ostate_moves n w :
  state_ok (c_ostate (w_c w)) -> state_ok n ->
  exists w', chan_set_ostate n w = (Ok tt, w') /\
    moves (c_istate (w_c w)) n (c_flags (w_c w)) (c_output (w_c w)) [] w w'.
Proof.
  intros Hs Hn. unfold chan_set_ostate. rewrite bind_chan.
  unfold CHAN_OUTPUT_CLOSED. rewrite !state_le by done.
  eexists. split; [done|]. constructor; try done. simpl. by rewrite app_nil_r.
Qed.

Lemma set_flags_moves k w :
  exists w', upd (fun c => set_flags (Z.lor (c_flags c) k) c) w = (Ok tt, w') /\
    moves (c_istate (w_c w)) (c_ostate (w_c w)) (Z.lor (c_flags (w_c w)) k) (c_output (w_c w)) [] w w'.
Proof. eexists. split; [done|]. constructor; try done. simpl. by rewrite app_nil_r. Qed.

(** Flags that are not about what was sent. *)
Lemma phase_of_rcvd fl k :
  k = CHAN_EOF_RCVD \/ k = CHAN_CLOSE_RCVD ->
  has (Z.lor fl k) CHAN_CLOSE_SENT = has fl CHAN_CLOSE_SENT /\
  has (Z.lor fl k) CHAN_EOF_SENT = has fl CHAN_EOF_SENT /\ phase_of (Z.lor fl k) = phase_of fl.
Proof. intros [->| ->]; unfold phase_of; rewrite !has_lor; cbn; by rewrite !orb_false_r. Qed.

Lemma phase_of_eof fl :
  has fl CHAN_CLOSE_SENT = false -> phase_of (Z.lor fl CHAN_EOF_SENT) = PhEof.
Proof. intros Hc. unfold phase_of. rewrite !has_lor, Hc. cbn. by rewrite orb_true_r. Qed.

Lemma phase_of_close fl : phase_of (Z.lor fl CHAN_CLOSE_SENT) = PhClosed.
Proof. unfold phase_of. rewrite has_lor. cbn. by rewrite orb_true_r. Qed.

(** The flags say that nothing final has been sent while a half is open. *)
Lemma no_eof_sent w : chan_inv w -> c_istate (w_c w) <> 3 ->
  has (c_flags (w_c w)) CHAN_EOF_SENT = false /\ has (c_flags (w_c w)) CHAN_CLOSE_SENT = false /\
  phase_of (c_flags (w_c w)) = PhOpen.
Proof.
  intros I Hi. unfold phase_of.
  destruct (has (c_flags (w_c w)) CHAN_EOF_SENT) eqn:He; [by apply (ci_eof w I) in He|].
  destruct (has (c_flags (w_c w)) CHAN_CLOSE_SENT) eqn:Hc; [by apply (ci_close w I) in Hc as [? _]|]. done.
Qed.

Lemma no_close_sent w : chan_inv w -> c_ostate (w_c w) <> 3 ->
  has (c_flags (w_c w)) CHAN_CLOSE_SENT = false.
Proof.
  intros I Ho. destruct (has (c_flags (w_c w)) CHAN_CLOSE_SENT) eqn:Hc; [|done].
  by apply (ci_close w I) in Hc as [_ ?].
Qed.

(** Moves that leave the flags alone and only advance the states. *)
Lemma advance_inv i o out w w' :
  chan_inv w -> moves i o (c_flags (w_c w)) out [] w w' -> bq_inv out -> state_ok i -> state_ok o ->
  (c_istate (w_c w) = 3 -> i = 3) -> (c_ostate (w_c w) = 3 -> o = 3) -> chan_inv w'.
Proof.
  intros I M Ho Hi Hos Hi3 Ho3. eapply moves_inv; try done.
  - intros Hc. apply (ci_close w I) in Hc as [? ?]. auto.
  - intros He. apply (ci_eof w I) in He. auto.
Qed.

Lemma fd_then_istate m n w :
  fd_code m -> chan_inv w -> state_ok n -> (c_istate (w_c w) = 3 -> n = 3) ->
  exists w', (do! m ;; chan_set_istate n) w = (Ok tt, w') /\ chan_inv w' /\
    moves n (c_ostate (w_c w)) (c_flags (w_c w)) (c_output (w_c w)) [] w w'.
Proof.
  intros F I Hn H3. destruct (F w) as (w1 & R1 & M1). rewrite (bind_ok _ _ _ _ _ R1).
  assert (state_ok (c_istate (w_c w1))) as S1 by (rewrite (mv_istate _ _ _ _ _ _ _ M1); apply I).
  destruct (set_istate_moves n w1 S1 Hn) as (w2 & R2 & M2).
  exists w2. pose proof M1 as [_ Ei Eo Ef Eout _]. rewrite Eo, Ef, Eout in M2.
  pose proof (fd_moves _ _ _ _ _ _ _ _ M1 M2) as M3. split_and!; try done.
  eapply advance_inv; try done; apply I.
Qed.

Lemma chan_read_failed_spec w :
  chan_inv w -> exists w', chan_read_failed w = (Ok tt, w') /\ chan_inv w' /\
    moves (if c_istate (w_c w) =? 0 then 1 else c_istate (w_c w)) (c_ostate (w_c w)) (c_flags (w_c w))
      (c_output (w_c w)) [] w w'.
Proof.
  intros I. unfold chan_read_failed, CHAN_INPUT_OPEN. rewrite bind_chan.
  destruct (Z.eqb_spec (c_istate (w_c w)) 0) as [E|N]; [|by exists w; split_and!; [| |apply moves_refl]].
  apply fd_then_istate; [apply chan_shutdown_read_code | done | by right; left | congruence].
Qed.

Lemma chan_rcvd_eow_spec w :
  chan_inv w -> exists w', chan_rcvd_eow w = (Ok tt, w') /\ chan_inv w' /\
    moves (if c_istate (w_c w) =? 0 then 3 else c_istate (w_c w)) (c_ostate (w_c w)) (c_flags (w_c w))
      (c_output (w_c w)) [] w w'.
Proof.
  intros I. unfold chan_rcvd_eow, CHAN_INPUT_OPEN. rewrite bind_chan.
  destruct (Z.eqb_spec (c_istate (w_c w)) 0) as [E|N]; [|by exists w; split_and!; [| |apply moves_refl]].
  apply fd_then_istate; [apply chan_shutdown_read_code | done | by right; right | done].
Qed.

(** What the state machine may do to the output: nothing, or empty it as it
    closes it. *)
Definition kept_or_empty (o : Z) (out : B) (w : world B) : Prop :=
  out = c_output (w_c w) \/ (bq_bytes out = [] /\ o = 3).

Lemma chan_obuf_empty_spec E w :
  chan_inv w -> exists o out w', chan_obuf_empty E w = (Ok tt, w') /\ chan_inv w' /\
    moves (c_istate (w_c w)) o (c_flags (w_c w)) out [] w w' /\ kept_or_empty o out w /\
    o = (if (zlen (bq_bytes (c_output (w_c w))) =? 0) && (c_ostate (w_c w) =? 1) then 3 else c_ostate (w_c w)).
Proof.
  intros I. unfold chan_obuf_empty, CHAN_OUTPUT_WAIT_DRAIN.
  rewrite (bind_ok _ _ _ _ _ (output_len_ok w I)).
  destruct (zlen (bq_bytes (c_output (w_c w))) =? 0) eqn:E0; cbn [negb andb].
  2: { eexists _, _, w. split_and!; [done | done | apply moves_refl | by left | done]. }
  rewrite bind_chan. destruct (Z.eqb_spec (c_ostate (w_c w)) 1) as [E1|N].
  2: { eexists _, _, w. split_and!; [done | done | apply moves_refl | by left | done]. }
  destruct (chan_shutdown_write_moves E w (ci_output w I)) as (out & w1 & R1 & Io & Hb & M1).
  rewrite (bind_ok _ _ _ _ _ R1).
  assert (state_ok (c_ostate (w_c w1))) as S1 by (rewrite (mv_ostate _ _ _ _ _ _ _ M1); apply I).
  destruct (set_ostate_moves CHAN_OUTPUT_CLOSED w1 S1) as (w2 & R2 & M2); [by right; right|].
  pose proof M1 as [_ Ei Eo Ef Eout _]. rewrite Ei, Ef, Eout in M2.
  pose proof (moves_trans _ _ _ _ _ _ _ _ _ _ _ _ _ M1 M2) as M3.
  exists 3, out, w2. split_and!; try done; [|by right].
  eapply advance_inv; try done; [apply I | by right; right].
Qed.

(** Sending EOF, if at all, and closing the input. *)
Lemma eof_then_closed E (b : bool) m w :
  chan_inv w -> c_istate (w_c w) = 1 -> fd_code m ->
  outcome (fun _ w' => moves 3 (c_ostate (w_c w)) (if b then Z.lor (c_flags (w_c w)) CHAN_EOF_SENT else c_flags (w_c w))
      (c_output (w_c w)) (if b then [MSG_CHANNEL_EOF (c_remote_id (w_c w))] else []) w w')
    ((do! (if b then chan_send_eof2 E else ret tt) ;; do! m ;; chan_set_istate CHAN_INPUT_CLOSED) w).
Proof.
  intros I H1 F. destruct (no_eof_sent w I ltac:(lia)) as (He & Hc & Hp). destruct b.
  - unfold chan_send_eof2. unfold bind at 1. rewrite bind_chan, H1. change (1 =? CHAN_INPUT_WAIT_DRAIN) with true.
    cbv iota. destruct (c_have_remote_id (w_c w)); cbn [negb]; [|done].
    unfold bind at 1. unfold send at 1. destruct (e_pkt_ok E); [|done].
    unfold upd at 1. cbn [w_c w_sent w_sys w_lastused].
    match goal with |- outcome _ (_ ?x) => set (w1 := x) end.
    destruct (F w1) as (w2 & R2 & M2). rewrite (bind_ok _ _ _ _ _ R2).
    assert (state_ok (c_istate (w_c w2))) as S2 by (rewrite (mv_istate _ _ _ _ _ _ _ M2); apply I).
    destruct (set_istate_moves CHAN_INPUT_CLOSED w2 S2) as (w3 & R3 & M3); [by right; right|]. rewrite R3.
    pose proof M2 as [_ Ei Eo Ef Eout _]. rewrite Eo, Ef, Eout in M3.
    pose proof (fd_moves _ _ _ _ _ _ _ _ M2 M3) as [S4 I4 O4 F4 Out4 Sent4].
    assert (moves 3 (c_ostate (w_c w)) (Z.lor (c_flags (w_c w)) CHAN_EOF_SENT) (c_output (w_c w))
      [MSG_CHANNEL_EOF (c_remote_id (w_c w))] w w3) as M4.
    { constructor; try done. rewrite Sent4. simpl. by rewrite app_nil_r. }
    split; [done|]. eapply moves_inv; try done; [apply I | by right; right | apply I | |].
    + rewrite has_lor, Hc. done.
    + rewrite Hp, phase_of_eof by done. done.
  - unfold bind at 1. unfold ret at 1.
    destruct (fd_then_istate m CHAN_INPUT_CLOSED w F I) as (w' & R & I' & M'); [by right; right | done |].
    rewrite R. done.
Qed.

Lemma chan_ibuf_empty_spec E w :
  chan_inv w ->
  outcome (fun _ w' => exists i fl ms, moves i (c_ostate (w_c w)) fl (c_output (w_c w)) ms w w' /\
      (i, fl, ms) =
        if (zlen (bq_bytes (c_input (w_c w))) =? 0) && (c_istate (w_c w) =? 1) then
          if has (c_flags (w_c w)) CHAN_LOCAL then (3, c_flags (w_c w), [])
          else (3, Z.lor (c_flags (w_c w)) CHAN_EOF_SENT, [MSG_CHANNEL_EOF (c_remote_id (w_c w))])
        else (c_istate (w_c w), c_flags (w_c w), []))
    (chan_ibuf_empty E w).
Proof.
  intros I. unfold chan_ibuf_empty, CHAN_INPUT_WAIT_DRAIN. rewrite (bind_ok _ _ _ _ _ (input_len_ok w I)).
  destruct (zlen (bq_bytes (c_input (w_c w))) =? 0); cbn [negb andb].
  2: { split; [|done]. eexists _, _, _. split; [apply moves_refl | done]. }
  rewrite bind_chan. destruct (Z.eqb_spec (c_istate (w_c w)) 1) as [E1|N].
  2: { split; [|done]. eexists _, _, _. split; [apply moves_refl | done]. }
  destruct (no_eof_sent w I ltac:(lia)) as (_ & Hc & _). rewrite has_mask, Hc. cbn [orb].
  eapply outcome_weaken.
  - apply (eof_then_closed E (negb (has (c_flags (w_c w)) CHAN_LOCAL)) (ret tt) w I E1 fd_code_ret).
  - intros [] w' M _. destruct (has (c_flags (w_c w)) CHAN_LOCAL); cbn [negb] in M; eexists _, _, _; eauto.
Qed.

Lemma chan_write_failed_spec E w :
  chan_inv w ->
  outcome (fun _ w' => exists o out ms, moves (c_istate (w_c w)) o (c_flags (w_c w)) out ms w w' /\
      kept_or_empty o out w /\ o = 3 /\
      (ms = [] \/ ms = [MSG_CHANNEL_REQUEST (c_remote_id (w_c w)) (str "eow@openssh.com") 0]))
    (chan_write_failed E w).
Proof.
  intros I. unfold chan_write_failed, CHAN_OUTPUT_OPEN, CHAN_OUTPUT_WAIT_DRAIN. rewrite bind_chan.
  destruct (Z.eqb_spec (c_ostate (w_c w)) 3) as [E3|N3].
  { rewrite E3. cbn. split; [|done]. exists 3, (c_output (w_c w)), []. split_and!; [|by left|done|by left].
    pose proof (moves_refl w) as M. by rewrite E3 in M. }
  assert ((c_ostate (w_c w) =? 0) || (c_ostate (w_c w) =? 1) = true) as ->.
  { destruct (ci_ostate w I) as [->|[->|?]]; done. }
  pose proof (no_close_sent w I N3) as Hc.
  destruct (chan_shutdown_write_moves E w (ci_output w I)) as (out & w1 & R1 & Io & Hb & M1).
  rewrite (bind_ok _ _ _ _ _ R1).
  assert (chan_inv w1) as I1 by (eapply advance_inv; try done; apply I).
  apply (outcome_bind (fun _ w' => exists ms, moves (c_istate (w_c w)) (c_ostate (w_c w)) (c_flags (w_c w)) out ms w w' /\
     (ms = [] \/ ms = [MSG_CHANNEL_REQUEST (c_remote_id (w_c w)) (str "eow@openssh.com") 0]))).
  - destruct (streq _ _); [|split; [eauto | done]]. unfold chan_send_eow2. rewrite bind_chan.
    destruct (_ =? CHAN_OUTPUT_CLOSED); [split; [eauto | done]|].
    destruct (negb (has _ _)); [split; [eauto | done]|].
    destruct (negb (c_have_remote_id _)); [done|]. unfold send. destruct (e_pkt_ok E); [|done].
    assert (c_remote_id (w_c w1) = c_remote_id (w_c w)) as Er
      by (pose proof (mv_stable _ _ _ _ _ _ _ M1) as S; unfold stable in S; injection S; done).
    match goal with |- outcome _ (_, ?x) => assert (moves (c_istate (w_c w)) (c_ostate (w_c w)) (c_flags (w_c w)) out
      [MSG_CHANNEL_REQUEST (c_remote_id (w_c w)) (str "eow@openssh.com") 0] w x) as M2 end.
    { destruct M1 as [? ? ? ? ? Es]. constructor; try done. simpl. by rewrite Es, Er, app_nil_r. }
    split; [eauto|]. apply (moves_inv _ _ _ _ _ _ _ I M2); [done | apply I | apply I | apply I | apply I |].
    unfold phase_of. rewrite Hc. by destruct (has (c_flags (w_c w)) CHAN_EOF_SENT).
  - intros [] w2 (ms & M2 & Hms) I2.
    destruct (set_ostate_moves CHAN_OUTPUT_CLOSED w2 (ci_ostate w2 I2)) as (w3 & R3 & M3); [by right; right|].
    rewrite R3. pose proof M2 as [_ Ei Eo Ef Eout _].
    assert (chan_inv w3) as I3.
    { rewrite Eout in M3. eapply advance_inv; try done; [apply I2 | by right; right]. }
    split; [|done]. rewrite Ei, Ef, Eout in M3.
    pose proof (moves_trans _ _ _ _ _ _ _ _ _ _ _ _ _ M2 M3) as M4. rewrite app_nil_r in M4.
    exists 3, out, ms. split_and!; [done | by right | done | done].
Qed.

(** The input stays, or closes and says so unless the peer has been told. *)
Lemma rcvd_flag_inv k w w' :
  k = CHAN_EOF_RCVD \/ k = CHAN_CLOSE_RCVD -> chan_inv w ->
  moves (c_istate (w_c w)) (c_ostate (w_c w)) (Z.lor (c_flags (w_c w)) k) (c_output (w_c w)) [] w w' -> chan_inv w'.
Proof.
  intros Hk I M. destruct (phase_of_rcvd (c_flags (w_c w)) k Hk) as (H1 & H2 & H3).
  eapply moves_inv; try done; try apply I; [rewrite H1; apply I | rewrite H2; apply I | by rewrite H3].
Qed.

Lemma efd_output_active_ok w :
  chan_inv w -> exists a, CHANNEL_EFD_OUTPUT_ACTIVE w = (Ok a, w) /\
    (c_extended_usage (w_c w) <> CHAN_EXTENDED_WRITE \/ c_efd (w_c w) = -1 -> a = false) /\
    (has (c_flags (w_c w)) (Z.lor CHAN_EOF_RCVD CHAN_CLOSE_RCVD) = true ->
     bq_bytes (c_extended (w_c w)) = [] -> a = false).
Proof.
  intros I. unfold CHANNEL_EFD_OUTPUT_ACTIVE. rewrite bind_chan.
  destruct (Z.eqb_spec (c_extended_usage (w_c w)) CHAN_EXTENDED_WRITE); cbn [andb]; [|by exists false].
  destruct (Z.eqb_spec (c_efd (w_c w)) (-1)); cbn [negb]; [by exists false|].
  destruct (has (c_flags (w_c w)) _); cbn [negb].
  - rewrite (bind_ok _ _ _ _ _ (extended_len_ok w I)). eexists. split; [done|].
    split; [by intros [?|?] | by intros _ ->].
  - exists true. split; [done|]. split; [by intros [?|?] | done].
Qed.

Lemma open_to_drain w :
  chan_inv w -> exists o w', (if c_ostate (w_c w) =? CHAN_OUTPUT_OPEN then chan_set_ostate CHAN_OUTPUT_WAIT_DRAIN else ret tt) w
      = (Ok tt, w') /\ chan_inv w' /\
    moves (c_istate (w_c w)) o (c_flags (w_c w)) (c_output (w_c w)) [] w w' /\ 1 <= o /\ c_ostate (w_c w) <= o.
Proof.
  intros I. unfold CHAN_OUTPUT_OPEN. destruct (Z.eqb_spec (c_ostate (w_c w)) 0) as [E0|N0].
  - destruct (set_ostate_moves CHAN_OUTPUT_WAIT_DRAIN w (ci_ostate w I)) as (w2 & R2 & M2); [by right; left|].
    exists 1, w2. split_and!; try done; [|lia].
    eapply advance_inv; try done; [apply I | apply I | by right; left | by rewrite E0].
  - eexists _, w. split_and!; [done | done | apply moves_refl | |done].
    destruct (ci_ostate w I) as [?|[Es|Es]]; [done|lia|lia].
Qed.

Lemma chan_rcvd_ieof_spec E w :
  chan_inv w -> exists o out w', chan_rcvd_ieof E w = (Ok tt, w') /\ chan_inv w' /\
    moves (c_istate (w_c w)) o (Z.lor (c_flags (w_c w)) CHAN_EOF_RCVD) out [] w w' /\
    kept_or_empty o out w /\ 1 <= o /\ c_ostate (w_c w) <= o.
Proof.
  intros I. unfold chan_rcvd_ieof. destruct (set_flags_moves CHAN_EOF_RCVD w) as (w1 & R1 & M1).
  rewrite (bind_ok _ _ _ _ _ R1), bind_chan.
  pose proof (rcvd_flag_inv _ w w1 (or_introl eq_refl) I M1) as I1.
  pose proof M1 as [_ Ei1 Eo1 Ef1 Eout1 _].
  destruct (open_to_drain w1 I1) as (o & w2 & R2 & I2 & M2 & Ho & Hle).
  rewrite Ei1, Ef1, Eout1 in M2. rewrite Eo1 in Hle.
  pose proof (moves_trans _ _ _ _ _ _ _ _ _ _ _ _ _ M1 M2) as M12. clear M2. rename M12 into M2. cbn [app] in M2.
  rewrite (bind_ok _ _ _ _ _ R2), bind_chan. pose proof M2 as [_ Ei2 Eo2 Ef2 Eout2 _].
  assert (exists o out w', (Ok tt, w2) = (Ok tt, w') /\ chan_inv w' /\
    moves (c_istate (w_c w)) o (Z.lor (c_flags (w_c w)) CHAN_EOF_RCVD) out [] w w' /\
    kept_or_empty o out w /\ 1 <= o /\ c_ostate (w_c w) <= o) as Hdone
    by (exists o, (c_output (w_c w)), w2; split_and!; try done; by left).
  destruct (_ =? CHAN_OUTPUT_WAIT_DRAIN); [|done].
  rewrite (bind_ok _ _ _ _ _ (output_len_ok w2 I2)). destruct (_ =? 0); [|done].
  destruct (efd_output_active_ok w2 I2) as (a & Ra & _). rewrite (bind_ok _ _ _ _ _ Ra).
  destruct a; cbn [negb]; [done|].
  destruct (chan_obuf_empty_spec E w2 I2) as (o3 & out3 & w3 & R3 & I3 & M3 & K3 & E3).
  rewrite Ei2, Ef2 in M3. pose proof (moves_trans _ _ _ _ _ _ _ _ _ _ _ _ _ M2 M3).
  exists o3, out3, w3. rewrite Eo2 in E3. split_and!; try done.
  - destruct K3 as [K3|K3]; [left; congruence | by right].
  - rewrite E3. destruct (_ && _); lia.
  - rewrite E3. destruct (_ && _) eqn:C; [|done]. zbool. lia.
Qed.

(** Messages that carry no data and no window. *)
Definition control (m : msg) : Prop :=
  match m with
  | MSG_CHANNEL_EOF _ | MSG_CHANNEL_CLOSE _ | MSG_CHANNEL_REQUEST _ _ _ => True
  | _ => False
  end.

Lemma oclose_flag_spec w :
  chan_inv w -> exists fl w', (if negb (has (c_flags (w_c w)) CHAN_LOCAL)
      then upd (fun c => set_flags (Z.lor (c_flags c) CHAN_CLOSE_RCVD) c) else ret tt) w = (Ok tt, w') /\
    chan_inv w' /\ moves (c_istate (w_c w)) (c_ostate (w_c w)) fl (c_output (w_c w)) [] w w' /\
    fl = (if has (c_flags (w_c w)) CHAN_LOCAL then c_flags (w_c w) else Z.lor (c_flags (w_c w)) CHAN_CLOSE_RCVD).
Proof.
  intros I. destruct (has (c_flags (w_c w)) CHAN_LOCAL); cbn [negb].
  - eexists _, w. split_and!; [done | done | apply moves_refl | done].
  - destruct (set_flags_moves CHAN_CLOSE_RCVD w) as (w1 & R1 & M1). eexists _, w1. split_and!; try done.
    eapply rcvd_flag_inv; [right; done | exact I | done].
Qed.

Lemma chan_rcvd_oclose_spec E w :
  chan_inv w ->
  outcome (fun _ w' => exists o fl ms, moves 3 o fl (c_output (w_c w)) ms w w' /\ 1 <= o /\ c_ostate (w_c w) <= o /\
      Forall control ms /\
      (has (c_flags (w_c w)) CHAN_LOCAL = false -> has fl CHAN_CLOSE_RCVD = true) /\
      has fl CHAN_LOCAL = has (c_flags (w_c w)) CHAN_LOCAL /\
      has fl CHAN_CLOSE_SENT = has (c_flags (w_c w)) CHAN_CLOSE_SENT)
    (chan_rcvd_oclose E w).
Proof.
  intros I. unfold chan_rcvd_oclose. rewrite bind_chan.
  destruct (oclose_flag_spec w I) as (fl & w1 & R1 & I1 & M1 & Hfl). rewrite (bind_ok _ _ _ _ _ R1).
  assert ((has (c_flags (w_c w)) CHAN_LOCAL = false -> has fl CHAN_CLOSE_RCVD = true) /\
      has fl CHAN_LOCAL = has (c_flags (w_c w)) CHAN_LOCAL /\
      has fl CHAN_CLOSE_SENT = has (c_flags (w_c w)) CHAN_CLOSE_SENT) as (F1 & F2 & F3).
  { subst fl. destruct (has (c_flags (w_c w)) CHAN_LOCAL) eqn:L; [done|]. rewrite !has_lor, L. cbn.
    rewrite orb_true_r, orb_false_r. done. }
  clear Hfl. pose proof M1 as [_ Ei1 Eo1 Ef1 Eout1 _].
  destruct (c_type (w_c w) =? SSH_CHANNEL_LARVAL).
  { destruct (set_ostate_moves CHAN_OUTPUT_CLOSED w1 (ci_ostate w1 I1)) as (w2 & R2 & M2); [by right; right|].
    rewrite (bind_ok _ _ _ _ _ R2).
    assert (chan_inv w2) as I2 by (eapply advance_inv; try done; [apply I1 | apply I1 | by right; right]).
    destruct (fd_then_istate (ret tt) CHAN_INPUT_CLOSED w2 fd_code_ret I2) as (w3 & R3 & I3 & M3); [by right; right | done|].
    change ((do! ret tt ;; chan_set_istate CHAN_INPUT_CLOSED) w2) with (chan_set_istate CHAN_INPUT_CLOSED w2) in R3.
    rewrite R3. split; [|done]. pose proof M2 as [_ _ Eo2 Ef2 Eout2 _]. rewrite Eo2, Ef2, Eout2 in M3.
    rewrite Ef1, Eout1 in *.
    pose proof (moves_trans _ _ _ _ _ _ _ _ _ _ _ _ _ M1 (moves_trans _ _ _ _ _ _ _ _ _ _ _ _ _ M2 M3)) as M4.
    exists 3, fl, []. split_and!; try done. destruct (ci_ostate w I) as [->|[->| ->]]; lia. }
  rewrite <- Eo1. destruct (open_to_drain w1 I1) as (o & w2 & R2 & I2 & M2 & Ho1 & Ho2).
  rewrite (bind_ok _ _ _ _ _ R2), bind_chan. rewrite Ei1, Ef1, Eout1 in M2. rewrite Eo1 in *.
  pose proof (moves_trans _ _ _ _ _ _ _ _ _ _ _ _ _ M1 M2) as M12. cbn [app] in M12. clear M1 M2.
  pose proof M12 as [S2 Ei2 Eo2 Ef2 Eout2 _]. unfold CHAN_INPUT_OPEN, CHAN_INPUT_WAIT_DRAIN.
  destruct (Z.eqb_spec (c_istate (w_c w2)) 0) as [E0|N0].
  { destruct (chan_shutdown_read_code w2) as (w3 & R3 & M3). rewrite (bind_ok _ _ _ _ _ R3).
    assert (chan_inv w3) as I3 by (eapply advance_inv; try done; apply I2).
    destruct (fd_then_istate _ CHAN_INPUT_CLOSED w3 chan_shutdown_extended_read_code I3) as (w4 & R4 & I4 & M4); [by right; right|done|].
    rewrite R4. split; [|done]. pose proof (moves_fd _ _ _ _ _ _ _ _ M12 M3) as M13.
    pose proof M13 as [_ _ Eo3 Ef3 Eout3 _]. rewrite Eo3, Ef3, Eout3 in M4.
    pose proof (moves_trans _ _ _ _ _ _ _ _ _ _ _ _ _ M13 M4) as M14.
    exists o, fl, []. split_and!; done || constructor. }
  destruct (Z.eqb_spec (c_istate (w_c w2)) 1) as [E1|N1].
  - eapply outcome_weaken; [apply (eof_then_closed E _ _ w2 I2 E1 chan_shutdown_extended_read_code)|].
    intros [] w3 M3 _. rewrite Eo2, Ef2, Eout2 in M3.
    pose proof (moves_trans _ _ _ _ _ _ _ _ _ _ _ _ _ M12 M3) as M13. eexists _, _, _. split; [exact M13|].
    split_and!; [done | done | | | |]; destruct (negb (has fl CHAN_LOCAL)); cbn [app];
      try done; try (by repeat constructor); rewrite ?has_lor; cbn; rewrite ?orb_false_r; try done.
  - split; [|done]. assert (c_istate (w_c w2) = 3) as E3 by (destruct (ci_istate w2 I2) as [?|[?|?]]; done).
    rewrite Ei2 in E3. rewrite E3 in M12. exists o, fl, []. split_and!; done || constructor.
Qed.

(** What makes a channel dead, and what [chan_is_dead] has sent when it says
    so. *)
Definition dead_reason (c : Channel B) : Prop :=
  c_type c = SSH_CHANNEL_ZOMBIE \/
  (c_istate c = 3 /\ c_ostate c = 3 /\
   (has (c_flags c) CHAN_LOCAL = true \/ has (c_flags c) CHAN_CLOSE_RCVD = true)).

Definition dead_told (c : Channel B) (fl : Z) : Prop :=
  c_type c = SSH_CHANNEL_ZOMBIE \/ has (c_flags c) CHAN_LOCAL = true \/ has fl CHAN_CLOSE_SENT = true.

Definition dead_post (do_send : bool) (w : world B) (d : bool) (w' : world B) : Prop :=
  exists fl ms, moves (c_istate (w_c w)) (c_ostate (w_c w)) fl (c_output (w_c w)) ms w w' /\
    Forall control ms /\ (fl = c_flags (w_c w) \/ fl = Z.lor (c_flags (w_c w)) CHAN_CLOSE_SENT) /\
    (d = true -> dead_reason (w_c w)) /\ (d = true -> do_send = true -> dead_told (w_c w) fl).

Lemma dead_post_same b w d :
  chan_inv w -> (d = true -> dead_reason (w_c w)) ->
  (d = true -> b = true -> dead_told (w_c w) (c_flags (w_c w))) -> outcome (dead_post b w) (Ok d, w).
Proof. intros I H1 H2. split; [|done]. eexists _, []. split_and!; [apply moves_refl | done | by left | done | done]. Qed.

Lemma chan_is_dead_spec E b w : chan_inv w -> outcome (dead_post b w) (chan_is_dead E b w).
Proof.
  intros I. unfold chan_is_dead. rewrite bind_chan.
  pose proof (fun d => dead_post_same b w d I) as K. unfold dead_reason, dead_told in K.
  destruct (Z.eqb_spec (c_type (w_c w)) SSH_CHANNEL_ZOMBIE); [by apply K; auto|].
  destruct (Z.eqb_spec (c_istate (w_c w)) CHAN_INPUT_CLOSED) as [E3|]; cbn [negb orb]; [|by apply K].
  destruct (Z.eqb_spec (c_ostate (w_c w)) CHAN_OUTPUT_CLOSED) as [O3|]; cbn [negb]; [|by apply K].
  assert (exists a, (if has (e_compat E) SSH_BUG_EXTEOF && (c_extended_usage (w_c w) =? CHAN_EXTENDED_WRITE)
          && negb (c_efd (w_c w) =? -1) then let! n := extended_len in ret (0 <? n) else ret false) w = (Ok a, w)) as (a & Ra).
  { destruct (_ && _); [|by exists false]. rewrite (bind_ok _ _ _ _ _ (extended_len_ok w I)). by eexists. }
  rewrite (bind_ok _ _ _ _ _ Ra). destruct a; [by apply K|].
  destruct (has (c_flags (w_c w)) CHAN_LOCAL) eqn:L; [by apply K; auto|].
  destruct (has (c_flags (w_c w)) CHAN_CLOSE_SENT) eqn:Cs; cbn [negb].
  { rewrite bind_chan, Cs. apply K; cbn [andb]; auto. }
  destruct b.
  2: { destruct (has (c_flags (w_c w)) CHAN_CLOSE_RCVD) eqn:Cr; [by apply K; auto|].
       rewrite bind_chan, Cs. by apply K. }
  unfold chan_send_close2. cbv zeta.
  unfold bind at 1. rewrite bind_chan, E3, O3, Cs. rewrite !Z.eqb_refl. cbn [negb orb].
  destruct (c_have_remote_id (w_c w)); cbn [negb]; [|done].
  unfold bind at 1. unfold send. destruct (e_pkt_ok E); [|done].
  unfold upd. cbn [w_c w_sent w_sys w_lastused]. rewrite bind_chan. cbn [w_c].
  match goal with |- outcome _ (ret _ ?x) => assert (moves (c_istate (w_c w)) (c_ostate (w_c w))
    (Z.lor (c_flags (w_c w)) CHAN_CLOSE_SENT) (c_output (w_c w)) [MSG_CHANNEL_CLOSE (c_remote_id (w_c w))] w x) as M by done end.
  split.
  - eexists _, _. split; [exact M|]. split; [by repeat constructor|]. split; [by right|]. split.
    + intros Hd. right. split_and!; [done | done |]. right. apply andb_true_iff in Hd as [_ Hd]. cbn in Hd.
      rewrite has_lor in Hd. cbn in Hd. by rewrite orb_false_r in Hd.
    + intros _ _. right. right. rewrite has_lor. cbn. apply orb_true_r.
  - apply (moves_inv _ _ _ _ _ _ _ I M); try apply I; [done | done |].
    rewrite phase_of_close. unfold phase_of. rewrite Cs. by destruct (has (c_flags (w_c w)) CHAN_EOF_SENT).
Qed.
End Inv.
