(* ===== verification/ChanFlow.v ===== *)
(** * Channels: windows

    How every event of a channel moves bytes and window: the sender side
    ([remote_window]), the receiver side ([local_window], [local_consumed] and
    the bytes held for the descriptors). *)
From S2P Require Import Prelude Sshbuf SshbufGetput CString SshbufMisc ByteQueue Nchan ChanIO ChanInv.

(** ** Messages *)

(** The window a message uses up, and the window it gives. *)
Definition msg_data (m : msg) : Z :=
  match m with
  | MSG_CHANNEL_DATA _ d | MSG_CHANNEL_EXTENDED_DATA _ _ d => zlen d
  | _ => 0
  end.
Definition msg_adj (m : msg) : Z :=
  match m with MSG_CHANNEL_WINDOW_ADJUST _ n => n | _ => 0 end.

Fixpoint total (f : msg -> Z) (l : list msg) : Z :=
  match l with [] => 0 | m :: l => f m + total f l end.

Lemma total_app f l k : total f (l ++ k) = total f l + total f k.
Proof. induction l as [|m l IH]; simpl; [done | rewrite IH; lia]. Qed.

Lemma total_nonneg f l : Forall (fun m => 0 <= f m) l -> 0 <= total f l.
Proof. induction 1; simpl; lia. Qed.

Lemma control_total ms : Forall control ms -> total msg_data ms = 0 /\ total msg_adj ms = 0.
Proof.
  induction 1 as [|m ms Hm _ [IH1 IH2]]; [done|]. simpl. destruct m; try done; simpl; lia.
Qed.

Section Flow.
Context {B : Type} `{ByteQueueLaws B}.
Abbreviation M := (CM B).

(** Only descriptors changed. *)
Abbreviation fd_only w w' :=
  (moves (c_istate (w_c w)) (c_ostate (w_c w)) (c_flags (w_c w)) (c_output (w_c w)) [] w w').

Definition blen (b : B) : Z := zlen (bq_bytes b).

(** The bytes received that the peer has no credit for yet. *)
Definition held (c : Channel B) : Z :=
  c_local_consumed c + blen (c_output c) +
  (if c_extended_usage c =? CHAN_EXTENDED_WRITE then blen (c_extended c) else 0).

(** The parameters of the channel. *)
Definition consts (c : Channel B) :=
  (c_remote_maxpacket c, c_local_maxpacket c, c_local_window_max c, c_remote_id c,
   c_have_remote_id c, c_datagram c, c_extended_usage c).

(** A message the channel may send. *)
Definition msg_ok (maxpacket : Z) (m : msg) : Prop :=
  match m with
  | MSG_CHANNEL_DATA _ d => Forall is_byte d /\ zlen d <= maxpacket
  | MSG_CHANNEL_EXTENDED_DATA _ t d => Forall is_byte d /\ zlen d <= maxpacket /\ t = SSH2_EXTENDED_DATA_STDERR
  | MSG_CHANNEL_WINDOW_ADJUST _ n => 0 <= n < 2 ^ 32
  | _ => True
  end.

(** The windows of a stream channel whose peer has kept to them. *)
Record win_ok (c : Channel B) : Prop := {
  wo_stream : c_datagram c = false;
  wo_remote : 0 <= c_remote_window c < 2 ^ 32;
  wo_local : 0 <= c_local_window c;
  wo_consumed : 0 <= c_local_consumed c;
  wo_bound : c_local_window c + held c <= c_local_window_max c < 2 ^ 32;
}.

(** From [w] to [w'] the channel sent messages within its window, and gave
    its peer credit only for bytes it has let go; [eof] is whether an EOF was
    received. *)
Record flows (eof : bool) (w w' : world B) : Prop := {
  fw_consts : consts (w_c w') = consts (w_c w);
  fw_mono : c_ostate (w_c w) = 3 -> c_ostate (w_c w') = 3;
  fw_eof : has (c_flags (w_c w')) CHAN_EOF_RCVD = has (c_flags (w_c w)) CHAN_EOF_RCVD || eof;
  fw_sent : exists ms, w_sent w' = w_sent w ++ ms /\ Forall (msg_ok (c_remote_maxpacket (w_c w))) ms /\
    c_remote_window (w_c w') = c_remote_window (w_c w) - total msg_data ms /\
    c_local_window (w_c w') = c_local_window (w_c w) + total msg_adj ms /\
    held (w_c w') + total msg_adj ms <= held (w_c w) /\
    (c_ostate (w_c w') <> 3 -> held (w_c w') + total msg_adj ms = held (w_c w));
  fw_remote : 0 <= c_remote_window (w_c w');
  fw_consumed : 0 <= c_local_consumed (w_c w');
}.

Lemma msg_data_nonneg k ms : Forall (msg_ok k) ms -> 0 <= total msg_data ms.
Proof.
  intros F. apply total_nonneg. eapply Forall_impl; [exact F|].
  intros []; simpl; intros; try lia; apply zlen_nonneg.
Qed.

Lemma msg_adj_nonneg k ms : Forall (msg_ok k) ms -> 0 <= total msg_adj ms.
Proof. intros F. apply total_nonneg. eapply Forall_impl; [exact F|]. intros []; simpl; intros; lia. Qed.

Lemma consts_eq c c' : consts c' = consts c ->
  c_remote_maxpacket c' = c_remote_maxpacket c /\ c_local_maxpacket c' = c_local_maxpacket c /\
  c_local_window_max c' = c_local_window_max c /\ c_remote_id c' = c_remote_id c /\
  c_have_remote_id c' = c_have_remote_id c /\ c_datagram c' = c_datagram c /\
  c_extended_usage c' = c_extended_usage c.
Proof. unfold consts. intros E. injection E; intros. by split_and!. Qed.

Lemma flows_refl w : win_ok (w_c w) -> flows false w w.
Proof.
  intros []. constructor; try done; [by rewrite orb_false_r | | lia].
  exists []. rewrite app_nil_r. simpl. split_and!; try done; lia.
Qed.

Lemma flows_win eof w w' : win_ok (w_c w) -> flows eof w w' -> win_ok (w_c w').
Proof.
  intros [] [C Mo Ef (ms & Es & Fm & Er & El & Eh & _) ? ?].
  pose proof (consts_eq _ _ C) as (_ & _ & Em & _ & _ & Ed & _).
  pose proof (msg_data_nonneg _ _ Fm). pose proof (msg_adj_nonneg _ _ Fm).
  constructor; [congruence | lia | lia | lia |]. rewrite Em. lia.
Qed.

Lemma flows_trans e1 e2 w1 w2 w3 : flows e1 w1 w2 -> flows e2 w2 w3 -> flows (e1 || e2) w1 w3.
Proof.
  intros [C1 M1 F1 (ms1 & Es1 & Fm1 & Er1 & El1 & Eh1 & Ex1) R1 K1] [C2 M2 F2 (ms2 & Es2 & Fm2 & Er2 & El2 & Eh2 & Ex2) R2 K2].
  pose proof (consts_eq _ _ C1) as (Emp & _).
  constructor; [congruence | auto | | | done | done].
  { rewrite F2, F1. by rewrite orb_assoc. }
  exists (ms1 ++ ms2). rewrite !total_app. split_and!; try lia.
  - by rewrite Es2, Es1, app_assoc.
  - apply Forall_app_2; [done | by rewrite <- Emp].
Qed.

(** The state machine only sends control messages; it gives up the output
    only when it closes it. *)
Lemma moves_flows i o fl out ms w w' eof :
  win_ok (w_c w) -> moves i o fl out ms w w' -> Forall control ms ->
  kept_or_empty o out w -> (c_ostate (w_c w) = 3 -> o = 3) ->
  has fl CHAN_EOF_RCVD = has (c_flags (w_c w)) CHAN_EOF_RCVD || eof -> flows eof w w'.
Proof.
  intros W [S Ei Eo Ef Eout Es] Hc Hout Ho3 Heof. destruct W.
  unfold stable in S. injection S; intros.
  assert (held (w_c w') <= held (w_c w) /\ (o <> 3 -> held (w_c w') = held (w_c w))) as [Hh Hx].
  { unfold held. repeat match goal with E : _ (w_c w') = _ |- _ => rewrite E end.
    destruct Hout as [->|[Hb ->]]; [lia|]. unfold blen at 1. rewrite Hb, zlen_nil.
    pose proof (zlen_nonneg (bq_bytes (c_output (w_c w)))). unfold blen at 2. split; [lia | done]. }
  destruct (control_total _ Hc) as [Hd Ha].
  constructor; [unfold consts; congruence | rewrite Eo; auto | congruence | | lia | lia].
  exists ms. rewrite Hd, Ha. split_and!; try done; try lia.
  eapply Forall_impl; [done|]. by intros [].
Qed.

(** ** Steps *)

(** A computation from [w] keeps the invariant and, when the windows are in
    order, moves them as [flows] says. *)
Definition steps {A} (eof : bool) (w : world B) (r : res A * world B) : Prop :=
  outcome (fun _ w' => win_ok (w_c w) -> flows eof w w') r.

Lemma steps_ret {A} (a : A) w : chan_inv w -> steps false w (Ok a, w).
Proof. intros I. split; [apply flows_refl | done]. Qed.

Lemma steps_fail {A} e eof w w' : chan_inv w' -> steps eof w (@Err A e, w').
Proof. done. Qed.

Lemma steps_bind {A C} e1 e2 (m : M A) (f : A -> M C) w :
  steps e1 w (m w) ->
  (forall a w', m w = (Ok a, w') -> chan_inv w' -> (win_ok (w_c w) -> flows e1 w w') -> steps e2 w' (f a w')) ->
  steps (e1 || e2) w (bind m f w).
Proof.
  unfold steps, bind. destruct (m w) as [[a|e|] w1]; simpl; intros Hm Hf; [|done|done].
  destruct Hm as [F1 I1]. eapply outcome_weaken; [by apply Hf|].
  intros c w2 F2 _ W. pose proof (F1 W) as F. eapply flows_trans; [exact F|]. apply F2. by eapply flows_win.
Qed.

Lemma steps_bind0 {A C} (m : M A) (f : A -> M C) w :
  steps false w (m w) ->
  (forall a w', m w = (Ok a, w') -> chan_inv w' -> (win_ok (w_c w) -> flows false w w') -> steps false w' (f a w')) ->
  steps false w (bind m f w).
Proof. apply (steps_bind false false). Qed.

(** A move of the state machine, or of descriptors alone. *)
Lemma steps_moves {A} (a : A) i o fl out ms w w' :
  chan_inv w' -> moves i o fl out ms w w' -> Forall control ms ->
  kept_or_empty o out w -> (c_ostate (w_c w) = 3 -> o = 3) ->
  has fl CHAN_EOF_RCVD = has (c_flags (w_c w)) CHAN_EOF_RCVD -> steps false w (Ok a, w').
Proof.
  intros I Mv Hc Ho H3 Hf. split; [|done]. intros W. eapply moves_flows; try done. by rewrite orb_false_r.
Qed.

Lemma fd_only_inv w w' : chan_inv w -> fd_only w w' -> chan_inv w'.
Proof. intros I Mv. eapply advance_inv; try done; apply I. Qed.

Lemma steps_fd {A} (a : A) w w' : chan_inv w -> fd_only w w' -> steps false w (Ok a, w').
Proof.
  intros I Mv. eapply steps_moves; try done; [by eapply fd_only_inv | by left].
Qed.

Lemma steps_fd_code m w : fd_code m -> chan_inv w -> steps false w (m w).
Proof. intros F I. destruct (F w) as (w' & -> & Mv). by apply steps_fd. Qed.

Lemma steps_ret' {A C} (m : M A) (c : C) w : steps false w (m w) -> steps false w (bind m (fun _ => ret c) w).
Proof. intros Hm. apply steps_bind0; [done|]. intros a w' _ I _. by apply steps_ret. Qed.

Lemma steps_used_time E w : chan_inv w -> steps false w (channel_set_used_time E w).
Proof. intros I. apply steps_fd; [done|]. constructor; try done. simpl. by rewrite app_nil_r. Qed.

Lemma steps_io_want (f : Channel B -> Z) w :
  chan_inv w -> steps false w (upd (fun c => set_io_want (f c) c) w).
Proof. intros I. apply steps_fd; [done|]. constructor; try done. simpl. by rewrite app_nil_r. Qed.

Lemma steps_mark_dead w : chan_inv w -> steps false w (chan_mark_dead w).
Proof.
  intros I. split; [|by destruct I; constructor]. intros []. constructor; try done; [by rewrite orb_false_r | | simpl; lia].
  exists []. rewrite app_nil_r. simpl. unfold held in *. simpl. split_and!; try done; lia.
Qed.

Lemma steps_read_failed w : chan_inv w -> steps false w (chan_read_failed w).
Proof.
  intros I. destruct (chan_read_failed_spec w I) as (w' & -> & I' & Mv).
  eapply steps_moves; try done. by left.
Qed.

Lemma steps_rcvd_eow w : chan_inv w -> steps false w (chan_rcvd_eow w).
Proof.
  intros I. destruct (chan_rcvd_eow_spec w I) as (w' & -> & I' & Mv).
  eapply steps_moves; try done. by left.
Qed.

Lemma steps_write_failed E w : chan_inv w -> steps false w (chan_write_failed E w).
Proof.
  intros I. eapply outcome_weaken; [by apply chan_write_failed_spec|].
  intros [] w' (o & out & ms & Mv & K & -> & Hms) _ W. eapply moves_flows; try done.
  - destruct Hms as [->| ->]; by repeat constructor.
  - by rewrite orb_false_r.
Qed.

Lemma steps_obuf_empty E w : chan_inv w -> steps false w (chan_obuf_empty E w).
Proof.
  intros I. destruct (chan_obuf_empty_spec E w I) as (o & out & w' & -> & I' & Mv & K & Eo).
  eapply steps_moves; try done. rewrite Eo. by destruct (_ && _).
Qed.

Lemma steps_ibuf_empty E w : chan_inv w -> steps false w (chan_ibuf_empty E w).
Proof.
  intros I. eapply outcome_weaken; [by apply chan_ibuf_empty_spec|].
  intros [] w' (i & fl & ms & Mv & Eq) _ W.
  assert (Forall control ms /\ has fl CHAN_EOF_RCVD = has (c_flags (w_c w)) CHAN_EOF_RCVD) as [Hc Hf].
  { destruct (_ && _); [|by injection Eq as -> -> ->].
    destruct (has (c_flags (w_c w)) CHAN_LOCAL); injection Eq as -> -> ->; [done|].
    rewrite has_lor. cbn. rewrite orb_false_r. split; [by repeat constructor | done]. }
  eapply moves_flows; try done; [by left | by rewrite orb_false_r].
Qed.

Lemma steps_is_dead E b w : chan_inv w -> steps false w (chan_is_dead E b w).
Proof.
  intros I. eapply outcome_weaken; [by apply chan_is_dead_spec|].
  intros d w' (fl & ms & Mv & Hc & Hfl & _) _ W. eapply moves_flows; try done; [by left|].
  destruct Hfl as [->| ->]; [by rewrite orb_false_r|]. rewrite has_lor. cbn. by rewrite !orb_false_r.
Qed.

(** ** Before and after poll *)

Lemma steps_pre_open E w : chan_inv w -> steps false w (channel_pre_open E w).
Proof.
  intros I. unfold channel_pre_open.
  apply steps_bind0; [by apply steps_io_want|]. intros _ w1 _ I1 _. rewrite bind_chan. cbv zeta.
  apply steps_bind0.
  { destruct (_ && _); [|by apply steps_ret]. rewrite (bind_ok _ _ _ _ _ (input_len_ok w1 I1)).
    destruct (_ <? _); [|by apply steps_ret].
    rewrite bq_check_reserve_ok; [|apply I1 | unfold CHAN_RBUF, SIZE_MAX; lia].
    destruct (_ <? _); [by apply steps_ret | by apply steps_io_want]. }
  intros _ w2 _ I2 _. apply steps_bind0.
  { destruct (_ || _); [|by apply steps_ret]. rewrite (bind_ok _ _ _ _ _ (output_len_ok w2 I2)).
    destruct (_ <? _); [by apply steps_io_want|]. destruct (_ =? _); [|by apply steps_ret].
    destruct (efd_output_active_ok w2 I2) as (a & Ra & _). rewrite (bind_ok _ _ _ _ _ Ra).
    destruct a; [by apply steps_ret | by apply steps_obuf_empty]. }
  intros _ w3 _ I3 _. rewrite bind_chan. destruct (_ && _); [|by apply steps_ret].
  rewrite (bind_ok _ _ _ _ _ (extended_len_ok w3 I3)).
  destruct (_ && _); [by apply steps_io_want|]. destruct (_ && _); [by apply steps_io_want | by apply steps_ret].
Qed.

Lemma steps_rfail w : chan_inv w -> steps false w (rfail w).
Proof.
  intros I. unfold rfail. rewrite bind_chan. apply steps_ret'.
  destruct (negb _); [by apply steps_mark_dead | by apply steps_read_failed].
Qed.

Lemma steps_write_fail E w : chan_inv w -> steps false w (write_fail E w).
Proof.
  intros I. unfold write_fail. rewrite bind_chan. apply steps_ret'.
  destruct (negb _); [by apply steps_mark_dead | by apply steps_write_failed].
Qed.

(** What is read waits in the input buffer, which no window counts. *)
Lemma steps_set_input {A} (a : A) b w :
  chan_inv w -> bq_inv b ->
  steps false w (Ok a, mk_world (set_input b (w_c w)) (w_sent w) (w_sys w) (w_lastused w)).
Proof.
  intros I Ib. split; [|by destruct I; constructor]. intros []. constructor; try done; [by rewrite orb_false_r | | simpl; lia].
  exists []. rewrite app_nil_r. simpl. unfold held in *. simpl. split_and!; try done; lia.
Qed.

Lemma steps_datagram {A} e (r : res A * world B) w :
  c_datagram (w_c w) = true -> outcome (fun _ _ => True) r -> steps e w r.
Proof. intros D Hr. eapply outcome_weaken; [exact Hr|]. intros a w' _ _ []. congruence. Qed.

Lemma steps_outcome {A} e w (r : res A * world B) : steps e w r -> outcome (fun _ _ => True) r.
Proof. intros Hr. eapply outcome_weaken; [exact Hr | done]. Qed.

(** [if ((r = op on the input) != 0) fatal] for an operation that keeps the
    buffer well formed. *)
Lemma steps_on_input {A} (m : ST B A) w :
  chan_inv w -> fst (m (c_input (w_c w))) <> Crash -> bq_inv (snd (m (c_input (w_c w)))) ->
  steps false w (or_fatal (on_input m) w).
Proof.
  intros I Hc Ib. unfold or_fatal, on_input.
  destruct (m (c_input (w_c w))) as [[a|e|] b]; cbn [fst snd] in *; [by apply steps_set_input | | done].
  by destruct I; constructor.
Qed.

Lemma put_outcome_inv np v b r :
  put_outcome bq_inv bq_bytes bq_max np v b r -> fst r <> Crash /\ bq_inv (snd r).
Proof. intros (I & _ & Hr). split; [by destruct (fst r) | done]. Qed.

Lemma string_outcome_inv b r :
  string_outcome bq_inv bq_bytes bq_max b r -> fst r <> Crash /\ bq_inv (snd r).
Proof. intros (I & _ & Hr). split; [by destruct (fst r) | done]. Qed.

Lemma rd_clip_bytes n rd v : rd_ok rd -> rd_clip n rd = RdData v -> Forall is_byte v /\ zlen v <= Z.max 0 n.
Proof.
  destruct rd as [d|e]; simpl; [|done]. intros Hd [= <-]. split; [by apply Forall_ztake|].
  rewrite zlen_take. pose proof (zlen_nonneg d). lia.
Qed.

Lemma steps_read_input E maxlen rd e w :
  chan_inv w -> rd_ok rd -> 0 <= maxlen <= SIZE_MAX -> steps false w (read_input E maxlen rd e w).
Proof.
  intros I Hrd Hm. unfold read_input.
  pose proof (bq_read_ok (e_np E) maxlen (rd_clip maxlen rd) (c_input (w_c w)) e (ci_input w I) Hm) as R.
  destruct (bq_read _ _ _ _) as [[n|r|] [b e']].
  - destruct R as (v & _ & _ & _ & Ib & _).
    { intros v Ev. apply rd_clip_bytes in Ev as [? ?]; [split; [done | lia] | done]. }
    by apply steps_set_input.
  - destruct R as (Ib & _).
    { intros v Ev. apply rd_clip_bytes in Ev as [? ?]; [split; [done | lia] | done]. }
    by apply steps_set_input.
  - destruct R. intros v Ev. apply rd_clip_bytes in Ev as [? ?]; [split; [done | lia] | done].
Qed.

Lemma steps_handle_rfd E rd e w :
  chan_inv w -> rd_ok rd -> steps false w (channel_handle_rfd E None rd e w).
Proof.
  intros I Hrd. unfold channel_handle_rfd. rewrite bind_chan. cbv zeta. destruct (_ && _); [by apply steps_ret|].
  unfold bind at 1, reads at 1. rewrite bq_avail_ok by apply I.
  pose proof (bq_bounded _ (ci_input w I)) as Hb. pose proof (zlen_nonneg (bq_bytes (c_input (w_c w)))). sb_consts.
  set (avail := bq_max _ - _). destruct (Z.eqb_spec avail 0); [by apply steps_ret|].
  destruct (c_datagram (w_c w)) eqn:D.
  - destruct (rd_clip CHAN_RBUF rd) as [[|x v]|er] eqn:Ev; [by apply steps_rfail| |].
    2: { destruct (rd_again _ _); [by apply steps_ret | by apply steps_rfail]. }
    apply rd_clip_bytes in Ev as [Hv Hl]; [|done]. apply steps_bind0; [by apply steps_used_time|].
    intros _ w1 _ I1 _. apply steps_ret'.
    assert (zlen (x :: v) <= SSHBUF_SIZE_MAX - 4) as Hl' by (unfold CHAN_RBUF in Hl; sb_consts; lia).
    destruct (put_outcome_inv _ _ _ _ (bq_put_string_ok (e_np E) (x :: v) _ (ci_input w1 I1) Hv Hl')).
    by apply steps_on_input.
  - apply steps_bind0.
    { destruct (_ =? SSH_CHANNEL_OPEN); [rewrite input_len_ok by done|]; by apply steps_ret. }
    intros have w1 Ew I1 _. destruct (_ && _) eqn:C1; [by apply steps_ret|]. cbv zeta.
    match goal with |- steps _ _ (bind (read_input E ?ml _ _) _ _) => assert (0 <= ml <= SIZE_MAX) as Hml end.
    { unfold CHANNEL_MAX_READ, CHAN_SES_PACKET_DEFAULT. unfold avail in *. sb_consts.
      destruct (c_type (w_c w) =? SSH_CHANNEL_OPEN); cbn [andb] in *;
        repeat match goal with |- context [if ?a <? ?b then _ else _] => destruct (Z.ltb_spec a b) end;
        zbool; lia. }
    apply steps_bind0; [by apply steps_read_input|]. intros [nr|er] w2 _ I2 _.
    + apply steps_ret'. destruct (nr =? 0); [by apply steps_ret | by apply steps_used_time].
    + destruct (rd_again _ _); [by apply steps_ret | by apply steps_rfail].
Qed.

Lemma steps_ignore E n w : chan_inv w -> steps false w (send E (MSG_IGNORE n) w).
Proof.
  intros I. unfold send. destruct (e_pkt_ok E); [|done].
  assert (moves (c_istate (w_c w)) (c_ostate (w_c w)) (c_flags (w_c w)) (c_output (w_c w)) [MSG_IGNORE n] w
    (mk_world (w_c w) (w_sent w ++ [MSG_IGNORE n]) (w_sys w) (w_lastused w))) as Mv by done.
  split; [|by apply (moves_inv _ _ _ _ _ _ _ I Mv); try apply I; destruct (phase_of _)].
  intros []. constructor; try done; [by rewrite orb_false_r | | simpl; lia].
  exists [MSG_IGNORE n]. simpl. split_and!; try done; try lia. by repeat constructor.
Qed.

(** Bytes taken from the output are credited. *)
Lemma steps_consume_output n w :
  chan_inv w -> 0 <= n <= blen (c_output (w_c w)) ->
  steps false w
    ((do! or_fatal (on_output (bq_consume n)) ;;
      let! len := output_len in
      do! upd (fun c => set_local_consumed (u32 (c_local_consumed c + u64 (blen (c_output (w_c w)) - len))) c) ;;
      ret 1) w).
Proof.
  intros I Hn. destruct (bq_consume_ok n _ (ci_output w I) Hn) as (b & R & Ib & _ & Eb).
  unfold bind at 1, or_fatal, on_output. rewrite R.
  set (w1 := mk_world _ _ _ _). assert (chan_inv w1) as I1 by (destruct I; by constructor).
  rewrite (bind_ok _ _ _ _ _ (output_len_ok w1 I1)). unfold bind, upd, ret. cbn [w_c w_sent w_sys w_lastused].
  pose proof (bq_bounded _ (ci_output w I)). pose proof (zlen_nonneg (bq_bytes (c_output (w_c w)))).
  assert (zlen (bq_bytes b) = blen (c_output (w_c w)) - n) as Hb by (rewrite Eb; unfold blen in *; zl).
  change (zlen (bq_bytes (c_output (w_c w1)))) with (zlen (bq_bytes b)). rewrite Hb.
  replace (blen (c_output (w_c w)) - (blen (c_output (w_c w)) - n)) with n by lia.
  unfold blen in *. sb_consts. rewrite u64_small by lia.
  split; [|keeps I]. intros [Hs Hr Hl Hc Hbd]. unfold held, blen in Hbd.
  pose proof (zlen_nonneg (bq_bytes (c_extended (w_c w)))).
  assert (u32 (c_local_consumed (w_c w) + n) = c_local_consumed (w_c w) + n) as Hu
    by (apply u32_small; destruct (_ =? CHAN_EXTENDED_WRITE); lia).
  constructor; try done; [by rewrite orb_false_r | | simpl; lia | simpl; lia].
  exists []. rewrite app_nil_r. unfold held. simpl. unfold blen. rewrite Hb, Hu. split_and!; try done; lia.
Qed.

Lemma steps_set_output {A} (a : A) b w :
  c_datagram (w_c w) = true -> chan_inv w -> bq_inv b ->
  steps false w (Ok a, mk_world (set_output b (w_c w)) (w_sent w) (w_sys w) (w_lastused w)).
Proof. intros D I Ib. apply steps_datagram; [done|]. split; [done|]. by destruct I; constructor. Qed.

(** Writing to the descriptor: a stream. *)
Lemma steps_wfd_stream E buf wr (tty : bool) w :
  chan_inv w -> buf = bq_bytes (c_output (w_c w)) -> 0 < wr_len (wr_clip (zlen buf) wr) ->
  steps false w
    ((do! channel_set_used_time E ;;
      do! (if tty then send E (MSG_IGNORE (4 + wr_len (wr_clip (zlen buf) wr))) else ret tt) ;;
      do! or_fatal (on_output (bq_consume (wr_len (wr_clip (zlen buf) wr)))) ;;
      let! len := output_len in
      do! upd (fun c => set_local_consumed (u32 (c_local_consumed c + u64 (blen (c_output (w_c w)) - len))) c) ;;
      ret 1) w).
Proof.
  intros I Eb Hw. set (n := wr_len _) in *.
  assert (n <= zlen buf) as Hn by (unfold n; destruct wr; simpl in *; lia).
  apply steps_bind0; [by apply steps_used_time|]. intros [] w1 E1 I1 _. injection E1 as <-.
  apply steps_bind0; [destruct tty; [by apply steps_ignore | by apply steps_ret]|].
  intros [] w2 E2 I2 _.
  assert (c_output (w_c w2) = c_output (w_c w)) as Eo.
  { destruct tty; [|by injection E2 as <-]. unfold send in E2. destruct (e_pkt_ok E); [|done]. by injection E2 as <-. }
  rewrite <- Eo. apply steps_consume_output; [done|]. unfold blen. rewrite Eo, <- Eb. lia.
Qed.

Lemma steps_handle_wfd E wr echo w : chan_inv w -> steps false w (channel_handle_wfd E None wr echo w).
Proof.
  intros I. unfold channel_handle_wfd. rewrite bind_chan. destruct (negb _); [by apply steps_ret|].
  rewrite (bind_ok _ _ _ _ _ (output_len_ok w I)). fold (blen (c_output (w_c w))).
  destruct (Z.eqb_spec (blen (c_output (w_c w))) 0) as [|N0]; [by apply steps_ret|].
  pose proof (zlen_nonneg (bq_bytes (c_output (w_c w)))).
  destruct (c_datagram (w_c w)) eqn:D.
  - apply steps_datagram; [done|].
    eapply (outcome_bind (fun (o : option (list Z)) w' => c_datagram (w_c w') = true)).
    { unfold bind, or_fatal, on_output.
      destruct (string_outcome_inv _ _ (bq_get_string_ok (e_np E) _ (ci_output w I))) as [Hc Ib].
      destruct (bq_get_string _ _) as [[d|e|] b]; cbn [fst snd] in *; [| |done].
      - split; [done|]. by destruct I; constructor.
      - by destruct I; constructor. }
    intros [buf|] w1 D1 I1; cbv zeta; [|by eapply steps_outcome, steps_write_fail].
    destruct (wr_again _); [done|]. destruct (_ <=? 0); [by eapply steps_outcome, steps_write_fail|].
    rewrite (bind_ok _ _ _ _ _ (output_len_ok w1 I1)). split; [done|]. keeps I1.
  - unfold bind at 1. unfold bind at 1, reads at 1. rewrite bq_peek_ok; [|apply I | unfold blen; lia].
    unfold ret at 1. cbv zeta.
    assert (ztake (blen (c_output (w_c w))) (bq_bytes (c_output (w_c w))) = bq_bytes (c_output (w_c w))) as ->
      by (apply ztake_all; unfold blen; lia).
    destruct (wr_again _); [by apply steps_ret|].
    destruct (Z.leb_spec (wr_len (wr_clip (zlen (bq_bytes (c_output (w_c w)))) wr)) 0); [by apply steps_write_fail|].
    by apply steps_wfd_stream.
Qed.

Lemma steps_close_fd s w : chan_inv w -> steps false w (channel_close_fd s w).
Proof. intros I. apply steps_fd_code; [apply channel_close_fd_code | done]. Qed.

Lemma steps_consume_extended n w :
  chan_inv w -> c_extended_usage (w_c w) = CHAN_EXTENDED_WRITE -> 0 <= n <= blen (c_extended (w_c w)) ->
  steps false w
    ((do! or_fatal (on_extended (bq_consume n)) ;;
      upd (fun c => set_local_consumed (u32 (c_local_consumed c + n)) c)) w).
Proof.
  intros I Hu Hn. destruct (bq_consume_ok n _ (ci_extended w I) Hn) as (b & R & Ib & _ & Eb).
  unfold bind at 1, or_fatal, on_extended. rewrite R. unfold upd. cbn [w_c w_sent w_sys w_lastused].
  split; [|keeps I]. intros [Hs Hr Hl Hc Hbd]. unfold held in Hbd. rewrite Hu in Hbd.
  change (CHAN_EXTENDED_WRITE =? CHAN_EXTENDED_WRITE) with true in Hbd. unfold blen in *.
  pose proof (zlen_nonneg (bq_bytes (c_output (w_c w)))).
  assert (zlen (bq_bytes b) = zlen (bq_bytes (c_extended (w_c w))) - n) as Hb by (rewrite Eb; zl).
  assert (u32 (c_local_consumed (w_c w) + n) = c_local_consumed (w_c w) + n) as Hu' by (apply u32_small; lia).
  constructor; try done; [by rewrite orb_false_r | | simpl; lia | simpl; lia].
  exists []. rewrite app_nil_r. unfold held. simpl. rewrite Hu. simpl. unfold blen. rewrite Hb, Hu'.
  split_and!; try done; lia.
Qed.

Lemma steps_handle_efd_write E wr w :
  chan_inv w -> c_extended_usage (w_c w) = CHAN_EXTENDED_WRITE ->
  steps false w (channel_handle_efd_write E wr w).
Proof.
  intros I Hu. unfold channel_handle_efd_write. rewrite bind_chan. destruct (negb _); [by apply steps_ret|].
  rewrite (bind_ok _ _ _ _ _ (extended_len_ok w I)). destruct (_ =? 0); [by apply steps_ret|]. cbv zeta.
  destruct (wr_again _); [by apply steps_ret|].
  destruct (Z.leb_spec (wr_len (wr_clip (zlen (bq_bytes (c_extended (w_c w)))) wr)) 0) as [|Hp].
  { apply steps_ret'. by apply steps_close_fd. }
  assert (wr_len (wr_clip (zlen (bq_bytes (c_extended (w_c w)))) wr) <= blen (c_extended (w_c w))) as Hn
    by (unfold blen; destruct wr; simpl in *; lia).
  set (n := wr_len _) in *. clearbody n.
  pose proof (steps_consume_extended n w I Hu ltac:(lia)) as Hs.
  match goal with |- steps _ _ (bind ?m (fun _ => bind ?m2 ?f) ?x) =>
    replace (bind m (fun _ => bind m2 f) x) with (bind (bind m (fun _ => m2)) f x)
    by (unfold bind; destruct (m x) as [[?|?|] ?]; done) end.
  apply steps_bind0; [exact Hs|]. intros _ w1 _ I1 _. apply steps_ret'. by apply steps_used_time.
Qed.

Lemma steps_put_extended np v w :
  chan_inv w -> Forall is_byte v -> zlen v <= SIZE_MAX -> c_extended_usage (w_c w) <> CHAN_EXTENDED_WRITE ->
  steps false w (or_fatal (on_extended (bq_put np v)) w).
Proof.
  intros I Hv Hl Hu. unfold or_fatal, on_extended.
  destruct (put_outcome_inv _ _ _ _ (bq_put_ok np v _ (ci_extended w I) Hv Hl)) as [Hc Ib].
  destruct (bq_put np v (c_extended (w_c w))) as [[[]|e|] b]; cbn [fst snd] in *; [| |done].
  - split; [|destruct I; by constructor]. intros [Hs Hr Hlw Hcs Hbd]. unfold held in Hbd.
    constructor; try done; [by rewrite orb_false_r | | simpl; lia]. exists []. rewrite app_nil_r. unfold held. simpl.
    apply Z.eqb_neq in Hu. rewrite Hu in *. split_and!; try done; lia.
  - destruct I; by constructor.
Qed.

Lemma steps_handle_efd_read E rd w :
  chan_inv w -> rd_ok rd -> c_extended_usage (w_c w) <> CHAN_EXTENDED_WRITE ->
  steps false w (channel_handle_efd_read E rd w).
Proof.
  intros I Hrd Hu. unfold channel_handle_efd_read. rewrite bind_chan. cbv zeta.
  destruct (_ && _); [by apply steps_ret|].
  destruct (rd_clip CHAN_RBUF rd) as [[|x v]|er] eqn:Ev.
  - apply steps_ret'. by apply steps_close_fd.
  - apply rd_clip_bytes in Ev as [Hv Hl]; [|done]. unfold CHAN_RBUF in Hl.
    apply steps_bind0; [by apply steps_used_time|]. intros [] w1 E1 I1 _. injection E1 as <-. apply steps_ret'.
    destruct (_ =? CHAN_EXTENDED_IGNORE); [by apply steps_ret|].
    apply steps_put_extended; [done | done | sb_consts; lia | done].
  - destruct (rd_again _ _); [by apply steps_ret|]. apply steps_ret'. by apply steps_close_fd.
Qed.

Lemma steps_handle_efd E rd wr w : chan_inv w -> rd_ok rd -> steps false w (channel_handle_efd E rd wr w).
Proof.
  intros I Hrd. unfold channel_handle_efd. rewrite bind_chan. destruct (_ =? -1); [by apply steps_ret|].
  destruct (Z.eqb_spec (c_extended_usage (w_c w)) CHAN_EXTENDED_WRITE); [by apply steps_handle_efd_write|].
  destruct (_ || _); [by apply steps_handle_efd_read | by apply steps_ret].
Qed.

Lemma steps_check_window E w : chan_inv w -> steps false w (channel_check_window E w).
Proof.
  intros I. unfold channel_check_window. rewrite bind_chan. destruct (_ && _) eqn:C; [|by apply steps_ret]. zbool.
  destruct (negb _); [by apply steps_fail|]. unfold bind at 1. unfold send. destruct (e_pkt_ok E); [|done].
  unfold bind, upd, ret. cbn [w_c w_sent w_sys w_lastused].
  assert (has (c_flags (w_c w)) CHAN_CLOSE_SENT = false) as Hcs.
  { match goal with H : has _ (Z.lor _ _) = false |- _ => rewrite has_mask in H; by apply orb_false_iff in H as [? _] end. }
  split.
  - intros [Hs Hr Hl Hc Hbd]. set (n := c_local_consumed (w_c w)) in *. unfold held in Hbd.
    pose proof (zlen_nonneg (bq_bytes (c_output (w_c w)))). pose proof (zlen_nonneg (bq_bytes (c_extended (w_c w)))).
    assert (c_local_window (w_c w) + n < 2 ^ 32) as Hlt by (unfold blen, n in *; destruct (_ =? CHAN_EXTENDED_WRITE); lia).
    assert (u32 (c_local_window (w_c w) + n) = c_local_window (w_c w) + n) as Hu by (apply u32_small; lia).
    constructor; try done; [by rewrite orb_false_r | | simpl; lia].
    exists [MSG_CHANNEL_WINDOW_ADJUST (c_remote_id (w_c w)) n]. simpl. unfold held. simpl. rewrite Hu. fold n.
    split_and!; try done; try lia. apply Forall_cons_2; [simpl; lia | done].
  - keeps I. simpl. rewrite (phase_run_app _ _ _ _ ci_phase). unfold phase_of. rewrite Hcs.
    by destruct (has (c_flags (w_c w)) CHAN_EOF_SENT).
Qed.

Lemma steps_post_open E a w :
  chan_inv w -> rd_ok (a_rfd a) -> rd_ok (a_efd_rd a) -> steps false w (channel_post_open E None None a w).
Proof.
  intros I H1 H2. unfold channel_post_open.
  apply steps_bind0; [by apply steps_handle_rfd|]. intros _ w1 _ I1 _.
  apply steps_bind0; [by apply steps_handle_wfd|]. intros _ w2 _ I2 _.
  apply steps_bind0; [by apply steps_handle_efd|]. intros _ w3 _ I3 _.
  apply steps_bind0; [by apply steps_check_window|]. intros _ w4 _ I4 _. by apply steps_ret.
Qed.

(** ** Sending *)

(** Sending [data] from a buffer: the window pays for it. *)
Lemma flows_send_data w w' m (data : list Z) :
  win_ok (w_c w) -> consts (w_c w') = consts (w_c w) -> c_ostate (w_c w') = c_ostate (w_c w) ->
  c_flags (w_c w') = c_flags (w_c w) -> w_sent w' = w_sent w ++ [m] ->
  msg_data m = zlen data -> msg_adj m = 0 -> msg_ok (c_remote_maxpacket (w_c w)) m ->
  zlen data <= c_remote_window (w_c w) ->
  c_remote_window (w_c w') = u32 (c_remote_window (w_c w) - zlen data) ->
  c_local_window (w_c w') = c_local_window (w_c w) -> c_local_consumed (w_c w') = c_local_consumed (w_c w) ->
  held (w_c w') = held (w_c w) -> flows false w w'.
Proof.
  intros [] Ec Eo Ef Es Ed Ea Hm Hl Er El Ek Eh. pose proof (zlen_nonneg data).
  rewrite u32_small in Er by lia.
  constructor; [done | congruence | by rewrite Ef, orb_false_r | | lia | lia].
  exists [m]. simpl. rewrite Ed, Ea. split_and!; try done; try lia. by apply Forall_cons_2.
Qed.

(** The length the code settles on. *)
Lemma poll_len (win pack len : Z) :
  0 <= win -> 0 <= pack -> 0 < len ->
  let l := if win <? len then win else len in
  let l := if pack <? l then pack else l in 0 <= l <= len /\ l <= win /\ l <= pack.
Proof.
  intros Hw Hp Hl. cbv zeta.
  destruct (Z.ltb_spec win len); cbv iota;
    [destruct (Z.ltb_spec pack win) | destruct (Z.ltb_spec pack len)]; lia.
Qed.

Lemma steps_send_input E len w :
  chan_inv w -> c_istate (w_c w) <> 3 -> 0 <= len <= blen (c_input (w_c w)) ->
  len <= c_remote_window (w_c w) -> len <= c_remote_maxpacket (w_c w) ->
  outcome (fun _ w' => (win_ok (w_c w) -> flows false w w') /\ c_flags (w_c w') = c_flags (w_c w))
    ((let! data := reads (fun w => bq_peek len (c_input (w_c w))) in
      do! send E (MSG_CHANNEL_DATA (c_remote_id (w_c w)) data) ;;
      do! or_fatal (on_input (bq_consume len)) ;;
      do! upd (fun c => set_remote_window (u32 (c_remote_window c - len)) c) ;;
      ret 1) w).
Proof.
  intros I Hi Hl Hw Hp. unfold bind at 1, reads. rewrite bq_peek_ok by (apply I || done).
  set (data := ztake len _).
  assert (zlen data = len) as Hd by (unfold data, blen in *; zl).
  assert (Forall is_byte data) as Hb by (unfold data; apply Forall_ztake, bq_is_bytes, I).
  unfold bind at 1. unfold send. destruct (e_pkt_ok E); [|done].
  unfold bind at 1, or_fatal, on_input. cbn [w_c w_sent w_sys w_lastused].
  destruct (bq_consume_ok len _ (ci_input w I) Hl) as (b & R & Ib & _ & _). rewrite R.
  unfold bind, upd, ret. cbn [w_c w_sent w_sys w_lastused].
  destruct (no_eof_sent w I Hi) as (_ & _ & Hph). split; [split; [|done]|].
  - intros W. apply (flows_send_data w _ (MSG_CHANNEL_DATA (c_remote_id (w_c w)) data) data); try done; [|lia|by rewrite Hd].
    simpl. split; [done | lia].
  - keeps I. simpl. rewrite (phase_run_app _ _ _ _ ci_phase), Hph. done.
Qed.

Lemma steps_send_extended E len w :
  chan_inv w -> phase_of (c_flags (w_c w)) = PhOpen -> c_extended_usage (w_c w) = CHAN_EXTENDED_READ ->
  0 <= len <= blen (c_extended (w_c w)) ->
  len <= c_remote_window (w_c w) -> len <= c_remote_maxpacket (w_c w) ->
  steps false w
    ((let! data := reads (fun w => bq_peek len (c_extended (w_c w))) in
      do! send E (MSG_CHANNEL_EXTENDED_DATA (c_remote_id (w_c w)) SSH2_EXTENDED_DATA_STDERR data) ;;
      do! or_fatal (on_extended (bq_consume len)) ;;
      do! upd (fun c => set_remote_window (u32 (c_remote_window c - len)) c) ;;
      ret 1) w).
Proof.
  intros I Hph Hu Hl Hw Hp. unfold bind at 1, reads. rewrite bq_peek_ok by (apply I || done).
  set (data := ztake len _).
  assert (zlen data = len) as Hd by (unfold data, blen in *; zl).
  assert (Forall is_byte data) as Hb by (unfold data; apply Forall_ztake, bq_is_bytes, I).
  unfold bind at 1. unfold send. destruct (e_pkt_ok E); [|done].
  unfold bind at 1, or_fatal, on_extended. cbn [w_c w_sent w_sys w_lastused].
  destruct (bq_consume_ok len _ (ci_extended w I) Hl) as (b & R & Ib & _ & _). rewrite R.
  unfold bind, upd, ret. cbn [w_c w_sent w_sys w_lastused]. split.
  - intros W. apply (flows_send_data w _ (MSG_CHANNEL_EXTENDED_DATA (c_remote_id (w_c w)) SSH2_EXTENDED_DATA_STDERR data) data);
      try done; [|lia|by rewrite Hd|].
    + simpl. split_and!; [done | lia | done].
    + unfold held. simpl. by rewrite Hu.
  - keeps I. simpl. rewrite (phase_run_app _ _ _ _ ci_phase), Hph. done.
Qed.

(** As [steps], and no CLOSE was sent. *)
Definition polled {A} (w : world B) (r : res A * world B) : Prop :=
  outcome (fun _ w' => (win_ok (w_c w) -> flows false w w') /\
    has (c_flags (w_c w')) CHAN_CLOSE_SENT = has (c_flags (w_c w)) CHAN_CLOSE_SENT) r.

Lemma polled_ret {A} (a : A) w : chan_inv w -> polled w (Ok a, w).
Proof. intros I. split; [split; [apply flows_refl | done] | done]. Qed.

Lemma polled_ibuf_empty E w : chan_inv w -> polled w (chan_ibuf_empty E w).
Proof.
  intros I. pose proof (steps_ibuf_empty E w I) as S. pose proof (chan_ibuf_empty_spec E w I) as C.
  unfold steps, polled, outcome in *. destruct (chan_ibuf_empty E w) as [[[]|e|] w']; [|done|done].
  destruct S as [F I'], C as [(i & fl & ms & Mv & Eq) _]. split; [split; [done|] | done].
  rewrite (mv_flags _ _ _ _ _ _ _ Mv). destruct (_ && _); [|by injection Eq as _ -> _].
  destruct (has _ CHAN_LOCAL); injection Eq as _ -> _; [done|]. rewrite has_lor. cbn. by rewrite orb_false_r.
Qed.

Lemma efd_input_active w : chan_inv w -> exists b, CHANNEL_EFD_INPUT_ACTIVE w = (Ok b, w).
Proof.
  intros I. unfold CHANNEL_EFD_INPUT_ACTIVE. rewrite bind_chan.
  destruct (_ =? _); [|by eexists]. destruct (negb _); [by eexists|].
  rewrite (bind_ok _ _ _ _ _ (extended_len_ok w I)). by eexists.
Qed.

(** The datagram at the front of the input, sent whole or dropped. *)
Lemma polled_datagram E w :
  chan_inv w -> c_datagram (w_c w) = true -> c_istate (w_c w) <> 3 ->
  polled w
    ((let! pkt := or_fatal (on_input bq_get_string_direct) in
      if (c_remote_window (w_c w) <? zlen pkt) || (c_remote_maxpacket (w_c w) <? zlen pkt) then ret 0
      else
        do! send E (MSG_CHANNEL_DATA (c_remote_id (w_c w)) pkt) ;;
        do! upd (fun c => set_remote_window (u32 (c_remote_window c - zlen pkt)) c) ;;
        ret 1) w).
Proof.
  intros I D Hi. assert (forall w', win_ok (w_c w) -> flows false w w') as Hd by (intros w' []; congruence).
  destruct (no_eof_sent w I Hi) as (_ & _ & Hph).
  unfold bind at 1, or_fatal, on_input.
  destruct (string_outcome_inv _ _ (bq_get_string_direct_ok _ (ci_input w I))) as [Hc Ib].
  destruct (bq_get_string_direct _) as [[pkt|e|] b]; cbn [fst snd] in *; [|by destruct I; constructor|done].
  destruct (_ || _); [split; [by split; [apply Hd|] | by destruct I; constructor]|].
  unfold bind, send. destruct (e_pkt_ok E); [|by destruct I; constructor].
  split; [by split; [apply Hd|]|]. keeps I. simpl. rewrite (phase_run_app _ _ _ _ ci_phase), Hph. done.
Qed.

Lemma polled_input_open E w :
  chan_inv w -> c_istate (w_c w) <> 3 -> polled w (channel_output_poll_input_open E w).
Proof.
  intros I Hi. unfold channel_output_poll_input_open.
  rewrite (bind_ok _ _ _ _ _ (input_len_ok w I)), bind_chan.
  pose proof (zlen_nonneg (bq_bytes (c_input (w_c w)))) as Hn.
  destruct (Z.eqb_spec (zlen (bq_bytes (c_input (w_c w)))) 0) as [|N0].
  - apply (outcome_bind (fun _ w' => (win_ok (w_c w) -> flows false w w') /\
      has (c_flags (w_c w')) CHAN_CLOSE_SENT = has (c_flags (w_c w)) CHAN_CLOSE_SENT)); [|by intros].
    destruct (_ =? _); [|by apply polled_ret].
    destruct (efd_input_active w I) as [[] R]; rewrite (bind_ok _ _ _ _ _ R); [by apply polled_ret|].
    by apply polled_ibuf_empty.
  - destruct (negb _); [done|]. destruct (c_datagram (w_c w)) eqn:D; [by apply polled_datagram|].
    pose proof (proj1 (widths_iff _) (ci_widths w I)) as ((Hrw & Hmp) & _).
    assert (0 < zlen (bq_bytes (c_input (w_c w)))) as Hpos by lia.
    pose proof (poll_len _ _ _ (proj1 Hrw) (proj1 Hmp) Hpos) as Hl. cbv zeta in *.
    match type of Hl with 0 <= ?l <= _ /\ _ => set (len := l) in * end.
    destruct (len =? 0); [by apply polled_ret|].
    eapply outcome_weaken; [apply steps_send_input; unfold blen; try done; lia|].
    intros _ w' [F Ef] _. by rewrite Ef.
Qed.

Lemma steps_poll_extended E w :
  chan_inv w -> phase_of (c_flags (w_c w)) = PhOpen -> c_extended_usage (w_c w) = CHAN_EXTENDED_READ ->
  steps false w (channel_output_poll_extended_read E w).
Proof.
  intros I Hph Hu. unfold channel_output_poll_extended_read.
  rewrite (bind_ok _ _ _ _ _ (extended_len_ok w I)).
  pose proof (zlen_nonneg (bq_bytes (c_extended (w_c w)))) as Hn.
  destruct (Z.eqb_spec (zlen (bq_bytes (c_extended (w_c w)))) 0); [by apply steps_ret|]. rewrite bind_chan.
  pose proof (proj1 (widths_iff _) (ci_widths w I)) as ((Hrw & Hmp) & _).
  assert (0 < zlen (bq_bytes (c_extended (w_c w)))) as Hpos by lia.
  pose proof (poll_len _ _ _ (proj1 Hrw) (proj1 Hmp) Hpos) as Hl. cbv zeta in *.
  match type of Hl with 0 <= ?l <= _ /\ _ => set (len := l) in * end.
  destruct (len =? 0); [by apply steps_ret|]. destruct (negb _); [done|].
  apply steps_send_extended; unfold blen; try done; lia.
Qed.

Lemma steps_poll_one E w : chan_inv w -> steps false w (channel_output_poll_one E w).
Proof.
  intros I. unfold channel_output_poll_one. rewrite bind_chan.
  destruct (negb _); [by apply steps_ret|].
  destruct (has (c_flags (w_c w)) (Z.lor CHAN_CLOSE_SENT CHAN_CLOSE_RCVD)) eqn:Hcl; [by apply steps_ret|].
  rewrite has_mask in Hcl. apply orb_false_iff in Hcl as [Hcs _].
  set (m1 := if (c_istate (w_c w) =? CHAN_INPUT_OPEN) || (c_istate (w_c w) =? CHAN_INPUT_WAIT_DRAIN)
    then channel_output_poll_input_open E else ret 0).
  assert (polled w (m1 w)) as P1.
  { unfold m1. destruct (_ || _) eqn:Hi; [|by apply polled_ret]. apply polled_input_open; [done|].
    intros E3. rewrite E3 in Hi. done. }
  apply steps_bind0; [eapply outcome_weaken; [exact P1|]; by intros _ w' [F _] _|].
  intros r1 w1 R1 I1 _.
  assert (polled w (Ok r1, w1)) as [[_ Hc1] _] by (rewrite <- R1; exact P1). rewrite bind_chan.
  apply steps_bind0; [|intros r2 w2 _ I2 _; by apply steps_ret].
  destruct (_ && _) eqn:He; [|by apply steps_ret]. zbool.
  apply steps_poll_extended; [done | | done]. unfold phase_of. rewrite Hc1, Hcs.
  by match goal with H : has _ CHAN_EOF_SENT = false |- _ => rewrite H end.
Qed.

(** ** Teardown *)

Lemma steps_set_type n w : chan_inv w -> steps false w (upd (set_type n) w).
Proof.
  intros I. split; [|by destruct I; constructor]. intros [].
  constructor; try done; [by rewrite orb_false_r | | simpl; lia].
  exists []. rewrite app_nil_r. simpl. unfold held in *. simpl. split_and!; try done; lia.
Qed.

(** The output is thrown away before it is closed. *)
Lemma steps_drop_output E w :
  chan_inv w -> c_ostate (w_c w) = 0 \/ c_ostate (w_c w) = 1 ->
  steps false w ((do! on_output (bq_reset (e_np E)) ;; chan_write_failed E) w).
Proof.
  intros I Ho. unfold bind, on_output.
  destruct (bq_reset_ok (e_np E) _ (ci_output w I)) as (b & -> & Ib & _ & Eb).
  set (w1 := mk_world _ _ _ _). assert (chan_inv w1) as I1 by (by destruct I; constructor).
  eapply outcome_weaken; [by apply chan_write_failed_spec|].
  intros [] w' (o & out & ms & Mv & K & -> & Hms) _ W.
  eapply (moves_flows (c_istate (w_c w)) 3 (c_flags (w_c w)) out ms); try done.
  - by destruct Mv; constructor.
  - destruct Hms as [->| ->]; by repeat constructor.
  - right. destruct K as [->|[K _]]; by split.
  - by rewrite orb_false_r.
Qed.

Lemma steps_drop_input E w :
  chan_inv w -> steps false w ((do! on_input (bq_reset (e_np E)) ;; chan_ibuf_empty E) w).
Proof.
  intros I. apply steps_bind0; [|intros [] w1 _ I1 _; by apply steps_ibuf_empty].
  unfold on_input. destruct (bq_reset_ok (e_np E) _ (ci_input w I)) as (b & -> & Ib & _).
  by apply steps_set_input.
Qed.

Lemma steps_force_close E abandon w : chan_inv w -> steps false w (channel_force_close E None abandon w).
Proof.
  intros I. unfold channel_force_close. rewrite bind_chan.
  apply steps_bind0; [destruct (_ =? _); [by apply steps_read_failed | by apply steps_ret]|].
  intros _ w1 _ I1 _. rewrite bind_chan.
  apply steps_bind0; [destruct (_ =? _); [by apply steps_drop_input | by apply steps_ret]|].
  intros _ w2 _ I2 _. rewrite bind_chan.
  apply steps_bind0.
  { destruct (_ || _) eqn:Ho; [|by apply steps_ret]. apply orb_true_iff in Ho.
    apply steps_drop_output; [done|]. destruct Ho as [Ho|Ho]; apply Z.eqb_eq in Ho; auto. }
  intros _ w3 _ I3 _. unfold bind at 1, ret at 1. rewrite bind_chan.
  apply steps_bind0; [destruct (negb _); [by apply steps_close_fd | by apply steps_ret]|].
  intros _ w4 _ I4 _.
  apply steps_bind0; [destruct abandon; [by apply steps_set_type | by apply steps_ret]|].
  intros _ w5 _ I5 _. apply steps_fd; [done|]. constructor; try done. simpl. by rewrite app_nil_r.
Qed.
End Flow.
