(* ===== verification/ChanFrame.v ===== *)
(** * Channels: what only some events change

    The type of a channel, its number and the record of what its peer has
    sent: which events can change them.  One predicate transformer and one lemma for each
    way a computation is built. *)
From S2P Require Import Prelude Sshbuf SshbufGetput CString SshbufMisc ByteQueue Nchan ChanIO ChanInv.

(** EOF received, CLOSE received, no peer. *)
Definition rcvd (fl : Z) : bool * bool * bool :=
  (has fl CHAN_EOF_RCVD, has fl CHAN_CLOSE_RCVD, has fl CHAN_LOCAL).

Lemma rcvd_sent fl k : k = CHAN_EOF_SENT \/ k = CHAN_CLOSE_SENT -> rcvd (Z.lor fl k) = rcvd fl.
Proof. intros [->| ->]; unfold rcvd; rewrite !has_lor; cbn; by rewrite !orb_false_r. Qed.

Section Frame.
Context {B : Type} `{ByteQueueLaws B}.
Abbreviation M := (CM B).

Definition key (c : Channel B) : Z * Z * (bool * bool * bool) := (c_type c, c_self c, rcvd (c_flags c)).

Variable Q : Z * Z * (bool * bool * bool) -> Prop.

(** [m] keeps [Q] of the key, however it ends. *)
Definition pres {A} (m : M A) : Prop := forall w, Q (key (w_c w)) -> Q (key (w_c (snd (m w)))).

Lemma pres_ret {A} (a : A) : pres (ret a).
Proof. by intros w. Qed.
Lemma pres_fail {A} e : pres (@fail (world B) A e).
Proof. by intros w. Qed.
Lemma pres_crash {A} : pres (@crash (world B) A).
Proof. by intros w. Qed.
Lemma pres_reads {A} (f : world B -> res A) : pres (reads f).
Proof. by intros w. Qed.
Lemma pres_bind {A C} (m : M A) (f : A -> M C) : pres m -> (forall a, pres (f a)) -> pres (bind m f).
Proof.
  intros Hm Hf w Hw. specialize (Hm w Hw). unfold bind.
  destruct (m w) as [[a|e|] w1]; cbn [snd] in *; [by apply Hf | done | done].
Qed.
Lemma pres_chan {A} (f : Channel B -> M A) : (forall c, Q (key c) -> pres (f c)) -> pres (bind chan f).
Proof. intros Hf w Hw. exact (Hf (w_c w) Hw w Hw). Qed.
Lemma pres_if {A} (b : bool) (m1 m2 : M A) : pres m1 -> pres m2 -> pres (if b then m1 else m2).
Proof. by destruct b. Qed.
Lemma pres_upd f : (forall c, key (f c) = key c) -> pres (upd f).
Proof. intros Hf w Hw. simpl. by rewrite Hf. Qed.
Lemma pres_sys s : pres (sys s).
Proof. by intros w. Qed.
Lemma pres_send E m : pres (send E m).
Proof. intros w Hw. unfold send. by destruct (e_pkt_ok E). Qed.
Lemma pres_on_input {A} (m : ST B A) : pres (on_input m).
Proof. intros w Hw. unfold on_input. by destruct (m _). Qed.
Lemma pres_on_output {A} (m : ST B A) : pres (on_output m).
Proof. intros w Hw. unfold on_output. by destruct (m _). Qed.
Lemma pres_on_extended {A} (m : ST B A) : pres (on_extended m).
Proof. intros w Hw. unfold on_extended. by destruct (m _). Qed.
Lemma pres_or_fatal {A} (m : M A) : pres m -> pres (or_fatal m).
Proof. intros Hm w Hw. specialize (Hm w Hw). unfold or_fatal. by destruct (m w) as [[]]. Qed.
Lemma pres_or_log (m : M unit) : pres m -> pres (or_log m).
Proof. intros Hm w Hw. specialize (Hm w Hw). unfold or_log. by destruct (m w) as [[]]. Qed.
Lemma pres_used_time E : pres (channel_set_used_time E).
Proof. by intros w. Qed.
Lemma pres_read_input E n rd e : pres (read_input E n rd e).
Proof. intros w Hw. unfold read_input. by destruct (bq_read _ _ _ _) as [[] []]. Qed.
End Frame.

Create HintDb pres discriminated.
#[export] Hint Resolve pres_ret pres_fail pres_crash pres_reads pres_sys pres_send pres_on_input pres_on_output
  pres_on_extended pres_or_fatal pres_or_log pres_used_time pres_read_input : pres.

(** Decompose a computation along its structure. *)
Ltac pres_step :=
  match goal with
  | |- forall _, _ => intros
  | |- pres _ (bind chan _) => apply pres_chan
  | |- pres _ (bind _ _) => apply pres_bind
  | |- pres _ (let _ := _ in _) => cbv zeta
  | |- pres _ (if ?b then _ else _) => apply pres_if
  | |- pres _ (match ?x with _ => _ end) => destruct x
  | |- pres _ (upd _) => apply pres_upd; intros; cbv beta;
      solve [reflexivity | unfold key; simpl; rewrite rcvd_sent by auto; reflexivity]
  | |- pres _ _ => solve [eauto with pres]
  end.
Ltac pres := repeat pres_step.

Section Ops.
Context {B : Type} `{ByteQueueLaws B}.
Variable Q : Z * Z * (bool * bool * bool) -> Prop.
Abbreviation keeps_key m := (pres (B := B) Q m).

Lemma pres_close_fd s : keeps_key (channel_close_fd s).
Proof.
  unfold channel_close_fd. pres; apply pres_upd; intros c'; cbv beta;
    first [by destruct s | by destruct (fd_of s _ =? _)].
Qed.
#[local] Hint Resolve pres_close_fd : pres.

Lemma pres_set_istate n : keeps_key (chan_set_istate n).
Proof. unfold chan_set_istate. pres. Qed.
Lemma pres_set_ostate n : keeps_key (chan_set_ostate n).
Proof. unfold chan_set_ostate. pres. Qed.
#[local] Hint Resolve pres_set_istate pres_set_ostate : pres.

Lemma pres_shutdown_write E : keeps_key (chan_shutdown_write E).
Proof. unfold chan_shutdown_write. pres. Qed.
Lemma pres_shutdown_read : keeps_key chan_shutdown_read.
Proof. unfold chan_shutdown_read. pres. Qed.
Lemma pres_shutdown_extended_read : keeps_key chan_shutdown_extended_read.
Proof. unfold chan_shutdown_extended_read. pres. Qed.
Lemma pres_send_eof2 E : keeps_key (chan_send_eof2 E).
Proof. unfold chan_send_eof2. pres. Qed.
Lemma pres_send_close2 E : keeps_key (chan_send_close2 E).
Proof. unfold chan_send_close2. pres. Qed.
Lemma pres_send_eow2 E : keeps_key (chan_send_eow2 E).
Proof. unfold chan_send_eow2. pres. Qed.
#[local] Hint Resolve pres_shutdown_write pres_shutdown_read pres_shutdown_extended_read pres_send_eof2
  pres_send_close2 pres_send_eow2 : pres.

Lemma pres_read_failed : keeps_key chan_read_failed.
Proof. unfold chan_read_failed. pres. Qed.
Lemma pres_ibuf_empty E : keeps_key (chan_ibuf_empty E).
Proof. unfold chan_ibuf_empty. pres. Qed.
Lemma pres_obuf_empty E : keeps_key (chan_obuf_empty E).
Proof. unfold chan_obuf_empty. pres. Qed.
Lemma pres_rcvd_eow : keeps_key chan_rcvd_eow.
Proof. unfold chan_rcvd_eow. pres. Qed.
Lemma pres_write_failed E : keeps_key (chan_write_failed E).
Proof. unfold chan_write_failed. pres. Qed.
Lemma pres_efd_input_active : keeps_key CHANNEL_EFD_INPUT_ACTIVE.
Proof. unfold CHANNEL_EFD_INPUT_ACTIVE. pres. Qed.
Lemma pres_efd_output_active : keeps_key CHANNEL_EFD_OUTPUT_ACTIVE.
Proof. unfold CHANNEL_EFD_OUTPUT_ACTIVE. pres. Qed.
Lemma pres_is_dead E b : keeps_key (chan_is_dead E b).
Proof. unfold chan_is_dead. pres. Qed.
#[local] Hint Resolve pres_read_failed pres_ibuf_empty pres_obuf_empty pres_rcvd_eow pres_write_failed
  pres_efd_input_active pres_efd_output_active pres_is_dead : pres.

(** Closing by force can only abandon the channel. *)
Lemma pres_force_close E abandon :
  (forall t s r, Q (t, s, r) -> Q (SSH_CHANNEL_ABANDONED, s, r)) -> keeps_key (channel_force_close E None abandon).
Proof.
  intros HQ. unfold channel_force_close. pres. intros w Hw. by apply (HQ _ _ _ Hw).
Qed.

Lemma pres_pre_open E : keeps_key (channel_pre_open E).
Proof. unfold channel_pre_open. pres. Qed.

Lemma pres_poll_one E : keeps_key (channel_output_poll_one E).
Proof.
  unfold channel_output_poll_one, channel_output_poll_input_open, channel_output_poll_extended_read. pres.
Qed.

(** The functions that run after poll, of an open channel. *)
Section Post.
Hypothesis Q_open : forall t s r, Q (t, s, r) -> t = SSH_CHANNEL_OPEN.

Lemma pres_rfail : keeps_key rfail.
Proof.
  unfold rfail. apply pres_chan. intros c Hc. rewrite (Q_open _ _ _ Hc), Z.eqb_refl. cbn [negb]. pres.
Qed.
Lemma pres_write_fail E : keeps_key (write_fail E).
Proof.
  unfold write_fail. apply pres_chan. intros c Hc. rewrite (Q_open _ _ _ Hc), Z.eqb_refl. cbn [negb]. pres.
Qed.
#[local] Hint Resolve pres_rfail pres_write_fail : pres.

Lemma pres_handle_rfd E rd e : keeps_key (channel_handle_rfd E None rd e).
Proof. unfold channel_handle_rfd. pres. Qed.
Lemma pres_handle_wfd E wr echo : keeps_key (channel_handle_wfd E None wr echo).
Proof. unfold channel_handle_wfd. pres. Qed.
Lemma pres_handle_efd E rd wr : keeps_key (channel_handle_efd E rd wr).
Proof. unfold channel_handle_efd, channel_handle_efd_write, channel_handle_efd_read. pres. Qed.
Lemma pres_check_window E : keeps_key (channel_check_window E).
Proof. unfold channel_check_window. pres. Qed.
#[local] Hint Resolve pres_handle_rfd pres_handle_wfd pres_handle_efd pres_check_window : pres.

Lemma pres_post_open E a : keeps_key (channel_post_open E None None a).
Proof. unfold channel_post_open. pres. Qed.
End Post.
#[local] Hint Resolve pres_pre_open pres_poll_one : pres.

Lemma pres_input_data E pkt : keeps_key (channel_input_data E pkt).
Proof. unfold channel_input_data. pres. Qed.
Lemma pres_input_extended_data E pkt : keeps_key (channel_input_extended_data E pkt).
Proof. unfold channel_input_extended_data. pres. Qed.
Lemma pres_input_window_adjust pkt : keeps_key (channel_input_window_adjust pkt).
Proof. unfold channel_input_window_adjust. pres. Qed.

(** EOF and CLOSE record that they came. *)
Lemma pres_input_ieof E pkt :
  (forall t e c l, Q (t, (e, c, l)) -> Q (t, (true, c, l))) -> keeps_key (channel_input_ieof E pkt).
Proof.
  intros HQ. unfold channel_input_ieof, chan_rcvd_ieof. pres. intros w Hw. apply HQ in Hw. simpl.
  unfold key, rcvd in *. simpl. rewrite !has_lor. cbn. by rewrite orb_true_r, !orb_false_r.
Qed.

Lemma pres_input_oclose E pkt :
  (forall t e c l, Q (t, (e, c, l)) -> Q (t, (e, true, l))) -> keeps_key (channel_input_oclose E pkt).
Proof.
  intros HQ. unfold channel_input_oclose, chan_rcvd_oclose. pres. intros w Hw. apply HQ in Hw. simpl.
  unfold key, rcvd in *. simpl. rewrite !has_lor. cbn. by rewrite orb_true_r, !orb_false_r.
Qed.
End Ops.
