(* ===== verification/ChanRecv.v ===== *)
(** * Channels: receiving

    The messages a channel receives: from any peer they keep the invariant of
    ChanInv.v; from a peer that keeps to its window they are accepted. *)
From S2P Require Import Prelude Sshbuf SshbufGetput CString SshbufMisc ByteQueue Nchan ChanIO ChanInv ChanFlow.

Lemma pkt_string_ok pkt v rest :
  pkt_string pkt = Ok (v, rest) -> Forall is_byte pkt ->
  pkt = enc_string v ++ rest /\ Forall is_byte v /\ zlen v <= SSHBUF_SIZE_MAX - 4 /\ Forall is_byte rest.
Proof.
  unfold pkt_string. destruct (string_len pkt) as [n|e|] eqn:Hs; [|done|done]. simpl. intros [= <- <-] Hb.
  pose proof (string_len_ok _ _ Hs Hb). split_and!.
  - by apply string_len_split.
  - by apply Forall_ztake, Forall_zdrop.
  - zl.
  - by apply Forall_zdrop.
Qed.

Lemma pkt_string_enc v rest :
  zlen v <= SSHBUF_SIZE_MAX - 4 -> pkt_string (enc_string v ++ rest) = Ok (v, rest).
Proof.
  intros Hv. unfold pkt_string. rewrite string_len_enc by done. cbn [rbind]. by rewrite enc_string_take, enc_string_drop.
Qed.

Lemma pkt_u32_enc n rest : 0 <= n < 2 ^ 32 -> pkt_u32 (POKE_U32 n ++ rest) = Ok (n, rest).
Proof.
  intros Hn. unfold pkt_u32. rewrite zlen_app. pose proof (zlen_nonneg rest).
  change (zlen (POKE_U32 n)) with 4. destruct (Z.ltb_spec (4 + zlen rest) 4); [lia|].
  rewrite ztake_app_le, ztake_all, zdrop_app_ge, zdrop_0 by done. by rewrite be_POKE_U32, u32_small.
Qed.

Section Recv.
Context {B : Type} `{ByteQueueLaws B}.
Abbreviation M := (CM B).
Abbreviation inv_only r := (outcome (fun _ (_ : world B) => True) r).

(** ** From any peer *)

Lemma set_output_inv w b (c : Channel B) :
  chan_inv w -> c = w_c w -> bq_inv b -> chan_inv (mk_world (set_output b c) (w_sent w) (w_sys w) (w_lastused w)).
Proof. intros I -> Ib. by destruct I; constructor. Qed.

Lemma put_output_inv (m : ST B unit) w :
  chan_inv w -> fst (m (c_output (w_c w))) <> Crash -> bq_inv (snd (m (c_output (w_c w)))) ->
  inv_only (or_fatal (on_output m) w).
Proof.
  intros I Hc Ib. unfold or_fatal, on_output.
  destruct (m (c_output (w_c w))) as [[[]|e|] b]; cbn [fst snd] in *; [split; [done|] | |done];
    by apply set_output_inv.
Qed.

Lemma upd_inv f w : chan_inv w ->
  chan_inv (mk_world (f (w_c w)) (w_sent w) (w_sys w) (w_lastused w)) -> inv_only (upd f w).
Proof. done. Qed.

Lemma input_data_inv E pkt w : chan_inv w -> Forall is_byte pkt -> inv_only (channel_input_data E pkt w).
Proof.
  intros I Hb. unfold channel_input_data. rewrite bind_chan. destruct (_ && _); [by split|].
  unfold bind at 1. destruct (pkt_string pkt) as [[v [|]]|e|] eqn:Hp; [|done..].
  destruct (pkt_string_ok _ _ _ Hp Hb) as (_ & Hv & Hl & _). unfold ret at 1. cbv zeta.
  set (n := if c_datagram (w_c w) then _ else _).
  destruct (negb _); [apply upd_inv; [done|]; keeps I|].
  destruct (_ <? n); [by split|].
  eapply (outcome_bind (fun _ w' => True)).
  - destruct (_ <? n).
    + unfold bind, upd, chan. destruct (_ <? _); [|split; [done|]]; keeps I.
    + apply upd_inv; [done|]. keeps I.
  - intros _ w' _ I'. sb_consts.
    destruct (c_datagram (w_c w)); apply put_output_inv; try done; eapply put_outcome_inv;
      [apply bq_put_string_ok | apply bq_put_string_ok | apply bq_put_ok | apply bq_put_ok]; try done; try apply I'; sb_consts; lia.
Qed.

Lemma log_extended_inv np v w :
  chan_inv w -> Forall is_byte v -> zlen v <= SSHBUF_SIZE_MAX ->
  exists b, or_log (on_extended (bq_put np v)) w
    = (Ok tt, mk_world (set_extended b (w_c w)) (w_sent w) (w_sys w) (w_lastused w)) /\ bq_inv b /\
    (bq_bytes b = bq_bytes (c_extended (w_c w)) ++ v \/
     bq_bytes b = bq_bytes (c_extended (w_c w)) /\
       (np = 0 \/ bq_max (c_extended (w_c w)) < blen (c_extended (w_c w)) + zlen v)).
Proof.
  intros I Hv Hl. unfold or_log, on_extended.
  assert (zlen v <= SIZE_MAX) as Hl' by (sb_consts; lia).
  destruct (bq_put_ok np v _ (ci_extended w I) Hv Hl') as (Ib & _ & Hr).
  destruct (bq_put np v _) as [[[]|e|] b]; cbn [fst snd] in *; [exists b..|done].
  - destruct Hr as [_ Hr]. split_and!; auto.
  - destruct Hr as [? Hr]. split_and!; auto.
Qed.

Lemma extended_data_inv E pkt w :
  chan_inv w -> Forall is_byte pkt -> inv_only (channel_input_extended_data E pkt w).
Proof.
  intros I Hb. unfold channel_input_extended_data. rewrite bind_chan. destruct (negb _); [by split|].
  destruct (_ && _); [done|]. unfold pkt_u32. destruct (_ <? 4); [done|].
  destruct (_ || _); [by split|].
  destruct (pkt_string (zdrop 4 pkt)) as [[v [|]]|e|] eqn:Hp; [|done..].
  destruct (pkt_string_ok _ _ _ Hp (Forall_zdrop _ _ _ Hb)) as (_ & Hv & Hl & _).
  destruct (_ <? _); [by split|].
  destruct (log_extended_inv (e_np E) v w I Hv) as (b & R & Ib & _); [sb_consts; lia|].
  rewrite (bind_ok _ _ _ _ _ R). split; [done|]. keeps I.
Qed.

Lemma set_drain_inv w :
  chan_inv w -> c_istate (w_c w) = 0 ->
  chan_inv (mk_world (set_istate CHAN_INPUT_WAIT_DRAIN (w_c w)) (w_sent w) (w_sys w) (w_lastused w)).
Proof.
  intros I Hi0. destruct (no_eof_sent w I ltac:(lia)) as (He & Hc & _).
  destruct I. constructor; simpl; try done; [by right; left | congruence | congruence].
Qed.

Lemma steps_drain w :
  chan_inv w -> c_istate (w_c w) = 0 -> steps false w (upd (set_istate CHAN_INPUT_WAIT_DRAIN) w).
Proof.
  intros I Hi0. apply (steps_moves tt 1 (c_ostate (w_c w)) (c_flags (w_c w)) (c_output (w_c w)) []); try done.
  - by apply set_drain_inv.
  - constructor; try done. simpl. by rewrite app_nil_r.
  - by left.
Qed.

(** An EOF, with what [force_drain] adds. *)
Lemma steps_rcvd_ieof E w : chan_inv w -> steps true w (chan_rcvd_ieof E w).
Proof.
  intros I. destruct (chan_rcvd_ieof_spec E w I) as (o & out & w' & -> & I' & Mv & K & H1 & H2).
  split; [|done]. intros W. eapply moves_flows; try done.
  - pose proof (ci_ostate w' I') as [E'|[E'|E']]; rewrite (mv_ostate _ _ _ _ _ _ _ Mv) in E'; lia.
  - by rewrite has_lor.
Qed.

Lemma steps_input_ieof E w : chan_inv w -> steps true w (channel_input_ieof E [] w).
Proof.
  intros I. unfold channel_input_ieof. apply (steps_bind true false); [by apply steps_rcvd_ieof|].
  intros [] w1 _ I1 _. rewrite bind_chan. destruct (_ && _) eqn:D; [|by apply steps_ret]. zbool.
  apply steps_bind0; [by apply steps_drain|]. intros _ w2 _ I2 _.
  rewrite (bind_ok _ _ _ _ _ (input_len_ok w2 I2)). destruct (_ =? 0); [by apply steps_ibuf_empty | by apply steps_ret].
Qed.

Lemma input_ieof_inv E pkt w : chan_inv w -> inv_only (channel_input_ieof E pkt w).
Proof. intros I. destruct pkt; [|done]. by eapply steps_outcome, steps_input_ieof. Qed.

Lemma input_oclose_inv E pkt w : chan_inv w -> inv_only (channel_input_oclose E pkt w).
Proof.
  intros I. destruct pkt; [|done]. eapply outcome_weaken; [by apply chan_rcvd_oclose_spec | done].
Qed.

Lemma window_adjust_inv pkt w : chan_inv w -> Forall is_byte pkt -> inv_only (channel_input_window_adjust pkt w).
Proof.
  intros I Hb. unfold channel_input_window_adjust, pkt_u32. destruct (_ <? 4); [done|].
  destruct (zdrop 4 pkt); [|done]. rewrite bind_chan. destruct (_ <? _); [done|].
  apply upd_inv; [done|]. keeps I.
Qed.

(** ** Events *)

Lemma exec_inv E ev w : chan_inv w -> event_ok ev -> inv_only (exec E ev w).
Proof.
  intros I Ho. destruct ev; simpl in Ho |- *.
  all: try (unfold if_open; rewrite bind_chan; destruct (_ =? SSH_CHANNEL_OPEN); [|by split]).
  - eapply steps_outcome. by apply steps_pre_open.
  - destruct Ho. eapply steps_outcome. by apply steps_post_open.
  - split; [done|]. by destruct I; constructor.
  - eapply steps_outcome, steps_ret'. by apply steps_poll_one.
  - by apply input_data_inv.
  - by apply extended_data_inv.
  - by apply input_ieof_inv.
  - by apply input_oclose_inv.
  - by apply window_adjust_inv.
  - eapply steps_outcome. by apply steps_rcvd_eow.
  - eapply steps_outcome. by apply steps_read_failed.
  - eapply steps_outcome. by apply steps_write_failed.
  - eapply steps_outcome. by apply steps_force_close.
  - eapply steps_outcome, steps_ret'. by apply steps_is_dead.
  - split; [done|]. by destruct I; constructor.
Qed.

Lemma run_inv evs w :
  chan_inv w -> Forall (fun x => event_ok (snd x)) evs -> inv_only (run evs w).
Proof.
  revert w. induction evs as [|[E ev] evs IH]; intros w I F; [by split|]. apply Forall_cons in F as [He F].
  simpl. pose proof (exec_inv E ev w I He) as X. unfold outcome in X.
  destruct (exec E ev w) as [[[]|e|] w']; [destruct X; by apply IH | done | done].
Qed.
End Recv.
