(* ===== verification/ChanPair.v ===== *)
(** * Channels: two ends of a connection

    Both ends of a channel run the code of src/channels.c; the messages each
    sends arrive at the other in order.  Neither end breaks the other's
    window, no message that arrives is an error, and no message arrives for a
    channel that has been freed. *)
From S2P Require Import Prelude Sshbuf SshbufGetput CString SshbufMisc ByteQueue Nchan ChanIO ChanInv.
From S2P Require Import ChanFlow ChanFrame ChanRecv.

Section Sure.
Context {B : Type} `{ByteQueueLaws B}.
Abbreviation M := (CM B).

(** ** Handlers that do not fail *)

(** What the handlers need so as not to fail. *)
Record ready (c : Channel B) : Prop := {
  rd_input : bq_inv (c_input c);
  rd_output : bq_inv (c_output c);
  rd_extended : bq_inv (c_extended c);
  rd_istate : state_ok (c_istate c);
  rd_ostate : state_ok (c_ostate c);
  rd_id : c_have_remote_id c = true;
}.

Definition sure {A} (m : M A) : Prop :=
  forall w, ready (w_c w) -> exists a w', m w = (Ok a, w') /\ ready (w_c w').

Lemma sure_ret {A} (a : A) : sure (ret a).
Proof. intros w R. by exists a, w. Qed.
Lemma sure_bind {A C} (m : M A) (f : A -> M C) : sure m -> (forall a, sure (f a)) -> sure (bind m f).
Proof.
  intros Hm Hf w R. destruct (Hm w R) as (a & w1 & E1 & R1). rewrite (bind_ok _ _ _ _ _ E1). by apply Hf.
Qed.
Lemma sure_chan {A} (f : Channel B -> M A) : (forall c, ready c -> sure (f c)) -> sure (bind chan f).
Proof. intros Hf w R. exact (Hf (w_c w) R w R). Qed.
Lemma sure_if {A} (b : bool) (m1 m2 : M A) : sure m1 -> sure m2 -> sure (if b then m1 else m2).
Proof. by destruct b. Qed.
Lemma sure_upd f : (forall c, ready c -> ready (f c)) -> sure (upd f).
Proof. intros Hf w R. eexists _, _. split; [done|]. by apply Hf. Qed.
Lemma sure_sys s : sure (sys s).
Proof. intros w R. by eexists _, _. Qed.
Lemma sure_send E m : e_pkt_ok E = true -> sure (send E m).
Proof. intros HE w R. unfold send. rewrite HE. by eexists _, _. Qed.
Lemma sure_input_len : sure input_len.
Proof. intros w R. unfold input_len, reads. rewrite bq_len_ok by apply R. by eexists _, _. Qed.
Lemma sure_output_len : sure output_len.
Proof. intros w R. unfold output_len, reads. rewrite bq_len_ok by apply R. by eexists _, _. Qed.
Lemma sure_extended_len : sure extended_len.
Proof. intros w R. unfold extended_len, reads. rewrite bq_len_ok by apply R. by eexists _, _. Qed.
Lemma sure_reset_output np : sure (on_output (bq_reset np)).
Proof.
  intros w R. unfold on_output. destruct (bq_reset_ok np _ (rd_output _ R)) as (b & -> & I & _).
  eexists _, _. split; [done|]. by destruct R; constructor.
Qed.
Lemma sure_set_istate n : state_ok n -> sure (chan_set_istate n).
Proof.
  intros Hn w R. unfold chan_set_istate. rewrite bind_chan, !state_le by (done || apply R).
  eexists _, _. split; [done|]. by destruct R; constructor.
Qed.
Lemma sure_set_ostate n : state_ok n -> sure (chan_set_ostate n).
Proof.
  intros Hn w R. unfold chan_set_ostate, CHAN_OUTPUT_CLOSED. rewrite bind_chan, !state_le by (done || apply R).
  eexists _, _. split; [done|]. by destruct R; constructor.
Qed.
Lemma sure_fd_code m : fd_code m -> sure m.
Proof.
  intros F w R. destruct (F w) as (w' & -> & Mv). eexists _, _. split; [done|]. destruct R, Mv as [S].
  unfold stable in S. injection S; intros. constructor; congruence.
Qed.
End Sure.

Ltac sure_step :=
  match goal with
  | |- forall _, _ => intros
  | |- sure (bind chan _) => apply sure_chan; intros ? []
  | |- sure (bind _ _) => apply sure_bind
  | |- sure (if negb (c_have_remote_id ?c) then _ else _) =>
      match goal with Hid : c_have_remote_id c = true |- _ => rewrite Hid; cbn [negb] end
  | |- sure (if ?b then _ else _) => apply sure_if
  | |- sure (ret _) => apply sure_ret
  | |- sure (upd _) => apply sure_upd; intros ? []; by constructor
  | |- sure (sys _) => apply sure_sys
  | |- sure (send _ _) => by apply sure_send
  | |- sure input_len => apply sure_input_len
  | |- sure output_len => apply sure_output_len
  | |- sure extended_len => apply sure_extended_len
  | |- sure (on_output _) => apply sure_reset_output
  | |- sure (chan_set_istate _) => apply sure_set_istate; unfold state_ok; auto
  | |- sure (chan_set_ostate _) => apply sure_set_ostate; unfold state_ok; auto
  | |- sure (channel_close_fd _) => apply sure_fd_code, channel_close_fd_code
  | |- sure chan_shutdown_read => apply sure_fd_code, chan_shutdown_read_code
  | |- sure chan_shutdown_extended_read => apply sure_fd_code, chan_shutdown_extended_read_code
  | |- sure (upd (set_istate CHAN_INPUT_WAIT_DRAIN)) =>
      apply sure_upd; intros ? []; constructor; try done; by right; left
  end.
Ltac sure := repeat sure_step.

Section SureOps.
Context {B : Type} `{ByteQueueLaws B}.
Variable E : env.
Hypothesis Epkt : e_pkt_ok E = true.
Abbreviation sure_op m := (sure (B := B) m).

Lemma sure_ibuf_empty : sure_op (chan_ibuf_empty E).
Proof. unfold chan_ibuf_empty, chan_send_eof2. sure. Qed.

Lemma sure_input_ieof : sure_op (channel_input_ieof E []).
Proof.
  unfold channel_input_ieof, chan_rcvd_ieof, chan_obuf_empty, chan_shutdown_write, CHANNEL_EFD_OUTPUT_ACTIVE.
  sure. apply sure_ibuf_empty.
Qed.

Lemma sure_input_oclose : sure_op (channel_input_oclose E []).
Proof. unfold channel_input_oclose, chan_rcvd_oclose, chan_send_eof2. sure. Qed.

Lemma sure_rcvd_eow : sure_op chan_rcvd_eow.
Proof. unfold chan_rcvd_eow. sure. Qed.
End SureOps.

(** ** The two ends *)

(** What the receiver runs for a message; nothing for IGNORE. *)
Definition as_event (m : msg) : option event :=
  match m with
  | MSG_CHANNEL_DATA _ d => Some (EvData (enc_string d))
  | MSG_CHANNEL_EXTENDED_DATA _ t d => Some (EvExtData (POKE_U32 t ++ enc_string d))
  | MSG_CHANNEL_EOF _ => Some (EvEof [])
  | MSG_CHANNEL_CLOSE _ => Some (EvClose [])
  | MSG_CHANNEL_WINDOW_ADJUST _ n => Some (EvAdjust (POKE_U32 n))
  | MSG_CHANNEL_REQUEST _ _ _ => Some EvEow
  | MSG_IGNORE _ => None
  end.

(** Events of one end that are not the arrival of a message; nothing in the
    code marks an open channel dead. *)
Definition local (ev : event) : Prop :=
  match ev with
  | EvData _ | EvExtData _ | EvEof _ | EvClose _ | EvAdjust _ | EvEow | EvMarkDead => False
  | _ => True
  end.

Section Pair.
Context {B : Type} `{ByteQueueLaws B}.
Abbreviation M := (CM B).

(** The effect of a step that takes message [m] from the peer. *)
Definition opt_data (m : option msg) : Z := match m with Some m => msg_data m | None => 0 end.
Definition opt_adj (m : option msg) : Z := match m with Some m => msg_adj m | None => 0 end.

(** The receiver has lost no credit: it is open, and [m] is not extended
    data, which a channel without a descriptor for it drops. *)
Definition counts (m : option msg) (w' : world B) : Prop :=
  c_type (w_c w') = SSH_CHANNEL_OPEN /\ c_ostate (w_c w') <> 3 /\
  match m with Some (MSG_CHANNEL_EXTENDED_DATA _ _ _) => False | _ => True end.

Record effect (m : option msg) (w w' : world B) : Prop := {
  ef_mono : c_ostate (w_c w) = 3 -> c_ostate (w_c w') = 3;
  ef_consts : consts (w_c w') = consts (w_c w);
  ef_win : win_ok (w_c w');
  ef_sent : exists ms, w_sent w' = w_sent w ++ ms /\ Forall (msg_ok (c_remote_maxpacket (w_c w))) ms /\
    c_remote_window (w_c w') = c_remote_window (w_c w) - total msg_data ms + opt_adj m /\
    c_local_window (w_c w) + total msg_adj ms - opt_data m <= c_local_window (w_c w') /\
    (counts m w' -> c_local_window (w_c w') = c_local_window (w_c w) + total msg_adj ms - opt_data m /\
       c_local_window (w_c w') + held (w_c w') = c_local_window (w_c w) + held (w_c w));
}.

Lemma flows_effect e m w w' :
  win_ok (w_c w) -> flows e w w' -> opt_data m = 0 -> opt_adj m = 0 -> effect m w w'.
Proof.
  intros W F Hd Ha. pose proof (flows_win _ _ _ W F). destruct F as [C Mo _ (ms & Es & Fm & Er & El & _ & Ex) _ _].
  constructor; try done. exists ms. rewrite Hd, Ha. split_and!; try done; try lia.
  intros (_ & Ho & _). specialize (Ex Ho). lia.
Qed.

(** ** Deliveries *)

(** What a peer that keeps to the protocol sends. *)
Record receivable (m : msg) (c : Channel B) : Prop := {
  rc_data : msg_data m <= c_local_window c;
  rc_ok : msg_ok (c_local_maxpacket c) m;
  rc_adj : c_remote_window c + msg_adj m < 2 ^ 32;
  rc_eof : msg_data m <> 0 \/ (exists i t d, m = MSG_CHANNEL_EXTENDED_DATA i t d) ->
    has (c_flags c) CHAN_EOF_RCVD = false;
}.

Definition env_ok (E : env) : Prop := e_np E <> 0 /\ e_pkt_ok E = true.

Definition accepted (m : msg) (w : world B) (r : res unit * world B) : Prop :=
  exists w', r = (Ok tt, w') /\ chan_inv w' /\ effect (Some m) w w'.

(** The window is small enough for the buffers. *)
Definition conf_ok (c : Channel B) : Prop :=
  c_local_window_max c <= CHAN_INPUT_MAX /\ c_have_remote_id c = true.

Lemma conf_ready w : chan_inv w -> conf_ok (w_c w) -> ready (w_c w).
Proof. intros [] []. by constructor. Qed.

Lemma effect_idle m w :
  win_ok (w_c w) -> opt_adj m = 0 -> 0 <= opt_data m -> (counts m w -> opt_data m = 0) -> effect m w w.
Proof.
  intros W Ha Hd Hc. constructor; try done. exists []. rewrite app_nil_r, Ha. simpl. split_and!; try done; try lia.
  intros X%Hc. lia.
Qed.

(** [n] bytes go from the window to what is held. *)
Lemma effect_take m n w w' :
  win_ok (w_c w) -> consts (w_c w') = consts (w_c w) -> c_ostate (w_c w') = c_ostate (w_c w) ->
  w_sent w' = w_sent w -> opt_data m = n -> opt_adj m = 0 ->
  0 <= n <= c_local_window (w_c w) -> c_remote_window (w_c w') = c_remote_window (w_c w) ->
  c_local_window (w_c w') = c_local_window (w_c w) - n -> 0 <= c_local_consumed (w_c w') ->
  held (w_c w') <= held (w_c w) + n -> (counts m w' -> held (w_c w') = held (w_c w) + n) -> effect m w w'.
Proof.
  intros [] Ec Eo Es Hd Ha Hn Er El Hk Hh Hx.
  pose proof (consts_eq _ _ Ec) as (_ & _ & Em & _ & _ & Ed & _).
  constructor; [congruence | done | |].
  - constructor; rewrite ?Em, ?Er, ?El; try lia. congruence.
  - exists []. rewrite app_nil_r, Ha, Hd. simpl. split_and!; try done; try lia. intros X%Hx. lia.
Qed.

Lemma put_fits np v b :
  bq_inv b -> Forall is_byte v -> np <> 0 -> blen b + zlen v <= CHAN_INPUT_MAX ->
  exists b', bq_put np v b = (Ok tt, b') /\ bq_inv b' /\ blen b' = blen b + zlen v.
Proof.
  intros Ib Hv Hnp Hl. pose proof (bq_room b Ib). unfold blen in *. pose proof (zlen_nonneg (bq_bytes b)).
  assert (zlen v <= SIZE_MAX) as Hs by (unfold CHAN_INPUT_MAX in *; sb_consts; lia).
  destruct (bq_put_ok np v b Ib Hv Hs) as (I' & _ & Hr).
  destruct (bq_put np v b) as [[[]|e|] b']; cbn [fst snd] in *; [|exfalso; destruct Hr as [[?|?] _]; [done|lia] | done].
  exists b'. destruct Hr as [_ ->]. split_and!; try done. by rewrite zlen_app.
Qed.

Lemma held_output (c : Channel B) : blen (c_output c) <= held c - c_local_consumed c.
Proof.
  unfold held. pose proof (zlen_nonneg (bq_bytes (c_extended c))). unfold blen at 3.
  destruct (_ =? _); lia.
Qed.

Lemma win_sizes w n :
  win_ok (w_c w) -> conf_ok (w_c w) -> n <= c_local_window (w_c w) ->
  n <= SSHBUF_SIZE_MAX - 4 /\ held (w_c w) + n <= CHAN_INPUT_MAX.
Proof. intros [] [Hc _] Hn. unfold CHAN_INPUT_MAX in *. sb_consts. pose proof (held_output (w_c w)).
  pose proof (zlen_nonneg (bq_bytes (c_output (w_c w)))). unfold blen in *. lia. Qed.

Lemma with_inv (r : res unit * world B) m w :
  outcome (fun _ _ => True) r -> (exists w', r = (Ok tt, w') /\ effect m w w') ->
  exists w', r = (Ok tt, w') /\ chan_inv w' /\ effect m w w'.
Proof. intros Hi (w' & -> & Ef). destruct Hi. by exists w'. Qed.

Lemma deliver_data E i d w :
  env_ok E -> chan_inv w -> win_ok (w_c w) -> conf_ok (w_c w) -> receivable (MSG_CHANNEL_DATA i d) (w_c w) ->
  accepted (MSG_CHANNEL_DATA i d) w (channel_input_data E (enc_string d) w).
Proof.
  intros [Hnp _] I W C [Hd [Hb Hp] _ _]. simpl in Hd. pose proof (zlen_nonneg d).
  destruct (win_sizes w (zlen d) W C Hd) as [Hl Hh].
  assert (Forall is_byte (enc_string d)) as Hbe by by apply enc_string_bytes.
  apply with_inv; [by apply input_data_inv|].
  unfold channel_input_data. rewrite bind_chan.
  destruct (_ && _) eqn:Ht.
  { exists w. split; [done|]. apply effect_idle; [done | done | simpl; lia |].
    intros (Ho & _). rewrite Ho in Ht. done. }
  clear Ht.
  pose proof (pkt_string_enc d [] Hl) as Hps. rewrite app_nil_r in Hps.
  unfold bind at 1. rewrite Hps. unfold ret at 1. cbv zeta. pose proof W as [D Wr Wl Wc Wb]. rewrite D.
  destruct (Z.ltb_spec (c_local_window (w_c w)) (zlen d)); [lia|].
  assert (u32 (c_local_window (w_c w) - zlen d) = c_local_window (w_c w) - zlen d) as Hu
    by (apply u32_small; pose proof (held_output (w_c w)); pose proof (zlen_nonneg (bq_bytes (c_output (w_c w)))); unfold blen in *; lia).
  destruct (negb _).
  - assert (u32 (c_local_consumed (w_c w) + zlen d) = c_local_consumed (w_c w) + zlen d) as Hu2
      by (apply u32_small; pose proof (held_output (w_c w)); pose proof (zlen_nonneg (bq_bytes (c_output (w_c w)))); unfold blen in *; lia).
    eexists. split; [done|].
    apply (effect_take _ (zlen d)); try done; cbn [w_c set_local_consumed set_local_window c_local_window c_local_consumed].
    + by destruct (Z.ltb_spec (c_local_window (w_c w)) (zlen d)); [lia|].
    + rewrite Hu2. lia.
    + unfold held. simpl. rewrite Hu2. lia.
    + intros _. unfold held. simpl. rewrite Hu2. lia.
  - destruct (Z.ltb_spec (c_local_maxpacket (w_c w)) (zlen d)); [lia|].
    unfold bind, upd, or_fatal, on_output. cbn [w_c w_sent w_sys w_lastused c_output set_local_window_exceeded set_local_window].
    pose proof (held_output (w_c w)).
    destruct (put_fits (e_np E) d (c_output (w_c w)) (ci_output w I) Hb Hnp) as (b & -> & Ib & El); [lia|].
    eexists. split; [done|].
    apply (effect_take _ (zlen d)); try done; [|intros _]; unfold held; simpl; rewrite El; lia.
Qed.

Lemma deliver_extended E i t d w :
  env_ok E -> chan_inv w -> win_ok (w_c w) -> conf_ok (w_c w) ->
  receivable (MSG_CHANNEL_EXTENDED_DATA i t d) (w_c w) ->
  accepted (MSG_CHANNEL_EXTENDED_DATA i t d) w (channel_input_extended_data E (POKE_U32 t ++ enc_string d) w).
Proof.
  intros [Hnp _] I W C [Hd (Hb & Hp & ->) _ He]. simpl in Hd. pose proof (zlen_nonneg d).
  destruct (win_sizes w (zlen d) W C Hd) as [Hl Hh].
  assert (Forall is_byte (POKE_U32 SSH2_EXTENDED_DATA_STDERR ++ enc_string d)) as Hbe
    by (apply Forall_app_2; [apply POKE_U32_bytes | by apply enc_string_bytes]).
  apply with_inv; [by apply extended_data_inv|].
  unfold channel_input_extended_data. rewrite bind_chan.
  assert (effect (Some (MSG_CHANNEL_EXTENDED_DATA i SSH2_EXTENDED_DATA_STDERR d)) w w) as Hidle
    by (apply effect_idle; [done | done | simpl; lia | by intros (_ & _ & ?)]).
  destruct (negb _); [by exists w|].
  rewrite He by eauto. cbn [andb]. rewrite pkt_u32_enc by done.
  destruct (_ || _) eqn:Hig; [by exists w|].
  pose proof (pkt_string_enc d [] Hl) as Hps. rewrite app_nil_r in Hps. rewrite Hps.
  destruct (Z.ltb_spec (c_local_window (w_c w)) (zlen d)); [lia|].
  destruct (log_extended_inv (e_np E) d w I Hb) as (b & R & Ib & Eb); [sb_consts; lia|].
  rewrite (bind_ok _ _ _ _ _ R). eexists. split; [done|].
  pose proof W as [D Wr Wl Wc Wb].
  assert (u32 (c_local_window (w_c w) - zlen d) = c_local_window (w_c w) - zlen d) as Hu
    by (apply u32_small; pose proof (held_output (w_c w)); pose proof (zlen_nonneg (bq_bytes (c_output (w_c w)))); unfold blen in *; lia).
  apply (effect_take _ (zlen d)); try done; [|by intros (_ & _ & ?)]. unfold held. simpl.
  assert (blen b <= blen (c_extended (w_c w)) + zlen d)
    by (unfold blen; destruct Eb as [->|[-> _]]; [rewrite zlen_app|]; lia).
  destruct (_ =? CHAN_EXTENDED_WRITE); lia.
Qed.

Lemma deliver_adjust i n w :
  chan_inv w -> win_ok (w_c w) -> receivable (MSG_CHANNEL_WINDOW_ADJUST i n) (w_c w) ->
  accepted (MSG_CHANNEL_WINDOW_ADJUST i n) w (channel_input_window_adjust (POKE_U32 n) w).
Proof.
  intros I W [_ Hn Ha _]. simpl in Hn, Ha.
  apply with_inv; [apply window_adjust_inv; [done | apply POKE_U32_bytes]|].
  unfold channel_input_window_adjust.
  pose proof (pkt_u32_enc n [] Hn) as Hp. rewrite app_nil_r in Hp. rewrite Hp, bind_chan. cbv zeta.
  pose proof W as []. rewrite u32_small by lia. destruct (Z.ltb_spec (c_remote_window (w_c w) + n) (c_remote_window (w_c w))); [lia|].
  eexists. split; [done|]. constructor; [done | done | by constructor; simpl; try lia |].
  exists []. rewrite app_nil_r. simpl. split_and!; try done; try lia. intros _. unfold held. simpl. lia.
Qed.

Lemma deliver_eof E i w :
  env_ok E -> chan_inv w -> win_ok (w_c w) -> conf_ok (w_c w) ->
  accepted (MSG_CHANNEL_EOF i) w (channel_input_ieof E [] w).
Proof.
  intros [_ HE] I W C. pose proof (steps_input_ieof E w I) as S.
  destruct (sure_input_ieof E HE w (conf_ready w I C)) as ([] & w' & R & _). rewrite R in *.
  destruct S as [F I']. exists w'. split_and!; try done. by eapply flows_effect; [|apply F| |].
Qed.

(** As [moves_flows]. *)
Lemma moves_effect i o fl out ms m w w' :
  win_ok (w_c w) -> moves i o fl out ms w w' -> Forall control ms -> kept_or_empty o out w ->
  (c_ostate (w_c w) = 3 -> o = 3) -> opt_data m = 0 -> opt_adj m = 0 -> effect m w w'.
Proof.
  intros [] [S Ei Eo Ef Eout Es] Hc Hout Ho3 Hd Ha. unfold stable in S. injection S; intros.
  assert (held (w_c w') <= held (w_c w) /\ (o <> 3 -> held (w_c w') = held (w_c w))) as [Hh Hx].
  { unfold held. repeat match goal with E : _ (w_c w') = _ |- _ => rewrite E end.
    destruct Hout as [->|[Hb ->]]; [lia|]. unfold blen at 1. rewrite Hb, zlen_nil.
    pose proof (zlen_nonneg (bq_bytes (c_output (w_c w)))). unfold blen at 2. split; [lia | done]. }
  destruct (control_total _ Hc) as [Td Ta].
  constructor; [rewrite Eo; auto | unfold consts; congruence | constructor; congruence || lia |].
  exists ms. rewrite Td, Ta, Hd, Ha. split_and!; try done; try lia.
  - eapply Forall_impl; [done|]. by intros [].
  - intros (_ & Hn & _). rewrite Eo in Hn. specialize (Hx Hn). lia.
Qed.

Lemma deliver_close E i w :
  env_ok E -> chan_inv w -> win_ok (w_c w) -> conf_ok (w_c w) ->
  accepted (MSG_CHANNEL_CLOSE i) w (channel_input_oclose E [] w).
Proof.
  intros [_ HE] I W C. pose proof (chan_rcvd_oclose_spec E w I) as S.
  destruct (sure_input_oclose E HE w (conf_ready w I C)) as ([] & w' & R & _). simpl in R. rewrite R in S.
  destruct S as [(o & fl & ms & Mv & _ & Hle & Hc & _) I']. exists w'. split_and!; try done.
  eapply moves_effect; try done; [by left|]. intros E3.
  destruct (ci_ostate w' I') as [Eo|[Eo|Eo]]; rewrite (mv_ostate _ _ _ _ _ _ _ Mv) in Eo; lia.
Qed.

Lemma deliver_eow i n r w :
  chan_inv w -> win_ok (w_c w) -> accepted (MSG_CHANNEL_REQUEST i n r) w (chan_rcvd_eow w).
Proof.
  intros I W. destruct (chan_rcvd_eow_spec w I) as (w' & -> & I' & Mv). exists w'. split_and!; try done.
  eapply moves_effect; try done. by left.
Qed.

Lemma deliver_any E m ev w :
  env_ok E -> chan_inv w -> win_ok (w_c w) -> conf_ok (w_c w) -> receivable m (w_c w) ->
  as_event m = Some ev -> accepted m w (exec E ev w).
Proof.
  intros HE I W C R. destruct m; simpl; intros Ev; try done; apply (inj Some) in Ev; rewrite <- Ev.
  - by apply deliver_data.
  - by apply deliver_extended.
  - by apply deliver_eof.
  - by apply deliver_close.
  - by apply deliver_adjust.
  - by apply deliver_eow.
Qed.

(** ** Local events *)

Lemma steps_effect {A} e w (r : res A * world B) :
  win_ok (w_c w) -> steps e w r -> outcome (fun _ w' => effect None w w') r.
Proof. intros W S. eapply outcome_weaken; [exact S|]. intros a w' F _. by eapply flows_effect; [|apply F| |]. Qed.

Lemma local_effect E ev w :
  chan_inv w -> win_ok (w_c w) -> event_ok ev -> local ev -> outcome (fun _ w' => effect None w w') (exec E ev w).
Proof.
  intros I W Ho Hl. assert (outcome (fun _ w' => effect None w w') (Ok tt, w)) as Hid
    by (split; [by apply effect_idle | done]).
  destruct ev; simpl in Ho, Hl |- *; try done.
  all: try (unfold if_open; rewrite bind_chan; destruct (_ =? SSH_CHANNEL_OPEN); [|done]).
  - eapply steps_effect; [done|]. by apply steps_pre_open.
  - destruct Ho. eapply steps_effect; [done|]. by apply steps_post_open.
  - split; [|by destruct I; constructor].
    apply (moves_effect (c_istate (w_c w)) (c_ostate (w_c w)) (c_flags (w_c w)) (c_output (w_c w)) []); try done; [|by left].
    constructor; try done. simpl. by rewrite app_nil_r.
  - eapply steps_effect; [done|]. apply steps_ret'. by apply steps_poll_one.
  - eapply steps_effect; [done|]. by apply steps_read_failed.
  - eapply steps_effect; [done|]. by apply steps_write_failed.
  - eapply steps_effect; [done|]. by apply steps_force_close.
  - eapply steps_effect; [done|]. apply steps_ret'. by apply steps_is_dead.
Qed.

(** An open channel stays open or is abandoned. *)
Definition live (t : Z) : Prop := t = SSH_CHANNEL_OPEN \/ t = SSH_CHANNEL_ABANDONED.

(** The key of a channel whose type is in [T], as far as [keep] looks at the
    flags. *)
Definition kept {X} (T : Z -> Prop) (keep : bool * bool * bool -> X) (x : X) (k : Z * Z * (bool * bool * bool)) : Prop :=
  T (fst (fst k)) /\ keep (snd k) = x.

Lemma local_key {X} (T : Z -> Prop) (keep : bool * bool * bool -> X) x E ev :
  T SSH_CHANNEL_ABANDONED -> local ev -> pres (B := B) (kept T keep x) (exec E ev).
Proof.
  intros HT Hl. destruct ev; simpl in Hl |- *; try done.
  - intros w Hw. unfold if_open. rewrite bind_chan. destruct (_ =? _); [|done]. by apply pres_pre_open.
  - intros w [Hw Hk]. unfold if_open. rewrite bind_chan.
    destruct (Z.eqb_spec (c_type (w_c w)) SSH_CHANNEL_OPEN) as [Eo|]; [|done]. cbn [key fst] in Hw.
    destruct (pres_post_open (fun k => fst (fst k) = SSH_CHANNEL_OPEN /\ keep (snd k) = x) ltac:(by intros ? ? ? [? _]) E a w)
      as [H1 H2]; [done|]. split; [rewrite H1; by rewrite Eo in Hw | done].
  - by apply pres_upd.
  - apply pres_bind; [apply pres_poll_one | intros; apply pres_ret].
  - apply pres_read_failed.
  - apply pres_write_failed.
  - apply pres_force_close. intros t s r [_ Hk]. by split.
  - apply pres_bind; [apply pres_is_dead | intros; apply pres_ret].
Qed.

Lemma deliver_key (T : Z -> Prop) m ev e c l E (w : world B) :
  as_event m = Some ev -> T (c_type (w_c w)) -> rcvd (c_flags (w_c w)) = (e, c, l) ->
  exists e' c', T (c_type (w_c (snd (exec E ev w)))) /\ rcvd (c_flags (w_c (snd (exec E ev w)))) = (e', c', l) /\
    (e' = e \/ exists i, m = MSG_CHANNEL_EOF i) /\ (c' = c \/ exists i, m = MSG_CHANNEL_CLOSE i).
Proof.
  intros Ev Hl Hr.
  assert (pres (B := B) (kept T id (e, c, l)) (exec E ev) -> exists e' c',
    T (c_type (w_c (snd (exec E ev w)))) /\ rcvd (c_flags (w_c (snd (exec E ev w)))) = (e', c', l) /\
    (e' = e \/ exists i, m = MSG_CHANNEL_EOF i) /\ (c' = c \/ exists i, m = MSG_CHANNEL_CLOSE i)) as K.
  { intros P. destruct (P w) as [P1 P2]; [by split|]. exists e, c. split_and!; auto. }
  destruct m; simpl in Ev; try done; apply (inj Some) in Ev; subst ev.
  - apply K, pres_input_data.
  - apply K, pres_input_extended_data.
  - destruct (pres_input_ieof (kept T (fun r => (snd (fst r), snd r)) (c, l)) E [] ltac:(by intros ? ? ? ? []) w) as [P1 P2].
    { unfold key. rewrite Hr. by split. }
    unfold key in P1, P2. cbn [fst snd] in P1, P2. cbn [exec].
    destruct (rcvd (c_flags (w_c (snd (channel_input_ieof E [] w))))) as [[e' c'] l']. injection P2 as -> ->.
    exists e', c. split_and!; eauto.
  - destruct (pres_input_oclose (kept T (fun r => (fst (fst r), snd r)) (e, l)) E [] ltac:(by intros ? ? ? ? []) w) as [P1 P2].
    { unfold key. rewrite Hr. by split. }
    unfold key in P1, P2. cbn [fst snd] in P1, P2. cbn [exec].
    destruct (rcvd (c_flags (w_c (snd (channel_input_oclose E [] w))))) as [[e' c'] l']. injection P2 as -> ->.
    exists e, c'. split_and!; eauto.
  - apply K, pres_input_window_adjust.
  - apply K, pres_rcvd_eow.
Qed.

(** ** The system *)

(** An end: its channel, how many messages of the other end it has taken, and
    whether the channel has been freed. *)
Record peer : Type := mk_peer {
  p_w : world B;
  p_got : nat;
  p_freed : bool;
}.

Inductive action : Type :=
| Local (ev : event)
| Deliver          (* the next message of the other end arrives *)
| Collect.         (* channel_garbage_collect *)

(** What an action leads to; [Fails] is an error that a message caused, or
    undefined behaviour. *)
Inductive verdict : Type := Goes (p : peer) | Ends | Fails.

Definition finish (me : peer) (got : nat) (on_err : verdict) (r : res unit * world B) : verdict :=
  match r with
  | (Ok _, w) => Goes (mk_peer w got (p_freed me))
  | (Err _, _) => on_err
  | (Crash, _) => Fails
  end.

Definition act (E : env) (a : action) (me other : peer) : verdict :=
  match a with
  | Local ev => if p_freed me then Goes me else finish me (p_got me) Ends (exec E ev (p_w me))
  | Collect =>
      if p_freed me then Goes me
      else match chan_is_dead E true (p_w me) with
      | (Ok dead, w) => Goes (mk_peer w (p_got me) dead)
      | (Err _, _) => Ends
      | (Crash, _) => Fails
      end
  | Deliver =>
      match w_sent (p_w other) !! p_got me with
      | None => Goes me
      | Some m =>
          match as_event m with
          | None => Goes (mk_peer (p_w me) (S (p_got me)) (p_freed me))
          | Some ev =>
              if p_freed me then Fails (* no such channel *)
              else finish me (S (p_got me)) Fails (exec E ev (p_w me))
          end
      end
  end.

(** The first of each triple says which end acts. *)
Fixpoint pair_run (l : list (bool * env * action)) (p q : peer) : option (option (peer * peer)) :=
  match l with
  | [] => Some (Some (p, q))
  | (first, E, a) :: l =>
      match (if first : bool then act E a p q else act E a q p) with
      | Goes x => if first then pair_run l x q else pair_run l p x
      | Ends => Some None
      | Fails => None
      end
  end.

Definition action_ok (x : bool * env * action) : Prop :=
  env_ok (snd (fst x)) /\ match snd x with Local ev => event_ok ev /\ local ev | _ => True end.

(** ** The invariant of the two ends *)

(** No extended data, which the receiver may drop without credit. *)
Definition counts_msg (m : msg) : bool :=
  match m with MSG_CHANNEL_EXTENDED_DATA _ _ _ => false | _ => true end.

Record end_ok (me other : peer) : Prop := {
  eo_inv : chan_inv (p_w me);
  eo_win : win_ok (w_c (p_w me));
  eo_conf : conf_ok (w_c (p_w me));
  eo_live : live (c_type (w_c (p_w me)));
  eo_got : (p_got me <= length (w_sent (p_w other)))%nat;
  eo_sent : Forall (msg_ok (c_remote_maxpacket (w_c (p_w me)))) (w_sent (p_w me));
  eo_pack : c_remote_maxpacket (w_c (p_w other)) <= c_local_maxpacket (w_c (p_w me));
  eo_flow : c_remote_window (w_c (p_w other)) + total msg_data (drop (p_got me) (w_sent (p_w other)))
      + total msg_adj (drop (p_got other) (w_sent (p_w me))) <= c_local_window (w_c (p_w me));
  eo_exact : c_type (w_c (p_w me)) = SSH_CHANNEL_OPEN -> c_ostate (w_c (p_w me)) <> 3 ->
    Forall (fun m => counts_msg m = true) (take (p_got me) (w_sent (p_w other))) ->
    c_remote_window (w_c (p_w other)) + total msg_data (drop (p_got me) (w_sent (p_w other)))
      + total msg_adj (drop (p_got other) (w_sent (p_w me))) = c_local_window (w_c (p_w me)) /\
    c_local_window (w_c (p_w me)) + held (w_c (p_w me)) = c_local_window_max (w_c (p_w me));
  eo_rcvd : exists e c, rcvd (c_flags (w_c (p_w me))) = (e, c, false) /\
    (e = true -> exists i, MSG_CHANNEL_EOF i ∈ take (p_got me) (w_sent (p_w other))) /\
    (c = true -> exists i, MSG_CHANNEL_CLOSE i ∈ take (p_got me) (w_sent (p_w other))) /\
    (p_freed me = true -> c = true);
}.

Lemma msg_ok_mono k k' m : k <= k' -> msg_ok k m -> msg_ok k' m.
Proof. destruct m; simpl; intros; try done; destruct_and?; split_and?; try done; lia. Qed.

(** The next message is one that can be received. *)
Lemma next_receivable a b m :
  end_ok a b -> end_ok b a -> w_sent (p_w b) !! p_got a = Some m -> receivable m (w_c (p_w a)).
Proof.
  intros A Bo Hm. pose proof (eo_flow _ _ A) as Fa. pose proof (eo_flow _ _ Bo) as Fb.
  rewrite (drop_S _ _ _ Hm) in Fa, Fb. cbn [total] in Fa, Fb.
  pose proof (eo_sent _ _ Bo) as Sb. pose proof (eo_sent _ _ A) as Sa.
  assert (Forall (msg_ok (c_remote_maxpacket (w_c (p_w b)))) (drop (S (p_got a)) (w_sent (p_w b)))) as Sb' by by apply Forall_drop.
  assert (Forall (msg_ok (c_remote_maxpacket (w_c (p_w a)))) (drop (p_got b) (w_sent (p_w a)))) as Sa' by by apply Forall_drop.
  pose proof (msg_data_nonneg _ _ Sb'). pose proof (msg_adj_nonneg _ _ Sb').
  pose proof (msg_data_nonneg _ _ Sa'). pose proof (msg_adj_nonneg _ _ Sa').
  pose proof (eo_win _ _ A) as Wa. pose proof (eo_win _ _ Bo) as Wb. destruct Wa as [_ ? _ _ _], Wb as [_ ? ? ? Hb].
  assert (0 <= held (w_c (p_w b))) as Hh.
  { pose proof (held_output (w_c (p_w b))). pose proof (zlen_nonneg (bq_bytes (c_output (w_c (p_w b))))). unfold blen in *. lia. }
  constructor; [lia | | lia |].
  - eapply msg_ok_mono; [apply A|]. by eapply Forall_lookup_1 in Sb.
  - intros Hd. destruct (eo_rcvd _ _ A) as (e & c & Hr & He & _).
    destruct e; [|by injection Hr]. exfalso. destruct (He eq_refl) as (i & Hi).
    destruct (phase_at _ _ _ _ _ (ci_phase _ (eo_inv _ _ Bo)) Hm) as (q & Hq & Hs).
    assert (q <> PhOpen) as Hno by (eapply phase_leaves_open; eauto).
    destruct Hd as [Hd|(? & ? & ? & ->)]; [destruct m|]; destruct q; done.
Qed.

Definition takes_msg (m : option msg) (a b : peer) (g : nat) : Prop :=
  match m with
  | None => g = p_got a
  | Some x => w_sent (p_w b) !! p_got a = Some x /\ g = S (p_got a)
  end.

Lemma takes_msg_totals m a b g : takes_msg m a b g -> (p_got a <= length (w_sent (p_w b)))%nat ->
  (p_got a <= g <= length (w_sent (p_w b)))%nat /\
  (Forall (fun m => counts_msg m = true) (take g (w_sent (p_w b))) ->
   Forall (fun m => counts_msg m = true) (take (p_got a) (w_sent (p_w b))) /\
   match m with Some x => counts_msg x = true | None => True end) /\
  total msg_data (drop (p_got a) (w_sent (p_w b))) = opt_data m + total msg_data (drop g (w_sent (p_w b))) /\
  total msg_adj (drop (p_got a) (w_sent (p_w b))) = opt_adj m + total msg_adj (drop g (w_sent (p_w b))).
Proof.
  destruct m as [x|]; simpl; [|by intros ->].
  intros [Hx ->] _. apply lookup_lt_Some in Hx as Hl. rewrite (drop_S _ _ _ Hx), (take_S_r _ _ _ Hx).
  split_and!; try done; try lia. intros [? F]%Forall_app. by apply Forall_cons in F as [? _].
Qed.

(** An end moves: both ends stay in order. *)
Lemma step_ends a b m w' g fr :
  end_ok a b -> end_ok b a -> effect m (p_w a) w' -> chan_inv w' -> live (c_type (w_c w')) ->
  (c_type (w_c (p_w a)) = SSH_CHANNEL_ABANDONED -> c_type (w_c w') = SSH_CHANNEL_ABANDONED) -> takes_msg m a b g ->
  (exists e c, rcvd (c_flags (w_c w')) = (e, c, false) /\
    (e = true -> exists i, MSG_CHANNEL_EOF i ∈ take g (w_sent (p_w b))) /\
    (c = true -> exists i, MSG_CHANNEL_CLOSE i ∈ take g (w_sent (p_w b))) /\ (fr = true -> c = true)) ->
  end_ok (mk_peer w' g fr) b /\ end_ok b (mk_peer w' g fr).
Proof.
  intros A Bo [Mo C W (ms & Es & Fm & Er & El & Ex)] I L Lk T R.
  destruct (takes_msg_totals _ _ _ _ T (eo_got _ _ A)) as (Hg & Tc & Td & Ta).
  pose proof (consts_eq _ _ C) as (Emp & Elp & Em & _ & Eid & _).
  pose proof (eo_flow _ _ A) as Fa. pose proof (eo_flow _ _ Bo) as Fb. rewrite Td in Fa. rewrite Ta in Fb.
  pose proof (eo_got _ _ Bo) as Gb.
  split; constructor; cbn [p_w p_got p_freed]; try done; try apply Bo.
  - destruct (eo_conf _ _ A). split; congruence.
  - lia.
  - rewrite Emp, Es. apply Forall_app_2; [apply A | done].
  - rewrite Elp. apply A.
  - rewrite Es, drop_app_le, total_app by done. lia.
  - intros Ht Ho Hc. destruct (Tc Hc) as [Hc' Hm].
    assert (c_type (w_c (p_w a)) = SSH_CHANNEL_OPEN) as Hto.
    { destruct (eo_live _ _ A) as [?|X]; [done|]. rewrite (Lk X) in Ht. done. }
    destruct (eo_exact _ _ A Hto (fun X => Ho (Mo X)) Hc') as [E1 E2].
    assert (counts m w') as Hcm by (split_and!; try done; by destruct m as [[]|]).
    destruct (Ex Hcm) as [E3 E4]. rewrite Es, drop_app_le, total_app, Em by done. rewrite Td in E1. lia.
  - rewrite Es, length_app. lia.
  - rewrite Emp. apply Bo.
  - rewrite Es, drop_app_le, total_app by done. lia.
  - rewrite Es, take_app_le, drop_app_le, total_app by done. intros Ht Ho Hc.
    destruct (eo_exact _ _ Bo Ht Ho Hc) as [E1 E2]. rewrite Ta in E1. lia.
  - destruct (eo_rcvd _ _ Bo) as (e & c & Hr & He & Hc & Hf). exists e, c. rewrite Es.
    split_and!; try done; intros X; [destruct (He X) as [i Hi] | destruct (Hc X) as [i Hi]]; exists i;
      by rewrite take_app_le.
Qed.

Lemma rcvd_kept a b (w' : world B) e c :
  end_ok a b -> rcvd (c_flags (w_c (p_w a))) = (e, c, false) -> rcvd (c_flags (w_c w')) = (e, c, false) ->
  exists e c, rcvd (c_flags (w_c w')) = (e, c, false) /\
    (e = true -> exists i, MSG_CHANNEL_EOF i ∈ take (p_got a) (w_sent (p_w b))) /\
    (c = true -> exists i, MSG_CHANNEL_CLOSE i ∈ take (p_got a) (w_sent (p_w b))) /\ (p_freed a = true -> c = true).
Proof.
  intros A Hr Hr'. destruct (eo_rcvd _ _ A) as (e1 & c1 & Hr1 & He & Hc & Hf).
  rewrite Hr in Hr1. injection Hr1 as <- <-. by exists e, c.
Qed.

Definition goes_ok (b : peer) (v : verdict) : Prop :=
  match v with Goes a => end_ok a b /\ end_ok b a | Ends => True | Fails => False end.

Lemma act_local E ev a b :
  end_ok a b -> end_ok b a -> event_ok ev -> local ev -> goes_ok b (act E (Local ev) a b).
Proof.
  intros A Bo Ho Hl. simpl. destruct (p_freed a) eqn:Fr; [done|].
  destruct (eo_rcvd _ _ A) as (e & c & Hr & _).
  pose proof (local_effect E ev (p_w a) (eo_inv _ _ A) (eo_win _ _ A) Ho Hl) as X.
  destruct (local_key live id (e, c, false) E ev (or_intror eq_refl) Hl (p_w a)) as [K1 K2]; [by split; [apply A|]|].
  pose proof (fun X => proj1 (local_key (eq SSH_CHANNEL_ABANDONED) id (e, c, false) E ev eq_refl Hl (p_w a)
    (conj (eq_sym X) Hr))) as K3. cbn [key fst] in K3.
  unfold outcome in X. unfold finish. destruct (exec E ev (p_w a)) as [[[]|er|] w']; [|done|done].
  destruct X as [Ef I]. cbn [snd] in *.
  eapply step_ends; try done; [intros X; symmetry; by apply K3 | by eapply rcvd_kept].
Qed.

Lemma act_collect E a b : end_ok a b -> end_ok b a -> goes_ok b (act E Collect a b).
Proof.
  intros A Bo. simpl. destruct (p_freed a) eqn:Fr; [done|].
  destruct (eo_rcvd _ _ A) as (e & c & Hr & He & Hc & _).
  pose proof (chan_is_dead_spec E true (p_w a) (eo_inv _ _ A)) as X.
  pose proof (steps_effect false _ _ (eo_win _ _ A) (steps_is_dead E true _ (eo_inv _ _ A))) as Y.
  destruct (pres_is_dead (kept live id (e, c, false)) E true (p_w a)) as [K1 K2]; [by split; [apply A|]|].
  pose proof (fun X => proj1 (pres_is_dead (kept (eq SSH_CHANNEL_ABANDONED) id (e, c, false)) E true (p_w a)
    (conj (eq_sym X) Hr))) as K3. cbn [key fst] in K3.
  unfold outcome in *. destruct (chan_is_dead E true (p_w a)) as [[d|er|] w']; [|done|done].
  destruct X as [(fl & ms & _ & _ & _ & Hd & _) I], Y as [Ef _]. cbn [snd] in *.
  eapply step_ends; try done; [intros X; symmetry; by apply K3|]. exists e, c. split_and!; try done. intros Hdt.
  destruct (Hd Hdt) as [Hz|(_ & _ & [Hlo|Hcr])].
  - destruct (eo_live _ _ A) as [Hx|Hx]; rewrite Hx in Hz; discriminate Hz.
  - unfold rcvd in Hr. congruence.
  - unfold rcvd in Hr. congruence.
Qed.

Lemma act_deliver E a b : env_ok E -> end_ok a b -> end_ok b a -> goes_ok b (act E Deliver a b).
Proof.
  intros HE A Bo. simpl. destruct (_ !! _) as [m|] eqn:Hm; [|done].
  destruct (eo_rcvd _ _ A) as (e & c & Hr & He & Hc & Hf).
  pose proof (eo_inv _ _ A) as Ia. pose proof (eo_win _ _ A) as Wa.
  assert (forall x, x ∈ take (p_got a) (w_sent (p_w b)) -> x ∈ take (S (p_got a)) (w_sent (p_w b))) as Hsub.
  { intros x Hx. rewrite (take_S_r _ _ _ Hm). apply elem_of_app. by left. }
  assert (m ∈ take (S (p_got a)) (w_sent (p_w b))) as Hin.
  { rewrite (take_S_r _ _ _ Hm). apply elem_of_app. right. by apply list_elem_of_singleton. }
  destruct (as_event m) as [ev|] eqn:Hev.
  - destruct (p_freed a) eqn:Fr.
    + destruct (Hc (Hf eq_refl)) as [i Hi].
      destruct (phase_at _ _ _ _ _ (ci_phase _ (eo_inv _ _ Bo)) Hm) as (q & Hq & Hs).
      assert (q = PhClosed) as -> by (eapply phase_closes; eauto). by destruct m.
    + destruct (deliver_any E m ev (p_w a) HE Ia Wa (eo_conf _ _ A) (next_receivable _ _ _ A Bo Hm) Hev)
        as (w' & R & I' & Ef).
      destruct (deliver_key live m ev e c false E (p_w a) Hev (eo_live _ _ A) Hr) as (e' & c' & K1 & K2 & K3 & K4).
      pose proof (fun X => deliver_key (eq SSH_CHANNEL_ABANDONED) m ev e c false E (p_w a) Hev (eq_sym X) Hr) as K5.
      rewrite R in *. cbn [snd finish] in *. rewrite Fr. eapply step_ends; try done.
      { intros X. destruct (K5 X) as (? & ? & ? & _). done. }
      exists e', c'. split_and!; try done.
      * intros ->. destruct K3 as [<-|[i ->]]; [destruct (He eq_refl) as [i Hi]; eauto | eauto].
      * intros ->. destruct K4 as [<-|[i ->]]; [destruct (Hc eq_refl) as [i Hi]; eauto | eauto].
  - eapply (step_ends a b (Some m)); try done; try apply A.
    + destruct m; try done. by apply effect_idle.
    + exists e, c. split_and!; try done; [intros X; destruct (He X) as [i Hi] | intros X; destruct (Hc X) as [i Hi]]; eauto.
Qed.

Lemma pair_run_ok l a b :
  end_ok a b -> end_ok b a -> Forall action_ok l ->
  match pair_run l a b with
  | Some (Some (a', b')) => end_ok a' b' /\ end_ok b' a'
  | Some None => True
  | None => False
  end.
Proof.
  revert a b. induction l as [|[[s E] x] l IH]; intros a b A Bo F; [done|]. apply Forall_cons in F as [[HE Hx] F].
  assert (forall a b, end_ok a b -> end_ok b a -> goes_ok b (act E x a b)) as Hstep.
  { intros p q P Q. destruct x; simpl in Hx; [destruct Hx; by apply act_local | by apply act_deliver | by apply act_collect]. }
  simpl. destruct s.
  - pose proof (Hstep a b A Bo). destruct (act E x a b); [destruct H1; by apply IH | done | done].
  - pose proof (Hstep b a Bo A). destruct (act E x b a); [destruct H1; by apply IH | done | done].
Qed.
End Pair.
