(* ===== verification/ChanTable.v ===== *)
(** * Channels: the table

    The channels of a connection ([struct ssh_channels] of src/channels.c):
    creating, looking up and opening a channel, inactivity timeouts, and the
    questions the main loops ask.  The buffers are those of sshbuf; each slot
    holds the channel with what it has sent and done.  A message names a
    channel by its slot. *)
From S2P Require Import Prelude Sshbuf SshbufGetput SshbufSpec CString SshbufMisc Match ByteQueue Nchan ChanIO.
From S2P Require Import ChanInv ChanFlow ChanFrame ChanRecv.

(** ** Constants: src/channels.h *)

Definition SSH_CHANNEL_X11_LISTENER : Z := 1.
Definition SSH_CHANNEL_PORT_LISTENER : Z := 2.
Definition SSH_CHANNEL_CLOSED : Z := 5.
Definition SSH_CHANNEL_AUTH_SOCKET : Z := 6.
Definition SSH_CHANNEL_RPORT_LISTENER : Z := 11.
Definition SSH_CHANNEL_MUX_LISTENER : Z := 15.
Definition SSH_CHANNEL_MUX_CLIENT : Z := 16.
Definition SSH_CHANNEL_UNIX_LISTENER : Z := 18.
Definition SSH_CHANNEL_RUNIX_LISTENER : Z := 19.
Definition CHANNELS_MAX_CHANNELS : Z := 16 * 1024.
Definition CHAN_SES_WINDOW_DEFAULT : Z := 64 * CHAN_SES_PACKET_DEFAULT.
Definition CHANNEL_NONBLOCK_STDIO : Z := 2.
Definition INT_MAX : Z := 2 ^ 31 - 1.

Record ssh_channels : Type := mk_channels {
  sc_channels : list (option (world sshbuf));   (* channels, channels_alloc *)
  sc_timeouts : list (list Z * Z);              (* type_pattern, timeout_secs *)
  sc_global_deadline : Z;
  sc_lastused : Z;
}.

Definition set_channels (l : list (option (world sshbuf))) (sc : ssh_channels) : ssh_channels :=
  mk_channels l (sc_timeouts sc) (sc_global_deadline sc) (sc_lastused sc).

(** ** Lookup *)

Definition channel_by_id (sc : ssh_channels) (id : Z) : option (world sshbuf) :=
  if (id <? 0) || (zlen (sc_channels sc) <=? id) then None
  else default None (sc_channels sc !! Z.to_nat id).

Fixpoint by_remote_id_loop (l : list (option (world sshbuf))) (remote_id : Z) : option (world sshbuf) :=
  match l with
  | [] => None
  | Some w :: l =>
      if c_have_remote_id (w_c w) && (c_remote_id (w_c w) =? remote_id) then Some w
      else by_remote_id_loop l remote_id
  | None :: l => by_remote_id_loop l remote_id
  end.
Definition channel_by_remote_id (sc : ssh_channels) (remote_id : Z) : option (world sshbuf) :=
  by_remote_id_loop (sc_channels sc) remote_id.

(** The types that may receive protocol messages. *)
Definition public (type : Z) : bool :=
  (type =? SSH_CHANNEL_X11_OPEN) || (type =? SSH_CHANNEL_LARVAL) || (type =? SSH_CHANNEL_CONNECTING)
  || (type =? SSH_CHANNEL_DYNAMIC) || (type =? SSH_CHANNEL_RDYNAMIC_OPEN)
  || (type =? SSH_CHANNEL_RDYNAMIC_FINISH) || (type =? SSH_CHANNEL_OPENING) || (type =? SSH_CHANNEL_OPEN)
  || (type =? SSH_CHANNEL_ABANDONED) || (type =? SSH_CHANNEL_MUX_PROXY).

Definition channel_lookup (sc : ssh_channels) (id : Z) : option (world sshbuf) :=
  match channel_by_id sc id with
  | None => None
  | Some w => if public (c_type (w_c w)) then Some w else None
  end.

(** ** Timeouts *)

Definition channel_add_timeout (type_pattern : list Z) (timeout_secs : Z) (sc : ssh_channels) : ssh_channels :=
  if streq type_pattern (str "global")
  then mk_channels (sc_channels sc) (sc_timeouts sc) timeout_secs (sc_lastused sc)
  else mk_channels (sc_channels sc) (sc_timeouts sc ++ [(type_pattern, timeout_secs)])
         (sc_global_deadline sc) (sc_lastused sc).

Definition channel_clear_timeouts (sc : ssh_channels) : ssh_channels :=
  mk_channels (sc_channels sc) [] (sc_global_deadline sc) (sc_lastused sc).

Fixpoint lookup_timeout (timeouts : list (list Z * Z)) (type : list Z) : Z :=
  match timeouts with
  | [] => 0
  | (pattern, secs) :: timeouts =>
      if default false (match_pattern type pattern) then secs else lookup_timeout timeouts type
  end.

(** In signed arithmetic of [time_t]. *)
Definition channel_get_expiry (sc : ssh_channels) (c : Channel sshbuf) : Z :=
  let expiry := if negb (sc_lastused sc =? 0) && negb (sc_global_deadline sc =? 0)
                then sc_lastused sc + sc_global_deadline sc else 0 in
  if negb (c_lastused c =? 0) && negb (c_inactive_deadline c =? 0) then
    let channel_expiry := c_lastused c + c_inactive_deadline c in
    if (expiry =? 0) || (channel_expiry <? expiry) then channel_expiry else expiry
  else expiry.

(** ** Creation *)

(** What is asked of the system about descriptors: isatty(3) and the flags
    that F_GETFL gives, with [O_NONBLOCK]. *)
Record fdinfo : Type := mk_fdinfo {
  fi_isatty : Z -> bool;
  fi_getfl : Z -> Z;   (* -1 on error *)
}.
Definition O_NONBLOCK : Z := 0x800.

Definition want_restore (fi : fdinfo) (fd : Z) : bool :=
  negb (fd =? -1) && negb (fi_isatty fi fd) && negb (fi_getfl fi fd =? -1)
  && negb (has (fi_getfl fi fd) O_NONBLOCK).

(** The fields that [channel_register_fds] sets; the descriptor flags it sets
    (close on exec, non-blocking) are not part of the state. *)
Definition channel_register_fds (fi : fdinfo) (rfd wfd efd extusage nonblock : Z) (is_tty : bool)
    (c : Channel sshbuf) : Channel sshbuf :=
  let keep i fd flag (acc : list Z * Z) :=
    if (nonblock =? CHANNEL_NONBLOCK_STDIO) && want_restore fi fd
    then (<[i := fi_getfl fi fd]> (fst acc), Z.lor (snd acc) flag) else acc in
  let acc := keep 0%nat rfd CHANNEL_RESTORE_RFD (c_restore_flags c, 0) in
  let acc := keep 1%nat wfd CHANNEL_RESTORE_WFD acc in
  let acc := keep 2%nat efd CHANNEL_RESTORE_EFD acc in
  mk_channel (c_type c) (c_self c) (c_remote_id c) (c_have_remote_id c) (c_istate c) (c_ostate c) (c_flags c)
    rfd wfd efd (if rfd =? wfd then rfd else -1) (c_io_want c) (c_io_ready c) (c_pfds c) is_tty (c_force_drain c)
    (snd acc) (fst acc) (c_input c) (c_output c) (c_extended c) (c_remote_window c) (c_remote_maxpacket c)
    (c_local_window c) (c_local_window_exceeded c) (c_local_window_max c) (c_local_consumed c)
    (c_local_maxpacket c) extusage (c_ctype c) (c_detach_close c) (c_datagram c) (c_lastused c)
    (c_inactive_deadline c).

Fixpoint free_slot (l : list (option (world sshbuf))) : nat :=
  match l with
  | [] => 0
  | None :: _ => 0
  | Some _ :: l => S (free_slot l)
  end.

(** The channel as [channel_new] leaves it; [xcalloc] has cleared it. *)
Definition fresh_channel (fi : fdinfo) (input output extended : sshbuf) (found : Z) (ctype : list Z)
    (type rfd wfd efd window maxpack extusage nonblock inactive_deadline : Z) : Channel sshbuf :=
  let c := mk_channel 0 0 0 false CHAN_INPUT_OPEN CHAN_OUTPUT_OPEN 0 0 0 0 0 0 0 [0; 0; 0; 0] false false 0 [0; 0; 0]
    input output extended 0 0 0 0 0 0 0 0 [] false false 0 0 in
  let c := channel_register_fds fi rfd wfd efd extusage nonblock false c in
  mk_channel type found 0 false (c_istate c) (c_ostate c) (c_flags c) (c_rfd c) (c_wfd c) (c_efd c) (c_sock c)
    (c_io_want c) (c_io_ready c) (c_pfds c) (c_isatty c) (c_force_drain c) (c_restore_block c) (c_restore_flags c)
    (c_input c) (c_output c) (c_extended c) 0 0 window 0 window 0 maxpack (c_extended_usage c) ctype false false
    (c_lastused c) inactive_deadline.

(** [a] is the answers of the allocator for the three buffers. *)
Definition channel_new (a : list Z) (now : Z) (fi : fdinfo) (ctype : list Z) (type rfd wfd efd window maxpack extusage : Z)
    (nonblock : Z) : ST ssh_channels Z := fun sc =>
  let l := sc_channels sc in
  let found := free_slot l in
  if (length l <=? found)%nat && (CHANNELS_MAX_CHANNELS <? zlen l) then (Err FATAL, sc)
  else
    let l := if (length l <=? found)%nat then l ++ replicate 10 None else l in
    let sc := set_channels l sc in
    let ans i := default 0 (a !! i) in
    match sshbuf_new (ans 0%nat) (ans 1%nat), sshbuf_new (ans 2%nat) (ans 3%nat), sshbuf_new (ans 4%nat) (ans 5%nat) with
    | Some input, Some output, Some extended =>
        match sshbuf_set_max_size (ans 6%nat) CHAN_INPUT_MAX input with
        | (Ok _, input) =>
            let c := fresh_channel fi input output extended (Z.of_nat found) ctype type rfd wfd efd window maxpack
                       extusage nonblock (lookup_timeout (sc_timeouts sc) ctype) in
            (Ok (Z.of_nat found),
             mk_channels (<[found := Some (mk_world c [] [] now)]> l) (sc_timeouts sc) (sc_global_deadline sc) now)
        | (Err _, _) => (Err FATAL, sc)
        | (Crash, _) => (Crash, sc)
        end
    | _, _, _ => (Err FATAL, sc)
    end.

(** ** Messages for a channel *)

Definition channel_parse_id (pkt : list Z) : res (Z * list Z) :=
  match pkt_u32 pkt with
  | Ok (id, pkt) => if INT_MAX <? id then Err DISCONNECT else Ok (id, pkt)
  | _ => Err DISCONNECT
  end.

(** [channel_from_packet_id], then the handler on the rest of the packet. *)
Definition channel_from_packet_id (handler : list Z -> CM sshbuf unit) (pkt : list Z) : ST ssh_channels unit := fun sc =>
  match channel_parse_id pkt with
  | Ok (id, pkt) =>
      match channel_lookup sc id with
      | None => (Err DISCONNECT, sc)
      | Some w =>
          let '(r, w) := handler pkt (mk_world (w_c w) (w_sent w) (w_sys w) (sc_lastused sc)) in
          (r, mk_channels (<[Z.to_nat id := Some w]> (sc_channels sc)) (sc_timeouts sc) (sc_global_deadline sc)
                (w_lastused w))
      end
  | Err e => (Err e, sc)
  | Crash => (Crash, sc)
  end.

(** After the channel number.  [open_confirm] is the callback, if any. *)
Definition channel_input_open_confirmation (E : env) (open_confirm : option (CM sshbuf unit)) (pkt : list Z) : CM sshbuf unit :=
  let! c := chan in
  if negb (c_type c =? SSH_CHANNEL_OPENING) then ssh_packet_disconnect
  else match pkt_u32 pkt with
  | Ok (remote_id, pkt) =>
      match pkt_u32 pkt with
      | Ok (remote_window, pkt) =>
          match pkt_u32 pkt with
          | Ok (remote_maxpacket, []) =>
              do! upd (fun c => mk_channel SSH_CHANNEL_OPEN (c_self c) remote_id true (c_istate c) (c_ostate c) (c_flags c)
                (c_rfd c) (c_wfd c) (c_efd c) (c_sock c) (c_io_want c) (c_io_ready c) (c_pfds c) (c_isatty c)
                (c_force_drain c) (c_restore_block c) (c_restore_flags c) (c_input c) (c_output c) (c_extended c)
                remote_window remote_maxpacket (c_local_window c) (c_local_window_exceeded c) (c_local_window_max c)
                (c_local_consumed c) (c_local_maxpacket c) (c_extended_usage c) (c_ctype c) (c_detach_close c)
                (c_datagram c) (c_lastused c) (c_inactive_deadline c)) ;;
              do! (match open_confirm with Some f => f | None => ret tt end) ;;
              channel_set_used_time E
          | _ => ssh_packet_disconnect
          end
      | _ => ssh_packet_disconnect
      end
  | _ => ssh_packet_disconnect
  end.

(** ** The main loop *)

(** channel_output_poll: the loop over the channels, stopped by [fatal]. *)
Fixpoint output_poll_loop (E : env) (ret : Z) (l : list (option (world sshbuf))) : res Z * list (option (world sshbuf)) :=
  match l with
  | [] => (Ok ret, [])
  | None :: l => let '(r, l) := output_poll_loop E ret l in (r, None :: l)
  | Some w :: l =>
      match channel_output_poll_one E w with
      | (Ok r1, w) => let '(r, l) := output_poll_loop E (Z.lor ret r1) l in (r, Some w :: l)
      | (Err e, w) => (Err e, Some w :: l)
      | (Crash, w) => (Crash, Some w :: l)
      end
  end.
Definition channel_output_poll (E : env) : ST ssh_channels Z := fun sc =>
  let '(r, l) := output_poll_loop E 0 (sc_channels sc) in (r, set_channels l sc).

(** For a channel that is neither a multiplexing client nor its listener; the
    memory it frees and the callbacks of pending requests are not modelled.
    The result is the system calls made. *)
Definition channel_free (id : Z) : ST ssh_channels (list syscall) := fun sc =>
  match channel_by_id sc id with
  | None => (Crash, sc)
  | Some w =>
      match channel_close_fds (mk_world (w_c w) (w_sent w) [] (w_lastused w)) with
      | (Ok _, w) => (Ok (w_sys w), set_channels (<[Z.to_nat id := None]> (sc_channels sc)) sc)
      | (Err e, _) => (Err e, sc)
      | (Crash, _) => (Crash, sc)
      end
  end.

(** A channel without a [detach_user] callback. *)
Definition channel_garbage_collect (E : env) (id : Z) : ST ssh_channels (list syscall) := fun sc =>
  match channel_by_id sc id with
  | None => (Ok [], sc)
  | Some w =>
      match chan_is_dead E true w with
      | (Ok dead, w) =>
          let sc := set_channels (<[Z.to_nat id := Some w]> (sc_channels sc)) sc in
          if negb dead then (Ok [], sc) else channel_free id sc
      | (Err e, _) => (Err e, sc)
      | (Crash, _) => (Crash, sc)
      end
  end.

(** ** Questions *)

Fixpoint still_open_loop (l : list (option (world sshbuf))) : res bool :=
  match l with
  | [] => Ok false
  | None :: l => still_open_loop l
  | Some w :: l =>
      let t := c_type (w_c w) in
      if (t =? SSH_CHANNEL_X11_LISTENER) || (t =? SSH_CHANNEL_PORT_LISTENER) || (t =? SSH_CHANNEL_RPORT_LISTENER)
         || (t =? SSH_CHANNEL_MUX_LISTENER) || (t =? SSH_CHANNEL_CLOSED) || (t =? SSH_CHANNEL_AUTH_SOCKET)
         || (t =? SSH_CHANNEL_DYNAMIC) || (t =? SSH_CHANNEL_RDYNAMIC_OPEN) || (t =? SSH_CHANNEL_CONNECTING)
         || (t =? SSH_CHANNEL_ZOMBIE) || (t =? SSH_CHANNEL_ABANDONED) || (t =? SSH_CHANNEL_UNIX_LISTENER)
         || (t =? SSH_CHANNEL_RUNIX_LISTENER) || (t =? SSH_CHANNEL_LARVAL)
      then still_open_loop l
      else if (t =? SSH_CHANNEL_OPENING) || (t =? SSH_CHANNEL_OPEN) || (t =? SSH_CHANNEL_RDYNAMIC_FINISH)
              || (t =? SSH_CHANNEL_X11_OPEN) || (t =? SSH_CHANNEL_MUX_CLIENT) || (t =? SSH_CHANNEL_MUX_PROXY)
      then Ok true
      else Err FATAL
  end.
Definition channel_still_open (sc : ssh_channels) : res bool := still_open_loop (sc_channels sc).

Fixpoint find_open_loop (i : Z) (l : list (option (world sshbuf))) : res Z :=
  match l with
  | [] => Ok (-1)
  | None :: l => find_open_loop (i + 1) l
  | Some w :: l =>
      let t := c_type (w_c w) in
      if negb (c_have_remote_id (w_c w)) then find_open_loop (i + 1) l
      else if (t =? SSH_CHANNEL_CLOSED) || (t =? SSH_CHANNEL_DYNAMIC) || (t =? SSH_CHANNEL_RDYNAMIC_OPEN)
         || (t =? SSH_CHANNEL_RDYNAMIC_FINISH) || (t =? SSH_CHANNEL_X11_LISTENER) || (t =? SSH_CHANNEL_PORT_LISTENER)
         || (t =? SSH_CHANNEL_RPORT_LISTENER) || (t =? SSH_CHANNEL_MUX_LISTENER) || (t =? SSH_CHANNEL_MUX_CLIENT)
         || (t =? SSH_CHANNEL_MUX_PROXY) || (t =? SSH_CHANNEL_OPENING) || (t =? SSH_CHANNEL_CONNECTING)
         || (t =? SSH_CHANNEL_ZOMBIE) || (t =? SSH_CHANNEL_ABANDONED) || (t =? SSH_CHANNEL_UNIX_LISTENER)
         || (t =? SSH_CHANNEL_RUNIX_LISTENER)
      then find_open_loop (i + 1) l
      else if (t =? SSH_CHANNEL_LARVAL) || (t =? SSH_CHANNEL_AUTH_SOCKET) || (t =? SSH_CHANNEL_OPEN)
              || (t =? SSH_CHANNEL_X11_OPEN)
      then Ok i
      else Err FATAL
  end.
Definition channel_find_open (sc : ssh_channels) : res Z := find_open_loop 0 (sc_channels sc).

Fixpoint buffered_loop (maxsize : Z) (l : list (option (world sshbuf))) : res bool :=
  match l with
  | [] => Ok true
  | None :: l => buffered_loop maxsize l
  | Some w :: l =>
      if negb (c_type (w_c w) =? SSH_CHANNEL_OPEN) then buffered_loop maxsize l
      else
        let? n := sshbuf_len (c_output (w_c w)) in
        if maxsize <? n then Ok false else buffered_loop maxsize l
  end.
Definition channel_not_very_much_buffered_data (maxsize : Z) (sc : ssh_channels) : res bool :=
  buffered_loop maxsize (sc_channels sc).

(** ** The invariant of the table *)

Definition slot_ok (i : nat) (o : option (world sshbuf)) : Prop :=
  match o with Some w => chan_inv w /\ c_self (w_c w) = Z.of_nat i | None => True end.

Definition table_ok (sc : ssh_channels) : Prop :=
  zlen (sc_channels sc) <= CHANNELS_MAX_CHANNELS + 10 /\
  forall i o, sc_channels sc !! i = Some o -> slot_ok i o.

Lemma by_id_lookup sc id :
  channel_by_id sc id = if id <? 0 then None else default None (sc_channels sc !! Z.to_nat id).
Proof.
  unfold channel_by_id. destruct (Z.ltb_spec id 0); [done|]. cbn [orb].
  destruct (Z.leb_spec (zlen (sc_channels sc)) id); [|done].
  rewrite lookup_ge_None_2; [done|]. unfold zlen in *. lia.
Qed.

Lemma by_id_ok sc id w : table_ok sc -> channel_by_id sc id = Some w ->
  0 <= id /\ sc_channels sc !! Z.to_nat id = Some (Some w) /\ chan_inv w /\ c_self (w_c w) = id.
Proof.
  intros [_ T]. rewrite by_id_lookup. destruct (Z.ltb_spec id 0); [done|].
  destruct (sc_channels sc !! Z.to_nat id) as [[w'|]|] eqn:Hl; try done. simpl. intros [= <-].
  destruct (T _ _ Hl) as [? Hs]. split_and!; try done. rewrite Hs. lia.
Qed.

Lemma free_slot_lookup l : (free_slot l <= length l)%nat /\
  forall o, l !! free_slot l = Some o -> o = None.
Proof.
  induction l as [|[w|] l [IH1 IH2]]; simpl; [done | | by split; [lia | intros ? [= <-]]].
  split; [lia | done].
Qed.

Lemma insert_slots (l : list (option (world sshbuf))) i o :
  (forall j x, l !! j = Some x -> slot_ok j x) -> slot_ok i o ->
  forall j x, <[i := o]> l !! j = Some x -> slot_ok j x.
Proof.
  intros Hl Ho j x. destruct (decide (i = j)) as [->|N].
  - intros Hx. apply list_lookup_insert_Some in Hx as [(_ & <- & _)|[? _]]; done.
  - rewrite list_lookup_insert_ne by done. apply Hl.
Qed.

(** The buffers of a new channel. *)
Lemma new_buffers ps pd b : 0 < ps -> 0 < pd -> sshbuf_new ps pd = Some b -> chan_buf b /\ contents b = [].
Proof.
  intros Hs Hd Hb. destruct (sshbuf_new_wf ps pd b Hs Hd Hb) as (W & C & R & Mx).
  split; [|done]. split_and!; try done. rewrite Mx. unfold CHAN_INPUT_MAX. sb_consts. lia.
Qed.

Lemma limited_buffer np b b' :
  chan_buf b -> contents b = [] -> sshbuf_set_max_size np CHAN_INPUT_MAX b = (Ok tt, b') ->
  chan_buf b' /\ contents b' = [].
Proof.
  intros (W & R & _) C E.
  destruct (sshbuf_set_max_size_spec np CHAN_INPUT_MAX b W) as (r & b1 & E1 & _ & W1 & C1 & R1 & M1); [done|].
  rewrite E in E1. injection E1 as <- <-. rewrite decide_True in M1 by done.
  split; [|congruence]. split_and!; [done | congruence | by rewrite M1].
Qed.

(** Where a channel starts. *)
Definition is_new (ctype : list Z) (type rfd wfd efd window maxpack extusage : Z) (w : world sshbuf) : Prop :=
  c_type (w_c w) = type /\ c_istate (w_c w) = CHAN_INPUT_OPEN /\ c_ostate (w_c w) = CHAN_OUTPUT_OPEN /\
  c_flags (w_c w) = 0 /\ c_have_remote_id (w_c w) = false /\ c_ctype (w_c w) = ctype /\
  (c_rfd (w_c w), c_wfd (w_c w), c_efd (w_c w)) = (rfd, wfd, efd) /\
  c_local_window (w_c w) = window /\ c_local_window_max (w_c w) = window /\ c_local_maxpacket (w_c w) = maxpack /\
  c_remote_window (w_c w) = 0 /\ c_local_consumed (w_c w) = 0 /\ c_datagram (w_c w) = false /\
  c_extended_usage (w_c w) = extusage /\
  bq_bytes (c_input (w_c w)) = [] /\ bq_bytes (c_output (w_c w)) = [] /\ bq_bytes (c_extended (w_c w)) = [] /\
  w_sent w = [].

Lemma fresh_inv fi input output extended found ctype type rfd wfd efd window maxpack extusage nonblock dl now :
  chan_buf input -> chan_buf output -> chan_buf extended -> 0 <= window < 2 ^ 32 -> 0 <= maxpack < 2 ^ 32 ->
  chan_inv (mk_world (fresh_channel fi input output extended found ctype type rfd wfd efd window maxpack
    extusage nonblock dl) [] [] now).
Proof.
  intros Hi Ho He Hw Hm. constructor; try done; [|by left|by left].
  apply widths_iff. simpl. lia.
Qed.

(** The table when it is full gets ten more slots. *)
Lemma grown_slots (l : list (option (world sshbuf))) (found := free_slot l) :
  zlen l <= CHANNELS_MAX_CHANNELS + 10 -> (forall i o, l !! i = Some o -> slot_ok i o) ->
  (length l <=? found)%nat && (CHANNELS_MAX_CHANNELS <? zlen l) = false ->
  let l' := if (length l <=? found)%nat then l ++ replicate 10 None else l in
  (found < length l')%nat /\ zlen l' <= CHANNELS_MAX_CHANNELS + 10 /\
  (forall j, default None (l' !! j) = default None (l !! j)) /\ (forall i o, l' !! i = Some o -> slot_ok i o).
Proof.
  intros Hlen T Hbig. destruct (free_slot_lookup l) as [Hf1 _]. fold found in Hf1. cbv zeta.
  destruct (Nat.leb_spec (length l) found); [|by split_and!]. cbn [andb] in Hbig.
  apply Z.ltb_ge in Hbig. rewrite length_app, length_replicate. split_and!.
  - lia.
  - rewrite zlen_app. change (zlen (replicate 10 None)) with 10. lia.
  - intros j. destruct (decide (j < length l)%nat); [by rewrite lookup_app_l|].
    rewrite lookup_app_r, (lookup_ge_None_2 l) by lia.
    destruct (replicate 10 None !! _) eqn:Hr; [|done]. by apply lookup_replicate in Hr as [-> _].
  - intros i o [?|[_ Hr]]%lookup_app_Some; [by apply T|]. by apply lookup_replicate in Hr as [-> _].
Qed.

Lemma answered_buffers a i j b :
  Forall (fun p => 0 <= p) a -> sshbuf_new (default 0 (a !! i)) (default 0 (a !! j)) = Some b ->
  chan_buf b /\ contents b = [].
Proof.
  intros Ha Hb. assert (forall i, 0 <= default 0 (a !! i)) as Hans.
  { intros k. destruct (a !! k) eqn:Hk; [|done]. simpl. by eapply Forall_lookup_1 in Ha. }
  pose proof (Hans i). pose proof (Hans j).
  eapply (new_buffers (default 0 (a !! i)) (default 0 (a !! j))); [| |done]; unfold sshbuf_new in Hb;
    destruct (Z.eqb_spec (default 0 (a !! i)) 0), (Z.eqb_spec (default 0 (a !! j)) 0); done || lia.
Qed.

Lemma channel_new_spec a now fi ctype type rfd wfd efd window maxpack extusage nonblock sc :
  Forall (fun p => 0 <= p) a -> table_ok sc -> 0 <= window < 2 ^ 32 -> 0 <= maxpack < 2 ^ 32 ->
  match channel_new a now fi ctype type rfd wfd efd window maxpack extusage nonblock sc with
  | (Ok id, sc') => table_ok sc' /\ channel_by_id sc id = None /\
      (exists w, channel_by_id sc' id = Some w /\ is_new ctype type rfd wfd efd window maxpack extusage w) /\
      forall id', id' <> id -> channel_by_id sc' id' = channel_by_id sc id'
  | (Err _, _) => True
  | (Crash, _) => False
  end.
Proof.
  intros Ha [Hlen T] Hw Hm. unfold channel_new. cbv zeta.
  set (l := sc_channels sc) in *. set (found := free_slot l).
  destruct (free_slot_lookup l) as [Hf1 Hf2]. fold found in Hf1, Hf2.
  destruct ((length l <=? found)%nat && (CHANNELS_MAX_CHANNELS <? zlen l)) eqn:Hbig; [done|].
  destruct (grown_slots l Hlen T Hbig) as (L1 & L2 & L3 & L4). fold found in L1, L2, L3, L4.
  set (l' := if (length l <=? found)%nat then _ else _) in *.
  assert (forall i j b, sshbuf_new (default 0 (a !! i)) (default 0 (a !! j)) = Some b -> chan_buf b /\ contents b = []) as Hnew
    by (intros; by eapply answered_buffers).
  destruct (sshbuf_new (default 0 (a !! 0%nat)) _) as [bi|] eqn:Ei; [|done].
  destruct (sshbuf_new (default 0 (a !! 2%nat)) _) as [bo|] eqn:Eo; [|done].
  destruct (sshbuf_new (default 0 (a !! 4%nat)) _) as [be|] eqn:Ee; [|done].
  apply Hnew in Ei as [Bi Ci], Eo as [Bo Co], Ee as [Be Ce].
  destruct (sshbuf_set_max_size _ CHAN_INPUT_MAX bi) as [[[]|e|] bi'] eqn:Em; [|done|].
  2: { destruct Bi as (W & _). destruct (sshbuf_set_max_size_spec (default 0 (a !! 6%nat)) CHAN_INPUT_MAX bi W)
         as (r & b1 & E1 & Hc & _); [done|]. rewrite Em in E1. by injection E1 as <- _. }
  destruct (limited_buffer _ _ _ Bi Ci Em) as [Bi' Ci'].
  set (w := mk_world _ [] [] now). cbn [sc_channels set_channels sc_timeouts].
  assert (0 <= Z.of_nat found) as Hpos by lia.
  split_and!.
  - split; cbn [sc_channels]; [by unfold zlen in *; rewrite length_insert|].
    apply insert_slots; [done|]. split; [by apply fresh_inv | done].
  - rewrite by_id_lookup. destruct (Z.ltb_spec (Z.of_nat found) 0); [lia|]. rewrite Nat2Z.id. fold l.
    destruct (l !! found) as [o|] eqn:Hl; [|done]. by rewrite (Hf2 _ eq_refl).
  - exists w. split; [|by split_and!]. rewrite by_id_lookup. destruct (Z.ltb_spec (Z.of_nat found) 0); [lia|].
    cbn [sc_channels]. by rewrite Nat2Z.id, list_lookup_insert_eq.
  - intros id' N. rewrite !by_id_lookup. destruct (Z.ltb_spec id' 0); [done|]. cbn [sc_channels].
    rewrite list_lookup_insert_ne by lia. apply L3.
Qed.

(** ** Messages *)

(** The handlers of the messages for a channel. *)
Inductive input_kind : Type := InData | InExtData | InEof | InClose | InAdjust | InConfirmation.

Definition input_handler (E : env) (k : input_kind) : list Z -> CM sshbuf unit :=
  match k with
  | InData => channel_input_data E
  | InExtData => channel_input_extended_data E
  | InEof => channel_input_ieof E
  | InClose => channel_input_oclose E
  | InAdjust => channel_input_window_adjust
  | InConfirmation => channel_input_open_confirmation E None
  end.

Lemma pkt_u32_ok pkt n rest :
  pkt_u32 pkt = Ok (n, rest) -> Forall is_byte pkt -> 0 <= n < 2 ^ 32 /\ Forall is_byte rest.
Proof.
  unfold pkt_u32. destruct (Z.ltb_spec (zlen pkt) 4); [done|]. intros [= <- <-] Hb.
  split; [|by apply Forall_zdrop]. pose proof (be_bound (ztake 4 pkt) (Forall_ztake _ _ _ Hb)) as Hn.
  rewrite zlen_take, Z.min_l in Hn by (simpl; lia). exact Hn.
Qed.

Lemma confirmation_inv E pkt w :
  chan_inv w -> Forall is_byte pkt ->
  outcome (fun _ _ => True) (channel_input_open_confirmation E None pkt w).
Proof.
  intros I Hb. unfold channel_input_open_confirmation. rewrite bind_chan. destruct (negb _); [done|].
  destruct (pkt_u32 pkt) as [[id p1]|e|] eqn:E1; [|done..]. destruct (pkt_u32_ok _ _ _ E1 Hb) as [_ H1].
  destruct (pkt_u32 p1) as [[rw p2]|e|] eqn:E2; [|done..]. destruct (pkt_u32_ok _ _ _ E2 H1) as [Hrw H2].
  destruct (pkt_u32 p2) as [[rm [|]]|e|] eqn:E3; [|done..]. destruct (pkt_u32_ok _ _ _ E3 H2) as [Hrm _].
  split; [done|]. keeps I.
Qed.

Lemma handler_inv E k pkt w :
  chan_inv w -> Forall is_byte pkt -> outcome (fun _ _ => True) (input_handler E k pkt w).
Proof.
  intros I Hb. destruct k; simpl.
  - by apply input_data_inv.
  - by apply extended_data_inv.
  - by apply input_ieof_inv.
  - by apply input_oclose_inv.
  - by apply window_adjust_inv.
  - by apply confirmation_inv.
Qed.

(** No handler changes the number of a channel. *)
Lemma handler_self E k pkt w : c_self (w_c (snd (input_handler E k pkt w))) = c_self (w_c w).
Proof.
  set (Q := fun k : Z * Z * (bool * bool * bool) => snd (fst k) = c_self (w_c w)).
  assert (pres Q (input_handler E k pkt)) as P; [|by apply (P w)].
  destruct k; simpl.
  - apply pres_input_data.
  - apply pres_input_extended_data.
  - by apply pres_input_ieof.
  - by apply pres_input_oclose.
  - apply pres_input_window_adjust.
  - unfold channel_input_open_confirmation. pres. all: by intros w1 Hw1.
Qed.

Lemma dispatch_spec E k pkt sc :
  table_ok sc -> Forall is_byte pkt ->
  let '(r, sc') := channel_from_packet_id (input_handler E k) pkt sc in
  r <> Crash /\ table_ok sc' /\
  (match channel_parse_id pkt with Ok (id, _) => channel_lookup sc id = None | _ => True end ->
     r = Err DISCONNECT /\ sc' = sc) /\
  (forall id rest, channel_parse_id pkt = Ok (id, rest) ->
     forall id', id' <> id -> channel_by_id sc' id' = channel_by_id sc id').
Proof.
  intros T Hb. unfold channel_from_packet_id, channel_parse_id.
  destruct (pkt_u32 pkt) as [[id rest]|e|] eqn:Ep; [|by split_and!..].
  destruct (pkt_u32_ok _ _ _ Ep Hb) as [Hid Hr]. destruct (INT_MAX <? id); [by split_and!|].
  destruct (channel_lookup sc id) as [w|] eqn:Hl; [|by split_and!; intros; simplify_eq].
  unfold channel_lookup in Hl. destruct (channel_by_id sc id) as [w0|] eqn:Hi; [|done].
  destruct (public _); [|done]. injection Hl as ->.
  destruct (by_id_ok _ _ _ T Hi) as (Hp & Hs & I & Hself).
  set (w1 := mk_world _ _ _ _). assert (chan_inv w1) as I1 by (by destruct I; constructor).
  pose proof (handler_inv E k rest w1 I1 Hr) as X. pose proof (handler_self E k rest w1) as Y. unfold outcome in X.
  destruct (input_handler E k rest w1) as [r w2]. cbn [snd] in Y.
  assert (chan_inv w2) as I2 by (destruct r; [by destruct X | done | done]). destruct T as [T1 T2].
  split_and!.
  - by destruct r.
  - split; cbn [sc_channels]; [by unfold zlen in *; rewrite length_insert|].
    apply insert_slots; [done|]. split; [done|]. rewrite Y. simpl. rewrite Hself. lia.
  - done.
  - intros id1 rest1 [= <- _] id' N. rewrite !by_id_lookup. destruct (Z.ltb_spec id' 0); [done|]. cbn [sc_channels].
    by rewrite list_lookup_insert_ne by lia.
Qed.

(** ** The main loop *)

Lemma channel_close_fds_ok (w : world sshbuf) : exists w', channel_close_fds w = (Ok tt, w').
Proof.
  assert (fd_code (B := sshbuf) channel_close_fds) as F; [|destruct (F w) as (w' & R & _); by exists w'].
  apply fd_code_chan. intros c. cbv zeta.
  repeat first [apply channel_close_fd_code | apply fd_code_ret | apply fd_code_if | apply fd_code_bind].
Qed.

Lemma poll_self E w : c_self (w_c (snd (channel_output_poll_one E w))) = c_self (w_c w).
Proof.
  by apply (pres_poll_one (fun k => snd (fst k) = c_self (w_c w)) E w).
Qed.

Lemma poll_loop_ok E l i ret :
  (forall j o, l !! j = Some o -> slot_ok (i + j) o) ->
  let '(r, l') := output_poll_loop E ret l in
  r <> Crash /\ length l' = length l /\ (forall j o, l' !! j = Some o -> slot_ok (i + j) o).
Proof.
  revert i ret. induction l as [|o l IH]; intros i ret Hl; [by split_and!|].
  assert (forall j x, l !! j = Some x -> slot_ok (S i + j) x) as Hl'.
  { intros j x Hj. replace (S i + j)%nat with (i + S j)%nat by lia. by apply Hl. }
  assert (forall o' l', slot_ok i o' -> length l' = length l -> (forall j x, l' !! j = Some x -> slot_ok (S i + j) x) ->
    length (o' :: l') = S (length l) /\ forall j x, (o' :: l') !! j = Some x -> slot_ok (i + j) x) as Hc.
  { intros o' l' Ho Hlen Hx. split; [simpl; lia|]. intros [|j] x; simpl; [intros [= <-]; by rewrite Nat.add_0_r|].
    intros Hj. replace (i + S j)%nat with (S i + j)%nat by lia. by apply Hx. }
  pose proof (Hl 0%nat o eq_refl) as Ho. rewrite Nat.add_0_r in Ho. simpl. destruct o as [w|].
  - destruct Ho as [I Hs]. pose proof (steps_poll_one E w I) as S. pose proof (poll_self E w) as Hself. unfold steps, outcome in S.
    destruct (channel_output_poll_one E w) as [[r1|e|] w1]; cbn [snd] in Hself; [|split; [done|]; apply Hc; try done; by split; [|congruence]|done].
    destruct S as [_ I1]. pose proof (IH (S i) (Z.lor ret r1) Hl') as X. destruct (output_poll_loop _ _ l) as [r l'].
    destruct X as (? & ? & ?). split; [done|]. apply Hc; try done. by split; [|congruence].
  - pose proof (IH (S i) ret Hl') as X. destruct (output_poll_loop _ _ l) as [r l']. destruct X as (? & ? & ?).
    split; [done|]. by apply Hc.
Qed.

Lemma collect_spec E id sc :
  table_ok sc ->
  let '(r, sc') := channel_garbage_collect E id sc in
  r <> Crash /\ table_ok sc' /\ (forall id', id' <> id -> channel_by_id sc' id' = channel_by_id sc id').
Proof.
  intros T. unfold channel_garbage_collect. destruct (channel_by_id sc id) as [w|] eqn:Hi; [|by split_and!].
  destruct (by_id_ok _ _ _ T Hi) as (Hp & Hl & I & Hs).
  pose proof (chan_is_dead_spec E true w I) as X. unfold outcome in X.
  pose proof (pres_is_dead (fun k => snd (fst k) = c_self (w_c w)) E true w eq_refl) as Hself.
  destruct (chan_is_dead E true w) as [[d|e|] w1]; [|by split_and!|done]. destruct X as [_ I1]. simpl in Hself.
  set (sc1 := set_channels (<[Z.to_nat id := Some w1]> (sc_channels sc)) sc).
  assert (table_ok sc1) as T1.
  { destruct T as [T0 T]. split; [by unfold zlen in *; simpl; rewrite length_insert|].
    apply insert_slots; [done|]. split; [done|]. rewrite Hself, Hs. lia. }
  assert (forall o id', id' <> id -> channel_by_id (set_channels (<[Z.to_nat id := o]> (sc_channels sc1)) sc1) id' = channel_by_id sc id') as Hne.
  { intros o id' N. rewrite !by_id_lookup. destruct (Z.ltb_spec id' 0); [done|]. simpl.
    by rewrite !list_lookup_insert_ne by lia. }
  destruct d; cbn [negb].
  - unfold channel_free. assert (channel_by_id sc1 id = Some w1) as ->.
    { rewrite by_id_lookup. destruct (Z.ltb_spec id 0); [lia|]. simpl.
      rewrite list_lookup_insert_eq by (by eapply lookup_lt_Some). done. }
    destruct (channel_close_fds_ok (mk_world (w_c w1) (w_sent w1) [] (w_lastused w1))) as (w2 & ->).
    split_and!; [done | | by apply Hne]. destruct T1 as [T0 T1]. split; [by unfold zlen in *; simpl in *; rewrite length_insert|].
    by apply insert_slots.
  - split_and!; try done. intros id' N. rewrite !by_id_lookup. destruct (Z.ltb_spec id' 0); [done|]. simpl.
    by rewrite list_lookup_insert_ne by lia.
Qed.
