(* ===== verification/ChanProps.v ===== *)
(** * Channels: properties

    What the channel code guarantees: of one channel against any peer, of two
    ends that run the code, of the descriptors, and of the table. *)
From S2P Require Import Prelude Sshbuf SshbufGetput SshbufSpec CString SshbufMisc ByteQueue Nchan ChanIO ChanInv.
From S2P Require Import ChanFlow ChanFrame ChanRecv ChanPair ChanTable.

(** ** Order of messages *)

Definition is_ignore (m : msg) : bool := match m with MSG_IGNORE _ => true | _ => false end.
Definition is_data (m : msg) : bool :=
  match m with MSG_CHANNEL_DATA _ _ | MSG_CHANNEL_EXTENDED_DATA _ _ _ => true | _ => false end.
Definition is_eof (m : msg) : bool := match m with MSG_CHANNEL_EOF _ => true | _ => false end.

(** RFC 4254 section 5.3 on what a channel sends. *)
Definition conforms (ms : list msg) : Prop :=
  (forall pre post i, ms = pre ++ MSG_CHANNEL_CLOSE i :: post -> Forall (fun m => is_ignore m = true) post) /\
  (forall pre post i, ms = pre ++ MSG_CHANNEL_EOF i :: post ->
     Forall (fun m => is_data m = false /\ is_eof m = false) post).

Lemma phase_closed_run l q : phase_run PhClosed l = Some q -> Forall (fun m => is_ignore m = true) l.
Proof. induction l as [|m l IH]; [done|]. destruct m; try done. simpl. intros X. constructor; [done | by apply IH]. Qed.

Lemma phase_after_eof p l q :
  p <> PhOpen -> phase_run p l = Some q -> Forall (fun m => is_data m = false /\ is_eof m = false) l.
Proof.
  revert p. induction l as [|m l IH]; intros p Hp; [done|]. simpl.
  destruct (phase_step p m) as [p'|] eqn:Hs; [|done]. intros Hr. constructor; [by destruct m, p|].
  apply (IH p'); [|done]. destruct m, p; try done; by injection Hs as <-.
Qed.

Lemma phase_conforms l q : phase_run PhOpen l = Some q -> conforms l.
Proof.
  intros Hr. split; intros pre post i ->; revert Hr; generalize PhOpen; induction pre as [|m pre IH]; intros p; simpl.
  - destruct p; try done; apply phase_closed_run.
  - destruct (phase_step p m); [apply IH | done].
  - destruct p; try done. by apply phase_after_eof.
  - destruct (phase_step p m); [apply IH | done].
Qed.

(** C13. Whatever its peer, its descriptors and the session code do, in
    whatever order, a channel that starts in order sends at most one CLOSE and
    nothing after it, and at most one EOF and no data after it; no sequence
    of events is undefined behaviour. *)
Theorem channel_messages_conform {B : Type} `{ByteQueueLaws B} (evs : list (env * event)) (w : world B) :
  chan_inv w -> Forall (fun x => event_ok (snd x)) evs ->
  fst (run evs w) <> Crash /\ conforms (w_sent (snd (run evs w))).
Proof.
  intros I F. pose proof (run_inv evs w I F) as X. unfold outcome in X.
  destruct (run evs w) as [[u|e|] w']; cbn [fst snd]; [destruct X as [_ X]| |done];
    (split; [done|]; eapply phase_conforms, ci_phase, X).
Qed.

(** A channel as channel_new makes it and the confirmation opens it. *)
Definition ex_fdinfo : fdinfo := mk_fdinfo (fun _ => false) (fun _ => 0).
Definition ex_buf : sshbuf :=
  mk_sshbuf 4096 8192 8192 0 0 SSHBUF_SIZE_MAX SSHBUF_SIZE_INIT false 1 0 (replicate 256%nat 0).
Definition ex_chan (window maxpack : Z) : world sshbuf :=
  let c := fresh_channel ex_fdinfo ex_buf ex_buf ex_buf 0 (str "session") SSH_CHANNEL_OPENING 5 6 7 window maxpack
             CHAN_EXTENDED_READ 0 0 in
  snd (channel_input_open_confirmation (mk_env 0 1 true 1) None
         (POKE_U32 9 ++ POKE_U32 window ++ POKE_U32 maxpack) (mk_world c [] [] 0)).
Definition ex_env : env := mk_env SSH_NEW_OPENSSH 12345 true 100.

Lemma ex_buf_ok : chan_buf ex_buf.
Proof. by destruct (new_buffers 4096 8192 ex_buf). Qed.

Lemma ex_chan_inv window maxpack :
  0 <= window < 2 ^ 32 -> 0 <= maxpack < 2 ^ 32 -> chan_inv (ex_chan window maxpack).
Proof.
  intros Hw Hm. unfold ex_chan. cbv zeta. set (w := mk_world _ [] [] 0).
  assert (chan_inv w) as I by (apply fresh_inv; apply ex_buf_ok || done).
  assert (Forall is_byte (POKE_U32 9 ++ POKE_U32 window ++ POKE_U32 maxpack)) as Hb
    by (repeat apply Forall_app_2; apply POKE_U32_bytes).
  pose proof (confirmation_inv (mk_env 0 1 true 1) _ w I Hb) as X. unfold outcome in X.
  destruct (channel_input_open_confirmation _ _ _ w) as [[u|e|] w']; [apply X | done | done].
Qed.

(** Data, the end of the input, the peer's CLOSE, and the channel is dead. *)
Definition ex_events : list (env * event) :=
  map (fun ev => (ex_env, ev))
    [EvReady SSH_CHAN_IO_RFD; EvPost (mk_answers (RdData [104; 105]) 0 (WrLen 0) false (RdErr 0) (WrLen 0)); EvPoll;
     EvReadFailed; EvReady 0; EvPoll; EvForceClose false; EvPoll; EvClose []; EvPre; EvIsDead true].

Lemma channel_messages_conform_witness :
  w_sent (snd (run ex_events (ex_chan 100 100))) =
    [MSG_CHANNEL_DATA 9 [104; 105]; MSG_CHANNEL_EOF 9; MSG_CHANNEL_REQUEST 9 (str "eow@openssh.com") 0; MSG_CHANNEL_CLOSE 9] /\
  conforms (w_sent (snd (run ex_events (ex_chan 100 100)))).
Proof.
  split; [vm_compute; reflexivity|].
  apply (channel_messages_conform ex_events (ex_chan 100 100)); [apply ex_chan_inv; lia|].
  repeat (apply Forall_cons_2; [simpl; try done|]); [|done].
  split; [|done]. apply Forall_cons_2; [unfold is_byte; lia|]. apply Forall_cons_2; [unfold is_byte; lia|]. done.
Defined.

(** ** Two ends *)

Section Ends.
Context {B : Type} `{ByteQueueLaws B}.

(** An end of a channel that has just been opened; [other] was told its
    window and its largest packet. *)
Record starts (me other : peer (B := B)) : Prop := {
  st_inv : chan_inv (p_w me);
  st_open : c_type (w_c (p_w me)) = SSH_CHANNEL_OPEN /\ c_flags (w_c (p_w me)) = 0 /\
    c_have_remote_id (w_c (p_w me)) = true /\ c_datagram (w_c (p_w me)) = false;
  st_empty : bq_bytes (c_output (w_c (p_w me))) = [] /\ bq_bytes (c_extended (w_c (p_w me))) = [] /\
    c_local_consumed (w_c (p_w me)) = 0 /\ w_sent (p_w me) = [] /\ p_got me = 0%nat /\ p_freed me = false;
  st_window : c_local_window (w_c (p_w me)) = c_local_window_max (w_c (p_w me)) /\
    c_local_window_max (w_c (p_w me)) <= CHAN_INPUT_MAX;
  st_told : c_remote_window (w_c (p_w other)) = c_local_window (w_c (p_w me)) /\
    c_remote_maxpacket (w_c (p_w other)) = c_local_maxpacket (w_c (p_w me));
}.

Lemma starts_ok a b : starts a b -> starts b a -> end_ok a b.
Proof.
  intros [I (Ht & Hf & Hid & Hd) (Ho & He & Hc & Hs & Hg & Hfr) (Hw & Hm) (Tw & Tm)] [_ _ (_ & _ & _ & Hs' & Hg' & _) _ _].
  pose proof (proj1 (widths_iff _) (ci_widths _ I)) as ((? & ?) & (? & ?) & (? & ?) & ?).
  assert (held (w_c (p_w a)) = 0) as Hh.
  { unfold held, blen. rewrite Ho, He, Hc. destruct (_ =? _); done. }
  constructor; rewrite ?Hs, ?Hs', ?Hg, ?Hg'; simpl; try done; try lia.
  - constructor; try done; lia.
  - by left.
  - exists false, false. unfold rcvd. rewrite Hf, Hfr. done.
Qed.

(** The window that [other] has for [me], or is on its way to it, or is
    already used by data on its way to [me]. *)
Definition window_out (me other : peer (B := B)) : Z :=
  c_remote_window (w_c (p_w other)) + total msg_data (drop (p_got me) (w_sent (p_w other)))
    + total msg_adj (drop (p_got other) (w_sent (p_w me))).

Definition in_window (me other : peer (B := B)) : Prop :=
  0 <= c_remote_window (w_c (p_w other)) /\
  window_out me other <= c_local_window (w_c (p_w me)) /\
  c_local_window (w_c (p_w me)) + held (w_c (p_w me)) <= c_local_window_max (w_c (p_w me)).

Lemma ends_in_window a b : end_ok a b -> end_ok b a -> in_window a b.
Proof.
  intros A Bo. pose proof (eo_win _ _ A). pose proof (eo_win _ _ Bo). pose proof (eo_flow _ _ A).
  split_and!; [apply H2 | done | apply H1].
Qed.

(** C7. Two ends of a stream channel that run this code, from the moment it is
    open: however reads, writes, polls, deliveries, forced closes and
    collections are interleaved, no message that arrives is an error at its
    receiver (no disconnect for an exceeded window, no overflow of the
    window, no full buffer, no message for a channel already freed), and at
    both ends what the sender may still send and what is on its way fits the
    receiver's window, and the window and the data held never exceed the
    configured maximum.  [Some None] is a run that one end ended itself. *)
Theorem connected_channels_flow (l : list (bool * env * action)) (a b : peer) :
  starts a b -> starts b a -> Forall action_ok l ->
  match pair_run l a b with
  | Some (Some (a', b')) => in_window a' b' /\ in_window b' a'
  | Some None => True
  | None => False
  end.
Proof.
  intros A Bo F. pose proof (pair_run_ok l a b (starts_ok a b A Bo) (starts_ok b a Bo A) F) as X.
  destruct (pair_run l a b) as [[[a' b']|]|]; [|done|done]. destruct X. by split; apply ends_in_window.
Qed.

(** ** The window reopens *)

Definition no_close (w : world B) : Prop :=
  has (c_flags (w_c w)) (Z.lor CHAN_CLOSE_SENT CHAN_CLOSE_RCVD) = false.

(** After [channel_check_window] either nothing is owed or half of the window
    is open. *)
Lemma check_window_post E w n w' :
  chan_inv w -> channel_check_window E w = (Ok n, w') -> c_type (w_c w') = SSH_CHANNEL_OPEN -> no_close w' ->
  c_local_consumed (w_c w') = 0 \/ c_local_window_max (w_c w') / 2 <= c_local_window (w_c w').
Proof.
  intros I. unfold channel_check_window. rewrite bind_chan.
  destruct (_ && (0 <? _)) eqn:C.
  - clear C. destruct (negb _); [done|]. unfold bind, send. destruct (e_pkt_ok E); [|done]. simpl. intros [= <- <-]. by left.
  - simpl. intros [= <- <-] Ht Hc. rewrite Ht, Hc, Z.eqb_refl in C. cbn [andb negb] in C.
    pose proof (proj1 (widths_iff _) (ci_widths _ I)) as (_ & _ & (_ & ?) & _).
    apply andb_false_iff in C as [C|C]; [right | left; apply Z.ltb_ge in C; lia].
    apply orb_false_iff in C as [_ C]. by apply Z.ltb_ge in C.
Qed.

Lemma post_open_checks E a w w' :
  chan_inv w -> rd_ok (a_rfd a) -> rd_ok (a_efd_rd a) -> channel_post_open E None None a w = (Ok tt, w') ->
  exists w1 n, chan_inv w1 /\ channel_check_window E w1 = (Ok n, w').
Proof.
  intros I H1 H2. unfold channel_post_open.
  unfold bind at 1. pose proof (steps_handle_rfd E (a_rfd a) (a_errno a) w I H1) as S1. unfold steps, outcome in S1.
  destruct (channel_handle_rfd _ _ _ _ w) as [[n1|e|] w1]; [|done..]. destruct S1 as [_ I1].
  unfold bind at 1. pose proof (steps_handle_wfd E (a_wfd a) (a_echo_off a) w1 I1) as S2. unfold steps, outcome in S2.
  destruct (channel_handle_wfd _ _ _ _ w1) as [[n2|e|] w2]; [|done..]. destruct S2 as [_ I2].
  unfold bind at 1. pose proof (steps_handle_efd E (a_efd_rd a) (a_efd_wr a) w2 I2 H2) as S3. unfold steps, outcome in S3.
  destruct (channel_handle_efd _ _ _ w2) as [[n3|e|] w3]; [|done..]. destruct S3 as [_ I3].
  unfold bind. destruct (channel_check_window E w3) as [[n4|e|] w4] eqn:Hc; [|done..]. intros [= <-]. by exists w3, n4.
Qed.

Lemma pair_run_app l k a b :
  pair_run (l ++ k) a b =
    match pair_run l a b with Some (Some (a', b')) => pair_run k a' b' | r => r end.
Proof.
  revert a b. induction l as [|[[s E] x] l IH]; intros a b; [done|]. simpl.
  destruct (if s then _ else _); [|done|done]. destruct s; apply IH.
Qed.

(** All the received data has been written out. *)
Definition drained (w : world B) : Prop :=
  bq_bytes (c_output (w_c w)) = [] /\
  (c_extended_usage (w_c w) = CHAN_EXTENDED_WRITE -> bq_bytes (c_extended (w_c w)) = []).

(** C20. Flow control does not stall.  In any run of two ends, when the
    receiver has just served its descriptors and has nothing left to write,
    is still open for output, and no extended data was involved, at least
    half of its window is at the sender, on its way to it, or in use by data
    on its way: a sender that has run out of window is never left without a
    credit. *)
Theorem window_stays_open (l : list (bool * env * action)) (E : env) (ans : answers) (a b a' b' : peer) :
  starts a b -> starts b a -> Forall action_ok (l ++ [(false, E, Local (EvPost ans))]) ->
  pair_run (l ++ [(false, E, Local (EvPost ans))]) a b = Some (Some (a', b')) ->
  p_freed b' = false -> c_type (w_c (p_w b')) = SSH_CHANNEL_OPEN -> c_ostate (w_c (p_w b')) <> CHAN_OUTPUT_CLOSED ->
  no_close (p_w b') -> drained (p_w b') ->
  Forall (fun m => counts_msg m = true) (w_sent (p_w a')) ->
  c_local_window_max (w_c (p_w b')) / 2 <= window_out b' a'.
Proof.
  intros A Bo F R Hfr Ht Ho Hc [Dr De] Hx.
  pose proof (pair_run_ok _ a b (starts_ok a b A Bo) (starts_ok b a Bo A) F) as X. rewrite R in X. destruct X as [_ X].
  destruct (eo_exact _ _ X Ht Ho (Forall_take _ _ _ Hx)) as [E1 E2].
  rewrite pair_run_app in R. apply Forall_app in F as [F Fp].
  pose proof (pair_run_ok l a b (starts_ok a b A Bo) (starts_ok b a Bo A) F) as Y.
  destruct (pair_run l a b) as [[[a1 b1]|]|]; [|done|done]. destruct Y as [_ Y].
  apply Forall_cons in Fp as [[_ [[H1 H2] _]] _]. simpl in R.
  destruct (p_freed b1) eqn:Fr; [injection R as <- <-; congruence|].
  unfold finish, if_open in R. rewrite bind_chan in R.
  assert (exists w1, (if c_type (w_c (p_w b1)) =? SSH_CHANNEL_OPEN then channel_post_open E None None ans else ret tt) (p_w b1)
    = (Ok tt, w1) /\ p_w b' = w1) as (w1 & Rw & Ew).
  { match type of R with context [match ?m with (_, _) => _ end] => destruct m as [[[]|e|] w1] eqn:Rm end; try done.
    injection R as <- <-. exists w1. split; [exact Rm | done]. }
  destruct (Z.eqb_spec (c_type (w_c (p_w b1))) SSH_CHANNEL_OPEN) as [Hto|Hn].
  2: { injection Rw as <-. congruence. }
  destruct (post_open_checks E ans _ _ (eo_inv _ _ Y) H1 H2 Rw) as (w2 & n & I2 & Rc). rewrite <- Ew in Rc.
  unfold window_out. rewrite E1.
  assert (held (w_c (p_w b')) = c_local_consumed (w_c (p_w b'))) as Hh.
  { unfold held, blen. rewrite Dr. destruct (Z.eqb_spec (c_extended_usage (w_c (p_w b'))) CHAN_EXTENDED_WRITE) as [Eu|];
      [rewrite (De Eu)|]; change (zlen []) with 0; lia. }
  pose proof (wo_local _ (eo_win _ _ X)).
  destruct (check_window_post E w2 n (p_w b') I2 Rc Ht Hc) as [Hz|Hz]; [|done].
  rewrite Hh, Hz, Z.add_0_r in E2. rewrite E2. apply Z.div_le_upper_bound; lia.
Qed.
End Ends.

(** The first end reads ten bytes and sends them; the second writes them out
    and gives the window back. *)
Definition ex_peer : peer := mk_peer (ex_chan 10 10) 0 false.
Definition ex_ten : list Z := [1; 2; 3; 4; 5; 6; 7; 8; 9; 10].
Definition ex_answers (d : list Z) : answers := mk_answers (RdData d) 0 (WrLen 10) false (RdErr EAGAIN) (WrLen 0).
Definition ex_run : list (bool * env * action) :=
  [(true, ex_env, Local EvPre); (true, ex_env, Local (EvReady SSH_CHAN_IO_RFD));
   (true, ex_env, Local (EvPost (ex_answers ex_ten))); (true, ex_env, Local EvPoll); (false, ex_env, Deliver);
   (false, ex_env, Local (EvReady SSH_CHAN_IO_WFD))].
Definition ex_post : bool * env * action := (false, ex_env, Local (EvPost (ex_answers []))).

Lemma ex_starts : starts ex_peer ex_peer.
Proof.
  constructor; [apply ex_chan_inv; lia | split_and!; reflexivity | split_and!; vm_compute; reflexivity | |
    split; vm_compute; reflexivity].
  split; [vm_compute; reflexivity | vm_compute; discriminate].
Qed.

Lemma ex_answers_ok (s : bool) d : Forall is_byte d -> action_ok (s, ex_env, Local (EvPost (ex_answers d))).
Proof. intros Hd. split; [by split|]. by split. Qed.

Lemma ex_run_ok : Forall action_ok (ex_run ++ [ex_post]).
Proof.
  repeat (apply Forall_cons_2; [first [apply ex_answers_ok | by split; [by split|]]|]); [| |done].
  - unfold ex_ten. repeat (apply Forall_cons_2; [unfold is_byte; lia|]). done.
  - done.
Qed.

(** The second end has sent the ten bytes of window back. *)
Lemma connected_channels_flow_witness : exists a b,
  pair_run (ex_run ++ [ex_post]) ex_peer ex_peer = Some (Some (a, b)) /\
  w_sent (p_w a) = [MSG_CHANNEL_DATA 9 ex_ten] /\ w_sent (p_w b) = [MSG_CHANNEL_WINDOW_ADJUST 9 10] /\
  in_window a b /\ in_window b a.
Proof.
  pose proof (connected_channels_flow _ _ _ ex_starts ex_starts ex_run_ok) as X.
  destruct (pair_run (ex_run ++ [ex_post]) ex_peer ex_peer) as [[[a b]|]|] eqn:R;
    [|exfalso; vm_compute in R; discriminate R | destruct X].
  exists a, b. split; [reflexivity|].
  split; [|split; [|exact X]]; vm_compute in R; injection R as <- <-; vm_compute; reflexivity.
Defined.

Lemma window_stays_open_witness : exists a b,
  pair_run (ex_run ++ [ex_post]) ex_peer ex_peer = Some (Some (a, b)) /\
  c_remote_window (w_c (p_w a)) = 0 /\ 5 <= window_out b a.
Proof.
  destruct (pair_run (ex_run ++ [ex_post]) ex_peer ex_peer) as [[[a b]|]|] eqn:R;
    [|exfalso; vm_compute in R; discriminate R | exfalso; vm_compute in R; discriminate R].
  exists a, b. split; [reflexivity|].
  pose proof (window_stays_open ex_run ex_env (ex_answers []) ex_peer ex_peer a b ex_starts ex_starts ex_run_ok R) as X.
  vm_compute in R. injection R as <- <-. split; [vm_compute; reflexivity|].
  apply X; [vm_compute; reflexivity.. | vm_compute; discriminate | vm_compute; reflexivity | |].
  - split; [vm_compute; reflexivity | intros Y; vm_compute in Y; discriminate Y].
  - apply Forall_cons_2; [reflexivity | apply Forall_nil_2].
Defined.

(** ** Teardown *)

Section Teardown.
Context {B : Type} `{ByteQueueLaws B}.

(** Before poll, a channel whose input is closed and whose output has drained
    closes its output. *)
Lemma pre_open_closes E (w : world B) :
  chan_inv w -> c_istate (w_c w) = 3 -> c_ostate (w_c w) = 1 \/ c_ostate (w_c w) = 3 ->
  bq_bytes (c_output (w_c w)) = [] -> has (c_flags (w_c w)) CHAN_CLOSE_RCVD = true ->
  c_extended_usage (w_c w) <> CHAN_EXTENDED_WRITE \/ bq_bytes (c_extended (w_c w)) = [] ->
  exists out w', channel_pre_open E w = (Ok tt, w') /\ chan_inv w' /\ moves 3 3 (c_flags (w_c w)) out [] w w'.
Proof.
  intros I Hi Ho Hb Hcr Hx. unfold channel_pre_open.
  assert (exists w1, upd (set_io_want 0) w = (Ok tt, w1) /\ chan_inv w1 /\
    moves 3 (c_ostate (w_c w)) (c_flags (w_c w)) (c_output (w_c w)) [] w w1) as (w1 & R1 & I1 & M1).
  { eexists. split; [reflexivity|]. split; [by destruct I; constructor|]. constructor; try done. simpl. by rewrite app_nil_r. }
  rewrite (bind_ok _ _ _ _ _ R1), bind_chan. cbv zeta. pose proof M1 as [S1 Ei1 Eo1 Ef1 Eout1 _].
  unfold stable in S1. injection S1; intros. rewrite Ei1, Eo1. change (3 =? CHAN_INPUT_OPEN) with false. cbn [andb].
  unfold bind at 1, ret at 1.
  assert (exists out w2, (if (c_ostate (w_c w) =? CHAN_OUTPUT_OPEN) || (c_ostate (w_c w) =? CHAN_OUTPUT_WAIT_DRAIN) then
         let! olen := output_len in
         if 0 <? olen then upd (fun c => set_io_want (Z.lor (c_io_want c) SSH_CHAN_IO_WFD) c)
         else if c_ostate (w_c w) =? CHAN_OUTPUT_WAIT_DRAIN then
           let! a := CHANNEL_EFD_OUTPUT_ACTIVE in
           if a then ret tt else chan_obuf_empty E
         else ret tt
       else ret tt) w1 = (Ok tt, w2) /\ chan_inv w2 /\ moves 3 3 (c_flags (w_c w)) out [] w w2) as (out & w2 & R2 & I2 & M2).
  { destruct Ho as [Eo|Eo]; rewrite Eo in *; [|by exists (c_output (w_c w)), w1].
    change ((1 =? CHAN_OUTPUT_OPEN) || (1 =? CHAN_OUTPUT_WAIT_DRAIN)) with true. cbv iota.
    rewrite (bind_ok _ _ _ _ _ (output_len_ok w1 I1)), Eout1, Hb. change (0 <? zlen []) with false.
    change (1 =? CHAN_OUTPUT_WAIT_DRAIN) with true. cbv iota.
    destruct (efd_output_active_ok w1 I1) as (a & Ra & A1 & A2).
    assert (a = false) as -> by (destruct Hx as [Hx|Hx]; [apply A1; left; congruence|];
      apply A2; [rewrite Ef1, has_mask, Hcr; apply orb_true_r | congruence]).
    rewrite (bind_ok _ _ _ _ _ Ra).
    destruct (chan_obuf_empty_spec E w1 I1) as (o & out & w2 & R2 & I2 & M2 & _ & E2).
    rewrite Eout1, Hb, Eo1 in E2. simpl in E2. subst o. rewrite Ei1, Ef1 in M2.
    exists out, w2. split_and!; try done. exact (moves_trans _ _ _ _ _ _ _ _ _ _ _ _ _ M1 M2). }
  rewrite (bind_ok _ _ _ _ _ R2), bind_chan. pose proof M2 as [_ Ei2 Eo2 _ _ _]. rewrite Ei2, Eo2.
  change ((3 =? CHAN_INPUT_CLOSED) && (3 =? CHAN_OUTPUT_CLOSED)) with true. rewrite andb_false_r. by exists out, w2.
Qed.

Lemma dead_after_close E (w : world B) :
  chan_inv w -> e_pkt_ok E = true -> c_have_remote_id (w_c w) = true -> c_type (w_c w) <> SSH_CHANNEL_ZOMBIE ->
  c_istate (w_c w) = 3 -> c_ostate (w_c w) = 3 -> has (c_flags (w_c w)) CHAN_LOCAL = false ->
  has (c_flags (w_c w)) CHAN_CLOSE_RCVD = true ->
  c_extended_usage (w_c w) <> CHAN_EXTENDED_WRITE \/ bq_bytes (c_extended (w_c w)) = [] ->
  exists w', chan_is_dead E true w = (Ok true, w') /\ has (c_flags (w_c w')) CHAN_CLOSE_SENT = true /\
    w_sent w' = w_sent w ++ (if has (c_flags (w_c w)) CHAN_CLOSE_SENT then [] else [MSG_CHANNEL_CLOSE (c_remote_id (w_c w))]).
Proof.
  intros I HE Hid Hz Hi Ho HL Hcr Hx. unfold chan_is_dead. rewrite bind_chan.
  destruct (Z.eqb_spec (c_type (w_c w)) SSH_CHANNEL_ZOMBIE); [done|]. rewrite Hi, Ho.
  change (negb (3 =? CHAN_INPUT_CLOSED) || negb (3 =? CHAN_OUTPUT_CLOSED)) with false. cbv iota.
  assert ((if has (e_compat E) SSH_BUG_EXTEOF && (c_extended_usage (w_c w) =? CHAN_EXTENDED_WRITE)
          && negb (c_efd (w_c w) =? -1) then let! n := extended_len in ret (0 <? n) else ret false) w = (Ok false, w)) as Ra.
  { destruct (Z.eqb_spec (c_extended_usage (w_c w)) CHAN_EXTENDED_WRITE); cbn [andb];
      [|by rewrite andb_false_r]. destruct (_ && _); [|done].
    rewrite (bind_ok _ _ _ _ _ (extended_len_ok w I)). destruct Hx as [?|Hx]; [done|]. by rewrite Hx. }
  rewrite (bind_ok _ _ _ _ _ Ra), HL. destruct (has (c_flags (w_c w)) CHAN_CLOSE_SENT) eqn:Cs; cbn [negb].
  { rewrite bind_chan, Cs, Hcr. exists w. rewrite app_nil_r. done. }
  unfold chan_send_close2. cbv zeta. unfold bind at 1. rewrite bind_chan, Hi, Ho, Cs, Hid.
  change (negb (3 =? CHAN_OUTPUT_CLOSED) || negb (3 =? CHAN_INPUT_CLOSED)) with false. cbn [negb].
  unfold bind at 1. unfold send. rewrite HE. unfold upd. cbn [w_c w_sent w_sys w_lastused]. rewrite bind_chan.
  assert (has (Z.lor (c_flags (w_c w)) CHAN_CLOSE_SENT) CHAN_CLOSE_SENT = true) as H1 by (rewrite has_lor; apply orb_true_r).
  assert (has (Z.lor (c_flags (w_c w)) CHAN_CLOSE_SENT) CHAN_CLOSE_RCVD = true) as H2 by (by rewrite has_lor, Hcr).
  simpl. rewrite H1, H2. by eexists.
Qed.

End Teardown.


(** ** Descriptors *)

Section Descriptors.
Context {B : Type} `{ByteQueue B}.

#[local] Instance fdsel_eq_dec : EqDecision fdsel.
Proof. solve_decision. Defined.

Definition close_of (s : syscall) : option Z := match s with Sys_close fd => Some fd | _ => None end.

(** Only fields that held the descriptor of [s] have been reset. *)
Definition reset_only (s : fdsel) (c0 c : Channel B) : Prop :=
  forall t, fd_of t c = fd_of t c0 \/ (fd_of t c = -1 /\ fd_of t c0 = fd_of s c0).

Lemma fd_drop t t' m i (c : Channel B) :
  fd_of t' (drop_fd t m i c) = if decide (t = t') then -1 else fd_of t' c.
Proof. by destruct t, t'. Qed.

Lemma reset_drop s t m i (c0 c : Channel B) :
  reset_only s c0 c -> reset_only s c0 (if fd_of s c =? fd_of t c then drop_fd t m i c else c).
Proof.
  intros J. destruct (Z.eqb_spec (fd_of s c) (fd_of t c)) as [E|]; [|done]. intros t'. rewrite fd_drop.
  destruct (decide (t = t')) as [<-|]; [|apply J].
  destruct (J t) as [Et|[Et Es]]; [|by right]. destruct (J s) as [Es|[Es _]].
  - right. split; [done|]. congruence.
  - left. congruence.
Qed.

Lemma reset_set s (c0 c : Channel B) : reset_only s c0 c -> reset_only s c0 (set_fd s (-1) c).
Proof.
  intros J t. destruct (decide (t = s)) as [->|N].
  - right. by destruct s.
  - replace (fd_of t (set_fd s (-1) c)) with (fd_of t c) by by destruct s, t. apply J.
Qed.

(** The channel after the test of field [t], with what is known of it. *)
Ltac dropped J t :=
  match goal with
  | |- context [if fd_of ?s ?c =? ?x then drop_fd t ?m ?i ?c else ?c] =>
      apply (reset_drop s t m i) in J; simpl (fd_of t _) in J; revert J;
      generalize (if fd_of s c =? x then drop_fd t m i c else c)
  end.

Lemma bind_upd {A} f (k : unit -> CM B A) w :
  bind (upd f) k w = k tt (mk_world (f (w_c w)) (w_sent w) (w_sys w) (w_lastused w)).
Proof. done. Qed.

(** Closing one descriptor: only fields that held it change. *)
Lemma close_fd_closes s (w : world B) :
  exists l w', channel_close_fd s w = (Ok tt, w') /\ w_sys w' = w_sys w ++ l /\
    omap close_of l = (if fd_of s (w_c w) =? -1 then [] else [fd_of s (w_c w)]) /\
    fd_of s (w_c w') = -1 /\
    (forall s', fd_of s' (w_c w) <> fd_of s (w_c w) -> fd_of s' (w_c w') = fd_of s' (w_c w)).
Proof.
  unfold channel_close_fd. rewrite bind_chan. cbv zeta. set (fd := fd_of s (w_c w)).
  destruct (Z.eqb_spec fd (-1)) as [E1|N1].
  { exists [], w. rewrite app_nil_r. split_and!; done. }
  match goal with |- context [bind (if ?b then sys ?x else ?r) ?k w] =>
    assert (exists p, (if b then sys x else r) w
      = (Ok tt, mk_world (w_c w) (w_sent w) (w_sys w ++ p) (w_lastused w)) /\ omap close_of p = []) as (p & Rp & Hp) end.
  { repeat match goal with |- context [if ?b then sys ?x else _] => destruct b; [exists [x]; done|] end.
    exists []. rewrite app_nil_r. by destruct w. }
  rewrite (bind_ok _ _ _ _ _ Rp), !bind_upd. cbn [w_c w_sent w_sys w_lastused].
  assert (reset_only s (w_c w) (w_c w)) as J by (intros t; by left).
  dropped J RFD. intros c1 J. dropped J WFD. intros c2 J. dropped J EFD. intros c3 J. dropped J SOCK.
  intros c4 J. exists (p ++ [Sys_close fd]). eexists. split; [reflexivity|]. cbn [w_c w_sys].
  split_and!; [by rewrite app_assoc | by rewrite omap_app, Hp | by destruct s |].
  intros s' Hn. apply reset_set in J. by destruct (J s') as [?|[_ ?]].
Qed.

Lemma elem_guard (b : bool) (x fd : Z) : fd ∈ (if b then [] else [x]) <-> b = false /\ fd = x.
Proof. destruct b; [rewrite elem_of_nil | rewrite list_elem_of_singleton]; by firstorder. Qed.

Lemma nodup_guard (b : bool) (x : Z) : NoDup (if b then [] else [x]).
Proof. destruct b; [constructor | apply NoDup_singleton]. Qed.

(** Freeing a channel closes each of its descriptors exactly once, also
    when some of its fields hold the same descriptor: the calls of close(2)
    are without repetition and name just the descriptors that were open. *)
Theorem close_fds_once (w : world B) :
  exists l w', channel_close_fds w = (Ok tt, w') /\ w_sys w' = w_sys w ++ l /\
    NoDup (omap close_of l) /\
    forall fd, fd ∈ omap close_of l <->
      fd <> -1 /\ fd ∈ [c_sock (w_c w); c_rfd (w_c w); c_wfd (w_c w); c_efd (w_c w)].
Proof.
  unfold channel_close_fds. rewrite bind_chan. cbv zeta.
  set (s := c_sock (w_c w)). set (r := c_rfd (w_c w)). set (f := c_wfd (w_c w)). set (e := c_efd (w_c w)).
  destruct (close_fd_closes SOCK w) as (l1 & w1 & R1 & S1 & C1 & _ & K1). rewrite (bind_ok _ _ _ _ _ R1).
  assert (exists l2 w2, (if negb (r =? s) then channel_close_fd RFD else ret tt) w1 = (Ok tt, w2) /\ w_sys w2 = w_sys w1 ++ l2 /\
    omap close_of l2 = (if (r =? s) || (r =? -1) then [] else [r]) /\
    (f <> s -> f <> r -> c_wfd (w_c w2) = f) /\ (e <> s -> e <> r -> c_efd (w_c w2) = e)) as (l2 & w2 & R2 & S2 & C2 & Kf & Ke).
  { destruct (Z.eqb_spec r s) as [|N]; cbn [negb orb].
    - exists [], w1. rewrite app_nil_r. split_and!; try done; intros ? _; [by apply (K1 WFD) | by apply (K1 EFD)].
    - destruct (close_fd_closes RFD w1) as (l2 & w2 & R2 & S2 & C2 & _ & K2). pose proof (K1 RFD N) as Er. simpl in Er, C2, K2.
      rewrite Er in C2, K2. exists l2, w2. split_and!; try done; intros Hs Hr.
      + assert (c_wfd (w_c w1) = f) as X by exact (K1 WFD Hs). rewrite <- X in Hr |- *. exact (K2 WFD Hr).
      + assert (c_efd (w_c w1) = e) as X by exact (K1 EFD Hs). rewrite <- X in Hr |- *. exact (K2 EFD Hr). }
  rewrite (bind_ok _ _ _ _ _ R2).
  assert (exists l3 w3, (if negb (f =? s) && negb (f =? r) then channel_close_fd WFD else ret tt) w2 = (Ok tt, w3) /\
    w_sys w3 = w_sys w2 ++ l3 /\ omap close_of l3 = (if (f =? s) || (f =? r) || (f =? -1) then [] else [f]) /\
    (e <> s -> e <> r -> e <> f -> c_efd (w_c w3) = e)) as (l3 & w3 & R3 & S3 & C3 & Ke').
  { destruct (Z.eqb_spec f s) as [|N1], (Z.eqb_spec f r) as [|N2]; cbn [negb andb orb];
      try (exists [], w2; rewrite app_nil_r; split_and!; try done; intros; by apply Ke).
    destruct (close_fd_closes WFD w2) as (l3 & w3 & R3 & S3 & C3 & _ & K3). simpl in C3, K3. rewrite (Kf N1 N2) in C3, K3.
    exists l3, w3. split_and!; try done. intros Hs Hr Hf.
    pose proof (Ke Hs Hr) as X. rewrite <- X in Hf |- *. exact (K3 EFD Hf). }
  rewrite (bind_ok _ _ _ _ _ R3).
  assert (exists l4 w4, (if negb (e =? s) && negb (e =? r) && negb (e =? f) then channel_close_fd EFD else ret tt) w3 = (Ok tt, w4) /\
    w_sys w4 = w_sys w3 ++ l4 /\ omap close_of l4 = (if (e =? s) || (e =? r) || (e =? f) || (e =? -1) then [] else [e]))
    as (l4 & w4 & R4 & S4 & C4).
  { destruct (Z.eqb_spec e s) as [|N1], (Z.eqb_spec e r) as [|N2], (Z.eqb_spec e f) as [|N3]; cbn [negb andb orb];
      try (exists [], w3; rewrite app_nil_r; by split_and!).
    destruct (close_fd_closes EFD w3) as (l4 & w4 & R4 & S4 & C4 & _). simpl in C4. rewrite (Ke' N1 N2 N3) in C4. by exists l4, w4. }
  exists (l1 ++ l2 ++ l3 ++ l4), w4. split; [exact R4|]. rewrite S4, S3, S2, S1, !omap_app, C1, C2, C3, C4, <- !app_assoc. simpl. fold s.
  split_and!; try done.
  - repeat (apply NoDup_app; split_and!); try apply nodup_guard; intros fd;
      rewrite ?elem_of_app, !elem_guard, ?orb_false_iff, ?Z.eqb_neq; lia.
  - intros fd. rewrite !elem_of_app, !elem_guard, !orb_false_iff, !Z.eqb_neq, !elem_of_cons, elem_of_nil.
    split; [intros [?|[?|[?|?]]]; lia|]. intros [Hn [->|[->|[->|[->|[]]]]]]; clear - Hn; lia.
Qed.
End Descriptors.

(** ** The grace beyond the window *)

Section Grace.
Context {B : Type} `{ByteQueueLaws B}.
Variable E : env.
Hypothesis Enp : e_np E <> 0.

(** A stream channel open for output, with no window left and no excess
    noted. *)
Definition exhausted (c : Channel B) : Prop :=
  c_type c = SSH_CHANNEL_OPEN /\ c_datagram c = false /\ c_ostate c = CHAN_OUTPUT_OPEN /\
  c_local_window c = 0 /\ c_local_window_exceeded c = 0.

Definition over (w : world B) (n : Z) : world B -> Prop := fun w' =>
  chan_inv w' /\ exhausted (w_c w') /\ c_local_window_max (w_c w') = c_local_window_max (w_c w) /\
  c_local_maxpacket (w_c w') = c_local_maxpacket (w_c w) /\
  blen (c_output (w_c w')) = blen (c_output (w_c w)) + n.

(** One packet within the grace, and an empty one. *)
Lemma grace_round v w :
  chan_inv w -> exhausted (w_c w) -> Forall is_byte v -> v <> [] ->
  zlen v <= c_local_maxpacket (w_c w) -> zlen v <= c_local_window_max (w_c w) / 10 ->
  blen (c_output (w_c w)) + zlen v <= CHAN_INPUT_MAX ->
  exists w', (do! channel_input_data E (enc_string v) ;; channel_input_data E (enc_string [])) w = (Ok tt, w') /\
    over w (zlen v) w'.
Proof.
  intros I (Ht & Hd & Ho & Hl & He) Hv Hne Hp Hg Hf. pose proof (zlen_nonneg v).
  assert (0 < zlen v) as Hpos by (destruct v; [done | rewrite zlen_cons; pose proof (zlen_nonneg v); lia]).
  pose proof (proj1 (widths_iff _) (ci_widths _ I)) as (_ & _ & (? & _) & ?).
  assert (zlen v <= SSHBUF_SIZE_MAX - 4) as Hs
    by (unfold CHAN_INPUT_MAX, blen in *; pose proof (zlen_nonneg (bq_bytes (c_output (w_c w)))); sb_consts; lia).
  destruct (put_fits (e_np E) v _ (ci_output w I) Hv Enp Hf) as (b & Rb & Ib & Lb).
  set (w1 := mk_world (set_output b (set_local_window 0 (set_local_window_exceeded (u32 (zlen v)) (w_c w))))
    (w_sent w) (w_sys w) (w_lastused w)).
  assert (channel_input_data E (enc_string v) w = (Ok tt, w1)) as R1.
  { unfold channel_input_data. rewrite bind_chan, Ht.
    change (negb (SSH_CHANNEL_OPEN =? SSH_CHANNEL_OPEN) && _ && _ && _) with false. cbv iota.
    unfold bind at 1. pose proof (pkt_string_enc v [] Hs) as Hps. rewrite app_nil_r in Hps. rewrite Hps.
    unfold ret at 1. cbv zeta. rewrite Hd, Ho. change (negb (CHAN_OUTPUT_OPEN =? CHAN_OUTPUT_OPEN)) with false. cbv iota.
    destruct (Z.ltb_spec (c_local_maxpacket (w_c w)) (zlen v)); [lia|]. rewrite Hl.
    destruct (Z.ltb_spec 0 (zlen v)); [|lia]. unfold bind, upd, chan, or_fatal, on_output.
    cbn [w_c w_sent w_sys w_lastused]. rewrite Hl, He, Z.add_0_l, Z.sub_0_r.
    cbn [c_local_window_max c_local_window_exceeded set_local_window set_local_window_exceeded c_output].
    rewrite u32_small by lia. destruct (Z.ltb_spec (c_local_window_max (w_c w) / 10) (zlen v)); [lia|].
    unfold ret. cbn [w_c c_output w_sent w_sys w_lastused]. unfold w1. rewrite u32_small by lia.
    change (c_output (set_local_window 0 _)) with (c_output (w_c w)). by rewrite Rb. }
  rewrite (bind_ok _ _ _ _ _ R1).
  destruct (put_fits (e_np E) [] b Ib (Forall_nil_2 _) Enp) as (b' & Rb' & Ib' & Lb').
  { rewrite Lb. change (zlen []) with 0. lia. }
  change (zlen []) with 0 in Lb'.
  eexists. split.
  { unfold channel_input_data. rewrite bind_chan. unfold w1. cbn [w_c c_type c_datagram c_ostate c_local_window
      c_local_maxpacket set_output set_local_window set_local_window_exceeded]. rewrite Ht, Hd, Ho.
    change (negb (SSH_CHANNEL_OPEN =? SSH_CHANNEL_OPEN) && _ && _ && _) with false. cbv iota.
    unfold bind at 1. rewrite (pkt_string_enc [] [] ltac:(sb_consts; change (zlen []) with 0; lia) : pkt_string (enc_string []) = _).
    unfold ret at 1. cbv zeta. change (negb (CHAN_OUTPUT_OPEN =? CHAN_OUTPUT_OPEN)) with false.
    change (zlen []) with 0. cbv iota. destruct (Z.ltb_spec (c_local_maxpacket (w_c w)) 0); [lia|].
    change (0 <? 0) with false. cbv iota. unfold bind, upd, or_fatal, on_output.
    cbn [w_c c_output set_output set_local_window set_local_window_exceeded]. rewrite Rb'. reflexivity. }
  unfold over, exhausted. cbn. rewrite Lb', Lb. split_and!; try done; [|lia].
  keeps I.
Qed.

Fixpoint rounds (n : nat) (v : list Z) : CM B unit :=
  match n with
  | O => ret tt
  | S n => do! (do! channel_input_data E (enc_string v) ;; channel_input_data E (enc_string [])) ;; rounds n v
  end.

(** The grace beyond the window is not a limit: an empty data packet that
    fits the exhausted window clears the count of the excess, so a peer that
    alternates packets of a tenth of the window with empty packets is never
    disconnected and fills the output buffer far beyond the window. *)
Theorem window_grace_unbounded (n : nat) (v : list Z) (w : world B) :
  chan_inv w -> exhausted (w_c w) -> Forall is_byte v -> v <> [] ->
  zlen v <= c_local_maxpacket (w_c w) -> zlen v <= c_local_window_max (w_c w) / 10 ->
  blen (c_output (w_c w)) + Z.of_nat n * zlen v <= CHAN_INPUT_MAX ->
  exists w', rounds n v w = (Ok tt, w') /\
    blen (c_output (w_c w')) = blen (c_output (w_c w)) + Z.of_nat n * zlen v.
Proof.
  revert w. induction n as [|n IH]; intros w I X Hv Hne Hp Hg Hf.
  { exists w. split; [done|]. lia. }
  pose proof (zlen_nonneg v).
  destruct (grace_round v w I X Hv Hne Hp Hg) as (w1 & R1 & I1 & X1 & Em & Ep & Lb); [lia|].
  cbn [rounds]. rewrite (bind_ok _ _ _ _ _ R1).
  destruct (IH w1 I1 X1 Hv Hne) as (w2 & R2 & L2); [rewrite Ep; lia | rewrite Em; lia | rewrite Lb; lia |].
  exists w2. split; [done|]. rewrite L2, Lb. lia.
Qed.
End Grace.

(** A window of ten bytes, used up by the ten bytes received. *)
Definition ex_full : world sshbuf := snd (channel_input_data ex_env (enc_string ex_ten) (ex_chan 10 10)).

Lemma outcome_snd {A} (r : res A * world sshbuf) : outcome (fun _ _ => True) r -> chan_inv (snd r).
Proof. unfold outcome. destruct r as [[]]; [by intros [_ ?] | done | done]. Qed.

Lemma ex_full_inv : chan_inv ex_full.
Proof.
  assert (Forall is_byte (enc_string ex_ten)) as Hb
    by (apply enc_string_bytes; unfold ex_ten; repeat (apply Forall_cons_2; [unfold is_byte; lia|]); done).
  exact (outcome_snd _ (input_data_inv ex_env (enc_string ex_ten) (ex_chan 10 10) (ex_chan_inv 10 10 ltac:(lia) ltac:(lia)) Hb)).
Qed.

(** Forty bytes held under a window of ten. *)
Lemma window_grace_unbounded_witness : exists w',
  rounds ex_env 30 [7] ex_full = (Ok tt, w') /\ blen (c_output (w_c w')) = 40 /\ c_local_window_max (w_c ex_full) = 10.
Proof.
  destruct (window_grace_unbounded ex_env ltac:(discriminate) 30 [7] ex_full) as (w' & R & L).
  - apply ex_full_inv.
  - vm_compute. repeat split.
  - apply Forall_cons_2; [unfold is_byte; lia | apply Forall_nil_2].
  - discriminate.
  - vm_compute. discriminate.
  - vm_compute. discriminate.
  - vm_compute. discriminate.
  - exists w'. split; [exact R|]. split; [|vm_compute; reflexivity].
    rewrite L. vm_compute. reflexivity.
Defined.

(** ** The table *)


Definition ex_table : ssh_channels := mk_channels [] [(str "session*", 30)] 0 0.

Lemma ex_table_ok : table_ok ex_table.
Proof. split; [vm_compute; discriminate|]. intros i o Hi. discriminate Hi. Qed.




(** What can happen to the table. *)
Inductive table_event : Type :=
| TPacket (k : input_kind) (pkt : list Z)
| TPoll
| TCollect (id : Z)
| TNew (a : list Z) (fi : fdinfo) (ctype : list Z) (type rfd wfd efd window maxpack extusage nonblock : Z).

Definition table_exec (E : env) (ev : table_event) (sc : ssh_channels) : res unit * ssh_channels :=
  let drop {A} (x : res A * ssh_channels) := (let? _ := fst x in Ok tt, snd x) in
  match ev with
  | TPacket k pkt => channel_from_packet_id (input_handler E k) pkt sc
  | TPoll => drop (channel_output_poll E sc)
  | TCollect id => drop (channel_garbage_collect E id sc)
  | TNew a fi ctype type rfd wfd efd window maxpack extusage nonblock =>
      drop (channel_new a (e_now E) fi ctype type rfd wfd efd window maxpack extusage nonblock sc)
  end.

Definition table_event_ok (ev : table_event) : Prop :=
  match ev with
  | TPacket _ pkt => Forall is_byte pkt
  | TNew a _ _ _ _ _ _ window maxpack _ _ =>
      Forall (fun p => 0 <= p) a /\ 0 <= window < 2 ^ 32 /\ 0 <= maxpack < 2 ^ 32
  | _ => True
  end.

Fixpoint table_run (evs : list (env * table_event)) (sc : ssh_channels) : res unit * ssh_channels :=
  match evs with
  | [] => (Ok tt, sc)
  | (E, ev) :: evs =>
      match table_exec E ev sc with
      | (Ok _, sc) => table_run evs sc
      | r => r
      end
  end.

Lemma table_exec_ok E ev sc :
  table_ok sc -> table_event_ok ev ->
  match table_exec E ev sc with (Ok _, sc') => table_ok sc' | (Err _, _) => True | (Crash, _) => False end.
Proof.
  intros T Ho. destruct ev; simpl in Ho |- *.
  - pose proof (dispatch_spec E k pkt sc T Ho) as X. destruct (channel_from_packet_id _ _ sc) as [[]]; by destruct X as (? & ? & _).
  - unfold channel_output_poll. destruct T as [T0 T]. pose proof (poll_loop_ok E (sc_channels sc) 0 0 T) as X.
    destruct (output_poll_loop E 0 (sc_channels sc)) as [[r|e|] l']; destruct X as (? & Hl & X); [|done|done].
    split; [unfold zlen in *; simpl; by rewrite Hl | done].
  - pose proof (collect_spec E id sc T) as X. destruct (channel_garbage_collect E id sc) as [[]]; by destruct X as (? & ? & _).
  - destruct Ho as (Ha & Hw & Hm).
    pose proof (channel_new_spec a (e_now E) fi ctype type rfd wfd efd window maxpack extusage nonblock sc Ha T Hw Hm) as X.
    destruct (channel_new _ _ _ _ _ _ _ _ _ _ _ _ sc) as [[]]; [by destruct X | done | done].
Qed.


Definition ex_table_events : list (env * table_event) :=
  map (fun ev => (ex_env, ev))
    [TNew [1; 2; 3; 4; 5; 6; 7] ex_fdinfo (str "direct-tcpip") SSH_CHANNEL_OPENING 5 5 (-1) 100 50 0 0;
     TPacket InConfirmation (POKE_U32 0 ++ POKE_U32 7 ++ POKE_U32 100 ++ POKE_U32 50);
     TPacket InData (POKE_U32 0 ++ enc_string [42]); TPoll; TPacket InClose (POKE_U32 0); TCollect 0].

