(* ===== verification/MiscProps.v ===== *)
(** * Strings: properties of src/misc.c

    Command lines are split as they were assembled, and addresses of hosts are
    read as they were written. *)
From S2P Require Import Prelude Sshbuf SshbufGetput SshbufSpec CString SshbufMisc Words Chacha ChachaPoly Cipher Hmac Mac PacketState Packet PacketBuf Codec Match SshkeyNames KexNames Kex Misc.

(** ** The text of a command line *)

Definition special (c : Z) : bool := (c =? c_backslash) || (c =? c_apostrophe) || (c =? c_quote).
Definition escape1 (c : Z) : list Z := if special c then [c_backslash; c] else [c].
Definition escape (s : list Z) : list Z := concat (escape1 <$> s).
Definition quoted (a : list Z) : list Z := if existsb blank a then [c_quote] ++ escape a ++ [c_quote] else escape a.
(** [first]: nothing comes before. *)
Definition piece (first : bool) (a : list Z) : list Z := (if first then [] else [32]) ++ quoted a.
Fixpoint line (first : bool) (argv : list (list Z)) : list Z :=
  match argv with [] => [] | a :: argv => piece first a ++ line false argv end.

(** ** Assembling *)

Lemma special_blank c : blank c = true -> special c = false.
Proof. unfold blank, special. intros Hb. apply orb_true_iff in Hb as [->%Z.eqb_eq| ->%Z.eqb_eq]; done. Qed.

Lemma escape_spec np s ws b l : pbuf b l -> np <> 0 -> Forall is_byte s -> zlen l + zlen (escape s) <= SSHBUF_SIZE_MAX ->
  exists b', escape_arg np s ws b = (Ok (ws || existsb blank s), b') /\ pbuf b' (l ++ escape s).
Proof.
  intros P Hnp Hs. revert ws b l P. induction Hs as [|c s Hc Hs IH]; intros ws b l P Hm.
  - exists b. cbn. by rewrite orb_false_r, app_nil_r.
  - change (escape (c :: s)) with (escape1 c ++ escape s) in *. rewrite zlen_app in Hm. pose proof (zlen_nonneg (escape s)).
    assert (appends (if blank c then sshbuf_put_u8 np c else
              do! (if special c then sshbuf_put_u8 np c_backslash else ret tt) ;; sshbuf_put_u8 np c) (escape1 c)) as A.
    { destruct (blank c) eqn:Hb.
      - unfold escape1. rewrite special_blank by done. by apply appends_u8.
      - unfold escape1. destruct (special c); [apply (appends_then _ _ [c_backslash])|apply (appends_then _ _ [])]; try by apply appends_u8. apply appends_ret. }
    destruct (A b l P ltac:(lia)) as (b1 & E1 & P1). destruct (IH (ws || blank c) b1 _ P1) as (b2 & E2 & P2); [rewrite zlen_app; lia|].
    exists b2. rewrite <- app_assoc in P2. split; [|done]. cbn [escape_arg existsb]. rewrite orb_assoc, <- E2.
    change ((c =? c_backslash) || (c =? c_apostrophe) || (c =? c_quote)) with (special c).
    destruct (blank c).
    + by rewrite (bind_ok _ _ _ _ _ E1), orb_true_r.
    + rewrite orb_false_r, <- bind_assoc. by rewrite (bind_ok _ _ _ _ _ E1).
Qed.

Lemma escape_bytes s : Forall is_byte s -> Forall is_byte (escape s).
Proof.
  intros Hs. unfold escape. apply Forall_concat, Forall_fmap. eapply Forall_impl; [exact Hs|]. intros c Hc. cbn. unfold escape1.
  destruct (special c); [apply Forall_cons; split; [done|]|]; by apply Forall_singleton.
Qed.

Lemma assemble_loop_spec np argv first arg l0 : pbuf arg l0 -> np <> 0 -> Forall (Forall is_byte) argv ->
  appends (assemble_loop np first argv arg) (line first argv).
Proof.
  intros Pa Hnp Hs. revert first arg l0 Pa. induction Hs as [|a argv Ha Hs IH]; intros first arg l0 Pa; [apply appends_ret|].
  intros b l P Hm. cbn [line assemble_loop] in *. destruct (pb_reset np arg l0 Pa) as (a1 & Er & P1).
  assert (ignore (sshbuf_reset np) arg = (Ok tt, a1)) as Eg by (unfold ignore; by rewrite Er).
  assert (zlen (escape a) <= zlen (piece first a)) as He.
  { unfold piece, quoted. destruct first, (existsb blank a); rewrite ?zlen_app; unfold zlen; cbn; lia. }
  rewrite zlen_app in Hm. pose proof (zlen_nonneg (line false argv)). pose proof (zlen_nonneg l).
  destruct (escape_spec np a false a1 [] P1 Hnp Ha) as (a2 & Ee & P2); [change (zlen []) with 0; lia|]. cbn [app orb] in *.
  rewrite (bind_ok _ _ _ _ _ Eg), Ee. change (zlen l + (zlen (piece first a) + zlen (line false argv)) <= SSHBUF_SIZE_MAX) in Hm.
  assert (appends (do! (if first then ret tt else sshbuf_put_u8 np 32) ;; do! (if existsb blank a then sshbuf_put_u8 np c_quote else ret tt) ;;
                   do! sshbuf_putb np (Some a2) ;; do! (if existsb blank a then sshbuf_put_u8 np c_quote else ret tt) ;; assemble_loop np false argv a2)
                  (piece first a ++ line false argv)) as A.
  { eapply appends_eq; [apply appends_then; [apply appends_unless; intros; by apply (appends_u8 np 32)|]; apply appends_then;
      [apply appends_when; intros; by apply (appends_u8 np c_quote)|]; apply appends_then; [apply appends_putb; [done|apply P2]|];
      apply appends_then; [apply appends_when; intros; by apply (appends_u8 np c_quote)|]; by eapply IH|].
    rewrite (pb_data _ _ P2). unfold piece, quoted. destruct (existsb blank a); by rewrite <- !app_assoc. }
  apply (A b l P). rewrite zlen_app. done.
Qed.

Lemma argv_assemble_spec np argv : 0 < np -> Forall (Forall is_byte) argv -> zlen (line true argv) <= SSHBUF_SIZE_MAX ->
  argv_assemble np argv = Ok (line true argv).
Proof.
  intros Hnp Hb Hm. unfold argv_assemble. destruct (sshbuf_new np np) as [b|] eqn:Eb.
  2:{ unfold sshbuf_new in Eb. by rewrite (proj2 (Z.eqb_neq np 0)) in Eb by lia. }
  pose proof (pbuf_new np b Hnp Eb) as P. destruct (assemble_loop_spec np argv true b [] P ltac:(lia) Hb b [] P) as (b' & E1 & P1); [done|].
  by rewrite (bind_ok _ _ _ _ _ E1), (pb_bytes _ _ P1).
Qed.

(** ** Splitting *)

Lemma copy_escaped a quote rest arg : quote = 0 /\ existsb blank a = false \/ quote = c_quote ->
  copy_token (escape a ++ rest) quote arg = copy_token rest quote (arg ++ a).
Proof.
  intros Hq. revert arg. induction a as [|c a IH]; intros arg; [by rewrite app_nil_r|].
  assert (quote = 0 /\ existsb blank a = false \/ quote = c_quote) as Hq' by (cbn in Hq; destruct Hq as [[-> Hb%orb_false_iff]|]; [left|by right]; by destruct Hb).
  change (escape (c :: a)) with (escape1 c ++ escape a). unfold escape1. destruct (special c) eqn:Hs.
  - cbn [app copy_token]. rewrite Z.eqb_refl. unfold special in Hs.
    replace ((c =? c_apostrophe) || (c =? c_quote) || (c =? c_backslash)) with true by (destruct (c =? c_apostrophe), (c =? c_quote), (c =? c_backslash); done).
    cbn [orb]. rewrite IH by done. by rewrite <- app_assoc.
  - cbn [app copy_token]. unfold special in Hs. apply orb_false_iff in Hs as [Hs H1]. apply orb_false_iff in Hs as [H2 H3].
    rewrite H2. assert ((quote =? 0) && blank c = false) as -> by (destruct Hq as [[_ Hb%orb_false_iff]| ->]; [destruct Hb as [-> _]; by rewrite andb_false_r|done]).
    rewrite H1, H3, andb_false_r.
    assert (negb (quote =? 0) && (c =? quote) = false) as -> by (destruct Hq as [[-> _]| ->]; [done|by rewrite H1]).
    rewrite IH by done. by rewrite <- app_assoc.
Qed.

Lemma copy_quoted a rest : rest = [] \/ hd rest = 32 ->
  copy_token (quoted a ++ rest) 0 [] = (a, rest, 0).
Proof.
  intros Hr. unfold quoted. destruct (existsb blank a) eqn:Hb.
  - rewrite <- !app_assoc. change ([c_quote] ++ escape a ++ [c_quote] ++ rest) with (c_quote :: escape a ++ c_quote :: rest).
    cbn [copy_token]. change (copy_token (escape a ++ c_quote :: rest) c_quote [] = (a, rest, 0)).
    rewrite copy_escaped by (by right). cbn [app]. change (copy_token (c_quote :: rest) c_quote a) with (copy_token rest 0 a).
    destruct rest as [|c rest]; [done|]. destruct Hr as [|Hc]; [done|]. cbn in Hc. by subst c.
  - rewrite copy_escaped by (left; done). destruct rest as [|c rest]; [done|]. destruct Hr as [|Hc]; [done|]. cbn in Hc. by subst c.
Qed.

Definition nonempty (a : list Z) : bool := match a with [] => false | _ => true end.

Lemma quoted_head a : a <> [] -> exists c t, quoted a = c :: t /\ blank c = false.
Proof.
  intros Ha. unfold quoted. destruct (existsb blank a) eqn:Hb; [by eexists _, _|].
  destruct a as [|c a]; [done|]. apply orb_false_iff in Hb as [Hc _]. unfold escape, escape1. cbn. destruct (special c); cbn; eauto.
Qed.

Lemma line_false argv : argv <> [] -> line false argv = 32 :: line true argv.
Proof. by destruct argv. Qed.

Lemma split_line argv first fuel acc : (length (line first argv) <= fuel)%nat ->
  argv_split_loop fuel (line first argv) false acc = Ok (acc ++ List.filter nonempty argv).
Proof.
  revert first fuel acc. induction argv as [|a argv IH]; intros first fuel acc Hf; [destruct fuel; cbn; by rewrite app_nil_r|].
  assert (forall fuel, (length (line true (a :: argv)) <= fuel)%nat ->
    argv_split_loop fuel (line true (a :: argv)) false acc = Ok (acc ++ List.filter nonempty (a :: argv))) as Hl.
  { clear fuel Hf. intros fuel Hf. cbn [line piece app] in *. destruct a as [|c0 a0]; [by apply IH|].
    set (a := c0 :: a0) in *. destruct (quoted_head a) as (c & t & Eq & Hc); [done|].
    assert (line false argv = [] \/ hd (line false argv) = 32) as Hr by (destruct argv; [by left|by right]).
    pose proof (copy_quoted a _ Hr) as Ec. rewrite length_app in Hf. rewrite Eq in *. cbn [app length] in *.
    destruct fuel as [|fuel]; [lia|]. cbn [argv_split_loop]. rewrite Hc. cbn [andb]. rewrite Ec.
    destruct argv as [|b argv]; [done|]. rewrite line_false in * by done. rewrite IH by (cbn [length] in Hf; lia).
    by rewrite <- app_assoc. }
  destruct first; [by apply Hl|]. rewrite line_false in * by done. cbn [length] in Hf. destruct fuel as [|fuel]; [lia|]. cbn [argv_split_loop].
  change (blank 32) with true. cbn iota. apply Hl. lia.
Qed.

(** C40. Command lines are split as they were assembled: for any vector of
    byte strings whose text fits a buffer, argv_assemble does not fail and
    argv_split gives back from its text, in order and whatever blanks, quotes
    and backslashes they hold, exactly the arguments that are not empty. *)
Theorem argv_roundtrip np argv : 0 < np -> Forall (Forall is_byte) argv -> zlen (line true argv) <= SSHBUF_SIZE_MAX ->
  exists text, argv_assemble np argv = Ok text /\ argv_split text false = Ok (List.filter nonempty argv).
Proof. intros. exists (line true argv). split; [by apply argv_assemble_spec|]. by apply (split_line argv true _ []). Qed.

Lemma argv_roundtrip_witness : exists text, argv_assemble 1 [str "ls"; str "a b"; []; [c_quote; 32; c_backslash]] = Ok text /\
  argv_split text false = Ok [str "ls"; str "a b"; [c_quote; 32; c_backslash]].
Proof. apply (argv_roundtrip 1); [lia|repeat first [apply Forall_nil_2|apply Forall_cons_2]; by vm_compute|vm_compute; discriminate]. Defined.

(** An empty argument leaves no trace in the text that is assembled. *)
Lemma empty_argument_lost : exists argv text, argv_assemble 1 argv = Ok text /\ argv_split text false <> Ok argv.
Proof. exists [str "ls"; []], (str "ls "). vm_compute. split; [done|discriminate]. Qed.
