(* ===== verification/AuthOptions.v ===== *)
(** * Options of keys and certificates: src/auth-options.c

    The options of an authorized_keys line and of a certificate, their merge,
    and the form in which the monitor passes them on.  An array is the list of
    its strings, a NULL pointer [None].  [np] is the answer of the allocator for
    buffers and copies, [ok] for the other requests (0 and false for NULL). *)
From S2P Require Import Prelude Sshbuf SshbufGetput CString SshbufMisc Words Chacha ChachaPoly Cipher Hmac Mac PacketState Packet Match SshkeyNames KexNames Kex Misc Addr.

Definition SSH_AUTHOPT_PERMIT_MAX : Z := 4096.
Definition SSH_AUTHOPT_ENV_MAX : Z := 1024.
Definition NI_MAXHOST : Z := 1025.

Record sshauthopt := mk_opts {
  permit_port_forwarding_flag : Z;
  permit_agent_forwarding_flag : Z;
  permit_x11_forwarding_flag : Z;
  permit_pty_flag : Z;
  permit_user_rc : Z;
  restricted : Z;
  valid_before : Z;
  cert_authority : Z;
  cert_principals : option (list Z);
  force_tun_device : Z;
  force_command : option (list Z);
  env : list (list Z);
  permitopen : list (list Z);
  permitlisten : list (list Z);
  required_from_host_cert : option (list Z);
  required_from_host_keys : option (list Z);
  no_require_user_presence : Z;
  require_verify : Z }.

Definition set_permit_port_forwarding_flag (v : Z) (o : sshauthopt) : sshauthopt :=
  mk_opts v (permit_agent_forwarding_flag o) (permit_x11_forwarding_flag o) (permit_pty_flag o) (permit_user_rc o) (restricted o) (valid_before o) (cert_authority o) (cert_principals o) (force_tun_device o) (force_command o) (env o) (permitopen o) (permitlisten o) (required_from_host_cert o) (required_from_host_keys o) (no_require_user_presence o) (require_verify o).
Definition set_permit_agent_forwarding_flag (v : Z) (o : sshauthopt) : sshauthopt :=
  mk_opts (permit_port_forwarding_flag o) v (permit_x11_forwarding_flag o) (permit_pty_flag o) (permit_user_rc o) (restricted o) (valid_before o) (cert_authority o) (cert_principals o) (force_tun_device o) (force_command o) (env o) (permitopen o) (permitlisten o) (required_from_host_cert o) (required_from_host_keys o) (no_require_user_presence o) (require_verify o).
Definition set_permit_x11_forwarding_flag (v : Z) (o : sshauthopt) : sshauthopt :=
  mk_opts (permit_port_forwarding_flag o) (permit_agent_forwarding_flag o) v (permit_pty_flag o) (permit_user_rc o) (restricted o) (valid_before o) (cert_authority o) (cert_principals o) (force_tun_device o) (force_command o) (env o) (permitopen o) (permitlisten o) (required_from_host_cert o) (required_from_host_keys o) (no_require_user_presence o) (require_verify o).
Definition set_permit_pty_flag (v : Z) (o : sshauthopt) : sshauthopt :=
  mk_opts (permit_port_forwarding_flag o) (permit_agent_forwarding_flag o) (permit_x11_forwarding_flag o) v (permit_user_rc o) (restricted o) (valid_before o) (cert_authority o) (cert_principals o) (force_tun_device o) (force_command o) (env o) (permitopen o) (permitlisten o) (required_from_host_cert o) (required_from_host_keys o) (no_require_user_presence o) (require_verify o).
Definition set_permit_user_rc (v : Z) (o : sshauthopt) : sshauthopt :=
  mk_opts (permit_port_forwarding_flag o) (permit_agent_forwarding_flag o) (permit_x11_forwarding_flag o) (permit_pty_flag o) v (restricted o) (valid_before o) (cert_authority o) (cert_principals o) (force_tun_device o) (force_command o) (env o) (permitopen o) (permitlisten o) (required_from_host_cert o) (required_from_host_keys o) (no_require_user_presence o) (require_verify o).
Definition set_restricted (v : Z) (o : sshauthopt) : sshauthopt :=
  mk_opts (permit_port_forwarding_flag o) (permit_agent_forwarding_flag o) (permit_x11_forwarding_flag o) (permit_pty_flag o) (permit_user_rc o) v (valid_before o) (cert_authority o) (cert_principals o) (force_tun_device o) (force_command o) (env o) (permitopen o) (permitlisten o) (required_from_host_cert o) (required_from_host_keys o) (no_require_user_presence o) (require_verify o).
Definition set_valid_before (v : Z) (o : sshauthopt) : sshauthopt :=
  mk_opts (permit_port_forwarding_flag o) (permit_agent_forwarding_flag o) (permit_x11_forwarding_flag o) (permit_pty_flag o) (permit_user_rc o) (restricted o) v (cert_authority o) (cert_principals o) (force_tun_device o) (force_command o) (env o) (permitopen o) (permitlisten o) (required_from_host_cert o) (required_from_host_keys o) (no_require_user_presence o) (require_verify o).
Definition set_cert_authority (v : Z) (o : sshauthopt) : sshauthopt :=
  mk_opts (permit_port_forwarding_flag o) (permit_agent_forwarding_flag o) (permit_x11_forwarding_flag o) (permit_pty_flag o) (permit_user_rc o) (restricted o) (valid_before o) v (cert_principals o) (force_tun_device o) (force_command o) (env o) (permitopen o) (permitlisten o) (required_from_host_cert o) (required_from_host_keys o) (no_require_user_presence o) (require_verify o).
Definition set_cert_principals (v : option (list Z)) (o : sshauthopt) : sshauthopt :=
  mk_opts (permit_port_forwarding_flag o) (permit_agent_forwarding_flag o) (permit_x11_forwarding_flag o) (permit_pty_flag o) (permit_user_rc o) (restricted o) (valid_before o) (cert_authority o) v (force_tun_device o) (force_command o) (env o) (permitopen o) (permitlisten o) (required_from_host_cert o) (required_from_host_keys o) (no_require_user_presence o) (require_verify o).
Definition set_force_tun_device (v : Z) (o : sshauthopt) : sshauthopt :=
  mk_opts (permit_port_forwarding_flag o) (permit_agent_forwarding_flag o) (permit_x11_forwarding_flag o) (permit_pty_flag o) (permit_user_rc o) (restricted o) (valid_before o) (cert_authority o) (cert_principals o) v (force_command o) (env o) (permitopen o) (permitlisten o) (required_from_host_cert o) (required_from_host_keys o) (no_require_user_presence o) (require_verify o).
Definition set_force_command (v : option (list Z)) (o : sshauthopt) : sshauthopt :=
  mk_opts (permit_port_forwarding_flag o) (permit_agent_forwarding_flag o) (permit_x11_forwarding_flag o) (permit_pty_flag o) (permit_user_rc o) (restricted o) (valid_before o) (cert_authority o) (cert_principals o) (force_tun_device o) v (env o) (permitopen o) (permitlisten o) (required_from_host_cert o) (required_from_host_keys o) (no_require_user_presence o) (require_verify o).
Definition set_env (v : list (list Z)) (o : sshauthopt) : sshauthopt :=
  mk_opts (permit_port_forwarding_flag o) (permit_agent_forwarding_flag o) (permit_x11_forwarding_flag o) (permit_pty_flag o) (permit_user_rc o) (restricted o) (valid_before o) (cert_authority o) (cert_principals o) (force_tun_device o) (force_command o) v (permitopen o) (permitlisten o) (required_from_host_cert o) (required_from_host_keys o) (no_require_user_presence o) (require_verify o).
Definition set_permitopen (v : list (list Z)) (o : sshauthopt) : sshauthopt :=
  mk_opts (permit_port_forwarding_flag o) (permit_agent_forwarding_flag o) (permit_x11_forwarding_flag o) (permit_pty_flag o) (permit_user_rc o) (restricted o) (valid_before o) (cert_authority o) (cert_principals o) (force_tun_device o) (force_command o) (env o) v (permitlisten o) (required_from_host_cert o) (required_from_host_keys o) (no_require_user_presence o) (require_verify o).
Definition set_permitlisten (v : list (list Z)) (o : sshauthopt) : sshauthopt :=
  mk_opts (permit_port_forwarding_flag o) (permit_agent_forwarding_flag o) (permit_x11_forwarding_flag o) (permit_pty_flag o) (permit_user_rc o) (restricted o) (valid_before o) (cert_authority o) (cert_principals o) (force_tun_device o) (force_command o) (env o) (permitopen o) v (required_from_host_cert o) (required_from_host_keys o) (no_require_user_presence o) (require_verify o).
Definition set_required_from_host_cert (v : option (list Z)) (o : sshauthopt) : sshauthopt :=
  mk_opts (permit_port_forwarding_flag o) (permit_agent_forwarding_flag o) (permit_x11_forwarding_flag o) (permit_pty_flag o) (permit_user_rc o) (restricted o) (valid_before o) (cert_authority o) (cert_principals o) (force_tun_device o) (force_command o) (env o) (permitopen o) (permitlisten o) v (required_from_host_keys o) (no_require_user_presence o) (require_verify o).
Definition set_required_from_host_keys (v : option (list Z)) (o : sshauthopt) : sshauthopt :=
  mk_opts (permit_port_forwarding_flag o) (permit_agent_forwarding_flag o) (permit_x11_forwarding_flag o) (permit_pty_flag o) (permit_user_rc o) (restricted o) (valid_before o) (cert_authority o) (cert_principals o) (force_tun_device o) (force_command o) (env o) (permitopen o) (permitlisten o) (required_from_host_cert o) v (no_require_user_presence o) (require_verify o).
Definition set_no_require_user_presence (v : Z) (o : sshauthopt) : sshauthopt :=
  mk_opts (permit_port_forwarding_flag o) (permit_agent_forwarding_flag o) (permit_x11_forwarding_flag o) (permit_pty_flag o) (permit_user_rc o) (restricted o) (valid_before o) (cert_authority o) (cert_principals o) (force_tun_device o) (force_command o) (env o) (permitopen o) (permitlisten o) (required_from_host_cert o) (required_from_host_keys o) v (require_verify o).
Definition set_require_verify (v : Z) (o : sshauthopt) : sshauthopt :=
  mk_opts (permit_port_forwarding_flag o) (permit_agent_forwarding_flag o) (permit_x11_forwarding_flag o) (permit_pty_flag o) (permit_user_rc o) (restricted o) (valid_before o) (cert_authority o) (cert_principals o) (force_tun_device o) (force_command o) (env o) (permitopen o) (permitlisten o) (required_from_host_cert o) (required_from_host_keys o) (no_require_user_presence o) v.

(** [None] for NULL. *)
Definition sshauthopt_new (ok : bool) : option sshauthopt :=
  if ok then Some (mk_opts 0 0 0 0 0 0 0 0 None (-1) None [] [] [] None None 0 0) else None.

Definition sshauthopt_new_with_keys_defaults (ok : bool) : option sshauthopt :=
  match sshauthopt_new ok with
  | None => None
  | Some o =>
      Some (set_permit_user_rc 1 (set_permit_pty_flag 1 (set_permit_x11_forwarding_flag 1
             (set_permit_agent_forwarding_flag 1 (set_permit_port_forwarding_flag 1 o)))))
  end.

(** [dup_strings], [None] for -1; strdup(3) of a string that may be NULL. *)
Definition dup_strings (ok : bool) (src : list (list Z)) : option (list (list Z)) :=
  match src with [] => Some [] | _ => if ok then Some src else None end.
Definition dup_nullable (ok : bool) (s : option (list Z)) : option (option (list Z)) :=
  match s with None => Some None | Some s => if ok then Some (Some s) else None end.

(** ** Certificates *)

Definition OPTIONS_CRITICAL : Z := 1.
Definition OPTIONS_EXTENSIONS : Z := 2.

Section Certificates.
(** [getaddrinfo], as in [addr_match_cidr_list]. *)
Context (getaddrinfo : list Z -> option (sockaddr * Z)) (np : Z) (ok : bool).

(** An extension that is known: the options with it. *)
Definition cert_extension (name : list Z) (o : sshauthopt) : option sshauthopt :=
  if streq name (str "no-touch-required") then Some (set_no_require_user_presence 1 o)
  else if streq name (str "permit-X11-forwarding") then Some (set_permit_x11_forwarding_flag 1 o)
  else if streq name (str "permit-agent-forwarding") then Some (set_permit_agent_forwarding_flag 1 o)
  else if streq name (str "permit-port-forwarding") then Some (set_permit_port_forwarding_flag 1 o)
  else if streq name (str "permit-pty") then Some (set_permit_pty_flag 1 o)
  else if streq name (str "permit-user-rc") then Some (set_permit_user_rc 1 o)
  else None.

(** A critical option read from its data: [None] when it is not known. *)
Definition cert_critical (name : list Z) (o : sshauthopt) : ST sshbuf (option sshauthopt) :=
  if streq name (str "verify-required") then ret (Some (set_require_verify 1 o))
  else if streq name (str "force-command") then
    let! command := sshbuf_get_cstring np in
    match force_command o with
    | Some _ => fail (-1)
    | None => ret (Some (set_force_command (Some (cstr_of command)) o))
    end
  else if streq name (str "source-address") then
    let! allowed := sshbuf_get_cstring np in
    match required_from_host_cert o with
    | Some _ => fail (-1)
    | None =>
        let! m := defined (addr_match_cidr_list getaddrinfo ok None (cstr_of allowed)) in
        if m =? -1 then fail (-1) else ret (Some (set_required_from_host_cert (Some (cstr_of allowed)) o))
    end
  else ret None.

(** One option of the list. *)
Definition cert_option (which : Z) (crit : bool) (o : sshauthopt) : ST sshbuf sshauthopt :=
  let! name := sshbuf_get_cstring np in
  let! data := string_view np in
  let name := cstr_of name in
  let found := if negb (Z.land which OPTIONS_EXTENSIONS =? 0) then cert_extension name o else None in
  let! od := reads (fun _ =>
    match found with
    | Some o => Ok (Some o, data)
    | None =>
        if negb (Z.land which OPTIONS_CRITICAL =? 0)
        then match cert_critical name o data with (Ok f, data) => Ok (f, data) | (Err e, _) => Err e | (Crash, _) => Crash end
        else Ok (None, data)
    end) in
  match fst od with
  | None => if crit then fail (-1) else ret o
  | Some o => let! n := reads (fun _ => sshbuf_len (snd od)) in if negb (n =? 0) then fail (-1) else ret o
  end.

(** The loop; an option takes eight bytes at least. *)
Fixpoint cert_option_loop (fuel : nat) (which : Z) (crit : bool) (o : sshauthopt) : ST sshbuf sshauthopt :=
  match fuel with
  | O => crash
  | S fuel =>
      let! n := reads sshbuf_len in
      if 0 <? n then let! o := cert_option which crit o in cert_option_loop fuel which crit o else ret o
  end.

(** Any failure is -1. *)
Definition cert_option_list (o : sshauthopt) (oblob : sshbuf) (which : Z) (crit : bool) : res sshauthopt :=
  match (let? c := sshbuf_view np oblob in
         match c with
         | None => Err (-1)
         | Some c => let? n := sshbuf_len c in fst (cert_option_loop (S (Z.to_nat n)) which crit o c)
         end) with
  | Err _ => Err (-1)
  | r => r
  end.

Definition SSH2_CERT_TYPE_USER : Z := 1.
(** The type of a key, the type of its certificate and the two lists. *)
Record cert_key := mk_ck { ck_type : Z; ck_cert : option (Z * sshbuf * sshbuf) }.

(** [None] for NULL. *)
Definition sshauthopt_from_cert (k : option cert_key) : res (option sshauthopt) :=
  match k with
  | None => Ok None
  | Some k =>
      if negb (sshkey_type_is_cert (ck_type k)) then Ok None
      else
        match ck_cert k with
        | None => Ok None
        | Some (ctype, critical, extensions) =>
            if negb (ctype =? SSH2_CERT_TYPE_USER) then Ok None
            else
              match sshauthopt_new ok with
              | None => Ok None
              | Some o =>
                  match cert_option_list o critical OPTIONS_CRITICAL true with
                  | Ok o => match cert_option_list o extensions OPTIONS_EXTENSIONS false with Ok o => Ok (Some o) | Err _ => Ok None | Crash => Crash end
                  | Err _ => Ok None
                  | Crash => Crash
                  end
              end
        end
  end.
End Certificates.

(** ** The options of a line *)

Section Parse.
Context (servbyname : list Z -> option Z) {TM : Type} (strptime : list Z -> list Z -> option (TM * list Z)) (timegm mktime : TM -> option Z).
Context (ok : bool).

Definition alloc_failed : list Z := str "memory allocation failed".

(** The new list and the rest; [inr None] for a failure that leaves [*errstrp]. *)
Definition handle_permit (opts : list Z) (allow_bare_port : bool) (permits : list (list Z)) : (list (list Z) * list Z) + option (list Z) :=
  if SSH_AUTHOPT_PERMIT_MAX <? zlen permits then inr (Some (str "too many permission directives"))
  else
    match opt_dequote ok opts with
    | inr _ => inr None
    | inl (opt, opts) =>
        let bare := allow_bare_port && bool_decide (strchr opt 58 = None) in
        if bare && negb ok then inr (Some alloc_failed)
        else
          let opt := if bare then str "*:" ++ opt else opt in
          if negb ok then inr (Some alloc_failed)
          else
            match hpdelim2 (Some opt) with
            | None => inr (Some (str "invalid permission hostname"))
            | Some (host, _, cp) =>
                if NI_MAXHOST <=? zlen host then inr (Some (str "invalid permission hostname"))
                else
                  match cp with
                  | None => inr (Some (str "invalid permission port"))
                  | Some cp =>
                      if negb (streq cp (str "*")) && (a2port servbyname cp <=? 0) then inr (Some (str "invalid permission port"))
                      else inl (permits ++ [opt], opts)
                  end
            end
    end.

(** The environment has a value of that name. *)
Definition env_defined (e : list (list Z)) (name : list Z) : bool :=
  existsb (fun x => streq (take (length name) x) name && (hd (drop (length name) x) =? 61)) e.

(** What one option does: the options, the rest and [errstr], or the failure
    with its message, [None] for NULL. *)
Definition option_result : Type := (sshauthopt * list Z * option (list Z)) + option (list Z).

Definition multiple (name : String.string) : list Z := str "multiple " ++ [c_quote] ++ str name ++ [c_quote] ++ str " clauses".

(** A string option that may be given once. *)
Definition once (already : option (list Z)) (twice opts : list Z) (k : list Z -> sshauthopt) : option_result :=
  match already with
  | Some _ => inr (Some twice)
  | None => match opt_dequote ok opts with inr e => inr (Some e) | inl (v, opts) => inl (k v, opts, None) end
  end.

Definition parse_expiry (o : sshauthopt) (opts : list Z) : option_result :=
  match opt_dequote ok opts with
  | inr e => inr (Some e)
  | inl (opt, opts) =>
      match parse_absolute_time strptime timegm mktime opt with
      | Ok t =>
          if t =? 0 then inr (Some (str "invalid expires time"))
          else inl (if (valid_before o =? 0) || (t <? valid_before o) then set_valid_before t o else o, opts, None)
      | _ => inr (Some (str "invalid expires time"))
      end
  end.

Definition parse_environment (o : sshauthopt) (opts : list Z) : option_result :=
  if SSH_AUTHOPT_ENV_MAX <? zlen (env o) then inr (Some (str "too many environment strings"))
  else
    match opt_dequote ok opts with
    | inr e => inr (Some e)
    | inl (opt, opts) =>
        match strchr opt 61 with
        | None => inr (Some (str "invalid environment string"))
        | Some l =>
            if negb ok then inr (Some alloc_failed)
            else if negb (valid_env_name (take l opt)) then inr (Some (str "invalid environment string"))
            else if env_defined (env o) (take l opt) then inl (o, opts, None)
            else if negb ok then inr (Some alloc_failed)
            else inl (set_env (env o ++ [opt]) o, opts, None)
        end
    end.

Definition parse_tunnel (o : sshauthopt) (opts : list Z) : option_result :=
  match opt_dequote ok opts with
  | inr e => inr (Some e)
  | inl (opt, opts) =>
      let tun := a2tun_local opt in
      if tun =? SSH_TUNID_ERR then inr (Some (str "invalid tun device")) else inl (set_force_tun_device tun o, opts, None)
  end.

Definition parse_permit (o : sshauthopt) (opts : list Z) (bare : bool) (get : sshauthopt -> list (list Z))
    (set : list (list Z) -> sshauthopt -> sshauthopt) (errstr : option (list Z)) : option_result :=
  match handle_permit opts bare (get o) with
  | inl (permits, opts) => inl (set permits o, opts, errstr)
  | inr None => inr errstr
  | inr e => inr e
  end.

(** The options with a value. *)
Definition parse_valued (o : sshauthopt) (opts : list Z) (errstr : option (list Z)) : option_result :=
  match opt_match opts (str "command") with
  | Some opts => once (force_command o) (multiple "command") opts (fun v => set_force_command (Some v) o)
  | None =>
  match opt_match opts (str "principals") with
  | Some opts => once (cert_principals o) (multiple "principals") opts (fun v => set_cert_principals (Some v) o)
  | None =>
  match opt_match opts (str "from") with
  | Some opts => once (required_from_host_keys o) (multiple "from") opts (fun v => set_required_from_host_keys (Some v) o)
  | None =>
  match opt_match opts (str "expiry-time") with
  | Some opts => parse_expiry o opts
  | None =>
  match opt_match opts (str "environment") with
  | Some opts => parse_environment o opts
  | None =>
  match opt_match opts (str "permitopen") with
  | Some opts => parse_permit o opts false permitopen set_permitopen errstr
  | None =>
  match opt_match opts (str "permitlisten") with
  | Some opts => parse_permit o opts true permitlisten set_permitlisten errstr
  | None =>
  match opt_match opts (str "tunnel") with
  | Some opts => parse_tunnel o opts
  | None => inl (o, opts, errstr)
  end end end end end end end end.

(** The flags, then the options with a value. *)
Definition parse_option (o : sshauthopt) (opts : list Z) (errstr : option (list Z)) : option_result :=
  let flag (b : bool) : Z := if b then 1 else 0 in
  match opt_flag (str "restrict") false opts with
  | Some (_, opts) =>
      inl (set_permit_user_rc 0 (set_permit_pty_flag 0 (set_permit_x11_forwarding_flag 0
             (set_permit_agent_forwarding_flag 0 (set_permit_port_forwarding_flag 0 (set_restricted 1 o))))), opts, errstr)
  | None =>
  match opt_flag (str "cert-authority") false opts with
  | Some (r, opts) => inl (set_cert_authority (flag r) o, opts, errstr)
  | None =>
  match opt_flag (str "port-forwarding") true opts with
  | Some (r, opts) => inl (set_permit_port_forwarding_flag (flag r) o, opts, errstr)
  | None =>
  match opt_flag (str "agent-forwarding") true opts with
  | Some (r, opts) => inl (set_permit_agent_forwarding_flag (flag r) o, opts, errstr)
  | None =>
  match opt_flag (str "x11-forwarding") true opts with
  | Some (r, opts) => inl (set_permit_x11_forwarding_flag (flag r) o, opts, errstr)
  | None =>
  match opt_flag (str "touch-required") true opts with
  | Some (r, opts) => inl (set_no_require_user_presence (flag (negb r)) o, opts, errstr)
  | None =>
  match opt_flag (str "verify-required") true opts with
  | Some (r, opts) => inl (set_require_verify (flag r) o, opts, errstr)
  | None =>
  match opt_flag (str "pty") true opts with
  | Some (r, opts) => inl (set_permit_pty_flag (flag r) o, opts, errstr)
  | None =>
  match opt_flag (str "user-rc") true opts with
  | Some (r, opts) => inl (set_permit_user_rc (flag r) o, opts, errstr)
  | None => parse_valued o opts errstr
  end end end end end end end end end.

(** [while (...)]: each turn takes a comma at least. *)
Fixpoint parse_options (fuel : nat) (o : sshauthopt) (opts : list Z) (errstr : option (list Z)) : res (sshauthopt + option (list Z)) :=
  match fuel with
  | O => Crash
  | S fuel =>
      if (hd opts =? 0) || blank (hd opts) then Ok (inl o)
      else
        match parse_option o opts errstr with
        | inr e => Ok (inr e)
        | inl (o, opts, errstr) =>
            if (hd opts =? 0) || blank (hd opts) then Ok (inl o)
            else if negb (hd opts =? 44) then Ok (inr (Some (str "unknown key option")))
            else if hd (drop 1 opts) =? 0 then Ok (inr (Some (str "unexpected end-of-options")))
            else parse_options fuel o (drop 1 opts) errstr
        end
  end.

(** The options, or NULL with [*errstrp]. *)
Definition sshauthopt_parse (opts : option (list Z)) : res (sshauthopt + option (list Z)) :=
  match sshauthopt_new_with_keys_defaults ok with
  | None => Ok (inr (Some alloc_failed))
  | Some o =>
      match opts with
      | None => Ok (inl o)
      | Some opts => parse_options (S (length opts)) o opts (Some (str "unknown error"))
      end
  end.
End Parse.

(** ** Merge and copy *)

Definition both (a b : Z) : Z := if (a =? 1) && (b =? 1) then 1 else 0.
Definition either (a b : Z) : Z := if (a =? 1) || (b =? 1) then 1 else 0.
(** [p] unless it is empty. *)
Definition prefer (p a : list (list Z)) : list (list Z) := match p with [] => a | _ => p end.
Definition prefer_nullable (p a : option (list Z)) : option (list Z) := match p with None => a | _ => p end.

Definition merge_expiry (p a : Z) : Z :=
  let r := if negb (p =? 0) then p else 0 in
  if negb (a =? 0) && (a <? r) then a else r.

(** [None] when both are set and differ. *)
Definition merge_command (p a : option (list Z)) : option (option (list Z)) :=
  match p, a with
  | Some x, Some y => if streq x y then Some (Some x) else None
  | Some x, None => Some (Some x)
  | None, y => Some y
  end.

(** The merged options, or NULL with [*errstrp]; [ok] is the answer of the first
    request and [dup] of the others. *)
Definition sshauthopt_merge (ok dup : bool) (primary additional : sshauthopt) : sshauthopt + list Z :=
  match sshauthopt_new ok with
  | None => inr alloc_failed
  | Some r =>
      match dup_nullable dup (prefer_nullable (required_from_host_cert primary) (required_from_host_cert additional)),
            dup_nullable dup (prefer_nullable (required_from_host_keys primary) (required_from_host_keys additional)),
            dup_strings dup (prefer (env primary) (env additional)),
            dup_strings dup (prefer (permitopen primary) (permitopen additional)),
            dup_strings dup (prefer (permitlisten primary) (permitlisten additional)) with
      | Some from_cert, Some from_keys, Some e, Some popen, Some plisten =>
          let r := set_required_from_host_keys from_keys (set_required_from_host_cert from_cert r) in
          let r := set_force_tun_device (if force_tun_device primary =? -1 then force_tun_device additional else force_tun_device primary) r in
          let r := set_permitlisten plisten (set_permitopen popen (set_env e r)) in
          let r := set_permit_port_forwarding_flag (both (permit_port_forwarding_flag primary) (permit_port_forwarding_flag additional)) r in
          let r := set_permit_agent_forwarding_flag (both (permit_agent_forwarding_flag primary) (permit_agent_forwarding_flag additional)) r in
          let r := set_permit_x11_forwarding_flag (both (permit_x11_forwarding_flag primary) (permit_x11_forwarding_flag additional)) r in
          let r := set_permit_pty_flag (both (permit_pty_flag primary) (permit_pty_flag additional)) r in
          let r := set_permit_user_rc (both (permit_user_rc primary) (permit_user_rc additional)) r in
          let r := set_no_require_user_presence (both (no_require_user_presence primary) (no_require_user_presence additional)) r in
          let r := set_require_verify (either (require_verify primary) (require_verify additional)) r in
          let r := set_valid_before (merge_expiry (valid_before primary) (valid_before additional)) r in
          match merge_command (force_command primary) (force_command additional) with
          | None => inr (str "forced command options do not match")
          | Some command => match dup_nullable dup command with Some command => inl (set_force_command command r) | None => inr alloc_failed end
          end
      | _, _, _, _, _ => inr alloc_failed
      end
  end.

(** [None] for NULL. *)
Definition sshauthopt_copy (ok dup : bool) (orig : sshauthopt) : option sshauthopt :=
  match sshauthopt_new ok with
  | None => None
  | Some r =>
      match dup_nullable dup (cert_principals orig), dup_nullable dup (force_command orig),
            dup_nullable dup (required_from_host_cert orig), dup_nullable dup (required_from_host_keys orig),
            dup_strings dup (env orig), dup_strings dup (permitopen orig), dup_strings dup (permitlisten orig) with
      | Some principals, Some command, Some from_cert, Some from_keys, Some e, Some popen, Some plisten =>
          Some (mk_opts (permit_port_forwarding_flag orig) (permit_agent_forwarding_flag orig) (permit_x11_forwarding_flag orig)
                  (permit_pty_flag orig) (permit_user_rc orig) (restricted orig) (valid_before orig) (cert_authority orig) principals
                  (force_tun_device orig) command e popen plisten from_cert from_keys (no_require_user_presence orig) (require_verify orig))
      | _, _, _, _, _, _, _ => None
      end
  end.

(** ** To and from the monitor *)

Fixpoint put_cstrings (np : Z) (a : list (list Z)) : ST sshbuf unit :=
  match a with [] => ret tt | s :: a => do! sshbuf_put_cstring np (Some s) ;; put_cstrings np a end.

Definition serialise_array (np : Z) (a : list (list Z)) : ST sshbuf unit :=
  if INT_MAX <? zlen a then fail SSH_ERR_INTERNAL_ERROR
  else
    match sshbuf_new np np with
    | None => fail SSH_ERR_ALLOC_FAIL
    | Some b =>
        let! b := reads (fun _ => match put_cstrings np a b with (Ok _, b) => Ok b | (Err e, _) => Err e | (Crash, _) => Crash end) in
        do! sshbuf_put_u32 np (u32 (zlen a)) ;; sshbuf_put_stringb np (Some b)
    end.

Definition deserialise_array (np : Z) (ok : bool) : ST sshbuf (list (list Z)) :=
  let! tmp := sshbuf_get_u32 in
  let! b := string_view np in
  if INT_MAX <? tmp then fail SSH_ERR_INVALID_FORMAT
  else if (0 <? tmp) && negb ok then fail SSH_ERR_ALLOC_FAIL
  else reads (fun _ => fst (get_strings np (Z.to_nat tmp) b)).

Definition serialise_nullable_string (np : Z) (s : option (list Z)) : ST sshbuf unit :=
  do! sshbuf_put_u8 np (match s with None => 1 | Some _ => 0 end) ;; sshbuf_put_cstring np s.

(** A string that is not asked for is skipped without a copy. *)
Definition deserialise_nullable_string (np : Z) : ST sshbuf (option (list Z)) :=
  let! flag := sshbuf_get_u8 in
  if negb (flag =? 0) then let! _ := sshbuf_get_cstring 1 in ret None
  else let! p := sshbuf_get_cstring np in ret (Some (cstr_of p)).

Fixpoint put_flags (np : Z) (l : list Z) : ST sshbuf unit :=
  match l with [] => ret tt | f :: l => do! sshbuf_put_u8 np (u8 f) ;; put_flags np l end.

Definition sshauthopt_serialise (np : Z) (o : sshauthopt) (untrusted : bool) : ST sshbuf unit :=
  do! put_flags np [permit_port_forwarding_flag o; permit_agent_forwarding_flag o; permit_x11_forwarding_flag o; permit_pty_flag o;
                    permit_user_rc o; restricted o; cert_authority o; no_require_user_presence o; require_verify o] ;;
  do! sshbuf_put_u64 np (valid_before o) ;;
  do! sshbuf_put_u8 np (if force_tun_device o =? -1 then 1 else 0) ;;
  do! sshbuf_put_u32 np (if force_tun_device o <? 0 then 0 else force_tun_device o) ;;
  do! serialise_nullable_string np (if untrusted then Some (str "yes") else cert_principals o) ;;
  do! serialise_nullable_string np (if untrusted then Some (str "true") else force_command o) ;;
  do! serialise_nullable_string np (if untrusted then None else required_from_host_cert o) ;;
  do! serialise_nullable_string np (if untrusted then None else required_from_host_keys o) ;;
  do! serialise_array np (if untrusted then [] else env o) ;;
  do! serialise_array np (if untrusted then [] else permitopen o) ;;
  serialise_array np (if untrusted then [] else permitlisten o).

Definition s32 (x : Z) : Z := if x <? 2 ^ 31 then x else x - 2 ^ 32.

Definition sshauthopt_deserialise (np : Z) (ok : bool) : ST sshbuf sshauthopt :=
  if negb ok then fail SSH_ERR_ALLOC_FAIL
  else
    let! port := sshbuf_get_u8 in
    let! agent := sshbuf_get_u8 in
    let! x11 := sshbuf_get_u8 in
    let! pty := sshbuf_get_u8 in
    let! rc := sshbuf_get_u8 in
    let! restr := sshbuf_get_u8 in
    let! ca := sshbuf_get_u8 in
    let! presence := sshbuf_get_u8 in
    let! verify := sshbuf_get_u8 in
    let! before := sshbuf_get_u64 in
    let! f := sshbuf_get_u8 in
    let! tmp := sshbuf_get_u32 in
    let! principals := deserialise_nullable_string np in
    let! command := deserialise_nullable_string np in
    let! from_cert := deserialise_nullable_string np in
    let! from_keys := deserialise_nullable_string np in
    let! e := deserialise_array np ok in
    let! popen := deserialise_array np ok in
    let! plisten := deserialise_array np ok in
    ret (mk_opts port agent x11 pty rc restr before ca principals (if negb (f =? 0) then -1 else s32 tmp) command e popen plisten
           from_cert from_keys presence verify).
