(* ===== verification/AuthOptProps.v ===== *)
(** * Options of keys and certificates: properties of src/auth-options.c *)
From S2P Require Import Prelude Sshbuf SshbufGetput SshbufSpec CString SshbufMisc Words Chacha ChachaPoly Cipher Hmac Mac PacketState Packet PacketBuf Codec Match SshkeyNames KexNames Kex Misc Addr AuthOptions.

(** ** What a session may do *)

(** A use that options can forbid.  A list of hosts or of destinations is
    judged by the test that the use carries. *)
Inductive use :=
| PortForwarding | AgentForwarding | X11Forwarding | Pty | UserRc | WithoutTouch | WithoutVerification
| Command (c : list Z) | At (t : Z) | Tunnel (n : Z)
| FromByCert (admits : list Z -> bool) | FromByKeys (admits : list Z -> bool)
| Open (admits : list (list Z) -> bool) | Listen (admits : list (list Z) -> bool).

Definition unset_or {A} (p : A -> bool) (o : option A) : bool := match o with None => true | Some x => p x end.

Definition allows (o : sshauthopt) (u : use) : bool :=
  match u with
  | PortForwarding => permit_port_forwarding_flag o =? 1
  | AgentForwarding => permit_agent_forwarding_flag o =? 1
  | X11Forwarding => permit_x11_forwarding_flag o =? 1
  | Pty => permit_pty_flag o =? 1
  | UserRc => permit_user_rc o =? 1
  | WithoutTouch => no_require_user_presence o =? 1
  | WithoutVerification => negb (require_verify o =? 1)
  | Command c => unset_or (streq c) (force_command o)
  | At t => (valid_before o =? 0) || (t <? valid_before o)
  | Tunnel n => (force_tun_device o =? -1) || (n =? force_tun_device o)
  | FromByCert p => unset_or p (required_from_host_cert o)
  | FromByKeys p => unset_or p (required_from_host_keys o)
  | Open p => match permitopen o with [] => true | l => p l end
  | Listen p => match permitlisten o with [] => true | l => p l end
  end.

(** The additional options have no say: a list that the primary ones have
    too, and the time when the primary ones do not expire. *)
Definition primary_decides (p : sshauthopt) (u : use) : bool :=
  match u with
  | Tunnel _ => negb (force_tun_device p =? -1)
  | FromByCert _ => match required_from_host_cert p with None => false | _ => true end
  | FromByKeys _ => match required_from_host_keys p with None => false | _ => true end
  | Open _ => match permitopen p with [] => false | _ => true end
  | Listen _ => match permitlisten p with [] => false | _ => true end
  | At _ => valid_before p =? 0
  | _ => false
  end.

Lemma both_allows a b : (both a b =? 1) = (a =? 1) && (b =? 1).
Proof. unfold both. by destruct ((a =? 1) && (b =? 1)). Qed.
Lemma either_allows a b : negb (either a b =? 1) = negb (a =? 1) && negb (b =? 1).
Proof. unfold either. rewrite <- negb_orb. by destruct ((a =? 1) || (b =? 1)). Qed.

Lemma merge_expiry_allows p a t : 0 <= p -> 0 <= a ->
  ((merge_expiry p a =? 0) || (t <? merge_expiry p a)) = ((p =? 0) || (t <? p)) && ((p =? 0) || ((a =? 0) || (t <? a))).
Proof.
  intros Hp Ha. unfold merge_expiry. destruct (p =? 0) eqn:E0; destruct (a =? 0) eqn:E1; cbn [negb andb orb]; try rewrite E0; try done; zbool.
  - by rewrite (proj2 (Z.ltb_ge a 0)) by lia.
  - by rewrite andb_true_r.
  - destruct (a <? p) eqn:E2; zbool; [rewrite (proj2 (Z.eqb_neq a 0)) by lia|rewrite (proj2 (Z.eqb_neq p 0)) by lia]; cbn;
      destruct (t <? a) eqn:E3, (t <? p) eqn:E4; zbool; try done; lia.
Qed.

Lemma merge_command_allows p a c :
  match merge_command p a with
  | Some r => unset_or (streq c) r = unset_or (streq c) p && unset_or (streq c) a
  | None => exists x y, p = Some x /\ a = Some y /\ x <> y
  end.
Proof.
  destruct p as [x|], a as [y|]; cbn; [|by rewrite ?andb_true_r..]. unfold streq at 1. case_bool_decide; [subst; by rewrite andb_diag|by exists x, y].
Qed.

Lemma dup_nullable_ok s : dup_nullable true s = Some s.
Proof. by destruct s. Qed.
Lemma dup_strings_ok l : dup_strings true l = Some l.
Proof. by destruct l. Qed.


Definition ex_options : sshauthopt := mk_opts 1 1 1 1 1 0 0 0 None (-1) (Some (str "date")) [] [] [] None None 0 0.

(** The expiry time of the additional options is lost when the primary
    options have none, where the earliest should win. *)
Lemma additional_expiry_lost p a r : sshauthopt_merge true true p a = inl r -> valid_before p = 0 -> 0 <= valid_before a -> valid_before r = 0.
Proof.
  unfold sshauthopt_merge. cbn [sshauthopt_new]. rewrite !dup_nullable_ok, !dup_strings_ok. destruct (merge_command _ _); [|done].
  rewrite dup_nullable_ok. intros [= <-] Hp Ha. cbn. unfold merge_expiry. rewrite Hp. cbn. rewrite (proj2 (Z.ltb_ge _ 0)) by lia.
  by rewrite andb_false_r.
Qed.

(** ** To the monitor and back *)

(** A string that C can hold. *)
Definition cstring (s : list Z) : Prop := Forall is_byte s /\ ~ (0 ∈ s).
Definition flags_of (o : sshauthopt) : list Z :=
  [permit_port_forwarding_flag o; permit_agent_forwarding_flag o; permit_x11_forwarding_flag o; permit_pty_flag o;
   permit_user_rc o; restricted o; cert_authority o; no_require_user_presence o; require_verify o].

Record opts_ok (o : sshauthopt) : Prop := {
  oo_flags : Forall is_byte (flags_of o);
  oo_before : 0 <= valid_before o < 2 ^ 64;
  oo_tunnel : -1 <= force_tun_device o <= INT_MAX;
  oo_nullable : Forall (fun s => match s with Some s => cstring s | None => True end)
    [cert_principals o; force_command o; required_from_host_cert o; required_from_host_keys o];
  oo_arrays : Forall (fun a => Forall cstring a /\ zlen a <= INT_MAX) [env o; permitopen o; permitlisten o]
}.

(** What an untrusted process is told. *)
Definition told (untrusted : bool) (o : sshauthopt) : sshauthopt :=
  if untrusted
  then set_permitlisten [] (set_permitopen [] (set_env [] (set_required_from_host_keys None (set_required_from_host_cert None
         (set_force_command (Some (str "true")) (set_cert_principals (Some (str "yes")) o))))))
  else o.

Definition enc_nullable (s : option (list Z)) : list Z := match s with None => [1] ++ enc_string [] | Some s => [0] ++ enc_string s end.
Definition enc_strings (a : list (list Z)) : list Z := concat (enc_string <$> a).
Definition enc_array (a : list (list Z)) : list Z := POKE_U32 (zlen a) ++ enc_string (enc_strings a).
Definition enc_opts (o : sshauthopt) : list Z :=
  flags_of o ++ POKE_U64 (valid_before o) ++ [if force_tun_device o =? -1 then 1 else 0] ++
  POKE_U32 (if force_tun_device o <? 0 then 0 else force_tun_device o) ++
  enc_nullable (cert_principals o) ++ enc_nullable (force_command o) ++ enc_nullable (required_from_host_cert o) ++
  enc_nullable (required_from_host_keys o) ++ enc_array (env o) ++ enc_array (permitopen o) ++ enc_array (permitlisten o).

Lemma str_cstring_yes : cstring (str "yes") /\ cstring (str "true").
Proof. split; split; try (repeat apply Forall_cons_2; try apply Forall_nil_2; by vm_compute); by apply (bool_decide_eq_false_1 (0 ∈ _)). Qed.

Lemma told_ok untrusted o : opts_ok o -> opts_ok (told untrusted o).
Proof.
  intros [F B T N A]. destruct untrusted; [|done]. constructor; try done; cbn.
  - repeat apply Forall_cons_2; try done; try apply str_cstring_yes.
  - repeat apply Forall_cons_2; try apply Forall_nil_2; split; try done; vm_compute; discriminate.
Qed.

Lemma serialise_told np o untrusted b : sshauthopt_serialise np o untrusted b = sshauthopt_serialise np (told untrusted o) false b.
Proof. by destruct untrusted. Qed.

Section Codecs.
Context (np : Z) (Hnp : 0 < np).

Lemma appends_flags l : Forall is_byte l -> appends (put_flags np l) l.
Proof.
  intros Hl. induction Hl as [|f l Hf Hl IH]; [apply appends_ret|]. apply (appends_then _ _ [f]); [|done].
  unfold u8. rewrite Z.mod_small by done. apply appends_u8; [lia|done].
Qed.

Lemma appends_nullable s : match s with Some s => cstring s | None => True end -> appends (serialise_nullable_string np s) (enc_nullable s).
Proof.
  intros Hs. destruct s as [s|]; apply (appends_then _ _ [_]); try (apply appends_u8; [lia|done]); apply appends_string; try lia; [apply Hs|done].
Qed.

Lemma appends_cstrings a : Forall cstring a -> appends (put_cstrings np a) (enc_strings a).
Proof.
  intros Ha. induction Ha as [|s a [Hs _] Ha IH]; [apply appends_ret|]. apply (appends_then _ _ (enc_string s)); [|done]. apply appends_string; [lia|done].
Qed.

Lemma appends_array a : Forall cstring a -> zlen a <= INT_MAX -> appends (serialise_array np a) (enc_array a).
Proof.
  intros Ha Hn. unfold serialise_array. rewrite (proj2 (Z.ltb_ge INT_MAX _)) by done. destruct (sshbuf_new np np) as [b|] eqn:Eb.
  2:{ unfold sshbuf_new in Eb. by rewrite (proj2 (Z.eqb_neq np 0)) in Eb by lia. }
  intros b0 l P Hm. unfold enc_array in Hm. rewrite zlen_app, enc_string_len in Hm. pose proof (zlen_nonneg l). pose proof (zlen_nonneg (POKE_U32 (zlen a))).
  destruct (appends_cstrings a Ha b [] (pbuf_new np b Hnp Eb)) as (b1 & E1 & P1); [change (zlen []) with 0; lia|]. rewrite E1.
  assert (0 <= zlen a < 2 ^ 32) as Hz by (pose proof (zlen_nonneg a); unfold INT_MAX in *; lia).
  assert (appends (do! sshbuf_put_u32 np (u32 (zlen a)) ;; sshbuf_put_stringb np (Some b1)) (enc_array a)) as A.
  { apply appends_then; [rewrite u32_small by done; apply appends_u32; [lia|done]|].
    eapply appends_eq; [apply appends_stringb; [lia|apply P1]|]. by rewrite (pb_data _ _ P1). }
  apply (A b0 l P). unfold enc_array. rewrite zlen_app, enc_string_len. lia.
Qed.

Lemma appends_opts o : opts_ok o -> appends (sshauthopt_serialise np o false) (enc_opts o).
Proof.
  intros [F B T N A]. unfold sshauthopt_serialise, enc_opts. rewrite !Forall_cons in N. rewrite !Forall_cons in A.
  destruct N as (N1 & N2 & N3 & N4 & _). destruct A as ([A1 L1] & [A2 L2] & [A3 L3] & _).
  apply appends_then; [by apply appends_flags|]. apply appends_then; [apply appends_u64; [lia|done]|].
  apply appends_then; [apply appends_u8; [lia|by destruct (_ =? _)]|].
  apply appends_then; [apply appends_u32; [lia|]; unfold INT_MAX in *; destruct (Z.ltb_spec (force_tun_device o) 0); lia|].
  do 4 (apply appends_then; [by apply appends_nullable|]). do 2 (apply appends_then; [by apply appends_array|]). by apply appends_array.
Qed.

Lemma cstr_of_sent s : cstring s -> cstr_of (s ++ [0], zlen s) = s.
Proof. intros [_ Hs]. unfold cstr_of. cbn [fst]. by apply span_to_app. Qed.

Lemma parses_nullable s : match s with Some s => cstring s | None => True end -> parses (deserialise_nullable_string np) (enc_nullable s) s.
Proof.
  intros Hs. unfold deserialise_nullable_string. destruct s as [s|].
  - apply (parses_bind _ _ [0] _ _ _ (parses_u8 0 ltac:(done))). eapply parses_last; [apply parses_cstring; [lia|apply Hs]|].
    rewrite cstr_of_sent by done. apply parses_ret.
  - apply (parses_bind _ _ [1] _ _ _ (parses_u8 1 ltac:(done))). eapply parses_last; [apply parses_cstring; [done|apply not_elem_of_nil]|]. apply parses_ret.
Qed.

Lemma parses_strings a : Forall cstring a -> parses (get_strings np (length a)) (enc_strings a) a.
Proof.
  intros Ha. induction Ha as [|s a Hs Ha IH]; [apply parses_ret|]. cbn [length get_strings]. change (enc_strings (s :: a)) with (enc_string s ++ enc_strings a).
  eapply parses_bind; [apply parses_cstring; [lia|apply Hs]|]. eapply parses_last; [done|]. rewrite cstr_of_sent by done. apply parses_ret.
Qed.

Lemma enc_strings_bytes a : Forall cstring a -> Forall is_byte (enc_strings a).
Proof. intros Ha. apply Forall_concat, Forall_fmap. eapply Forall_impl; [done|]. intros s [Hs _]. by apply enc_string_bytes. Qed.

Lemma parses_array a : Forall cstring a -> zlen a <= INT_MAX -> parses (deserialise_array np true) (enc_array a) a.
Proof.
  intros Ha Hn. pose proof (zlen_nonneg a). eapply parses_bind; [apply parses_u32; unfold INT_MAX in *; lia|]. rewrite <- (app_nil_r (enc_string _)).
  apply parses_view; [done|by apply enc_strings_bytes|]. intros s W D C. rewrite (proj2 (Z.ltb_ge INT_MAX _)), andb_false_r by done.
  destruct (parses_strings a Ha s [] W D) as (s' & E & _); [by rewrite app_nil_r|]. unfold zlen. rewrite Nat2Z.id. intros b rest Wb Db Cb. exists b.
  unfold reads. by rewrite E.
Qed.

Lemma parses_opts o : opts_ok o -> parses (sshauthopt_deserialise np true) (enc_opts o) o.
Proof.
  intros [F B T N A]. unfold enc_opts, flags_of in *. rewrite !Forall_cons in F. rewrite !Forall_cons in N. rewrite !Forall_cons in A.
  destruct N as (N1 & N2 & N3 & N4 & _). destruct A as ([A1 L1] & [A2 L2] & [A3 L3] & _). destruct F as (F1 & F2 & F3 & F4 & F5 & F6 & F7 & F8 & F9 & _).
  unfold sshauthopt_deserialise. cbn [negb].
  do 9 (apply parses_byte; [done|]). cbn [app].
  eapply parses_bind; [by apply parses_u64|]. apply parses_byte; [by destruct (_ =? _)|].
  eapply parses_bind; [apply parses_u32; unfold INT_MAX in *; destruct (Z.ltb_spec (force_tun_device o) 0); lia|].
  do 4 (eapply parses_bind; [by apply parses_nullable|]). do 2 (eapply parses_bind; [by apply parses_array|]). eapply parses_last; [by apply parses_array|].
  assert ((if negb ((if force_tun_device o =? -1 then 1 else 0) =? 0) then -1 else s32 (if force_tun_device o <? 0 then 0 else force_tun_device o))
          = force_tun_device o) as ->.
  { destruct (Z.eqb_spec (force_tun_device o) (-1)) as [->|]; [done|]. cbn. unfold s32, INT_MAX in *.
    rewrite (proj2 (Z.ltb_ge _ 0)) by lia. by rewrite (proj2 (Z.ltb_lt _ _)) by lia. }
  destruct o. apply parses_ret.
Qed.
End Codecs.

(** C39. Options survive the way from the monitor: what [sshauthopt_serialise]
    appends to a buffer, [sshauthopt_deserialise] takes off again from any
    buffer that begins with it, and gives the same options, a NULL string as
    NULL and an unset tunnel as unset.  With [untrusted] the result forces the
    command [true] and carries no address, no destination and no environment. *)
Theorem options_roundtrip np o untrusted b l : 0 < np -> opts_ok o -> pbuf b l -> zlen l + zlen (enc_opts (told untrusted o)) <= SSHBUF_SIZE_MAX ->
  exists b' text, sshauthopt_serialise np o untrusted b = (Ok tt, b') /\ pbuf b' (l ++ text) /\
    forall m rest, sshbuf_wf m -> 0 < sb_cd m -> contents m = text ++ rest ->
    exists m', sshauthopt_deserialise np true m = (Ok (told untrusted o), m') /\ sshbuf_wf m' /\ contents m' = rest.
Proof.
  intros Hnp Ho P Hm. pose proof (told_ok untrusted o Ho) as Ht. destruct (appends_opts np Hnp _ Ht b l P Hm) as (b' & E & P').
  exists b', (enc_opts (told untrusted o)). rewrite serialise_told. split; [done|]. split; [done|]. intros m rest W D C.
  destruct (parses_opts np Hnp _ Ht m rest W D C) as (m' & Em & Wm & _ & Cm). by exists m'.
Qed.

Definition ex_buffer : sshbuf :=
  mk_sshbuf 1 1 1 0 0 SSHBUF_SIZE_MAX SSHBUF_SIZE_INIT false 1 0 (replicate (Z.to_nat SSHBUF_SIZE_INIT) 0).
Lemma ex_options_ok : opts_ok ex_options.
Proof.
  constructor; try (cbn; unfold INT_MAX; lia).
  - repeat (apply Forall_cons_2; [by vm_compute|]). apply Forall_nil_2.
  - repeat apply Forall_cons_2; try done. split; [repeat (apply Forall_cons_2; [by vm_compute|]); apply Forall_nil_2|].
    by apply (bool_decide_eq_false_1 (0 ∈ _)).
  - repeat apply Forall_cons_2; try apply Forall_nil_2; split; try done; vm_compute; discriminate.
Qed.

Lemma options_roundtrip_witness :
  exists b' text, sshauthopt_serialise 1 ex_options true ex_buffer = (Ok tt, b') /\ pbuf b' ([] ++ text) /\
    forall m rest, sshbuf_wf m -> 0 < sb_cd m -> contents m = text ++ rest ->
    exists m', sshauthopt_deserialise 1 true m = (Ok (told true ex_options), m') /\ sshbuf_wf m' /\ contents m' = rest.
Proof.
  apply (options_roundtrip 1 ex_options true ex_buffer []); [done|exact ex_options_ok|by apply (pbuf_new 1)|vm_compute; discriminate].
Defined.
