(* ===== verification/CertOptions.v ===== *)
(** * Options of certificates: what [sshauthopt_from_cert] makes of the two lists *)
From S2P Require Import Prelude Sshbuf SshbufGetput SshbufSpec CString SshbufMisc Words Chacha ChachaPoly Cipher Hmac Mac PacketState Packet PacketBuf Codec Match SshkeyNames KexNames Kex Misc Addr AuthOptions KexProp.

(** ** The lists *)

(** The names and the data that a list of options holds. *)
Inductive listed : list Z -> list (list Z * list Z) -> Prop :=
| listed_nil : listed [] []
| listed_cons l n l1 d l2 es : read_cstring l = Ok (n, l1) -> read_string l1 = Ok (d, l2) -> listed l2 es -> listed l ((span_to 0 n, d) :: es).

(** Data that is one C string. *)
Definition value (d : list Z) : option (list Z) := match read_cstring d with Ok (v, []) => Some (span_to 0 v) | _ => None end.
Definition named (n : String.string) (es : list (list Z * list Z)) : list (list Z * list Z) := List.filter (fun e => streq (fst e) (str n)) es.
Definition has (n : String.string) (es : list (list Z * list Z)) : bool := existsb (fun e => streq (fst e) (str n)) es.
(** The value of the first option of that name. *)
Definition first_value (n : String.string) (es : list (list Z * list Z)) : option (list Z) :=
  match named n es with (_, d) :: _ => value d | [] => None end.

Section Cert.
Context (getaddrinfo : list Z -> option (sockaddr * Z)) (np : Z) (ok : bool).

Definition sources_ok (s : list Z) : Prop := exists m, addr_match_cidr_list getaddrinfo ok None s = Some m /\ m <> -1.

(** A critical option with data of its form. *)
Definition critical_ok (e : list Z * list Z) : Prop :=
  fst e = str "verify-required" /\ snd e = [] \/
  fst e = str "force-command" /\ is_Some (value (snd e)) \/
  fst e = str "source-address" /\ exists s, value (snd e) = Some s /\ sources_ok s.

Definition extension_names : list (list Z) :=
  [str "no-touch-required"; str "permit-X11-forwarding"; str "permit-agent-forwarding"; str "permit-port-forwarding"; str "permit-pty"; str "permit-user-rc"].
Definition extension_ok (e : list Z * list Z) : Prop := fst e ∈ extension_names -> snd e = [].

Definition flag (b : bool) : Z := if b then 1 else 0.

(** The options that a certificate with these lists stands for. *)
Definition cert_options (cl el : list (list Z * list Z)) : sshauthopt :=
  mk_opts (flag (has "permit-port-forwarding" el)) (flag (has "permit-agent-forwarding" el)) (flag (has "permit-X11-forwarding" el))
    (flag (has "permit-pty" el)) (flag (has "permit-user-rc" el)) 0 0 0 None (-1) (first_value "force-command" cl) [] [] []
    (first_value "source-address" cl) None (flag (has "no-touch-required" el)) (flag (has "verify-required" cl)).

(** ** The functions of the bytes *)

Definition critical_fun (name : list Z) (o : sshauthopt) (l : list Z) : res (option sshauthopt * list Z) :=
  if streq name (str "verify-required") then Ok (Some (set_require_verify 1 o), l)
  else if streq name (str "force-command") then
    let? vr := read_cstring l in
    match force_command o with Some _ => Err (-1) | None => Ok (Some (set_force_command (Some (span_to 0 (fst vr))) o), snd vr) end
  else if streq name (str "source-address") then
    let? vr := read_cstring l in
    match required_from_host_cert o with
    | Some _ => Err (-1)
    | None =>
        match addr_match_cidr_list getaddrinfo ok None (span_to 0 (fst vr)) with
        | None => Crash
        | Some m => if m =? -1 then Err (-1) else Ok (Some (set_required_from_host_cert (Some (span_to 0 (fst vr))) o), snd vr)
        end
    end
  else Ok (None, l).

Definition entry_fun (which : Z) (crit : bool) (o : sshauthopt) (name data : list Z) : res sshauthopt :=
  let? od := match (if negb (Z.land which OPTIONS_EXTENSIONS =? 0) then cert_extension name o else None) with
             | Some o => Ok (Some o, data)
             | None => if negb (Z.land which OPTIONS_CRITICAL =? 0) then critical_fun name o data else Ok (None, data)
             end in
  match fst od with
  | None => if crit then Err (-1) else Ok o
  | Some o => if negb (zlen (snd od) =? 0) then Err (-1) else Ok o
  end.

Fixpoint options_fun (fuel : nat) (which : Z) (crit : bool) (o : sshauthopt) (l : list Z) : res (sshauthopt * list Z) :=
  match fuel with
  | O => Crash
  | S fuel =>
      if 0 <? zlen l then
        let? n := read_cstring l in
        let? d := read_string (snd n) in
        let? o := entry_fun which crit o (span_to 0 (fst n)) (fst d) in
        options_fun fuel which crit o (snd d)
      else Ok (o, l)
  end.

Lemma critical_denotes name o : np <> 0 -> denotes (cert_critical getaddrinfo np ok name o) (critical_fun name o).
Proof.
  intros Hnp. unfold cert_critical, critical_fun. destruct (streq name _); [apply denotes_ret|]. destruct (streq name _).
  - apply (denotes_cstring np _ (fun v l => match force_command o with Some _ => Err (-1) | None => Ok (Some (set_force_command (Some (span_to 0 v)) o), l) end)); [done|].
    intros v. unfold cstr_of. cbn [fst]. rewrite span_to_sent. destruct (force_command o); [apply denotes_fail|apply denotes_ret].
  - destruct (streq name _); [|apply denotes_ret].
    apply (denotes_cstring np _ (fun v l => match required_from_host_cert o with Some _ => Err (-1) | None =>
      match addr_match_cidr_list getaddrinfo ok None (span_to 0 v) with
      | None => Crash | Some m => if m =? -1 then Err (-1) else Ok (Some (set_required_from_host_cert (Some (span_to 0 v)) o), l) end end)); [done|].
    intros v. unfold cstr_of. cbn [fst]. rewrite span_to_sent. destruct (required_from_host_cert o); [apply denotes_fail|].
    destruct (addr_match_cidr_list _ _ _ _) as [m|]; [|done]. apply denotes_now. destruct (m =? -1); [apply denotes_fail|apply denotes_ret].
Qed.

Lemma option_denotes which crit o : 0 < np ->
  denotes (cert_option getaddrinfo np ok which crit o)
    (fun l => let? n := read_cstring l in let? d := read_string (snd n) in
              let? o := entry_fun which crit o (span_to 0 (fst n)) (fst d) in Ok (o, snd d)).
Proof.
  intros Hnp. unfold cert_option.
  apply (denotes_cstring np _ (fun n l => let? d := read_string l in let? o := entry_fun which crit o (span_to 0 n) (fst d) in Ok (o, snd d))); [lia|].
  intros n. unfold cstr_of at 1 2. cbn [fst]. rewrite span_to_sent. set (name := span_to 0 n).
  apply (denotes_view np _ (fun d l => let? o := entry_fun which crit o name d in Ok (o, l))); [done|]. intros s W D.
  cbv zeta. unfold entry_fun. set (found := if negb (Z.land which OPTIONS_EXTENSIONS =? 0) then _ else _).
  pose proof (critical_denotes name o ltac:(lia) s W D) as Hc.
  assert (forall o' : sshauthopt, denotes (A := sshauthopt) (let! k := reads (fun _ => sshbuf_len s) in if negb (k =? 0) then fail (-1) else ret o')
    (fun l => let? o := if negb (zlen (contents s) =? 0) then Err (-1) else Ok o' in Ok (o, l))) as Hl.
  { intros o' b Wb Db. unfold reads, bind. rewrite sshbuf_len_wf by done. destruct (zlen (contents s) =? 0); [by exists b|done]. }
  destruct found as [o1|]; [exact (Hl o1)|].
  destruct (negb (Z.land which OPTIONS_CRITICAL =? 0)).
  - destruct (critical_fun name o (contents s)) as [[f rest]|e|].
    + destruct Hc as (s' & E & W' & _ & C). rewrite E. intros b Wb Db. unfold reads, bind. cbn [fst snd rbind]. destruct f as [o1|].
      * rewrite sshbuf_len_wf, C by done. destruct (zlen rest =? 0); [by exists b|done].
      * destruct crit; [done|by exists b].
    + destruct (cert_critical _ _ _ _ _ s) as [[] ?]; try done. injection Hc as ->. done.
    + by destruct (cert_critical _ _ _ _ _ s) as [[] ?].
  - intros b Wb Db. unfold reads, bind. cbn [fst snd rbind]. destruct crit; [done|by exists b].
Qed.

Lemma loop_denotes fuel which crit o : 0 < np -> denotes (cert_option_loop getaddrinfo np ok fuel which crit o) (options_fun fuel which crit o).
Proof.
  intros Hnp. revert o. induction fuel as [|fuel IH]; intros o; [done|]. cbn [cert_option_loop].
  pose proof (denotes_bind _ _ _ _ (option_denotes which crit o Hnp) IH) as Hs.
  intros b W D. assert (reads sshbuf_len b = (Ok (zlen (contents b)), b)) as El by (unfold reads; by rewrite sshbuf_len_wf).
  rewrite (bind_ok _ _ _ _ _ El). specialize (Hs b W D). revert Hs. cbn [options_fun].
  destruct (0 <? zlen (contents b)); [|intros _; by exists b]. destruct (read_cstring (contents b)) as [n|e|]; cbn [rbind]; [|done..].
  destruct (read_string (snd n)) as [d|e|]; cbn [rbind]; [|done..]. by destruct (entry_fun _ _ _ _ _).
Qed.

(** ** Lists as sequences of options *)

Fixpoint entries (which : Z) (crit : bool) (o : sshauthopt) (es : list (list Z * list Z)) : res sshauthopt :=
  match es with [] => Ok o | (n, d) :: es => let? o := entry_fun which crit o n d in entries which crit o es end.

Lemma read_string_shorter l v r : read_string l = Ok (v, r) -> Forall is_byte l -> Forall is_byte r /\ (length r + 4 <= length l)%nat.
Proof.
  unfold read_string. destruct (string_len l) as [n|e|] eqn:En; [|done..]. intros [= _ <-] B. destruct (string_len_ok _ _ En B) as [Hn Hl].
  split; [by apply Forall_zdrop|]. assert (zlen (zdrop (n + 4) l) = zlen l - (n + 4)) as Hz by zl. unfold zlen in *. lia.
Qed.
Lemma read_cstring_shorter l v r : read_cstring l = Ok (v, r) -> Forall is_byte l -> Forall is_byte r /\ (length r + 4 <= length l)%nat.
Proof.
  unfold read_cstring. destruct (read_string l) as [[w k]|e|] eqn:E; [|done..]. cbn [rbind fst]. destruct (inner_nul w); [done|]. intros [= <- <-].
  by apply (read_string_shorter l w).
Qed.

Lemma options_listed fuel which crit o l o' rest : options_fun fuel which crit o l = Ok (o', rest) ->
  exists es, listed l es /\ entries which crit o es = Ok o'.
Proof.
  revert o l. induction fuel as [|fuel IH]; intros o l; [done|]. cbn [options_fun]. destruct (Z.ltb_spec 0 (zlen l)) as [|Hz].
  - destruct (read_cstring l) as [[n l1]|e|] eqn:En; [|done..]. cbn [rbind fst snd]. destruct (read_string l1) as [[d l2]|e|] eqn:Ed; [|done..].
    cbn [rbind fst snd]. destruct (entry_fun which crit o (span_to 0 n) d) as [o1|e|] eqn:Eo; [|done..]. cbn [rbind]. intros Q.
    destruct (IH o1 l2 Q) as (es & L & F). exists ((span_to 0 n, d) :: es). split; [by econstructor|]. cbn [entries]. by rewrite Eo.
  - intros [= <- <-]. destruct l; [|rewrite zlen_cons in Hz; pose proof (zlen_nonneg l); lia]. exists []. split; [constructor|done].
Qed.

Lemma listed_options fuel which crit o l es : listed l es -> Forall is_byte l -> (length l < fuel)%nat ->
  options_fun fuel which crit o l = let? o' := entries which crit o es in Ok (o', []).
Proof.
  intros L. revert fuel o. induction L as [|l n l1 d l2 es En Ed L IH]; intros fuel o B Hf; (destruct fuel as [|fuel]; [lia|]); [done|].
  destruct (read_cstring_shorter _ _ _ En B) as [B1 H1]. destruct (read_string_shorter _ _ _ Ed B1) as [B2 H2]. cbn [options_fun].
  rewrite (proj2 (Z.ltb_lt 0 _)) by (unfold zlen; lia). rewrite En. cbn [rbind fst snd]. rewrite Ed. cbn [rbind fst snd entries].
  destruct (entry_fun _ _ _ _ _) as [o1|e|]; [|done..]. cbn [rbind]. apply IH; [done|lia].
Qed.

Lemma option_list_ok which crit o oblob o' : 0 < np -> sshbuf_wf oblob -> 0 < sb_cd oblob ->
  cert_option_list getaddrinfo np ok o oblob which crit = Ok o' <-> exists es, listed (contents oblob) es /\ entries which crit o es = Ok o'.
Proof.
  intros Hnp W D. unfold cert_option_list. destruct (prop_view_wf np oblob W Hnp D) as (v & Ev & Wv & Cv). rewrite Ev. cbn [rbind].
  assert (0 < sb_cd v) as Dv.
  { revert Ev. unfold sshbuf_view. rewrite wf_sane, buf_bytes_wf by done. cbn [rbind]. intros [= Ev]. wf_facts W.
    destruct (from_wf _ _ _ _ Ev) as (_ & _ & Hd); [done|lia|by apply contents_bytes|lia]. }
  rewrite sshbuf_len_wf by done. cbn [rbind]. set (fuel := S _). pose proof (loop_denotes fuel which crit o Hnp v Wv Dv) as L. rewrite Cv in *.
  split.
  - intros Q. destruct (options_fun fuel which crit o (contents oblob)) as [[o1 rest]|e|] eqn:Eo.
    + destruct L as (v' & E1 & _). rewrite E1 in Q. cbn [fst] in Q. injection Q as <-. by apply (options_listed fuel _ _ _ _ _ rest).
    + by rewrite L in Q.
    + by rewrite L in Q.
  - intros (es & Ls & Q). rewrite (listed_options fuel _ _ _ _ es Ls), Q in L; [|by apply contents_bytes|unfold fuel; rewrite Cv; unfold zlen; lia].
    destruct L as (v' & E1 & _). by rewrite E1.
Qed.

(** ** Critical options *)

Lemma streq_true s t : streq s t = true -> s = t.
Proof. apply bool_decide_eq_true_1. Qed.

Lemma value_spec d v : value d = Some v <-> exists w, read_cstring d = Ok (w, []) /\ v = span_to 0 w.
Proof.
  unfold value. destruct (read_cstring d) as [[w [|]]|e|]; split; try done; try (by intros (? & ? & _)).
  - intros [= <-]. eauto.
  - by intros (? & [= <-] & ->).
Qed.

Lemma emptyb {A} (l : list A) {B} (x y : B) : (if negb (zlen l =? 0) then x else y) = match l with [] => y | _ => x end.
Proof. destruct l; [done|]. rewrite zlen_cons. pose proof (zlen_nonneg l). by rewrite (proj2 (Z.eqb_neq _ 0)) by lia. Qed.

Lemma critical_entry o n d o' : entry_fun OPTIONS_CRITICAL true o n d = Ok o' <->
  n = str "verify-required" /\ d = [] /\ o' = set_require_verify 1 o \/
  n = str "force-command" /\ force_command o = None /\ (exists v, value d = Some v /\ o' = set_force_command (Some v) o) \/
  n = str "source-address" /\ required_from_host_cert o = None /\ (exists v, value d = Some v /\ sources_ok v /\ o' = set_required_from_host_cert (Some v) o).
Proof.
  change (entry_fun OPTIONS_CRITICAL true o n d) with (let? od := critical_fun n o d in match fst od with None => Err (-1) | Some o => if negb (zlen (snd od) =? 0) then Err (-1) else Ok o end).
  unfold critical_fun, streq. repeat case_bool_decide; subst; cbn [rbind fst snd].
  - rewrite emptyb. split; [|by intros [(_ & -> & ->)|[(? & _)|(? & _)]]]. destruct d; [|done]. intros [= <-]. by left.
  - split.
    + destruct (read_cstring d) as [[w r]|e|] eqn:Ed; [|done..]. destruct (force_command o) eqn:Ef; [done|]. cbn [rbind fst snd]. rewrite emptyb.
      destruct r; [|done]. intros [= <-]. right; left. split; [done|]. split; [done|]. exists (span_to 0 w). split; [|done]. apply value_spec. eauto.
    + intros [(? & _)|[(_ & Ef & v & (w & Ed & ->)%value_spec & ->)|(? & _)]]; try done. by rewrite Ed, Ef.
  - split.
    + destruct (read_cstring d) as [[w r]|e|] eqn:Ed; [|done..]. destruct (required_from_host_cert o) eqn:Ef; [done|]. cbn [rbind fst snd].
      destruct (addr_match_cidr_list _ _ _ _) as [m|] eqn:Em; [|done]. destruct (Z.eqb_spec m (-1)); [done|]. cbn [rbind fst snd]. rewrite emptyb.
      destruct r; [|done]. intros [= <-]. right; right. split; [done|]. split; [done|]. exists (span_to 0 w). split; [apply value_spec; eauto|].
      split; [by exists m|done].
    + intros [(? & _)|[(? & _)|(_ & Ef & v & (w & Ed & ->)%value_spec & (m & Em & Hm) & ->)]]; try done. rewrite Ed, Ef. cbn [rbind fst snd].
      by rewrite Em, (proj2 (Z.eqb_neq _ _) Hm).
  - split; [done|]. by intros [(? & _)|[(? & _)|(? & _)]].
Qed.

(** An option that may be given once more. *)
Definition room (cur : option (list Z)) (n : String.string) (es : list (list Z * list Z)) : Prop :=
  match cur with Some _ => named n es = [] | None => (length (named n es) <= 1)%nat end.
Definition or_value (cur : option (list Z)) (n : String.string) (es : list (list Z * list Z)) : option (list Z) :=
  match cur with Some v => Some v | None => first_value n es end.
Definition with_critical (o : sshauthopt) (es : list (list Z * list Z)) : sshauthopt :=
  set_require_verify (if has "verify-required" es then 1 else require_verify o)
    (set_force_command (or_value (force_command o) "force-command" es)
      (set_required_from_host_cert (or_value (required_from_host_cert o) "source-address" es) o)).

Lemma named_cons n n' d es : named n ((n', d) :: es) = if streq n' (str n) then (n', d) :: named n es else named n es.
Proof. done. Qed.
Lemma room_skip cur n n' d es : streq n' (str n) = false -> room cur n ((n', d) :: es) <-> room cur n es.
Proof. intros E. unfold room. by rewrite named_cons, E. Qed.
Lemma room_hit cur n n' d es : streq n' (str n) = true -> room cur n ((n', d) :: es) <-> cur = None /\ named n es = [].
Proof.
  intros E. unfold room. rewrite named_cons, E. destruct cur; [split; [done|by intros []]|]. cbn. destruct (named n es); cbn; split; try done; try lia; intros [_ ?]; done.
Qed.
Lemma room_some v n es : room (Some v) n es <-> named n es = [].
Proof. done. Qed.
Lemma or_value_skip cur n n' d es : streq n' (str n) = false -> or_value cur n ((n', d) :: es) = or_value cur n es.
Proof. intros E. unfold or_value, first_value. by rewrite named_cons, E. Qed.
Lemma or_value_hit n n' d es v : streq n' (str n) = true -> value d = Some v -> or_value None n ((n', d) :: es) = Some v.
Proof. intros E Hv. unfold or_value, first_value. by rewrite named_cons, E. Qed.
Lemma has_cons n n' d es : has n ((n', d) :: es) = streq n' (str n) || has n es.
Proof. done. Qed.

Lemma rbind_some {A B} (r : res A) (k : A -> res B) b : rbind r k = Ok b <-> exists a, r = Ok a /\ k a = Ok b.
Proof. destruct r as [a|e|]; cbn; split; try done; try (by intros (? & ? & _)); [by exists a|by intros (? & [= <-] & ?)]. Qed.

Ltac skip := rewrite ?room_skip, ?or_value_skip by reflexivity.

Lemma critical_entries es o o' : entries OPTIONS_CRITICAL true o es = Ok o' <->
  Forall critical_ok es /\ room (force_command o) "force-command" es /\ room (required_from_host_cert o) "source-address" es /\ o' = with_critical o es.
Proof.
  revert o. induction es as [|[n d] es IH]; intros o; cbn [entries].
  { assert (with_critical o [] = o) as -> by (by destruct o as [????? ????? [] ??? []]). split; [|by intros (_ & _ & _ & ->)]. intros [= <-].
    unfold room. split_and!; try done; [destruct (force_command o)|destruct (required_from_host_cert o)]; cbn; try done; lia. }
  rewrite rbind_some, Forall_cons. setoid_rewrite critical_entry. setoid_rewrite IH. unfold with_critical. rewrite has_cons. split.
  - intros (o1 & [(-> & -> & ->)|[(-> & Ef & v & Hv & ->)|(-> & Ef & v & Hv & Hs & ->)]] & Hes & R1 & R2 & ->).
    + skip. split_and!; [by left|done..|]. cbn. by destruct (has _ es).
    + rewrite (room_hit (force_command o)), Ef, (or_value_hit _ _ _ _ v) by done. skip. split_and!; try done. right; left. cbn. eauto.
    + rewrite (room_hit (required_from_host_cert o)), Ef, (or_value_hit _ _ _ _ v) by done. skip. split_and!; try done. right; right. cbn. eauto.
  - intros ([[(E1 & E2)|[(E1 & v & Hv)|(E1 & v & Hv & Hs)]] Hes] & R1 & R2 & ->); cbn [fst snd] in *; subst.
    + exists (set_require_verify 1 o). split; [by left|]. revert R1 R2. skip. intros R1 R2. split_and!; try done. cbn. by destruct (has _ es).
    + revert R1 R2. rewrite (room_hit (force_command o)) by done. skip. intros [Ef R1] R2. exists (set_force_command (Some v) o).
      rewrite Ef, (or_value_hit _ _ _ _ v) by done. split; [right; left; eauto|]. done.
    + revert R1 R2. rewrite (room_hit (required_from_host_cert o)) by done. skip. intros R1 [Ef R2]. exists (set_required_from_host_cert (Some v) o).
      rewrite Ef, (or_value_hit _ _ _ _ v) by done. split; [right; right; eauto 6|]. done.
Qed.

(** ** Extensions *)

Definition or_flag (cur : Z) (n : String.string) (es : list (list Z * list Z)) : Z := if has n es then 1 else cur.
Definition with_extensions (o : sshauthopt) (es : list (list Z * list Z)) : sshauthopt :=
  set_no_require_user_presence (or_flag (no_require_user_presence o) "no-touch-required" es)
   (set_permit_x11_forwarding_flag (or_flag (permit_x11_forwarding_flag o) "permit-X11-forwarding" es)
    (set_permit_agent_forwarding_flag (or_flag (permit_agent_forwarding_flag o) "permit-agent-forwarding" es)
     (set_permit_port_forwarding_flag (or_flag (permit_port_forwarding_flag o) "permit-port-forwarding" es)
      (set_permit_pty_flag (or_flag (permit_pty_flag o) "permit-pty" es)
       (set_permit_user_rc (or_flag (permit_user_rc o) "permit-user-rc" es) o))))).

Lemma or_flag_cons cur n n' d es : or_flag cur n ((n', d) :: es) = or_flag (if streq n' (str n) then 1 else cur) n es.
Proof. unfold or_flag. rewrite has_cons. by destruct (streq _ _), (has _ _). Qed.

Lemma extension_entry o n d o' : entry_fun OPTIONS_EXTENSIONS false o n d = Ok o' <->
  extension_ok (n, d) /\ o' = (match cert_extension n o with Some o => o | None => o end).
Proof.
  change (entry_fun OPTIONS_EXTENSIONS false o n d) with
    (let? od := match cert_extension n o with Some o => Ok (Some o, d) | None => Ok (None, d) end in
     match fst od with None => Ok o | Some o => if negb (zlen (snd od) =? 0) then Err (-1) else Ok o end).
  unfold extension_ok, extension_names. cbn [fst snd]. rewrite !elem_of_cons.
  assert (cert_extension n o = None <-> ~ (n = str "no-touch-required" \/ n = str "permit-X11-forwarding" \/ n = str "permit-agent-forwarding" \/
    n = str "permit-port-forwarding" \/ n = str "permit-pty" \/ n = str "permit-user-rc" \/ n ∈ [])) as Hn.
  { unfold cert_extension, streq. rewrite elem_of_nil. repeat case_bool_decide; split; try done; try (intros []; tauto); tauto. }
  destruct (cert_extension n o) as [o1|]; cbn [rbind fst snd].
  - rewrite emptyb. destruct d; split; try done; [intros [= <-]; done|by intros [_ ->]|].
    intros [H _]. exfalso. apply (eq_None_not_Some (Some o1)); [|done]. apply Hn. intros Hin. by specialize (H Hin).
  - split; [intros [= <-]; split; [|done]; intros Hin; by apply Hn in Hin|by intros [_ ->]].
Qed.

Lemma extension_entries es o o' : entries OPTIONS_EXTENSIONS false o es = Ok o' <-> Forall extension_ok es /\ o' = with_extensions o es.
Proof.
  revert o. induction es as [|[n d] es IH]; intros o; cbn [entries].
  { assert (with_extensions o [] = o) as -> by (by destruct o). split; [by intros [= <-]|by intros [_ ->]]. }
  rewrite rbind_some, Forall_cons. setoid_rewrite extension_entry. setoid_rewrite IH.
  assert (with_extensions (match cert_extension n o with Some o => o | None => o end) es = with_extensions o ((n, d) :: es)) as E.
  { unfold with_extensions at 2. rewrite !or_flag_cons. unfold cert_extension, streq. repeat case_bool_decide; subst; done. }
  split; [intros (? & [? ->] & ? & ->); by rewrite E|]. intros ([? ?] & ->). exists (match cert_extension n o with Some o => o | None => o end). by rewrite E.
Qed.

(** ** The certificate *)

(** C15. The options of a user certificate are exactly those its two lists stand
    for.  [sshauthopt_from_cert] succeeds precisely when both lists decode,
    every critical option is one of the three that are known, with data of its
    form, the command and the addresses given once at most, and the known
    extensions are empty; a permission is then granted only by its extension.
    In particular an unknown critical option refuses the certificate and an
    unknown extension is passed over. *)
Theorem certificate_options ctype critical extensions o : 0 < np -> ok = true -> sshkey_type_is_cert ctype = true ->
  sshbuf_wf critical -> 0 < sb_cd critical -> sshbuf_wf extensions -> 0 < sb_cd extensions ->
  sshauthopt_from_cert getaddrinfo np ok (Some (mk_ck ctype (Some (SSH2_CERT_TYPE_USER, critical, extensions)))) = Ok (Some o) <->
  exists cl el, listed (contents critical) cl /\ listed (contents extensions) el /\
    Forall critical_ok cl /\ (length (named "force-command" cl) <= 1)%nat /\ (length (named "source-address" cl) <= 1)%nat /\
    Forall extension_ok el /\ o = cert_options cl el.
Proof.
  intros Hnp Ho Ht Wc Dc We De. unfold sshauthopt_from_cert. cbn [ck_type ck_cert]. rewrite Ht. cbn [negb Z.eqb Pos.eqb SSH2_CERT_TYPE_USER].
  set (o0 := mk_opts 0 0 0 0 0 0 0 0 None (-1) None [] [] [] None None 0 0). assert (sshauthopt_new ok = Some o0) as -> by (by rewrite Ho).
  pose proof (fun o1 => option_list_ok OPTIONS_CRITICAL true o0 critical o1 Hnp Wc Dc) as Hc.
  pose proof (fun o1 o2 => option_list_ok OPTIONS_EXTENSIONS false o1 extensions o2 Hnp We De) as He.
  transitivity (exists o1, cert_option_list getaddrinfo np ok o0 critical OPTIONS_CRITICAL true = Ok o1 /\
    cert_option_list getaddrinfo np ok o1 extensions OPTIONS_EXTENSIONS false = Ok o).
  { destruct (cert_option_list _ _ _ o0 _ _ _) as [o1|e|]; [|split; [done|by intros (? & ? & _)]..].
    destruct (cert_option_list _ _ _ o1 _ _ _) as [o2|e|] eqn:E2; split; try done; try (intros (? & [= <-] & ?); congruence). intros [= <-]. eauto. }
  setoid_rewrite Hc. setoid_rewrite He. setoid_rewrite critical_entries. setoid_rewrite extension_entries. split.
  - intros (o1 & (cl & Lc & Fc & R1 & R2 & ->) & el & Le & Fe & ->). exists cl, el. split_and!; done.
  - intros (cl & el & Lc & Le & Fc & R1 & R2 & Fe & ->). eexists. split; [exists cl; split_and!; try done|]. exists el. split_and!; done.
Qed.
End Cert.

(** A certificate that forces a command and permits a terminal. *)
Definition ex_critical : list (list Z * list Z) := [(str "force-command", enc_string (str "date"))].
Definition ex_extensions : list (list Z * list Z) := [(str "permit-pty", []); (str "x@example.org", [7])].
Definition enc_options (es : list (list Z * list Z)) : list Z := concat ((fun e => enc_string (fst e) ++ enc_string (snd e)) <$> es).
Definition ex_list (es : list (list Z * list Z)) : sshbuf :=
  match sshbuf_from 1 1 (enc_options es) (zlen (enc_options es)) with Some b => b | None => mk_sshbuf 0 0 0 0 0 0 0 false 0 0 [] end.

Lemma ex_list_wf es : bool_decide (Forall is_byte (enc_options es)) && (zlen (enc_options es) <=? 1024) = true ->
  sshbuf_wf (ex_list es) /\ contents (ex_list es) = enc_options es /\ sb_cd (ex_list es) = 1.
Proof.
  rewrite andb_true_iff, bool_decide_eq_true, Z.leb_le. intros [B L]. unfold ex_list. destruct (sshbuf_from _ _ _ _) as [b|] eqn:E; [by eapply from_wf|].
  unfold sshbuf_from in E. cbn [Z.eqb orb] in E. rewrite (proj2 (Z.ltb_ge _ _)) in E by (sb_consts; lia). done.
Qed.

Lemma certificate_options_witness :
  sshauthopt_from_cert (fun _ => None) 1 true (Some (mk_ck KEY_ED25519_CERT (Some (SSH2_CERT_TYPE_USER, ex_list ex_critical, ex_list ex_extensions))))
  = Ok (Some (cert_options ex_critical ex_extensions)).
Proof.
  destruct (ex_list_wf ex_critical) as (W1 & C1 & D1); [by vm_compute|]. destruct (ex_list_wf ex_extensions) as (W2 & C2 & D2); [by vm_compute|].
  apply (certificate_options (fun _ => None) 1 true KEY_ED25519_CERT); try assumption; [done..|by rewrite D1|by rewrite D2|]. exists ex_critical, ex_extensions. rewrite C1, C2.
  split; [repeat (eapply (listed_cons _ (str "force-command")); [by vm_compute..|]); constructor|].
  split; [eapply (listed_cons _ (str "permit-pty")); [by vm_compute..|]; eapply (listed_cons _ (str "x@example.org")); [by vm_compute..|]; constructor|].
  split; [apply Forall_cons_2; [|apply Forall_nil_2]; right; left; split; [done|]; by exists (str "date")|]. split; [by vm_compute; lia|]. split; [by vm_compute; lia|].
  split; [|done]. apply Forall_cons_2; [by intros _|]. apply Forall_cons_2; [|apply Forall_nil_2]. intros H. by apply (bool_decide_eq_true_2 _) in H.
Defined.
