(* ===== verification/KeyOptions.v ===== *)
(** * Options of authorized_keys lines: what [sshauthopt_parse] reads is what was written *)
From S2P Require Import Prelude Sshbuf SshbufGetput CString SshbufMisc Words Chacha ChachaPoly Cipher Hmac Mac PacketState Packet Match SshkeyNames KexNames Kex Misc Addr AuthOptions.

(** ** Options as they are meant *)

Inductive permission := PPort | PAgent | PX11 | PTouch | PVerify | PPty | PUserRc.
Inductive item :=
| IRestrict | ICertAuthority | IPermit (p : permission) (on : bool)
| ICommand (v : list Z) | IPrincipals (v : list Z) | IFrom (v : list Z) | IExpiry (v : list Z) | IEnvironment (v : list Z)
| IPermitOpen (v : list Z) | IPermitListen (v : list Z) | ITunnel (v : list Z).

Definition permission_name (p : permission) : list Z :=
  match p with
  | PPort => str "port-forwarding" | PAgent => str "agent-forwarding" | PX11 => str "x11-forwarding" | PTouch => str "touch-required"
  | PVerify => str "verify-required" | PPty => str "pty" | PUserRc => str "user-rc"
  end.

(** A quoted value: only quotes are escaped. *)
Definition quote1 (c : Z) : list Z := if c =? c_quote then [c_backslash; c_quote] else [c].
Definition quoted_text (v : list Z) : list Z := concat (quote1 <$> v).
Definition quote (v : list Z) : list Z := [c_quote] ++ quoted_text v ++ [c_quote].

Definition print_item (i : item) : list Z :=
  match i with
  | IRestrict => str "restrict"
  | ICertAuthority => str "cert-authority"
  | IPermit p on => (if on then [] else str "no-") ++ permission_name p
  | ICommand v => str "command=" ++ quote v
  | IPrincipals v => str "principals=" ++ quote v
  | IFrom v => str "from=" ++ quote v
  | IExpiry v => str "expiry-time=" ++ quote v
  | IEnvironment v => str "environment=" ++ quote v
  | IPermitOpen v => str "permitopen=" ++ quote v
  | IPermitListen v => str "permitlisten=" ++ quote v
  | ITunnel v => str "tunnel=" ++ quote v
  end.

(** What cannot be written is a value that ends in a backslash. *)
Definition writable_value (v : list Z) : Prop := Forall (fun c => 0 < c) v /\ last v <> Some c_backslash.
Definition item_value (i : item) : list Z :=
  match i with
  | ICommand v | IPrincipals v | IFrom v | IExpiry v | IEnvironment v | IPermitOpen v | IPermitListen v | ITunnel v => v
  | _ => []
  end.

Section Meaning.
Context (servbyname : list Z -> option Z) {TM : Type} (strptime : list Z -> list Z -> option (TM * list Z)) (timegm mktime : TM -> option Z).

Definition flag01 (b : bool) : Z := if b then 1 else 0.
Definition set_permission (p : permission) (on : bool) (o : sshauthopt) : sshauthopt :=
  match p with
  | PPort => set_permit_port_forwarding_flag (flag01 on) o
  | PAgent => set_permit_agent_forwarding_flag (flag01 on) o
  | PX11 => set_permit_x11_forwarding_flag (flag01 on) o
  | PTouch => set_no_require_user_presence (flag01 (negb on)) o
  | PVerify => set_require_verify (flag01 on) o
  | PPty => set_permit_pty_flag (flag01 on) o
  | PUserRc => set_permit_user_rc (flag01 on) o
  end.

(** A destination: a host that is not too long and a port or [*]. *)
Definition destination (v : list Z) : bool :=
  match hpdelim2 (Some v) with
  | Some (host, _, Some port) => (zlen host <? NI_MAXHOST) && (streq port (str "*") || (0 <? a2port servbyname port))
  | _ => false
  end.
Definition add_destination (v : list Z) (l : list (list Z)) : option (list (list Z)) :=
  if (zlen l <=? SSH_AUTHOPT_PERMIT_MAX) && destination v then Some (l ++ [v]) else None.

(** The effect of one option, [None] when it is refused. *)
Definition apply_item (o : sshauthopt) (i : item) : option sshauthopt :=
  match i with
  | IRestrict => Some (set_permission PUserRc false (set_permission PPty false (set_permission PX11 false
                   (set_permission PAgent false (set_permission PPort false (set_restricted 1 o))))))
  | ICertAuthority => Some (set_cert_authority 1 o)
  | IPermit p on => Some (set_permission p on o)
  | ICommand v => if force_command o is Some _ then None else Some (set_force_command (Some v) o)
  | IPrincipals v => if cert_principals o is Some _ then None else Some (set_cert_principals (Some v) o)
  | IFrom v => if required_from_host_keys o is Some _ then None else Some (set_required_from_host_keys (Some v) o)
  | IExpiry v =>
      match parse_absolute_time strptime timegm mktime v with
      | Ok t => if t =? 0 then None else Some (if (valid_before o =? 0) || (t <? valid_before o) then set_valid_before t o else o)
      | _ => None
      end
  | IEnvironment v =>
      match strchr v 61 with
      | Some l =>
          if (zlen (env o) <=? SSH_AUTHOPT_ENV_MAX) && valid_env_name (take l v)
          then Some (if env_defined (env o) (take l v) then o else set_env (env o ++ [v]) o) else None
      | None => None
      end
  | IPermitOpen v => match add_destination v (permitopen o) with Some l => Some (set_permitopen l o) | None => None end
  | IPermitListen v =>
      let v := if bool_decide (strchr v 58 = None) then str "*:" ++ v else v in
      match add_destination v (permitlisten o) with Some l => Some (set_permitlisten l o) | None => None end
  | ITunnel v => let t := a2tun_local v in if t =? SSH_TUNID_ERR then None else Some (set_force_tun_device t o)
  end.

Fixpoint apply_items (o : sshauthopt) (l : list item) : option sshauthopt :=
  match l with [] => Some o | i :: l => match apply_item o i with Some o => apply_items o l | None => None end end.

(** ** One option *)

Abbreviation parse1 := (parse_option servbyname strptime timegm mktime true).

Lemma parse_restrict o rest e : parse1 o (str "restrict" ++ rest) e =
  inl (set_permit_user_rc 0 (set_permit_pty_flag 0 (set_permit_x11_forwarding_flag 0
         (set_permit_agent_forwarding_flag 0 (set_permit_port_forwarding_flag 0 (set_restricted 1 o))))), rest, e).
Proof. reflexivity. Qed.
Lemma parse_permission o p on rest e : parse1 o (print_item (IPermit p on) ++ rest) e = inl (set_permission p on o, rest, e).
Proof. destruct p, on; reflexivity. Qed.
Lemma parse_cert_authority o rest e : parse1 o (str "cert-authority" ++ rest) e = inl (set_cert_authority 1 o, rest, e).
Proof. reflexivity. Qed.
Lemma parse_command o rest e : parse1 o (str "command=" ++ rest) e =
  once true (force_command o) (multiple "command") rest (fun v => set_force_command (Some v) o).
Proof. reflexivity. Qed.
Lemma parse_principals o rest e : parse1 o (str "principals=" ++ rest) e =
  once true (cert_principals o) (multiple "principals") rest (fun v => set_cert_principals (Some v) o).
Proof. reflexivity. Qed.
Lemma parse_from o rest e : parse1 o (str "from=" ++ rest) e =
  once true (required_from_host_keys o) (multiple "from") rest (fun v => set_required_from_host_keys (Some v) o).
Proof. reflexivity. Qed.
Lemma parse_valued_item o rest e :
  parse1 o (str "expiry-time=" ++ rest) e = parse_expiry strptime timegm mktime true o rest /\
  parse1 o (str "environment=" ++ rest) e = parse_environment true o rest /\
  parse1 o (str "permitopen=" ++ rest) e = parse_permit servbyname true o rest false permitopen set_permitopen e /\
  parse1 o (str "permitlisten=" ++ rest) e = parse_permit servbyname true o rest true permitlisten set_permitlisten e /\
  parse1 o (str "tunnel=" ++ rest) e = parse_tunnel true o rest.
Proof. split_and!; reflexivity. Qed.

Lemma dequote_text v rest : last v <> Some c_backslash -> dequote (quoted_text v ++ c_quote :: rest) = Some (v, rest).
Proof.
  induction v as [|c v IH]; intros Hl; [done|]. change (quoted_text (c :: v)) with (quote1 c ++ quoted_text v). rewrite <- app_assoc.
  assert (dequote (quoted_text v ++ c_quote :: rest) = Some (v, rest)) as E by (apply IH; destruct v; [done|exact Hl]).
  unfold quote1. destruct (Z.eqb_spec c c_quote) as [->|Hc].
  - change ([c_backslash; c_quote] ++ quoted_text v ++ c_quote :: rest) with (c_backslash :: c_quote :: quoted_text v ++ c_quote :: rest).
    cbn [dequote]. change (c_backslash =? c_quote) with false. change ((c_backslash =? c_backslash) && (c_quote =? c_quote)) with true. cbn iota. by rewrite E.
  - change ([c] ++ quoted_text v ++ c_quote :: rest) with (c :: quoted_text v ++ c_quote :: rest). cbn [dequote]. rewrite (proj2 (Z.eqb_neq _ _) Hc).
    assert (exists d t, quoted_text v ++ c_quote :: rest = d :: t /\ (c =? c_backslash) && (d =? c_quote) = false) as (d & t & Et & Hd).
    { destruct v as [|d v].
      - exists c_quote, rest. split; [done|]. destruct (Z.eqb_spec c c_backslash) as [->|]; [by destruct Hl|done].
      - change (quoted_text (d :: v)) with (quote1 d ++ quoted_text v). unfold quote1. destruct (Z.eqb_spec d c_quote) as [->|Hd].
        + eexists c_backslash, _. split; [done|]. apply andb_false_r.
        + eexists d, _. split; [done|]. by rewrite (proj2 (Z.eqb_neq _ _) Hd), andb_false_r. }
    rewrite Et, Hd, <- Et. by rewrite E.
Qed.
Lemma dequote_quote v rest : writable_value v -> opt_dequote true (quote v ++ rest) = inl (v, rest).
Proof. intros [_ Hl]. unfold quote. rewrite <- !app_assoc. cbn [app opt_dequote]. rewrite Z.eqb_refl. cbn [negb]. by rewrite dequote_text. Qed.

(** What one option makes of the state of the parser. *)
Definition applied (r : option_result) (o : option sshauthopt) (rest : list Z) : Prop :=
  match o with Some o => exists e, r = inl (o, rest, e) | None => exists e, r = inr e end.

Lemma handle_permit_item v bare l rest : writable_value v ->
  let v' := if bare && bool_decide (strchr v 58 = None) then str "*:" ++ v else v in
  match handle_permit servbyname true (quote v ++ rest) bare l with
  | inl (l', rest') => add_destination v' l = Some l' /\ rest' = rest
  | inr _ => add_destination v' l = None
  end.
Proof.
  intros Hv. unfold handle_permit, add_destination, destination. destruct (Z.ltb_spec SSH_AUTHOPT_PERMIT_MAX (zlen l)) as [Hl|Hl].
  { cbn zeta. by rewrite (proj2 (Z.leb_gt _ _)) by lia. }
  rewrite (proj2 (Z.leb_le _ _)), dequote_quote by (done || lia). cbn [andb negb]. rewrite andb_false_r. cbn zeta.
  destruct (hpdelim2 _) as [[[host d] [port|]]|]; [|by destruct (_ <=? _)|done]. 
  destruct (Z.leb_spec NI_MAXHOST (zlen host)) as [Hh|Hh]; [by rewrite (proj2 (Z.ltb_ge _ _)) by lia|]. rewrite (proj2 (Z.ltb_lt _ _)) by lia.
  destruct (streq port _); [done|]. cbn [negb andb orb]. destruct (Z.leb_spec (a2port servbyname port) 0); [by rewrite (proj2 (Z.ltb_ge 0 _)) by lia|].
  by rewrite (proj2 (Z.ltb_lt 0 _)) by lia.
Qed.

Lemma parse_item o i rest e : writable_value (item_value i) -> applied (parse1 o (print_item i ++ rest) e) (apply_item o i) rest.
Proof.
  intros Hv. pose proof (parse_valued_item o) as Hp. destruct i; cbn [print_item apply_item item_value] in *; rewrite <- ?app_assoc.
  - by exists e.
  - by exists e.
  - pose proof (parse_permission o p on rest e) as H. cbn [print_item] in H. rewrite <- app_assoc in H. rewrite H. by exists e.
  - rewrite parse_command. unfold once. destruct (force_command o); [by eexists|]. rewrite dequote_quote by done. by eexists.
  - rewrite parse_principals. unfold once. destruct (cert_principals o); [by eexists|]. rewrite dequote_quote by done. by eexists.
  - rewrite parse_from. unfold once. destruct (required_from_host_keys o); [by eexists|]. rewrite dequote_quote by done. by eexists.
  - rewrite (proj1 (Hp _ e)). unfold parse_expiry. rewrite dequote_quote by done. destruct (parse_absolute_time _ _ _ _) as [t|?|]; [|by eexists..].
    destruct (t =? 0); by eexists.
  - rewrite (proj1 (proj2 (Hp _ e))). unfold parse_environment. rewrite dequote_quote by done. cbn [negb].
    destruct (Z.ltb_spec SSH_AUTHOPT_ENV_MAX (zlen (env o))) as [Hl|Hl].
    { destruct (strchr v 61); [rewrite (proj2 (Z.leb_gt _ _)) by lia|]; by eexists. }
    rewrite (proj2 (Z.leb_le _ _)) by lia. destruct (strchr v 61) as [k|]; [|by eexists]. cbn [andb]. destruct (valid_env_name _); [|by eexists]. cbn [negb].
    destruct (env_defined _ _); by eexists.
  - rewrite (proj1 (proj2 (proj2 (Hp _ e)))). pose proof (handle_permit_item v false (permitopen o) rest Hv) as H. cbn [andb] in H. unfold parse_permit.
    destruct (handle_permit _ _ _ _ _) as [[l r]|x]; [destruct H as [-> ->]; by eexists|]. rewrite H. destruct x; by eexists.
  - rewrite (proj1 (proj2 (proj2 (proj2 (Hp _ e))))). pose proof (handle_permit_item v true (permitlisten o) rest Hv) as H. cbn [andb] in H. unfold parse_permit.
    destruct (handle_permit _ _ _ _ _) as [[l r]|x]; [destruct H as [-> ->]; by eexists|]. rewrite H. destruct x; by eexists.
  - rewrite (proj2 (proj2 (proj2 (proj2 (Hp _ e))))). unfold parse_tunnel. rewrite dequote_quote by done. cbv zeta.
    destruct (a2tun_local v =? SSH_TUNID_ERR); by eexists.
Qed.

(** ** Lists of options *)

Fixpoint print_items (l : list item) : list Z :=
  match l with [] => [] | [i] => print_item i | i :: l => print_item i ++ [44] ++ print_items l end.
(** The end of the options: of the string, or a blank. *)
Definition ends (tail : list Z) : Prop := (hd tail =? 0) || blank (hd tail) = true.

Lemma print_item_starts i rest : (hd (print_item i ++ rest) =? 0) || blank (hd (print_item i ++ rest)) = false.
Proof. destruct i as [| |p on|?|?|?|?|?|?|?|?]; try reflexivity. destruct p, on; reflexivity. Qed.
Lemma print_items_starts i l rest : (hd (print_items (i :: l) ++ rest) =? 0) || blank (hd (print_items (i :: l) ++ rest)) = false.
Proof. destruct l; cbn [print_items]; rewrite <- ?app_assoc; apply print_item_starts. Qed.

Lemma parse_items l i o tail e fuel : Forall (fun i => writable_value (item_value i)) (i :: l) -> ends tail ->
  (length (print_items (i :: l) ++ tail) < fuel)%nat ->
  match apply_items o (i :: l) with
  | Some o' => parse_options servbyname strptime timegm mktime true fuel o (print_items (i :: l) ++ tail) e = Ok (inl o')
  | None => exists e', parse_options servbyname strptime timegm mktime true fuel o (print_items (i :: l) ++ tail) e = Ok (inr e')
  end.
Proof.
  revert i o e fuel. induction l as [|j l IH]; intros i o e fuel [Hi Hl]%Forall_cons Ht Hf; (destruct fuel as [|fuel]; [lia|]); cbn [parse_options].
  - rewrite (print_items_starts i []). cbn [print_items apply_items]. pose proof (parse_item o i tail e Hi) as P.
    destruct (apply_item o i) as [o1|]; destruct P as [e1 ->]; [|by eexists]. unfold ends in Ht. by rewrite Ht.
  - rewrite (print_items_starts i (j :: l)). change (print_items (i :: j :: l)) with (print_item i ++ [44] ++ print_items (j :: l)) in *.
    rewrite <- !app_assoc in *. pose proof (parse_item o i ([44] ++ print_items (j :: l) ++ tail) e Hi) as P. cbn [apply_items].
    destruct (apply_item o i) as [o1|]; destruct P as [e1 ->]; [|by eexists]. 
    pose proof (print_items_starts j l tail) as Hs. apply orb_false_iff in Hs as [Hs _]. set (text := print_items (j :: l) ++ tail) in *.
    change (hd ([44] ++ text)) with 44. change (drop 1 ([44] ++ text)) with text. change ((44 =? 0) || blank 44) with false. change (negb (44 =? 44)) with false.
    cbn iota. rewrite Hs. apply IH; [done|done|].
    fold text. rewrite !(length_app _ (_ ++ _)), (length_app [44]) in Hf. cbn [length] in Hf. lia.
Qed.

End Meaning.


(** The message of a destination without quotes is lost: the one of
    [opt_dequote] stays in [handle_permit], and a value read before has set the
    caller's to NULL. *)
Lemma permit_message_lost : sshauthopt_parse (fun _ => None) (fun _ _ => None) (fun _ : unit => None) (fun _ => None) true
  (Some (str "command=" ++ quote (str "date") ++ str ",permitopen=x")) = Ok (inr None).
Proof. vm_compute. reflexivity. Qed.
