(* ===== verification/Auth.v ===== *)
(** * Authentication: src/auth.c, src/auth-passwd.c, src/auth2-methods.c and the
    parts of src/auth2.c that both processes of the server use

    The build with PAM and without BSD authentication, Kerberos, GSSAPI, login
    classes, WINDOWS and audit events.  The password database, the stat(2) of a
    shell, groups, crypt(3) and PAM are parameters.  What xmalloc(3) and its like
    give is not NULL, and the buffer of the session information is the list of its
    bytes.  A process that ends is the error [EXIT]. *)
From S2P Require Import Prelude Sshbuf SshbufGetput CString SshbufMisc Words Chacha ChachaPoly Cipher Hmac Mac PacketState Packet Match SshkeyNames KexNames Kex KexGen Misc Addr AuthOptions.

Definition PERMIT_NO : Z := 0.
Definition PERMIT_FORCED_ONLY : Z := 1.
Definition PERMIT_NO_PASSWD : Z := 2.
Definition PERMIT_YES : Z := 3.
Definition PUBKEYAUTH_TOUCH_REQUIRED : Z := 1.
Definition PUBKEYAUTH_VERIFY_REQUIRED : Z := 2.

(** The options of the server that authentication looks at. *)
Record server_options := mk_so {
  permit_root_login : Z;
  password_authentication : bool;
  kbd_interactive_authentication : bool;
  pubkey_authentication : bool;
  hostbased_authentication : bool;
  hostbased_uses_name_from_packet_only : bool;
  permit_empty_passwd : bool;
  use_pam : bool;
  use_dns : bool;
  max_authtries : Z;
  so_auth_methods : list (list Z);
  pubkey_accepted_algos : list Z;
  hostbased_accepted_algos : list Z;
  pubkey_auth_options : Z;
  refuse_connection : bool;
  so_banner : option (list Z);
  chroot_directory : option (list Z);
  deny_users : list (list Z);
  allow_users : list (list Z);
  deny_groups : list (list Z);
  allow_groups : list (list Z) }.
Definition set_so_auth_methods (l : list (list Z)) (o : server_options) : server_options :=
  mk_so (permit_root_login o) (password_authentication o) (kbd_interactive_authentication o) (pubkey_authentication o) (hostbased_authentication o)
    (hostbased_uses_name_from_packet_only o) (permit_empty_passwd o) (use_pam o) (use_dns o) (max_authtries o) l (pubkey_accepted_algos o)
    (hostbased_accepted_algos o) (pubkey_auth_options o) (refuse_connection o) (so_banner o) (chroot_directory o)
    (deny_users o) (allow_users o) (deny_groups o) (allow_groups o).

Record passwd := mk_passwd {
  pw_name : list Z; pw_passwd : list Z; pw_uid : Z; pw_gid : Z; pw_gecos : list Z; pw_dir : list Z; pw_shell : list Z }.

(** ** Methods and lists of methods *)

(** [none_enabled] is a variable of its own. *)
Record authmethod_cfg := mk_cfg { am_name : list Z; am_synonym : option (list Z); am_enabled : bool }.

Definition methodcfg_none (none_enabled : bool) : authmethod_cfg := mk_cfg (str "none") None none_enabled.
Definition methodcfg_pubkey (o : server_options) : authmethod_cfg :=
  mk_cfg (str "publickey") (Some (str "publickey-hostbound-v00@openssh.com")) (pubkey_authentication o).
Definition methodcfg_passwd (o : server_options) : authmethod_cfg := mk_cfg (str "password") None (password_authentication o).
Definition methodcfg_kbdint (o : server_options) : authmethod_cfg := mk_cfg (str "keyboard-interactive") None (kbd_interactive_authentication o).
Definition methodcfg_hostbased (o : server_options) : authmethod_cfg := mk_cfg (str "hostbased") None (hostbased_authentication o).
Definition authmethod_cfgs (none_enabled : bool) (o : server_options) : list authmethod_cfg :=
  [methodcfg_none none_enabled; methodcfg_pubkey o; methodcfg_passwd o; methodcfg_kbdint o; methodcfg_hostbased o].

(** The method is known, and enabled when that is asked for. *)
Fixpoint method_valid (method : list Z) (need_enable : bool) (cfgs : list authmethod_cfg) : bool :=
  match cfgs with
  | [] => false
  | cfg :: cfgs => if streq method (am_name cfg) then negb (need_enable && negb (am_enabled cfg)) else method_valid method need_enable cfgs
  end.
(** [true] for 0, [false] for -1. *)
Definition auth2_methods_valid (cfgs : list authmethod_cfg) (_methods : list Z) (need_enable : bool) : bool :=
  match _methods with
  | [] => false
  | _ => forallb (fun m => method_valid (span_to 58 m) need_enable cfgs) (split_on 44 _methods)
  end.

Inductive method_match := MATCH_NONE | MATCH_METHOD | MATCH_BOTH | MATCH_PARTIAL.

(** [*p == ',' || *p == '\0'] *)
Definition at_end (p : list Z) : bool := match p with [] => true | c :: _ => c =? 44 end.

Definition list_starts_with (methods method : list Z) (submethod : option (list Z)) : method_match :=
  match strprefix methods method false with
  | None => MATCH_NONE
  | Some p =>
      if hd p =? 58 then
        match submethod with
        | None => MATCH_PARTIAL
        | Some sub =>
            match strprefix (drop 1 p) sub false with
            | None => MATCH_NONE
            | Some p => if at_end p then MATCH_BOTH else MATCH_NONE
            end
        end
      else if at_end p then MATCH_METHOD else MATCH_NONE
  end.

(** The rest of the list; [None] for 0. *)
Definition remove_method (methods method : list Z) (submethod : option (list Z)) : option (list Z) :=
  let skip_comma (p : list Z) := if hd p =? 44 then drop 1 p else p in
  match list_starts_with methods method submethod with
  | MATCH_METHOD => Some (skip_comma (drop (length method) methods))
  | MATCH_BOTH =>
      Some (skip_comma (drop (length method + match submethod with Some sub => 1 + length sub | None => 0 end) methods))
  | _ => None
  end.

(** The lists with the method removed up to the one that is complete: the new
    lists, whether one is complete, whether the method was in one. *)
Fixpoint update_lists (lists : list (list Z)) (method : list Z) (submethod : option (list Z)) : list (list Z) * bool * bool :=
  match lists with
  | [] => ([], false, false)
  | l :: lists =>
      match remove_method l method submethod with
      | None => let '(ls, complete, found) := update_lists lists method submethod in (l :: ls, complete, found)
      | Some [] => ([] :: lists, true, true)
      | Some l => let '(ls, complete, _) := update_lists lists method submethod in (l :: ls, complete, true)
      end
  end.
(** The new lists and the result. *)
Definition auth2_update_methods_lists (lists : list (list Z)) (method : list Z) (submethod : option (list Z)) : res (list (list Z) * bool) :=
  match update_lists lists method submethod with
  | (ls, true, _) => Ok (ls, true)
  | (ls, false, true) => Ok (ls, false)
  | (_, false, false) => Err EXIT
  end.

Definition auth2_method_allowed (o : server_options) (lists : list (list Z)) (method : list Z) (submethod : option (list Z)) : bool :=
  match so_auth_methods o with
  | [] => true
  | _ => existsb (fun l => match list_starts_with l method submethod with MATCH_NONE => false | _ => true end) lists
  end.

(** The options, the lists when there are some, and [true] for 0. *)
Definition auth2_setup_methods_lists (cfgs : list authmethod_cfg) (o : server_options) : server_options * option (list (list Z)) * bool :=
  let o := if bool_decide (so_auth_methods o = [str "any"]) then set_so_auth_methods [] o else o in
  match so_auth_methods o with
  | [] => (o, None, true)
  | l =>
      let valid := List.filter (fun m => auth2_methods_valid cfgs m true) l in
      (o, Some valid, match valid with [] => false | _ => true end)
  end.

Fixpoint authmethod_byname (cfgs : list authmethod_cfg) (name : list Z) : option authmethod_cfg :=
  match cfgs with
  | [] => None
  | c :: cfgs =>
      if streq name (am_name c) || match am_synonym c with Some s => streq name s | None => false end then Some c
      else authmethod_byname cfgs name
  end.

Definition authmethod_lookup (cfgs : list authmethod_cfg) (o : server_options) (lists : list (list Z)) (name : list Z) : option authmethod_cfg :=
  match authmethod_byname cfgs name with
  | None => None
  | Some m => if negb (am_enabled m) then None else if negb (auth2_method_allowed o lists (am_name m) None) then None else Some m
  end.

(** The names a failure message offers. *)
Definition authmethods_get (cfgs : list authmethod_cfg) (o : server_options) (lists : list (list Z)) : list Z :=
  join_with 44 (am_name <$> List.filter (fun m => negb (streq (am_name m) (str "none")) && am_enabled m && auth2_method_allowed o lists (am_name m) None) cfgs).

(** ** The authentication context *)

Section Context_.
Context {K : Type} `{SSHKEY K}.

Record Authctxt := mk_authctxt {
  a_success : bool;
  a_authenticated : bool;
  a_postponed : bool;
  a_valid : bool;
  a_attempt : Z;
  a_failures : Z;
  a_server_caused_failure : bool;
  a_force_pwchange : bool;
  a_user : option (list Z);
  a_service : option (list Z);
  a_pw : option passwd;
  a_style : option (list Z);
  a_auth_methods : list (list Z);
  a_prev_keys : list K;
  a_auth_method_key : option K;
  a_auth_method_info : option (list Z);
  a_session_info : list Z }.
(** After memset(3). *)
Definition authctxt_zero : Authctxt := mk_authctxt false false false false 0 0 false false None None None None [] [] None None [].

Definition set_success (v : bool) (a : Authctxt) : Authctxt :=
  mk_authctxt v (a_authenticated a) (a_postponed a) (a_valid a) (a_attempt a) (a_failures a) (a_server_caused_failure a) (a_force_pwchange a) (a_user a) (a_service a) (a_pw a) (a_style a) (a_auth_methods a) (a_prev_keys a) (a_auth_method_key a) (a_auth_method_info a) (a_session_info a).
Definition set_authenticated (v : bool) (a : Authctxt) : Authctxt :=
  mk_authctxt (a_success a) v (a_postponed a) (a_valid a) (a_attempt a) (a_failures a) (a_server_caused_failure a) (a_force_pwchange a) (a_user a) (a_service a) (a_pw a) (a_style a) (a_auth_methods a) (a_prev_keys a) (a_auth_method_key a) (a_auth_method_info a) (a_session_info a).
Definition set_postponed (v : bool) (a : Authctxt) : Authctxt :=
  mk_authctxt (a_success a) (a_authenticated a) v (a_valid a) (a_attempt a) (a_failures a) (a_server_caused_failure a) (a_force_pwchange a) (a_user a) (a_service a) (a_pw a) (a_style a) (a_auth_methods a) (a_prev_keys a) (a_auth_method_key a) (a_auth_method_info a) (a_session_info a).
Definition set_valid (v : bool) (a : Authctxt) : Authctxt :=
  mk_authctxt (a_success a) (a_authenticated a) (a_postponed a) v (a_attempt a) (a_failures a) (a_server_caused_failure a) (a_force_pwchange a) (a_user a) (a_service a) (a_pw a) (a_style a) (a_auth_methods a) (a_prev_keys a) (a_auth_method_key a) (a_auth_method_info a) (a_session_info a).
Definition set_attempt (v : Z) (a : Authctxt) : Authctxt :=
  mk_authctxt (a_success a) (a_authenticated a) (a_postponed a) (a_valid a) v (a_failures a) (a_server_caused_failure a) (a_force_pwchange a) (a_user a) (a_service a) (a_pw a) (a_style a) (a_auth_methods a) (a_prev_keys a) (a_auth_method_key a) (a_auth_method_info a) (a_session_info a).
Definition set_failures (v : Z) (a : Authctxt) : Authctxt :=
  mk_authctxt (a_success a) (a_authenticated a) (a_postponed a) (a_valid a) (a_attempt a) v (a_server_caused_failure a) (a_force_pwchange a) (a_user a) (a_service a) (a_pw a) (a_style a) (a_auth_methods a) (a_prev_keys a) (a_auth_method_key a) (a_auth_method_info a) (a_session_info a).
Definition set_server_caused_failure (v : bool) (a : Authctxt) : Authctxt :=
  mk_authctxt (a_success a) (a_authenticated a) (a_postponed a) (a_valid a) (a_attempt a) (a_failures a) v (a_force_pwchange a) (a_user a) (a_service a) (a_pw a) (a_style a) (a_auth_methods a) (a_prev_keys a) (a_auth_method_key a) (a_auth_method_info a) (a_session_info a).
Definition set_force_pwchange (v : bool) (a : Authctxt) : Authctxt :=
  mk_authctxt (a_success a) (a_authenticated a) (a_postponed a) (a_valid a) (a_attempt a) (a_failures a) (a_server_caused_failure a) v (a_user a) (a_service a) (a_pw a) (a_style a) (a_auth_methods a) (a_prev_keys a) (a_auth_method_key a) (a_auth_method_info a) (a_session_info a).
Definition set_user (v : option (list Z)) (a : Authctxt) : Authctxt :=
  mk_authctxt (a_success a) (a_authenticated a) (a_postponed a) (a_valid a) (a_attempt a) (a_failures a) (a_server_caused_failure a) (a_force_pwchange a) v (a_service a) (a_pw a) (a_style a) (a_auth_methods a) (a_prev_keys a) (a_auth_method_key a) (a_auth_method_info a) (a_session_info a).
Definition set_service (v : option (list Z)) (a : Authctxt) : Authctxt :=
  mk_authctxt (a_success a) (a_authenticated a) (a_postponed a) (a_valid a) (a_attempt a) (a_failures a) (a_server_caused_failure a) (a_force_pwchange a) (a_user a) v (a_pw a) (a_style a) (a_auth_methods a) (a_prev_keys a) (a_auth_method_key a) (a_auth_method_info a) (a_session_info a).
Definition set_pw (v : option passwd) (a : Authctxt) : Authctxt :=
  mk_authctxt (a_success a) (a_authenticated a) (a_postponed a) (a_valid a) (a_attempt a) (a_failures a) (a_server_caused_failure a) (a_force_pwchange a) (a_user a) (a_service a) v (a_style a) (a_auth_methods a) (a_prev_keys a) (a_auth_method_key a) (a_auth_method_info a) (a_session_info a).
Definition set_style (v : option (list Z)) (a : Authctxt) : Authctxt :=
  mk_authctxt (a_success a) (a_authenticated a) (a_postponed a) (a_valid a) (a_attempt a) (a_failures a) (a_server_caused_failure a) (a_force_pwchange a) (a_user a) (a_service a) (a_pw a) v (a_auth_methods a) (a_prev_keys a) (a_auth_method_key a) (a_auth_method_info a) (a_session_info a).
Definition set_auth_methods (v : list (list Z)) (a : Authctxt) : Authctxt :=
  mk_authctxt (a_success a) (a_authenticated a) (a_postponed a) (a_valid a) (a_attempt a) (a_failures a) (a_server_caused_failure a) (a_force_pwchange a) (a_user a) (a_service a) (a_pw a) (a_style a) v (a_prev_keys a) (a_auth_method_key a) (a_auth_method_info a) (a_session_info a).
Definition set_prev_keys (v : list K) (a : Authctxt) : Authctxt :=
  mk_authctxt (a_success a) (a_authenticated a) (a_postponed a) (a_valid a) (a_attempt a) (a_failures a) (a_server_caused_failure a) (a_force_pwchange a) (a_user a) (a_service a) (a_pw a) (a_style a) (a_auth_methods a) v (a_auth_method_key a) (a_auth_method_info a) (a_session_info a).
Definition set_auth_method_key (v : option K) (a : Authctxt) : Authctxt :=
  mk_authctxt (a_success a) (a_authenticated a) (a_postponed a) (a_valid a) (a_attempt a) (a_failures a) (a_server_caused_failure a) (a_force_pwchange a) (a_user a) (a_service a) (a_pw a) (a_style a) (a_auth_methods a) (a_prev_keys a) v (a_auth_method_info a) (a_session_info a).
Definition set_auth_method_info (v : option (list Z)) (a : Authctxt) : Authctxt :=
  mk_authctxt (a_success a) (a_authenticated a) (a_postponed a) (a_valid a) (a_attempt a) (a_failures a) (a_server_caused_failure a) (a_force_pwchange a) (a_user a) (a_service a) (a_pw a) (a_style a) (a_auth_methods a) (a_prev_keys a) (a_auth_method_key a) v (a_session_info a).
Definition set_session_info (v : list Z) (a : Authctxt) : Authctxt :=
  mk_authctxt (a_success a) (a_authenticated a) (a_postponed a) (a_valid a) (a_attempt a) (a_failures a) (a_server_caused_failure a) (a_force_pwchange a) (a_user a) (a_service a) (a_pw a) (a_style a) (a_auth_methods a) (a_prev_keys a) (a_auth_method_key a) (a_auth_method_info a) v.

Definition auth2_authctxt_reset_info (a : Authctxt) : Authctxt := set_auth_method_key None (set_auth_method_info None a).

(** The last key, and with [authenticated] the keys that are not accepted again. *)
Definition auth2_record_key (authenticated : bool) (key : K) (a : Authctxt) : res Authctxt :=
  match sshkey_from_private key with
  | Ok dup =>
      let a := set_auth_method_key (Some dup) a in
      if negb authenticated then Ok a
      else match sshkey_from_private key with
           | Ok dup => if INT_MAX <=? zlen (a_prev_keys a) then Err EXIT else Ok (set_prev_keys (a_prev_keys a ++ [dup]) a)
           | Err _ => Err EXIT
           | Crash => Crash
           end
  | Err _ => Err EXIT
  | Crash => Crash
  end.

Definition auth2_key_already_used (a : Authctxt) (key : K) : bool := existsb (sshkey_equal_public key) (a_prev_keys a).

(** [sshkey_format_text]: the text of a key. *)
Definition auth2_update_session_info (format_text : K -> res (list Z)) (method : list Z) (submethod : option (list Z)) (a : Authctxt) : res Authctxt :=
  let sub := match submethod with None => [] | Some s => str "/" ++ s end in
  let? key := match a_auth_method_key a with
              | None => Ok []
              | Some k => match format_text k with Ok t => Ok (str " " ++ t) | Err _ => Err EXIT | Crash => Crash end
              end in
  let? info := match a_auth_method_info a with
               | None => Ok []
               | Some i => if bool_decide (strchr i 10 = None) then Ok (str " " ++ i) else Err EXIT
               end in
  Ok (set_session_info (a_session_info a ++ method ++ sub ++ key ++ info ++ [10]) a).
End Context_.
Arguments Authctxt : clear implicits.

(** ** Root and passwords *)

(** [auth_opts] is NULL when [auth_activate_options] failed. *)
Definition auth_root_allowed (o : server_options) (auth_opts : option sshauthopt) (method : list Z) : res bool :=
  if permit_root_login o =? PERMIT_YES then Ok true
  else if permit_root_login o =? PERMIT_NO_PASSWD then
    Ok (streq method (str "publickey") || streq method (str "hostbased") || streq method (str "gssapi-with-mic"))
  else if permit_root_login o =? PERMIT_FORCED_ONLY then
    match auth_opts with
    | None => Crash
    | Some opts => Ok (match force_command opts with Some _ => true | None => false end)
    end
  else Ok false.

(** The new [auth_opts], NULL when the merge fails, and [true] for 0.  [None] for
    [auth_opts] is a NULL that the merge dereferences. *)
Definition auth_activate_options (ok dup : bool) (auth_opts : option sshauthopt) (opts : sshauthopt) : res (option sshauthopt * bool) :=
  match auth_opts with
  | None => if ok then Crash else Ok (None, false)
  | Some old => match sshauthopt_merge ok dup old opts with inl new => Ok (Some new, true) | inr _ => Ok (None, false) end
  end.

Definition auth_restrict_session (ok dup : bool) (auth_opts : option sshauthopt) : res (option sshauthopt) :=
  match sshauthopt_new ok with
  | None => Err EXIT
  | Some r =>
      let? x := auth_activate_options ok dup auth_opts (set_restricted 1 (set_permit_pty_flag 1 r)) in
      if snd x then Ok (fst x) else Err EXIT
  end.

Definition MAX_PASSWORD_LEN : Z := 1024.

Section Passwords.
(** The password of the shadow database, crypt(3) with its salt. *)
Context (shadow_pw : passwd -> option (list Z)) (xcrypt : list Z -> option (list Z) -> option (list Z)).

Definition sys_auth_passwd (valid : bool) (pw : passwd) (password : list Z) : bool :=
  match (if valid then shadow_pw pw else Some (pw_passwd pw)) with
  | None => false
  | Some pw_password =>
      match pw_password, password with
      | [], [] => true
      | _, _ =>
          let salt := if valid && (2 <=? length pw_password)%nat then Some pw_password else None in
          match xcrypt password salt with Some e => streq e pw_password | None => false end
      end
  end.
End Passwords.

(** ** Users *)

Section Users.
(** The file of a shell is regular and executable; the names of the groups, [None]
    for a failure; getaddrinfo(3) of [match_user]; a locked account. *)
Context (getaddrinfo : list Z -> option (sockaddr * Z)) (shell_ok : list Z -> bool) (getgroups : list Z -> Z -> list (list Z)) (locked : passwd -> bool).

(** [ga_match], the groups of [ga_init] given. *)
Fixpoint ga_match_group (name : list Z) (groups : list (list Z)) : res bool :=
  match groups with
  | [] => Ok false
  | g :: groups => match match_pattern name g with None => Crash | Some true => Ok true | Some false => ga_match_group name groups end
  end.
Fixpoint ga_match (byname groups : list (list Z)) : res bool :=
  match byname with
  | [] => Ok false
  | n :: byname => let? b := ga_match_group n groups in if b : bool then Ok true else ga_match byname groups
  end.

(** DenyUsers: some pattern that matches, with a failure for an invalid one. *)
Fixpoint denied_user (ok : bool) (name hostname ipaddr : list Z) (l : list (list Z)) : res bool :=
  match l with
  | [] => Ok false
  | p :: l =>
      match match_user getaddrinfo ok (Some name) (Some hostname) (Some ipaddr) p with
      | None => Crash
      | Some r => if r <? 0 then Err EXIT else if negb (r =? 0) then Ok true else denied_user ok name hostname ipaddr l
      end
  end.
(** AllowUsers *)
Fixpoint listed_user (ok : bool) (name hostname ipaddr : list Z) (l : list (list Z)) : res bool :=
  match l with
  | [] => Ok false
  | p :: l =>
      match match_user getaddrinfo ok (Some name) (Some hostname) (Some ipaddr) p with
      | None => Crash
      | Some r => if r <? 0 then Err EXIT else if r =? 1 then Ok true else listed_user ok name hostname ipaddr l
      end
  end.

Definition allowed_user (ok : bool) (o : server_options) (hostname ipaddr : list Z) (pw : passwd) : res bool :=
  if negb (use_pam o) && locked pw then Ok false
  else
    let no_chroot := match chroot_directory o with None => true | Some d => strcaseeq d (str "none") end in
    let shell := match pw_shell pw with [] => str "/bin/sh" | s => s end in
    if no_chroot && negb (shell_ok shell) then Ok false
    else
      let? denied := denied_user ok (pw_name pw) hostname ipaddr (deny_users o) in
      if denied : bool then Ok false
      else
        let? listed := match allow_users o with [] => Ok true | l => listed_user ok (pw_name pw) hostname ipaddr l end in
        if negb listed then Ok false
        else
          match deny_groups o, allow_groups o with
          | [], [] => Ok true
          | dg, ag =>
              match getgroups (pw_name pw) (pw_gid pw) with
              | [] => Ok false
              | names =>
                  let? denied := match dg with [] => Ok false | _ => ga_match names dg end in
                  if denied : bool then Ok false else match ag with [] => Ok true | _ => ga_match names ag end
              end
          end.

(** The configuration may depend on the user (src/servconf.c). *)
Definition getpwnamallow (getpwnam : list Z -> option passwd) (match_config : list Z -> bool -> server_options -> server_options)
    (ok : bool) (hostname ipaddr : list Z) (user : list Z) (o : server_options) : res (option passwd * server_options) :=
  let o := match_config user (match getpwnam user with None => true | Some _ => false end) o in
  match getpwnam user with
  | None => Ok (None, o)
  | Some pw => let? b := allowed_user ok o hostname ipaddr pw in Ok (if b : bool then Some pw else None, o)
  end.
End Users.
