(* ===== verification/AuthMethods.v ===== *)
(** * Lists of methods: what completes one *)
From S2P Require Import Prelude CString Misc Match AuthOptions Auth.

(** An element of a list, with or without a submethod. *)
Definition element_matches (e : list Z) (method : list Z) (submethod : option (list Z)) : Prop :=
  e = method \/ exists sub, submethod = Some sub /\ e = method ++ [58] ++ sub.

(** Names that a list can hold. *)
Definition plain_method (method : list Z) (submethod : option (list Z)) : Prop :=
  ~ (44 ∈ method) /\ ~ (58 ∈ method) /\ match submethod with Some sub => ~ (44 ∈ sub) | None => True end.

Lemma strprefix_some s p r : strprefix s p false = Some r -> s = p ++ r.
Proof.
  unfold strprefix, streq. case_bool_decide as Hp; [|done]. intros [= <-]. rewrite <- Hp at 1. by rewrite take_drop.
Qed.

Lemma at_end_cases p : at_end p = true -> p = [] \/ exists r, p = 44 :: r.
Proof. destruct p as [|c r]; [by left|]. cbn. intros ->%Z.eqb_eq. right. by exists r. Qed.

Definition comma_rest (p : list Z) : list Z := if hd p =? 44 then drop 1 p else p.
Lemma comma_rest_end p e : at_end p = true -> e ++ p = e /\ comma_rest p = [] \/ e ++ p = e ++ 44 :: comma_rest p.
Proof. intros [->|(r & ->)]%at_end_cases; [left; by rewrite app_nil_r|by right]. Qed.

(** The first element is removed, and it matches. *)
Lemma remove_method_spec l method submethod r : remove_method l method submethod = Some r ->
  exists e, element_matches e method submethod /\ (l = e /\ r = [] \/ l = e ++ 44 :: r).
Proof.
  unfold remove_method, list_starts_with. destruct (strprefix l method false) as [p|] eqn:Ep; [|done]. apply strprefix_some in Ep as ->.
  destruct (hd p =? 58) eqn:Hc.
  - destruct submethod as [sub|]; [|done]. destruct (strprefix (drop 1 p) sub false) as [q|] eqn:Eq; [|done]. apply strprefix_some in Eq.
    destruct (at_end q) eqn:Ha; [|done]. intros [= <-]. exists (method ++ [58] ++ sub). split; [right; by exists sub|].
    assert (method ++ p = (method ++ [58] ++ sub) ++ q) as E.
    { destruct p as [|c p]; [done|]. cbn in Hc. apply Z.eqb_eq in Hc as ->. change (drop 1 (58 :: p)) with p in Eq. rewrite Eq. by rewrite <- !app_assoc. }
    rewrite E. rewrite drop_app_length' by (rewrite !length_app; cbn; lia). fold (comma_rest q).
    destruct (comma_rest_end q (method ++ [58] ++ sub) Ha) as [[-> ->]| ->]; auto.
  - destruct (at_end p) eqn:Ha; [|done]. intros [= <-]. exists method. split; [by left|]. rewrite drop_app_length. fold (comma_rest p).
    destruct (comma_rest_end p method Ha) as [[-> ->]| ->]; auto.
Qed.

(** What is left of a list after the methods that succeeded, in order. *)
Inductive consumed (es : list (list Z)) : list (list Z * option (list Z)) -> list (list Z) -> Prop :=
| consumed_start : consumed es [] es
| consumed_skip done a r : consumed es done r -> consumed es (done ++ [a]) r
| consumed_one done a e r : consumed es done (e :: r) -> element_matches e (fst a) (snd a) -> consumed es (done ++ [a]) r.

(** The elements of a list that is valid. *)
Definition element (e : list Z) : Prop := ~ (44 ∈ e) /\ e <> [].

Lemma sep_inj (x y s t : list Z) : ~ (44 ∈ x) -> ~ (44 ∈ y) -> x ++ 44 :: s = y ++ 44 :: t -> x = y /\ s = t.
Proof.
  intros Hx Hy E. assert (x = y) as ->; [by rewrite <- (span_to_app 44 x s), E, span_to_app|]. apply app_inv_head in E. by injection E.
Qed.

Lemma element_matches_plain e method submethod : plain_method method submethod -> element_matches e method submethod -> ~ (44 ∈ e).
Proof.
  intros (Hm & _ & Hs) [->|(sub & -> & ->)]; [done|]. rewrite !elem_of_app, list_elem_of_singleton. intros [?|[?|?]]; done.
Qed.

Lemma remove_elements r method submethod t : Forall element r -> plain_method method submethod -> method <> [] ->
  remove_method (join_with 44 r) method submethod = Some t -> exists e r', r = e :: r' /\ element_matches e method submethod /\ t = join_with 44 r'.
Proof.
  intros Hr Hp Hm (e & M & Hc)%remove_method_spec. pose proof (element_matches_plain _ _ _ Hp M) as He.
  destruct r as [|x [|y r]].
  - destruct Hc as [[E _]|E]; [|by destruct e]. exfalso. destruct M as [->|(sub & _ & ->)]; [done|]. by destruct method.
  - cbn in Hc. apply Forall_singleton in Hr as [Hx _]. destruct Hc as [[-> ->]| ->]; [by exists e, []|].
    exfalso. apply Hx. rewrite elem_of_app. right. apply list_elem_of_here.
  - apply Forall_cons in Hr as [[Hx _] _]. change (join_with 44 (x :: y :: r)) with (x ++ 44 :: join_with 44 (y :: r)) in Hc. destruct Hc as [[<- _]|E].
    + exfalso. apply He. rewrite elem_of_app. right. apply list_elem_of_here.
    + apply sep_inj in E as [-> <-]; try done. by exists e, (y :: r).
Qed.

Lemma join_nil r : Forall element r -> join_with 44 r = [] -> r = [].
Proof. intros Hr. destruct r as [|x [|y r]]; [done|..]; apply Forall_cons in Hr as [[_ Hx] _]; [cbn; by intros ->|]. cbn. by destruct x. Qed.

Lemma consumed_elements es done r : consumed es done r -> Forall element es -> Forall element r.
Proof. induction 1 as [|??? C IH|???? C IH]; intros Hes; auto. by apply IH, Forall_cons in Hes as [_ ?]. Qed.

(** Each list is the text of what is left of a configured one. *)
Definition tracks (done : list (list Z * option (list Z))) (es : list (list Z)) (cur : list Z) : Prop :=
  exists r, consumed es done r /\ cur = join_with 44 r.

Lemma tracks_skip done a es cur : tracks done es cur -> tracks (done ++ [a]) es cur.
Proof. intros (r & C & ->). exists r. split; [by apply consumed_skip|done]. Qed.

Lemma update_lists_tracks configured lists done a ls complete found :
  Forall2 (tracks done) configured lists -> Forall (Forall element) configured -> plain_method (fst a) (snd a) -> fst a <> [] ->
  update_lists lists (fst a) (snd a) = (ls, complete, found) ->
  Forall2 (tracks (done ++ [a])) configured ls /\ (complete = true -> exists es, es ∈ configured /\ consumed es (done ++ [a]) []).
Proof.
  intros F He Hp Hm. revert ls complete found. induction F as [|es cur cs ls0 (r & C & ->) F IH]; intros ls complete found; cbn [update_lists]; [by intros [= <- <- <-]|].
  apply Forall_cons in He as [He1 He2]. pose proof (consumed_elements _ _ _ C He1) as Hr.
  destruct (remove_method (join_with 44 r) (fst a) (snd a)) as [t|] eqn:Er.
  - apply remove_elements in Er as (e & r' & -> & M & ->); try done. pose proof (consumed_one _ _ _ _ _ C M) as C'.
    assert (tracks (done ++ [a]) es (join_with 44 r')) as T by (by exists r'). apply Forall_cons in Hr as [_ Hr'].
    destruct (join_with 44 r') as [|c t] eqn:Ej.
    + intros [= <- <- <-]. split; [|intros _; exists es; apply join_nil in Ej as ->; [split; [apply list_elem_of_here|done]|done]].
      constructor; [done|]. eapply Forall2_impl; [exact F|]. intros ? ?. apply tracks_skip.
    + destruct (update_lists ls0 _ _) as [[ls1 c1] f1]. intros [= <- <- <-]. destruct (IH He2 _ _ _ eq_refl) as [F1 H1]. split; [by constructor|].
      intros Hc. destruct (H1 Hc) as (x & Hx & ?). exists x. split; [by apply list_elem_of_further|done].
  - destruct (update_lists ls0 _ _) as [[ls1 c1] f1]. intros [= <- <- <-]. destruct (IH He2 _ _ _ eq_refl) as [F1 H1]. split.
    + constructor; [|done]. apply tracks_skip. by exists r.
    + intros Hc. destruct (H1 Hc) as (x & Hx & ?). exists x. split; [by apply list_elem_of_further|done].
Qed.

(** A list is complete when methods that succeeded, in order, match its elements. *)
Lemma consumed_sublist es done r : consumed es done r -> exists used chosen, es = used ++ r /\ sublist chosen done /\
  Forall2 (fun e a => element_matches e (fst a) (snd a)) used chosen.
Proof.
  induction 1 as [|done a r C (u & ch & E & S & F)|done a e r C (u & ch & E & S & F) M].
  - exists [], []. split_and!; [done|constructor|constructor].
  - exists u, ch. split_and!; try done. by apply sublist_inserts_r.
  - exists (u ++ [e]), (ch ++ [a]). split_and!.
    + by rewrite <- app_assoc.
    + by apply sublist_app.
    + apply Forall2_app; [done|]. constructor; [done|constructor].
Qed.

(** A method that no list names is not found. *)
Lemma update_lists_none configured lists done method submethod :
  Forall2 (tracks done) configured lists -> Forall (Forall element) configured -> plain_method method submethod -> method <> [] ->
  Forall (Forall (fun e => ~ element_matches e method submethod)) configured -> update_lists lists method submethod = (lists, false, false).
Proof.
  intros F He Hp Hm. induction F as [|es cur cs ls0 (r & C & ->) F IH]; intros Hn; cbn [update_lists]; [done|].
  apply Forall_cons in He as [He1 He2]. apply Forall_cons in Hn as [Hn1 Hn2]. rewrite IH by done.
  destruct (remove_method (join_with 44 r) method submethod) as [t|] eqn:Er; [|done].
  apply remove_elements in Er as (e & r' & -> & M & _); [|by eapply consumed_elements|done..].
  apply consumed_sublist in C as (u & ch & -> & _). apply Forall_app in Hn1 as [_ Hn1]. by apply Forall_cons in Hn1 as [[] _].
Qed.

Lemma methods_valid_elements cfgs l b : Forall (fun c => am_name c <> []) cfgs -> auth2_methods_valid cfgs l b = true -> Forall element (split_on 44 l).
Proof.
  intros Hc. unfold auth2_methods_valid. destruct l as [|c l]; [done|]. rewrite forallb_forall. intros Hv. apply Forall_forall. intros e Hin.
  split; [by eapply split_on_notin|]. intros ->. specialize (Hv [] ltac:(by apply list_elem_of_In)). cbn in Hv.
  induction Hc as [|cfg cfgs Hn Hc IH]; [done|]. cbn in Hv. unfold streq in Hv. case_bool_decide; [congruence|]. by apply IH.
Qed.

Lemma tracks_start ls : Forall2 (tracks []) (split_on 44 <$> ls) ls.
Proof. induction ls as [|l ls IH]; constructor; [|done]. exists (split_on 44 l). split; [constructor|]. by rewrite join_split. Qed.

Lemma setup_valid cfgs o o' lists b : auth2_setup_methods_lists cfgs o = (o', lists, b) -> Forall (fun c => am_name c <> []) cfgs ->
  match lists with
  | None => so_auth_methods o' = []
  | Some ls => Forall (Forall element) (split_on 44 <$> ls) /\ forall l, l ∈ ls -> l ∈ so_auth_methods o' /\ auth2_methods_valid cfgs l true = true
  end.
Proof.
  unfold auth2_setup_methods_lists. set (o1 := if bool_decide (so_auth_methods o = [str "any"]) then _ else o).
  destruct (so_auth_methods o1) as [|l0 l1] eqn:El; intros [= <- <- <-] Hc; [done|]. rewrite El.
  assert (forall l, l ∈ List.filter (fun m => auth2_methods_valid cfgs m true) (l0 :: l1) -> l ∈ l0 :: l1 /\ auth2_methods_valid cfgs l true = true) as Hv.
  { intros l Hl. apply list_elem_of_In, filter_In in Hl as [Hin Hl]. split; [by apply list_elem_of_In|done]. }
  split; [|exact Hv]. apply Forall_fmap, Forall_forall. intros l Hl. cbn. apply (methods_valid_elements cfgs l true Hc). by apply Hv.
Qed.
