(* ===== verification/Monitor.v ===== *)
(** * The privileged monitor: src/monitor.c

    The process that answers the requests of the unprivileged one before the user
    is authenticated, in the build with OpenSSL and PAM and without BSD
    authentication, GSSAPI, WINDOWS and audit events.  The request is bytes of a
    pipe, from a peer that may send anything.  The operating system, PAM, keys and
    the files that say which keys are allowed are parameters; what they answer may
    depend on their state.  Answers are written whole, and log lines are the
    arguments of [auth_log]. *)
From S2P Require Import Prelude Sshbuf SshbufGetput CString SshbufMisc Words Chacha ChachaPoly Cipher Hmac Mac PacketState Packet Match SshkeyNames KexNames Kex Compat KexGen Misc Addr AuthOptions Auth.

Definition MONITOR_MAX_MSGLEN : Z := 4 * 1024 * 1024.
Definition MONITOR_REQ_MODULI : Z := 0.
Definition MONITOR_REQ_AUTHSERV : Z := 4.
Definition MONITOR_REQ_SIGN : Z := 6.
Definition MONITOR_REQ_PWNAM : Z := 8.
Definition MONITOR_REQ_AUTH2_READ_BANNER : Z := 10.
Definition MONITOR_REQ_AUTHPASSWORD : Z := 12.
Definition MONITOR_REQ_SETCOMPAT : Z := 18.
Definition MONITOR_REQ_KEYALLOWED : Z := 22.
Definition MONITOR_REQ_KEYVERIFY : Z := 24.
Definition MONITOR_REQ_KEYEXPORT : Z := 26.
Definition MONITOR_REQ_PTY : Z := 28.
Definition MONITOR_REQ_PTYCLEANUP : Z := 30.
Definition MONITOR_REQ_TERM : Z := 50.
Definition MONITOR_REQ_STATE : Z := 51.
Definition MONITOR_REQ_PAM_START : Z := 100.
Definition MONITOR_REQ_PAM_ACCOUNT : Z := 102.
Definition MONITOR_REQ_PAM_INIT_CTX : Z := 104.
Definition MONITOR_REQ_PAM_QUERY : Z := 106.
Definition MONITOR_REQ_PAM_RESPOND : Z := 108.
Definition MONITOR_REQ_PAM_FREE_CTX : Z := 110.
(** An answer has the number after its request, but for that of [MONITOR_REQ_STATE]. *)
Definition ans (req : Z) : Z := req + 1.

Definition MON_ISAUTH : Z := 0x4.
Definition MON_AUTHDECIDE : Z := 0x8.
Definition MON_ONCE : Z := 0x10.
Definition MON_ALOG : Z := 0x20.
Definition MON_AUTH : Z := Z.lor MON_ISAUTH MON_AUTHDECIDE.
Definition MON_PERMIT : Z := 0x1000.
Definition flagged (flags bit : Z) : bool := negb (Z.land flags bit =? 0).

Definition MM_NOKEY : Z := 0.
Definition MM_HOSTKEY : Z := 1.
Definition MM_USERKEY : Z := 2.
Definition PAM_MAX_NUM_MSG : Z := 32.
Definition SSH2_MSG_USERAUTH_REQUEST : Z := 50.
Definition SSH_SK_USER_PRESENCE_REQD : Z := 1.
Definition SSH_SK_USER_VERIFICATION_REQD : Z := 4.

Definition mon_dispatch_proto20 : list (Z * Z) :=
  [(MONITOR_REQ_STATE, MON_ONCE); (MONITOR_REQ_MODULI, MON_ONCE); (MONITOR_REQ_SETCOMPAT, MON_ONCE); (MONITOR_REQ_SIGN, MON_ONCE);
   (MONITOR_REQ_PWNAM, MON_ONCE); (MONITOR_REQ_AUTHSERV, MON_ONCE); (MONITOR_REQ_AUTH2_READ_BANNER, MON_ONCE); (MONITOR_REQ_AUTHPASSWORD, MON_AUTH);
   (MONITOR_REQ_PAM_START, MON_ONCE); (MONITOR_REQ_PAM_ACCOUNT, 0); (MONITOR_REQ_PAM_INIT_CTX, MON_ONCE); (MONITOR_REQ_PAM_QUERY, 0);
   (MONITOR_REQ_PAM_RESPOND, MON_ONCE); (MONITOR_REQ_PAM_FREE_CTX, Z.lor MON_ONCE MON_AUTHDECIDE);
   (MONITOR_REQ_KEYALLOWED, MON_ISAUTH); (MONITOR_REQ_KEYVERIFY, MON_AUTH)].
Definition mon_dispatch_postauth20 : list (Z * Z) :=
  [(MONITOR_REQ_STATE, MON_ONCE); (MONITOR_REQ_MODULI, 0); (MONITOR_REQ_SIGN, 0); (MONITOR_REQ_PTY, 0); (MONITOR_REQ_PTYCLEANUP, 0); (MONITOR_REQ_TERM, 0)].

Definition permit_flags (flags : Z) (permit : bool) : Z := Z.lor (Z.ldiff flags MON_PERMIT) (if permit then MON_PERMIT else 0).
Fixpoint monitor_permit (table : list (Z * Z)) (type : Z) (permit : bool) : list (Z * Z) :=
  match table with
  | [] => []
  | (t, f) :: table => if t =? type then (t, permit_flags f permit) :: table else (t, f) :: monitor_permit table type permit
  end.
Definition monitor_permit_authentications (table : list (Z * Z)) (permit : bool) : list (Z * Z) :=
  (fun e : Z * Z => if flagged (snd e) MON_AUTH then (fst e, permit_flags (snd e) permit) else e) <$> table.
(** The entry of a request. *)
Fixpoint find_entry (table : list (Z * Z)) (type : Z) : option Z :=
  match table with [] => None | (t, f) :: table => if t =? type then Some f else find_entry table type end.
(** [ent->flags &= ~MON_PERMIT] *)
Fixpoint disable_entry (table : list (Z * Z)) (type : Z) : list (Z * Z) :=
  match table with
  | [] => []
  | (t, f) :: table => if t =? type then (t, Z.ldiff f MON_PERMIT) :: table else (t, f) :: disable_entry table type
  end.

(** The names of the list up to an empty one. *)
Definition key_base_type_match (type : Z) (names : list Z) : bool :=
  let fix loop (l : list (list Z)) : bool :=
    match l with [] | [] :: _ => false | s :: l => (sshkey_type_from_name s =? type) || loop l end in
  loop (split_on 44 names).

(** Little-endian memory. *)
Definition le32 (x : Z) : list Z := rev (POKE_U32 x).

Section Monitor.
Context {K W : Type} `{SSHKEY K}.

(** What is not in this file: the allocator; users and passwords; allowed keys;
    keys; the keys of the host; Diffie-Hellman groups; PAM and its context, an
    address; the configuration and the versions as bytes; the exit of the child. *)
Record mon_os := mk_os {
  os_np : Z;
  os_ok : bool;
  os_getpwnamallow : list Z -> server_options -> W -> res (option passwd * server_options) * W;
  os_fakepw : passwd;
  os_shadow_pw : passwd -> option (list Z);
  os_xcrypt : list Z -> option (list Z) -> option (list Z);
  os_pwexpired : W -> bool * W;
  os_read_banner : W -> option (list Z) * W;
  os_user_key_allowed : passwd -> K -> Z -> W -> (Z * option sshauthopt) * W;
  os_hostbased_key_allowed : passwd -> list Z -> list Z -> K -> W -> (Z * list Z) * W;
  os_verify : K -> list Z -> list Z -> option (list Z) -> Z -> Z * option (Z * Z);
  os_fingerprint : K -> bool;
  os_format_text : K -> res (list Z);
  os_hostkey_index : K -> Z;
  os_hostkey_public : Z -> option K;
  os_hostkey_private : Z -> option K;
  os_agent_sign : option (K -> list Z -> list Z -> Z -> res (list Z));
  os_choose_dh : Z -> Z -> Z -> W -> option (list Z * list Z) * W;
  os_pam_passwd : list Z -> W -> bool * W;
  os_pam_start : W -> W;
  os_pam_account : W -> Z * W;
  os_pam_maxtries : W -> Z;
  os_pam_init : W -> option Z * W;
  os_pam_query : Z -> W -> (Z * option (list Z) * option (list Z) * list (list Z * Z)) * W;
  os_pam_done : Z -> W -> bool;
  os_pam_respond : Z -> list (list Z) -> W -> Z * W;
  os_pam_free : Z -> W -> W;
  os_config : server_options -> list Z;
  os_timing_secret : Z;
  os_hostkeys : list Z;
  os_server_version : list Z;
  os_client_version : list Z;
  os_child_status : option Z }.
Context (OS : mon_os).
Abbreviation np := (os_np OS).

(** The variables of the process; [m_session_id2] is empty before it is saved,
    [m_in] and [m_out] are the pipe from and to the child, [m_msg] the request. *)
Record mon := mk_mon {
  m_options : server_options;
  m_authctxt : Authctxt K;
  m_table : list (Z * Z);
  m_key_blob : option (list Z);
  m_key_blobtype : Z;
  m_key_opts : option sshauthopt;
  m_hostbased_cuser : option (list Z);
  m_hostbased_chost : option (list Z);
  m_auth_method : list Z;
  m_auth_submethod : option (list Z);
  m_session_id2 : list Z;
  m_auth_attempted : bool;
  m_invalid_user : bool;
  m_compat_set : bool;
  m_compat : Z;
  m_auth_opts : option sshauthopt;
  m_password_calls : Z;
  m_expire_checked : bool;
  m_proofs : list bool;
  m_pam_ctxt : option Z;
  m_pam_authok : option Z;
  m_loginmsg : list Z;
  m_in : list Z;
  m_out : list (Z * list Z);
  m_msg : sshbuf;
  m_log : list (bool * bool * list Z * option (list Z));
  m_world : W }.
Definition mset_options (v : server_options) (s : mon) : mon :=
  mk_mon v (m_authctxt s) (m_table s) (m_key_blob s) (m_key_blobtype s) (m_key_opts s) (m_hostbased_cuser s) (m_hostbased_chost s) (m_auth_method s) (m_auth_submethod s) (m_session_id2 s) (m_auth_attempted s) (m_invalid_user s) (m_compat_set s) (m_compat s) (m_auth_opts s) (m_password_calls s) (m_expire_checked s) (m_proofs s) (m_pam_ctxt s) (m_pam_authok s) (m_loginmsg s) (m_in s) (m_out s) (m_msg s) (m_log s) (m_world s).
Definition mset_authctxt (v : Authctxt K) (s : mon) : mon :=
  mk_mon (m_options s) v (m_table s) (m_key_blob s) (m_key_blobtype s) (m_key_opts s) (m_hostbased_cuser s) (m_hostbased_chost s) (m_auth_method s) (m_auth_submethod s) (m_session_id2 s) (m_auth_attempted s) (m_invalid_user s) (m_compat_set s) (m_compat s) (m_auth_opts s) (m_password_calls s) (m_expire_checked s) (m_proofs s) (m_pam_ctxt s) (m_pam_authok s) (m_loginmsg s) (m_in s) (m_out s) (m_msg s) (m_log s) (m_world s).
Definition mset_table (v : list (Z * Z)) (s : mon) : mon :=
  mk_mon (m_options s) (m_authctxt s) v (m_key_blob s) (m_key_blobtype s) (m_key_opts s) (m_hostbased_cuser s) (m_hostbased_chost s) (m_auth_method s) (m_auth_submethod s) (m_session_id2 s) (m_auth_attempted s) (m_invalid_user s) (m_compat_set s) (m_compat s) (m_auth_opts s) (m_password_calls s) (m_expire_checked s) (m_proofs s) (m_pam_ctxt s) (m_pam_authok s) (m_loginmsg s) (m_in s) (m_out s) (m_msg s) (m_log s) (m_world s).
Definition mset_key_blob (v : option (list Z)) (s : mon) : mon :=
  mk_mon (m_options s) (m_authctxt s) (m_table s) v (m_key_blobtype s) (m_key_opts s) (m_hostbased_cuser s) (m_hostbased_chost s) (m_auth_method s) (m_auth_submethod s) (m_session_id2 s) (m_auth_attempted s) (m_invalid_user s) (m_compat_set s) (m_compat s) (m_auth_opts s) (m_password_calls s) (m_expire_checked s) (m_proofs s) (m_pam_ctxt s) (m_pam_authok s) (m_loginmsg s) (m_in s) (m_out s) (m_msg s) (m_log s) (m_world s).
Definition mset_key_blobtype (v : Z) (s : mon) : mon :=
  mk_mon (m_options s) (m_authctxt s) (m_table s) (m_key_blob s) v (m_key_opts s) (m_hostbased_cuser s) (m_hostbased_chost s) (m_auth_method s) (m_auth_submethod s) (m_session_id2 s) (m_auth_attempted s) (m_invalid_user s) (m_compat_set s) (m_compat s) (m_auth_opts s) (m_password_calls s) (m_expire_checked s) (m_proofs s) (m_pam_ctxt s) (m_pam_authok s) (m_loginmsg s) (m_in s) (m_out s) (m_msg s) (m_log s) (m_world s).
Definition mset_key_opts (v : option sshauthopt) (s : mon) : mon :=
  mk_mon (m_options s) (m_authctxt s) (m_table s) (m_key_blob s) (m_key_blobtype s) v (m_hostbased_cuser s) (m_hostbased_chost s) (m_auth_method s) (m_auth_submethod s) (m_session_id2 s) (m_auth_attempted s) (m_invalid_user s) (m_compat_set s) (m_compat s) (m_auth_opts s) (m_password_calls s) (m_expire_checked s) (m_proofs s) (m_pam_ctxt s) (m_pam_authok s) (m_loginmsg s) (m_in s) (m_out s) (m_msg s) (m_log s) (m_world s).
Definition mset_hostbased_cuser (v : option (list Z)) (s : mon) : mon :=
  mk_mon (m_options s) (m_authctxt s) (m_table s) (m_key_blob s) (m_key_blobtype s) (m_key_opts s) v (m_hostbased_chost s) (m_auth_method s) (m_auth_submethod s) (m_session_id2 s) (m_auth_attempted s) (m_invalid_user s) (m_compat_set s) (m_compat s) (m_auth_opts s) (m_password_calls s) (m_expire_checked s) (m_proofs s) (m_pam_ctxt s) (m_pam_authok s) (m_loginmsg s) (m_in s) (m_out s) (m_msg s) (m_log s) (m_world s).
Definition mset_hostbased_chost (v : option (list Z)) (s : mon) : mon :=
  mk_mon (m_options s) (m_authctxt s) (m_table s) (m_key_blob s) (m_key_blobtype s) (m_key_opts s) (m_hostbased_cuser s) v (m_auth_method s) (m_auth_submethod s) (m_session_id2 s) (m_auth_attempted s) (m_invalid_user s) (m_compat_set s) (m_compat s) (m_auth_opts s) (m_password_calls s) (m_expire_checked s) (m_proofs s) (m_pam_ctxt s) (m_pam_authok s) (m_loginmsg s) (m_in s) (m_out s) (m_msg s) (m_log s) (m_world s).
Definition mset_auth_method (v : list Z) (s : mon) : mon :=
  mk_mon (m_options s) (m_authctxt s) (m_table s) (m_key_blob s) (m_key_blobtype s) (m_key_opts s) (m_hostbased_cuser s) (m_hostbased_chost s) v (m_auth_submethod s) (m_session_id2 s) (m_auth_attempted s) (m_invalid_user s) (m_compat_set s) (m_compat s) (m_auth_opts s) (m_password_calls s) (m_expire_checked s) (m_proofs s) (m_pam_ctxt s) (m_pam_authok s) (m_loginmsg s) (m_in s) (m_out s) (m_msg s) (m_log s) (m_world s).
Definition mset_auth_submethod (v : option (list Z)) (s : mon) : mon :=
  mk_mon (m_options s) (m_authctxt s) (m_table s) (m_key_blob s) (m_key_blobtype s) (m_key_opts s) (m_hostbased_cuser s) (m_hostbased_chost s) (m_auth_method s) v (m_session_id2 s) (m_auth_attempted s) (m_invalid_user s) (m_compat_set s) (m_compat s) (m_auth_opts s) (m_password_calls s) (m_expire_checked s) (m_proofs s) (m_pam_ctxt s) (m_pam_authok s) (m_loginmsg s) (m_in s) (m_out s) (m_msg s) (m_log s) (m_world s).
Definition mset_session_id2 (v : list Z) (s : mon) : mon :=
  mk_mon (m_options s) (m_authctxt s) (m_table s) (m_key_blob s) (m_key_blobtype s) (m_key_opts s) (m_hostbased_cuser s) (m_hostbased_chost s) (m_auth_method s) (m_auth_submethod s) v (m_auth_attempted s) (m_invalid_user s) (m_compat_set s) (m_compat s) (m_auth_opts s) (m_password_calls s) (m_expire_checked s) (m_proofs s) (m_pam_ctxt s) (m_pam_authok s) (m_loginmsg s) (m_in s) (m_out s) (m_msg s) (m_log s) (m_world s).
Definition mset_auth_attempted (v : bool) (s : mon) : mon :=
  mk_mon (m_options s) (m_authctxt s) (m_table s) (m_key_blob s) (m_key_blobtype s) (m_key_opts s) (m_hostbased_cuser s) (m_hostbased_chost s) (m_auth_method s) (m_auth_submethod s) (m_session_id2 s) v (m_invalid_user s) (m_compat_set s) (m_compat s) (m_auth_opts s) (m_password_calls s) (m_expire_checked s) (m_proofs s) (m_pam_ctxt s) (m_pam_authok s) (m_loginmsg s) (m_in s) (m_out s) (m_msg s) (m_log s) (m_world s).
Definition mset_invalid_user (v : bool) (s : mon) : mon :=
  mk_mon (m_options s) (m_authctxt s) (m_table s) (m_key_blob s) (m_key_blobtype s) (m_key_opts s) (m_hostbased_cuser s) (m_hostbased_chost s) (m_auth_method s) (m_auth_submethod s) (m_session_id2 s) (m_auth_attempted s) v (m_compat_set s) (m_compat s) (m_auth_opts s) (m_password_calls s) (m_expire_checked s) (m_proofs s) (m_pam_ctxt s) (m_pam_authok s) (m_loginmsg s) (m_in s) (m_out s) (m_msg s) (m_log s) (m_world s).
Definition mset_compat_set (v : bool) (s : mon) : mon :=
  mk_mon (m_options s) (m_authctxt s) (m_table s) (m_key_blob s) (m_key_blobtype s) (m_key_opts s) (m_hostbased_cuser s) (m_hostbased_chost s) (m_auth_method s) (m_auth_submethod s) (m_session_id2 s) (m_auth_attempted s) (m_invalid_user s) v (m_compat s) (m_auth_opts s) (m_password_calls s) (m_expire_checked s) (m_proofs s) (m_pam_ctxt s) (m_pam_authok s) (m_loginmsg s) (m_in s) (m_out s) (m_msg s) (m_log s) (m_world s).
Definition mset_compat (v : Z) (s : mon) : mon :=
  mk_mon (m_options s) (m_authctxt s) (m_table s) (m_key_blob s) (m_key_blobtype s) (m_key_opts s) (m_hostbased_cuser s) (m_hostbased_chost s) (m_auth_method s) (m_auth_submethod s) (m_session_id2 s) (m_auth_attempted s) (m_invalid_user s) (m_compat_set s) v (m_auth_opts s) (m_password_calls s) (m_expire_checked s) (m_proofs s) (m_pam_ctxt s) (m_pam_authok s) (m_loginmsg s) (m_in s) (m_out s) (m_msg s) (m_log s) (m_world s).
Definition mset_auth_opts (v : option sshauthopt) (s : mon) : mon :=
  mk_mon (m_options s) (m_authctxt s) (m_table s) (m_key_blob s) (m_key_blobtype s) (m_key_opts s) (m_hostbased_cuser s) (m_hostbased_chost s) (m_auth_method s) (m_auth_submethod s) (m_session_id2 s) (m_auth_attempted s) (m_invalid_user s) (m_compat_set s) (m_compat s) v (m_password_calls s) (m_expire_checked s) (m_proofs s) (m_pam_ctxt s) (m_pam_authok s) (m_loginmsg s) (m_in s) (m_out s) (m_msg s) (m_log s) (m_world s).
Definition mset_password_calls (v : Z) (s : mon) : mon :=
  mk_mon (m_options s) (m_authctxt s) (m_table s) (m_key_blob s) (m_key_blobtype s) (m_key_opts s) (m_hostbased_cuser s) (m_hostbased_chost s) (m_auth_method s) (m_auth_submethod s) (m_session_id2 s) (m_auth_attempted s) (m_invalid_user s) (m_compat_set s) (m_compat s) (m_auth_opts s) v (m_expire_checked s) (m_proofs s) (m_pam_ctxt s) (m_pam_authok s) (m_loginmsg s) (m_in s) (m_out s) (m_msg s) (m_log s) (m_world s).
Definition mset_expire_checked (v : bool) (s : mon) : mon :=
  mk_mon (m_options s) (m_authctxt s) (m_table s) (m_key_blob s) (m_key_blobtype s) (m_key_opts s) (m_hostbased_cuser s) (m_hostbased_chost s) (m_auth_method s) (m_auth_submethod s) (m_session_id2 s) (m_auth_attempted s) (m_invalid_user s) (m_compat_set s) (m_compat s) (m_auth_opts s) (m_password_calls s) v (m_proofs s) (m_pam_ctxt s) (m_pam_authok s) (m_loginmsg s) (m_in s) (m_out s) (m_msg s) (m_log s) (m_world s).
Definition mset_proofs (v : list bool) (s : mon) : mon :=
  mk_mon (m_options s) (m_authctxt s) (m_table s) (m_key_blob s) (m_key_blobtype s) (m_key_opts s) (m_hostbased_cuser s) (m_hostbased_chost s) (m_auth_method s) (m_auth_submethod s) (m_session_id2 s) (m_auth_attempted s) (m_invalid_user s) (m_compat_set s) (m_compat s) (m_auth_opts s) (m_password_calls s) (m_expire_checked s) v (m_pam_ctxt s) (m_pam_authok s) (m_loginmsg s) (m_in s) (m_out s) (m_msg s) (m_log s) (m_world s).
Definition mset_pam_ctxt (v : option Z) (s : mon) : mon :=
  mk_mon (m_options s) (m_authctxt s) (m_table s) (m_key_blob s) (m_key_blobtype s) (m_key_opts s) (m_hostbased_cuser s) (m_hostbased_chost s) (m_auth_method s) (m_auth_submethod s) (m_session_id2 s) (m_auth_attempted s) (m_invalid_user s) (m_compat_set s) (m_compat s) (m_auth_opts s) (m_password_calls s) (m_expire_checked s) (m_proofs s) v (m_pam_authok s) (m_loginmsg s) (m_in s) (m_out s) (m_msg s) (m_log s) (m_world s).
Definition mset_pam_authok (v : option Z) (s : mon) : mon :=
  mk_mon (m_options s) (m_authctxt s) (m_table s) (m_key_blob s) (m_key_blobtype s) (m_key_opts s) (m_hostbased_cuser s) (m_hostbased_chost s) (m_auth_method s) (m_auth_submethod s) (m_session_id2 s) (m_auth_attempted s) (m_invalid_user s) (m_compat_set s) (m_compat s) (m_auth_opts s) (m_password_calls s) (m_expire_checked s) (m_proofs s) (m_pam_ctxt s) v (m_loginmsg s) (m_in s) (m_out s) (m_msg s) (m_log s) (m_world s).
Definition mset_loginmsg (v : list Z) (s : mon) : mon :=
  mk_mon (m_options s) (m_authctxt s) (m_table s) (m_key_blob s) (m_key_blobtype s) (m_key_opts s) (m_hostbased_cuser s) (m_hostbased_chost s) (m_auth_method s) (m_auth_submethod s) (m_session_id2 s) (m_auth_attempted s) (m_invalid_user s) (m_compat_set s) (m_compat s) (m_auth_opts s) (m_password_calls s) (m_expire_checked s) (m_proofs s) (m_pam_ctxt s) (m_pam_authok s) v (m_in s) (m_out s) (m_msg s) (m_log s) (m_world s).
Definition mset_in (v : list Z) (s : mon) : mon :=
  mk_mon (m_options s) (m_authctxt s) (m_table s) (m_key_blob s) (m_key_blobtype s) (m_key_opts s) (m_hostbased_cuser s) (m_hostbased_chost s) (m_auth_method s) (m_auth_submethod s) (m_session_id2 s) (m_auth_attempted s) (m_invalid_user s) (m_compat_set s) (m_compat s) (m_auth_opts s) (m_password_calls s) (m_expire_checked s) (m_proofs s) (m_pam_ctxt s) (m_pam_authok s) (m_loginmsg s) v (m_out s) (m_msg s) (m_log s) (m_world s).
Definition mset_out (v : list (Z * list Z)) (s : mon) : mon :=
  mk_mon (m_options s) (m_authctxt s) (m_table s) (m_key_blob s) (m_key_blobtype s) (m_key_opts s) (m_hostbased_cuser s) (m_hostbased_chost s) (m_auth_method s) (m_auth_submethod s) (m_session_id2 s) (m_auth_attempted s) (m_invalid_user s) (m_compat_set s) (m_compat s) (m_auth_opts s) (m_password_calls s) (m_expire_checked s) (m_proofs s) (m_pam_ctxt s) (m_pam_authok s) (m_loginmsg s) (m_in s) v (m_msg s) (m_log s) (m_world s).
Definition mset_msg (v : sshbuf) (s : mon) : mon :=
  mk_mon (m_options s) (m_authctxt s) (m_table s) (m_key_blob s) (m_key_blobtype s) (m_key_opts s) (m_hostbased_cuser s) (m_hostbased_chost s) (m_auth_method s) (m_auth_submethod s) (m_session_id2 s) (m_auth_attempted s) (m_invalid_user s) (m_compat_set s) (m_compat s) (m_auth_opts s) (m_password_calls s) (m_expire_checked s) (m_proofs s) (m_pam_ctxt s) (m_pam_authok s) (m_loginmsg s) (m_in s) (m_out s) v (m_log s) (m_world s).
Definition mset_log (v : list (bool * bool * list Z * option (list Z))) (s : mon) : mon :=
  mk_mon (m_options s) (m_authctxt s) (m_table s) (m_key_blob s) (m_key_blobtype s) (m_key_opts s) (m_hostbased_cuser s) (m_hostbased_chost s) (m_auth_method s) (m_auth_submethod s) (m_session_id2 s) (m_auth_attempted s) (m_invalid_user s) (m_compat_set s) (m_compat s) (m_auth_opts s) (m_password_calls s) (m_expire_checked s) (m_proofs s) (m_pam_ctxt s) (m_pam_authok s) (m_loginmsg s) (m_in s) (m_out s) (m_msg s) v (m_world s).
Definition mset_world (v : W) (s : mon) : mon :=
  mk_mon (m_options s) (m_authctxt s) (m_table s) (m_key_blob s) (m_key_blobtype s) (m_key_opts s) (m_hostbased_cuser s) (m_hostbased_chost s) (m_auth_method s) (m_auth_submethod s) (m_session_id2 s) (m_auth_attempted s) (m_invalid_user s) (m_compat_set s) (m_compat s) (m_auth_opts s) (m_password_calls s) (m_expire_checked s) (m_proofs s) (m_pam_ctxt s) (m_pam_authok s) (m_loginmsg s) (m_in s) (m_out s) (m_msg s) (m_log s) v.

Definition MM : Type -> Type := ST mon.
Definition mupd (f : mon -> mon) : MM unit := fun s => (Ok tt, f s).
Definition fatal {A} : MM A := fail EXIT.
(** A failure of a buffer is fatal. *)
Definition must {A} (r : res A) : MM A := match r with Ok a => ret a | Err _ => fatal | Crash => crash end.
Definition on_msg {A} (m : ST sshbuf A) : MM A := fun s =>
  let '(r, b) := m (m_msg s) in must r (mset_msg b s).
Definition ask {A} (f : W -> A * W) : MM A := fun s => let '(a, w) := f (m_world s) in (Ok a, mset_world w s).
Definition on_authctxt (f : Authctxt K -> Authctxt K) : MM unit := mupd (fun s => mset_authctxt (f (m_authctxt s)) s).
Definition permit (type : Z) (on : bool) : MM unit := mupd (fun s => mset_table (monitor_permit (m_table s) type on) s).
Definition auth_log (authenticated partial : bool) (method : list Z) (submethod : option (list Z)) : MM unit :=
  mupd (fun s => mset_log (m_log s ++ [(authenticated, partial, method, submethod)]) s).

Definition get_cstr : ST sshbuf (list Z) := let! p := sshbuf_get_cstring np in ret (cstr_of p).
Definition get_direct : ST sshbuf (list Z) := let! pl := sshbuf_get_string_direct in mem_peek (fst pl) (snd pl).
Definition get_string_ : ST sshbuf (list Z) := let! p := sshbuf_get_string np in ret (ztake (snd p) (fst p)).
Definition skip_string : ST sshbuf unit := let! _ := sshbuf_get_string_direct in ret tt.
Definition sshkey_froms : ST sshbuf K :=
  let! b := string_view np in let! v := reads (fun _ => buf_bytes b) in reads (fun _ => sshkey_fromb v).
Definition sshkey_puts (k : K) : ST sshbuf unit := let! v := reads (fun _ => sshkey_tob k) in sshbuf_put_string np v.
Fixpoint puts (l : list (ST sshbuf unit)) : ST sshbuf unit := match l with [] => ret tt | m :: l => do! m ;; puts l end.

(** ** Requests and answers *)

Definition mm_request_send (type : Z) (m : sshbuf) : MM unit :=
  let! mlen := must (sshbuf_len m) in
  if MONITOR_MAX_MSGLEN <=? mlen then fatal
  else let! v := must (buf_bytes m) in mupd (fun s => mset_out (m_out s ++ [(u8 type, v)]) s).
Definition answer (req : Z) : MM unit := let! s := get in mm_request_send (ans req) (m_msg s).
(** [sshbuf_reset (m)] and what is put there. *)
Definition reply (req : Z) (l : list (ST sshbuf unit)) : MM unit :=
  do! on_msg (ignore (sshbuf_reset np)) ;; do! on_msg (puts l) ;; answer req.

(** [atomicio (read, ...)] of [n] bytes, which are stored as [unsigned char]; the
    child that closes the pipe ends the process. *)
Definition read_pipe (n : Z) : MM (list Z) :=
  let! s := get in
  if zlen (m_in s) <? n then fatal else do! put (mset_in (zdrop n (m_in s)) s) ;; ret (u8 <$> ztake n (m_in s)).
Definition mm_request_receive : MM unit :=
  let! buf := read_pipe 4 in
  let! msg_len := defined (PEEK_U32 buf) in
  if MONITOR_MAX_MSGLEN <? msg_len then fatal
  else
    do! on_msg (ignore (sshbuf_reset np)) ;;
    let! p := on_msg (sshbuf_reserve np msg_len) in
    let! v := read_pipe msg_len in on_msg (mem_poke p v).
(** [sshbuf_new ()] *)
Definition new_msg : MM unit := match sshbuf_new np np with None => fatal | Some b => mupd (mset_msg b) end.
Definition mm_request_receive_expect (type : Z) : MM unit :=
  do! mm_request_receive ;;
  let! rtype := on_msg sshbuf_get_u8 in if negb (rtype =? type) then fatal else ret tt.

(** ** Passwords *)

Definition restrict_session : MM unit :=
  let! s := get in let! o := must (auth_restrict_session (os_ok OS) (os_ok OS) (m_auth_opts s)) in mupd (mset_auth_opts o).

Definition auth_password (password : list Z) : MM bool :=
  let! s := get in
  let! pw := defined (a_pw (m_authctxt s)) in
  if MAX_PASSWORD_LEN <? zlen password then ret false
  else
    let ok := a_valid (m_authctxt s) && negb ((pw_uid pw =? 0) && negb (permit_root_login (m_options s) =? PERMIT_YES)) in
    if match password with [] => negb (permit_empty_passwd (m_options s)) | _ => false end then ret false
    else if use_pam (m_options s) then let! r := ask (os_pam_passwd OS password) in ret (r && ok)
    else
      do! (if m_expire_checked s then ret tt
           else
             do! mupd (mset_expire_checked true) ;;
             let! expired := ask (os_pwexpired OS) in
             if expired : bool then on_authctxt (set_force_pwchange true) else ret tt) ;;
      let result := sys_auth_passwd (os_shadow_pw OS) (os_xcrypt OS) (a_valid (m_authctxt s)) pw password in
      let! s := get in
      do! (if a_force_pwchange (m_authctxt s) then restrict_session else ret tt) ;;
      ret (result && ok).

(** ** Key state *)

Definition monitor_allowed_key (s : mon) (blob : list Z) : bool := match m_key_blob s with None => false | Some b => streq b blob end.
Definition monitor_reset_key_state : MM unit :=
  mupd (fun s => mset_key_blob None (mset_key_blobtype MM_NOKEY (mset_key_opts None (mset_hostbased_cuser None (mset_hostbased_chost None s))))).

(** ** Handlers *)

Definition mm_answer_state : MM Z :=
  let! s := get in
  let! m := must (in_new np (puts [sshbuf_put_string np (os_config OS (m_options s)); sshbuf_put_u64 np (os_timing_secret OS);
                                   sshbuf_put_string np (os_hostkeys OS); sshbuf_put_string np (os_server_version OS); sshbuf_put_string np (os_client_version OS)])) in
  if a_authenticated (m_authctxt s) && match a_pw (m_authctxt s) with Some _ => true | None => false end then fatal
  else do! mm_request_send (ans MONITOR_REQ_STATE) m ;; ret 0.

Definition mm_answer_moduli : MM Z :=
  let! mn := on_msg sshbuf_get_u32 in
  let! want := on_msg sshbuf_get_u32 in
  let! mx := on_msg sshbuf_get_u32 in
  if (mx <? mn) || (want <? mn) || (mx <? want) then fatal
  else
    let! dh := ask (os_choose_dh OS mn want mx) in
    do! reply MONITOR_REQ_MODULI
          (match dh with
           | None => [sshbuf_put_u8 np 0]
           | Some (p, g) => [sshbuf_put_u8 np 1; sshbuf_put_bignum2_bytes np p; sshbuf_put_bignum2_bytes np g]
           end) ;;
    ret 0.

Definition mm_answer_setcompat : MM Z :=
  let! c := on_msg sshbuf_get_u32 in
  do! mupd (mset_compat c) ;; do! mupd (mset_compat_set true) ;; ret 0.

(** The proof that a key of the host is known: it is asked for once, and is
    what the child should have sent. *)
Definition hostkey_proof (keyid : Z) (p : list Z) : MM unit :=
  let! s := get in
  if zlen (m_session_id2 s) =? 0 then fatal
  else
    match os_hostkey_public OS keyid with
    | None => fatal
    | Some key =>
        let n := Z.to_nat keyid in
        let done := if (n <? length (m_proofs s))%nat then m_proofs s else m_proofs s ++ replicate (S n - length (m_proofs s)) false in
        if bool_decide (done !! n = Some true) then fatal
        else
          do! mupd (mset_proofs (<[n := true]> done)) ;;
          let! sigbuf := must (in_new np (puts [sshbuf_put_cstring np (Some (str "hostkeys-prove-00@openssh.com"));
                                                sshbuf_put_string np (m_session_id2 s); sshkey_puts key])) in
          let! v := must (buf_bytes sigbuf) in
          if negb (streq p v) then fatal else ret tt
    end.

Definition mm_answer_sign : MM Z :=
  let! s := get in
  if negb (m_compat_set s) then fatal
  else
    let! pubkey := on_msg sshkey_froms in
    let! p := on_msg get_string_ in
    let! alg := on_msg get_cstr in
    let! compat := on_msg sshbuf_get_u32 in
    let keyid := os_hostkey_index OS pubkey in
    if keyid =? -1 then fatal
    else
      let datlen := zlen p in
      do! (if negb (datlen =? 20) && negb (datlen =? 32) && negb (datlen =? 48) && negb (datlen =? 64) then hostkey_proof keyid p else ret tt) ;;
      do! mupd (fun s => if zlen (m_session_id2 s) =? 0 then mset_session_id2 p s else s) ;;
      let! signature := must (match os_hostkey_private OS keyid with
                              | Some key => sshkey_sign (Some key) p (Some alg) compat
                              | None =>
                                  match os_hostkey_public OS keyid, os_agent_sign OS with
                                  | Some key, Some sign => sign key p alg compat
                                  | _, _ => Err EXIT
                                  end
                              end) in
      do! reply MONITOR_REQ_SIGN [sshbuf_put_string np signature] ;;
      do! permit MONITOR_REQ_PWNAM true ;;
      ret 0.

Definition setup_lists : MM unit :=
  mupd (fun s =>
    let '(o, lists, _) := auth2_setup_methods_lists (authmethod_cfgs true (m_options s)) (m_options s) in
    let s := mset_options o s in
    match lists with None => s | Some l => mset_authctxt (set_auth_methods l (m_authctxt s)) s end).

Definition mm_answer_pwnamallow : MM Z :=
  let! s := get in
  if negb (m_compat_set s) then fatal
  else if negb (a_attempt (m_authctxt s) =? 0) then fatal
  else
    do! on_authctxt (fun a => set_attempt (a_attempt a + 1) a) ;;
    let! user := on_msg get_cstr in
    do! on_authctxt (set_user (Some user)) ;;
    let! r := ask (os_getpwnamallow OS user (m_options s)) in
    let! po := must r in
    do! mupd (mset_options (snd po)) ;;
    do! on_msg (ignore (sshbuf_reset np)) ;;
    do! (match fst po with
         | None => do! mupd (mset_invalid_user true) ;; do! on_msg (sshbuf_put_u8 np 0) ;; on_authctxt (set_pw (Some (os_fakepw OS)))
         | Some pw =>
             do! on_authctxt (fun a => set_valid true (set_pw (Some pw) a)) ;;
             on_msg (puts [sshbuf_put_u8 np 1; sshbuf_put_string np (le32 (pw_uid pw)); sshbuf_put_string np (le32 (pw_gid pw));
                           sshbuf_put_cstring np (Some (pw_name pw)); sshbuf_put_cstring np (Some (str "*")); sshbuf_put_cstring np (Some (pw_gecos pw));
                           sshbuf_put_cstring np (Some (pw_dir pw)); sshbuf_put_cstring np (Some (pw_shell pw))])
         end) ;;
    if refuse_connection (snd po) then fatal
    else
      do! on_msg (sshbuf_put_string np (os_config OS (snd po))) ;;
      do! setup_lists ;;
      do! answer MONITOR_REQ_PWNAM ;;
      do! permit MONITOR_REQ_AUTHSERV true ;;
      do! permit MONITOR_REQ_AUTH2_READ_BANNER true ;;
      do! (if use_pam (snd po) then permit MONITOR_REQ_PAM_START true else ret tt) ;;
      ret 0.

Definition mm_answer_auth2_read_banner : MM Z :=
  let! banner := ask (os_read_banner OS) in
  do! reply MONITOR_REQ_AUTH2_READ_BANNER [sshbuf_put_cstring np (Some (default [] banner))] ;; ret 0.

Definition mm_answer_authserv : MM Z :=
  do! mupd (fun s => mset_table (monitor_permit_authentications (m_table s) true) s) ;;
  let! service := on_msg get_cstr in
  do! on_authctxt (set_service (Some service)) ;;
  let! style := on_msg get_cstr in
  do! on_authctxt (set_style (match style with [] => None | _ => Some style end)) ;;
  ret 0.

Definition zbit (b : bool) : Z := if b then 1 else 0.

Definition mm_answer_authpassword : MM Z :=
  let! s := get in
  if negb (password_authentication (m_options s)) then fatal
  else
    let! pl := on_msg (sshbuf_get_cstring np) in
    let plen := snd pl in
    let! authenticated := auth_password (cstr_of pl) in
    let! s := get in
    do! reply MONITOR_REQ_AUTHPASSWORD [sshbuf_put_u32 np (zbit authenticated); sshbuf_put_u32 np (os_pam_maxtries OS (m_world s))] ;;
    let calls := m_password_calls s + 1 in
    do! mupd (mset_password_calls calls) ;;
    do! mupd (mset_auth_method (if (plen =? 0) && (calls =? 1) then str "none" else str "password")) ;;
    ret (zbit authenticated).

Definition mm_answer_pam_start : MM Z :=
  let! s := get in
  if negb (use_pam (m_options s)) then fatal
  else
    do! ask (fun w => (tt, os_pam_start OS w)) ;;
    do! permit MONITOR_REQ_PAM_ACCOUNT true ;;
    do! (if kbd_interactive_authentication (m_options s) then permit MONITOR_REQ_PAM_INIT_CTX true else ret tt) ;;
    ret 0.

Definition mm_answer_pam_account : MM Z :=
  let! s := get in
  if negb (use_pam (m_options s)) then fatal
  else
    let! r := ask (os_pam_account OS) in
    do! on_msg (puts [sshbuf_put_u32 np r; sshbuf_put_string np (m_loginmsg s)]) ;;
    do! mupd (mset_loginmsg []) ;;
    do! answer MONITOR_REQ_PAM_ACCOUNT ;;
    ret r.

Definition mm_answer_pam_init_ctx : MM Z :=
  let! s := get in
  if negb (kbd_interactive_authentication (m_options s)) then fatal
  else
    match m_pam_ctxt s with
    | Some _ => fatal
    | None =>
        let! c := ask (os_pam_init OS) in
        do! mupd (mset_pam_ctxt c) ;;
        do! mupd (mset_pam_authok None) ;;
        do! on_msg (ignore (sshbuf_reset np)) ;;
        do! (match c with
             | Some _ => do! permit MONITOR_REQ_PAM_FREE_CTX true ;; permit MONITOR_REQ_PAM_QUERY true
             | None => ret tt
             end) ;;
        do! on_msg (sshbuf_put_u32 np (match c with Some _ => 1 | None => 0 end)) ;;
        do! answer MONITOR_REQ_PAM_INIT_CTX ;;
        ret 0
    end.

Definition kbdint_pam : MM unit :=
  do! mupd (mset_auth_method (str "keyboard-interactive")) ;; mupd (mset_auth_submethod (Some (str "pam"))).

Definition mm_answer_pam_query : MM Z :=
  do! mupd (mset_pam_authok None) ;;
  let! s := get in
  match m_pam_ctxt s with
  | None => fatal
  | Some c =>
      let! q := ask (os_pam_query OS c) in
      let '(r, name, info, prompts) := q in
      let! s := get in
      do! (if (r =? 0) && (zlen prompts =? 0) && os_pam_done OS c (m_world s) then mupd (mset_pam_authok (Some c)) else ret tt) ;;
      match name, info with
      | Some name, Some info =>
          if 1 <? zlen prompts then fatal
          else
            do! permit MONITOR_REQ_PAM_RESPOND true ;;
            do! on_msg (ignore (sshbuf_reset np)) ;;
            do! on_msg (puts ([sshbuf_put_u32 np (u32 r); sshbuf_put_cstring np (Some name); sshbuf_put_cstring np (Some info);
                               sshbuf_put_u32 np (os_pam_maxtries OS (m_world s)); sshbuf_put_u32 np (zlen prompts)] ++
                              concat ((fun pe : list Z * Z => [sshbuf_put_cstring np (Some (fst pe)); sshbuf_put_u32 np (snd pe)]) <$> prompts))) ;;
            do! kbdint_pam ;;
            do! answer MONITOR_REQ_PAM_QUERY ;;
            ret 0
      | _, _ => fatal
      end
  end.

Definition mm_answer_pam_respond : MM Z :=
  let! s := get in
  match m_pam_ctxt s with
  | None => fatal
  | Some c =>
      do! mupd (mset_pam_authok None) ;;
      let! num := on_msg sshbuf_get_u32 in
      if PAM_MAX_NUM_MSG <? num then fatal
      else
        let! resp := on_msg (get_strings np (Z.to_nat num)) in
        let! r := ask (os_pam_respond OS c resp) in
        do! reply MONITOR_REQ_PAM_RESPOND [sshbuf_put_u32 np (u32 r)] ;;
        do! kbdint_pam ;;
        do! (if r =? 0 then mupd (mset_pam_authok (Some c)) else ret tt) ;;
        ret 0
  end.

Definition mm_answer_pam_free_ctx : MM Z :=
  let! s := get in
  match m_pam_ctxt s with
  | None => fatal
  | Some c =>
      let r := zbit (bool_decide (m_pam_authok s = Some c)) in
      do! ask (fun w => (tt, os_pam_free OS c w)) ;;
      do! mupd (mset_pam_ctxt None) ;;
      do! mupd (mset_pam_authok None) ;;
      do! reply MONITOR_REQ_PAM_FREE_CTX [] ;;
      do! permit MONITOR_REQ_PAM_INIT_CTX true ;;
      do! kbdint_pam ;;
      ret r
  end.

(** Whether a key is allowed: the answer, its options and the name of the client host. *)
Definition key_allowed (type attempt : Z) (cuser chost : list Z) (key : K) : MM (Z * option sshauthopt * list Z) :=
  let! s := get in
  let a := m_authctxt s in
  let o := m_options s in
  if negb (a_valid a) then ret (0, None, chost)
  else if type =? MM_USERKEY then
    do! mupd (mset_auth_method (str "publickey")) ;;
    if negb (pubkey_authentication o) then ret (0, None, chost)
    else if auth2_key_already_used a key then ret (0, None, chost)
    else if negb (key_base_type_match (key_type key) (pubkey_accepted_algos o)) then ret (0, None, chost)
    else
      let! pw := defined (a_pw a) in
      let! r := ask (os_user_key_allowed OS pw key attempt) in
      ret (fst r, snd r, chost)
  else if type =? MM_HOSTKEY then
    do! mupd (mset_auth_method (str "hostbased")) ;;
    if negb (hostbased_authentication o) then ret (0, None, chost)
    else if auth2_key_already_used a key then ret (0, None, chost)
    else if negb (key_base_type_match (key_type key) (hostbased_accepted_algos o)) then ret (0, None, chost)
    else
      let! pw := defined (a_pw a) in
      let! r := ask (os_hostbased_key_allowed OS pw cuser chost key) in
      do! on_authctxt (set_auth_method_info (Some (str "client user " ++ [c_quote] ++ take 100 cuser ++ [c_quote] ++ str ", client host " ++
                                                   [c_quote] ++ take 100 (snd r) ++ [c_quote]))) ;;
      ret (fst r, None, snd r)
  else fatal.

Definition record_key (authenticated : bool) (key : K) : MM unit :=
  let! s := get in let! a := must (auth2_record_key authenticated key (m_authctxt s)) in mupd (mset_authctxt a).

Definition mm_answer_keyallowed : MM Z :=
  let! type := on_msg sshbuf_get_u32 in
  let! cuser := on_msg get_cstr in
  let! chost := on_msg get_cstr in
  let! key := on_msg sshkey_froms in
  let! attempt := on_msg sshbuf_get_u32 in
  let! r := key_allowed type attempt cuser chost key in
  let '(allowed, opts, chost) := r in
  do! record_key false key ;;
  do! monitor_reset_key_state ;;
  do! (if negb (allowed =? 0) then
         let! blob := must (sshkey_tob key) in
         mupd (fun s => mset_key_blob (Some blob) (mset_key_blobtype type (mset_key_opts opts
                         (mset_hostbased_cuser (Some cuser) (mset_hostbased_chost (Some chost) s)))))
       else let! s := get in auth_log false false (m_auth_method s) None) ;;
  do! reply MONITOR_REQ_KEYALLOWED
        ([sshbuf_put_u32 np allowed] ++ match opts with Some o => [sshauthopt_serialise np o true] | None => [] end) ;;
  ret 0.

(** The name a signature must carry. *)
Definition userstyle (a : Authctxt K) : MM (list Z) :=
  let! user := defined (a_user a) in
  ret (user ++ match a_style a with Some s => [58] ++ s | None => [] end).

(** A parse of the data that was signed; a failure is fatal. *)
Definition in_data {A} (data : list Z) (m : ST sshbuf A) : MM A :=
  match sshbuf_from np 1 data (zlen data) with None => fatal | Some b => must (fst (m b)) end.

(** The session identifier, the type, the name and the method are as they must be. *)
Definition sid_ok (s : mon) (v : list Z) : bool := negb (zlen (m_session_id2 s) =? 0) && streq v (m_session_id2 s).

Definition monitor_valid_userblob (data : list Z) : MM bool :=
  let! s := get in
  let! name := userstyle (m_authctxt s) in
  let! r := in_data data
    (let! sid := (if flagged (m_compat s) SSH_OLD_SESSIONID then
                    let! v := reads buf_bytes in
                    do! sshbuf_consume (zlen (m_session_id2 s)) ;; ret (ztake (zlen (m_session_id2 s)) v)
                  else get_direct) in
     let! type := sshbuf_get_u8 in
     let! user := get_cstr in
     do! skip_string ;;
     let! method := get_cstr in
     let hostbound := streq method (str "publickey-hostbound-v00@openssh.com") in
     let! pktype := sshbuf_get_u8 in
     do! skip_string ;;
     do! skip_string ;;
     let! hostkey := (if hostbound then let! k := sshkey_froms in ret (Some k) else ret None) in
     let! n := reads sshbuf_len in
     ret (sid_ok s sid && (type =? SSH2_MSG_USERAUTH_REQUEST) && streq name user && (streq (str "publickey") method || hostbound) &&
          negb (pktype =? 0) && (n =? 0), hostkey)) in
  match snd r with
  | Some k => if os_hostkey_index OS k =? -1 then fatal else ret (fst r)
  | None => ret (fst r)
  end.

(** Without the dot at its end. *)
Definition strip_dot (host : list Z) : list Z := if bool_decide (last host = Some 46) then take (length host - 1) host else host.

Definition monitor_valid_hostbasedblob (data cuser chost : list Z) : MM bool :=
  let! s := get in
  let! name := userstyle (m_authctxt s) in
  in_data data
    (let! sid := get_direct in
     let! type := sshbuf_get_u8 in
     let! user := get_cstr in
     do! skip_string ;;
     let! method := get_cstr in
     do! skip_string ;;
     do! skip_string ;;
     let! host := get_cstr in
     let! ruser := get_cstr in
     let! n := reads sshbuf_len in
     ret (sid_ok s sid && (type =? SSH2_MSG_USERAUTH_REQUEST) && streq name user && streq method (str "hostbased") &&
          streq (strip_dot host) chost && streq ruser cuser && (n =? 0))).

(** What a security key has to assert, besides its signature. *)
Definition sk_requirements (o : server_options) (opts : sshauthopt) (sk_flags : Z) : bool :=
  let req_presence := flagged (pubkey_auth_options o) PUBKEYAUTH_TOUCH_REQUIRED || (no_require_user_presence opts =? 0) in
  let req_verify := flagged (pubkey_auth_options o) PUBKEYAUTH_VERIFY_REQUIRED || negb (require_verify opts =? 0) in
  negb (req_presence && negb (flagged sk_flags SSH_SK_USER_PRESENCE_REQD)) && negb (req_verify && negb (flagged sk_flags SSH_SK_USER_VERIFICATION_REQD)).

Definition mm_answer_keyverify : MM Z :=
  let! blob := on_msg get_direct in
  let! signature := on_msg get_direct in
  let! data := on_msg get_direct in
  let! sigalg := on_msg get_cstr in
  let! s := get in
  match m_hostbased_cuser s, m_hostbased_chost s with
  | Some cuser, Some chost =>
      if negb (monitor_allowed_key s blob) then fatal
      else
        let sigalg := match sigalg with [] => None | _ => Some sigalg end in
        let! key := must (sshkey_fromb blob) in
        let userkey := m_key_blobtype s =? MM_USERKEY in
        let! valid_data :=
          (if userkey then
             let! v := monitor_valid_userblob data in do! mupd (mset_auth_method (str "publickey")) ;; ret v
           else if m_key_blobtype s =? MM_HOSTKEY then
             let! v := monitor_valid_hostbasedblob data cuser chost in do! mupd (mset_auth_method (str "hostbased")) ;; ret v
           else ret false) in
        if negb valid_data then fatal
        else if negb (os_fingerprint OS key) then fatal
        else
          let '(r, sig_details) := os_verify OS key signature data sigalg (m_compat s) in
          let! r := (match sig_details with
                     | Some (_, sk_flags) =>
                         if (r =? 0) && userkey then
                           let! opts := defined (m_key_opts s) in
                           ret (if sk_requirements (m_options s) opts sk_flags then r else SSH_ERR_SIGNATURE_INVALID)
                         else ret r
                     | None => ret r
                     end) in
          do! record_key (r =? 0) key ;;
          do! (if userkey && (r =? 0) then
                 let! opts := defined (m_key_opts s) in
                 let! x := must (auth_activate_options (os_ok OS) (os_ok OS) (m_auth_opts s) opts) in mupd (mset_auth_opts (fst x))
               else ret tt) ;;
          do! monitor_reset_key_state ;;
          do! reply MONITOR_REQ_KEYVERIFY
                ([sshbuf_put_u32 np (zbit (negb (r =? 0))); sshbuf_put_u8 np (match sig_details with Some _ => 1 | None => 0 end)] ++
                 match sig_details with Some (counter, sk_flags) => [sshbuf_put_u32 np counter; sshbuf_put_u8 np sk_flags] | None => [] end) ;;
          ret (zbit (r =? 0))
  | _, _ => fatal
  end.

(** ** The loop *)

(** The function of an entry, for the requests of the table. *)
Definition handler (type : Z) : MM Z :=
  if type =? MONITOR_REQ_STATE then mm_answer_state
  else if type =? MONITOR_REQ_MODULI then mm_answer_moduli
  else if type =? MONITOR_REQ_SETCOMPAT then mm_answer_setcompat
  else if type =? MONITOR_REQ_SIGN then mm_answer_sign
  else if type =? MONITOR_REQ_PWNAM then mm_answer_pwnamallow
  else if type =? MONITOR_REQ_AUTHSERV then mm_answer_authserv
  else if type =? MONITOR_REQ_AUTH2_READ_BANNER then mm_answer_auth2_read_banner
  else if type =? MONITOR_REQ_AUTHPASSWORD then mm_answer_authpassword
  else if type =? MONITOR_REQ_PAM_START then mm_answer_pam_start
  else if type =? MONITOR_REQ_PAM_ACCOUNT then mm_answer_pam_account
  else if type =? MONITOR_REQ_PAM_INIT_CTX then mm_answer_pam_init_ctx
  else if type =? MONITOR_REQ_PAM_QUERY then mm_answer_pam_query
  else if type =? MONITOR_REQ_PAM_RESPOND then mm_answer_pam_respond
  else if type =? MONITOR_REQ_PAM_FREE_CTX then mm_answer_pam_free_ctx
  else if type =? MONITOR_REQ_KEYALLOWED then mm_answer_keyallowed
  else if type =? MONITOR_REQ_KEYVERIFY then mm_answer_keyverify
  else fatal.

(** The result of the handler, the type and the flags of the entry. *)
Definition monitor_read : MM (Z * Z) :=
  do! new_msg ;;
  do! mm_request_receive ;;
  let! type := on_msg sshbuf_get_u8 in
  let! s := get in
  match find_entry (m_table s) type with
  | None => fatal
  | Some flags =>
      if negb (flagged flags MON_PERMIT) then fatal
      else
        let! r := handler type in
        do! (if flagged flags MON_ONCE then mupd (fun s => mset_table (disable_entry (m_table s) type) s) else ret tt) ;;
        ret (r, flags)
  end.

(** One turn of the loop: whether the user is authenticated. *)
Definition preauth_turn : MM bool :=
  do! mupd (fun s => mset_auth_method (str "unknown") (mset_auth_submethod None (mset_authctxt (auth2_authctxt_reset_info (m_authctxt s)) s))) ;;
  let! rf := monitor_read in
  let '(r, flags) := rf in
  do! (if flagged flags MON_AUTH then mupd (mset_auth_attempted true) else ret tt) ;;
  let! s := get in
  let! ap := (match so_auth_methods (m_options s) with
              | [] => ret (r =? 1, false)
              | _ =>
                  if r =? 1 then
                    let! lc := must (auth2_update_methods_lists (a_auth_methods (m_authctxt s)) (m_auth_method s) (m_auth_submethod s)) in
                    do! on_authctxt (set_auth_methods (fst lc)) ;;
                    ret (snd lc, negb (snd lc))
                  else ret (false, false)
              end) in
  let '(authenticated, partial) := ap in
  let! authenticated :=
    (if authenticated : bool then
       if negb (flagged flags MON_AUTHDECIDE) then fatal
       else
         let! s := get in
         let! pw := defined (a_pw (m_authctxt s)) in
         let! allowed := (if pw_uid pw =? 0 then must (auth_root_allowed (m_options s) (m_auth_opts s) (m_auth_method s)) else ret true) in
         if allowed && use_pam (m_options s) then
           do! new_msg ;;
           do! mm_request_receive_expect MONITOR_REQ_PAM_ACCOUNT ;;
           let! r := mm_answer_pam_account in ret (negb (r =? 0))
         else ret allowed
     else ret false) in
  do! (if flagged flags (Z.lor MON_AUTHDECIDE MON_ALOG) then
         let! s := get in
         do! auth_log authenticated partial (m_auth_method s) (m_auth_submethod s) ;;
         do! (if negb partial && negb authenticated then on_authctxt (fun a => set_failures (a_failures a + 1) a) else ret tt) ;;
         if authenticated || partial then
           let! s := get in
           let! a := must (auth2_update_session_info (os_format_text OS) (m_auth_method s) (m_auth_submethod s) (m_authctxt s)) in
           mupd (mset_authctxt a)
         else ret tt
       else ret tt) ;;
  let! s := get in
  if max_authtries (m_options s) <? a_failures (m_authctxt s) then fatal else ret authenticated.

(** [while (!authenticated)]: each turn takes a request off the pipe. *)
Fixpoint preauth_loop (fuel : nat) : MM unit :=
  match fuel with
  | O => crash
  | S fuel => let! authenticated := preauth_turn in if authenticated : bool then ret tt else preauth_loop fuel
  end.

Definition monitor_child_preauth : MM unit :=
  do! mupd (fun s => mset_authctxt authctxt_zero (mset_table mon_dispatch_proto20 s)) ;;
  do! permit MONITOR_REQ_STATE true ;;
  do! permit MONITOR_REQ_MODULI true ;;
  do! permit MONITOR_REQ_SETCOMPAT true ;;
  do! permit MONITOR_REQ_SIGN true ;;
  let! s := get in
  do! preauth_loop (S (length (m_in s))) ;;
  let! s := get in
  if negb (a_valid (m_authctxt s)) then fatal
  else if streq (m_auth_method s) (str "unknown") then fatal
  else
    do! mupd (mset_auth_attempted false) ;;
    do! new_msg ;;
    do! mm_request_receive_expect MONITOR_REQ_KEYEXPORT ;;
    if bool_decide (os_child_status OS = Some 0) then ret tt else fatal.

(** [monitor_child_postauth] up to its loop. *)
Definition postauth_permits : MM unit :=
  do! mupd (mset_table mon_dispatch_postauth20) ;;
  do! permit MONITOR_REQ_STATE true ;;
  do! permit MONITOR_REQ_MODULI true ;;
  do! permit MONITOR_REQ_SIGN true ;;
  do! permit MONITOR_REQ_TERM true ;;
  let! s := get in
  let! opts := defined (m_auth_opts s) in
  if negb (permit_pty_flag opts =? 0) then do! permit MONITOR_REQ_PTY true ;; permit MONITOR_REQ_PTYCLEANUP true else ret tt.
End Monitor.
