(* ===== verification/MonitorInv.v ===== *)
(** * The monitor: what a run leaves as it was *)
From S2P Require Import Prelude Sshbuf SshbufGetput SshbufSpec CString SshbufMisc Words Chacha ChachaPoly Cipher Hmac Mac PacketState Packet PacketBuf PacketAuth Codec Match SshkeyNames KexNames Kex Compat KexGen Misc Addr AuthOptions Auth AuthMethods Monitor.

Section Core.
Context {K W : Type} `{SSHKEY K} (OS : @mon_os K W).
Implicit Types s : @mon K W.

(** The variables that authentication depends on. *)
Record core := mk_core {
  c_options : server_options; c_valid : bool; c_attempt : Z; c_user : option (list Z); c_pw : option passwd; c_methods : list (list Z);
  c_prev : list K; c_blob : option (list Z); c_type : Z; c_opts : option sshauthopt; c_cuser : option (list Z); c_chost : option (list Z);
  c_sid : list Z; c_ctxt : option Z; c_authok : option Z; c_method : list Z; c_sub : option (list Z) }.
Definition core_of s : core :=
  let a := m_authctxt s in
  mk_core (m_options s) (a_valid a) (a_attempt a) (a_user a) (a_pw a) (a_auth_methods a) (a_prev_keys a)
    (m_key_blob s) (m_key_blobtype s) (m_key_opts s) (m_hostbased_cuser s) (m_hostbased_chost s)
    (m_session_id2 s) (m_pam_ctxt s) (m_pam_authok s) (m_auth_method s) (m_auth_submethod s).

Definition keeps_core {A} (m : MM A) : Prop := forall s a s', m s = (Ok a, s') -> core_of s' = core_of s.

Lemma keeps_core_bind {A B} (m : @MM K W A) (k : A -> MM B) : keeps_core m -> (forall a, keeps_core (k a)) -> keeps_core (bind m k).
Proof. intros Hm Hk s b s' Q. inv_step Q a s1 E. rewrite (Hk a _ _ _ Q). by apply (Hm _ a). Qed.
Lemma keeps_core_same {A} (m : @MM K W A) : (forall s a s', m s = (Ok a, s') -> s' = s) -> keeps_core m.
Proof. intros Hm s a s' Q. by rewrite (Hm _ _ _ Q). Qed.
Lemma keeps_core_upd f : (forall s, core_of (f s) = core_of s) -> keeps_core (mupd f).
Proof. intros Hf s a s' [= _ <-]. apply Hf. Qed.
Lemma keeps_core_ret {A} (a : A) : keeps_core (ret a).
Proof. by intros s x s' [= _ <-]. Qed.
Lemma keeps_core_fail {A} e : keeps_core (fail e : MM A).
Proof. by intros s x s'. Qed.
Lemma keeps_core_get : keeps_core get.
Proof. by intros s x s' [= _ <-]. Qed.

Lemma must_inv {A} (r : res A) s a s' : must r s = (Ok a, s') -> r = Ok a /\ s' = s.
Proof. destruct r; [|done..]. by intros [= -> <-]. Qed.
Lemma defined_inv_m {A} (o : option A) s a s' : (defined o : MM A) s = (Ok a, s') -> o = Some a /\ s' = s.
Proof. destruct o; [|done]. by intros [= -> <-]. Qed.
Lemma on_msg_inv {A} (m : ST sshbuf A) s a s' : on_msg m s = (Ok a, s') -> exists b, m (m_msg s) = (Ok a, b) /\ s' = mset_msg b s.
Proof. unfold on_msg. destruct (m (m_msg s)) as [r b] eqn:E. intros [-> ->]%must_inv. by exists b. Qed.
Lemma ask_inv {A} (f : W -> A * W) s a s' : ask f s = (Ok a, s') -> exists w, f (m_world s) = (a, w) /\ s' = mset_world w s.
Proof. unfold ask. destruct (f (m_world s)) as [b w] eqn:E. intros [= -> <-]. by exists w. Qed.
Lemma mupd_inv f s (u : unit) s' : mupd f s = (Ok u, s') -> s' = f s.
Proof. by intros [= _ <-]. Qed.

Lemma keeps_core_must {A} (r : res A) : keeps_core (must r).
Proof. by intros s a s' [_ ->]%must_inv. Qed.
Lemma keeps_core_defined {A} (o : option A) : keeps_core (defined o).
Proof. by intros s a s' [_ ->]%defined_inv_m. Qed.
Lemma keeps_core_on_msg {A} (m : ST sshbuf A) : keeps_core (on_msg m).
Proof. by intros s a s' (b & _ & ->)%on_msg_inv. Qed.
Lemma keeps_core_ask {A} (f : W -> A * W) : keeps_core (ask f).
Proof. by intros s a s' (w & _ & ->)%ask_inv. Qed.
Lemma keeps_core_permit t b : keeps_core (permit t b).
Proof. by apply keeps_core_upd. Qed.
Lemma keeps_core_log a b c d : keeps_core (auth_log a b c d).
Proof. by apply keeps_core_upd. Qed.
Lemma keeps_core_send t m : keeps_core (mm_request_send t m).
Proof.
  apply keeps_core_bind; [apply keeps_core_must|]. intros n. destruct (_ <=? _); [apply keeps_core_fail|].
  apply keeps_core_bind; [apply keeps_core_must|]. intros v. by apply keeps_core_upd.
Qed.
Lemma keeps_core_answer r : keeps_core (answer r).
Proof. apply keeps_core_bind; [apply keeps_core_get|]. intros s. apply keeps_core_send. Qed.
Lemma keeps_core_reply r l : keeps_core (reply OS r l).
Proof. apply keeps_core_bind; [apply keeps_core_on_msg|]. intros _. apply keeps_core_bind; [apply keeps_core_on_msg|]. intros _. apply keeps_core_answer. Qed.
Lemma keeps_core_pipe n : keeps_core (read_pipe n).
Proof. intros s a s' Q. unfold read_pipe in Q. rewrite bind_get in Q. destruct (_ <? _); [done|]. by injection Q as _ <-. Qed.
Lemma keeps_core_new : keeps_core (new_msg OS).
Proof. unfold new_msg. destruct (sshbuf_new _ _); [by apply keeps_core_upd|apply keeps_core_fail]. Qed.

End Core.

Ltac keep_core :=
  repeat lazymatch goal with
  | |- keeps_core (bind _ _) => apply keeps_core_bind; [|intros]
  | |- keeps_core (ret _) => apply keeps_core_ret
  | |- keeps_core (fail _) => apply keeps_core_fail
  | |- keeps_core fatal => apply keeps_core_fail
  | |- keeps_core get => apply keeps_core_get
  | |- keeps_core (must _) => apply keeps_core_must
  | |- keeps_core (defined _) => apply keeps_core_defined
  | |- keeps_core (on_msg _) => apply keeps_core_on_msg
  | |- keeps_core (ask _) => apply keeps_core_ask
  | |- keeps_core (permit _ _) => apply keeps_core_permit
  | |- keeps_core (auth_log _ _ _ _) => apply keeps_core_log
  | |- keeps_core (mm_request_send _ _) => apply keeps_core_send
  | |- keeps_core (answer _) => apply keeps_core_answer
  | |- keeps_core (reply _ _ _) => apply keeps_core_reply
  | |- keeps_core (read_pipe _) => apply keeps_core_pipe
  | |- keeps_core (new_msg _) => apply keeps_core_new
  | |- keeps_core (mupd _) => apply keeps_core_upd; intros; cbv beta; first [reflexivity | case_match; reflexivity]
  | |- keeps_core (on_authctxt _) => unfold on_authctxt; apply keeps_core_upd; intros; reflexivity
  | |- keeps_core (match ?x with _ => _ end) => destruct x
  | |- keeps_core (let '(_, _) := ?x in _) => destruct x
  end.

Section Quiet.
Context {K W : Type} `{SSHKEY K} (OS : @mon_os K W).

Lemma keeps_core_receive : keeps_core (mm_request_receive OS).
Proof. unfold mm_request_receive. keep_core. Qed.
Lemma keeps_core_expect t : keeps_core (mm_request_receive_expect OS t).
Proof. unfold mm_request_receive_expect. apply keeps_core_bind; [apply keeps_core_receive|intros]. keep_core. Qed.
Lemma keeps_core_state : keeps_core (mm_answer_state OS).
Proof. unfold mm_answer_state. keep_core. Qed.
Lemma keeps_core_moduli : keeps_core (mm_answer_moduli OS).
Proof. unfold mm_answer_moduli. keep_core. Qed.
Lemma keeps_core_setcompat : keeps_core (@mm_answer_setcompat K W).
Proof. unfold mm_answer_setcompat. keep_core. Qed.
Lemma keeps_core_banner : keeps_core (mm_answer_auth2_read_banner OS).
Proof. unfold mm_answer_auth2_read_banner. keep_core. Qed.
Lemma keeps_core_authserv : keeps_core (mm_answer_authserv OS).
Proof. unfold mm_answer_authserv. keep_core. Qed.
Lemma keeps_core_pam_start : keeps_core (mm_answer_pam_start OS).
Proof. unfold mm_answer_pam_start. keep_core. Qed.
Lemma keeps_core_pam_account : keeps_core (mm_answer_pam_account OS).
Proof. unfold mm_answer_pam_account. keep_core. Qed.
Lemma keeps_core_proof k p : keeps_core (hostkey_proof OS k p).
Proof. unfold hostkey_proof. keep_core. Qed.
Lemma keeps_core_restrict : keeps_core (restrict_session OS).
Proof. unfold restrict_session. keep_core. Qed.
Lemma keeps_core_userblob d : keeps_core (monitor_valid_userblob OS d).
Proof. unfold monitor_valid_userblob, userstyle, in_data. keep_core. Qed.
Lemma keeps_core_hostblob d u h : keeps_core (monitor_valid_hostbasedblob OS d u h).
Proof. unfold monitor_valid_hostbasedblob, userstyle, in_data. keep_core. Qed.
Lemma keeps_core_password p : keeps_core (auth_password OS p).
Proof. unfold auth_password. keep_core; try apply keeps_core_restrict. Qed.
End Quiet.
