(* ===== verification/MonitorAuth.v ===== *)
(** * The monitor: nobody is authenticated without proof

    An invariant of the loop of [monitor_child_preauth], for a child that sends
    anything: each success of a method goes with what proves it, a key that was
    allowed and is not used twice, with a signature over this session and this
    user, or a password, or the word of PAM. *)
From S2P Require Import Prelude Sshbuf SshbufGetput SshbufSpec CString SshbufMisc Words Chacha ChachaPoly Cipher Hmac Mac PacketState Packet PacketBuf PacketAuth Codec Match SshkeyNames KexNames Kex Compat KexGen Misc Addr AuthOptions Auth AuthMethods Monitor MonitorInv.

Ltac kstep Q a s1 Hc :=
  let E := fresh "E" in
  inv_step Q a s1 E;
  match type of E with
  | ?m ?s = (Ok ?x, ?s2) =>
      assert (core_of s2 = core_of s) as Hc by
        (apply (fun Hm : keeps_core m => Hm s x s2 E);
         keep_core; first [apply keeps_core_proof | apply keeps_core_restrict | apply keeps_core_password | apply keeps_core_receive])
  end.

Section Proofs.
Context {K W : Type} `{SSHKEY K} (OS : @mon_os K W).
Implicit Types s : @mon K W.
Hypothesis np_pos : 0 < os_np OS.

(** ** Proofs *)

Inductive proof :=
| ByPassword (password : list Z)
| ByPam (ctx : Z)
| ByUserKey (allowed key copy : K) (signature data : list Z) (alg : option (list Z)) (compat : Z)
| ByHostKey (allowed key copy : K) (signature data : list Z) (alg : option (list Z)) (compat : Z).
Record success := mk_success { su_method : list Z; su_sub : option (list Z); su_proof : proof }.
Definition attempt_of (x : success) : list Z * option (list Z) := (su_method x, su_sub x).

(** The user is known and may log in. *)
Definition known_user (user : list Z) (pw : passwd) (o : server_options) : Prop :=
  exists w o0 o1 lists b, fst (os_getpwnamallow OS user o0 w) = Ok (Some pw, o1) /\ auth2_setup_methods_lists (authmethod_cfgs true o1) o1 = (o, lists, b).

Definition password_accepted (o : server_options) (pw : passwd) (password : list Z) : Prop :=
  password_authentication o = true /\ zlen password <= MAX_PASSWORD_LEN /\ (password = [] -> permit_empty_passwd o = true) /\ (pw_uid pw = 0 -> permit_root_login o = PERMIT_YES) /\
  if use_pam o then exists w, fst (os_pam_passwd OS password w) = true
  else sys_auth_passwd (os_shadow_pw OS) (os_xcrypt OS) true pw password = true.

(** PAM is content with what the user answered. *)
Definition pam_accepted (c : Z) : Prop :=
  (exists resp w, fst (os_pam_respond OS c resp w) = 0) \/
  (exists w name info, fst (os_pam_query OS c w) = (0, name, info, []) /\ os_pam_done OS c (snd (os_pam_query OS c w)) = true).

Definition user_key_accepted (o : server_options) (pw : passwd) (k : K) (opts : option sshauthopt) : Prop :=
  pubkey_authentication o = true /\ key_base_type_match (key_type k) (pubkey_accepted_algos o) = true /\
  exists attempt r w, fst (os_user_key_allowed OS pw k attempt w) = (r, opts) /\ r <> 0.
Definition host_key_accepted (o : server_options) (pw : passwd) (k : K) (cuser chost : list Z) : Prop :=
  hostbased_authentication o = true /\ key_base_type_match (key_type k) (hostbased_accepted_algos o) = true /\
  exists chost0 r w, fst (os_hostbased_key_allowed OS pw cuser chost0 k w) = (r, chost) /\ r <> 0.

(** What is signed: the session, the request and the name of the user, which
    may have a style. *)
Definition session_field (compat : Z) (sid : list Z) : list Z := if flagged compat SSH_OLD_SESSIONID then sid else enc_string sid.
Definition names (user u : list Z) : Prop := exists style, span_to 0 u = user ++ match style with Some st => [58] ++ st | None => [] end.
Definition user_request (compat : Z) (sid user data : list Z) : Prop :=
  exists u service m has_sig alg blob rest,
    data = session_field compat sid ++ [SSH2_MSG_USERAUTH_REQUEST] ++ enc_string u ++ enc_string service ++ enc_string m ++ [has_sig] ++
           enc_string alg ++ enc_string blob ++ rest /\
    names user u /\ has_sig <> 0 /\
    (span_to 0 m = str "publickey" /\ rest = [] \/
     span_to 0 m = str "publickey-hostbound-v00@openssh.com" /\
     exists hk k, rest = enc_string hk /\ sshkey_fromb hk = Ok k /\ os_hostkey_index OS k <> -1).
Definition host_request (sid user cuser chost data : list Z) : Prop :=
  exists u service m alg blob host ruser,
    data = enc_string sid ++ [SSH2_MSG_USERAUTH_REQUEST] ++ enc_string u ++ enc_string service ++ enc_string m ++
           enc_string alg ++ enc_string blob ++ enc_string host ++ enc_string ruser /\
    names user u /\ span_to 0 m = str "hostbased" /\ strip_dot (span_to 0 host) = chost /\ span_to 0 ruser = cuser.

(** A security key asserts what is required. *)
Definition details_ok (o : server_options) (opts : option sshauthopt) (details : option (Z * Z)) : Prop :=
  match details with None => True | Some (_, fl) => exists op, opts = Some op /\ sk_requirements o op fl = true end.

Definition proves (o : server_options) (user : list Z) (pw : passwd) (sid : list Z) (x : success) : Prop :=
  match su_proof x with
  | ByPassword password => (su_method x = str "password" \/ su_method x = str "none") /\ su_sub x = None /\ password_accepted o pw password
  | ByPam c => su_method x = str "keyboard-interactive" /\ su_sub x = Some (str "pam") /\ pam_accepted c
  | ByUserKey allowed key copy signature data alg compat =>
      su_method x = str "publickey" /\ su_sub x = None /\ sid <> [] /\ user_request compat sid user data /\
      exists blob opts details, sshkey_tob allowed = Ok blob /\ sshkey_fromb blob = Ok key /\ sshkey_from_private key = Ok copy /\
        user_key_accepted o pw allowed opts /\ os_verify OS key signature data alg compat = (0, details) /\ details_ok o opts details
  | ByHostKey allowed key copy signature data alg compat =>
      su_method x = str "hostbased" /\ su_sub x = None /\ sid <> [] /\
      exists blob cuser chost details, sshkey_tob allowed = Ok blob /\ sshkey_fromb blob = Ok key /\ sshkey_from_private key = Ok copy /\
        host_request sid user cuser chost data /\ host_key_accepted o pw allowed cuser chost /\ os_verify OS key signature data alg compat = (0, details)
  end.

(** The keys that were used, and no key twice. *)
Definition key_of (x : success) : option (K * K) :=
  match su_proof x with ByUserKey a _ c _ _ _ _ | ByHostKey a _ c _ _ _ _ => Some (a, c) | _ => None end.
Definition used (l : list success) : list K := omap (fun x => snd <$> key_of x) l.
Fixpoint fresh (before : list K) (l : list success) : Prop :=
  match l with
  | [] => True
  | x :: l => match key_of x with
              | None => fresh before l
              | Some (a, c) => existsb (sshkey_equal_public a) before = false /\ fresh (before ++ [c]) l
              end
  end.

(** ** The invariant *)

Record sound (succ : list success) (c : @core K) : Prop := {
  so_early : c_attempt c = 0 -> c_valid c = false /\ c_pw c = None /\ c_methods c = [];
  so_user : c_valid c = true -> exists user pw, c_user c = Some user /\ c_pw c = Some pw /\ known_user user pw (c_options c);
  so_key : forall blob, c_blob c = Some blob -> c_valid c = true /\ exists k pw, sshkey_tob k = Ok blob /\ c_pw c = Some pw /\
    existsb (sshkey_equal_public k) (c_prev c) = false /\
    (c_type c = MM_USERKEY /\ user_key_accepted (c_options c) pw k (c_opts c) \/
     c_type c = MM_HOSTKEY /\ exists cuser chost, c_cuser c = Some cuser /\ c_chost c = Some chost /\ host_key_accepted (c_options c) pw k cuser chost);
  so_pam : forall x, c_authok c = Some x -> c_ctxt c = Some x /\ pam_accepted x;
  so_proofs : Forall (fun x => (exists user pw, c_user c = Some user /\ c_pw c = Some pw /\ proves (c_options c) user pw (c_sid c) x) \/
                               exists ctx, su_proof x = ByPam ctx /\ forall o user pw sid, proves o user pw sid x) succ;
  so_used : c_prev c = used succ;
  so_fresh : fresh [] succ }.

(** The lists that are left. *)
Definition lists_ok (succ : list success) (c : @core K) : Prop :=
  exists configured, Forall2 (tracks (attempt_of <$> succ)) (split_on 44 <$> configured) (c_methods c) /\ Forall (Forall element) (split_on 44 <$> configured) /\
    forall l, l ∈ configured -> l ∈ so_auth_methods (c_options c) /\ auth2_methods_valid (authmethod_cfgs true (c_options c)) l true = true.

Lemma used_app l m : used (l ++ m) = used l ++ used m.
Proof. apply omap_app. Qed.
Lemma fresh_app before l m : fresh before (l ++ m) <-> fresh before l /\ fresh (before ++ used l) m.
Proof.
  revert before. induction l as [|x l IH]; intros before; cbn [app fresh used omap]; [rewrite app_nil_r; tauto|].
  unfold used. cbn [omap list_omap]. destruct (key_of x) as [[a c]|]; cbn [fmap option_fmap option_map snd].
  - rewrite IH, <- app_assoc. cbn [app]. unfold used. tauto.
  - rewrite IH. unfold used. tauto.
Qed.

(** ** Passwords *)

Lemma password_inv password s s' : password_authentication (m_options s) = true -> auth_password OS password s = (Ok true, s') ->
  c_valid (core_of s) = true /\ exists pw, c_pw (core_of s) = Some pw /\ password_accepted (c_options (core_of s)) pw password.
Proof.
  intros Hpa Q. unfold auth_password in Q. rewrite bind_get in Q. inv_step Q pw s1 E1. apply defined_inv_m in E1 as [Ep ->].
  destruct (Z.ltb_spec MAX_PASSWORD_LEN (zlen password)) as [|Hl]; [done|].
  set (empty := match password with [] => negb (permit_empty_passwd (m_options s)) | _ => false end) in Q.
  destruct empty eqn:Ee; [done|]. cbn [core_of c_valid c_pw c_options].
  assert (password = [] -> permit_empty_passwd (m_options s) = true) as He by (intros ->; by apply negb_false_iff).
  destruct (use_pam (m_options s)) eqn:Eu.
  - inv_step Q r s1 E1. apply ask_inv in E1 as (w & E1 & ->). injection Q as Q _. apply andb_true_iff in Q as [-> [Hv Hr]%andb_true_iff].
    split; [done|]. exists pw. split; [done|]. split; [done|]. split; [lia|]. split; [done|]. rewrite Eu. split; [|exists (m_world s); by rewrite E1].
    intros Hu. rewrite Hu in Hr. cbn in Hr. by apply negb_true_iff, negb_false_iff, Z.eqb_eq in Hr.
  - inv_step Q u s1 E1. rewrite bind_get in Q. inv_step Q u2 s2 E2. injection Q as Q _. apply andb_true_iff in Q as [Q [Hv Hr]%andb_true_iff].
    split; [done|]. exists pw. split; [done|]. split; [done|]. split; [lia|]. split; [done|]. rewrite Eu. split; [|by rewrite Hv in Q].
    intros Hu. rewrite Hu in Hr. cbn in Hr. by apply negb_true_iff, negb_false_iff, Z.eqb_eq in Hr.
Qed.

(** ** Signed data *)

Lemma in_data_takes {A} data (m : ST sshbuf A) P a s s' : takes m P -> Forall is_byte data -> in_data OS data m s = (Ok a, s') ->
  s' = s /\ exists v rest, data = v ++ rest /\ P a v rest.
Proof.
  intros Hm Hd Q. unfold in_data in Q. destruct (sshbuf_from (os_np OS) 1 data (zlen data)) as [b|] eqn:Eb; [|done].
  destruct (from_wf _ _ _ _ Eb) as (Wb & Cb & Db); [done|lia|done|]. apply must_inv in Q as [Q ->]. split; [done|].
  destruct (m b) as [r b'] eqn:Em. cbn [fst] in Q. subst r. destruct (Hm b a b' Wb ltac:(lia) Em) as (_ & _ & v & Cv & Hp). exists v, (contents b').
  by rewrite <- Cb.
Qed.

Lemma takes_get_cstr : takes (get_cstr OS) (fun x v _ => exists a, v = enc_string a /\ x = span_to 0 a).
Proof.
  eapply takes_imp; [apply takes_bind; [apply takes_cstring|intros; apply takes_ret]|]. cbv beta.
  intros x v rest (p & v1 & v2 & -> & (a & -> & ->) & -> & ->). exists a. rewrite app_nil_r. split; [done|]. unfold cstr_of. cbn [fst]. by rewrite span_to_sent.
Qed.
Lemma takes_key : takes (sshkey_froms OS) (fun k v _ => exists a, v = enc_string a /\ sshkey_fromb a = Ok k).
Proof.
  intros b k b' Wb D E. unfold sshkey_froms in E. inv_step E v s1 E1. destruct (string_view_inv _ _ _ _ Wb np_pos D E1) as (W1 & D1 & Wv & Dv & C1).
  inv_step E l s2 E2. unfold reads in E2. rewrite buf_bytes_wf in E2 by done. injection E2 as <- <-. injection E as E <-. split; [done|]. split; [done|].
  exists (enc_string (contents v)). split; [done|]. by exists (contents v).
Qed.

Lemma userstyle_inv a s n s' : userstyle a s = (Ok n, s') -> s' = s /\ exists user, a_user a = Some user /\
  n = user ++ match a_style a with Some st => [58] ++ st | None => [] end.
Proof. intros Q. unfold userstyle in Q. inv_step Q u s1 E. apply defined_inv_m in E as [-> ->]. injection Q as <- <-. split; [done|]. by exists u. Qed.

Lemma sid_ok_spec s v : sid_ok s v = true -> v = m_session_id2 s /\ m_session_id2 s <> [].
Proof. unfold sid_ok, streq. rewrite andb_true_iff, bool_decide_eq_true. intros [Hn ->]. split; [done|]. intros E. by rewrite E in Hn. Qed.

Lemma takes_sid s : takes (if flagged (m_compat s) SSH_OLD_SESSIONID then
    let! v := reads buf_bytes in do! sshbuf_consume (zlen (m_session_id2 s)) ;; ret (ztake (zlen (m_session_id2 s)) v) else get_direct)
  (fun sid v _ => v = session_field (m_compat s) sid).
Proof.
  unfold session_field. destruct (flagged _ _); [|apply takes_direct]. eapply takes_imp; [apply takes_prefix, zlen_nonneg|]. by intros a v rest [-> _].
Qed.

Lemma takes_hostkey (hostbound : bool) : takes (if hostbound then let! k := sshkey_froms OS in ret (Some k) else ret None)
  (fun o v _ => if hostbound then exists hk k, v = enc_string hk /\ sshkey_fromb hk = Ok k /\ o = Some k else v = [] /\ o = None).
Proof.
  destruct hostbound.
  - eapply takes_imp; [apply takes_bind; [apply takes_key|intros; apply takes_ret]|]. cbv beta.
    intros o v rest (k & v1 & v2 & -> & (a & -> & Hk) & -> & ->). exists a, k. by rewrite app_nil_r.
  - eapply takes_imp; [apply takes_ret|]. by intros o v rest [-> ->].
Qed.

Lemma userblob_inv data s s' : Forall is_byte data -> monitor_valid_userblob OS data s = (Ok true, s') ->
  exists user, a_user (m_authctxt s) = Some user /\ m_session_id2 s <> [] /\ user_request (m_compat s) (m_session_id2 s) user data.
Proof.
  intros Hd Q. unfold monitor_valid_userblob in Q. rewrite bind_get in Q. inv_step Q name s1 E1. apply userstyle_inv in E1 as (-> & user & Hu & Hn).
  inv_step Q r s2 E2. eapply in_data_takes in E2 as (-> & v & rest & Ed & P); [| |done].
  2:{ apply takes_bind; [apply takes_sid|intros sid]. apply takes_bind; [apply takes_u8|intros type]. apply takes_bind; [apply takes_get_cstr|intros u].
      apply takes_bind; [apply takes_skip|intros ?]. apply takes_bind; [apply takes_get_cstr|intros m]. apply takes_bind; [apply takes_u8|intros t].
      apply takes_bind; [apply takes_skip|intros ?]. apply takes_bind; [apply takes_skip|intros ?]. apply takes_bind; [apply takes_hostkey|intros hk].
      apply takes_bind; [apply takes_len|intros n]. apply takes_ret. }
  cbv beta in P.
  destruct P as (sid & ? & ? & -> & -> & type & ? & ? & -> & [-> _] & u & ? & ? & -> & (u0 & -> & ->) & [] & ? & ? & -> & (service & ->) & m & ? & ? & -> &
    (m0 & -> & ->) & t & ? & ? & -> & [-> _] & [] & ? & ? & -> & (alg & ->) & [] & ? & ? & -> & (blob & ->) & hk & ? & ? & -> & Hk & n & ? & ? & -> & [-> ->] & -> & ->).
  cbn [fst snd] in Q. rewrite !app_nil_r, <- !app_assoc in Ed.
  assert (sid_ok s sid && (type =? SSH2_MSG_USERAUTH_REQUEST) && streq name (span_to 0 u0) &&
    (streq (str "publickey") (span_to 0 m0) || streq (span_to 0 m0) (str "publickey-hostbound-v00@openssh.com")) && negb (t =? 0) && (zlen ([] ++ rest) =? 0) = true /\
    match hk with Some k => os_hostkey_index OS k <> -1 | None => True end) as [Ht Hh].
  { destruct hk as [k|]; [|by injection Q as Q _]. destruct (Z.eqb_spec (os_hostkey_index OS k) (-1)); [done|]. by injection Q as Q _. }
  rewrite !andb_true_iff, !Z.eqb_eq in Ht. destruct Ht as [[[[[Hs ->] Hname] Hm] Ht] Hr]. apply sid_ok_spec in Hs as [-> Hs].
  assert (rest = []) as -> by (destruct rest; [done|cbn [app] in Hr; rewrite zlen_cons in Hr; pose proof (zlen_nonneg rest); lia]). rewrite app_nil_r in Ed.
  exists user. split; [done|]. split; [done|]. exists u0, service, m0, t, alg, blob, x. split; [done|].
  split; [exists (a_style (m_authctxt s)); unfold streq in Hname; apply bool_decide_eq_true_1 in Hname; by rewrite <- Hname|]. split; [by apply negb_true_iff, Z.eqb_neq in Ht|].
  clear Q Hname. unfold streq in *. rewrite orb_true_iff, !bool_decide_eq_true in Hm. case_bool_decide as Hb.
  - right. split; [done|]. destruct Hk as (h0 & k & -> & Hk & ->). by exists h0, k.
  - left. destruct Hk as [-> ->]. by destruct Hm as [Hm|].
Qed.

Lemma hostblob_inv data cuser chost s s' : Forall is_byte data -> monitor_valid_hostbasedblob OS data cuser chost s = (Ok true, s') ->
  exists user, a_user (m_authctxt s) = Some user /\ m_session_id2 s <> [] /\ host_request (m_session_id2 s) user cuser chost data.
Proof.
  intros Hd Q. unfold monitor_valid_hostbasedblob in Q. rewrite bind_get in Q. inv_step Q name s1 E1. apply userstyle_inv in E1 as (-> & user & Hu & Hn).
  eapply in_data_takes in Q as (_ & v & rest & Ed & P); [| |done].
  2:{ apply takes_bind; [apply takes_direct|intros sid]. apply takes_bind; [apply takes_u8|intros type]. apply takes_bind; [apply takes_get_cstr|intros u].
      apply takes_bind; [apply takes_skip|intros ?]. apply takes_bind; [apply takes_get_cstr|intros m].
      apply takes_bind; [apply takes_skip|intros ?]. apply takes_bind; [apply takes_skip|intros ?]. apply takes_bind; [apply takes_get_cstr|intros host].
      apply takes_bind; [apply takes_get_cstr|intros ru]. apply takes_bind; [apply takes_len|intros n]. apply takes_ret. }
  cbv beta in P.
  destruct P as (sid & ? & ? & -> & -> & type & ? & ? & -> & [-> _] & u & ? & ? & -> & (u0 & -> & ->) & [] & ? & ? & -> & (service & ->) & m & ? & ? & -> &
    (m0 & -> & ->) & [] & ? & ? & -> & (alg & ->) & [] & ? & ? & -> & (blob & ->) & host & ? & ? & -> & (host0 & -> & ->) & ru & ? & ? & -> & (ru0 & -> & ->) &
    n & ? & ? & -> & [-> ->] & Ht & ->).
  symmetry in Ht. rewrite !andb_true_iff, !Z.eqb_eq in Ht. destruct Ht as [[[[[[Hs ->] Hname] Hm] Hh] Hru] Hr]. apply sid_ok_spec in Hs as [-> Hs].
  unfold streq in *. rewrite !bool_decide_eq_true in *. rewrite !app_nil_r, <- !app_assoc in Ed.
  assert (rest = []) as -> by (destruct rest; [done|cbn [app] in Hr; rewrite zlen_cons in Hr; pose proof (zlen_nonneg rest); lia]). rewrite app_nil_r in Ed.
  exists user. split; [done|]. split; [done|]. exists u0, service, m0, alg, blob, host0, ru0. split; [done|]. split_and!; try done.
  exists (a_style (m_authctxt s)). by rewrite <- Hname.
Qed.

(** ** Handlers *)

Definition with_method (m : list Z) (sub : option (list Z)) (c : @core K) : core :=
  mk_core (c_options c) (c_valid c) (c_attempt c) (c_user c) (c_pw c) (c_methods c) (c_prev c) (c_blob c) (c_type c) (c_opts c) (c_cuser c) (c_chost c)
    (c_sid c) (c_ctxt c) (c_authok c) m sub.
Definition with_sid (sid : list Z) (c : @core K) : core :=
  mk_core (c_options c) (c_valid c) (c_attempt c) (c_user c) (c_pw c) (c_methods c) (c_prev c) (c_blob c) (c_type c) (c_opts c) (c_cuser c) (c_chost c)
    sid (c_ctxt c) (c_authok c) (c_method c) (c_sub c).
Definition with_pam (ctxt authok : option Z) (c : @core K) : core :=
  mk_core (c_options c) (c_valid c) (c_attempt c) (c_user c) (c_pw c) (c_methods c) (c_prev c) (c_blob c) (c_type c) (c_opts c) (c_cuser c) (c_chost c)
    (c_sid c) ctxt authok (c_method c) (c_sub c).
Definition with_key (blob : option (list Z)) (type : Z) (opts : option sshauthopt) (cuser chost : option (list Z)) (c : @core K) : core :=
  mk_core (c_options c) (c_valid c) (c_attempt c) (c_user c) (c_pw c) (c_methods c) (c_prev c) blob type opts cuser chost
    (c_sid c) (c_ctxt c) (c_authok c) (c_method c) (c_sub c).
Definition with_prev (prev : list K) (c : @core K) : core :=
  mk_core (c_options c) (c_valid c) (c_attempt c) (c_user c) (c_pw c) (c_methods c) prev (c_blob c) (c_type c) (c_opts c) (c_cuser c) (c_chost c)
    (c_sid c) (c_ctxt c) (c_authok c) (c_method c) (c_sub c).

Lemma sign_effect s r s' : mm_answer_sign OS s = (Ok r, s') ->
  r = 0 /\ (core_of s' = core_of s \/ c_sid (core_of s) = [] /\ exists p, core_of s' = with_sid p (core_of s)).
Proof.
  intros Q. unfold mm_answer_sign in Q. rewrite bind_get in Q. destruct (negb _); [done|].
  kstep Q pk s1 C1. kstep Q p s2 C2. kstep Q alg s3 C3. kstep Q cm s4 C4. destruct (_ =? -1); [done|].
  kstep Q u5 s5 C5. inv_step Q u6 s6 E6. apply mupd_inv in E6 as ->.
  kstep Q sg s7 C7. kstep Q v8 s8 C8. kstep Q u9 s9 C9. injection Q as <- <-. split; [done|].
  rewrite C9, C8, C7. assert (core_of s5 = core_of s) as C by congruence. destruct (Z.eqb_spec (zlen (m_session_id2 s5)) 0) as [Hz|]; [|by left].
  right. rewrite <- C. split; [|by exists p]. cbn. destruct (m_session_id2 s5) as [|x l]; [done|]. rewrite zlen_cons in Hz. pose proof (zlen_nonneg l). lia.
Qed.

Definition with_user (o : server_options) (user : list Z) (pw : option passwd) (lists : option (list (list Z))) (c : @core K) : core :=
  mk_core o (if pw is Some _ then true else c_valid c) (c_attempt c + 1) (Some user) (Some (default (os_fakepw OS) pw)) (default (c_methods c) lists) (c_prev c)
    (c_blob c) (c_type c) (c_opts c) (c_cuser c) (c_chost c) (c_sid c) (c_ctxt c) (c_authok c) (c_method c) (c_sub c).

Lemma pwnam_effect s r s' : mm_answer_pwnamallow OS s = (Ok r, s') ->
  r = 0 /\ c_attempt (core_of s) = 0 /\ exists user pw w o1 o lists b,
    fst (os_getpwnamallow OS user (c_options (core_of s)) w) = Ok (pw, o1) /\ auth2_setup_methods_lists (authmethod_cfgs true o1) o1 = (o, lists, b) /\
    core_of s' = with_user o user pw lists (core_of s).
Proof.
  intros Q. unfold mm_answer_pwnamallow in Q. rewrite bind_get in Q. destruct (negb (m_compat_set s)); [done|].
  destruct (Z.eqb_spec (a_attempt (m_authctxt s)) 0) as [Ha|]; [|done]. cbn [negb] in Q.
  inv_step Q u1 s1 E1. apply mupd_inv in E1 as ->. inv_step Q user s2 E2. apply on_msg_inv in E2 as (b2 & _ & ->).
  inv_step Q u3 s3 E3. apply mupd_inv in E3 as ->. inv_step Q rr s4 E4. apply ask_inv in E4 as (w & E4 & ->).
  inv_step Q po s5 E5. apply must_inv in E5 as [-> ->]. destruct po as [pw o1]. cbn [fst snd] in *.
  inv_step Q u6 s6 E6. apply mupd_inv in E6 as ->. inv_step Q u7 s7 E7. apply on_msg_inv in E7 as (b7 & _ & ->). inv_step Q u9 s9 E9.
  match type of E9 with _ ?st = _ => set (s8 := st) in E9 end.
  assert (core_of s9 = mk_core o1 (if pw is Some _ then true else c_valid (core_of s8)) (c_attempt (core_of s8)) (Some user) (Some (default (os_fakepw OS) pw))
    (c_methods (core_of s8)) (c_prev (core_of s8)) (c_blob (core_of s8)) (c_type (core_of s8)) (c_opts (core_of s8)) (c_cuser (core_of s8)) (c_chost (core_of s8))
    (c_sid (core_of s8)) (c_ctxt (core_of s8)) (c_authok (core_of s8)) (c_method (core_of s8)) (c_sub (core_of s8))) as C9.
  { destruct pw as [pw|].
    - inv_step E9 v1 t1 F1. apply mupd_inv in F1 as ->. apply on_msg_inv in E9 as (bb & _ & ->). done.
    - inv_step E9 v1 t1 F1. apply mupd_inv in F1 as ->. inv_step E9 v2 t2 F2. apply on_msg_inv in F2 as (bb & _ & ->). apply mupd_inv in E9 as ->. done. }
  destruct (refuse_connection o1); [done|]. kstep Q u10 s10 C10. inv_step Q u11 s11 E11. apply mupd_inv in E11.
  kstep Q u12 s12 C12. kstep Q u13 s13 C13. kstep Q u14 s14 C14. kstep Q u15 s15 C15. injection Q as <- <-.
  split; [done|]. split; [done|].
  assert (m_options s10 = o1) as Eo by (change (c_options (core_of s10) = o1); by rewrite C10, C9).
  rewrite Eo in E11. destruct (auth2_setup_methods_lists (authmethod_cfgs true o1) o1) as [[o lists] b] eqn:El.
  exists user, pw, (m_world s), o1, o, lists, b.
  split; [exact (f_equal fst E4)|]. split; [done|]. rewrite C15, C14, C13, C12.
  assert (core_of s11 = (let c := core_of s10 in mk_core o (c_valid c) (c_attempt c) (c_user c) (c_pw c) (default (c_methods c) lists) (c_prev c)
    (c_blob c) (c_type c) (c_opts c) (c_cuser c) (c_chost c) (c_sid c) (c_ctxt c) (c_authok c) (c_method c) (c_sub c))) as -> by (rewrite E11; by destruct lists).
  cbv zeta. rewrite C10, C9. done.
Qed.

Lemma authpassword_effect s r s' : mm_answer_authpassword OS s = (Ok r, s') ->
  exists m, core_of s' = with_method m (c_sub (core_of s)) (core_of s) /\ (m = str "password" \/ m = str "none") /\
  (r = 0 \/ r = 1 /\ c_valid (core_of s) = true /\ exists pw password, c_pw (core_of s) = Some pw /\ password_accepted (c_options (core_of s)) pw password).
Proof.
  intros Q. unfold mm_answer_authpassword in Q. rewrite bind_get in Q. destruct (password_authentication (m_options s)) eqn:Epa; [cbn [negb] in Q|done]. kstep Q pl s1 C1. inv_step Q b s2 E2.
  assert (core_of s2 = core_of s1) as C2 by (eapply keeps_core_password; exact E2). rewrite bind_get in Q. kstep Q u3 s3 C3.
  inv_step Q u4 s4 E4. apply mupd_inv in E4 as ->. inv_step Q u5 s5 E5. apply mupd_inv in E5 as ->. injection Q as <- <-. eexists. split; [|split].
  - transitivity (with_method (if (snd pl =? 0) && (m_password_calls s2 + 1 =? 1) then str "none" else str "password") (c_sub (core_of s3)) (core_of s3)); [done|].
    by rewrite C3, C2, C1.
  - destruct (_ && _); auto.
  - destruct b; [right|by left]. split; [done|]. apply password_inv in E2 as (Hv & pw & Hpw & Hp); [|change (password_authentication (c_options (core_of s1)) = true); by rewrite C1]. rewrite C1 in *. split; [done|]. eauto.
Qed.

Abbreviation kbdint := (str "keyboard-interactive").

Lemma kbdint_effect s u s' : kbdint_pam s = (Ok u, s') -> core_of s' = with_method kbdint (Some (str "pam")) (core_of s).
Proof. intros Q. unfold kbdint_pam in Q. inv_step Q v s1 E. apply mupd_inv in E as ->. by apply mupd_inv in Q as ->. Qed.

Lemma pam_init_effect s r s' : mm_answer_pam_init_ctx OS s = (Ok r, s') ->
  r = 0 /\ c_ctxt (core_of s) = None /\ exists c, core_of s' = with_pam c None (core_of s).
Proof.
  intros Q. unfold mm_answer_pam_init_ctx in Q. rewrite bind_get in Q. destruct (negb _); [done|]. destruct (m_pam_ctxt s) eqn:Ec; [done|].
  kstep Q c s1 C1. inv_step Q u2 s2 E2. apply mupd_inv in E2 as ->. inv_step Q u3 s3 E3. apply mupd_inv in E3 as ->.
  kstep Q u4 s4 C4. kstep Q u5 s5 C5. kstep Q u6 s6 C6. kstep Q u7 s7 C7. injection Q as <- <-. split; [done|]. split; [done|]. exists c.
  rewrite C7, C6, C5, C4. transitivity (with_pam c None (core_of s1)); [done|]. by rewrite C1.
Qed.

Lemma pam_query_effect s r s' : mm_answer_pam_query OS s = (Ok r, s') ->
  r = 0 /\ exists ok, core_of s' = with_method kbdint (Some (str "pam")) (with_pam (c_ctxt (core_of s)) ok (core_of s)) /\
    forall x, ok = Some x -> c_ctxt (core_of s) = Some x /\ pam_accepted x.
Proof.
  intros Q. unfold mm_answer_pam_query in Q. inv_step Q u1 s1 E1. apply mupd_inv in E1 as ->. rewrite bind_get in Q.
  change (m_pam_ctxt (mset_pam_authok None s)) with (m_pam_ctxt s) in Q. destruct (m_pam_ctxt s) as [c|] eqn:Ec; [|done].
  inv_step Q q s2 E2. apply ask_inv in E2 as (w & E2 & ->). destruct q as [[[rq name] info] prompts]. rewrite bind_get in Q.
  match type of Q with context [if ?b then _ else _] => destruct b eqn:Eb end.
  - inv_step Q u3 s3 E3. apply mupd_inv in E3 as ->. destruct name as [name|], info as [info|]; try done. destruct (_ <? _); [done|].
    kstep Q u4 s4 C4. kstep Q u5 s5 C5. kstep Q u6 s6 C6. inv_step Q u7 s7 E7. apply kbdint_effect in E7. kstep Q v8 s8 C8. injection Q as <- <-.
    split; [done|]. exists (Some c). split; [by rewrite C8, E7, C6, C5, C4|]. intros x [= <-]. split; [done|].
    rewrite !andb_true_iff, !Z.eqb_eq in Eb. destruct Eb as [[-> Hn] Hd]. destruct prompts; [|rewrite zlen_cons in Hn; pose proof (zlen_nonneg prompts); lia].
    right. exists (m_world s), (Some name), (Some info). change (m_world (mset_pam_authok None s)) with (m_world s) in E2. by rewrite E2.
  - inv_step Q u3 s3 E3. injection E3 as _ <-. destruct name as [name|], info as [info|]; try done. destruct (_ <? _); [done|].
    kstep Q u4 s4 C4. kstep Q u5 s5 C5. kstep Q u6 s6 C6. inv_step Q u7 s7 E7. apply kbdint_effect in E7. kstep Q v8 s8 C8. injection Q as <- <-.
    split; [done|]. exists None. split; [by rewrite C8, E7, C6, C5, C4|done].
Qed.

Lemma pam_respond_effect s r s' : mm_answer_pam_respond OS s = (Ok r, s') ->
  r = 0 /\ exists ok, core_of s' = with_method kbdint (Some (str "pam")) (with_pam (c_ctxt (core_of s)) ok (core_of s)) /\
    forall x, ok = Some x -> c_ctxt (core_of s) = Some x /\ pam_accepted x.
Proof.
  intros Q. unfold mm_answer_pam_respond in Q. rewrite bind_get in Q. destruct (m_pam_ctxt s) as [c|] eqn:Ec; [|done].
  inv_step Q u1 s1 E1. apply mupd_inv in E1 as ->. kstep Q cnt s2 C2. destruct (_ <? _); [done|]. kstep Q resp s3 C3.
  inv_step Q rr s4 E4. apply ask_inv in E4 as (w & E4 & ->). kstep Q u5 s5 C5. inv_step Q u6 s6 E6. apply kbdint_effect in E6.
  assert (core_of s6 = with_method kbdint (Some (str "pam")) (with_pam (Some c) None (core_of s))) as C6.
  { rewrite E6, C5. change (core_of (mset_world w s3)) with (core_of s3). rewrite C3, C2. unfold with_method, with_pam, core_of. cbn. by rewrite Ec. }
  inv_step Q u7 s7 E7. injection Q as <- <-. split; [done|]. cbn [core_of c_ctxt]. rewrite Ec. destruct (Z.eqb_spec rr 0) as [->|].
  - apply mupd_inv in E7 as ->. exists (Some c). split.
    + transitivity (with_pam (c_ctxt (core_of s6)) (Some c) (core_of s6)); [done|]. by rewrite C6.
    + intros x [= <-]. split; [done|]. left. exists resp, (m_world s3). by rewrite E4.
  - injection E7 as _ <-. by exists None.
Qed.

Lemma pam_free_effect s r s' : mm_answer_pam_free_ctx OS s = (Ok r, s') ->
  core_of s' = with_method kbdint (Some (str "pam")) (with_pam None None (core_of s)) /\
  (r = 0 \/ r = 1 /\ exists c, c_authok (core_of s) = Some c /\ c_ctxt (core_of s) = Some c).
Proof.
  intros Q. unfold mm_answer_pam_free_ctx in Q. rewrite bind_get in Q. destruct (m_pam_ctxt s) as [c|] eqn:Ec; [|done].
  kstep Q u1 s1 C1. inv_step Q u2 s2 E2. apply mupd_inv in E2 as ->. inv_step Q u3 s3 E3. apply mupd_inv in E3 as ->.
  kstep Q u4 s4 C4. kstep Q u5 s5 C5. inv_step Q u6 s6 E6. apply kbdint_effect in E6. injection Q as <- <-. split.
  - rewrite E6, C5, C4. transitivity (with_method kbdint (Some (str "pam")) (with_pam None None (core_of s1))); [done|]. by rewrite C1.
  - case_bool_decide as Hb; [right|by left]. split; [done|]. by exists c.
Qed.

Lemma key_allowed_effect type attempt cuser chost key s allowed opts chost' s' :
  key_allowed OS type attempt cuser chost key s = (Ok (allowed, opts, chost'), s') ->
  (exists m, core_of s' = with_method m (c_sub (core_of s)) (core_of s)) /\
  (allowed <> 0 -> c_valid (core_of s) = true /\ existsb (sshkey_equal_public key) (c_prev (core_of s)) = false /\ exists pw, c_pw (core_of s) = Some pw /\
    (type = MM_USERKEY /\ user_key_accepted (c_options (core_of s)) pw key opts \/ type = MM_HOSTKEY /\ host_key_accepted (c_options (core_of s)) pw key cuser chost')).
Proof.
  intros Q. unfold key_allowed in Q. rewrite bind_get in Q. destruct (a_valid (m_authctxt s)) eqn:Ev; cbn [negb] in Q.
  2:{ injection Q as <- <- <- <-. split; [|done]. by exists (c_method (core_of s)). }
  destruct (Z.eqb_spec type MM_USERKEY) as [->|Ht].
  - inv_step Q u1 s1 E1. apply mupd_inv in E1 as ->. destruct (pubkey_authentication _) eqn:Ep; cbn [negb] in Q; [|by injection Q as <- <- <- <-; split; [exists (str "publickey")|]].
    destruct (auth2_key_already_used _ _) eqn:Eu; [by injection Q as <- <- <- <-; split; [exists (str "publickey")|]|].
    destruct (key_base_type_match _ _) eqn:Et; cbn [negb] in Q; [|by injection Q as <- <- <- <-; split; [exists (str "publickey")|]].
    inv_step Q pw s2 E2. apply defined_inv_m in E2 as [Ew ->]. inv_step Q r s3 E3. apply ask_inv in E3 as (w & E3 & ->). injection Q as <- <- <- <-.
    split; [by exists (str "publickey")|]. intros Hr. split; [done|]. split; [done|]. exists pw. split; [done|]. left.
    split; [done|]. split; [done|]. split; [done|]. exists attempt, (fst r), (m_world s). split; [|done]. destruct r. by apply (f_equal fst) in E3.
  - destruct (Z.eqb_spec type MM_HOSTKEY) as [->|Hh]; [|done].
    inv_step Q u1 s1 E1. apply mupd_inv in E1 as ->. destruct (hostbased_authentication _) eqn:Ep; cbn [negb] in Q; [|by injection Q as <- <- <- <-; split; [exists (str "hostbased")|]].
    destruct (auth2_key_already_used _ _) eqn:Eu; [by injection Q as <- <- <- <-; split; [exists (str "hostbased")|]|].
    destruct (key_base_type_match _ _) eqn:Et; cbn [negb] in Q; [|by injection Q as <- <- <- <-; split; [exists (str "hostbased")|]].
    inv_step Q pw s2 E2. apply defined_inv_m in E2 as [Ew ->]. inv_step Q r s3 E3. apply ask_inv in E3 as (w & E3 & ->).
    inv_step Q u4 s4 E4. apply mupd_inv in E4 as ->. injection Q as <- <- <- <-.
    split; [by exists (str "hostbased")|]. intros Hr. split; [done|]. split; [done|]. exists pw. split; [done|]. right.
    split; [done|]. split; [done|]. split; [done|]. exists chost, (fst r), (m_world s). split; [|done]. destruct r. by apply (f_equal fst) in E3.
Qed.

Lemma record_key_effect b key s u s' : record_key b key s = (Ok u, s') ->
  exists copy, sshkey_from_private key = Ok copy /\
    core_of s' = with_prev (if b : bool then c_prev (core_of s) ++ [copy] else c_prev (core_of s)) (core_of s).
Proof.
  intros Q. unfold record_key in Q. rewrite bind_get in Q. inv_step Q a s1 E1. apply must_inv in E1 as [E1 ->]. apply mupd_inv in Q as ->.
  unfold auth2_record_key in E1. destruct (sshkey_from_private key) as [copy|?|]; [|done..]. exists copy. split; [done|]. destruct b; cbn [negb] in E1.
  - destruct (_ <=? _); [done|]. by injection E1 as <-.
  - by injection E1 as <-.
Qed.

Lemma reset_effect s u s' : monitor_reset_key_state s = (Ok u, s') -> core_of s' = with_key None MM_NOKEY None None None (core_of s).
Proof. by intros ->%mupd_inv. Qed.

Lemma keyallowed_effect s r s' : mm_answer_keyallowed OS s = (Ok r, s') ->
  r = 0 /\ exists m, core_of s' = with_key None MM_NOKEY None None None (with_method m (c_sub (core_of s)) (core_of s)) \/
    exists key blob type opts cuser chost pw,
      core_of s' = with_key (Some blob) type opts (Some cuser) (Some chost) (with_method m (c_sub (core_of s)) (core_of s)) /\
      sshkey_tob key = Ok blob /\ c_valid (core_of s) = true /\ existsb (sshkey_equal_public key) (c_prev (core_of s)) = false /\ c_pw (core_of s) = Some pw /\
      (type = MM_USERKEY /\ user_key_accepted (c_options (core_of s)) pw key opts \/ type = MM_HOSTKEY /\ host_key_accepted (c_options (core_of s)) pw key cuser chost).
Proof.
  intros Q. unfold mm_answer_keyallowed in Q. kstep Q type s1 C1. kstep Q cuser s2 C2. kstep Q chost s3 C3. kstep Q key s4 C4. kstep Q attempt s5 C5.
  assert (core_of s5 = core_of s) as C by congruence. clear C1 C2 C3 C4 C5. inv_step Q x s6 E6. destruct x as [[allowed opts] chost'].
  apply key_allowed_effect in E6 as [(m & C6) He]. rewrite C in C6, He. inv_step Q u7 s7 E7. apply record_key_effect in E7 as (copy & _ & C7).
  inv_step Q v8 s8 E8. apply reset_effect in E8.
  assert (core_of s8 = with_key None MM_NOKEY None None None (with_method m (c_sub (core_of s)) (core_of s))) as C8 by (by rewrite E8, C7, C6).
  inv_step Q u9 s9 E9. kstep Q u10 s10 C10. injection Q as <- <-. split; [done|]. exists m. rewrite C10. destruct (Z.eqb_spec allowed 0) as [Hz|Hz]; cbn [negb] in E9.
  - left. rewrite bind_get in E9. apply mupd_inv in E9 as ->. by rewrite <- C8.
  - right. destruct (He Hz) as (Hv & Hu & pw & Hpw & Hk). inv_step E9 blob s11 E11. apply must_inv in E11 as [Hb ->]. apply mupd_inv in E9 as ->.
    exists key, blob, type, opts, cuser, chost', pw. split_and!; try done.
    transitivity (with_key (Some blob) type opts (Some cuser) (Some chost') (core_of s8)); [done|]. by rewrite C8.
Qed.

Lemma msg_direct s a s' : sshbuf_wf (m_msg s) -> 0 < sb_cd (m_msg s) -> on_msg get_direct s = (Ok a, s') ->
  core_of s' = core_of s /\ m_compat s' = m_compat s /\ sshbuf_wf (m_msg s') /\ 0 < sb_cd (m_msg s') /\ Forall is_byte a.
Proof.
  intros Wm Dm (b & E & ->)%on_msg_inv. destruct (takes_direct _ _ _ Wm Dm E) as (W1 & D1 & v & C1 & Hv). rewrite Hv in C1.
  split_and!; [done|done|done|cbn; lia|]. pose proof (contents_bytes _ Wm) as B. rewrite C1 in B. apply Forall_app in B as [B _].
  by apply Forall_app in B as [_ B].
Qed.

Lemma allowed_key_spec s blob : monitor_allowed_key s blob = true -> c_blob (core_of s) = Some blob.
Proof. unfold monitor_allowed_key, streq. cbn. destruct (m_key_blob s); [|done]. by intros ->%bool_decide_eq_true_1. Qed.

(** What the signature is checked against. *)
Definition verified (c : @core K) (compat : Z) (m : list Z) (key : K) (signature data : list Z) (alg : option (list Z)) : Prop :=
  c_sid c <> [] /\ exists user cuser chost details, c_user c = Some user /\ c_cuser c = Some cuser /\ c_chost c = Some chost /\
    os_verify OS key signature data alg compat = (0, details) /\
    (c_type c = MM_USERKEY /\ m = str "publickey" /\ user_request compat (c_sid c) user data /\ details_ok (c_options c) (c_opts c) details \/
     c_type c = MM_HOSTKEY /\ m = str "hostbased" /\ host_request (c_sid c) user cuser chost data).

Lemma valid_data_effect cuser chost data s valid s1 : Forall is_byte data -> c_cuser (core_of s) = Some cuser -> c_chost (core_of s) = Some chost ->
  (if m_key_blobtype s =? MM_USERKEY then let! v := monitor_valid_userblob OS data in do! mupd (mset_auth_method (str "publickey")) ;; ret v
   else if m_key_blobtype s =? MM_HOSTKEY then let! v := monitor_valid_hostbasedblob OS data cuser chost in do! mupd (mset_auth_method (str "hostbased")) ;; ret v
   else ret false) s = (Ok valid, s1) -> valid = true ->
  exists m, core_of s1 = with_method m (c_sub (core_of s)) (core_of s) /\ c_sid (core_of s) <> [] /\ exists user, c_user (core_of s) = Some user /\
    (c_type (core_of s) = MM_USERKEY /\ m = str "publickey" /\ user_request (m_compat s) (c_sid (core_of s)) user data \/
     c_type (core_of s) = MM_HOSTKEY /\ m = str "hostbased" /\ host_request (c_sid (core_of s)) user cuser chost data).
Proof.
  intros Hd Hu Hh Q ->. destruct (Z.eqb_spec (m_key_blobtype s) MM_USERKEY) as [Et|_].
  - inv_step Q v s2 E2. pose proof (keeps_core_userblob OS _ _ _ _ E2) as C2. inv_step Q u3 s3 E3. apply mupd_inv in E3 as ->. injection Q as -> <-.
    apply userblob_inv in E2 as (user & Ha & Hn & Hr); [|done]. exists (str "publickey"). split; [|split; [done|exists user; split; [done|by left]]].
    transitivity (with_method (str "publickey") (c_sub (core_of s2)) (core_of s2)); [done|]. by rewrite C2.
  - destruct (Z.eqb_spec (m_key_blobtype s) MM_HOSTKEY) as [Et|_]; [|done].
    inv_step Q v s2 E2. pose proof (keeps_core_hostblob OS _ _ _ _ _ _ E2) as C2. inv_step Q u3 s3 E3. apply mupd_inv in E3 as ->. injection Q as -> <-.
    apply hostblob_inv in E2 as (user & Ha & Hn & Hr); [|done]. exists (str "hostbased"). split; [|split; [done|exists user; split; [done|by right]]].
    transitivity (with_method (str "hostbased") (c_sub (core_of s2)) (core_of s2)); [done|]. by rewrite C2.
Qed.

Lemma keyverify_effect s r s' : sshbuf_wf (m_msg s) -> 0 < sb_cd (m_msg s) -> mm_answer_keyverify OS s = (Ok r, s') ->
  exists m blob key copy, c_blob (core_of s) = Some blob /\ sshkey_fromb blob = Ok key /\ sshkey_from_private key = Ok copy /\
    core_of s' = with_key None MM_NOKEY None None None (with_method m (c_sub (core_of s))
      (with_prev (if r =? 1 then c_prev (core_of s) ++ [copy] else c_prev (core_of s)) (core_of s))) /\
    (r = 0 \/ r = 1 /\ exists signature data alg, verified (core_of s) (m_compat s) m key signature data alg).
Proof.
  intros Wm Dm Q. unfold mm_answer_keyverify in Q. inv_step Q blob s1 E1. apply msg_direct in E1 as (C1 & P1 & W1 & D1 & _); [|done..].
  inv_step Q signature s2 E2. apply msg_direct in E2 as (C2 & P2 & W2 & D2 & _); [|done..].
  inv_step Q data s3 E3. apply msg_direct in E3 as (C3 & P3 & W3 & D3 & Hd); [|done..].
  inv_step Q alg s4 E4. apply on_msg_inv in E4 as (b4 & _ & E4). assert (core_of s4 = core_of s) as C4 by (rewrite E4, <- C1, <- C2, <- C3; done).
  assert (m_compat s4 = m_compat s) as P4 by (rewrite E4, <- P1, <- P2, <- P3; done). clear C1 C2 C3 P1 P2 P3 E4. rewrite bind_get in Q.
  destruct (m_hostbased_cuser s4) as [cuser|] eqn:Ecu; [|done]. destruct (m_hostbased_chost s4) as [chost|] eqn:Ech; [|done].
  destruct (monitor_allowed_key s4 blob) eqn:Eb; [|done]. cbn [negb] in Q. apply allowed_key_spec in Eb. inv_step Q key s5 E5. apply must_inv in E5 as [Ek ->].
  inv_step Q valid s6 E6. destruct valid; [|done]. apply valid_data_effect in E6 as (m & C6 & Hsid & user & Hu & Hreq); [|done..].
  cbn [negb] in Q. destruct (os_fingerprint OS key); [|done]. cbn [negb] in Q. set (sigalg := match alg with [] => None | _ => Some alg end) in Q.
  destruct (os_verify OS key signature data sigalg (m_compat s4)) as [r0 details] eqn:Ev. inv_step Q r1 s7 E7.
  assert (core_of s7 = core_of s6 /\ (r1 = 0 -> r0 = 0 /\ (m_key_blobtype s4 = MM_USERKEY -> details_ok (m_options s4) (m_key_opts s4) details))) as [C7 Hr1].
  { destruct details as [[cnt fl]|]; [|by injection E7 as <- <-]. destruct ((r0 =? 0) && (m_key_blobtype s4 =? MM_USERKEY)) eqn:Er.
    - apply andb_true_iff in Er as [Er _]. apply Z.eqb_eq in Er as ->. inv_step E7 opts s8 E8. apply defined_inv_m in E8 as [Eo ->]. injection E7 as <- <-.
      split; [done|]. intros Hz. split; [done|]. intros _. exists opts. split; [done|]. by destruct (sk_requirements _ _ _).
    - injection E7 as <- <-. split; [done|]. intros ->. split; [done|]. intros Ht. by rewrite Ht in Er. }
  inv_step Q v8 s8 E8. apply record_key_effect in E8 as (copy & Ec & C8). kstep Q u9 s9 C9.
  inv_step Q u10 s10 E10. apply reset_effect in E10. kstep Q u11 s11 C11. injection Q as <- <-.
  exists m, blob, key, copy. rewrite C4 in *. split_and!; [done..| |].
  - rewrite C11, E10, C9, C8, C7, C6. destruct (Z.eqb_spec r1 0); done.
  - destruct (Z.eqb_spec r1 0) as [->|]; [right|by left]. split; [done|]. exists signature, data, sigalg. split; [done|]. destruct (Hr1 eq_refl) as [-> Hdet].
    exists user, cuser, chost, details. split; [done|]. rewrite <- C4. cbn [core_of c_cuser c_chost c_type c_options c_opts c_sid]. split; [done|]. split; [done|].
    rewrite <- P4. split; [done|]. rewrite <- C4 in Hreq. destruct Hreq as [(Ht & -> & Hq)|(Ht & -> & Hq)]; [left|right]; split_and!; auto.
Qed.
End Proofs.
