(* ===== verification/MonitorProps.v ===== *)
(** * The monitor: the loop before authentication

    Each handler keeps the invariant of [MonitorAuth], a turn of the loop adds a
    success only with its proof, and the loop ends when the methods that
    succeeded are enough. *)
From S2P Require Import Prelude Sshbuf SshbufGetput SshbufSpec CString SshbufMisc Words Chacha ChachaPoly Cipher Hmac Mac PacketState Packet PacketBuf PacketAuth Codec Match SshkeyNames KexNames Kex Compat KexGen Misc Addr AuthOptions Auth AuthMethods Monitor MonitorInv MonitorAuth.

Section Loop.
Context {K W : Type} `{SSHKEY K} (OS : @mon_os K W).
Implicit Types (s : @mon K W) (succ : list (@success K)) (c : @core K).
Hypothesis np_pos : 0 < os_np OS.

(** ** The invariant is kept *)

Lemma sound_method succ c m sub : sound OS succ c -> sound OS succ (with_method m sub c).
Proof. by intros []; constructor. Qed.
Lemma sound_sid succ c p : c_sid c = [] -> sound OS succ c -> sound OS succ (with_sid p c).
Proof.
  intros Hs []; constructor; try done. eapply Forall_impl; [eassumption|]. intros x [(user & pw & Hu & Hp & Hx)|]; [left|by right].
  exists user, pw. split; [done|]. split; [done|]. cbn. unfold proves in *. rewrite Hs in Hx. destruct (su_proof x); [done|done|..]; by destruct Hx as (_ & _ & [] & _).
Qed.
Lemma sound_pam succ c ctxt ok : (forall x, ok = Some x -> ctxt = Some x /\ pam_accepted OS x) -> sound OS succ c -> sound OS succ (with_pam ctxt ok c).
Proof. by intros Hp []; constructor. Qed.
Lemma sound_no_key succ c : sound OS succ c -> sound OS succ (with_key None MM_NOKEY None None None c).
Proof. by intros []; constructor. Qed.
Lemma sound_key succ c k blob type opts cuser chost pw : sound OS succ c -> sshkey_tob k = Ok blob -> c_valid c = true ->
  existsb (sshkey_equal_public k) (c_prev c) = false -> c_pw c = Some pw ->
  (type = MM_USERKEY /\ user_key_accepted OS (c_options c) pw k opts \/ type = MM_HOSTKEY /\ host_key_accepted OS (c_options c) pw k cuser chost) ->
  sound OS succ (with_key (Some blob) type opts (Some cuser) (Some chost) c).
Proof.
  intros [] Hb Hv Hu Hp Hk; constructor; try done. cbn. intros b [= <-]. split; [done|]. exists k, pw. split_and!; try done.
  destruct Hk as [?|[? ?]]; [by left|right]. split; [done|]. by exists cuser, chost.
Qed.
Lemma sound_user succ c o user pw lists w o1 b : sound OS succ c -> c_attempt c = 0 -> fst (os_getpwnamallow OS user (c_options c) w) = Ok (pw, o1) ->
  auth2_setup_methods_lists (authmethod_cfgs true o1) o1 = (o, lists, b) -> sound OS succ (with_user OS o user pw lists c).
Proof.
  intros [Se Su Sk Sp Sf Sd Sn] Ha Hg Hl. destruct (Se Ha) as (Hv & Hp & Hm). constructor; try done; cbn [with_user c_attempt c_valid c_user c_pw c_options].
  - lia.
  - destruct pw as [pw|]; [|by rewrite Hv]. intros _. exists user, pw. split; [done|]. split; [done|]. by exists w, (c_options c), o1, lists, b.
  - intros blob Hb. destruct (Sk blob Hb) as [Hv' _]. congruence.
  - eapply Forall_impl; [eassumption|]. intros x [(u & p & _ & Hp' & _)|]; [congruence|by right].
Qed.

(** ** A success *)

Lemma sound_add succ c x : sound OS succ c ->
  ((exists user pw, c_user c = Some user /\ c_pw c = Some pw /\ proves OS (c_options c) user pw (c_sid c) x) \/
    exists ctx, su_proof x = ByPam ctx /\ forall o user pw sid, proves OS o user pw sid x) -> key_of x = None -> sound OS (succ ++ [x]) c.
Proof.
  intros [Se Su Sk Sp Sf Sd Sn] Hx Hk. constructor; try done.
  - apply Forall_app. split; [done|]. by constructor.
  - rewrite used_app, Sd. unfold used. cbn [omap list_omap]. rewrite Hk. cbn. by rewrite app_nil_r.
  - apply fresh_app. split; [done|]. cbn. by rewrite Hk.
Qed.

Lemma sound_password succ c m pw password : sound OS succ c -> (m = str "password" \/ m = str "none") -> c_valid c = true -> c_pw c = Some pw ->
  password_accepted OS (c_options c) pw password -> sound OS (succ ++ [mk_success m None (ByPassword password)]) (with_method m None c).
Proof.
  intros S Hm Hv Hp Ha. apply sound_add; [by apply sound_method| |done]. left. destruct (so_user _ _ _ S Hv) as (user & pw' & Hu & Hp' & _).
  exists user, pw. done.
Qed.
Lemma sound_kbdint succ c x : sound OS succ c -> c_authok c = Some x ->
  sound OS (succ ++ [mk_success (str "keyboard-interactive") (Some (str "pam")) (ByPam x)])
    (with_method (str "keyboard-interactive") (Some (str "pam")) (with_pam None None c)).
Proof.
  intros S Ha. destruct (so_pam _ _ _ S x Ha) as [_ Hp]. apply sound_add; [by apply sound_method, sound_pam| |done]. right. by exists x.
Qed.

Lemma sound_verified succ c compat m blob key copy signature data alg : sound OS succ c -> c_blob c = Some blob -> sshkey_fromb blob = Ok key ->
  sshkey_from_private key = Ok copy -> verified OS c compat m key signature data alg ->
  exists x, su_method x = m /\ su_sub x = None /\ key_of x <> None /\
    sound OS (succ ++ [x]) (with_key None MM_NOKEY None None None (with_method m None (with_prev (c_prev c ++ [copy]) c))).
Proof.
  intros [Se Su Sk Sp Sf Sd Sn] Hb Hk Hc (Hs & user & cuser & chost & details & Hu & Hcu & Hch & Hv & Hr).
  destruct (Sk blob Hb) as (Va & k & pw & Hkb & Hpw & Hnew & Ha).
  assert (exists x, su_method x = m /\ su_sub x = None /\ key_of x = Some (k, copy) /\ proves OS (c_options c) user pw (c_sid c) x) as (x & Hm & Hsub & Hkx & Hx).
  { destruct Hr as [(Ht & -> & Hq & Hd)|(Ht & -> & Hq)], Ha as [(Ht' & Ha)|(Ht' & cu & ch & Hcu' & Hch' & Ha)]; try (rewrite Ht in Ht'; discriminate Ht').
    - exists (mk_success (str "publickey") None (ByUserKey k key copy signature data alg compat)). split; [done|]. split; [done|]. split; [done|]. unfold proves. cbn [su_proof su_method su_sub]. split_and!; try done. exists blob, (c_opts c), details. done.
    - assert (cu = cuser) as -> by congruence. assert (ch = chost) as -> by congruence.
      exists (mk_success (str "hostbased") None (ByHostKey k key copy signature data alg compat)). split; [done|]. split; [done|]. split; [done|]. unfold proves. cbn [su_proof su_method su_sub]. split_and!; try done. exists blob, cuser, chost, details. done. }
  exists x. split; [done|]. split; [done|]. split; [by rewrite Hkx|]. constructor; try done.
  - apply Forall_app. split; [done|]. constructor; [|done]. left. by exists user, pw.
  - rewrite used_app. cbn [with_key with_method with_prev c_prev]. rewrite Sd. unfold used at 3. cbn [omap list_omap]. by rewrite Hkx.
  - apply fresh_app. split; [done|]. cbn. rewrite Hkx. cbn. by rewrite <- Sd.
Qed.

(** ** The lists *)

Lemma lists_ok_same succ c c' : c_methods c' = c_methods c -> c_options c' = c_options c -> lists_ok succ c -> lists_ok succ c'.
Proof. intros Em Eo. unfold lists_ok. by rewrite Em, Eo. Qed.

Lemma setup_cases cfgs o o' ls b : auth2_setup_methods_lists cfgs o = (o', Some ls, b) -> o' = o.
Proof. unfold auth2_setup_methods_lists. case_bool_decide; [by cbn|]. destruct (so_auth_methods o); [done|]. by intros [= <- _ _]. Qed.

Lemma cfgs_named b o : Forall (fun g => am_name g <> []) (authmethod_cfgs b o).
Proof. by repeat constructor. Qed.

Lemma lists_user succ c o user pw lists w o1 b : sound OS succ c -> c_attempt c = 0 -> fst (os_getpwnamallow OS user (c_options c) w) = Ok (pw, o1) ->
  auth2_setup_methods_lists (authmethod_cfgs true o1) o1 = (o, lists, b) -> lists_ok succ (with_user OS o user pw lists c).
Proof.
  intros S Ha _ Hl. pose proof (setup_valid _ _ _ _ _ Hl (cfgs_named _ _)) as V. destruct (so_early _ _ _ S Ha) as (_ & _ & Hm). destruct lists as [ls|].
  - destruct V as [V1 V2]. pose proof (setup_cases _ _ _ _ _ Hl) as ->. exists ls. split_and!; try done.
    change (Forall2 (tracks (attempt_of <$> succ)) (split_on 44 <$> ls) ls).
    eapply Forall2_impl; [apply tracks_start|]. intros es cur T. change (attempt_of <$> succ) with ([] ++ (attempt_of <$> succ)).
    induction (attempt_of <$> succ) as [|a l IH] using rev_ind; [done|]. rewrite app_assoc. by apply tracks_skip.
  - exists []. split_and!; [|constructor|by intros l ?%elem_of_nil]. cbn. rewrite Hm. constructor.
Qed.

(** ** Handlers *)

Variant outcome succ c' (r : Z) : Prop :=
| quiet : sound OS succ c' -> lists_ok succ c' -> (r = 1 -> c_method c' = str "unknown" /\ c_sub c' = None) -> outcome succ c' r
| succeeded x : r = 1 -> su_method x = c_method c' -> su_sub x = c_sub c' -> sound OS (succ ++ [x]) c' -> lists_ok succ c' -> outcome succ c' r.

Lemma outcome_same succ (m : MM Z) s r s' : keeps_core m -> m s = (Ok r, s') -> sound OS succ (core_of s) -> lists_ok succ (core_of s) ->
  c_method (core_of s) = str "unknown" -> c_sub (core_of s) = None -> outcome succ (core_of s') r.
Proof. intros Hm Q S L U N. rewrite (Hm _ _ _ Q). by apply quiet. Qed.

Section Handlers.
Context (succ : list (@success K)) (s : @mon K W) (r : Z) (s' : @mon K W).
Hypothesis S : sound OS succ (core_of s).
Hypothesis L : lists_ok succ (core_of s).
Hypothesis unknown : c_method (core_of s) = str "unknown".
Hypothesis no_sub : c_sub (core_of s) = None.

Lemma sign_outcome : mm_answer_sign OS s = (Ok r, s') -> outcome succ (core_of s') r.
Proof.
  intros [-> [->|[Hs (p & ->)]]]%sign_effect; [by apply quiet|]. apply quiet; [by apply sound_sid|by eapply lists_ok_same; [..|exact L]|done].
Qed.
Lemma pwnam_outcome : mm_answer_pwnamallow OS s = (Ok r, s') -> outcome succ (core_of s') r.
Proof.
  intros (-> & Ha & user & pw & w & o1 & o & lists & b & Hg & Hl & ->)%pwnam_effect.
  apply quiet; [by eapply sound_user|by eapply lists_user|done].
Qed.
Lemma authpassword_outcome : mm_answer_authpassword OS s = (Ok r, s') -> outcome succ (core_of s') r.
Proof.
  intros (m & -> & Hm & Hr)%authpassword_effect. assert (lists_ok succ (with_method m (c_sub (core_of s)) (core_of s))) as L' by (by eapply lists_ok_same; [..|exact L]).
  rewrite no_sub in *. destruct Hr as [->|(-> & Hv & pw & password & Hp & Ha)]; [by apply quiet; [apply sound_method| |]|].
  eapply succeeded; [done| | |by eapply sound_password|done]; done.
Qed.
Lemma pam_init_outcome : mm_answer_pam_init_ctx OS s = (Ok r, s') -> outcome succ (core_of s') r.
Proof. intros (-> & _ & x & ->)%pam_init_effect. apply quiet; [by apply sound_pam|by eapply lists_ok_same; [..|exact L]|done]. Qed.
Lemma pam_query_outcome : mm_answer_pam_query OS s = (Ok r, s') -> outcome succ (core_of s') r.
Proof. intros (-> & ok & -> & Hok)%pam_query_effect. apply quiet; [by apply sound_method, sound_pam|by eapply lists_ok_same; [..|exact L]|done]. Qed.
Lemma pam_respond_outcome : mm_answer_pam_respond OS s = (Ok r, s') -> outcome succ (core_of s') r.
Proof. intros (-> & ok & -> & Hok)%pam_respond_effect. apply quiet; [by apply sound_method, sound_pam|by eapply lists_ok_same; [..|exact L]|done]. Qed.
Lemma pam_free_outcome : mm_answer_pam_free_ctx OS s = (Ok r, s') -> outcome succ (core_of s') r.
Proof.
  intros (-> & Hr)%pam_free_effect. destruct Hr as [->|(-> & x & Hx & _)].
  - apply quiet; [by apply sound_method, sound_pam|by eapply lists_ok_same; [..|exact L]|done].
  - eapply succeeded; [done| | |by apply sound_kbdint|by eapply lists_ok_same; [..|exact L]]; done.
Qed.
Lemma keyallowed_outcome : mm_answer_keyallowed OS s = (Ok r, s') -> outcome succ (core_of s') r.
Proof.
  intros (-> & m & [->|(key & blob & type & opts & cuser & chost & pw & -> & Hb & Hv & Hn & Hp & Hk)])%keyallowed_effect.
  - apply quiet; [by apply sound_no_key, sound_method|by eapply lists_ok_same; [..|exact L]|done].
  - apply quiet; [|by eapply lists_ok_same; [..|exact L]|done]. eapply sound_key; [by apply sound_method|done..].
Qed.
Lemma keyverify_outcome : sshbuf_wf (m_msg s) -> 0 < sb_cd (m_msg s) -> mm_answer_keyverify OS s = (Ok r, s') -> outcome succ (core_of s') r.
Proof.
  intros Wm Dm (m & blob & key & copy & Hb & Hk & Hc & -> & Hr)%keyverify_effect; [|done..]. destruct Hr as [->|(-> & signature & data & alg & Hv)].
  - apply quiet; [|by eapply lists_ok_same; [..|exact L]|done]. apply sound_no_key, sound_method. by destruct S; constructor.
  - eapply sound_verified in Hv as (x & Hm & Hs & _ & Sx); [|done..]. rewrite no_sub. eapply succeeded; [done|exact Hm|exact Hs|exact Sx|]. by eapply lists_ok_same; [..|exact L].
Qed.

Lemma handler_outcome type : sshbuf_wf (m_msg s) -> 0 < sb_cd (m_msg s) -> handler OS type s = (Ok r, s') -> outcome succ (core_of s') r.
Proof.
  intros Wm Dm Q. unfold handler in Q.
  repeat match type of Q with (if ?b then _ else _) _ = _ => destruct b end;
    eauto using sign_outcome, pwnam_outcome, authpassword_outcome, pam_init_outcome, pam_query_outcome, pam_respond_outcome, pam_free_outcome,
      keyallowed_outcome, keyverify_outcome; [..|done];
    (eapply outcome_same; [|exact Q|done..]).
  - apply keeps_core_state.
  - apply keeps_core_moduli.
  - apply keeps_core_setcompat.
  - apply keeps_core_authserv.
  - apply keeps_core_banner.
  - apply keeps_core_pam_start.
  - apply keeps_core_pam_account.
Qed.
End Handlers.

(** ** A request is read *)

Definition keeps_pos {A} (m : ST sshbuf A) : Prop := forall b, 0 < sb_cd b -> 0 < sb_cd (snd (m b)).
Lemma keeps_pos_bind {A B} (m : ST sshbuf A) (k : A -> ST sshbuf B) : keeps_pos m -> (forall a, keeps_pos (k a)) -> keeps_pos (bind m k).
Proof. intros Hm Hk b Hb. specialize (Hm b Hb). unfold bind. destruct (m b) as [[a|?|] b']; [by apply Hk|done..]. Qed.
Lemma keeps_pos_cd {A} (m : ST sshbuf A) : keeps_cd m -> keeps_pos m.
Proof. intros Hm b Hb. by rewrite Hm. Qed.
Lemma pos_with {A} (k : sshbuf -> ST sshbuf A) : (forall b, 0 < sb_cd b -> 0 < sb_cd (snd (k b b))) -> keeps_pos (bind get k).
Proof. intros Hk b Hb. by apply Hk. Qed.

Lemma keeps_pos_poke p v : keeps_pos (mem_poke p v).
Proof. apply pos_with. intros b Hb. unfold bind, defined. by destruct (mem_write _ _ _). Qed.
Lemma keeps_pos_reads {A} (f : sshbuf -> res A) : keeps_pos (reads f).
Proof. intros b Hb. done. Qed.
Lemma keeps_pos_pack f : keeps_pos (sshbuf_maybe_pack f).
Proof.
  apply pos_with. intros b Hb. destruct (_ || _); [done|]. destruct (_ || _); [|done]. unfold bind, defined.
  destruct (mem_read _ _ _); [|done]. by destruct (mem_write _ _ _).
Qed.
Lemma keeps_pos_reserve n : keeps_pos (sshbuf_reserve (os_np OS) n).
Proof.
  apply keeps_pos_bind; [|intros ?; apply pos_with; by intros b Hb]. apply keeps_pos_bind; [apply keeps_pos_reads|intros ?]. apply pos_with. intros b Hb.
  apply keeps_pos_bind; [apply keeps_pos_pack| |done]. intros ?. apply pos_with. intros b1 Hb1. destruct (_ <=? _); [done|]. destruct (_ =? 0); [done|]. done.
Qed.
Lemma keeps_pos_reset : keeps_pos (ignore (sshbuf_reset (os_np OS))).
Proof.
  intros b Hb. unfold ignore. enough (keeps_pos (sshbuf_reset (os_np OS))) as K0 by (specialize (K0 b Hb); destruct (sshbuf_reset _ b) as [[]]; done).
  clear b Hb. apply pos_with. intros b Hb. destruct (_ || _); [done|]. apply keeps_pos_bind; [apply keeps_pos_reads| |done]. intros ?. intros b1 Hb1.
  unfold bind, defined. destruct (mem_write _ _ _); [|done]. cbn. destruct (negb _); [|done]. by destruct (negb _).
Qed.

Definition msg_ok s : Prop := (exists l, pbuf (m_msg s) l) /\ 0 < sb_cd (m_msg s).

Lemma read_pipe_inv n s v s' : read_pipe n s = (Ok v, s') -> s' = mset_in (zdrop n (m_in s)) s /\ v = u8 <$> ztake n (m_in s) /\ n <= zlen (m_in s).
Proof.
  unfold read_pipe. rewrite bind_get. destruct (Z.ltb_spec (zlen (m_in s)) n); [done|]. intros Q. by injection Q as <- <-.
Qed.

Lemma new_msg_ok s u s' : new_msg OS s = (Ok u, s') -> msg_ok s'.
Proof.
  unfold new_msg. destruct (sshbuf_new _ _) as [b|] eqn:Eb; [|done]. intros ->%mupd_inv. split; [exists []; by eapply pbuf_new|].
  unfold sshbuf_new in Eb. destruct (_ =? 0); [done|]. by injection Eb as <-.
Qed.

Lemma pipe_bytes n l : 0 <= n <= zlen l -> Forall is_byte (u8 <$> ztake n l) /\ zlen (u8 <$> ztake n l) = n.
Proof.
  intros Hn. split.
  - apply Forall_fmap, Forall_true. intros x. unfold compose, is_byte, u8. pose proof (Z.mod_pos_bound x (2 ^ 8)). lia.
  - transitivity (zlen (ztake n l)); [|zl]. unfold zlen. by rewrite length_fmap.
Qed.

Lemma receive_ok s u s' : msg_ok s -> mm_request_receive OS s = (Ok u, s') -> msg_ok s'.
Proof.
  intros ((l & P) & D) Q. unfold mm_request_receive in Q. inv_step Q v s1 E1. apply read_pipe_inv in E1 as (-> & -> & L1).
  inv_step Q n s2 E2. apply defined_inv_m in E2 as [En ->].
  destruct (pipe_bytes 4 (m_in s)) as [B4 Z4]; [lia|]. rewrite PEEK_U32_be in En by done. injection En as <-. set (n := be _) in Q.
  destruct (Z.ltb_spec MONITOR_MAX_MSGLEN n) as [|Hn]; [done|]. assert (0 <= n) as H0 by (by apply be_bound).
  inv_step Q u3 s3 E3. apply on_msg_inv in E3 as (b3 & E3 & ->). pose proof (keeps_pos_reset _ D) as D3. cbn [m_msg mset_in] in E3. rewrite E3 in D3. cbn [snd] in D3.
  destruct (pb_reset (os_np OS) _ _ P) as (b & Er & P3). unfold ignore in E3. rewrite Er in E3. injection E3 as _ <-. clear Er P D.
  inv_step Q p s4 E4. apply on_msg_inv in E4 as (b4 & E4 & ->). pose proof (keeps_pos_reserve n _ D3) as D4.
  destruct (pb_reserve (os_np OS) n _ _ P3) as (b' & junk & Er & P4 & Hj); [lia|done|unfold zlen; cbn; unfold MONITOR_MAX_MSGLEN in Hn; sb_consts; lia|].
  cbn [m_msg mset_msg] in E4. rewrite E4 in D4. rewrite Er in E4. injection E4 as <- <-. cbn [snd] in D4.
  inv_step Q w s5 E5. apply read_pipe_inv in E5 as (-> & -> & L5). apply on_msg_inv in Q as (b6 & E6 & ->). cbn [m_msg mset_msg mset_in] in E6.
  match type of E6 with mem_poke ?p ?v _ = _ => pose proof (keeps_pos_poke p v _ D4) as D6 end.
  destruct (pipe_bytes n (m_in (mset_msg b' (mset_msg b (mset_in (zdrop 4 (m_in s)) s))))) as [B5 Z5]; [lia|].
  destruct (pb_fill b' [] junk _ P4 B5) as (b7 & Ef & P7 & _); [lia|].
  rewrite E6 in D6, Ef. injection Ef as _ <-. cbn [snd] in D6. split; [|done]. by eexists.
Qed.

Lemma read_outcome succ s r flags s' : sound OS succ (core_of s) -> lists_ok succ (core_of s) -> c_method (core_of s) = str "unknown" ->
  c_sub (core_of s) = None -> monitor_read OS s = (Ok (r, flags), s') -> outcome succ (core_of s') r.
Proof.
  intros S L U N Q. unfold monitor_read in Q. inv_step Q u1 s1 E1. pose proof (keeps_core_new OS _ _ _ E1) as C1. apply new_msg_ok in E1.
  inv_step Q u2 s2 E2. pose proof (keeps_core_receive OS _ _ _ E2) as C2. apply receive_ok in E2 as ((l & P) & D); [|done].
  inv_step Q type s3 E3. apply on_msg_inv in E3 as (b & E3 & ->). destruct (takes_u8 _ _ _ (pb_wf _ _ P) D E3) as (W3 & D3 & _). rewrite bind_get in Q.
  destruct (find_entry _ _) as [fl|]; [|done]. destruct (negb _); [done|]. inv_step Q r1 s4 E4. kstep Q u5 s5 C5. injection Q as -> _ <-. rewrite C5.
  assert (core_of (mset_msg b s2) = core_of s) as C3 by (rewrite <- C1, <- C2; done).
  eapply handler_outcome; [..|exact E4]; rewrite ?C3; try done. cbn. lia.
Qed.

(** ** Turns *)

(** The methods that succeeded are what the configuration asks for. *)
Definition enough (succ : list (@success K)) (o : server_options) : Prop :=
  so_auth_methods o <> [] -> exists l chosen, l ∈ so_auth_methods o /\ auth2_methods_valid (authmethod_cfgs true o) l true = true /\
    sublist chosen succ /\ Forall2 (fun e x => element_matches e (su_method x) (su_sub x)) (split_on 44 l) chosen.

Lemma proves_plain o user pw sid x : proves OS o user pw sid x -> plain_method (su_method x) (su_sub x) /\ su_method x <> [].
Proof.
  unfold proves. intros Hx. assert ((su_method x, su_sub x) ∈ [(str "password", None); (str "none", None); (str "keyboard-interactive", Some (str "pam"));
    (str "publickey", None); (str "hostbased", None)]) as Hin.
  { destruct (su_proof x); [destruct Hx as ([Hm|Hm] & Hs & _)|destruct Hx as (Hm & Hs & _)..]; rewrite Hm, Hs; by apply (bool_decide_unpack _). }
  assert (forall m sub, (m, sub) ∈ [(str "password", None); (str "none", None); (str "keyboard-interactive", Some (str "pam")); (str "publickey", None); (str "hostbased", None)] ->
    plain_method m sub /\ m <> []) as Hall; [|by apply Hall].
  intros m sub. rewrite !elem_of_cons, elem_of_nil. unfold plain_method.
  intros [[= -> ->]|[[= -> ->]|[[= -> ->]|[[= -> ->]|[[= -> ->]|[]]]]]]; (split; [|done]); split_and!; try done; by apply (bool_decide_unpack _).
Qed.

Lemma success_plain succ x c : sound OS (succ ++ [x]) c -> plain_method (su_method x) (su_sub x) /\ su_method x <> [].
Proof.
  intros S. apply so_proofs in S. apply Forall_app in S as [_ S]. apply Forall_cons in S as [[(user & pw & _ & _ & Hx)|(ctx & _ & Hx)] _]; [by eapply proves_plain|].
  eapply (proves_plain (c_options c) [] (os_fakepw OS) []), Hx.
Qed.

Lemma unknown_valid o e : method_valid (span_to 58 e) true (authmethod_cfgs true o) = true -> ~ element_matches e (str "unknown") None.
Proof. intros Hv [->|(sub & [=] & _)]. discriminate Hv. Qed.

Lemma unknown_update succ c r : lists_ok succ c -> auth2_update_methods_lists (c_methods c) (str "unknown") None <> Ok r.
Proof.
  intros (configured & T & He & Hv). unfold auth2_update_methods_lists. erewrite update_lists_none; [done|exact T|done|by split_and!; try done; apply (bool_decide_unpack _)|done|].
  apply Forall_fmap, Forall_forall. intros l Hl. apply Hv in Hl as [_ Hl]. unfold compose. unfold auth2_methods_valid in Hl. destruct l as [|z l]; [done|].
  apply Forall_forall. intros e Hin. apply (unknown_valid (c_options c)). rewrite forallb_forall in Hl. by apply Hl, list_elem_of_In.
Qed.

Lemma lists_skip succ c x : lists_ok succ c -> lists_ok (succ ++ [x]) c.
Proof.
  intros (configured & T & He & Hv). exists configured. split; [|done]. eapply Forall2_impl; [exact T|]. intros es cur Hes. rewrite fmap_app. by apply tracks_skip.
Qed.

Definition with_lists (ls : list (list Z)) c : core :=
  mk_core (c_options c) (c_valid c) (c_attempt c) (c_user c) (c_pw c) ls (c_prev c) (c_blob c) (c_type c) (c_opts c) (c_cuser c) (c_chost c)
    (c_sid c) (c_ctxt c) (c_authok c) (c_method c) (c_sub c).

Lemma sublist_of_fmap {A B} (f : A -> B) l k : sublist l (f <$> k) -> exists l', l = f <$> l' /\ sublist l' k.
Proof.
  revert l. induction k as [|a k IH]; intros l Hl; cbn in Hl.
  - exists []. apply sublist_nil_r in Hl. split; [done|constructor].
  - apply sublist_cons_r in Hl as [Hl|(l0 & -> & Hl)]; apply IH in Hl as (l' & -> & Hl); [exists l'|exists (a :: l')]; (split; [done|by constructor]).
Qed.

Lemma lists_update succ c x ls complete : lists_ok succ c -> plain_method (su_method x) (su_sub x) -> su_method x <> [] ->
  auth2_update_methods_lists (c_methods c) (su_method x) (su_sub x) = Ok (ls, complete) ->
  lists_ok (succ ++ [x]) (with_lists ls c) /\ (complete = true -> enough (succ ++ [x]) (c_options c)).
Proof.
  intros (configured & T & He & Hv) Hp Hm Q. unfold auth2_update_methods_lists in Q.
  destruct (update_lists (c_methods c) (su_method x) (su_sub x)) as [[ls0 c0] f0] eqn:E.
  pose proof (update_lists_tracks _ _ _ (attempt_of x) _ _ _ T He Hp Hm E) as [T' Hc].
  assert (ls0 = ls /\ c0 = complete) as [-> ->] by (destruct c0, f0; try discriminate Q; by injection Q as <- <-). split.
  - exists configured. split; [|done]. rewrite fmap_app. exact T'.
  - intros Hcomp _. destruct (Hc Hcomp) as (es & Hes & C). apply consumed_sublist in C as (us & chosen & Eu & Sb & F). rewrite app_nil_r in Eu. subst us.
    apply list_elem_of_fmap in Hes as (l & -> & Hl). destruct (Hv l Hl) as [Hl1 Hl2].
    change [attempt_of x] with (attempt_of <$> [x]) in Sb. rewrite <- fmap_app in Sb. apply sublist_of_fmap in Sb as (chosen' & -> & Sb).
    exists l, chosen'. split_and!; try done. by apply Forall2_fmap_r in F.
Qed.

Lemma sound_lists succ c ls : sound OS succ c -> c_attempt c <> 0 -> sound OS succ (with_lists ls c).
Proof. by intros [] Ha; constructor. Qed.

(** What a turn that authenticates has checked. *)
Definition decided succ c : Prop := exists before x, succ = before ++ [x] /\ su_method x = c_method c /\ enough succ (c_options c).

Lemma lists_step succ s r ap s' : outcome succ (core_of s) r ->
  (match so_auth_methods (m_options s) with
   | [] => ret (r =? 1, false)
   | _ => if r =? 1 then
            let! lc := must (auth2_update_methods_lists (a_auth_methods (m_authctxt s)) (m_auth_method s) (m_auth_submethod s)) in
            do! on_authctxt (set_auth_methods (fst lc)) ;; ret (snd lc, negb (snd lc))
          else ret (false, false)
   end) s = (Ok ap, s') ->
  exists succ', sound OS succ' (core_of s') /\ lists_ok succ' (core_of s') /\
    (fst ap = true -> c_method (core_of s') = str "unknown" \/ decided succ' (core_of s')).
Proof.
  intros Ho Q. destruct (so_auth_methods (m_options s)) as [|l0 ls0] eqn:El.
  - injection Q as <- <-. destruct Ho as [S L Hu|x -> Hm Hs S L]; [exists succ; split_and!; try done; cbn [fst]; intros ?%Z.eqb_eq; left; by apply Hu|].
    exists (succ ++ [x]). split; [done|]. split; [by apply lists_skip|]. intros _. right. exists succ, x. split_and!; try done. intros Hn. by destruct Hn.
  - destruct (Z.eqb_spec r 1) as [Hr|Hr]; [|injection Q as <- <-; destruct Ho as [S L _|x Hr1]; [by exists succ|done]].
    inv_step Q lc s1 E1. apply must_inv in E1 as [E1 ->]. destruct lc as [ls complete]. inv_step Q u2 s2 E2. apply mupd_inv in E2 as ->. injection Q as <- <-. cbn [fst snd].
    change (a_auth_methods (m_authctxt s)) with (c_methods (core_of s)) in E1. change (m_auth_method s) with (c_method (core_of s)) in E1.
    change (m_auth_submethod s) with (c_sub (core_of s)) in E1. destruct Ho as [S L Hu|x _ Hm Hs S L].
    + destruct (Hu Hr) as [U1 U2]. rewrite U1, U2 in E1. by destruct (unknown_update _ _ _ L E1).
    + rewrite <- Hm, <- Hs in E1. destruct (success_plain _ _ _ S) as [Hp Hne]. pose proof (lists_update _ _ _ _ _ L Hp Hne E1) as [L' He].
      exists (succ ++ [x]). split; [|split; [exact L'|]].
      * apply (sound_lists _ (core_of s)); [done|]. intros Ha. destruct (so_early _ _ _ S Ha) as (_ & _ & Hme). by rewrite Hme in E1.
      * intros Hc. right. exists succ, x. split_and!; try done. by apply He.
Qed.

(** The account may be used: by root as configured, and for PAM. *)
Definition allowed_in c : Prop := exists pw, c_pw c = Some pw /\
  (pw_uid pw = 0 -> exists opts, auth_root_allowed (c_options c) opts (c_method c) = Ok true) /\
  (use_pam (c_options c) = true -> exists w, fst (os_pam_account OS w) <> 0).

Lemma pam_account_effect s r s' : mm_answer_pam_account OS s = (Ok r, s') -> exists w, fst (os_pam_account OS w) = r.
Proof.
  intros Q. unfold mm_answer_pam_account in Q. rewrite bind_get in Q. destruct (negb _); [done|]. inv_step Q r0 s1 E1. apply ask_inv in E1 as (w & E1 & ->).
  inv_step Q u2 s2 E2. inv_step Q u3 s3 E3. inv_step Q u4 s4 E4. injection Q as -> _. exists (m_world s). by rewrite E1.
Qed.

Lemma accept_step (authenticated : bool) flags s b s' :
  (if authenticated then
     if negb (flagged flags MON_AUTHDECIDE) then fatal
     else
       let! s := get in
       let! pw := defined (a_pw (m_authctxt s)) in
       let! allowed := (if pw_uid pw =? 0 then must (auth_root_allowed (m_options s) (m_auth_opts s) (m_auth_method s)) else ret true) in
       if allowed && use_pam (m_options s) then
         do! new_msg OS ;;
         do! mm_request_receive_expect OS MONITOR_REQ_PAM_ACCOUNT ;;
         let! r := mm_answer_pam_account OS in ret (negb (r =? 0))
       else ret allowed
   else ret false) s = (Ok b, s') ->
  core_of s' = core_of s /\ (b = true -> authenticated = true /\ allowed_in (core_of s)).
Proof.
  intros Q. destruct authenticated; [|by injection Q as <- <-]. destruct (negb _); [done|]. rewrite bind_get in Q.
  inv_step Q pw s1 E1. apply defined_inv_m in E1 as [Ep ->]. inv_step Q allowed s2 E2.
  assert (s2 = s /\ (allowed = true -> pw_uid pw = 0 -> exists opts, auth_root_allowed (m_options s) opts (m_auth_method s) = Ok true)) as [-> Ha].
  { destruct (Z.eqb_spec (pw_uid pw) 0) as [Hz|Hz]; [|by injection E2 as <- <-]. apply must_inv in E2 as [E2 ->]. split; [done|]. intros -> _. by eexists. }
  destruct allowed; cbn [andb] in Q; [|by injection Q as <- <-]. destruct (use_pam (m_options s)) eqn:Eu.
  - inv_step Q u3 s3 E3. pose proof (keeps_core_new OS _ _ _ E3) as C3. inv_step Q u4 s4 E4. pose proof (keeps_core_expect OS _ _ _ _ E4) as C4.
    inv_step Q r s5 E5. pose proof (keeps_core_pam_account OS _ _ _ E5) as C5. injection Q as <- <-. split; [congruence|]. intros Hr. split; [done|].
    exists pw. split; [done|]. split; [by apply Ha|]. intros _. apply pam_account_effect in E5 as (w & <-). exists w. by apply negb_true_iff, Z.eqb_neq in Hr.
  - injection Q as <- <-. split; [done|]. intros _. split; [done|]. exists pw. split; [done|]. split; [by apply Ha|]. intros Hu. cbn in Hu. congruence.
Qed.

Lemma session_info_inv f m sub (a a' : Authctxt K) : auth2_update_session_info f m sub a = Ok a' -> exists i, a' = set_session_info i a.
Proof.
  unfold auth2_update_session_info. intros Q.
  repeat match type of Q with context [match ?x with _ => _ end] => destruct x; cbn in Q; try discriminate Q end; injection Q as <-; by eexists.
Qed.

Lemma keeps_core_info f : keeps_core (K := K) (W := W)
  (let! s := get in let! a := must (auth2_update_session_info f (m_auth_method s) (m_auth_submethod s) (m_authctxt s)) in mupd (mset_authctxt a)).
Proof.
  intros s u s' Q. rewrite bind_get in Q. inv_step Q a s1 E1. apply must_inv in E1 as [E1 ->]. apply session_info_inv in E1 as (i & ->). by apply mupd_inv in Q as ->.
Qed.

Lemma turn_outcome succ s b s' : sound OS succ (core_of s) -> lists_ok succ (core_of s) -> preauth_turn OS s = (Ok b, s') ->
  exists succ', sound OS succ' (core_of s') /\ lists_ok succ' (core_of s') /\
    (b = true -> allowed_in (core_of s') /\ (c_method (core_of s') = str "unknown" \/ decided succ' (core_of s'))).
Proof.
  intros S L Q. unfold preauth_turn in Q. inv_step Q u1 s1 E1. apply mupd_inv in E1.
  assert (core_of s1 = with_method (str "unknown") None (core_of s)) as C1 by (by rewrite E1). clear E1.
  inv_step Q rf s2 E2. destruct rf as [r flags]. apply (read_outcome succ) in E2; [|rewrite C1..]; [|by apply sound_method|by eapply lists_ok_same; [..|exact L]|done..].
  kstep Q u3 s3 C3. rewrite <- C3 in E2. rewrite bind_get in Q. inv_step Q pa s4 E4. eapply lists_step in E4 as (succ' & S4 & L4 & H4); [|exact E2].
  destruct pa as [auth partial]. cbn [fst] in H4. inv_step Q ok s5 E5. apply accept_step in E5 as [C5 H5]. inv_step Q u6 s6 E6.
  assert (core_of s6 = core_of s5) as C6.
  { destruct (flagged flags (Z.lor MON_AUTHDECIDE MON_ALOG)); [|by injection E6 as _ <-]. rewrite bind_get in E6. kstep E6 u7 s7 C7. kstep E6 v8 s8 C8. rewrite <- C7, <- C8.
    destruct (_ || _); [by apply keeps_core_info in E6|by injection E6 as _ <-]. }
  rewrite bind_get in Q. destruct (_ <? _); [done|]. injection Q as <- <-. exists succ'. rewrite C6, C5. split; [done|]. split; [done|].
  intros Hok. destruct (H5 Hok) as [Ha Hp]. split; [done|by apply H4].
Qed.

Lemma loop_outcome fuel succ s s' : sound OS succ (core_of s) -> lists_ok succ (core_of s) -> preauth_loop OS fuel s = (Ok tt, s') ->
  exists succ', sound OS succ' (core_of s') /\ allowed_in (core_of s') /\ (c_method (core_of s') = str "unknown" \/ decided succ' (core_of s')).
Proof.
  revert succ s. induction fuel as [|fuel IH]; intros succ s S L Q; [done|]. cbn [preauth_loop] in Q. inv_step Q b s1 E1.
  apply (turn_outcome succ) in E1 as (succ' & S1 & L1 & H1); [|done..]. destruct b.
  - injection Q as <-. exists succ'. split; [done|by apply H1].
  - by eapply IH.
Qed.

(** ** The monitor *)

(** The static variables as the program starts. *)
Definition unused s : Prop := m_key_blob s = None /\ m_pam_authok s = None.

(** What a user who is let in has shown. *)
Definition authenticated_by (o : server_options) (sid user : list Z) (pw : passwd) (method : list Z) : Prop :=
  known_user OS user pw o /\
  (pw_uid pw = 0 -> exists opts, auth_root_allowed o opts method = Ok true) /\
  (use_pam o = true -> exists w, fst (os_pam_account OS w) <> 0) /\
  exists before x, su_method x = method /\ Forall (proves OS o user pw sid) (before ++ [x]) /\ fresh [] (before ++ [x]) /\ enough (before ++ [x]) o.

Lemma sound_zero s : unused s -> sound OS [] (core_of (mset_authctxt authctxt_zero s)) /\ lists_ok [] (core_of (mset_authctxt authctxt_zero s)).
Proof.
  intros [Hb Ho]. split.
  - constructor; try done; cbn; [by rewrite Hb|by rewrite Ho].
  - exists []. split_and!; [constructor|constructor|by intros l ?%elem_of_nil].
Qed.

End Loop.
