(* ===== verification/MonitorTurns.v ===== *)
(** * The monitor: each turn reads a request, so the loop ends *)
From S2P Require Import Prelude Sshbuf SshbufGetput SshbufSpec CString SshbufMisc Words Chacha ChachaPoly Cipher Hmac Mac PacketState Packet PacketBuf PacketAuth Codec Match SshkeyNames KexNames Kex Compat KexGen Misc Addr AuthOptions Auth AuthMethods Monitor MonitorInv MonitorAuth MonitorProps.

Section Shrinks.
Context {K W : Type} `{SSHKEY K} (OS : @mon_os K W).
Implicit Types s : @mon K W.

(** A run takes at least [n] bytes off the pipe and adds none. *)
Definition takes_in {A} (n : nat) (m : MM A) : Prop := forall s a s', m s = (Ok a, s') -> (length (m_in s') + n <= length (m_in s))%nat.
Abbreviation shrinks := (takes_in 0).

Lemma takes_in_bind {A B} n k (m : @MM K W A) (f : A -> MM B) : takes_in n m -> (forall a, takes_in k (f a)) -> takes_in (n + k) (bind m f).
Proof. intros Hm Hk s b s' Q. inv_step Q a s1 E. specialize (Hm _ _ _ E). specialize (Hk a _ _ _ Q). lia. Qed.
Lemma shrinks_bind {A B} (m : @MM K W A) (f : A -> MM B) : shrinks m -> (forall a, shrinks (f a)) -> shrinks (bind m f).
Proof. apply takes_in_bind. Qed.
Lemma shrinks_upd f : (forall s, m_in (f s) = m_in s) -> shrinks (mupd f).
Proof. intros Hf s a s' [= _ <-]. rewrite Hf. lia. Qed.
Lemma shrinks_ret {A} (a : A) : shrinks (ret a).
Proof. intros s x s' [= _ <-]. lia. Qed.
Lemma shrinks_fail {A} e : shrinks (fail e : MM A).
Proof. by intros s x s'. Qed.
Lemma shrinks_get : shrinks get.
Proof. intros s x s' [= _ <-]. lia. Qed.
Lemma shrinks_must {A} (r : res A) : shrinks (must r).
Proof. intros s a s' [_ ->]%must_inv. lia. Qed.
Lemma shrinks_defined {A} (o : option A) : shrinks (defined o).
Proof. intros s a s' [_ ->]%defined_inv_m. lia. Qed.
Lemma shrinks_on_msg {A} (m : ST sshbuf A) : shrinks (on_msg m).
Proof. intros s a s' (b & _ & ->)%on_msg_inv. cbn. lia. Qed.
Lemma shrinks_ask {A} (f : W -> A * W) : shrinks (ask f).
Proof. intros s a s' (w & _ & ->)%ask_inv. cbn. lia. Qed.
Lemma takes_in_pipe n : takes_in (Z.to_nat n) (read_pipe n).
Proof.
  intros s a s' (-> & _ & L)%read_pipe_inv. cbn [m_in mset_in]. unfold zdrop, zlen in *. rewrite length_drop. lia.
Qed.
Lemma shrinks_pipe n : shrinks (read_pipe n).
Proof. intros s a s' Q. apply takes_in_pipe in Q. lia. Qed.
End Shrinks.

Abbreviation shrinks := (takes_in 0).

Ltac shrink :=
  repeat lazymatch goal with
  | |- takes_in 0 (bind _ _) => apply shrinks_bind; [|intros]
  | |- takes_in 0 (ret _) => apply shrinks_ret
  | |- takes_in 0 (fail _) => apply shrinks_fail
  | |- takes_in 0 fatal => apply shrinks_fail
  | |- takes_in 0 get => apply shrinks_get
  | |- takes_in 0 (must _) => apply shrinks_must
  | |- takes_in 0 (defined _) => apply shrinks_defined
  | |- takes_in 0 (on_msg _) => apply shrinks_on_msg
  | |- takes_in 0 (ask _) => apply shrinks_ask
  | |- takes_in 0 (read_pipe _) => apply shrinks_pipe
  | |- takes_in 0 (mupd _) => apply shrinks_upd; intros; cbv beta; first [reflexivity | repeat case_match; reflexivity]
  | |- takes_in 0 (match ?x with _ => _ end) => destruct x
  | |- takes_in 0 (let '(_, _) := ?x in _) => destruct x
  | |- takes_in 0 (permit _ _) => unfold permit
  | |- takes_in 0 (auth_log _ _ _ _) => unfold auth_log
  | |- takes_in 0 (on_authctxt _) => unfold on_authctxt
  | |- takes_in 0 (mm_request_send _ _) => unfold mm_request_send
  | |- takes_in 0 (answer _) => unfold answer
  | |- takes_in 0 (reply _ _ _) => unfold reply
  | |- takes_in 0 (new_msg _) => unfold new_msg
  | |- takes_in 0 (mm_request_receive _) => unfold mm_request_receive
  | |- takes_in 0 (mm_request_receive_expect _ _) => unfold mm_request_receive_expect
  | |- takes_in 0 (restrict_session _) => unfold restrict_session
  | |- takes_in 0 (auth_password _ _) => unfold auth_password
  | |- takes_in 0 (hostkey_proof _ _ _) => unfold hostkey_proof
  | |- takes_in 0 (kbdint_pam) => unfold kbdint_pam
  | |- takes_in 0 (key_allowed _ _ _ _ _ _) => unfold key_allowed
  | |- takes_in 0 (record_key _ _) => unfold record_key
  | |- takes_in 0 (monitor_valid_userblob _ _) => unfold monitor_valid_userblob
  | |- takes_in 0 (monitor_valid_hostbasedblob _ _ _ _) => unfold monitor_valid_hostbasedblob
  | |- takes_in 0 (userstyle _) => unfold userstyle
  | |- takes_in 0 (in_data _ _ _) => unfold in_data
  | |- takes_in 0 setup_lists => unfold setup_lists
  | |- takes_in 0 monitor_reset_key_state => unfold monitor_reset_key_state
  end.

Section Ends.
Context {K W : Type} `{SSHKEY K} (OS : @mon_os K W).
Implicit Types s : @mon K W.

Lemma shrinks_handler type : shrinks (handler OS type).
Proof.
  unfold handler.
  repeat match goal with |- takes_in 0 (if ?b then _ else _) => destruct b end; [..|apply shrinks_fail];
  unfold mm_answer_state, mm_answer_moduli, mm_answer_setcompat, mm_answer_sign, mm_answer_pwnamallow, mm_answer_authserv, mm_answer_auth2_read_banner,
    mm_answer_authpassword, mm_answer_pam_start, mm_answer_pam_account, mm_answer_pam_init_ctx, mm_answer_pam_query, mm_answer_pam_respond, mm_answer_pam_free_ctx,
    mm_answer_keyallowed, mm_answer_keyverify; shrink.
Qed.

(** A request is read: at least the four bytes of its length. *)
Lemma takes_in_receive : takes_in 4 (mm_request_receive OS).
Proof.
  unfold mm_request_receive. change 4%nat with (4 + 0)%nat. apply takes_in_bind; [exact (takes_in_pipe 4)|]. intros buf. shrink.
Qed.
Lemma takes_in_read : takes_in 4 (monitor_read OS).
Proof.
  unfold monitor_read. apply (takes_in_bind 0 4); [shrink|]. intros _. apply (takes_in_bind 4 0); [apply takes_in_receive|]. intros _. shrink. apply shrinks_handler.
Qed.
Lemma takes_in_turn : takes_in 4 (preauth_turn OS).
Proof.
  unfold preauth_turn. apply (takes_in_bind 0 4); [shrink|]. intros _. apply (takes_in_bind 4 0); [apply takes_in_read|]. intros rf.
  destruct rf as [r flags]. unfold mm_answer_pam_account. shrink.
Qed.

End Ends.
