(* ===== verification/MonitorDemo.v ===== *)
(** * The monitor: runs *)
From S2P Require Import Prelude Sshbuf SshbufGetput SshbufSpec CString SshbufMisc Words Chacha ChachaPoly Cipher Hmac Mac PacketState Packet PacketBuf PacketAuth Codec Match SshkeyNames KexNames Kex Compat KexGen Misc Addr AuthOptions Auth AuthMethods Monitor MonitorInv MonitorAuth MonitorProps.

Module MonitorDemo.

(** A key is a number, and a signature is the key before the data. *)
#[local] Instance keys : SSHKEY Z := {
  key_type _ := KEY_ED25519; key_ecdsa_nid _ := 0;
  sshkey_fromb l := match l with [k] => Ok k | _ => Err SSH_ERR_INVALID_FORMAT end;
  sshkey_tob k := Ok [k]; sshkey_from_private k := Ok k; sshkey_equal_public := Z.eqb;
  sshkey_sign k d _ _ := match k with Some k => Ok (k :: d) | None => Err SSH_ERR_INTERNAL_ERROR end;
  sshkey_verify k s d _ _ := if bool_decide (s = k :: d) then Ok tt else Err SSH_ERR_SIGNATURE_INVALID }.

Definition alice : passwd := mk_passwd (str "alice") (str "x") 1000 1000 (str "Alice") (str "/home/alice") (str "/bin/sh").
Definition options (methods : list Z) : server_options :=
  mk_so PERMIT_NO true false true false false false false false 6 [methods] (str "ssh-ed25519") [] 0 false None None [] [] [] [].
Definition forced (command : list Z) : option sshauthopt :=
  set_force_command (Some command) <$> sshauthopt_new_with_keys_defaults true.

(** The user [alice] has the keys 8 and 9, each with a command, and the password
    [secret]; the host has the key 5. *)
Definition os : @mon_os Z unit :=
  mk_os 1 true (fun user o w => (Ok (if streq user (str "alice") then Some alice else None, o), w)) alice
    (fun _ => Some (str "hash")) (fun p _ => if streq p (str "secret") then Some (str "hash") else Some (str "other"))
    (fun w => (false, w)) (fun w => (None, w))
    (fun _ k _ w => (if k =? 8 then (1, forced (str "ls")) else if k =? 9 then (1, forced (str "id")) else (0, None), w))
    (fun _ _ h _ w => ((0, h), w))
    (fun k s d _ _ => (if bool_decide (s = k :: d) then 0 else SSH_ERR_SIGNATURE_INVALID, None)) (fun _ => true) (fun _ => Ok (str "key"))
    (fun k => if k =? 5 then 0 else -1) (fun i => if i =? 0 then Some 5 else None) (fun i => if i =? 0 then Some 5 else None) None
    (fun _ _ _ w => (None, w)) (fun _ w => (false, w)) id (fun w => (0, w)) (fun _ => 0) (fun w => (None, w))
    (fun _ w => ((-1, None, None, []), w)) (fun _ _ => false) (fun _ _ w => (-1, w)) (fun _ => id)
    (fun _ => []) 0 [] (str "SSH-2.0-a") (str "SSH-2.0-b") (Some 0).

Definition start (methods input : list Z) : @mon Z unit :=
  mk_mon (options methods) authctxt_zero [] None MM_NOKEY None None None [] None [] false false false 0 (sshauthopt_new_with_keys_defaults true) 0 false []
    None None [] input [] (mk_sshbuf 1 1 1 0 0 SSHBUF_SIZE_MAX 0 false 1 0 []) [] tt.

Definition request (type : Z) (body : list Z) : list Z := POKE_U32 (1 + zlen body) ++ [type] ++ body.
Definition sid : list Z := replicate 32 7.
Definition hello : list Z :=
  request MONITOR_REQ_SETCOMPAT (POKE_U32 0) ++
  request MONITOR_REQ_SIGN (enc_string [5] ++ enc_string sid ++ enc_string (str "ssh-ed25519") ++ POKE_U32 0) ++
  request MONITOR_REQ_PWNAM (enc_string (str "alice")) ++
  request MONITOR_REQ_AUTHSERV (enc_string (str "ssh-connection") ++ enc_string []).
Definition signed (k : Z) : list Z :=
  enc_string sid ++ [SSH2_MSG_USERAUTH_REQUEST] ++ enc_string (str "alice") ++ enc_string (str "ssh-connection") ++ enc_string (str "publickey") ++ [1] ++
  enc_string (str "ssh-ed25519") ++ enc_string [k].
Definition with_key_request (k : Z) : list Z :=
  request MONITOR_REQ_KEYALLOWED (POKE_U32 MM_USERKEY ++ enc_string [] ++ enc_string [] ++ enc_string [k] ++ POKE_U32 1) ++
  request MONITOR_REQ_KEYVERIFY (enc_string [k] ++ enc_string (k :: signed k) ++ enc_string (signed k) ++ enc_string []).
Definition with_password : list Z := request MONITOR_REQ_AUTHPASSWORD (enc_string (str "secret")).
Definition bye : list Z := request MONITOR_REQ_KEYEXPORT [].

(** A key, then a password. *)
Definition key_and_password : @mon Z unit := start (str "publickey,password") (hello ++ with_key_request 9 ++ with_password ++ bye).
(** Two keys. *)
Definition two_keys (k : Z) : @mon Z unit := start (str "publickey,publickey") (hello ++ with_key_request 9 ++ with_key_request k ++ bye).


(** The same key does not count twice. *)
Lemma key_twice_refused : fst (monitor_child_preauth os (two_keys 9)) = Err EXIT.
Proof. vm_compute. reflexivity. Qed.

(** Two keys with different commands: the options of the second cannot be
    merged, the result of [auth_activate_options] is not looked at, and the
    user is authenticated with [auth_opts] NULL, which [monitor_child_postauth]
    goes through. *)
Lemma different_commands_crash :
  let r := monitor_child_preauth os (two_keys 8) in fst r = Ok tt /\ m_auth_opts (snd r) = None /\ fst (postauth_permits (snd r)) = Crash.
Proof. vm_compute. split_and!; reflexivity. Qed.
End MonitorDemo.
